(* ===== verification/_CoqProject ===== *)
-Q . S2P
Prelude.v
Sdk.v
Rent.v
EpochSchedule.v
Program.v
Borsh.v
SystemInstruction.v
Fixtures.v
Level0.v
Level1.v
Level2.v
Level3.v
TokenState.v
TokenInstruction.v
TokenProcessor.v
TokenFacts.v
TokenSupply.v
TokenSpec.v
TokenSafety.v
VendoredToken.v
TokenCalls.v
Level4.v
Transaction.v
Serialization.v
SerializationFacts.v
ReadBack.v
Nonce.v
SystemProgram.v
SystemSafety.v
AssociatedToken.v
AssociatedSafety.v
Runtime.v
RuntimeSafety.v
Message.v
MessageProcessor.v
MessageFixtures.v
MessageSafety.v
RentCollection.v
Fees.v
AccountLocks.v
RuntimeDepth.v
Loader.v
LoaderFacts.v
CallContexts.v
Ledger.v
LedgerSafety.v
LoaderLedger.v
UpgradeableLoader.v
UpgradeFacts.v
UpgradeSafety.v
LookupTable.v
LookupFacts.v
LookupSafety.v
ShortVec.v
WireFormat.v
Sigverify.v
SigverifyFacts.v
SigverifySafety.v
BatchSafety.v
SigverifyGpu.v
ConfigProgram.v
ConfigSafety.v
TokenLedger.v
TokenRuntime.v
VoteState.v
VoteTower.v
VoteRules.v
VoteAuthority.v
VoteProgram.v
VoteSafety.v
Ebpf.v
EbpfMemory.v
EbpfVerifier.v
EbpfInterpreter.v
EbpfElf.v
EbpfMemoryFacts.v
EbpfSafety.v
EbpfMeter.v
EbpfMachine.v
