(* ===== verification/Prelude.v ===== *)
(** * Verification of the workshop contracts and of the runtime they run on

    The repository is a workshop on the security of Solana programs.  It holds five small
    contracts with planted flaws ([src/neodyme-workshop/contracts/level0] to [level4]), the
    token program they use ([pocs/spl-token-3.3.0], and 3.1.0 vendored with level 4), and
    the sources of the validator that runs them ([pocs/solana-1.11.2]), of which this
    development covers the path from the packets of a transaction to the accounts it changes:
    the wire format and the verification of signatures, the SDK, the runtime, the loader, the
    system, vote, config and lookup table programs, and the virtual machine that runs
    compiled programs.

    ** How the parts interact

    A transaction arrives as the bytes of a packet; packets whose signatures do not verify are
    discarded, the rest is deserialized.  Its message lists account keys and instructions.  The runtime runs the instructions one
    after the other: it pushes a frame, runs the built-in program of the instruction, and
    checks every account of the frame against the copy it took before.  Built-ins are the
    system program, the vote program, the config program, the lookup table program, whose tables give messages
    more account keys, and the loaders; a loader writes the accounts of the
    frame into one buffer, runs the code of an on-chain program on it and reads the accounts
    back.  On-chain programs (the contracts and the token program) call each other through
    the runtime, which checks the privileges and the accounts before and after each call.

    ** The files

    Foundations.
    - [Prelude]: results with panics kept apart, machine integers, lists, options, tactics
      and hints.
    - [Sdk]: [sdk/program/src/pubkey.rs], [program_error.rs], [instruction.rs],
      [account_info.rs]; addresses, errors, instructions, account handles.
    - [Rent]: [sdk/program/src/rent.rs], with its [f64] arithmetic over [spec_float].
    - [Program]: what an on-chain program is, a tree over a store of account cells that stops
      at cross-program calls; the interface of the system program to contracts.
    - [Borsh], [SystemInstruction]: encodings and instruction builders.
    - [Fixtures], [MessageFixtures]: concrete instances for the witnesses.

    Contracts and token program ([ProgM], over account cells).
    - [Level0] ... [Level4]: [contracts/levelN/src/lib.rs] and [processor.rs]; state, codecs,
      client builders, every handler and the entry point.
    - [TokenState], [TokenInstruction], [TokenProcessor]: [spl-token-3.3.0/src/state.rs],
      [instruction.rs], [processor.rs]; [VendoredToken]: the 3.1.0 crate.
    - [TokenSpec]: what each token instruction may do to the cells of the program, and what it
      means that a key signed, written without the code of the processor.
    - [TokenFacts], [TokenSupply], [TokenSafety], [TokenCalls]: their theorems and what the
      token program promises to its callers (a class that [Level4] is proved against).
    - [AssociatedToken], [AssociatedSafety]: [spl-associated-token-account-1.0.5/src], which
      calls the system and token programs, and [spl-memo-3.0.1/src].

    Runtime ([TxM], over the context of a transaction).
    - [Transaction]: [sdk/src/transaction_context.rs]; [Nonce], [SystemProgram],
      [SystemSafety]: nonce accounts and [runtime/src/system_instruction_processor.rs].
    - [Serialization], [SerializationFacts], [ReadBack]: the buffer between the loader and a
      program, [programs/bpf_loader/src/serialization.rs] and [sdk/program/src/entrypoint.rs].
    - [Runtime], [RuntimeSafety], [RuntimeDepth], [CallContexts]: [program-runtime/src]
      ([pre_account.rs], [accounts_data_meter.rs], [invoke_context.rs]).
    - [Message], [MessageProcessor], [MessageSafety]: [sdk/program/src/message] and
      [runtime/src/message_processor.rs].
    - [Loader], [LoaderFacts]: [programs/bpf_loader/src/lib.rs] (finding and
      executing a program) and [syscalls.rs] (calls between programs).
    - [UpgradeableLoader], [UpgradeFacts], [UpgradeSafety]: the instructions of the loaders in
      the same file (buffers, deployments, upgrades) and their builders.
    - [LookupTable], [LookupFacts], [LookupSafety]: [programs/address-lookup-table/src], the
      recent slots of [sdk/program/src/slot_hashes.rs], and the loading of the addresses of a
      message by the bank.
    - [ConfigProgram], [ConfigSafety]: [programs/config/src].
    - [EpochSchedule]: [sdk/program/src/epoch_schedule.rs]; [RentCollection]:
      [runtime/src/rent_collector.rs] and [account_rent_state.rs]; [Fees]: the compute budget
      of a message and its fee, [program-runtime/src/compute_budget.rs] and [runtime/src/bank.rs];
      [AccountLocks]: the locks of accounts in [runtime/src/accounts.rs].
    - [Ledger], [LedgerSafety], [LoaderLedger], [TokenLedger], [TokenRuntime]: a quantity that
      one program keeps is kept by whole messages; the supply of tokens is one.
    - [VoteState], [VoteTower], [VoteRules], [VoteAuthority], [VoteProgram],
      [VoteSafety]: [programs/vote/src].

    Transactions before the runtime (functions of bytes).
    - [ShortVec]: [sdk/program/src/short_vec.rs]; [WireFormat]: [message/versions/mod.rs] and
      [sdk/src/transaction/versioned/mod.rs], messages and transactions as bytes and back.
    - [Sigverify], [SigverifyGpu]: [sdk/src/packet.rs] and [perf/src/sigverify.rs], on the
      processor and with the accelerated library; [SigverifyFacts], [SigverifySafety],
      [BatchSafety]: their theorems.

    Virtual machine ([VmM], over the state of an interpreter; [solana_rbpf-0.2.31/src]).
    - [Ebpf]: [ebpf.rs], the instructions and their encoding; [EbpfMemory]: [memory_region.rs],
      [call_frames.rs] and the errors; [EbpfVerifier]: [verifier.rs].
    - [EbpfInterpreter]: [interpreter.rs] and [vm.rs]; [EbpfElf]: the registry of functions and
      the rewriting of calls in [elf.rs].
    - [EbpfMemoryFacts], [EbpfSafety], [EbpfMeter], [EbpfMachine]: their theorems.

    ** What the theorems show

    - Contracts: what each withdrawal does on every branch, the solvency of the tip pools, and
      for each level the theorem that its flaw loses funds, with the exploit as witness.
    - Token program: every instruction takes exactly its step of the specification [TokenSpec],
      with the signatures the step needs; supply and circulation move together; frozen
      accounts are locked; wrapped lamports stay backed; 3.1.0 agrees with 3.3.0 on the
      accounts the runtime hands out; states and instructions round trip, and the four
      instructions whose decoding panics on short input do.
    - Associated token accounts: a successful creation leaves exactly the token account of the
      wallet at the derived address, funded to the rent minimum; memos are the UTF-8 strings.
    - Runtime: whatever programs do, a successful message keeps the sum of balances, leaves
      read-only accounts and accounts of uninvolved programs alone; nested calls end; the data
      meter misses the growth of nested calls.
    - System program: it implements the interface the contracts are proved against, needs the
      right signatures, and transfers do succeed.
    - Loader: the entry point of a program reads exactly the instruction (unless it repeats an
      account first listed at position 255 or later), and the loader reads
      back exactly what the program left, typed whatever it left; instructions of the
      upgradeable loader change code only under the authority recorded with it.
    - Composition: a message of arbitrary programs, run by the loader with nested calls, keeps
      the supply of every mint.  [LedgerSafety.admissible] says what is assumed of its
      instructions.  [Ledger] is the interface between the token program and the
      runtime; [TokenLedger] discharges it with the theorems of the token program.
    - Vote program: every sequence of instructions keeps the rule of the tower (no vote leaves
      before its lockout expired or it is rooted, roots never go back); accepted votes are on
      the fork of the bank; each change needs its authority; new voters take over at the next
      leader schedule; commissions never overpay.
    - Lookup tables: every instruction changes its table as it says, under its authority; the
      addresses of a message do not depend on what happens to its tables in the same slot,
      and never change; a closed table cannot be created again at its address.
    - Transactions before the runtime: bytes and transactions correspond one to one; the
      verification of packets, which never deserializes them, agrees with that of the
      transaction, so a surviving transaction is signed by its signers; the accelerated
      library gives the same verdicts; duplicates are discarded; compaction loses no packet.
    - Around the runtime: epochs partition the slots; rent is collected once an epoch and
      creates no lamports; fees are exact (and fall when the rate rises), what a message owes
      being specified apart from the code ([Fees.fee_due]); locks are granted in order to exactly
      the transactions that conflict with no holder.
    - Config program: updates are signed by the new signers and, up to one of them, by the
      stored ones; what is stored is read back.
    - Virtual machine: verified programs never panic and write only to the writable regions
      of their memory; metered programs end; rewritten calls reach their targets; calls return
      to their caller; an access may cross a gap of the stack.

    ** Fuel and bounds

    Calls between programs recurse through the runtime with a bound on their depth;
    [RuntimeDepth.call_depth_bounded] shows that any bound above the capacity of the
    instruction stack gives the result every larger bound gives.  The search for an address off
    the curve tries the 255 bump seeds of the code.  The loops over slot hashes in [VoteState]
    carry the number of slots and hashes as fuel; [VoteRules.vote_loop_total] and
    [update_loop_total] show that they never run out.  The loop of the verifier carries the
    number of instructions ([EbpfVerifier.verify_total]), the search in the recent slots
    their number ([LookupFacts.search_found]), the loops of [Sigverify.shrink_batches] the sizes
    they run over ([BatchSafety.shrink_keeps_valid] holds for all batches), and a run of the interpreter
    any fuel: [EbpfMachine.metered_programs_end] shows that one above the instruction meter
    always gives the result.  All other recursion is structural.
    Integers are [Z] with the wrap-around of release builds written out ([wrap64],
    [wrapping_add]) or the checked operation the code uses.

    ** Parameters

    Code that is not in the repository is a parameter with the behaviour it is documented to
    have as a class: SHA-256 and the curve test ([Crypto]), the [borsh] and [bincode]
    encodings ([BorshCrate], [SystemBincode], [NonceBincode], [LoaderBincode],
    [UpgradeableBincode], [LookupBincode], [VoteBincode], [Bincode]), ed25519 ([Ed25519]), the accelerated verification
    library and the seeded hash of the deduplication, and for the virtual machine the hash of the crate
    [hash32] and the symbols the crate [goblin] reads in an ELF file.  Each class has a concrete
    instance.  The contracts are modelled from their sources; that the bytes of a program
    account hold the compiled form of such a contract is a parameter of the loader, so the
    model of the loader and that of the virtual machine stand side by side.

    ** Not modelled

    - The proof-of-concept binaries of the levels and their framework: clients of the code above.
    - The stake program, whose rewards and warm-up rates are [f64] products and powers, and the precompiles; programs of the deprecated loader; the cache of executors.
    - Of the virtual machine: loading and relocating ELF files, the just-in-time compiler,
      the assembler, the disassembler and the static analysis.
    - The threads of the verification stage, signing, and the text forms of keys and signatures.
    - Accounts storage, the rest of the bank, consensus, networking and tooling of the
      validator.
    - Compute metering of the syscalls and the runtime, logs, metrics and timing; they do not change accounts, except that
      running out of compute units aborts a transaction. *)

From stdpp Require Export base prelude gmap strings list countable.
From Stdlib Require Export ZArith Lia.
From Stdlib Require Import Strings.Byte.

#[global] Open Scope Z_scope.

(** ** Outcomes of Rust code

    A Rust function returning [Result<A, E>] either returns a value, returns an
    error, or panics ([assert!], [unwrap], slice indexing out of range).  The
    three are kept apart. *)
Inductive result (E A : Type) : Type :=
| Ok (a : A)
| Err (e : E)
| Panic.
Arguments Ok {E A} a.
Arguments Err {E A} e.
Arguments Panic {E A}.

#[global] Instance result_ret {E} : MRet (result E) := fun _ a => Ok a.
#[global] Instance result_bind {E} : MBind (result E) := fun _ _ f m =>
  match m with Ok a => f a | Err e => Err e | Panic => Panic end.
#[global] Instance result_fmap {E} : FMap (result E) := fun _ _ f m =>
  match m with Ok a => Ok (f a) | Err e => Err e | Panic => Panic end.

(** [opt.ok_or(e)?] *)
Definition ok_or {E A} (o : option A) (e : E) : result E A :=
  match o with Some a => Ok a | None => Err e end.

(** [opt.unwrap()], [opt.expect(..)] *)
Definition unwrap {E A} (o : option A) : result E A :=
  match o with Some a => Ok a | None => Panic end.

(** [r.map_err(f)] *)
Definition map_err {E F A} (f : E -> F) (r : result E A) : result F A :=
  match r with Ok a => Ok a | Err e => Err (f e) | Panic => Panic end.

(** [if !b { return Err(e) }] *)
Definition ensure {E} (b : bool) (e : E) : result E unit :=
  if b then Ok tt else Err e.

(** [assert!(b)] *)
Definition assert_ {E} (b : bool) : result E unit :=
  if b then Ok tt else Panic.

Definition is_ok {E A} (r : result E A) : bool :=
  match r with Ok _ => true | _ => false end.

Lemma result_bind_ok {E A B} (f : A -> result E B) (m : result E A) b :
  mbind f m = Ok b <-> exists a, m = Ok a /\ f a = Ok b.
Proof.
  destruct m; cbn; split; intros H.
  - eauto.
  - by destruct H as (? & [= ->] & ?).
  - done.
  - by destruct H as (? & ? & ?).
  - done.
  - by destruct H as (? & ? & ?).
Qed.

Lemma ok_or_ok {E A} (o : option A) (e : E) a : ok_or o e = Ok a <-> o = Some a.
Proof. destruct o; cbn; naive_solver. Qed.

Lemma unwrap_ok {E A} (o : option A) a : unwrap (E:=E) o = Ok a <-> o = Some a.
Proof. destruct o; cbn; naive_solver. Qed.

Lemma ensure_ok {E} (b : bool) (e : E) u : ensure b e = Ok u <-> b = true.
Proof. destruct b, u; cbn; naive_solver. Qed.

Lemma assert_ok {E} (b : bool) u : assert_ (E:=E) b = Ok u <-> b = true.
Proof. destruct b, u; cbn; naive_solver. Qed.

Lemma map_err_ok {E F A} (f : E -> F) (r : result E A) a :
  map_err f r = Ok a <-> r = Ok a.
Proof. destruct r; cbn; naive_solver. Qed.

(** ** Machine integers

    [u64], [u32], [usize] values are [Z]s; the type's range is stated where it
    matters and the arithmetic writes its wrap-around or check out.  The
    programs are built in release mode without overflow checks, so the plain
    operators [+] and [-] wrap. *)
Definition U64_MAX : Z := 2 ^ 64 - 1.
Definition is_u64 (z : Z) : Prop := 0 <= z <= U64_MAX.
Definition is_u64b (z : Z) : bool := (0 <=? z) && (z <=? U64_MAX).

Definition wrap64 (z : Z) : Z := z mod 2 ^ 64.
Definition wrapping_add (a b : Z) : Z := wrap64 (a + b).
Definition wrapping_sub (a b : Z) : Z := wrap64 (a - b).
Definition wrapping_mul (a b : Z) : Z := wrap64 (a * b).
Definition saturating_add (a b : Z) : Z := Z.min U64_MAX (a + b).
Definition saturating_sub (a b : Z) : Z := Z.max 0 (a - b).
Definition saturating_mul (a b : Z) : Z := Z.min U64_MAX (a * b).
Definition checked_add (a b : Z) : option Z :=
  if a + b <=? U64_MAX then Some (a + b) else None.
Definition checked_sub (a b : Z) : option Z :=
  if b <=? a then Some (a - b) else None.

Lemma is_u64b_spec z : is_u64b z = true <-> is_u64 z.
Proof. unfold is_u64b, is_u64. rewrite andb_true_iff, !Z.leb_le. done. Qed.

Lemma wrap64_small z : is_u64 z -> wrap64 z = z.
Proof. unfold is_u64, U64_MAX, wrap64. intros. apply Z.mod_small. lia. Qed.

Lemma wrap64_range z : is_u64 (wrap64 z).
Proof.
  unfold is_u64, U64_MAX, wrap64.
  pose proof (Z.mod_pos_bound z (2 ^ 64) ltac:(lia)). lia.
Qed.

Lemma checked_add_some a b c :
  checked_add a b = Some c <-> c = a + b /\ a + b <= U64_MAX.
Proof. unfold checked_add. destruct (Z.leb_spec (a + b) U64_MAX); naive_solver lia. Qed.

Lemma checked_sub_some a b c :
  checked_sub a b = Some c <-> c = a - b /\ b <= a.
Proof. unfold checked_sub. destruct (Z.leb_spec b a); naive_solver lia. Qed.

(** ** Bytes *)
#[global] Instance byte_eq_dec : EqDecision byte := Byte.byte_eq_dec.

#[global] Program Instance byte_countable : Countable byte :=
  inj_countable Byte.to_N Byte.of_N Byte.of_to_N.

(** The value of a [u8], and the [u8] a value is truncated to. *)
Definition u8_val (b : byte) : Z := Z.of_N (Byte.to_N b).
Definition u8_of (z : Z) : byte :=
  match Byte.of_N (Z.to_N (z mod 256)) with Some b => b | None => x00 end.

Lemma u8_val_range b : 0 <= u8_val b < 256.
Proof. unfold u8_val. pose proof (Byte.to_N_bounded b). lia. Qed.

Lemma u8_of_val b : u8_of (u8_val b) = b.
Proof.
  unfold u8_of. rewrite Z.mod_small by apply u8_val_range.
  unfold u8_val. by rewrite N2Z.id, Byte.of_to_N.
Qed.

Lemma u8_of_eq z b : z = u8_val b -> u8_of z = b.
Proof. intros ->. apply u8_of_val. Qed.

Lemma u8_val_of z : u8_val (u8_of z) = z mod 256.
Proof.
  unfold u8_of, u8_val.
  pose proof (Z.mod_pos_bound z 256 ltac:(lia)) as Hz.
  destruct (Byte.of_N (Z.to_N (z mod 256))) as [b|] eqn:E.
  - apply Byte.to_of_N in E. rewrite E. lia.
  - apply Byte.of_N_None_iff in E. lia.
Qed.

Lemma u8_val_inj a b : u8_val a = u8_val b -> a = b.
Proof. intros H. by rewrite <-(u8_of_val a), <-(u8_of_val b), H. Qed.

Definition u8_eqb (a b : byte) : bool := Byte.eqb a b.

Lemma u8_eqb_eq a b : u8_eqb a b = true <-> a = b.
Proof. unfold u8_eqb. split; [apply Byte.byte_dec_bl | apply Byte.byte_dec_lb]. Qed.

(** ** Little-endian integers: [to_le_bytes], [from_le_bytes] *)
Fixpoint to_le_bytes (n : nat) (z : Z) : list byte :=
  match n with
  | O => []
  | S n => u8_of z :: to_le_bytes n (z / 256)
  end.

Fixpoint from_le_bytes (l : list byte) : Z :=
  match l with
  | [] => 0
  | b :: l => u8_val b + 256 * from_le_bytes l
  end.

Lemma length_to_le_bytes n z : length (to_le_bytes n z) = n.
Proof. revert z; induction n; intros; cbn; auto. Qed.

Lemma from_to_le_bytes n z :
  from_le_bytes (to_le_bytes n z) = z mod 256 ^ Z.of_nat n.
Proof.
  revert z; induction n as [|n IH]; intros z.
  - cbn. by rewrite Z.mod_1_r.
  - cbn [to_le_bytes from_le_bytes]. rewrite IH, u8_val_of, Nat2Z.inj_succ, Z.pow_succ_r by lia.
    rewrite Z.rem_mul_r by lia. lia.
Qed.

Lemma from_le_bytes_range l : 0 <= from_le_bytes l < 256 ^ Z.of_nat (length l).
Proof.
  induction l as [|b l IH]; cbn [from_le_bytes length]; [done|].
  pose proof (u8_val_range b).
  rewrite Nat2Z.inj_succ, Z.pow_succ_r by lia. lia.
Qed.

Lemma to_from_le_bytes l : to_le_bytes (length l) (from_le_bytes l) = l.
Proof.
  induction l as [|b l IH]; cbn [from_le_bytes length to_le_bytes]; [done|].
  pose proof (u8_val_range b). f_equal.
  - apply u8_val_inj. rewrite u8_val_of.
    rewrite Z.mul_comm, Z.mod_add by lia. apply Z.mod_small. lia.
  - rewrite Z.mul_comm, Z.div_add by lia. by rewrite Z.div_small, Z.add_0_l by lia.
Qed.

Definition u64_le (z : Z) : list byte := to_le_bytes 8 z.

Lemma length_u64_le z : length (u64_le z) = 8%nat.
Proof. apply length_to_le_bytes. Qed.

Lemma from_u64_le z : is_u64 z -> from_le_bytes (u64_le z) = z.
Proof.
  intros Hz. unfold u64_le. rewrite from_to_le_bytes. apply Z.mod_small.
  unfold is_u64, U64_MAX in Hz. change (256 ^ Z.of_nat 8) with (2 ^ 64). lia.
Qed.

Lemma from_le_bytes_u64 l : length l = 8%nat -> is_u64 (from_le_bytes l).
Proof.
  intros Hl. pose proof (from_le_bytes_range l) as H. rewrite Hl in H.
  change (256 ^ Z.of_nat 8) with (2 ^ 64) in H. unfold is_u64, U64_MAX. lia.
Qed.

Lemma from_le_bytes_take8 l : is_u64 (from_le_bytes (take 8 l)).
Proof.
  pose proof (from_le_bytes_range (take 8 l)) as H.
  assert (256 ^ Z.of_nat (length (take 8 l)) <= 256 ^ 8)
    by (apply Z.pow_le_mono_r; [lia|rewrite length_take; lia]).
  change (256 ^ 8) with (2 ^ 64) in *. unfold is_u64, U64_MAX. lia.
Qed.

Lemma u64_le_from l : length l = 8%nat -> u64_le (from_le_bytes l) = l.
Proof. intros H. unfold u64_le. rewrite <-H. apply to_from_le_bytes. Qed.

(** [slice.copy_from_slice]-style overwrite of the first bytes of a buffer. *)
Definition write_prefix (src dst : list byte) : list byte :=
  src ++ drop (length src) dst.

Lemma length_write_prefix src dst :
  (length src <= length dst)%nat -> length (write_prefix src dst) = length dst.
Proof. intros. unfold write_prefix. rewrite length_app, length_drop. lia. Qed.

(** [buf.iter().all(|b| *b == 0)] *)
Definition all_zero (l : list byte) : bool := forallb (u8_eqb x00) l.

Lemma all_zero_replicate n : all_zero (replicate n x00) = true.
Proof. by induction n. Qed.

Lemma all_zero_iff l : all_zero l = true <-> l = replicate (length l) x00.
Proof.
  split; [|intros ->; apply all_zero_replicate]. induction l as [|b l IH]; [done|].
  unfold all_zero in *. cbn [forallb length replicate]. rewrite andb_true_iff, u8_eqb_eq.
  intros [<- Hl]. by rewrite <-IH.
Qed.

(** ** Automation *)
Create HintDb sol.
#[export] Hint Resolve wrap64_range u8_val_range from_le_bytes_u64 : sol.
#[export] Hint Rewrite length_to_le_bytes length_u64_le @length_app @length_take
  @length_drop @length_replicate : sol_len.

(** Break an equation [e = Ok x] for straight-line code in the [result] monad
    into the equations of its steps. *)
Ltac inv_ok :=
  repeat match goal with
  | H : mbind _ _ = Ok _ |- _ => apply result_bind_ok in H as (? & ? & H)
  | H : ok_or _ _ = Ok _ |- _ => apply ok_or_ok in H
  | H : unwrap _ = Ok _ |- _ => apply unwrap_ok in H
  | H : ensure _ _ = Ok _ |- _ => apply ensure_ok in H
  | H : assert_ _ = Ok _ |- _ => apply assert_ok in H
  | H : map_err _ _ = Ok _ |- _ => apply map_err_ok in H
  | H : Ok _ = Ok _ |- _ => injection H as H
  | H : Err _ = Ok _ |- _ => discriminate H
  | H : Panic = Ok _ |- _ => discriminate H
  | H : Some _ = Some _ |- _ => injection H as H
  | H : checked_add _ _ = Some _ |- _ => apply checked_add_some in H as [? ?]
  | H : checked_sub _ _ = Some _ |- _ => apply checked_sub_some in H as [? ?]
  | x : unit |- _ => destruct x
  end.
