(* ===== verification/Sdk.v ===== *)
(** * The Solana program SDK

    The vocabulary every on-chain program is written in: addresses and program
    derived addresses ([sdk/program/src/pubkey.rs]), the two error types and
    their conversions ([program_error.rs], [instruction.rs]), instructions and
    account metas ([instruction.rs]), accounts and the [AccountInfo] handles a
    program receives ([account_info.rs]), and the two ways of calling another
    program ([program.rs]). *)

From Stdlib Require Import Strings.Byte StrictProp.
From S2P Require Import Prelude.

(** ** 32-byte arrays: [Pubkey] and [Hash] *)

(** [SProp]-valued reading of a boolean: two arrays with the same bytes are
    convertible. *)
Definition SIs_true (b : bool) : SProp := if b then sUnit else sEmpty.

(** A function of a proof of [b], applied when [b] holds. *)
Definition when_true {A} (b : bool) : (SIs_true b -> A) -> option A :=
  match b with true => fun f => Some (f stt) | false => fun _ => None end.

Lemma when_true_some {A} (b : bool) (f : SIs_true b -> A) (H : SIs_true b) :
  when_true b f = Some (f H).
Proof. destruct b; [done | destruct H]. Qed.

Lemma when_true_inv {A} (b : bool) (f : SIs_true b -> A) (P : A -> Prop) a :
  (forall H, P (f H)) -> when_true b f = Some a -> P a.
Proof. destruct b; cbn; [|done]. intros HP [= <-]. apply HP. Qed.

(** [pub struct Pubkey(pub(crate) [u8; 32])] *)
Record Pubkey : Type := Pk {
  to_bytes : list byte;
  to_bytes_len : SIs_true (length to_bytes =? 32)%nat
}.

(** [Pubkey::new]: panics (here [None]) when the slice has another length. *)
Definition Pubkey_new (l : list byte) : option Pubkey :=
  when_true (length l =? 32)%nat (Pk l).

Lemma length_to_bytes k : length (to_bytes k) = 32%nat.
Proof.
  destruct k as [l Hl]. cbn. destruct (length l =? 32)%nat eqn:E.
  - by apply Nat.eqb_eq.
  - destruct Hl.
Qed.

Lemma to_bytes_inj a b : to_bytes a = to_bytes b -> a = b.
Proof. destruct a as [l Hl], b as [l' Hl']. cbn. intros E. destruct E. reflexivity. Qed.

Lemma Pubkey_new_to_bytes k : Pubkey_new (to_bytes k) = Some k.
Proof. destruct k as [l Hl]. apply when_true_some. Qed.

Lemma Pubkey_new_some l k : Pubkey_new l = Some k <-> to_bytes k = l.
Proof.
  split; [|intros <-; apply Pubkey_new_to_bytes].
  apply (when_true_inv _ (Pk l) (fun k => to_bytes k = l)). done.
Qed.

Lemma Pubkey_new_len l : length l = 32%nat -> exists k, Pubkey_new l = Some k.
Proof. intros H. unfold Pubkey_new. generalize (Pk l). rewrite H. cbn. eauto. Qed.

#[global] Instance Pubkey_eq_dec : EqDecision Pubkey.
Proof.
  intros a b. destruct (decide (to_bytes a = to_bytes b)) as [E|E].
  - left. by apply to_bytes_inj.
  - right. by intros ->.
Defined.

#[global] Program Instance Pubkey_countable : Countable Pubkey :=
  inj_countable to_bytes Pubkey_new _.
Next Obligation. intros k. apply Pubkey_new_to_bytes. Qed.

(** [a == b] on addresses; also [sol_memcmp(a, b, 32) == 0]. *)
Definition key_eqb (a b : Pubkey) : bool := bool_decide (a = b).

Lemma key_eqb_eq a b : key_eqb a b = true <-> a = b.
Proof. apply bool_decide_eq_true. Qed.

Lemma key_eqb_neq a b : key_eqb a b = false <-> a <> b.
Proof. apply bool_decide_eq_false. Qed.

Lemma key_eqb_refl a : key_eqb a a = true.
Proof. by apply key_eqb_eq. Qed.

(** The address whose bytes are the big-endian digits of [z]; the base58
    addresses of the sources are written this way. *)
Definition pubkey_of_Z (z : Z) : Pubkey :=
  match Pubkey_new (rev (to_le_bytes 32 z)) with
  | Some k => k
  | None => Pk (replicate 32 x00) stt
  end.

(** [Pubkey::default()] *)
Definition Pubkey_default : Pubkey := Pk (replicate 32 x00) stt.

(** [declare_id!] constants. *)
Definition system_program_id : Pubkey := Pubkey_default.
Definition rent_sysvar_id : Pubkey :=
  pubkey_of_Z 0x6a7d517192c5c51218cc94c3d4af17f58daee089ba1fd44e3dbd98a00000000.
Definition native_loader_id : Pubkey :=
  pubkey_of_Z 0x58784bf148ba4282fb012574888a9f153a07dadf765c0455c9a970380000000.
Definition bpf_loader_id : Pubkey :=
  pubkey_of_Z 0x2a8f6914e88a16e395ae128948ffa695693376818dd47435221f3c600000000.
Definition bpf_loader_deprecated_id : Pubkey :=
  pubkey_of_Z 0x2a8f6914e88a16bbd2395855f6404d9b4f456b7821bb0145749428c00000000.
Definition bpf_loader_upgradeable_id : Pubkey :=
  pubkey_of_Z 0x2a8f6914e88a1b0e210153ef763ae2b00c2b93d16c124d2c0537a1004800000.

(** ** Errors *)

Module InstructionError.

Inductive instruction_error : Type :=
| GenericError | InvalidArgument | InvalidInstructionData | InvalidAccountData
| AccountDataTooSmall | InsufficientFunds | IncorrectProgramId
| MissingRequiredSignature | AccountAlreadyInitialized | UninitializedAccount
| UnbalancedInstruction | ModifiedProgramId | ExternalAccountLamportSpend
| ExternalAccountDataModified | ReadonlyLamportChange | ReadonlyDataModified
| DuplicateAccountIndex | ExecutableModified | RentEpochModified
| NotEnoughAccountKeys | AccountDataSizeChanged | AccountNotExecutable
| AccountBorrowFailed | AccountBorrowOutstanding | DuplicateAccountOutOfSync
| Custom (e : Z) | InvalidError | ExecutableDataModified
| ExecutableLamportChange | ExecutableAccountNotRentExempt
| UnsupportedProgramId | CallDepth | MissingAccount | ReentrancyNotAllowed
| MaxSeedLengthExceeded | InvalidSeeds | InvalidRealloc
| ComputationalBudgetExceeded | PrivilegeEscalation
| ProgramEnvironmentSetupFailure | ProgramFailedToComplete
| ProgramFailedToCompile | Immutable | IncorrectAuthority
| BorshIoError (s : string) | AccountNotRentExempt | InvalidAccountOwner
| ArithmeticOverflow | UnsupportedSysvar | IllegalOwner
| MaxAccountsDataSizeExceeded | ActiveVoteAccountClose.

End InstructionError.
Abbreviation InstructionError := InstructionError.instruction_error.

Module ProgramError.

Inductive program_error : Type :=
| Custom (e : Z) | InvalidArgument | InvalidInstructionData | InvalidAccountData
| AccountDataTooSmall | InsufficientFunds | IncorrectProgramId
| MissingRequiredSignature | AccountAlreadyInitialized | UninitializedAccount
| NotEnoughAccountKeys | AccountBorrowFailed | MaxSeedLengthExceeded
| InvalidSeeds | BorshIoError (s : string) | AccountNotRentExempt
| UnsupportedSysvar | IllegalOwner | MaxAccountsDataSizeExceeded
| InvalidRealloc.

End ProgramError.
Abbreviation ProgramError := ProgramError.program_error.

#[global] Instance program_error_eq_dec : EqDecision ProgramError.
Proof. solve_decision. Defined.
#[global] Instance instruction_error_eq_dec : EqDecision InstructionError.
Proof. solve_decision. Defined.

(** Builtin return values occupy the upper 32 bits. *)
Definition BUILTIN_BIT_SHIFT : Z := 32.
Definition to_builtin (error : Z) : Z := wrap64 (Z.shiftl error BUILTIN_BIT_SHIFT).

Definition CUSTOM_ZERO : Z := to_builtin 1.
Definition INVALID_ARGUMENT : Z := to_builtin 2.
Definition INVALID_INSTRUCTION_DATA : Z := to_builtin 3.
Definition INVALID_ACCOUNT_DATA : Z := to_builtin 4.
Definition ACCOUNT_DATA_TOO_SMALL : Z := to_builtin 5.
Definition INSUFFICIENT_FUNDS : Z := to_builtin 6.
Definition INCORRECT_PROGRAM_ID : Z := to_builtin 7.
Definition MISSING_REQUIRED_SIGNATURES : Z := to_builtin 8.
Definition ACCOUNT_ALREADY_INITIALIZED : Z := to_builtin 9.
Definition UNINITIALIZED_ACCOUNT : Z := to_builtin 10.
Definition NOT_ENOUGH_ACCOUNT_KEYS : Z := to_builtin 11.
Definition ACCOUNT_BORROW_FAILED : Z := to_builtin 12.
Definition MAX_SEED_LENGTH_EXCEEDED : Z := to_builtin 13.
Definition INVALID_SEEDS : Z := to_builtin 14.
Definition BORSH_IO_ERROR : Z := to_builtin 15.
Definition ACCOUNT_NOT_RENT_EXEMPT : Z := to_builtin 16.
Definition UNSUPPORTED_SYSVAR : Z := to_builtin 17.
Definition ILLEGAL_OWNER : Z := to_builtin 18.
Definition MAX_ACCOUNTS_DATA_SIZE_EXCEEDED : Z := to_builtin 19.
Definition INVALID_ACCOUNT_DATA_REALLOC : Z := to_builtin 20.

(** [impl From<ProgramError> for u64] *)
Definition u64_from_program_error (error : ProgramError) : Z :=
  match error with
  | ProgramError.InvalidArgument => INVALID_ARGUMENT
  | ProgramError.InvalidInstructionData => INVALID_INSTRUCTION_DATA
  | ProgramError.InvalidAccountData => INVALID_ACCOUNT_DATA
  | ProgramError.AccountDataTooSmall => ACCOUNT_DATA_TOO_SMALL
  | ProgramError.InsufficientFunds => INSUFFICIENT_FUNDS
  | ProgramError.IncorrectProgramId => INCORRECT_PROGRAM_ID
  | ProgramError.MissingRequiredSignature => MISSING_REQUIRED_SIGNATURES
  | ProgramError.AccountAlreadyInitialized => ACCOUNT_ALREADY_INITIALIZED
  | ProgramError.UninitializedAccount => UNINITIALIZED_ACCOUNT
  | ProgramError.NotEnoughAccountKeys => NOT_ENOUGH_ACCOUNT_KEYS
  | ProgramError.AccountBorrowFailed => ACCOUNT_BORROW_FAILED
  | ProgramError.MaxSeedLengthExceeded => MAX_SEED_LENGTH_EXCEEDED
  | ProgramError.InvalidSeeds => INVALID_SEEDS
  | ProgramError.BorshIoError _ => BORSH_IO_ERROR
  | ProgramError.AccountNotRentExempt => ACCOUNT_NOT_RENT_EXEMPT
  | ProgramError.UnsupportedSysvar => UNSUPPORTED_SYSVAR
  | ProgramError.IllegalOwner => ILLEGAL_OWNER
  | ProgramError.MaxAccountsDataSizeExceeded => MAX_ACCOUNTS_DATA_SIZE_EXCEEDED
  | ProgramError.InvalidRealloc => INVALID_ACCOUNT_DATA_REALLOC
  | ProgramError.Custom error => if error =? 0 then CUSTOM_ZERO else error
  end.

(** [impl From<u64> for ProgramError] *)
Definition program_error_from_u64 (error : Z) : ProgramError :=
  if error =? CUSTOM_ZERO then ProgramError.Custom 0
  else if error =? INVALID_ARGUMENT then ProgramError.InvalidArgument
  else if error =? INVALID_INSTRUCTION_DATA then ProgramError.InvalidInstructionData
  else if error =? INVALID_ACCOUNT_DATA then ProgramError.InvalidAccountData
  else if error =? ACCOUNT_DATA_TOO_SMALL then ProgramError.AccountDataTooSmall
  else if error =? INSUFFICIENT_FUNDS then ProgramError.InsufficientFunds
  else if error =? INCORRECT_PROGRAM_ID then ProgramError.IncorrectProgramId
  else if error =? MISSING_REQUIRED_SIGNATURES then ProgramError.MissingRequiredSignature
  else if error =? ACCOUNT_ALREADY_INITIALIZED then ProgramError.AccountAlreadyInitialized
  else if error =? UNINITIALIZED_ACCOUNT then ProgramError.UninitializedAccount
  else if error =? NOT_ENOUGH_ACCOUNT_KEYS then ProgramError.NotEnoughAccountKeys
  else if error =? ACCOUNT_BORROW_FAILED then ProgramError.AccountBorrowFailed
  else if error =? MAX_SEED_LENGTH_EXCEEDED then ProgramError.MaxSeedLengthExceeded
  else if error =? INVALID_SEEDS then ProgramError.InvalidSeeds
  else if error =? BORSH_IO_ERROR then ProgramError.BorshIoError "Unknown"
  else if error =? ACCOUNT_NOT_RENT_EXEMPT then ProgramError.AccountNotRentExempt
  else if error =? UNSUPPORTED_SYSVAR then ProgramError.UnsupportedSysvar
  else if error =? ILLEGAL_OWNER then ProgramError.IllegalOwner
  else if error =? MAX_ACCOUNTS_DATA_SIZE_EXCEEDED then ProgramError.MaxAccountsDataSizeExceeded
  else if error =? INVALID_ACCOUNT_DATA_REALLOC then ProgramError.InvalidRealloc
  else ProgramError.Custom (error mod 2 ^ 32).

(** [impl<T: ToPrimitive> From<T> for InstructionError], at the [u64] a program
    returned or the discriminant of an error enum. *)
Definition instruction_error_from_u64 (error : Z) : InstructionError :=
  if error =? CUSTOM_ZERO then InstructionError.Custom 0
  else if error =? INVALID_ARGUMENT then InstructionError.InvalidArgument
  else if error =? INVALID_INSTRUCTION_DATA then InstructionError.InvalidInstructionData
  else if error =? INVALID_ACCOUNT_DATA then InstructionError.InvalidAccountData
  else if error =? ACCOUNT_DATA_TOO_SMALL then InstructionError.AccountDataTooSmall
  else if error =? INSUFFICIENT_FUNDS then InstructionError.InsufficientFunds
  else if error =? INCORRECT_PROGRAM_ID then InstructionError.IncorrectProgramId
  else if error =? MISSING_REQUIRED_SIGNATURES then InstructionError.MissingRequiredSignature
  else if error =? ACCOUNT_ALREADY_INITIALIZED then InstructionError.AccountAlreadyInitialized
  else if error =? UNINITIALIZED_ACCOUNT then InstructionError.UninitializedAccount
  else if error =? NOT_ENOUGH_ACCOUNT_KEYS then InstructionError.NotEnoughAccountKeys
  else if error =? ACCOUNT_BORROW_FAILED then InstructionError.AccountBorrowFailed
  else if error =? MAX_SEED_LENGTH_EXCEEDED then InstructionError.MaxSeedLengthExceeded
  else if error =? INVALID_SEEDS then InstructionError.InvalidSeeds
  else if error =? BORSH_IO_ERROR then InstructionError.BorshIoError "Unknown"
  else if error =? ACCOUNT_NOT_RENT_EXEMPT then InstructionError.AccountNotRentExempt
  else if error =? UNSUPPORTED_SYSVAR then InstructionError.UnsupportedSysvar
  else if error =? ILLEGAL_OWNER then InstructionError.IllegalOwner
  else if error =? MAX_ACCOUNTS_DATA_SIZE_EXCEEDED then InstructionError.MaxAccountsDataSizeExceeded
  else if error =? INVALID_ACCOUNT_DATA_REALLOC then InstructionError.InvalidRealloc
  else if Z.shiftr error BUILTIN_BIT_SHIFT =? 0 then InstructionError.Custom (error mod 2 ^ 32)
  else InstructionError.InvalidError.

(** [impl TryFrom<InstructionError> for ProgramError]; [None] is the error case,
    which returns the argument. *)
Definition program_error_try_from (error : InstructionError) : option ProgramError :=
  match error with
  | InstructionError.Custom err => Some (ProgramError.Custom err)
  | InstructionError.InvalidArgument => Some ProgramError.InvalidArgument
  | InstructionError.InvalidInstructionData => Some ProgramError.InvalidInstructionData
  | InstructionError.InvalidAccountData => Some ProgramError.InvalidAccountData
  | InstructionError.AccountDataTooSmall => Some ProgramError.AccountDataTooSmall
  | InstructionError.InsufficientFunds => Some ProgramError.InsufficientFunds
  | InstructionError.IncorrectProgramId => Some ProgramError.IncorrectProgramId
  | InstructionError.MissingRequiredSignature => Some ProgramError.MissingRequiredSignature
  | InstructionError.AccountAlreadyInitialized => Some ProgramError.AccountAlreadyInitialized
  | InstructionError.UninitializedAccount => Some ProgramError.UninitializedAccount
  | InstructionError.NotEnoughAccountKeys => Some ProgramError.NotEnoughAccountKeys
  | InstructionError.AccountBorrowFailed => Some ProgramError.AccountBorrowFailed
  | InstructionError.MaxSeedLengthExceeded => Some ProgramError.MaxSeedLengthExceeded
  | InstructionError.InvalidSeeds => Some ProgramError.InvalidSeeds
  | InstructionError.BorshIoError err => Some (ProgramError.BorshIoError err)
  | InstructionError.AccountNotRentExempt => Some ProgramError.AccountNotRentExempt
  | InstructionError.UnsupportedSysvar => Some ProgramError.UnsupportedSysvar
  | InstructionError.IllegalOwner => Some ProgramError.IllegalOwner
  | InstructionError.MaxAccountsDataSizeExceeded => Some ProgramError.MaxAccountsDataSizeExceeded
  | InstructionError.InvalidRealloc => Some ProgramError.InvalidRealloc
  | _ => None
  end.

(** Errors as the runtime can hand them over: [Custom] carries a [u32] and the
    text of an I/O error is not transmitted. *)
Definition transmissible (e : ProgramError) : Prop :=
  match e with
  | ProgramError.Custom n => 0 <= n < 2 ^ 32
  | ProgramError.BorshIoError s => s = "Unknown"%string
  | _ => True
  end.

(** The error enums' [u32] discriminants as [InstructionError::Custom]; a
    discriminant is below [2^32], so no builtin code is hit. *)
Definition instruction_error_of_discriminant (n : Z) : InstructionError :=
  instruction_error_from_u64 n.

(** ** Program derived addresses

    SHA-256 and the ed25519 curve test come from crates that are not part of
    the repository; the derivation is parametric in both. *)
Class Crypto : Type := {
  sha256 : list byte -> Pubkey;  (* a 32-byte hash *)
  bytes_are_curve_point : Pubkey -> bool
}.

Module PubkeyError.
Inductive pubkey_error : Type :=
| MaxSeedLengthExceeded | InvalidSeeds | IllegalOwner.
End PubkeyError.
Abbreviation PubkeyError := PubkeyError.pubkey_error.

(** [impl From<PubkeyError> for ProgramError] *)
Definition program_error_of_pubkey_error (e : PubkeyError) : ProgramError :=
  match e with
  | PubkeyError.MaxSeedLengthExceeded => ProgramError.MaxSeedLengthExceeded
  | PubkeyError.InvalidSeeds => ProgramError.InvalidSeeds
  | PubkeyError.IllegalOwner => ProgramError.IllegalOwner
  end.

Definition MAX_SEED_LEN : nat := 32.
Definition MAX_SEEDS : nat := 16.

(** [b"ProgramDerivedAddress"] *)
Definition PDA_MARKER : list byte := String.list_byte_of_string "ProgramDerivedAddress".

Section pda.
Context `{Crypto}.

(** [hashv] hashes the concatenation of its slices. *)
Definition hashv (vals : list (list byte)) : Pubkey := sha256 (concat vals).

Definition create_program_address (seeds : list (list byte)) (program_id : Pubkey)
    : result PubkeyError Pubkey :=
  if (MAX_SEEDS <? length seeds)%nat then Err PubkeyError.MaxSeedLengthExceeded
  else if existsb (fun seed => (MAX_SEED_LEN <? length seed)%nat) seeds
  then Err PubkeyError.MaxSeedLengthExceeded
  else
    let hash := hashv (seeds ++ [to_bytes program_id; PDA_MARKER]) in
    if bytes_are_curve_point hash then Err PubkeyError.InvalidSeeds
    else Ok hash.

(** The loop of [try_find_program_address]: [fuel] iterations are left and the
    bump seed to try next is [bump]. *)
Fixpoint try_find_loop (fuel : nat) (bump : byte) (seeds : list (list byte))
    (program_id : Pubkey) : option (Pubkey * byte) :=
  match fuel with
  | O => None
  | S fuel =>
      match create_program_address (seeds ++ [[bump]]) program_id with
      | Ok address => Some (address, bump)
      | Err PubkeyError.InvalidSeeds =>
          try_find_loop fuel (u8_of (u8_val bump - 1)) seeds program_id
      | _ => None
      end
  end.

(** [for _ in 0..std::u8::MAX] starting at [bump_seed = [u8::MAX]] *)
Definition try_find_program_address (seeds : list (list byte)) (program_id : Pubkey)
    : option (Pubkey * byte) :=
  try_find_loop 255 xff seeds program_id.

(** Panics, here [None], when no bump seed works. *)
Definition find_program_address (seeds : list (list byte)) (program_id : Pubkey)
    : option (Pubkey * byte) :=
  try_find_program_address seeds program_id.

(** [Pubkey::create_with_seed]; a [&str] seed is its UTF-8 bytes. *)
Definition create_with_seed (base : Pubkey) (seed : list byte) (owner : Pubkey)
    : result PubkeyError Pubkey :=
  if (MAX_SEED_LEN <? length seed)%nat then Err PubkeyError.MaxSeedLengthExceeded
  else
    let o := to_bytes owner in
    if (length PDA_MARKER <=? length o)%nat
       && bool_decide (drop (length o - length PDA_MARKER) o = PDA_MARKER)
    then Err PubkeyError.IllegalOwner
    else Ok (hashv [to_bytes base; seed; o]).

End pda.

(** ** Instructions *)

Record AccountMeta : Type := mkAccountMeta {
  am_pubkey : Pubkey;
  am_is_signer : bool;
  am_is_writable : bool
}.

Definition AccountMeta_new (pubkey : Pubkey) (is_signer : bool) : AccountMeta :=
  mkAccountMeta pubkey is_signer true.

Definition AccountMeta_new_readonly (pubkey : Pubkey) (is_signer : bool) : AccountMeta :=
  mkAccountMeta pubkey is_signer false.

Record Instruction : Type := mkInstruction {
  ix_program_id : Pubkey;
  ix_accounts : list AccountMeta;
  ix_data : list byte
}.

(** ** Accounts

    The state of an account, and the handle a program holds on it.  The runtime
    gives all handles of one address a single [lamports] cell and a single
    [data] cell ([entrypoint.rs] clones the first handle for a duplicate), so
    the cells live in a store indexed by address and an [AccountInfo] carries
    the address and the privileges of its meta. *)
Record Account : Type := mkAccount {
  acc_lamports : Z;
  acc_data : list byte;
  acc_owner : Pubkey;
  acc_executable : bool;
  acc_rent_epoch : Z
}.

#[global] Instance Account_eq_dec : EqDecision Account.
Proof. solve_decision. Defined.

Definition set_acc_lamports (a : Account) (l : Z) : Account :=
  mkAccount l (acc_data a) (acc_owner a) (acc_executable a) (acc_rent_epoch a).
Definition set_acc_data (a : Account) (d : list byte) : Account :=
  mkAccount (acc_lamports a) d (acc_owner a) (acc_executable a) (acc_rent_epoch a).
Definition set_acc_owner (a : Account) (o : Pubkey) : Account :=
  mkAccount (acc_lamports a) (acc_data a) o (acc_executable a) (acc_rent_epoch a).

Record AccountInfo : Type := mkAccountInfo {
  key : Pubkey;
  is_signer : bool;
  is_writable : bool
}.

#[global] Instance AccountInfo_eq_dec : EqDecision AccountInfo.
Proof. solve_decision. Defined.
#[global] Instance AccountMeta_eq_dec : EqDecision AccountMeta.
Proof. solve_decision. Defined.
#[global] Instance Instruction_eq_dec : EqDecision Instruction.
Proof. solve_decision. Defined.

(** ** Properties *)

Lemma to_builtin_neq n k : 0 <= n < 2 ^ 32 -> 1 <= k <= 20 -> (n =? to_builtin k) = false.
Proof.
  intros Hn Hk. apply Z.eqb_neq. unfold to_builtin, BUILTIN_BIT_SHIFT.
  rewrite Z.shiftl_mul_pow2 by lia. rewrite wrap64_small; [lia|].
  unfold is_u64, U64_MAX. lia.
Qed.

(** A [u32] is none of the builtin codes: it is read back as [Custom]. *)
Lemma program_error_from_u32 n :
  0 <= n < 2 ^ 32 -> program_error_from_u64 n = ProgramError.Custom n.
Proof.
  intros Hn. unfold program_error_from_u64.
  repeat (match goal with |- context [n =? ?c] => unfold c at 1 end;
          rewrite to_builtin_neq by lia; cbv iota).
  by rewrite Z.mod_small.
Qed.

Lemma instruction_error_from_u32 n :
  0 <= n < 2 ^ 32 -> instruction_error_from_u64 n = InstructionError.Custom n.
Proof.
  intros Hn. unfold instruction_error_from_u64.
  repeat (match goal with |- context [n =? ?c] => unfold c at 1 end;
          rewrite to_builtin_neq by lia; cbv iota).
  rewrite Z.shiftr_div_pow2 by (unfold BUILTIN_BIT_SHIFT; lia).
  rewrite Z.div_small by (unfold BUILTIN_BIT_SHIFT; lia). cbn.
  by rewrite Z.mod_small.
Qed.

(** An error a program returns survives the trip to its exit code and back, and the
    runtime reports it as the instruction error that converts back to it: no error the
    encoding can carry is confused with another one. *)
Theorem program_error_roundtrip (e : ProgramError) (H : transmissible e) :
  program_error_from_u64 (u64_from_program_error e) = e /\
  program_error_try_from (instruction_error_from_u64 (u64_from_program_error e)) = Some e.
Proof.
  destruct e as [n| | | | | | | | | | | | | |s| | | | |]; try (split; reflexivity).
  - cbn [u64_from_program_error]. destruct (Z.eqb_spec n 0) as [->|Hn]; [done|].
    rewrite program_error_from_u32, instruction_error_from_u32 by done. done.
  - cbn in H. by subst.
Qed.

Lemma program_error_roundtrip_witness :
  program_error_from_u64 (u64_from_program_error (ProgramError.Custom 0)) = ProgramError.Custom 0 /\
  program_error_try_from
    (instruction_error_from_u64 (u64_from_program_error (ProgramError.Custom 0)))
  = Some (ProgramError.Custom 0).
Proof. apply program_error_roundtrip. cbn. lia. Defined.

Section pda_facts.
Context `{Crypto}.

Lemma create_program_address_ok seeds pid a :
  create_program_address seeds pid = Ok a ->
  (length seeds <= MAX_SEEDS)%nat /\ Forall (fun s => (length s <= MAX_SEED_LEN)%nat) seeds /\
  a = hashv (seeds ++ [to_bytes pid; PDA_MARKER]) /\ bytes_are_curve_point a = false.
Proof.
  unfold create_program_address.
  destruct (Nat.ltb_spec MAX_SEEDS (length seeds)); [done|].
  destruct (existsb _ seeds) eqn:E; [done|].
  destruct (bytes_are_curve_point _) eqn:Hc; [done|]. intros [= <-].
  repeat split; try done. apply Forall_forall. intros s Hs.
  destruct (Nat.leb_spec (length s) MAX_SEED_LEN) as [?|Hl]; [done|]. exfalso.
  enough (existsb (fun seed => (MAX_SEED_LEN <? length seed)%nat) seeds = true) by congruence.
  apply existsb_exists. exists s. split; [first [done | by apply list_elem_of_In] | by apply Nat.ltb_lt].
Qed.

Lemma u8_pred b n : u8_val b = Z.of_nat (S n) -> u8_val (u8_of (u8_val b - 1)) = Z.of_nat n.
Proof.
  intros Hb. pose proof (u8_val_range b). rewrite u8_val_of, Z.mod_small by lia. lia.
Qed.

Lemma try_find_loop_spec n bump seeds pid a b :
  u8_val bump = Z.of_nat n ->
  try_find_loop n bump seeds pid = Some (a, b) ->
  create_program_address (seeds ++ [[b]]) pid = Ok a /\ 1 <= u8_val b <= u8_val bump /\
  forall c, u8_val b < u8_val c <= u8_val bump ->
    create_program_address (seeds ++ [[c]]) pid = Err PubkeyError.InvalidSeeds.
Proof.
  revert bump. induction n as [|n IH]; intros bump Hb; [done|]. cbn [try_find_loop].
  destruct (create_program_address (seeds ++ [[bump]]) pid) as [a'|[]|] eqn:E; try done.
  - intros [= <- <-]. split; [done|]. split; [lia|]. intros c Hc. lia.
  - intros Hl. apply IH in Hl as (H1 & H2 & H3); [|by apply u8_pred].
    rewrite (u8_pred _ _ Hb) in *. split; [done|]. split; [lia|]. intros c Hc.
    destruct (decide (u8_val c = u8_val bump)) as [Ec|Ec].
    + apply u8_val_inj in Ec as ->. done.
    + apply H3. lia.
Qed.

Lemma find_program_address_creates seeds program_id a b :
  find_program_address seeds program_id = Some (a, b) ->
  create_program_address (seeds ++ [[b]]) program_id = Ok a.
Proof. intros Hf. by apply try_find_loop_spec in Hf as (Hf & _). Qed.

(** find_program_address returns an address off the curve together with the seed
    byte that re-derives it with create_program_address, the byte is never 0, and every
    larger byte gives a point on the curve. *)
Theorem find_program_address_spec (seeds : list (list byte)) (program_id a : Pubkey) (b : byte)
    (Hfind : find_program_address seeds program_id = Some (a, b)) :
  create_program_address (seeds ++ [[b]]) program_id = Ok a /\
  bytes_are_curve_point a = false /\ 1 <= u8_val b /\
  forall c, u8_val b < u8_val c ->
    create_program_address (seeds ++ [[c]]) program_id = Err PubkeyError.InvalidSeeds.
Proof.
  apply try_find_loop_spec in Hfind as (H1 & H2 & H3); [|done].
  pose proof (create_program_address_ok _ _ _ H1) as (_ & _ & _ & Hc).
  repeat split; [done|done|lia|]. intros c Hlt. apply H3.
  pose proof (u8_val_range c). change (u8_val xff) with 255. lia.
Qed.

End pda_facts.

(** A toy hash, and every address whose first byte is odd counted as a curve
    point: a concrete instance of the parameters to evaluate the model on. *)
Definition toy_crypto : Crypto := {|
  sha256 l := pubkey_of_Z (Z.shiftl
    (fold_left (fun h b => Z.land (h * 33 + u8_val b + 1) (Z.ones 32)) l 5381) 224);
  bytes_are_curve_point k :=
    match to_bytes k with b :: _ => Z.odd (u8_val b) | [] => true end
|}.

Lemma find_program_address_spec_witness :
  exists a b,
    create_program_address (H := toy_crypto) ([[x01]] ++ [[b]]) system_program_id = Ok a /\
    bytes_are_curve_point (Crypto := toy_crypto) a = false /\ 1 <= u8_val b /\
    forall c, u8_val b < u8_val c ->
      create_program_address (H := toy_crypto) ([[x01]] ++ [[c]]) system_program_id
      = Err PubkeyError.InvalidSeeds.
Proof.
  destruct (find_program_address (H := toy_crypto) [[x01]] system_program_id) as [[a b]|] eqn:E;
    [|vm_compute in E; discriminate].
  exists a, b. apply (find_program_address_spec (H := toy_crypto) _ _ _ _ E).
Defined.

(** Derived addresses are not computed by conversion. *)
#[global] Opaque find_program_address create_program_address.
