(* ===== verification/Rent.v ===== *)
(** * Rent

    [sdk/program/src/rent.rs]: the rent parameters and the rent-exempt minimum
    balance, with the [f64] arithmetic the code uses.  An [f64] is a
    [spec_float] of the Standard Library (IEEE-754 binary64, precision 53,
    maximal exponent 1024, round to nearest even). *)

From Stdlib Require Import Floats.SpecFloat.
From S2P Require Import Prelude.

Abbreviation f64 := spec_float.

#[global] Instance f64_eq_dec : EqDecision f64.
Proof. solve_decision. Defined.

(** [z as f64] for a [u64] *)
Definition f64_of_u64 (z : Z) : f64 := binary_normalize 53 1024 z 0 false.

(** [x * y] *)
Definition f64_mul (x y : f64) : f64 := SFmul 53 1024 x y.

(** [x as u64]: truncation towards zero, saturating, NaN is 0. *)
Definition f64_to_u64 (x : f64) : Z :=
  match x with
  | S754_zero _ => 0
  | S754_nan => 0
  | S754_infinity s => if s then 0 else U64_MAX
  | S754_finite s m e =>
      if s then 0
      else
        let v := if 0 <=? e then Z.pos m * 2 ^ e else Z.pos m / 2 ^ (- e) in
        Z.min v U64_MAX
  end.

Record Rent : Type := mkRent {
  lamports_per_byte_year : Z;
  exemption_threshold : f64;
  burn_percent : Z
}.

(** [1_000_000_000 / 100 * 365 / (1024 * 1024)] *)
Definition DEFAULT_LAMPORTS_PER_BYTE_YEAR : Z := 1000000000 / 100 * 365 / (1024 * 1024).
(** [2.0] *)
Definition DEFAULT_EXEMPTION_THRESHOLD : f64 := S754_finite false 4503599627370496 (-51).
Definition DEFAULT_BURN_PERCENT : Z := 50.
Definition ACCOUNT_STORAGE_OVERHEAD : Z := 128.

Definition Rent_default : Rent :=
  mkRent DEFAULT_LAMPORTS_PER_BYTE_YEAR DEFAULT_EXEMPTION_THRESHOLD DEFAULT_BURN_PERCENT.

(** [Rent::free()] *)
Definition Rent_free : Rent :=
  mkRent 0 (exemption_threshold Rent_default) (burn_percent Rent_default).

Definition calculate_burn (r : Rent) (rent_collected : Z) : Z * Z :=
  let burned_portion := wrapping_mul rent_collected (burn_percent r) / 100 in
  (burned_portion, wrapping_sub rent_collected burned_portion).

Definition minimum_balance (r : Rent) (data_len : Z) : Z :=
  let bytes := data_len in
  f64_to_u64
    (f64_mul
       (f64_of_u64
          (wrapping_mul (wrapping_add ACCOUNT_STORAGE_OVERHEAD bytes) (lamports_per_byte_year r)))
       (exemption_threshold r)).

Definition is_exempt (r : Rent) (balance data_len : Z) : bool :=
  minimum_balance r data_len <=? balance.

Inductive RentDue : Type :=
| Exempt
| Paying (lamports : Z).

Definition due_amount (r : Rent) (data_len : Z) (years_elapsed : f64) : Z :=
  let actual_data_len := wrapping_add data_len ACCOUNT_STORAGE_OVERHEAD in
  let lamports_per_year := wrapping_mul (lamports_per_byte_year r) actual_data_len in
  f64_to_u64 (f64_mul (f64_of_u64 lamports_per_year) years_elapsed).

Definition due (r : Rent) (balance data_len : Z) (years_elapsed : f64) : RentDue :=
  if is_exempt r balance data_len then Exempt
  else Paying (due_amount r data_len years_elapsed).

Definition RentDue_lamports (d : RentDue) : Z :=
  match d with Exempt => 0 | Paying x => x end.

Definition RentDue_is_exempt (d : RentDue) : bool :=
  match d with Exempt => true | Paying _ => false end.

Example minimum_balance_wallet : minimum_balance Rent_default 32 = 1113600.
Proof. vm_compute. reflexivity. Qed.

Example minimum_balance_token : minimum_balance Rent_default 165 = 2039280.
Proof. vm_compute. reflexivity. Qed.

Lemma f64_to_u64_range x : is_u64 (f64_to_u64 x).
Proof.
  unfold is_u64, U64_MAX, f64_to_u64.
  destruct x as [|[]| |[] m e]; unfold U64_MAX; try lia.
  destruct (Z.leb_spec 0 e).
  - assert (0 < 2 ^ e) by (apply Z.pow_pos_nonneg; lia). nia.
  - assert (0 <= Z.pos m / 2 ^ (- e)) by (apply Z.div_pos; [lia|apply Z.pow_pos_nonneg; lia]). lia.
Qed.

Lemma minimum_balance_range r n : is_u64 (minimum_balance r n).
Proof. apply f64_to_u64_range. Qed.
#[export] Hint Resolve minimum_balance_range : sol.

(** ** Doubling is exact

    With the default threshold the minimum balance is computed by an [f64]
    multiplication by 2.0.  The lemmas below follow the rounding of
    [spec_float] on a mantissa shifted by a power of two. *)
Lemma digits2_pos_shift p n :
  Z.pos (digits2_pos (Pos.iter xO p n)) = Z.pos (digits2_pos p) + Z.pos n.
Proof.
  induction n as [|n IH] using Pos.peano_ind; [cbn; lia|].
  rewrite Pos.iter_succ. cbn [digits2_pos]. lia.
Qed.

Lemma iter_pos_iter {A} (f : A -> A) n x : SpecFloat.iter_pos f n x = Pos.iter f x n.
Proof.
  revert x. induction n as [n IH|n IH|]; intros x; cbn; [| |done].
  - by rewrite !IH, <-!Pos.iter_swap.
  - by rewrite !IH.
Qed.

Lemma shr_1_shift p n :
  Pos.iter shr_1 {| shr_m := Z.pos (Pos.iter xO p n); shr_r := false; shr_s := false |} n
  = {| shr_m := Z.pos p; shr_r := false; shr_s := false |}.
Proof.
  induction n as [|n IH] using Pos.peano_ind; [done|].
  rewrite !Pos.iter_succ, <-Pos.iter_swap. cbn [shr_1 orb]. exact IH.
Qed.

(** A mantissa of exactly 53 bits is not rounded. *)
Lemma binary_round_aux_53 q e :
  Z.pos (digits2_pos q) = 53 -> -1074 <= e <= 971 ->
  binary_round_aux 53 1024 false (Z.pos q) e loc_Exact = S754_finite false q e.
Proof.
  intros Hq He. unfold binary_round_aux, shr_fexp, fexp, emin. cbn [Zdigits2 shr_record_of_loc].
  rewrite Hq. replace (Z.max (53 + e - 53) (3 - 1024 - 53) - e) with 0 by lia.
  cbn [shr shr_m loc_of_shr_record round_nearest_even shr_record_of_loc Zdigits2].
  rewrite Hq. replace (Z.max (53 + e - 53) (3 - 1024 - 53) - e) with 0 by lia.
  cbn [shr shr_m]. destruct (Z.leb_spec e (1024 - 53)); [done|lia].
Qed.

(** A mantissa that is 53 bits followed by zeros is not rounded either. *)
Lemma binary_round_aux_shift q n e :
  Z.pos (digits2_pos q) = 53 -> -1074 <= e + Z.pos n <= 971 ->
  binary_round_aux 53 1024 false (Z.pos (Pos.iter xO q n)) e loc_Exact
  = S754_finite false q (e + Z.pos n).
Proof.
  intros Hq He. rewrite <-(binary_round_aux_53 q) by done.
  unfold binary_round_aux at 1, shr_fexp at 1, fexp, emin. cbn [Zdigits2 shr_record_of_loc].
  rewrite digits2_pos_shift, Hq.
  replace (Z.max (53 + Z.pos n + e - 53) (3 - 1024 - 53) - e) with (Z.pos n) by lia.
  cbn [shr]. rewrite iter_pos_iter, shr_1_shift.
  cbn [shr_m loc_of_shr_record round_nearest_even].
  unfold binary_round_aux, shr_fexp, fexp, emin. cbn [Zdigits2 shr_record_of_loc].
  rewrite Hq.
  replace (Z.max (53 + (e + Z.pos n) - 53) (3 - 1024 - 53) - (e + Z.pos n)) with 0 by lia.
  cbn [shr shr_m loc_of_shr_record round_nearest_even shr_record_of_loc Zdigits2].
  rewrite Hq.
  replace (Z.max (53 + (e + Z.pos n) - 53) (3 - 1024 - 53) - (e + Z.pos n)) with 0 by lia.
  done.
Qed.

Lemma digits2_pos_bound p k : Z.pos p < 2 ^ k -> 0 <= k -> Z.pos (digits2_pos p) <= k.
Proof.
  intros Hp Hk. assert (Hd : 2 ^ (Z.pos (digits2_pos p) - 1) <= Z.pos p).
  { clear. induction p as [p IH|p IH|]; cbn [digits2_pos]; [| |done].
    all: rewrite Pos2Z.inj_succ; unfold Z.succ;
      replace (Z.pos (digits2_pos p) + 1 - 1) with (Z.succ (Z.pos (digits2_pos p) - 1)) by lia;
      rewrite Z.pow_succ_r by lia; lia. }
  destruct (Z.leb_spec (Z.pos (digits2_pos p)) k) as [|Hlt]; [done|].
  enough (2 ^ k <= 2 ^ (Z.pos (digits2_pos p) - 1)) by lia.
  apply Z.pow_le_mono_r; lia.
Qed.

Lemma f64_mul_two_53 q e :
  Z.pos (digits2_pos q) = 53 -> -1074 <= e + 1 <= 971 ->
  f64_mul (S754_finite false q e) DEFAULT_EXEMPTION_THRESHOLD = S754_finite false q (e + 1).
Proof.
  intros Hq He. unfold f64_mul, DEFAULT_EXEMPTION_THRESHOLD. cbn [SFmul xorb].
  rewrite !Pos.mul_xO_r, Pos.mul_1_r.
  change (binary_round_aux 53 1024 false (Z.pos (Pos.iter xO q 52)) (e + -51) loc_Exact
          = S754_finite false q (e + 1)).
  rewrite binary_round_aux_shift by (done || lia). f_equal. lia.
Qed.

Lemma pos_iter_xO p n : Z.pos (Pos.iter xO p n) = Z.pos p * 2 ^ Z.pos n.
Proof.
  induction n as [|n IH] using Pos.peano_ind; [cbn; lia|].
  rewrite Pos.iter_succ, Pos2Z.inj_xO, IH, Pos2Z.inj_succ, Z.pow_succ_r by lia. lia.
Qed.

(** An integer below [2^53], doubled through [f64], is the exact double. *)
Lemma f64_double_exact z :
  0 <= z < 2 ^ 53 ->
  f64_to_u64 (f64_mul (f64_of_u64 z) DEFAULT_EXEMPTION_THRESHOLD) = 2 * z.
Proof.
  intros Hz. destruct z as [|p|p]; [done| |lia].
  assert (Hd : Z.pos (digits2_pos p) <= 53) by (apply digits2_pos_bound; lia).
  unfold f64_of_u64. cbn [binary_normalize]. unfold binary_round, fexp, emin.
  rewrite Z.add_0_r.
  replace (Z.max (Z.pos (digits2_pos p) - 53) (3 - 1024 - 53))
    with (Z.pos (digits2_pos p) - 53) by lia.
  unfold shl_align. rewrite Z.sub_0_r.
  destruct (Z.pos (digits2_pos p) - 53) as [|n|n] eqn:E; [|lia|].
  - rewrite binary_round_aux_53, f64_mul_two_53 by lia. unfold f64_to_u64, U64_MAX.
    change (0 <=? 0 + 1) with true. cbv iota. change (2 ^ (0 + 1)) with 2. lia.
  - rewrite binary_round_aux_53, f64_mul_two_53 by (rewrite ?digits2_pos_shift; lia).
    unfold f64_to_u64. rewrite pos_iter_xO.
    destruct (Z.leb_spec 0 (Z.neg n + 1)) as [Hn|Hn].
    + assert (n = 1%positive) as -> by lia. change (0 <=? Z.neg 1 + 1) with true. cbv iota.
      change (2 ^ (Z.neg 1 + 1)) with 1. change (2 ^ 1) with 2. unfold U64_MAX. lia.
    + replace (- (Z.neg n + 1)) with (Z.pos n - 1) by lia.
      replace (Z.pos n) with (Z.succ (Z.pos n - 1)) at 1 by lia.
      rewrite Z.pow_succ_r by lia. rewrite Z.mul_assoc, Z.div_mul by (apply Z.pow_nonzero; lia).
      unfold U64_MAX. lia.
Qed.

(** Under the default rent parameters the f64 computation of the rent-exempt
    minimum is exact, 2 * 3480 * (128 + n) lamports for n bytes of data, for every n up
    to 2^40 (the maximum length of an account is 10 MiB). *)
Theorem minimum_balance_default (n : Z) (H : 0 <= n <= 2 ^ 40) :
  minimum_balance Rent_default n = 6960 * (128 + n).
Proof.
  unfold minimum_balance, Rent_default, ACCOUNT_STORAGE_OVERHEAD. cbn [lamports_per_byte_year exemption_threshold].
  change DEFAULT_LAMPORTS_PER_BYTE_YEAR with 3480.
  unfold wrapping_add, wrapping_mul.
  rewrite (wrap64_small (128 + n)) by (unfold is_u64, U64_MAX; lia).
  rewrite wrap64_small by (unfold is_u64, U64_MAX; lia).
  rewrite f64_double_exact by lia. lia.
Qed.

Lemma minimum_balance_default_witness :
  0 <= 10485760 <= 2 ^ 40 /\ minimum_balance Rent_default 10485760 = 6960 * (128 + 10485760).
Proof. split; [lia | apply minimum_balance_default; lia]. Defined.

#[global] Opaque minimum_balance.
