(* ===== verification/EpochSchedule.v ===== *)
(** * Epochs

    [sdk/program/src/epoch_schedule.rs]: how slots are divided into epochs, which grow from 32 slots
    to their normal length during a warm-up, and the proof that the epochs partition the slots. *)

From S2P Require Import Prelude.

(** ** Integer functions of the standard library *)

(** [n.next_power_of_two()]; the release build returns 0 when it does not fit. *)
Definition next_power_of_two (n : Z) : Z :=
  let p := 2 ^ Z.log2_up n in if p <=? U64_MAX then p else 0.

Fixpoint pos_trailing_zeros (p : positive) : Z :=
  match p with xO p => 1 + pos_trailing_zeros p | _ => 0 end.

(** [n.trailing_zeros()] of a [u64] *)
Definition trailing_zeros (n : Z) : Z :=
  match n with Zpos p => pos_trailing_zeros p | _ => 64 end.

(** [2u64.saturating_pow(k)] *)
Definition saturating_pow2 (k : Z) : Z := Z.min U64_MAX (2 ^ k).

Definition saturating_add_u32 (a b : Z) : Z := Z.min (2 ^ 32 - 1) (a + b).

(** ** The schedule *)
Definition MINIMUM_SLOTS_PER_EPOCH : Z := 32.
Definition DEFAULT_SLOTS_PER_EPOCH : Z := 432000.
Definition DEFAULT_LEADER_SCHEDULE_SLOT_OFFSET : Z := DEFAULT_SLOTS_PER_EPOCH.

Record EpochSchedule : Type := mkEpochSchedule {
  slots_per_epoch : Z;
  leader_schedule_slot_offset : Z;
  warmup : bool;
  first_normal_epoch : Z;
  first_normal_slot : Z
}.

Module EpochSchedule.

Definition custom (slots_per_epoch leader_schedule_slot_offset : Z) (warmup : bool) : result unit EpochSchedule :=
  if slots_per_epoch <? MINIMUM_SLOTS_PER_EPOCH then Panic
  else
    let '(first_normal_epoch, first_normal_slot) :=
      if warmup then
        let next_power_of_two := next_power_of_two slots_per_epoch in
        let log2_slots_per_epoch :=
          saturating_sub (trailing_zeros next_power_of_two) (trailing_zeros MINIMUM_SLOTS_PER_EPOCH) in
        (log2_slots_per_epoch, saturating_sub next_power_of_two MINIMUM_SLOTS_PER_EPOCH)
      else (0, 0) in
    Ok (mkEpochSchedule slots_per_epoch leader_schedule_slot_offset warmup first_normal_epoch first_normal_slot).

Definition new (slots_per_epoch : Z) : result unit EpochSchedule := custom slots_per_epoch slots_per_epoch true.

Definition without_warmup : result unit EpochSchedule :=
  custom DEFAULT_SLOTS_PER_EPOCH DEFAULT_LEADER_SCHEDULE_SLOT_OFFSET false.

Section schedule.
Variable self : EpochSchedule.

(** The length of an epoch, in slots. *)
Definition get_slots_in_epoch (epoch : Z) : Z :=
  if epoch <? first_normal_epoch self
  then saturating_pow2 (saturating_add_u32 (epoch mod 2 ^ 32) (trailing_zeros MINIMUM_SLOTS_PER_EPOCH))
  else slots_per_epoch self.

Definition checked_div (a b : Z) : option Z := if b =? 0 then None else Some (a / b).
Definition checked_rem (a b : Z) : option Z := if b =? 0 then None else Some (a mod b).

Definition get_epoch_and_slot_index (slot : Z) : Z * Z :=
  if slot <? first_normal_slot self then
    let epoch :=
      saturating_sub
        (saturating_sub
           (trailing_zeros (next_power_of_two (saturating_add (saturating_add slot MINIMUM_SLOTS_PER_EPOCH) 1)))
           (trailing_zeros MINIMUM_SLOTS_PER_EPOCH)) 1 in
    let epoch_len := saturating_pow2 (saturating_add_u32 epoch (trailing_zeros MINIMUM_SLOTS_PER_EPOCH)) in
    (epoch, saturating_sub slot (saturating_sub epoch_len MINIMUM_SLOTS_PER_EPOCH))
  else
    let normal_slot_index := saturating_sub slot (first_normal_slot self) in
    let normal_epoch_index := default 0 (checked_div normal_slot_index (slots_per_epoch self)) in
    let epoch := saturating_add (first_normal_epoch self) normal_epoch_index in
    let slot_index := default 0 (checked_rem normal_slot_index (slots_per_epoch self)) in
    (epoch, slot_index).

Definition get_epoch (slot : Z) : Z := (get_epoch_and_slot_index slot).1.

(** The epoch whose leader schedule is computed from the stakes at [slot]. *)
Definition get_leader_schedule_epoch (slot : Z) : Z :=
  if slot <? first_normal_slot self then saturating_add (get_epoch_and_slot_index slot).1 1
  else
    let new_slots_since_first_normal_slot := saturating_sub slot (first_normal_slot self) in
    let new_first_normal_leader_schedule_slot :=
      saturating_add new_slots_since_first_normal_slot (leader_schedule_slot_offset self) in
    let new_epochs_since_first_normal_leader_schedule :=
      default 0 (checked_div new_first_normal_leader_schedule_slot (slots_per_epoch self)) in
    saturating_add (first_normal_epoch self) new_epochs_since_first_normal_leader_schedule.

Definition get_first_slot_in_epoch (epoch : Z) : Z :=
  if epoch <=? first_normal_epoch self
  then saturating_mul (saturating_sub (saturating_pow2 (epoch mod 2 ^ 32)) 1) MINIMUM_SLOTS_PER_EPOCH
  else saturating_add
         (saturating_mul (saturating_sub epoch (first_normal_epoch self)) (slots_per_epoch self))
         (first_normal_slot self).

Definition get_last_slot_in_epoch (epoch : Z) : Z :=
  saturating_sub (saturating_add (get_first_slot_in_epoch epoch) (get_slots_in_epoch epoch)) 1.

End schedule.
End EpochSchedule.

(** ** Powers of two *)
Lemma trailing_zeros_pow k : 0 <= k -> trailing_zeros (2 ^ k) = k.
Proof.
  intros Hk. pattern k. apply natlike_ind; [done| |done]. clear k Hk. intros k Hk IH.
  rewrite Z.pow_succ_r by done. pose proof (Z.pow_pos_nonneg 2 k ltac:(lia) Hk).
  destruct (2 ^ k) as [|p|p] eqn:E; [lia| |lia].
  change (1 + pos_trailing_zeros p = Z.succ k). change (pos_trailing_zeros p = k) in IH. lia.
Qed.

Lemma next_power_of_two_pow k n :
  1 <= k < 64 -> 2 ^ (k - 1) < n <= 2 ^ k -> next_power_of_two n = 2 ^ k.
Proof.
  intros Hk Hn. unfold next_power_of_two. rewrite (Z.log2_up_unique n k) by (rewrite <-?Z.sub_1_r; lia).
  assert (2 ^ k <= 2 ^ 63) by (apply Z.pow_le_mono_r; lia).
  destruct (Z.leb_spec (2 ^ k) U64_MAX); [done|]. unfold U64_MAX in *. lia.
Qed.

(** ** Schedules *)

(** The schedules [custom] builds: the warm-up doubles the length of the epochs, from 32 slots, [F]
    times. *)
Record schedule_wf (s : EpochSchedule) : Prop := {
  sw_epoch : 0 <= first_normal_epoch s <= 58;
  sw_slot : first_normal_slot s = 2 ^ (first_normal_epoch s + 5) - 32;
  sw_length : 32 <= slots_per_epoch s <= 2 ^ 63
}.

Lemma custom_wf n offset w s :
  n <= 2 ^ 63 -> EpochSchedule.custom n offset w = Ok s -> schedule_wf s.
Proof.
  intros Hn. unfold EpochSchedule.custom, MINIMUM_SLOTS_PER_EPOCH. destruct (Z.ltb_spec n 32); [done|].
  destruct w; intros [= <-]; split; cbn [first_normal_epoch first_normal_slot slots_per_epoch]; try lia.
  all: assert (5 <= Z.log2_up n <= 63) as Hl by
    (split; [change 5 with (Z.log2_up 32); apply Z.log2_up_le_mono; lia|];
     change 63 with (Z.log2_up (2 ^ 63)); apply Z.log2_up_le_mono; lia).
  all: assert (next_power_of_two n = 2 ^ Z.log2_up n) as -> by
    (apply next_power_of_two_pow; [lia|]; rewrite Z.sub_1_r; apply Z.log2_up_spec; lia).
  all: rewrite (trailing_zeros_pow (Z.log2_up n)) by lia; change (trailing_zeros 32) with 5;
    unfold saturating_sub.
  - lia.
  - assert (2 ^ 5 <= 2 ^ Z.log2_up n) by (apply Z.pow_le_mono_r; lia). rewrite !Z.max_r by lia.
    do 2 f_equal. lia.
Qed.

Section schedule.
Context (s : EpochSchedule) (Hs : schedule_wf s).

Lemma warmup_length e : 0 <= e < first_normal_epoch s -> EpochSchedule.get_slots_in_epoch s e = 2 ^ (e + 5).
Proof.
  intros He. destruct Hs as [HF _ _]. unfold EpochSchedule.get_slots_in_epoch.
  destruct (Z.ltb_spec e (first_normal_epoch s)); [|lia]. rewrite Z.mod_small by lia.
  unfold saturating_add_u32, saturating_pow2. change (trailing_zeros MINIMUM_SLOTS_PER_EPOCH) with 5.
  rewrite (Z.min_r (2 ^ 32 - 1)) by lia. apply Z.min_r. assert (2 ^ (e + 5) <= 2 ^ 63) by (apply Z.pow_le_mono_r; lia).
  unfold U64_MAX. lia.
Qed.

Lemma warmup_first e :
  0 <= e <= first_normal_epoch s -> EpochSchedule.get_first_slot_in_epoch s e = 2 ^ (e + 5) - 32.
Proof.
  intros He. destruct Hs as [HF _ _]. unfold EpochSchedule.get_first_slot_in_epoch.
  destruct (Z.leb_spec e (first_normal_epoch s)); [|lia]. rewrite Z.mod_small by lia.
  unfold saturating_pow2, saturating_mul, saturating_sub, MINIMUM_SLOTS_PER_EPOCH.
  assert (2 ^ e <= 2 ^ 58) by (apply Z.pow_le_mono_r; lia). pose proof (Z.pow_pos_nonneg 2 e ltac:(lia) ltac:(lia)).
  rewrite Z.pow_add_r by lia. change (2 ^ 5) with 32. unfold U64_MAX. lia.
Qed.

Lemma normal_first d :
  0 <= d -> d * slots_per_epoch s + first_normal_slot s <= U64_MAX ->
  EpochSchedule.get_first_slot_in_epoch s (first_normal_epoch s + d)
  = d * slots_per_epoch s + first_normal_slot s.
Proof.
  intros Hd Hb. destruct Hs as [HF HS HL]. destruct (Z.eq_dec d 0) as [->|Hne].
  { rewrite Z.add_0_r, warmup_first by (split; [|done]; lia). lia. }
  unfold EpochSchedule.get_first_slot_in_epoch. destruct (Z.leb_spec (first_normal_epoch s + d) (first_normal_epoch s)); [lia|].
  unfold saturating_add, saturating_mul, saturating_sub.
  pose proof (Z.pow_pos_nonneg 2 (first_normal_epoch s + 5) ltac:(lia) ltac:(lia)).
  assert (2 ^ 5 <= 2 ^ (first_normal_epoch s + 5)) by (apply Z.pow_le_mono_r; lia).
  rewrite (Z.max_r 0) by lia. replace (first_normal_epoch s + d - first_normal_epoch s) with d by lia. lia.
Qed.

(** A slot of the warm-up. *)
Lemma warmup_epoch slot :
  0 <= slot < first_normal_slot s ->
  exists e, EpochSchedule.get_epoch_and_slot_index s slot = (e, slot - (2 ^ (e + 5) - 32)) /\
    0 <= e < first_normal_epoch s /\ 2 ^ (e + 5) <= slot + 32 < 2 ^ (e + 6).
Proof.
  intros Hslot. destruct Hs as [HF HS HL]. set (k := Z.log2 (slot + 32)).
  pose proof (Z.log2_spec (slot + 32) ltac:(lia)) as Hk. fold k in Hk. rewrite <-Z.add_1_r in Hk.
  assert (5 <= k) as H5 by (change 5 with (Z.log2 32); apply Z.log2_le_mono; lia).
  assert (k < first_normal_epoch s + 5) as Hk'.
  { apply (Z.pow_lt_mono_r_iff 2); lia. }
  assert (2 ^ (k + 1) <= 2 ^ 63) by (apply Z.pow_le_mono_r; lia).
  exists (k - 5). replace (k - 5 + 5) with k by lia. replace (k - 5 + 6) with (k + 1) by lia.
  split; [|lia]. unfold EpochSchedule.get_epoch_and_slot_index, MINIMUM_SLOTS_PER_EPOCH.
  destruct (Z.ltb_spec slot (first_normal_slot s)); [|lia].
  replace (saturating_add (saturating_add slot 32) 1) with (slot + 33)
    by (unfold saturating_add, U64_MAX; lia).
  rewrite (next_power_of_two_pow (k + 1)) by (replace (k + 1 - 1) with k; lia).
  rewrite trailing_zeros_pow by lia. change (trailing_zeros 32) with 5.
  unfold saturating_sub, saturating_add_u32, saturating_pow2.
  replace (Z.max 0 (Z.max 0 (k + 1 - 5) - 1)) with (k - 5) by lia. rewrite (Z.min_r (2 ^ 32 - 1)) by lia.
  replace (k - 5 + 5) with k by lia. assert (2 ^ 5 <= 2 ^ k) by (apply Z.pow_le_mono_r; lia).
  assert (2 ^ k <= 2 ^ (k + 1)) by (apply Z.pow_le_mono_r; lia).
  rewrite Z.min_r by (unfold U64_MAX; lia). f_equal. lia.
Qed.

(** A slot after it. *)
Lemma normal_epoch slot :
  first_normal_slot s <= slot < 2 ^ 63 -> 0 <= first_normal_slot s ->
  exists d i, EpochSchedule.get_epoch_and_slot_index s slot = (first_normal_epoch s + d, i) /\
    0 <= d /\ 0 <= i < slots_per_epoch s /\ slot = d * slots_per_epoch s + first_normal_slot s + i.
Proof.
  intros Hslot H0. destruct Hs as [HF HS HL]. exists ((slot - first_normal_slot s) / slots_per_epoch s),
    ((slot - first_normal_slot s) mod slots_per_epoch s).
  pose proof (Z.div_mod (slot - first_normal_slot s) (slots_per_epoch s) ltac:(lia)) as Hd.
  pose proof (Z.mod_pos_bound (slot - first_normal_slot s) (slots_per_epoch s) ltac:(lia)) as Hm.
  assert (0 <= (slot - first_normal_slot s) / slots_per_epoch s) by (apply Z.div_pos; lia).
  assert ((slot - first_normal_slot s) / slots_per_epoch s <= slot - first_normal_slot s)
    by (apply Z.div_le_upper_bound; nia).
  split; [|lia]. unfold EpochSchedule.get_epoch_and_slot_index.
  destruct (Z.ltb_spec slot (first_normal_slot s)); [lia|]. unfold saturating_sub, saturating_add,
    EpochSchedule.checked_div, EpochSchedule.checked_rem. rewrite Z.max_r by lia.
  destruct (Z.eqb_spec (slots_per_epoch s) 0); [lia|]. cbn [default]. unfold id.
  rewrite Z.min_r by (unfold U64_MAX; lia). done.
Qed.

End schedule.

(** ** Epochs partition the slots *)

(** C28: Every slot lies in exactly the epoch and at the index that the schedule
    computes for it, also while epochs double in the warm-up: the first slot of the
    epoch is the slot minus the index, the index is below the number of slots of the
    epoch, and the next epoch starts right after the last slot. With the usual offset
    the leader schedule computed in an epoch is that of the next one. *)
Theorem epochs_partition (n offset : Z) (w : bool) (s : EpochSchedule) (slot e i : Z)
    (Hs : EpochSchedule.custom n offset w = Ok s) (Hn : n <= 2 ^ 62) (Hslot : 0 <= slot < 2 ^ 62)
    (Hi : EpochSchedule.get_epoch_and_slot_index s slot = (e, i)) :
  EpochSchedule.get_first_slot_in_epoch s e = slot - i /\
  0 <= i < EpochSchedule.get_slots_in_epoch s e /\
  EpochSchedule.get_last_slot_in_epoch s e = slot - i + EpochSchedule.get_slots_in_epoch s e - 1 /\
  EpochSchedule.get_first_slot_in_epoch s (e + 1) = EpochSchedule.get_last_slot_in_epoch s e + 1 /\
  (offset = n -> EpochSchedule.get_leader_schedule_epoch s slot = e + 1).
Proof.
  pose proof (custom_wf n offset w s ltac:(lia) Hs) as Hwf. pose proof Hwf as [HF HS HL].
  assert (slots_per_epoch s = n /\ leader_schedule_slot_offset s = offset) as [En Eo].
  { unfold EpochSchedule.custom in Hs. destruct (_ <? _); [done|]. by destruct w; injection Hs as <-. }
  assert (2 ^ 5 <= 2 ^ (first_normal_epoch s + 5)) by (apply Z.pow_le_mono_r; lia).
  unfold EpochSchedule.get_last_slot_in_epoch, EpochSchedule.get_leader_schedule_epoch. rewrite Hi. cbn [fst].
  destruct (Z.ltb_spec slot (first_normal_slot s)) as [Hlt|Hge].
  - destruct (warmup_epoch s Hwf slot) as (e' & Hi' & He & Hb); [lia|]. rewrite Hi in Hi'. injection Hi' as -> ->.
    rewrite (warmup_length s Hwf), !(warmup_first s Hwf) by lia. replace (e' + 1 + 5) with (e' + 6) by lia.
    assert (2 ^ (e' + 6) = 2 * 2 ^ (e' + 5)) by (rewrite <-Z.pow_succ_r by lia; f_equal; lia).
    assert (2 ^ (e' + 6) <= 2 ^ 63) by (apply Z.pow_le_mono_r; lia).
    assert (2 ^ 5 <= 2 ^ (e' + 5)) by (apply Z.pow_le_mono_r; lia).
    unfold saturating_add, saturating_sub, U64_MAX. lia.
  - destruct (normal_epoch s Hwf slot) as (d & j & Hi' & Hd & Hj & Hsl); [lia..|].
    rewrite Hi in Hi'. injection Hi' as -> ->.
    assert (EpochSchedule.get_slots_in_epoch s (first_normal_epoch s + d) = slots_per_epoch s) as ->.
    { unfold EpochSchedule.get_slots_in_epoch. destruct (Z.ltb_spec (first_normal_epoch s + d) (first_normal_epoch s)); [lia|done]. }
    rewrite <-Z.add_assoc. rewrite !(normal_first s Hwf) by (unfold U64_MAX; lia).
    split_and!; try (unfold saturating_add, saturating_sub, U64_MAX; lia). intros ->.
    unfold EpochSchedule.checked_div. destruct (Z.eqb_spec (slots_per_epoch s) 0); [lia|]. cbn [default]. unfold id.
    rewrite Eo, En. unfold saturating_sub, saturating_add at 2. rewrite Z.max_r, Z.min_r by (unfold U64_MAX; lia).
    replace (slot - first_normal_slot s + n) with (j + (d + 1) * n) by lia.
    rewrite Z.div_add, Z.div_small by lia. unfold saturating_add, U64_MAX. nia.
Qed.

Definition ex_schedule : EpochSchedule := mkEpochSchedule 432000 432000 true 14 524256.

(** Slot 1000000 is in the second epoch of normal length. *)
Lemma epochs_partition_witness :
  EpochSchedule.get_first_slot_in_epoch ex_schedule 15 = 956256 /\
  EpochSchedule.get_last_slot_in_epoch ex_schedule 15 = 1388255 /\
  EpochSchedule.get_leader_schedule_epoch ex_schedule 1000000 = 16.
Proof.
  destruct (epochs_partition 432000 432000 true ex_schedule 1000000 15 43744 ltac:(vm_compute; reflexivity)
    ltac:(lia) ltac:(lia) ltac:(vm_compute; reflexivity)) as (H1 & _ & H2 & _ & H3).
  exact (conj H1 (conj H2 (H3 eq_refl))).
Defined.
