(* ===== verification/Program.v ===== *)
(** * On-chain programs

    A program runs on a store of account cells and may call other programs.
    Its behaviour is a tree: it ends with a result, or it stops at a
    cross-program invocation (CPI) and goes on with the store the callee leaves.
    A failed CPI aborts the whole transaction ([syscalls.rs], [call] returns the
    error to the virtual machine, not to the program), so the continuation only
    takes the store of a successful call. *)

From Stdlib Require Import Strings.Byte.
From S2P Require Import Prelude Sdk Rent.

(** The account cells a program sees, by address. *)
Abbreviation view := (gmap Pubkey Account).

(** [signers_seeds: &[&[&[u8]]]] *)
Abbreviation seeds := (list (list (list byte))).

Inductive tree (A : Type) : Type :=
| TOk (a : A) (v : view)
| TErr (e : ProgramError)
| TPanic
| TCpi (ix : Instruction) (infos : list AccountInfo) (signers_seeds : seeds) (v : view)
       (k : view -> tree A).
Arguments TOk {A} a v.
Arguments TErr {A} e.
Arguments TPanic {A}.
Arguments TCpi {A} ix infos signers_seeds v k.

Fixpoint tbind {A B} (t : tree A) (f : A -> view -> tree B) : tree B :=
  match t with
  | TOk a v => f a v
  | TErr e => TErr e
  | TPanic => TPanic
  | TCpi ix infos ss v k => TCpi ix infos ss v (fun v' => tbind (k v') f)
  end.

(** Program code: state passing over the cells. *)
Definition ProgM (A : Type) : Type := view -> tree A.

#[global] Instance ProgM_ret : MRet ProgM := fun _ a v => TOk a v.
#[global] Instance ProgM_bind : MBind ProgM := fun _ _ f m v => tbind (m v) f.

(** A step that neither reads nor writes the cells; [?] on its error. *)
Definition lift {A} (r : result ProgramError A) : ProgM A := fun v =>
  match r with Ok a => TOk a v | Err e => TErr e | Panic => TPanic end.

(** ** [AccountInfo] accessors ([account_info.rs])

    Every borrow of a cell in the sources ends before the next one starts, so
    the [RefCell] checks never fail.  A handle whose cell is not in the store
    does not occur in a run of the runtime; reading it is a panic. *)
Definition with_cell {A} (i : AccountInfo) (f : Account -> A) : ProgM A := fun v =>
  match v !! key i with Some a => TOk (f a) v | None => TPanic end.

Definition update_cell (i : AccountInfo) (f : Account -> Account) : ProgM unit := fun v =>
  match v !! key i with Some a => TOk tt (<[key i := f a]> v) | None => TPanic end.

(** [info.lamports()] *)
Definition lamports (i : AccountInfo) : ProgM Z := with_cell i acc_lamports.
(** [info.data.borrow()] *)
Definition data (i : AccountInfo) : ProgM (list byte) := with_cell i acc_data.
(** [info.owner] *)
Definition owner (i : AccountInfo) : ProgM Pubkey := with_cell i acc_owner.
(** [info.data_len()] *)
Definition data_len (i : AccountInfo) : ProgM Z :=
  with_cell i (fun a => Z.of_nat (length (acc_data a))).
(** [info.data_is_empty()] *)
Definition data_is_empty (i : AccountInfo) : ProgM bool :=
  with_cell i (fun a => match acc_data a with [] => true | _ => false end).
(** [**info.lamports.borrow_mut() = l] *)
Definition set_lamports (i : AccountInfo) (l : Z) : ProgM unit :=
  update_cell i (fun a => set_acc_lamports a l).
(** Overwriting the bytes of [info.data.borrow_mut()]. *)
Definition set_data (i : AccountInfo) (d : list byte) : ProgM unit :=
  update_cell i (fun a => set_acc_data a d).

(** [**info.lamports.borrow_mut() += x] and [-= x], wrapping in release builds. *)
Definition add_lamports (i : AccountInfo) (x : Z) : ProgM unit :=
  update_cell i (fun a => set_acc_lamports a (wrapping_add (acc_lamports a) x)).
Definition sub_lamports (i : AccountInfo) (x : Z) : ProgM unit :=
  update_cell i (fun a => set_acc_lamports a (wrapping_sub (acc_lamports a) x)).

(** [next_account_info(iter)?]: the item and the rest of the iterator. *)
Definition next_account_info (iter : list AccountInfo)
    : result ProgramError (AccountInfo * list AccountInfo) :=
  match iter with
  | i :: rest => Ok (i, rest)
  | [] => Err ProgramError.NotEnoughAccountKeys
  end.

(** The handles the entry point builds for the metas of an instruction. *)
Definition account_infos (metas : list AccountMeta) : list AccountInfo :=
  (fun m => mkAccountInfo (am_pubkey m) (am_is_signer m) (am_is_writable m)) <$> metas.

(** ** Cross-program invocation ([program.rs]) *)
Definition invoke_signed (instruction : Instruction) (account_infos : list AccountInfo)
    (signers_seeds : seeds) : ProgM unit := fun v =>
  TCpi instruction account_infos signers_seeds v (fun v' => TOk tt v').

Definition invoke (instruction : Instruction) (account_infos : list AccountInfo) : ProgM unit :=
  invoke_signed instruction account_infos [].

(** ** The rent sysvar ([sysvar/mod.rs], [sysvar/rent.rs])

    [bincode] is not part of the repository: its decoder for [Rent] is a
    parameter, and so is the content of the runtime's sysvar cache. *)
Class Sysvars : Type := {
  bincode_deserialize_rent : list byte -> option Rent;
  cached_rent : option Rent
}.

Section sysvar.
Context `{Sysvars}.

(** [Rent::from_account_info(info)?] *)
Definition Rent_from_account_info (i : AccountInfo) : ProgM Rent :=
  if negb (key_eqb (key i) rent_sysvar_id) then lift (Err ProgramError.InvalidArgument)
  else d ← data i; lift (ok_or (bincode_deserialize_rent d) ProgramError.InvalidArgument).

(** [Rent::get()?] *)
Definition Rent_get : ProgM Rent := lift (ok_or cached_rent ProgramError.UnsupportedSysvar).

End sysvar.

(** ** Running a program against a handler of its CPIs *)
Definition cpi_handler : Type :=
  Instruction -> list AccountInfo -> seeds -> view -> result ProgramError view.

Fixpoint run {A} (cpi : cpi_handler) (t : tree A) : result ProgramError (A * view) :=
  match t with
  | TOk a v => Ok (a, v)
  | TErr e => Err e
  | TPanic => Panic
  | TCpi ix infos ss v k => v' ← cpi ix infos ss v; run cpi (k v')
  end.

Lemma run_tbind {A B} cpi (t : tree A) (f : A -> view -> tree B) :
  run cpi (tbind t f) = '(a, v) ← run cpi t; run cpi (f a v).
Proof.
  induction t as [a v|e| |ix infos ss v k IH]; cbn; try done.
  destruct (cpi ix infos ss v) as [v'| |]; cbn; [|done|done]. apply IH.
Qed.

Lemma run_bind_ok {A B} cpi (m : ProgM A) (f : A -> ProgM B) v b v'' :
  run cpi (mbind f m v) = Ok (b, v'') <->
  exists a v', run cpi (m v) = Ok (a, v') /\ run cpi (f a v') = Ok (b, v'').
Proof.
  change (mbind f m v) with (tbind (m v) f). rewrite run_tbind, result_bind_ok.
  split.
  - intros ([a v'] & ? & ?). eauto.
  - intros (a & v' & ? & ?). exists (a, v'). eauto.
Qed.

(** ** Inversion of straight-line program code *)
Lemma prog_bind_ok {A B} (m : ProgM A) (f : A -> ProgM B) v b v'' :
  mbind f m v = TOk b v'' <-> exists a v', m v = TOk a v' /\ f a v' = TOk b v''.
Proof.
  change (mbind f m v) with (tbind (m v) f). destruct (m v); cbn; split; intros Hm;
    try done; [eauto| | | |]; by destruct Hm as (? & ? & [= <- <-] & ?).
Qed.

Lemma lift_ok {A} (r : result ProgramError A) v a v' :
  lift r v = TOk a v' <-> r = Ok a /\ v' = v.
Proof. unfold lift. destruct r; naive_solver. Qed.

Lemma with_cell_ok {A} i (f : Account -> A) v x v' :
  with_cell i f v = TOk x v' <-> v' = v /\ exists a, v !! key i = Some a /\ x = f a.
Proof. unfold with_cell. destruct (v !! key i); naive_solver. Qed.

Lemma update_cell_ok i (f : Account -> Account) v u v' :
  update_cell i f v = TOk u v' <->
  exists a, v !! key i = Some a /\ v' = <[key i := f a]> v.
Proof. unfold update_cell. destruct (v !! key i), u; naive_solver. Qed.

Lemma mret_ok {A} (x : A) (v : view) a v' : mret (M:=ProgM) x v = TOk a v' <-> a = x /\ v' = v.
Proof. unfold mret, ProgM_ret. naive_solver. Qed.

Lemma next_account_info_ok it i rest :
  next_account_info it = Ok (i, rest) <-> it = i :: rest.
Proof. destruct it; cbn; naive_solver. Qed.

Lemma Rent_from_account_info_ok `{Sysvars} i v r v' :
  Rent_from_account_info i v = TOk r v' <->
  v' = v /\ key i = rent_sysvar_id /\
  exists a, v !! key i = Some a /\ bincode_deserialize_rent (acc_data a) = Some r.
Proof.
  unfold Rent_from_account_info. destruct (key_eqb (key i) rent_sysvar_id) eqn:E; cbn [negb].
  - apply key_eqb_eq in E. rewrite prog_bind_ok. unfold data. setoid_rewrite with_cell_ok.
    setoid_rewrite lift_ok. setoid_rewrite ok_or_ok. split.
    + intros (d & w & (-> & a & Ha & ->) & Hd & ->). eauto 6.
    + intros (-> & _ & a & Ha & Hd). eexists _, _. split; [split; [done|eauto]|eauto].
  - apply key_eqb_neq in E. rewrite lift_ok. naive_solver.
Qed.

(** Break [m v = TOk a v'] for straight-line code into its steps; a direct move
    of lamports is left for the lemmas on [move_lamports]. *)
Ltac inv_prog :=
  inv_ok; repeat (match goal with
  | H : mbind _ ?m _ = TOk _ _ |- _ =>
      lazymatch m with sub_lamports _ _ => fail | _ => idtac end;
      let a := fresh "x" in let w := fresh "w" in
      apply prog_bind_ok in H as (a & w & ? & H)
  | H : lift _ _ = TOk _ _ |- _ => apply lift_ok in H as [H ?]; subst
  | H : mret (M:=ProgM) _ _ = TOk _ _ |- _ => apply mret_ok in H as [? ?]; subst
  | H : lamports _ _ = TOk _ _ |- _ => apply with_cell_ok in H as (? & ? & ? & ?); subst
  | H : data _ _ = TOk _ _ |- _ => apply with_cell_ok in H as (? & ? & ? & ?); subst
  | H : owner _ _ = TOk _ _ |- _ => apply with_cell_ok in H as (? & ? & ? & ?); subst
  | H : data_len _ _ = TOk _ _ |- _ => apply with_cell_ok in H as (? & ? & ? & ?); subst
  | H : data_is_empty _ _ = TOk _ _ |- _ => apply with_cell_ok in H as (? & ? & ? & ?); subst
  | H : set_lamports _ _ _ = TOk _ _ |- _ => apply update_cell_ok in H as (? & ? & ?); subst
  | H : set_data _ _ _ = TOk _ _ |- _ => apply update_cell_ok in H as (? & ? & ?); subst
  | H : add_lamports _ _ _ = TOk _ _ |- _ => apply update_cell_ok in H as (? & ? & ?); subst
  | H : sub_lamports _ _ _ = TOk _ _ |- _ => apply update_cell_ok in H as (? & ? & ?); subst
  | H : next_account_info _ = Ok (_, _) |- _ => apply next_account_info_ok in H; subst
  | H : next_account_info _ = Ok ?x |- _ => destruct x
  | H : Rent_from_account_info _ _ = TOk _ _ |- _ =>
      apply Rent_from_account_info_ok in H as (? & ? & ? & ? & ?); subst
  | H : TErr _ = TOk _ _ |- _ => discriminate H
  | H : TPanic = TOk _ _ |- _ => discriminate H
  | H : TOk _ _ = TOk _ _ |- _ => injection H as ? ?; subst
  | H : (let '(_, _) := ?p in _) _ = TOk _ _ |- _ => destruct p
  | H : _ :: _ = _ :: _ |- _ => injection H as ? ?; subst
  | H : key_eqb _ _ = true |- _ => apply key_eqb_eq in H
  | H : key_eqb _ _ = false |- _ => apply key_eqb_neq in H
  | H1 : ?v !! ?k = Some ?a, H2 : ?v !! ?k = Some ?b |- _ =>
      assert (a = b) by congruence; subst; clear H2
  end; inv_ok).

(** ** Lamports of a store *)

Section store_sum.
Context (f : Account -> Z).

(** The sum of [f] over the cells of a store. *)
Definition store_sum (v : view) : Z := map_fold (fun _ a s => f a + s) 0 v.

Lemma store_sum_insert_new v k a :
  v !! k = None -> store_sum (<[k := a]> v) = f a + store_sum v.
Proof.
  intros Hk. unfold store_sum. rewrite map_fold_insert_L; [done|intros; lia|done].
Qed.

Lemma store_sum_delete v k a :
  v !! k = Some a -> store_sum v = f a + store_sum (delete k v).
Proof.
  intros Hk. rewrite <-(insert_id v k a Hk) at 1. rewrite <-(insert_delete_eq v k a).
  apply store_sum_insert_new, lookup_delete_eq.
Qed.

Lemma store_sum_insert v k a b :
  v !! k = Some a -> store_sum (<[k := b]> v) = store_sum v - f a + f b.
Proof.
  intros Hk. rewrite <-(insert_delete_eq v k b).
  rewrite store_sum_insert_new by apply lookup_delete_eq.
  rewrite (store_sum_delete v k a) by done. lia.
Qed.

Lemma store_sum_nonneg v :
  (forall k a, v !! k = Some a -> 0 <= f a) -> 0 <= store_sum v.
Proof.
  induction v as [|k a v Hk IH] using map_ind; intros Hv; [done|].
  rewrite store_sum_insert_new by done.
  assert (0 <= f a) by (apply (Hv k); by rewrite lookup_insert_eq).
  enough (0 <= store_sum v) by lia. apply IH. intros k' a' Hk'.
  apply (Hv k'). rewrite lookup_insert_ne; [done|congruence].
Qed.

Lemma store_sum_elem v k a :
  (forall k a, v !! k = Some a -> 0 <= f a) -> v !! k = Some a -> f a <= store_sum v.
Proof.
  intros Hv Hk. rewrite (store_sum_delete _ _ _ Hk).
  enough (0 <= store_sum (delete k v)) by lia. apply store_sum_nonneg.
  intros k' a' Hk'. apply lookup_delete_Some in Hk' as [_ Hk']. by eapply Hv.
Qed.

End store_sum.

Definition total_lamports : view -> Z := store_sum acc_lamports.

Lemma total_lamports_insert v k a b :
  v !! k = Some a ->
  total_lamports (<[k := b]> v) = total_lamports v - acc_lamports a + acc_lamports b.
Proof. apply store_sum_insert. Qed.

Lemma total_lamports_set_data v k a d :
  v !! k = Some a -> total_lamports (<[k := set_acc_data a d]> v) = total_lamports v.
Proof. intros Hk. rewrite (total_lamports_insert _ _ a) by done. cbn. lia. Qed.

(** Specification of a direct move of lamports between two cells: the source is
    debited, then the destination is credited; the two may be one cell. *)
Definition move_lamports (from to : Pubkey) (x : Z) (v : view) : option view :=
  a ← v !! from;
  let v1 := <[from := set_acc_lamports a (wrapping_sub (acc_lamports a) x)]> v in
  b ← v1 !! to;
  Some (<[to := set_acc_lamports b (wrapping_add (acc_lamports b) x)]> v1).

Lemma sub_add_lamports_ok i j x v u v' :
  (sub_lamports i x;; add_lamports j x) v = TOk u v' <->
  move_lamports (key i) (key j) x v = Some v'.
Proof.
  rewrite prog_bind_ok. unfold sub_lamports, add_lamports, move_lamports.
  setoid_rewrite update_cell_ok. split.
  - intros (_ & w & (a & Ha & ->) & b & Hb & ->). rewrite Ha. cbn. by rewrite Hb.
  - intros Hm. apply bind_Some in Hm as (a & Ha & Hm). apply bind_Some in Hm as (b & Hb & Hm).
    injection Hm as <-. eexists tt, _. split; eauto.
Qed.

(** Balances are never negative and, as the runtime never creates lamports, their
    sum fits in a [u64]. *)
Definition store_ok (v : view) : Prop :=
  (forall k a, v !! k = Some a -> 0 <= acc_lamports a) /\ total_lamports v <= U64_MAX.

Lemma total_lamports_nonneg v :
  (forall k a, v !! k = Some a -> 0 <= acc_lamports a) -> 0 <= total_lamports v.
Proof. apply store_sum_nonneg. Qed.

Lemma total_lamports_delete v k a :
  v !! k = Some a -> total_lamports v = acc_lamports a + total_lamports (delete k v).
Proof. apply store_sum_delete. Qed.

Lemma store_ok_delete v k :
  store_ok v -> store_ok (delete k v).
Proof.
  intros [H1 H2]. assert (Hd : forall k' a, delete k v !! k' = Some a -> 0 <= acc_lamports a).
  { intros k' a Ha. apply lookup_delete_Some in Ha as [_ Ha]. by eapply H1. }
  split; [done|]. destruct (v !! k) as [a|] eqn:E; [|by rewrite delete_id].
  rewrite (total_lamports_delete _ _ _ E) in H2. specialize (H1 _ _ E). lia.
Qed.

Lemma store_ok_one v k a : store_ok v -> v !! k = Some a -> is_u64 (acc_lamports a).
Proof.
  intros Hv Hk. pose proof (store_ok_delete _ k Hv) as [Hd _]. destruct Hv as [H1 H2].
  rewrite (total_lamports_delete _ _ _ Hk) in H2. apply total_lamports_nonneg in Hd.
  specialize (H1 _ _ Hk). unfold is_u64. lia.
Qed.

Lemma store_ok_two v i j a b :
  store_ok v -> i <> j -> v !! i = Some a -> v !! j = Some b ->
  acc_lamports a + acc_lamports b <= U64_MAX.
Proof.
  intros Hv Hij Hi Hj. assert (Hj' : delete i v !! j = Some b) by (by rewrite lookup_delete_ne).
  pose proof (store_ok_delete _ j (store_ok_delete _ i Hv)) as [Hd _].
  apply total_lamports_nonneg in Hd. destruct Hv as [_ H2].
  rewrite (total_lamports_delete _ _ _ Hi), (total_lamports_delete _ _ _ Hj') in H2. lia.
Qed.

(** The store after a move of at most the balance of the source. *)
Definition moved (from to : Pubkey) (x : Z) (v : view) : view :=
  match v !! from, v !! to with
  | Some a, Some b =>
      if decide (from = to) then v
      else <[to := set_acc_lamports b (acc_lamports b + x)]>
           (<[from := set_acc_lamports a (acc_lamports a - x)]> v)
  | _, _ => v
  end.

Lemma set_acc_lamports_id a : set_acc_lamports a (acc_lamports a) = a.
Proof. by destruct a. Qed.

Lemma move_lamports_moved from to x v v' a :
  store_ok v -> v !! from = Some a -> 0 <= x <= acc_lamports a ->
  move_lamports from to x v = Some v' <-> is_Some (v !! to) /\ v' = moved from to x v.
Proof.
  intros Hv Ha Hx. unfold move_lamports, moved. rewrite Ha. cbn [mbind option_bind].
  pose proof (store_ok_one _ _ _ Hv Ha) as Hua. unfold is_u64 in Hua.
  unfold wrapping_sub, wrapping_add. rewrite (wrap64_small (acc_lamports a - x)) by (unfold is_u64; lia).
  destruct (decide (from = to)) as [->|Hne].
  - rewrite lookup_insert_eq, Ha. cbn. rewrite wrap64_small by (unfold is_u64; lia).
    rewrite insert_insert_eq.
    replace (set_acc_lamports (set_acc_lamports a (acc_lamports a - x)) (acc_lamports a - x + x))
      with a by (destruct a; cbn; unfold set_acc_lamports; cbn; f_equal; lia).
    rewrite insert_id by done. naive_solver.
  - rewrite lookup_insert_ne by done. destruct (v !! to) as [b|] eqn:Hb; cbn; [|naive_solver].
    pose proof (store_ok_two _ _ _ _ _ Hv Hne Ha Hb). pose proof (store_ok_one _ _ _ Hv Hb) as Hub.
    unfold is_u64 in Hub. rewrite wrap64_small by (unfold is_u64; lia). naive_solver.
Qed.

Lemma moved_total from to x v : total_lamports (moved from to x v) = total_lamports v.
Proof.
  unfold moved. destruct (v !! from) as [a|] eqn:Ha, (v !! to) as [b|] eqn:Hb; try done.
  case_decide; [done|].
  rewrite (total_lamports_insert _ to b) by (by rewrite lookup_insert_ne).
  rewrite (total_lamports_insert _ from a) by done. cbn. lia.
Qed.

Lemma moved_sum (f : Account -> Z) from to x v :
  (forall a l, f (set_acc_lamports a l) = f a) ->
  store_sum f (moved from to x v) = store_sum f v.
Proof.
  intros Hf. unfold moved. destruct (v !! from) as [a|] eqn:Ha, (v !! to) as [b|] eqn:Hb; try done.
  case_decide; [done|]. rewrite (store_sum_insert _ _ to b) by (by rewrite lookup_insert_ne).
  rewrite (store_sum_insert _ _ from a) by done. rewrite !Hf. lia.
Qed.

Lemma moved_lookup from to x v k a' :
  moved from to x v !! k = Some a' -> exists a, v !! k = Some a /\
  a' = set_acc_lamports a (acc_lamports a') /\
  (from <> to -> is_Some (v !! to) -> k = from -> acc_lamports a' = acc_lamports a - x) /\
  (k <> from -> 0 <= x -> acc_lamports a <= acc_lamports a') /\
  (from = to -> a' = a).
Proof.
  unfold moved. destruct (v !! from) as [a|] eqn:Ha, (v !! to) as [b|] eqn:Hb;
    [|intros Hk; exists a'; rewrite set_acc_lamports_id; split_and!; try done; try lia;
      intros ? [? ?]; congruence..].
  case_decide as Heq.
  - intros Hk. exists a'. rewrite set_acc_lamports_id. split_and!; done.
  - rewrite !lookup_insert. repeat case_decide; intros; simplify_eq; eexists;
      (split; [eassumption|]); cbn; rewrite ?set_acc_lamports_id; split_and!; done || lia.
Qed.

Lemma moved_store_ok from to x v a :
  store_ok v -> v !! from = Some a -> 0 <= x <= acc_lamports a -> store_ok (moved from to x v).
Proof.
  intros Hv Ha Hx. split; [|rewrite moved_total; apply Hv]. intros k c. unfold moved. rewrite Ha.
  destruct (v !! to) as [b|] eqn:Hb; [|apply Hv]. case_decide; [apply Hv|].
  pose proof (proj1 Hv _ _ Hb). rewrite !lookup_insert. repeat case_decide; intros Hc;
    [injection Hc as <-; cbn; lia..|]. by eapply Hv.
Qed.

Lemma moved_is_Some_iff from to x v k : is_Some (moved from to x v !! k) <-> is_Some (v !! k).
Proof.
  unfold moved. destruct (v !! from) eqn:Ha, (v !! to) eqn:Hb; try done.
  case_decide; [done|]. rewrite !lookup_insert. repeat case_decide; subst; split; eauto.
Qed.

Lemma moved_source_lookup from to x v a :
  v !! from = Some a -> is_Some (v !! to) -> to <> from ->
  moved from to x v !! from = Some (set_acc_lamports a (acc_lamports a - x)).
Proof.
  intros Ha [b Hb] Hne. unfold moved. rewrite Ha, Hb. case_decide; [congruence|].
  by rewrite lookup_insert_ne, lookup_insert_eq.
Qed.

(** A move of [2^64 - x] lamports wraps around twice: it takes [x] lamports from
    the destination and gives them to the source. *)
Lemma move_lamports_wrapped from to x v a b :
  store_ok v -> from <> to -> v !! from = Some a -> v !! to = Some b ->
  0 < x <= acc_lamports b ->
  move_lamports from to (2 ^ 64 - x) v = Some (moved to from x v).
Proof.
  intros Hv Hne Ha Hb Hx. unfold move_lamports, moved. rewrite Ha, Hb. cbn [mbind option_bind].
  rewrite lookup_insert_ne, Hb by done. cbn [mbind option_bind]. case_decide; [congruence|].
  pose proof (store_ok_two _ _ _ _ _ Hv Hne Ha Hb) as Hsum.
  pose proof (store_ok_one _ _ _ Hv Ha) as Hua. pose proof (store_ok_one _ _ _ Hv Hb) as Hub.
  unfold is_u64, U64_MAX in *. unfold wrapping_sub, wrapping_add, wrap64.
  replace (acc_lamports a - (2 ^ 64 - x)) with (acc_lamports a + x + (-1) * 2 ^ 64) by lia.
  replace (acc_lamports b + (2 ^ 64 - x)) with (acc_lamports b - x + 1 * 2 ^ 64) by lia.
  rewrite !Z.mod_add, !Z.mod_small by lia. by rewrite insert_insert_ne.
Qed.

(** A move touches nothing but the two balances. *)
Lemma move_lamports_frame from to x v v' k :
  move_lamports from to x v = Some v' ->
  (k <> from -> k <> to -> v' !! k = v !! k) /\
  (forall a', v' !! k = Some a' -> exists a, v !! k = Some a /\
     a' = set_acc_lamports a (acc_lamports a')).
Proof.
  unfold move_lamports. intros Hm.
  apply bind_Some in Hm as (a & Ha & Hm). apply bind_Some in Hm as (b & Hb & Hm).
  injection Hm as <-. split.
  - intros H1 H2. by rewrite !lookup_insert_ne.
  - intros a'. destruct (decide (k = to)) as [->|Hto].
    + rewrite lookup_insert_eq. intros [= <-]. destruct (decide (from = to)) as [->|Hft].
      * rewrite lookup_insert_eq in Hb. injection Hb as <-. eauto.
      * rewrite lookup_insert_ne in Hb by done. eauto.
    + rewrite lookup_insert_ne by done. destruct (decide (k = from)) as [->|Hfrom].
      * rewrite lookup_insert_eq. intros [= <-]. eauto.
      * rewrite lookup_insert_ne by done. destruct a'. eauto.
Qed.

(** ** Inversion of code with CPIs *)
Lemma run_step_ok {A} cpi (t : tree A) a v :
  match t with TCpi _ _ _ _ _ => False | _ => True end ->
  run cpi t = Ok (a, v) <-> t = TOk a v.
Proof. destruct t; cbn; naive_solver. Qed.

Lemma run_lift_ok {A} cpi (r : result ProgramError A) v a v' :
  run cpi (lift r v) = Ok (a, v') <-> r = Ok a /\ v' = v.
Proof. rewrite run_step_ok, lift_ok; [done|]. by destruct r. Qed.

Lemma run_with_cell_ok {A} cpi i (f : Account -> A) v x v' :
  run cpi (with_cell i f v) = Ok (x, v') <-> v' = v /\ exists a, v !! key i = Some a /\ x = f a.
Proof. rewrite run_step_ok, with_cell_ok; [done|]. unfold with_cell. by destruct (v !! key i). Qed.

Lemma run_update_cell_ok cpi i (f : Account -> Account) v u v' :
  run cpi (update_cell i f v) = Ok (u, v') <->
  exists a, v !! key i = Some a /\ v' = <[key i := f a]> v.
Proof.
  rewrite run_step_ok, update_cell_ok; [done|]. unfold update_cell. by destruct (v !! key i).
Qed.

Lemma run_invoke_signed_ok cpi ix infos ss v u v' :
  run cpi (invoke_signed ix infos ss v) = Ok (u, v') <-> cpi ix infos ss v = Ok v'.
Proof. cbn. destruct (cpi ix infos ss v), u; cbn; naive_solver. Qed.

Lemma run_rent_ok `{Sysvars} cpi i v r v' :
  run cpi (Rent_from_account_info i v) = Ok (r, v') <->
  v' = v /\ key i = rent_sysvar_id /\
  exists a, v !! key i = Some a /\ bincode_deserialize_rent (acc_data a) = Some r.
Proof.
  rewrite run_step_ok, Rent_from_account_info_ok; [done|].
  unfold Rent_from_account_info, data, with_cell, mbind, ProgM_bind. cbn.
  destruct (negb _); [done|]. destruct (v !! key i); cbn; [|done].
  by destruct (bincode_deserialize_rent _).
Qed.

Ltac inv_run :=
  inv_prog; repeat (match goal with
  | H : run _ (mbind _ _ _) = Ok (_, _) |- _ =>
      let a := fresh "x" in let w := fresh "w" in
      apply run_bind_ok in H as (a & w & ? & H)
  | H : run _ ((let '(_, _) := ?p in _) _) = Ok (_, _) |- _ => destruct p
  | H : run _ (lift _ _) = Ok (_, _) |- _ => apply run_lift_ok in H as [H ?]; subst
  | H : run _ (data _ _) = Ok (_, _) |- _ => apply run_with_cell_ok in H as (? & ? & ? & ?); subst
  | H : run _ (data_is_empty _ _) = Ok (_, _) |- _ =>
      apply run_with_cell_ok in H as (? & ? & ? & ?); subst
  | H : run _ (lamports _ _) = Ok (_, _) |- _ =>
      apply run_with_cell_ok in H as (? & ? & ? & ?); subst
  | H : run _ (owner _ _) = Ok (_, _) |- _ => apply run_with_cell_ok in H as (? & ? & ? & ?); subst
  | H : run _ (set_data _ _ _) = Ok (_, _) |- _ =>
      apply run_update_cell_ok in H as (? & ? & ?); subst
  | H : run _ (invoke_signed _ _ _ _) = Ok (_, _) |- _ => apply run_invoke_signed_ok in H
  | H : run _ (invoke _ _ _) = Ok (_, _) |- _ => apply run_invoke_signed_ok in H
  | H : run _ (Rent_from_account_info _ _) = Ok (_, _) |- _ =>
      apply run_rent_ok in H as (? & ? & ? & ? & ?); subst
  end; inv_prog).

(** Code that never calls another program. *)
Definition no_cpi {A} (m : ProgM A) : Prop :=
  forall v, match m v with TCpi _ _ _ _ _ => False | _ => True end.

Lemma run_no_cpi_ok {A} cpi (m : ProgM A) v a v' :
  no_cpi m -> run cpi (m v) = Ok (a, v') <-> m v = TOk a v'.
Proof. intros Hm. apply run_step_ok, Hm. Qed.

Lemma no_cpi_bind {A B} (m : ProgM A) (f : A -> ProgM B) :
  no_cpi m -> (forall a, no_cpi (f a)) -> no_cpi (mbind f m).
Proof.
  intros Hm Hf v. unfold mbind, ProgM_bind. specialize (Hm v).
  destruct (m v); cbn; try done. apply Hf.
Qed.

Lemma no_cpi_lift {A} (r : result ProgramError A) : no_cpi (lift r).
Proof. intros v. by destruct r. Qed.

Lemma no_cpi_ret {A} (a : A) : no_cpi (mret a).
Proof. done. Qed.

Lemma no_cpi_with_cell {A} i (f : Account -> A) : no_cpi (with_cell i f).
Proof. intros v. unfold with_cell. by destruct (v !! key i). Qed.

Lemma no_cpi_update_cell i f : no_cpi (update_cell i f).
Proof. intros v. unfold update_cell. by destruct (v !! key i). Qed.

Lemma no_cpi_rent `{Sysvars} i : no_cpi (Rent_from_account_info i).
Proof.
  unfold Rent_from_account_info. destruct (negb _); [apply no_cpi_lift|].
  apply no_cpi_bind; [apply no_cpi_with_cell|intros; apply no_cpi_lift].
Qed.

#[export] Hint Resolve no_cpi_bind no_cpi_lift no_cpi_ret no_cpi_with_cell no_cpi_update_cell
  no_cpi_rent : no_cpi.

Ltac solve_no_cpi :=
  repeat (apply no_cpi_bind || (intros; cbv beta zeta);
          try match goal with |- no_cpi (let '(_, _) := ?p in _) => destruct p end);
  auto with no_cpi;
  try (apply no_cpi_with_cell || apply no_cpi_update_cell).

(** Prove [m v = TOk a v'] step by step from hypotheses about the steps; what
    automation does not find is left to the user. *)
Ltac fwd_res :=
  first
    [ reflexivity | eassumption
    | apply (proj2 (assert_ok _ tt)); first [eassumption | apply key_eqb_eq; congruence | idtac]
    | apply (proj2 (ensure_ok _ _ tt)); first [eassumption | apply key_eqb_eq; congruence | idtac]
    | apply unwrap_ok; first [eassumption | idtac]
    | apply ok_or_ok; first [eassumption | idtac] | idtac ].

Ltac fwd_atom :=
  lazymatch goal with
  | |- lift _ _ = TOk _ _ => apply lift_ok; split; [fwd_res | reflexivity]
  | |- mret _ _ = TOk _ _ => apply mret_ok; split; reflexivity
  | |- Rent_from_account_info _ _ = TOk _ _ =>
      apply Rent_from_account_info_ok; split; [reflexivity | split; [eassumption | eauto]]
  | |- update_cell _ _ _ = TOk _ _ => apply (proj2 (update_cell_ok _ _ _ tt _)); eexists; split; [eassumption|reflexivity]
  | |- set_lamports _ _ _ = TOk _ _ => apply (proj2 (update_cell_ok _ _ _ tt _)); eexists; split; [eassumption|reflexivity]
  | |- set_data _ _ _ = TOk _ _ => apply (proj2 (update_cell_ok _ _ _ tt _)); eexists; split; [eassumption|reflexivity]
  | |- _ => apply with_cell_ok; split; [reflexivity | eexists; split; [eassumption|reflexivity]]
  end.

Ltac fwd_prog :=
  repeat lazymatch goal with
  | |- mbind _ _ _ = TOk _ _ =>
      apply prog_bind_ok; eexists _, _; split; [solve [fwd_atom] | cbv beta iota]
  end.

Lemma run_tok {A} cpi (t : tree A) a v : t = TOk a v -> run cpi t = Ok (a, v).
Proof. by intros ->. Qed.

Ltac fwd_run :=
  repeat lazymatch goal with
  | |- run _ (mbind _ _ _) = Ok (_, _) =>
      apply run_bind_ok; eexists _, _; split;
      [ lazymatch goal with
        | |- run _ (invoke_signed _ _ _ _) = _ => apply (proj2 (run_invoke_signed_ok _ _ _ _ _ tt _)); eassumption
        | |- run _ (invoke _ _ _) = _ => apply (proj2 (run_invoke_signed_ok _ _ _ _ _ tt _)); eassumption
        | |- _ => apply run_tok; solve [fwd_atom]
        end
      | cbv beta iota]
  end.
