(* ===== verification/Borsh.v ===== *)
(** * Borsh

    The contracts encode their state and their instructions with the [borsh]
    crate, which is not part of the repository.  Its primitive codecs are
    parameters ([BorshCrate]); what the contracts rely on, the published format
    of the primitives, is the class [BorshSpec].  The derived codecs of the
    contracts' types (the fields in order; for an enum the index of the variant
    in one byte, then its fields) are built from the primitives next to the
    types they belong to. *)

From Stdlib Require Import Strings.Byte.
From S2P Require Import Prelude Sdk Program.

(** A reader consumes a prefix of its input or fails with the text of an I/O
    error. *)
Definition reader (A : Type) : Type := list byte -> result string (A * list byte).

#[global] Instance reader_ret : MRet reader := fun _ a l => Ok (a, l).
#[global] Instance reader_bind : MBind reader := fun _ _ f m l =>
  match m l with Ok (a, l') => f a l' | Err e => Err e | Panic => Panic end.

Class BorshCrate : Type := {
  ser_u8 : byte -> list byte;
  de_u8 : reader byte;
  ser_u32 : Z -> list byte;
  de_u32 : reader Z;
  ser_u64 : Z -> list byte;
  de_u64 : reader Z;
  (* an [f64] is kept as its 64 bits *)
  ser_f64 : Z -> list byte;
  de_f64 : reader Z;
  ser_pubkey : Pubkey -> list byte;
  de_pubkey : reader Pubkey;
  unexpected_variant : byte -> string
}.

(** [f64::is_nan] on the bits of an [f64]. *)
Definition f64_bits_is_nan (bits : Z) : bool :=
  (Z.land (Z.shiftr bits 52) 0x7ff =? 0x7ff) && negb (Z.land bits (2 ^ 52 - 1) =? 0).

(** The Borsh format: a [u8] is itself, integers are little-endian, [f64]s are
    the little-endian bytes of their bits and never NaN, arrays are their
    elements; reading takes exactly these bytes and fails when there are
    fewer. *)
Class BorshSpec (B : BorshCrate) : Prop := {
  ser_u8_spec b : ser_u8 b = [b];
  de_u8_spec b l : de_u8 (b :: l) = Ok (b, l);
  de_u8_short : exists e, de_u8 [] = Err e;
  ser_u32_spec z : ser_u32 z = to_le_bytes 4 z;
  de_u32_spec l : (4 <= length l)%nat ->
    de_u32 l = Ok (from_le_bytes (take 4 l), drop 4 l);
  de_u32_short l : (length l < 4)%nat -> exists e, de_u32 l = Err e;
  ser_u64_spec z : ser_u64 z = u64_le z;
  de_u64_spec l : (8 <= length l)%nat ->
    de_u64 l = Ok (from_le_bytes (take 8 l), drop 8 l);
  de_u64_short l : (length l < 8)%nat -> exists e, de_u64 l = Err e;
  ser_f64_spec z : f64_bits_is_nan z = false -> ser_f64 z = u64_le z;
  de_f64_spec l : (8 <= length l)%nat ->
    f64_bits_is_nan (from_le_bytes (take 8 l)) = false ->
    de_f64 l = Ok (from_le_bytes (take 8 l), drop 8 l);
  de_f64_nan l : (8 <= length l)%nat ->
    f64_bits_is_nan (from_le_bytes (take 8 l)) = true -> exists e, de_f64 l = Err e;
  de_f64_short l : (length l < 8)%nat -> exists e, de_f64 l = Err e;
  ser_pubkey_spec k : ser_pubkey k = to_bytes k;
  de_pubkey_spec k l : de_pubkey (to_bytes k ++ l) = Ok (k, l);
  de_pubkey_short l : (length l < 32)%nat -> exists e, de_pubkey l = Err e
}.

(** [T::deserialize(&mut &data[..])?]: the bytes after the value are ignored,
    and an I/O error becomes [ProgramError::BorshIoError]. *)
Definition borsh_deserialize {A} (r : reader A) (l : list byte) : result ProgramError A :=
  match r l with
  | Ok (a, _) => Ok a
  | Err e => Err (ProgramError.BorshIoError e)
  | Panic => Panic
  end.

(** [x.serialize(&mut &mut data[..]).unwrap()]: overwrites a prefix of the
    buffer and keeps the rest; a buffer that is too short is a panic. *)
Definition borsh_serialize_into (bytes dst : list byte) : result ProgramError (list byte) :=
  if (length bytes <=? length dst)%nat then Ok (write_prefix bytes dst) else Panic.

Lemma borsh_serialize_into_ok bytes dst d :
  borsh_serialize_into bytes dst = Ok d <->
  (length bytes <= length dst)%nat /\ d = write_prefix bytes dst.
Proof.
  unfold borsh_serialize_into. destruct (Nat.leb_spec (length bytes) (length dst)); naive_solver lia.
Qed.

Lemma borsh_deserialize_written {A} (r : reader A) x bytes dst :
  (forall l, r (bytes ++ l) = Ok (x, l)) ->
  borsh_deserialize r (write_prefix bytes dst) = Ok x.
Proof. intros Hr. unfold borsh_deserialize, write_prefix. by rewrite Hr. Qed.

(** A move of lamports followed by writing back the bytes a cell already holds. *)
Lemma move_then_rewrite i j x bytes v a u v' :
  v !! key i = Some a -> (length bytes <= length (acc_data a))%nat ->
  write_prefix bytes (acc_data a) = acc_data a ->
  (sub_lamports i x;; add_lamports j x;;
   d ← data i; d' ← lift (borsh_serialize_into bytes d); set_data i d') v = TOk u v' <->
  move_lamports (key i) (key j) x v = Some v'.
Proof.
  intros Ha Hlen Hw.
  assert (Htail : forall w, move_lamports (key i) (key j) x v = Some w ->
    (d ← data i; d' ← lift (borsh_serialize_into bytes d); set_data i d') w = TOk tt w).
  { intros w Hm. assert (exists b, w !! key i = Some b /\ acc_data b = acc_data a) as (b & Hb & Hd).
    { destruct (w !! key i) as [b|] eqn:Hb.
      - destruct (proj2 (move_lamports_frame _ _ _ _ _ (key i) Hm) _ Hb) as (a0 & Ha0 & ->).
        exists (set_acc_lamports a0 (acc_lamports b)). split; [done|]. cbn. congruence.
      - unfold move_lamports in Hm. apply bind_Some in Hm as (? & _ & Hm).
        apply bind_Some in Hm as (? & _ & [= <-]). rewrite !lookup_insert in Hb.
        repeat case_decide; congruence. }
    apply prog_bind_ok. eexists _, w. split; [apply with_cell_ok; split; [done|eauto]|].
    apply prog_bind_ok. exists (acc_data b), w. split.
    - apply lift_ok. split; [|done]. apply borsh_serialize_into_ok. rewrite Hd. done.
    - apply (proj2 (update_cell_ok _ _ _ tt _)). exists b. split; [done|].
      rewrite insert_id; [done|]. rewrite Hb. by destruct b. }
  split.
  - intros H. apply prog_bind_ok in H as ([] & v1 & H1 & H).
    apply prog_bind_ok in H as ([] & v2 & H2 & H).
    assert (move_lamports (key i) (key j) x v = Some v2) as Hm.
    { apply (sub_add_lamports_ok i j x v tt). apply prog_bind_ok. eauto. }
    rewrite (Htail _ Hm) in H. congruence.
  - intros Hm. destruct u. pose proof Hm as Hm'. apply (sub_add_lamports_ok i j x v tt) in Hm'.
    apply prog_bind_ok in Hm' as ([] & v1 & H1 & H2).
    apply prog_bind_ok. eexists _, _. split; [exact H1|].
    apply prog_bind_ok. eexists _, _. split; [exact H2|]. by apply Htail.
Qed.

Section laws.
Context {B : BorshCrate} {BS : BorshSpec B}.

Lemma reader_bind_ok {A C} (m : reader A) (f : A -> reader C) l a l' :
  m l = Ok (a, l') -> mbind f m l = f a l'.
Proof. intros H. unfold mbind, reader_bind. by rewrite H. Qed.

Lemma reader_bind_inv {A C} (m : reader A) (f : A -> reader C) l c l'' :
  mbind f m l = Ok (c, l'') <-> exists a l', m l = Ok (a, l') /\ f a l' = Ok (c, l'').
Proof.
  unfold mbind, reader_bind. destruct (m l) as [[a l']| |]; split; intros Hm; try done.
  - eauto.
  - by destruct Hm as (? & ? & [= <- <-] & ?).
  - by destruct Hm as (? & ? & ? & ?).
  - by destruct Hm as (? & ? & ? & ?).
Qed.

Lemma de_ser_u8 b l : de_u8 (ser_u8 b ++ l) = Ok (b, l).
Proof. by rewrite ser_u8_spec, <-de_u8_spec. Qed.

Lemma de_ser_u64 z l : is_u64 z -> de_u64 (ser_u64 z ++ l) = Ok (z, l).
Proof.
  intros Hz. rewrite ser_u64_spec, de_u64_spec.
  - rewrite take_app_length', drop_app_length' by (by rewrite length_u64_le). by rewrite from_u64_le.
  - rewrite length_app, length_u64_le. lia.
Qed.

Lemma de_ser_f64 z l :
  is_u64 z -> f64_bits_is_nan z = false -> de_f64 (ser_f64 z ++ l) = Ok (z, l).
Proof.
  intros Hz Hn. rewrite ser_f64_spec by done.
  pose proof (length_u64_le z) as Hl. pose proof (from_u64_le z Hz) as Hf.
  rewrite de_f64_spec.
  - rewrite take_app_length', drop_app_length' by done. by rewrite Hf.
  - rewrite length_app. lia.
  - rewrite take_app_length' by done. by rewrite Hf.
Qed.

Lemma de_ser_pubkey k l : de_pubkey (ser_pubkey k ++ l) = Ok (k, l).
Proof. by rewrite ser_pubkey_spec, de_pubkey_spec. Qed.

Lemma length_ser_pubkey k : length (ser_pubkey k) = 32%nat.
Proof. rewrite ser_pubkey_spec. apply length_to_bytes. Qed.

Lemma length_ser_u64 z : length (ser_u64 z) = 8%nat.
Proof. rewrite ser_u64_spec. apply length_u64_le. Qed.

(** Reading an address succeeds exactly when 32 bytes are there. *)
Lemma de_pubkey_inv l k l' : de_pubkey l = Ok (k, l') <-> l = to_bytes k ++ l'.
Proof.
  split; [|intros ->; apply de_pubkey_spec]. intros H.
  destruct (decide (length l < 32)%nat) as [Hl|Hl].
  - destruct (de_pubkey_short _ Hl) as [e He]. congruence.
  - destruct (Pubkey_new_len (take 32 l)) as [k0 Hk0]; [rewrite length_take; lia|].
    apply Pubkey_new_some in Hk0.
    assert (E : l = to_bytes k0 ++ drop 32 l) by (rewrite Hk0; symmetry; apply take_drop).
    rewrite E, de_pubkey_spec in H. injection H as <- <-. exact E.
Qed.

Lemma de_u64_inv l z l' :
  de_u64 l = Ok (z, l') <-> is_u64 z /\ l = u64_le z ++ l'.
Proof.
  split.
  - intros H. destruct (decide (length l < 8)%nat) as [Hl|Hl].
    + destruct (de_u64_short _ Hl) as [e He]. congruence.
    + assert (Ht : length (take 8 l) = 8%nat) by (rewrite length_take; lia).
      rewrite de_u64_spec in H by lia. injection H as <- <-.
      split; [by apply from_le_bytes_u64|]. rewrite u64_le_from by done. symmetry. apply take_drop.
  - intros [Hz ->]. rewrite <-ser_u64_spec. by apply de_ser_u64.
Qed.

Lemma de_f64_inv l z l' :
  de_f64 l = Ok (z, l') <-> is_u64 z /\ f64_bits_is_nan z = false /\ l = u64_le z ++ l'.
Proof.
  split.
  - intros H. destruct (decide (length l < 8)%nat) as [Hl|Hl].
    + destruct (de_f64_short _ Hl) as [e He]. congruence.
    + assert (Ht : length (take 8 l) = 8%nat) by (rewrite length_take; lia).
      destruct (f64_bits_is_nan (from_le_bytes (take 8 l))) eqn:En.
      * destruct (de_f64_nan l ltac:(lia) En) as [e He]. congruence.
      * rewrite de_f64_spec in H by (done || lia). injection H as <- <-.
        split; [by apply from_le_bytes_u64|]. split; [done|].
        rewrite u64_le_from by done. symmetry. apply take_drop.
  - intros (Hz & Hn & ->). rewrite <-ser_f64_spec by done. by apply de_ser_f64.
Qed.

End laws.

(** Decode the encoding of a struct or enum field by field. *)
Ltac borsh_roundtrip :=
  repeat (rewrite <-?app_assoc;
    first [ erewrite reader_bind_ok by
              (first [apply de_ser_u8 | apply de_ser_pubkey | apply de_ser_u64; eassumption
                     | apply de_ser_f64; eassumption])
          | progress cbv beta iota ]);
  try reflexivity.

(** ** A model of the specification

    The functions the format describes; they show that [BorshSpec] can hold. *)
Definition ref_de_u64 : reader Z := fun l =>
  if (8 <=? length l)%nat then Ok (from_le_bytes (take 8 l), drop 8 l)
  else Err "Unexpected length of input"%string.

Definition ref_borsh : BorshCrate := {|
  ser_u8 b := [b];
  de_u8 l := match l with b :: l => Ok (b, l) | [] => Err "Unexpected length of input"%string end;
  ser_u32 := to_le_bytes 4;
  de_u32 l :=
    if (4 <=? length l)%nat then Ok (from_le_bytes (take 4 l), drop 4 l)
    else Err "Unexpected length of input"%string;
  ser_u64 := u64_le;
  de_u64 := ref_de_u64;
  ser_f64 := u64_le;
  de_f64 l :=
    match ref_de_u64 l with
    | Ok (z, l) => if f64_bits_is_nan z then Err "NaN"%string else Ok (z, l)
    | r => r
    end;
  ser_pubkey := to_bytes;
  de_pubkey l :=
    match Pubkey_new (take 32 l) with
    | Some k => Ok (k, drop 32 l)
    | None => Err "Unexpected length of input"%string
    end;
  unexpected_variant _ := "Unexpected variant index"%string
|}.

#[global] Instance ref_borsh_spec : BorshSpec ref_borsh.
Proof.
  assert (Hshort : forall l, (length l < 8)%nat ->
    ref_de_u64 l = Err "Unexpected length of input"%string).
  { intros l Hl. unfold ref_de_u64. destruct (Nat.leb_spec 8 (length l)); [lia|done]. }
  assert (Hlong : forall l, (8 <= length l)%nat ->
    ref_de_u64 l = Ok (from_le_bytes (take 8 l), drop 8 l)).
  { intros l Hl. unfold ref_de_u64. destruct (Nat.leb_spec 8 (length l)); [done|lia]. }
  split; cbn; try done; eauto.
  - intros l Hl. do 4 (destruct l as [|? l]; [cbn in Hl; lia|]). done.
  - intros l Hl. do 4 (destruct l as [|? l]; [eauto|]). cbn in Hl. lia.
  - intros l Hl Hn. rewrite Hlong by done. by rewrite Hn.
  - intros l Hl Hn. rewrite Hlong by done. rewrite Hn. eauto.
  - intros l Hl. rewrite Hshort by done. eauto.
  - intros k l. rewrite take_app_length', drop_app_length' by (by rewrite length_to_bytes).
    by rewrite Pubkey_new_to_bytes.
  - intros l Hl. destruct (Pubkey_new (take 32 l)) as [k|] eqn:E; [|eauto].
    apply Pubkey_new_some in E. apply (f_equal length) in E.
    rewrite length_to_bytes, length_take in E. lia.
Qed.
