(* ===== verification/SystemInstruction.v ===== *)
(** * System program instructions

    [sdk/program/src/system_instruction.rs]: the instruction enum of the system
    program and the functions that build its instructions.  The [bincode]
    encoding is a parameter. *)

From Stdlib Require Import Strings.Byte.
From S2P Require Import Prelude Sdk Rent Program.

Definition MAX_PERMITTED_DATA_LENGTH : Z := 10 * 1024 * 1024.

(** [nonce::State::size()] *)
Definition nonce_state_size : Z := 80.

Definition recent_blockhashes_sysvar_id : Pubkey :=
  pubkey_of_Z 0x6a7d517192c568ee08a845f73d29788cf035c3145b21ab344d8062ea9400000.

(** A [String] is its UTF-8 bytes. *)
Inductive SystemInstruction : Type :=
| CreateAccount (lamports space : Z) (owner : Pubkey)
| Assign (owner : Pubkey)
| Transfer (lamports : Z)
| CreateAccountWithSeed (base : Pubkey) (seed : list byte) (lamports space : Z) (owner : Pubkey)
| AdvanceNonceAccount
| WithdrawNonceAccount (lamports : Z)
| InitializeNonceAccount (authorized : Pubkey)
| AuthorizeNonceAccount (authorized : Pubkey)
| Allocate (space : Z)
| AllocateWithSeed (base : Pubkey) (seed : list byte) (space : Z) (owner : Pubkey)
| AssignWithSeed (base : Pubkey) (seed : list byte) (owner : Pubkey)
| TransferWithSeed (lamports : Z) (from_seed : list byte) (from_owner : Pubkey)
| UpgradeNonceAccount.

(** The fields of an instruction are in range. *)
Definition system_instruction_wf (i : SystemInstruction) : Prop :=
  match i with
  | CreateAccount l s _ | CreateAccountWithSeed _ _ l s _ => is_u64 l /\ is_u64 s
  | Transfer l | WithdrawNonceAccount l | TransferWithSeed l _ _ => is_u64 l
  | Allocate s | AllocateWithSeed _ _ s _ => is_u64 s
  | _ => True
  end.

Class SystemBincode : Type := {
  bincode_serialize_system : SystemInstruction -> list byte;
  (* [limited_deserialize]: [None] is [InvalidInstructionData] *)
  limited_deserialize_system : list byte -> option SystemInstruction
}.

(** What the SDK relies on: decoding gives back what was encoded, for the
    instructions without a seed string (whose encodings are at most 52 bytes,
    far below the decoder's limit of one packet), and decoded integers have the
    width of their field. *)
Class SystemBincodeSpec (S : SystemBincode) : Prop := {
  bincode_system_roundtrip i :
    system_instruction_wf i ->
    match i with
    | CreateAccountWithSeed _ _ _ _ _ | AllocateWithSeed _ _ _ _
    | AssignWithSeed _ _ _ | TransferWithSeed _ _ _ => False
    | _ => True
    end ->
    limited_deserialize_system (bincode_serialize_system i) = Some i;
  bincode_system_range l i : limited_deserialize_system l = Some i -> system_instruction_wf i
}.

Section builders.
Context `{SystemBincode}.

(** [Instruction::new_with_bincode(system_program::id(), data, accounts)] *)
Definition system_instruction (data : SystemInstruction) (accounts : list AccountMeta)
    : Instruction :=
  mkInstruction system_program_id accounts (bincode_serialize_system data).

Definition create_account (from_pubkey to_pubkey : Pubkey) (lamports space : Z) (owner : Pubkey)
    : Instruction :=
  let account_metas :=
    [AccountMeta_new from_pubkey true; AccountMeta_new to_pubkey true] in
  system_instruction (CreateAccount lamports space owner) account_metas.

Definition create_account_with_seed (from_pubkey to_pubkey base : Pubkey) (seed : list byte)
    (lamports space : Z) (owner : Pubkey) : Instruction :=
  let account_metas :=
    [AccountMeta_new from_pubkey true; AccountMeta_new to_pubkey false;
     AccountMeta_new_readonly base true] in
  system_instruction (CreateAccountWithSeed base seed lamports space owner) account_metas.

Definition assign (pubkey owner : Pubkey) : Instruction :=
  let account_metas := [AccountMeta_new pubkey true] in
  system_instruction (Assign owner) account_metas.

Definition assign_with_seed (address base : Pubkey) (seed : list byte) (owner : Pubkey)
    : Instruction :=
  let account_metas := [AccountMeta_new address false; AccountMeta_new_readonly base true] in
  system_instruction (AssignWithSeed base seed owner) account_metas.

Definition transfer (from_pubkey to_pubkey : Pubkey) (lamports : Z) : Instruction :=
  let account_metas :=
    [AccountMeta_new from_pubkey true; AccountMeta_new to_pubkey false] in
  system_instruction (Transfer lamports) account_metas.

Definition transfer_with_seed (from_pubkey from_base : Pubkey) (from_seed : list byte)
    (from_owner to_pubkey : Pubkey) (lamports : Z) : Instruction :=
  let account_metas :=
    [AccountMeta_new from_pubkey false; AccountMeta_new_readonly from_base true;
     AccountMeta_new to_pubkey false] in
  system_instruction (TransferWithSeed lamports from_seed from_owner) account_metas.

Definition allocate (pubkey : Pubkey) (space : Z) : Instruction :=
  let account_metas := [AccountMeta_new pubkey true] in
  system_instruction (Allocate space) account_metas.

Definition allocate_with_seed (address base : Pubkey) (seed : list byte) (space : Z)
    (owner : Pubkey) : Instruction :=
  let account_metas := [AccountMeta_new address false; AccountMeta_new_readonly base true] in
  system_instruction (AllocateWithSeed base seed space owner) account_metas.

Definition transfer_many (from_pubkey : Pubkey) (to_lamports : list (Pubkey * Z))
    : list Instruction :=
  map (fun '(to_pubkey, lamports) => transfer from_pubkey to_pubkey lamports) to_lamports.

Definition create_nonce_account_with_seed (from_pubkey nonce_pubkey base : Pubkey)
    (seed : list byte) (authority : Pubkey) (lamports : Z) : list Instruction :=
  [create_account_with_seed from_pubkey nonce_pubkey base seed lamports nonce_state_size
     system_program_id;
   system_instruction (InitializeNonceAccount authority)
     [AccountMeta_new nonce_pubkey false;
      AccountMeta_new_readonly recent_blockhashes_sysvar_id false;
      AccountMeta_new_readonly rent_sysvar_id false]].

Definition create_nonce_account (from_pubkey nonce_pubkey authority : Pubkey) (lamports : Z)
    : list Instruction :=
  [create_account from_pubkey nonce_pubkey lamports nonce_state_size system_program_id;
   system_instruction (InitializeNonceAccount authority)
     [AccountMeta_new nonce_pubkey false;
      AccountMeta_new_readonly recent_blockhashes_sysvar_id false;
      AccountMeta_new_readonly rent_sysvar_id false]].

Definition advance_nonce_account (nonce_pubkey authorized_pubkey : Pubkey) : Instruction :=
  let account_metas :=
    [AccountMeta_new nonce_pubkey false;
     AccountMeta_new_readonly recent_blockhashes_sysvar_id false;
     AccountMeta_new_readonly authorized_pubkey true] in
  system_instruction AdvanceNonceAccount account_metas.

Definition withdraw_nonce_account (nonce_pubkey authorized_pubkey to_pubkey : Pubkey)
    (lamports : Z) : Instruction :=
  let account_metas :=
    [AccountMeta_new nonce_pubkey false; AccountMeta_new to_pubkey false;
     AccountMeta_new_readonly recent_blockhashes_sysvar_id false;
     AccountMeta_new_readonly rent_sysvar_id false;
     AccountMeta_new_readonly authorized_pubkey true] in
  system_instruction (WithdrawNonceAccount lamports) account_metas.

Definition authorize_nonce_account (nonce_pubkey authorized_pubkey new_authority : Pubkey)
    : Instruction :=
  let account_metas :=
    [AccountMeta_new nonce_pubkey false; AccountMeta_new_readonly authorized_pubkey true] in
  system_instruction (AuthorizeNonceAccount new_authority) account_metas.

Definition upgrade_nonce_account (nonce_pubkey : Pubkey) : Instruction :=
  let account_metas := [AccountMeta_new nonce_pubkey false] in
  system_instruction UpgradeNonceAccount account_metas.

End builders.

(** ** What the system program promises to its callers

    The effect of the two instructions the contracts send, as functions on the
    store, and the interface a handler of CPIs offers when it runs the system
    program.  [SystemProgram] proves that the processor implements it. *)
Definition transfer_effect (from to : Pubkey) (x : Z) (v : view) : option view :=
  if x =? 0 then Some v
  else
    a ← v !! from;
    if negb (bool_decide (acc_data a = [])) || (acc_lamports a <? x) then None
    else
      let v1 := <[from := set_acc_lamports a (acc_lamports a - x)]> v in
      b ← v1 !! to;
      l ← checked_add (acc_lamports b) x;
      Some (<[to := set_acc_lamports b l]> v1).

Definition created_account (b : Account) (space : Z) (ow : Pubkey) : Account :=
  set_acc_owner (set_acc_data b (replicate (Z.to_nat space) x00)) ow.

Definition create_account_effect (from to : Pubkey) (x space : Z) (ow : Pubkey) (v : view)
    : option view :=
  b ← v !! to;
  if bool_decide (acc_lamports b = 0 /\ acc_data b = [] /\ acc_owner b = system_program_id)
     && (space <=? MAX_PERMITTED_DATA_LENGTH)
  then transfer_effect from to x (<[to := created_account b space ow]> v)
  else None.

Class SystemCpi `{SystemBincode} (cpi : cpi_handler) : Prop := {
  sys_transfer from to x infos ss v v' :
    is_u64 x ->
    cpi (transfer from to x) infos ss v = Ok v' -> transfer_effect from to x v = Some v';
  sys_create_account from to x space ow infos ss v v' :
    is_u64 x -> is_u64 space ->
    cpi (create_account from to x space ow) infos ss v = Ok v' ->
    create_account_effect from to x space ow v = Some v'
}.

(** A transfer moves exactly [x] lamports and touches nothing else. *)
Lemma transfer_effect_total from to x v v' :
  transfer_effect from to x v = Some v' -> total_lamports v' = total_lamports v.
Proof.
  unfold transfer_effect. destruct (x =? 0); [by intros [= <-]|]. intros Ht.
  apply bind_Some in Ht as (a & Ha & Ht). destruct (_ || _); [done|].
  apply bind_Some in Ht as (b & Hb & Ht). apply bind_Some in Ht as (l & Hl & [= <-]).
  apply checked_add_some in Hl as [-> _].
  rewrite (total_lamports_insert _ to b), (total_lamports_insert _ from a) by done. cbn. lia.
Qed.

Lemma transfer_effect_sum (f : Account -> Z) from to x v v' :
  (forall a l, f (set_acc_lamports a l) = f a) ->
  transfer_effect from to x v = Some v' -> store_sum f v' = store_sum f v.
Proof.
  intros Hf. unfold transfer_effect. destruct (x =? 0); [by intros [= <-]|]. intros Ht.
  apply bind_Some in Ht as (a & Ha & Ht). destruct (_ || _); [done|].
  apply bind_Some in Ht as (b & Hb & Ht). apply bind_Some in Ht as (l & Hl & [= <-]).
  rewrite (store_sum_insert _ _ to b), (store_sum_insert _ _ from a), !Hf by done. lia.
Qed.

(** Only an account without data is debited. *)
Lemma transfer_effect_from_empty from to x v v' a :
  transfer_effect from to x v = Some v' -> x <> 0 -> v !! from = Some a ->
  acc_data a = [] /\ x <= acc_lamports a.
Proof.
  unfold transfer_effect. intros Ht Hx Ha. destruct (Z.eqb_spec x 0); [done|].
  rewrite Ha in Ht. cbn in Ht. case_bool_decide; [|done]. cbn in Ht.
  destruct (Z.ltb_spec (acc_lamports a) x); [done|]. done.
Qed.

Lemma transfer_effect_lookup from to x v v' k :
  transfer_effect from to x v = Some v' -> 0 <= x ->
  (forall a', v' !! k = Some a' -> exists a, v !! k = Some a /\
     acc_data a' = acc_data a /\ acc_owner a' = acc_owner a /\
     (k <> from -> k <> to -> a' = a) /\
     (from <> to -> k = to -> acc_lamports a' = acc_lamports a + x) /\
     (from <> to -> k = from -> acc_lamports a' = acc_lamports a - x)) /\
  (is_Some (v !! k) -> is_Some (v' !! k)).
Proof.
  unfold transfer_effect. intros Ht Hx. destruct (Z.eqb_spec x 0) as [->|Hx0].
  { injection Ht as <-. split; [|done]. intros a' Ha'. exists a'. repeat split; done || lia. }
  apply bind_Some in Ht as (a & Ha & Ht). destruct (_ || _); [done|].
  apply bind_Some in Ht as (b & Hb & Ht). apply bind_Some in Ht as (l & Hl & [= <-]).
  apply checked_add_some in Hl as [-> _]. split.
  - intros a'. rewrite !lookup_insert in *. repeat case_decide; simplify_eq; intros; simplify_eq;
      eexists; (split; [eassumption|]); repeat split; cbn in *; intros; simplify_eq; try done; try lia.
  - intros Hk. rewrite !lookup_insert. repeat case_decide; eauto.
Qed.

(** The new account holds [x] lamports and [space] zero bytes and belongs to
    [ow]; the payer is debited; the sum of all balances stays. *)
Record account_created (from to : Pubkey) (x space : Z) (ow : Pubkey) (v v' : view) : Prop := {
  created_new : exists b', v' !! to = Some b' /\ acc_lamports b' = x /\ acc_owner b' = ow /\
     acc_data b' = replicate (Z.to_nat space) x00;
  created_total : total_lamports v' = total_lamports v;
  created_old : exists b, v !! to = Some b /\ acc_lamports b = 0 /\ acc_data b = [] /\
     acc_owner b = system_program_id;
  created_other : forall k a', k <> to -> v' !! k = Some a' -> exists a, v !! k = Some a /\
     acc_data a' = acc_data a /\ acc_owner a' = acc_owner a /\
     (k <> from -> a' = a) /\ (k = from -> acc_lamports a' = acc_lamports a - x);
  created_dom : forall k, is_Some (v !! k) -> is_Some (v' !! k)
}.

Lemma create_account_effect_spec from to x space ow v v' :
  create_account_effect from to x space ow v = Some v' -> 0 <= x ->
  account_created from to x space ow v v'.
Proof.
  unfold create_account_effect. intros Hc Hx. apply bind_Some in Hc as (b & Hb & Hc).
  case_bool_decide as Hb'; [|done]. destruct Hb' as (Hb1 & Hb2 & Hb3).
  cbn [andb] in Hc. destruct (Z.leb_spec space MAX_PERMITTED_DATA_LENGTH); [|done].
  pose proof (transfer_effect_total _ _ _ _ _ Hc) as Ht.
  rewrite (total_lamports_insert _ _ b) in Ht by done. cbn in Ht.
  pose proof (fun k => transfer_effect_lookup _ _ _ _ _ k Hc Hx) as Hk.
  split.
  - destruct (proj2 (Hk to)) as [b' Hb']; [by rewrite lookup_insert_eq|].
    exists b'. split; [done|]. destruct (proj1 (Hk to) b' Hb') as (c & Hc' & Hd & Ho & _ & Hl & _).
    rewrite lookup_insert_eq in Hc'. injection Hc' as <-. cbn in *.
    split_and!; try done. destruct (decide (from = to)) as [->|]; [|rewrite Hl by done; lia].
    unfold transfer_effect in Hc. destruct (Z.eqb_spec x 0) as [->|?].
    + injection Hc as <-. rewrite lookup_insert_eq in Hb'. by injection Hb' as <-.
    + rewrite lookup_insert_eq in Hc. cbn in Hc. rewrite Hb1 in Hc.
      destruct (Z.ltb_spec 0 x); [by rewrite orb_true_r in Hc|lia].
  - lia.
  - eauto.
  - intros k a' Hne Ha'. destruct (proj1 (Hk k) a' Ha') as (a & Ha & Hd & Ho & Hs & _ & Hl).
    rewrite lookup_insert_ne in Ha by done. exists a. split_and!; try done.
    + intros. by apply Hs.
    + intros ->. apply Hl; done.
  - intros k Hs. apply Hk. rewrite lookup_insert. case_decide; eauto.
Qed.

Lemma sys_created `{SystemBincode} cpi from to x space ow infos ss v v' :
  SystemCpi cpi -> is_u64 x -> is_u64 space ->
  cpi (create_account from to x space ow) infos ss v = Ok v' ->
  account_created from to x space ow v v'.
Proof.
  intros Hsys Hx Hs Hc. apply create_account_effect_spec; [|apply Hx].
  by eapply sys_create_account.
Qed.

(** ** Models of the interfaces

    An encoding that satisfies [SystemBincodeSpec] (the tag in four bytes, then
    the fields, as [bincode] does), and a handler that satisfies [SystemCpi]. *)
Definition ref_decode_fields (tag : byte) (l : list byte) : option SystemInstruction :=
  match tag with
  | x00 =>
      k ← Pubkey_new (drop 16 l);
      Some (CreateAccount (from_le_bytes (take 8 l)) (from_le_bytes (take 8 (drop 8 l))) k)
  | x01 => k ← Pubkey_new l; Some (Assign k)
  | x02 => Some (Transfer (from_le_bytes (take 8 l)))
  | x04 => Some AdvanceNonceAccount
  | x05 => Some (WithdrawNonceAccount (from_le_bytes (take 8 l)))
  | x06 => k ← Pubkey_new l; Some (InitializeNonceAccount k)
  | x07 => k ← Pubkey_new l; Some (AuthorizeNonceAccount k)
  | x08 => Some (Allocate (from_le_bytes (take 8 l)))
  | x0c => Some UpgradeNonceAccount
  | _ => None
  end.

Definition ref_bincode : SystemBincode := {|
  bincode_serialize_system i :=
    let tagged t fields := [t; x00; x00; x00] ++ fields in
    match i with
    | CreateAccount l s o => tagged x00 (u64_le l ++ u64_le s ++ to_bytes o)
    | Assign o => tagged x01 (to_bytes o)
    | Transfer l => tagged x02 (u64_le l)
    | AdvanceNonceAccount => tagged x04 []
    | WithdrawNonceAccount l => tagged x05 (u64_le l)
    | InitializeNonceAccount a => tagged x06 (to_bytes a)
    | AuthorizeNonceAccount a => tagged x07 (to_bytes a)
    | Allocate s => tagged x08 (u64_le s)
    | UpgradeNonceAccount => tagged x0c []
    | _ => []
    end;
  limited_deserialize_system l :=
    match l with t :: l => ref_decode_fields t (drop 3 l) | [] => None end
|}.

Lemma take_u64_le z l : is_u64 z -> from_le_bytes (take 8 (u64_le z ++ l)) = z.
Proof. intros. rewrite take_app_length' by (by rewrite length_u64_le). by apply from_u64_le. Qed.

Lemma ref_decode_range t l i : ref_decode_fields t l = Some i -> system_instruction_wf i.
Proof.
  intros Hi. destruct t; cbn [ref_decode_fields] in Hi;
    first [ discriminate Hi
          | apply bind_Some in Hi as (k & _ & Hk); apply (inj Some) in Hk; subst i
          | apply (inj Some) in Hi; subst i ];
    cbn [system_instruction_wf]; auto using from_le_bytes_take8.
Qed.

#[global] Instance ref_bincode_spec : SystemBincodeSpec ref_bincode.
Proof.
  split; [|intros [|t l] i Hi; [done|exact (ref_decode_range _ _ _ Hi)]]. intros i Hi Hs. destruct i; try done; cbn [system_instruction_wf] in Hi;
    cbn [bincode_serialize_system limited_deserialize_system ref_bincode app skipn];
    rewrite ?drop_0; unfold ref_decode_fields.
  - destruct Hi. rewrite take_u64_le by done.
    rewrite drop_app_length' by (by rewrite length_u64_le). rewrite take_u64_le by done.
    rewrite app_assoc, drop_app_length' by (by rewrite length_app, !length_u64_le).
    by rewrite Pubkey_new_to_bytes.
  - by rewrite Pubkey_new_to_bytes.
  - rewrite <-(app_nil_r (u64_le _)). by rewrite take_u64_le.
  - rewrite <-(app_nil_r (u64_le _)). by rewrite take_u64_le.
  - by rewrite Pubkey_new_to_bytes.
  - by rewrite Pubkey_new_to_bytes.
  - rewrite <-(app_nil_r (u64_le _)). by rewrite take_u64_le.
Qed.

Definition ref_system_cpi `{SystemBincode} : cpi_handler := fun ix _ _ v =>
  match limited_deserialize_system (ix_data ix), ix_accounts ix with
  | Some (Transfer x), [f; t] =>
      ok_or (transfer_effect (am_pubkey f) (am_pubkey t) x v) ProgramError.InvalidArgument
  | Some (CreateAccount x s o), [f; t] =>
      ok_or (create_account_effect (am_pubkey f) (am_pubkey t) x s o v)
        ProgramError.InvalidArgument
  | _, _ => Err ProgramError.InvalidArgument
  end.

#[global] Instance ref_system_cpi_spec `{SystemBincodeSpec} : SystemCpi ref_system_cpi.
Proof.
  split.
  - intros from to x infos ss v v' Hx Hc. unfold ref_system_cpi, transfer in Hc. cbn in Hc.
    rewrite bincode_system_roundtrip in Hc by done. by apply ok_or_ok in Hc.
  - intros from to x space ow infos ss v v' Hx Hs Hc.
    unfold ref_system_cpi, create_account in Hc. cbn in Hc.
    rewrite bincode_system_roundtrip in Hc by done. by apply ok_or_ok in Hc.
Qed.
