(* ===== verification/Fixtures.v ===== *)
(** * Concrete instances

    Instances of the parameters of the model (hash, sysvar and instruction
    encodings) and small accounts, on which the theorems are evaluated. *)

From Stdlib Require Import Strings.Byte.
From S2P Require Import Prelude Sdk Rent Program Borsh SystemInstruction.

(** Every rent account holds the default rent. *)
Definition toy_sysvars : Sysvars := {|
  bincode_deserialize_rent _ := Some Rent_default;
  cached_rent := Some Rent_default
|}.

Definition toy_key (n : Z) : Pubkey := pubkey_of_Z n.
Definition toy_account (lamports : Z) (data : list byte) (owner : Pubkey) : Account :=
  mkAccount lamports data owner false 0.
Definition wr (k : Pubkey) : AccountInfo := mkAccountInfo k false true.
Definition wr_signer (k : Pubkey) : AccountInfo := mkAccountInfo k true true.
Definition rd (k : Pubkey) : AccountInfo := mkAccountInfo k false false.

(** The address of a derivation that is known to succeed. *)
Definition the_key (o : option Pubkey) : Pubkey := default system_program_id o.

(** Decide [store_ok] on a concrete store. *)
Definition store_okb (v : view) : bool :=
  forallb (fun '(_, a) => 0 <=? acc_lamports a) (map_to_list v)
  && (total_lamports v <=? U64_MAX).

Lemma store_okb_ok v : store_okb v = true -> store_ok v.
Proof.
  unfold store_okb. rewrite andb_true_iff, forallb_forall, Z.leb_le. intros [H1 H2].
  split; [|done]. intros k a Ha. apply elem_of_map_to_list in Ha.
  apply list_elem_of_In in Ha. apply H1 in Ha. by apply Z.leb_le.
Qed.

#[global] Existing Instances ref_borsh toy_crypto toy_sysvars ref_bincode.

(** Extract the result of a concrete run without printing it. *)
Lemma run_result (r : result ProgramError (unit * view)) :
  is_ok r = true -> exists v', r = Ok (tt, v').
Proof. destruct r as [[[] v']| |]; [eauto|done..]. Qed.

Definition tree_ok {A} (t : tree A) : bool := match t with TOk _ _ => true | _ => false end.

Lemma tree_result (t : tree unit) : tree_ok t = true -> exists v', t = TOk tt v'.
Proof. destruct t as [[] v'| | |]; [eauto|done..]. Qed.

Lemma is_Some_eval {A} (o : option A) :
  match o with Some _ => true | None => false end = true -> is_Some o.
Proof. destruct o; [eauto|done]. Qed.

Ltac vm_true := vm_compute; reflexivity.
