(* ===== verification/Level0.v ===== *)
(** * Level 0: the personal savings wallet

    [contracts/level0/src/lib.rs] and [processor.rs].  A wallet account holds
    the addresses of its authority and of its vault; the vault account holds the
    lamports.  The program is run on the account cells of its instruction and
    calls the system program to create accounts and to move deposits. *)

From Stdlib Require Import Strings.Byte.
From S2P Require Import Prelude Sdk Rent Program Borsh SystemInstruction Fixtures.

(** ** lib.rs *)
Inductive WalletInstruction : Type :=
| Initialize
| Deposit (amount : Z)
| Withdraw (amount : Z).

Record Wallet : Type := mkWallet {
  authority : Pubkey;
  vault : Pubkey
}.

Definition WALLET_LEN : Z := 32 + 32.

Section level0.
Context {B : BorshCrate} {CR : Crypto} {SV : Sysvars} {SB : SystemBincode}.

(** [#[derive(BorshSerialize, BorshDeserialize)]] *)
Definition WalletInstruction_serialize (i : WalletInstruction) : list byte :=
  match i with
  | Initialize => ser_u8 x00
  | Deposit amount => ser_u8 x01 ++ ser_u64 amount
  | Withdraw amount => ser_u8 x02 ++ ser_u64 amount
  end.

Definition WalletInstruction_deserialize : reader WalletInstruction :=
  tag ← de_u8;
  match tag with
  | x00 => mret Initialize
  | x01 => amount ← de_u64; mret (Deposit amount)
  | x02 => amount ← de_u64; mret (Withdraw amount)
  | _ => fun _ => Err (unexpected_variant tag)
  end.

Definition Wallet_serialize (w : Wallet) : list byte :=
  ser_pubkey (authority w) ++ ser_pubkey (vault w).

Definition Wallet_deserialize : reader Wallet :=
  a ← de_pubkey; va ← de_pubkey; mret (mkWallet a va).

(** [None] is the panic of [find_program_address]. *)
Definition get_wallet_address (authority wallet_program : Pubkey) : option Pubkey :=
  fst <$> find_program_address [to_bytes authority] wallet_program.

(** ["VAULT".as_bytes()] *)
Definition VAULT_SEED : list byte := String.list_byte_of_string "VAULT".

Definition get_vault_address (authority wallet_program : Pubkey) : option Pubkey :=
  fst <$> find_program_address [to_bytes authority; VAULT_SEED] wallet_program.

(** The client functions [initialize], [deposit] and [withdraw] of lib.rs. *)
Definition client_initialize (wallet_program authority_address : Pubkey) : option Instruction :=
  wallet_address ← get_wallet_address authority_address wallet_program;
  vault_address ← get_vault_address authority_address wallet_program;
  Some (mkInstruction wallet_program
    [AccountMeta_new wallet_address false;
     AccountMeta_new vault_address false;
     AccountMeta_new authority_address true;
     AccountMeta_new_readonly rent_sysvar_id false;
     AccountMeta_new_readonly system_program_id false]
    (WalletInstruction_serialize Initialize)).

Definition client_deposit (wallet_program authority_address source : Pubkey) (amount : Z)
    : option Instruction :=
  wallet_address ← get_wallet_address authority_address wallet_program;
  vault_address ← get_vault_address authority_address wallet_program;
  Some (mkInstruction wallet_program
    [AccountMeta_new wallet_address false;
     AccountMeta_new vault_address false;
     AccountMeta_new source true;
     AccountMeta_new_readonly system_program_id false]
    (WalletInstruction_serialize (Deposit amount))).

Definition client_withdraw (wallet_program authority_address destination : Pubkey) (amount : Z)
    : option Instruction :=
  wallet_address ← get_wallet_address authority_address wallet_program;
  vault_address ← get_vault_address authority_address wallet_program;
  Some (mkInstruction wallet_program
    [AccountMeta_new wallet_address false;
     AccountMeta_new vault_address false;
     AccountMeta_new authority_address true;
     AccountMeta_new destination false;
     AccountMeta_new_readonly system_program_id false]
    (WalletInstruction_serialize (Withdraw amount))).

(** ** processor.rs *)
Definition initialize (program_id : Pubkey) (accounts : list AccountInfo) : ProgM unit :=
  '(wallet_info, iter) ← lift (next_account_info accounts);
  '(vault_info, iter) ← lift (next_account_info iter);
  '(authority_info, iter) ← lift (next_account_info iter);
  '(rent_info, iter) ← lift (next_account_info iter);
  '(wallet_address, wallet_seed) ←
    lift (unwrap (find_program_address [to_bytes (key authority_info)] program_id));
  '(vault_address, vault_seed) ←
    lift (unwrap (find_program_address [to_bytes (key authority_info); VAULT_SEED] program_id));
  rent ← Rent_from_account_info rent_info;
  lift (assert_ (key_eqb (key wallet_info) wallet_address));;
  empty ← data_is_empty wallet_info;
  lift (assert_ empty);;
  invoke_signed
    (create_account (key authority_info) wallet_address
       (minimum_balance rent WALLET_LEN) WALLET_LEN program_id)
    [authority_info; wallet_info]
    [[to_bytes (key authority_info); [wallet_seed]]];;
  invoke_signed
    (create_account (key authority_info) vault_address
       (minimum_balance rent 0) 0 program_id)
    [authority_info; vault_info]
    [[to_bytes (key authority_info); VAULT_SEED; [vault_seed]]];;
  let wallet := mkWallet (key authority_info) vault_address in
  d ← data wallet_info;
  d' ← lift (borsh_serialize_into (Wallet_serialize wallet) d);
  set_data wallet_info d'.

Definition deposit (program_id : Pubkey) (accounts : list AccountInfo) (amount : Z)
    : ProgM unit :=
  '(wallet_info, iter) ← lift (next_account_info accounts);
  '(vault_info, iter) ← lift (next_account_info iter);
  '(source_info, iter) ← lift (next_account_info iter);
  d ← data wallet_info;
  wallet ← lift (borsh_deserialize Wallet_deserialize d);
  lift (assert_ (key_eqb (vault wallet) (key vault_info)));;
  invoke (transfer (key source_info) (key vault_info) amount) [vault_info; source_info].

Definition withdraw (program_id : Pubkey) (accounts : list AccountInfo) (amount : Z)
    : ProgM unit :=
  '(wallet_info, iter) ← lift (next_account_info accounts);
  '(vault_info, iter) ← lift (next_account_info iter);
  '(authority_info, iter) ← lift (next_account_info iter);
  '(destination_info, iter) ← lift (next_account_info iter);
  d ← data wallet_info;
  wallet ← lift (borsh_deserialize Wallet_deserialize d);
  lift (assert_ (is_signer authority_info));;
  lift (assert_ (key_eqb (authority wallet) (key authority_info)));;
  lift (assert_ (key_eqb (vault wallet) (key vault_info)));;
  balance ← lamports vault_info;
  lift (ensure (negb (balance <? amount)) ProgramError.InsufficientFunds);;
  sub_lamports vault_info amount;;
  add_lamports destination_info amount.

Definition process_instruction (program_id : Pubkey) (accounts : list AccountInfo)
    (instruction_data : list byte) : ProgM unit :=
  i ← lift (borsh_deserialize WalletInstruction_deserialize instruction_data);
  match i with
  | Initialize => initialize program_id accounts
  | Deposit amount => deposit program_id accounts amount
  | Withdraw amount => withdraw program_id accounts amount
  end.

(** ** Properties *)
Context {BS : BorshSpec B}.

Lemma Wallet_roundtrip w l :
  Wallet_deserialize (Wallet_serialize w ++ l) = Ok (w, l).
Proof. unfold Wallet_deserialize, Wallet_serialize. borsh_roundtrip. by destruct w. Qed.

Lemma length_Wallet_serialize w : length (Wallet_serialize w) = 64%nat.
Proof. unfold Wallet_serialize. by rewrite length_app, !length_ser_pubkey. Qed.

Definition instruction_in_range (i : WalletInstruction) : Prop :=
  match i with Initialize => True | Deposit a | Withdraw a => is_u64 a end.

Lemma WalletInstruction_roundtrip i l :
  instruction_in_range i ->
  WalletInstruction_deserialize (WalletInstruction_serialize i ++ l) = Ok (i, l).
Proof.
  intros Hi. unfold WalletInstruction_deserialize, WalletInstruction_serialize.
  destruct i as [|a|a]; cbn in Hi; borsh_roundtrip.
Qed.

Lemma withdraw_ok pid accounts amount v u v' :
  withdraw pid accounts amount v = TOk u v' <->
  exists wallet_info vault_info authority_info destination_info rest cell w vcell,
    accounts = wallet_info :: vault_info :: authority_info :: destination_info :: rest /\
    v !! key wallet_info = Some cell /\
    borsh_deserialize Wallet_deserialize (acc_data cell) = Ok w /\
    is_signer authority_info = true /\
    authority w = key authority_info /\ vault w = key vault_info /\
    v !! key vault_info = Some vcell /\ amount <= acc_lamports vcell /\
    move_lamports (key vault_info) (key destination_info) amount v = Some v'.
Proof.
  unfold withdraw. split.
  - intros H. inv_prog. apply sub_add_lamports_ok in H.
    match goal with H : negb _ = true |- _ => apply negb_true_iff, Z.ltb_ge in H end.
    eexists _, _, _, _, _, _, _, _. split_and!; done.
  - intros (wi & vi & ai & di & rest & cell & w & vcell & -> & Hc & Hw & Hs & Ha & Hv & Hvc & Hle & Hm).
    fwd_prog. apply prog_bind_ok. exists tt, v. split.
    + apply lift_ok. split; [|done]. apply ensure_ok. apply negb_true_iff. by apply Z.ltb_ge.
    + cbv beta iota. by apply sub_add_lamports_ok.
Qed.

Lemma deposit_ok cpi pid accounts amount v u v' :
  run cpi (deposit pid accounts amount v) = Ok (u, v') <->
  exists wallet_info vault_info source_info rest cell w,
    accounts = wallet_info :: vault_info :: source_info :: rest /\
    v !! key wallet_info = Some cell /\
    borsh_deserialize Wallet_deserialize (acc_data cell) = Ok w /\
    vault w = key vault_info /\
    cpi (transfer (key source_info) (key vault_info) amount) [vault_info; source_info] [] v
      = Ok v'.
Proof.
  unfold deposit. split.
  - intros H. inv_run. eexists _, _, _, _, _, _. split_and!; done.
  - intros (wi & vi & si & rest & cell & w & -> & Hc & Hw & Hv & Hcpi). destruct u.
    fwd_run. by apply run_invoke_signed_ok.
Qed.

Lemma initialize_ok cpi pid accounts v u v' :
  run cpi (initialize pid accounts v) = Ok (u, v') ->
  exists wallet_info vault_info authority_info rent_info rest vault_address
      wallet_seed vault_seed rcell rent wcell v1 v2 wcell2,
    accounts = wallet_info :: vault_info :: authority_info :: rent_info :: rest /\
    find_program_address [to_bytes (key authority_info)] pid
      = Some (key wallet_info, wallet_seed) /\
    find_program_address [to_bytes (key authority_info); VAULT_SEED] pid
      = Some (vault_address, vault_seed) /\
    key rent_info = rent_sysvar_id /\ v !! key rent_info = Some rcell /\
    bincode_deserialize_rent (acc_data rcell) = Some rent /\
    v !! key wallet_info = Some wcell /\ acc_data wcell = [] /\
    cpi (create_account (key authority_info) (key wallet_info)
           (minimum_balance rent WALLET_LEN) WALLET_LEN pid)
        [authority_info; wallet_info] [[to_bytes (key authority_info); [wallet_seed]]] v = Ok v1 /\
    cpi (create_account (key authority_info) vault_address (minimum_balance rent 0) 0 pid)
        [authority_info; vault_info]
        [[to_bytes (key authority_info); VAULT_SEED; [vault_seed]]] v1 = Ok v2 /\
    v2 !! key wallet_info = Some wcell2 /\ (64 <= length (acc_data wcell2))%nat /\
    v' = <[key wallet_info := set_acc_data wcell2
             (write_prefix (Wallet_serialize (mkWallet (key authority_info) vault_address))
                (acc_data wcell2))]> v2.
Proof.
  unfold initialize. intros H. inv_run.
  match goal with H : borsh_serialize_into _ _ = Ok _ |- _ =>
    apply borsh_serialize_into_ok in H as [? ->] end.
  rewrite length_Wallet_serialize in *.
  eexists _, _, _, _, _, _, _, _, _, _, _, _, _, _. split_and!; try eassumption; try reflexivity.
  by destruct (acc_data x1).
Qed.

(** A successful initialize of level 0, against any system program that meets its
    interface, creates the wallet at its derived address, owned by the program and
    naming the authority and its derived vault, creates the vault with the rent-exempt
    minimum, and keeps the total of lamports. *)
Theorem initialize_creates (cpi : cpi_handler) (pid : Pubkey)
    (wallet_info vault_info authority_info rent_info : AccountInfo) (rest : list AccountInfo)
    (v v' : view)
    (Hsys : SystemCpi cpi)
    (Hrun : run cpi (initialize pid
              (wallet_info :: vault_info :: authority_info :: rent_info :: rest) v)
            = Ok (tt, v')) :
  exists vault_address wcell vcell rcell rent,
    get_wallet_address (key authority_info) pid = Some (key wallet_info) /\
    get_vault_address (key authority_info) pid = Some vault_address /\
    v !! rent_sysvar_id = Some rcell /\ bincode_deserialize_rent (acc_data rcell) = Some rent /\
    v' !! key wallet_info = Some wcell /\ acc_owner wcell = pid /\
    borsh_deserialize Wallet_deserialize (acc_data wcell)
      = Ok (mkWallet (key authority_info) vault_address) /\
    v' !! vault_address = Some vcell /\
    acc_owner vcell = pid /\ acc_lamports vcell = minimum_balance rent 0 /\
    (key authority_info <> key wallet_info ->
       acc_lamports wcell = minimum_balance rent WALLET_LEN) /\
    total_lamports v' = total_lamports v.
Proof.
  apply initialize_ok in Hrun as (wi & vi & ai & ri & rest' & va & ws & vs & rcell & rent &
    wcell & v1 & v2 & wcell2 & [= <- <- <- <- <-] & Hwa & Hva & Hri & Hrc & Hrent & Hwc & Hwd &
    Hc1 & Hc2 & Hw2 & Hlen & ->).
  apply sys_created in Hc1, Hc2; try done; auto with sol.
  destruct (created_new _ _ _ _ _ _ _ Hc1) as (w1 & Hw1 & Hwl & Hwo & Hwd1).
  destruct (created_new _ _ _ _ _ _ _ Hc2) as (vc & Hvc & Hvl & Hvo & Hvd).
  destruct (created_old _ _ _ _ _ _ _ Hc2) as (vc1 & Hvc1 & _ & Hvd1 & _).
  assert (key wallet_info <> va) as Hne.
  { intros <-. rewrite Hw1 in Hvc1. injection Hvc1 as ->. by rewrite Hvd1 in Hwd1. }
  destruct (created_other _ _ _ _ _ _ _ Hc2 _ _ Hne Hw2) as (w1' & Hw1' & _ & Ho & Hl & _).
  rewrite Hw1 in Hw1'. injection Hw1' as <-.
  exists va, (set_acc_data wcell2 (write_prefix
    (Wallet_serialize (mkWallet (key authority_info) va)) (acc_data wcell2))), vc, rcell, rent.
  unfold get_wallet_address, get_vault_address. rewrite Hwa, Hva, <-Hri.
  rewrite lookup_insert_eq, lookup_insert_ne by done. split_and!; try done.
  - cbn. by rewrite Ho.
  - apply borsh_deserialize_written, Wallet_roundtrip.
  - intros Hna. cbn. by rewrite Hl.
  - rewrite total_lamports_set_data by done.
    by rewrite (created_total _ _ _ _ _ _ _ Hc2), (created_total _ _ _ _ _ _ _ Hc1).
Qed.

(** A successful deposit of level 0 moves exactly the amount from the source to the
    vault the wallet names and changes no other account and no data or owner. *)
Theorem deposit_credits_vault (cpi : cpi_handler) (pid : Pubkey)
    (wallet_info vault_info source_info : AccountInfo) (rest : list AccountInfo) (amount : Z)
    (v v' : view)
    (Hsys : SystemCpi cpi) (Hamount : is_u64 amount)
    (Hrun : run cpi (deposit pid (wallet_info :: vault_info :: source_info :: rest) amount v)
            = Ok (tt, v')) :
  (exists cell w, v !! key wallet_info = Some cell /\
     borsh_deserialize Wallet_deserialize (acc_data cell) = Ok w /\ vault w = key vault_info) /\
  total_lamports v' = total_lamports v /\
  forall k a', v' !! k = Some a' -> exists a, v !! k = Some a /\
    acc_data a' = acc_data a /\ acc_owner a' = acc_owner a /\
    (k <> key source_info -> k <> key vault_info -> a' = a) /\
    (key source_info <> key vault_info -> k = key vault_info ->
       acc_lamports a' = acc_lamports a + amount) /\
    (key source_info <> key vault_info -> k = key source_info ->
       acc_lamports a' = acc_lamports a - amount).
Proof.
  apply deposit_ok in Hrun as (wi & vi & si & rest' & cell & w & [= <- <- <- <-] & Hc & Hw & Hv & Ht).
  apply sys_transfer in Ht; [|done..]. split; [eauto|]. split; [by eapply transfer_effect_total|].
  intros k a' Ha'.
  destruct (transfer_effect_lookup _ _ _ _ _ k Ht (proj1 Hamount)) as [Hl _]. eauto.
Qed.

(** Withdraw of the level 0 wallet succeeds exactly when the wallet data names the
    signing authority and the passed vault, the vault holds the amount and the
    destination exists, and then it moves exactly the amount from the vault to the
    destination and changes nothing else. *)
Theorem withdraw_spec (pid : Pubkey)
    (wallet_info vault_info authority_info destination_info : AccountInfo)
    (rest : list AccountInfo) (amount : Z) (v v' : view)
    (Hstore : store_ok v) (Hamount : is_u64 amount) :
  withdraw pid (wallet_info :: vault_info :: authority_info :: destination_info :: rest) amount v
    = TOk tt v' <->
  exists cell w vcell,
    v !! key wallet_info = Some cell /\
    borsh_deserialize Wallet_deserialize (acc_data cell) = Ok w /\
    is_signer authority_info = true /\
    w = mkWallet (key authority_info) (key vault_info) /\
    v !! key vault_info = Some vcell /\ amount <= acc_lamports vcell /\
    is_Some (v !! key destination_info) /\
    v' = moved (key vault_info) (key destination_info) amount v.
Proof.
  rewrite withdraw_ok. split.
  - intros (wi & vi & ai & di & rest' & cell & [wa wv] & vcell & [= <- <- <- <- <-] & Hc & Hw & Hs &
      Ha & Hv & Hvc & Hle & Hm). cbn in Ha, Hv. subst.
    apply (move_lamports_moved _ _ _ _ _ vcell) in Hm as [? ->]; [|done..|destruct Hamount; lia].
    eauto 12.
  - intros (cell & w & vcell & Hc & Hw & Hs & -> & Hvc & Hle & Hd & ->).
    eexists _, _, _, _, _, _, _, _. split_and!; try done.
    apply (move_lamports_moved _ _ _ _ _ vcell); try done. destruct Hamount; lia.
Qed.

Lemma process_encoded pid accounts i v :
  instruction_in_range i ->
  process_instruction pid accounts (WalletInstruction_serialize i) v =
  match i with
  | Initialize => initialize pid accounts v
  | Deposit amount => deposit pid accounts amount v
  | Withdraw amount => withdraw pid accounts amount v
  end.
Proof.
  intros Hi. unfold process_instruction, borsh_deserialize.
  rewrite <-(app_nil_r (WalletInstruction_serialize i)).
  rewrite WalletInstruction_roundtrip by done. by destruct i.
Qed.

(** The withdraw instruction the level 0 client builds, executed by the program on
    an initialized wallet that can pay, moves the amount from the derived vault to the
    destination. *)
Theorem client_withdraw_pays (pid authority_address destination : Pubkey) (amount : Z)
    (ix : Instruction) (v : view)
    (Hstore : store_ok v) (Hamount : is_u64 amount)
    (Hix : client_withdraw pid authority_address destination amount = Some ix) :
  exists wallet_address vault_address,
    get_wallet_address authority_address pid = Some wallet_address /\
    get_vault_address authority_address pid = Some vault_address /\
    forall cell vcell,
      v !! wallet_address = Some cell ->
      borsh_deserialize Wallet_deserialize (acc_data cell)
        = Ok (mkWallet authority_address vault_address) ->
      v !! vault_address = Some vcell -> amount <= acc_lamports vcell ->
      is_Some (v !! destination) ->
      process_instruction pid (account_infos (ix_accounts ix)) (ix_data ix) v
        = TOk tt (moved vault_address destination amount v).
Proof.
  unfold client_withdraw in Hix.
  apply bind_Some in Hix as (wa & Hwa & Hix). apply bind_Some in Hix as (va & Hva & Hix).
  apply (inj Some) in Hix. subst ix.
  exists wa, va. split_and!; [done..|]. intros cell vcell Hc Hw Hvc Hle Hd.
  cbn [ix_data ix_accounts]. rewrite process_encoded by done.
  apply withdraw_ok. eexists _, _, _, _, _, cell, _, vcell. split; [reflexivity|]. cbn.
  split_and!; try done. apply (move_lamports_moved _ _ _ _ _ vcell); try done.
  destruct Hamount; lia.
Qed.

(** C35: Withdraw of level 0 does not check who owns the wallet account: anyone holding
    any account whose data encodes a wallet with their own key and the address of
    another vault empties that vault. *)
Theorem forged_wallet_drains (pid attacker destination : Pubkey)
    (forged_info vault_info : AccountInfo) (forged vcell : Account) (junk : list byte) (v : view)
    (Hstore : store_ok v)
    (Hforged : v !! key forged_info = Some forged)
    (Hdata : acc_data forged = Wallet_serialize (mkWallet attacker (key vault_info)) ++ junk)
    (Hvault : v !! key vault_info = Some vcell)
    (Hdest : is_Some (v !! destination)) (Hne : destination <> key vault_info) :
  exists v' vcell',
    process_instruction pid
      [forged_info; vault_info; mkAccountInfo attacker true false;
       mkAccountInfo destination false true]
      (WalletInstruction_serialize (Withdraw (acc_lamports vcell))) v = TOk tt v' /\
    v' !! key vault_info = Some vcell' /\ acc_lamports vcell' = 0.
Proof.
  pose proof (store_ok_one _ _ _ Hstore Hvault) as Hu.
  exists (moved (key vault_info) destination (acc_lamports vcell) v),
    (set_acc_lamports vcell (acc_lamports vcell - acc_lamports vcell)). split_and!.
  - rewrite process_encoded by done. apply withdraw_ok.
    eexists _, _, _, _, _, forged, (mkWallet attacker (key vault_info)), vcell.
    split; [reflexivity|]. cbn. split_and!; try done.
    + unfold borsh_deserialize. by rewrite Hdata, Wallet_roundtrip.
    + apply (move_lamports_moved _ _ _ _ _ vcell); try done. destruct Hu; lia.
  - by apply moved_source_lookup.
  - cbn. lia.
Qed.

End level0.

(** ** Instances *)
Definition ex_pid : Pubkey := toy_key 7.
Definition ex_auth : Pubkey := toy_key 1001.
Definition ex_wallet : Pubkey := the_key (get_wallet_address ex_auth ex_pid).
Definition ex_vault : Pubkey := the_key (get_vault_address ex_auth ex_pid).

Definition ex_empty : view :=
  list_to_map
    [(ex_auth, toy_account 10000000000 [] system_program_id);
     (ex_wallet, toy_account 0 [] system_program_id);
     (ex_vault, toy_account 0 [] system_program_id);
     (rent_sysvar_id, toy_account 1 [] system_program_id)].

Definition ex_open : view :=
  list_to_map
    [(ex_auth, toy_account 10000000000 [] system_program_id);
     (ex_wallet, toy_account 5000000 (Wallet_serialize (mkWallet ex_auth ex_vault)) ex_pid);
     (ex_vault, toy_account 3000000 [] ex_pid);
     (toy_key 666, toy_account 1000000
        (Wallet_serialize (mkWallet (toy_key 667) ex_vault)) (toy_key 666));
     (toy_key 667, toy_account 0 [] system_program_id)].

Lemma initialize_creates_witness :
  exists v' wcell,
    run ref_system_cpi (initialize ex_pid
      [wr ex_wallet; wr ex_vault; wr_signer ex_auth; rd rent_sysvar_id] ex_empty) = Ok (tt, v') /\
    v' !! ex_wallet = Some wcell /\ acc_owner wcell = ex_pid.
Proof.
  destruct (run_result (run ref_system_cpi (initialize ex_pid
      [wr ex_wallet; wr ex_vault; wr_signer ex_auth; rd rent_sysvar_id] ex_empty))) as [v' E]; [vm_true|].
  destruct (initialize_creates ref_system_cpi ex_pid (wr ex_wallet) (wr ex_vault)
    (wr_signer ex_auth) (rd rent_sysvar_id) [] ex_empty v' _ E)
    as (va & wcell & vcell & rcell & rent & _ & _ & _ & _ & Hw & Ho & _).
  exists v', wcell. exact (conj E (conj Hw Ho)).
Defined.

Lemma deposit_credits_vault_witness :
  exists v',
    run ref_system_cpi (deposit ex_pid [wr ex_wallet; wr ex_vault; wr_signer ex_auth] 500 ex_open)
      = Ok (tt, v') /\ total_lamports v' = total_lamports ex_open.
Proof.
  destruct (run_result (run ref_system_cpi
      (deposit ex_pid [wr ex_wallet; wr ex_vault; wr_signer ex_auth] 500 ex_open))) as [v' E]; [vm_true|].
  destruct (deposit_credits_vault ref_system_cpi ex_pid (wr ex_wallet) (wr ex_vault)
    (wr_signer ex_auth) [] 500 ex_open v' _ ltac:(by apply is_u64b_spec) E) as (_ & Ht & _).
  exists v'. exact (conj E Ht).
Defined.

Lemma withdraw_spec_witness :
  exists v',
    withdraw ex_pid [wr ex_wallet; wr ex_vault; wr_signer ex_auth; wr ex_auth] 500 ex_open
      = TOk tt v' /\ v' = moved ex_vault ex_auth 500 ex_open.
Proof.
  destruct (tree_result (withdraw ex_pid [wr ex_wallet; wr ex_vault; wr_signer ex_auth; wr ex_auth] 500 ex_open)) as [v' E]; [vm_true|].
  pose proof (proj1 (withdraw_spec ex_pid (wr ex_wallet) (wr ex_vault) (wr_signer ex_auth)
    (wr ex_auth) [] 500 ex_open v' ltac:(apply store_okb_ok; vm_compute; reflexivity)
    ltac:(by apply is_u64b_spec)) E)
    as (cell & w & vcell & _ & _ & _ & _ & _ & _ & _ & Hv').
  exists v'. exact (conj E Hv').
Defined.

Lemma client_withdraw_pays_witness :
  exists ix, client_withdraw ex_pid ex_auth (toy_key 667) 500 = Some ix /\
    process_instruction ex_pid (account_infos (ix_accounts ix)) (ix_data ix) ex_open
      = TOk tt (moved ex_vault (toy_key 667) 500 ex_open).
Proof.
  destruct (client_withdraw ex_pid ex_auth (toy_key 667) 500) as [ix|] eqn:E;
    [|vm_compute in E; discriminate]. exists ix. split; [reflexivity|].
  destruct (client_withdraw_pays ex_pid ex_auth (toy_key 667) 500 ix ex_open
    ltac:(apply store_okb_ok; vm_compute; reflexivity) ltac:(by apply is_u64b_spec) E)
    as (wa & va & Hwa & Hva & H).
  assert (wa = ex_wallet) as -> by (unfold ex_wallet; rewrite Hwa; reflexivity).
  assert (va = ex_vault) as -> by (unfold ex_vault; rewrite Hva; reflexivity).
  eapply H.
  - vm_compute. reflexivity.
  - vm_compute. reflexivity.
  - vm_compute. reflexivity.
  - vm_compute. discriminate.
  - exists (toy_account 0 [] system_program_id). vm_compute. reflexivity.
Defined.

Lemma forged_wallet_drains_witness :
  exists v' vcell',
    process_instruction ex_pid
      [rd (toy_key 666); wr ex_vault; mkAccountInfo (toy_key 667) true false;
       mkAccountInfo (toy_key 667) false true]
      (WalletInstruction_serialize (Withdraw 3000000)) ex_open = TOk tt v' /\
    v' !! ex_vault = Some vcell' /\ acc_lamports vcell' = 0.
Proof.
  apply (forged_wallet_drains ex_pid (toy_key 667) (toy_key 667) (rd (toy_key 666)) (wr ex_vault)
    (toy_account 1000000 (Wallet_serialize (mkWallet (toy_key 667) ex_vault)) (toy_key 666))
    (toy_account 3000000 [] ex_pid) []).
  - apply store_okb_ok. vm_compute. reflexivity.
  - vm_compute. reflexivity.
  - vm_compute. reflexivity.
  - vm_compute. reflexivity.
  - exists (toy_account 0 [] system_program_id). vm_compute. reflexivity.
  - vm_compute. discriminate.
Defined.
