(* ===== verification/Level1.v ===== *)
(** * Level 1: a wallet that holds its own lamports

    [contracts/level1/src/lib.rs] and [processor.rs].  The wallet account holds
    the address of its authority and the lamports; [withdraw] checks the owner
    of the wallet account and the address of the authority, but not that the
    authority signed. *)

From Stdlib Require Import Strings.Byte.
From S2P Require Import Prelude Sdk Rent Program Borsh SystemInstruction Fixtures.

(** ** lib.rs *)
Inductive WalletInstruction : Type :=
| Initialize
| Deposit (amount : Z)
| Withdraw (amount : Z).

Record Wallet : Type := mkWallet {
  authority : Pubkey
}.

Definition WALLET_LEN : Z := 32.

Section level1.
Context {B : BorshCrate} {CR : Crypto} {SV : Sysvars} {SB : SystemBincode}.

Definition WalletInstruction_serialize (i : WalletInstruction) : list byte :=
  match i with
  | Initialize => ser_u8 x00
  | Deposit amount => ser_u8 x01 ++ ser_u64 amount
  | Withdraw amount => ser_u8 x02 ++ ser_u64 amount
  end.

Definition WalletInstruction_deserialize : reader WalletInstruction :=
  tag ← de_u8;
  match tag with
  | x00 => mret Initialize
  | x01 => amount ← de_u64; mret (Deposit amount)
  | x02 => amount ← de_u64; mret (Withdraw amount)
  | _ => fun _ => Err (unexpected_variant tag)
  end.

Definition Wallet_serialize (w : Wallet) : list byte := ser_pubkey (authority w).

Definition Wallet_deserialize : reader Wallet := a ← de_pubkey; mret (mkWallet a).

Definition get_wallet_address (authority wallet_program : Pubkey) : option Pubkey :=
  fst <$> find_program_address [to_bytes authority] wallet_program.

Definition client_initialize (wallet_program authority_address : Pubkey) : option Instruction :=
  wallet_address ← get_wallet_address authority_address wallet_program;
  Some (mkInstruction wallet_program
    [AccountMeta_new wallet_address false;
     AccountMeta_new authority_address true;
     AccountMeta_new_readonly rent_sysvar_id false;
     AccountMeta_new_readonly system_program_id false]
    (WalletInstruction_serialize Initialize)).

Definition client_deposit (wallet_program authority_address source : Pubkey) (amount : Z)
    : option Instruction :=
  wallet_address ← get_wallet_address authority_address wallet_program;
  Some (mkInstruction wallet_program
    [AccountMeta_new wallet_address false;
     AccountMeta_new source true;
     AccountMeta_new_readonly system_program_id false]
    (WalletInstruction_serialize (Deposit amount))).

Definition client_withdraw (wallet_program authority_address destination : Pubkey) (amount : Z)
    : option Instruction :=
  wallet_address ← get_wallet_address authority_address wallet_program;
  Some (mkInstruction wallet_program
    [AccountMeta_new wallet_address false;
     AccountMeta_new authority_address true;
     AccountMeta_new destination false;
     AccountMeta_new_readonly system_program_id false]
    (WalletInstruction_serialize (Withdraw amount))).

(** ** processor.rs *)
Definition initialize (program_id : Pubkey) (accounts : list AccountInfo) : ProgM unit :=
  '(wallet_info, iter) ← lift (next_account_info accounts);
  '(authority_info, iter) ← lift (next_account_info iter);
  '(rent_info, iter) ← lift (next_account_info iter);
  '(wallet_address, wallet_seed) ←
    lift (unwrap (find_program_address [to_bytes (key authority_info)] program_id));
  rent ← Rent_from_account_info rent_info;
  lift (assert_ (key_eqb (key wallet_info) wallet_address));;
  empty ← data_is_empty wallet_info;
  lift (assert_ empty);;
  lift (assert_ (is_signer authority_info));;
  invoke_signed
    (create_account (key authority_info) wallet_address
       (minimum_balance rent WALLET_LEN) WALLET_LEN program_id)
    [authority_info; wallet_info]
    [[to_bytes (key authority_info); [wallet_seed]]];;
  let wallet := mkWallet (key authority_info) in
  d ← data wallet_info;
  d' ← lift (borsh_serialize_into (Wallet_serialize wallet) d);
  set_data wallet_info d'.

Definition deposit (program_id : Pubkey) (accounts : list AccountInfo) (amount : Z)
    : ProgM unit :=
  '(wallet_info, iter) ← lift (next_account_info accounts);
  '(source_info, iter) ← lift (next_account_info iter);
  wallet_owner ← owner wallet_info;
  lift (assert_ (key_eqb wallet_owner program_id));;
  invoke (transfer (key source_info) (key wallet_info) amount) [wallet_info; source_info].

Definition withdraw (program_id : Pubkey) (accounts : list AccountInfo) (amount : Z)
    : ProgM unit :=
  '(wallet_info, iter) ← lift (next_account_info accounts);
  '(authority_info, iter) ← lift (next_account_info iter);
  '(destination_info, iter) ← lift (next_account_info iter);
  d ← data wallet_info;
  wallet ← lift (borsh_deserialize Wallet_deserialize d);
  wallet_owner ← owner wallet_info;
  lift (assert_ (key_eqb wallet_owner program_id));;
  lift (assert_ (key_eqb (authority wallet) (key authority_info)));;
  balance ← lamports wallet_info;
  lift (ensure (negb (balance <? amount)) ProgramError.InsufficientFunds);;
  sub_lamports wallet_info amount;;
  add_lamports destination_info amount;;
  d ← data wallet_info;
  d' ← lift (borsh_serialize_into (Wallet_serialize wallet) d);
  set_data wallet_info d'.

Definition process_instruction (program_id : Pubkey) (accounts : list AccountInfo)
    (instruction_data : list byte) : ProgM unit :=
  i ← lift (borsh_deserialize WalletInstruction_deserialize instruction_data);
  match i with
  | Initialize => initialize program_id accounts
  | Deposit amount => deposit program_id accounts amount
  | Withdraw amount => withdraw program_id accounts amount
  end.

(** ** Properties *)
Context {BS : BorshSpec B}.

Lemma l1_Wallet_roundtrip w l :
  Wallet_deserialize (Wallet_serialize w ++ l) = Ok (w, l).
Proof. unfold Wallet_deserialize, Wallet_serialize. borsh_roundtrip. by destruct w. Qed.

(** Writing a decoded wallet back does not change the bytes it was read from. *)
Lemma l1_Wallet_rewrite d w :
  borsh_deserialize Wallet_deserialize d = Ok w ->
  (32 <= length d)%nat /\ write_prefix (Wallet_serialize w) d = d.
Proof.
  unfold borsh_deserialize. destruct (Wallet_deserialize d) as [[w' l]| |] eqn:E; try done.
  intros [= ->]. apply reader_bind_inv in E as (k & l' & Hk & [= <- <-]).
  apply de_pubkey_inv in Hk. unfold Wallet_serialize, write_prefix. cbn [authority].
  rewrite length_ser_pubkey, ser_pubkey_spec, Hk. split.
  - rewrite length_app, length_to_bytes. lia.
  - by rewrite drop_app_length' by (by rewrite length_to_bytes).
Qed.

Definition instruction_in_range (i : WalletInstruction) : Prop :=
  match i with Initialize => True | Deposit a | Withdraw a => is_u64 a end.

Lemma l1_WalletInstruction_roundtrip i l :
  instruction_in_range i ->
  WalletInstruction_deserialize (WalletInstruction_serialize i ++ l) = Ok (i, l).
Proof.
  intros Hi. unfold WalletInstruction_deserialize, WalletInstruction_serialize.
  destruct i as [|a|a]; cbn in Hi; borsh_roundtrip.
Qed.

Lemma l1_process_encoded pid accounts i v :
  instruction_in_range i ->
  process_instruction pid accounts (WalletInstruction_serialize i) v =
  match i with
  | Initialize => initialize pid accounts v
  | Deposit amount => deposit pid accounts amount v
  | Withdraw amount => withdraw pid accounts amount v
  end.
Proof.
  intros Hi. unfold process_instruction, borsh_deserialize.
  rewrite <-(app_nil_r (WalletInstruction_serialize i)).
  rewrite l1_WalletInstruction_roundtrip by done. by destruct i.
Qed.

Lemma l1_withdraw_ok pid accounts amount v u v' :
  withdraw pid accounts amount v = TOk u v' <->
  exists wallet_info authority_info destination_info rest cell w,
    accounts = wallet_info :: authority_info :: destination_info :: rest /\
    v !! key wallet_info = Some cell /\
    borsh_deserialize Wallet_deserialize (acc_data cell) = Ok w /\
    acc_owner cell = pid /\ authority w = key authority_info /\
    amount <= acc_lamports cell /\
    move_lamports (key wallet_info) (key destination_info) amount v = Some v'.
Proof.
  unfold withdraw. split.
  - intros H. inv_prog.
    match goal with H : negb _ = true |- _ => apply negb_true_iff, Z.ltb_ge in H end.
    match goal with H : borsh_deserialize _ _ = Ok ?w, Hc : v !! _ = Some _ |- _ =>
      destruct (l1_Wallet_rewrite _ _ H) end.
    eapply move_then_rewrite in H;
      [|eassumption|unfold Wallet_serialize; by rewrite length_ser_pubkey|done].
    eexists _, _, _, _, _, _. split_and!; done.
  - intros (wi & ai & di & rest & cell & w & -> & Hc & Hw & Ho & Ha & Hle & Hm).
    fwd_prog. apply prog_bind_ok. exists tt, v. split.
    + apply lift_ok. split; [|done]. apply ensure_ok. apply negb_true_iff. by apply Z.ltb_ge.
    + destruct (l1_Wallet_rewrite _ _ Hw). eapply move_then_rewrite; try done.
      unfold Wallet_serialize; by rewrite length_ser_pubkey.
Qed.

Lemma l1_initialize_ok cpi pid accounts v u v' :
  run cpi (initialize pid accounts v) = Ok (u, v') ->
  exists wallet_info authority_info rent_info rest wallet_seed rcell rent v1 wcell1,
    accounts = wallet_info :: authority_info :: rent_info :: rest /\
    find_program_address [to_bytes (key authority_info)] pid
      = Some (key wallet_info, wallet_seed) /\
    key rent_info = rent_sysvar_id /\ v !! key rent_info = Some rcell /\
    bincode_deserialize_rent (acc_data rcell) = Some rent /\
    is_signer authority_info = true /\
    cpi (create_account (key authority_info) (key wallet_info)
           (minimum_balance rent WALLET_LEN) WALLET_LEN pid)
        [authority_info; wallet_info] [[to_bytes (key authority_info); [wallet_seed]]] v = Ok v1 /\
    v1 !! key wallet_info = Some wcell1 /\
    v' = <[key wallet_info := set_acc_data wcell1
             (write_prefix (Wallet_serialize (mkWallet (key authority_info)))
                (acc_data wcell1))]> v1.
Proof.
  unfold initialize. intros H. inv_run.
  match goal with H : borsh_serialize_into _ _ = Ok _ |- _ =>
    apply borsh_serialize_into_ok in H as [? ->] end.
  eexists _, _, _, _, _, _, _, _, _. split_and!; try eassumption; try reflexivity.
Qed.

(** A successful initialize of level 1 needs the signature of the authority and
    creates the wallet at its derived address, owned by the program, with the
    rent-exempt minimum and naming the authority. *)
Theorem l1_initialize_creates (cpi : cpi_handler) (pid : Pubkey)
    (wallet_info authority_info rent_info : AccountInfo) (rest : list AccountInfo) (v v' : view)
    (Hsys : SystemCpi cpi)
    (Hrun : run cpi (initialize pid (wallet_info :: authority_info :: rent_info :: rest) v)
            = Ok (tt, v')) :
  exists wcell rcell rent,
    get_wallet_address (key authority_info) pid = Some (key wallet_info) /\
    is_signer authority_info = true /\
    v !! rent_sysvar_id = Some rcell /\ bincode_deserialize_rent (acc_data rcell) = Some rent /\
    v' !! key wallet_info = Some wcell /\ acc_owner wcell = pid /\
    acc_lamports wcell = minimum_balance rent WALLET_LEN /\
    borsh_deserialize Wallet_deserialize (acc_data wcell) = Ok (mkWallet (key authority_info)) /\
    total_lamports v' = total_lamports v.
Proof.
  apply l1_initialize_ok in Hrun as (wi & ai & ri & rest' & ws & rcell & rent & v1 & wcell1 &
    [= <- <- <- <-] & Hwa & Hri & Hrc & Hrent & Hs & Hc & Hw & ->).
  apply sys_created in Hc; try done; auto with sol.
  destruct (created_new _ _ _ _ _ _ _ Hc) as (w1 & Hw1 & Hl & Ho & _).
  rewrite Hw in Hw1. injection Hw1 as <-. rewrite <-Hri.
  eexists _, rcell, rent. unfold get_wallet_address. rewrite Hwa, lookup_insert_eq.
  split_and!; try done.
  - apply borsh_deserialize_written, l1_Wallet_roundtrip.
  - rewrite total_lamports_set_data by done. by rewrite (created_total _ _ _ _ _ _ _ Hc).
Qed.

(** Withdraw of the level 1 wallet succeeds exactly when the wallet belongs to the
    program and names the passed authority key, holds the amount and the destination
    exists, and then moves exactly the amount; no condition on the signature of the
    authority appears. *)
Theorem l1_withdraw_spec (pid : Pubkey)
    (wallet_info authority_info destination_info : AccountInfo)
    (rest : list AccountInfo) (amount : Z) (v v' : view)
    (Hstore : store_ok v) (Hamount : is_u64 amount) :
  withdraw pid (wallet_info :: authority_info :: destination_info :: rest) amount v = TOk tt v' <->
  exists cell,
    v !! key wallet_info = Some cell /\ acc_owner cell = pid /\
    borsh_deserialize Wallet_deserialize (acc_data cell) = Ok (mkWallet (key authority_info)) /\
    amount <= acc_lamports cell /\ is_Some (v !! key destination_info) /\
    v' = moved (key wallet_info) (key destination_info) amount v.
Proof.
  rewrite l1_withdraw_ok. split.
  - intros (wi & ai & di & rest' & cell & [wa] & [= <- <- <- <-] & Hc & Hw & Ho & Ha & Hle & Hm).
    cbn in Ha. subst.
    apply (move_lamports_moved _ _ _ _ _ cell) in Hm as [? ->]; [|done..|destruct Hamount; lia].
    eauto 10.
  - intros (cell & Hc & Ho & Hw & Hle & Hd & ->).
    eexists _, _, _, _, _, _. split_and!; try done.
    apply (move_lamports_moved _ _ _ _ _ cell); try done. destruct Hamount; lia.
Qed.

(** C36: Withdraw of level 1 does not check the signature of the authority: anyone
    empties any wallet by passing the key of its authority unsigned. *)
Theorem l1_withdraw_unsigned (pid authority_address destination : Pubkey)
    (wallet_info : AccountInfo) (cell : Account) (v : view)
    (Hstore : store_ok v)
    (Hcell : v !! key wallet_info = Some cell) (Howner : acc_owner cell = pid)
    (Hwallet : borsh_deserialize Wallet_deserialize (acc_data cell)
               = Ok (mkWallet authority_address))
    (Hdest : is_Some (v !! destination)) (Hne : destination <> key wallet_info) :
  exists v' cell',
    process_instruction pid
      [wallet_info; mkAccountInfo authority_address false false;
       mkAccountInfo destination false true]
      (WalletInstruction_serialize (Withdraw (acc_lamports cell))) v = TOk tt v' /\
    v' !! key wallet_info = Some cell' /\ acc_lamports cell' = 0.
Proof.
  pose proof (store_ok_one _ _ _ Hstore Hcell) as Hu.
  exists (moved (key wallet_info) destination (acc_lamports cell) v),
    (set_acc_lamports cell (acc_lamports cell - acc_lamports cell)). split_and!.
  - rewrite l1_process_encoded by done. apply l1_withdraw_ok.
    eexists _, _, _, _, _, _. split_and!; try done.
    apply (move_lamports_moved _ _ _ _ _ cell); try done. destruct Hu; lia.
  - apply moved_source_lookup; done.
  - cbn. lia.
Qed.

End level1.

(** ** Instances *)
Definition ex_pid : Pubkey := toy_key 7.
Definition ex_auth : Pubkey := toy_key 1001.
Definition ex_wallet : Pubkey := the_key (get_wallet_address ex_auth ex_pid).

Definition ex_empty : view :=
  list_to_map
    [(ex_auth, toy_account 10000000000 [] system_program_id);
     (ex_wallet, toy_account 0 [] system_program_id);
     (rent_sysvar_id, toy_account 1 [] system_program_id)].

Definition ex_open : view :=
  list_to_map
    [(ex_auth, toy_account 10000000000 [] system_program_id);
     (ex_wallet, toy_account 5000000 (Wallet_serialize (mkWallet ex_auth)) ex_pid);
     (toy_key 667, toy_account 0 [] system_program_id)].

Lemma l1_initialize_creates_witness :
  exists v' wcell,
    run ref_system_cpi (initialize ex_pid
      [wr ex_wallet; wr_signer ex_auth; rd rent_sysvar_id] ex_empty) = Ok (tt, v') /\
    v' !! ex_wallet = Some wcell /\ acc_owner wcell = ex_pid.
Proof.
  destruct (run_result (run ref_system_cpi (initialize ex_pid
      [wr ex_wallet; wr_signer ex_auth; rd rent_sysvar_id] ex_empty))) as [v' E]; [vm_true|].
  destruct (l1_initialize_creates ref_system_cpi ex_pid (wr ex_wallet) (wr_signer ex_auth)
    (rd rent_sysvar_id) [] ex_empty v' _ E)
    as (wcell & rcell & rent & _ & _ & _ & _ & Hw & Ho & _).
  exists v', wcell. exact (conj E (conj Hw Ho)).
Defined.

Lemma l1_withdraw_spec_witness :
  exists v',
    withdraw ex_pid [wr ex_wallet; wr_signer ex_auth; wr (toy_key 667)] 500 ex_open
      = TOk tt v' /\ v' = moved ex_wallet (toy_key 667) 500 ex_open.
Proof.
  destruct (tree_result (withdraw ex_pid [wr ex_wallet; wr_signer ex_auth; wr (toy_key 667)] 500
    ex_open)) as [v' E]; [vm_true|].
  pose proof (proj1 (l1_withdraw_spec ex_pid (wr ex_wallet) (wr_signer ex_auth)
    (wr (toy_key 667)) [] 500 ex_open v' ltac:(apply store_okb_ok; vm_true)
    ltac:(by apply is_u64b_spec)) E) as (cell & _ & _ & _ & _ & _ & Hv').
  exists v'. exact (conj E Hv').
Defined.

Lemma l1_withdraw_unsigned_witness :
  exists v' cell',
    process_instruction ex_pid
      [wr ex_wallet; mkAccountInfo ex_auth false false; mkAccountInfo (toy_key 667) false true]
      (WalletInstruction_serialize (Withdraw 5000000)) ex_open = TOk tt v' /\
    v' !! ex_wallet = Some cell' /\ acc_lamports cell' = 0.
Proof.
  apply (l1_withdraw_unsigned ex_pid ex_auth (toy_key 667) (wr ex_wallet)
    (toy_account 5000000 (Wallet_serialize (mkWallet ex_auth)) ex_pid)).
  - apply store_okb_ok. vm_true.
  - vm_true.
  - reflexivity.
  - vm_true.
  - apply is_Some_eval. vm_true.
  - vm_compute. discriminate.
Defined.
