(* ===== verification/Level2.v ===== *)
(** * Level 2: a wallet that keeps its rent-exempt minimum

    [contracts/level2/src/lib.rs] and [processor.rs].  As level 1, with a
    signature check, and [withdraw] must leave the rent-exempt minimum in the
    wallet; the sum it compares with the balance is a wrapping [u64] sum. *)

From Stdlib Require Import Strings.Byte.
From S2P Require Import Prelude Sdk Rent Program Borsh SystemInstruction Fixtures.

(** ** lib.rs *)
Inductive WalletInstruction : Type :=
| Initialize
| Deposit (amount : Z)
| Withdraw (amount : Z).

Record Wallet : Type := mkWallet {
  authority : Pubkey
}.

Definition WALLET_LEN : Z := 32.

Section level2.
Context {B : BorshCrate} {CR : Crypto} {SV : Sysvars} {SB : SystemBincode}.

Definition WalletInstruction_serialize (i : WalletInstruction) : list byte :=
  match i with
  | Initialize => ser_u8 x00
  | Deposit amount => ser_u8 x01 ++ ser_u64 amount
  | Withdraw amount => ser_u8 x02 ++ ser_u64 amount
  end.

Definition WalletInstruction_deserialize : reader WalletInstruction :=
  tag ← de_u8;
  match tag with
  | x00 => mret Initialize
  | x01 => amount ← de_u64; mret (Deposit amount)
  | x02 => amount ← de_u64; mret (Withdraw amount)
  | _ => fun _ => Err (unexpected_variant tag)
  end.

Definition Wallet_serialize (w : Wallet) : list byte := ser_pubkey (authority w).

Definition Wallet_deserialize : reader Wallet := a ← de_pubkey; mret (mkWallet a).

Definition get_wallet_address (authority wallet_program : Pubkey) : option Pubkey :=
  fst <$> find_program_address [to_bytes authority] wallet_program.

Definition client_initialize (wallet_program authority_address : Pubkey) : option Instruction :=
  wallet_address ← get_wallet_address authority_address wallet_program;
  Some (mkInstruction wallet_program
    [AccountMeta_new wallet_address false;
     AccountMeta_new authority_address true;
     AccountMeta_new_readonly rent_sysvar_id false;
     AccountMeta_new_readonly system_program_id false]
    (WalletInstruction_serialize Initialize)).

Definition client_deposit (wallet_program authority_address source : Pubkey) (amount : Z)
    : option Instruction :=
  wallet_address ← get_wallet_address authority_address wallet_program;
  Some (mkInstruction wallet_program
    [AccountMeta_new wallet_address false;
     AccountMeta_new source true;
     AccountMeta_new_readonly system_program_id false]
    (WalletInstruction_serialize (Deposit amount))).

Definition client_withdraw (wallet_program authority_address destination : Pubkey) (amount : Z)
    : option Instruction :=
  wallet_address ← get_wallet_address authority_address wallet_program;
  Some (mkInstruction wallet_program
    [AccountMeta_new wallet_address false;
     AccountMeta_new authority_address true;
     AccountMeta_new destination false;
     AccountMeta_new_readonly rent_sysvar_id false;
     AccountMeta_new_readonly system_program_id false]
    (WalletInstruction_serialize (Withdraw amount))).

(** ** processor.rs *)
Definition initialize (program_id : Pubkey) (accounts : list AccountInfo) : ProgM unit :=
  '(wallet_info, iter) ← lift (next_account_info accounts);
  '(authority_info, iter) ← lift (next_account_info iter);
  '(rent_info, iter) ← lift (next_account_info iter);
  '(wallet_address, wallet_seed) ←
    lift (unwrap (find_program_address [to_bytes (key authority_info)] program_id));
  rent ← Rent_from_account_info rent_info;
  lift (assert_ (key_eqb (key wallet_info) wallet_address));;
  empty ← data_is_empty wallet_info;
  lift (assert_ empty);;
  lift (assert_ (is_signer authority_info));;
  invoke_signed
    (create_account (key authority_info) wallet_address
       (minimum_balance rent WALLET_LEN) WALLET_LEN program_id)
    [authority_info; wallet_info]
    [[to_bytes (key authority_info); [wallet_seed]]];;
  let wallet := mkWallet (key authority_info) in
  d ← data wallet_info;
  d' ← lift (borsh_serialize_into (Wallet_serialize wallet) d);
  set_data wallet_info d'.

Definition deposit (program_id : Pubkey) (accounts : list AccountInfo) (amount : Z)
    : ProgM unit :=
  '(wallet_info, iter) ← lift (next_account_info accounts);
  '(source_info, iter) ← lift (next_account_info iter);
  wallet_owner ← owner wallet_info;
  lift (assert_ (key_eqb wallet_owner program_id));;
  invoke (transfer (key source_info) (key wallet_info) amount) [wallet_info; source_info].

Definition withdraw (program_id : Pubkey) (accounts : list AccountInfo) (amount : Z)
    : ProgM unit :=
  '(wallet_info, iter) ← lift (next_account_info accounts);
  '(authority_info, iter) ← lift (next_account_info iter);
  '(destination_info, iter) ← lift (next_account_info iter);
  '(rent_info, iter) ← lift (next_account_info iter);
  d ← data wallet_info;
  wallet ← lift (borsh_deserialize Wallet_deserialize d);
  rent ← Rent_from_account_info rent_info;
  wallet_owner ← owner wallet_info;
  lift (assert_ (key_eqb wallet_owner program_id));;
  lift (assert_ (key_eqb (authority wallet) (key authority_info)));;
  lift (assert_ (is_signer authority_info));;
  let min_balance := minimum_balance rent WALLET_LEN in
  balance ← lamports wallet_info;
  lift (ensure (negb (balance <? wrapping_add min_balance amount)) ProgramError.InsufficientFunds);;
  sub_lamports wallet_info amount;;
  add_lamports destination_info amount;;
  d ← data wallet_info;
  d' ← lift (borsh_serialize_into (Wallet_serialize wallet) d);
  set_data wallet_info d'.

Definition process_instruction (program_id : Pubkey) (accounts : list AccountInfo)
    (instruction_data : list byte) : ProgM unit :=
  i ← lift (borsh_deserialize WalletInstruction_deserialize instruction_data);
  match i with
  | Initialize => initialize program_id accounts
  | Deposit amount => deposit program_id accounts amount
  | Withdraw amount => withdraw program_id accounts amount
  end.

(** ** Properties *)
Context {BS : BorshSpec B}.

Lemma l2_Wallet_roundtrip w l :
  Wallet_deserialize (Wallet_serialize w ++ l) = Ok (w, l).
Proof. unfold Wallet_deserialize, Wallet_serialize. borsh_roundtrip. by destruct w. Qed.

(** Writing a decoded wallet back does not change the bytes it was read from. *)
Lemma l2_Wallet_rewrite d w :
  borsh_deserialize Wallet_deserialize d = Ok w ->
  (32 <= length d)%nat /\ write_prefix (Wallet_serialize w) d = d.
Proof.
  unfold borsh_deserialize. destruct (Wallet_deserialize d) as [[w' l]| |] eqn:E; try done.
  intros [= ->]. apply reader_bind_inv in E as (k & l' & Hk & [= <- <-]).
  apply de_pubkey_inv in Hk. unfold Wallet_serialize, write_prefix. cbn [authority].
  rewrite length_ser_pubkey, ser_pubkey_spec, Hk. split.
  - rewrite length_app, length_to_bytes. lia.
  - by rewrite drop_app_length' by (by rewrite length_to_bytes).
Qed.

Definition instruction_in_range (i : WalletInstruction) : Prop :=
  match i with Initialize => True | Deposit a | Withdraw a => is_u64 a end.

Lemma l2_WalletInstruction_roundtrip i l :
  instruction_in_range i ->
  WalletInstruction_deserialize (WalletInstruction_serialize i ++ l) = Ok (i, l).
Proof.
  intros Hi. unfold WalletInstruction_deserialize, WalletInstruction_serialize.
  destruct i as [|a|a]; cbn in Hi; borsh_roundtrip.
Qed.

Lemma l2_process_encoded pid accounts i v :
  instruction_in_range i ->
  process_instruction pid accounts (WalletInstruction_serialize i) v =
  match i with
  | Initialize => initialize pid accounts v
  | Deposit amount => deposit pid accounts amount v
  | Withdraw amount => withdraw pid accounts amount v
  end.
Proof.
  intros Hi. unfold process_instruction, borsh_deserialize.
  rewrite <-(app_nil_r (WalletInstruction_serialize i)).
  rewrite l2_WalletInstruction_roundtrip by done. by destruct i.
Qed.

Lemma l2_withdraw_ok pid accounts amount v u v' :
  withdraw pid accounts amount v = TOk u v' <->
  exists wallet_info authority_info destination_info rent_info rest cell w rcell rent,
    accounts = wallet_info :: authority_info :: destination_info :: rent_info :: rest /\
    v !! key wallet_info = Some cell /\
    borsh_deserialize Wallet_deserialize (acc_data cell) = Ok w /\
    key rent_info = rent_sysvar_id /\ v !! key rent_info = Some rcell /\
    bincode_deserialize_rent (acc_data rcell) = Some rent /\
    acc_owner cell = pid /\ authority w = key authority_info /\ is_signer authority_info = true /\
    wrapping_add (minimum_balance rent WALLET_LEN) amount <= acc_lamports cell /\
    move_lamports (key wallet_info) (key destination_info) amount v = Some v'.
Proof.
  unfold withdraw. split.
  - intros H. inv_prog.
    match goal with H : negb _ = true |- _ => apply negb_true_iff, Z.ltb_ge in H end.
    match goal with H : borsh_deserialize _ _ = Ok ?w |- _ => destruct (l2_Wallet_rewrite _ _ H) end.
    eapply move_then_rewrite in H;
      [|eassumption|unfold Wallet_serialize; by rewrite length_ser_pubkey|done].
    eexists _, _, _, _, _, _, _, _, _. split; [reflexivity|].
    split_and!; try eassumption; reflexivity.
  - intros (wi & ai & di & ri & rest & cell & w & rcell & rent & -> & Hc & Hw & Hri & Hrc & Hrent &
      Ho & Ha & Hs & Hle & Hm).
    fwd_prog. apply prog_bind_ok. exists tt, v. split.
    + apply lift_ok. split; [|done]. apply ensure_ok. apply negb_true_iff. by apply Z.ltb_ge.
    + destruct (l2_Wallet_rewrite _ _ Hw). eapply move_then_rewrite; try done.
      unfold Wallet_serialize; by rewrite length_ser_pubkey.
Qed.

Lemma l2_initialize_ok cpi pid accounts v u v' :
  run cpi (initialize pid accounts v) = Ok (u, v') ->
  exists wallet_info authority_info rent_info rest wallet_seed rcell rent v1 wcell1,
    accounts = wallet_info :: authority_info :: rent_info :: rest /\
    find_program_address [to_bytes (key authority_info)] pid
      = Some (key wallet_info, wallet_seed) /\
    key rent_info = rent_sysvar_id /\ v !! key rent_info = Some rcell /\
    bincode_deserialize_rent (acc_data rcell) = Some rent /\
    is_signer authority_info = true /\
    cpi (create_account (key authority_info) (key wallet_info)
           (minimum_balance rent WALLET_LEN) WALLET_LEN pid)
        [authority_info; wallet_info] [[to_bytes (key authority_info); [wallet_seed]]] v = Ok v1 /\
    v1 !! key wallet_info = Some wcell1 /\
    v' = <[key wallet_info := set_acc_data wcell1
             (write_prefix (Wallet_serialize (mkWallet (key authority_info)))
                (acc_data wcell1))]> v1.
Proof.
  unfold initialize. intros H. inv_run.
  match goal with H : borsh_serialize_into _ _ = Ok _ |- _ =>
    apply borsh_serialize_into_ok in H as [? ->] end.
  eexists _, _, _, _, _, _, _, _, _. split_and!; try eassumption; try reflexivity.
Qed.

(** A successful initialize of level 2 needs the signature of the authority and
    creates the wallet at its derived address, owned by the program, with the
    rent-exempt minimum and naming the authority. *)
Theorem l2_initialize_creates (cpi : cpi_handler) (pid : Pubkey)
    (wallet_info authority_info rent_info : AccountInfo) (rest : list AccountInfo) (v v' : view)
    (Hsys : SystemCpi cpi)
    (Hrun : run cpi (initialize pid (wallet_info :: authority_info :: rent_info :: rest) v)
            = Ok (tt, v')) :
  exists wcell rcell rent,
    get_wallet_address (key authority_info) pid = Some (key wallet_info) /\
    is_signer authority_info = true /\
    v !! rent_sysvar_id = Some rcell /\ bincode_deserialize_rent (acc_data rcell) = Some rent /\
    v' !! key wallet_info = Some wcell /\ acc_owner wcell = pid /\
    acc_lamports wcell = minimum_balance rent WALLET_LEN /\
    borsh_deserialize Wallet_deserialize (acc_data wcell) = Ok (mkWallet (key authority_info)) /\
    total_lamports v' = total_lamports v.
Proof.
  apply l2_initialize_ok in Hrun as (wi & ai & ri & rest' & ws & rcell & rent & v1 & wcell1 &
    [= <- <- <- <-] & Hwa & Hri & Hrc & Hrent & Hs & Hc & Hw & ->).
  apply sys_created in Hc; try done; auto with sol.
  destruct (created_new _ _ _ _ _ _ _ Hc) as (w1 & Hw1 & Hl & Ho & _).
  rewrite Hw in Hw1. injection Hw1 as <-. rewrite <-Hri.
  eexists _, rcell, rent. unfold get_wallet_address. rewrite Hwa, lookup_insert_eq.
  split_and!; try done.
  - apply borsh_deserialize_written, l2_Wallet_roundtrip.
  - rewrite total_lamports_set_data by done. by rewrite (created_total _ _ _ _ _ _ _ Hc).
Qed.

(** While the rent-exempt minimum plus the amount does not overflow 64 bits,
    withdraw of the level 2 wallet succeeds exactly when the wallet belongs to the
    program, its authority signed, the destination exists and the wallet keeps its
    rent-exempt minimum, and then moves exactly the amount. *)
Theorem l2_withdraw_keeps_minimum (pid : Pubkey)
    (wallet_info authority_info destination_info rent_info : AccountInfo)
    (rest : list AccountInfo) (amount : Z) (rcell : Account) (rent : Rent) (v v' : view)
    (Hstore : store_ok v) (Hamount : 0 <= amount)
    (Hrc : v !! rent_sysvar_id = Some rcell)
    (Hrent : bincode_deserialize_rent (acc_data rcell) = Some rent)
    (Hsum : minimum_balance rent WALLET_LEN + amount <= U64_MAX) :
  withdraw pid (wallet_info :: authority_info :: destination_info :: rent_info :: rest) amount v
    = TOk tt v' <->
  exists cell,
    v !! key wallet_info = Some cell /\ acc_owner cell = pid /\
    borsh_deserialize Wallet_deserialize (acc_data cell) = Ok (mkWallet (key authority_info)) /\
    is_signer authority_info = true /\ key rent_info = rent_sysvar_id /\
    minimum_balance rent WALLET_LEN <= acc_lamports cell - amount /\
    is_Some (v !! key destination_info) /\
    v' = moved (key wallet_info) (key destination_info) amount v.
Proof.
  pose proof (minimum_balance_range rent WALLET_LEN) as Hmin. unfold is_u64 in Hmin.
  assert (Hadd : wrapping_add (minimum_balance rent WALLET_LEN) amount
                 = minimum_balance rent WALLET_LEN + amount).
  { apply wrap64_small. unfold is_u64. lia. }
  rewrite l2_withdraw_ok. split.
  - intros (wi & ai & di & ri & rest' & cell & [wa] & rcell' & rent' & [= <- <- <- <- <-] & Hc & Hw &
      Hri & Hrc' & Hrent' & Ho & Ha & Hs & Hle & Hm).
    cbn in Ha. rewrite Hri, Hrc in Hrc'. injection Hrc' as <-.
    rewrite Hrent in Hrent'. injection Hrent' as <-. subst wa. rewrite Hadd in Hle.
    apply (move_lamports_moved _ _ _ _ _ cell) in Hm as [? ->]; [|done..|lia].
    exists cell. split_and!; done || lia.
  - intros (cell & Hc & Ho & Hw & Hs & Hri & Hle & Hd & ->).
    eexists _, _, _, _, _, cell, _, rcell, rent. split; [reflexivity|].
    rewrite Hri, Hadd. split_and!; try done; [lia|].
    apply (move_lamports_moved _ _ _ _ _ cell); try done. lia.
Qed.

(** C37: Withdraw of level 2 adds the rent minimum and the amount with wrap-around: with
    the amount 2^64 - x the owner of a wallet passes the balance check and the transfer
    runs backwards, moving x lamports out of the account passed as destination (another
    wallet, say) into their own. *)
Theorem l2_withdraw_overflow_steals (pid attacker : Pubkey)
    (wallet_info victim_info : AccountInfo) (cell victim rcell : Account) (rent : Rent) (x : Z)
    (v : view)
    (Hstore : store_ok v)
    (Hrc : v !! rent_sysvar_id = Some rcell)
    (Hrent : bincode_deserialize_rent (acc_data rcell) = Some rent)
    (Hcell : v !! key wallet_info = Some cell) (Howner : acc_owner cell = pid)
    (Hwallet : borsh_deserialize Wallet_deserialize (acc_data cell) = Ok (mkWallet attacker))
    (Hmin : minimum_balance rent WALLET_LEN <= acc_lamports cell)
    (Hvictim : v !! key victim_info = Some victim) (Hne : key wallet_info <> key victim_info)
    (Hx : 0 < x <= minimum_balance rent WALLET_LEN) (Hx' : x <= acc_lamports victim) :
  process_instruction pid
    [wallet_info; mkAccountInfo attacker true false; victim_info;
     mkAccountInfo rent_sysvar_id false false]
    (WalletInstruction_serialize (Withdraw (2 ^ 64 - x))) v
  = TOk tt (moved (key victim_info) (key wallet_info) x v).
Proof.
  pose proof (minimum_balance_range rent WALLET_LEN) as Hm. unfold is_u64, U64_MAX in Hm.
  rewrite l2_process_encoded by (cbn; unfold is_u64, U64_MAX; lia). apply l2_withdraw_ok.
  eexists _, _, _, _, _, cell, _, rcell, rent. split; [reflexivity|].
  split_and!; try done.
  - unfold wrapping_add, wrap64.
    replace (minimum_balance rent WALLET_LEN + (2 ^ 64 - x))
      with (minimum_balance rent WALLET_LEN - x + 1 * 2 ^ 64) by lia.
    rewrite Z.mod_add, Z.mod_small by lia. lia.
  - eapply move_lamports_wrapped; try eassumption; cbn; lia.
Qed.

End level2.

(** ** Instances *)
Definition ex_pid : Pubkey := toy_key 7.
Definition ex_auth : Pubkey := toy_key 1001.
Definition ex_wallet : Pubkey := the_key (get_wallet_address ex_auth ex_pid).
Definition ex_victim : Pubkey := toy_key 5005.

Definition ex_empty : view :=
  list_to_map
    [(ex_auth, toy_account 10000000000 [] system_program_id);
     (ex_wallet, toy_account 0 [] system_program_id);
     (rent_sysvar_id, toy_account 1 [] system_program_id)].

Definition ex_open : view :=
  list_to_map
    [(ex_auth, toy_account 10000000000 [] system_program_id);
     (ex_wallet, toy_account 5000000 (Wallet_serialize (mkWallet ex_auth)) ex_pid);
     (ex_victim, toy_account 9000000 (Wallet_serialize (mkWallet (toy_key 5006))) ex_pid);
     (rent_sysvar_id, toy_account 1 [] system_program_id)].
Lemma l2_initialize_creates_witness :
  exists v' wcell,
    run ref_system_cpi (initialize ex_pid
      [wr ex_wallet; wr_signer ex_auth; rd rent_sysvar_id] ex_empty) = Ok (tt, v') /\
    v' !! ex_wallet = Some wcell /\ acc_owner wcell = ex_pid.
Proof.
  destruct (run_result (run ref_system_cpi (initialize ex_pid
      [wr ex_wallet; wr_signer ex_auth; rd rent_sysvar_id] ex_empty))) as [v' E]; [vm_true|].
  destruct (l2_initialize_creates ref_system_cpi ex_pid (wr ex_wallet) (wr_signer ex_auth)
    (rd rent_sysvar_id) [] ex_empty v' _ E)
    as (wcell & rcell & rent & _ & _ & _ & _ & Hw & Ho & _).
  exists v', wcell. exact (conj E (conj Hw Ho)).
Defined.

Lemma l2_withdraw_keeps_minimum_witness :
  exists v',
    withdraw ex_pid [wr ex_wallet; wr_signer ex_auth; wr ex_auth; rd rent_sysvar_id] 500 ex_open
      = TOk tt v' /\ v' = moved ex_wallet ex_auth 500 ex_open.
Proof.
  destruct (tree_result (withdraw ex_pid
    [wr ex_wallet; wr_signer ex_auth; wr ex_auth; rd rent_sysvar_id] 500 ex_open))
    as [v' E]; [vm_true|].
  pose proof (proj1 (l2_withdraw_keeps_minimum ex_pid (wr ex_wallet) (wr_signer ex_auth)
    (wr ex_auth) (rd rent_sysvar_id) [] 500 (toy_account 1 [] system_program_id) Rent_default
    ex_open v' ltac:(apply store_okb_ok; vm_true) ltac:(lia) ltac:(vm_true) ltac:(reflexivity)
    ltac:(vm_compute; discriminate)) E) as (cell & _ & _ & _ & _ & _ & _ & _ & Hv').
  exists v'. exact (conj E Hv').
Defined.

Lemma l2_withdraw_overflow_steals_witness :
  process_instruction ex_pid
    [wr ex_wallet; mkAccountInfo ex_auth true false; wr ex_victim;
     mkAccountInfo rent_sysvar_id false false]
    (WalletInstruction_serialize (Withdraw (2 ^ 64 - 1000000))) ex_open
  = TOk tt (moved ex_victim ex_wallet 1000000 ex_open).
Proof.
  apply (l2_withdraw_overflow_steals ex_pid ex_auth (wr ex_wallet) (wr ex_victim)
    (toy_account 5000000 (Wallet_serialize (mkWallet ex_auth)) ex_pid)
    (toy_account 9000000 (Wallet_serialize (mkWallet (toy_key 5006))) ex_pid)
    (toy_account 1 [] system_program_id) Rent_default 1000000).
  - apply store_okb_ok. vm_true.
  - vm_true.
  - reflexivity.
  - vm_true.
  - reflexivity.
  - vm_true.
  - vm_compute. discriminate.
  - vm_true.
  - vm_compute. discriminate.
  - split; vm_compute; [reflexivity|discriminate].
  - vm_compute. discriminate.
Defined.
