(* ===== verification/Level3.v ===== *)
(** * Level 3: the tip pool

    [contracts/level3/src/lib.rs] and [processor.rs].  A vault holds the lamports
    of many pools; each pool account records its withdraw authority, its value
    and its vault.  Vault accounts and pool accounts belong to the same program
    and carry no type tag. *)

From Stdlib Require Import Strings.Byte.
From S2P Require Import Prelude Sdk Rent Program Borsh SystemInstruction Fixtures.

(** ** lib.rs

    An [f64] is kept as its 64 bits. *)
Inductive TipInstruction : Type :=
| Initialize (seed : byte) (fee : Z) (fee_recipient : Pubkey)
| CreatePool
| Tip (amount : Z)
| Withdraw (amount : Z).

Record TipPool : Type := mkTipPool {
  withdraw_authority : Pubkey;
  value : Z;
  pool_vault : Pubkey
}.

Definition TIP_POOL_LEN : Z := 32 + 8 + 32.

Record Vault : Type := mkVault {
  creator : Pubkey;
  fee : Z;
  fee_recipient : Pubkey;
  vault_seed : byte
}.

Definition VAULT_LEN : Z := 32 + 8 + 32 + 1.

Section level3.
Context {B : BorshCrate} {CR : Crypto} {SV : Sysvars} {SB : SystemBincode}.

Definition TipInstruction_serialize (i : TipInstruction) : list byte :=
  match i with
  | Initialize seed fee fee_recipient =>
      ser_u8 x00 ++ ser_u8 seed ++ ser_f64 fee ++ ser_pubkey fee_recipient
  | CreatePool => ser_u8 x01
  | Tip amount => ser_u8 x02 ++ ser_u64 amount
  | Withdraw amount => ser_u8 x03 ++ ser_u64 amount
  end.

Definition TipInstruction_deserialize : reader TipInstruction :=
  tag ← de_u8;
  match tag with
  | x00 => seed ← de_u8; fee ← de_f64; fee_recipient ← de_pubkey;
           mret (Initialize seed fee fee_recipient)
  | x01 => mret CreatePool
  | x02 => amount ← de_u64; mret (Tip amount)
  | x03 => amount ← de_u64; mret (Withdraw amount)
  | _ => fun _ => Err (unexpected_variant tag)
  end.

Definition TipPool_serialize (p : TipPool) : list byte :=
  ser_pubkey (withdraw_authority p) ++ ser_u64 (value p) ++ ser_pubkey (pool_vault p).

Definition TipPool_deserialize : reader TipPool :=
  a ← de_pubkey; x ← de_u64; va ← de_pubkey; mret (mkTipPool a x va).

Definition Vault_serialize (va : Vault) : list byte :=
  ser_pubkey (creator va) ++ ser_f64 (fee va) ++ ser_pubkey (fee_recipient va)
  ++ ser_u8 (vault_seed va).

Definition Vault_deserialize : reader Vault :=
  c ← de_pubkey; f ← de_f64; r ← de_pubkey; s ← de_u8; mret (mkVault c f r s).

(** The client functions of lib.rs. *)
Definition client_initialize (tip_program vault_address initializer_address : Pubkey)
    (seed : byte) (fee : Z) (fee_recipient : Pubkey) : Instruction :=
  mkInstruction tip_program
    [AccountMeta_new vault_address false;
     AccountMeta_new initializer_address true;
     AccountMeta_new_readonly rent_sysvar_id false;
     AccountMeta_new_readonly system_program_id false]
    (TipInstruction_serialize (Initialize seed fee fee_recipient)).

Definition client_create_pool (tip_program vault_address withdraw_authority pool_address : Pubkey)
    : Instruction :=
  mkInstruction tip_program
    [AccountMeta_new vault_address false;
     AccountMeta_new_readonly withdraw_authority true;
     AccountMeta_new pool_address false]
    (TipInstruction_serialize CreatePool).

Definition client_tip (tip_program vault_address pool_address source : Pubkey) (amount : Z)
    : Instruction :=
  mkInstruction tip_program
    [AccountMeta_new vault_address false;
     AccountMeta_new pool_address false;
     AccountMeta_new source true;
     AccountMeta_new_readonly system_program_id false]
    (TipInstruction_serialize (Tip amount)).

Definition client_withdraw (tip_program vault_address pool_address withdraw_authority : Pubkey)
    (amount : Z) : Instruction :=
  mkInstruction tip_program
    [AccountMeta_new vault_address false;
     AccountMeta_new pool_address false;
     AccountMeta_new withdraw_authority true;
     AccountMeta_new_readonly system_program_id false]
    (TipInstruction_serialize (Withdraw amount)).

(** ** processor.rs *)
Definition initialize (program_id : Pubkey) (accounts : list AccountInfo) (seed : byte)
    (fee : Z) (fee_recipient : Pubkey) : ProgM unit :=
  '(vault_info, iter) ← lift (next_account_info accounts);
  '(initializer_info, iter) ← lift (next_account_info iter);
  '(rent_info, iter) ← lift (next_account_info iter);
  rent ← Rent_from_account_info rent_info;
  vault_address ←
    lift (match create_program_address [[seed]] program_id with Ok a => Ok a | _ => Panic end);
  lift (assert_ (key_eqb (key vault_info) vault_address));;
  empty ← data_is_empty vault_info;
  lift (assert_ empty);;
  lift (assert_ (is_signer initializer_info));;
  invoke_signed
    (create_account (key initializer_info) vault_address
       (minimum_balance rent VAULT_LEN) VAULT_LEN program_id)
    [initializer_info; vault_info]
    [[[seed]]];;
  let vault := mkVault (key initializer_info) fee fee_recipient seed in
  d ← data vault_info;
  d' ← lift (borsh_serialize_into (Vault_serialize vault) d);
  set_data vault_info d'.

Definition create_pool (program_id : Pubkey) (accounts : list AccountInfo) : ProgM unit :=
  '(vault_info, iter) ← lift (next_account_info accounts);
  '(withdraw_authority_info, iter) ← lift (next_account_info iter);
  '(pool_info, iter) ← lift (next_account_info iter);
  vault_owner ← owner vault_info;
  lift (assert_ (key_eqb vault_owner program_id));;
  lift (assert_ (is_signer withdraw_authority_info));;
  pool_owner ← owner pool_info;
  lift (assert_ (key_eqb pool_owner program_id));;
  d ← data pool_info;
  lift (ensure (all_zero d) ProgramError.AccountAlreadyInitialized);;
  let pool := mkTipPool (key withdraw_authority_info) 0 (key vault_info) in
  d ← data pool_info;
  d' ← lift (borsh_serialize_into (TipPool_serialize pool) d);
  set_data pool_info d'.

Definition tip (program_id : Pubkey) (accounts : list AccountInfo) (amount : Z) : ProgM unit :=
  '(vault_info, iter) ← lift (next_account_info accounts);
  '(pool_info, iter) ← lift (next_account_info iter);
  '(source_info, iter) ← lift (next_account_info iter);
  d ← data pool_info;
  pool ← lift (borsh_deserialize TipPool_deserialize d);
  vault_owner ← owner vault_info;
  lift (assert_ (key_eqb vault_owner program_id));;
  pool_owner ← owner pool_info;
  lift (assert_ (key_eqb pool_owner program_id));;
  lift (assert_ (key_eqb (pool_vault pool) (key vault_info)));;
  invoke (transfer (key source_info) (key vault_info) amount) [vault_info; source_info];;
  x ← lift (ok_or (checked_add (value pool) amount) ProgramError.InvalidArgument);
  let pool := mkTipPool (withdraw_authority pool) x (pool_vault pool) in
  d ← data pool_info;
  d' ← lift (borsh_serialize_into (TipPool_serialize pool) d);
  set_data pool_info d'.

Definition withdraw (program_id : Pubkey) (accounts : list AccountInfo) (amount : Z)
    : ProgM unit :=
  '(vault_info, iter) ← lift (next_account_info accounts);
  '(pool_info, iter) ← lift (next_account_info iter);
  '(withdraw_authority_info, iter) ← lift (next_account_info iter);
  d ← data pool_info;
  pool ← lift (borsh_deserialize TipPool_deserialize d);
  vault_owner ← owner vault_info;
  lift (assert_ (key_eqb vault_owner program_id));;
  pool_owner ← owner pool_info;
  lift (assert_ (key_eqb pool_owner program_id));;
  lift (assert_ (is_signer withdraw_authority_info));;
  lift (assert_ (key_eqb (pool_vault pool) (key vault_info)));;
  lift (assert_ (key_eqb (key withdraw_authority_info) (withdraw_authority pool)));;
  x ← lift (ok_or (checked_sub (value pool) amount) ProgramError.InvalidArgument);
  let pool := mkTipPool (withdraw_authority pool) x (pool_vault pool) in
  sub_lamports vault_info amount;;
  add_lamports withdraw_authority_info amount;;
  d ← data pool_info;
  d' ← lift (borsh_serialize_into (TipPool_serialize pool) d);
  set_data pool_info d'.

Definition process_instruction (program_id : Pubkey) (accounts : list AccountInfo)
    (instruction_data : list byte) : ProgM unit :=
  i ← lift (borsh_deserialize TipInstruction_deserialize instruction_data);
  match i with
  | Initialize seed fee fee_recipient => initialize program_id accounts seed fee fee_recipient
  | Tip amount => tip program_id accounts amount
  | Withdraw amount => withdraw program_id accounts amount
  | CreatePool => create_pool program_id accounts
  end.

(** ** Properties *)
Context {BS : BorshSpec B}.

Lemma TipPool_roundtrip p l :
  is_u64 (value p) -> TipPool_deserialize (TipPool_serialize p ++ l) = Ok (p, l).
Proof.
  intros. unfold TipPool_deserialize, TipPool_serialize. borsh_roundtrip. by destruct p.
Qed.

Lemma length_TipPool_serialize p : length (TipPool_serialize p) = 72%nat.
Proof. unfold TipPool_serialize. by rewrite !length_app, !length_ser_pubkey, length_ser_u64. Qed.

(** What reads as a pool is exactly the 72 bytes of its encoding, then anything. *)
Lemma TipPool_deserialize_inv d p :
  borsh_deserialize TipPool_deserialize d = Ok p <->
  is_u64 (value p) /\ exists l, d = TipPool_serialize p ++ l.
Proof.
  unfold borsh_deserialize. split.
  - destruct (TipPool_deserialize d) as [[p' l]| |] eqn:E; try done. intros [= ->].
    apply reader_bind_inv in E as (a & l1 & Ha & E). apply reader_bind_inv in E as (x & l2 & Hx & E).
    apply reader_bind_inv in E as (va & l3 & Hva & E). injection E as <- <-.
    apply de_pubkey_inv in Ha, Hva. apply de_u64_inv in Hx as [Hr Hx]. subst.
    split; [done|]. exists l3. unfold TipPool_serialize. cbn.
    by rewrite !ser_pubkey_spec, ser_u64_spec, <-!app_assoc.
  - intros [Hv [l ->]]. by rewrite TipPool_roundtrip.
Qed.

Lemma write_TipPool p p' l :
  write_prefix (TipPool_serialize p') (TipPool_serialize p ++ l) = TipPool_serialize p' ++ l.
Proof.
  unfold write_prefix. by rewrite drop_app_length' by (by rewrite !length_TipPool_serialize).
Qed.

Lemma create_pool_no_cpi pid accounts : no_cpi (create_pool pid accounts).
Proof. unfold create_pool. solve_no_cpi. Qed.

Lemma withdraw_no_cpi pid accounts amount : no_cpi (withdraw pid accounts amount).
Proof. unfold withdraw. solve_no_cpi. Qed.

(** *** Straight-line behaviour of the handlers *)
Lemma create_pool_ok pid accounts v u v' :
  create_pool pid accounts v = TOk u v' <->
  exists vault_info authority_info pool_info rest vcell cell,
    accounts = vault_info :: authority_info :: pool_info :: rest /\
    v !! key vault_info = Some vcell /\ acc_owner vcell = pid /\
    is_signer authority_info = true /\
    v !! key pool_info = Some cell /\ acc_owner cell = pid /\
    all_zero (acc_data cell) = true /\ (72 <= length (acc_data cell))%nat /\
    v' = <[key pool_info := set_acc_data cell (write_prefix
             (TipPool_serialize (mkTipPool (key authority_info) 0 (key vault_info)))
             (acc_data cell))]> v.
Proof.
  unfold create_pool. split.
  - intros H. inv_prog.
    match goal with H : borsh_serialize_into _ _ = Ok _ |- _ =>
      apply borsh_serialize_into_ok in H as [? ->] end.
    rewrite length_TipPool_serialize in *.
    eexists _, _, _, _, _, _. split; [reflexivity|]. split_and!; try eassumption; done.
  - intros (vi & ai & pi & rest & vcell & cell & -> & Hv & Hvo & Hs & Hp & Hpo & Hz & Hl & ->).
    fwd_prog. apply prog_bind_ok. eexists _, v. split.
    + apply lift_ok. split; [|done]. apply borsh_serialize_into_ok.
      by rewrite length_TipPool_serialize.
    + destruct u. apply (proj2 (update_cell_ok _ _ _ tt _)). eauto.
Qed.

Lemma tip_ok cpi pid accounts amount v u v' :
  run cpi (tip pid accounts amount v) = Ok (u, v') ->
  exists vault_info pool_info source_info rest cell vcell pool v1 cell1,
    accounts = vault_info :: pool_info :: source_info :: rest /\
    v !! key pool_info = Some cell /\
    borsh_deserialize TipPool_deserialize (acc_data cell) = Ok pool /\
    v !! key vault_info = Some vcell /\ acc_owner vcell = pid /\ acc_owner cell = pid /\
    pool_vault pool = key vault_info /\
    cpi (transfer (key source_info) (key vault_info) amount) [vault_info; source_info] [] v
      = Ok v1 /\
    value pool + amount <= U64_MAX /\
    v1 !! key pool_info = Some cell1 /\
    v' = <[key pool_info := set_acc_data cell1 (write_prefix
             (TipPool_serialize (mkTipPool (withdraw_authority pool) (value pool + amount)
                (pool_vault pool))) (acc_data cell1))]> v1.
Proof.
  unfold tip. intros H. inv_run.
  match goal with H : borsh_serialize_into _ _ = Ok _ |- _ =>
    apply borsh_serialize_into_ok in H as [? ->] end. subst.
  eexists _, _, _, _, _, _, _, _, _. split; [reflexivity|].
  split_and!; try eassumption; done.
Qed.

Lemma withdraw_pool_ok pid accounts amount v u v' :
  withdraw pid accounts amount v = TOk u v' <->
  exists vault_info pool_info authority_info rest cell vcell pool v1 cell1,
    accounts = vault_info :: pool_info :: authority_info :: rest /\
    v !! key pool_info = Some cell /\
    borsh_deserialize TipPool_deserialize (acc_data cell) = Ok pool /\
    v !! key vault_info = Some vcell /\ acc_owner vcell = pid /\ acc_owner cell = pid /\
    is_signer authority_info = true /\
    pool_vault pool = key vault_info /\ key authority_info = withdraw_authority pool /\
    amount <= value pool /\
    move_lamports (key vault_info) (key authority_info) amount v = Some v1 /\
    v1 !! key pool_info = Some cell1 /\
    v' = <[key pool_info := set_acc_data cell1 (write_prefix
             (TipPool_serialize (mkTipPool (withdraw_authority pool) (value pool - amount)
                (pool_vault pool))) (acc_data cell1))]> v1.
Proof.
  unfold withdraw. split.
  - intros H. inv_prog. apply prog_bind_ok in H as ([] & v1 & H1' & H).
    apply prog_bind_ok in H as ([] & v2 & H2' & H).
    assert (move_lamports (key a) (key a1) amount v = Some v2) as Hm.
    { apply (sub_add_lamports_ok _ _ _ _ tt), prog_bind_ok. eauto. }
    inv_prog. match goal with H : borsh_serialize_into _ _ = Ok _ |- _ =>
      apply borsh_serialize_into_ok in H as [? ->] end.
    eexists _, _, _, _, _, _, _, _, _. split; [reflexivity|].
    split_and!; try eassumption; done.
  - intros (vi & pi & ai & rest & cell & vcell & pool & v1 & cell1 & -> & Hp & Hpool & Hv & Hvo & Hpo &
      Hs & Hpv & Ha & Hle & Hm & Hc1 & ->).
    fwd_prog. apply prog_bind_ok. exists (value pool - amount), v. split.
    { apply lift_ok. split; [|done]. apply ok_or_ok, checked_sub_some. lia. }
    cbv beta iota zeta. pose proof Hm as Hm'.
    apply (sub_add_lamports_ok vi ai amount v tt) in Hm'.
    apply prog_bind_ok in Hm' as ([] & w & H1 & H2).
    apply prog_bind_ok. eexists _, _. split; [exact H1|].
    apply prog_bind_ok. eexists _, _. split; [exact H2|]. fwd_prog.
    destruct (proj2 (move_lamports_frame _ _ _ _ _ _ Hm) _ Hc1) as (cell' & Hcell' & Hc1').
    assert (acc_data cell1 = acc_data cell) as Hd by (rewrite Hc1'; cbn; congruence).
    apply prog_bind_ok. eexists _, v1. split.
    + apply lift_ok. split; [|done]. apply borsh_serialize_into_ok. split; [|reflexivity].
      apply TipPool_deserialize_inv in Hpool as [_ [l Hl]].
      rewrite Hd, Hl, length_app, !length_TipPool_serialize. lia.
    + destruct u. apply (proj2 (update_cell_ok _ _ _ tt _)). eauto.
Qed.

(** *** Solvency

    What the program-owned accounts that read as pools of a vault may withdraw
    from it. *)
Definition pool_claim (pid vault : Pubkey) (a : Account) : Z :=
  if key_eqb (acc_owner a) pid then
    match borsh_deserialize TipPool_deserialize (acc_data a) with
    | Ok p => if key_eqb (pool_vault p) vault then value p else 0
    | _ => 0
    end
  else 0.

(** Every vault that holds data covers the values of its pools. *)
Definition solvent (pid : Pubkey) (v : view) : Prop :=
  forall k a, v !! k = Some a -> acc_owner a = pid -> acc_data a <> [] ->
    store_sum (pool_claim pid k) v <= acc_lamports a.

Lemma pool_claim_lamports pid k a l :
  pool_claim pid k (set_acc_lamports a l) = pool_claim pid k a.
Proof. done. Qed.

Lemma pool_claim_nonneg pid k a : 0 <= pool_claim pid k a.
Proof.
  unfold pool_claim. destruct (key_eqb _ _); [|done].
  destruct (borsh_deserialize _ _) as [p| |] eqn:E; try done.
  apply TipPool_deserialize_inv in E as [Hv _]. destruct (key_eqb _ _); [apply Hv|done].
Qed.

(** The claim of a pool account is the value it records. *)
Lemma pool_claim_pool pid k a p :
  acc_owner a = pid -> borsh_deserialize TipPool_deserialize (acc_data a) = Ok p ->
  pool_claim pid k a = if key_eqb (pool_vault p) k then value p else 0.
Proof.
  intros Ho Hp. unfold pool_claim. rewrite Ho, Hp. by rewrite (proj2 (key_eqb_eq _ _)).
Qed.

(** Writing a pool over a pool. *)
Lemma pool_claim_write pid k a p p' :
  acc_owner a = pid -> borsh_deserialize TipPool_deserialize (acc_data a) = Ok p ->
  is_u64 (value p') ->
  pool_claim pid k (set_acc_data a (write_prefix (TipPool_serialize p') (acc_data a)))
  = if key_eqb (pool_vault p') k then value p' else 0.
Proof.
  intros Ho Hp Hv. apply TipPool_deserialize_inv in Hp as [_ [l Hl]].
  apply pool_claim_pool; [done|]. cbn. rewrite Hl, write_TipPool. apply TipPool_deserialize_inv. eauto.
Qed.

Lemma write_TipPool_nonempty p d : write_prefix (TipPool_serialize p) d <> [].
Proof.
  intros H. apply (f_equal length) in H. unfold write_prefix in H.
  rewrite length_app, length_TipPool_serialize in H. cbn in H. lia.
Qed.

Lemma create_pool_solvent pid accounts v u v' :
  create_pool pid accounts v = TOk u v' -> solvent pid v -> solvent pid v'.
Proof.
  intros H Hsol. apply create_pool_ok in H
    as (vi & ai & pi & rest & vcell & cell & -> & Hv & Hvo & Hs & Hp & Hpo & Hz & Hl & ->).
  intros k a Hk Ho Hd. rewrite (store_sum_insert _ _ _ cell) by done.
  pose proof (pool_claim_nonneg pid k cell).
  assert (pool_claim pid k (set_acc_data cell (write_prefix (TipPool_serialize
    (mkTipPool (key ai) 0 (key vi))) (acc_data cell))) = 0) as ->.
  { rewrite (pool_claim_pool _ _ _ (mkTipPool (key ai) 0 (key vi))); [|done|].
    2: { cbn. unfold write_prefix. apply TipPool_deserialize_inv.
       split; [by apply is_u64b_spec|eauto]. }
    cbn. by destruct (key_eqb _ _). }
  rewrite lookup_insert in Hk. case_decide as Hkp.
  - injection Hk as <-. cbn. rewrite <-Hkp in *. enough (store_sum (pool_claim pid (key pi)) v
      <= acc_lamports cell) by lia. apply Hsol; try done. intros E. rewrite E in Hl. cbn in Hl. lia.
  - specialize (Hsol _ _ Hk Ho Hd). lia.
Qed.

Lemma tip_solvent cpi pid accounts amount v u v' :
  SystemCpi cpi -> is_u64 amount ->
  run cpi (tip pid accounts amount v) = Ok (u, v') ->
  solvent pid v -> solvent pid v'.
Proof.
  intros Hsys Ham H Hsol. apply tip_ok in H
    as (vi & pi & si & rest & cell & vcell & pool & v1 & cell1 & -> & Hp & Hpool & Hv & Hvo & Hpo & Hpv &
        Ht & Hmax & Hc1 & ->).
  apply sys_transfer in Ht; [|done..].
  pose proof (fun k => proj1 (transfer_effect_lookup _ _ _ _ _ k Ht (proj1 Ham))) as Hlk.
  destruct (Hlk _ _ Hc1) as (cell' & Hcell' & Hd1 & Ho1 & _).
  assert (cell' = cell) as -> by congruence. rewrite <-Hd1 in Hpool.
  pose proof (proj1 (TipPool_deserialize_inv _ _) Hpool) as [Hval [tl Htl]].
  intros k a Hk Ho Hd. rewrite (store_sum_insert _ _ _ cell1) by done.
  rewrite (transfer_effect_sum _ _ _ _ _ _ (pool_claim_lamports pid k) Ht).
  rewrite (pool_claim_pool _ _ _ pool), (pool_claim_write _ _ _ pool); try done; try congruence.
  2: { cbn. unfold is_u64 in *. lia. }
  cbn [pool_vault value]. rewrite Hpv.
  assert (exists b, v1 !! k = Some b /\ acc_lamports a = acc_lamports b /\ acc_owner b = pid /\
    acc_data b <> []) as (b & Hb & Hlb & Hob & Hdb).
  { rewrite lookup_insert in Hk. case_decide; [|eauto]. injection Hk as <-. exists cell1. subst.
    split_and!; try done. rewrite Htl. intros E. apply (f_equal length) in E.
    rewrite length_app, length_TipPool_serialize in E. done. }
  destruct (Hlk _ _ Hb) as (b0 & Hb0 & Hdb0 & Hob0 & Hsame & Hto & Hfrom).
  assert (store_sum (pool_claim pid k) v <= acc_lamports b0) as Hle
    by (apply Hsol; [done|congruence..]).
  rewrite Hlb. destruct (decide (amount = 0)) as [->|Hnz].
  { replace (acc_lamports b) with (acc_lamports b0); [destruct (key_eqb _ _); lia|].
    unfold transfer_effect in Ht. injection Ht as <-. congruence. }
  assert (k <> key si) as Hksi.
  { intros ->. destruct (transfer_effect_from_empty _ _ _ _ _ _ Ht Hnz Hb0). congruence. }
  destruct (key_eqb (key vi) k) eqn:Ek.
  - apply key_eqb_eq in Ek. rewrite Hto by congruence. lia.
  - apply key_eqb_neq in Ek. rewrite Hsame by congruence. lia.
Qed.

(** The vault a handler is given (its first account) holds data. *)
Definition vault_has_data (accounts : list AccountInfo) (v : view) : Prop :=
  match accounts with
  | vi :: _ => forall a, v !! key vi = Some a -> acc_data a <> []
  | [] => True
  end.

(** A withdrawal from a solvent vault does not underflow. *)
Lemma withdraw_covered pid vault pool_key cell vcell pool amount v :
  solvent pid v -> v !! pool_key = Some cell -> acc_owner cell = pid ->
  borsh_deserialize TipPool_deserialize (acc_data cell) = Ok pool ->
  pool_vault pool = vault -> v !! vault = Some vcell -> acc_owner vcell = pid ->
  acc_data vcell <> [] -> amount <= value pool -> amount <= acc_lamports vcell.
Proof.
  intros Hsol Hp Ho Hpool Hpv Hv Hvo Hvd Hle.
  specialize (Hsol _ _ Hv Hvo Hvd).
  pose proof (store_sum_elem (pool_claim pid vault) v _ _ (fun _ a _ => pool_claim_nonneg _ _ a) Hp).
  rewrite (pool_claim_pool _ _ _ pool) in H by done.
  rewrite (proj2 (key_eqb_eq _ _) Hpv) in H. lia.
Qed.

Lemma withdraw_solvent pid accounts amount v u v' :
  0 <= amount -> store_ok v -> vault_has_data accounts v ->
  withdraw pid accounts amount v = TOk u v' -> solvent pid v -> solvent pid v'.
Proof.
  intros Ham Hst Hvd H Hsol. apply withdraw_pool_ok in H
    as (vi & pi & ai & rest & cell & vcell & pool & v1 & cell1 & -> & Hp & Hpool & Hv & Hvo & Hpo &
      Hs & Hpv & Ha & Hle & Hm & Hc1 & ->).
  specialize (Hvd _ Hv).
  assert (amount <= acc_lamports vcell) as Hcov
    by (by eapply (withdraw_covered pid (key vi) (key pi))).
  apply (move_lamports_moved _ _ _ _ _ vcell) in Hm as [Hai ->]; [|done..|lia].
  destruct (moved_lookup _ _ _ _ _ _ Hc1) as (cell' & Hcell' & Hc1' & _).
  assert (cell' = cell) as -> by congruence.
  assert (acc_data cell1 = acc_data cell /\ acc_owner cell1 = acc_owner cell) as [Hd1 Ho1]
    by (by rewrite Hc1').
  rewrite <-Hd1 in Hpool. pose proof (proj1 (TipPool_deserialize_inv _ _) Hpool) as [Hval [tl Htl]].
  intros k a Hk Ho Hd. rewrite (store_sum_insert _ _ _ cell1) by done.
  rewrite (moved_sum _ _ _ _ _ (pool_claim_lamports pid k)).
  rewrite (pool_claim_pool _ _ _ pool), (pool_claim_write _ _ _ pool); try done; try congruence.
  2: { cbn. unfold is_u64 in *. lia. }
  cbn [pool_vault value]. rewrite Hpv.
  assert (exists b, moved (key vi) (key ai) amount v !! k = Some b /\
    acc_lamports a = acc_lamports b /\ acc_owner b = pid /\ acc_data b <> [])
    as (b & Hb & Hlb & Hob & Hdb).
  { rewrite lookup_insert in Hk. case_decide; [|eauto]. injection Hk as <-. exists cell1. subst.
    split_and!; try done. rewrite Htl. intros E. apply (f_equal length) in E.
    rewrite length_app, length_TipPool_serialize in E. done. }
  destruct (moved_lookup _ _ _ _ _ _ Hb) as (b0 & Hb0 & Hbe & Hfrom & Hup & Hself).
  assert (store_sum (pool_claim pid k) v <= acc_lamports b0) as Hle'.
  { apply Hsol; [done|rewrite Hbe in Hob; done|rewrite Hbe in Hdb; done]. }
  rewrite Hlb. destruct (key_eqb (key vi) k) eqn:Ek.
  - apply key_eqb_eq in Ek. destruct (decide (key vi = key ai)) as [Heq|Hne].
    + rewrite Hself by done. lia.
    + rewrite Hfrom by done. lia.
  - apply key_eqb_neq in Ek. assert (k <> key vi) by congruence. specialize (Hup H Ham). lia.
Qed.

Definition tip_instruction_in_range (i : TipInstruction) : Prop :=
  match i with
  | Initialize _ fee _ => is_u64 fee /\ f64_bits_is_nan fee = false
  | CreatePool => True
  | Tip a | Withdraw a => is_u64 a
  end.

Lemma TipInstruction_roundtrip i l :
  tip_instruction_in_range i ->
  TipInstruction_deserialize (TipInstruction_serialize i ++ l) = Ok (i, l).
Proof.
  intros Hi. unfold TipInstruction_deserialize, TipInstruction_serialize.
  destruct i as [s f r| |a|a]; cbn in Hi; [destruct Hi| | |]; borsh_roundtrip.
Qed.

Lemma TipInstruction_in_range d i :
  borsh_deserialize TipInstruction_deserialize d = Ok i -> tip_instruction_in_range i.
Proof.
  unfold borsh_deserialize.
  destruct (TipInstruction_deserialize d) as [[i' l]| |] eqn:E; try done. intros [= ->].
  apply reader_bind_inv in E as (tag & l1 & _ & E).
  destruct tag; try discriminate E.
  - apply reader_bind_inv in E as (s & l2 & _ & E). apply reader_bind_inv in E as (f & l3 & Hf & E).
    apply reader_bind_inv in E as (r & l4 & _ & E). injection E as <- <-.
    apply de_f64_inv in Hf as (? & ? & _). done.
  - by injection E as <- <-.
  - apply reader_bind_inv in E as (a & l2 & Ha & E). injection E as <- <-.
    by apply de_u64_inv in Ha as [? _].
  - apply reader_bind_inv in E as (a & l2 & Ha & E). injection E as <- <-.
    by apply de_u64_inv in Ha as [? _].
Qed.

Lemma tip_process_encoded pid accounts i v :
  tip_instruction_in_range i ->
  process_instruction pid accounts (TipInstruction_serialize i) v =
  match i with
  | Initialize seed fee fee_recipient => initialize pid accounts seed fee fee_recipient v
  | Tip amount => tip pid accounts amount v
  | Withdraw amount => withdraw pid accounts amount v
  | CreatePool => create_pool pid accounts v
  end.
Proof.
  intros Hi. unfold process_instruction, borsh_deserialize.
  rewrite <-(app_nil_r (TipInstruction_serialize i)).
  rewrite TipInstruction_roundtrip by done. by destruct i.
Qed.

Lemma tip_initialize_ok cpi pid accounts seed fee fee_recipient v u v' :
  run cpi (initialize pid accounts seed fee fee_recipient v) = Ok (u, v') ->
  exists vault_info initializer_info rent_info rest rcell rent v1 cell1,
    accounts = vault_info :: initializer_info :: rent_info :: rest /\
    key rent_info = rent_sysvar_id /\ v !! key rent_info = Some rcell /\
    bincode_deserialize_rent (acc_data rcell) = Some rent /\
    create_program_address [[seed]] pid = Ok (key vault_info) /\
    is_signer initializer_info = true /\
    cpi (create_account (key initializer_info) (key vault_info)
           (minimum_balance rent VAULT_LEN) VAULT_LEN pid)
        [initializer_info; vault_info] [[[seed]]] v = Ok v1 /\
    v1 !! key vault_info = Some cell1 /\
    v' = <[key vault_info := set_acc_data cell1 (write_prefix
            (Vault_serialize (mkVault (key initializer_info) fee fee_recipient seed))
            (acc_data cell1))]> v1.
Proof.
  unfold initialize. intros H. inv_run. inv_run.
  match goal with H : borsh_serialize_into _ _ = Ok _ |- _ =>
    apply borsh_serialize_into_ok in H as [? ->] end.
  destruct (create_program_address _ _) as [k| |] eqn:E; try done. inv_ok. subst.
  eexists _, _, _, _, _, _, _, _. split; [reflexivity|].
  split_and!; try eassumption; try reflexivity; congruence.
Qed.

(** C4: Every instruction of the tip program except Initialize, given a vault account
    that holds data, keeps the program solvent, whatever other accounts the caller
    passes: for every account of the program with data, the values of all accounts that
    read as pools on it sum to at most its lamports. *)
Theorem pools_stay_covered (cpi : cpi_handler) (pid : Pubkey) (accounts : list AccountInfo)
    (d : list byte) (i : TipInstruction) (v v' : view)
    (Hsys : SystemCpi cpi) (Hstore : store_ok v) (Hsol : solvent pid v)
    (Hi : borsh_deserialize TipInstruction_deserialize d = Ok i)
    (Hni : match i with Initialize _ _ _ => False | _ => True end)
    (Hvault : vault_has_data accounts v)
    (Hrun : run cpi (process_instruction pid accounts d v) = Ok (tt, v')) :
  solvent pid v'.
Proof.
  pose proof (TipInstruction_in_range _ _ Hi) as Hr.
  unfold process_instruction in Hrun. rewrite Hi in Hrun.
  change (run cpi (match i with
    | Initialize seed fee fee_recipient => initialize pid accounts seed fee fee_recipient
    | CreatePool => create_pool pid accounts
    | Tip amount => tip pid accounts amount
    | Withdraw amount => withdraw pid accounts amount
    end v) = Ok (tt, v')) in Hrun.
  destruct i as [| |a|a]; cbn in Hr; try done.
  - apply run_no_cpi_ok in Hrun; [|apply create_pool_no_cpi]. by eapply create_pool_solvent.
  - by eapply tip_solvent.
  - apply run_no_cpi_ok in Hrun; [|apply withdraw_no_cpi]. by eapply withdraw_solvent; [apply Hr|..].
Qed.

(** In a solvent store, withdraw of the tip program succeeds exactly when pool and
    vault belong to the program, the pool names the vault and the signing authority, and
    both the value of the pool and the vault cover the amount; then it moves the amount
    to the authority and lowers the value of the pool by it. *)
Theorem tip_withdraw_spec (pid : Pubkey) (vault_info pool_info authority_info : AccountInfo)
    (rest : list AccountInfo) (amount : Z) (v v' : view)
    (Hstore : store_ok v) (Hsol : solvent pid v) (Ham : 0 <= amount)
    (Hvault : vault_has_data [vault_info] v) :
  withdraw pid (vault_info :: pool_info :: authority_info :: rest) amount v = TOk tt v' <->
  exists cell vcell pool cell1,
    v !! key pool_info = Some cell /\ acc_owner cell = pid /\
    borsh_deserialize TipPool_deserialize (acc_data cell) = Ok pool /\
    v !! key vault_info = Some vcell /\ acc_owner vcell = pid /\
    is_signer authority_info = true /\ pool_vault pool = key vault_info /\
    withdraw_authority pool = key authority_info /\ is_Some (v !! key authority_info) /\
    amount <= value pool /\ amount <= acc_lamports vcell /\
    moved (key vault_info) (key authority_info) amount v !! key pool_info = Some cell1 /\
    v' = <[key pool_info := set_acc_data cell1 (write_prefix
             (TipPool_serialize (mkTipPool (key authority_info) (value pool - amount)
                (key vault_info))) (acc_data cell1))]>
         (moved (key vault_info) (key authority_info) amount v).
Proof.
  rewrite withdraw_pool_ok. split.
  - intros (vi & pi & ai & rest' & cell & vcell & pool & v1 & cell1 & [= <- <- <- <-] & Hp & Hpool &
      Hv & Hvo & Hpo & Hs & Hpv & Ha & Hle & Hm & Hc1 & ->).
    assert (amount <= acc_lamports vcell) as Hcov
      by (eapply (withdraw_covered pid (key vault_info) (key pool_info)); try done; by apply Hvault).
    apply (move_lamports_moved _ _ _ _ _ vcell) in Hm as [Hai ->]; [|done..].
    exists cell, vcell, pool, cell1. rewrite <-Hpv, Ha. split_and!; done || congruence.
  - intros (cell & vcell & pool & cell1 & Hp & Hpo & Hpool & Hv & Hvo & Hs & Hpv & Ha & Hai & Hle &
      Hcov & Hc1 & ->).
    eexists _, _, _, _, cell, vcell, pool, _, cell1. split; [reflexivity|].
    rewrite Hpv, Ha. split_and!; try done. by apply (move_lamports_moved _ _ _ _ _ vcell).
Qed.

(** C38: Withdraw of the tip program does not tell pools from vaults: a vault
    initialized with another vault as its fee recipient and a chosen fee reads back as a
    pool on that vault with that value, and its initializer withdraws the value from the
    other vault. *)
Theorem vault_as_pool_drains (cpi : cpi_handler) (pid : Pubkey)
    (forged_info attacker_info rent_info victim_info : AccountInfo)
    (seed : byte) (x : Z) (v v1 : view) (vcell : Account)
    (Hsys : SystemCpi cpi) (Hx : is_u64 x) (Hnan : f64_bits_is_nan x = false)
    (Hinit : run cpi (process_instruction pid [forged_info; attacker_info; rent_info]
               (TipInstruction_serialize (Initialize seed x (key victim_info))) v) = Ok (tt, v1))
    (Hstore : store_ok v1)
    (Hvictim : v1 !! key victim_info = Some vcell) (Howner : acc_owner vcell = pid)
    (Hbal : x <= acc_lamports vcell) (Hatt : is_Some (v1 !! key attacker_info))
    (Hne : key attacker_info <> key victim_info) (Hne' : key forged_info <> key victim_info) :
  exists v2 vcell',
    process_instruction pid [victim_info; forged_info; attacker_info]
      (TipInstruction_serialize (Withdraw x)) v1 = TOk tt v2 /\
    v2 !! key victim_info = Some vcell' /\ acc_lamports vcell' = acc_lamports vcell - x.
Proof.
  rewrite tip_process_encoded in Hinit by done. cbn iota in Hinit.
  apply tip_initialize_ok in Hinit as (fi & ai & ri & rest & rcell & rent & w & cell1 &
    [= <- <- <- <-] & Hri & Hrc & Hrent & Hpda & Hs & Hcpi & Hc1 & ->).
  apply sys_created in Hcpi; try done; auto with sol.
  destruct (created_new _ _ _ _ _ _ _ Hcpi) as (c & Hc & _ & Ho & _).
  rewrite Hc1 in Hc. injection Hc as <-.
  set (pool := mkTipPool (key attacker_info) x (key victim_info)).
  set (v1 := <[key forged_info := _]> w) in *.
  set (cell := set_acc_data cell1 _) in *.
  assert (Hf : v1 !! key forged_info = Some cell) by (by unfold v1; rewrite lookup_insert_eq).
  assert (Hpool : borsh_deserialize TipPool_deserialize (acc_data cell) = Ok pool).
  { apply TipPool_deserialize_inv. split; [done|]. cbn. unfold write_prefix, Vault_serialize,
      TipPool_serialize. cbn. rewrite ser_f64_spec, ser_u64_spec by done.
    eexists. rewrite <-!app_assoc. reflexivity. }
  destruct (proj2 (moved_is_Some_iff (key victim_info) (key attacker_info) x v1 (key forged_info)))
    as [cell2 Hc2]; [eauto|].
  eexists _, (set_acc_lamports vcell (acc_lamports vcell - x)). split_and!.
  - rewrite tip_process_encoded by done. apply withdraw_pool_ok.
    eexists _, _, _, _, cell, vcell, pool, _, cell2. split; [reflexivity|].
    split_and!; try done. apply (move_lamports_moved _ _ _ _ _ vcell); try done.
    destruct Hx. lia.
  - rewrite lookup_insert_ne by done. by apply moved_source_lookup.
  - done.
Qed.

End level3.

(** ** Instances *)
Definition ex_pid : Pubkey := toy_key 7.
Definition ex_tipper : Pubkey := toy_key 1001.
Definition ex_pool : Pubkey := toy_key 1002.
Definition ex_vault : Pubkey := toy_key 1003.
Definition ex_attacker : Pubkey := toy_key 667.

(** The first seed whose address is off the curve. *)
Definition ex_seed : byte :=
  match find (fun s => is_ok (create_program_address [[s]] ex_pid)) [x00; x01; x02; x03; x04; x05] with
  | Some s => s | None => x00 end.
Definition ex_forged : Pubkey :=
  match create_program_address [[ex_seed]] ex_pid with Ok k => k | _ => ex_pid end.

Definition ex_store : view :=
  list_to_map
    [(ex_tipper, toy_account 10000000000 [] system_program_id);
     (ex_pool, toy_account 2000000 (TipPool_serialize (mkTipPool ex_tipper 1000000 ex_vault)) ex_pid);
     (ex_vault, toy_account 3000000
        (Vault_serialize (mkVault ex_tipper 0 (toy_key 1004) x00)) ex_pid);
     (ex_attacker, toy_account 10000000000 [] system_program_id);
     (ex_forged, toy_account 0 [] system_program_id);
     (rent_sysvar_id, toy_account 1 [] system_program_id)].

(** Decide [solvent] on a concrete store. *)
Definition solventb (pid : Pubkey) (v : view) : bool :=
  forallb (fun '(k, a) => negb (key_eqb (acc_owner a) pid) ||
             (store_sum (pool_claim pid k) v <=? acc_lamports a)) (map_to_list v).

Lemma solventb_ok pid v : solventb pid v = true -> solvent pid v.
Proof.
  unfold solventb. rewrite forallb_forall. intros H k a Hk Ho _.
  apply elem_of_map_to_list, list_elem_of_In, H in Hk.
  apply orb_true_iff in Hk as [Hk|Hk]; [|by apply Z.leb_le].
  by rewrite (proj2 (key_eqb_eq _ _) Ho) in Hk.
Qed.

Lemma pools_stay_covered_witness :
  exists v',
    run ref_system_cpi (process_instruction ex_pid [wr ex_vault; wr ex_pool; wr_signer ex_tipper]
      (TipInstruction_serialize (Withdraw 500)) ex_store) = Ok (tt, v') /\ solvent ex_pid v'.
Proof.
  destruct (run_result (run ref_system_cpi (process_instruction ex_pid
    [wr ex_vault; wr ex_pool; wr_signer ex_tipper] (TipInstruction_serialize (Withdraw 500))
    ex_store))) as [v' E]; [vm_true|].
  exists v'. split; [exact E|].
  apply (pools_stay_covered ref_system_cpi ex_pid [wr ex_vault; wr ex_pool; wr_signer ex_tipper]
    (TipInstruction_serialize (Withdraw 500)) (Withdraw 500) ex_store v').
  - exact _.
  - apply store_okb_ok. vm_true.
  - apply solventb_ok. vm_true.
  - vm_true.
  - exact I.
  - intros a Ha. vm_compute in Ha. injection Ha as <-. discriminate.
  - exact E.
Defined.

Lemma tip_withdraw_spec_witness :
  exists v' cell1,
    withdraw ex_pid [wr ex_vault; wr ex_pool; wr_signer ex_tipper] 500 ex_store = TOk tt v' /\
    v' = <[ex_pool := set_acc_data cell1 (write_prefix
             (TipPool_serialize (mkTipPool ex_tipper 999500 ex_vault)) (acc_data cell1))]>
         (moved ex_vault ex_tipper 500 ex_store).
Proof.
  destruct (tree_result (withdraw ex_pid [wr ex_vault; wr ex_pool; wr_signer ex_tipper] 500
    ex_store)) as [v' E]; [vm_true|].
  pose proof (proj1 (tip_withdraw_spec ex_pid (wr ex_vault) (wr ex_pool) (wr_signer ex_tipper) []
    500 ex_store v' ltac:(apply store_okb_ok; vm_true) ltac:(apply solventb_ok; vm_true)
    ltac:(lia) ltac:(intros a Ha; vm_compute in Ha; injection Ha as <-; discriminate)) E)
    as (cell & vcell & pool & cell1 & Hp & _ & Hpool & _ & _ & _ & _ & _ & _ & _ & _ & _ & Hv').
  assert (value pool = 1000000) as Hval.
  { vm_compute in Hp. injection Hp as <-. vm_compute in Hpool. injection Hpool as <-. reflexivity. }
  exists v', cell1. rewrite Hval in Hv'. exact (conj E Hv').
Defined.

Lemma vault_as_pool_drains_witness :
  exists v1 v2 vcell',
    run ref_system_cpi (process_instruction ex_pid
      [wr ex_forged; wr_signer ex_attacker; rd rent_sysvar_id]
      (TipInstruction_serialize (Initialize ex_seed 2500000 ex_vault)) ex_store) = Ok (tt, v1) /\
    process_instruction ex_pid [wr ex_vault; wr ex_forged; wr_signer ex_attacker]
      (TipInstruction_serialize (Withdraw 2500000)) v1 = TOk tt v2 /\
    v2 !! ex_vault = Some vcell' /\ acc_lamports vcell' = 500000.
Proof.
  destruct (run_result (run ref_system_cpi (process_instruction ex_pid
      [wr ex_forged; wr_signer ex_attacker; rd rent_sysvar_id]
      (TipInstruction_serialize (Initialize ex_seed 2500000 ex_vault)) ex_store)))
    as [v1 E]; [vm_true|].
  assert (Hv1 : forall P : view -> bool,
    match run ref_system_cpi (process_instruction ex_pid
      [wr ex_forged; wr_signer ex_attacker; rd rent_sysvar_id]
      (TipInstruction_serialize (Initialize ex_seed 2500000 ex_vault)) ex_store)
    with Ok (_, v) => P v | _ => false end = true -> P v1 = true).
  { intros P. rewrite E. auto. }
  assert (exists vcell, v1 !! ex_vault = Some vcell /\ acc_owner vcell = ex_pid /\
    acc_lamports vcell = 3000000) as (vcell & Hvc & Hvo & Hvl).
  { specialize (Hv1 (fun v => bool_decide (v !! ex_vault = Some (toy_account 3000000
      (Vault_serialize (mkVault ex_tipper 0 (toy_key 1004) x00)) ex_pid)))).
    eexists. split; [|split]; [apply (bool_decide_unpack _), Is_true_true, Hv1; vm_true|..];
      reflexivity. }
  destruct (vault_as_pool_drains ref_system_cpi ex_pid (wr ex_forged) (wr_signer ex_attacker)
    (rd rent_sysvar_id) (wr ex_vault) ex_seed 2500000 ex_store v1 vcell _
    ltac:(by apply is_u64b_spec) eq_refl E) as (v2 & vcell' & H2 & Hc' & Hl').
  - apply store_okb_ok. apply Hv1. vm_true.
  - exact Hvc.
  - exact Hvo.
  - rewrite Hvl. lia.
  - apply is_Some_eval.
    apply (Hv1 (fun v => match v !! ex_attacker with Some _ => true | None => false end)). vm_true.
  - vm_compute. discriminate.
  - vm_compute. discriminate.
  - exists v1, v2, vcell'. rewrite Hvl in Hl'. exact (conj E (conj H2 (conj Hc' Hl'))).
Defined.
