(* ===== verification/TokenState.v ===== *)
(** * SPL token state

    [spl-token-3.3.0/src/state.rs] and [error.rs], and the [Pack] trait of
    [sdk/program/src/program_pack.rs]: mints, token accounts and multisignature
    accounts and their fixed-length byte encodings. *)

From Stdlib Require Import Strings.Byte.
From S2P Require Import Prelude Sdk.

(** ** error.rs *)
Inductive TokenError : Type :=
| NotRentExempt | InsufficientFunds | InvalidMint | MintMismatch | OwnerMismatch
| FixedSupply | AlreadyInUse | InvalidNumberOfProvidedSigners | InvalidNumberOfRequiredSigners
| UninitializedState
| NativeNotSupported | NonNativeHasBalance | InvalidInstruction | InvalidState | Overflow
| AuthorityTypeNotSupported | MintCannotFreeze | AccountFrozen | MintDecimalsMismatch
| NonNativeNotSupported.

(** [e as u32] *)
Definition token_error_code (e : TokenError) : Z :=
  match e with
  | NotRentExempt => 0 | InsufficientFunds => 1 | InvalidMint => 2 | MintMismatch => 3
  | OwnerMismatch => 4 | FixedSupply => 5 | AlreadyInUse => 6
  | InvalidNumberOfProvidedSigners => 7 | InvalidNumberOfRequiredSigners => 8
  | UninitializedState => 9 | NativeNotSupported => 10 | NonNativeHasBalance => 11
  | InvalidInstruction => 12 | InvalidState => 13 | Overflow => 14
  | AuthorityTypeNotSupported => 15 | MintCannotFreeze => 16 | AccountFrozen => 17
  | MintDecimalsMismatch => 18 | NonNativeNotSupported => 19
  end.

(** [impl From<TokenError> for ProgramError] *)
Definition token_error (e : TokenError) : ProgramError := ProgramError.Custom (token_error_code e).

(** ** The [Pack] trait *)
Class Pack (T : Type) : Type := {
  LEN : nat;
  is_initialized : T -> bool;
  unpack_from_slice : list byte -> result ProgramError T;
  (* the content of [dst] after the call *)
  pack_into_slice : T -> list byte -> list byte
}.

Section pack.
Context {T : Type} `{Pack T}.

Definition unpack_unchecked (input : list byte) : result ProgramError T :=
  if negb (length input =? LEN)%nat then Err ProgramError.InvalidAccountData
  else unpack_from_slice input.

Definition unpack (input : list byte) : result ProgramError T :=
  value ← unpack_unchecked input;
  if is_initialized value then Ok value else Err ProgramError.UninitializedAccount.

Definition pack (src : T) (dst : list byte) : result ProgramError (list byte) :=
  if negb (length dst =? LEN)%nat then Err ProgramError.InvalidAccountData
  else Ok (pack_into_slice src dst).

End pack.

(** What an implementation promises: values in range survive packing, packing
    what was unpacked changes no byte, and the length is kept. *)
Class PackSpec (T : Type) `{Pack T} : Type := {
  in_range : T -> Prop;
  pack_length x dst :
    length dst = LEN -> in_range x -> length (pack_into_slice x dst) = LEN;
  unpack_pack x dst :
    length dst = LEN -> in_range x -> unpack_from_slice (pack_into_slice x dst) = Ok x;
  pack_unpack x src :
    length src = LEN -> unpack_from_slice src = Ok x -> pack_into_slice x src = src;
  unpack_in_range x src : unpack_from_slice src = Ok x -> in_range x
}.

Section pack_laws.
Context {T : Type} `{PackSpec T}.

Lemma unpack_ok d x :
  unpack d = Ok x <->
  length d = LEN /\ unpack_from_slice d = Ok x /\ is_initialized x = true.
Proof.
  unfold unpack, unpack_unchecked. rewrite result_bind_ok.
  destruct (Nat.eqb_spec (length d) LEN) as [Hl|Hl]; cbn [negb].
  - split.
    + intros (y & Hy & Hi). destruct (is_initialized y) eqn:E; [|done]. injection Hi as <-. done.
    + intros (_ & Hy & Hi). exists x. by rewrite Hi.
  - split; [by intros (y & ? & _)|]. by intros [? _].
Qed.

Lemma unpack_unchecked_ok d x :
  unpack_unchecked d = Ok x <-> length d = LEN /\ unpack_from_slice d = Ok x.
Proof.
  unfold unpack_unchecked. destruct (Nat.eqb_spec (length d) LEN); cbn; naive_solver.
Qed.

Lemma pack_ok x dst d :
  pack x dst = Ok d <-> length dst = LEN /\ d = pack_into_slice x dst.
Proof. unfold pack. destruct (Nat.eqb_spec (length dst) LEN); cbn; naive_solver. Qed.

(** Reading back what was packed. *)
Lemma pack_then_unpack x dst d :
  in_range x -> pack x dst = Ok d ->
  unpack d = if is_initialized x then Ok x else Err ProgramError.UninitializedAccount.
Proof.
  intros Hr Hp. apply pack_ok in Hp as [Hl ->]. unfold unpack, unpack_unchecked.
  rewrite pack_length, Nat.eqb_refl by done. cbn. by rewrite unpack_pack.
Qed.

Lemma pack_then_length x dst d :
  in_range x -> pack x dst = Ok d -> length d = LEN /\ length dst = LEN.
Proof. intros Hr Hp. apply pack_ok in Hp as [Hl ->]. by rewrite pack_length. Qed.

Lemma unpack_range d x : unpack d = Ok x -> in_range x.
Proof. rewrite unpack_ok. intros (_ & Hx & _). by eapply unpack_in_range. Qed.

(** Packing an initialized value succeeds in a slice of the right length and reads
    back; packing what was read changes no byte. *)
Definition roundtrips (ok : T -> Prop) (n : nat) : Prop :=
  (forall x dst, ok x -> is_initialized x = true -> length dst = n ->
     exists d, pack x dst = Ok d /\ unpack d = Ok x) /\
  (forall x d, unpack d = Ok x -> ok x /\ pack x d = Ok d).

Lemma pack_roundtrips : roundtrips in_range LEN.
Proof.
  split.
  - intros x dst Hr Hi Hl. exists (pack_into_slice x dst).
    assert (Hp : pack x dst = Ok (pack_into_slice x dst)) by by apply pack_ok.
    split; [done|]. rewrite (pack_then_unpack _ _ _ Hr Hp). by rewrite Hi.
  - intros x d Hu. split; [by eapply unpack_range|]. apply unpack_ok in Hu as (Hl & Hx & _).
    apply pack_ok. split; [done|]. by rewrite pack_unpack.
Qed.

End pack_laws.

(** ** state.rs *)
Record Mint : Type := mkMint {
  mint_authority : option Pubkey;
  supply : Z;
  decimals : byte;
  mint_is_initialized : bool;
  freeze_authority : option Pubkey
}.

Inductive AccountState : Type := Uninitialized | Initialized | Frozen.

(** [state::Account] *)
Record TokenAccount : Type := mkTokenAccount {
  ta_mint : Pubkey;
  ta_owner : Pubkey;
  ta_amount : Z;
  ta_delegate : option Pubkey;
  ta_state : AccountState;
  ta_is_native : option Z;
  ta_delegated_amount : Z;
  ta_close_authority : option Pubkey
}.

Definition MAX_SIGNERS : nat := 11.

(** [signers: [Pubkey; MAX_SIGNERS]] is a list of that length. *)
Record Multisig : Type := mkMultisig {
  ms_m : byte;
  ms_n : byte;
  ms_is_initialized : bool;
  ms_signers : list Pubkey
}.

#[global] Instance AccountState_eq_dec : EqDecision AccountState.
Proof. solve_decision. Defined.
#[global] Instance Mint_eq_dec : EqDecision Mint.
Proof. solve_decision. Defined.
#[global] Instance TokenAccount_eq_dec : EqDecision TokenAccount.
Proof. solve_decision. Defined.

Definition is_frozen (a : TokenAccount) : bool :=
  match ta_state a with Frozen => true | _ => false end.
Definition is_native (a : TokenAccount) : bool :=
  match ta_is_native a with Some _ => true | None => false end.

(** [array_ref![l, off, len]] for a slice known to be in range. *)
Definition sub (l : list byte) (off len : nat) : list byte := take len (drop off l).

(** [Pubkey::new_from_array] *)
Definition key_from (l : list byte) : result ProgramError Pubkey := unwrap (Pubkey_new l).

(** *** Helpers *)
Definition pack_coption_key (src : option Pubkey) (dst : list byte) : list byte :=
  match src with
  | Some key => [x01; x00; x00; x00] ++ to_bytes key
  | None => [x00; x00; x00; x00] ++ drop 4 dst
  end.

Definition unpack_coption_key (src : list byte) : result ProgramError (option Pubkey) :=
  match take 4 src with
  | [x00; x00; x00; x00] => Ok None
  | [x01; x00; x00; x00] => Some <$> key_from (drop 4 src)
  | _ => Err ProgramError.InvalidAccountData
  end.

Definition pack_coption_u64 (src : option Z) (dst : list byte) : list byte :=
  match src with
  | Some amount => [x01; x00; x00; x00] ++ u64_le amount
  | None => [x00; x00; x00; x00] ++ drop 4 dst
  end.

Definition unpack_coption_u64 (src : list byte) : result ProgramError (option Z) :=
  match take 4 src with
  | [x00; x00; x00; x00] => Ok None
  | [x01; x00; x00; x00] => Ok (Some (from_le_bytes (drop 4 src)))
  | _ => Err ProgramError.InvalidAccountData
  end.

(** [match is_initialized { [0] => false, [1] => true, _ => return Err(..) }] *)
Definition unpack_bool (src : list byte) : result ProgramError bool :=
  match src with
  | [x00] => Ok false
  | [x01] => Ok true
  | _ => Err ProgramError.InvalidAccountData
  end.

Definition bool_byte (b : bool) : byte := if b then x01 else x00.

(** [AccountState::try_from_primitive(..).or(Err(InvalidAccountData))] *)
Definition AccountState_try_from (src : list byte) : result ProgramError AccountState :=
  match src with
  | [x00] => Ok Uninitialized
  | [x01] => Ok Initialized
  | [x02] => Ok Frozen
  | _ => Err ProgramError.InvalidAccountData
  end.

Definition AccountState_byte (s : AccountState) : byte :=
  match s with Uninitialized => x00 | Initialized => x01 | Frozen => x02 end.

(** The byte of a one-byte array. *)
Definition byte0 (l : list byte) : result ProgramError byte := unwrap (head l).

(** *** [impl Pack for Mint] *)
Definition Mint_unpack_from_slice (src : list byte) : result ProgramError Mint :=
  mint_authority ← unpack_coption_key (sub src 0 36);
  let supply := from_le_bytes (sub src 36 8) in
  decimals ← byte0 (sub src 44 1);
  is_initialized ← unpack_bool (sub src 45 1);
  freeze_authority ← unpack_coption_key (sub src 46 36);
  Ok (mkMint mint_authority supply decimals is_initialized freeze_authority).

Definition Mint_pack_into_slice (m : Mint) (dst : list byte) : list byte :=
  pack_coption_key (mint_authority m) (sub dst 0 36)
  ++ u64_le (supply m)
  ++ [decimals m]
  ++ [bool_byte (mint_is_initialized m)]
  ++ pack_coption_key (freeze_authority m) (sub dst 46 36).

#[global] Instance Mint_Pack : Pack Mint := {|
  LEN := 82;
  is_initialized := mint_is_initialized;
  unpack_from_slice := Mint_unpack_from_slice;
  pack_into_slice := Mint_pack_into_slice
|}.

(** *** [impl Pack for Account] *)
Definition Account_unpack_from_slice (src : list byte) : result ProgramError TokenAccount :=
  mint ← key_from (sub src 0 32);
  owner ← key_from (sub src 32 32);
  let amount := from_le_bytes (sub src 64 8) in
  delegate ← unpack_coption_key (sub src 72 36);
  state ← AccountState_try_from (sub src 108 1);
  is_native ← unpack_coption_u64 (sub src 109 12);
  let delegated_amount := from_le_bytes (sub src 121 8) in
  close_authority ← unpack_coption_key (sub src 129 36);
  Ok (mkTokenAccount mint owner amount delegate state is_native delegated_amount close_authority).

Definition Account_pack_into_slice (a : TokenAccount) (dst : list byte) : list byte :=
  to_bytes (ta_mint a)
  ++ to_bytes (ta_owner a)
  ++ u64_le (ta_amount a)
  ++ pack_coption_key (ta_delegate a) (sub dst 72 36)
  ++ [AccountState_byte (ta_state a)]
  ++ pack_coption_u64 (ta_is_native a) (sub dst 109 12)
  ++ u64_le (ta_delegated_amount a)
  ++ pack_coption_key (ta_close_authority a) (sub dst 129 36).

Definition Account_is_initialized (a : TokenAccount) : bool :=
  match ta_state a with Uninitialized => false | _ => true end.

#[global] Instance Account_Pack : Pack TokenAccount := {|
  LEN := 165;
  is_initialized := Account_is_initialized;
  unpack_from_slice := Account_unpack_from_slice;
  pack_into_slice := Account_pack_into_slice
|}.

(** *** [impl Pack for Multisig]

    [signers_flat.chunks(32)] are the [MAX_SIGNERS] keys. *)
Fixpoint unpack_signers (n : nat) (flat : list byte) : result ProgramError (list Pubkey) :=
  match n with
  | O => Ok []
  | S n => k ← key_from (take 32 flat); ks ← unpack_signers n (drop 32 flat); Ok (k :: ks)
  end.

Definition Multisig_unpack_from_slice (src : list byte) : result ProgramError Multisig :=
  m ← byte0 (sub src 0 1);
  n ← byte0 (sub src 1 1);
  is_initialized ← unpack_bool (sub src 2 1);
  signers ← unpack_signers MAX_SIGNERS (sub src 3 352);
  Ok (mkMultisig m n is_initialized signers).

Definition Multisig_pack_into_slice (m : Multisig) (dst : list byte) : list byte :=
  [ms_m m] ++ [ms_n m] ++ [bool_byte (ms_is_initialized m)] ++ concat (to_bytes <$> ms_signers m).

#[global] Instance Multisig_Pack : Pack Multisig := {|
  LEN := 355;
  is_initialized := ms_is_initialized;
  unpack_from_slice := Multisig_unpack_from_slice;
  pack_into_slice := Multisig_pack_into_slice
|}.

(** ** Properties *)

(** *** Slices of a concatenation *)
Lemma sub_app_here a b len : length a = len -> sub (a ++ b) 0 len = a.
Proof. intros. unfold sub. rewrite drop_0. by apply take_app_length'. Qed.

Lemma sub_all a len : length a = len -> sub a 0 len = a.
Proof. intros. unfold sub. rewrite drop_0. apply take_ge. lia. Qed.

Lemma sub_app_skip a b off len :
  (length a <= off)%nat -> sub (a ++ b) off len = sub b (off - length a) len.
Proof. intros. unfold sub. by rewrite drop_app_ge. Qed.

Lemma length_sub l off len : (off + len <= length l)%nat -> length (sub l off len) = len.
Proof. intros. unfold sub. rewrite length_take, length_drop. lia. Qed.

(** A buffer is the concatenation of its consecutive slices. *)
Lemma sub_split l off n len : (n <= len)%nat -> sub l off len = sub l off n ++ sub l (off + n) (len - n).
Proof.
  intros. unfold sub. rewrite <-drop_drop. rewrite <-(take_drop n (drop off l)) at 1.
  rewrite take_app. rewrite take_take, Nat.min_r by lia. f_equal.
  destruct (decide (n <= length (drop off l))%nat).
  - by rewrite length_take, Nat.min_l by lia.
  - rewrite (drop_ge (drop off l)) by lia. by rewrite !take_nil.
Qed.

(** *** Optional keys and amounts *)
Definition tag_none : list byte := [x00; x00; x00; x00].
Definition tag_some : list byte := [x01; x00; x00; x00].

Lemma unpack_coption_key_cases src o :
  unpack_coption_key src = Ok o <->
  (take 4 src = tag_none /\ o = None) \/
  (take 4 src = tag_some /\ exists k, Pubkey_new (drop 4 src) = Some k /\ o = Some k).
Proof.
  unfold unpack_coption_key, tag_none, tag_some, key_from.
  destruct (decide (take 4 src = [x00; x00; x00; x00])) as [->|H0]; [naive_solver|].
  destruct (decide (take 4 src = [x01; x00; x00; x00])) as [->|H1].
  - destruct (Pubkey_new (drop 4 src)); cbn; naive_solver.
  - split; [|naive_solver]. intros H. exfalso.
    destruct (take 4 src) as [|b0 [|b1 [|b2 [|b3 [|]]]]]; try discriminate H;
      destruct b0; try discriminate H; destruct b1; try discriminate H;
      destruct b2; try discriminate H; destruct b3; try discriminate H; congruence.
Qed.

Lemma unpack_coption_u64_cases src o :
  unpack_coption_u64 src = Ok o <->
  (take 4 src = tag_none /\ o = None) \/
  (take 4 src = tag_some /\ o = Some (from_le_bytes (drop 4 src))).
Proof.
  unfold unpack_coption_u64, tag_none, tag_some.
  destruct (decide (take 4 src = [x00; x00; x00; x00])) as [->|H0]; [naive_solver|].
  destruct (decide (take 4 src = [x01; x00; x00; x00])) as [->|H1]; [naive_solver|].
  split; [|naive_solver]. intros H. exfalso.
  destruct (take 4 src) as [|b0 [|b1 [|b2 [|b3 [|]]]]]; try discriminate H;
    destruct b0; try discriminate H; destruct b1; try discriminate H;
    destruct b2; try discriminate H; destruct b3; try discriminate H; congruence.
Qed.

Lemma length_pack_coption_key o dst : length dst = 36%nat -> length (pack_coption_key o dst) = 36%nat.
Proof.
  intros. destruct o; cbn [pack_coption_key]; rewrite length_app; [by rewrite length_to_bytes|].
  rewrite length_drop. cbn. lia.
Qed.

Lemma unpack_pack_coption_key o dst : unpack_coption_key (pack_coption_key o dst) = Ok o.
Proof.
  apply unpack_coption_key_cases. destruct o as [k|]; [right|left]; [|done].
  split; [done|]. exists k. split; [|done]. apply Pubkey_new_to_bytes.
Qed.

Lemma pack_unpack_coption_key o src : unpack_coption_key src = Ok o -> pack_coption_key o src = src.
Proof.
  intros H. apply unpack_coption_key_cases in H as [[Ht ->]|(Ht & k & Hk & ->)];
    rewrite <-(take_drop 4 src) at 2; rewrite Ht; [done|].
  apply Pubkey_new_some in Hk. by rewrite <-Hk.
Qed.

Lemma length_pack_coption_u64 o dst : length dst = 12%nat -> length (pack_coption_u64 o dst) = 12%nat.
Proof.
  intros. destruct o; cbn [pack_coption_u64]; rewrite length_app; [by rewrite length_u64_le|].
  rewrite length_drop. cbn. lia.
Qed.

Definition opt_u64 (o : option Z) : Prop := match o with Some z => is_u64 z | None => True end.

Lemma unpack_pack_coption_u64 o dst : opt_u64 o -> unpack_coption_u64 (pack_coption_u64 o dst) = Ok o.
Proof.
  intros Ho. apply unpack_coption_u64_cases. destruct o as [z|]; [right|left]; [|done].
  split; [done|]. change (drop 4 (pack_coption_u64 (Some z) dst)) with (u64_le z).
  by rewrite from_u64_le.
Qed.

Lemma pack_unpack_coption_u64 o src :
  length src = 12%nat -> unpack_coption_u64 src = Ok o -> pack_coption_u64 o src = src /\ opt_u64 o.
Proof.
  intros Hl H. assert (length (drop 4 src) = 8%nat) by (rewrite length_drop; lia).
  pose proof (take_drop 4 src) as Htd.
  apply unpack_coption_u64_cases in H as [[Ht ->]|(Ht & ->)]; rewrite Ht in Htd.
  - done.
  - split; [|by apply from_le_bytes_u64]. cbn [pack_coption_u64]. by rewrite u64_le_from.
Qed.

Lemma unpack_bool_ok src b : unpack_bool src = Ok b <-> src = [bool_byte b].
Proof.
  split; [|by intros ->; destruct b].
  destruct src as [|x [|]]; [done| |by destruct x].
  destruct x; intros [= <-]; reflexivity.
Qed.

Lemma AccountState_try_from_ok src s : AccountState_try_from src = Ok s <-> src = [AccountState_byte s].
Proof.
  split; [|by intros ->; destruct s].
  destruct src as [|x [|]]; [done| |by destruct x].
  destruct x; intros [= <-]; reflexivity.
Qed.

Lemma byte0_ok src b : length src = 1%nat -> byte0 src = Ok b <-> src = [b].
Proof. destruct src as [|x [|]]; try done. intros _. cbn. naive_solver. Qed.

Lemma key_from_ok l k : key_from l = Ok k <-> to_bytes k = l.
Proof. unfold key_from. by rewrite unwrap_ok, Pubkey_new_some. Qed.

(** Lengths of packed fields. *)
Ltac norm_len :=
  repeat first
    [ rewrite length_app | rewrite length_u64_le | rewrite length_to_bytes
    | rewrite length_pack_coption_key by (apply length_sub; lia)
    | rewrite length_pack_coption_u64 by (apply length_sub; lia) ];
  cbn [length].

(** Compute the slices of a packed value. *)
Ltac slices :=
  repeat first
    [ rewrite sub_app_here by (norm_len; lia)
    | rewrite sub_all by (norm_len; lia)
    | rewrite sub_app_skip by (norm_len; lia); norm_len; cbn [Nat.sub Nat.add] ].

Ltac split_slice off n len :=
  rewrite (sub_split _ off n len) by lia; cbn [Nat.add Nat.sub].

Lemma mint_pack_length m dst :
  length dst = 82%nat -> is_u64 (supply m) -> length (Mint_pack_into_slice m dst) = 82%nat.
Proof. intros Hd _. unfold Mint_pack_into_slice. norm_len. done. Qed.

Lemma mint_unpack_pack m dst :
  length dst = 82%nat -> is_u64 (supply m) ->
  Mint_unpack_from_slice (Mint_pack_into_slice m dst) = Ok m.
Proof.
  intros Hd Hr. unfold Mint_unpack_from_slice, Mint_pack_into_slice. slices.
  rewrite !unpack_pack_coption_key, (proj2 (unpack_bool_ok _ _) eq_refl), from_u64_le by done.
  by destruct m.
Qed.

(** The slices [src] is made of, one per field. *)
Lemma mint_slices src :
  length src = 82%nat ->
  src = sub src 0 36 ++ sub src 36 8 ++ sub src 44 1 ++ sub src 45 1 ++ sub src 46 36.
Proof.
  intros Hl. rewrite <-(sub_all src 82) at 1 by done.
  split_slice 0%nat 36%nat 82%nat. split_slice 36%nat 8%nat 46%nat. split_slice 44%nat 1%nat 38%nat. split_slice 45%nat 1%nat 37%nat. done.
Qed.

Lemma mint_pack_unpack m src :
  length src = 82%nat -> Mint_unpack_from_slice src = Ok m -> Mint_pack_into_slice m src = src.
Proof.
  intros Hl Hm. unfold Mint_unpack_from_slice in Hm. inv_ok. subst m.
  rewrite (mint_slices src Hl) at 3. unfold Mint_pack_into_slice.
  cbn [mint_authority supply decimals mint_is_initialized freeze_authority].
  repeat match goal with
  | H : unpack_coption_key _ = Ok _ |- _ => apply pack_unpack_coption_key in H; rewrite H
  | H : byte0 _ = Ok _ |- _ => apply byte0_ok in H; [rewrite H|by rewrite length_sub by lia]
  | H : unpack_bool _ = Ok _ |- _ => apply unpack_bool_ok in H; rewrite H
  end.
  by rewrite u64_le_from by (rewrite length_sub; lia).
Qed.

Lemma from_le_bytes_sub src off : is_u64 (from_le_bytes (sub src off 8)).
Proof.
  pose proof (from_le_bytes_range (sub src off 8)) as H.
  assert (length (sub src off 8) <= 8)%nat by (unfold sub; rewrite length_take; lia).
  assert (256 ^ Z.of_nat (length (sub src off 8)) <= 256 ^ 8) by (apply Z.pow_le_mono_r; lia).
  unfold is_u64, U64_MAX. change (256 ^ 8) with (2 ^ 64) in *. lia.
Qed.

#[global] Program Instance Mint_PackSpec : PackSpec Mint := {|
  in_range m := is_u64 (supply m);
  pack_length := mint_pack_length;
  unpack_pack := mint_unpack_pack;
  pack_unpack := mint_pack_unpack
|}.
Next Obligation.
  intros m src Hm. cbn in Hm. unfold Mint_unpack_from_slice in Hm. inv_ok. subst m.
  apply from_le_bytes_sub.
Qed.

Definition account_in_range (a : TokenAccount) : Prop :=
  is_u64 (ta_amount a) /\ opt_u64 (ta_is_native a) /\ is_u64 (ta_delegated_amount a).

Lemma account_pack_length a dst :
  length dst = 165%nat -> account_in_range a -> length (Account_pack_into_slice a dst) = 165%nat.
Proof. intros Hd _. unfold Account_pack_into_slice. norm_len. done. Qed.

Lemma account_unpack_pack a dst :
  length dst = 165%nat -> account_in_range a ->
  Account_unpack_from_slice (Account_pack_into_slice a dst) = Ok a.
Proof.
  intros Hd (Hr1 & Hr2 & Hr3). unfold Account_unpack_from_slice, Account_pack_into_slice. slices.
  rewrite !(proj2 (key_from_ok _ _) eq_refl). cbn [mbind result_bind].
  rewrite !unpack_pack_coption_key, (proj2 (AccountState_try_from_ok _ _) eq_refl),
    unpack_pack_coption_u64, !from_u64_le by done.
  by destruct a.
Qed.

Lemma account_slices src :
  length src = 165%nat ->
  src = sub src 0 32 ++ sub src 32 32 ++ sub src 64 8 ++ sub src 72 36 ++ sub src 108 1 ++
        sub src 109 12 ++ sub src 121 8 ++ sub src 129 36.
Proof.
  intros Hl. rewrite <-(sub_all src 165) at 1 by done.
  split_slice 0%nat 32%nat 165%nat. split_slice 32%nat 32%nat 133%nat. split_slice 64%nat 8%nat 101%nat. split_slice 72%nat 36%nat 93%nat.
  split_slice 108%nat 1%nat 57%nat. split_slice 109%nat 12%nat 56%nat. split_slice 121%nat 8%nat 44%nat. done.
Qed.

Lemma account_pack_unpack a src :
  length src = 165%nat -> Account_unpack_from_slice src = Ok a ->
  Account_pack_into_slice a src = src.
Proof.
  intros Hl Ha. unfold Account_unpack_from_slice in Ha. inv_ok. subst a.
  rewrite (account_slices src Hl) at 4. unfold Account_pack_into_slice.
  cbn [ta_mint ta_owner ta_amount ta_delegate ta_state ta_is_native ta_delegated_amount
       ta_close_authority].
  repeat match goal with
  | H : unpack_coption_key _ = Ok _ |- _ => apply pack_unpack_coption_key in H; rewrite H
  | H : unpack_coption_u64 _ = Ok _ |- _ =>
      apply pack_unpack_coption_u64 in H as [H _]; [rewrite H|rewrite length_sub; lia]
  | H : key_from _ = Ok _ |- _ => apply key_from_ok in H; rewrite H
  | H : AccountState_try_from _ = Ok _ |- _ => apply AccountState_try_from_ok in H; rewrite H
  end.
  by rewrite !u64_le_from by (rewrite length_sub; lia).
Qed.

#[global] Program Instance Account_PackSpec : PackSpec TokenAccount := {|
  in_range := account_in_range;
  pack_length := account_pack_length;
  unpack_pack := account_unpack_pack;
  pack_unpack := account_pack_unpack
|}.
Next Obligation.
  intros a src Ha. cbn in Ha. unfold Account_unpack_from_slice in Ha. inv_ok. subst a.
  split_and!; cbn; try apply from_le_bytes_sub.
  match goal with H : unpack_coption_u64 _ = Ok _ |- _ =>
    apply unpack_coption_u64_cases in H as [[_ ->]|[_ ->]] end; [done|].
  cbn. unfold sub. rewrite skipn_firstn_comm, drop_drop. apply (from_le_bytes_sub src (109 + 4)).
Qed.

Lemma unpack_signers_ok n flat ks :
  length flat = (32 * n)%nat ->
  unpack_signers n flat = Ok ks <-> flat = concat (to_bytes <$> ks) /\ length ks = n.
Proof.
  revert flat ks. induction n as [|n IH]; intros flat ks Hl; cbn [unpack_signers].
  - destruct flat; [|done]. split; [by intros [= <-]|]. intros [_ Hk]. by destruct ks.
  - split.
    + intros H. inv_ok. subst ks.
      match goal with H : key_from _ = Ok _ |- _ => apply key_from_ok in H as Hk end.
      match goal with H : unpack_signers _ _ = Ok _ |- _ =>
        apply IH in H as [Hf Hn]; [|rewrite length_drop; lia] end.
      cbn. rewrite Hk, <-Hf, take_drop. auto.
    + intros [-> Hk]. destruct ks as [|k ks]; [done|]. cbn [fmap list_fmap concat].
      rewrite take_app_length', drop_app_length' by (by rewrite length_to_bytes).
      rewrite (proj2 (key_from_ok _ _) eq_refl). cbn [mbind result_bind].
      assert (unpack_signers n (concat (to_bytes <$> ks)) = Ok ks) as ->; [|done].
      cbn in Hl. rewrite length_app, length_to_bytes in Hl.
      apply IH; [lia|]. split; [done|]. cbn in Hk. lia.
Qed.

Lemma length_concat_keys ks : length (concat (to_bytes <$> ks)) = (32 * length ks)%nat.
Proof.
  induction ks as [|k ks IH]; [done|]. cbn [fmap list_fmap concat length].
  rewrite length_app, length_to_bytes. rewrite IH. lia.
Qed.

Definition multisig_in_range (m : Multisig) : Prop := length (ms_signers m) = MAX_SIGNERS.

#[global] Program Instance Multisig_PackSpec : PackSpec Multisig := {|
  in_range := multisig_in_range
|}.
Next Obligation.
  intros m dst Hd Hm. cbn. rewrite length_concat_keys, Hm. done.
Qed.
Next Obligation.
  intros m dst Hd Hm. cbn [unpack_from_slice pack_into_slice Multisig_Pack].
  unfold Multisig_unpack_from_slice, Multisig_pack_into_slice.
  pose proof (length_concat_keys (ms_signers m)) as Hc. rewrite Hm in Hc. cbn in Hc.
  repeat first
    [ rewrite sub_app_here by (cbn; lia) | rewrite sub_all by (cbn; lia)
    | rewrite sub_app_skip by (cbn; lia); cbn [length Nat.sub Nat.add] ].
  rewrite (proj2 (unpack_bool_ok _ _) eq_refl). cbn [byte0 head unwrap mbind result_bind].
  rewrite (proj2 (unpack_signers_ok MAX_SIGNERS _ (ms_signers m) Hc)) by done. by destruct m.
Qed.
Next Obligation.
  intros m src Hl Hm. cbn in Hl, Hm |- *. unfold Multisig_unpack_from_slice in Hm. inv_ok. subst m.
  assert (src = sub src 0 1 ++ sub src 1 1 ++ sub src 2 1 ++ sub src 3 352) as Hs.
  { rewrite <-(sub_all src 355) at 1 by done.
    split_slice 0%nat 1%nat 355%nat. split_slice 1%nat 1%nat 354%nat. split_slice 2%nat 1%nat 353%nat. done. }
  etransitivity; [|symmetry; exact Hs]. unfold Multisig_pack_into_slice. cbn [ms_m ms_n ms_is_initialized ms_signers].
  repeat match goal with
  | H : byte0 _ = Ok _ |- _ => apply byte0_ok in H; [rewrite H|by rewrite length_sub by lia]
  | H : unpack_bool _ = Ok _ |- _ => apply unpack_bool_ok in H; rewrite H
  | H : unpack_signers _ _ = Ok _ |- _ =>
      apply unpack_signers_ok in H as [H _]; [rewrite <-H|rewrite length_sub; [done|lia]]
  end.
  done.
Qed.
Next Obligation.
  intros m src Hm. cbn in Hm. unfold Multisig_unpack_from_slice in Hm. inv_ok. subst m.
  cbn. match goal with H : unpack_signers _ _ = Ok _ |- _ => revert H end.
  generalize (sub src 3 352). clear. unfold multisig_in_range. cbn [ms_signers].
  generalize MAX_SIGNERS. intros n. revert x2. induction n as [|n IH]; intros ks l H; cbn in H.
  - by injection H as <-.
  - inv_ok. subst ks. cbn. f_equal. by eapply IH.
Qed.

(** *** The laws at the two main types *)
Lemma repack_account (t : TokenAccount) d0 d :
  account_in_range t -> pack t d0 = Ok d ->
  length d0 = 165%nat /\ length d = 165%nat /\
  unpack d = if is_initialized t then Ok t else Err ProgramError.UninitializedAccount.
Proof.
  intros Hr Hp. change (in_range t) in Hr. destruct (pack_then_length t d0 d Hr Hp).
  split_and!; try done. by apply (pack_then_unpack t d0).
Qed.

Lemma repack_mint (m : Mint) d0 d :
  is_u64 (supply m) -> pack m d0 = Ok d ->
  length d0 = 82%nat /\ length d = 82%nat /\
  unpack d = if is_initialized m then Ok m else Err ProgramError.UninitializedAccount.
Proof.
  intros Hr Hp. change (in_range m) in Hr. destruct (pack_then_length m d0 d Hr Hp).
  split_and!; try done. by apply (pack_then_unpack m d0).
Qed.

Lemma repack_multisig (m : Multisig) d0 d :
  multisig_in_range m -> pack m d0 = Ok d ->
  length d0 = 355%nat /\ length d = 355%nat /\
  unpack d = if is_initialized m then Ok m else Err ProgramError.UninitializedAccount.
Proof.
  intros Hr Hp. change (in_range m) in Hr. destruct (pack_then_length m d0 d Hr Hp).
  split_and!; try done. by apply (pack_then_unpack m d0).
Qed.

Lemma unpack_account_range d (t : TokenAccount) : unpack d = Ok t -> account_in_range t.
Proof. change (unpack d = Ok t -> in_range t). apply unpack_range. Qed.

Lemma unpack_mint_range d (m : Mint) : unpack d = Ok m -> is_u64 (supply m).
Proof. change (unpack d = Ok m -> in_range m). apply unpack_range. Qed.

(** For token accounts, mints and multisignature accounts, packing an initialized
    value in range into a slice of the right length succeeds and unpacks to the value,
    and packing a value read from a slice back into it changes no byte. *)
Theorem token_state_roundtrip :
  roundtrips (T:=TokenAccount) account_in_range 165 /\
  roundtrips (T:=Mint) (fun m => is_u64 (supply m)) 82 /\
  roundtrips (T:=Multisig) multisig_in_range 355.
Proof.
  split_and!;
    [exact (pack_roundtrips (T:=TokenAccount)) | exact (pack_roundtrips (T:=Mint))
    | exact (pack_roundtrips (T:=Multisig))].
Qed.
