(* ===== verification/TokenInstruction.v ===== *)
(** * SPL token instructions

    [spl-token-3.3.0/src/instruction.rs] and [lib.rs]: the instruction enum, its
    byte encoding and the functions that build instructions. *)

From Stdlib Require Import Strings.Byte.
From S2P Require Import Prelude Sdk TokenState.

(** [declare_id!("TokenkegQfeZyiNwAJbNbGKPFXCWuBvf9Ss623VQ5DA")] *)
Definition spl_token_id : Pubkey :=
  pubkey_of_Z 0x6ddf6e1d765a193d9cbe146ceeb79ac1cb485ed5f5b37913a8cf5857eff00a9.

(** [native_mint::id()] *)
Definition native_mint_id : Pubkey :=
  pubkey_of_Z 0x69b8857feab8184fb687f634618c035dac439dc1aeb3b5598a0f00000000001.

Definition MIN_SIGNERS : nat := 1.

Inductive AuthorityType : Type :=
| MintTokens
| AuthFreezeAccount
| AccountOwner
| AuthCloseAccount.

Inductive TokenInstruction : Type :=
| InitializeMint (decimals : byte) (mint_authority : Pubkey) (freeze_authority : option Pubkey)
| InitializeAccount
| InitializeMultisig (m : byte)
| Transfer (amount : Z)
| Approve (amount : Z)
| Revoke
| SetAuthority (authority_type : AuthorityType) (new_authority : option Pubkey)
| MintTo (amount : Z)
| Burn (amount : Z)
| CloseAccount
| FreezeAccount
| ThawAccount
| TransferChecked (amount : Z) (decimals : byte)
| ApproveChecked (amount : Z) (decimals : byte)
| MintToChecked (amount : Z) (decimals : byte)
| BurnChecked (amount : Z) (decimals : byte)
| InitializeAccount2 (owner : Pubkey)
| SyncNative
| InitializeAccount3 (owner : Pubkey)
| InitializeMultisig2 (m : byte)
| InitializeMint2 (decimals : byte) (mint_authority : Pubkey) (freeze_authority : option Pubkey).

(** [impl AuthorityType] *)
Definition AuthorityType_into (t : AuthorityType) : byte :=
  match t with
  | MintTokens => x00
  | AuthFreezeAccount => x01
  | AccountOwner => x02
  | AuthCloseAccount => x03
  end.

Definition AuthorityType_from (index : byte) : result ProgramError AuthorityType :=
  match index with
  | x00 => Ok MintTokens
  | x01 => Ok AuthFreezeAccount
  | x02 => Ok AccountOwner
  | x03 => Ok AuthCloseAccount
  | _ => Err (token_error InvalidInstruction)
  end.

(** [slice.split_first().ok_or(InvalidInstruction)?] *)
Definition split_first (l : list byte) : result ProgramError (byte * list byte) :=
  match l with b :: l => Ok (b, l) | [] => Err (token_error InvalidInstruction) end.

(** [slice.split_at(n)], which panics when [n] is past the end *)
Definition split_at (n : nat) (l : list byte) : result ProgramError (list byte * list byte) :=
  if (n <=? length l)%nat then Ok (take n l, drop n l) else Panic.

Definition unpack_pubkey (input : list byte) : result ProgramError (Pubkey * list byte) :=
  if (32 <=? length input)%nat then
    '(k, rest) ← split_at 32 input;
    pk ← key_from k;
    Ok (pk, rest)
  else Err (token_error InvalidInstruction).

Definition unpack_pubkey_option (input : list byte)
    : result ProgramError (option Pubkey * list byte) :=
  match input with
  | x00 :: rest => Ok (None, rest)
  | x01 :: rest =>
      if (32 <=? length rest)%nat then
        '(k, rest) ← split_at 32 rest;
        pk ← key_from k;
        Ok (Some pk, rest)
      else Err (token_error InvalidInstruction)
  | _ => Err (token_error InvalidInstruction)
  end.

Definition pack_pubkey_option (value : option Pubkey) : list byte :=
  match value with Some k => x01 :: to_bytes k | None => [x00] end.

(** [rest.get(..8).and_then(..).map(u64::from_le_bytes).ok_or(InvalidInstruction)?] *)
Definition unpack_amount (rest : list byte) : result ProgramError Z :=
  if (8 <=? length rest)%nat then Ok (from_le_bytes (take 8 rest))
  else Err (token_error InvalidInstruction).

(** The amount and the decimals of the [..Checked] instructions. *)
Definition unpack_amount_decimals (rest : list byte) : result ProgramError (Z * byte) :=
  '(amount, rest) ← split_at 8 rest;
  '(decimals, _) ← split_first rest;
  Ok (from_le_bytes amount, decimals).

Definition TokenInstruction_unpack (input : list byte) : result ProgramError TokenInstruction :=
  '(tag, rest) ← split_first input;
  match tag with
  | x00 =>
      '(decimals, rest) ← split_first rest;
      '(mint_authority, rest) ← unpack_pubkey rest;
      '(freeze_authority, _) ← unpack_pubkey_option rest;
      Ok (InitializeMint decimals mint_authority freeze_authority)
  | x01 => Ok InitializeAccount
  | x02 => '(m, _) ← split_first rest; Ok (InitializeMultisig m)
  | x03 => amount ← unpack_amount rest; Ok (Transfer amount)
  | x04 => amount ← unpack_amount rest; Ok (Approve amount)
  | x05 => Ok Revoke
  | x06 =>
      '(t, rest) ← split_first rest;
      authority_type ← AuthorityType_from t;
      '(new_authority, _) ← unpack_pubkey_option rest;
      Ok (SetAuthority authority_type new_authority)
  | x07 => amount ← unpack_amount rest; Ok (MintTo amount)
  | x08 => amount ← unpack_amount rest; Ok (Burn amount)
  | x09 => Ok CloseAccount
  | x0a => Ok FreezeAccount
  | x0b => Ok ThawAccount
  | x0c => '(amount, decimals) ← unpack_amount_decimals rest; Ok (TransferChecked amount decimals)
  | x0d => '(amount, decimals) ← unpack_amount_decimals rest; Ok (ApproveChecked amount decimals)
  | x0e => '(amount, decimals) ← unpack_amount_decimals rest; Ok (MintToChecked amount decimals)
  | x0f => '(amount, decimals) ← unpack_amount_decimals rest; Ok (BurnChecked amount decimals)
  | x10 => '(owner, _) ← unpack_pubkey rest; Ok (InitializeAccount2 owner)
  | x11 => Ok SyncNative
  | x12 => '(owner, _) ← unpack_pubkey rest; Ok (InitializeAccount3 owner)
  | x13 => '(m, _) ← split_first rest; Ok (InitializeMultisig2 m)
  | x14 =>
      '(decimals, rest) ← split_first rest;
      '(mint_authority, rest) ← unpack_pubkey rest;
      '(freeze_authority, _) ← unpack_pubkey_option rest;
      Ok (InitializeMint2 decimals mint_authority freeze_authority)
  | _ => Err (token_error InvalidInstruction)
  end.

Definition TokenInstruction_pack (i : TokenInstruction) : list byte :=
  match i with
  | InitializeMint decimals mint_authority freeze_authority =>
      [x00] ++ [decimals] ++ to_bytes mint_authority ++ pack_pubkey_option freeze_authority
  | InitializeAccount => [x01]
  | InitializeMultisig m => [x02] ++ [m]
  | Transfer amount => [x03] ++ u64_le amount
  | Approve amount => [x04] ++ u64_le amount
  | MintTo amount => [x07] ++ u64_le amount
  | Burn amount => [x08] ++ u64_le amount
  | Revoke => [x05]
  | SetAuthority authority_type new_authority =>
      [x06] ++ [AuthorityType_into authority_type] ++ pack_pubkey_option new_authority
  | CloseAccount => [x09]
  | FreezeAccount => [x0a]
  | ThawAccount => [x0b]
  | TransferChecked amount decimals => [x0c] ++ u64_le amount ++ [decimals]
  | ApproveChecked amount decimals => [x0d] ++ u64_le amount ++ [decimals]
  | MintToChecked amount decimals => [x0e] ++ u64_le amount ++ [decimals]
  | BurnChecked amount decimals => [x0f] ++ u64_le amount ++ [decimals]
  | InitializeAccount2 owner => [x10] ++ to_bytes owner
  | SyncNative => [x11]
  | InitializeAccount3 owner => [x12] ++ to_bytes owner
  | InitializeMultisig2 m => [x13] ++ [m]
  | InitializeMint2 decimals mint_authority freeze_authority =>
      [x14] ++ [decimals] ++ to_bytes mint_authority ++ pack_pubkey_option freeze_authority
  end.

(** [lib.rs] *)
Definition check_program_account (spl_token_program_id : Pubkey) : result ProgramError unit :=
  ensure (key_eqb spl_token_program_id spl_token_id) ProgramError.IncorrectProgramId.

Definition is_valid_signer_index (index : nat) : bool :=
  (MIN_SIGNERS <=? index)%nat && (index <=? MAX_SIGNERS)%nat.

(** ** Builders *)
Definition token_ix (token_program_id : Pubkey) (accounts : list AccountMeta)
    (i : TokenInstruction) : result ProgramError Instruction :=
  check_program_account token_program_id;;
  Ok (mkInstruction token_program_id accounts (TokenInstruction_pack i)).

(** [accounts.push(AccountMeta::new_readonly(authority, signer_pubkeys.is_empty()))], then one
    signer meta per signer *)
Definition authority_metas (authority : Pubkey) (signer_pubkeys : list Pubkey) : list AccountMeta :=
  AccountMeta_new_readonly authority (match signer_pubkeys with [] => true | _ => false end)
  :: ((fun k => AccountMeta_new_readonly k true) <$> signer_pubkeys).

Definition initialize_mint (token_program_id mint_pubkey mint_authority_pubkey : Pubkey)
    (freeze_authority_pubkey : option Pubkey) (decimals : byte) :=
  token_ix token_program_id
    [AccountMeta_new mint_pubkey false; AccountMeta_new_readonly rent_sysvar_id false]
    (InitializeMint decimals mint_authority_pubkey freeze_authority_pubkey).

Definition initialize_mint2 (token_program_id mint_pubkey mint_authority_pubkey : Pubkey)
    (freeze_authority_pubkey : option Pubkey) (decimals : byte) :=
  token_ix token_program_id [AccountMeta_new mint_pubkey false]
    (InitializeMint2 decimals mint_authority_pubkey freeze_authority_pubkey).

Definition initialize_account (token_program_id account_pubkey mint_pubkey owner_pubkey : Pubkey) :=
  token_ix token_program_id
    [AccountMeta_new account_pubkey false; AccountMeta_new_readonly mint_pubkey false;
     AccountMeta_new_readonly owner_pubkey false; AccountMeta_new_readonly rent_sysvar_id false]
    InitializeAccount.

Definition initialize_account2 (token_program_id account_pubkey mint_pubkey owner_pubkey : Pubkey) :=
  token_ix token_program_id
    [AccountMeta_new account_pubkey false; AccountMeta_new_readonly mint_pubkey false;
     AccountMeta_new_readonly rent_sysvar_id false]
    (InitializeAccount2 owner_pubkey).

Definition initialize_account3 (token_program_id account_pubkey mint_pubkey owner_pubkey : Pubkey) :=
  token_ix token_program_id
    [AccountMeta_new account_pubkey false; AccountMeta_new_readonly mint_pubkey false]
    (InitializeAccount3 owner_pubkey).

Definition multisig_args_ok (signer_pubkeys : list Pubkey) (m : byte) : bool :=
  is_valid_signer_index (Z.to_nat (u8_val m)) && is_valid_signer_index (length signer_pubkeys)
  && (Z.to_nat (u8_val m) <=? length signer_pubkeys)%nat.

Definition initialize_multisig (token_program_id multisig_pubkey : Pubkey)
    (signer_pubkeys : list Pubkey) (m : byte) : result ProgramError Instruction :=
  check_program_account token_program_id;;
  ensure (multisig_args_ok signer_pubkeys m) ProgramError.MissingRequiredSignature;;
  Ok (mkInstruction token_program_id
    (AccountMeta_new multisig_pubkey false :: AccountMeta_new_readonly rent_sysvar_id false ::
     ((fun k => AccountMeta_new_readonly k false) <$> signer_pubkeys))
    (TokenInstruction_pack (InitializeMultisig m))).

Definition initialize_multisig2 (token_program_id multisig_pubkey : Pubkey)
    (signer_pubkeys : list Pubkey) (m : byte) : result ProgramError Instruction :=
  check_program_account token_program_id;;
  ensure (multisig_args_ok signer_pubkeys m) ProgramError.MissingRequiredSignature;;
  Ok (mkInstruction token_program_id
    (AccountMeta_new multisig_pubkey false ::
     ((fun k => AccountMeta_new_readonly k false) <$> signer_pubkeys))
    (TokenInstruction_pack (InitializeMultisig2 m))).

Definition transfer (token_program_id source_pubkey destination_pubkey authority_pubkey : Pubkey)
    (signer_pubkeys : list Pubkey) (amount : Z) :=
  token_ix token_program_id
    (AccountMeta_new source_pubkey false :: AccountMeta_new destination_pubkey false
     :: authority_metas authority_pubkey signer_pubkeys)
    (Transfer amount).

Definition approve (token_program_id source_pubkey delegate_pubkey owner_pubkey : Pubkey)
    (signer_pubkeys : list Pubkey) (amount : Z) :=
  token_ix token_program_id
    (AccountMeta_new source_pubkey false :: AccountMeta_new_readonly delegate_pubkey false
     :: authority_metas owner_pubkey signer_pubkeys)
    (Approve amount).

Definition revoke (token_program_id source_pubkey owner_pubkey : Pubkey)
    (signer_pubkeys : list Pubkey) :=
  token_ix token_program_id
    (AccountMeta_new source_pubkey false :: authority_metas owner_pubkey signer_pubkeys) Revoke.

Definition set_authority (token_program_id owned_pubkey : Pubkey)
    (new_authority_pubkey : option Pubkey) (authority_type : AuthorityType)
    (owner_pubkey : Pubkey) (signer_pubkeys : list Pubkey) :=
  token_ix token_program_id
    (AccountMeta_new owned_pubkey false :: authority_metas owner_pubkey signer_pubkeys)
    (SetAuthority authority_type new_authority_pubkey).

Definition mint_to (token_program_id mint_pubkey account_pubkey owner_pubkey : Pubkey)
    (signer_pubkeys : list Pubkey) (amount : Z) :=
  token_ix token_program_id
    (AccountMeta_new mint_pubkey false :: AccountMeta_new account_pubkey false
     :: authority_metas owner_pubkey signer_pubkeys)
    (MintTo amount).

Definition burn (token_program_id account_pubkey mint_pubkey authority_pubkey : Pubkey)
    (signer_pubkeys : list Pubkey) (amount : Z) :=
  token_ix token_program_id
    (AccountMeta_new account_pubkey false :: AccountMeta_new mint_pubkey false
     :: authority_metas authority_pubkey signer_pubkeys)
    (Burn amount).

Definition close_account (token_program_id account_pubkey destination_pubkey owner_pubkey : Pubkey)
    (signer_pubkeys : list Pubkey) :=
  token_ix token_program_id
    (AccountMeta_new account_pubkey false :: AccountMeta_new destination_pubkey false
     :: authority_metas owner_pubkey signer_pubkeys)
    CloseAccount.

Definition freeze_account (token_program_id account_pubkey mint_pubkey owner_pubkey : Pubkey)
    (signer_pubkeys : list Pubkey) :=
  token_ix token_program_id
    (AccountMeta_new account_pubkey false :: AccountMeta_new_readonly mint_pubkey false
     :: authority_metas owner_pubkey signer_pubkeys)
    FreezeAccount.

Definition thaw_account (token_program_id account_pubkey mint_pubkey owner_pubkey : Pubkey)
    (signer_pubkeys : list Pubkey) :=
  token_ix token_program_id
    (AccountMeta_new account_pubkey false :: AccountMeta_new_readonly mint_pubkey false
     :: authority_metas owner_pubkey signer_pubkeys)
    ThawAccount.

Definition transfer_checked
    (token_program_id source_pubkey mint_pubkey destination_pubkey authority_pubkey : Pubkey)
    (signer_pubkeys : list Pubkey) (amount : Z) (decimals : byte) :=
  token_ix token_program_id
    (AccountMeta_new source_pubkey false :: AccountMeta_new_readonly mint_pubkey false
     :: AccountMeta_new destination_pubkey false :: authority_metas authority_pubkey signer_pubkeys)
    (TransferChecked amount decimals).

Definition approve_checked
    (token_program_id source_pubkey mint_pubkey delegate_pubkey owner_pubkey : Pubkey)
    (signer_pubkeys : list Pubkey) (amount : Z) (decimals : byte) :=
  token_ix token_program_id
    (AccountMeta_new source_pubkey false :: AccountMeta_new_readonly mint_pubkey false
     :: AccountMeta_new_readonly delegate_pubkey false :: authority_metas owner_pubkey signer_pubkeys)
    (ApproveChecked amount decimals).

Definition mint_to_checked (token_program_id mint_pubkey account_pubkey owner_pubkey : Pubkey)
    (signer_pubkeys : list Pubkey) (amount : Z) (decimals : byte) :=
  token_ix token_program_id
    (AccountMeta_new mint_pubkey false :: AccountMeta_new account_pubkey false
     :: authority_metas owner_pubkey signer_pubkeys)
    (MintToChecked amount decimals).

Definition burn_checked (token_program_id account_pubkey mint_pubkey authority_pubkey : Pubkey)
    (signer_pubkeys : list Pubkey) (amount : Z) (decimals : byte) :=
  token_ix token_program_id
    (AccountMeta_new account_pubkey false :: AccountMeta_new mint_pubkey false
     :: authority_metas authority_pubkey signer_pubkeys)
    (BurnChecked amount decimals).

Definition sync_native (token_program_id account_pubkey : Pubkey) :=
  token_ix token_program_id [AccountMeta_new account_pubkey false] SyncNative.

(** ** Properties *)
Definition token_instruction_in_range (i : TokenInstruction) : Prop :=
  match i with
  | Transfer a | Approve a | MintTo a | Burn a | TransferChecked a _ | ApproveChecked a _
  | MintToChecked a _ | BurnChecked a _ => is_u64 a
  | _ => True
  end.

Lemma unpack_pubkey_ok k l : unpack_pubkey (to_bytes k ++ l) = Ok (k, l).
Proof.
  unfold unpack_pubkey, split_at. rewrite length_app, length_to_bytes. cbn [Nat.leb Nat.add].
  cbn [mbind result_bind].
  rewrite take_app_length', drop_app_length' by (by rewrite length_to_bytes).
  by rewrite (proj2 (key_from_ok _ _) eq_refl).
Qed.

Lemma unpack_pubkey_option_ok o l : unpack_pubkey_option (pack_pubkey_option o ++ l) = Ok (o, l).
Proof.
  destruct o as [k|]; [|done]. cbn [pack_pubkey_option unpack_pubkey_option app].
  unfold split_at. rewrite length_app, length_to_bytes. cbn [Nat.leb Nat.add mbind result_bind].
  rewrite take_app_length', drop_app_length' by (by rewrite length_to_bytes).
  by rewrite (proj2 (key_from_ok _ _) eq_refl).
Qed.

Lemma unpack_amount_ok a l : is_u64 a -> unpack_amount (u64_le a ++ l) = Ok a.
Proof.
  intros. unfold unpack_amount. rewrite length_app, length_u64_le. cbn [Nat.leb Nat.add].
  rewrite take_app_length' by (by rewrite length_u64_le). by rewrite from_u64_le.
Qed.

Lemma unpack_amount_decimals_ok a d l :
  is_u64 a -> unpack_amount_decimals (u64_le a ++ [d] ++ l) = Ok (a, d).
Proof.
  intros. unfold unpack_amount_decimals, split_at. rewrite length_app, length_u64_le.
  cbn [Nat.leb Nat.add mbind result_bind].
  rewrite take_app_length', drop_app_length' by (by rewrite length_u64_le).
  cbn [split_first app mbind result_bind]. by rewrite from_u64_le.
Qed.

Lemma split_at_ok n l a b : split_at n l = Ok (a, b) <-> (n <= length l)%nat /\ a = take n l /\ b = drop n l.
Proof. unfold split_at. destruct (Nat.leb_spec n (length l)); naive_solver lia. Qed.

Lemma unpack_amount_range rest a : unpack_amount rest = Ok a -> is_u64 a.
Proof.
  unfold unpack_amount. destruct (Nat.leb_spec 8 (length rest)); [|done]. intros [= <-].
  apply from_le_bytes_u64. rewrite length_take. lia.
Qed.

Lemma unpack_amount_decimals_range rest a d : unpack_amount_decimals rest = Ok (a, d) -> is_u64 a.
Proof.
  unfold unpack_amount_decimals. intros H. apply result_bind_ok in H as ([x y] & H1 & H).
  apply split_at_ok in H1 as (Hl & -> & ->). apply result_bind_ok in H as ([? ?] & _ & [= <- <-]).
  apply from_le_bytes_u64. rewrite length_take. lia.
Qed.

(** Decoded amounts are [u64]s. *)
Lemma token_unpack_in_range input i :
  TokenInstruction_unpack input = Ok i -> token_instruction_in_range i.
Proof.
  unfold TokenInstruction_unpack. intros H. apply result_bind_ok in H as ([tag rest] & _ & H).
  destruct tag; try discriminate H;
    repeat match type of H with
    | Ok _ = Ok _ => injection H as <-
    | mbind _ ?m = Ok _ =>
        let x := fresh "x" in let Hx := fresh "Hx" in
        apply result_bind_ok in H as (x & Hx & H);
        lazymatch type of x with prod _ _ => destruct x; cbv beta iota in H | _ => idtac end
    end; try exact I;
    first [ by eapply unpack_amount_range | by eapply unpack_amount_decimals_range ].
Qed.

Lemma token_unpack_pack (i : TokenInstruction) (l : list byte) :
  token_instruction_in_range i ->
  TokenInstruction_unpack (TokenInstruction_pack i ++ l) = Ok i.
Proof.
  intros Hi. destruct i; cbn [token_instruction_in_range] in Hi;
    cbn [TokenInstruction_pack]; rewrite <-?app_assoc; cbn [app];
    unfold TokenInstruction_unpack; cbn [split_first mbind result_bind];
    rewrite ?unpack_pubkey_ok; cbn [mbind result_bind];
    rewrite ?unpack_amount_ok, ?unpack_pubkey_option_ok by done;
    try reflexivity.
  - by destruct authority_type.
  - by setoid_rewrite unpack_amount_decimals_ok.
  - by setoid_rewrite unpack_amount_decimals_ok.
  - by setoid_rewrite unpack_amount_decimals_ok.
  - by setoid_rewrite unpack_amount_decimals_ok.
Qed.

(** Unpacking the packed form of any token instruction with arguments in range,
    followed by any bytes, gives the instruction back. *)
Theorem token_instruction_roundtrip (i : TokenInstruction) (l : list byte)
    (Hi : token_instruction_in_range i) :
  TokenInstruction_unpack (TokenInstruction_pack i ++ l) = Ok i.
Proof. by apply token_unpack_pack. Qed.

Lemma token_instruction_roundtrip_witness :
  TokenInstruction_unpack
    (TokenInstruction_pack (TransferChecked 1234567 x09) ++ [xff; xff])
  = Ok (TransferChecked 1234567 x09).
Proof. apply token_instruction_roundtrip. by apply is_u64b_spec. Defined.

(** C40: Unpacking a checked transfer, approve, mint or burn instruction with fewer than
    eight bytes after the tag panics in split_at instead of returning the
    InvalidInstruction error the other arms return. *)
Theorem checked_instruction_panics (tag : byte) (rest : list byte)
    (Htag : In tag [x0c; x0d; x0e; x0f]) (Hrest : (length rest < 8)%nat) :
  TokenInstruction_unpack (tag :: rest) = Panic.
Proof.
  assert (unpack_amount_decimals rest = Panic) as Hp.
  { unfold unpack_amount_decimals, split_at. by rewrite (proj2 (Nat.leb_gt _ _) Hrest). }
  cbn in Htag. destruct Htag as [<-|[<-|[<-|[<-|[]]]]];
    unfold TokenInstruction_unpack; cbn; by rewrite Hp.
Qed.

Lemma checked_instruction_panics_witness : TokenInstruction_unpack [x0c; x01] = Panic.
Proof. apply checked_instruction_panics; cbn; [auto|lia]. Defined.
