(* ===== verification/TokenProcessor.v ===== *)
(** * The SPL token program

    [spl-token-3.3.0/src/processor.rs]: every handler of [Processor] and the
    dispatcher [process].  The handlers read and write the account cells; they
    call no other program. *)

From Stdlib Require Import Strings.Byte.
From S2P Require Import Prelude Sdk Rent Program TokenState TokenInstruction.

(** ** Field updates *)
Definition with_amount (a : TokenAccount) (x : Z) : TokenAccount :=
  mkTokenAccount (ta_mint a) (ta_owner a) x (ta_delegate a) (ta_state a) (ta_is_native a)
    (ta_delegated_amount a) (ta_close_authority a).
Definition with_delegate (a : TokenAccount) (d : option Pubkey) (x : Z) : TokenAccount :=
  mkTokenAccount (ta_mint a) (ta_owner a) (ta_amount a) d (ta_state a) (ta_is_native a)
    x (ta_close_authority a).
Definition with_state (a : TokenAccount) (s : AccountState) : TokenAccount :=
  mkTokenAccount (ta_mint a) (ta_owner a) (ta_amount a) (ta_delegate a) s (ta_is_native a)
    (ta_delegated_amount a) (ta_close_authority a).
Definition with_owner (a : TokenAccount) (o : Pubkey) : TokenAccount :=
  mkTokenAccount (ta_mint a) o (ta_amount a) (ta_delegate a) (ta_state a) (ta_is_native a)
    (ta_delegated_amount a) (ta_close_authority a).
Definition with_close_authority (a : TokenAccount) (c : option Pubkey) : TokenAccount :=
  mkTokenAccount (ta_mint a) (ta_owner a) (ta_amount a) (ta_delegate a) (ta_state a)
    (ta_is_native a) (ta_delegated_amount a) c.
Definition with_supply (m : Mint) (x : Z) : Mint :=
  mkMint (mint_authority m) x (decimals m) (mint_is_initialized m) (freeze_authority m).

Section token.
Context {SV : Sysvars}.

(** [return Err(TokenError::e.into())] unless [b] *)
Definition require (b : bool) (e : TokenError) : ProgM unit := lift (ensure b (token_error e)).
Definition fail_with {A} (e : TokenError) : ProgM A := lift (Err (token_error e)).
Definition checked {A} (o : option A) (e : TokenError) : ProgM A := lift (ok_or o (token_error e)).

(** [T::unpack(&info.data.borrow())?], [T::unpack_unchecked(..)?] and
    [T::pack(x, &mut info.data.borrow_mut())?] *)
Definition unpack_cell {T} `{Pack T} (i : AccountInfo) : ProgM T :=
  d ← data i; lift (unpack d).
Definition unpack_unchecked_cell {T} `{Pack T} (i : AccountInfo) : ProgM T :=
  d ← data i; lift (unpack_unchecked d).
Definition pack_cell {T} `{Pack T} (x : T) (i : AccountInfo) : ProgM unit :=
  d ← data i; d' ← lift (pack x d); set_data i d'.

Definition cmp_pubkeys (a b : Pubkey) : bool := key_eqb a b.

Definition check_account_owner (program_id : Pubkey) (account_info : AccountInfo) : ProgM unit :=
  o ← owner account_info;
  if negb (cmp_pubkeys program_id o) then lift (Err ProgramError.IncorrectProgramId)
  else mret tt.

(** The inner loop of [validate_owner] for one signer: [keys] and [matched] from
    the current position on. *)
Fixpoint match_signer (signer : AccountInfo) (keys : list Pubkey) (matched : list bool)
    (num_signers : Z) : result ProgramError (list bool * Z) :=
  match keys, matched with
  | [], _ => Ok (matched, num_signers)
  | _ :: _, [] => Panic
  | k :: keys, m :: matched =>
      if cmp_pubkeys k (key signer) && negb m then
        if negb (is_signer signer) then Err ProgramError.MissingRequiredSignature
        else
          '(matched, num_signers) ← match_signer signer keys matched (num_signers + 1);
          Ok (true :: matched, num_signers)
      else
        '(matched, num_signers) ← match_signer signer keys matched num_signers;
        Ok (m :: matched, num_signers)
  end.

(** The outer loop; the slice [signers[0..n]] is taken anew for every signer. *)
Fixpoint match_signers (signers : list AccountInfo) (multisig : Multisig) (matched : list bool)
    (num_signers : Z) : result ProgramError Z :=
  match signers with
  | [] => Ok num_signers
  | signer :: signers =>
      let n := Z.to_nat (u8_val (ms_n multisig)) in
      keys ← if (n <=? MAX_SIGNERS)%nat then Ok (take n (ms_signers multisig)) else Panic;
      '(matched, num_signers) ← match_signer signer keys matched num_signers;
      match_signers signers multisig matched num_signers
  end.

Definition validate_owner (program_id expected_owner : Pubkey) (owner_account_info : AccountInfo)
    (signers : list AccountInfo) : ProgM unit :=
  require (cmp_pubkeys expected_owner (key owner_account_info)) OwnerMismatch;;
  o ← owner owner_account_info;
  len ← data_len owner_account_info;
  if cmp_pubkeys program_id o && (len =? Z.of_nat (LEN (T:=Multisig))) then
    multisig ← unpack_cell (T:=Multisig) owner_account_info;
    num_signers ← lift (match_signers signers multisig (replicate MAX_SIGNERS false) 0);
    lift (ensure (negb (num_signers <? u8_val (ms_m multisig)))
            ProgramError.MissingRequiredSignature)
  else lift (ensure (is_signer owner_account_info) ProgramError.MissingRequiredSignature).

(** The rent argument: a sysvar account taken from the iterator, or the syscall. *)
Definition take_rent (rent_sysvar_account : bool) (iter : list AccountInfo)
    : ProgM (Rent * list AccountInfo) :=
  if rent_sysvar_account then
    '(rent_info, iter) ← lift (next_account_info iter);
    rent ← Rent_from_account_info rent_info;
    mret (rent, iter)
  else rent ← Rent_get; mret (rent, iter).

Definition _process_initialize_mint (accounts : list AccountInfo) (decimals : byte)
    (mint_authority : Pubkey) (freeze_authority : option Pubkey) (rent_sysvar_account : bool)
    : ProgM unit :=
  '(mint_info, iter) ← lift (next_account_info accounts);
  mint_data_len ← data_len mint_info;
  '(rent, _) ← take_rent rent_sysvar_account iter;
  mint ← unpack_unchecked_cell (T:=Mint) mint_info;
  require (negb (mint_is_initialized mint)) AlreadyInUse;;
  l ← lamports mint_info;
  require (is_exempt rent l mint_data_len) NotRentExempt;;
  pack_cell (mkMint (Some mint_authority) (supply mint) decimals true freeze_authority) mint_info.

Definition process_initialize_mint (accounts : list AccountInfo) (decimals : byte)
    (mint_authority : Pubkey) (freeze_authority : option Pubkey) : ProgM unit :=
  _process_initialize_mint accounts decimals mint_authority freeze_authority true.

Definition process_initialize_mint2 (accounts : list AccountInfo) (decimals : byte)
    (mint_authority : Pubkey) (freeze_authority : option Pubkey) : ProgM unit :=
  _process_initialize_mint accounts decimals mint_authority freeze_authority false.

Definition _process_initialize_account (program_id : Pubkey) (accounts : list AccountInfo)
    (owner_arg : option Pubkey) (rent_sysvar_account : bool) : ProgM unit :=
  '(new_account_info, iter) ← lift (next_account_info accounts);
  '(mint_info, iter) ← lift (next_account_info iter);
  '(own, iter) ←
    match owner_arg with
    | Some o => mret (o, iter)
    | None => '(i, iter) ← lift (next_account_info iter); mret (key i, iter)
    end;
  new_account_info_data_len ← data_len new_account_info;
  '(rent, _) ← take_rent rent_sysvar_account iter;
  account ← unpack_unchecked_cell (T:=TokenAccount) new_account_info;
  require (negb (is_initialized account)) AlreadyInUse;;
  l ← lamports new_account_info;
  require (is_exempt rent l new_account_info_data_len) NotRentExempt;;
  let is_native_mint := cmp_pubkeys (key mint_info) native_mint_id in
  (if negb is_native_mint then
     check_account_owner program_id mint_info;;
     d ← data mint_info;
     lift (match unpack (T:=Mint) d with
           | Ok _ => Ok tt
           | Err _ => Err (token_error InvalidMint)
           | Panic => Panic
           end)
   else mret tt);;
  '(native, amount) ←
    (if is_native_mint then
       let rent_exempt_reserve := minimum_balance rent new_account_info_data_len in
       l ← lamports new_account_info;
       amount ← checked (checked_sub l rent_exempt_reserve) Overflow;
       mret (Some rent_exempt_reserve, amount)
     else mret (None, 0));
  pack_cell
    (mkTokenAccount (key mint_info) own amount None Initialized native 0
       (ta_close_authority account))
    new_account_info.

Definition process_initialize_account (program_id : Pubkey) (accounts : list AccountInfo) :=
  _process_initialize_account program_id accounts None true.
Definition process_initialize_account2 (program_id : Pubkey) (accounts : list AccountInfo)
    (owner : Pubkey) :=
  _process_initialize_account program_id accounts (Some owner) true.
Definition process_initialize_account3 (program_id : Pubkey) (accounts : list AccountInfo)
    (owner : Pubkey) :=
  _process_initialize_account program_id accounts (Some owner) false.

(** [multisig.signers[i] = *signer_info.key] for every signer; an index past the
    array is a panic. *)
Definition write_signers (old new : list Pubkey) : result ProgramError (list Pubkey) :=
  if (length new <=? length old)%nat then Ok (new ++ drop (length new) old) else Panic.

Definition _process_initialize_multisig (accounts : list AccountInfo) (m : byte)
    (rent_sysvar_account : bool) : ProgM unit :=
  '(multisig_info, iter) ← lift (next_account_info accounts);
  multisig_info_data_len ← data_len multisig_info;
  '(rent, signer_infos) ← take_rent rent_sysvar_account iter;
  multisig ← unpack_unchecked_cell (T:=Multisig) multisig_info;
  require (negb (ms_is_initialized multisig)) AlreadyInUse;;
  l ← lamports multisig_info;
  require (is_exempt rent l multisig_info_data_len) NotRentExempt;;
  let n := u8_of (Z.of_nat (length signer_infos)) in
  require (is_valid_signer_index (Z.to_nat (u8_val n))) InvalidNumberOfProvidedSigners;;
  require (is_valid_signer_index (Z.to_nat (u8_val m))) InvalidNumberOfRequiredSigners;;
  signers ← lift (write_signers (ms_signers multisig) (key <$> signer_infos));
  pack_cell (mkMultisig m n true signers) multisig_info.

Definition process_initialize_multisig (accounts : list AccountInfo) (m : byte) :=
  _process_initialize_multisig accounts m true.
Definition process_initialize_multisig2 (accounts : list AccountInfo) (m : byte) :=
  _process_initialize_multisig accounts m false.

(** [if let Some(expected_decimals) = expected_decimals { Some((next_account_info(..)?, ..)) }] *)
Definition take_mint (expected_decimals : option byte) (iter : list AccountInfo)
    : result ProgramError (option (AccountInfo * byte) * list AccountInfo) :=
  match expected_decimals with
  | Some d => '(mint_info, iter) ← next_account_info iter; Ok (Some (mint_info, d), iter)
  | None => Ok (None, iter)
  end.

(** The check of the expected mint in [process_transfer] and [process_approve]. *)
Definition check_mint (expected_mint_info : option (AccountInfo * byte)) (mint_key : Pubkey)
    : ProgM unit :=
  match expected_mint_info with
  | Some (mint_info, expected_decimals) =>
      require (cmp_pubkeys (key mint_info) mint_key) MintMismatch;;
      mint ← unpack_cell (T:=Mint) mint_info;
      require (u8_eqb expected_decimals (decimals mint)) MintDecimalsMismatch
  | None => mret tt
  end.

(** The [match source_account.delegate] of [process_transfer] and [process_burn]:
    validates the authority and gives the source account with its allowance
    reduced ([self_transfer] is [false] for a burn). *)
Definition authorize_spend (program_id : Pubkey) (source_account : TokenAccount)
    (authority_info : AccountInfo) (signers : list AccountInfo) (amount : Z)
    (self_transfer : bool) : ProgM TokenAccount :=
  let as_owner :=
    validate_owner program_id (ta_owner source_account) authority_info signers;;
    mret source_account in
  match ta_delegate source_account with
  | Some delegate =>
      if cmp_pubkeys (key authority_info) delegate then
        validate_owner program_id delegate authority_info signers;;
        require (negb (ta_delegated_amount source_account <? amount)) InsufficientFunds;;
        if self_transfer then mret source_account
        else
          x ← checked (checked_sub (ta_delegated_amount source_account) amount) Overflow;
          mret (with_delegate source_account (if x =? 0 then None else Some delegate) x)
      else as_owner
  | None => as_owner
  end.

Definition process_transfer (program_id : Pubkey) (accounts : list AccountInfo) (amount : Z)
    (expected_decimals : option byte) : ProgM unit :=
  '(source_account_info, iter) ← lift (next_account_info accounts);
  '(expected_mint_info, iter) ← lift (take_mint expected_decimals iter);
  '(dest_account_info, iter) ← lift (next_account_info iter);
  '(authority_info, signers) ← lift (next_account_info iter);
  source_account ← unpack_cell (T:=TokenAccount) source_account_info;
  dest_account ← unpack_cell (T:=TokenAccount) dest_account_info;
  require (negb (is_frozen source_account || is_frozen dest_account)) AccountFrozen;;
  require (negb (ta_amount source_account <? amount)) InsufficientFunds;;
  require (cmp_pubkeys (ta_mint source_account) (ta_mint dest_account)) MintMismatch;;
  check_mint expected_mint_info (ta_mint source_account);;
  let self_transfer := cmp_pubkeys (key source_account_info) (key dest_account_info) in
  source_account ←
    authorize_spend program_id source_account authority_info signers amount self_transfer;
  (if self_transfer || (amount =? 0) then
     check_account_owner program_id source_account_info;;
     check_account_owner program_id dest_account_info
   else mret tt);;
  if self_transfer then mret tt
  else
    source_amount ← checked (checked_sub (ta_amount source_account) amount) Overflow;
    dest_amount ← checked (checked_add (ta_amount dest_account) amount) Overflow;
    (if is_native source_account then
       source_starting_lamports ← lamports source_account_info;
       l ← checked (checked_sub source_starting_lamports amount) Overflow;
       set_lamports source_account_info l;;
       dest_starting_lamports ← lamports dest_account_info;
       l ← checked (checked_add dest_starting_lamports amount) Overflow;
       set_lamports dest_account_info l
     else mret tt);;
    pack_cell (with_amount source_account source_amount) source_account_info;;
    pack_cell (with_amount dest_account dest_amount) dest_account_info.

Definition process_approve (program_id : Pubkey) (accounts : list AccountInfo) (amount : Z)
    (expected_decimals : option byte) : ProgM unit :=
  '(source_account_info, iter) ← lift (next_account_info accounts);
  '(expected_mint_info, iter) ← lift (take_mint expected_decimals iter);
  '(delegate_info, iter) ← lift (next_account_info iter);
  '(owner_info, signers) ← lift (next_account_info iter);
  source_account ← unpack_cell (T:=TokenAccount) source_account_info;
  require (negb (is_frozen source_account)) AccountFrozen;;
  check_mint expected_mint_info (ta_mint source_account);;
  validate_owner program_id (ta_owner source_account) owner_info signers;;
  pack_cell (with_delegate source_account (Some (key delegate_info)) amount) source_account_info.

Definition process_revoke (program_id : Pubkey) (accounts : list AccountInfo) : ProgM unit :=
  '(source_account_info, iter) ← lift (next_account_info accounts);
  source_account ← unpack_cell (T:=TokenAccount) source_account_info;
  '(owner_info, signers) ← lift (next_account_info iter);
  require (negb (is_frozen source_account)) AccountFrozen;;
  validate_owner program_id (ta_owner source_account) owner_info signers;;
  pack_cell (with_delegate source_account None 0) source_account_info.

(** The [AccountOwner] and [CloseAccount] branches on a token account, and the
    [MintTokens] and [FreezeAccount] branches on a mint. *)
Definition set_account_authority (program_id : Pubkey) (account : TokenAccount)
    (authority_info : AccountInfo) (signers : list AccountInfo) (authority_type : AuthorityType)
    (new_authority : option Pubkey) : ProgM TokenAccount :=
  match authority_type with
  | AccountOwner =>
      validate_owner program_id (ta_owner account) authority_info signers;;
      match new_authority with
      | Some authority =>
          let account := with_delegate (with_owner account authority) None 0 in
          mret (if is_native account then with_close_authority account None else account)
      | None => fail_with InvalidInstruction
      end
  | AuthCloseAccount =>
      let authority := default (ta_owner account) (ta_close_authority account) in
      validate_owner program_id authority authority_info signers;;
      mret (with_close_authority account new_authority)
  | _ => fail_with AuthorityTypeNotSupported
  end.

Definition set_mint_authority (program_id : Pubkey) (mint : Mint)
    (authority_info : AccountInfo) (signers : list AccountInfo) (authority_type : AuthorityType)
    (new_authority : option Pubkey) : ProgM Mint :=
  match authority_type with
  | MintTokens =>
      ma ← checked (mint_authority mint) FixedSupply;
      validate_owner program_id ma authority_info signers;;
      mret (mkMint new_authority (supply mint) (decimals mint) (mint_is_initialized mint)
              (freeze_authority mint))
  | AuthFreezeAccount =>
      fa ← checked (freeze_authority mint) MintCannotFreeze;
      validate_owner program_id fa authority_info signers;;
      mret (mkMint (mint_authority mint) (supply mint) (decimals mint) (mint_is_initialized mint)
              new_authority)
  | _ => fail_with AuthorityTypeNotSupported
  end.

Definition process_set_authority (program_id : Pubkey) (accounts : list AccountInfo)
    (authority_type : AuthorityType) (new_authority : option Pubkey) : ProgM unit :=
  '(account_info, iter) ← lift (next_account_info accounts);
  '(authority_info, signers) ← lift (next_account_info iter);
  len ← data_len account_info;
  if len =? Z.of_nat (LEN (T:=TokenAccount)) then
    account ← unpack_cell (T:=TokenAccount) account_info;
    require (negb (is_frozen account)) AccountFrozen;;
    account ← set_account_authority program_id account authority_info signers authority_type
                new_authority;
    pack_cell account account_info
  else if len =? Z.of_nat (LEN (T:=Mint)) then
    mint ← unpack_cell (T:=Mint) account_info;
    mint ← set_mint_authority program_id mint authority_info signers authority_type new_authority;
    pack_cell mint account_info
  else lift (Err ProgramError.InvalidArgument).

Definition process_mint_to (program_id : Pubkey) (accounts : list AccountInfo) (amount : Z)
    (expected_decimals : option byte) : ProgM unit :=
  '(mint_info, iter) ← lift (next_account_info accounts);
  '(dest_account_info, iter) ← lift (next_account_info iter);
  '(owner_info, signers) ← lift (next_account_info iter);
  dest_account ← unpack_cell (T:=TokenAccount) dest_account_info;
  require (negb (is_frozen dest_account)) AccountFrozen;;
  require (negb (is_native dest_account)) NativeNotSupported;;
  require (cmp_pubkeys (key mint_info) (ta_mint dest_account)) MintMismatch;;
  mint ← unpack_cell (T:=Mint) mint_info;
  (match expected_decimals with
   | Some d => require (u8_eqb d (decimals mint)) MintDecimalsMismatch
   | None => mret tt
   end);;
  (match mint_authority mint with
   | Some ma => validate_owner program_id ma owner_info signers
   | None => fail_with FixedSupply
   end);;
  (if amount =? 0 then
     check_account_owner program_id mint_info;;
     check_account_owner program_id dest_account_info
   else mret tt);;
  dest_amount ← checked (checked_add (ta_amount dest_account) amount) Overflow;
  new_supply ← checked (checked_add (supply mint) amount) Overflow;
  pack_cell (with_amount dest_account dest_amount) dest_account_info;;
  pack_cell (with_supply mint new_supply) mint_info.

Definition process_burn (program_id : Pubkey) (accounts : list AccountInfo) (amount : Z)
    (expected_decimals : option byte) : ProgM unit :=
  '(source_account_info, iter) ← lift (next_account_info accounts);
  '(mint_info, iter) ← lift (next_account_info iter);
  '(authority_info, signers) ← lift (next_account_info iter);
  source_account ← unpack_cell (T:=TokenAccount) source_account_info;
  mint ← unpack_cell (T:=Mint) mint_info;
  require (negb (is_frozen source_account)) AccountFrozen;;
  require (negb (is_native source_account)) NativeNotSupported;;
  require (negb (ta_amount source_account <? amount)) InsufficientFunds;;
  require (cmp_pubkeys (key mint_info) (ta_mint source_account)) MintMismatch;;
  (match expected_decimals with
   | Some d => require (u8_eqb d (decimals mint)) MintDecimalsMismatch
   | None => mret tt
   end);;
  source_account ←
    authorize_spend program_id source_account authority_info signers amount false;
  (if amount =? 0 then
     check_account_owner program_id source_account_info;;
     check_account_owner program_id mint_info
   else mret tt);;
  source_amount ← checked (checked_sub (ta_amount source_account) amount) Overflow;
  new_supply ← checked (checked_sub (supply mint) amount) Overflow;
  pack_cell (with_amount source_account source_amount) source_account_info;;
  pack_cell (with_supply mint new_supply) mint_info.

Definition process_close_account (program_id : Pubkey) (accounts : list AccountInfo)
    : ProgM unit :=
  '(source_account_info, iter) ← lift (next_account_info accounts);
  '(dest_account_info, iter) ← lift (next_account_info iter);
  '(authority_info, signers) ← lift (next_account_info iter);
  lift (ensure (negb (cmp_pubkeys (key source_account_info) (key dest_account_info)))
          ProgramError.InvalidAccountData);;
  source_account ← unpack_cell (T:=TokenAccount) source_account_info;
  require (negb (negb (is_native source_account) && negb (ta_amount source_account =? 0)))
    NonNativeHasBalance;;
  let authority := default (ta_owner source_account) (ta_close_authority source_account) in
  validate_owner program_id authority authority_info signers;;
  dest_starting_lamports ← lamports dest_account_info;
  source_lamports ← lamports source_account_info;
  l ← checked (checked_add dest_starting_lamports source_lamports) Overflow;
  set_lamports dest_account_info l;;
  set_lamports source_account_info 0;;
  d ← data source_account_info;
  set_data source_account_info (write_prefix (replicate (LEN (T:=TokenAccount)) x00) d).

Definition process_toggle_freeze_account (program_id : Pubkey) (accounts : list AccountInfo)
    (freeze : bool) : ProgM unit :=
  '(source_account_info, iter) ← lift (next_account_info accounts);
  '(mint_info, iter) ← lift (next_account_info iter);
  '(authority_info, signers) ← lift (next_account_info iter);
  source_account ← unpack_cell (T:=TokenAccount) source_account_info;
  require (negb (freeze && is_frozen source_account || negb freeze && negb (is_frozen source_account)))
    InvalidState;;
  require (negb (is_native source_account)) NativeNotSupported;;
  require (cmp_pubkeys (key mint_info) (ta_mint source_account)) MintMismatch;;
  mint ← unpack_cell (T:=Mint) mint_info;
  (match freeze_authority mint with
   | Some authority => validate_owner program_id authority authority_info signers
   | None => fail_with MintCannotFreeze
   end);;
  pack_cell (with_state source_account (if freeze then Frozen else Initialized))
    source_account_info.

Definition process_sync_native (program_id : Pubkey) (accounts : list AccountInfo) : ProgM unit :=
  '(native_account_info, _) ← lift (next_account_info accounts);
  check_account_owner program_id native_account_info;;
  native_account ← unpack_cell (T:=TokenAccount) native_account_info;
  match ta_is_native native_account with
  | Some rent_exempt_reserve =>
      l ← lamports native_account_info;
      new_amount ← checked (checked_sub l rent_exempt_reserve) Overflow;
      require (negb (new_amount <? ta_amount native_account)) InvalidState;;
      pack_cell (with_amount native_account new_amount) native_account_info
  | None => fail_with NonNativeNotSupported
  end.

Definition process (program_id : Pubkey) (accounts : list AccountInfo) (input : list byte)
    : ProgM unit :=
  instruction ← lift (TokenInstruction_unpack input);
  match instruction with
  | InitializeMint decimals mint_authority freeze_authority =>
      process_initialize_mint accounts decimals mint_authority freeze_authority
  | InitializeMint2 decimals mint_authority freeze_authority =>
      process_initialize_mint2 accounts decimals mint_authority freeze_authority
  | InitializeAccount => process_initialize_account program_id accounts
  | InitializeAccount2 owner => process_initialize_account2 program_id accounts owner
  | InitializeAccount3 owner => process_initialize_account3 program_id accounts owner
  | InitializeMultisig m => process_initialize_multisig accounts m
  | InitializeMultisig2 m => process_initialize_multisig2 accounts m
  | Transfer amount => process_transfer program_id accounts amount None
  | Approve amount => process_approve program_id accounts amount None
  | Revoke => process_revoke program_id accounts
  | SetAuthority authority_type new_authority =>
      process_set_authority program_id accounts authority_type new_authority
  | MintTo amount => process_mint_to program_id accounts amount None
  | Burn amount => process_burn program_id accounts amount None
  | CloseAccount => process_close_account program_id accounts
  | FreezeAccount => process_toggle_freeze_account program_id accounts true
  | ThawAccount => process_toggle_freeze_account program_id accounts false
  | TransferChecked amount decimals =>
      process_transfer program_id accounts amount (Some decimals)
  | ApproveChecked amount decimals =>
      process_approve program_id accounts amount (Some decimals)
  | MintToChecked amount decimals =>
      process_mint_to program_id accounts amount (Some decimals)
  | BurnChecked amount decimals =>
      process_burn program_id accounts amount (Some decimals)
  | SyncNative => process_sync_native program_id accounts
  end.

End token.
