(* ===== verification/TokenFacts.v ===== *)
(** * Inversion of the token handlers

    What each handler of [TokenProcessor] read, checked and wrote when it
    succeeded.  These lemmas carry the proofs of the properties in
    [TokenSafety] and [TokenSupply]. *)

From Stdlib Require Import Strings.Byte.
From S2P Require Import Prelude Sdk Rent Program TokenState TokenInstruction TokenProcessor.

Section facts.
Context {SV : Sysvars}.

(** Code that only reads. *)
Definition read_only {A} (m : ProgM A) : Prop := forall v a v', m v = TOk a v' -> v' = v.

Lemma read_only_bind {A B} (m : ProgM A) (f : A -> ProgM B) :
  read_only m -> (forall a, read_only (f a)) -> read_only (mbind f m).
Proof.
  intros Hm Hf v b v' H. apply prog_bind_ok in H as (a & w & H1 & H2).
  apply Hm in H1. subst. by eapply Hf.
Qed.

Lemma read_only_lift {A} (r : result ProgramError A) : read_only (lift r).
Proof. intros v a v' H. by apply lift_ok in H as [_ ->]. Qed.

Lemma read_only_ret {A} (a : A) : read_only (mret a).
Proof. intros v b v' H. by apply mret_ok in H as [_ ->]. Qed.

Lemma read_only_with_cell {A} i (f : Account -> A) : read_only (with_cell i f).
Proof. intros v a v' H. by apply with_cell_ok in H as [-> _]. Qed.

Lemma read_only_rent i : read_only (Rent_from_account_info i).
Proof. intros v a v' H. by apply Rent_from_account_info_ok in H as [-> _]. Qed.

Lemma read_only_unpack {T} `{Pack T} i : read_only (unpack_cell (T:=T) i).
Proof. apply read_only_bind; [apply read_only_with_cell|intros; apply read_only_lift]. Qed.

Create HintDb read_only.
Hint Resolve read_only_bind read_only_lift read_only_ret read_only_with_cell read_only_rent
  read_only_unpack : read_only.

Ltac solve_read_only :=
  repeat (first [ apply read_only_bind | progress intros | progress cbv beta zeta
                | match goal with
                  | |- read_only (let '(_, _) := ?p in _) => destruct p
                  | |- read_only (if ?b then _ else _) => destruct b
                  | |- read_only (match ?o with Some _ => _ | None => _ end) => destruct o
                  end ]);
  auto with read_only; try apply read_only_with_cell; try apply read_only_lift.

Lemma validate_owner_read_only pid o i s : read_only (validate_owner pid o i s).
Proof. unfold validate_owner, require. solve_read_only. Qed.

Lemma check_account_owner_read_only pid i : read_only (check_account_owner pid i).
Proof. unfold check_account_owner. solve_read_only. Qed.

Lemma check_mint_read_only e k : read_only (check_mint e k).
Proof.
  unfold check_mint, require. destruct e as [[i d]|]; solve_read_only.
Qed.

Lemma take_rent_read_only b it : read_only (take_rent b it).
Proof. unfold take_rent, Rent_get. destruct b; solve_read_only. Qed.

Lemma authorize_spend_read_only pid t i s x b : read_only (authorize_spend pid t i s x b).
Proof.
  unfold authorize_spend, require, checked. cbv zeta.
  destruct (ta_delegate t); [destruct (cmp_pubkeys _ _)|];
    repeat (apply read_only_bind; [apply validate_owner_read_only|intros]); solve_read_only.
Qed.

(** *** Steps *)
Lemma require_ok b e v u v' : require b e v = TOk u v' <-> b = true /\ v' = v.
Proof. unfold require. rewrite lift_ok, ensure_ok. done. Qed.

Lemma checked_ok {A} (o : option A) e v a v' : checked o e v = TOk a v' <-> o = Some a /\ v' = v.
Proof. unfold checked. rewrite lift_ok, ok_or_ok. done. Qed.

Lemma unpack_cell_ok {T} `{Pack T} i v (x : T) v' :
  unpack_cell i v = TOk x v' <->
  v' = v /\ exists a, v !! key i = Some a /\ unpack (acc_data a) = Ok x.
Proof.
  unfold unpack_cell. rewrite prog_bind_ok. split.
  - intros (d & w & H1 & H2). apply with_cell_ok in H1 as (-> & a & Ha & ->).
    apply lift_ok in H2 as [H2 ->]. eauto.
  - intros (-> & a & Ha & Hx). eexists _, v. split; [apply with_cell_ok; eauto|].
    by apply lift_ok.
Qed.

Lemma unpack_unchecked_cell_ok {T} `{Pack T} i v (x : T) v' :
  unpack_unchecked_cell i v = TOk x v' <->
  v' = v /\ exists a, v !! key i = Some a /\ unpack_unchecked (acc_data a) = Ok x.
Proof.
  unfold unpack_unchecked_cell. rewrite prog_bind_ok. split.
  - intros (d & w & H1 & H2). apply with_cell_ok in H1 as (-> & a & Ha & ->).
    apply lift_ok in H2 as [H2 ->]. eauto.
  - intros (-> & a & Ha & Hx). eexists _, v. split; [apply with_cell_ok; eauto|].
    by apply lift_ok.
Qed.

Lemma pack_cell_ok {T} `{Pack T} i v (x : T) u v' :
  pack_cell x i v = TOk u v' <->
  exists a d, v !! key i = Some a /\ pack x (acc_data a) = Ok d /\
    v' = <[key i := set_acc_data a d]> v.
Proof.
  unfold pack_cell. rewrite prog_bind_ok. split.
  - intros (d & w & H1 & H2). apply with_cell_ok in H1 as (-> & a & Ha & ->).
    apply prog_bind_ok in H2 as (d' & w & H2 & H3). apply lift_ok in H2 as [H2 ->].
    apply update_cell_ok in H3 as (a' & Ha' & ->). rewrite Ha in Ha'. injection Ha' as <-. eauto.
  - intros (a & d & Ha & Hd & ->). eexists _, v. split; [apply with_cell_ok; eauto|].
    apply prog_bind_ok. exists d, v. split; [by apply lift_ok|]. apply update_cell_ok. eauto.
Qed.

Lemma check_account_owner_ok pid i v u v' :
  check_account_owner pid i v = TOk u v' <->
  v' = v /\ exists a, v !! key i = Some a /\ acc_owner a = pid.
Proof.
  unfold check_account_owner. rewrite prog_bind_ok. split.
  - intros (o & w & H1 & H2). apply with_cell_ok in H1 as (-> & a & Ha & ->).
    destruct (cmp_pubkeys pid (acc_owner a)) eqn:E; cbn in H2.
    + apply mret_ok in H2 as [_ ->]. apply key_eqb_eq in E. eauto.
    + done.
  - intros (-> & a & Ha & Ho). eexists _, v. split; [apply with_cell_ok; eauto|].
    rewrite Ho. unfold cmp_pubkeys. rewrite key_eqb_refl. destruct u. done.
Qed.

Lemma check_decimals_ok dec d v u w :
  (match dec with
   | Some x => require (u8_eqb x d) MintDecimalsMismatch | None => mret tt end) v = TOk u w ->
  w = v /\ forall x, dec = Some x -> x = d.
Proof.
  destruct dec as [b|]; intros H.
  - apply require_ok in H as [H ->]. apply u8_eqb_eq in H. split; [done|]. congruence.
  - by apply mret_ok in H as [_ ->].
Qed.

Lemma check_owners_ok b pid i j v u w :
  (if b : bool then check_account_owner pid i;; check_account_owner pid j else mret tt) v
    = TOk u w ->
  w = v /\ (b = true -> forall a c, v !! key i = Some a -> v !! key j = Some c ->
           acc_owner a = pid /\ acc_owner c = pid).
Proof.
  destruct b; intros H.
  - apply prog_bind_ok in H as (? & w' & H1 & H2).
    apply check_account_owner_ok in H1 as (-> & a & Ha & Hoa).
    apply check_account_owner_ok in H2 as (-> & c & Hc & Hoc).
    split; [done|]. intros _ a' c' Ha' Hc'. split; congruence.
  - by apply mret_ok in H as [_ ->].
Qed.

(** The account [authorize_spend] returns differs in its allowance only. *)
Lemma authorize_spend_ok pid t i s x b v t' v' :
  authorize_spend pid t i s x b v = TOk t' v' ->
  v' = v /\ exists d y, t' = with_delegate t d y /\ (is_u64 (ta_delegated_amount t) -> 0 <= x -> is_u64 y).
Proof.
  intros H. pose proof (authorize_spend_read_only _ _ _ _ _ _ _ _ _ H) as ->. split; [done|].
  assert (Hid : t = with_delegate t (ta_delegate t) (ta_delegated_amount t)) by (by destruct t).
  unfold authorize_spend in H. cbv zeta in H.
  destruct (ta_delegate t) as [dl|] eqn:Ed; [destruct (cmp_pubkeys (key i) dl)|].
  - apply prog_bind_ok in H as (? & w & _ & H). apply prog_bind_ok in H as (? & w2 & _ & H).
    destruct b.
    + apply mret_ok in H as [-> _]. eauto.
    + apply prog_bind_ok in H as (y & w3 & Hy & H). apply checked_ok in Hy as [Hy _].
      apply checked_sub_some in Hy as [-> Hle]. apply mret_ok in H as [-> _].
      eexists _, _. split; [done|]. unfold is_u64. lia.
  - apply prog_bind_ok in H as (? & w & _ & H). apply mret_ok in H as [-> _]. eauto.
  - apply prog_bind_ok in H as (? & w & _ & H). apply mret_ok in H as [-> _]. eauto.
Qed.

End facts.

(** Break a successful run of a token handler into its steps. *)
Ltac inv_token :=
  inv_prog; repeat (match goal with
  | H : require _ _ _ = TOk _ _ |- _ => apply require_ok in H as [? ?]; subst
  | H : checked _ _ _ = TOk _ _ |- _ => apply checked_ok in H as [? ?]; subst
  | H : fail_with _ _ = TOk _ _ |- _ => discriminate H
  | H : unpack_cell _ _ = TOk _ _ |- _ => apply unpack_cell_ok in H as (? & ? & ? & ?); subst
  | H : unpack_unchecked_cell _ _ = TOk _ _ |- _ =>
      apply unpack_unchecked_cell_ok in H as (? & ? & ? & ?); subst
  | H : check_account_owner _ _ _ = TOk _ _ |- _ =>
      apply check_account_owner_ok in H as (? & ? & ? & ?); subst
  | H : pack_cell _ _ _ = TOk _ _ |- _ => apply pack_cell_ok in H as (? & ? & ? & ? & ?); subst
  | H : validate_owner _ _ _ _ ?v = TOk _ ?w |- _ =>
      first [ constr_eq v w; fail 1
            | pose proof (validate_owner_read_only _ _ _ _ _ _ _ H); subst w ]
  | H : match _ with Some _ => require (u8_eqb _ _) _ | None => _ end _ = TOk _ _ |- _ =>
      apply check_decimals_ok in H as [? ?]; subst
  | H : (if _ then mbind _ (check_account_owner _ _) else _) _ = TOk _ _ |- _ =>
      apply check_owners_ok in H as [? ?]; subst
  | H : check_mint _ _ ?v = TOk _ ?w |- _ =>
      first [ constr_eq v w; fail 1
            | pose proof (check_mint_read_only _ _ _ _ _ H); subst w ]
  | H : take_rent _ _ ?v = TOk _ ?w |- _ =>
      first [ constr_eq v w; fail 1
            | pose proof (take_rent_read_only _ _ _ _ _ H); subst w ]
  | H : authorize_spend _ _ _ _ _ _ ?v = TOk _ ?w |- _ =>
      first [ constr_eq v w; fail 1
            | pose proof (authorize_spend_read_only _ _ _ _ _ _ _ _ _ H); subst w ]
  end; inv_prog).

Section handlers.
Context {SV : Sysvars}.

(** A cell whose data and balance were rewritten. *)
Definition rewritten (a : Account) (l : Z) (d : list byte) : Account :=
  set_acc_data (set_acc_lamports a l) d.

(** The number of mint accounts an instruction takes, by its expected decimals. *)
Definition mint_count (dec : option byte) : nat := match dec with Some _ => 1 | None => 0 end.

Record transfer_spec (pid : Pubkey) (accounts : list AccountInfo) (amount : Z)
    (dec : option byte) (v v' : view) : Prop := {
  tr_steps : exists si di ai signers mints sc dc s d s',
    (exists mi, take_mint dec (tail accounts) = Ok (mi, di :: ai :: signers) /\
       accounts = si :: mints ++ di :: ai :: signers /\ length mints = mint_count dec /\ check_mint mi (ta_mint s) v = TOk tt v) /\
    v !! key si = Some sc /\ unpack (acc_data sc) = Ok s /\
    v !! key di = Some dc /\ unpack (acc_data dc) = Ok d /\
    is_frozen s = false /\ is_frozen d = false /\ amount <= ta_amount s /\
    ta_mint s = ta_mint d /\
    authorize_spend pid s ai signers amount (key_eqb (key si) (key di)) v = TOk s' v /\
    (key si = key di \/ amount = 0 -> acc_owner sc = pid /\ acc_owner dc = pid) /\
    ((key si = key di /\ v' = v) \/
     (key si <> key di /\ ta_amount d + amount <= U64_MAX /\ exists ds dd ls ld,
        pack (with_amount s' (ta_amount s - amount)) (acc_data sc) = Ok ds /\
        pack (with_amount d (ta_amount d + amount)) (acc_data dc) = Ok dd /\
        (if is_native s then ls = acc_lamports sc - amount /\ amount <= acc_lamports sc /\
                             ld = acc_lamports dc + amount /\ ld <= U64_MAX
         else ls = acc_lamports sc /\ ld = acc_lamports dc) /\
        v' = <[key di := rewritten dc ld dd]> (<[key si := rewritten sc ls ds]> v)))
}.

Lemma take_mint_ok dec it mi it' :
  take_mint dec it = Ok (mi, it') -> exists mints, it = mints ++ it' /\ length mints = mint_count dec.
Proof.
  unfold take_mint. destruct dec as [b|].
  - destruct it as [|i r]; [done|]. cbn. intros [= <- <-]. by exists [i].
  - intros [= <- <-]. by exists [].
Qed.

Lemma process_transfer_ok pid accounts amount dec v u v' :
  process_transfer pid accounts amount dec v = TOk u v' ->
  transfer_spec pid accounts amount dec v v'.
Proof.
  unfold process_transfer. unfold cmp_pubkeys. intros H. inv_token.
  match goal with H : negb (_ || _) = true |- _ =>
    apply negb_true_iff, orb_false_iff in H as [Hfs Hfd] end.
  match goal with H : negb (_ <? _) = true |- _ => apply negb_true_iff, Z.ltb_ge in H as Hle end.
  match goal with H : take_mint _ _ = _ |- _ => destruct (take_mint_ok _ _ _ _ H) as (mints & -> & Hmints) end.
  rename a into si, a0 into di, a1 into ai, l0 into signers, x3 into sc, x2 into dc, x into s,
    x0 into d, x1 into s'.
  assert (Hs' : ta_amount s' = ta_amount s /\ is_native s' = is_native s).
  { destruct (authorize_spend_ok _ _ _ _ _ _ _ _ _ H8) as (_ & ? & ? & -> & _). done. }
  destruct Hs' as [Hsa Hsn].
  assert (Hown : key si = key di \/ amount = 0 -> acc_owner sc = pid /\ acc_owner dc = pid).
  { intros Hor. match goal with H : _ || _ = true -> _ |- _ => apply H; try done end.
    apply orb_true_iff. rewrite key_eqb_eq, Z.eqb_eq. done. }
  split. exists si, di, ai, signers, mints, sc, dc, s, d, s'. split.
  { exists o. by split_and!. }
  split_and!; try done.
  destruct (key_eqb (key si) (key di)) eqn:E.
  { left. inv_token. done. }
  right. apply key_eqb_neq in E. split; [done|].
  inv_token. subst. rewrite Hsa in *. split; [done|].
  rewrite Hsn in *. destruct (is_native s).
  - inv_token. subst. rewrite !lookup_insert_ne in * by done. simplify_eq.
    repeat match goal with
    | H : <[key ?k := _]> _ !! key ?k = Some _ |- _ => rewrite lookup_insert_eq in H; simplify_eq
    | H : <[key ?k := _]> _ !! key ?j = Some _ |- _ => rewrite lookup_insert_ne in H by done; simplify_eq
    end.
    eexists _, _, _, _. split_and!; try done.
    rewrite (insert_insert_ne _ (key di) (key si)) by done. rewrite insert_insert_eq.
    rewrite (insert_insert_ne _ (key si) (key di)) by done. by rewrite insert_insert_eq.
  - inv_token. rewrite lookup_insert_ne in * by done. simplify_eq.
    eexists _, _, _, _. split_and!; try done; by unfold rewritten; rewrite ?set_acc_lamports_id.
Qed.

(** One token account rewritten from [t] to [t']. *)
Definition account_update (i : AccountInfo) (t t' : TokenAccount) (v v' : view) : Prop :=
  exists a d, v !! key i = Some a /\ unpack (acc_data a) = Ok t /\
    pack t' (acc_data a) = Ok d /\ v' = <[key i := set_acc_data a d]> v.

(** One mint rewritten from [m] to [m']. *)
Definition mint_update (i : AccountInfo) (m m' : Mint) (v v' : view) : Prop :=
  exists a d, v !! key i = Some a /\ unpack (acc_data a) = Ok m /\
    pack m' (acc_data a) = Ok d /\ v' = <[key i := set_acc_data a d]> v.

Lemma process_approve_ok pid accounts amount dec v u v' :
  process_approve pid accounts amount dec v = TOk u v' ->
  exists si mints di oi signers t,
    accounts = si :: mints ++ di :: oi :: signers /\ length mints = mint_count dec /\ is_frozen t = false /\
    validate_owner pid (ta_owner t) oi signers v = TOk tt v /\
    account_update si t (with_delegate t (Some (key di)) amount) v v'.
Proof.
  unfold process_approve. intros H. inv_token.
  match goal with H : take_mint _ _ = _ |- _ => destruct (take_mint_ok _ _ _ _ H) as (mints & -> & Hmints) end.
  match goal with H : negb _ = true |- _ => apply negb_true_iff in H end.
  eexists _, mints, _, _, _, _. split; [reflexivity|]. split_and!; try eassumption.
  eexists _, _. split_and!; (eassumption || reflexivity).
Qed.

Lemma process_revoke_ok pid accounts v u v' :
  process_revoke pid accounts v = TOk u v' ->
  exists si oi signers t,
    accounts = si :: oi :: signers /\ is_frozen t = false /\
    validate_owner pid (ta_owner t) oi signers v = TOk tt v /\
    account_update si t (with_delegate t None 0) v v'.
Proof.
  unfold process_revoke. intros H. inv_token.
  match goal with H : negb _ = true |- _ => apply negb_true_iff in H end.
  eexists _, _, _, _. split; [reflexivity|]. split_and!; try eassumption.
  eexists _, _. split_and!; (eassumption || reflexivity).
Qed.

Lemma set_account_authority_ok pid t ai signers at_ na v t' v' :
  set_account_authority pid t ai signers at_ na v = TOk t' v' ->
  v' = v /\
  ((at_ = AccountOwner /\ validate_owner pid (ta_owner t) ai signers v = TOk tt v /\
    exists k, na = Some k /\
      t' = (let u := with_delegate (with_owner t k) None 0 in
            if is_native t then with_close_authority u None else u)) \/
   (at_ = AuthCloseAccount /\
    validate_owner pid (default (ta_owner t) (ta_close_authority t)) ai signers v = TOk tt v /\
    t' = with_close_authority t na)).
Proof.
  unfold set_account_authority. destruct at_; intros H; inv_token.
  - destruct na; inv_token. split; [done|]. left. split_and!; [done..|]. eexists. done.
  - split; [done|]. right. done.
Qed.

Lemma set_mint_authority_ok pid m ai signers at_ na v m' v' :
  set_mint_authority pid m ai signers at_ na v = TOk m' v' ->
  v' = v /\ supply m' = supply m /\ decimals m' = decimals m /\
  mint_is_initialized m' = mint_is_initialized m /\
  ((at_ = MintTokens /\ mint_authority m' = na /\ freeze_authority m' = freeze_authority m /\
    exists k, mint_authority m = Some k /\ validate_owner pid k ai signers v = TOk tt v) \/
   (at_ = AuthFreezeAccount /\ freeze_authority m' = na /\ mint_authority m' = mint_authority m /\
    exists k, freeze_authority m = Some k /\ validate_owner pid k ai signers v = TOk tt v)).
Proof.
  unfold set_mint_authority. destruct at_; intros H; inv_token; cbn; split_and!; eauto 10.
Qed.

Lemma process_set_authority_ok pid accounts at_ na v u v' :
  process_set_authority pid accounts at_ na v = TOk u v' ->
  exists i ai signers, accounts = i :: ai :: signers /\
    ((exists t t', is_frozen t = false /\
        set_account_authority pid t ai signers at_ na v = TOk t' v /\ account_update i t t' v v') \/
     (exists m m', set_mint_authority pid m ai signers at_ na v = TOk m' v /\
        mint_update i m m' v v')).
Proof.
  unfold process_set_authority. intros H. inv_token.
  eexists _, _, _. split; [reflexivity|].
  destruct (_ =? _) in H; [|destruct (_ =? _) in H; [|by inv_token]].
  - left. inv_token. match goal with H : negb _ = true |- _ => apply negb_true_iff in H end.
    match goal with H : set_account_authority _ _ _ _ _ _ _ = _ |- _ =>
      pose proof (proj1 (set_account_authority_ok _ _ _ _ _ _ _ _ _ H)); subst end.
    eexists _, _. split_and!; try eassumption. inv_token.
    eexists _, _. split_and!; (eassumption || reflexivity).
  - right. inv_token.
    match goal with H : set_mint_authority _ _ _ _ _ _ _ = _ |- _ =>
      pose proof (proj1 (set_mint_authority_ok _ _ _ _ _ _ _ _ _ H)); subst end.
    eexists _, _. split_and!; try eassumption. inv_token.
    eexists _, _. split_and!; (eassumption || reflexivity).
Qed.

Lemma process_toggle_freeze_ok pid accounts freeze v u v' :
  process_toggle_freeze_account pid accounts freeze v = TOk u v' ->
  exists si mi ai signers t a m k,
    accounts = si :: mi :: ai :: signers /\ is_frozen t = negb freeze /\ is_native t = false /\
    ta_mint t = key mi /\ v !! key mi = Some a /\ unpack (acc_data a) = Ok m /\
    freeze_authority m = Some k /\ validate_owner pid k ai signers v = TOk tt v /\
    account_update si t (with_state t (if freeze then Frozen else Initialized)) v v'.
Proof.
  unfold process_toggle_freeze_account, cmp_pubkeys. intros H. inv_token.
  match goal with H : match freeze_authority ?m with _ => _ end _ = _ |- _ =>
    destruct (freeze_authority m) eqn:?; [|by inv_token] end.
  inv_token. match goal with H : negb (is_native _) = true |- _ => apply negb_true_iff in H end.
  eexists _, _, _, _, _, _, _, _. split; [reflexivity|].
  split_and!; try eassumption; try done.
  - match goal with H : negb (freeze && _ || _) = true |- _ => revert H end.
    destruct freeze, (is_frozen _); done.
  - eexists _, _. split_and!; (eassumption || reflexivity).
Qed.

Lemma process_sync_native_ok pid accounts v u v' :
  process_sync_native pid accounts v = TOk u v' ->
  exists i rest t a reserve,
    accounts = i :: rest /\ v !! key i = Some a /\ acc_owner a = pid /\
    ta_is_native t = Some reserve /\ reserve <= acc_lamports a /\
    ta_amount t <= acc_lamports a - reserve /\
    account_update i t (with_amount t (acc_lamports a - reserve)) v v'.
Proof.
  unfold process_sync_native. intros H. inv_token.
  match goal with H : match ta_is_native ?t with _ => _ end _ = _ |- _ =>
    destruct (ta_is_native t) as [res|] eqn:?; [|by inv_token] end.
  inv_token. subst.
  match goal with H : negb _ = true |- _ => apply negb_true_iff, Z.ltb_ge in H end.
  eexists _, _, _, _, res. split; [reflexivity|]. split_and!; try eassumption; try done.
  eexists _, _. split_and!; (eassumption || reflexivity).
Qed.

(** A cell is not both a token account and a mint. *)
Lemma account_not_mint a t m : unpack (T:=TokenAccount) a = Ok t -> unpack (T:=Mint) a = Ok m -> False.
Proof. intros Ht Hm. apply unpack_ok in Ht as [Ht _], Hm as [Hm _]. cbn in *. congruence. Qed.

Lemma process_mint_to_ok pid accounts amount dec v u v' :
  process_mint_to pid accounts amount dec v = TOk u v' ->
  exists mi di oi signers mc m dc d k dd md,
    accounts = mi :: di :: oi :: signers /\
    v !! key di = Some dc /\ unpack (acc_data dc) = Ok d /\
    v !! key mi = Some mc /\ unpack (acc_data mc) = Ok m /\
    is_frozen d = false /\ is_native d = false /\ ta_mint d = key mi /\
    mint_authority m = Some k /\ validate_owner pid k oi signers v = TOk tt v /\
    (forall x, dec = Some x -> x = decimals m) /\
    (amount = 0 -> acc_owner mc = pid /\ acc_owner dc = pid) /\
    ta_amount d + amount <= U64_MAX /\ supply m + amount <= U64_MAX /\
    pack (with_amount d (ta_amount d + amount)) (acc_data dc) = Ok dd /\
    pack (with_supply m (supply m + amount)) (acc_data mc) = Ok md /\
    key mi <> key di /\
    v' = <[key mi := set_acc_data mc md]> (<[key di := set_acc_data dc dd]> v).
Proof.
  unfold process_mint_to, cmp_pubkeys. intros H. inv_token. subst.
  match goal with H : match mint_authority ?m with _ => _ end _ = _ |- _ =>
    destruct (mint_authority m) as [k|] eqn:?; [|by inv_token] end.
  inv_token. match goal with H : (amount =? 0) = true -> _ |- _ => rename H into Hown end.
  assert (key a <> key a0) as Hne.
  { intros E. rewrite E in *. simplify_eq. by eapply account_not_mint. }
  rewrite lookup_insert_ne in * by done. simplify_eq.
  repeat match goal with H : negb _ = true |- _ => apply negb_true_iff in H end.
  eexists _, _, _, _, _, _, _, _, _, _, _. split; [reflexivity|]. split_and!; try eassumption; try done.
  intros ->. by apply Hown.
Qed.

Lemma process_burn_ok pid accounts amount dec v u v' :
  process_burn pid accounts amount dec v = TOk u v' ->
  exists si mi ai signers mc m sc s s' sd md,
    accounts = si :: mi :: ai :: signers /\
    v !! key si = Some sc /\ unpack (acc_data sc) = Ok s /\
    v !! key mi = Some mc /\ unpack (acc_data mc) = Ok m /\
    is_frozen s = false /\ is_native s = false /\ ta_mint s = key mi /\ amount <= ta_amount s /\
    (forall x, dec = Some x -> x = decimals m) /\
    authorize_spend pid s ai signers amount false v = TOk s' v /\
    (amount = 0 -> acc_owner sc = pid /\ acc_owner mc = pid) /\
    amount <= supply m /\
    pack (with_amount s' (ta_amount s - amount)) (acc_data sc) = Ok sd /\
    pack (with_supply m (supply m - amount)) (acc_data mc) = Ok md /\
    key mi <> key si /\
    v' = <[key mi := set_acc_data mc md]> (<[key si := set_acc_data sc sd]> v).
Proof.
  unfold process_burn, cmp_pubkeys. intros H. inv_token. subst.
  match goal with H : authorize_spend _ _ _ _ _ _ _ = _ |- _ =>
    destruct (authorize_spend_ok _ _ _ _ _ _ _ _ _ H) as (_ & dl & y & Hs' & _) end.
  match goal with H : (amount =? 0) = true -> _ |- _ => rename H into Hown end.
  assert (key a <> key a0) as Hne.
  { intros E. rewrite E in *. simplify_eq. by eapply account_not_mint. }
  rewrite lookup_insert_ne in * by done. simplify_eq.
  repeat match goal with
  | H : negb (_ <? _) = true |- _ => apply negb_true_iff, Z.ltb_ge in H
  | H : negb _ = true |- _ => apply negb_true_iff in H end.
  eexists _, _, _, _, _, _, _, _, _, _, _. split; [reflexivity|].
  split_and!; try eassumption; try done.
  intros ->. by apply Hown.
Qed.

Definition zero_account : list byte := replicate (LEN (T:=TokenAccount)) x00.

Lemma write_zero_account d : length d = 165%nat -> write_prefix zero_account d = zero_account.
Proof.
  intros Hd. unfold write_prefix, zero_account. rewrite length_replicate, drop_ge, app_nil_r; [done|].
  cbn. lia.
Qed.

Lemma process_close_account_ok pid accounts v u v' :
  process_close_account pid accounts v = TOk u v' ->
  exists si di ai signers sc s dc,
    accounts = si :: di :: ai :: signers /\ key si <> key di /\
    v !! key si = Some sc /\ unpack (acc_data sc) = Ok s /\ v !! key di = Some dc /\
    (is_native s = false -> ta_amount s = 0) /\
    validate_owner pid (default (ta_owner s) (ta_close_authority s)) ai signers v = TOk tt v /\
    acc_lamports dc + acc_lamports sc <= U64_MAX /\
    v' = <[key si := rewritten sc 0 zero_account]>
         (<[key di := set_acc_lamports dc (acc_lamports dc + acc_lamports sc)]> v).
Proof.
  unfold process_close_account, cmp_pubkeys. intros H. inv_token. subst.
  match goal with H : negb (key_eqb _ _) = true |- _ =>
    apply negb_true_iff, key_eqb_neq in H as Hne end.
  rewrite lookup_insert_ne in * by done. rewrite lookup_insert_eq in *. simplify_eq.
  eexists _, _, _, _, _, _, _. split; [reflexivity|]. split_and!; try eassumption; try done.
  - intros Hn. match goal with H : negb (negb _ && negb _) = true |- _ => rename H into Hb end.
    rewrite Hn in Hb. cbn in Hb. rewrite negb_involutive in Hb. by apply Z.eqb_eq.
  - rewrite insert_insert_eq. unfold rewritten. cbn [acc_data set_acc_lamports].
    change (replicate 165 x00) with zero_account. rewrite write_zero_account; [done|].
    match goal with H : unpack _ = Ok _ |- _ => by apply unpack_ok in H as [? _] end.
Qed.

Lemma process_initialize_mint_ok accounts dec ma fa b v u v' :
  _process_initialize_mint accounts dec ma fa b v = TOk u v' ->
  exists mi rest a m d,
    accounts = mi :: rest /\ v !! key mi = Some a /\
    unpack_unchecked (acc_data a) = Ok m /\ mint_is_initialized m = false /\
    pack (mkMint (Some ma) (supply m) dec true fa) (acc_data a) = Ok d /\
    v' = <[key mi := set_acc_data a d]> v.
Proof.
  unfold _process_initialize_mint. intros H. inv_token.
  repeat match goal with H : (let '(_, _) := ?p in _) _ = TOk _ _ |- _ => destruct p end.
  inv_token.
  match goal with H : negb _ = true |- _ => apply negb_true_iff in H end.
  eexists _, _, _, _, _. split; [reflexivity|]. split_and!; try eassumption; done.
Qed.

Lemma process_initialize_account_ok pid accounts oa b v u v' :
  _process_initialize_account pid accounts oa b v = TOk u v' ->
  exists ni mi rest a t o native amount d,
    accounts = ni :: mi :: rest /\ v !! key ni = Some a /\
    unpack_unchecked (acc_data a) = Ok t /\ is_initialized t = false /\
    (key mi = native_mint_id -> exists reserve, native = Some reserve /\ is_u64 reserve /\
       reserve <= acc_lamports a /\ amount = acc_lamports a - reserve) /\
    (key mi <> native_mint_id -> native = None /\ amount = 0 /\ exists mc m,
       v !! key mi = Some mc /\ acc_owner mc = pid /\ unpack (T:=Mint) (acc_data mc) = Ok m) /\
    (match oa with Some o' => o = o' | None => exists oi r, rest = oi :: r /\ o = key oi end) /\
    pack (mkTokenAccount (key mi) o amount None Initialized native 0 (ta_close_authority t))
      (acc_data a) = Ok d /\
    v' = <[key ni := set_acc_data a d]> v.
Proof.
  unfold _process_initialize_account, cmp_pubkeys. intros H. inv_token.
  repeat match goal with H : (let '(_, _) := ?p in _) _ = TOk _ _ |- _ => destruct p end.
  inv_token. cbv zeta in *.
  assert (w = v /\ match oa with Some o' => p = o' | None => exists oi r, l0 = oi :: r /\ p = key oi end) as [-> Ho].
  { destruct oa; inv_token; simplify_eq; eauto. }
  match goal with H : negb (is_initialized _) = true |- _ => apply negb_true_iff in H end.
  destruct (key_eqb (key a0) native_mint_id) eqn:E; cbn [negb] in *; inv_token; simplify_eq.
  - eexists _, _, _, _, _, _, _, _, _. split; [reflexivity|]. split_and!; try eassumption; try done.
    intros _. eexists. split; [reflexivity|]. split_and!; try done; auto with sol.
  - match goal with H : match unpack ?d with _ => _ end = Ok _ |- _ =>
      destruct (unpack d) as [m| |] eqn:?; try done end.
    eexists _, _, _, _, _, _, _, _, _. split; [reflexivity|]. split_and!; try eassumption; try done.
    intros _. split_and!; try done. eauto.
Qed.

Lemma take_rent_ok b it v r it' v' : take_rent b it v = TOk (r, it') v' ->
  it' = if b then tail it else it.
Proof.
  unfold take_rent. destruct b; intros H; inv_token; by simplify_eq.
Qed.

Lemma process_initialize_multisig_ok accounts m b v u v' :
  _process_initialize_multisig accounts m b v = TOk u v' ->
  exists i rest a ms d,
    accounts = i :: rest /\ v !! key i = Some a /\
    unpack_unchecked (acc_data a) = Ok ms /\ ms_is_initialized ms = false /\
    let infos := if b then tail rest else rest in
    (1 <= length infos <= MAX_SIGNERS)%nat /\ 1 <= u8_val m <= 11 /\
    pack (mkMultisig m (u8_of (Z.of_nat (length infos))) true
            ((key <$> infos) ++ drop (length infos) (ms_signers ms))) (acc_data a) = Ok d /\
    v' = <[key i := set_acc_data a d]> v.
Proof.
  unfold _process_initialize_multisig. intros H. inv_token.
  repeat match goal with H : (let '(_, _) := ?p in _) _ = TOk _ _ |- _ => destruct p end.
  inv_token. cbv zeta in *.
  match goal with H : take_rent _ _ _ = _ |- _ => pose proof (take_rent_ok _ _ _ _ _ _ H) as Hit end.
  match goal with H : negb _ = true |- _ => apply negb_true_iff in H end.
  match goal with H : unpack_unchecked _ = Ok ?x |- _ =>
    pose proof (proj2 (proj1 (unpack_unchecked_ok _ _) H)) as Hms;
    apply unpack_in_range in Hms; cbn in Hms end.
  match goal with H : write_signers _ _ = Ok _ |- _ => unfold write_signers in H; rename H into Hw end.
  destruct (Nat.leb_spec (length (key <$> l0)) (length (ms_signers x))) as [Hl|]; [|done].
  injection Hw as <-. rewrite length_fmap in *. rewrite Hms in Hl.
  unfold is_valid_signer_index, MIN_SIGNERS in *.
  repeat match goal with
  | H : (_ && _) = true |- _ => apply andb_true_iff in H as [? ?]
  | H : (_ <=? _)%nat = true |- _ => apply Nat.leb_le in H end.
  rewrite u8_val_of, Z.mod_small in * by (unfold MAX_SIGNERS in *; lia).
  pose proof (u8_val_range m). unfold MAX_SIGNERS in *.
  eexists _, l, _, _, _. split; [reflexivity|]. rewrite <-Hit.
  split_and!; try eassumption; try lia; done.
Qed.

End handlers.
