(* ===== verification/TokenSupply.v ===== *)
(** * Conservation of token supply

    For every mint but the native one, the recorded supply and the sum of the
    token accounts move together under every instruction of the token program,
    as long as the program writes to no account it does not own.  The runtime
    rejects a transaction that breaks the latter ([Runtime], from
    [pre_account.rs]). *)

From Stdlib Require Import Strings.Byte.
From S2P Require Import Prelude Sdk Rent Program TokenState TokenInstruction TokenProcessor TokenFacts Fixtures.

(** What a cell contributes to the tokens of mint [M] in circulation. *)
Definition circulating (pid M : Pubkey) (a : Account) : Z :=
  if key_eqb (acc_owner a) pid then
    match unpack (T:=TokenAccount) (acc_data a) with
    | Ok t => if key_eqb (ta_mint t) M then ta_amount t else 0
    | _ => 0
    end
  else 0.

(** The supply a cell records when it is a mint. *)
Definition recorded (pid : Pubkey) (a : Account) : Z :=
  if key_eqb (acc_owner a) pid then
    match unpack (T:=Mint) (acc_data a) with Ok m => supply m | _ => 0 end
  else 0.

Definition recorded_supply (pid M : Pubkey) (v : view) : Z :=
  match v !! M with Some a => recorded pid a | None => 0 end.

(** Supply recorded by the mint minus tokens held by the accounts of a store. *)
Definition supply_gap (pid M : Pubkey) (v : view) : Z :=
  recorded_supply pid M v - store_sum (circulating pid M) v.

(** Well-formed program accounts: a token account is native exactly when its
    mint is the native mint, and a mint that is not initialised has no supply. *)
Definition cell_wf (a : Account) : Prop :=
  (forall t, unpack (T:=TokenAccount) (acc_data a) = Ok t ->
     (is_native t = true <-> ta_mint t = native_mint_id)) /\
  (forall m, unpack_unchecked (T:=Mint) (acc_data a) = Ok m ->
     mint_is_initialized m = false -> supply m = 0).

Definition ledger_wf (pid : Pubkey) (v : view) : Prop :=
  forall k a, v !! k = Some a -> acc_owner a = pid -> cell_wf a.

(** The program wrote to none of the accounts it does not own. *)
Definition external_unmodified (pid : Pubkey) (v v' : view) : Prop :=
  forall k a a', v !! k = Some a -> v' !! k = Some a' -> acc_owner a <> pid ->
    acc_data a' = acc_data a.

Definition conserved (pid : Pubkey) (v v' : view) : Prop :=
  ledger_wf pid v' /\
  forall M, M <> native_mint_id -> supply_gap pid M v' = supply_gap pid M v.

Section supply.
Context {SV : Sysvars}.

Lemma supply_gap_insert pid M v k a a' :
  v !! k = Some a ->
  supply_gap pid M (<[k := a']> v) =
  supply_gap pid M v + (if key_eqb k M then recorded pid a' - recorded pid a else 0)
  - (circulating pid M a' - circulating pid M a).
Proof.
  intros Hk. unfold supply_gap, recorded_supply. rewrite (store_sum_insert _ _ _ a) by done.
  destruct (key_eqb k M) eqn:E.
  - apply key_eqb_eq in E as <-. rewrite lookup_insert_eq, Hk. lia.
  - apply key_eqb_neq in E. rewrite lookup_insert_ne by done. lia.
Qed.

Lemma foreign_cell pid M a :
  acc_owner a <> pid -> circulating pid M a = 0 /\ recorded pid a = 0.
Proof. intros Ho%key_eqb_neq. unfold circulating, recorded. by rewrite Ho. Qed.

Lemma recorded_account pid a : length (acc_data a) = 165%nat -> recorded pid a = 0.
Proof.
  intros Hl. unfold recorded. destruct (key_eqb _ _); [|done].
  destruct (unpack _) eqn:E; try done. apply unpack_ok in E as [E _]. cbn in E. congruence.
Qed.

Lemma circulating_mint pid M a : length (acc_data a) = 82%nat -> circulating pid M a = 0.
Proof.
  intros Hl. unfold circulating. destruct (key_eqb _ _); [|done].
  destruct (unpack _) eqn:E; try done. apply unpack_ok in E as [E _]. cbn in E. congruence.
Qed.

Lemma circulating_account pid M a t :
  acc_owner a = pid -> unpack (acc_data a) = Ok t ->
  circulating pid M a = if key_eqb (ta_mint t) M then ta_amount t else 0.
Proof. intros Ho Ht. unfold circulating. by rewrite Ho, key_eqb_refl, Ht. Qed.

Lemma recorded_mint pid a m :
  acc_owner a = pid -> unpack (acc_data a) = Ok m -> recorded pid a = supply m.
Proof. intros Ho Ht. unfold recorded. by rewrite Ho, key_eqb_refl, Ht. Qed.

(** A native account is not counted for another mint. *)
Lemma circulating_native pid M a t :
  cell_wf a -> unpack (acc_data a) = Ok t -> is_native t = true -> M <> native_mint_id ->
  circulating pid M a = 0.
Proof.
  intros [Hwf _] Ht Hn HM. unfold circulating. destruct (key_eqb _ pid); [|done]. rewrite Ht.
  apply Hwf in Ht as Hn'. apply Hn' in Hn. rewrite Hn.
  by rewrite (proj2 (key_eqb_neq _ _)).
Qed.

Lemma cell_wf_account a t :
  length (acc_data a) = 165%nat -> unpack (acc_data a) = Ok t ->
  (is_native t = true <-> ta_mint t = native_mint_id) -> cell_wf a.
Proof.
  intros Hl Ht Hn. split.
  - intros t' Ht'. congruence.
  - intros m Hm. apply unpack_unchecked_ok in Hm as [Hm _]. cbn in Hm. congruence.
Qed.

Lemma cell_wf_mint a m :
  unpack (T:=Mint) (acc_data a) = Ok m -> cell_wf a.
Proof.
  intros Hm. split.
  - intros t Ht. by destruct (account_not_mint _ _ _ Ht Hm).
  - intros m' Hm' Hi. apply unpack_ok in Hm as (_ & Hm & Hi').
    apply unpack_unchecked_ok in Hm' as [_ Hm']. cbn in *. congruence.
Qed.

(** One cell rewritten with the contribution it had. *)
Lemma conserved_insert pid v k a a' :
  ledger_wf pid v -> v !! k = Some a -> acc_owner a' = acc_owner a ->
  (acc_owner a = pid -> cell_wf a' /\ forall M, M <> native_mint_id ->
     circulating pid M a' = circulating pid M a /\ recorded pid a' = recorded pid a) ->
  conserved pid v (<[k := a']> v).
Proof.
  intros Hwf Hk Ho Hc. split.
  - intros k' b Hb Hob. rewrite lookup_insert in Hb. case_decide; [|by eapply Hwf].
    injection Hb as <-. apply Hc. congruence.
  - intros M HM. rewrite (supply_gap_insert _ _ _ _ a) by done.
    destruct (decide (acc_owner a = pid)) as [Hp|Hp].
    + destruct (Hc Hp) as [_ Hc']. destruct (Hc' M HM) as [-> ->]. destruct (key_eqb _ _); lia.
    + destruct (foreign_cell pid M a Hp) as [-> ->].
      destruct (foreign_cell pid M a') as [-> ->]; [congruence|]. destruct (key_eqb _ _); lia.
Qed.

Lemma conserved_refl pid v : ledger_wf pid v -> conserved pid v v.
Proof. done. Qed.

Lemma conserved_trans pid v1 v2 v3 :
  conserved pid v1 v2 -> conserved pid v2 v3 -> conserved pid v1 v3.
Proof. intros [_ H1] [Hw H2]. split; [done|]. intros M HM. by rewrite H2, H1. Qed.

(** A change of balance is invisible. *)
Lemma conserved_lamports pid v k a l :
  ledger_wf pid v -> v !! k = Some a -> conserved pid v (<[k := set_acc_lamports a l]> v).
Proof.
  intros Hwf Hk. apply (conserved_insert _ _ _ a); try done. intros Ho. split; [|done].
  by apply (Hwf _ _ Hk).
Qed.

(** Writing a token account over the cell of a token account. *)
Lemma packed_account a (t t' : TokenAccount) d l :
  unpack (acc_data a) = Ok t -> pack t' (acc_data a) = Ok d ->
  account_in_range t' -> is_initialized t' = true ->
  length (acc_data a) = 165%nat /\ length (acc_data (rewritten a l d)) = 165%nat /\
  unpack (acc_data (rewritten a l d)) = Ok t'.
Proof.
  intros Ht Hp Hr Hi. destruct (repack_account _ _ _ Hr Hp) as (? & ? & Hu).
  rewrite Hi in Hu. done.
Qed.

(** Packing leaves the bytes alone only when the value is the one they hold. *)
Lemma pack_same (t t' : TokenAccount) d :
  unpack d = Ok t -> pack t' d = Ok d -> account_in_range t' -> is_initialized t' = true -> t' = t.
Proof.
  intros Ht Hp Hr Hi. destruct (repack_account _ _ _ Hr Hp) as (_ & _ & Hu).
  rewrite Hi in Hu. congruence.
Qed.

Lemma account_update_conserved pid i t t' v v' :
  account_update i t t' v v' -> ledger_wf pid v ->
  account_in_range t' -> is_initialized t' = true ->
  ta_mint t' = ta_mint t -> is_native t' = is_native t ->
  (ta_amount t' = ta_amount t \/ is_native t = true) -> conserved pid v v'.
Proof.
  intros (a & d & Ha & Ht & Hp & ->) Hwf Hr Hi Hm Hn Hamt.
  destruct (packed_account a t t' d (acc_lamports a) Ht Hp Hr Hi) as (Hl & Hl' & Hu).
  unfold rewritten in *. rewrite set_acc_lamports_id in *.
  apply (conserved_insert _ _ _ a); try done. intros Ho. pose proof (Hwf _ _ Ha Ho) as Hcw.
  assert (is_native t' = true <-> ta_mint t' = native_mint_id) as Hnat.
  { rewrite Hm, Hn. by apply (proj1 Hcw). }
  split; [by apply (cell_wf_account _ t')|].
  intros M HM. rewrite !recorded_account by done. split; [|done].
  rewrite (circulating_account _ _ _ t') by done. rewrite (circulating_account _ _ a t) by done.
  rewrite Hm. destruct Hamt as [->|Hnt]; [done|]. rewrite <-Hm, (proj1 Hnat) by congruence.
  by rewrite (proj2 (key_eqb_neq _ _)).
Qed.

(** Two distinct program cells rewritten. *)
Lemma ledger_wf_two pid v k j a b :
  ledger_wf pid v -> cell_wf a -> cell_wf b ->
  ledger_wf pid (<[k := a]> (<[j := b]> v)).
Proof.
  intros Hwf Ha Hb k' c Hc Ho. rewrite !lookup_insert in Hc.
  repeat case_decide; simplify_eq; try done. by eapply Hwf.
Qed.

Lemma gap_two pid M v k j a b a' b' :
  v !! k = Some a -> v !! j = Some b -> k <> j ->
  supply_gap pid M (<[k := a']> (<[j := b']> v)) =
  supply_gap pid M v
  + (if key_eqb k M then recorded pid a' - recorded pid a else 0)
  + (if key_eqb j M then recorded pid b' - recorded pid b else 0)
  - (circulating pid M a' - circulating pid M a)
  - (circulating pid M b' - circulating pid M b).
Proof.
  intros Hk Hj Hne. rewrite (supply_gap_insert _ _ _ _ a) by (by rewrite lookup_insert_ne).
  rewrite (supply_gap_insert _ _ _ _ b) by done. lia.
Qed.

(** A program that changes the amount of a token account owns it. *)
Lemma changed_amount_owner pid v v' k a a' (t t' : TokenAccount) l d :
  external_unmodified pid v v' -> v !! k = Some a -> v' !! k = Some a' -> a' = rewritten a l d ->
  unpack (acc_data a) = Ok t -> pack t' (acc_data a) = Ok d ->
  account_in_range t' -> is_initialized t' = true -> ta_amount t' <> ta_amount t ->
  acc_owner a = pid.
Proof.
  intros Hext Ha Ha' -> Ht Hp Hr Hi Hne.
  destruct (decide (acc_owner a = pid)) as [|Ho]; [done|]. exfalso.
  specialize (Hext _ _ _ Ha Ha' Ho). cbn in Hext. rewrite Hext in Hp.
  apply Hne. by rewrite (pack_same t t' _ Ht Hp Hr Hi).
Qed.

Lemma initialized_with_amount t x : is_initialized (with_amount t x) = is_initialized t.
Proof. done. Qed.

Lemma unpack_initialized d (t : TokenAccount) : unpack d = Ok t -> is_initialized t = true.
Proof. rewrite unpack_ok. tauto. Qed.

Lemma spend_in_range pid t i s x b v t' v' y :
  authorize_spend pid t i s x b v = TOk t' v' -> account_in_range t -> 0 <= x -> is_u64 y ->
  account_in_range (with_amount t' y) /\ is_initialized t' = is_initialized t /\
  ta_mint t' = ta_mint t /\ is_native t' = is_native t.
Proof.
  intros H (H1 & H2 & H3) Hx Hy.
  destruct (authorize_spend_ok _ _ _ _ _ _ _ _ _ H) as (_ & d & z & -> & Hz).
  split_and!; try done. split_and!; try done. by apply Hz.
Qed.

(** What a transfer between two accounts did, both owned by the program. *)
Lemma transfer_facts pid accounts amount dec v v' :
  transfer_spec pid accounts amount dec v v' -> is_u64 amount -> external_unmodified pid v v' ->
  (v' = v /\ exists si di ai signers mints, accounts = si :: mints ++ di :: ai :: signers /\
     length mints = mint_count dec /\ key si = key di) \/
  exists si di ai signers mints sc dc s d s' ls ld ds dd,
    (accounts = si :: mints ++ di :: ai :: signers /\ length mints = mint_count dec) /\ key si <> key di /\
    v !! key si = Some sc /\ unpack (acc_data sc) = Ok s /\
    v !! key di = Some dc /\ unpack (acc_data dc) = Ok d /\
    acc_owner sc = pid /\ acc_owner dc = pid /\
    is_frozen s = false /\ is_frozen d = false /\ amount <= ta_amount s /\
    ta_amount d + amount <= U64_MAX /\ ta_mint s = ta_mint d /\
    authorize_spend pid s ai signers amount false v = TOk s' v /\
    (length (acc_data sc) = 165%nat /\ length (acc_data (rewritten sc ls ds)) = 165%nat /\
     unpack (acc_data (rewritten sc ls ds)) = Ok (with_amount s' (ta_amount s - amount))) /\
    (length (acc_data dc) = 165%nat /\ length (acc_data (rewritten dc ld dd)) = 165%nat /\
     unpack (acc_data (rewritten dc ld dd)) = Ok (with_amount d (ta_amount d + amount))) /\
    ta_mint s' = ta_mint s /\ is_native s' = is_native s /\
    (if is_native s then ls = acc_lamports sc - amount /\ ld = acc_lamports dc + amount
     else ls = acc_lamports sc /\ ld = acc_lamports dc) /\
    v' = <[key di := rewritten dc ld dd]> (<[key si := rewritten sc ls ds]> v).
Proof.
  intros [(si & di & ai & signers & mints & sc & dc & s & d & s' & (mi & _ & Hacc & Hcount & _) & Hsc & Hs & Hdc &
    Hd & Hfs & Hfd & Hle & Hmint & Hauth & Hown & Hcase)] Ham Hext.
  destruct Hcase as [[Heq ->]|(Hne & Hmax & ds & dd & ls & ld & Hps & Hpd & Hl & ->)];
    [left; split; [done|by exists si, di, ai, signers, mints]|right].
  rewrite (proj2 (key_eqb_neq _ _) Hne) in Hauth.
  pose proof (unpack_account_range _ _ Hs) as Hrs. pose proof (unpack_account_range _ _ Hd) as Hrd.
  pose proof (unpack_initialized _ _ Hs) as His. pose proof (unpack_initialized _ _ Hd) as Hid.
  destruct (spend_in_range _ _ _ _ _ _ _ _ _ (ta_amount s - amount) Hauth Hrs (proj1 Ham))
    as (Hrs' & Hiss & Hms & Hns); [destruct Hrs as ([? ?] & _), Ham; unfold is_u64; lia|].
  assert (Hrd' : account_in_range (with_amount d (ta_amount d + amount))).
  { destruct Hrd as (? & ? & ?). unfold account_in_range, is_u64 in *. cbn. split_and!; try done; lia. }
  exists si, di, ai, signers, mints, sc, dc, s, d, s', ls, ld, ds, dd.
  assert (acc_owner sc = pid /\ acc_owner dc = pid) as [Hos Hod].
  { destruct (decide (amount = 0)) as [H0|H0]; [by apply Hown; auto|]. split.
    - eapply (changed_amount_owner pid v _ (key si) sc); try done.
      + by rewrite lookup_insert_ne, lookup_insert_eq.
      + cbn. by rewrite <-His.
      + cbn. lia.
    - eapply (changed_amount_owner pid v _ (key di) dc); try done.
      + by rewrite lookup_insert_eq.
      + cbn. lia. }
  split_and!; try done.
  - by apply (packed_account sc s _ ds ls Hs Hps Hrs'); rewrite initialized_with_amount, Hiss.
  - by apply (packed_account sc s _ ds ls Hs Hps Hrs'); rewrite initialized_with_amount, Hiss.
  - by apply (packed_account sc s _ ds ls Hs Hps Hrs'); rewrite initialized_with_amount, Hiss.
  - by apply (packed_account dc d _ dd ld Hd Hpd Hrd'); rewrite initialized_with_amount.
  - by apply (packed_account dc d _ dd ld Hd Hpd Hrd'); rewrite initialized_with_amount.
  - by apply (packed_account dc d _ dd ld Hd Hpd Hrd'); rewrite initialized_with_amount.
  - destruct (is_native s); tauto.
Qed.

Lemma transfer_conserved pid accounts amount dec v v' :
  transfer_spec pid accounts amount dec v v' -> is_u64 amount ->
  ledger_wf pid v -> external_unmodified pid v v' -> conserved pid v v'.
Proof.
  intros Hspec Ham Hwf Hext.
  destruct (transfer_facts _ _ _ _ _ _ Hspec Ham Hext) as [[-> _]|(si & di & ai & signers & mints & sc & dc &
    s & d & s' & ls & ld & ds & dd & _ & Hne & Hsc & Hs & Hdc & Hd & Hos & Hod & _ & _ & Hle & Hmax & Hmint &
    _ & (Hl1 & Hl1' & Hu1) & (Hl2 & Hl2' & Hu2) & Hms & Hns & _ & ->)]; [done|].
  split.
  - apply ledger_wf_two; [done|..]; (eapply cell_wf_account; [done|eassumption|]).
    + change (is_native d = true <-> ta_mint d = native_mint_id).
      by apply (proj1 (Hwf _ _ Hdc Hod)).
    + change (is_native s' = true <-> ta_mint s' = native_mint_id).
      rewrite Hms, Hns. by apply (proj1 (Hwf _ _ Hsc Hos)).
  - intros M HM. rewrite (gap_two _ _ _ _ _ dc sc) by done.
    rewrite !recorded_account by done.
    rewrite (circulating_account _ _ _ _ (Hod : acc_owner (rewritten dc ld dd) = pid) Hu2).
    rewrite (circulating_account _ _ _ _ (Hos : acc_owner (rewritten sc ls ds) = pid) Hu1).
    rewrite (circulating_account _ _ dc d), (circulating_account _ _ sc s) by done.
    cbn. rewrite Hms, Hmint. repeat destruct (key_eqb _ _); lia.
Qed.

Lemma rewritten_id a d : rewritten a (acc_lamports a) d = set_acc_data a d.
Proof. unfold rewritten. by rewrite set_acc_lamports_id. Qed.

Lemma changed_supply_owner pid v v' k a a' (m m' : Mint) d :
  external_unmodified pid v v' -> v !! k = Some a -> v' !! k = Some a' -> a' = set_acc_data a d ->
  unpack (acc_data a) = Ok m -> pack m' (acc_data a) = Ok d ->
  is_u64 (supply m') -> mint_is_initialized m' = true -> supply m' <> supply m ->
  acc_owner a = pid.
Proof.
  intros Hext Ha Ha' -> Hm Hp Hr Hi Hne.
  destruct (decide (acc_owner a = pid)) as [|Ho]; [done|]. exfalso.
  specialize (Hext _ _ _ Ha Ha' Ho). cbn in Hext. rewrite Hext in Hp.
  destruct (repack_mint _ _ _ Hr Hp) as (_ & _ & Hu). cbn in Hu. rewrite Hi in Hu.
  apply Hne. congruence.
Qed.

Lemma unpack_mint_initialized d (m : Mint) : unpack d = Ok m -> mint_is_initialized m = true.
Proof. rewrite unpack_ok. tauto. Qed.

(** Tokens of a mint and the supply of the mint changed by the same amount. *)
Lemma mint_and_account_conserved pid v v' k j mc dc (m m' : Mint) (d d' : TokenAccount) md dd delta :
  v !! k = Some mc -> unpack (acc_data mc) = Ok m ->
  v !! j = Some dc -> unpack (acc_data dc) = Ok d -> k <> j ->
  pack m' (acc_data mc) = Ok md -> pack d' (acc_data dc) = Ok dd ->
  v' = <[k := set_acc_data mc md]> (<[j := set_acc_data dc dd]> v) ->
  is_u64 (supply m') -> mint_is_initialized m' = true ->
  account_in_range d' -> is_initialized d' = true ->
  ta_mint d = k -> ta_mint d' = k -> is_native d' = is_native d ->
  supply m' = supply m + delta -> ta_amount d' = ta_amount d + delta ->
  (delta = 0 -> acc_owner mc = pid /\ acc_owner dc = pid) ->
  ledger_wf pid v -> external_unmodified pid v v' -> conserved pid v v'.
Proof.
  intros Hmc Hm Hdc Hd Hne Hpm Hpd -> Hrm Him Hrd Hid Hdm Hdm' Hn Hs Ha Hown Hwf Hext.
  assert (acc_owner mc = pid /\ acc_owner dc = pid) as [Hom Hod].
  { destruct (decide (delta = 0)) as [H0|H0]; [by apply Hown|]. split.
    - eapply (changed_supply_owner pid v _ k mc); try done; [by rewrite lookup_insert_eq|lia].
    - eapply (changed_amount_owner pid v _ j dc); try done;
        [by rewrite lookup_insert_ne, lookup_insert_eq|lia]. }
  destruct (repack_mint _ _ _ Hrm Hpm) as (Hl & Hl' & Hu). cbn in Hu. rewrite Him in Hu.
  destruct (repack_account _ _ _ Hrd Hpd) as (Hl2 & Hl2' & Hu2). rewrite Hid in Hu2.
  split.
  - apply ledger_wf_two; [done|by eapply cell_wf_mint|].
    eapply cell_wf_account; [done|exact Hu2|]. rewrite Hdm', Hn, <-Hdm.
    by apply (proj1 (Hwf _ _ Hdc Hod)).
  - intros M HM. rewrite (gap_two _ _ _ _ _ mc dc) by done.
    rewrite (recorded_account _ dc), (recorded_account _ (set_acc_data dc dd)) by done.
    rewrite (circulating_mint _ _ mc), (circulating_mint _ _ (set_acc_data mc md)) by done.
    rewrite (recorded_mint _ mc m), (recorded_mint _ (set_acc_data mc md) m') by done.
    rewrite (circulating_account _ _ dc d), (circulating_account _ _ (set_acc_data dc dd) d') by done.
    rewrite Hdm, Hdm'. repeat destruct (key_eqb _ _); lia.
Qed.

Lemma mint_to_conserved pid accounts amount dec v u v' :
  process_mint_to pid accounts amount dec v = TOk u v' -> is_u64 amount ->
  ledger_wf pid v -> external_unmodified pid v v' -> conserved pid v v'.
Proof.
  intros H Ham Hwf Hext. apply process_mint_to_ok in H as (mi & di & oi & signers & mc & m & dc & d & k &
    dd & md & -> & Hdc & Hd & Hmc & Hm & Hf & Hn & Hdm & Hma & Hval & Hdec & Hown & Hmax & Hmax' & Hpd &
    Hpm & Hne & Hv').
  pose proof (unpack_account_range _ _ Hd) as (? & ? & ?). pose proof (unpack_mint_range _ _ Hm).
  pose proof (unpack_initialized _ _ Hd). pose proof (unpack_mint_initialized _ _ Hm).
  eapply (mint_and_account_conserved pid v v' (key mi) (key di) mc dc m _ d _ md dd amount);
    try done; unfold account_in_range, is_u64 in *; cbn; split_and?; try done; lia.
Qed.

Lemma burn_conserved pid accounts amount dec v u v' :
  process_burn pid accounts amount dec v = TOk u v' -> is_u64 amount ->
  ledger_wf pid v -> external_unmodified pid v v' -> conserved pid v v'.
Proof.
  intros H Ham Hwf Hext. apply process_burn_ok in H as (si & mi & ai & signers & mc & m & sc & s & s' &
    sd & md & -> & Hsc & Hs & Hmc & Hm & Hf & Hn & Hsm & Hle & Hdec & Hauth & Hown & Hle' & Hps &
    Hpm & Hne & Hv').
  pose proof (unpack_account_range _ _ Hs) as Hrs. pose proof (unpack_mint_range _ _ Hm) as Hrm.
  pose proof (unpack_initialized _ _ Hs). pose proof (unpack_mint_initialized _ _ Hm).
  destruct (spend_in_range _ _ _ _ _ _ _ _ _ (ta_amount s - amount) Hauth Hrs (proj1 Ham))
    as (Hrs' & Hiss & Hms & Hns); [destruct Hrs as ([? ?] & _), Ham; unfold is_u64; lia|].
  eapply (mint_and_account_conserved pid v v' (key mi) (key si) mc sc m _ s _ md sd (- amount));
    try done; cbn.
  - unfold is_u64 in *. lia.
  - by rewrite initialized_with_amount, Hiss.
  - congruence.
  - intros Hz. destruct Hown; [lia|done].
Qed.

Lemma unpack_zero_account : unpack (T:=TokenAccount) zero_account = Err ProgramError.UninitializedAccount.
Proof. vm_compute. reflexivity. Qed.

Lemma close_conserved pid accounts v u v' :
  process_close_account pid accounts v = TOk u v' -> ledger_wf pid v -> conserved pid v v'.
Proof.
  intros H Hwf. apply process_close_account_ok in H as (si & di & ai & signers & sc & s & dc & -> & Hne &
    Hsc & Hs & Hdc & Hz & _ & _ & ->).
  eapply conserved_trans; [by apply conserved_lamports|].
  apply (conserved_insert _ _ _ sc).
  - by apply conserved_lamports.
  - by rewrite lookup_insert_ne.
  - done.
  - intros Ho. assert (length (acc_data sc) = 165%nat) by (by apply unpack_ok in Hs as [? _]).
    assert (length (acc_data (rewritten sc 0 zero_account)) = 165%nat)
      by reflexivity.
    split.
    + split; [intros t Ht; change (unpack zero_account = Ok t) in Ht; by rewrite unpack_zero_account in Ht|].
      intros m Hm. apply unpack_unchecked_ok in Hm as [Hm _]. discriminate Hm.
    + intros M HM. rewrite !recorded_account by done. split; [|done].
      unfold circulating at 1.
      change (acc_data (rewritten sc 0 zero_account)) with zero_account. rewrite unpack_zero_account.
      transitivity 0; [by destruct (key_eqb _ _)|]. symmetry.
      destruct (is_native s) eqn:Hn; [by eapply circulating_native; [eapply Hwf|..]|].
      rewrite (circulating_account _ _ _ s), Hz by done. by destruct (key_eqb _ _).
Qed.

Lemma initialize_mint_conserved pid accounts dec ma fa b v u v' :
  _process_initialize_mint accounts dec ma fa b v = TOk u v' ->
  ledger_wf pid v -> conserved pid v v'.
Proof.
  intros H Hwf. apply process_initialize_mint_ok in H as (mi & rest & a & m & d & -> & Ha & Hm & Hi & Hp & ->).
  apply unpack_unchecked_ok in Hm as [Hl Hm]. pose proof (unpack_in_range _ _ Hm) as Hr. cbn in Hl, Hm, Hr.
  destruct (repack_mint _ _ _ (Hr : is_u64 (supply (mkMint (Some ma) (supply m) dec true fa))) Hp)
    as (_ & Hl' & Hu). cbn in Hu.
  apply (conserved_insert _ _ _ a); try done. intros Ho. split; [by eapply cell_wf_mint|].
  intros M HM. rewrite !circulating_mint by done. split; [done|].
  rewrite (recorded_mint _ (set_acc_data a d) _ Ho Hu). cbn.
  assert (supply m = 0) as ->.
  { apply (proj2 (Hwf _ _ Ha Ho)); [|done]. by apply unpack_unchecked_ok. }
  unfold recorded. destruct (key_eqb _ _); [|done]. destruct (unpack (acc_data a)) as [m'| |] eqn:E; try done.
  apply unpack_ok in E as (_ & E & E'). cbn in E, E'. congruence.
Qed.

Lemma initialize_account_conserved pid accounts oa b v u v' :
  _process_initialize_account pid accounts oa b v = TOk u v' ->
  (forall k a, v !! k = Some a -> is_u64 (acc_lamports a)) ->
  ledger_wf pid v -> conserved pid v v'.
Proof.
  intros H Hlam Hwf. apply process_initialize_account_ok in H as (ni & mi & rest & a & t & o & native &
    amount & d & -> & Ha & Ht & Hi & Hnat & Hnon & _ & Hp & ->).
  apply unpack_unchecked_ok in Ht as [Hl Ht]. cbn in Hl, Ht.
  set (t' := mkTokenAccount _ _ _ _ _ _ _ _) in Hp.
  assert (Hr : account_in_range t' /\ (is_native t' = true <-> ta_mint t' = native_mint_id) /\
    (ta_mint t' <> native_mint_id -> ta_amount t' = 0)).
  { specialize (Hlam _ _ Ha). unfold account_in_range, is_u64, is_native in *. cbn.
    destruct (decide (key mi = native_mint_id)) as [Hk|Hk].
    - destruct (Hnat Hk) as (r & -> & Hr & Hle & ->). split_and!; try done; try lia.
    - destruct (Hnon Hk) as (-> & -> & _). unfold U64_MAX. split_and!; try done; try lia. }
  destruct Hr as (Hr & Hn & Hz). destruct (repack_account _ _ _ Hr Hp) as (_ & Hl' & Hu). cbn in Hu.
  apply (conserved_insert _ _ _ a); try done. intros Ho.
  split; [by eapply cell_wf_account|]. intros M HM. rewrite !recorded_account by done. split; [|done].
  rewrite (circulating_account _ _ (set_acc_data a d) _ Ho Hu). cbn [ta_mint ta_amount t'].
  transitivity 0.
  - destruct (key_eqb _ _) eqn:E; [|done]. apply key_eqb_eq in E as <-. by apply Hz.
  - unfold circulating. destruct (key_eqb _ _); [|done].
    destruct (unpack (acc_data a)) as [x| |] eqn:E; try done.
    apply unpack_ok in E as (_ & E & E'). cbn in E, E', Hi. congruence.
Qed.

Lemma initialize_multisig_conserved pid accounts m b v u v' :
  _process_initialize_multisig accounts m b v = TOk u v' ->
  ledger_wf pid v -> conserved pid v v'.
Proof.
  intros H Hwf. apply process_initialize_multisig_ok in H
    as (i & rest & a & ms & d & -> & Ha & Hm & Hi & Hlen & _ & Hp & ->).
  apply unpack_unchecked_ok in Hm as [Hl Hm]. pose proof (unpack_in_range _ _ Hm) as Hr. cbn in Hl, Hr.
  apply repack_multisig in Hp as (_ & Hl' & _).
  2: { unfold multisig_in_range in *. cbn. rewrite length_app, length_fmap, length_drop, Hr. lia. }
  assert (Hother : forall c : Account, length (acc_data c) = 355%nat ->
    cell_wf c /\ forall M, circulating pid M c = 0 /\ recorded pid c = 0).
  { intros c Hc. split; [split|].
    - intros t Ht. apply unpack_ok in Ht as [Ht _]. cbn in Ht. congruence.
    - intros t Ht. apply unpack_unchecked_ok in Ht as [Ht _]. cbn in Ht. congruence.
    - intros M. unfold circulating, recorded. destruct (key_eqb _ _); [|done]. split.
      + destruct (unpack _) eqn:E; try done. apply unpack_ok in E as [E _]. cbn in E. congruence.
      + destruct (unpack _) eqn:E; try done. apply unpack_ok in E as [E _]. cbn in E. congruence. }
  apply (conserved_insert _ _ _ a); try done. intros Ho.
  destruct (Hother a Hl) as [_ H1]. destruct (Hother (set_acc_data a d) Hl') as [H2 H3].
  split; [done|]. intros M _. destruct (H1 M) as [-> ->], (H3 M) as [-> ->]. done.
Qed.

Lemma is_u64_0 : is_u64 0.
Proof. by apply is_u64b_spec. Qed.

Lemma approve_conserved pid accounts amount dec v u v' :
  process_approve pid accounts amount dec v = TOk u v' -> is_u64 amount ->
  ledger_wf pid v -> conserved pid v v'.
Proof.
  intros H Ham Hwf. apply process_approve_ok in H as (si & mints & di & oi & sg & t & _ & _ & _ & _ & H).
  destruct H as (a & d & Ha & Ht & Hp & Hv').
  pose proof (unpack_account_range _ _ Ht) as (? & ? & ?). pose proof (unpack_initialized _ _ Ht).
  eapply account_update_conserved; [by exists a, d; eauto|..]; try done. by left.
Qed.

Lemma revoke_conserved pid accounts v u v' :
  process_revoke pid accounts v = TOk u v' -> ledger_wf pid v -> conserved pid v v'.
Proof.
  intros H Hwf. apply process_revoke_ok in H as (si & oi & sg & t & _ & _ & _ & H).
  destruct H as (a & d & Ha & Ht & Hp & Hv').
  pose proof (unpack_account_range _ _ Ht) as (? & ? & ?). pose proof (unpack_initialized _ _ Ht).
  pose proof is_u64_0.
  eapply account_update_conserved; [by exists a, d; eauto|..]; try done. by left.
Qed.

Lemma set_authority_conserved pid accounts at_ na v u v' :
  process_set_authority pid accounts at_ na v = TOk u v' -> ledger_wf pid v -> conserved pid v v'.
Proof.
  intros H Hwf. pose proof is_u64_0.
  apply process_set_authority_ok in H as (i & ai & sg & _ & [(t & t' & _ & Hs & H)|(m & m' & Hs & H)]).
  - destruct H as (a & d & Ha & Ht & Hp & Hv').
    pose proof (unpack_account_range _ _ Ht) as (? & ? & ?). pose proof (unpack_initialized _ _ Ht).
    apply set_account_authority_ok in Hs as (_ & [(_ & _ & k & _ & ->)|(_ & _ & ->)]).
    + eapply account_update_conserved; [by exists a, d; eauto|..]; try done;
        destruct (is_native t) eqn:En; try done; by left.
    + eapply account_update_conserved; [by exists a, d; eauto|..]; try done. by left.
  - destruct H as (a & d & Ha & Hm & Hp & ->).
    pose proof (unpack_mint_range _ _ Hm) as Hr. pose proof (unpack_mint_initialized _ _ Hm) as Hi.
    apply set_mint_authority_ok in Hs as (_ & Hsup & _ & Hi' & _). rewrite <-Hsup in Hr.
    destruct (repack_mint _ _ _ Hr Hp) as (Hl & Hl' & Hu). cbn in Hu. rewrite Hi', Hi in Hu.
    apply (conserved_insert _ _ _ a); try done. intros Ho. split; [by eapply cell_wf_mint|].
    intros M HM. rewrite !circulating_mint by done. split; [done|].
    rewrite (recorded_mint _ (set_acc_data a d) m'), (recorded_mint _ a m) by done. done.
Qed.

Lemma toggle_freeze_conserved pid accounts b v u v' :
  process_toggle_freeze_account pid accounts b v = TOk u v' -> ledger_wf pid v -> conserved pid v v'.
Proof.
  intros H Hwf. apply process_toggle_freeze_ok in H
    as (si & mi & ai & sg & t & mc & m & k & _ & _ & _ & _ & _ & _ & _ & _ & H).
  destruct H as (a & d & Ha & Ht & Hp & Hv').
  pose proof (unpack_account_range _ _ Ht) as (? & ? & ?).
  eapply account_update_conserved; [by exists a, d; eauto|..]; try done; [by destruct b|by left].
Qed.

Lemma sync_native_conserved pid accounts v u v' :
  process_sync_native pid accounts v = TOk u v' ->
  (forall k a, v !! k = Some a -> is_u64 (acc_lamports a)) ->
  ledger_wf pid v -> conserved pid v v'.
Proof.
  intros H Hlam Hwf. apply process_sync_native_ok in H
    as (i & rest & t & a & r & _ & Ha & Ho & Hn & Hle & Hle' & H).
  destruct H as (a' & d & Ha' & Ht & Hp & Hv'). specialize (Hlam _ _ Ha).
  pose proof (unpack_account_range _ _ Ht) as (? & Hrn & ?). pose proof (unpack_initialized _ _ Ht).
  assert (is_native t = true) by (unfold is_native; by rewrite Hn). rewrite Hn in Hrn. cbn in Hrn.
  eapply account_update_conserved; [by exists a', d; eauto|..]; try done; [|by right].
  unfold account_in_range, is_u64 in *. cbn. rewrite Hn. cbn. unfold is_u64 in *. split_and!; try done; lia.
Qed.

Lemma process_conserved pid accounts input v v' :
  (forall k a, v !! k = Some a -> is_u64 (acc_lamports a)) -> ledger_wf pid v ->
  external_unmodified pid v v' -> process pid accounts input v = TOk tt v' -> conserved pid v v'.
Proof.
  intros Hlam Hwf Hext Hrun. unfold process in Hrun.
  apply prog_bind_ok in Hrun as (i & w & Hi & H). apply lift_ok in Hi as [Hi ->].
  apply token_unpack_in_range in Hi. destruct i; cbn in Hi;
    eauto using initialize_mint_conserved, initialize_account_conserved,
      initialize_multisig_conserved, approve_conserved, revoke_conserved, set_authority_conserved,
      mint_to_conserved, burn_conserved, close_conserved, toggle_freeze_conserved,
      sync_native_conserved, transfer_conserved, process_transfer_ok.
Qed.

(** C2: A successful instruction of the token program keeps, for every mint other than
    the native one, the difference between the supply the mint records and the sum of
    the balances of its token accounts: tokens appear only by minting and vanish only by
    burning, also when accounts repeat in the instruction. It also keeps every cell well
    formed (native exactly when its mint is the native mint; an uninitialized mint
    records no supply). The runtime guarantee that the program cannot change the data of
    accounts it does not own is a hypothesis. *)
Theorem process_conserves_supply (pid : Pubkey) (accounts : list AccountInfo) (input : list byte)
    (v v' : view)
    (Hlam : forall k a, v !! k = Some a -> is_u64 (acc_lamports a))
    (Hwf : ledger_wf pid v)
    (Hext : external_unmodified pid v v')
    (Hrun : process pid accounts input v = TOk tt v') :
  ledger_wf pid v' /\
  forall M, M <> native_mint_id -> supply_gap pid M v' = supply_gap pid M v.
Proof. by eapply process_conserved. Qed.

End supply.

(** ** Instances *)
Definition cell_wfb (a : Account) : bool :=
  match unpack (T:=TokenAccount) (acc_data a) with
  | Ok t => Bool.eqb (is_native t) (key_eqb (ta_mint t) native_mint_id)
  | _ => true
  end &&
  match unpack_unchecked (T:=Mint) (acc_data a) with
  | Ok m => mint_is_initialized m || (supply m =? 0)
  | _ => true
  end.

Lemma cell_wfb_ok a : cell_wfb a = true -> cell_wf a.
Proof.
  unfold cell_wfb. rewrite andb_true_iff. intros [H1 H2]. split.
  - intros t Ht. rewrite Ht in H1. apply eqb_prop in H1. by rewrite H1, key_eqb_eq.
  - intros m Hm Hi. rewrite Hm, Hi in H2. by apply Z.eqb_eq.
Qed.

Definition ledger_wfb (pid : Pubkey) (v : view) : bool :=
  forallb (fun '(_, a) => negb (key_eqb (acc_owner a) pid) || cell_wfb a) (map_to_list v).

Lemma ledger_wfb_ok pid v : ledger_wfb pid v = true -> ledger_wf pid v.
Proof.
  unfold ledger_wfb. rewrite forallb_forall. intros H k a Hk Ho.
  apply elem_of_map_to_list, list_elem_of_In, H in Hk.
  apply orb_true_iff in Hk as [Hk|Hk]; [|by apply cell_wfb_ok].
  by rewrite (proj2 (key_eqb_eq _ _) Ho) in Hk.
Qed.

Definition external_unmodifiedb (pid : Pubkey) (v v' : view) : bool :=
  forallb (fun '(k, a) => key_eqb (acc_owner a) pid ||
    match v' !! k with Some a' => bool_decide (acc_data a' = acc_data a) | None => true end)
    (map_to_list v).

Lemma external_unmodifiedb_ok pid v v' :
  external_unmodifiedb pid v v' = true -> external_unmodified pid v v'.
Proof.
  unfold external_unmodifiedb. rewrite forallb_forall. intros H k a a' Hk Hk' Ho.
  apply elem_of_map_to_list, list_elem_of_In, H in Hk.
  apply orb_true_iff in Hk as [Hk|Hk]; [by apply key_eqb_eq in Hk|].
  rewrite Hk' in Hk. by apply bool_decide_eq_true in Hk.
Qed.

Definition lamports_okb (v : view) : bool :=
  forallb (fun '(_, a) => is_u64b (acc_lamports a)) (map_to_list v).

Lemma lamports_okb_ok v :
  lamports_okb v = true -> forall k a, v !! k = Some a -> is_u64 (acc_lamports a).
Proof.
  unfold lamports_okb. rewrite forallb_forall. intros H k a Hk.
  apply elem_of_map_to_list, list_elem_of_In, H in Hk. by apply is_u64b_spec.
Qed.

Definition ex_mint : Pubkey := toy_key 100.
Definition ex_alice : Pubkey := toy_key 101.
Definition ex_bob : Pubkey := toy_key 102.
Definition ex_alice_tokens : Pubkey := toy_key 201.
Definition ex_bob_tokens : Pubkey := toy_key 202.

Definition ex_holder (o : Pubkey) (amount : Z) : list byte :=
  pack_into_slice (mkTokenAccount ex_mint o amount None Initialized None 0 None) zero_account.

Definition ex_tokens : view :=
  list_to_map
    [(ex_mint, toy_account 1461600
        (pack_into_slice (mkMint (Some ex_alice) 1000 x06 true (Some ex_bob)) (replicate 82 x00))
        spl_token_id);
     (ex_alice_tokens, toy_account 2039280 (ex_holder ex_alice 700) spl_token_id);
     (ex_bob_tokens, toy_account 2039280 (ex_holder ex_bob 300) spl_token_id);
     (ex_alice, toy_account 5000 [] system_program_id)].

Definition ex_transfer (amount : Z) : ProgM unit :=
  process spl_token_id [wr ex_alice_tokens; wr ex_bob_tokens; wr_signer ex_alice]
    (TokenInstruction_pack (Transfer amount)).

Lemma process_conserves_supply_witness :
  exists v', ex_transfer 50 ex_tokens = TOk tt v' /\
    ledger_wf spl_token_id v' /\
    supply_gap spl_token_id ex_mint v' = supply_gap spl_token_id ex_mint ex_tokens.
Proof.
  destruct (tree_result (ex_transfer 50 ex_tokens)) as [v' E]; [vm_true|].
  exists v'. split; [exact E|].
  destruct (process_conserves_supply spl_token_id
    [wr ex_alice_tokens; wr ex_bob_tokens; wr_signer ex_alice]
    (TokenInstruction_pack (Transfer 50)) ex_tokens v') as [Hwf Hgap].
  - apply lamports_okb_ok. vm_true.
  - apply ledger_wfb_ok. vm_true.
  - apply external_unmodifiedb_ok.
    assert (match ex_transfer 50 ex_tokens with
            | TOk _ v => external_unmodifiedb spl_token_id ex_tokens v | _ => false end = true)
      as Hx by vm_true.
    rewrite E in Hx. exact Hx.
  - exact E.
  - split; [exact Hwf|]. apply Hgap. vm_compute. discriminate.
Defined.
