(* ===== verification/TokenSpec.v ===== *)
(** * The abstract token program

    What it means that a key signed an instruction, multisignature accounts included, and the
    specification of the token program: for each instruction, the step each cell of the program
    takes.  Nothing here refers to the handlers of [TokenProcessor] except the facts that connect
    its owner validation with signatures; [TokenSafety] proves that the program refines the
    specification. *)

From Stdlib Require Import Strings.Byte.
From S2P Require Import Prelude Sdk Rent Program TokenState TokenInstruction TokenProcessor TokenFacts.

(** ** Who signed *)

(** The positions of a multisignature whose key signed. *)
Definition signed_by (signers : list AccountInfo) (k : Pubkey) : bool :=
  existsb (fun s => key_eqb k (key s) && is_signer s) signers.

Definition signed_positions (keys : list Pubkey) (signers : list AccountInfo) : Z :=
  Z.of_nat (length (List.filter (signed_by signers) keys)).

(** [matched] after [signer] was looked up at every position of [keys]. *)
Fixpoint mark (signer : AccountInfo) (keys : list Pubkey) (matched : list bool) : list bool :=
  match keys, matched with
  | k :: keys, m :: matched => (m || key_eqb k (key signer)) :: mark signer keys matched
  | _, _ => matched
  end.

Definition trues (l : list bool) : Z := Z.of_nat (length (List.filter id l)).

Lemma trues_cons b l : trues (b :: l) = (if b then 1 else 0) + trues l.
Proof. unfold trues. destruct b; cbn; lia. Qed.

Lemma match_signer_ok signer keys matched n matched' n' :
  match_signer signer keys matched n = Ok (matched', n') ->
  matched' = mark signer keys matched /\ n' = n + trues matched' - trues matched /\
  (is_signer signer = false -> matched' = matched).
Proof.
  revert matched n matched' n'. induction keys as [|k keys IH]; intros matched n matched' n' H.
  { destruct matched; cbn in H; injection H as <- <-; split_and!; done || lia. }
  destruct matched as [|m matched]; [done|]. cbn [match_signer mark] in *. unfold cmp_pubkeys in H.
  destruct (key_eqb k (key signer) && negb m) eqn:E.
  - apply andb_true_iff in E as [Ek Em]. apply negb_true_iff in Em. subst m.
    destruct (is_signer signer) eqn:Es; cbn [negb] in H; [|done].
    apply result_bind_ok in H as ([m1 n1] & H & [= <- <-]). apply IH in H as (-> & -> & _).
    rewrite !trues_cons, Ek. split_and!; cbn; done || lia.
  - apply result_bind_ok in H as ([m1 n1] & H & [= <- <-]). apply IH in H as (-> & -> & Hs).
    rewrite !trues_cons. assert (m || key_eqb k (key signer) = m) as ->
      by (destruct m, (key_eqb k (key signer)); done).
    split_and!; [done|lia|]. intros Hn. by rewrite Hs.
Qed.

(** The marks of the positions whose key is among the signers seen so far. *)
Fixpoint sound (seen : list AccountInfo) (keys : list Pubkey) (matched : list bool) : Prop :=
  match keys, matched with
  | k :: keys, m :: matched => (m = true -> signed_by seen k = true) /\ sound seen keys matched
  | [], matched => trues matched = 0
  | _ :: _, [] => True
  end.

Lemma sound_trues seen keys matched :
  sound seen keys matched -> trues matched <= signed_positions keys seen.
Proof.
  unfold signed_positions. revert matched. induction keys as [|k keys IH]; intros [|m matched] H;
    cbn [sound List.filter length] in *; try (unfold trues in *; cbn in *; lia).
  destruct H as [Hm H]. specialize (IH _ H). rewrite trues_cons.
  destruct m; [rewrite Hm by done; cbn [length]; lia|].
  destruct (signed_by seen k); cbn [length]; lia.
Qed.

Lemma trues_none n : trues (replicate n false) = 0.
Proof. induction n; [done|]. cbn [replicate]. by rewrite trues_cons. Qed.

Lemma sound_none keys n : sound [] keys (replicate n false).
Proof.
  revert n. induction keys as [|k keys IH]; intros n; cbn [sound]; [apply trues_none|].
  destruct n; [done|]. by split.
Qed.

Lemma signed_by_app seen s k :
  signed_by (seen ++ s) k = signed_by seen k || signed_by s k.
Proof. unfold signed_by. apply existsb_app. Qed.

Lemma sound_mark seen s keys matched :
  sound seen keys matched -> (is_signer s = false -> mark s keys matched = matched) ->
  sound (seen ++ [s]) keys (mark s keys matched).
Proof.
  revert matched. induction keys as [|k keys IH]; intros [|m matched] H Hs; cbn [sound mark] in *;
    try done.
  destruct H as [Hm H]. split.
  - intros Ht. rewrite signed_by_app. destruct m; [by rewrite Hm|]. cbn in Ht |- *. rewrite Ht.
    destruct (is_signer s) eqn:E; [by rewrite orb_true_r|]. injection (Hs eq_refl) as Hk _.
    by rewrite Ht in Hk.
  - apply IH; [done|]. intros E. by injection (Hs E).
Qed.

(** The keys a multisignature account counts. *)
Definition counted_keys (ms : Multisig) : list Pubkey :=
  take (Z.to_nat (u8_val (ms_n ms))) (ms_signers ms).

Lemma match_signers_sound signers ms matched n n' seen :
  match_signers signers ms matched n = Ok n' -> n = trues matched ->
  sound seen (counted_keys ms) matched ->
  n' <= signed_positions (counted_keys ms) (seen ++ signers).
Proof.
  revert matched n seen. induction signers as [|s signers IH]; intros matched n seen H Hn Hsound;
    cbn [match_signers] in H.
  - injection H as <-. rewrite app_nil_r, Hn. by apply sound_trues.
  - apply result_bind_ok in H as (keys & Hk & H).
    destruct (_ <=? MAX_SIGNERS)%nat; [|done]. injection Hk as <-. fold (counted_keys ms) in H.
    apply result_bind_ok in H as ([m1 n1] & H1 & H). apply match_signer_ok in H1 as (-> & -> & Hs).
    replace (seen ++ s :: signers) with ((seen ++ [s]) ++ signers) by (by rewrite <-app_assoc).
    eapply IH; [exact H|lia|]. by apply sound_mark.
Qed.

(** When every account passed as a signer did sign, all positions they hold count. *)
Lemma match_signer_all s keys matched n :
  is_signer s = true -> (length keys <= length matched)%nat ->
  match_signer s keys matched n
  = Ok (mark s keys matched, n + trues (mark s keys matched) - trues matched).
Proof.
  intros Hs. revert matched n. induction keys as [|k keys IH]; intros matched n Hl.
  { destruct matched; cbn; do 2 f_equal; lia. }
  destruct matched as [|m matched]; cbn in Hl; [lia|]. cbn [match_signer mark]. unfold cmp_pubkeys.
  rewrite Hs. cbn [negb]. rewrite !IH by lia. rewrite !trues_cons.
  destruct (key_eqb k (key s)), m; cbn; do 2 f_equal; lia.
Qed.

Lemma length_mark s keys matched : length (mark s keys matched) = length matched.
Proof. revert matched. induction keys; intros [|]; cbn; auto. Qed.

Lemma mark_signed seen s keys rest :
  is_signer s = true ->
  mark s keys (map (signed_by seen) keys ++ rest) = map (signed_by (seen ++ [s])) keys ++ rest.
Proof.
  intros Hs. induction keys as [|k keys IH]; cbn; [by destruct rest|].
  rewrite IH, signed_by_app. cbn. by rewrite Hs, andb_true_r, orb_false_r.
Qed.

Lemma trues_signed seen keys n :
  trues (map (signed_by seen) keys ++ replicate n false) = signed_positions keys seen.
Proof.
  unfold signed_positions. induction keys as [|k keys IH]; cbn [map app List.filter].
  - apply trues_none.
  - rewrite trues_cons, IH. destruct (signed_by seen k); cbn [length]; lia.
Qed.

Lemma match_signers_all signers ms seen n :
  u8_val (ms_n ms) <= 11 -> Forall (fun s => is_signer s = true) signers ->
  match_signers signers ms (map (signed_by seen) (counted_keys ms) ++ replicate n false)
    (signed_positions (counted_keys ms) seen)
  = Ok (signed_positions (counted_keys ms) (seen ++ signers)).
Proof.
  intros Hn. set (keys := counted_keys ms). revert seen. induction signers as [|s signers IH]; intros seen Hall; cbn [match_signers].
  - by rewrite app_nil_r.
  - inversion Hall as [|? ? Hs Hall']; subst.
    assert ((Z.to_nat (u8_val (ms_n ms)) <=? MAX_SIGNERS)%nat = true) as ->
      by (apply Nat.leb_le; unfold MAX_SIGNERS; lia).
    cbn [mbind result_bind]. fold (counted_keys ms). fold keys.
    rewrite match_signer_all; [|done|rewrite length_app, length_map; lia].
    cbn [mbind result_bind]. rewrite mark_signed, !trues_signed by done.
    replace (signed_positions keys seen + signed_positions keys (seen ++ [s])
             - signed_positions keys seen) with (signed_positions keys (seen ++ [s])) by lia.
    rewrite IH by done. by rewrite <-app_assoc.
Qed.

(** The multisignature account a cell holds, if the program reads it as one. *)
Definition is_multisig (pid : Pubkey) (a : Account) : bool :=
  key_eqb pid (acc_owner a) && (length (acc_data a) =? 355)%nat.

Lemma validate_owner_ok pid who i signers v a :
  v !! key i = Some a ->
  validate_owner pid who i signers v = TOk tt v <->
  who = key i /\
  if is_multisig pid a then
    exists ms num, unpack (acc_data a) = Ok ms /\
      match_signers signers ms (replicate MAX_SIGNERS false) 0 = Ok num /\ u8_val (ms_m ms) <= num
  else is_signer i = true.
Proof.
  intros Ha. unfold validate_owner, is_multisig.
  assert (Hlen : (Z.of_nat (length (acc_data a)) =? Z.of_nat (LEN (T:=Multisig)))
                 = (length (acc_data a) =? 355)%nat).
  { cbn [LEN Multisig_Pack]. destruct (Nat.eqb_spec (length (acc_data a)) 355); [by rewrite e|].
    apply Z.eqb_neq. lia. }
  split.
  - intros H. unfold cmp_pubkeys in H. inv_token. rewrite Hlen in H. split; [done|].
    destruct (key_eqb pid (acc_owner _) && _).
    + inv_token. match goal with H : negb _ = true |- _ => apply negb_true_iff, Z.ltb_ge in H end.
      eexists _, _. split_and!; eassumption.
    + by inv_token.
  - intros [-> H]. apply prog_bind_ok. exists tt, v. split.
    { apply require_ok. unfold cmp_pubkeys. by rewrite key_eqb_refl. }
    apply prog_bind_ok. eexists _, v. split; [apply with_cell_ok; eauto|].
    apply prog_bind_ok. eexists _, v. split; [apply with_cell_ok; eauto|]. cbv beta. rewrite Hlen.
    unfold cmp_pubkeys. destruct (key_eqb pid (acc_owner a) && _).
    + destruct H as (ms & num & Hms & Hm & Hle).
      apply prog_bind_ok. exists ms, v. split; [apply unpack_cell_ok; eauto|].
      apply prog_bind_ok. exists num, v. split; [by apply lift_ok|].
      apply lift_ok. split; [|done]. apply ensure_ok, negb_true_iff, Z.ltb_ge. done.
    + apply lift_ok. split; [|done]. by apply ensure_ok.
Qed.

(** Owner validation is exact: it accepts only the expected key, and then either the
    account is not a multisignature account and signed, or at least m of its first n
    signer positions hold the key of an account that signed; conversely a signing owner
    is accepted, and a multisignature whose passed signers all signed and fill m
    positions is accepted. *)
Theorem validate_owner_spec (pid who : Pubkey) (i : AccountInfo) (signers : list AccountInfo)
    (v : view) (a : Account)
    (Ha : v !! key i = Some a) :
  (validate_owner pid who i signers v = TOk tt v ->
   who = key i /\
   (is_multisig pid a = false -> is_signer i = true) /\
   (is_multisig pid a = true -> exists ms, unpack (acc_data a) = Ok ms /\
      u8_val (ms_m ms) <= signed_positions (counted_keys ms) signers)) /\
  (is_multisig pid a = false -> is_signer i = true ->
   validate_owner pid (key i) i signers v = TOk tt v) /\
  (forall ms, is_multisig pid a = true -> unpack (acc_data a) = Ok ms -> u8_val (ms_n ms) <= 11 ->
   Forall (fun s => is_signer s = true) signers ->
   u8_val (ms_m ms) <= signed_positions (counted_keys ms) signers ->
   validate_owner pid (key i) i signers v = TOk tt v).
Proof.
  split_and!.
  - intros H. apply (validate_owner_ok _ _ _ _ _ a Ha) in H as [-> H]. split; [done|].
    destruct (is_multisig pid a); [|done]. split; [done|]. intros _.
    destruct H as (ms & num & Hms & Hm & Hle). exists ms. split; [done|].
    apply (match_signers_sound _ _ _ _ _ []) in Hm; [cbn in Hm; lia|done|].
    apply sound_none.
  - intros Hn Hs. apply (validate_owner_ok _ _ _ _ _ a Ha). by rewrite Hn.
  - intros ms Hm Hms Hn Hall Hle. apply (validate_owner_ok _ _ _ _ _ a Ha). rewrite Hm.
    split; [done|]. eexists ms, _. split_and!; try done.
    set (keys := counted_keys ms) in *.
    assert (Hk : (length keys <= 11)%nat) by (unfold keys, counted_keys; rewrite length_take; lia).
    pose proof (match_signers_all signers ms [] (11 - length keys) Hn Hall) as Hms'. fold keys in Hms'.
    assert (map (signed_by []) keys ++ replicate (11 - length keys) false
            = replicate MAX_SIGNERS false) as Hr.
    { unfold MAX_SIGNERS. replace (replicate 11 false)
        with (replicate (length keys + (11 - length keys)) false) by (f_equal; lia).
      rewrite replicate_add. f_equal. generalize keys. clear. intros l. by induction l; cbn; f_equal. }
    rewrite Hr in Hms'. cbn [app] in Hms'.
    assert (signed_positions keys [] = 0) as H0.
    { unfold signed_positions. generalize keys. clear. intros l. by induction l. }
    rewrite H0 in Hms'. exact Hms'.
Qed.

(** The key [who] signed: an account of the instruction has this key and signed or, if the program
    reads it as a multisignature account, at least m of its n keys are those of accounts that signed. *)
Definition authorised (pid : Pubkey) (accounts : list AccountInfo) (v : view) (who : Pubkey) : Prop :=
  exists i a, i ∈ accounts /\ key i = who /\ v !! who = Some a /\
    if is_multisig pid a
    then exists ms, unpack (acc_data a) = Ok ms /\ u8_val (ms_m ms) <= signed_positions (counted_keys ms) accounts
    else is_signer i = true.

Lemma signed_by_incl signers accounts k : incl signers accounts -> signed_by signers k = true -> signed_by accounts k = true.
Proof.
  intros Hi. unfold signed_by. rewrite !existsb_exists. intros (s & Hs & Hk). exists s. split; [by apply Hi|done].
Qed.

Lemma signed_positions_incl signers accounts keys :
  incl signers accounts -> signed_positions keys signers <= signed_positions keys accounts.
Proof.
  intros Hi. unfold signed_positions. induction keys as [|k keys IH]; cbn [List.filter]; [done|].
  destruct (signed_by signers k) eqn:E.
  - rewrite (signed_by_incl _ _ _ Hi E). cbn [length]. lia.
  - destruct (signed_by accounts k); cbn [length]; lia.
Qed.

(** Owner validation succeeds only for keys that signed. *)
Lemma authorised_intro {SV : Sysvars} pid accounts v who i signers :
  validate_owner pid who i signers v = TOk tt v -> In i accounts -> incl signers accounts ->
  authorised pid accounts v who.
Proof.
  intros H Hin Hincl. assert (exists a, v !! key i = Some a) as [a Ha].
  { pose proof H as H'. unfold validate_owner in H'. inv_token. eauto. }
  destruct (proj1 (validate_owner_spec pid who i signers v a Ha) H) as (-> & Hs & Hm).
  exists i, a. split_and!; [by apply list_elem_of_In|done..|]. destruct (is_multisig pid a); [|by apply Hs].
  destruct (Hm eq_refl) as (ms & Hms & Hle). exists ms. split; [done|].
  pose proof (signed_positions_incl _ _ (counted_keys ms) Hincl). lia.
Qed.

(** ** The accounts of an instruction *)

(** The account at position [n] has the key [k]. *)
Definition at_pos (accounts : list AccountInfo) (n : nat) (k : Pubkey) : Prop :=
  exists i, accounts !! n = Some i /\ key i = k.

(** The amount of a transfer and the position of its destination. *)
Definition transfers (ix : TokenInstruction) : option (Z * nat) :=
  match ix with
  | Transfer x => Some (x, 1%nat)
  | TransferChecked x _ => Some (x, 2%nat)
  | _ => None
  end.
Definition burns (ix : TokenInstruction) : option Z :=
  match ix with Burn x | BurnChecked x _ => Some x | _ => None end.
Definition mints (ix : TokenInstruction) : option Z :=
  match ix with MintTo x | MintToChecked x _ => Some x | _ => None end.

(** The amount taken from the account at position 0. *)
Definition spends (ix : TokenInstruction) : option Z :=
  match transfers ix with Some (x, _) => Some x | None => burns ix end.
(** The amount credited, and to which position. *)
Definition credits (ix : TokenInstruction) : option (Z * nat) :=
  match transfers ix with Some p => Some p | None => (fun x => (x, 1%nat)) <$> mints ix end.
(** The allowance granted, and the position of the delegate. *)
Definition approves (ix : TokenInstruction) : option (Z * nat) :=
  match ix with
  | Approve x => Some (x, 1%nat)
  | ApproveChecked x _ => Some (x, 2%nat)
  | _ => None
  end.
Definition freezes (ix : TokenInstruction) : option bool :=
  match ix with FreezeAccount => Some true | ThawAccount => Some false | _ => None end.

(** The positions an instruction writes. *)
Definition positions (ix : TokenInstruction) : list nat :=
  match ix with
  | Transfer _ | MintTo _ | Burn _ | MintToChecked _ _ | BurnChecked _ _ | CloseAccount => [0; 1]%nat
  | TransferChecked _ _ => [0; 2]%nat
  | _ => [0]%nat
  end.
Definition writes (ix : TokenInstruction) (accounts : list AccountInfo) (k : Pubkey) : Prop :=
  exists n, n ∈ positions ix /\ at_pos accounts n k.
Definition self_transfer (ix : TokenInstruction) (accounts : list AccountInfo) : Prop :=
  exists x n k, transfers ix = Some (x, n) /\ at_pos accounts 0 k /\ at_pos accounts n k.

Section steps.
Variables (pid : Pubkey) (accounts : list AccountInfo) (ix : TokenInstruction) (v : view).

(** ** The steps of a token account *)

(** Taking [x] from [t] leaves [t']: the owner signed, or the delegate did, whose allowance covers the
    amount and shrinks by it. *)
Inductive spend (t : TokenAccount) (x : Z) : TokenAccount -> Prop :=
| spend_owner : authorised pid accounts v (ta_owner t) -> spend t x (with_amount t (ta_amount t - x))
| spend_delegate dl :
    ta_delegate t = Some dl -> x <= ta_delegated_amount t -> authorised pid accounts v dl ->
    spend t x
      (with_amount (with_delegate t (if ta_delegated_amount t - x =? 0 then None else Some dl)
                      (ta_delegated_amount t - x)) (ta_amount t - x)).

(** The step of the token account [t] with key [k] and [l] lamports. *)
Inductive account_step (k : Pubkey) (l : Z) (t : TokenAccount) : TokenAccount -> Prop :=
| step_debit x t' :
    spends ix = Some x -> at_pos accounts 0 k -> (transfers ix = None -> is_native t = false) ->
    is_frozen t = false -> 0 <= x <= ta_amount t -> spend t x t' ->
    account_step k l t t'
| step_credit x n :
    credits ix = Some (x, n) -> at_pos accounts n k -> (transfers ix = None -> is_native t = false) ->
    is_frozen t = false -> 0 <= x -> ta_amount t + x <= U64_MAX ->
    account_step k l t (with_amount t (ta_amount t + x))
| step_sync r :
    ix = SyncNative -> at_pos accounts 0 k -> ta_is_native t = Some r -> ta_amount t <= l - r ->
    account_step k l t (with_amount t (l - r))
| step_approve x n d :
    approves ix = Some (x, n) -> at_pos accounts 0 k -> at_pos accounts n d -> is_frozen t = false ->
    authorised pid accounts v (ta_owner t) ->
    account_step k l t (with_delegate t (Some d) x)
| step_revoke :
    ix = Revoke -> at_pos accounts 0 k -> is_frozen t = false -> authorised pid accounts v (ta_owner t) ->
    account_step k l t (with_delegate t None 0)
| step_owner o :
    ix = SetAuthority AccountOwner (Some o) -> at_pos accounts 0 k -> is_frozen t = false ->
    authorised pid accounts v (ta_owner t) ->
    account_step k l t
      (let u := with_delegate (with_owner t o) None 0 in
       if is_native t then with_close_authority u None else u)
| step_close_authority c :
    ix = SetAuthority AuthCloseAccount c -> at_pos accounts 0 k -> is_frozen t = false ->
    authorised pid accounts v (default (ta_owner t) (ta_close_authority t)) ->
    account_step k l t (with_close_authority t c)
| step_freeze b a m fa :
    freezes ix = Some b -> at_pos accounts 0 k -> at_pos accounts 1 (ta_mint t) ->
    is_frozen t = negb b -> is_native t = false -> v !! ta_mint t = Some a ->
    unpack (acc_data a) = Ok m -> freeze_authority m = Some fa -> authorised pid accounts v fa ->
    account_step k l t (with_state t (if b then Frozen else Initialized)).

(** The lamports of a token account move with its tokens when wrapped lamports are transferred. *)
Definition moved (t t' : TokenAccount) : Z :=
  if is_native t then match transfers ix with Some _ => ta_amount t' - ta_amount t | None => 0 end else 0.

(** ** The steps of a mint *)
Inductive mint_step (k : Pubkey) (m : Mint) : Mint -> Prop :=
| step_mint_to x au :
    mints ix = Some x -> at_pos accounts 0 k -> mint_authority m = Some au -> authorised pid accounts v au ->
    0 <= x -> supply m + x <= U64_MAX -> mint_step k m (with_supply m (supply m + x))
| step_burn x k0 a0 t0 t1 :
    burns ix = Some x -> at_pos accounts 1 k -> at_pos accounts 0 k0 -> v !! k0 = Some a0 ->
    unpack (acc_data a0) = Ok t0 -> ta_mint t0 = k -> is_frozen t0 = false -> x <= ta_amount t0 -> spend t0 x t1 ->
    0 <= x <= supply m -> mint_step k m (with_supply m (supply m - x))
| step_mint_authority au new :
    ix = SetAuthority MintTokens new -> at_pos accounts 0 k ->
    mint_authority m = Some au -> authorised pid accounts v au ->
    mint_step k m (mkMint new (supply m) (decimals m) (mint_is_initialized m) (freeze_authority m))
| step_freeze_authority au new :
    ix = SetAuthority AuthFreezeAccount new -> at_pos accounts 0 k ->
    freeze_authority m = Some au -> authorised pid accounts v au ->
    mint_step k m (mkMint (mint_authority m) (supply m) (decimals m) (mint_is_initialized m) new).

(** ** Initialization *)

(** The owner an instruction gives a new token account. *)
Definition new_owner (o : Pubkey) : Prop :=
  match ix with
  | InitializeAccount => at_pos accounts 2 o
  | InitializeAccount2 o' | InitializeAccount3 o' => o = o'
  | _ => False
  end.

(** A new token account holds nothing, or what the lamports above the reserve wrap. *)
Definition new_account (l : Z) (t t' : TokenAccount) : Prop :=
  exists mint o native amount,
    at_pos accounts 1 mint /\ new_owner o /\
    t' = mkTokenAccount mint o amount None Initialized native 0 (ta_close_authority t) /\
    match native with
    | Some r => mint = native_mint_id /\ amount + r = l
    | None => mint <> native_mint_id /\ amount = 0 /\ exists mc m,
        v !! mint = Some mc /\ acc_owner mc = pid /\ unpack (T:=Mint) (acc_data mc) = Ok m
    end.

Definition new_mint (m m' : Mint) : Prop :=
  match ix with
  | InitializeMint dec ma fa | InitializeMint2 dec ma fa => m' = mkMint (Some ma) (supply m) dec true fa
  | _ => False
  end.

Definition new_multisig (ms ms' : Multisig) : Prop :=
  exists m infos,
    match ix with
    | InitializeMultisig m0 => m = m0 /\ infos = drop 2 accounts
    | InitializeMultisig2 m0 => m = m0 /\ infos = drop 1 accounts
    | _ => False
    end /\
    1 <= u8_val m <= 11 /\ (1 <= length infos <= 11)%nat /\
    ms' = mkMultisig m (u8_of (Z.of_nat (length infos))) true
            ((key <$> infos) ++ drop (length infos) (ms_signers ms)).

(** ** The steps of a cell *)
Inductive cell_step (k : Pubkey) (a : Account) : Account -> Prop :=
| step_keep : ~ writes ix accounts k \/ self_transfer ix accounts -> cell_step k a a
| step_receive k0 a0 :
    ix = CloseAccount -> at_pos accounts 1 k -> at_pos accounts 0 k0 -> k0 <> k -> v !! k0 = Some a0 ->
    cell_step k a (set_acc_lamports a (acc_lamports a + acc_lamports a0))
| step_account (t t' : TokenAccount) a' :
    unpack (acc_data a) = Ok t -> account_step k (acc_lamports a) t t' -> unpack (acc_data a') = Ok t' ->
    acc_lamports a' = acc_lamports a + moved t t' ->
    cell_step k a a'
| step_close (t : TokenAccount) a' :
    ix = CloseAccount -> at_pos accounts 0 k ->
    unpack (acc_data a) = Ok t -> (is_native t = false -> ta_amount t = 0) ->
    authorised pid accounts v (default (ta_owner t) (ta_close_authority t)) ->
    acc_data a' = zero_account -> acc_lamports a' = 0 ->
    cell_step k a a'
| step_mint (m m' : Mint) a' :
    unpack (acc_data a) = Ok m -> mint_step k m m' -> unpack (acc_data a') = Ok m' ->
    acc_lamports a' = acc_lamports a ->
    cell_step k a a'
| step_init_account (t t' : TokenAccount) a' :
    at_pos accounts 0 k -> unpack_unchecked (acc_data a) = Ok t -> is_initialized t = false ->
    new_account (acc_lamports a) t t' -> unpack (acc_data a') = Ok t' -> acc_lamports a' = acc_lamports a ->
    cell_step k a a'
| step_init_mint (m m' : Mint) a' :
    at_pos accounts 0 k -> unpack_unchecked (acc_data a) = Ok m -> mint_is_initialized m = false ->
    new_mint m m' -> unpack (acc_data a') = Ok m' -> acc_lamports a' = acc_lamports a ->
    cell_step k a a'
| step_init_multisig (ms ms' : Multisig) a' :
    at_pos accounts 0 k -> unpack_unchecked (acc_data a) = Ok ms -> ms_is_initialized ms = false ->
    new_multisig ms ms' -> unpack (acc_data a') = Ok ms' -> acc_lamports a' = acc_lamports a ->
    cell_step k a a'.

(** Every cell of the store keeps its owner, and every cell of the program takes the step of the
    instruction. *)
Definition refines (v' : view) : Prop :=
  forall k a, v !! k = Some a -> exists a', v' !! k = Some a' /\ acc_owner a' = acc_owner a /\
    (acc_owner a = pid -> cell_step k a a').

End steps.
