(* ===== verification/TokenSafety.v ===== *)
(** * Who may change a token account, and how

    An abstract specification of the token program, one step per cell, and the
    theorem that [process] refines it; then the consequences that make the
    program safe to hold tokens in. *)

From Stdlib Require Import Strings.Byte.
From S2P Require Import Prelude Sdk Rent Program TokenState TokenInstruction TokenProcessor TokenFacts TokenSupply TokenSpec Fixtures.

Section safety.
Context {SV : Sysvars}.

Ltac at_position := by eexists; split; [reflexivity|].

(** The keys an instruction writes are those at its positions. *)
Ltac written :=
  let n := fresh in let Hn := fresh in let i := fresh in let Hi := fresh in
  intros (n & Hn & i & Hi & <-); cbn in Hn;
  repeat (apply elem_of_cons in Hn as [->|Hn]); try (by apply not_elem_of_nil in Hn);
  cbn in Hi; simplify_eq; try done.

Lemma refines_same pid accounts ix v :
  (forall k, ~ writes ix accounts k) \/ self_transfer ix accounts -> refines pid accounts ix v v.
Proof.
  intros H k a Hk. exists a. split_and!; [done..|]. intros _. apply step_keep. naive_solver.
Qed.

Lemma refines_insert pid accounts ix v k a a' :
  (forall j, j <> k -> ~ writes ix accounts j) ->
  v !! k = Some a -> acc_owner a' = acc_owner a ->
  (acc_owner a = pid -> cell_step pid accounts ix v k a a') ->
  refines pid accounts ix v (<[k := a']> v).
Proof.
  intros Hw Hk Ho Hs j b Hj. rewrite lookup_insert. case_decide as E.
  - subst. exists a'. assert (b = a) as -> by congruence. done.
  - exists b. split_and!; [done..|]. intros _. apply step_keep. left. by apply Hw.
Qed.

Lemma refines_insert2 pid accounts ix v k j a b a' b' :
  (forall i, i <> k -> i <> j -> ~ writes ix accounts i) ->
  v !! k = Some a -> v !! j = Some b -> k <> j ->
  acc_owner a' = acc_owner a -> acc_owner b' = acc_owner b ->
  (acc_owner a = pid -> cell_step pid accounts ix v k a a') ->
  (acc_owner b = pid -> cell_step pid accounts ix v j b b') ->
  refines pid accounts ix v (<[k := a']> (<[j := b']> v)).
Proof.
  intros Hw Hk Hj Hne Ho Ho' Hs Hs' i c Hi. rewrite !lookup_insert.
  repeat case_decide; subst.
  - exists a'. assert (c = a) as -> by congruence. done.
  - exists b'. assert (c = b) as -> by congruence. done.
  - exists c. split_and!; [done..|]. intros _. apply step_keep. left. by apply Hw.
Qed.

(** The authority is the account before the signers, which are the rest. *)
Lemma authorised_tail pid l i signers v who :
  validate_owner pid who i signers v = TOk tt v -> authorised pid (l ++ i :: signers) v who.
Proof.
  intros. eapply authorised_intro; [done|..].
  - apply in_or_app. right. left. done.
  - intros x Hx. apply in_or_app. right. by right.
Qed.

Lemma authorize_spend_step pid l t i signers x v t' v' :
  authorize_spend pid t i signers x false v = TOk t' v' ->
  spend pid (l ++ i :: signers) v t x (with_amount t' (ta_amount t - x)).
Proof.
  unfold authorize_spend. cbv zeta. intros H.
  destruct (ta_delegate t) as [dl|] eqn:Ed; [destruct (cmp_pubkeys (key i) dl)|].
  - inv_token. subst. eapply spend_delegate; try done. by apply authorised_tail.
  - inv_token. apply spend_owner. by apply authorised_tail.
  - inv_token. apply spend_owner. by apply authorised_tail.
Qed.

Lemma transfer_refines pid accounts ix amount dec v u v' :
  transfers ix = Some (amount, S (mint_count dec)) -> positions ix = [0; S (mint_count dec)]%nat ->
  process_transfer pid accounts amount dec v = TOk u v' -> is_u64 amount ->
  ledger_wf pid v -> external_unmodified pid v v' -> refines pid accounts ix v v'.
Proof.
  intros Hix Hpos H Ham Hwf Hext. apply process_transfer_ok in H as Hspec.
  assert (Hd : forall si mints di l, length mints = mint_count dec ->
    at_pos (si :: mints ++ di :: l) (S (mint_count dec)) (key di)).
  { intros si ms di l <-. exists di. cbn. split; [|done]. by apply list_lookup_middle. }
  destruct (transfer_facts _ _ _ _ _ _ Hspec Ham Hext) as [(-> & si & di & ai & sg & ms & -> & Hc & E)|
    (si & di & ai & signers & ms & sc & dc &
    s & d & s' & ls & ld & ds & dd & [-> Hc] & Hne & Hsc & Hs & Hdc & Hd' & Hos & Hod & Hfs & Hfd & Hle & Hmax &
    Hmint & Hauth & (_ & _ & Hu1) & (_ & _ & Hu2) & Hms & Hns & Hlam & ->)].
  { apply refines_same. right. exists amount, (S (mint_count dec)), (key si). split_and!; [done|at_position|].
    rewrite E. by apply Hd. }
  assert (Hnat : is_native d = is_native s).
  { pose proof (proj1 (Hwf _ _ Hsc Hos) _ Hs) as H1. pose proof (proj1 (Hwf _ _ Hdc Hod) _ Hd') as H2.
    rewrite Hmint, <-H2 in H1. destruct (is_native d), (is_native s); intuition congruence. }
  destruct Ham as [Ham0 _]. apply (refines_insert2 _ _ _ _ _ _ dc sc); try done; try intros _.
  - intros k Hk Hk' (n & Hn & i & Hi & Ek). rewrite Hpos in Hn.
    apply elem_of_cons in Hn as [->|[->|Hn%not_elem_of_nil]%elem_of_cons]; [by simplify_eq/=| |done].
    destruct (Hd si ms di (ai :: signers) Hc) as (i' & Hi' & Ei'). congruence.
  - eapply (step_account _ _ _ _ _ _ d); [done| |done|].
    + apply (step_credit _ _ _ _ _ _ _ amount (S (mint_count dec))); try done; [|by apply Hd|congruence].
      unfold credits. by rewrite Hix.
    + unfold moved. rewrite Hnat, Hix. destruct (is_native s); cbn; destruct Hlam as [_ ->]; lia.
  - eapply (step_account _ _ _ _ _ _ s); [done| |done|].
    + eapply (step_debit _ _ _ _ _ _ _ amount); [unfold spends; by rewrite Hix|at_position|congruence|done|done|].
      change (si :: ms ++ di :: ai :: signers) with ((si :: ms) ++ [di] ++ ai :: signers).
      rewrite app_assoc. by eapply authorize_spend_step.
    + unfold moved. rewrite Hix. destruct (is_native s); cbn; destruct Hlam as [-> _]; lia.
Qed.

(** An update of the token account at position 0 that leaves the amount alone. *)
Lemma account_update_refines pid i rest ix t t' v v' :
  positions ix = [0%nat] -> account_update i t t' v v' -> account_in_range t' -> is_initialized t' = true ->
  ta_amount t' = ta_amount t ->
  (forall l, account_step pid (i :: rest) ix v (key i) l t t') -> refines pid (i :: rest) ix v v'.
Proof.
  intros Hpos (a & d & Ha & Ht & Hp & ->) Hr Hi Hamt Hstep.
  destruct (repack_account _ _ _ Hr Hp) as (_ & _ & Hu). rewrite Hi in Hu.
  apply (refines_insert _ _ _ _ _ a); try done.
  - intros k Hk (n & Hn & j & Hj & <-). rewrite Hpos in Hn. apply list_elem_of_singleton in Hn as ->. by simplify_eq/=.
  - intros _. eapply (step_account _ _ _ _ _ _ t t'); [done|apply Hstep|done|]. unfold moved. cbn. rewrite Hamt.
    destruct (is_native t), (transfers ix); lia.
Qed.

Lemma approve_refines pid accounts ix amount dec v u v' :
  approves ix = Some (amount, S (mint_count dec)) -> positions ix = [0%nat] ->
  process_approve pid accounts amount dec v = TOk u v' -> is_u64 amount ->
  refines pid accounts ix v v'.
Proof.
  intros Hix Hpos H Ham. apply process_approve_ok in H as (si & ms & di & oi & sg & t & -> & Hc & Hf & Hval & H).
  destruct (H) as (a & d & Ha & Ht & Hp & Hv').
  pose proof (unpack_account_range _ _ Ht) as (? & ? & ?). pose proof (unpack_initialized _ _ Ht).
  eapply account_update_refines; try done. intros l.
  eapply step_approve; try done; [at_position| |].
  - exists di. split; [|done]. rewrite <-Hc. cbn. by apply list_lookup_middle.
  - change (si :: ms ++ di :: oi :: sg) with ((si :: ms) ++ [di] ++ oi :: sg).
    rewrite app_assoc. by apply authorised_tail.
Qed.

Lemma revoke_refines pid accounts v u v' :
  process_revoke pid accounts v = TOk u v' -> refines pid accounts Revoke v v'.
Proof.
  intros H. apply process_revoke_ok in H as (si & oi & sg & t & -> & Hf & Hval & H).
  destruct (H) as (a & d & Ha & Ht & Hp & Hv'). pose proof is_u64_0.
  pose proof (unpack_account_range _ _ Ht) as (? & ? & ?). pose proof (unpack_initialized _ _ Ht).
  eapply account_update_refines; try done. intros l. apply step_revoke; try done; [at_position|].
  by apply (authorised_tail pid [si]).
Qed.

Lemma set_authority_refines pid accounts at_ na v u v' :
  process_set_authority pid accounts at_ na v = TOk u v' -> refines pid accounts (SetAuthority at_ na) v v'.
Proof.
  intros H. pose proof is_u64_0. apply process_set_authority_ok in H
    as (i & ai & sg & -> & [(t & t' & Hf & Hs & H)|(m & m' & Hs & H)]).
  - destruct (H) as (a & d & Ha & Ht & Hp & Hv').
    pose proof (unpack_account_range _ _ Ht) as (? & ? & ?). pose proof (unpack_initialized _ _ Ht).
    apply set_account_authority_ok in Hs as (_ & [(-> & Hval & k & -> & ->)|(-> & Hval & ->)]).
    + eapply account_update_refines; try done; [by destruct (is_native t)..|]. intros l.
      apply step_owner; try done; [at_position|]. by apply (authorised_tail pid [i]).
    + eapply account_update_refines; try done. intros l. apply step_close_authority; try done; [at_position|].
      by apply (authorised_tail pid [i]).
  - destruct H as (a & d & Ha & Hm & Hp & ->).
    pose proof (unpack_mint_range _ _ Hm) as Hr. pose proof (unpack_mint_initialized _ _ Hm) as Hi.
    apply set_mint_authority_ok in Hs as (_ & Hsup & Hdec & Hi' & Hcase). rewrite <-Hsup in Hr.
    destruct (repack_mint _ _ _ Hr Hp) as (Hl & Hl' & Hu). cbn in Hu. rewrite Hi', Hi in Hu.
    apply (refines_insert _ _ _ _ _ a); try done; [intros k Hk; written|].
    intros _. apply (step_mint _ _ _ _ _ _ m m'); try done.
    destruct m' as [ma su de ini fr]. cbn in *. subst.
    destruct Hcase as [(-> & -> & -> & k & Hk & Hval)|(-> & -> & -> & k & Hk & Hval)].
    + eapply step_mint_authority; try done; [at_position|]. by apply (authorised_tail pid [i]).
    + eapply step_freeze_authority; try done; [at_position|]. by apply (authorised_tail pid [i]).
Qed.

Lemma toggle_freeze_refines pid accounts ix b v u v' :
  freezes ix = Some b -> positions ix = [0%nat] ->
  process_toggle_freeze_account pid accounts b v = TOk u v' -> refines pid accounts ix v v'.
Proof.
  intros Hix Hpos H. apply process_toggle_freeze_ok in H
    as (si & mi & ai & sg & t & mc & m & k & -> & Hf & Hn & Hmi & Hmc & Hm & Hk & Hval & H).
  destruct (H) as (a & d & Ha & Ht & Hp & Hv').
  pose proof (unpack_account_range _ _ Ht) as (? & ? & ?).
  eapply account_update_refines; try done; [by destruct b|]. intros l.
  eapply step_freeze; try done; [at_position|rewrite Hmi; at_position|by rewrite Hmi|].
  by apply (authorised_tail pid [si; mi]).
Qed.

Lemma sync_native_refines pid accounts v u v' :
  process_sync_native pid accounts v = TOk u v' ->
  (forall k a, v !! k = Some a -> is_u64 (acc_lamports a)) -> refines pid accounts SyncNative v v'.
Proof.
  intros H Hlam. apply process_sync_native_ok in H
    as (i & rest & t & a & r & -> & Ha & Ho & Hn & Hle & Hle' & H).
  destruct H as (a' & d & Ha' & Ht & Hp & ->). assert (a' = a) as -> by congruence.
  specialize (Hlam _ _ Ha).
  pose proof (unpack_account_range _ _ Ht) as (? & Hrn & ?). pose proof (unpack_initialized _ _ Ht) as Hi.
  rewrite Hn in Hrn. cbn in Hrn.
  assert (Hr : account_in_range (with_amount t (acc_lamports a - r))).
  { unfold account_in_range, is_u64 in *. cbn. rewrite Hn. cbn. unfold is_u64 in *. split_and!; try done; lia. }
  destruct (repack_account _ _ _ Hr Hp) as (_ & _ & Hu). rewrite initialized_with_amount, Hi in Hu.
  apply (refines_insert _ _ _ _ _ a); try done; [intros k Hk; written|]. intros _.
  eapply (step_account _ _ _ _ _ _ t); [done|eapply step_sync; try done; at_position|done|].
  unfold moved. cbn. destruct (is_native t); lia.
Qed.

Lemma mint_to_refines pid accounts ix amount dec v u v' :
  mints ix = Some amount -> positions ix = [0; 1]%nat -> transfers ix = None ->
  process_mint_to pid accounts amount dec v = TOk u v' -> is_u64 amount ->
  refines pid accounts ix v v'.
Proof.
  intros Hix Hpos Htr H [Ham0 Ham]. apply process_mint_to_ok in H as (mi & di & oi & signers & mc & m & dc & d & k &
    dd & md & -> & Hdc & Hd & Hmc & Hm & Hf & Hn & Hdm & Hma & Hval & Hdec & Hown & Hmax & Hmax' & Hpd &
    Hpm & Hne & ->).
  pose proof (unpack_account_range _ _ Hd) as (H1 & H2 & H3).
  pose proof (unpack_mint_range _ _ Hm) as H4.
  pose proof (unpack_initialized _ _ Hd) as Hi. pose proof (unpack_mint_initialized _ _ Hm) as Him.
  apply repack_account in Hpd as (_ & _ & Hu).
  2: { unfold account_in_range, is_u64 in *. cbn. split_and!; try done; lia. }
  apply repack_mint in Hpm as (_ & _ & Hum). 2: { cbn. unfold is_u64 in *. lia. }
  rewrite initialized_with_amount, Hi in Hu. cbn in Hum. rewrite Him in Hum.
  apply (refines_insert2 _ _ _ _ _ _ mc dc); try done; [intros j Hj Hj'; unfold writes; rewrite Hpos; written|..];
    intros _.
  - eapply (step_mint _ _ _ _ _ _ m); [done| |done|done].
    eapply step_mint_to; try done; [at_position|]. by apply (authorised_tail pid [mi; di]).
  - eapply (step_account _ _ _ _ _ _ d); [done|eapply (step_credit _ _ _ _ _ _ _ amount 1); try done|done|].
    + unfold credits. by rewrite Htr, Hix.
    + at_position.
    + unfold moved. rewrite Hn. cbn. lia.
Qed.

Lemma burn_refines pid accounts ix amount dec v u v' :
  burns ix = Some amount -> positions ix = [0; 1]%nat -> transfers ix = None ->
  process_burn pid accounts amount dec v = TOk u v' -> is_u64 amount ->
  refines pid accounts ix v v'.
Proof.
  intros Hix Hpos Htr H Ham. apply process_burn_ok in H as (si & mi & ai & signers & mc & m & sc & s & s' &
    sd & md & -> & Hsc & Hs & Hmc & Hm & Hf & Hn & Hsm & Hle & Hdec & Hauth & Hown & Hle' & Hps &
    Hpm & Hne & ->).
  pose proof (unpack_account_range _ _ Hs) as Hrs. pose proof (unpack_mint_range _ _ Hm) as Hrm.
  pose proof (unpack_initialized _ _ Hs) as Hi. pose proof (unpack_mint_initialized _ _ Hm) as Him.
  destruct (spend_in_range _ _ _ _ _ _ _ _ _ (ta_amount s - amount) Hauth Hrs (proj1 Ham))
    as (Hrs' & Hiss & Hms & Hns); [destruct Hrs as ([? ?] & _), Ham; unfold is_u64; lia|].
  apply repack_account in Hps as (_ & _ & Hu); [|done].
  apply repack_mint in Hpm as (_ & _ & Hum). 2: { cbn. unfold is_u64 in *. lia. }
  rewrite initialized_with_amount, Hiss, Hi in Hu. cbn in Hum. rewrite Him in Hum.
  pose proof (authorize_spend_step pid [si; mi] _ _ _ _ _ _ _ Hauth) as Hspend. cbn [app] in Hspend.
  destruct Ham as [Ham _]. apply (refines_insert2 _ _ _ _ _ _ mc sc); try done;
    [intros j Hj Hj'; unfold writes; rewrite Hpos; written|..]; intros _.
  - eapply (step_mint _ _ _ _ _ _ m); [done| |done|done].
    eapply (step_burn _ _ _ _ _ _ amount (key si) sc s); try done; at_position.
  - eapply (step_account _ _ _ _ _ _ s); [done| |done|unfold moved; rewrite Hn; cbn; lia].
    eapply (step_debit _ _ _ _ _ _ _ amount); try done; [unfold spends; by rewrite Htr|at_position].
Qed.

Lemma close_refines pid accounts v u v' :
  process_close_account pid accounts v = TOk u v' -> refines pid accounts CloseAccount v v'.
Proof.
  intros H. apply process_close_account_ok in H as (si & di & ai & signers & sc & s & dc & -> & Hne &
    Hsc & Hs & Hdc & Hz & Hval & _ & ->).
  apply (refines_insert2 _ _ _ _ _ _ sc dc); try done; [intros j Hj Hj'; written|..]; intros _.
  - eapply (step_close _ _ _ _ _ _ s); try done; [at_position|]. by apply (authorised_tail pid [si; di]).
  - eapply step_receive; try done; at_position.
Qed.

Lemma initialize_mint_refines pid accounts ix dec ma fa b v u v' :
  ix = InitializeMint dec ma fa \/ ix = InitializeMint2 dec ma fa ->
  _process_initialize_mint accounts dec ma fa b v = TOk u v' -> refines pid accounts ix v v'.
Proof.
  intros Hix H. apply process_initialize_mint_ok in H as (mi & rest & a & m & d & -> & Ha & Hm & Hi & Hp & ->).
  pose proof (proj2 (proj1 (unpack_unchecked_ok _ _) Hm)) as Hr. apply unpack_in_range in Hr. cbn in Hr.
  apply repack_mint in Hp as (_ & _ & Hu); [|done]. cbn in Hu.
  apply (refines_insert _ _ _ _ _ a); try done.
  - intros k Hk. destruct Hix as [-> | ->]; written.
  - intros _. eapply (step_init_mint _ _ _ _ _ _ m); try done; [at_position|]. by destruct Hix as [-> | ->].
Qed.

Lemma initialize_account_refines pid accounts ix oa b v u v' :
  (match oa with
   | Some o => ix = InitializeAccount2 o \/ ix = InitializeAccount3 o
   | None => ix = InitializeAccount
   end) ->
  _process_initialize_account pid accounts oa b v = TOk u v' ->
  (forall k a, v !! k = Some a -> is_u64 (acc_lamports a)) -> refines pid accounts ix v v'.
Proof.
  intros Hix H Hlam. apply process_initialize_account_ok in H as (ni & mi & rest & a & t & o & native &
    amount & d & -> & Ha & Ht & Hi & Hnat & Hnon & Ho & Hp & ->). specialize (Hlam _ _ Ha).
  assert (Hr : opt_u64 native /\ is_u64 amount /\ match native with
     | Some r => key mi = native_mint_id /\ amount + r = acc_lamports a
     | None => key mi <> native_mint_id /\ amount = 0 /\ exists mc m,
        v !! key mi = Some mc /\ acc_owner mc = pid /\ unpack (T:=Mint) (acc_data mc) = Ok m end).
  { destruct (decide (key mi = native_mint_id)) as [Hk|Hk].
    - destruct (Hnat Hk) as (r & -> & Hr & Hle & ->). cbn. unfold is_u64 in *. split_and!; try done; lia.
    - destruct (Hnon Hk) as (-> & -> & ?). split_and!; try apply is_u64_0; done. }
  destruct Hr as (H1 & H2 & H3). pose proof is_u64_0 as H0.
  apply repack_account in Hp as (_ & _ & Hu); [|by split_and!]. cbn in Hu.
  assert (positions ix = [0%nat]) as Hpos by (destruct oa; naive_solver).
  apply (refines_insert _ _ _ _ _ a); try done; [intros k Hk; unfold writes; rewrite Hpos; written|].
  intros _. eapply (step_init_account _ _ _ _ _ _ t); try done; [at_position|].
  exists (key mi), o, native, amount. split_and!; [at_position| |done..].
  unfold new_owner. destruct oa as [o'|].
  - by destruct Hix as [-> | ->].
  - subst. destruct Ho as (oi & r & -> & ->). at_position.
Qed.

Lemma initialize_multisig_refines pid accounts ix m (b : bool) v u v' :
  ix = (if b then InitializeMultisig m else InitializeMultisig2 m) ->
  _process_initialize_multisig accounts m b v = TOk u v' -> refines pid accounts ix v v'.
Proof.
  intros Hix H. apply process_initialize_multisig_ok in H
    as (i & rest & a & ms & d & -> & Ha & Hm & Hi & Hlen & Hm8 & Hp & ->).
  pose proof (proj2 (proj1 (unpack_unchecked_ok _ _) Hm)) as Hr. apply unpack_in_range in Hr. cbn in Hr.
  apply repack_multisig in Hp as (_ & _ & Hu).
  2: { unfold multisig_in_range in *. cbn. rewrite length_app, length_fmap, length_drop, Hr. lia. }
  cbn in Hu. assert (positions ix = [0%nat]) as Hpos by (by destruct b; subst).
  apply (refines_insert _ _ _ _ _ a); try done; [intros k Hk; unfold writes; rewrite Hpos; written|]. intros _.
  eapply (step_init_multisig _ _ _ _ _ _ ms); try done; [at_position|].
  exists m, (if b then tail rest else rest). unfold MAX_SIGNERS in Hlen. split_and!; try done; try lia.
  subst ix. destruct b; (split; [done|]); [by destruct rest|done].
Qed.

Lemma process_refines_steps pid accounts input v v' :
  (forall k a, v !! k = Some a -> is_u64 (acc_lamports a)) ->
  ledger_wf pid v -> external_unmodified pid v v' -> process pid accounts input v = TOk tt v' ->
  exists ix, TokenInstruction_unpack input = Ok ix /\ refines pid accounts ix v v'.
Proof.
  intros Hlam Hwf Hext H. unfold process in H.
  apply prog_bind_ok in H as (ix & w & Hi & H). apply lift_ok in Hi as [Hi ->]. exists ix. split; [done|].
  apply token_unpack_in_range in Hi. destruct ix; cbn in Hi.
  - eapply initialize_mint_refines; [by left|exact H].
  - by eapply (initialize_account_refines _ _ _ None true).
  - by eapply (initialize_multisig_refines _ _ _ _ true).
  - by eapply (transfer_refines _ _ _ _ None).
  - by eapply (approve_refines _ _ _ _ None).
  - by eapply revoke_refines.
  - by eapply set_authority_refines.
  - by eapply mint_to_refines.
  - by eapply burn_refines.
  - by eapply close_refines.
  - by eapply toggle_freeze_refines.
  - by eapply toggle_freeze_refines.
  - by eapply (transfer_refines _ _ _ _ (Some _)).
  - by eapply (approve_refines _ _ _ _ (Some _)).
  - by eapply mint_to_refines.
  - by eapply burn_refines.
  - eapply (initialize_account_refines _ _ _ (Some _) true); [|exact H|done]. by left.
  - by eapply sync_native_refines.
  - eapply (initialize_account_refines _ _ _ (Some _) false); [|exact H|done]. by right.
  - by eapply (initialize_multisig_refines _ _ _ _ false).
  - eapply initialize_mint_refines; [by right|exact H].
Qed.

(** C3: Every successful instruction of the token program does to the store exactly what
    the decoded instruction says: accounts of other programs keep their owner, cells of
    the program it does not write are unchanged, and a cell it writes takes the step of
    this instruction. A debit by the amount comes from an account that is not frozen and
    has the amount, signed by its owner or by its delegate within the allowance; the
    credit goes to an account that is not frozen; approving, revoking and changing the
    owner or the close authority of an account need its owner (or its close authority
    for the latter) and an account that is not frozen; closing needs the close authority
    or the owner and an empty or native account; freezing and thawing need the freeze
    authority of the mint, minting its mint authority, changing one of these the
    authority itself. Only the synchronization of native accounts and the initialization
    of uninitialized cells need no signature. That a key signed means that an account of
    the instruction with this key signed, or that it is a multisignature account of the
    program and at least m of its n keys did. Assumed are balances that are u64s, cells
    that are native exactly when their mint is, and that the runtime lets the program
    change no data of accounts it does not own. *)
Theorem process_refines (pid : Pubkey) (accounts : list AccountInfo) (input : list byte)
    (v v' : view)
    (Hlam : forall k a, v !! k = Some a -> is_u64 (acc_lamports a))
    (Hwf : ledger_wf pid v) (Hext : external_unmodified pid v v')
    (Hrun : process pid accounts input v = TOk tt v') :
  exists ix, TokenInstruction_unpack input = Ok ix /\ refines pid accounts ix v v'.
Proof. by eapply process_refines_steps. Qed.

(** The step of a cell that holds a token account. *)
Lemma account_cell_step pid accounts ix v k a a' (t : TokenAccount) :
  cell_step pid accounts ix v k a a' -> unpack (acc_data a) = Ok t ->
  (acc_data a' = acc_data a /\
   (acc_lamports a' = acc_lamports a \/
    exists k0 a0, v !! k0 = Some a0 /\ acc_lamports a' = acc_lamports a + acc_lamports a0)) \/
  (exists t', account_step pid accounts ix v k (acc_lamports a) t t' /\ unpack (acc_data a') = Ok t' /\
     acc_lamports a' = acc_lamports a + moved ix t t') \/
  ((is_native t = false -> ta_amount t = 0) /\ acc_data a' = zero_account /\
   authorised pid accounts v (default (ta_owner t) (ta_close_authority t))).
Proof.
  intros Hstep Ht.
  destruct Hstep as [_|k0 a0 _ _ _ _ Hk0|t0 t1 a' H0 Hs H1 Hl|t0 a' _ _ H0 Hn Hau Hz _|m m' a' H0 _ _ _|t0 t1 a' _ H0 Hi _ _ _
    |m m' a' _ H0 _ _ _ _|ms ms' a' _ H0 _ _ _ _].
  - left. auto.
  - left. split; [done|]. right. eauto.
  - right. left. assert (t0 = t) as -> by congruence. eauto.
  - right. right. assert (t0 = t) as -> by congruence. done.
  - by destruct (account_not_mint _ _ _ Ht H0).
  - apply unpack_unchecked_ok in H0 as [_ H0]. apply unpack_ok in Ht as (_ & Ht & Hi').
    rewrite H0 in Ht. injection Ht as ->. congruence.
  - apply unpack_unchecked_ok in H0 as [H0 _]. apply unpack_ok in Ht as (Ht & _). cbn in *. congruence.
  - apply unpack_unchecked_ok in H0 as [H0 _]. apply unpack_ok in Ht as (Ht & _). cbn in *. congruence.
Qed.

(** C5: If an instruction lowers the balance of a token account that stays initialized,
    the account was not frozen, keeps its owner and mint, and either its owner signed
    the instruction, or its delegate did and the delegated allowance shrank by exactly
    the amount debited and stays non-negative. To sign means that an account of the
    instruction with this key signed or, where it is a multisignature account of the
    program, that at least m of its n keys did. The assumptions are those of the
    refinement. *)
Theorem debit_needs_authority (pid : Pubkey) (accounts : list AccountInfo) (input : list byte)
    (v v' : view) (k : Pubkey) (a a' : Account) (t t' : TokenAccount)
    (Hlam : forall k a, v !! k = Some a -> is_u64 (acc_lamports a))
    (Hwf : ledger_wf pid v) (Hext : external_unmodified pid v v')
    (Hrun : process pid accounts input v = TOk tt v')
    (Ha : v !! k = Some a) (Howner : acc_owner a = pid) (Ht : unpack (acc_data a) = Ok t)
    (Ha' : v' !! k = Some a') (Ht' : unpack (acc_data a') = Ok t')
    (Hless : ta_amount t' < ta_amount t) :
  is_frozen t = false /\ ta_owner t' = ta_owner t /\ ta_mint t' = ta_mint t /\
  (authorised pid accounts v (ta_owner t) \/
   exists dl, ta_delegate t = Some dl /\ authorised pid accounts v dl /\
     ta_delegated_amount t' = ta_delegated_amount t - (ta_amount t - ta_amount t') /\
     0 <= ta_delegated_amount t').
Proof.
  destruct (process_refines_steps _ _ _ _ _ Hlam Hwf Hext Hrun) as (ix & _ & Href).
  destruct (Href _ _ Ha) as (b & Hb & _ & Hstep). assert (b = a') as -> by congruence.
  destruct (account_cell_step _ _ _ _ _ _ _ _ (Hstep Howner) Ht)
    as [[Hd _]|[(t1 & Hs & Ht1 & _)|(_ & Hd & _)]].
  - rewrite Hd in Ht'. assert (t' = t) as -> by congruence. lia.
  - assert (t1 = t') as -> by congruence.
    destruct Hs as [x t1 Hx _ _ Hf Hle Hsp| | | | | | | ]; cbn in *; try lia; try (by destruct (is_native t); cbn in *; lia).
    destruct Hsp as [Hau|dl Hdl Hle' Hau]; cbn in *; split_and!; try done; [by left|].
    right. exists dl. split_and!; try done; lia.
  - rewrite Hd, unpack_zero_account in Ht'. done.
Qed.

(** A frozen non-native token account is left unchanged by every instruction, except
    that the freeze authority of its mint can thaw it, changing nothing else, and an
    empty one can be closed by its close authority or owner. *)
Theorem frozen_account_locked (pid : Pubkey) (accounts : list AccountInfo) (input : list byte)
    (v v' : view) (k : Pubkey) (a : Account) (t : TokenAccount)
    (Hlam : forall k a, v !! k = Some a -> is_u64 (acc_lamports a))
    (Hwf : ledger_wf pid v) (Hext : external_unmodified pid v v')
    (Hrun : process pid accounts input v = TOk tt v')
    (Ha : v !! k = Some a) (Howner : acc_owner a = pid) (Ht : unpack (acc_data a) = Ok t)
    (Hfrozen : is_frozen t = true) (Hnative : is_native t = false) :
  exists a', v' !! k = Some a' /\
    (acc_data a' = acc_data a \/
     (unpack (acc_data a') = Ok (with_state t Initialized) /\ exists mc m fa,
        v !! ta_mint t = Some mc /\ unpack (acc_data mc) = Ok m /\
        freeze_authority m = Some fa /\ authorised pid accounts v fa) \/
     (acc_data a' = zero_account /\ ta_amount t = 0 /\
        authorised pid accounts v (default (ta_owner t) (ta_close_authority t)))).
Proof.
  destruct (process_refines_steps _ _ _ _ _ Hlam Hwf Hext Hrun) as (ix & _ & Href).
  destruct (Href _ _ Ha) as (a' & Ha' & _ & Hstep). exists a'. split; [done|].
  destruct (account_cell_step _ _ _ _ _ _ _ _ (Hstep Howner) Ht)
    as [[Hd _]|[(t' & Hs & Ht' & _)|(Hz & Hd & Hau)]].
  - by left.
  - right. left. destruct Hs as [| |r _ _ Hn|  | | | |b mc m fa _ _ _ Hb _ Hm]; try congruence.
    + unfold is_native in Hnative. by rewrite Hn in Hnative.
    + destruct b; [by rewrite Hfrozen in Hb|]. eauto 10.
  - right. right. auto.
Qed.

(** If an instruction changes the owner of a token account, the old owner authorised
    it, the account was not frozen, balance and mint are kept, the delegate is cleared
    and, for a native account, so is the close authority. *)
Theorem owner_change_needs_owner (pid : Pubkey) (accounts : list AccountInfo) (input : list byte)
    (v v' : view) (k : Pubkey) (a a' : Account) (t t' : TokenAccount)
    (Hlam : forall k a, v !! k = Some a -> is_u64 (acc_lamports a))
    (Hwf : ledger_wf pid v) (Hext : external_unmodified pid v v')
    (Hrun : process pid accounts input v = TOk tt v')
    (Ha : v !! k = Some a) (Howner : acc_owner a = pid) (Ht : unpack (acc_data a) = Ok t)
    (Ha' : v' !! k = Some a') (Ht' : unpack (acc_data a') = Ok t')
    (Hchange : ta_owner t' <> ta_owner t) :
  authorised pid accounts v (ta_owner t) /\ is_frozen t = false /\
  ta_amount t' = ta_amount t /\ ta_mint t' = ta_mint t /\
  ta_delegate t' = None /\ ta_delegated_amount t' = 0 /\
  (is_native t = true -> ta_close_authority t' = None).
Proof.
  destruct (process_refines_steps _ _ _ _ _ Hlam Hwf Hext Hrun) as (ix & _ & Href).
  destruct (Href _ _ Ha) as (b & Hb & _ & Hstep). assert (b = a') as -> by congruence.
  destruct (account_cell_step _ _ _ _ _ _ _ _ (Hstep Howner) Ht)
    as [[Hd _]|[(t0 & Hs & Ht0 & _)|(_ & Hd & _)]].
  - rewrite Hd in Ht'. assert (t' = t) as -> by congruence. done.
  - assert (t0 = t') as -> by congruence. destruct Hs as [? ? _ _ _ _ _ []| | | | | | | ]; cbn in *; try done.
    destruct (is_native t) eqn:En; cbn in *; split_and!; done.
  - by rewrite Hd, unpack_zero_account in Ht'.
Qed.

(** The lamports of a native account cover its tokens and its rent reserve. *)
Definition backed (a : Account) : Prop :=
  forall t r, unpack (acc_data a) = Ok t -> ta_is_native t = Some r ->
    ta_amount t + r <= acc_lamports a.

Lemma account_step_native pid accounts ix v k l t t' :
  account_step pid accounts ix v k l t t' -> ta_is_native t' = ta_is_native t.
Proof. intros Hs. destruct Hs as [? ? _ _ _ _ _ []| | | | | | | ]; try done. cbn. by destruct (is_native t). Qed.

(** Only transfers and synchronization change the amount of a native account. *)
Lemma native_amount pid accounts ix v k l t t' r :
  account_step pid accounts ix v k l t t' -> ta_is_native t = Some r ->
  ta_amount t + r <= l -> ta_amount t' + r <= l + moved ix t t'.
Proof.
  intros Hs Hr Hl. assert (is_native t = true) as Hn by (unfold is_native; by rewrite Hr). unfold moved. rewrite Hn.
  destruct Hs as [x t' _ _ Hb _ Hx Hsp|x n _ _ Hb _ Hx _|r' _ _ Hr' _| | | | | ]; cbn.
  - assert (ta_amount t' = ta_amount t - x) as -> by (by destruct Hsp). destruct (transfers ix); [lia|].
    by rewrite Hb in Hn.
  - destruct (transfers ix); [lia|]. by rewrite Hb in Hn.
  - assert (r' = r) as -> by congruence. destruct (transfers ix); lia.
  - destruct (transfers ix); lia.
  - destruct (transfers ix); lia.
  - rewrite Hn. destruct (transfers ix); cbn; lia.
  - destruct (transfers ix); lia.
  - destruct (transfers ix); lia.
Qed.

(** C6: Wrapped lamports stay backed: if every native account of the program holds at
    least its token balance plus its rent reserve in lamports, this is still so after
    any successful instruction. *)
Theorem native_stays_backed (pid : Pubkey) (accounts : list AccountInfo) (input : list byte)
    (v v' : view)
    (Hlam : forall k a, v !! k = Some a -> is_u64 (acc_lamports a))
    (Hwf : ledger_wf pid v) (Hext : external_unmodified pid v v')
    (Hrun : process pid accounts input v = TOk tt v')
    (Hbacked : forall k a, v !! k = Some a -> acc_owner a = pid -> backed a) :
  forall k a, v !! k = Some a -> acc_owner a = pid -> exists a', v' !! k = Some a' /\ backed a'.
Proof.
  intros k a Ha Ho. destruct (process_refines_steps _ _ _ _ _ Hlam Hwf Hext Hrun) as (ix & _ & Href).
  destruct (Href _ _ Ha) as (a' & Ha' & _ & Hstep).
  exists a'. split; [done|]. specialize (Hbacked _ _ Ha Ho). intros t' r Ht' Hr.
  destruct (Hstep Ho) as [_|k0 a0 _ _ _ _ Hk0|t0 t1 a' H0 Hs H1 Hl|t0 a' _ _ H0 Hn Hau Hz _|m m' a' H0 _ H1 _
    |t0 t1 a' _ H0 Hi Hnew H1 Hl|m m' a' _ H0 _ _ H1 _|ms ms' a' _ H0 _ _ H1 _].
  - exact (Hbacked _ _ Ht' Hr).
  - specialize (Hbacked _ _ Ht' Hr). specialize (Hlam _ _ Hk0). unfold is_u64 in Hlam. cbn. lia.
  - assert (t1 = t') as -> by congruence. pose proof (account_step_native _ _ _ _ _ _ _ _ Hs) as Hn.
    rewrite Hr in Hn. rewrite Hl. eapply native_amount; [done|done|]. exact (Hbacked _ _ H0 (eq_sym Hn)).
  - by rewrite Hz, unpack_zero_account in Ht'.
  - by destruct (account_not_mint _ _ _ Ht' H1).
  - assert (t1 = t') as -> by congruence. destruct Hnew as (mint & o & native & amount & _ & _ & -> & Hnew).
    cbn in *. rewrite Hr in Hnew. lia.
  - by destruct (account_not_mint _ _ _ Ht' H1).
  - apply unpack_ok in H1 as [H1 _], Ht' as [Ht' _]. cbn in *. congruence.
Qed.

End safety.

(** ** Instances *)

(** The hypotheses the theorems above share, on a concrete run, and a test of
    the token account [k] holds after it. *)
Definition ex_run (accounts : list AccountInfo) (i : TokenInstruction) (v : view) : tree unit :=
  process spl_token_id accounts (TokenInstruction_pack i) v.

Definition read_token (v : view) (k : Pubkey) : option (Account * TokenAccount) :=
  a ← v !! k; match unpack (acc_data a) with Ok t => Some (a, t) | _ => None end.

Definition ex_checks (accounts : list AccountInfo) (i : TokenInstruction) (v : view) (k : Pubkey)
    (f : TokenAccount -> bool) : bool :=
  lamports_okb v && ledger_wfb spl_token_id v &&
  match ex_run accounts i v with
  | TOk _ v' => external_unmodifiedb spl_token_id v v' &&
      match read_token v' k with Some (_, t) => f t | None => false end
  | _ => false
  end.

Lemma read_token_ok v k a t :
  read_token v k = Some (a, t) -> v !! k = Some a /\ unpack (acc_data a) = Ok t.
Proof.
  unfold read_token. destruct (v !! k) as [b|]; [|done]. cbn.
  destruct (unpack (acc_data b)) eqn:E; [|done..]. by intros [= <- <-].
Qed.

Lemma ex_checks_ok accounts i v k f :
  ex_checks accounts i v k f = true ->
  exists v' a' t', (forall k a, v !! k = Some a -> is_u64 (acc_lamports a)) /\
    ledger_wf spl_token_id v /\ external_unmodified spl_token_id v v' /\
    process spl_token_id accounts (TokenInstruction_pack i) v = TOk tt v' /\
    v' !! k = Some a' /\ unpack (acc_data a') = Ok t' /\ f t' = true.
Proof.
  unfold ex_checks. rewrite !andb_true_iff. intros [[Hl Hw] H].
  destruct (ex_run accounts i v) as [[] v'| | |] eqn:E; [|done..].
  apply andb_true_iff in H as [Hx H].
  destruct (read_token v' k) as [[a' t']|] eqn:Er; [|done]. apply read_token_ok in Er as [? ?].
  exists v', a', t'. split_and!; try done.
  - by apply lamports_okb_ok.
  - by apply ledger_wfb_ok.
  - by apply external_unmodifiedb_ok.
Qed.

Lemma read_token_eval v k :
  match read_token v k with Some _ => true | None => false end = true ->
  exists a t, read_token v k = Some (a, t) /\ v !! k = Some a /\ unpack (acc_data a) = Ok t.
Proof.
  destruct (read_token v k) as [[a t]|] eqn:E; [|done]. intros _. exists a, t.
  split; [done|]. by apply read_token_ok.
Qed.

Definition ex_carol_tokens : Pubkey := toy_key 203.
Definition ex_alice_sol : Pubkey := toy_key 204.
Definition ex_bob_sol : Pubkey := toy_key 205.

Definition ex_alice_account : TokenAccount :=
  mkTokenAccount ex_mint ex_alice 700 None Initialized None 0 None.
Definition ex_carol_account : TokenAccount :=
  mkTokenAccount ex_mint (toy_key 103) 40 None Frozen None 0 None.
Definition ex_sol_account (o : Pubkey) (amount : Z) : TokenAccount :=
  mkTokenAccount native_mint_id o amount None Initialized (Some 2039280) 0 None.

Definition ex_cell (lamports : Z) (t : TokenAccount) : Account :=
  toy_account lamports (pack_into_slice t zero_account) spl_token_id.

(** Alice's tokens, Carol's frozen tokens and two accounts of wrapped SOL. *)
Definition ex_bank : view :=
  <[ex_carol_tokens := ex_cell 2039280 ex_carol_account]>
  (<[ex_alice_sol := ex_cell (2039280 + 500) (ex_sol_account ex_alice 500)]>
  (<[ex_bob_sol := ex_cell (2039280 + 20) (ex_sol_account ex_bob 20)]>
  (<[ex_bob := toy_account 5000 [] system_program_id]> ex_tokens))).

Lemma ex_bank_alice : ex_bank !! ex_alice_tokens = Some (ex_cell 2039280 ex_alice_account).
Proof. vm_true. Qed.
Lemma ex_bank_carol : ex_bank !! ex_carol_tokens = Some (ex_cell 2039280 ex_carol_account).
Proof. vm_true. Qed.

Lemma process_refines_witness :
  exists v', process spl_token_id [wr ex_alice_tokens; wr ex_bob_tokens; wr_signer ex_alice]
               (TokenInstruction_pack (Transfer 50)) ex_bank = TOk tt v' /\
    exists ix, TokenInstruction_unpack (TokenInstruction_pack (Transfer 50)) = Ok ix /\
      refines spl_token_id [wr ex_alice_tokens; wr ex_bob_tokens; wr_signer ex_alice] ix ex_bank v'.
Proof.
  destruct (ex_checks_ok [wr ex_alice_tokens; wr ex_bob_tokens; wr_signer ex_alice] (Transfer 50)
    ex_bank ex_alice_tokens (fun _ => true)) as (v' & a' & t' & Hl & Hw & Hx & Hr & _); [vm_true|].
  exists v'. exact (conj Hr (process_refines _ _ _ _ _ Hl Hw Hx Hr)).
Defined.

Lemma debit_needs_authority_witness :
  exists v' a' t', process spl_token_id [wr ex_alice_tokens; wr ex_bob_tokens; wr_signer ex_alice]
               (TokenInstruction_pack (Transfer 50)) ex_bank = TOk tt v' /\
    v' !! ex_alice_tokens = Some a' /\ unpack (acc_data a') = Ok t' /\ ta_amount t' = 650 /\
    ta_owner t' = ex_alice.
Proof.
  destruct (ex_checks_ok [wr ex_alice_tokens; wr ex_bob_tokens; wr_signer ex_alice] (Transfer 50)
    ex_bank ex_alice_tokens (fun t => ta_amount t =? 650))
    as (v' & a' & t' & Hl & Hw & Hx & Hr & Ha' & Ht' & Hf); [vm_true|].
  apply Z.eqb_eq in Hf. exists v', a', t'.
  destruct (debit_needs_authority _ _ _ _ _ _ _ _ ex_alice_account t' Hl Hw Hx Hr ex_bank_alice
    eq_refl ltac:(vm_true) Ha' Ht' ltac:(rewrite Hf; reflexivity)) as (_ & Ho & _).
  exact (conj Hr (conj Ha' (conj Ht' (conj Hf Ho)))).
Defined.

Lemma owner_change_needs_owner_witness :
  exists v' a' t', process spl_token_id [wr ex_alice_tokens; wr_signer ex_alice]
      (TokenInstruction_pack (SetAuthority AccountOwner (Some ex_bob))) ex_bank = TOk tt v' /\
    v' !! ex_alice_tokens = Some a' /\ unpack (acc_data a') = Ok t' /\ ta_owner t' = ex_bob /\
    authorised spl_token_id [wr ex_alice_tokens; wr_signer ex_alice] ex_bank ex_alice.
Proof.
  destruct (ex_checks_ok [wr ex_alice_tokens; wr_signer ex_alice]
    (SetAuthority AccountOwner (Some ex_bob)) ex_bank ex_alice_tokens
    (fun t => key_eqb (ta_owner t) ex_bob))
    as (v' & a' & t' & Hl & Hw & Hx & Hr & Ha' & Ht' & Hf); [vm_true|].
  apply key_eqb_eq in Hf. exists v', a', t'.
  destruct (owner_change_needs_owner _ _ _ _ _ _ _ _ ex_alice_account t' Hl Hw Hx Hr ex_bank_alice
    eq_refl ltac:(vm_true) Ha' Ht'
    ltac:(rewrite Hf; vm_compute; discriminate)) as (Hau & _).
  exact (conj Hr (conj Ha' (conj Ht' (conj Hf Hau)))).
Defined.

Lemma frozen_account_locked_witness :
  exists v' a', process spl_token_id [wr ex_carol_tokens; rd ex_mint; wr_signer ex_bob]
      (TokenInstruction_pack ThawAccount) ex_bank = TOk tt v' /\
    v' !! ex_carol_tokens = Some a' /\
    (acc_data a' = acc_data (ex_cell 2039280 ex_carol_account) \/
     unpack (acc_data a') = Ok (with_state ex_carol_account Initialized) \/
     acc_data a' = zero_account).
Proof.
  destruct (ex_checks_ok [wr ex_carol_tokens; rd ex_mint; wr_signer ex_bob] ThawAccount
    ex_bank ex_carol_tokens (fun _ => true)) as (v' & _ & _ & Hl & Hw & Hx & Hr & _); [vm_true|].
  destruct (frozen_account_locked _ _ _ _ _ _ _ ex_carol_account Hl Hw Hx Hr ex_bank_carol
    eq_refl ltac:(vm_true) eq_refl eq_refl) as (a' & Ha' & [H|[[H _]|[H _]]]);
    exists v', a'; (split; [exact Hr|split; [exact Ha'|]]).
  - exact (or_introl H).
  - exact (or_intror (or_introl H)).
  - exact (or_intror (or_intror H)).
Defined.

Definition backedb (a : Account) : bool :=
  match unpack (acc_data a) with
  | Ok t => match ta_is_native t with
            | Some r => ta_amount t + r <=? acc_lamports a
            | None => true
            end
  | _ => true
  end.

Lemma all_backed pid (v : view) :
  forallb (fun '(_, a) => backedb a) (map_to_list v) = true ->
  forall k a, v !! k = Some a -> acc_owner a = pid -> backed a.
Proof.
  rewrite forallb_forall. intros H k a Hk _ t r Ht Hr.
  apply elem_of_map_to_list, list_elem_of_In, H in Hk. unfold backedb in Hk.
  rewrite Ht, Hr in Hk. by apply Z.leb_le.
Qed.

Lemma native_stays_backed_witness :
  exists v' a', process spl_token_id [wr ex_alice_sol; wr ex_bob_sol; wr_signer ex_alice]
      (TokenInstruction_pack (Transfer 100)) ex_bank = TOk tt v' /\
    v' !! ex_alice_sol = Some a' /\ backed a'.
Proof.
  destruct (ex_checks_ok [wr ex_alice_sol; wr ex_bob_sol; wr_signer ex_alice] (Transfer 100)
    ex_bank ex_alice_sol (fun t => ta_amount t =? 400))
    as (v' & _ & _ & Hl & Hw & Hx & Hr & _); [vm_true|].
  assert (Hb : forallb (fun '(_, a) => backedb a) (map_to_list ex_bank) = true) by vm_true.
  destruct (native_stays_backed _ _ _ _ _ Hl Hw Hx Hr (all_backed _ _ Hb) ex_alice_sol
    (ex_cell (2039280 + 500) (ex_sol_account ex_alice 500)) ltac:(vm_true) eq_refl)
    as (a' & Ha' & Hback).
  exists v', a'. exact (conj Hr (conj Ha' Hback)).
Defined.

(** A 2-of-3 multisignature account. *)
Definition ex_council : Pubkey := toy_key 300.
Definition ex_multisig : Multisig :=
  mkMultisig x02 x03 true
    ([ex_alice; ex_bob; toy_key 103] ++ replicate 8 system_program_id).
Definition ex_council_cell : Account :=
  toy_account 3000000 (pack_into_slice ex_multisig (replicate 355 x00)) spl_token_id.

Lemma validate_owner_spec_witness :
  validate_owner spl_token_id ex_council (rd ex_council) [wr_signer ex_alice; wr_signer ex_bob]
    (<[ex_council := ex_council_cell]> ex_bank)
  = TOk tt (<[ex_council := ex_council_cell]> ex_bank).
Proof.
  refine (proj2 (proj2 (validate_owner_spec spl_token_id ex_council (rd ex_council)
    [wr_signer ex_alice; wr_signer ex_bob] (<[ex_council := ex_council_cell]> ex_bank)
    ex_council_cell _)) ex_multisig _ _ _ _ _).
  - apply lookup_insert_eq.
  - vm_true.
  - vm_true.
  - vm_compute. discriminate.
  - repeat constructor.
  - vm_compute. discriminate.
Defined.
