(* ===== verification/VendoredToken.v ===== *)
(** * The token crate vendored with level 4

    [contracts/level4/vendored-spl-token-3.1.0/src/instruction.rs] and
    [processor.rs], version 3.1.0 of the token program.  The builders of this
    version do not compare the program id they are given with the id of the token
    program, and the handlers leave out some of the ownership checks of 3.3.0.

    [state.rs] and [native_mint.rs] have the code of 3.3.0 and are those of
    [TokenState]; so have [unpack_pubkey], [unpack_pubkey_option],
    [pack_pubkey_option], [AuthorityType], [is_valid_signer_index],
    [process_approve], [process_revoke], [process_toggle_freeze_account] and
    [validate_owner], which 3.3.0 writes with [cmp_pubkeys] for [==]. *)

From Stdlib Require Import Strings.Byte.
From S2P Require Import Prelude Sdk Rent Program TokenState TokenInstruction TokenProcessor TokenFacts Fixtures TokenSupply.

Module V310.

(** ** instruction.rs *)
Inductive TokenInstruction : Type :=
| InitializeMint (decimals : byte) (mint_authority : Pubkey) (freeze_authority : option Pubkey)
| InitializeAccount
| InitializeMultisig (m : byte)
| Transfer (amount : Z)
| Approve (amount : Z)
| Revoke
| SetAuthority (authority_type : AuthorityType) (new_authority : option Pubkey)
| MintTo (amount : Z)
| Burn (amount : Z)
| CloseAccount
| FreezeAccount
| ThawAccount
| TransferChecked (amount : Z) (decimals : byte)
| ApproveChecked (amount : Z) (decimals : byte)
| MintToChecked (amount : Z) (decimals : byte)
| BurnChecked (amount : Z) (decimals : byte)
| InitializeAccount2 (owner : Pubkey).

Definition unpack (input : list byte) : result ProgramError TokenInstruction :=
  '(tag, rest) ← split_first input;
  match tag with
  | x00 =>
      '(decimals, rest) ← split_first rest;
      '(mint_authority, rest) ← unpack_pubkey rest;
      '(freeze_authority, _) ← unpack_pubkey_option rest;
      Ok (InitializeMint decimals mint_authority freeze_authority)
  | x01 => Ok InitializeAccount
  | x02 => '(m, _) ← split_first rest; Ok (InitializeMultisig m)
  | x03 => amount ← unpack_amount rest; Ok (Transfer amount)
  | x04 => amount ← unpack_amount rest; Ok (Approve amount)
  | x07 => amount ← unpack_amount rest; Ok (MintTo amount)
  | x08 => amount ← unpack_amount rest; Ok (Burn amount)
  | x05 => Ok Revoke
  | x06 =>
      '(t, rest) ← split_first rest;
      authority_type ← AuthorityType_from t;
      '(new_authority, _) ← unpack_pubkey_option rest;
      Ok (SetAuthority authority_type new_authority)
  | x09 => Ok CloseAccount
  | x0a => Ok FreezeAccount
  | x0b => Ok ThawAccount
  | x0c => '(amount, decimals) ← unpack_amount_decimals rest; Ok (TransferChecked amount decimals)
  | x0d => '(amount, decimals) ← unpack_amount_decimals rest; Ok (ApproveChecked amount decimals)
  | x0e => '(amount, decimals) ← unpack_amount_decimals rest; Ok (MintToChecked amount decimals)
  | x0f => '(amount, decimals) ← unpack_amount_decimals rest; Ok (BurnChecked amount decimals)
  | x10 => '(owner, _) ← unpack_pubkey rest; Ok (InitializeAccount2 owner)
  | _ => Err (token_error InvalidInstruction)
  end.

Definition pack (i : TokenInstruction) : list byte :=
  match i with
  | InitializeMint decimals mint_authority freeze_authority =>
      [x00] ++ [decimals] ++ to_bytes mint_authority ++ pack_pubkey_option freeze_authority
  | InitializeAccount => [x01]
  | InitializeMultisig m => [x02] ++ [m]
  | Transfer amount => [x03] ++ u64_le amount
  | Approve amount => [x04] ++ u64_le amount
  | MintTo amount => [x07] ++ u64_le amount
  | Burn amount => [x08] ++ u64_le amount
  | Revoke => [x05]
  | SetAuthority authority_type new_authority =>
      [x06] ++ [AuthorityType_into authority_type] ++ pack_pubkey_option new_authority
  | CloseAccount => [x09]
  | FreezeAccount => [x0a]
  | ThawAccount => [x0b]
  | TransferChecked amount decimals => [x0c] ++ u64_le amount ++ [decimals]
  | ApproveChecked amount decimals => [x0d] ++ u64_le amount ++ [decimals]
  | MintToChecked amount decimals => [x0e] ++ u64_le amount ++ [decimals]
  | BurnChecked amount decimals => [x0f] ++ u64_le amount ++ [decimals]
  | InitializeAccount2 owner => [x10] ++ to_bytes owner
  end.

(** [Ok(Instruction { program_id: *token_program_id, accounts, data })] *)
Definition token_ix (token_program_id : Pubkey) (accounts : list AccountMeta)
    (i : TokenInstruction) : result ProgramError Instruction :=
  Ok (mkInstruction token_program_id accounts (pack i)).

Definition initialize_mint (token_program_id mint_pubkey mint_authority_pubkey : Pubkey)
    (freeze_authority_pubkey : option Pubkey) (decimals : byte) :=
  token_ix token_program_id
    [AccountMeta_new mint_pubkey false; AccountMeta_new_readonly rent_sysvar_id false]
    (InitializeMint decimals mint_authority_pubkey freeze_authority_pubkey).

Definition initialize_account (token_program_id account_pubkey mint_pubkey owner_pubkey : Pubkey) :=
  token_ix token_program_id
    [AccountMeta_new account_pubkey false; AccountMeta_new_readonly mint_pubkey false;
     AccountMeta_new_readonly owner_pubkey false; AccountMeta_new_readonly rent_sysvar_id false]
    InitializeAccount.

Definition initialize_account2 (token_program_id account_pubkey mint_pubkey owner_pubkey : Pubkey) :=
  token_ix token_program_id
    [AccountMeta_new account_pubkey false; AccountMeta_new_readonly mint_pubkey false;
     AccountMeta_new_readonly rent_sysvar_id false]
    (InitializeAccount2 owner_pubkey).

Definition initialize_multisig (token_program_id multisig_pubkey : Pubkey)
    (signer_pubkeys : list Pubkey) (m : byte) : result ProgramError Instruction :=
  ensure (multisig_args_ok signer_pubkeys m) ProgramError.MissingRequiredSignature;;
  token_ix token_program_id
    (AccountMeta_new multisig_pubkey false :: AccountMeta_new_readonly rent_sysvar_id false ::
     ((fun k => AccountMeta_new_readonly k false) <$> signer_pubkeys))
    (InitializeMultisig m).

Definition transfer (token_program_id source_pubkey destination_pubkey authority_pubkey : Pubkey)
    (signer_pubkeys : list Pubkey) (amount : Z) :=
  token_ix token_program_id
    (AccountMeta_new source_pubkey false :: AccountMeta_new destination_pubkey false
     :: authority_metas authority_pubkey signer_pubkeys)
    (Transfer amount).

Definition approve (token_program_id source_pubkey delegate_pubkey owner_pubkey : Pubkey)
    (signer_pubkeys : list Pubkey) (amount : Z) :=
  token_ix token_program_id
    (AccountMeta_new source_pubkey false :: AccountMeta_new_readonly delegate_pubkey false
     :: authority_metas owner_pubkey signer_pubkeys)
    (Approve amount).

Definition revoke (token_program_id source_pubkey owner_pubkey : Pubkey)
    (signer_pubkeys : list Pubkey) :=
  token_ix token_program_id
    (AccountMeta_new source_pubkey false :: authority_metas owner_pubkey signer_pubkeys) Revoke.

Definition set_authority (token_program_id owned_pubkey : Pubkey)
    (new_authority_pubkey : option Pubkey) (authority_type : AuthorityType)
    (owner_pubkey : Pubkey) (signer_pubkeys : list Pubkey) :=
  token_ix token_program_id
    (AccountMeta_new owned_pubkey false :: authority_metas owner_pubkey signer_pubkeys)
    (SetAuthority authority_type new_authority_pubkey).

Definition mint_to (token_program_id mint_pubkey account_pubkey owner_pubkey : Pubkey)
    (signer_pubkeys : list Pubkey) (amount : Z) :=
  token_ix token_program_id
    (AccountMeta_new mint_pubkey false :: AccountMeta_new account_pubkey false
     :: authority_metas owner_pubkey signer_pubkeys)
    (MintTo amount).

Definition burn (token_program_id account_pubkey mint_pubkey authority_pubkey : Pubkey)
    (signer_pubkeys : list Pubkey) (amount : Z) :=
  token_ix token_program_id
    (AccountMeta_new account_pubkey false :: AccountMeta_new mint_pubkey false
     :: authority_metas authority_pubkey signer_pubkeys)
    (Burn amount).

Definition close_account (token_program_id account_pubkey destination_pubkey owner_pubkey : Pubkey)
    (signer_pubkeys : list Pubkey) :=
  token_ix token_program_id
    (AccountMeta_new account_pubkey false :: AccountMeta_new destination_pubkey false
     :: authority_metas owner_pubkey signer_pubkeys)
    CloseAccount.

Definition freeze_account (token_program_id account_pubkey mint_pubkey owner_pubkey : Pubkey)
    (signer_pubkeys : list Pubkey) :=
  token_ix token_program_id
    (AccountMeta_new account_pubkey false :: AccountMeta_new_readonly mint_pubkey false
     :: authority_metas owner_pubkey signer_pubkeys)
    FreezeAccount.

Definition thaw_account (token_program_id account_pubkey mint_pubkey owner_pubkey : Pubkey)
    (signer_pubkeys : list Pubkey) :=
  token_ix token_program_id
    (AccountMeta_new account_pubkey false :: AccountMeta_new_readonly mint_pubkey false
     :: authority_metas owner_pubkey signer_pubkeys)
    ThawAccount.

Definition transfer_checked
    (token_program_id source_pubkey mint_pubkey destination_pubkey authority_pubkey : Pubkey)
    (signer_pubkeys : list Pubkey) (amount : Z) (decimals : byte) :=
  token_ix token_program_id
    (AccountMeta_new source_pubkey false :: AccountMeta_new_readonly mint_pubkey false
     :: AccountMeta_new destination_pubkey false :: authority_metas authority_pubkey signer_pubkeys)
    (TransferChecked amount decimals).

Definition approve_checked
    (token_program_id source_pubkey mint_pubkey delegate_pubkey owner_pubkey : Pubkey)
    (signer_pubkeys : list Pubkey) (amount : Z) (decimals : byte) :=
  token_ix token_program_id
    (AccountMeta_new source_pubkey false :: AccountMeta_new_readonly mint_pubkey false
     :: AccountMeta_new_readonly delegate_pubkey false :: authority_metas owner_pubkey signer_pubkeys)
    (ApproveChecked amount decimals).

Definition mint_to_checked (token_program_id mint_pubkey account_pubkey owner_pubkey : Pubkey)
    (signer_pubkeys : list Pubkey) (amount : Z) (decimals : byte) :=
  token_ix token_program_id
    (AccountMeta_new mint_pubkey false :: AccountMeta_new account_pubkey false
     :: authority_metas owner_pubkey signer_pubkeys)
    (MintToChecked amount decimals).

Definition burn_checked (token_program_id account_pubkey mint_pubkey authority_pubkey : Pubkey)
    (signer_pubkeys : list Pubkey) (amount : Z) (decimals : byte) :=
  token_ix token_program_id
    (AccountMeta_new account_pubkey false :: AccountMeta_new mint_pubkey false
     :: authority_metas authority_pubkey signer_pubkeys)
    (BurnChecked amount decimals).

(** ** processor.rs *)
Section processor.
Context {SV : Sysvars}.

Definition process_initialize_mint (accounts : list AccountInfo) (decimals : byte)
    (mint_authority : Pubkey) (freeze_authority : option Pubkey) : ProgM unit :=
  '(mint_info, iter) ← lift (next_account_info accounts);
  mint_data_len ← data_len mint_info;
  '(rent_info, _) ← lift (next_account_info iter);
  rent ← Rent_from_account_info rent_info;
  mint ← unpack_unchecked_cell (T:=Mint) mint_info;
  require (negb (mint_is_initialized mint)) AlreadyInUse;;
  l ← lamports mint_info;
  require (is_exempt rent l mint_data_len) NotRentExempt;;
  pack_cell (mkMint (Some mint_authority) (supply mint) decimals true freeze_authority) mint_info.

Definition _process_initialize_account (accounts : list AccountInfo) (owner_arg : option Pubkey)
    : ProgM unit :=
  '(new_account_info, iter) ← lift (next_account_info accounts);
  '(mint_info, iter) ← lift (next_account_info iter);
  '(own, iter) ←
    match owner_arg with
    | Some o => mret (o, iter)
    | None => '(i, iter) ← lift (next_account_info iter); mret (key i, iter)
    end;
  new_account_info_data_len ← data_len new_account_info;
  '(rent_info, _) ← lift (next_account_info iter);
  rent ← Rent_from_account_info rent_info;
  account ← unpack_unchecked_cell (T:=TokenAccount) new_account_info;
  require (negb (is_initialized account)) AlreadyInUse;;
  l ← lamports new_account_info;
  require (is_exempt rent l new_account_info_data_len) NotRentExempt;;
  (if negb (key_eqb (key mint_info) native_mint_id) then
     d ← data mint_info;
     lift (match TokenState.unpack (T:=Mint) d with
           | Ok _ => Ok tt
           | Err _ => Err (token_error InvalidMint)
           | Panic => Panic
           end)
   else mret tt);;
  '(native, amount) ←
    (if key_eqb (key mint_info) native_mint_id then
       let rent_exempt_reserve := minimum_balance rent new_account_info_data_len in
       l ← lamports new_account_info;
       amount ← checked (checked_sub l rent_exempt_reserve) Overflow;
       mret (Some rent_exempt_reserve, amount)
     else mret (None, 0));
  pack_cell
    (mkTokenAccount (key mint_info) own amount None Initialized native 0
       (ta_close_authority account))
    new_account_info.

Definition process_initialize_account (accounts : list AccountInfo) : ProgM unit :=
  _process_initialize_account accounts None.

Definition process_initialize_account2 (accounts : list AccountInfo) (owner : Pubkey)
    : ProgM unit :=
  _process_initialize_account accounts (Some owner).

Definition process_initialize_multisig (accounts : list AccountInfo) (m : byte) : ProgM unit :=
  '(multisig_info, iter) ← lift (next_account_info accounts);
  multisig_info_data_len ← data_len multisig_info;
  '(rent_info, signer_infos) ← lift (next_account_info iter);
  rent ← Rent_from_account_info rent_info;
  multisig ← unpack_unchecked_cell (T:=Multisig) multisig_info;
  require (negb (ms_is_initialized multisig)) AlreadyInUse;;
  l ← lamports multisig_info;
  require (is_exempt rent l multisig_info_data_len) NotRentExempt;;
  let n := u8_of (Z.of_nat (length signer_infos)) in
  require (is_valid_signer_index (Z.to_nat (u8_val n))) InvalidNumberOfProvidedSigners;;
  require (is_valid_signer_index (Z.to_nat (u8_val m))) InvalidNumberOfRequiredSigners;;
  signers ← lift (write_signers (ms_signers multisig) (key <$> signer_infos));
  pack_cell (mkMultisig m n true signers) multisig_info.

(** A transfer of this version never looks at the owner of the two accounts. *)
Definition process_transfer (program_id : Pubkey) (accounts : list AccountInfo) (amount : Z)
    (expected_decimals : option byte) : ProgM unit :=
  '(source_account_info, iter) ← lift (next_account_info accounts);
  '(expected_mint_info, iter) ← lift (take_mint expected_decimals iter);
  '(dest_account_info, iter) ← lift (next_account_info iter);
  '(authority_info, signers) ← lift (next_account_info iter);
  source_account ← unpack_cell (T:=TokenAccount) source_account_info;
  dest_account ← unpack_cell (T:=TokenAccount) dest_account_info;
  require (negb (is_frozen source_account || is_frozen dest_account)) AccountFrozen;;
  require (negb (ta_amount source_account <? amount)) InsufficientFunds;;
  require (key_eqb (ta_mint source_account) (ta_mint dest_account)) MintMismatch;;
  check_mint expected_mint_info (ta_mint source_account);;
  let self_transfer := key_eqb (key source_account_info) (key dest_account_info) in
  source_account ←
    authorize_spend program_id source_account authority_info signers amount self_transfer;
  if self_transfer then mret tt
  else
    source_amount ← checked (checked_sub (ta_amount source_account) amount) Overflow;
    dest_amount ← checked (checked_add (ta_amount dest_account) amount) Overflow;
    (if is_native source_account then
       source_starting_lamports ← lamports source_account_info;
       l ← checked (checked_sub source_starting_lamports amount) Overflow;
       set_lamports source_account_info l;;
       dest_starting_lamports ← lamports dest_account_info;
       l ← checked (checked_add dest_starting_lamports amount) Overflow;
       set_lamports dest_account_info l
     else mret tt);;
    pack_cell (with_amount source_account source_amount) source_account_info;;
    pack_cell (with_amount dest_account dest_amount) dest_account_info.

(** A new owner inherits the delegate and the close authority. *)
Definition set_account_authority (program_id : Pubkey) (account : TokenAccount)
    (authority_info : AccountInfo) (signers : list AccountInfo) (authority_type : AuthorityType)
    (new_authority : option Pubkey) : ProgM TokenAccount :=
  match authority_type with
  | AccountOwner =>
      validate_owner program_id (ta_owner account) authority_info signers;;
      match new_authority with
      | Some authority => mret (with_owner account authority)
      | None => fail_with InvalidInstruction
      end
  | AuthCloseAccount =>
      let authority := default (ta_owner account) (ta_close_authority account) in
      validate_owner program_id authority authority_info signers;;
      mret (with_close_authority account new_authority)
  | _ => fail_with AuthorityTypeNotSupported
  end.

Definition process_set_authority (program_id : Pubkey) (accounts : list AccountInfo)
    (authority_type : AuthorityType) (new_authority : option Pubkey) : ProgM unit :=
  '(account_info, iter) ← lift (next_account_info accounts);
  '(authority_info, signers) ← lift (next_account_info iter);
  len ← data_len account_info;
  if len =? Z.of_nat (LEN (T:=TokenAccount)) then
    account ← unpack_cell (T:=TokenAccount) account_info;
    require (negb (is_frozen account)) AccountFrozen;;
    account ← set_account_authority program_id account authority_info signers authority_type
                new_authority;
    pack_cell account account_info
  else if len =? Z.of_nat (LEN (T:=Mint)) then
    mint ← unpack_cell (T:=Mint) account_info;
    mint ← set_mint_authority program_id mint authority_info signers authority_type new_authority;
    pack_cell mint account_info
  else lift (Err ProgramError.InvalidArgument).

Definition process_mint_to (program_id : Pubkey) (accounts : list AccountInfo) (amount : Z)
    (expected_decimals : option byte) : ProgM unit :=
  '(mint_info, iter) ← lift (next_account_info accounts);
  '(dest_account_info, iter) ← lift (next_account_info iter);
  '(owner_info, signers) ← lift (next_account_info iter);
  dest_account ← unpack_cell (T:=TokenAccount) dest_account_info;
  require (negb (is_frozen dest_account)) AccountFrozen;;
  require (negb (is_native dest_account)) NativeNotSupported;;
  require (key_eqb (key mint_info) (ta_mint dest_account)) MintMismatch;;
  mint ← unpack_cell (T:=Mint) mint_info;
  (match expected_decimals with
   | Some d => require (u8_eqb d (decimals mint)) MintDecimalsMismatch
   | None => mret tt
   end);;
  (match mint_authority mint with
   | Some ma => validate_owner program_id ma owner_info signers
   | None => fail_with FixedSupply
   end);;
  dest_amount ← checked (checked_add (ta_amount dest_account) amount) Overflow;
  new_supply ← checked (checked_add (supply mint) amount) Overflow;
  pack_cell (with_amount dest_account dest_amount) dest_account_info;;
  pack_cell (with_supply mint new_supply) mint_info.

Definition process_burn (program_id : Pubkey) (accounts : list AccountInfo) (amount : Z)
    (expected_decimals : option byte) : ProgM unit :=
  '(source_account_info, iter) ← lift (next_account_info accounts);
  '(mint_info, iter) ← lift (next_account_info iter);
  '(authority_info, signers) ← lift (next_account_info iter);
  source_account ← unpack_cell (T:=TokenAccount) source_account_info;
  mint ← unpack_cell (T:=Mint) mint_info;
  require (negb (is_frozen source_account)) AccountFrozen;;
  require (negb (is_native source_account)) NativeNotSupported;;
  require (negb (ta_amount source_account <? amount)) InsufficientFunds;;
  require (key_eqb (key mint_info) (ta_mint source_account)) MintMismatch;;
  (match expected_decimals with
   | Some d => require (u8_eqb d (decimals mint)) MintDecimalsMismatch
   | None => mret tt
   end);;
  source_account ←
    authorize_spend program_id source_account authority_info signers amount false;
  source_amount ← checked (checked_sub (ta_amount source_account) amount) Overflow;
  new_supply ← checked (checked_sub (supply mint) amount) Overflow;
  pack_cell (with_amount source_account source_amount) source_account_info;;
  pack_cell (with_supply mint new_supply) mint_info.

(** The closed account keeps its data with the amount set to zero. *)
Definition process_close_account (program_id : Pubkey) (accounts : list AccountInfo)
    : ProgM unit :=
  '(source_account_info, iter) ← lift (next_account_info accounts);
  '(dest_account_info, iter) ← lift (next_account_info iter);
  '(authority_info, signers) ← lift (next_account_info iter);
  source_account ← unpack_cell (T:=TokenAccount) source_account_info;
  require (negb (negb (is_native source_account) && negb (ta_amount source_account =? 0)))
    NonNativeHasBalance;;
  let authority := default (ta_owner source_account) (ta_close_authority source_account) in
  validate_owner program_id authority authority_info signers;;
  dest_starting_lamports ← lamports dest_account_info;
  source_lamports ← lamports source_account_info;
  l ← checked (checked_add dest_starting_lamports source_lamports) Overflow;
  set_lamports dest_account_info l;;
  set_lamports source_account_info 0;;
  pack_cell (with_amount source_account 0) source_account_info.

Definition process (program_id : Pubkey) (accounts : list AccountInfo) (input : list byte)
    : ProgM unit :=
  instruction ← lift (unpack input);
  match instruction with
  | InitializeMint decimals mint_authority freeze_authority =>
      process_initialize_mint accounts decimals mint_authority freeze_authority
  | InitializeAccount => process_initialize_account accounts
  | InitializeAccount2 owner => process_initialize_account2 accounts owner
  | InitializeMultisig m => process_initialize_multisig accounts m
  | Transfer amount => process_transfer program_id accounts amount None
  | Approve amount => process_approve program_id accounts amount None
  | Revoke => process_revoke program_id accounts
  | SetAuthority authority_type new_authority =>
      process_set_authority program_id accounts authority_type new_authority
  | MintTo amount => process_mint_to program_id accounts amount None
  | Burn amount => process_burn program_id accounts amount None
  | CloseAccount => process_close_account program_id accounts
  | FreezeAccount => process_toggle_freeze_account program_id accounts true
  | ThawAccount => process_toggle_freeze_account program_id accounts false
  | TransferChecked amount decimals =>
      process_transfer program_id accounts amount (Some decimals)
  | ApproveChecked amount decimals =>
      process_approve program_id accounts amount (Some decimals)
  | MintToChecked amount decimals =>
      process_mint_to program_id accounts amount (Some decimals)
  | BurnChecked amount decimals =>
      process_burn program_id accounts amount (Some decimals)
  end.

End processor.

End V310.

(** ** Agreement with 3.3.0 *)

(** The instructions of 3.1.0 among those of 3.3.0. *)
Definition to_current (i : V310.TokenInstruction) : TokenInstruction :=
  match i with
  | V310.InitializeMint d m f => InitializeMint d m f
  | V310.InitializeAccount => InitializeAccount
  | V310.InitializeMultisig m => InitializeMultisig m
  | V310.Transfer a => Transfer a
  | V310.Approve a => Approve a
  | V310.Revoke => Revoke
  | V310.SetAuthority t n => SetAuthority t n
  | V310.MintTo a => MintTo a
  | V310.Burn a => Burn a
  | V310.CloseAccount => CloseAccount
  | V310.FreezeAccount => FreezeAccount
  | V310.ThawAccount => ThawAccount
  | V310.TransferChecked a d => TransferChecked a d
  | V310.ApproveChecked a d => ApproveChecked a d
  | V310.MintToChecked a d => MintToChecked a d
  | V310.BurnChecked a d => BurnChecked a d
  | V310.InitializeAccount2 o => InitializeAccount2 o
  end.

(** The accounts whose owner 3.3.0 looks at and 3.1.0 does not. *)
Definition owner_checked (i : V310.TokenInstruction) (accounts : list AccountInfo)
    : list AccountInfo :=
  match i, accounts with
  | (V310.Transfer _ | V310.MintTo _ | V310.Burn _ | V310.MintToChecked _ _
     | V310.BurnChecked _ _), a :: b :: _ => [a; b]
  | V310.TransferChecked _ _, a :: _ :: b :: _ => [a; b]
  | (V310.InitializeAccount | V310.InitializeAccount2 _), _ :: b :: _ => [b]
  | _, _ => []
  end.

(** The two instructions whose effect on the data differs. *)
Definition same_effect (i : V310.TokenInstruction) : bool :=
  match i with
  | V310.SetAuthority AccountOwner _ | V310.CloseAccount => false
  | _ => true
  end.

Definition owned_by (pid : Pubkey) (v : view) (i : AccountInfo) : Prop :=
  exists a, v !! key i = Some a /\ acc_owner a = pid.

Lemma pack_to_current i : V310.pack i = TokenInstruction_pack (to_current i).
Proof. by destruct i. Qed.

(** Bytes 3.1.0 decodes are decoded to the same instruction by 3.3.0. *)
Lemma unpack_to_current input i :
  V310.unpack input = Ok i -> TokenInstruction_unpack input = Ok (to_current i).
Proof.
  unfold V310.unpack, TokenInstruction_unpack. intros H.
  apply result_bind_ok in H as ([tag rest] & -> & H). cbn [mbind result_bind].
  destruct tag; try discriminate H; cbv beta iota in H |- *;
    repeat match type of H with
    | Ok _ = Ok _ => injection H as <-
    | mbind _ ?m = Ok _ =>
        let x := fresh "x" in let Hx := fresh "Hx" in
        apply result_bind_ok in H as (x & Hx & H); rewrite Hx; cbn [mbind result_bind];
        lazymatch type of x with prod _ _ => destruct x; cbv beta iota in H |- * | _ => idtac end
    end; reflexivity.
Qed.

Section agreement.
Context {SV : Sysvars}.

Lemma no_cpi_validate_owner pid o i s : no_cpi (validate_owner pid o i s).
Proof.
  unfold validate_owner, require, unpack_cell. solve_no_cpi.
  destruct (_ && _); solve_no_cpi.
Qed.

Lemma no_cpi_unpack_cell {T} `{Pack T} i : no_cpi (unpack_cell (T:=T) i).
Proof. unfold unpack_cell. solve_no_cpi. Qed.

Lemma read_only_unpack_unchecked {T} `{Pack T} i : read_only (unpack_unchecked_cell (T:=T) i).
Proof. apply read_only_bind; [apply read_only_with_cell|intros; apply read_only_lift]. Qed.

Lemma no_cpi_unpack_unchecked {T} `{Pack T} i : no_cpi (unpack_unchecked_cell (T:=T) i).
Proof. unfold unpack_unchecked_cell. solve_no_cpi. Qed.

Lemma no_cpi_check_mint e k : no_cpi (check_mint e k).
Proof.
  unfold check_mint, require, unpack_cell. destruct e as [[i d]|]; solve_no_cpi.
Qed.

Lemma no_cpi_authorize_spend pid t i s x b : no_cpi (authorize_spend pid t i s x b).
Proof.
  unfold authorize_spend, require, checked. cbv zeta.
  destruct (ta_delegate t); [destruct (cmp_pubkeys _ _)|];
    (apply no_cpi_bind; [apply no_cpi_validate_owner|intros]); solve_no_cpi.
  destruct b; solve_no_cpi.
Qed.

(** Two continuations of a step that only reads agree when they agree on its result. *)
Lemma read_then {A B} (m : ProgM A) (f g : A -> ProgM B) v :
  read_only m -> no_cpi m -> (forall a, m v = TOk a v -> f a v = g a v) ->
  mbind f m v = mbind g m v.
Proof.
  intros Hr Hc Hfg. unfold mbind, ProgM_bind. specialize (Hc v).
  destruct (m v) as [a w| | |] eqn:E; cbn; try done.
  pose proof (Hr _ _ _ E) as ->. by apply Hfg.
Qed.

Lemma skip_check pid i v {B} (f : unit -> ProgM B) :
  owned_by pid v i -> mbind f (check_account_owner pid i) v = f tt v.
Proof.
  intros (a & Ha & Ho). unfold mbind at 1, ProgM_bind at 1.
  by rewrite (proj2 (check_account_owner_ok pid i v tt v)) by eauto.
Qed.

Lemma skip_checks (b : bool) pid i j v {B} (f : unit -> ProgM B) :
  owned_by pid v i -> owned_by pid v j ->
  mbind f (if b then check_account_owner pid i;; check_account_owner pid j else mret tt) v = f tt v.
Proof.
  intros Hi Hj. destruct b; [|done]. unfold mbind at 1, ProgM_bind at 1.
  rewrite skip_check by done. destruct Hj as (a & Ha & Ho).
  by rewrite (proj2 (check_account_owner_ok pid j v tt v)) by eauto.
Qed.

End agreement.

(** Walk through the reading steps both sides share. *)
Ltac same_reads :=
  repeat match goal with
  | |- mbind _ (lift _) _ = mbind _ (lift _) _ =>
      apply read_then; [apply read_only_lift | apply no_cpi_lift | intros ? _]
  | |- mbind _ (require _ _) _ = mbind _ (require _ _) _ =>
      apply read_then; [apply read_only_lift | apply no_cpi_lift | intros ? _]
  | |- mbind _ (unpack_cell _) _ = mbind _ (unpack_cell _) _ =>
      apply read_then; [apply read_only_unpack | apply no_cpi_unpack_cell | intros ? _]
  | |- mbind _ (unpack_unchecked_cell _) _ = mbind _ (unpack_unchecked_cell _) _ =>
      apply read_then; [apply read_only_unpack_unchecked | apply no_cpi_unpack_unchecked | intros ? _]
  | |- mbind _ (check_mint _ _) _ = mbind _ (check_mint _ _) _ =>
      apply read_then; [apply check_mint_read_only | apply no_cpi_check_mint | intros ? _]
  | |- mbind _ (authorize_spend _ _ _ _ _ _) _ = mbind _ (authorize_spend _ _ _ _ _ _) _ =>
      apply read_then; [apply authorize_spend_read_only | apply no_cpi_authorize_spend | intros ? _]
  | |- mbind _ (validate_owner _ _ _ _) _ = mbind _ (validate_owner _ _ _ _) _ =>
      apply read_then; [apply validate_owner_read_only | apply no_cpi_validate_owner | intros ? _]
  | |- mbind _ (data_len _) _ = mbind _ (data_len _) _ =>
      apply read_then; [apply read_only_with_cell | apply no_cpi_with_cell | intros ? _]
  | |- mbind _ (lamports _) _ = mbind _ (lamports _) _ =>
      apply read_then; [apply read_only_with_cell | apply no_cpi_with_cell | intros ? _]
  | |- mbind _ (Rent_from_account_info _) _ = mbind _ (Rent_from_account_info _) _ =>
      apply read_then; [apply read_only_rent | apply no_cpi_rent | intros ? _]
  | |- context [let '(_, _) := ?p in _] => destruct p
  | |- _ => progress cbv beta iota zeta
  end.

Section agreement.
Context {SV : Sysvars}.

Lemma transfer_agrees pid si di mints rest amount dec v :
  owned_by pid v si -> owned_by pid v di ->
  (forall mi, take_mint dec (mints ++ di :: rest) = Ok mi -> snd mi = di :: rest) ->
  V310.process_transfer pid (si :: mints ++ di :: rest) amount dec v
  = process_transfer pid (si :: mints ++ di :: rest) amount dec v.
Proof.
  intros Hs Hd Hm. unfold V310.process_transfer, process_transfer, cmp_pubkeys.
  apply read_then; [apply read_only_lift | apply no_cpi_lift | intros [si' it] Hsi].
  cbn in Hsi. injection Hsi as <- <-.
  apply read_then; [apply read_only_lift | apply no_cpi_lift | intros [mi it] Hmi].
  apply lift_ok in Hmi as [Hmi _]. apply Hm in Hmi. cbn in Hmi. subst it.
  apply read_then; [apply read_only_lift | apply no_cpi_lift | intros [di' it] Hdi].
  cbn in Hdi. injection Hdi as <- <-. same_reads.
  by rewrite skip_checks.
Qed.

Lemma mint_to_agrees pid mi di rest amount dec v :
  owned_by pid v mi -> owned_by pid v di ->
  V310.process_mint_to pid (mi :: di :: rest) amount dec v
  = process_mint_to pid (mi :: di :: rest) amount dec v.
Proof.
  intros Hm Hd. unfold V310.process_mint_to, process_mint_to, cmp_pubkeys.
  apply read_then; [apply read_only_lift | apply no_cpi_lift | intros [? ?] [= <- <-]].
  apply read_then; [apply read_only_lift | apply no_cpi_lift | intros [? ?] [= <- <-]].
  same_reads. apply read_then;
    [by destruct dec; apply read_only_lift || apply read_only_ret
    |by destruct dec; apply no_cpi_lift || apply no_cpi_ret|].
  intros _ _. apply read_then; [..|intros _ _; by rewrite skip_checks].
  - destruct (mint_authority _); [apply validate_owner_read_only|apply read_only_lift].
  - destruct (mint_authority _); [apply no_cpi_validate_owner|apply no_cpi_lift].
Qed.

Lemma burn_agrees pid si mi rest amount dec v :
  owned_by pid v si -> owned_by pid v mi ->
  V310.process_burn pid (si :: mi :: rest) amount dec v
  = process_burn pid (si :: mi :: rest) amount dec v.
Proof.
  intros Hm Hd. unfold V310.process_burn, process_burn, cmp_pubkeys.
  apply read_then; [apply read_only_lift | apply no_cpi_lift | intros [? ?] [= <- <-]].
  apply read_then; [apply read_only_lift | apply no_cpi_lift | intros [? ?] [= <- <-]].
  same_reads. apply read_then;
    [by destruct dec; apply read_only_lift || apply read_only_ret
    |by destruct dec; apply no_cpi_lift || apply no_cpi_ret|].
  intros _ _. same_reads. by rewrite skip_checks.
Qed.

Lemma take_rent_sysvar {B} (f : Rent * list AccountInfo -> ProgM B) it v :
  mbind f (take_rent true it) v
  = ('(i, it) ← lift (next_account_info it); r ← Rent_from_account_info i; f (r, it)) v.
Proof.
  destruct it as [|i it]; [done|]. unfold mbind, ProgM_bind. cbn [take_rent lift tbind next_account_info].
  unfold mbind, ProgM_bind. cbn [lift tbind next_account_info].
  pose proof (no_cpi_rent i v). by destruct (Rent_from_account_info i v).
Qed.

Lemma initialize_mint_agrees accounts dec ma fa v :
  V310.process_initialize_mint accounts dec ma fa v = process_initialize_mint accounts dec ma fa v.
Proof.
  unfold V310.process_initialize_mint, process_initialize_mint, _process_initialize_mint.
  same_reads. rewrite take_rent_sysvar. by same_reads.
Qed.

Lemma initialize_multisig_agrees accounts m v :
  V310.process_initialize_multisig accounts m v = process_initialize_multisig accounts m v.
Proof.
  unfold V310.process_initialize_multisig, process_initialize_multisig, _process_initialize_multisig.
  same_reads. rewrite take_rent_sysvar. by same_reads.
Qed.

Lemma initialize_account_agrees pid accounts o v :
  (forall mi, accounts !! 1%nat = Some mi -> owned_by pid v mi) ->
  V310._process_initialize_account accounts o v
  = _process_initialize_account pid accounts o true v.
Proof.
  intros Hm. unfold V310._process_initialize_account, _process_initialize_account, cmp_pubkeys.
  destruct accounts as [|ni [|mi it]]; [done|done|]. specialize (Hm mi eq_refl).
  apply read_then; [apply read_only_lift | apply no_cpi_lift | intros [? ?] [= <- <-]].
  apply read_then; [apply read_only_lift | apply no_cpi_lift | intros [? ?] [= <- <-]].
  apply read_then; [..|intros [own it'] _].
  { destruct o; [apply read_only_ret|]. apply read_only_bind; [apply read_only_lift|].
    intros [? ?]. apply read_only_ret. }
  { destruct o; [apply no_cpi_ret|]. apply no_cpi_bind; [apply no_cpi_lift|].
    intros [? ?]. apply no_cpi_ret. }
  same_reads. rewrite take_rent_sysvar. same_reads.
  destruct (key_eqb (key mi) native_mint_id); [done|]. cbn [negb].
  unfold mbind at 1, ProgM_bind at 1. symmetry. unfold mbind at 1, ProgM_bind at 1. by rewrite skip_check.
Qed.

Lemma set_authority_agrees pid accounts t n v :
  t <> AccountOwner ->
  V310.process_set_authority pid accounts t n v = process_set_authority pid accounts t n v.
Proof. by destruct t. Qed.

Lemma Forall_two {A} (P : A -> Prop) a b : Forall P [a; b] -> P a /\ P b.
Proof. intros H. by repeat (apply Forall_cons_1 in H as [? H]). Qed.

(** C7: The token program vendored with level 4 (3.1.0) behaves as 3.3.0, errors and
    panics included, on every instruction it knows except closing an account and
    changing the owner of one, as soon as the accounts whose owner only 3.3.0 looks at
    belong to the program. *)
Theorem vendored_agrees (pid : Pubkey) (accounts : list AccountInfo) (input : list byte)
    (i : V310.TokenInstruction) (v : view)
    (Hi : V310.unpack input = Ok i) (Hsame : same_effect i = true)
    (Hown : Forall (owned_by pid v) (owner_checked i accounts)) :
  V310.process pid accounts input v = process pid accounts input v.
Proof.
  unfold V310.process, process. rewrite Hi, (unpack_to_current _ _ Hi).
  unfold mbind, ProgM_bind. cbn [lift tbind].
  destruct i; cbn [to_current]; try reflexivity.
  - apply initialize_mint_agrees.
  - apply initialize_account_agrees. intros mi Hmi.
    destruct accounts as [|? [|? ?]]; try done. injection Hmi as ->. by inversion Hown.
  - apply initialize_multisig_agrees.
  - destruct accounts as [|si [|di it]]; try reflexivity.
    apply Forall_two in Hown as [Hs Hd].
    by apply (transfer_agrees pid si di [] it); [done..|intros ? [= <-]].
  - apply set_authority_agrees. by intros ->.
  - destruct accounts as [|mi [|di it]]; try reflexivity.
    apply Forall_two in Hown as [Hm Hd]. by apply mint_to_agrees.
  - destruct accounts as [|si [|mi it]]; try reflexivity.
    apply Forall_two in Hown as [Hs Hm]. by apply burn_agrees.
  - done.
  - destruct accounts as [|si [|mi [|di it]]]; try reflexivity.
    apply Forall_two in Hown as [Hs Hd].
    by apply (transfer_agrees pid si di [mi] it); [done..|intros ? [= <-]].
  - destruct accounts as [|mi [|di it]]; try reflexivity.
    apply Forall_two in Hown as [Hm Hd]. by apply mint_to_agrees.
  - destruct accounts as [|si [|mi it]]; try reflexivity.
    apply Forall_two in Hown as [Hs Hm]. by apply burn_agrees.
  - apply initialize_account_agrees. intros mi Hmi.
    destruct accounts as [|? [|? ?]]; try done. injection Hmi as ->. by inversion Hown.
Qed.

End agreement.

Lemma vendored_agrees_witness :
  V310.process spl_token_id [wr ex_alice_tokens; wr ex_bob_tokens; wr_signer ex_alice]
    (V310.pack (V310.Transfer 50)) ex_tokens
  = process spl_token_id [wr ex_alice_tokens; wr ex_bob_tokens; wr_signer ex_alice]
      (V310.pack (V310.Transfer 50)) ex_tokens.
Proof.
  apply (vendored_agrees _ _ _ (V310.Transfer 50)); [vm_true|reflexivity|].
  repeat constructor; eexists; split; vm_compute; reflexivity.
Defined.
