(* ===== verification/TokenCalls.v ===== *)
(** * The token program as a callee

    What the token program promises to the programs that call it, as a class over
    handlers of cross-program invocations, and the proof that a handler that runs
    the code of [TokenProcessor] keeps the promise. *)

From Stdlib Require Import Strings.Byte.
From S2P Require Import Prelude Sdk Rent Program TokenState TokenInstruction TokenProcessor TokenFacts TokenSupply TokenSpec TokenSafety VendoredToken.

(** The handles the callee gets: an account that occurs twice has the privileges of
    both occurrences. *)
Definition callee_infos (metas : list AccountMeta) : list AccountInfo :=
  (fun m =>
     let same := List.filter (fun m' => key_eqb (am_pubkey m') (am_pubkey m)) metas in
     mkAccountInfo (am_pubkey m) (existsb am_is_signer same) (existsb am_is_writable same))
  <$> metas.

(** A successful call of program [p] ran [entry] on the accounts of the instruction. *)
Definition runs_program (cpi : cpi_handler) (p : Pubkey)
    (entry : Pubkey -> list AccountInfo -> list byte -> ProgM unit) : Prop :=
  forall ix infos ss v v', ix_program_id ix = p -> cpi ix infos ss v = Ok v' ->
    entry p (callee_infos (ix_accounts ix)) (ix_data ix) v = TOk tt v'.

(** [x] tokens of one mint went from the account [src] to the account [dst], spent by
    [who]; nothing else changed. *)
Record tokens_moved (src dst mint who : Pubkey) (x : Z) (v v' : view) : Prop := {
  moved_cells : exists sc dc s d,
    v !! src = Some sc /\ unpack (acc_data sc) = Ok s /\
    v !! dst = Some dc /\ unpack (acc_data dc) = Ok d /\
    x <= ta_amount s /\ ta_mint s = mint /\ ta_mint d = mint /\
    is_frozen s = false /\ is_frozen d = false /\
    (who = ta_owner s \/ ta_delegate s = Some who /\ x <= ta_delegated_amount s) /\
    (src = dst /\ v' = v \/
     src <> dst /\ exists sc' dc' s',
       v' = <[dst := dc']> (<[src := sc']> v) /\
       acc_owner sc' = acc_owner sc /\ acc_owner dc' = acc_owner dc /\
       unpack (acc_data sc') = Ok s' /\ ta_amount s' = ta_amount s - x /\
       ta_owner s' = ta_owner s /\ ta_mint s' = mint /\
       unpack (acc_data dc') = Ok (with_amount d (ta_amount d + x)))
}.

(** A fresh account of the token program became an empty token account. *)
Definition token_account_made (account mint owner : Pubkey) (v v' : view) : Prop :=
  exists a d t, v !! account = Some a /\ v' = <[account := set_acc_data a d]> v /\
    unpack d = Ok t /\ ta_mint t = mint /\ ta_owner t = owner /\ ta_state t = Initialized /\
    ta_delegate t = None /\
    (mint <> native_mint_id -> ta_amount t = 0 /\ ta_is_native t = None).

Class TokenCpi (cpi : cpi_handler) : Prop := {
  token_transfer_checked src mint dst who x dec ix infos ss v v' :
    is_u64 x ->
    V310.transfer_checked spl_token_id src mint dst who [] x dec = Ok ix ->
    cpi ix infos ss v = Ok v' -> tokens_moved src dst mint who x v v';
  token_initialize_account account mint own ix infos ss v v' :
    (forall a, v !! account = Some a -> is_u64 (acc_lamports a)) ->
    V310.initialize_account spl_token_id account mint own = Ok ix ->
    cpi ix infos ss v = Ok v' -> token_account_made account mint own v v'
}.

Section calls.
Context {SV : Sysvars}.

(** The authority of a spend is the owner or a delegate with the allowance. *)
Lemma authorize_spend_who pid t ai s x b v t' v' :
  authorize_spend pid t ai s x b v = TOk t' v' ->
  key ai = ta_owner t \/ ta_delegate t = Some (key ai) /\ x <= ta_delegated_amount t.
Proof.
  unfold authorize_spend. cbv zeta. intros H.
  assert (Hv : forall who w w', validate_owner pid who ai s w = TOk tt w' -> key ai = who).
  { unfold validate_owner, cmp_pubkeys. intros. by inv_token. }
  destruct (ta_delegate t) as [dl|]; [destruct (cmp_pubkeys (key ai) dl) eqn:E|].
  - apply key_eqb_eq in E as <-. right. split; [done|].
    apply prog_bind_ok in H as (? & w & _ & H). apply prog_bind_ok in H as (? & w2 & H & _).
    apply require_ok in H as [H _]. by apply negb_true_iff, Z.ltb_ge in H.
  - left. apply prog_bind_ok in H as ([] & w & H & _). by eapply Hv.
  - left. apply prog_bind_ok in H as ([] & w & H & _). by eapply Hv.
Qed.

(** A checked transfer of the token program moves the tokens. *)
Lemma transfer_checked_moves pid si mi di ai rest x dec v u v' :
  is_u64 x ->
  process_transfer pid (si :: mi :: di :: ai :: rest) x (Some dec) v = TOk u v' ->
  tokens_moved (key si) (key di) (key mi) (key ai) x v v'.
Proof.
  intros Hx H. apply process_transfer_ok in H as
    [(si' & di' & ai' & signers & mints & sc & dc & s & d & s' & (mo & Hmo & Hacc & _ & Hchk) & Hsc & Hs &
      Hdc & Hd & Hfs & Hfd & Hle & Hmint & Hauth & _ & Hcase)].
  cbn in Hmo. injection Hmo as <- <- <- <-. injection Hacc as <- _.
  apply prog_bind_ok in Hchk as ([] & ? & Hm & _). apply require_ok in Hm as [Hm _].
  apply key_eqb_eq in Hm.
  pose proof (unpack_account_range _ _ Hs) as Hrs. pose proof (unpack_account_range _ _ Hd) as Hrd.
  pose proof (unpack_initialized _ _ Hs) as His. pose proof (unpack_initialized _ _ Hd) as Hid.
  pose proof (authorize_spend_who _ _ _ _ _ _ _ _ _ Hauth) as Hwho.
  destruct (authorize_spend_ok _ _ _ _ _ _ _ _ _ Hauth) as (_ & dl & y & Hs' & _).
  destruct (spend_in_range _ _ _ _ _ _ _ _ _ (ta_amount s - x) Hauth Hrs (proj1 Hx))
    as (Hrs' & Hiss & Hms & Hns); [destruct Hrs as ([? ?] & _), Hx; unfold is_u64; lia|].
  split. exists sc, dc, s, d. split_and!; try done; [congruence|].
  destruct Hcase as [?|(Hne & Hmax & ds & dd & ls & ld & Hps & Hpd & _ & ->)]; [by left|].
  right. split; [done|]. exists (rewritten sc ls ds), (rewritten dc ld dd), (with_amount s' (ta_amount s - x)).
  split_and!; try done.
  - apply (packed_account sc s _ ds ls Hs Hps Hrs'). by rewrite initialized_with_amount, Hiss.
  - by subst s'.
  - by subst s'.
  - apply (packed_account dc d _ dd ld Hd Hpd); [|by rewrite initialized_with_amount].
    destruct Hrd as (? & ? & ?). unfold account_in_range, is_u64 in *. cbn. split_and!; try done; lia.
Qed.

(** The owner of a new account is an argument or the next account. *)
Definition owner_given (owner_arg : option Pubkey) (rest : list AccountInfo) (own : Pubkey) : Prop :=
  match owner_arg with Some o => own = o | None => exists oi rest', rest = oi :: rest' /\ own = key oi end.

Lemma initialize_account_makes pid accounts owner_arg sysvar v u v' :
  (forall ni a, head accounts = Some ni -> v !! key ni = Some a -> is_u64 (acc_lamports a)) ->
  _process_initialize_account pid accounts owner_arg sysvar v = TOk u v' ->
  exists ni mi rest own, accounts = ni :: mi :: rest /\ owner_given owner_arg rest own /\
    token_account_made (key ni) (key mi) own v v'.
Proof.
  unfold _process_initialize_account, cmp_pubkeys. intros Hl H. inv_token.
  repeat match goal with H : (let '(_, _) := ?p in _) _ = TOk _ _ |- _ => destruct p end.
  inv_token. cbv zeta in *.
  match goal with p : Pubkey, H : _ = TOk (p, _) ?w |- _ =>
    assert (w = v /\ owner_given owner_arg l0 p) as [-> Hown]
      by (destruct owner_arg; inv_token; simplify_eq; (split; [done|]); [done|by eexists _, _]) end.
  match goal with o : option Z, H1 : _ v = TOk () ?w, H2 : _ ?w = TOk (o, ?z) ?w' |- _ =>
    assert (w = v /\ w' = v /\ opt_u64 o /\ is_u64 z /\ (key a0 <> native_mint_id -> z = 0 /\ o = None))
      as (-> & -> & Ho & Hz & Hn) end.
  { destruct (key_eqb (key a0) native_mint_id) eqn:E; cbn [negb] in *; inv_token; simplify_eq;
      split_and!; try done; auto with sol.
    all: match goal with H : minimum_balance ?r ?n <= acc_lamports ?c, H' : _ !! _ = Some ?c |- _ =>
      pose proof (minimum_balance_range r n) as [? ?]; pose proof (Hl _ _ eq_refl H') as [? ?] end;
      cbn; unfold is_u64; lia. }
  simplify_eq. exists a, a0, l0, p. split_and!; [done..|]. eexists _, _, _. split; [eassumption|]. split; [reflexivity|].
  match goal with Hp : pack ?t _ = Ok _ |- _ =>
    assert (Hr : in_range t) by (split_and!; [exact Hz|exact Ho|done]);
    rewrite (pack_then_unpack _ _ _ Hr Hp) end.
  split; [reflexivity|]. cbn. by split_and!.
Qed.

Lemma ok_eq {A} (a b : A) : Ok (E:=ProgramError) a = Ok b -> b = a.
Proof. by intros [= ->]. Qed.

Lemma cons_eq_inv {A} (a b : A) l k : a :: l = b :: k -> a = b /\ l = k.
Proof. by intros [= -> ->]. Qed.

(** The code of the token program keeps the promise. *)
Lemma token_program_promise cpi : runs_program cpi spl_token_id process -> TokenCpi cpi.
Proof.
  intros Hrun. split.
  - intros src mint dst who x dec ix infos ss v v' Hx Hix Hcpi. apply ok_eq in Hix as ->.
    apply Hrun in Hcpi; [|done]. unfold process in Hcpi.
    apply prog_bind_ok in Hcpi as (i & w & Hi & H). apply lift_ok in Hi as [Hi ->].
    change (TokenInstruction_unpack (TokenInstruction_pack (TransferChecked x dec)) = Ok i) in Hi.
    rewrite <-(app_nil_r (TokenInstruction_pack _)), token_unpack_pack in Hi by done.
    injection Hi as <-. cbv beta iota in H. unfold callee_infos in H. cbn [ix_accounts authority_metas] in H.
    rewrite !fmap_cons in H. apply transfer_checked_moves in H; [|done]. exact H.
  - intros account mint own ix infos ss v v' Hl Hix Hcpi. apply ok_eq in Hix as ->.
    apply Hrun in Hcpi; [|done]. unfold process in Hcpi.
    apply prog_bind_ok in Hcpi as (i & w & Hi & H). apply lift_ok in Hi as [Hi ->].
    change (Ok (E:=ProgramError) InitializeAccount = Ok i) in Hi. apply ok_eq in Hi as ->. cbv beta iota in H.
    unfold process_initialize_account in H.
    apply initialize_account_makes in H as (ni & mi & rest & o & Hacc & (oi & rest' & -> & ->) & H);
      [|intros ? ? [= <-]; apply Hl].
    unfold callee_infos in Hacc. cbn [ix_accounts] in Hacc. rewrite !fmap_cons in Hacc.
    apply cons_eq_inv in Hacc as [<- Hacc]. apply cons_eq_inv in Hacc as [<- Hacc].
    apply cons_eq_inv in Hacc as [<- _]. exact H.
Qed.

Lemma with_amount_in_range t y : account_in_range t -> is_u64 y -> account_in_range (with_amount t y).
Proof. by intros (? & ? & ?). Qed.

(** A transfer by the signing owner, with the balance and without overflow, succeeds. *)
Lemma process_transfer_pays pid si di ai v sc dc ac s d x :
  v !! key si = Some sc -> unpack (acc_data sc) = Ok s ->
  v !! key di = Some dc -> unpack (acc_data dc) = Ok d -> key si <> key di ->
  is_frozen s = false -> is_frozen d = false -> is_native s = false -> ta_mint s = ta_mint d ->
  0 < x <= ta_amount s -> ta_amount d + x <= U64_MAX ->
  ta_owner s = key ai -> ta_delegate s <> Some (key ai) ->
  v !! key ai = Some ac -> is_multisig pid ac = false -> is_signer ai = true ->
  exists sd dd,
    process_transfer pid [si; di; ai] x None v
    = TOk tt (<[key di := set_acc_data dc dd]> (<[key si := set_acc_data sc sd]> v)) /\
    unpack sd = Ok (with_amount s (ta_amount s - x)) /\
    unpack dd = Ok (with_amount d (ta_amount d + x)).
Proof.
  intros Hsc Hs Hdc Hd Hne Hfs Hfd Hn Hm Hx Hmax Ho Hdl Hac Hms Hsig.
  pose proof (unpack_account_range _ _ Hs) as Hrs. pose proof (unpack_account_range _ _ Hd) as Hrd.
  destruct (proj1 (pack_roundtrips (T:=TokenAccount)) (with_amount s (ta_amount s - x)) (acc_data sc))
    as (sd & Hps & Hus).
  { apply (with_amount_in_range s _ Hrs). destruct Hrs as ([? ?] & _). unfold is_u64. lia. }
  { by apply unpack_initialized in Hs. }
  { by apply unpack_ok in Hs as [? _]. }
  destruct (proj1 (pack_roundtrips (T:=TokenAccount)) (with_amount d (ta_amount d + x)) (acc_data dc))
    as (dd & Hpd & Hud).
  { apply (with_amount_in_range d _ Hrd). destruct Hrd as ([? ?] & _). unfold is_u64. lia. }
  { by apply unpack_initialized in Hd. }
  { by apply unpack_ok in Hd as [? _]. }
  exists sd, dd. split; [|done]. unfold process_transfer, cmp_pubkeys. fwd_prog.
  apply prog_bind_ok. exists s, v. split; [apply unpack_cell_ok; eauto|].
  apply prog_bind_ok. exists d, v. split; [apply unpack_cell_ok; eauto|].
  apply prog_bind_ok. exists tt, v. split; [apply require_ok; by rewrite Hfs, Hfd|].
  apply prog_bind_ok. exists tt, v. split; [apply require_ok; split; [|done]; apply negb_true_iff, Z.ltb_ge; lia|].
  apply prog_bind_ok. exists tt, v. split; [apply require_ok; by rewrite key_eqb_eq|].
  apply prog_bind_ok. exists tt, v. split; [done|].
  cbv zeta. rewrite (proj2 (key_eqb_neq _ _) Hne).
  apply prog_bind_ok. exists s, v. split.
  { unfold authorize_spend. cbv zeta.
    assert (Hv : (validate_owner pid (ta_owner s) ai [];; mret s) v = TOk s v).
    { apply prog_bind_ok. exists tt, v. split; [|done].
      apply (validate_owner_ok _ _ _ _ _ ac Hac). by rewrite Hms. }
    destruct (ta_delegate s) as [dl|]; [|done]. unfold cmp_pubkeys.
    rewrite (proj2 (key_eqb_neq _ _)); [done|congruence]. }
  rewrite (proj2 (Z.eqb_neq x 0)) by lia. rewrite Hn. cbn [orb].
  apply prog_bind_ok. exists tt, v. split; [done|].
  apply prog_bind_ok. exists (ta_amount s - x), v. split; [apply checked_ok; split; [apply checked_sub_some; lia|done]|].
  apply prog_bind_ok. exists (ta_amount d + x), v. split; [apply checked_ok; split; [apply checked_add_some; lia|done]|].
  apply prog_bind_ok. exists tt, v. split; [done|].
  apply prog_bind_ok. exists tt, (<[key si := set_acc_data sc sd]> v).
  split; apply pack_cell_ok; [by eauto|].
  exists dc, dd. split_and!; try done. by rewrite lookup_insert_ne.
Qed.

End calls.
