(* ===== verification/Level4.v ===== *)
(** * Level 4: the token wallet

    [contracts/level4/src/lib.rs] and [processor.rs].  A wallet is a token account
    at the address derived from its owner.  All wallets belong to one authority, the
    address derived from no seed, whose signature the program gives to the token
    program.  The token program is an account of the instruction. *)

From Stdlib Require Import Strings.Byte.
From S2P Require Import Prelude Sdk Rent Program Borsh SystemInstruction Fixtures TokenState TokenInstruction TokenProcessor TokenFacts TokenSupply TokenSpec TokenSafety VendoredToken TokenCalls.

(** ** lib.rs *)
Inductive WalletInstruction : Type :=
| Initialize
| Deposit (amount : Z)
| Withdraw (amount : Z).

Section level4.
Context {B : BorshCrate} {CR : Crypto} {SV : Sysvars} {SB : SystemBincode}.

(** [#[derive(BorshDeserialize, BorshSerialize)]] *)
Definition WalletInstruction_serialize (i : WalletInstruction) : list byte :=
  match i with
  | Initialize => ser_u8 x00
  | Deposit amount => ser_u8 x01 ++ ser_u64 amount
  | Withdraw amount => ser_u8 x02 ++ ser_u64 amount
  end.

Definition WalletInstruction_deserialize : reader WalletInstruction :=
  tag ← de_u8;
  match tag with
  | x00 => mret Initialize
  | x01 => amount ← de_u64; mret (Deposit amount)
  | x02 => amount ← de_u64; mret (Withdraw amount)
  | _ => fun _ => Err (unexpected_variant tag)
  end.

(** [None] is the panic of [find_program_address]. *)
Definition get_wallet_address (owner wallet_program : Pubkey) : option (Pubkey * byte) :=
  find_program_address [to_bytes owner] wallet_program.

Definition get_authority (wallet_program : Pubkey) : option (Pubkey * byte) :=
  find_program_address [] wallet_program.

(** The client functions [initialize], [deposit] and [withdraw] of lib.rs. *)
Definition client_initialize (wallet_program owner_address mint : Pubkey) : option Instruction :=
  '(wallet_address, _) ← get_wallet_address owner_address wallet_program;
  '(authority_address, _) ← get_authority wallet_program;
  Some (mkInstruction wallet_program
    [AccountMeta_new wallet_address false;
     AccountMeta_new_readonly authority_address false;
     AccountMeta_new owner_address true;
     AccountMeta_new mint false;
     AccountMeta_new_readonly rent_sysvar_id false;
     AccountMeta_new_readonly spl_token_id false;
     AccountMeta_new_readonly system_program_id false]
    (WalletInstruction_serialize Initialize)).

Definition client_deposit (wallet_program owner_address source source_authority mint : Pubkey)
    (amount : Z) : option Instruction :=
  '(wallet_address, _) ← get_wallet_address owner_address wallet_program;
  Some (mkInstruction wallet_program
    [AccountMeta_new wallet_address false;
     AccountMeta_new source false;
     AccountMeta_new_readonly source_authority true;
     AccountMeta_new_readonly mint false;
     AccountMeta_new_readonly spl_token_id false]
    (WalletInstruction_serialize (Deposit amount))).

Definition client_withdraw (wallet_program owner_address destination mint : Pubkey) (amount : Z)
    : option Instruction :=
  '(wallet_address, _) ← get_wallet_address owner_address wallet_program;
  '(authority_address, _) ← get_authority wallet_program;
  Some (mkInstruction wallet_program
    [AccountMeta_new wallet_address false;
     AccountMeta_new_readonly authority_address false;
     AccountMeta_new_readonly owner_address true;
     AccountMeta_new destination false;
     AccountMeta_new_readonly mint false;
     AccountMeta_new_readonly spl_token_id false]
    (WalletInstruction_serialize (Withdraw amount))).

(** ** processor.rs *)

(** [r.unwrap()] of a [Result] *)
Definition unwrap_result {A} (r : result ProgramError A) : result ProgramError A :=
  match r with Ok a => Ok a | _ => Panic end.

Definition initialize (program_id : Pubkey) (accounts : list AccountInfo) : ProgM unit :=
  '(wallet_info, iter) ← lift (next_account_info accounts);
  '(authority_info, iter) ← lift (next_account_info iter);
  '(owner, iter) ← lift (next_account_info iter);
  '(mint, iter) ← lift (next_account_info iter);
  '(rent_info, iter) ← lift (next_account_info iter);
  '(spl_token, iter) ← lift (next_account_info iter);
  '(wallet_address, wallet_seed) ← lift (unwrap (get_wallet_address (key owner) program_id));
  '(authority_address, _) ← lift (unwrap (get_authority program_id));
  rent ← Rent_from_account_info rent_info;
  lift (assert_ (key_eqb (key wallet_info) wallet_address));;
  lift (assert_ (key_eqb (key authority_info) authority_address));;
  lift (assert_ (is_signer owner));;
  invoke_signed
    (create_account (key owner) wallet_address
       (minimum_balance rent (Z.of_nat (LEN (T:=TokenAccount))))
       (Z.of_nat (LEN (T:=TokenAccount))) (key spl_token))
    [owner; wallet_info]
    [[to_bytes (key owner); [wallet_seed]]];;
  instruction ← lift (unwrap_result
    (V310.initialize_account (key spl_token) wallet_address (key mint) authority_address));
  invoke instruction [authority_info; wallet_info; mint; rent_info].

(** [mint.data.borrow()[44]] *)
Definition mint_decimals (mint : AccountInfo) : ProgM byte :=
  d ← data mint; lift (unwrap (d !! 44%nat)).

Definition deposit (_program_id : Pubkey) (accounts : list AccountInfo) (amount : Z)
    : ProgM unit :=
  '(wallet_info, iter) ← lift (next_account_info accounts);
  '(source_info, iter) ← lift (next_account_info iter);
  '(user_authority_info, iter) ← lift (next_account_info iter);
  '(mint, iter) ← lift (next_account_info iter);
  '(spl_token, iter) ← lift (next_account_info iter);
  decimals ← mint_decimals mint;
  instruction ← lift (unwrap_result
    (V310.transfer_checked (key spl_token) (key source_info) (key mint) (key wallet_info)
       (key user_authority_info) [] amount decimals));
  invoke instruction [wallet_info; source_info; user_authority_info; mint].

Definition withdraw (program_id : Pubkey) (accounts : list AccountInfo) (amount : Z)
    : ProgM unit :=
  '(wallet_info, iter) ← lift (next_account_info accounts);
  '(authority_info, iter) ← lift (next_account_info iter);
  '(owner_info, iter) ← lift (next_account_info iter);
  '(destination_info, iter) ← lift (next_account_info iter);
  '(mint, iter) ← lift (next_account_info iter);
  '(spl_token, iter) ← lift (next_account_info iter);
  '(wallet_address, _) ← lift (unwrap (get_wallet_address (key owner_info) program_id));
  '(authority_address, authority_seed) ← lift (unwrap (get_authority program_id));
  lift (assert_ (key_eqb (key wallet_info) wallet_address));;
  lift (assert_ (key_eqb (key authority_info) authority_address));;
  lift (assert_ (is_signer owner_info));;
  decimals ← mint_decimals mint;
  instruction ← lift (unwrap_result
    (V310.transfer_checked (key spl_token) (key wallet_info) (key mint) (key destination_info)
       (key authority_info) [] amount decimals));
  invoke_signed instruction [wallet_info; destination_info; authority_info; mint]
    [[[authority_seed]]].

Definition process_instruction (program_id : Pubkey) (accounts : list AccountInfo)
    (instruction_data : list byte) : ProgM unit :=
  i ← lift (borsh_deserialize WalletInstruction_deserialize instruction_data);
  match i with
  | Initialize => initialize program_id accounts
  | Deposit amount => deposit program_id accounts amount
  | Withdraw amount => withdraw program_id accounts amount
  end.

(** ** Properties *)
Lemma unwrap_result_ok {A} (r : result ProgramError A) a : unwrap_result r = Ok a <-> r = Ok a.
Proof. by destruct r. Qed.

Lemma mint_decimals_ok mi v dec v' :
  mint_decimals mi v = TOk dec v' <->
  v' = v /\ exists mc, v !! key mi = Some mc /\ acc_data mc !! 44%nat = Some dec.
Proof.
  unfold mint_decimals. rewrite prog_bind_ok. split.
  - intros (d & w & H1 & H2). apply with_cell_ok in H1 as (-> & mc & Hmc & ->).
    apply lift_ok in H2 as [H2 ->]. apply unwrap_ok in H2. eauto.
  - intros (-> & mc & Hmc & Hd). eexists _, v. split; [apply with_cell_ok; eauto|].
    apply lift_ok. split; [|done]. by apply unwrap_ok.
Qed.

Lemma run_mint_decimals cpi mi v dec v' :
  run cpi (mint_decimals mi v) = Ok (dec, v') -> mint_decimals mi v = TOk dec v'.
Proof.
  apply run_no_cpi_ok. unfold mint_decimals. solve_no_cpi.
Qed.

Lemma l4_withdraw_ok cpi pid accounts amount v u v' :
  run cpi (withdraw pid accounts amount v) = Ok (u, v') ->
  exists wi ai oi di mi ti rest ws aseed mc dec ix,
    accounts = wi :: ai :: oi :: di :: mi :: ti :: rest /\
    get_wallet_address (key oi) pid = Some (key wi, ws) /\
    get_authority pid = Some (key ai, aseed) /\ is_signer oi = true /\
    v !! key mi = Some mc /\ acc_data mc !! 44%nat = Some dec /\
    V310.transfer_checked (key ti) (key wi) (key mi) (key di) (key ai) [] amount dec = Ok ix /\
    cpi ix [wi; di; ai; mi] [[[aseed]]] v = Ok v'.
Proof.
  unfold withdraw. intros H. inv_run.
  match goal with H : run _ (mint_decimals _ _) = _ |- _ =>
    apply run_mint_decimals, mint_decimals_ok in H as (-> & mc & Hmc & Hd) end.
  match goal with H : unwrap_result _ = Ok _ |- _ => apply (proj1 (unwrap_result_ok _ _)) in H end.
  eexists _, _, _, _, _, _, _, _, _, mc, _, _. split; [reflexivity|]. by split_and!.
Qed.

Lemma l4_deposit_ok cpi pid accounts amount v u v' :
  run cpi (deposit pid accounts amount v) = Ok (u, v') ->
  exists wi si ui mi ti rest mc dec ix,
    accounts = wi :: si :: ui :: mi :: ti :: rest /\
    v !! key mi = Some mc /\ acc_data mc !! 44%nat = Some dec /\
    V310.transfer_checked (key ti) (key si) (key mi) (key wi) (key ui) [] amount dec = Ok ix /\
    cpi ix [wi; si; ui; mi] [] v = Ok v'.
Proof.
  unfold deposit. intros H. inv_run.
  match goal with H : run _ (mint_decimals _ _) = _ |- _ =>
    apply run_mint_decimals, mint_decimals_ok in H as (-> & mc & Hmc & Hd) end.
  match goal with H : unwrap_result _ = Ok _ |- _ => apply (proj1 (unwrap_result_ok _ _)) in H end.
  eexists _, _, _, _, _, _, mc, _, _. split; [reflexivity|]. by split_and!.
Qed.

Lemma l4_initialize_ok cpi pid accounts v u v' :
  run cpi (initialize pid accounts v) = Ok (u, v') ->
  exists wi ai oi mi ri ti rest ws aseed rent ix v1,
    accounts = wi :: ai :: oi :: mi :: ri :: ti :: rest /\
    get_wallet_address (key oi) pid = Some (key wi, ws) /\
    get_authority pid = Some (key ai, aseed) /\ is_signer oi = true /\
    cpi (create_account (key oi) (key wi) (minimum_balance rent 165) 165 (key ti))
      [oi; wi] [[to_bytes (key oi); [ws]]] v = Ok v1 /\
    V310.initialize_account (key ti) (key wi) (key mi) (key ai) = Ok ix /\
    cpi ix [ai; wi; mi; ri] [] v1 = Ok v'.
Proof.
  unfold initialize. intros H. inv_run.
  match goal with H : unwrap_result _ = Ok _ |- _ => apply (proj1 (unwrap_result_ok _ _)) in H end.
  eexists _, _, _, _, _, _, _, _, _, _, _, _. split; [reflexivity|]. by split_and!.
Qed.

(** C34: A successful withdraw of level 4 whose token program account is the token
    program, against any handler that keeps the promise of the token program, was signed
    by the owner, spends from the wallet derived from that owner and no other, and moves
    exactly the amount of one mint to the destination under the derived authority; no
    other account changes. *)
Theorem l4_withdraw_spec (cpi : cpi_handler) (pid : Pubkey)
    (wallet_info authority_info owner_info destination_info mint spl_token : AccountInfo)
    (rest : list AccountInfo) (amount : Z) (v v' : view)
    (Htoken : TokenCpi cpi) (Hid : key spl_token = spl_token_id) (Hamount : is_u64 amount)
    (Hrun : run cpi (withdraw pid (wallet_info :: authority_info :: owner_info :: destination_info
                       :: mint :: spl_token :: rest) amount v) = Ok (tt, v')) :
  is_signer owner_info = true /\
  fst <$> get_wallet_address (key owner_info) pid = Some (key wallet_info) /\
  fst <$> get_authority pid = Some (key authority_info) /\
  tokens_moved (key wallet_info) (key destination_info) (key mint) (key authority_info) amount v v'.
Proof.
  apply l4_withdraw_ok in Hrun as (wi & ai & oi & di & mi & ti & r & ws & aseed & mc & dec & ix & Hacc &
    Hw & Ha & Hs & _ & _ & Hix & Hcpi).
  injection Hacc as -> -> -> -> -> -> ->. rewrite Hid in Hix. rewrite Hw, Ha.
  split_and!; try done. by eapply token_transfer_checked.
Qed.

(** A successful initialize of level 4 with the token program, against handlers
    that keep the promises of the system and the token program, was signed by the owner,
    found the derived wallet address unused, and makes it an empty token account of the
    mint that belongs to the derived authority, without changing the total of lamports.
    *)
Theorem l4_initialize_creates (cpi : cpi_handler) (pid : Pubkey)
    (wallet_info authority_info owner mint rent_info spl_token : AccountInfo)
    (rest : list AccountInfo) (v v' : view)
    (Hsystem : SystemCpi cpi) (Htoken : TokenCpi cpi) (Hid : key spl_token = spl_token_id)
    (Hrun : run cpi (initialize pid (wallet_info :: authority_info :: owner :: mint :: rent_info
                       :: spl_token :: rest) v) = Ok (tt, v')) :
  is_signer owner = true /\
  fst <$> get_wallet_address (key owner) pid = Some (key wallet_info) /\
  exists authority b' t,
    fst <$> get_authority pid = Some authority /\
    (exists b, v !! key wallet_info = Some b /\ acc_data b = [] /\ acc_owner b = system_program_id) /\
    v' !! key wallet_info = Some b' /\ acc_owner b' = spl_token_id /\
    unpack (acc_data b') = Ok t /\ ta_owner t = authority /\ ta_mint t = key mint /\
    ta_delegate t = None /\ (key mint <> native_mint_id -> ta_amount t = 0) /\
    total_lamports v' = total_lamports v.
Proof.
  apply l4_initialize_ok in Hrun as (wi & ai & oi & mi & ri & ti & r & ws & aseed & rent & ix & v1 & Hacc &
    Hw & Ha & Hs & Hcr & Hix & Hcpi).
  injection Hacc as -> -> -> -> -> -> ->. rewrite Hid in *. rewrite Hw, Ha.
  assert (is_u64 165) as H165 by (by apply is_u64b_spec).
  destruct (sys_created cpi _ _ _ _ _ _ _ _ _ Hsystem (minimum_balance_range _ _) H165 Hcr)
    as [(b1 & Hb1 & Hl1 & Ho1 & Hd1) Htot (b & Hb & _ & Hd & Ho) _ _].
  assert (token_account_made (key wi) (key mi) (key ai) v1 v')
    as (a & d & t & Hat & -> & Ht & Hm & Hown & _ & Hdel & Hamt).
  { eapply token_initialize_account; [|exact Hix|exact Hcpi].
    intros a Hat. rewrite Hb1 in Hat. injection Hat as <-. rewrite Hl1. apply minimum_balance_range. }
  rewrite Hb1 in Hat. injection Hat as <-.
  split_and!; try done. exists (key ai), (set_acc_data b1 d), t.
  rewrite lookup_insert_eq, (total_lamports_set_data _ _ b1) by done.
  split_and!; try done; [by eauto|]. intros Hn. by apply Hamt.
Qed.

(** C39: Withdraw of level 4 never compares the token program account with the token
    program: anyone with a wallet of their own makes it call a program of their choice
    with the signature of the authority of all wallets and with the wallet of a victim
    as a writable account, and with exactly these handles the token program pays any
    amount of the victim into the wallet of the caller. *)
Theorem unchecked_token_program (pid attacker wallet authority victim program evil : Pubkey)
    (ws aseed dec : byte) (amount x : Z) (v : view) (wc vc ac pc : Account) (w t : TokenAccount)
    (Hw : get_wallet_address attacker pid = Some (wallet, ws))
    (Ha : get_authority pid = Some (authority, aseed))
    (Hwc : v !! wallet = Some wc) (Hwt : unpack (acc_data wc) = Ok w)
    (Hvc : v !! victim = Some vc) (Hvt : unpack (acc_data vc) = Ok t)
    (Hac : v !! authority = Some ac) (Hms : is_multisig spl_token_id ac = false)
    (Hpc : v !! program = Some pc) (Hdec : acc_data pc !! 44%nat = Some dec)
    (Hown : ta_owner t = authority) (Hmint : ta_mint t = ta_mint w) (Hne : victim <> wallet)
    (Hnative : is_native t = false) (Hdelegate : ta_delegate t <> Some authority)
    (Hfw : is_frozen w = false) (Hft : is_frozen t = false)
    (Hx : 0 < x <= ta_amount t) (Hmax : ta_amount w + x <= U64_MAX) :
  exists ix wi pi vi ai k,
    withdraw pid [wr wallet; rd authority; mkAccountInfo attacker true false; wr victim;
                  rd program; rd evil] amount v
    = TCpi ix [wr wallet; wr victim; rd authority; rd program] [[[aseed]]] v k /\
    ix_program_id ix = evil /\ create_program_address [[aseed]] pid = Ok authority /\
    account_infos (ix_accounts ix) = [wi; pi; vi; ai] /\ key pi = program /\
    exists wd vd,
      process spl_token_id [vi; wi; ai] (TokenInstruction_pack (Transfer x)) v
      = TOk tt (<[wallet := set_acc_data wc wd]> (<[victim := set_acc_data vc vd]> v)) /\
      unpack vd = Ok (with_amount t (ta_amount t - x)) /\
      unpack wd = Ok (with_amount w (ta_amount w + x)).
Proof.
  destruct (process_transfer_pays spl_token_id (wr victim) (wr wallet)
    (mkAccountInfo authority true false) v vc wc ac t w x) as (vd & wd & Hrun & Hv & Hwd); try done.
  exists (mkInstruction evil
    [AccountMeta_new wallet false; AccountMeta_new_readonly program false;
     AccountMeta_new victim false; AccountMeta_new_readonly authority true]
    (V310.pack (V310.TransferChecked amount dec))).
  eexists _, _, _, _, _. split_and!; [|done| |reflexivity|done|].
  - unfold withdraw, mbind, ProgM_bind. cbn [lift next_account_info tbind].
    cbn [key rd wr is_signer]. rewrite Hw, Ha. cbn [lift unwrap tbind].
    rewrite !key_eqb_refl. cbn [lift assert_ tbind].
    rewrite (proj2 (mint_decimals_ok (rd program) v dec v)) by eauto. reflexivity.
  - by apply find_program_address_creates in Ha.
  - exists wd, vd. split; [|done]. unfold process, mbind, ProgM_bind.
    rewrite <-(app_nil_r (TokenInstruction_pack _)), token_unpack_pack; [exact Hrun|].
    apply unpack_account_range in Hvt as ([? ?] & _). cbn. unfold is_u64. lia.
Qed.

End level4.

(** ** Concrete runs *)

(** A handler that runs the token program and models the system program. *)
Definition token_and_system : cpi_handler := fun ix infos ss v =>
  if key_eqb (ix_program_id ix) spl_token_id then
    match process spl_token_id (callee_infos (ix_accounts ix)) (ix_data ix) v with
    | TOk _ v' => Ok v'
    | TErr e => Err e
    | _ => Panic
    end
  else ref_system_cpi ix infos ss v.

#[export] Instance token_and_system_token : TokenCpi token_and_system.
Proof.
  apply token_program_promise. intros ix infos ss v v' Hp H. unfold token_and_system in H.
  rewrite Hp, key_eqb_refl in H. by destruct (process _ _ _ _) as [[] ?| | |]; simplify_eq.
Qed.

#[export] Instance token_and_system_system : SystemCpi token_and_system.
Proof.
  assert (Hs : forall i infos ss v, ix_program_id i = system_program_id ->
    token_and_system i infos ss v = ref_system_cpi i infos ss v).
  { intros i infos ss v Hi. unfold token_and_system. rewrite Hi.
    by replace (key_eqb system_program_id spl_token_id) with false by vm_true. }
  split; intros; rewrite Hs in * by done; [by eapply sys_transfer|by eapply sys_create_account].
Qed.

Definition t4_program : Pubkey := toy_key 4.
Definition t4_evil : Pubkey := toy_key 666.
Definition t4_owner : Pubkey := toy_key 41.
Definition t4_victim : Pubkey := toy_key 42.
Definition t4_wallet (owner : Pubkey) : Pubkey := the_key (fst <$> get_wallet_address owner t4_program).
Definition t4_authority : Pubkey := the_key (fst <$> get_authority t4_program).

Definition t4_tokens (amount : Z) : TokenAccount :=
  mkTokenAccount ex_mint t4_authority amount None Initialized None 0 None.
Definition t4_cell (amount : Z) : Account :=
  toy_account 2039280 (pack_into_slice (t4_tokens amount) zero_account) spl_token_id.

Definition t4_store : view :=
  <[t4_wallet t4_owner := t4_cell 10]>
  (<[t4_wallet t4_victim := t4_cell 500]>
  (<[t4_authority := toy_account 0 [] system_program_id]>
  (<[spl_token_id := toy_account 1 (replicate 64 x00) system_program_id]> ex_tokens))).

Lemma l4_withdraw_spec_witness :
  exists v', run token_and_system
    (withdraw t4_program [wr (t4_wallet t4_victim); rd t4_authority;
       mkAccountInfo t4_victim true false; wr ex_bob_tokens; rd ex_mint; rd spl_token_id] 120 t4_store)
    = Ok (tt, v') /\
    tokens_moved (t4_wallet t4_victim) ex_bob_tokens ex_mint t4_authority 120 t4_store v'.
Proof.
  destruct (run_result (run token_and_system
    (withdraw t4_program [wr (t4_wallet t4_victim); rd t4_authority;
       mkAccountInfo t4_victim true false; wr ex_bob_tokens; rd ex_mint; rd spl_token_id] 120 t4_store)))
    as [v' E]; [vm_true|].
  exists v'. split; [exact E|].
  apply (l4_withdraw_spec token_and_system t4_program (wr (t4_wallet t4_victim)) (rd t4_authority)
    (mkAccountInfo t4_victim true false) (wr ex_bob_tokens) (rd ex_mint) (rd spl_token_id) [] 120 t4_store v'
    token_and_system_token eq_refl (proj1 (is_u64b_spec 120) eq_refl) E).
Defined.

Definition t4_empty : view :=
  <[t4_wallet t4_owner := toy_account 0 [] system_program_id]>
  (<[t4_owner := toy_account 5000000 [] system_program_id]>
  (<[rent_sysvar_id := toy_account 1 [] system_program_id]> t4_store)).

Lemma l4_initialize_creates_witness :
  exists v', run token_and_system
    (initialize t4_program [wr (t4_wallet t4_owner); rd t4_authority; wr_signer t4_owner;
       wr ex_mint; rd rent_sysvar_id; rd spl_token_id; rd system_program_id] t4_empty)
    = Ok (tt, v') /\ total_lamports v' = total_lamports t4_empty.
Proof.
  destruct (run_result (run token_and_system
    (initialize t4_program [wr (t4_wallet t4_owner); rd t4_authority; wr_signer t4_owner;
       wr ex_mint; rd rent_sysvar_id; rd spl_token_id; rd system_program_id] t4_empty)))
    as [v' E]; [vm_true|].
  destruct (l4_initialize_creates token_and_system t4_program (wr (t4_wallet t4_owner))
    (rd t4_authority) (wr_signer t4_owner) (wr ex_mint) (rd rent_sysvar_id) (rd spl_token_id)
    [rd system_program_id] t4_empty v' token_and_system_system token_and_system_token eq_refl E)
    as (_ & _ & authority & b & t & _ & _ & _ & _ & _ & _ & _ & _ & _ & Htotal).
  exists v'. exact (conj E Htotal).
Defined.

Lemma unchecked_token_program_witness :
  exists aseed ix k v' vi wi ai,
    withdraw t4_program [wr (t4_wallet t4_owner); rd t4_authority; mkAccountInfo t4_owner true false;
      wr (t4_wallet t4_victim); rd spl_token_id; rd t4_evil] 1 t4_store
    = TCpi ix [wr (t4_wallet t4_owner); wr (t4_wallet t4_victim); rd t4_authority; rd spl_token_id]
        [[[aseed]]] t4_store k /\
    ix_program_id ix = t4_evil /\
    In wi (account_infos (ix_accounts ix)) /\ In vi (account_infos (ix_accounts ix)) /\
    In ai (account_infos (ix_accounts ix)) /\
    process spl_token_id [vi; wi; ai] (TokenInstruction_pack (Transfer 500)) t4_store = TOk tt v'.
Proof.
  destruct (get_wallet_address t4_owner t4_program) as [[w ws]|] eqn:Ew; [|vm_compute in Ew; discriminate].
  destruct (get_authority t4_program) as [[au aseed]|] eqn:Ea; [|vm_compute in Ea; discriminate].
  assert (w = t4_wallet t4_owner) as -> by (unfold t4_wallet; by rewrite Ew).
  assert (au = t4_authority) as -> by (unfold t4_authority; by rewrite Ea).
  destruct (unchecked_token_program t4_program t4_owner (t4_wallet t4_owner) t4_authority
    (t4_wallet t4_victim) spl_token_id t4_evil ws aseed x00 1 500 t4_store (t4_cell 10) (t4_cell 500)
    (toy_account 0 [] system_program_id) (toy_account 1 (replicate 64 x00) system_program_id)
    (t4_tokens 10) (t4_tokens 500) Ew Ea ltac:(vm_true) ltac:(vm_true)
    ltac:(vm_true) ltac:(vm_true) ltac:(vm_true) ltac:(vm_true) ltac:(vm_true) ltac:(vm_true) eq_refl eq_refl
    ltac:(vm_compute; discriminate) eq_refl ltac:(vm_compute; discriminate) eq_refl eq_refl
    ltac:(vm_compute; split; [reflexivity|discriminate]) ltac:(vm_compute; discriminate))
    as (ix & wi & pi & vi & ai & k & Hrun & Hp & _ & Hinfos & _ & wd & vd & Htok & _).
  eexists _, ix, k, _, vi, wi, ai. split_and!; [exact Hrun|exact Hp|by rewrite Hinfos; left|by rewrite Hinfos; cbn; auto..|exact Htok].
Defined.
