(* ===== verification/Transaction.v ===== *)
(** * The context of a transaction

    [sdk/src/transaction_context.rs]: the accounts of a transaction, the stack of
    the instructions that run on them, and the access one instruction has to an
    account.  An account is borrowed for the span of one operation here; the
    sources drop every borrow before they borrow the same account again, so the
    [RefCell] checks never fail. *)

From Stdlib Require Import Strings.Byte.
From S2P Require Import Prelude Sdk.

Record InstructionAccount : Type := mkInstructionAccount {
  index_in_transaction : nat;
  index_in_caller : nat;
  index_in_callee : nat;
  ia_is_signer : bool;
  ia_is_writable : bool
}.

Record InstructionContext : Type := mkInstructionContext {
  nesting_level : nat;
  program_accounts : list nat;
  instruction_accounts : list InstructionAccount;
  instruction_data : list byte
}.

Record TransactionReturnData : Type := mkReturnData {
  rd_program_id : Pubkey;
  rd_data : list byte
}.

Record TransactionContext : Type := mkTransactionContext {
  account_keys : list Pubkey;
  accounts : list Account;
  instruction_context_capacity : nat;
  instruction_stack : list nat;
  number_of_instructions_at_transaction_level : nat;
  instruction_trace : list (list InstructionContext);
  return_data : TransactionReturnData;
  total_resize_limit : Z;
  total_resize_delta : Z
}.

(** ** Width of [i64] *)
Definition I64_MAX : Z := 2 ^ 63 - 1.
Definition I64_MIN : Z := - 2 ^ 63.
Definition saturate_i64 (z : Z) : Z := Z.max I64_MIN (Z.min I64_MAX z).
Definition saturate_u64 (z : Z) : Z := Z.max 0 (Z.min U64_MAX z).
(** [x as i64] for an unsigned [x] and [x as u64] for an [i64]. *)
Definition as_i64 (z : Z) : Z := let w := wrap64 z in if w <=? I64_MAX then w else w - 2 ^ 64.
Definition as_u64 (z : Z) : Z := wrap64 z.

(** ** Code over a transaction context *)
Definition TxM (A : Type) : Type :=
  TransactionContext -> result InstructionError (A * TransactionContext).

#[global] Instance TxM_ret : MRet TxM := fun _ a tc => Ok (a, tc).
#[global] Instance TxM_bind : MBind TxM := fun _ _ f m tc =>
  '(a, tc) ← m tc; f a tc.

(** A step that only reads the context; [?] on its error. *)
Definition reads {A} (f : TransactionContext -> result InstructionError A) : TxM A := fun tc =>
  a ← f tc; Ok (a, tc).
Definition throw {A} (e : InstructionError) : TxM A := fun _ => Err e.
(** [if !cond { return Err(e) }] *)
Definition guard (b : bool) (e : InstructionError) : TxM unit := reads (fun _ => ensure b e).

Definition with_accounts (tc : TransactionContext) (l : list Account) : TransactionContext :=
  mkTransactionContext (account_keys tc) l (instruction_context_capacity tc)
    (instruction_stack tc) (number_of_instructions_at_transaction_level tc)
    (instruction_trace tc) (return_data tc) (total_resize_limit tc) (total_resize_delta tc).
Definition with_stack (tc : TransactionContext) (s : list nat)
    (t : list (list InstructionContext)) : TransactionContext :=
  mkTransactionContext (account_keys tc) (accounts tc) (instruction_context_capacity tc) s
    (number_of_instructions_at_transaction_level tc) t (return_data tc) (total_resize_limit tc)
    (total_resize_delta tc).
Definition with_resize_delta (tc : TransactionContext) (d : Z) : TransactionContext :=
  mkTransactionContext (account_keys tc) (accounts tc) (instruction_context_capacity tc)
    (instruction_stack tc) (number_of_instructions_at_transaction_level tc)
    (instruction_trace tc) (return_data tc) (total_resize_limit tc) d.

(** [iter().position(..)] and [rposition]. *)
Fixpoint position {A} (f : A -> bool) (l : list A) : option nat :=
  match l with
  | [] => None
  | x :: l => if f x then Some 0%nat else option_map S (position f l)
  end.
Fixpoint rposition {A} (f : A -> bool) (l : list A) : option nat :=
  match l with
  | [] => None
  | x :: l => match rposition f l with
              | Some i => Some (S i)
              | None => if f x then Some 0%nat else None
              end
  end.

(** ** [impl TransactionContext] *)
Definition TransactionContext_new (transaction_accounts : list (Pubkey * Account))
    (capacity number_of_instructions : nat) (resize_limit : Z) : TransactionContext :=
  mkTransactionContext transaction_accounts.*1 transaction_accounts.*2 capacity []
    number_of_instructions [] (mkReturnData Pubkey_default []) resize_limit 0.

Definition get_key_of_account_at_index (tc : TransactionContext) (index : nat)
    : result InstructionError Pubkey :=
  ok_or (account_keys tc !! index) InstructionError.NotEnoughAccountKeys.

Definition get_account_at_index (tc : TransactionContext) (index : nat)
    : result InstructionError Account :=
  ok_or (accounts tc !! index) InstructionError.NotEnoughAccountKeys.

Definition find_index_of_account (tc : TransactionContext) (pubkey : Pubkey) : option nat :=
  position (fun k => key_eqb k pubkey) (account_keys tc).

Definition find_index_of_program_account (tc : TransactionContext) (pubkey : Pubkey) : option nat :=
  rposition (fun k => key_eqb k pubkey) (account_keys tc).

Definition get_instruction_context_at (tc : TransactionContext) (level : nat)
    : result InstructionError InstructionContext :=
  top_level_index ← ok_or (head (instruction_stack tc)) InstructionError.CallDepth;
  cpi_index ← if (level =? 0)%nat then Ok 0%nat
              else ok_or (instruction_stack tc !! level) InstructionError.CallDepth;
  ok_or (t ← instruction_trace tc !! top_level_index; t !! cpi_index) InstructionError.CallDepth.

Definition get_instruction_context_stack_height (tc : TransactionContext) : nat :=
  length (instruction_stack tc).

Definition get_current_instruction_context (tc : TransactionContext)
    : result InstructionError InstructionContext :=
  match get_instruction_context_stack_height tc with
  | O => Err InstructionError.CallDepth
  | S level => get_instruction_context_at tc level
  end.

(** [last_mut()]: the last trace with one more entry, and its new length less one. *)
Definition push_last (trace : list (list InstructionContext)) (ic : InstructionContext)
    : list (list InstructionContext) :=
  match rev trace with
  | [] => []
  | t :: before => rev before ++ [t ++ [ic]]
  end.

Module TransactionContext.

Definition push (program_accounts : list nat) (instruction_accounts : list InstructionAccount)
    (instruction_data : list byte) (record_instruction_in_transaction_context_push : bool)
    (tc : TransactionContext) : result InstructionError TransactionContext :=
  let ic := mkInstructionContext (length (instruction_stack tc)) program_accounts
              instruction_accounts instruction_data in
  '(index_in_trace, trace) ←
    if (length (instruction_stack tc) =? 0)%nat then
      Ok (length (instruction_trace tc), instruction_trace tc ++ [[ic]])
    else
      match rev (instruction_trace tc) with
      | t :: _ =>
          if record_instruction_in_transaction_context_push
          then Ok (length t, push_last (instruction_trace tc) ic)
          else Ok (pred (length t), instruction_trace tc)
      | [] => Err InstructionError.CallDepth
      end;
  if (instruction_context_capacity tc <=? length (instruction_stack tc))%nat
  then Err InstructionError.CallDepth
  else Ok (with_stack tc (instruction_stack tc ++ [index_in_trace]) trace).

Definition pop (tc : TransactionContext) : result InstructionError TransactionContext :=
  if (length (instruction_stack tc) =? 0)%nat then Err InstructionError.CallDepth
  else Ok (with_stack tc (removelast (instruction_stack tc)) (instruction_trace tc)).

Definition record_instruction (instruction : InstructionContext) (tc : TransactionContext)
    : TransactionContext :=
  with_stack tc (instruction_stack tc) (push_last (instruction_trace tc) instruction).

Definition set_return_data (program_id : Pubkey) (data : list byte) (tc : TransactionContext)
    : TransactionContext :=
  mkTransactionContext (account_keys tc) (accounts tc) (instruction_context_capacity tc)
    (instruction_stack tc) (number_of_instructions_at_transaction_level tc)
    (instruction_trace tc) (mkReturnData program_id data) (total_resize_limit tc)
    (total_resize_delta tc).

Definition get_total_resize_remaining (tc : TransactionContext) : Z :=
  if 0 <=? total_resize_delta tc
  then saturate_u64 (total_resize_limit tc - total_resize_delta tc)
  else saturate_u64 (total_resize_limit tc + saturate_i64 (- total_resize_delta tc)).

End TransactionContext.

(** ** [impl InstructionContext] *)
Definition get_stack_height (ic : InstructionContext) : nat := S (nesting_level ic).

Definition check_number_of_instruction_accounts (ic : InstructionContext)
    (expected_at_least : nat) : result InstructionError unit :=
  ensure (negb (length (instruction_accounts ic) <? expected_at_least)%nat)
    InstructionError.NotEnoughAccountKeys.

(** [transaction_context.account_keys[i]], which panics out of range. *)
Definition key_at (tc : TransactionContext) (index : nat) : result InstructionError Pubkey :=
  unwrap (account_keys tc !! index).

(** [position] with a predicate that may panic. *)
Fixpoint find_instruction_account (tc : TransactionContext) (pubkey : Pubkey)
    (l : list InstructionAccount) : result InstructionError (option nat) :=
  match l with
  | [] => Ok None
  | ia :: l =>
      k ← key_at tc (index_in_transaction ia);
      if key_eqb k pubkey then Ok (Some 0%nat)
      else i ← find_instruction_account tc pubkey l; Ok (option_map S i)
  end.

Definition find_index_of_instruction_account (ic : InstructionContext) (tc : TransactionContext)
    (pubkey : Pubkey) : result InstructionError (option nat) :=
  find_instruction_account tc pubkey (instruction_accounts ic).

Definition get_index_of_program_account_in_transaction (ic : InstructionContext)
    (program_account_index : nat) : result InstructionError nat :=
  ok_or (program_accounts ic !! program_account_index) InstructionError.NotEnoughAccountKeys.

Definition get_index_of_instruction_account_in_transaction (ic : InstructionContext)
    (instruction_account_index : nat) : result InstructionError nat :=
  ia ← ok_or (instruction_accounts ic !! instruction_account_index)
         InstructionError.NotEnoughAccountKeys;
  Ok (index_in_transaction ia).

Definition is_instruction_account_duplicate (ic : InstructionContext)
    (instruction_account_index : nat) : result InstructionError (option nat) :=
  ia ← ok_or (instruction_accounts ic !! instruction_account_index)
         InstructionError.NotEnoughAccountKeys;
  Ok (if (index_in_callee ia =? instruction_account_index)%nat then None
      else Some (index_in_callee ia)).

Definition get_last_program_key (ic : InstructionContext) (tc : TransactionContext)
    : result InstructionError Pubkey :=
  i ← get_index_of_program_account_in_transaction ic (pred (length (program_accounts ic)));
  get_key_of_account_at_index tc i.

Definition is_instruction_account_signer (ic : InstructionContext)
    (instruction_account_index : nat) : result InstructionError bool :=
  ia ← ok_or (instruction_accounts ic !! instruction_account_index) InstructionError.MissingAccount;
  Ok (ia_is_signer ia).

Definition is_instruction_account_writable (ic : InstructionContext)
    (instruction_account_index : nat) : result InstructionError bool :=
  ia ← ok_or (instruction_accounts ic !! instruction_account_index) InstructionError.MissingAccount;
  Ok (ia_is_writable ia).

(** The loop of [get_signers]. *)
Fixpoint collect_signers (tc : TransactionContext) (l : list InstructionAccount)
    (result : gset Pubkey) : Prelude.result InstructionError (gset Pubkey) :=
  match l with
  | [] => Ok result
  | ia :: l =>
      if ia_is_signer ia then
        k ← key_at tc (index_in_transaction ia); collect_signers tc l ({[k]} ∪ result)
      else collect_signers tc l result
  end.

Definition get_signers (ic : InstructionContext) (tc : TransactionContext)
    : result InstructionError (gset Pubkey) :=
  collect_signers tc (instruction_accounts ic) ∅.

(** ** [impl BorrowedAccount] *)
Record BorrowedAccount : Type := mkBorrowedAccount {
  ba_instruction_context : InstructionContext;
  ba_index_in_transaction : nat;
  ba_index_in_instruction : nat
}.

Definition try_borrow_account (ic : InstructionContext) (index_in_transaction index_in_instruction : nat)
    (tc : TransactionContext) : result InstructionError BorrowedAccount :=
  match accounts tc !! index_in_transaction with
  | Some _ => Ok (mkBorrowedAccount ic index_in_transaction index_in_instruction)
  | None => Err InstructionError.MissingAccount
  end.

Definition try_borrow_program_account (ic : InstructionContext) (program_account_index : nat)
    (tc : TransactionContext) : result InstructionError BorrowedAccount :=
  i ← get_index_of_program_account_in_transaction ic program_account_index;
  try_borrow_account ic i program_account_index tc.

Definition try_borrow_last_program_account (ic : InstructionContext) (tc : TransactionContext)
    : result InstructionError BorrowedAccount :=
  try_borrow_program_account ic (pred (length (program_accounts ic))) tc.

Definition try_borrow_instruction_account (ic : InstructionContext)
    (instruction_account_index : nat) (tc : TransactionContext)
    : result InstructionError BorrowedAccount :=
  i ← get_index_of_instruction_account_in_transaction ic instruction_account_index;
  try_borrow_account ic i (length (program_accounts ic) + instruction_account_index) tc.

Module BorrowedAccount.

(** The cell behind the borrow; it exists, or there would be no borrow. *)
Definition cell (b : BorrowedAccount) : TxM Account :=
  reads (fun tc => unwrap (accounts tc !! ba_index_in_transaction b)).

Definition set_cell (b : BorrowedAccount) (a : Account) : TxM unit := fun tc =>
  Ok (tt, with_accounts tc (<[ba_index_in_transaction b := a]> (accounts tc))).

Definition get_key (b : BorrowedAccount) : TxM Pubkey :=
  reads (fun tc => key_at tc (ba_index_in_transaction b)).
Definition get_owner (b : BorrowedAccount) : TxM Pubkey := a ← cell b; mret (acc_owner a).
Definition get_lamports (b : BorrowedAccount) : TxM Z := a ← cell b; mret (acc_lamports a).
Definition get_data (b : BorrowedAccount) : TxM (list byte) := a ← cell b; mret (acc_data a).
Definition is_executable (b : BorrowedAccount) : TxM bool := a ← cell b; mret (acc_executable a).

Definition set_owner (b : BorrowedAccount) (pubkey : Pubkey) : TxM unit :=
  a ← cell b; set_cell b (set_acc_owner a pubkey).

Definition set_lamports (b : BorrowedAccount) (lamports : Z) : TxM unit :=
  a ← cell b; set_cell b (set_acc_lamports a lamports).

Definition checked_add_lamports (b : BorrowedAccount) (lamports : Z) : TxM unit :=
  l ← get_lamports b;
  l ← reads (fun _ => ok_or (checked_add l lamports) InstructionError.ArithmeticOverflow);
  set_lamports b l.

Definition checked_sub_lamports (b : BorrowedAccount) (lamports : Z) : TxM unit :=
  l ← get_lamports b;
  l ← reads (fun _ => ok_or (checked_sub l lamports) InstructionError.ArithmeticOverflow);
  set_lamports b l.

(** The change of [total_resize_delta] when the length goes from [old] to [new]. *)
Definition resize (old new : nat) : TxM unit := fun tc =>
  Ok (tt, with_resize_delta tc (saturate_i64 (total_resize_delta tc +
            saturate_i64 (as_i64 (Z.of_nat new) - as_i64 (Z.of_nat old))))).

Definition set_data (b : BorrowedAccount) (data : list byte) : TxM unit :=
  a ← cell b;
  (if (length data =? length (acc_data a))%nat then mret tt
   else resize (length (acc_data a)) (length data));;
  set_cell b (set_acc_data a data).

Definition set_data_length (b : BorrowedAccount) (new_length : nat) : TxM unit :=
  a ← cell b;
  resize (length (acc_data a)) new_length;;
  set_cell b (set_acc_data a (take new_length (acc_data a)
                ++ replicate (new_length - length (acc_data a)) x00)).

Definition set_executable (b : BorrowedAccount) (is_executable : bool) : TxM unit :=
  a ← cell b;
  set_cell b (mkAccount (acc_lamports a) (acc_data a) (acc_owner a) is_executable
                (acc_rent_epoch a)).

(** [unwrap_or_default] makes an index out of range [false]. *)
Definition is_signer (b : BorrowedAccount) : bool :=
  let ic := ba_instruction_context b in
  if (ba_index_in_instruction b <? length (program_accounts ic))%nat then false
  else match is_instruction_account_signer ic
               (ba_index_in_instruction b - length (program_accounts ic)) with
       | Ok s => s | _ => false end.

Definition is_writable (b : BorrowedAccount) : bool :=
  let ic := ba_instruction_context b in
  if (ba_index_in_instruction b <? length (program_accounts ic))%nat then false
  else match is_instruction_account_writable ic
               (ba_index_in_instruction b - length (program_accounts ic)) with
       | Ok w => w | _ => false end.

End BorrowedAccount.

(** ** Inversion of code over a context *)
Lemma tx_bind_ok {A B} (m : TxM A) (f : A -> TxM B) tc b tc' :
  (m ≫= f) tc = Ok (b, tc') <-> exists a tc1, m tc = Ok (a, tc1) /\ f a tc1 = Ok (b, tc').
Proof.
  unfold mbind, TxM_bind. rewrite result_bind_ok. split.
  - intros ([a tc1] & H1 & H2). eauto.
  - intros (a & tc1 & H1 & H2). by exists (a, tc1).
Qed.

Lemma reads_ok {A} (f : TransactionContext -> result InstructionError A) tc a tc' :
  reads f tc = Ok (a, tc') <-> f tc = Ok a /\ tc' = tc.
Proof. unfold reads. rewrite result_bind_ok. naive_solver. Qed.

Lemma guard_ok b e tc u tc' : guard b e tc = Ok (u, tc') <-> b = true /\ tc' = tc.
Proof. unfold guard. rewrite reads_ok, ensure_ok. done. Qed.

Lemma tx_ret_ok {A} (a : A) tc b tc' : mret (M:=TxM) a tc = Ok (b, tc') <-> b = a /\ tc' = tc.
Proof. unfold mret, TxM_ret. naive_solver. Qed.

Lemma cell_ok b tc a tc' :
  BorrowedAccount.cell b tc = Ok (a, tc') <->
  accounts tc !! ba_index_in_transaction b = Some a /\ tc' = tc.
Proof. unfold BorrowedAccount.cell. rewrite reads_ok, unwrap_ok. done. Qed.

(** [tc'] is [tc] with the accounts [l] (and the size counter adjusted). *)
Definition writes (tc : TransactionContext) (l : list Account) (tc' : TransactionContext) : Prop :=
  exists d, tc' = with_resize_delta (with_accounts tc l) d.

Lemma writes_refl tc : writes tc (accounts tc) tc.
Proof. exists (total_resize_delta tc). by destruct tc. Qed.

Lemma writes_accounts tc l tc' : writes tc l tc' -> accounts tc' = l.
Proof. by intros [d ->]. Qed.

Lemma writes_trans tc l tc1 l' tc' : writes tc l tc1 -> writes tc1 l' tc' -> writes tc l' tc'.
Proof. intros [d ->] [d' ->]. by exists d'. Qed.

Lemma writes_keys tc l tc' : writes tc l tc' -> account_keys tc' = account_keys tc.
Proof. by intros [d ->]. Qed.

Lemma set_cell_ok b a tc u tc' :
  BorrowedAccount.set_cell b a tc = Ok (u, tc') ->
  writes tc (<[ba_index_in_transaction b := a]> (accounts tc)) tc'.
Proof. intros [= <- <-]. exists (total_resize_delta tc). done. Qed.

Ltac inv_tx := repeat (match goal with
  | H : mbind _ _ _ = Ok _ |- _ =>
      apply tx_bind_ok in H; cbv beta in H; destruct H as (? & ? & ? & H)
  | H : reads _ _ = Ok _ |- _ => apply reads_ok in H; cbv beta in H; destruct H as [? ->]
  | H : guard _ _ _ = Ok _ |- _ => apply guard_ok in H as [? ->]
  | H : mret (M:=TxM) _ _ = Ok _ |- _ => apply tx_ret_ok in H as [-> ->]
  | H : BorrowedAccount.cell _ _ = Ok _ |- _ => apply cell_ok in H as [? ->]
  | H : BorrowedAccount.get_data _ _ = Ok _ |- _ => unfold BorrowedAccount.get_data in H
  | H : BorrowedAccount.get_owner _ _ = Ok _ |- _ => unfold BorrowedAccount.get_owner in H
  | H : BorrowedAccount.get_lamports _ _ = Ok _ |- _ => unfold BorrowedAccount.get_lamports in H
  | H : BorrowedAccount.get_key _ _ = Ok _ |- _ => unfold BorrowedAccount.get_key in H
  | H : throw _ _ = Ok _ |- _ => discriminate H
  | H : ok_or _ _ = Ok _ |- _ => apply ok_or_ok in H
  | H : unwrap _ = Ok _ |- _ => apply unwrap_ok in H
  end).

Lemma set_owner_ok b k tc u tc' :
  BorrowedAccount.set_owner b k tc = Ok (u, tc') ->
  exists a, accounts tc !! ba_index_in_transaction b = Some a /\
    writes tc (<[ba_index_in_transaction b := set_acc_owner a k]> (accounts tc)) tc'.
Proof. unfold BorrowedAccount.set_owner. intros H. inv_tx. eauto using set_cell_ok. Qed.

Lemma set_data_ok b d tc u tc' :
  BorrowedAccount.set_data b d tc = Ok (u, tc') ->
  exists a, accounts tc !! ba_index_in_transaction b = Some a /\
    writes tc (<[ba_index_in_transaction b := set_acc_data a d]> (accounts tc)) tc'.
Proof.
  unfold BorrowedAccount.set_data. intros H. inv_tx. eexists. split; [eassumption|].
  destruct (_ =? _)%nat; inv_tx; [by eapply set_cell_ok|].
  match goal with H : BorrowedAccount.resize _ _ _ = _ |- _ => injection H as <- <- end.
  match goal with H : BorrowedAccount.set_cell _ _ _ = _ |- _ => apply set_cell_ok in H as [? ->] end.
  by eexists.
Qed.

Lemma checked_add_lamports_ok b x tc u tc' :
  BorrowedAccount.checked_add_lamports b x tc = Ok (u, tc') ->
  exists a, accounts tc !! ba_index_in_transaction b = Some a /\ acc_lamports a + x <= U64_MAX /\
    writes tc (<[ba_index_in_transaction b := set_acc_lamports a (acc_lamports a + x)]>
                 (accounts tc)) tc'.
Proof.
  unfold BorrowedAccount.checked_add_lamports, BorrowedAccount.set_lamports. intros H. inv_tx.
  simplify_eq. match goal with H : checked_add _ _ = Some _ |- _ =>
    apply checked_add_some in H as [-> ?] end. eauto 6 using set_cell_ok.
Qed.

Lemma checked_sub_lamports_ok b x tc u tc' :
  BorrowedAccount.checked_sub_lamports b x tc = Ok (u, tc') ->
  exists a, accounts tc !! ba_index_in_transaction b = Some a /\ x <= acc_lamports a /\
    writes tc (<[ba_index_in_transaction b := set_acc_lamports a (acc_lamports a - x)]>
                 (accounts tc)) tc'.
Proof.
  unfold BorrowedAccount.checked_sub_lamports, BorrowedAccount.set_lamports. intros H. inv_tx.
  simplify_eq. match goal with H : checked_sub _ _ = Some _ |- _ =>
    apply checked_sub_some in H as [-> ?] end. eauto 6 using set_cell_ok.
Qed.

Lemma borrow_instruction_ok ic i tc b :
  try_borrow_instruction_account ic i tc = Ok b ->
  exists ia a, instruction_accounts ic !! i = Some ia /\
    ba_index_in_transaction b = index_in_transaction ia /\
    accounts tc !! index_in_transaction ia = Some a /\
    BorrowedAccount.is_writable b = ia_is_writable ia /\
    BorrowedAccount.is_signer b = ia_is_signer ia.
Proof.
  unfold try_borrow_instruction_account, get_index_of_instruction_account_in_transaction,
    try_borrow_account. rewrite result_bind_ok. intros (n & Hn & H).
  apply result_bind_ok in Hn as (ia & Hia & [= <-]). apply ok_or_ok in Hia.
  destruct (accounts tc !! _) as [a|] eqn:Ea; [|done]. injection H as <-.
  assert ((length (program_accounts ic) + i <? length (program_accounts ic))%nat = false) as Hlt
    by (apply Nat.ltb_ge; lia).
  assert (length (program_accounts ic) + i - length (program_accounts ic) = i)%nat as Hi by lia.
  exists ia, a. split_and!; try done; unfold BorrowedAccount.is_writable, BorrowedAccount.is_signer;
    cbn [ba_instruction_context ba_index_in_instruction]; rewrite Hlt, Hi;
    unfold is_instruction_account_writable, is_instruction_account_signer; by rewrite Hia.
Qed.

(** The sum of the balances of a list of accounts. *)
Definition sum_lamports (l : list Account) : Z := foldr (fun a s => acc_lamports a + s) 0 l.

Lemma sum_lamports_insert l i a a' :
  l !! i = Some a ->
  sum_lamports (<[i := a']> l) = sum_lamports l - acc_lamports a + acc_lamports a'.
Proof.
  revert i. induction l as [|b l IH]; intros [|i] Hi; try done.
  - injection Hi as <-. cbn. lia.
  - change (<[S i := a']> (b :: l)) with (b :: <[i := a']> l). cbn [sum_lamports foldr].
    fold (sum_lamports (<[i := a']> l)) (sum_lamports l). rewrite (IH i) by done. lia.
Qed.

Lemma sum_lamports_insert_eq l i a a' :
  l !! i = Some a -> acc_lamports a' = acc_lamports a ->
  sum_lamports (<[i := a']> l) = sum_lamports l.
Proof. intros Hi Hl. rewrite (sum_lamports_insert _ _ a) by done. lia. Qed.

(** ** Addresses and positions

    The accounts of programs are loaded after those of the message, so that the address of
    a program occurs again; instructions refer to accounts by the first position of their
    address. *)

(** Every address has its account. *)
Definition context_wf (tc : TransactionContext) : Prop :=
  length (accounts tc) = length (account_keys tc).

(** The first position of [x]. *)
Definition first_at {A} (l : list A) (p : nat) (x : A) : Prop :=
  l !! p = Some x /\ forall q, (q < p)%nat -> l !! q <> Some x.

Lemma first_at_unique {A} (l : list A) p q x : first_at l p x -> first_at l q x -> p = q.
Proof.
  intros [Hp Hp'] [Hq Hq']. destruct (Nat.lt_trichotomy p q) as [Hl|[->|Hl]]; [|done|].
  - by destruct (Hq' p).
  - by destruct (Hp' q).
Qed.

(** The position [j] is the first one of its address. *)
Definition first_position (K : list Pubkey) (j : nat) : Prop :=
  forall k, K !! j = Some k -> first_at K j k.

Lemma first_position_unique K i j k :
  first_position K i -> first_position K j -> K !! i = Some k -> K !! j = Some k -> i = j.
Proof. intros Hi Hj Hik Hjk. eapply first_at_unique; [by apply Hi|by apply Hj]. Qed.

(** The position [j] is the only one of its address. *)
Definition sole_position (K : list Pubkey) (j : nat) : Prop :=
  forall i k, K !! j = Some k -> K !! i = Some k -> i = j.

Lemma sole_first K j : sole_position K j -> first_position K j.
Proof. intros Hj k Hk. split; [done|]. intros q Hq Hk'. pose proof (Hj _ _ Hk Hk'). lia. Qed.

Lemma sole_checked K j : Forall (fun i => K !! i = K !! j -> i = j) (seq 0 (length K)) -> sole_position K j.
Proof.
  rewrite Forall_forall. intros Hall i k Hj Hi. apply Hall; [|congruence].
  apply in_seq. apply lookup_lt_Some in Hi. lia.
Qed.

Lemma distinct_sole K j : NoDup K -> sole_position K j.
Proof. intros HK i k Hj Hi. by eapply NoDup_lookup. Qed.

(** Positions in a list of distinct addresses, whatever follows it. *)
Lemma distinct_first K programs j : NoDup K -> (j < length K)%nat -> first_position (K ++ programs) j.
Proof.
  intros HK Hj k Hk. split; [done|]. intros q Hq Hq'. rewrite lookup_app_l in Hk, Hq' by lia.
  assert (q = j) by (by eapply NoDup_lookup). lia.
Qed.

(** The accounts of a context by address. *)
Definition all_accounts (tc : TransactionContext) : gmap Pubkey Account :=
  list_to_map (zip (account_keys tc) (accounts tc)).

Lemma all_accounts_lookup tc k a :
  all_accounts tc !! k = Some a <-> exists i, first_at (account_keys tc) i k /\ accounts tc !! i = Some a.
Proof.
  unfold all_accounts. generalize (accounts tc). induction (account_keys tc) as [|k' K IH]; intros l.
  { cbn. rewrite lookup_empty. split; [done|]. by intros (i & [? _] & _). }
  destruct l as [|b l].
  { cbn. rewrite lookup_empty. split; [done|]. by intros (i & _ & ?). }
  cbn [zip zip_with list_to_map foldr]. cbn [curry]. cbn [fst snd]. rewrite lookup_insert. case_decide as E.
  - subst. split.
    + intros [= <-]. exists 0%nat. split; [|done]. split; [done|lia].
    + intros (i & Hi & Ha). assert (i = 0%nat) as ->; [|done].
      eapply first_at_unique; [exact Hi|]. split; [done|lia].
  - rewrite IH. split.
    + intros (i & [Hi Hq] & Ha). exists (S i). split; [|done]. split; [done|].
      intros [|q] Hlt; cbn; [congruence|]. apply Hq. lia.
    + intros ([|i] & [Hi Hq] & Ha); [injection Hi as ->; by destruct E|]. exists i. split; [|done]. split; [done|].
      intros q Hlt. apply (Hq (S q)). lia.
Qed.

Lemma context_wf_writes tc l tc' :
  context_wf tc -> writes tc l tc' -> length l = length (accounts tc) -> context_wf tc'.
Proof. unfold context_wf. intros Hlen [d ->] Hl. cbn. congruence. Qed.

(** Replacing the account at the first position of an address replaces it at its address. *)
Lemma all_accounts_insert tc i k a tc' :
  context_wf tc -> first_at (account_keys tc) i k ->
  writes tc (<[i := a]> (accounts tc)) tc' -> all_accounts tc' = <[k := a]> (all_accounts tc).
Proof.
  intros Hlen Hk Hw.
  assert (Hlt : (i < length (accounts tc))%nat) by (rewrite Hlen; by eapply lookup_lt_Some, Hk).
  apply map_eq. intros j. apply option_eq. intros b.
  rewrite (all_accounts_lookup tc'), (writes_keys _ _ _ Hw), (writes_accounts _ _ _ Hw).
  destruct (decide (k = j)) as [<-|Hne].
  - rewrite lookup_insert_eq. split.
    + intros (n & Hn & Hb). assert (n = i) as -> by (by eapply first_at_unique).
      by rewrite list_lookup_insert_eq in Hb by exact Hlt.
    + intros Hb. exists i. split; [done|]. by rewrite list_lookup_insert_eq by exact Hlt.
  - rewrite lookup_insert_ne, all_accounts_lookup by done.
    split; intros (n & Hn & Hb); exists n; (split; [done|]).
    + rewrite list_lookup_insert_ne in Hb; [done|]. intros ->. destruct Hn, Hk. congruence.
    + rewrite list_lookup_insert_ne; [done|]. intros ->. destruct Hn, Hk. congruence.
Qed.
