(* ===== verification/Serialization.v ===== *)
(** * The parameters of a program as bytes

    The loader hands a program one buffer with its accounts, its instruction data
    and its id, and reads the accounts back from it when the program returns:
    [programs/bpf_loader/src/serialization.rs] (the loader's side) and
    [sdk/program/src/entrypoint.rs], [entrypoint_deprecated.rs] (the program's
    side).

    [AlignedMemory] ([solana_rbpf-0.2.31/src/aligned_memory.rs]) is the bytes written so
    far, and a write fails when it goes past the size the buffer was made for.  Its
    bytes before the first aligned address are left out: the allocator aligns to
    eight bytes, so they do not change the padding, which is computed from
    [write_index].  A pointer of the program's side
    is its offset and the bytes from it on; an access outside the buffer is
    [None].  The entry point also stores the length of each account in four
    bytes of padding, for [realloc]; that store is left out. *)

From Stdlib Require Import Strings.Byte.
From S2P Require Import Prelude Sdk SystemInstruction Transaction.

Definition MAX_PERMITTED_DATA_INCREASE : nat := 1024 * 10.
Definition BPF_ALIGN_OF_U128 : nat := 8.

(** [(n as *const u8).align_offset(BPF_ALIGN_OF_U128)] *)
Definition align_offset (n : nat) : nat :=
  ((BPF_ALIGN_OF_U128 - n mod BPF_ALIGN_OF_U128) mod BPF_ALIGN_OF_U128)%nat.

(** [b as u8] *)
Definition bool_u8 (b : bool) : byte := if b then x01 else x00.

(** A write to the buffer [v] that was made for [size] bytes. *)
Definition write_all (size : nat) (v bytes : list byte) : TxM (list byte) :=
  guard (length v + length bytes <=? size)%nat InstructionError.InvalidArgument;;
  mret (v ++ bytes).

(** [transaction_context.try_borrow_instruction_account(i)?] with the cell behind it *)
Definition borrow (ic : InstructionContext) (i : nat) : TxM (BorrowedAccount * Account) :=
  b ← reads (try_borrow_instruction_account ic i);
  a ← BorrowedAccount.cell b;
  mret (b, a).

Definition duplicate_of (ic : InstructionContext) (i : nat) : TxM (option nat) :=
  reads (fun _ => is_instruction_account_duplicate ic i).

(** The id of the program, written last. *)
Definition last_program_key (ic : InstructionContext) : TxM Pubkey :=
  b ← reads (try_borrow_last_program_account ic); BorrowedAccount.get_key b.

Definition instruction_account_indices (ic : InstructionContext) : list nat :=
  seq 0 (length (instruction_accounts ic)).

(** ** Writing the buffer, for a layout of the accounts *)
Section serialize.
Variable account_size : InstructionContext -> nat -> TxM nat.
Variable write_account : nat -> InstructionContext -> nat -> list byte -> TxM (list byte).

Fixpoint accounts_size (ic : InstructionContext) (indices : list nat) : TxM nat :=
  match indices with
  | [] => mret 0%nat
  | i :: indices =>
      size ← account_size ic i;
      rest ← accounts_size ic indices;
      mret (size + rest)%nat
  end.

Fixpoint write_accounts (size : nat) (ic : InstructionContext) (indices : list nat)
    (v : list byte) : TxM (list byte) :=
  match indices with
  | [] => mret v
  | i :: indices => v ← write_account size ic i v; write_accounts size ic indices v
  end.

Definition serialize_with (ic : InstructionContext) : TxM (list byte) :=
  size ← accounts_size ic (instruction_account_indices ic);
  let size := (8 + size + (8 + length (instruction_data ic) + 32))%nat in
  v ← write_all size [] (u64_le (Z.of_nat (length (instruction_accounts ic))));
  v ← write_accounts size ic (instruction_account_indices ic) v;
  v ← write_all size v (u64_le (Z.of_nat (length (instruction_data ic))) ++ instruction_data ic);
  k ← last_program_key ic;
  write_all size v (to_bytes k).

End serialize.

(** ** The layout of current programs *)
Module Aligned.

(** The bytes one account adds to the size of the buffer. *)
Definition account_size (ic : InstructionContext) (i : nat) : TxM nat :=
  duplicate ← duplicate_of ic i;
  match duplicate with
  | Some _ => mret (1 + 7)%nat
  | None =>
      '(_, a) ← borrow ic i;
      let data_len := length (acc_data a) in
      mret (1 + (1 + 1 + 1 + 4 + 32 + 32 + 8 + 8 + data_len + MAX_PERMITTED_DATA_INCREASE
                 + align_offset data_len + 8))%nat
  end.

Definition write_account (size : nat) (ic : InstructionContext) (i : nat) (v : list byte)
    : TxM (list byte) :=
  duplicate ← duplicate_of ic i;
  match duplicate with
  | Some position => write_all size v (u8_of (Z.of_nat position) :: replicate 7 x00)
  | None =>
      '(b, a) ← borrow ic i;
      k ← BorrowedAccount.get_key b;
      v ← write_all size v
            ([xff; bool_u8 (BorrowedAccount.is_signer b); bool_u8 (BorrowedAccount.is_writable b);
              bool_u8 (acc_executable a); x00; x00; x00; x00]
             ++ to_bytes k ++ to_bytes (acc_owner a) ++ u64_le (acc_lamports a)
             ++ u64_le (Z.of_nat (length (acc_data a))) ++ acc_data a);
      v ← write_all size v
            (replicate (MAX_PERMITTED_DATA_INCREASE + align_offset (length v)) x00);
      write_all size v (u64_le (acc_rent_epoch a))
  end.

Definition serialize_parameters : InstructionContext -> TxM (list byte) :=
  serialize_with account_size write_account.

End Aligned.

(** ** The layout of programs of the deprecated loader *)
Module Unaligned.

Definition account_size (ic : InstructionContext) (i : nat) : TxM nat :=
  duplicate ← duplicate_of ic i;
  match duplicate with
  | Some _ => mret 1%nat
  | None =>
      '(_, a) ← borrow ic i;
      mret (1 + (1 + 1 + 32 + 8 + 8 + length (acc_data a) + 32 + 1 + 8))%nat
  end.

Definition write_account (size : nat) (ic : InstructionContext) (i : nat) (v : list byte)
    : TxM (list byte) :=
  duplicate ← duplicate_of ic i;
  match duplicate with
  | Some position => write_all size v [u8_of (Z.of_nat position)]
  | None =>
      '(b, a) ← borrow ic i;
      k ← BorrowedAccount.get_key b;
      write_all size v
        ([xff; bool_u8 (BorrowedAccount.is_signer b); bool_u8 (BorrowedAccount.is_writable b)]
         ++ to_bytes k ++ u64_le (acc_lamports a)
         ++ u64_le (Z.of_nat (length (acc_data a))) ++ acc_data a
         ++ to_bytes (acc_owner a) ++ [bool_u8 (acc_executable a)] ++ u64_le (acc_rent_epoch a))
  end.

Definition serialize_parameters : InstructionContext -> TxM (list byte) :=
  serialize_with account_size write_account.

End Unaligned.

(** [buffer.get(start..).ok_or(InvalidArgument)?] and [buffer.get(start..end)] *)
Definition get_from (buffer : list byte) (start : nat) : TxM (list byte) :=
  guard (start <=? length buffer)%nat InstructionError.InvalidArgument;;
  mret (drop start buffer).
Definition get_range (buffer : list byte) (start len : nat) : TxM (list byte) :=
  guard (start + len <=? length buffer)%nat InstructionError.InvalidArgument;;
  mret (take len (drop start buffer)).
(** [LittleEndian::read_u64(bytes)], which panics on fewer than eight bytes *)
Definition read_u64 (bytes : list byte) : TxM Z :=
  reads (fun _ => if (8 <=? length bytes)%nat then Ok (from_le_bytes (take 8 bytes)) else Panic).

(** Reading the accounts back.  The code ignores the results of the setters, which are always [Ok]. *)
Definition read_back_aligned (buffer : list byte) (ic : InstructionContext) (i pre_len start : nat)
    : TxM nat :=
  duplicate ← duplicate_of ic i;
  let start := (start + 1)%nat in
  match duplicate with
  | Some _ => mret (start + 7)%nat
  | None =>
      b ← reads (try_borrow_instruction_account ic i);
      let start := (start + (1 + 1 + 1 + 4 + 32))%nat in
      o ← get_range buffer start 32;
      o ← reads (fun _ => unwrap (Pubkey_new o));
      BorrowedAccount.set_owner b o;;
      let start := (start + 32)%nat in
      rest ← get_from buffer start;
      l ← read_u64 rest;
      BorrowedAccount.set_lamports b l;;
      let start := (start + 8)%nat in
      rest ← get_from buffer start;
      post_len ← read_u64 rest;
      let start := (start + 8)%nat in
      guard (negb ((Z.of_nat MAX_PERMITTED_DATA_INCREASE <? Z.max 0 (post_len - Z.of_nat pre_len))
                   || (MAX_PERMITTED_DATA_LENGTH <? post_len)))
        InstructionError.InvalidRealloc;;
      d ← get_range buffer start (Z.to_nat post_len);
      BorrowedAccount.set_data b d;;
      let start := (start + (pre_len + MAX_PERMITTED_DATA_INCREASE))%nat in
      let start := (start + align_offset start)%nat in
      mret (start + 8)%nat
  end.

Definition read_back_unaligned (buffer : list byte) (ic : InstructionContext) (i pre_len start : nat)
    : TxM nat :=
  duplicate ← duplicate_of ic i;
  let start := (start + 1)%nat in
  match duplicate with
  | Some _ => mret start
  | None =>
      b ← reads (try_borrow_instruction_account ic i);
      let start := (start + 1 + 1 + 32)%nat in
      rest ← get_from buffer start;
      l ← read_u64 rest;
      BorrowedAccount.set_lamports b l;;
      let start := (start + (8 + 8))%nat in
      d ← get_range buffer start pre_len;
      BorrowedAccount.set_data b d;;
      mret (start + (pre_len + 32 + 1 + 8))%nat
  end.

Fixpoint read_back_loop (read_back : nat -> nat -> nat -> TxM nat) (l : list (nat * nat))
    (start : nat) : TxM unit :=
  match l with
  | [] => mret tt
  | (i, pre_len) :: l => start ← read_back i pre_len start; read_back_loop read_back l start
  end.

Definition deserialize_parameters_aligned (ic : InstructionContext) (buffer : list byte)
    (account_lengths : list nat) : TxM unit :=
  read_back_loop (read_back_aligned buffer ic)
    (zip (instruction_account_indices ic) account_lengths) 8.

Definition deserialize_parameters_unaligned (ic : InstructionContext) (buffer : list byte)
    (account_lengths : list nat) : TxM unit :=
  read_back_loop (read_back_unaligned buffer ic)
    (zip (instruction_account_indices ic) account_lengths) 8.

(** The owner of the running program decides on the layout. *)
Definition is_loader_deprecated (ic : InstructionContext) : TxM bool :=
  b ← reads (try_borrow_last_program_account ic);
  o ← BorrowedAccount.get_owner b;
  mret (key_eqb o bpf_loader_deprecated_id).

Fixpoint account_lengths_of (ic : InstructionContext) (indices : list nat) : TxM (list nat) :=
  match indices with
  | [] => mret []
  | i :: indices =>
      '(_, a) ← borrow ic i;
      rest ← account_lengths_of ic indices;
      mret (length (acc_data a) :: rest)
  end.

Definition serialize_parameters (ic : InstructionContext) : TxM (list byte * list nat) :=
  deprecated ← is_loader_deprecated ic;
  buffer ← if deprecated : bool then Unaligned.serialize_parameters ic
           else Aligned.serialize_parameters ic;
  account_lengths ← account_lengths_of ic (instruction_account_indices ic);
  mret (buffer, account_lengths).

Definition deserialize_parameters (ic : InstructionContext) (buffer : list byte)
    (account_lengths : list nat) : TxM unit :=
  deprecated ← is_loader_deprecated ic;
  if deprecated : bool then deserialize_parameters_unaligned ic buffer account_lengths
  else deserialize_parameters_aligned ic buffer account_lengths.

(** ** The program's side *)

(** A pointer into the buffer. *)
Definition pointer : Type := nat * list byte.
Definition PtrM (A : Type) : Type := pointer -> option (A * pointer).
#[global] Instance PtrM_ret : MRet PtrM := fun _ a p => Some (a, p).
#[global] Instance PtrM_bind : MBind PtrM := fun _ _ f m p => '(a, p) ← m p; f a p.

Definition of_option {A} (o : option A) : PtrM A := fun p => (fun a => (a, p)) <$> o.

(** Read the next [n] bytes and move past them. *)
Definition read (n : nat) : PtrM (list byte) := fun '(offset, mem) =>
  if (n <=? length mem)%nat then Some (take n mem, ((offset + n)%nat, drop n mem)) else None.
Definition read_u8_ptr : PtrM byte := b ← read 1; of_option (head b).
Definition read_u64_ptr : PtrM Z := b ← read 8; mret (from_le_bytes b).
Definition read_flag : PtrM bool := b ← read_u8_ptr; mret (negb (u8_eqb b x00)).
Definition read_key : PtrM Pubkey := b ← read 32; of_option (Pubkey_new b).
(** [offset += (offset as *const u8).align_offset(BPF_ALIGN_OF_U128)] *)
Definition align : PtrM unit := fun p => (_ ← read (align_offset p.1); mret tt) p.

(** The handle of an account with the content of its cells.  A clone shares them. *)
Abbreviation param := (AccountInfo * Account)%type.

Module Entrypoint.

Definition read_account (accounts : list param) : PtrM param :=
  dup_info ← read_u8_ptr;
  if u8_eqb dup_info xff then
    is_signer ← read_flag;
    is_writable ← read_flag;
    executable ← read_flag;
    _ ← read 4;
    key ← read_key;
    owner ← read_key;
    lamports ← read_u64_ptr;
    data_len ← read_u64_ptr;
    data ← read (Z.to_nat data_len);
    _ ← read MAX_PERMITTED_DATA_INCREASE;
    align;;
    rent_epoch ← read_u64_ptr;
    mret (mkAccountInfo key is_signer is_writable,
          mkAccount lamports data owner executable rent_epoch)
  else
    _ ← read 7;
    of_option (accounts !! Z.to_nat (u8_val dup_info)).

End Entrypoint.

Module EntrypointDeprecated.

Definition read_account (accounts : list param) : PtrM param :=
  dup_info ← read_u8_ptr;
  if u8_eqb dup_info xff then
    is_signer ← read_flag;
    is_writable ← read_flag;
    key ← read_key;
    lamports ← read_u64_ptr;
    data_len ← read_u64_ptr;
    data ← read (Z.to_nat data_len);
    owner ← read_key;
    executable ← read_flag;
    rent_epoch ← read_u64_ptr;
    mret (mkAccountInfo key is_signer is_writable,
          mkAccount lamports data owner executable rent_epoch)
  else of_option (accounts !! Z.to_nat (u8_val dup_info)).

End EntrypointDeprecated.

Fixpoint read_accounts (read_account : list param -> PtrM param) (n : nat) (accounts : list param)
    : PtrM (list param) :=
  match n with
  | O => mret accounts
  | S n => a ← read_account accounts; read_accounts read_account n (accounts ++ [a])
  end.

(** [deserialize(input)]: the program id, the accounts and the instruction data *)
Definition deserialize_with (read_account : list param -> PtrM param) (input : list byte)
    : option (Pubkey * list param * list byte) :=
  fst <$>
  (num_accounts ← read_u64_ptr;
   accounts ← read_accounts read_account (Z.to_nat num_accounts) [];
   instruction_data_len ← read_u64_ptr;
   instruction_data ← read (Z.to_nat instruction_data_len);
   program_id ← read_key;
   mret (M:=PtrM) (program_id, accounts, instruction_data)) (0%nat, input).

Definition Entrypoint_deserialize := deserialize_with Entrypoint.read_account.
Definition EntrypointDeprecated_deserialize := deserialize_with EntrypointDeprecated.read_account.

(** ** Writes of the program

    The cells of a handle are pointers into the buffer: the owner, the lamports,
    the length and the data of an account lie behind 40 bytes of its part of the
    buffer, and [realloc] moves the end of the data within the part. *)
Definition account_span (pre_len start : nat) : nat :=
  (88 + pre_len + MAX_PERMITTED_DATA_INCREASE
   + align_offset (start + 88 + pre_len + MAX_PERMITTED_DATA_INCREASE) + 8)%nat.

Definition store_account_bytes (post : Account) (part : list byte) : list byte :=
  take 40 part ++ to_bytes (acc_owner post) ++ u64_le (acc_lamports post)
  ++ u64_le (Z.of_nat (length (acc_data post))) ++ acc_data post
  ++ drop (88 + length (acc_data post)) part.

Definition is_duplicate (ic : InstructionContext) (i : nat) : bool :=
  match instruction_accounts ic !! i with
  | Some ia => negb (index_in_callee ia =? i)%nat
  | None => false
  end.

(** The buffer with every account [i] of the instruction as [posts] has it. *)
Fixpoint store_accounts (ic : InstructionContext) (l : list (nat * nat)) (posts : list Account)
    (start : nat) (mem : list byte) : list byte :=
  match l, posts with
  | (i, pre_len) :: l, post :: posts =>
      let span := if is_duplicate ic i then 8%nat else account_span pre_len start in
      (if is_duplicate ic i then take span mem else store_account_bytes post (take span mem))
      ++ store_accounts ic l posts (start + span) (drop span mem)
  | _, _ => mem
  end.

Definition store_parameters (ic : InstructionContext) (account_lengths : list nat)
    (posts : list Account) (buffer : list byte) : list byte :=
  take 8 buffer
  ++ store_accounts ic (zip (instruction_account_indices ic) account_lengths) posts 8
       (drop 8 buffer).
