(* ===== verification/SerializationFacts.v ===== *)
(** * What a program reads is what the loader wrote

    The buffer of [Serialization], written for any instruction, is read by the
    entry point of the program as the accounts, privileges, instruction data and
    program id of the instruction, in both layouts; the size computed in advance
    always suffices. *)

From Stdlib Require Import Strings.Byte.
From S2P Require Import Prelude Sdk SystemInstruction Transaction Serialization.

(** ** Reading sequentially *)
Lemma read_app n (b mem : list byte) off :
  length b = n -> read n (off, b ++ mem) = Some (b, ((off + n)%nat, mem)).
Proof.
  intros <-. unfold read. rewrite length_app.
  rewrite (proj2 (Nat.leb_le _ _)) by lia. by rewrite take_app_length, drop_app_length.
Qed.

Lemma read_u8_app b mem off : read_u8_ptr (off, b :: mem) = Some (b, ((off + 1)%nat, mem)).
Proof. reflexivity. Qed.

Lemma read_four a b c d mem off :
  read 4 (off, a :: b :: c :: d :: mem) = Some ([a; b; c; d], ((off + 4)%nat, mem)).
Proof. reflexivity. Qed.

Lemma read_u64_app z mem off :
  is_u64 z -> read_u64_ptr (off, u64_le z ++ mem) = Some (z, ((off + 8)%nat, mem)).
Proof.
  intros Hz. unfold read_u64_ptr, mbind, PtrM_bind.
  rewrite read_app by apply length_u64_le.
  change (Some (from_le_bytes (u64_le z), ((off + 8)%nat, mem)) = Some (z, ((off + 8)%nat, mem))).
  by rewrite from_u64_le.
Qed.

Lemma read_key_app k mem off :
  read_key (off, to_bytes k ++ mem) = Some (k, ((off + 32)%nat, mem)).
Proof.
  unfold read_key, mbind, PtrM_bind. rewrite read_app by apply length_to_bytes.
  change (of_option (Pubkey_new (to_bytes k)) ((off + 32)%nat, mem) = Some (k, ((off + 32)%nat, mem))).
  by rewrite Pubkey_new_to_bytes.
Qed.

Lemma read_flag_app b mem off : read_flag (off, bool_u8 b :: mem) = Some (b, ((off + 1)%nat, mem)).
Proof. by destruct b. Qed.

Lemma align_app n mem off :
  align_offset off = n -> align (off, replicate n x00 ++ mem) = Some (tt, ((off + n)%nat, mem)).
Proof.
  intros Hn. unfold align. cbn [fst]. rewrite Hn. unfold mbind, PtrM_bind.
  by rewrite read_app by apply length_replicate.
Qed.

Lemma align_offset_add n k : align_offset (n + 8 * k) = align_offset n.
Proof. unfold align_offset, BPF_ALIGN_OF_U128. by rewrite Nat.mul_comm, Nat.Div0.mod_add. Qed.

Lemma align_offset_mod n : ((n + align_offset n) mod 8 = 0)%nat.
Proof.
  unfold align_offset, BPF_ALIGN_OF_U128. pose proof (Nat.mod_upper_bound n 8 ltac:(lia)) as Hb.
  destruct (Nat.eq_dec (n mod 8) 0) as [H0|H0].
  - rewrite H0. change ((8 - 0) mod 8)%nat with 0%nat. by rewrite Nat.add_0_r.
  - rewrite (Nat.mod_small (8 - n mod 8) 8) by lia.
    rewrite (Nat.div_mod_eq n 8) at 1.
    replace (8 * (n / 8) + n mod 8 + (8 - n mod 8))%nat with (0 + (n / 8 + 1) * 8)%nat by lia.
    apply Nat.Div0.mod_add.
Qed.

(** ** One account in the buffer *)
Inductive entry : Type :=
| EDup (position : nat)
| EAccount (i : AccountInfo) (a : Account).

(** The account an entry stands for, given the accounts before it. *)
Definition entry_param (before : list param) (e : entry) : option param :=
  match e with EDup p => before !! p | EAccount i a => Some (i, a) end.

Definition account_wf (a : Account) : Prop :=
  is_u64 (acc_lamports a) /\ is_u64 (acc_rent_epoch a) /\ is_u64 (Z.of_nat (length (acc_data a))).

(** Positions 255 and above do not fit the byte. *)
Definition entry_wf (e : entry) : Prop :=
  match e with EDup p => (p < 255)%nat | EAccount _ a => account_wf a end.

Lemma dup_byte p : (p < 255)%nat ->
  u8_eqb (u8_of (Z.of_nat p)) xff = false /\ Z.to_nat (u8_val (u8_of (Z.of_nat p))) = p.
Proof.
  intros Hp. assert (Hv : u8_val (u8_of (Z.of_nat p)) = Z.of_nat p).
  { rewrite u8_val_of, Z.mod_small by lia. done. }
  split; [|rewrite Hv; lia]. destruct (u8_eqb _ _) eqn:E; [|done].
  apply u8_eqb_eq in E. rewrite E in Hv. change (u8_val xff) with 255 in Hv. lia.
Qed.

(** One step of a reader whose result is known. *)
Lemma ptr_bind {A B} (m : PtrM A) (f : A -> PtrM B) p a p' :
  m p = Some (a, p') -> (m ≫= f) p = f a p'.
Proof. intros H. unfold mbind, PtrM_bind. by rewrite H. Qed.

Ltac ptr_step :=
  erewrite ptr_bind by
    (first [ apply read_u8_app | apply read_four | apply read_flag_app | apply read_key_app
           | apply read_u64_app; eassumption
           | apply read_app; rewrite ?length_replicate; reflexivity
           | apply align_app; eassumption ]);
  cbv beta.

Definition account_header (i : AccountInfo) (a : Account) : list byte :=
  [xff; bool_u8 (is_signer i); bool_u8 (is_writable i); bool_u8 (acc_executable a);
   x00; x00; x00; x00]
  ++ to_bytes (key i) ++ to_bytes (acc_owner a) ++ u64_le (acc_lamports a)
  ++ u64_le (Z.of_nat (length (acc_data a))) ++ acc_data a.

Definition aligned_bytes (off : nat) (e : entry) : list byte :=
  match e with
  | EDup p => u8_of (Z.of_nat p) :: replicate 7 x00
  | EAccount i a =>
      account_header i a
      ++ replicate (MAX_PERMITTED_DATA_INCREASE + align_offset (off + length (account_header i a))) x00
      ++ u64_le (acc_rent_epoch a)
  end.

Definition unaligned_bytes (off : nat) (e : entry) : list byte :=
  match e with
  | EDup p => [u8_of (Z.of_nat p)]
  | EAccount i a =>
      [xff; bool_u8 (is_signer i); bool_u8 (is_writable i)]
      ++ to_bytes (key i) ++ u64_le (acc_lamports a)
      ++ u64_le (Z.of_nat (length (acc_data a))) ++ acc_data a
      ++ to_bytes (acc_owner a) ++ [bool_u8 (acc_executable a)] ++ u64_le (acc_rent_epoch a)
  end.

Lemma length_account_header i a : length (account_header i a) = (88 + length (acc_data a))%nat.
Proof. unfold account_header. rewrite !length_app, !length_to_bytes, !length_u64_le. cbn [length]. lia. Qed.

Lemma max_increase : MAX_PERMITTED_DATA_INCREASE = (8 * 1280)%nat.
Proof. vm_compute. reflexivity. Qed.
#[local] Opaque MAX_PERMITTED_DATA_INCREASE.

Lemma read_aligned before off e p rest :
  entry_wf e -> entry_param before e = Some p ->
  Entrypoint.read_account before (off, aligned_bytes off e ++ rest)
  = Some (p, ((off + length (aligned_bytes off e))%nat, rest)).
Proof.
  intros Hwf Hp. destruct e as [q|i a]; cbn [entry_wf entry_param] in Hwf, Hp.
  - destruct (dup_byte q Hwf) as [H1 H2]. unfold Entrypoint.read_account.
    cbn [aligned_bytes app]. ptr_step. rewrite H1. ptr_step. unfold of_option. rewrite H2, Hp.
    cbn [length]. rewrite length_replicate. cbn [fmap option_fmap option_map].
    by replace (off + 1 + 7)%nat with (off + 8)%nat by lia.
  - injection Hp as <-. destruct Hwf as (Hl & Hr & Hd). unfold Entrypoint.read_account.
    unfold aligned_bytes. rewrite length_app, length_account_header, length_app, length_replicate, length_u64_le.
    set (pad := align_offset _). unfold account_header. rewrite <-!app_assoc. cbn [app].
    rewrite replicate_add, <-app_assoc.
    ptr_step. change (u8_eqb xff xff) with true. cbv iota. do 8 ptr_step.
    erewrite ptr_bind by (apply read_app; by rewrite Nat2Z.id). cbv beta.
    erewrite ptr_bind by (apply read_app, length_replicate). cbv beta.
    rewrite Nat2Z.id.
    erewrite ptr_bind by (apply align_app; subst pad; rewrite max_increase, <-(align_offset_add (off + (88 + _)) 1280);
                          f_equal; lia). cbv beta.
    ptr_step. unfold mret, PtrM_ret.
    replace (off + 1 + 1 + 1 + 1 + 4 + 32 + 32 + 8 + 8 + length (acc_data a) + MAX_PERMITTED_DATA_INCREASE + pad + 8)%nat
      with (off + (88 + length (acc_data a) + (MAX_PERMITTED_DATA_INCREASE + pad + 8)))%nat by lia.
    by destruct i, a.
Qed.

Lemma read_unaligned before off e p rest :
  entry_wf e -> entry_param before e = Some p ->
  EntrypointDeprecated.read_account before (off, unaligned_bytes off e ++ rest)
  = Some (p, ((off + length (unaligned_bytes off e))%nat, rest)).
Proof.
  intros Hwf Hp. destruct e as [q|i a]; cbn [entry_wf entry_param] in Hwf, Hp.
  - destruct (dup_byte q Hwf) as [H1 H2]. unfold EntrypointDeprecated.read_account.
    cbn [unaligned_bytes app]. ptr_step. rewrite H1. unfold of_option. by rewrite H2, Hp.
  - injection Hp as <-. destruct Hwf as (Hl & Hr & Hd). unfold EntrypointDeprecated.read_account.
    unfold unaligned_bytes. rewrite !length_app, !length_to_bytes, !length_u64_le.
    rewrite <-!app_assoc. cbn [app length].
    ptr_step. change (u8_eqb xff xff) with true. cbv iota. do 5 ptr_step.
    erewrite ptr_bind by (apply read_app; by rewrite Nat2Z.id). cbv beta. rewrite Nat2Z.id.
    do 3 ptr_step. unfold mret, PtrM_ret.
    replace (off + 1 + 1 + 1 + 32 + 8 + 8 + length (acc_data a) + 32 + 1 + 8)%nat
      with (off + (3 + (32 + (8 + (8 + (length (acc_data a) + (32 + (1 + 8))))))))%nat by lia.
    by destruct i, a.
Qed.

(** ** All accounts of an instruction *)
Fixpoint entries_bytes (bytes : nat -> entry -> list byte) (off : nat) (es : list entry) : list byte :=
  match es with
  | [] => []
  | e :: es => bytes off e ++ entries_bytes bytes (off + length (bytes off e)) es
  end.

Fixpoint entries_params (before : list param) (es : list entry) : option (list param) :=
  match es with
  | [] => Some before
  | e :: es => p ← entry_param before e; entries_params (before ++ [p]) es
  end.

Lemma read_entries bytes reader es :
  (forall before off e p rest, entry_wf e -> entry_param before e = Some p ->
     reader before (off, bytes off e ++ rest) = Some (p, ((off + length (bytes off e))%nat, rest))) ->
  forall before ps off rest, Forall entry_wf es -> entries_params before es = Some ps ->
  read_accounts reader (length es) before (off, entries_bytes bytes off es ++ rest)
  = Some (ps, ((off + length (entries_bytes bytes off es))%nat, rest)).
Proof.
  intros Hread. induction es as [|e es IH]; intros before ps off rest Hwf Hps.
  - injection Hps as <-. cbn. by rewrite Nat.add_0_r.
  - apply Forall_cons_1 in Hwf as [He Hes]. cbn [entries_params] in Hps.
    apply bind_Some in Hps as (p & Hp & Hps). cbn [length read_accounts entries_bytes].
    rewrite <-app_assoc. erewrite ptr_bind by (by apply Hread). cbv beta.
    rewrite (IH _ ps) by done. by rewrite length_app, Nat.add_assoc.
Qed.

(** What the loader writes for account [i] of an instruction. *)
Definition entry_of (tc : TransactionContext) (ic : InstructionContext) (i : nat) : option entry :=
  ia ← instruction_accounts ic !! i;
  if (index_in_callee ia =? i)%nat then
    k ← account_keys tc !! index_in_transaction ia;
    a ← accounts tc !! index_in_transaction ia;
    Some (EAccount (mkAccountInfo k (ia_is_signer ia) (ia_is_writable ia)) a)
  else Some (EDup (index_in_callee ia)).

Lemma tx_bind {A B} (m : TxM A) (f : A -> TxM B) tc a tc' :
  m tc = Ok (a, tc') -> (m ≫= f) tc = f a tc'.
Proof. intros H. unfold mbind, TxM_bind. by rewrite H. Qed.

Lemma write_all_room size v b tc :
  (length v + length b <= size)%nat -> write_all size v b tc = Ok (v ++ b, tc).
Proof. intros H. unfold write_all. rewrite (proj2 (Nat.leb_le _ _) H). done. Qed.

(** Borrowing the account of an entry. *)
Lemma entry_borrow tc ic i h a :
  entry_of tc ic i = Some (EAccount h a) ->
  duplicate_of ic i tc = Ok (None, tc) /\ exists b,
    borrow ic i tc = Ok ((b, a), tc) /\
    BorrowedAccount.get_key b tc = Ok (key h, tc) /\
    BorrowedAccount.is_signer b = is_signer h /\ BorrowedAccount.is_writable b = is_writable h.
Proof.
  unfold entry_of. intros H. apply bind_Some in H as (ia & Hia & H).
  destruct (Nat.eqb_spec (index_in_callee ia) i) as [Hi|]; [|done].
  apply bind_Some in H as (k & Hk & H). apply bind_Some in H as (a' & Ha & [= <- <-]).
  split.
  { unfold duplicate_of, reads, is_instruction_account_duplicate. rewrite Hia. cbn.
    by rewrite Hi, Nat.eqb_refl. }
  exists (mkBorrowedAccount ic (index_in_transaction ia) (length (program_accounts ic) + i)).
  split_and!.
  - unfold borrow, mbind, TxM_bind, reads, try_borrow_instruction_account,
      get_index_of_instruction_account_in_transaction.
    rewrite Hia. cbn. unfold try_borrow_account. rewrite Ha. cbn. by rewrite Ha.
  - unfold BorrowedAccount.get_key, reads, key_at. cbn. by rewrite Hk.
  - unfold BorrowedAccount.is_signer. cbn [ba_index_in_instruction ba_instruction_context].
    rewrite (proj2 (Nat.ltb_ge _ _)) by lia. unfold is_instruction_account_signer.
    replace (length (program_accounts ic) + i - length (program_accounts ic))%nat with i by lia.
    by rewrite Hia.
  - unfold BorrowedAccount.is_writable. cbn [ba_index_in_instruction ba_instruction_context].
    rewrite (proj2 (Nat.ltb_ge _ _)) by lia. unfold is_instruction_account_writable.
    replace (length (program_accounts ic) + i - length (program_accounts ic))%nat with i by lia.
    by rewrite Hia.
Qed.

Lemma entry_dup tc ic i p :
  entry_of tc ic i = Some (EDup p) -> duplicate_of ic i tc = Ok (Some p, tc).
Proof.
  unfold entry_of. intros H. apply bind_Some in H as (ia & Hia & H).
  destruct (Nat.eqb_spec (index_in_callee ia) i) as [Hi|Hi].
  - apply bind_Some in H as (? & _ & H). by apply bind_Some in H as (? & _ & ?).
  - injection H as <-. unfold duplicate_of, reads, is_instruction_account_duplicate. rewrite Hia. cbn.
    by rewrite (proj2 (Nat.eqb_neq _ _) Hi).
Qed.

Lemma write_account_aligned size tc ic i e v :
  entry_of tc ic i = Some e -> (length v + length (aligned_bytes (length v) e) <= size)%nat ->
  Aligned.write_account size ic i v tc = Ok (v ++ aligned_bytes (length v) e, tc).
Proof.
  intros He Hsize. unfold Aligned.write_account. destruct e as [p|h a].
  - erewrite tx_bind by (by apply entry_dup). cbv beta iota. by apply write_all_room.
  - apply entry_borrow in He as (Hd & b & Hb & Hk & Hs & Hw).
    erewrite tx_bind by exact Hd. cbv beta iota. erewrite tx_bind by exact Hb. cbv beta iota.
    erewrite tx_bind by exact Hk. cbv beta. rewrite Hs, Hw.
    fold (account_header h a). cbn [aligned_bytes] in Hsize.
    rewrite !length_app, length_replicate, length_u64_le in Hsize.
    erewrite tx_bind by (apply write_all_room; lia). cbv beta. rewrite length_app.
    erewrite tx_bind by (apply write_all_room; rewrite length_app, length_replicate; lia). cbv beta.
    rewrite write_all_room by (rewrite !length_app, length_replicate, length_u64_le; lia).
    by rewrite <-!app_assoc.
Qed.

Lemma write_account_unaligned size tc ic i e v :
  entry_of tc ic i = Some e -> (length v + length (unaligned_bytes (length v) e) <= size)%nat ->
  Unaligned.write_account size ic i v tc = Ok (v ++ unaligned_bytes (length v) e, tc).
Proof.
  intros He Hsize. unfold Unaligned.write_account. destruct e as [p|h a].
  - erewrite tx_bind by (by apply entry_dup). cbv beta iota. by apply write_all_room.
  - apply entry_borrow in He as (Hd & b & Hb & Hk & Hs & Hw).
    erewrite tx_bind by exact Hd. cbv beta iota. erewrite tx_bind by exact Hb. cbv beta iota.
    erewrite tx_bind by exact Hk. cbv beta. rewrite Hs, Hw. by apply write_all_room.
Qed.

(** The size of an entry does not depend on where it starts, as long as that is aligned. *)
Definition aligned_size (e : entry) : nat :=
  match e with
  | EDup _ => 8
  | EAccount _ a => 88 + length (acc_data a) + MAX_PERMITTED_DATA_INCREASE
                    + align_offset (length (acc_data a)) + 8
  end%nat.

Definition unaligned_size (e : entry) : nat :=
  match e with EDup _ => 1 | EAccount _ a => 92 + length (acc_data a) end%nat.

Lemma length_aligned off e :
  (off mod 8 = 0)%nat -> length (aligned_bytes off e) = aligned_size e.
Proof.
  intros Hoff. destruct e as [p|h a]; [reflexivity|]. cbn [aligned_bytes aligned_size].
  rewrite !length_app, length_replicate, length_u64_le, length_account_header.
  apply Nat.Div0.div_exact in Hoff.
  replace (off + (88 + length (acc_data a)))%nat with (length (acc_data a) + 8 * (off / 8 + 11))%nat by lia.
  rewrite align_offset_add. lia.
Qed.

Lemma aligned_size_mod e : (aligned_size e mod 8 = 0)%nat.
Proof.
  destruct e as [p|h a]; [reflexivity|]. cbn [aligned_size]. rewrite max_increase.
  replace (88 + length (acc_data a) + 8 * 1280 + align_offset (length (acc_data a)) + 8)%nat
    with (length (acc_data a) + align_offset (length (acc_data a)) + 1292 * 8)%nat by lia.
  rewrite Nat.Div0.mod_add. apply align_offset_mod.
Qed.

Lemma length_unaligned off e : length (unaligned_bytes off e) = unaligned_size e.
Proof.
  destruct e as [p|h a]; [reflexivity|]. cbn [unaligned_bytes unaligned_size].
  rewrite !length_app, !length_to_bytes, !length_u64_le. cbn [length]. lia.
Qed.

(** A position is written in one byte, in which 255 says that the account is listed for
    the first time: an account can be listed again only if it is first listed before
    position 255. *)
Definition repeats_early (ias : list InstructionAccount) : Prop :=
  forall i ia, ias !! i = Some ia -> index_in_callee ia <> i -> (index_in_callee ia < 255)%nat.

(** An instruction of a transaction as the runtime makes it: its accounts are accounts
    of the transaction, and a repeated account refers to its first occurrence. *)
Record instruction_wf (tc : TransactionContext) (ic : InstructionContext) : Prop := {
  iw_keys : length (account_keys tc) = length (accounts tc);
  iw_accounts : Forall account_wf (accounts tc);
  iw_indices i ia : instruction_accounts ic !! i = Some ia ->
    (index_in_transaction ia < length (accounts tc))%nat;
  iw_first i ia : instruction_accounts ic !! i = Some ia -> (index_in_callee ia <= i)%nat /\
    exists ja, instruction_accounts ic !! index_in_callee ia = Some ja /\
      index_in_callee ja = index_in_callee ia;
  iw_early : repeats_early (instruction_accounts ic);
  iw_count : is_u64 (Z.of_nat (length (instruction_accounts ic)));
  iw_data : is_u64 (Z.of_nat (length (instruction_data ic)));
  iw_program : exists i, program_accounts ic !! pred (length (program_accounts ic)) = Some i /\
    (i < length (accounts tc))%nat
}.

Lemma key_and_account tc ic j :
  instruction_wf tc ic -> (j < length (accounts tc))%nat ->
  exists k a, account_keys tc !! j = Some k /\ accounts tc !! j = Some a /\ account_wf a.
Proof.
  intros Hwf Hj. destruct (lookup_lt_is_Some_2 (accounts tc) j Hj) as [a Ha].
  destruct (lookup_lt_is_Some_2 (account_keys tc) j) as [k Hk]; [by rewrite (iw_keys _ _ Hwf)|].
  exists k, a. split_and!; try done. by eapply Forall_lookup_1, Ha; apply Hwf.
Qed.

(** The entries of an instruction. *)
Lemma entries_exist tc ic :
  instruction_wf tc ic -> exists es,
    Forall2 (fun i e => entry_of tc ic i = Some e) (instruction_account_indices ic) es /\
    Forall entry_wf es.
Proof.
  intros Hwf. unfold instruction_account_indices.
  assert (H : forall l, (forall i, In i l -> (i < length (instruction_accounts ic))%nat) ->
    exists es, Forall2 (fun i e => entry_of tc ic i = Some e) l es /\ Forall entry_wf es).
  { induction l as [|i l IH]; intros Hl; [by exists []|].
    destruct IH as (es & H2 & Hw); [intros; apply Hl; by right|].
    destruct (lookup_lt_is_Some_2 (instruction_accounts ic) i) as [ia Hia]; [apply Hl; by left|].
    destruct (key_and_account tc ic _ Hwf (iw_indices _ _ Hwf _ _ Hia)) as (k & a & Hk & Ha & Haw).
    destruct (iw_first _ _ Hwf _ _ Hia) as [Hle _].
    pose proof (iw_early _ _ Hwf _ _ Hia) as Hearly.
    assert (exists e, entry_of tc ic i = Some e /\ entry_wf e) as (e & He & Hew).
    { unfold entry_of. rewrite Hia. cbn [mbind option_bind]. rewrite Hk, Ha. cbn [mbind option_bind].
      destruct (Nat.eqb_spec (index_in_callee ia) i); eexists; split; try reflexivity; cbn; [done|lia]. }
    exists (e :: es). split; by constructor. }
  apply H. intros i Hi. apply in_seq in Hi. lia.
Qed.

(** ** The whole buffer, for a layout *)
Section layout.
Variable bytes : nat -> entry -> list byte.
Variable size_of : entry -> nat.
Variable ok_offset : nat -> Prop.
Variable account_size : InstructionContext -> nat -> TxM nat.
Variable write_account : nat -> InstructionContext -> nat -> list byte -> TxM (list byte).
Variable reader : list param -> PtrM param.

Hypothesis start_ok : ok_offset 8.
Hypothesis next_ok : forall off e, ok_offset off -> ok_offset (off + size_of e)%nat.
Hypothesis length_bytes : forall off e, ok_offset off -> length (bytes off e) = size_of e.
Hypothesis account_size_eq : forall tc ic i e,
  entry_of tc ic i = Some e -> account_size ic i tc = Ok (size_of e, tc).
Hypothesis write_account_eq : forall size tc ic i e v,
  entry_of tc ic i = Some e -> (length v + length (bytes (length v) e) <= size)%nat ->
  write_account size ic i v tc = Ok (v ++ bytes (length v) e, tc).
Hypothesis reader_eq : forall before off e p rest,
  entry_wf e -> entry_param before e = Some p ->
  reader before (off, bytes off e ++ rest) = Some (p, ((off + length (bytes off e))%nat, rest)).

Fixpoint total_size (es : list entry) : nat :=
  match es with [] => 0 | e :: es => size_of e + total_size es end%nat.

Lemma length_entries es : forall off,
  ok_offset off -> length (entries_bytes bytes off es) = total_size es.
Proof.
  induction es as [|e es IH]; intros off Hoff; [done|]. cbn [entries_bytes total_size].
  rewrite length_app, length_bytes by done. f_equal. apply IH. by apply next_ok.
Qed.

Lemma accounts_size_eq tc ic is_ es :
  Forall2 (fun i e => entry_of tc ic i = Some e) is_ es ->
  accounts_size account_size ic is_ tc = Ok (total_size es, tc).
Proof.
  induction 1 as [|i e is_ es He _ IH]; [done|]. cbn [accounts_size].
  erewrite tx_bind by (by apply account_size_eq). cbv beta.
  erewrite tx_bind by exact IH. cbv beta. done.
Qed.

Lemma write_accounts_eq size tc ic is_ es :
  Forall2 (fun i e => entry_of tc ic i = Some e) is_ es -> forall v,
  ok_offset (length v) -> (length v + total_size es <= size)%nat ->
  write_accounts write_account size ic is_ v tc
  = Ok (v ++ entries_bytes bytes (length v) es, tc).
Proof.
  induction 1 as [|i e is_ es He _ IH]; intros v Hv Hs; cbn [write_accounts entries_bytes].
  { by rewrite app_nil_r. }
  cbn [total_size] in Hs.
  erewrite tx_bind by (apply write_account_eq; [exact He|rewrite length_bytes by done; lia]).
  cbv beta. rewrite IH; rewrite ?length_app, ?length_bytes by done.
  - by rewrite <-app_assoc.
  - by apply next_ok.
  - lia.
Qed.

Definition buffer_of (n : nat) (es : list entry) (d : list byte) (k : Pubkey) : list byte :=
  u64_le (Z.of_nat n) ++ entries_bytes bytes 8 es
  ++ (u64_le (Z.of_nat (length d)) ++ d) ++ to_bytes k.

Lemma last_program tc ic :
  instruction_wf tc ic -> exists i k a,
    program_accounts ic !! pred (length (program_accounts ic)) = Some i /\
    account_keys tc !! i = Some k /\ accounts tc !! i = Some a /\
    last_program_key ic tc = Ok (k, tc).
Proof.
  intros Hwf. destruct (iw_program _ _ Hwf) as (i & Hi & Hlt).
  destruct (key_and_account tc ic i Hwf Hlt) as (k & a & Hk & Ha & _).
  exists i, k, a. split_and!; try done.
  unfold last_program_key, mbind, TxM_bind, reads, try_borrow_last_program_account,
    try_borrow_program_account, get_index_of_program_account_in_transaction.
  rewrite Hi. cbn. unfold try_borrow_account. rewrite Ha. cbn.
  unfold BorrowedAccount.get_key, reads, key_at. cbn. by rewrite Hk.
Qed.

Lemma serialize_with_eq tc ic es k :
  Forall2 (fun i e => entry_of tc ic i = Some e) (instruction_account_indices ic) es ->
  last_program_key ic tc = Ok (k, tc) ->
  serialize_with account_size write_account ic tc
  = Ok (buffer_of (length (instruction_accounts ic)) es (instruction_data ic) k, tc).
Proof.
  intros He Hk. unfold serialize_with.
  erewrite tx_bind by (by apply accounts_size_eq). cbv beta zeta.
  erewrite tx_bind by (apply write_all_room; rewrite length_u64_le; cbn [length]; lia). cbv beta.
  cbn [app].
  erewrite tx_bind by (apply write_accounts_eq; [exact He|by rewrite length_u64_le|rewrite length_u64_le; lia]).
  cbv beta. rewrite length_u64_le.
  erewrite tx_bind by (apply write_all_room;
    rewrite !length_app, !length_u64_le, length_entries by done; lia). cbv beta.
  erewrite tx_bind by exact Hk. cbv beta.
  rewrite write_all_room
    by (rewrite !length_app, !length_u64_le, length_to_bytes, length_entries by done; lia).
  unfold buffer_of. by rewrite <-!app_assoc.
Qed.

Lemma deserialize_with_eq es ps d k :
  Forall entry_wf es -> entries_params [] es = Some ps -> is_u64 (Z.of_nat (length d)) ->
  is_u64 (Z.of_nat (length es)) ->
  deserialize_with reader (buffer_of (length es) es d k) = Some (k, ps, d).
Proof.
  intros Hes Hps Hd Hn. unfold deserialize_with, buffer_of. rewrite <-!app_assoc.
  ptr_step. rewrite Nat2Z.id.
  erewrite ptr_bind by (apply (read_entries bytes reader es reader_eq); [exact Hes|exact Hps]). cbv beta.
  ptr_step. erewrite ptr_bind by (apply read_app; by rewrite Nat2Z.id). cbv beta.
  rewrite <-(app_nil_r (to_bytes k)). ptr_step. done.
Qed.

End layout.

(** ** The two layouts *)
Lemma ok_pair {E A} (n m : nat) (a : A) : n = m -> Ok (E:=E) (n, a) = Ok (m, a).
Proof. by intros ->. Qed.

Lemma account_size_aligned tc ic i e :
  entry_of tc ic i = Some e -> Aligned.account_size ic i tc = Ok (aligned_size e, tc).
Proof.
  intros He. unfold Aligned.account_size. destruct e as [p|h a].
  - erewrite tx_bind by (by apply entry_dup). done.
  - apply entry_borrow in He as (Hd & b & Hb & _).
    erewrite tx_bind by exact Hd. cbv beta iota. erewrite tx_bind by exact Hb. cbv beta iota zeta.
    cbn [aligned_size]. unfold mret, TxM_ret. apply ok_pair. lia.
Qed.

Lemma account_size_unaligned tc ic i e :
  entry_of tc ic i = Some e -> Unaligned.account_size ic i tc = Ok (unaligned_size e, tc).
Proof.
  intros He. unfold Unaligned.account_size. destruct e as [p|h a].
  - erewrite tx_bind by (by apply entry_dup). done.
  - apply entry_borrow in He as (Hd & b & Hb & _).
    erewrite tx_bind by exact Hd. cbv beta iota. erewrite tx_bind by exact Hb. cbv beta iota.
    cbn [unaligned_size]. unfold mret, TxM_ret. apply ok_pair. lia.
Qed.

(** The account a program sees at position [i]: key and privileges of the first
    occurrence, content of the account of the transaction. *)
Definition param_of (tc : TransactionContext) (ic : InstructionContext) (i : nat) : option param :=
  ia ← instruction_accounts ic !! i;
  ja ← instruction_accounts ic !! index_in_callee ia;
  k ← account_keys tc !! index_in_transaction ja;
  a ← accounts tc !! index_in_transaction ja;
  Some (mkAccountInfo k (ia_is_signer ja) (ia_is_writable ja), a).

Lemma entry_param_of tc ic i e before :
  instruction_wf tc ic -> entry_of tc ic i = Some e ->
  (forall j, (j < i)%nat -> before !! j = param_of tc ic j) ->
  entry_param before e = param_of tc ic i /\ is_Some (param_of tc ic i).
Proof.
  intros Hwf He Hb. unfold entry_of in He. apply bind_Some in He as (ia & Hia & He).
  destruct (iw_first _ _ Hwf _ _ Hia) as (Hle & ja & Hja & Hself).
  destruct (key_and_account tc ic _ Hwf (iw_indices _ _ Hwf _ _ Hja)) as (k & a & Hk & Ha & _).
  assert (Hp : param_of tc ic i = Some (mkAccountInfo k (ia_is_signer ja) (ia_is_writable ja), a)).
  { unfold param_of. rewrite Hia. cbn [mbind option_bind]. rewrite Hja. cbn [mbind option_bind].
    by rewrite Hk, Ha. }
  split; [|by rewrite Hp]. rewrite Hp.
  destruct (Nat.eqb_spec (index_in_callee ia) i) as [Hi|Hi].
  - assert (ja = ia) as -> by congruence. rewrite Hk, Ha in He. by injection He as <-.
  - injection He as <-. cbn [entry_param]. rewrite Hb by lia. unfold param_of. rewrite Hja.
    cbn [mbind option_bind]. rewrite Hself, Hja. cbn [mbind option_bind]. by rewrite Hk, Ha.
Qed.

Lemma entries_params_of tc ic n : instruction_wf tc ic -> forall i before es,
  Forall2 (fun i e => entry_of tc ic i = Some e) (seq i n) es ->
  length before = i -> (forall j, (j < i)%nat -> before !! j = param_of tc ic j) ->
  exists ps, entries_params before es = Some ps /\ length ps = (i + n)%nat /\
    forall j, (j < i + n)%nat -> ps !! j = param_of tc ic j.
Proof.
  intros Hwf. induction n as [|n IH]; intros i before es Hes Hlen Hb.
  - apply Forall2_nil_inv_l in Hes as ->. exists before. rewrite Nat.add_0_r. done.
  - cbn [seq] in Hes. apply Forall2_cons_inv_l in Hes as (e & es' & He & Hes & ->).
    destruct (entry_param_of tc ic i e before Hwf He Hb) as [Hp [p Hp']].
    cbn [entries_params]. rewrite Hp, Hp'. cbn [mbind option_bind].
    destruct (IH (S i) (before ++ [p]) es' Hes) as (ps & Hps & Hl & Hj).
    + rewrite length_app. cbn. lia.
    + intros j Hj. destruct (decide (j = i)) as [->|].
      * rewrite lookup_app_r, Hlen, Nat.sub_diag by lia. by rewrite Hp'.
      * rewrite lookup_app_l by lia. apply Hb. lia.
    + exists ps. split; [done|]. split; [lia|]. intros j Hlt. apply Hj. lia.
Qed.

Lemma deprecated_flag tc ic :
  instruction_wf tc ic -> exists b, is_loader_deprecated ic tc = Ok (b, tc).
Proof.
  intros Hwf. destruct (last_program tc ic Hwf) as (i & k & a & Hi & Hk & Ha & _).
  eexists. unfold is_loader_deprecated, mbind, TxM_bind, reads, try_borrow_last_program_account,
    try_borrow_program_account, get_index_of_program_account_in_transaction.
  rewrite Hi. cbn. unfold try_borrow_account. rewrite Ha. cbn.
  unfold BorrowedAccount.get_owner, mbind, TxM_bind, BorrowedAccount.cell, reads. cbn. rewrite Ha.
  reflexivity.
Qed.

Lemma account_lengths_eq tc ic l :
  instruction_wf tc ic -> (forall i, In i l -> (i < length (instruction_accounts ic))%nat) ->
  exists lens, account_lengths_of ic l tc = Ok (lens, tc) /\
    Forall2 (fun i n => exists ia a, instruction_accounts ic !! i = Some ia /\
               accounts tc !! index_in_transaction ia = Some a /\ n = length (acc_data a)) l lens.
Proof.
  intros Hwf. induction l as [|i l IH]; intros Hl; [by exists []|].
  destruct IH as (lens & Hlens & H2); [intros; apply Hl; by right|].
  destruct (lookup_lt_is_Some_2 (instruction_accounts ic) i) as [ia Hia]; [apply Hl; by left|].
  destruct (key_and_account tc ic _ Hwf (iw_indices _ _ Hwf _ _ Hia)) as (k & a & _ & Ha & _).
  exists (length (acc_data a) :: lens). split; [|constructor; [by eauto|done]].
  cbn [account_lengths_of].
  assert (exists b, borrow ic i tc = Ok ((b, a), tc)) as [b Hb].
  { eexists. unfold borrow, mbind, TxM_bind, reads, try_borrow_instruction_account,
      get_index_of_instruction_account_in_transaction.
    rewrite Hia. cbn. unfold try_borrow_account. rewrite Ha. cbn. rewrite Ha. reflexivity. }
  erewrite tx_bind by exact Hb. cbv beta iota. erewrite tx_bind by exact Hlens. done.
Qed.

(** The buffer of an instruction with the entries [es]. *)
Definition parameters_of (deprecated : bool) (ic : InstructionContext) (es : list entry) (k : Pubkey)
    : list byte :=
  buffer_of (if deprecated then unaligned_bytes else aligned_bytes)
    (length (instruction_accounts ic)) es (instruction_data ic) k.

Lemma serialize_parameters_eq tc ic es k b :
  instruction_wf tc ic ->
  Forall2 (fun i e => entry_of tc ic i = Some e) (instruction_account_indices ic) es ->
  last_program_key ic tc = Ok (k, tc) -> is_loader_deprecated ic tc = Ok (b, tc) ->
  exists lens, serialize_parameters ic tc = Ok ((parameters_of b ic es k, lens), tc) /\
    Forall2 (fun i n => exists ia a, instruction_accounts ic !! i = Some ia /\
               accounts tc !! index_in_transaction ia = Some a /\ n = length (acc_data a))
      (instruction_account_indices ic) lens.
Proof.
  intros Hwf Hes Hk Hb.
  destruct (account_lengths_eq tc ic (instruction_account_indices ic) Hwf) as (lens & Hlens & H2).
  { intros i Hi. apply in_seq in Hi. lia. }
  exists lens. split; [|done]. unfold serialize_parameters. erewrite tx_bind by exact Hb. cbv beta.
  assert (Hser : (if b : bool then Unaligned.serialize_parameters ic
                  else Aligned.serialize_parameters ic) tc = Ok (parameters_of b ic es k, tc)).
  { unfold parameters_of. destruct b.
    - apply (serialize_with_eq unaligned_bytes unaligned_size (fun _ => True)); auto using
        length_unaligned, account_size_unaligned, write_account_unaligned.
    - apply (serialize_with_eq aligned_bytes aligned_size (fun n => n mod 8 = 0)%nat); auto using
        length_aligned, account_size_aligned, write_account_aligned.
      intros off e Hoff. rewrite <-Nat.Div0.add_mod_idemp_l, Hoff. apply aligned_size_mod. }
  erewrite tx_bind by exact Hser. cbv beta. by erewrite tx_bind by exact Hlens.
Qed.

Lemma parameters_read (tc : TransactionContext) (ic : InstructionContext)
    (Hwf : instruction_wf tc ic) :
  exists buffer lens k ps,
    serialize_parameters ic tc = Ok ((buffer, lens), tc) /\
    last_program_key ic tc = Ok (k, tc) /\
    length ps = length (instruction_accounts ic) /\
    (forall i, (i < length ps)%nat -> ps !! i = param_of tc ic i) /\
    (is_loader_deprecated ic tc = Ok (false, tc) ->
     Entrypoint_deserialize buffer = Some (k, ps, instruction_data ic)) /\
    (is_loader_deprecated ic tc = Ok (true, tc) ->
     EntrypointDeprecated_deserialize buffer = Some (k, ps, instruction_data ic)).
Proof.
  destruct (entries_exist tc ic Hwf) as (es & Hes & Hew).
  destruct (last_program tc ic Hwf) as (_ & k & _ & _ & _ & _ & Hk).
  destruct (deprecated_flag tc ic Hwf) as [b Hb].
  destruct (serialize_parameters_eq tc ic es k b Hwf Hes Hk Hb) as (lens & Hser & _).
  destruct (entries_params_of tc ic (length (instruction_accounts ic)) Hwf 0 [] es Hes eq_refl)
    as (ps & Hps & Hl & Hj); [lia|].
  assert (Hne : length es = length (instruction_accounts ic)).
  { apply Forall2_length in Hes. rewrite <-Hes. apply length_seq. }
  assert (Hn : is_u64 (Z.of_nat (length es))).
  { rewrite Hne. apply Hwf. }
  exists (parameters_of b ic es k), lens, k, ps. unfold parameters_of.
  split_and!; [exact Hser|done|lia|intros; apply Hj; lia| |].
  - intros Hd. rewrite Hb in Hd. injection Hd as ->.
    rewrite <-Hne. apply deserialize_with_eq; [exact read_aligned|done..|apply Hwf|done].
  - intros Hd. rewrite Hb in Hd. injection Hd as ->.
    rewrite <-Hne. apply deserialize_with_eq; [exact read_unaligned|done..|apply Hwf|done].
Qed.

(** C12: The buffer the loader writes for an instruction, in the layout of the loader
    that owns the program, is read by the entry point of that layout as the program id,
    the instruction data and, in order, the handle and content of every instruction
    account, a repeated account as the clone of its first occurrence. It is assumed that
    an account that is listed again is first listed before position 255: the position is
    written in one byte, in which 255 announces a new account. *)
Theorem entrypoint_reads_parameters (tc : TransactionContext) (ic : InstructionContext)
    (Hwf : instruction_wf tc ic) :
  exists buffer lens k ps,
    serialize_parameters ic tc = Ok ((buffer, lens), tc) /\
    last_program_key ic tc = Ok (k, tc) /\
    length ps = length (instruction_accounts ic) /\
    (forall i, (i < length ps)%nat -> ps !! i = param_of tc ic i) /\
    (is_loader_deprecated ic tc = Ok (false, tc) ->
     Entrypoint_deserialize buffer = Some (k, ps, instruction_data ic)) /\
    (is_loader_deprecated ic tc = Ok (true, tc) ->
     EntrypointDeprecated_deserialize buffer = Some (k, ps, instruction_data ic)).
Proof. exact (parameters_read tc ic Hwf). Qed.

(** ** A concrete instruction

    A program of the current loader with three accounts, the second and third of
    which are the same one. *)
Definition sx_key (n : Z) : Pubkey := pubkey_of_Z n.
Definition sx_context : TransactionContext :=
  TransactionContext_new
    [(sx_key 1, mkAccount 7 [x01; x02; x03] (sx_key 9) false 3);
     (sx_key 2, mkAccount 11 [] system_program_id false 0);
     (sx_key 9, mkAccount 1 [x7f] bpf_loader_id true 0)] 4 1 0.
Definition sx_instruction : InstructionContext :=
  mkInstructionContext 0 [2%nat]
    [mkInstructionAccount 0 0 0 false true; mkInstructionAccount 1 1 1 true true;
     mkInstructionAccount 1 1 1 true true] [x05; x06].

Lemma sx_wf : instruction_wf sx_context sx_instruction.
Proof.
  split.
  - done.
  - repeat constructor; by apply is_u64b_spec.
  - intros [|[|[|i]]] ia H; cbn in H; simplify_eq; cbn; lia.
  - intros [|[|[|i]]] ia H; cbn in H; simplify_eq; cbn; (split; [lia|]); by eexists.
  - intros [|[|[|i]]] ia H Hi; cbn in H; simplify_eq; cbn in *; lia.
  - by apply is_u64b_spec.
  - by apply is_u64b_spec.
  - exists 2%nat. cbn. split; [done|lia].
Qed.

Lemma entrypoint_reads_parameters_witness :
  exists buffer lens,
    serialize_parameters sx_instruction sx_context = Ok ((buffer, lens), sx_context) /\
    exists ps, Entrypoint_deserialize buffer = Some (sx_key 9, ps, [x05; x06]) /\
      ps !! 2%nat = Some (mkAccountInfo (sx_key 2) true true, mkAccount 11 [] system_program_id false 0).
Proof.
  destruct (entrypoint_reads_parameters sx_context sx_instruction sx_wf)
    as (buffer & lens & k & ps & Hser & Hk & Hlen & Hps & Hde & _).
  exists buffer, lens. split; [exact Hser|]. exists ps.
  assert (k = sx_key 9) as -> by (vm_compute in Hk; injection Hk as <-; vm_compute; reflexivity).
  split; [apply Hde; vm_compute; reflexivity|].
  rewrite Hps by (rewrite Hlen; vm_compute; lia). reflexivity.
Defined.

(** An account first listed at position 255 and listed again: the byte that stands for the
    second listing is the one that announces a new account, and neither entry point reads
    the parameters. *)
Definition sx_late (owner : Pubkey) : TransactionContext :=
  TransactionContext_new
    [(sx_key 1, mkAccount 7 [] (sx_key 9) false 3); (sx_key 2, mkAccount 11 [] system_program_id false 0);
     (sx_key 9, mkAccount 1 [x7f] owner true 0)] 4 1 0.
Definition sx_late_instruction : InstructionContext :=
  mkInstructionContext 0 [2%nat]
    (replicate 255 (mkInstructionAccount 0 0 0 false true) ++
     replicate 2 (mkInstructionAccount 1 1 255 true true)) [x05; x06].

Lemma late_repeat_unreadable :
  match serialize_parameters sx_late_instruction (sx_late bpf_loader_id),
        serialize_parameters sx_late_instruction (sx_late bpf_loader_deprecated_id) with
  | Ok ((buffer, _), _), Ok ((buffer_deprecated, _), _) =>
      Entrypoint_deserialize buffer = None /\ EntrypointDeprecated_deserialize buffer_deprecated = None
  | _, _ => False
  end.
Proof. vm_compute. split; reflexivity. Qed.
