(* ===== verification/ReadBack.v ===== *)
(** * What the loader reads back is what the program left

    The accounts of the transaction after a program returned: exactly the balance,
    owner and data the program left in its buffer, within the limits on growth. *)

From Stdlib Require Import Strings.Byte.
From S2P Require Import Prelude Sdk SystemInstruction Transaction Serialization SerializationFacts.

#[local] Opaque MAX_PERMITTED_DATA_INCREASE.

(** The account [a] of the transaction with the balance, data and owner of [post]. *)
Definition updated (a post : Account) : Account :=
  mkAccount (acc_lamports post) (acc_data post) (acc_owner post) (acc_executable a)
    (acc_rent_epoch a).

(** A content the program may leave in the place of one with [pre_len] bytes. *)
Definition fits (pre_len : nat) (post : Account) : Prop :=
  is_u64 (acc_lamports post) /\
  (length (acc_data post) <= pre_len + MAX_PERMITTED_DATA_INCREASE)%nat /\
  Z.of_nat (length (acc_data post)) <= MAX_PERMITTED_DATA_LENGTH.

Lemma get_range_app buffer pre b rest len tc start :
  buffer = pre ++ b ++ rest -> length pre = start -> length b = len ->
  get_range buffer start len tc = Ok (b, tc).
Proof.
  intros -> <- <-. unfold get_range. rewrite (proj2 (Nat.leb_le _ _)) by (rewrite !length_app; lia).
  unfold mbind, TxM_bind. cbn. by rewrite drop_app_length, take_app_length.
Qed.

Lemma get_from_app buffer pre rest tc start :
  buffer = pre ++ rest -> length pre = start -> get_from buffer start tc = Ok (rest, tc).
Proof.
  intros -> <-. unfold get_from. rewrite (proj2 (Nat.leb_le _ _)) by (rewrite !length_app; lia).
  unfold mbind, TxM_bind. cbn. by rewrite drop_app_length.
Qed.

Lemma read_u64_le z rest tc : is_u64 z -> read_u64 (u64_le z ++ rest) tc = Ok (z, tc).
Proof.
  intros Hz. unfold read_u64, reads. rewrite length_app, length_u64_le. cbn [Nat.leb Nat.add].
  change (Ok (E:=InstructionError) (from_le_bytes (take 8 (u64_le z ++ rest)), tc) = Ok (z, tc)).
  rewrite take_app_length' by (by rewrite length_u64_le). by rewrite from_u64_le.
Qed.

(** Setters on a borrowed account. *)
Lemma set_owner_eq b o tc a :
  accounts tc !! ba_index_in_transaction b = Some a ->
  BorrowedAccount.set_owner b o tc
  = Ok (tt, with_accounts tc (<[ba_index_in_transaction b := set_acc_owner a o]> (accounts tc))).
Proof.
  intros Ha. unfold BorrowedAccount.set_owner, mbind, TxM_bind, BorrowedAccount.cell, reads.
  by rewrite Ha.
Qed.

Lemma set_lamports_eq b l tc a :
  accounts tc !! ba_index_in_transaction b = Some a ->
  BorrowedAccount.set_lamports b l tc
  = Ok (tt, with_accounts tc (<[ba_index_in_transaction b := set_acc_lamports a l]> (accounts tc))).
Proof.
  intros Ha. unfold BorrowedAccount.set_lamports, mbind, TxM_bind, BorrowedAccount.cell, reads.
  by rewrite Ha.
Qed.

Lemma set_data_eq b d tc a :
  accounts tc !! ba_index_in_transaction b = Some a -> exists tc',
  BorrowedAccount.set_data b d tc = Ok (tt, tc') /\
  writes tc (<[ba_index_in_transaction b := set_acc_data a d]> (accounts tc)) tc'.
Proof.
  intros Ha. unfold BorrowedAccount.set_data, mbind, TxM_bind, BorrowedAccount.cell, reads.
  rewrite Ha. cbn.
  destruct (length d =? length (acc_data a))%nat; cbn; eexists; (split; [reflexivity|]).
  - exists (total_resize_delta tc). by destruct tc.
  - eexists. reflexivity.
Qed.

Lemma length_store_account_bytes post part n start :
  length part = account_span n start -> fits n post ->
  length (store_account_bytes post part) = account_span n start.
Proof.
  intros Hp (_ & Hd & _). unfold store_account_bytes.
  rewrite !length_app, length_take, length_drop, length_to_bytes, !length_u64_le, Hp.
  unfold account_span. lia.
Qed.

(** One account that is not a duplicate. *)
Lemma read_back_account ic i ia n start buffer pre part rest post tc a :
  instruction_accounts ic !! i = Some ia -> index_in_callee ia = i ->
  accounts tc !! index_in_transaction ia = Some a ->
  buffer = pre ++ store_account_bytes post part ++ rest -> length pre = start ->
  length part = account_span n start -> fits n post -> exists tc',
  read_back_aligned buffer ic i n start tc = Ok ((start + account_span n start)%nat, tc') /\
  writes tc (<[index_in_transaction ia := updated a post]> (accounts tc)) tc'.
Proof.
  intros Hia Hi Ha Hbuf Hpre Hpart (Hl & Hlen & Hmax).
  assert (Hdup : duplicate_of ic i tc = Ok (None, tc)).
  { unfold duplicate_of, reads, is_instruction_account_duplicate. rewrite Hia. cbn.
    by rewrite Hi, Nat.eqb_refl. }
  set (b := mkBorrowedAccount ic (index_in_transaction ia) (length (program_accounts ic) + i)).
  assert (Hb : reads (try_borrow_instruction_account ic i) tc = Ok (b, tc)).
  { unfold reads, try_borrow_instruction_account, get_index_of_instruction_account_in_transaction.
    rewrite Hia. cbn. unfold try_borrow_account. by rewrite Ha. }
  unfold read_back_aligned. erewrite tx_bind by exact Hdup. cbv beta iota zeta.
  erewrite tx_bind by exact Hb. cbv beta.
  assert (H40 : length (take 40 part) = 40%nat).
  { rewrite length_take, Hpart. unfold account_span. lia. }
  unfold store_account_bytes in Hbuf. rewrite <-!app_assoc in Hbuf.
  set (t := take 40 part) in *. set (o := to_bytes (acc_owner post)) in *.
  set (l := u64_le (acc_lamports post)) in *. set (n8 := u64_le (Z.of_nat (length (acc_data post)))) in *.
  assert (Ho : length o = 32%nat) by apply length_to_bytes.
  assert (Hl8 : length l = 8%nat) by apply length_u64_le.
  assert (Hn8 : length n8 = 8%nat) by apply length_u64_le.
  erewrite tx_bind by (apply (get_range_app _ (pre ++ t) o
    (l ++ n8 ++ acc_data post ++ drop (88 + length (acc_data post)) part ++ rest));
    [by rewrite Hbuf, <-!app_assoc|rewrite length_app; lia|done]). cbv beta.
  erewrite tx_bind by (unfold reads; subst o; rewrite Pubkey_new_to_bytes; reflexivity). cbv beta.
  erewrite tx_bind by (by apply (set_owner_eq b _ _ a)). cbv beta.
  set (tc1 := with_accounts tc _).
  erewrite tx_bind by (apply (get_from_app _ (pre ++ t ++ o)
    (l ++ n8 ++ acc_data post ++ drop (88 + length (acc_data post)) part ++ rest));
    [by rewrite Hbuf, <-!app_assoc|rewrite !length_app; lia]). cbv beta.
  erewrite tx_bind by (by apply read_u64_le). cbv beta.
  assert (Ha1 : accounts tc1 !! ba_index_in_transaction b = Some (set_acc_owner a (acc_owner post))).
  { subst tc1. cbn. apply list_lookup_insert_eq. by eapply lookup_lt_Some. }
  erewrite tx_bind by (by apply (set_lamports_eq b _ _ _ Ha1)). cbv beta.
  set (tc2 := with_accounts tc1 _).
  erewrite tx_bind by (apply (get_from_app _ (pre ++ t ++ o ++ l)
    (n8 ++ acc_data post ++ drop (88 + length (acc_data post)) part ++ rest));
    [by rewrite Hbuf, <-!app_assoc|rewrite !length_app; lia]). cbv beta.
  erewrite tx_bind by (apply read_u64_le; unfold is_u64, U64_MAX, MAX_PERMITTED_DATA_LENGTH in *; lia).
  cbv beta.
  assert (Hg : guard (negb ((Z.of_nat MAX_PERMITTED_DATA_INCREASE
      <? Z.max 0 (Z.of_nat (length (acc_data post)) - Z.of_nat n))
      || (MAX_PERMITTED_DATA_LENGTH <? Z.of_nat (length (acc_data post))))) InstructionError.InvalidRealloc tc2
    = Ok (tt, tc2)).
  { apply guard_ok. split; [|done]. apply negb_true_iff, orb_false_iff.
    rewrite !Z.ltb_ge. split; [lia|done]. }
  erewrite tx_bind by exact Hg. cbv beta. rewrite Nat2Z.id.
  erewrite tx_bind by (apply (get_range_app _ (pre ++ t ++ o ++ l ++ n8) (acc_data post)
    (drop (88 + length (acc_data post)) part ++ rest));
    [by rewrite Hbuf, <-!app_assoc|rewrite !length_app; lia|done]). cbv beta.
  assert (Ha2 : accounts tc2 !! ba_index_in_transaction b
                = Some (set_acc_lamports (set_acc_owner a (acc_owner post)) (acc_lamports post))).
  { subst tc2. cbn. apply list_lookup_insert_eq. rewrite length_insert. by eapply lookup_lt_Some. }
  destruct (set_data_eq b (acc_data post) tc2 _ Ha2) as (tc' & Hset & Hw).
  exists tc'. erewrite tx_bind by exact Hset. cbv beta. split.
  - unfold mret, TxM_ret. apply ok_pair. unfold account_span.
    replace (start + 1 + (1 + 1 + 1 + 4 + 32) + 32 + 8 + 8)%nat with (start + 88)%nat by lia.
    replace (start + 88 + (n + MAX_PERMITTED_DATA_INCREASE))%nat
      with (start + 88 + n + MAX_PERMITTED_DATA_INCREASE)%nat by lia. lia.
  - destruct Hw as [dl ->]. exists dl. subst tc2 tc1. cbn. rewrite !list_insert_insert_eq. done.
Qed.

Lemma read_back_duplicate ic i ia n start buffer tc :
  instruction_accounts ic !! i = Some ia -> index_in_callee ia <> i ->
  read_back_aligned buffer ic i n start tc = Ok ((start + 8)%nat, tc).
Proof.
  intros Hia Hi. unfold read_back_aligned, mbind, TxM_bind, duplicate_of, reads,
    is_instruction_account_duplicate. rewrite Hia. cbn.
  rewrite (proj2 (Nat.eqb_neq _ _) Hi). unfold mret, TxM_ret. apply ok_pair. lia.
Qed.

(** The accounts of the transaction after the accounts of the instruction were read back. *)
Fixpoint apply_posts (ic : InstructionContext) (l : list (nat * nat)) (posts : list Account)
    (accs : list Account) : list Account :=
  match l, posts with
  | (i, _) :: l, post :: posts =>
      apply_posts ic l posts
        (if is_duplicate ic i then accs
         else match instruction_accounts ic !! i with
              | Some ia => alter (fun a => updated a post) (index_in_transaction ia) accs
              | None => accs
              end)
  | _, _ => accs
  end.

Fixpoint spans (ic : InstructionContext) (l : list (nat * nat)) (start : nat) : nat :=
  match l with
  | [] => 0
  | (i, n) :: l =>
      let span := if is_duplicate ic i then 8%nat else account_span n start in
      span + spans ic l (start + span)
  end%nat.

Lemma alter_is_insert {A} (f : A -> A) i (l : list A) a : l !! i = Some a -> alter f i l = <[i := f a]> l.
Proof.
  revert i. induction l as [|x l IH]; intros [|i] H; cbn in *; [done..|by injection H as ->|].
  f_equal. by apply IH.
Qed.

Lemma read_back_all ic l : forall posts start buffer pre mem tc,
  Forall2 (fun '(i, n) post => (exists ia, instruction_accounts ic !! i = Some ia /\
             (index_in_transaction ia < length (accounts tc))%nat) /\
             (is_duplicate ic i = false -> fits n post)) l posts ->
  buffer = pre ++ store_accounts ic l posts start mem -> length pre = start ->
  (spans ic l start <= length mem)%nat -> exists tc',
  read_back_loop (read_back_aligned buffer ic) l start tc = Ok (tt, tc') /\
  writes tc (apply_posts ic l posts (accounts tc)) tc'.
Proof.
  induction l as [|[i n] l IH]; intros posts start buffer pre mem tc Hall Hbuf Hpre Hmem.
  { apply Forall2_nil_inv_l in Hall as ->. exists tc. split; [done|]. apply writes_refl. }
  apply Forall2_cons_inv_l in Hall as (post & posts' & ((ia & Hia & Hlt) & Hfit) & Hall & ->).
  cbn [read_back_loop spans store_accounts apply_posts] in *.
  rewrite Hia. unfold is_duplicate in *. rewrite Hia in *.
  destruct (Nat.eqb_spec (index_in_callee ia) i) as [Hi|Hi]; cbn [negb] in *.
  - specialize (Hfit eq_refl). set (span := account_span n start) in *.
    assert (Hpart : length (take span mem) = span) by (rewrite length_take; lia).
    destruct (lookup_lt_is_Some_2 _ _ Hlt) as [a Ha].
    destruct (read_back_account ic i ia n start buffer pre (take span mem) _ post tc a Hia Hi Ha Hbuf Hpre
      Hpart Hfit) as (tc1 & Hr & Hw).
    destruct (IH posts' (start + span)%nat buffer (pre ++ store_account_bytes post (take span mem))
      (drop span mem) tc1) as (tc' & Hr' & Hw').
    + rewrite (writes_accounts _ _ _ Hw), length_insert. done.
    + by rewrite Hbuf, <-app_assoc.
    + rewrite length_app, (length_store_account_bytes _ _ n start) by done. subst span. lia.
    + rewrite length_drop. lia.
    + exists tc'. erewrite tx_bind by exact Hr. split; [exact Hr'|].
      rewrite (writes_accounts _ _ _ Hw) in Hw'. rewrite (alter_is_insert _ _ _ a) by done.
      by eapply writes_trans.
  - destruct (IH posts' (start + 8)%nat buffer (pre ++ take 8 mem) (drop 8 mem) tc) as (tc' & Hr' & Hw').
    + done.
    + by rewrite Hbuf, <-app_assoc.
    + rewrite length_app, length_take. lia.
    + rewrite length_drop. lia.
    + exists tc'. erewrite tx_bind by (by apply (read_back_duplicate _ _ ia)). done.
Qed.

(** The part of an account in the buffer the loader wrote. *)
Lemma span_of_entry tc ic i e n start :
  entry_of tc ic i = Some e ->
  (exists ia a, instruction_accounts ic !! i = Some ia /\
     accounts tc !! index_in_transaction ia = Some a /\ n = length (acc_data a)) ->
  length (aligned_bytes start e) = if is_duplicate ic i then 8%nat else account_span n start.
Proof.
  intros He (ia & a & Hia & Ha & ->). unfold entry_of in He. rewrite Hia in He.
  cbn [mbind option_bind] in He. unfold is_duplicate. rewrite Hia.
  destruct (index_in_callee ia =? i)%nat; cbn [negb].
  - apply bind_Some in He as (k & _ & He). rewrite Ha in He. injection He as <-.
    cbn [aligned_bytes]. rewrite !length_app, length_replicate, length_u64_le, length_account_header.
    unfold account_span.
    replace (start + 88 + length (acc_data a) + MAX_PERMITTED_DATA_INCREASE)%nat
      with (start + (88 + length (acc_data a)) + 8 * 1280)%nat by (rewrite max_increase; lia).
    rewrite align_offset_add. lia.
  - injection He as <-. reflexivity.
Qed.

Lemma spans_of_entries tc ic is_ : forall es lens start,
  Forall2 (fun i e => entry_of tc ic i = Some e) is_ es ->
  Forall2 (fun i n => exists ia a, instruction_accounts ic !! i = Some ia /\
     accounts tc !! index_in_transaction ia = Some a /\ n = length (acc_data a)) is_ lens ->
  spans ic (zip is_ lens) start = length (entries_bytes aligned_bytes start es).
Proof.
  induction is_ as [|i is_ IH]; intros es lens start Hes Hlens.
  - apply Forall2_nil_inv_l in Hes as ->. done.
  - apply Forall2_cons_inv_l in Hes as (e & es' & He & Hes & ->).
    apply Forall2_cons_inv_l in Hlens as (n & lens' & Hn & Hlens & ->).
    cbn [zip zip_with spans entries_bytes]. rewrite length_app.
    rewrite <-(span_of_entry tc ic i e n start He Hn). f_equal. by apply IH.
Qed.

(** Position [p] of the list reads back the account [j] of the transaction. *)
Definition reads_back (ic : InstructionContext) (l : list (nat * nat)) (p j : nat) : Prop :=
  exists i n ia, l !! p = Some (i, n) /\ instruction_accounts ic !! i = Some ia /\
    is_duplicate ic i = false /\ index_in_transaction ia = j.

Lemma reads_back_cons ic x l p j : reads_back ic l p j -> reads_back ic (x :: l) (S p) j.
Proof. done. Qed.

Lemma length_apply_posts ic l : forall posts accs, length (apply_posts ic l posts accs) = length accs.
Proof.
  induction l as [|[i n] l IH]; intros [|post posts] accs; try done. cbn [apply_posts]. rewrite IH.
  repeat case_match; by rewrite ?length_alter.
Qed.

Lemma apply_posts_other ic l : forall posts accs j,
  (forall p, ~ reads_back ic l p j) -> apply_posts ic l posts accs !! j = accs !! j.
Proof.
  induction l as [|[i n] l IH]; intros [|post posts] accs j Hj; try done. cbn [apply_posts].
  rewrite IH by (intros p Hp; eapply (Hj (S p)), reads_back_cons, Hp).
  destruct (is_duplicate ic i) eqn:Hd; [done|].
  destruct (instruction_accounts ic !! i) as [ia|] eqn:Hia; [|done].
  apply list_lookup_alter_ne. intros Hij. apply (Hj 0%nat). by exists i, n, ia.
Qed.

Lemma apply_posts_at ic l : forall posts accs p j post,
  reads_back ic l p j -> (forall q, reads_back ic l q j -> q = p) -> posts !! p = Some post ->
  apply_posts ic l posts accs !! j = (fun a => updated a post) <$> accs !! j.
Proof.
  induction l as [|[i n] l IH]; intros [|post' posts] accs p j post Hp Hu Hpost; try done.
  { by destruct Hp as (? & ? & ? & ? & _). }
  cbn [apply_posts]. destruct p as [|p].
  - injection Hpost as ->. destruct Hp as (i' & n' & ia & [= <- <-] & Hia & Hd & <-).
    rewrite Hd, Hia. rewrite apply_posts_other.
    + apply list_lookup_alter_eq.
    + intros q Hq. by apply (reads_back_cons _ (i, n)), Hu in Hq.
  - rewrite (IH posts _ p j post); [|done| |done].
    + f_equal. destruct (is_duplicate ic i) eqn:Hd; [done|].
      destruct (instruction_accounts ic !! i) as [ia|] eqn:Hia; [|done].
      apply list_lookup_alter_ne. intros Hij.
      assert (reads_back ic ((i, n) :: l) 0 j) as H0 by (by exists i, n, ia). by apply Hu in H0.
    + intros q Hq. apply (reads_back_cons _ (i, n)), Hu in Hq. lia.
Qed.

Lemma ok_buffer {A B C} (a a' : A) (b b' : B) (c : C) :
  Ok (E:=InstructionError) ((a, b), c) = Ok ((a', b'), c) -> a = a' /\ b = b'.
Proof. by intros [= -> ->]. Qed.

Lemma writes_read_back (tc : TransactionContext) (ic : InstructionContext)
    (buffer : list byte) (lens : list nat) (posts : list Account)
    (Hwf : instruction_wf tc ic)
    (Hloader : is_loader_deprecated ic tc = Ok (false, tc))
    (Hser : serialize_parameters ic tc = Ok ((buffer, lens), tc))
    (Honce : forall i j ia ja, instruction_accounts ic !! i = Some ia ->
       instruction_accounts ic !! j = Some ja -> index_in_callee ia = i -> index_in_callee ja = j ->
       index_in_transaction ia = index_in_transaction ja -> i = j)
    (Hposts : length posts = length (instruction_accounts ic))
    (Hfits : forall i ia a post, instruction_accounts ic !! i = Some ia -> index_in_callee ia = i ->
       accounts tc !! index_in_transaction ia = Some a -> posts !! i = Some post ->
       fits (length (acc_data a)) post) :
  exists tc',
    deserialize_parameters ic (store_parameters ic lens posts buffer) lens tc = Ok (tt, tc') /\
    account_keys tc' = account_keys tc /\ length (accounts tc') = length (accounts tc) /\
    (forall i ia a post, instruction_accounts ic !! i = Some ia -> index_in_callee ia = i ->
       accounts tc !! index_in_transaction ia = Some a -> posts !! i = Some post ->
       accounts tc' !! index_in_transaction ia = Some (updated a post)) /\
    (forall j, (forall i ia, instruction_accounts ic !! i = Some ia -> index_in_transaction ia <> j) ->
       accounts tc' !! j = accounts tc !! j).
Proof.
  destruct (entries_exist tc ic Hwf) as (es & Hes & Hew).
  destruct (last_program tc ic Hwf) as (_ & k & _ & _ & _ & _ & Hk).
  destruct (serialize_parameters_eq tc ic es k false Hwf Hes Hk Hloader) as (lens' & Hser' & Hlens).
  rewrite Hser in Hser'. apply ok_buffer in Hser' as [Hbuf <-].
  set (l := zip (instruction_account_indices ic) lens).
  pose proof (Forall2_length Hlens) as Hll. unfold instruction_account_indices in Hll.
  rewrite length_seq in Hll.
  assert (Hl : forall i n, l !! i = Some n -> exists ia a, n = (i, length (acc_data a)) /\
    instruction_accounts ic !! i = Some ia /\ accounts tc !! index_in_transaction ia = Some a).
  { intros i [i' n] Hi. subst l. apply lookup_zip_Some in Hi as [Hi Hn].
    pose proof Hi as Hi'. apply lookup_seq in Hi as [-> Hlt]. cbn in *.
    destruct (Forall2_lookup_lr _ _ _ i i n Hlens Hi' Hn) as (ia & a & Hia & Ha & ->). eauto. }
  assert (Hlen : length l = length (instruction_accounts ic)).
  { subst l. rewrite length_zip_with. unfold instruction_account_indices. rewrite length_seq. lia. }
  assert (Hrb : forall i j, reads_back ic l i j <-> exists ia, instruction_accounts ic !! i = Some ia /\
    index_in_callee ia = i /\ index_in_transaction ia = j).
  { intros i j. unfold reads_back, is_duplicate. split.
    - intros (i' & n & ia & Hi & Hia & Hd & Hj). destruct (Hl _ _ Hi) as (? & ? & [= -> _] & _).
      rewrite Hia in Hd. exists ia. split_and!; try done. by apply negb_false_iff, Nat.eqb_eq in Hd.
    - intros (ia & Hia & Hi & Hj).
      destruct (lookup_lt_is_Some_2 l i) as [x Hx]; [rewrite Hlen; by eapply lookup_lt_Some|].
      destruct (Hl _ _ Hx) as (ia' & a & -> & Hia' & _). exists i, (length (acc_data a)), ia.
      split_and!; try done. rewrite Hia. by apply negb_false_iff, Nat.eqb_eq. }
  destruct (read_back_all ic l posts 8 (store_parameters ic lens posts buffer) (take 8 buffer)
    (drop 8 buffer) tc) as (tc' & Hr & Hw).
  - apply Forall2_same_length_lookup. split; [lia|]. intros i [i' n] post Hi Hpost.
    destruct (Hl _ _ Hi) as (ia & a & [= -> ->] & Hia & Ha). split.
    { exists ia. split; [done|]. by eapply lookup_lt_Some. }
    intros Hd. unfold is_duplicate in Hd. rewrite Hia in Hd. apply negb_false_iff, Nat.eqb_eq in Hd.
    by eapply Hfits.
  - done.
  - rewrite Hbuf. unfold parameters_of, buffer_of. rewrite length_take, !length_app, length_u64_le. lia.
  - rewrite length_drop, Hbuf. unfold parameters_of, buffer_of. rewrite !length_app, length_u64_le.
    subst l. rewrite (spans_of_entries tc ic _ es lens 8 Hes Hlens). lia.
  - exists tc'. split_and!.
    + unfold deserialize_parameters. erewrite tx_bind by exact Hloader. exact Hr.
    + by apply writes_keys in Hw.
    + rewrite (writes_accounts _ _ _ Hw). apply length_apply_posts.
    + intros i ia a post Hia Hi Ha Hpost. rewrite (writes_accounts _ _ _ Hw).
      rewrite (apply_posts_at ic l posts _ i _ post), Ha; [done|apply Hrb; by eauto| |done].
      intros q Hq. apply Hrb in Hq as (ja & Hja & Hq & Htx). by apply (Honce q i ja ia).
    + intros j Hj. rewrite (writes_accounts _ _ _ Hw). apply apply_posts_other.
      intros p Hp. apply Hrb in Hp as (ia & Hia & _ & Htx). by apply (Hj p ia).
Qed.

(** When a program of the current loader stores new owners, lamports and data into
    the buffer it was given, growing no account by more than the permitted increase,
    reading the buffer back leaves each account of the instruction with exactly these
    values and its other fields, and every other account of the transaction as it was.
    *)
Theorem program_writes_read_back (tc : TransactionContext) (ic : InstructionContext)
    (buffer : list byte) (lens : list nat) (posts : list Account)
    (Hwf : instruction_wf tc ic)
    (Hloader : is_loader_deprecated ic tc = Ok (false, tc))
    (Hser : serialize_parameters ic tc = Ok ((buffer, lens), tc))
    (Honce : forall i j ia ja, instruction_accounts ic !! i = Some ia ->
       instruction_accounts ic !! j = Some ja -> index_in_callee ia = i -> index_in_callee ja = j ->
       index_in_transaction ia = index_in_transaction ja -> i = j)
    (Hposts : length posts = length (instruction_accounts ic))
    (Hfits : forall i ia a post, instruction_accounts ic !! i = Some ia -> index_in_callee ia = i ->
       accounts tc !! index_in_transaction ia = Some a -> posts !! i = Some post ->
       fits (length (acc_data a)) post) :
  exists tc',
    deserialize_parameters ic (store_parameters ic lens posts buffer) lens tc = Ok (tt, tc') /\
    account_keys tc' = account_keys tc /\ length (accounts tc') = length (accounts tc) /\
    (forall i ia a post, instruction_accounts ic !! i = Some ia -> index_in_callee ia = i ->
       accounts tc !! index_in_transaction ia = Some a -> posts !! i = Some post ->
       accounts tc' !! index_in_transaction ia = Some (updated a post)) /\
    (forall j, (forall i ia, instruction_accounts ic !! i = Some ia -> index_in_transaction ia <> j) ->
       accounts tc' !! j = accounts tc !! j).
Proof. exact (writes_read_back tc ic buffer lens posts Hwf Hloader Hser Honce Hposts Hfits). Qed.

(** The program of the example moves two lamports and grows the first account. *)
Definition sx_posts : list Account :=
  [mkAccount 5 [x01; x02; x03; x04] (sx_key 9) false 0;
   mkAccount 13 [] system_program_id false 0; mkAccount 13 [] system_program_id false 0].

Lemma sx_once i j ia ja :
  instruction_accounts sx_instruction !! i = Some ia ->
  instruction_accounts sx_instruction !! j = Some ja ->
  index_in_callee ia = i -> index_in_callee ja = j ->
  index_in_transaction ia = index_in_transaction ja -> i = j.
Proof.
  destruct i as [|[|[|i]]], j as [|[|[|j]]]; cbn; intros Hi Hj Hci Hcj Ht; simplify_eq; cbn in *;
    congruence.
Qed.

Lemma sx_fits i ia a post :
  instruction_accounts sx_instruction !! i = Some ia -> index_in_callee ia = i ->
  accounts sx_context !! index_in_transaction ia = Some a -> sx_posts !! i = Some post ->
  fits (length (acc_data a)) post.
Proof.
  destruct i as [|[|[|i]]]; cbn; intros Hi Hci Ha Hp; simplify_eq; cbn in Ha, Hci; simplify_eq;
    (split; [by apply is_u64b_spec|]); cbn [acc_data length]; rewrite max_increase;
    (split; [lia|vm_compute; discriminate]).
Qed.

Lemma program_writes_read_back_witness :
  exists buffer lens tc',
    serialize_parameters sx_instruction sx_context = Ok ((buffer, lens), sx_context) /\
    deserialize_parameters sx_instruction
      (store_parameters sx_instruction lens sx_posts buffer) lens sx_context = Ok (tt, tc') /\
    accounts tc' !! 0%nat = Some (mkAccount 5 [x01; x02; x03; x04] (sx_key 9) false 3).
Proof.
  destruct (serialize_parameters sx_instruction sx_context) as [[[buffer lens] tc]| |] eqn:E;
    [|vm_compute in E; discriminate..].
  assert (tc = sx_context) as ->.
  { assert (match serialize_parameters sx_instruction sx_context with
            | Ok (_, tc) => accounts tc = accounts sx_context /\ tc = sx_context | _ => True end) as H
      by (vm_compute; split; reflexivity).
    rewrite E in H. apply H. }
  exists buffer, lens.
  destruct (program_writes_read_back sx_context sx_instruction buffer lens sx_posts sx_wf)
    as (tc' & Hde & _ & _ & Hacc & _).
  - vm_compute. reflexivity.
  - exact E.
  - exact sx_once.
  - reflexivity.
  - exact sx_fits.
  - exists tc'. split; [reflexivity|]. split; [exact Hde|].
    exact (Hacc 0%nat _ _ _ eq_refl eq_refl eq_refl eq_refl).
Defined.
