(* ===== verification/Nonce.v ===== *)
(** * Durable nonce accounts

    [sdk/program/src/nonce/state] (the state of a nonce account), the error enums
    of [sdk/program/src/system_instruction.rs], and
    [runtime/src/nonce_keyed_account.rs] (the four operations on a nonce account).
    The [bincode] encoding of the state is a parameter. *)

From Stdlib Require Import Strings.Byte.
From S2P Require Import Prelude Sdk Rent Transaction.

(** ** [system_instruction.rs]: errors *)
Inductive SystemError : Type :=
| AccountAlreadyInUse | ResultWithNegativeLamports | InvalidProgramId
| InvalidAccountDataLength | MaxSeedLengthExceeded | AddressWithSeedMismatch
| NonceNoRecentBlockhashes | NonceBlockhashNotExpired | NonceUnexpectedBlockhashValue.

Inductive NonceError : Type :=
| NoRecentBlockhashes | NotExpired | UnexpectedValue | BadAccountState.

(** [ToPrimitive::to_u64] *)
Definition SystemError_code (e : SystemError) : Z :=
  match e with
  | AccountAlreadyInUse => 0 | ResultWithNegativeLamports => 1 | InvalidProgramId => 2
  | InvalidAccountDataLength => 3 | MaxSeedLengthExceeded => 4 | AddressWithSeedMismatch => 5
  | NonceNoRecentBlockhashes => 6 | NonceBlockhashNotExpired => 7
  | NonceUnexpectedBlockhashValue => 8
  end.
Definition NonceError_code (e : NonceError) : Z :=
  match e with
  | NoRecentBlockhashes => 0 | NotExpired => 1 | UnexpectedValue => 2 | BadAccountState => 3
  end.

(** [.into()] of an error with [ToPrimitive]. *)
Definition system_error (e : SystemError) : InstructionError :=
  instruction_error_from_u64 (SystemError_code e).
Definition nonce_error (e : NonceError) : InstructionError :=
  instruction_error_from_u64 (NonceError_code e).

(** The adapter of the second branch has the codes of [NonceError]. *)
Definition nonce_to_instruction_error (error : NonceError) (use_system_variant : bool)
    : InstructionError :=
  if use_system_variant then
    match error with
    | NoRecentBlockhashes => system_error NonceNoRecentBlockhashes
    | NotExpired => system_error NonceBlockhashNotExpired
    | UnexpectedValue => system_error NonceUnexpectedBlockhashValue
    | BadAccountState => InstructionError.InvalidAccountData
    end
  else nonce_error error.

Definition SystemError_of_code (z : Z) : option SystemError :=
  match z with
  | 0 => Some AccountAlreadyInUse | 1 => Some ResultWithNegativeLamports
  | 2 => Some InvalidProgramId | 3 => Some InvalidAccountDataLength
  | 4 => Some MaxSeedLengthExceeded | 5 => Some AddressWithSeedMismatch
  | 6 => Some NonceNoRecentBlockhashes | 7 => Some NonceBlockhashNotExpired
  | 8 => Some NonceUnexpectedBlockhashValue | _ => None
  end.
Definition NonceError_of_code (z : Z) : option NonceError :=
  match z with
  | 0 => Some NoRecentBlockhashes | 1 => Some NotExpired | 2 => Some UnexpectedValue
  | 3 => Some BadAccountState | _ => None
  end.

Definition instruction_to_nonce_error (error : InstructionError) (use_system_variant : bool)
    : option NonceError :=
  if use_system_variant then
    match error with
    | InstructionError.Custom discriminant =>
        match SystemError_of_code discriminant with
        | Some NonceNoRecentBlockhashes => Some NoRecentBlockhashes
        | Some NonceBlockhashNotExpired => Some NotExpired
        | Some NonceUnexpectedBlockhashValue => Some UnexpectedValue
        | _ => None
        end
    | InstructionError.InvalidAccountData => Some BadAccountState
    | _ => None
    end
  else
    match error with
    | InstructionError.Custom discriminant => NonceError_of_code discriminant
    | _ => None
    end.

(** ** [nonce/state] *)

(** A [Hash] is 32 bytes. *)
Abbreviation Hash := Pubkey (only parsing).

Module Nonce.

Record Data : Type := mkData {
  authority : Pubkey;
  durable_nonce : Hash;
  lamports_per_signature : Z  (* [fee_calculator] *)
}.

Inductive State : Type := Uninitialized | Initialized (d : Data).

Inductive Versions : Type := Legacy (s : State) | Current (s : State).

Inductive AuthorizeNonceError : Type :=
| MissingRequiredSignature (account_authority : Pubkey)
| AuthorizeUninitialized.

Definition DURABLE_NONCE_HASH_PREFIX : list byte := String.list_byte_of_string "DURABLE_NONCE".

Definition from_blockhash `{Crypto} (blockhash : Hash) : Hash :=
  hashv [DURABLE_NONCE_HASH_PREFIX; to_bytes blockhash].

Definition new (s : State) : Versions := Current s.

Definition state (v : Versions) : State := match v with Legacy s => s | Current s => s end.

Definition verify_recent_blockhash (v : Versions) (recent_blockhash : Hash) : option Data :=
  match v with
  | Legacy _ => None
  | Current Uninitialized => None
  | Current (Initialized data) =>
      if key_eqb recent_blockhash (durable_nonce data) then Some data else None
  end.

Definition upgrade `{Crypto} (v : Versions) : option Versions :=
  match v with
  | Legacy Uninitialized => None
  | Legacy (Initialized data) =>
      Some (Current (Initialized (mkData (authority data) (from_blockhash (durable_nonce data))
                                    (lamports_per_signature data))))
  | Current _ => None
  end.

Definition authorize (v : Versions) (signers : gset Pubkey) (new_authority : Pubkey)
    : result AuthorizeNonceError Versions :=
  match state v with
  | Uninitialized => Err AuthorizeUninitialized
  | Initialized data =>
      if negb (bool_decide (authority data ∈ signers))
      then Err (MissingRequiredSignature (authority data))
      else
        let s := Initialized (mkData new_authority (durable_nonce data)
                                (lamports_per_signature data)) in
        Ok (match v with Legacy _ => Legacy s | Current _ => Current s end)
  end.

End Nonce.

(** [bincode] on the state of a nonce account: [deserialize] allows trailing bytes. *)
Class NonceBincode : Type := {
  bincode_serialize_nonce : Nonce.Versions -> list byte;
  bincode_deserialize_nonce : list byte -> option Nonce.Versions
}.

Class NonceBincodeSpec (N : NonceBincode) : Prop := {
  bincode_nonce_roundtrip v l :
    match Nonce.state v with
    | Nonce.Initialized d => is_u64 (Nonce.lamports_per_signature d)
    | Nonce.Uninitialized => True
    end ->
    bincode_deserialize_nonce (bincode_serialize_nonce v ++ l) = Some v;
  bincode_nonce_size v : (length (bincode_serialize_nonce v) <= 80)%nat
}.

(** ** What the system program reads of the [InvokeContext] *)
Record SystemEnv : Type := mkSystemEnv {
  system_transfer_zero_check : bool;
  merge_nonce_error_into_system_error : bool;
  env_blockhash : Hash;
  env_lamports_per_signature : Z;
  cache_rent : option Rent;
  cache_recent_blockhashes : option (list Hash)
}.

(** ** [nonce_keyed_account.rs] *)
Section nonce.
Context `{NonceBincode} `{Crypto}.
Variable env : SystemEnv.

(** [account.get_state::<Versions>()?] *)
Definition get_state (account : BorrowedAccount) : TxM Nonce.Versions :=
  d ← BorrowedAccount.get_data account;
  reads (fun _ => ok_or (bincode_deserialize_nonce d) InstructionError.InvalidAccountData).

(** [account.set_state(&versions)] *)
Definition set_state (account : BorrowedAccount) (state : Nonce.Versions) : TxM unit :=
  a ← BorrowedAccount.cell account;
  let bytes := bincode_serialize_nonce state in
  if (length (acc_data a) <? length bytes)%nat then throw InstructionError.AccountDataTooSmall
  else BorrowedAccount.set_cell account (set_acc_data a (write_prefix bytes (acc_data a))).

Definition advance_nonce_account (account : BorrowedAccount) (signers : gset Pubkey) : TxM unit :=
  guard (BorrowedAccount.is_writable account) InstructionError.InvalidArgument;;
  state ← get_state account;
  match Nonce.state state with
  | Nonce.Initialized data =>
      guard (bool_decide (Nonce.authority data ∈ signers))
        InstructionError.MissingRequiredSignature;;
      let next_durable_nonce := Nonce.from_blockhash (env_blockhash env) in
      guard (negb (key_eqb (Nonce.durable_nonce data) next_durable_nonce))
        (nonce_to_instruction_error NotExpired (merge_nonce_error_into_system_error env));;
      set_state account (Nonce.new (Nonce.Initialized
        (Nonce.mkData (Nonce.authority data) next_durable_nonce (env_lamports_per_signature env))))
  | Nonce.Uninitialized =>
      throw (nonce_to_instruction_error BadAccountState (merge_nonce_error_into_system_error env))
  end.

(** The [match state.state()] of [withdraw_nonce_account]: who must sign. *)
Definition withdraw_signer (from : BorrowedAccount) (lamports : Z) (rent : Rent)
    (state : Nonce.Versions) : TxM Pubkey :=
  from_lamports ← BorrowedAccount.get_lamports from;
  match Nonce.state state with
  | Nonce.Uninitialized =>
      guard (negb (from_lamports <? lamports)) InstructionError.InsufficientFunds;;
      BorrowedAccount.get_key from
  | Nonce.Initialized data =>
      (if lamports =? from_lamports then
         guard (negb (key_eqb (Nonce.durable_nonce data) (Nonce.from_blockhash (env_blockhash env))))
           (nonce_to_instruction_error NotExpired (merge_nonce_error_into_system_error env));;
         set_state from (Nonce.new Nonce.Uninitialized)
       else
         d ← BorrowedAccount.get_data from;
         let min_balance := minimum_balance rent (Z.of_nat (length d)) in
         amount ← reads (fun _ => ok_or (checked_add lamports min_balance)
                                    InstructionError.InsufficientFunds);
         guard (negb (from_lamports <? amount)) InstructionError.InsufficientFunds);;
      mret (Nonce.authority data)
  end.

Definition withdraw_nonce_account (ic : InstructionContext) (from_account_index : nat)
    (lamports : Z) (to_account_index : nat) (rent : Rent) (signers : gset Pubkey) : TxM unit :=
  from ← reads (try_borrow_instruction_account ic from_account_index);
  guard (BorrowedAccount.is_writable from) InstructionError.InvalidArgument;;
  state ← get_state from;
  signer ← withdraw_signer from lamports rent state;
  guard (bool_decide (signer ∈ signers)) InstructionError.MissingRequiredSignature;;
  BorrowedAccount.checked_sub_lamports from lamports;;
  to ← reads (try_borrow_instruction_account ic to_account_index);
  BorrowedAccount.checked_add_lamports to lamports.

Definition initialize_nonce_account (account : BorrowedAccount) (nonce_authority : Pubkey)
    (rent : Rent) : TxM unit :=
  guard (BorrowedAccount.is_writable account) InstructionError.InvalidArgument;;
  state ← get_state account;
  match Nonce.state state with
  | Nonce.Uninitialized =>
      d ← BorrowedAccount.get_data account;
      let min_balance := minimum_balance rent (Z.of_nat (length d)) in
      lamports ← BorrowedAccount.get_lamports account;
      guard (negb (lamports <? min_balance)) InstructionError.InsufficientFunds;;
      set_state account (Nonce.new (Nonce.Initialized
        (Nonce.mkData nonce_authority (Nonce.from_blockhash (env_blockhash env))
           (env_lamports_per_signature env))))
  | Nonce.Initialized _ =>
      throw (nonce_to_instruction_error BadAccountState (merge_nonce_error_into_system_error env))
  end.

Definition authorize_nonce_account (account : BorrowedAccount) (nonce_authority : Pubkey)
    (signers : gset Pubkey) : TxM unit :=
  guard (BorrowedAccount.is_writable account) InstructionError.InvalidArgument;;
  state ← get_state account;
  match Nonce.authorize state signers nonce_authority with
  | Ok versions => set_state account versions
  | Err Nonce.AuthorizeUninitialized =>
      throw (nonce_to_instruction_error BadAccountState (merge_nonce_error_into_system_error env))
  | Err (Nonce.MissingRequiredSignature _) => throw InstructionError.MissingRequiredSignature
  | Panic => fun _ => Panic
  end.

End nonce.

(** ** A model of the encoding: tags in four bytes, then the fields. *)
Definition ref_nonce_state (s : Nonce.State) : list byte :=
  match s with
  | Nonce.Uninitialized => [x00; x00; x00; x00]
  | Nonce.Initialized d =>
      [x01; x00; x00; x00] ++ to_bytes (Nonce.authority d) ++ to_bytes (Nonce.durable_nonce d)
        ++ u64_le (Nonce.lamports_per_signature d)
  end.

Definition ref_parse_nonce_state (l : list byte) : option Nonce.State :=
  match l with
  | x00 :: x00 :: x00 :: x00 :: _ => Some Nonce.Uninitialized
  | x01 :: x00 :: x00 :: x00 :: l =>
      authority ← Pubkey_new (take 32 l);
      nonce ← Pubkey_new (take 32 (drop 32 l));
      if (length (take 8 (drop 64 l)) =? 8)%nat
      then Some (Nonce.Initialized
                   (Nonce.mkData authority nonce (from_le_bytes (take 8 (drop 64 l)))))
      else None
  | _ => None
  end.

Definition ref_nonce_bincode : NonceBincode := {|
  bincode_serialize_nonce v :=
    match v with
    | Nonce.Legacy s => [x00; x00; x00; x00] ++ ref_nonce_state s
    | Nonce.Current s => [x01; x00; x00; x00] ++ ref_nonce_state s
    end;
  bincode_deserialize_nonce l :=
    match l with
    | x00 :: x00 :: x00 :: x00 :: l => Nonce.Legacy <$> ref_parse_nonce_state l
    | x01 :: x00 :: x00 :: x00 :: l => Nonce.Current <$> ref_parse_nonce_state l
    | _ => None
    end
|}.

Lemma ref_nonce_state_roundtrip s l :
  match s with
  | Nonce.Initialized d => is_u64 (Nonce.lamports_per_signature d)
  | Nonce.Uninitialized => True
  end -> ref_parse_nonce_state (ref_nonce_state s ++ l) = Some s.
Proof.
  destruct s as [|[a n x]]; [done|]. cbn [Nonce.lamports_per_signature]. intros Hx.
  cbn [ref_nonce_state ref_parse_nonce_state Nonce.authority Nonce.durable_nonce
       Nonce.lamports_per_signature app].
  rewrite <-!(assoc_L app). set (rest := u64_le x ++ l).
  rewrite take_app_length' by (by rewrite length_to_bytes).
  rewrite (drop_app_length' (to_bytes a) _ 32) by (by rewrite length_to_bytes).
  rewrite take_app_length' by (by rewrite length_to_bytes).
  rewrite (assoc_L app (to_bytes a)), (drop_app_length' (to_bytes a ++ to_bytes n) _ 64)
    by (rewrite length_app; by rewrite !length_to_bytes). subst rest.
  rewrite take_app_length' by (by rewrite length_u64_le).
  rewrite !Pubkey_new_to_bytes, length_u64_le, from_u64_le by done. done.
Qed.

#[global] Instance ref_nonce_bincode_spec : NonceBincodeSpec ref_nonce_bincode.
Proof.
  split.
  - intros [s|s] l Hs; cbn [Nonce.state] in Hs;
      cbn [bincode_serialize_nonce bincode_deserialize_nonce ref_nonce_bincode app];
      by rewrite ref_nonce_state_roundtrip.
  - intros [[|d]|[|d]]; cbn [bincode_serialize_nonce ref_nonce_bincode ref_nonce_state];
      rewrite ?length_app, ?length_to_bytes, ?length_u64_le; cbn; lia.
Qed.
