(* ===== verification/SystemProgram.v ===== *)
(** * The system program

    [runtime/src/system_instruction_processor.rs]: creating, assigning and
    allocating accounts and transferring lamports, over the context of a
    transaction, and the operations on nonce accounts it dispatches to. *)

From Stdlib Require Import Strings.Byte.
From S2P Require Import Prelude Sdk Rent Program SystemInstruction Transaction Nonce.

(** [create_with_seed(..)?] in a function that returns [InstructionError]. *)
Definition pubkey_error_code (e : PubkeyError) : Z :=
  match e with
  | PubkeyError.MaxSeedLengthExceeded => 0
  | PubkeyError.InvalidSeeds => 1
  | PubkeyError.IllegalOwner => 2
  end.
Definition instruction_error_of_pubkey_error (e : PubkeyError) : InstructionError :=
  instruction_error_from_u64 (pubkey_error_code e).

(** An address that may have been generated from a seed. *)
Record Address : Type := mkAddress {
  address : Pubkey;
  base : option Pubkey
}.

Module Address.

Definition is_signer (a : Address) (signers : gset Pubkey) : bool :=
  match base a with
  | Some base => bool_decide (base ∈ signers)
  | None => bool_decide (address a ∈ signers)
  end.

Definition create `{Crypto} (addr : Pubkey) (with_seed : option (Pubkey * list byte * Pubkey))
    : result InstructionError Address :=
  match with_seed with
  | Some (base, seed, owner) =>
      address_with_seed ←
        map_err instruction_error_of_pubkey_error (create_with_seed base seed owner);
      if negb (key_eqb addr address_with_seed)
      then Err (system_error AddressWithSeedMismatch)
      else Ok (mkAddress addr (Some base))
  | None => Ok (mkAddress addr None)
  end.

End Address.

Section system.
Context `{SystemBincode} `{NonceBincode} `{Crypto}.
Variable env : SystemEnv.

Definition allocate (account : BorrowedAccount) (address : Address) (space : Z)
    (signers : gset Pubkey) : TxM unit :=
  guard (Address.is_signer address signers) InstructionError.MissingRequiredSignature;;
  d ← BorrowedAccount.get_data account;
  o ← BorrowedAccount.get_owner account;
  guard (negb (negb (bool_decide (d = [])) || negb (key_eqb o system_program_id)))
    (system_error AccountAlreadyInUse);;
  guard (negb (MAX_PERMITTED_DATA_LENGTH <? space)) (system_error InvalidAccountDataLength);;
  BorrowedAccount.set_data account (replicate (Z.to_nat space) x00).

Definition assign (account : BorrowedAccount) (address : Address) (owner : Pubkey)
    (signers : gset Pubkey) : TxM unit :=
  o ← BorrowedAccount.get_owner account;
  if key_eqb o owner then mret tt
  else
    guard (Address.is_signer address signers) InstructionError.MissingRequiredSignature;;
    BorrowedAccount.set_owner account owner.

Definition allocate_and_assign (to : BorrowedAccount) (to_address : Address) (space : Z)
    (owner : Pubkey) (signers : gset Pubkey) : TxM unit :=
  allocate to to_address space signers;;
  assign to to_address owner signers.

Definition transfer_verified (ic : InstructionContext) (from_account_index to_account_index : nat)
    (lamports : Z) : TxM unit :=
  from ← reads (try_borrow_instruction_account ic from_account_index);
  d ← BorrowedAccount.get_data from;
  guard (bool_decide (d = [])) InstructionError.InvalidArgument;;
  l ← BorrowedAccount.get_lamports from;
  guard (negb (l <? lamports)) (system_error ResultWithNegativeLamports);;
  BorrowedAccount.checked_sub_lamports from lamports;;
  to ← reads (try_borrow_instruction_account ic to_account_index);
  BorrowedAccount.checked_add_lamports to lamports.

Definition transfer (ic : InstructionContext) (from_account_index to_account_index : nat)
    (lamports : Z) : TxM unit :=
  if negb (system_transfer_zero_check env) && (lamports =? 0) then mret tt
  else
    s ← reads (fun _ => is_instruction_account_signer ic from_account_index);
    guard s InstructionError.MissingRequiredSignature;;
    transfer_verified ic from_account_index to_account_index lamports.

(** [transaction_context.get_key_of_account_at_index(
      instruction_context.get_index_of_instruction_account_in_transaction(i)?)?] *)
Definition key_of_instruction_account (ic : InstructionContext) (i : nat) : TxM Pubkey :=
  reads (fun tc =>
    j ← get_index_of_instruction_account_in_transaction ic i;
    get_key_of_account_at_index tc j).

Definition transfer_with_seed (ic : InstructionContext)
    (from_account_index from_base_account_index : nat) (from_seed : list byte)
    (from_owner : Pubkey) (to_account_index : nat) (lamports : Z) : TxM unit :=
  if negb (system_transfer_zero_check env) && (lamports =? 0) then mret tt
  else
    s ← reads (fun _ => is_instruction_account_signer ic from_base_account_index);
    guard s InstructionError.MissingRequiredSignature;;
    from_base ← key_of_instruction_account ic from_base_account_index;
    address_from_seed ← reads (fun _ =>
      map_err instruction_error_of_pubkey_error (create_with_seed from_base from_seed from_owner));
    from_key ← key_of_instruction_account ic from_account_index;
    guard (key_eqb from_key address_from_seed) (system_error AddressWithSeedMismatch);;
    transfer_verified ic from_account_index to_account_index lamports.

Definition create_account (ic : InstructionContext) (from_account_index to_account_index : nat)
    (to_address : Address) (lamports space : Z) (owner : Pubkey) (signers : gset Pubkey)
    : TxM unit :=
  to ← reads (try_borrow_instruction_account ic to_account_index);
  l ← BorrowedAccount.get_lamports to;
  guard (negb (0 <? l)) (system_error AccountAlreadyInUse);;
  allocate_and_assign to to_address space owner signers;;
  transfer ic from_account_index to_account_index lamports.

(** ** [get_sysvar_with_account_check] ([program-runtime/src/sysvar_cache.rs]) *)
Definition check_sysvar_account (id : Pubkey) (ic : InstructionContext) (i : nat) : TxM unit :=
  k ← key_of_instruction_account ic i;
  guard (key_eqb k id) InstructionError.InvalidArgument.

Definition get_rent (ic : InstructionContext) (i : nat) : TxM Rent :=
  check_sysvar_account rent_sysvar_id ic i;;
  reads (fun _ => ok_or (cache_rent env) InstructionError.UnsupportedSysvar).

Definition get_recent_blockhashes (ic : InstructionContext) (i : nat) : TxM (list Hash) :=
  check_sysvar_account recent_blockhashes_sysvar_id ic i;;
  reads (fun _ => ok_or (cache_recent_blockhashes env) InstructionError.UnsupportedSysvar).

(** The address of instruction account [i], derived from a seed when one is given. *)
Definition address_of (ic : InstructionContext) (i : nat)
    (with_seed : option (Pubkey * list byte * Pubkey)) : TxM Address :=
  k ← key_of_instruction_account ic i;
  reads (fun _ => Address.create k with_seed).

Definition process_system_instruction (ic : InstructionContext) (signers : gset Pubkey)
    (instruction : SystemInstruction) : TxM unit :=
  let need n := reads (fun _ => check_number_of_instruction_accounts ic n) in
  let borrow i := reads (try_borrow_instruction_account ic i) in
  match instruction with
  | CreateAccount lamports space owner =>
      need 2%nat;;
      to_address ← address_of ic 1 None;
      create_account ic 0 1 to_address lamports space owner signers
  | CreateAccountWithSeed base seed lamports space owner =>
      need 2%nat;;
      to_address ← address_of ic 1 (Some (base, seed, owner));
      create_account ic 0 1 to_address lamports space owner signers
  | Assign owner =>
      need 1%nat;;
      account ← borrow 0%nat;
      address ← address_of ic 0 None;
      assign account address owner signers
  | Transfer lamports =>
      need 2%nat;;
      transfer ic 0 1 lamports
  | TransferWithSeed lamports from_seed from_owner =>
      need 3%nat;;
      transfer_with_seed ic 0 1 from_seed from_owner 2 lamports
  | AdvanceNonceAccount =>
      need 1%nat;;
      me ← borrow 0%nat;
      recent_blockhashes ← get_recent_blockhashes ic 1;
      guard (negb (bool_decide (recent_blockhashes = []))) (nonce_error NoRecentBlockhashes);;
      advance_nonce_account env me signers
  | WithdrawNonceAccount lamports =>
      need 2%nat;;
      get_recent_blockhashes ic 2;;
      rent ← get_rent ic 3;
      withdraw_nonce_account env ic 0 lamports 1 rent signers
  | InitializeNonceAccount authorized =>
      need 1%nat;;
      me ← borrow 0%nat;
      recent_blockhashes ← get_recent_blockhashes ic 1;
      guard (negb (bool_decide (recent_blockhashes = []))) (nonce_error NoRecentBlockhashes);;
      rent ← get_rent ic 2;
      initialize_nonce_account env me authorized rent
  | AuthorizeNonceAccount nonce_authority =>
      need 1%nat;;
      me ← borrow 0%nat;
      authorize_nonce_account env me nonce_authority signers
  | UpgradeNonceAccount =>
      need 1%nat;;
      nonce_account ← borrow 0%nat;
      o ← BorrowedAccount.get_owner nonce_account;
      guard (key_eqb o system_program_id) InstructionError.InvalidAccountOwner;;
      guard (BorrowedAccount.is_writable nonce_account) InstructionError.InvalidArgument;;
      nonce_versions ← get_state nonce_account;
      match Nonce.upgrade nonce_versions with
      | None => throw InstructionError.InvalidArgument
      | Some nonce_versions => set_state nonce_account nonce_versions
      end
  | Allocate space =>
      need 1%nat;;
      account ← borrow 0%nat;
      address ← address_of ic 0 None;
      allocate account address space signers
  | AllocateWithSeed base seed space owner =>
      need 1%nat;;
      account ← borrow 0%nat;
      address ← address_of ic 0 (Some (base, seed, owner));
      allocate_and_assign account address space owner signers
  | AssignWithSeed base seed owner =>
      need 1%nat;;
      account ← borrow 0%nat;
      address ← address_of ic 0 (Some (base, seed, owner));
      assign account address owner signers
  end.

Definition process_instruction : TxM unit :=
  ic ← reads get_current_instruction_context;
  instruction ← reads (fun _ => ok_or (limited_deserialize_system (instruction_data ic))
                                 InstructionError.InvalidInstructionData);
  signers ← reads (get_signers ic);
  process_system_instruction ic signers instruction.

End system.

Inductive SystemAccountKind : Type := SystemKind | NonceKind.

Definition get_system_account_kind `{NonceBincode} (account : Account) : option SystemAccountKind :=
  if key_eqb (acc_owner account) system_program_id then
    if bool_decide (acc_data account = []) then Some SystemKind
    else if Z.of_nat (length (acc_data account)) =? nonce_state_size then
      nonce_versions ← bincode_deserialize_nonce (acc_data account);
      match Nonce.state nonce_versions with
      | Nonce.Uninitialized => None
      | Nonce.Initialized _ => Some NonceKind
      end
    else None
  else None.
