(* ===== verification/SystemSafety.v ===== *)
(** * What the system program may do to an account

    Inversion lemmas for the operations of [SystemProgram] and [Nonce], and the
    theorems that the processor keeps the sum of all balances and debits,
    reassigns or overwrites an account only with the signature that controls it. *)

From Stdlib Require Import Strings.Byte.
From S2P Require Import Prelude Sdk Rent Program Borsh SystemInstruction Fixtures Transaction Nonce SystemProgram.

(** ** Changes of the accounts, index by index *)
Definition changes (Pl Po Pd : nat -> Prop) (l l' : list Account) : Prop :=
  forall i a, l !! i = Some a -> exists a', l' !! i = Some a' /\
    (acc_lamports a' < acc_lamports a -> Pl i) /\
    (acc_owner a' <> acc_owner a -> Po i) /\
    (acc_data a' <> acc_data a -> Pd i) /\
    acc_executable a' = acc_executable a /\ acc_rent_epoch a' = acc_rent_epoch a.

Lemma changes_refl Pl Po Pd l : changes Pl Po Pd l l.
Proof. intros i a Hi. exists a. split_and!; done || lia. Qed.

Lemma changes_trans Pl Po Pd l1 l2 l3 :
  changes Pl Po Pd l1 l2 -> changes Pl Po Pd l2 l3 -> changes Pl Po Pd l1 l3.
Proof.
  intros H12 H23 i a Hi. destruct (H12 i a Hi) as (b & Hb & Hl & Ho & Hd & He & Hr).
  destruct (H23 i b Hb) as (c & Hc & Hl' & Ho' & Hd' & He' & Hr').
  exists c. split_and!; [done| | | |congruence|congruence].
  - intros. destruct (Z.lt_ge_cases (acc_lamports b) (acc_lamports a)); [auto|]. apply Hl'. lia.
  - intros. destruct (decide (acc_owner b = acc_owner a)); [apply Ho'; congruence|auto].
  - intros. destruct (decide (acc_data b = acc_data a)); [apply Hd'; congruence|auto].
Qed.

Lemma changes_insert (Pl Po Pd : nat -> Prop) l i a a' :
  l !! i = Some a ->
  (acc_lamports a' < acc_lamports a -> Pl i) ->
  (acc_owner a' <> acc_owner a -> Po i) ->
  (acc_data a' <> acc_data a -> Pd i) ->
  acc_executable a' = acc_executable a -> acc_rent_epoch a' = acc_rent_epoch a ->
  changes Pl Po Pd l (<[i := a']> l).
Proof.
  intros Hi Hl Ho Hd He Hr j b Hj. destruct (decide (i = j)) as [<-|Hne].
  - assert (b = a) as -> by congruence. exists a'. split_and!; try done.
    rewrite list_lookup_insert_eq; [done|]. by eapply lookup_lt_Some.
  - exists b. rewrite list_lookup_insert_ne by done. split_and!; done || lia.
Qed.

(** The effect of moving lamports from one index to another, possibly the same. *)
Definition moves (i j : nat) (x : Z) (l l' : list Account) : Prop :=
  exists a b, l !! i = Some a /\ x <= acc_lamports a /\
    <[i := set_acc_lamports a (acc_lamports a - x)]> l !! j = Some b /\
    acc_lamports b + x <= U64_MAX /\
    l' = <[j := set_acc_lamports b (acc_lamports b + x)]>
           (<[i := set_acc_lamports a (acc_lamports a - x)]> l).

Lemma moves_sum i j x l l' : moves i j x l l' -> sum_lamports l' = sum_lamports l.
Proof.
  intros (a & b & Ha & _ & Hb & _ & ->).
  rewrite (sum_lamports_insert _ _ b), (sum_lamports_insert _ _ a) by done. cbn. lia.
Qed.

Lemma moves_length i j x l l' : moves i j x l l' -> length l' = length l.
Proof. intros (a & b & _ & _ & _ & _ & ->). by rewrite !length_insert. Qed.

Lemma moves_changes (Pl Po Pd : nat -> Prop) i j x l l' :
  moves i j x l l' -> 0 <= x -> (0 < x -> Pl i) -> changes Pl Po Pd l l'.
Proof.
  intros (a & b & Ha & _ & Hb & _ & ->) Hx Hp.
  apply changes_trans with (<[i := set_acc_lamports a (acc_lamports a - x)]> l).
  - apply (changes_insert _ _ _ _ _ a); cbn; try done. intros. apply Hp. lia.
  - apply (changes_insert _ _ _ _ _ b); cbn; try done. lia.
Qed.

(** ** Who controls an account *)
Section control.
Context `{NonceBincode} `{Crypto}.

(** The key signed, or it is derived from a base that signed. *)
Definition signs (signers : gset Pubkey) (k : Pubkey) : Prop :=
  k ∈ signers \/
  exists b seed o, b ∈ signers /\ create_with_seed b seed o = Ok k.

(** The authority of the nonce the account holds signed. *)
Definition nonce_authorised (signers : gset Pubkey) (a : Account) : Prop :=
  exists ver d, bincode_deserialize_nonce (acc_data a) = Some ver /\
    Nonce.state ver = Nonce.Initialized d /\ Nonce.authority d ∈ signers.

(** The account holds a nonce state that needs no signature to be overwritten. *)
Definition nonce_open (a : Account) : Prop :=
  exists ver, bincode_deserialize_nonce (acc_data a) = Some ver /\
    match ver with
    | Nonce.Current (Nonce.Initialized _) => False
    | _ => True
    end.

Definition may_assign (signers : gset Pubkey) (tc : TransactionContext) (i : nat) : Prop :=
  exists k, account_keys tc !! i = Some k /\ signs signers k.
Definition may_debit (signers : gset Pubkey) (tc : TransactionContext) (i : nat) : Prop :=
  may_assign signers tc i \/ exists a, accounts tc !! i = Some a /\ nonce_authorised signers a.
Definition may_write (signers : gset Pubkey) (tc : TransactionContext) (i : nat) : Prop :=
  may_debit signers tc i \/ exists a, accounts tc !! i = Some a /\ nonce_open a.

End control.

Section ops.
Context `{SystemBincode} `{NonceBincode} `{Crypto}.
Variable env : SystemEnv.

Lemma get_signers_ok ic tc signers :
  get_signers ic tc = Ok signers ->
  forall i ia, instruction_accounts ic !! i = Some ia -> ia_is_signer ia = true ->
    exists k, account_keys tc !! index_in_transaction ia = Some k /\ k ∈ signers.
Proof.
  unfold get_signers. generalize (instruction_accounts ic). intros l.
  assert (Hgen : forall acc, collect_signers tc l acc = Ok signers ->
    acc ⊆ signers /\
    forall i ia, l !! i = Some ia -> ia_is_signer ia = true ->
      exists k, account_keys tc !! index_in_transaction ia = Some k /\ k ∈ signers); [|by apply Hgen].
  induction l as [|ia l IH]; intros acc Hc; cbn in Hc.
  { injection Hc as ->. split; [done|]. intros i ? Hi. by rewrite lookup_nil in Hi. }
  destruct (ia_is_signer ia) eqn:Es.
  - apply result_bind_ok in Hc as (k & Hk & Hc). unfold key_at in Hk. apply unwrap_ok in Hk.
    destruct (IH _ Hc) as [Hsub Hin]. split; [set_solver|].
    intros [|i] ia' Hi Hs; cbn in Hi; [|by eapply Hin].
    injection Hi as <-. exists k. split; [done|]. set_solver.
  - destruct (IH _ Hc) as [Hsub Hin]. split; [done|].
    intros [|i] ia' Hi Hs; cbn in Hi; [congruence|by eapply Hin].
Qed.

Lemma key_of_instruction_account_ok ic i tc k tc' :
  key_of_instruction_account ic i tc = Ok (k, tc') ->
  tc' = tc /\ exists ia, instruction_accounts ic !! i = Some ia /\
    account_keys tc !! index_in_transaction ia = Some k.
Proof.
  unfold key_of_instruction_account. intros Hk. inv_tx. split; [done|].
  match goal with H : mbind _ _ = Ok _ |- _ => apply result_bind_ok in H as (j & Hj & Hk) end.
  unfold get_index_of_instruction_account_in_transaction in Hj.
  apply result_bind_ok in Hj as (ia & Hia & [= <-]). apply ok_or_ok in Hia, Hk. eauto.
Qed.

(** The address of an instruction account signs only if its key does. *)
Lemma address_of_ok ic i ws tc addr tc' signers :
  address_of ic i ws tc = Ok (addr, tc') ->
  tc' = tc /\ exists ia k, instruction_accounts ic !! i = Some ia /\
    account_keys tc !! index_in_transaction ia = Some k /\
    (Address.is_signer addr signers = true -> signs signers k).
Proof.
  unfold address_of. intros Ha. inv_tx.
  match goal with H : key_of_instruction_account _ _ _ = _ |- _ =>
    apply key_of_instruction_account_ok in H as (-> & ia & Hia & Hk) end.
  split; [done|]. exists ia, x. split_and!; try done.
  unfold Address.create, Address.is_signer in *. destruct ws as [[[b seed] o]|].
  - match goal with H : mbind _ _ = Ok _ |- _ => apply result_bind_ok in H as (d & Hd & Hc) end.
    apply map_err_ok in Hd. destruct (key_eqb x d) eqn:E; [|done]. apply key_eqb_eq in E as ->.
    injection Hc as <-. cbn. intros Hb. apply bool_decide_eq_true in Hb. right. eauto.
  - simplify_eq. cbn. intros Hb. apply bool_decide_eq_true in Hb. by left.
Qed.

Lemma allocate_ok b addr space signers tc u tc' :
  allocate b addr space signers tc = Ok (u, tc') ->
  exists a, accounts tc !! ba_index_in_transaction b = Some a /\
    Address.is_signer addr signers = true /\ acc_data a = [] /\
    acc_owner a = system_program_id /\ space <= MAX_PERMITTED_DATA_LENGTH /\
    writes tc (<[ba_index_in_transaction b := set_acc_data a (replicate (Z.to_nat space) x00)]>
                 (accounts tc)) tc'.
Proof.
  unfold allocate. intros Ha. inv_tx. simplify_eq. apply set_data_ok in Ha as (a & Ha & Hw).
  simplify_eq. eexists. split; [eassumption|]. repeat match goal with
  | H : negb _ = true |- _ => apply negb_true_iff in H
  | H : _ || _ = false |- _ => apply orb_false_iff in H as [? ?]
  | H : negb _ = false |- _ => apply negb_false_iff in H
  | H : bool_decide _ = true |- _ => apply bool_decide_eq_true in H
  | H : key_eqb _ _ = true |- _ => apply key_eqb_eq in H
  | H : (_ <? _) = false |- _ => apply Z.ltb_ge in H
  end. split_and!; done.
Qed.

Lemma assign_ok b addr owner signers tc u tc' :
  assign b addr owner signers tc = Ok (u, tc') ->
  exists a, accounts tc !! ba_index_in_transaction b = Some a /\
    (acc_owner a <> owner -> Address.is_signer addr signers = true) /\
    writes tc (<[ba_index_in_transaction b := set_acc_owner a owner]> (accounts tc)) tc'.
Proof.
  unfold assign. intros Ha. inv_tx. simplify_eq.
  match goal with H : accounts _ !! _ = Some ?a |- _ => exists a; split; [done|] end.
  destruct (key_eqb _ _) eqn:E.
  - apply key_eqb_eq in E. inv_tx. split; [done|]. rewrite list_insert_id; [apply writes_refl|].
    rewrite <-E. match goal with |- _ = Some (set_acc_owner ?a _) => by destruct a end.
  - inv_tx. apply set_owner_ok in Ha as (a & Ha & Hw). simplify_eq. split; [done|]. done.
Qed.

Lemma check_sysvar_account_ok id ic i tc u tc' :
  check_sysvar_account id ic i tc = Ok (u, tc') -> tc' = tc.
Proof.
  unfold check_sysvar_account. intros Hc. inv_tx. by apply key_of_instruction_account_ok in H2 as [-> _].
Qed.

Lemma get_recent_blockhashes_ok ic i tc l tc' :
  get_recent_blockhashes env ic i tc = Ok (l, tc') -> tc' = tc.
Proof. intros Hc. unfold get_recent_blockhashes in Hc. inv_tx. by eapply check_sysvar_account_ok. Qed.

Lemma get_rent_ok ic i tc r tc' : get_rent env ic i tc = Ok (r, tc') -> tc' = tc.
Proof. intros Hc. unfold get_rent in Hc. inv_tx. by eapply check_sysvar_account_ok. Qed.

(** Debiting one borrowed account and then crediting another. *)
Lemma sub_add_moves from ic t x tc1 u1 tc2 to u2 tc3 :
  BorrowedAccount.checked_sub_lamports from x tc1 = Ok (u1, tc2) ->
  try_borrow_instruction_account ic t tc2 = Ok to ->
  BorrowedAccount.checked_add_lamports to x tc2 = Ok (u2, tc3) ->
  exists ta l', instruction_accounts ic !! t = Some ta /\
    moves (ba_index_in_transaction from) (index_in_transaction ta) x (accounts tc1) l' /\
    writes tc1 l' tc3.
Proof.
  intros Hs Hb Ha. apply borrow_instruction_ok in Hb as (ta & ? & Hta & Hix & _).
  apply checked_sub_lamports_ok in Hs as (a & Hal & Hx & Hw).
  apply checked_add_lamports_ok in Ha as (b & Hbl & Hmax & Hw').
  rewrite (writes_accounts _ _ _ Hw), Hix in Hbl.
  rewrite (writes_accounts _ _ _ Hw), Hix in Hw'.
  eexists ta, _. split; [done|]. split; [|by eapply writes_trans]. by exists a, b.
Qed.

Lemma transfer_verified_ok ic f t x tc u tc' :
  transfer_verified ic f t x tc = Ok (u, tc') ->
  exists fa ta a l', instruction_accounts ic !! f = Some fa /\ instruction_accounts ic !! t = Some ta /\
    accounts tc !! index_in_transaction fa = Some a /\ acc_data a = [] /\
    moves (index_in_transaction fa) (index_in_transaction ta) x (accounts tc) l' /\
    writes tc l' tc'.
Proof.
  unfold transfer_verified. intros Ht. inv_tx.
  match goal with
  | Hs : BorrowedAccount.checked_sub_lamports _ _ _ = _, Hb : try_borrow_instruction_account ic t _ = _ |- _ =>
      destruct (sub_add_moves _ _ _ _ _ _ _ _ _ _ Hs Hb Ht) as (ta & l' & Hta & Hm & Hw)
  end.
  match goal with Hb : try_borrow_instruction_account ic f _ = _ |- _ =>
    apply borrow_instruction_ok in Hb as (fa & a & Hfa & Hix & Hacc & _) end.
  rewrite Hix in *. simplify_eq.
  match goal with Hd : bool_decide _ = true |- _ => apply bool_decide_eq_true in Hd end.
  eexists _, _, _, _. split_and!; try eassumption.
Qed.

Lemma borrow_ok ic i ia a tc :
  instruction_accounts ic !! i = Some ia -> accounts tc !! index_in_transaction ia = Some a ->
  try_borrow_instruction_account ic i tc
  = Ok (mkBorrowedAccount ic (index_in_transaction ia) (length (program_accounts ic) + i)).
Proof.
  intros Hi Ha. unfold try_borrow_instruction_account, get_index_of_instruction_account_in_transaction.
  rewrite Hi. cbn. unfold try_borrow_account. by rewrite Ha.
Qed.

(** Enough balance and room make the transfer succeed. *)
Lemma transfer_verified_pays ic fa ta a b x tc :
  instruction_accounts ic !! 0%nat = Some fa -> instruction_accounts ic !! 1%nat = Some ta ->
  accounts tc !! index_in_transaction fa = Some a -> acc_data a = [] -> 0 <= x <= acc_lamports a ->
  accounts tc !! index_in_transaction ta = Some b ->
  index_in_transaction fa <> index_in_transaction ta -> acc_lamports b + x <= U64_MAX ->
  transfer_verified ic 0 1 x tc = Ok (tt, with_accounts tc
    (<[index_in_transaction ta := set_acc_lamports b (acc_lamports b + x)]>
       (<[index_in_transaction fa := set_acc_lamports a (acc_lamports a - x)]> (accounts tc)))).
Proof.
  intros Hf Ht Ha Hd Hx Hb Hne Hmax. unfold transfer_verified.
  unfold BorrowedAccount.get_data, BorrowedAccount.get_lamports, BorrowedAccount.checked_sub_lamports,
    BorrowedAccount.checked_add_lamports, BorrowedAccount.get_lamports, BorrowedAccount.set_lamports,
    BorrowedAccount.set_cell, BorrowedAccount.cell, guard, reads, mbind, TxM_bind.
  rewrite (borrow_ok _ _ _ _ _ Hf Ha). cbn. rewrite Ha. cbn. rewrite Hd, bool_decide_eq_true_2 by done.
  cbn. rewrite Ha. cbn. destruct (Z.ltb_spec (acc_lamports a) x); [lia|]. cbn. rewrite Ha. cbn.
  rewrite (proj2 (checked_sub_some (acc_lamports a) x _)) by (split; [reflexivity|lia]). cbn.
  rewrite Ha. cbn. set (l1 := <[index_in_transaction fa := _]> (accounts tc)).
  assert (Hb' : l1 !! index_in_transaction ta = Some b) by (unfold l1; by rewrite list_lookup_insert_ne).
  rewrite (borrow_ok _ _ ta b (with_accounts tc l1) Ht Hb'). cbn. rewrite Hb'. cbn.
  rewrite (proj2 (checked_add_some (acc_lamports b) x _)) by done. cbn. rewrite Hb'. done.
Qed.

Lemma set_state_ok b st tc u tc' :
  set_state b st tc = Ok (u, tc') ->
  exists a, accounts tc !! ba_index_in_transaction b = Some a /\
    writes tc (<[ba_index_in_transaction b :=
                  set_acc_data a (write_prefix (bincode_serialize_nonce st) (acc_data a))]>
                 (accounts tc)) tc'.
Proof.
  unfold set_state. intros Hs. inv_tx. destruct (_ <? _)%nat; [done|].
  eauto using set_cell_ok.
Qed.

Lemma get_state_ok b tc ver tc' :
  get_state b tc = Ok (ver, tc') ->
  tc' = tc /\ exists a, accounts tc !! ba_index_in_transaction b = Some a /\
    bincode_deserialize_nonce (acc_data a) = Some ver.
Proof. unfold get_state. intros Hs. inv_tx. eauto. Qed.

(** ** The handlers

    [Pl], [Po] and [Pd] say which indices may be debited, reassigned and
    overwritten; whoever signs may do all three to its account. *)
Section handlers.
Variables (signers : gset Pubkey) (keys : list Pubkey) (Pl Po Pd : nat -> Prop).
Hypothesis Hperm : forall i k, keys !! i = Some k -> signs signers k -> Pl i /\ Po i /\ Pd i.

Record post (tc tc' : TransactionContext) : Prop := {
  post_changes : changes Pl Po Pd (accounts tc) (accounts tc');
  post_sum : sum_lamports (accounts tc') = sum_lamports (accounts tc);
  post_length : length (accounts tc') = length (accounts tc);
  post_writes : writes tc (accounts tc') tc'
}.

Lemma post_refl tc : post tc tc.
Proof. split; auto using changes_refl, writes_refl. Qed.

Lemma post_trans tc1 tc2 tc3 : post tc1 tc2 -> post tc2 tc3 -> post tc1 tc3.
Proof.
  intros [] []. split; [by eapply changes_trans|congruence|congruence|by eapply writes_trans].
Qed.

Lemma post_keys tc tc' : post tc tc' -> account_keys tc' = account_keys tc.
Proof. intros [_ _ _ Hw]. by eapply writes_keys. Qed.

(** Replacing one account by one with the same balance. *)
Lemma post_set tc i a a' tc' :
  accounts tc !! i = Some a -> writes tc (<[i := a']> (accounts tc)) tc' ->
  acc_lamports a' = acc_lamports a ->
  (acc_owner a' <> acc_owner a -> Po i) -> (acc_data a' <> acc_data a -> Pd i) ->
  acc_executable a' = acc_executable a -> acc_rent_epoch a' = acc_rent_epoch a ->
  post tc tc'.
Proof.
  intros Ha Hw Hl Ho Hd He Hr. pose proof (writes_accounts _ _ _ Hw) as Hacc. split; rewrite Hacc.
  - apply (changes_insert _ _ _ _ _ a); try done. lia.
  - by eapply sum_lamports_insert_eq.
  - apply length_insert.
  - done.
Qed.

Lemma post_moves tc i j x l' tc' :
  moves i j x (accounts tc) l' -> writes tc l' tc' -> 0 <= x -> (0 < x -> Pl i) -> post tc tc'.
Proof.
  intros Hm Hw Hx Hp. pose proof (writes_accounts _ _ _ Hw) as Hacc. split; rewrite Hacc.
  - by eapply moves_changes.
  - by eapply moves_sum.
  - by eapply moves_length.
  - done.
Qed.

Lemma allocate_post b addr space tc u tc' k :
  allocate b addr space signers tc = Ok (u, tc') ->
  keys !! ba_index_in_transaction b = Some k ->
  (Address.is_signer addr signers = true -> signs signers k) -> post tc tc'.
Proof.
  intros Ha Hk Hs. apply allocate_ok in Ha as (a & Ha & Hsig & _ & _ & _ & Hw).
  eapply post_set; try done. intros _. by eapply Hperm; [|apply Hs].
Qed.

Lemma assign_post b addr owner tc u tc' k :
  assign b addr owner signers tc = Ok (u, tc') ->
  keys !! ba_index_in_transaction b = Some k ->
  (Address.is_signer addr signers = true -> signs signers k) -> post tc tc'.
Proof.
  intros Ha Hk Hs. apply assign_ok in Ha as (a & Ha & Hsig & Hw).
  eapply post_set; try done. cbn. intros Hne. eapply Hperm; [done|]. apply Hs, Hsig. congruence.
Qed.

Lemma allocate_and_assign_post b addr space owner tc u tc' k :
  allocate_and_assign b addr space owner signers tc = Ok (u, tc') ->
  keys !! ba_index_in_transaction b = Some k ->
  (Address.is_signer addr signers = true -> signs signers k) -> post tc tc'.
Proof.
  unfold allocate_and_assign. intros Ha Hk Hs. inv_tx.
  eapply post_trans; [by eapply allocate_post|by eapply assign_post].
Qed.

Lemma transfer_verified_post ic f t x tc u tc' fa k :
  transfer_verified ic f t x tc = Ok (u, tc') -> 0 <= x ->
  instruction_accounts ic !! f = Some fa -> keys !! index_in_transaction fa = Some k ->
  signs signers k -> post tc tc'.
Proof.
  intros Ht Hx Hf Hk Hs. apply transfer_verified_ok in Ht as (fa' & ta & a & l' & Hf' & _ & _ & _ & Hm & Hw).
  simplify_eq. eapply post_moves; try done. intros _. by eapply Hperm.
Qed.

Variable ic : InstructionContext.
Hypothesis Hsig : forall i ia, instruction_accounts ic !! i = Some ia -> ia_is_signer ia = true ->
  exists k, keys !! index_in_transaction ia = Some k /\ k ∈ signers.

Lemma transfer_post f t x tc u tc' :
  transfer env ic f t x tc = Ok (u, tc') -> 0 <= x -> post tc tc'.
Proof.
  unfold transfer. intros Ht Hx. destruct (_ && _); [inv_tx; apply post_refl|]. inv_tx. subst.
  match goal with Hs : is_instruction_account_signer _ _ = Ok true |- _ =>
    apply result_bind_ok in Hs as (ia & Hia & Hflag); apply ok_or_ok in Hia; injection Hflag as Hflag end.
  destruct (Hsig _ _ Hia Hflag) as (k & Hk & Hin).
  eapply transfer_verified_post; try done. by left.
Qed.

Lemma transfer_with_seed_post f fb seed o t x tc u tc' :
  (forall i, account_keys tc !! i = keys !! i) ->
  transfer_with_seed env ic f fb seed o t x tc = Ok (u, tc') -> 0 <= x -> post tc tc'.
Proof.
  unfold transfer_with_seed. intros Hlk Ht Hx.
  destruct (_ && _); [inv_tx; apply post_refl|].
  inv_tx. subst.
  repeat match goal with Hk : key_of_instruction_account _ _ _ = Ok _ |- _ =>
    apply key_of_instruction_account_ok in Hk as (-> & ? & ? & ?) end.
  match goal with Hs : is_instruction_account_signer _ _ = Ok true |- _ =>
    apply result_bind_ok in Hs as (ia & Hia & Hflag); apply ok_or_ok in Hia; injection Hflag as Hflag end.
  destruct (Hsig _ _ Hia Hflag) as (k & Hk & Hin).
  match goal with Hd : map_err _ _ = Ok _ |- _ => apply map_err_ok in Hd end.
  match goal with Hd : key_eqb _ _ = true |- _ => apply key_eqb_eq in Hd end. subst.
  rewrite !Hlk in *. simplify_eq. eapply transfer_verified_post; try eassumption. right. eauto.
Qed.

Lemma create_account_post f t addr x space owner tc u tc' ta k :
  create_account env ic f t addr x space owner signers tc = Ok (u, tc') -> 0 <= x ->
  instruction_accounts ic !! t = Some ta -> keys !! index_in_transaction ta = Some k ->
  (Address.is_signer addr signers = true -> signs signers k) -> post tc tc'.
Proof.
  unfold create_account. intros Hc Hx Hta Hk Hs. inv_tx.
  match goal with Hb : try_borrow_instruction_account _ _ _ = _ |- _ =>
    apply borrow_instruction_ok in Hb as (ta' & a & Hta' & Hix & _) end.
  assert (ta' = ta) as -> by congruence. rewrite <-Hix in Hk.
  eapply post_trans; [by eapply allocate_and_assign_post|by eapply transfer_post].
Qed.

(** Overwriting the nonce state of an account. *)
Lemma set_state_post b st tc u tc' :
  set_state b st tc = Ok (u, tc') -> Pd (ba_index_in_transaction b) -> post tc tc'.
Proof. intros Hs Hp. apply set_state_ok in Hs as (a & Ha & Hw). by eapply post_set. Qed.

Lemma advance_post b tc u tc' :
  advance_nonce_account env b signers tc = Ok (u, tc') ->
  (forall a, accounts tc !! ba_index_in_transaction b = Some a -> nonce_authorised signers a ->
     Pd (ba_index_in_transaction b)) -> post tc tc'.
Proof.
  unfold advance_nonce_account. intros Ha Hp. inv_tx.
  match goal with Hg : get_state _ _ = _ |- _ => apply get_state_ok in Hg as (-> & a & Hal & Hd) end.
  destruct (Nonce.state _) eqn:Es; inv_tx; [].
  eapply set_state_post; [done|]. eapply Hp; [done|].
  match goal with Hb : bool_decide _ = true |- _ => apply bool_decide_eq_true in Hb end.
  eexists _, _. eauto.
Qed.

Lemma authorize_post b new tc u tc' :
  authorize_nonce_account env b new signers tc = Ok (u, tc') ->
  (forall a, accounts tc !! ba_index_in_transaction b = Some a -> nonce_authorised signers a ->
     Pd (ba_index_in_transaction b)) -> post tc tc'.
Proof.
  unfold authorize_nonce_account. intros Ha Hp. inv_tx.
  match goal with Hg : get_state _ _ = _ |- _ => apply get_state_ok in Hg as (-> & a & Hal & Hd) end.
  destruct (Nonce.authorize _ _ _) as [ver|[]|] eqn:Es; inv_tx; try done; [].
  eapply set_state_post; [done|]. eapply Hp; [done|]. unfold Nonce.authorize in Es.
  destruct (Nonce.state _) eqn:Est; [done|]. case_bool_decide; [|done]. eexists _, _. eauto.
Qed.

Lemma initialize_post b auth rent tc u tc' :
  initialize_nonce_account env b auth rent tc = Ok (u, tc') ->
  (forall a, accounts tc !! ba_index_in_transaction b = Some a -> nonce_open a ->
     Pd (ba_index_in_transaction b)) -> post tc tc'.
Proof.
  unfold initialize_nonce_account. intros Ha Hp. inv_tx.
  match goal with Hg : get_state _ _ = _ |- _ => apply get_state_ok in Hg as (-> & a & Hal & Hd) end.
  destruct (Nonce.state _) eqn:Es; inv_tx; []. eapply set_state_post; [done|]. apply (Hp _ Hal).
  eexists. split; [eassumption|].
  match type of Es with Nonce.state ?ver = _ => by destruct ver; cbn in Es; subst end.
Qed.

Lemma withdraw_nonce_post f x t rent tc u tc' :
  (forall i, account_keys tc !! i = keys !! i) ->
  withdraw_nonce_account env ic f x t rent signers tc = Ok (u, tc') -> 0 <= x ->
  (forall i a, accounts tc !! i = Some a -> nonce_authorised signers a -> Pl i /\ Pd i) ->
  post tc tc'.
Proof.
  unfold withdraw_nonce_account. intros Hlk Hw Hx Hp. inv_tx.
  match goal with
  | Hs : BorrowedAccount.checked_sub_lamports _ _ _ = _, Hb : try_borrow_instruction_account ic t _ = _ |- _ =>
      destruct (sub_add_moves _ _ _ _ _ _ _ _ _ _ Hs Hb Hw) as (ta & l' & Hta & Hm & Hw')
  end.
  match goal with Hg : get_state _ _ = _ |- _ => apply get_state_ok in Hg as (-> & a & Hal & Hd) end.
  match goal with Hb : bool_decide _ = true |- _ => apply bool_decide_eq_true in Hb as Hin end.
  match goal with Hs : withdraw_signer _ _ _ _ _ _ = _ |- _ => unfold withdraw_signer in Hs; inv_tx end.
  destruct (Nonce.state _) as [|d] eqn:Es.
  - inv_tx. match goal with Hk : key_at _ _ = Ok _ |- _ => unfold key_at in Hk end. inv_tx.
    eapply post_moves; try done. intros _. eapply Hperm; [by rewrite <-Hlk|by left].
  - inv_tx. assert (Hau : nonce_authorised signers a) by (eexists _, _; eauto).
    destruct (Hp _ _ Hal Hau) as [Hpl Hpd].
    destruct (_ =? _); inv_tx.
    + eapply post_trans; [by eapply set_state_post|]. by eapply post_moves.
    + by eapply post_moves.
Qed.

Lemma process_system_post i tc u tc' :
  (forall i, account_keys tc !! i = keys !! i) ->
  process_system_instruction env ic signers i tc = Ok (u, tc') -> system_instruction_wf i ->
  (forall i a, accounts tc !! i = Some a -> nonce_authorised signers a -> Pl i /\ Pd i) ->
  (forall i a, accounts tc !! i = Some a -> nonce_open a -> Pd i) ->
  post tc tc'.
Proof.
  intros Hlk Hi Hwf Hau Hop.
  destruct i; cbn [process_system_instruction] in Hi; cbn [system_instruction_wf] in Hwf;
  unfold is_u64 in Hwf; destruct_and?; inv_tx;
  repeat match goal with
  | Ha : address_of _ _ _ _ = Ok _ |- _ =>
      apply (address_of_ok _ _ _ _ _ _ signers) in Ha as (-> & ? & ? & ? & ? & ?)
  | Ha : get_recent_blockhashes _ _ _ _ = Ok _ |- _ => apply get_recent_blockhashes_ok in Ha as ->
  | Ha : get_rent _ _ _ _ = Ok _ |- _ => apply get_rent_ok in Ha as ->
  | Ha : try_borrow_instruction_account _ _ _ = Ok _ |- _ =>
      apply borrow_instruction_ok in Ha as (? & ? & ? & ? & ? & _)
  end; repeat match goal with Hk : account_keys tc !! _ = Some _ |- _ => rewrite Hlk in Hk end;
  simplify_eq; repeat match goal with Hb : ba_index_in_transaction ?b = _, Hk : keys !! _ = Some _ |- _ =>
    rewrite <-Hb in Hk end.
  - by eapply create_account_post.
  - by eapply assign_post.
  - by eapply transfer_post.
  - by eapply create_account_post.
  - eapply advance_post; [done|]. intros. by eapply Hau.
  - by eapply withdraw_nonce_post.
  - eapply initialize_post; [done|]. eauto.
  - eapply authorize_post; [done|]. intros. by eapply Hau.
  - by eapply allocate_post.
  - by eapply allocate_and_assign_post.
  - by eapply assign_post.
  - by eapply transfer_with_seed_post.
  - match goal with Hg : get_state _ _ = _ |- _ => apply get_state_ok in Hg as (-> & a & Hal & Hd) end.
    destruct (Nonce.upgrade _) eqn:Eu; inv_tx; [].
    eapply set_state_post; [done|]. eapply Hop; [exact Hal|]. eexists. split; [exact Hd|].
    match type of Eu with Nonce.upgrade ?ver = _ => by destruct ver as [[]|] end.
Qed.

End handlers.

End ops.

(** ** Effects on the accounts by address *)
Section refine.
Context `{SystemBincode} `{NonceBincode} `{Crypto}.
Variable env : SystemEnv.

Lemma moves_effect tc i j from to x a l' tc' :
  context_wf tc -> first_at (account_keys tc) i from -> first_at (account_keys tc) j to ->
  accounts tc !! i = Some a -> acc_data a = [] -> moves i j x (accounts tc) l' -> writes tc l' tc' ->
  transfer_effect from to x (all_accounts tc) = Some (all_accounts tc').
Proof.
  intros Hwf Hi Hj Ha Hd (a' & b & Ha' & Hx & Hb & Hmax & ->) Hw. simplify_eq.
  set (a1 := set_acc_lamports a (acc_lamports a - x)) in *.
  set (b1 := set_acc_lamports b (acc_lamports b + x)) in *.
  set (tc1 := with_accounts tc (<[i := a1]> (accounts tc))).
  assert (Hw1 : writes tc (<[i := a1]> (accounts tc)) tc1) by (by exists (total_resize_delta tc)).
  assert (Hwf1 : context_wf tc1) by (eapply context_wf_writes; [done..|]; by rewrite length_insert).
  assert (Hv1 : all_accounts tc1 = <[from := a1]> (all_accounts tc)) by (by eapply all_accounts_insert).
  assert (Hw2 : writes tc1 (<[j := b1]> (accounts tc1)) tc').
  { destruct Hw as [d ->]. by exists d. }
  assert (Hv2 : all_accounts tc' = <[to := b1]> (all_accounts tc1)) by (by eapply all_accounts_insert).
  assert (Hfrom : all_accounts tc !! from = Some a) by (apply all_accounts_lookup; eauto).
  assert (Hto : all_accounts tc1 !! to = Some b) by (apply all_accounts_lookup; eauto).
  unfold transfer_effect. destruct (Z.eqb_spec x 0) as [->|Hx0].
  - assert (a1 = a) as Ea by (unfold a1; by rewrite Z.sub_0_r, set_acc_lamports_id).
    assert (b1 = b) as Eb by (unfold b1; by rewrite Z.add_0_r, set_acc_lamports_id).
    rewrite Hv2, Hv1. rewrite Ea, Eb. rewrite Hv1, Ea in Hto. by rewrite !insert_id.
  - rewrite Hfrom. cbn [mbind option_bind]. rewrite bool_decide_eq_true_2 by done. cbn [negb orb].
    destruct (Z.ltb_spec (acc_lamports a) x); [lia|]. fold a1. rewrite <-Hv1, Hto.
    cbn [mbind option_bind]. rewrite (proj2 (checked_add_some _ _ _)) by done.
    cbn [mbind option_bind]. by rewrite Hv2.
Qed.

(** The key an instruction account refers to. *)
Definition ia_key (tc : TransactionContext) (ia : InstructionAccount) (k : Pubkey) : Prop :=
  first_at (account_keys tc) (index_in_transaction ia) k.

Lemma system_transfer_refines ic f t fa ta from to x tc u tc' :
  context_wf tc -> instruction_accounts ic !! f = Some fa -> instruction_accounts ic !! t = Some ta ->
  ia_key tc fa from -> ia_key tc ta to ->
  transfer env ic f t x tc = Ok (u, tc') ->
  transfer_effect from to x (all_accounts tc) = Some (all_accounts tc').
Proof.
  intros Hwf Hf Ht Hfrom Hto Htr. unfold transfer in Htr. destruct (_ && _) eqn:Ez.
  - inv_tx. apply andb_true_iff in Ez as [_ Ez]. unfold transfer_effect. by rewrite Ez.
  - inv_tx. apply transfer_verified_ok in Htr as (fa' & ta' & a & l' & Hf' & Ht' & Ha & Hd & Hm & Hw).
    simplify_eq. by eapply moves_effect.
Qed.

Lemma create_refines ic fa ta from to addr x space ow signers tc u tc' :
  context_wf tc -> (forall i a, accounts tc !! i = Some a -> 0 <= acc_lamports a) ->
  instruction_accounts ic !! 0%nat = Some fa -> instruction_accounts ic !! 1%nat = Some ta ->
  ia_key tc fa from -> ia_key tc ta to ->
  create_account env ic 0 1 addr x space ow signers tc = Ok (u, tc') ->
  create_account_effect from to x space ow (all_accounts tc) = Some (all_accounts tc').
Proof.
  intros Hwf Hnn Hf Ht Hfrom Hto Hc. unfold create_account, allocate_and_assign in Hc. inv_tx.
  match goal with Hb : try_borrow_instruction_account _ _ _ = _ |- _ =>
    apply borrow_instruction_ok in Hb as (ta' & a & Hta' & Hix & Hacc & _) end.
  assert (ta' = ta) as -> by congruence. rewrite Hix in *.
  match goal with Ha : allocate _ _ _ _ _ = _ |- _ =>
    apply allocate_ok in Ha as (b & Hb & _ & Hd & Ho & Hsp & Hw1) end.
  match goal with Ha : assign _ _ _ _ _ = _ |- _ =>
    apply assign_ok in Ha as (b2 & Hb2 & _ & Hw2) end.
  rewrite Hix in *. pose proof (Hnn _ _ Hb) as Hge.
  repeat match goal with H : accounts tc !! _ = Some ?c |- _ =>
    assert_fails (constr_eq c b); assert (c = b) as -> by congruence; clear H end.
  match goal with Hg : negb (0 <? acc_lamports b) = true |- _ =>
    apply negb_true_iff, Z.ltb_ge in Hg; assert (acc_lamports b = 0) as Hl0 by lia end.
  assert (Hlt : (index_in_transaction ta < length (accounts tc))%nat) by (by eapply lookup_lt_Some).
  rewrite (writes_accounts _ _ _ Hw1) in Hb2, Hw2.
  rewrite list_lookup_insert_eq in Hb2 by done. injection Hb2 as <-.
  rewrite list_insert_insert_eq in Hw2.
  pose proof (writes_trans _ _ _ _ _ Hw1 Hw2) as Hw.
  pose proof (all_accounts_insert _ _ _ _ _ Hwf Hto Hw) as Hv.
  assert (Hview : all_accounts tc !! to = Some b) by (apply all_accounts_lookup; eauto).
  unfold create_account_effect. rewrite Hview. cbn [mbind option_bind].
  rewrite bool_decide_eq_true_2 by done. destruct (Z.leb_spec space MAX_PERMITTED_DATA_LENGTH); [|lia].
  cbn [andb]. unfold created_account. rewrite <-Hv.
  pose proof (writes_keys _ _ _ Hw) as Hkeys.
  eapply system_transfer_refines; [| | | | |exact Hc]; try done.
  - eapply context_wf_writes; [done..|]. by rewrite length_insert.
  - unfold ia_key. by rewrite Hkeys.
  - unfold ia_key. by rewrite Hkeys.
Qed.

End refine.

Section claims.
Context `{SB : SystemBincode} `{NB : NonceBincode} `{CR : Crypto}.
Context {SBS : SystemBincodeSpec SB}.

Lemma process_inv env tc u tc' :
  process_instruction env tc = Ok (u, tc') ->
  exists ic i signers, get_current_instruction_context tc = Ok ic /\
    limited_deserialize_system (instruction_data ic) = Some i /\ system_instruction_wf i /\
    get_signers ic tc = Ok signers /\
    process_system_instruction env ic signers i tc = Ok (u, tc').
Proof.
  unfold process_instruction. intros Hp. inv_tx.
  eexists _, _, _. split_and!; try eassumption. by eapply bincode_system_range.
Qed.

(** C22: A successful instruction of the system program, of any of its thirteen kinds
    and with any accounts (repeated ones included), keeps the sum of all balances of the
    transaction, the number and keys of its accounts and the stack of instructions. *)
Theorem system_keeps_lamports (env : SystemEnv) (tc tc' : TransactionContext)
    (Hrun : process_instruction env tc = Ok (tt, tc')) :
  sum_lamports (accounts tc') = sum_lamports (accounts tc) /\
  length (accounts tc') = length (accounts tc) /\
  account_keys tc' = account_keys tc /\ instruction_stack tc' = instruction_stack tc /\
  instruction_trace tc' = instruction_trace tc.
Proof.
  apply process_inv in Hrun as (ic & i & signers & _ & _ & Hwf & Hs & Hp).
  destruct (process_system_post env signers (account_keys tc) (fun _ => True) (fun _ => True)
    (fun _ => True) ltac:(done) ic (get_signers_ok _ _ _ Hs) i tc tt tc' ltac:(done) Hp Hwf
    ltac:(done) ltac:(done)) as [Hc Hsum Hlen [d Hw]].
  split; [done|]. split; [done|]. by rewrite Hw.
Qed.

(** C30: A successful instruction of the system program lowers the balance of an account
    only if its key signed, or the base key of a seed that derives it did, or the
    authority of the nonce it holds did; it changes the owner of an account only with
    the signature of its key or of such a base, and its data only with one of these
    signatures or when it holds an uninitialized or a legacy nonce. The executable flag
    and the rent epoch never change. *)
Theorem system_needs_signature (env : SystemEnv) (tc tc' : TransactionContext)
    (Hrun : process_instruction env tc = Ok (tt, tc')) :
  exists ic signers, get_current_instruction_context tc = Ok ic /\
    get_signers ic tc = Ok signers /\
    changes (may_debit signers tc) (may_assign signers tc) (may_write signers tc)
      (accounts tc) (accounts tc').
Proof.
  apply process_inv in Hrun as (ic & i & signers & Hic & _ & Hwf & Hs & Hp).
  exists ic, signers. split_and!; [done..|].
  eapply (post_changes _ _ _ _ _ (process_system_post env signers (account_keys tc) _ _ _ _ ic
    (get_signers_ok _ _ _ Hs) i tc tt tc' ltac:(done) Hp Hwf _ _)).
  Unshelve.
  - intros j k Hk Hsg. assert (may_assign signers tc j) by (by exists k).
    unfold may_write, may_debit. auto.
  - intros j a Ha Hn. assert (may_debit signers tc j) by (right; eauto). unfold may_write. auto.
  - intros j a Ha Hn. right. eauto.
Qed.

(** C31: The system program keeps the promise the wallet contracts are verified against:
    a successful transfer or account creation has exactly the effect transfer_effect or
    create_account_effect on the store of accounts, and that effect is defined. *)
Theorem system_implements_interface (env : SystemEnv) (tc tc' : TransactionContext)
    (ic : InstructionContext) (fa ta : InstructionAccount) (rest : list InstructionAccount)
    (from to : Pubkey)
    (Hwf : context_wf tc) (Hnn : forall i a, accounts tc !! i = Some a -> 0 <= acc_lamports a)
    (Hic : get_current_instruction_context tc = Ok ic)
    (Hias : instruction_accounts ic = fa :: ta :: rest)
    (Hfrom : ia_key tc fa from) (Hto : ia_key tc ta to)
    (Hrun : process_instruction env tc = Ok (tt, tc')) :
  (forall x, is_u64 x -> instruction_data ic = bincode_serialize_system (Transfer x) ->
     transfer_effect from to x (all_accounts tc) = Some (all_accounts tc')) /\
  (forall x space ow, is_u64 x -> is_u64 space ->
     instruction_data ic = bincode_serialize_system (CreateAccount x space ow) ->
     create_account_effect from to x space ow (all_accounts tc) = Some (all_accounts tc')).
Proof.
  apply process_inv in Hrun as (ic' & i & signers & Hic' & Hi & _ & _ & Hp).
  assert (ic' = ic) as -> by congruence. split.
  - intros x Hx Hd. rewrite Hd, bincode_system_roundtrip in Hi by done. injection Hi as <-.
    cbn [process_system_instruction] in Hp. inv_tx.
    eapply (system_transfer_refines env ic 0 1 fa ta); [done|by rewrite Hias|by rewrite Hias|done..].
  - intros x space ow Hx Hsp Hd. rewrite Hd, bincode_system_roundtrip in Hi by done.
    injection Hi as <-. cbn [process_system_instruction] in Hp. inv_tx.
    match goal with Ha : address_of _ _ _ _ = _ |- _ =>
      apply (address_of_ok _ _ _ _ _ _ signers) in Ha as (-> & _) end.
    eapply (create_refines env ic fa ta); [done|done|by rewrite Hias|by rewrite Hias|done..].
Qed.

(** C32: A transfer of the system program whose source signed, carries no data and has
    the balance, to another account that does not overflow, does succeed and moves
    exactly the amount. *)
Theorem system_transfer_pays (env : SystemEnv) (tc : TransactionContext) (ic : InstructionContext)
    (fa ta : InstructionAccount) (signers : gset Pubkey) (a b : Account) (x : Z)
    (Hic : get_current_instruction_context tc = Ok ic)
    (Hias : instruction_accounts ic = [fa; ta])
    (Hd : instruction_data ic = bincode_serialize_system (Transfer x)) (Hx : is_u64 x)
    (Hsig : get_signers ic tc = Ok signers) (Hsigner : ia_is_signer fa = true)
    (Ha : accounts tc !! index_in_transaction fa = Some a) (Hdata : acc_data a = [])
    (Hbal : x <= acc_lamports a) (Hb : accounts tc !! index_in_transaction ta = Some b)
    (Hne : index_in_transaction fa <> index_in_transaction ta)
    (Hmax : acc_lamports b + x <= U64_MAX) (Hpos : 0 < x) :
  process_instruction env tc = Ok (tt, with_accounts tc
    (<[index_in_transaction ta := set_acc_lamports b (acc_lamports b + x)]>
       (<[index_in_transaction fa := set_acc_lamports a (acc_lamports a - x)]> (accounts tc)))).
Proof.
  unfold process_instruction. apply tx_bind_ok. exists ic, tc. split; [by apply reads_ok|].
  apply tx_bind_ok. exists (Transfer x), tc. split.
  { apply reads_ok. rewrite Hd, bincode_system_roundtrip by done. done. }
  apply tx_bind_ok. exists signers, tc. split; [by apply reads_ok|]. cbn [process_system_instruction].
  apply tx_bind_ok. exists tt, tc. split.
  { apply reads_ok. unfold check_number_of_instruction_accounts. by rewrite Hias. }
  unfold transfer. destruct (Z.eqb_spec x 0); [lia|]. rewrite andb_false_r.
  apply tx_bind_ok. exists true, tc. split.
  { apply reads_ok. unfold is_instruction_account_signer. rewrite Hias. cbn. by rewrite Hsigner. }
  apply tx_bind_ok. exists tt, tc. split; [by apply guard_ok|].
  apply (transfer_verified_pays ic fa ta); try done; [by rewrite Hias|by rewrite Hias|lia].
Qed.

End claims.

(** ** Instances *)
#[global] Existing Instance ref_nonce_bincode.

Definition ex_env : SystemEnv :=
  mkSystemEnv true true (toy_key 9) 5000 (Some Rent_default) (Some [toy_key 8]).

Definition ex_payer : Pubkey := toy_key 101.
Definition ex_payee : Pubkey := toy_key 102.

Definition ex_ia (i : nat) (signer : bool) : InstructionAccount :=
  mkInstructionAccount i i i signer true.

(** A transaction with one running system instruction [data] on the payer and the
    payee; both sign.  The program is loaded after the accounts of the message. *)
Definition ex_frame (i : SystemInstruction) : InstructionContext :=
  mkInstructionContext 0 [3%nat] [ex_ia 0 true; ex_ia 1 true] (bincode_serialize_system i).

Definition ex_context (i : SystemInstruction) : TransactionContext :=
  mkTransactionContext [ex_payer; ex_payee; system_program_id; system_program_id]
    [toy_account 1000 [] system_program_id; toy_account 0 [] system_program_id;
     toy_account 0 [] system_program_id; mkAccount 1 [] native_loader_id true 0]
    5 [0%nat] 1 [[ex_frame i]] (mkReturnData Pubkey_default []) 10000000 0.

Lemma process_eval env tc :
  match process_instruction env tc with Ok _ => true | _ => false end = true ->
  exists tc', process_instruction env tc = Ok (tt, tc').
Proof. destruct (process_instruction env tc) as [[[] tc']| |]; [eauto|done..]. Qed.

Lemma system_keeps_lamports_witness :
  exists tc', process_instruction ex_env (ex_context (CreateAccount 300 16 (toy_key 7))) = Ok (tt, tc') /\
    sum_lamports (accounts tc') = 1001.
Proof.
  destruct (process_eval ex_env (ex_context (CreateAccount 300 16 (toy_key 7)))) as [tc' E]; [vm_true|].
  destruct (system_keeps_lamports _ _ _ E) as [Hs _]. exists tc'. exact (conj E Hs).
Defined.

Lemma system_needs_signature_witness :
  exists tc' ic signers,
    process_instruction ex_env (ex_context (Transfer 300)) = Ok (tt, tc') /\
    get_signers ic (ex_context (Transfer 300)) = Ok signers /\
    changes (may_debit signers (ex_context (Transfer 300)))
      (may_assign signers (ex_context (Transfer 300)))
      (may_write signers (ex_context (Transfer 300)))
      (accounts (ex_context (Transfer 300))) (accounts tc').
Proof.
  destruct (process_eval ex_env (ex_context (Transfer 300))) as [tc' E]; [vm_true|].
  destruct (system_needs_signature _ _ _ E) as (ic & signers & _ & Hs & Hc).
  exists tc', ic, signers. exact (conj E (conj Hs Hc)).
Defined.

Lemma ex_context_wf i : context_wf (ex_context i).
Proof. done. Qed.

Lemma ex_context_key i j k :
  [ex_payer; ex_payee; system_program_id] !! j = Some k -> first_at (account_keys (ex_context i)) j k.
Proof.
  intros Hj. apply (distinct_first [ex_payer; ex_payee; system_program_id] [system_program_id]).
  - apply (bool_decide_unpack _). vm_compute. exact I.
  - by eapply lookup_lt_Some.
  - by apply lookup_app_l_Some.
Qed.

Lemma ex_context_nonneg i : forall j a, accounts (ex_context i) !! j = Some a -> 0 <= acc_lamports a.
Proof. intros [|[|[|[|j]]]] a Ha; cbn in Ha; simplify_eq; done. Qed.

Lemma system_implements_interface_witness :
  exists tc', process_instruction ex_env (ex_context (Transfer 300)) = Ok (tt, tc') /\
    transfer_effect ex_payer ex_payee 300 (all_accounts (ex_context (Transfer 300))) = Some (all_accounts tc').
Proof.
  destruct (process_eval ex_env (ex_context (Transfer 300))) as [tc' E]; [vm_true|].
  destruct (system_implements_interface ex_env (ex_context (Transfer 300)) tc' (ex_frame (Transfer 300))
    (ex_ia 0 true) (ex_ia 1 true) [] ex_payer ex_payee (ex_context_wf _) (ex_context_nonneg _)
    eq_refl eq_refl (ex_context_key _ 0 _ eq_refl) (ex_context_key _ 1 _ eq_refl) E) as [Ht _].
  exists tc'. exact (conj E (Ht 300 ltac:(by apply is_u64b_spec) eq_refl)).
Defined.

Lemma system_transfer_pays_witness :
  exists tc', process_instruction ex_env (ex_context (Transfer 300)) = Ok (tt, tc') /\
    sum_lamports (accounts tc') = 1001.
Proof.
  eexists. split.
  - apply (system_transfer_pays ex_env (ex_context (Transfer 300)) (ex_frame (Transfer 300))
      (ex_ia 0 true) (ex_ia 1 true) ({[ex_payee]} ∪ ({[ex_payer]} ∪ ∅))
      (toy_account 1000 [] system_program_id) (toy_account 0 [] system_program_id) 300);
      try reflexivity; try (by apply is_u64b_spec); vm_compute; discriminate.
  - vm_compute. reflexivity.
Defined.
