(* ===== verification/AssociatedSafety.v ===== *)
(** * What the associated token account and memo programs promise

    A created account is the token account of its wallet and mint at the derived address, whatever
    was at the address before and whoever pays; the two system instructions the creation needs
    beyond those of the wallet contracts are an interface that the system program implements.
    Accepted memos are text. *)

From Stdlib Require Import Strings.Byte.
From S2P Require Import Prelude Sdk Rent Program Borsh SystemInstruction Fixtures TokenState TokenInstruction TokenProcessor TokenFacts TokenSupply TokenSpec TokenSafety VendoredToken TokenCalls Level4 Transaction Nonce SystemProgram SystemSafety AssociatedToken.

(** ** Allocating and assigning *)
Definition allocate_effect (k : Pubkey) (space : Z) (v : view) : option view :=
  a ← v !! k;
  if bool_decide (acc_data a = [] /\ acc_owner a = system_program_id) && (space <=? MAX_PERMITTED_DATA_LENGTH)
  then Some (<[k := set_acc_data a (replicate (Z.to_nat space) x00)]> v) else None.

Definition assign_effect (k ow : Pubkey) (v : view) : option view :=
  a ← v !! k; Some (<[k := set_acc_owner a ow]> v).

Class AllocationCpi `{SystemBincode} (cpi : cpi_handler) : Prop := {
  sys_allocate k space infos ss v v' :
    is_u64 space -> cpi (SystemInstruction.allocate k space) infos ss v = Ok v' -> allocate_effect k space v = Some v';
  sys_assign k ow infos ss v v' :
    cpi (SystemInstruction.assign k ow) infos ss v = Ok v' -> assign_effect k ow v = Some v'
}.

Section system.
Context `{SB : SystemBincode} `{NB : NonceBincode} `{CR : Crypto}.
Context {SBS : SystemBincodeSpec SB}.

Lemma written_view tc i k a b tc' :
  context_wf tc -> first_at (account_keys tc) i k -> accounts tc !! i = Some a ->
  writes tc (<[i := b]> (accounts tc)) tc' ->
  all_accounts tc !! k = Some a /\ all_accounts tc' = <[k := b]> (all_accounts tc).
Proof. intros Hwf Hk Ha Hw. split; [apply all_accounts_lookup; eauto|by eapply all_accounts_insert]. Qed.

(** The system program implements the interface of allocation: a successful allocation or assignment
    has exactly the effect [allocate_effect] or [assign_effect] on the store of accounts. *)
Theorem system_implements_allocation (env : SystemEnv) (tc tc' : TransactionContext)
    (ic : InstructionContext) (ia : InstructionAccount) (rest : list InstructionAccount) (k : Pubkey)
    (Hwf : context_wf tc) (Hic : get_current_instruction_context tc = Ok ic)
    (Hias : instruction_accounts ic = ia :: rest) (Hk : ia_key tc ia k)
    (Hrun : SystemProgram.process_instruction env tc = Ok (tt, tc')) :
  (forall space, is_u64 space -> instruction_data ic = bincode_serialize_system (Allocate space) ->
     allocate_effect k space (all_accounts tc) = Some (all_accounts tc')) /\
  (forall ow, instruction_data ic = bincode_serialize_system (Assign ow) ->
     assign_effect k ow (all_accounts tc) = Some (all_accounts tc')).
Proof.
  apply process_inv in Hrun as (ic' & i & signers & Hic' & Hi & _ & _ & Hp).
  assert (ic' = ic) as -> by congruence. split.
  - intros space Hx Hd. rewrite Hd, bincode_system_roundtrip in Hi by done. injection Hi as <-.
    cbn [process_system_instruction] in Hp. inv_tx.
    match goal with Hb : try_borrow_instruction_account _ _ _ = _ |- _ =>
      apply borrow_instruction_ok in Hb as (ia' & a & Hia & Hix & Ha & _) end.
    rewrite Hias in Hia. injection Hia as <-.
    match goal with Ha : address_of _ _ _ _ = _ |- _ => apply (address_of_ok _ _ _ _ _ _ signers) in Ha as (-> & _) end.
    apply allocate_ok in Hp as (b & Hb & _ & Hdata & Ho & Hsp & Hw). rewrite Hix in *.
    destruct (written_view _ _ _ _ _ _ Hwf Hk Hb Hw) as [Hv ->]. unfold allocate_effect. rewrite Hv.
    cbn [mbind option_bind]. rewrite bool_decide_eq_true_2 by done. by destruct (Z.leb_spec space MAX_PERMITTED_DATA_LENGTH); [|lia].
  - intros ow Hd. rewrite Hd, bincode_system_roundtrip in Hi by done. injection Hi as <-.
    cbn [process_system_instruction] in Hp. inv_tx.
    match goal with Hb : try_borrow_instruction_account _ _ _ = _ |- _ =>
      apply borrow_instruction_ok in Hb as (ia' & a & Hia & Hix & Ha & _) end.
    rewrite Hias in Hia. injection Hia as <-.
    match goal with Ha : address_of _ _ _ _ = _ |- _ => apply (address_of_ok _ _ _ _ _ _ signers) in Ha as (-> & _) end.
    apply assign_ok in Hp as (b & Hb & _ & Hw). rewrite Hix in *.
    destruct (written_view _ _ _ _ _ _ Hwf Hk Hb Hw) as [Hv ->]. unfold assign_effect. by rewrite Hv.
Qed.
End system.

(** ** Creating a derived account *)

(** The account [new] was without data and unowned; now it has [space] zero bytes, belongs to [ow] and is
    rent exempt; [payer] paid the difference. *)
Definition pda_created (payer new : Pubkey) (minimum space : Z) (ow : Pubkey) (v v' : view) : Prop :=
  exists a b, v !! new = Some a /\ acc_data a = [] /\ acc_owner a = system_program_id /\
    v' !! new = Some b /\ acc_data b = replicate (Z.to_nat space) x00 /\ acc_owner b = ow /\
    acc_lamports b = Z.max (acc_lamports a) minimum /\ total_lamports v' = total_lamports v /\
    forall k c', k <> new -> v' !! k = Some c' -> exists c, v !! k = Some c /\
      acc_data c' = acc_data c /\ acc_owner c' = acc_owner c /\ (k <> payer -> c' = c) /\
      (k = payer -> acc_lamports c' = acc_lamports c - (acc_lamports b - acc_lamports a)).

Section creation.
Context {B : BorshCrate} {CR : Crypto} {SV : Sysvars} {SB : SystemBincode}.
Context (cpi : cpi_handler) (Hsystem : SystemCpi cpi) (Halloc : AllocationCpi cpi).

(** Topping up, allocating and assigning. *)
Lemma funded_created payer new x space ow v v1 v2 v' a :
  payer <> new -> 0 <= x -> v !! new = Some a ->
  transfer_effect payer new x v = Some v1 -> allocate_effect new space v1 = Some v2 ->
  assign_effect new ow v2 = Some v' -> pda_created payer new (acc_lamports a + x) space ow v v'.
Proof.
  intros Hne Hx Ha Ht Hal Has. unfold allocate_effect in Hal. apply bind_Some in Hal as (a1 & Ha1 & Hal).
  case_bool_decide as Hd; [|done]. destruct Hd as [Hd Ho]. destruct (space <=? _); [|done]. injection Hal as <-.
  unfold assign_effect in Has. rewrite lookup_insert_eq in Has. injection Has as <-.
  destruct (proj1 (transfer_effect_lookup _ _ _ _ _ new Ht Hx) a1 Ha1) as (a' & Ha' & Hd' & Ho' & _ & Hl & _).
  rewrite Ha in Ha'. injection Ha' as <-. specialize (Hl Hne eq_refl).
  set (b := set_acc_owner _ ow). exists a, b. rewrite lookup_insert_eq, insert_insert_eq.
  split_and!; try done; [congruence..|cbn; lia| |].
  - rewrite (total_lamports_insert _ _ a1) by done. cbn. rewrite (transfer_effect_total _ _ _ _ _ Ht). lia.
  - intros k c' Hk Hc. rewrite lookup_insert_ne in Hc by done.
    destruct (proj1 (transfer_effect_lookup _ _ _ _ _ k Ht Hx) c' Hc) as (c & Hc0 & Hcd & Hco & Hsame & _ & Hpay).
    exists c. split_and!; try done; [intros; by apply Hsame|]. intros ->. rewrite Hpay by done. cbn. lia.
Qed.

Lemma create_pda_account_ok payer rent space ow system new seeds v u v' :
  key payer <> key new -> is_u64 space ->
  run cpi (AssociatedToken.create_pda_account payer rent space ow system new seeds v) = Ok (u, v') ->
  pda_created (key payer) (key new) (Z.max (minimum_balance rent space) 1) space ow v v'.
Proof.
  intros Hne Hs Hrun. pose proof (minimum_balance_range rent space) as [Hm0 Hm1].
  unfold AssociatedToken.create_pda_account in Hrun. apply run_bind_ok in Hrun as (l & w & Hl & Hrun).
  apply run_with_cell_ok in Hl as (-> & a & Ha & ->). destruct (Z.ltb_spec 0 (acc_lamports a)) as [Hpos|Hzero].
  - apply run_bind_ok in Hrun as (l & w & Hl & Hrun). apply run_with_cell_ok in Hl as (-> & a' & Ha' & ->).
    rewrite Ha in Ha'. injection Ha' as <-. cbv zeta in Hrun. set (x := Z.max 0 _) in Hrun.
    apply run_bind_ok in Hrun as (u1 & v1 & Ht & Hrun). apply run_bind_ok in Hrun as (u2 & v2 & Hal & Has).
    apply run_invoke_signed_ok in Hal, Has. apply sys_allocate in Hal; [|done]. apply sys_assign in Has.
    assert (transfer_effect (key payer) (key new) x v = Some v1) as Htr.
    { destruct (Z.ltb_spec 0 x).
      - apply run_invoke_signed_ok in Ht. apply sys_transfer in Ht; [done|]. unfold is_u64, U64_MAX in *. lia.
      - injection Ht as _ <-. unfold transfer_effect. by destruct (Z.eqb_spec x 0); [|lia]. }
    destruct (funded_created _ _ x _ _ _ _ _ _ a Hne ltac:(lia) Ha Htr Hal Has)
      as (a0 & b & Ha0 & Hd & Ho & Hb & Hbd & Hbo & Hbl & Htot & Hoth).
    rewrite Ha in Ha0. injection Ha0 as <-. exists a, b. split_and!; try done. lia.
  - apply run_invoke_signed_ok in Hrun.
    assert (is_u64 (Z.max (minimum_balance rent space) 1)) as Hx by (unfold is_u64, U64_MAX in *; lia).
    destruct (sys_created cpi _ _ _ _ _ _ _ _ _ Hsystem Hx Hs Hrun)
      as [(b & Hb & Hbl & Hbo & Hbd) Htot (a' & Ha' & Hal & Had & Hao) Hoth _].
    rewrite Ha in Ha'. injection Ha' as <-. exists a, b. split_and!; try done; [lia|].
    intros k c' Hk Hc. destruct (Hoth k c' Hk Hc) as (c & Hc0 & Hcd & Hco & Hsame & Hpay).
    exists c. split_and!; try done. intros ->. rewrite Hpay by done. lia.
Qed.
End creation.

(** ** The token account *)
Section program.
Context {B : BorshCrate} {CR : Crypto} {SV : Sysvars} {SB : SystemBincode}.

(** The call of the token program that initializes the account. *)
Lemma initialize_account3_call cpi tid account mint own ix infos ss v v' :
  runs_program cpi spl_token_id process -> (forall a, v !! account = Some a -> is_u64 (acc_lamports a)) ->
  initialize_account3 tid account mint own = Ok ix -> cpi ix infos ss v = Ok v' ->
  tid = spl_token_id /\ token_account_made account mint own v v'.
Proof.
  intros Hrun Hl Hix Hcpi. unfold initialize_account3, token_ix in Hix.
  apply result_bind_ok in Hix as (u & Hid & ->%ok_eq). unfold check_program_account in Hid.
  apply ensure_ok, key_eqb_eq in Hid as ->. split; [done|].
  apply Hrun in Hcpi; [|done]. unfold process in Hcpi.
  apply prog_bind_ok in Hcpi as (i & w & Hi & H). apply lift_ok in Hi as [Hi ->].
  change (TokenInstruction_unpack (TokenInstruction_pack (InitializeAccount3 own)) = Ok i) in Hi.
  rewrite <-(app_nil_r (TokenInstruction_pack _)), token_unpack_pack in Hi by done. injection Hi as <-.
  cbv beta iota in H. unfold callee_infos in H. cbn [ix_accounts] in H. rewrite !fmap_cons in H.
  apply initialize_account_makes in H as (ni & mi & rest & o & Hacc & -> & H); [|intros ? ? [= <-]; apply Hl].
  apply cons_eq_inv in Hacc as [<- Hacc]. by apply cons_eq_inv in Hacc as [<- _].
Qed.

(** C33: When the associated token account program succeeds, its calls answered by
    programs that keep the promises of the system and token programs, the second account
    is at the address derived from the wallet and the mint; it was an empty account of
    the system program and is now an initialized token account of the wallet for the
    mint, holding the rent-exempt minimum or the lamports it already had if those are
    more; the payer paid the difference, lamports are conserved and no other account
    changed. *)
Theorem associated_account_created (cpi : cpi_handler) (pid : Pubkey)
    (funder_info account_info wallet_info mint_info system_info token_info : AccountInfo) (rest : list AccountInfo)
    (input : list byte) (v v' : view)
    (Hsystem : SystemCpi cpi) (Halloc : AllocationCpi cpi) (Htoken : runs_program cpi spl_token_id process)
    (Hrange : forall k a, v !! k = Some a -> is_u64 (acc_lamports a)) (Hfunder : key funder_info <> key account_info)
    (Hrun : run cpi (AssociatedToken.process_instruction pid
              (funder_info :: account_info :: wallet_info :: mint_info :: system_info :: token_info :: rest) input v)
            = Ok (tt, v')) :
  key token_info = spl_token_id /\
  fst <$> AssociatedToken.get_associated_token_address_and_bump_seed (key wallet_info) (key mint_info) pid
    = Some (key account_info) /\
  exists rent a b t, cached_rent = Some rent /\
    v !! key account_info = Some a /\ acc_data a = [] /\ acc_owner a = system_program_id /\
    v' !! key account_info = Some b /\ acc_owner b = spl_token_id /\
    acc_lamports b = Z.max (acc_lamports a) (Z.max (minimum_balance rent 165) 1) /\
    unpack (acc_data b) = Ok t /\ ta_mint t = key mint_info /\ ta_owner t = key wallet_info /\
    ta_state t = Initialized /\ ta_delegate t = None /\ (key mint_info <> native_mint_id -> ta_amount t = 0) /\
    total_lamports v' = total_lamports v /\
    forall k c', k <> key account_info -> v' !! k = Some c' -> exists c, v !! k = Some c /\
      acc_data c' = acc_data c /\ acc_owner c' = acc_owner c /\ (k <> key funder_info -> c' = c) /\
      (k = key funder_info -> acc_lamports c' = acc_lamports c - (acc_lamports b - acc_lamports a)).
Proof.
  unfold AssociatedToken.process_instruction in Hrun. apply run_bind_ok in Hrun as ([] & w & Hi & Hrun).
  apply run_lift_ok in Hi as [_ ->]. unfold AssociatedToken.process_create_associated_token_account in Hrun.
  inv_run.
  match goal with H : run cpi (Rent_get v) = Ok (?r, _) |- _ =>
    unfold Rent_get in H; apply run_lift_ok in H as [Hrent%ok_or_ok ->]; rename r into rent end.
  match goal with H : run cpi (AssociatedToken.create_pda_account _ _ _ _ _ _ _ v) = Ok (_, ?v1) |- _ =>
    apply create_pda_account_ok in H as (c & b1 & Hc & Hcd & Hco & Hb1 & Hd1 & Ho1 & Hl1 & Ht1 & Hoth); [|done..|by apply is_u64b_spec];
    rename v1 into w end.
  match goal with H : initialize_account3 _ _ _ _ = Ok _ |- _ => rename H into Hix end.
  assert (forall x1, w !! key a0 = Some x1 -> is_u64 (acc_lamports x1)) as Hu.
  { intros x1 Hx1. rewrite Hb1 in Hx1. injection Hx1 as <-. rewrite Hl1. pose proof (Hrange _ _ Hc) as [? ?].
    pose proof (minimum_balance_range rent (Z.of_nat (LEN (T:=TokenAccount)))) as [? ?]. unfold is_u64, U64_MAX in *. lia. }
  destruct (initialize_account3_call _ _ _ _ _ _ _ _ _ _ Htoken Hu Hix Hrun)
    as [Hid (b2 & d & t & Hb2 & -> & Ht & Hm & Hown & Hst & Hdel & Hamt)].
  rewrite Hb1 in Hb2. injection Hb2 as <-. rewrite Hid in *. split; [done|]. split.
  { unfold AssociatedToken.get_associated_token_address_and_bump_seed.
    by match goal with H : _ = Some (_, _) |- _ => rewrite H end. }
  exists rent, c, (set_acc_data b1 d), t. rewrite lookup_insert_eq, (total_lamports_set_data _ _ b1) by done.
  change (Z.of_nat (LEN (T:=TokenAccount))) with 165 in Hl1.
  split_and!; [exact Hrent|exact Hc|exact Hcd|exact Hco|reflexivity|exact Ho1|exact Hl1|exact Ht|exact Hm|exact Hown
    |exact Hst|exact Hdel|intros Hn; by apply Hamt|exact Ht1|]. intros k c' Hk Hc'. rewrite lookup_insert_ne in Hc' by done. by apply Hoth.
Qed.
End program.

(** ** An example *)

(** The handler of level 4 that also allocates and assigns. *)
Definition allocating_cpi : cpi_handler := fun ix infos ss v =>
  if key_eqb (ix_program_id ix) system_program_id then
    match limited_deserialize_system (ix_data ix), ix_accounts ix with
    | Some (Allocate space), [m] => ok_or (allocate_effect (am_pubkey m) space v) ProgramError.InvalidArgument
    | Some (Assign ow), [m] => ok_or (assign_effect (am_pubkey m) ow v) ProgramError.InvalidArgument
    | _, _ => token_and_system ix infos ss v
    end
  else token_and_system ix infos ss v.

Lemma allocating_system : SystemCpi allocating_cpi.
Proof.
  split; intros; unfold allocating_cpi in *; cbn [ix_program_id SystemInstruction.transfer SystemInstruction.create_account
    system_instruction ix_data ix_accounts] in *; rewrite key_eqb_refl, bincode_system_roundtrip in * by done;
    [by eapply (sys_transfer (cpi := token_and_system))|by eapply (sys_create_account (cpi := token_and_system))].
Qed.

Lemma allocating_allocates : AllocationCpi allocating_cpi.
Proof.
  split; intros; unfold allocating_cpi in *; cbn [ix_program_id SystemInstruction.allocate SystemInstruction.assign
    system_instruction ix_data ix_accounts] in *; rewrite key_eqb_refl, bincode_system_roundtrip in * by done;
    by match goal with H : ok_or _ _ = Ok _ |- _ => apply ok_or_ok in H end.
Qed.

Lemma allocating_token : runs_program allocating_cpi spl_token_id process.
Proof.
  intros ix infos ss v v' Hp H. unfold allocating_cpi, token_and_system in H. rewrite Hp in H.
  replace (key_eqb spl_token_id system_program_id) with false in H by vm_true. rewrite key_eqb_refl in H.
  by destruct (process _ _ _ _) as [ [] ?| | |]; simplify_eq.
Qed.

Definition at_wallet : Pubkey := toy_key 71.
Definition at_funder : Pubkey := toy_key 72.
Definition at_account : Pubkey :=
  the_key (fst <$> AssociatedToken.get_associated_token_address_and_bump_seed at_wallet ex_mint AssociatedToken.id).

(** Somebody sent a few lamports to the address before. *)
Definition at_store : view :=
  <[at_account := toy_account 5 [] system_program_id]>
  (<[at_funder := toy_account 5000000 [] system_program_id]> ex_tokens).

Lemma at_store_range k a : at_store !! k = Some a -> is_u64 (acc_lamports a).
Proof.
  intros Hk. apply is_u64b_spec. revert k a Hk.
  apply (map_Forall_insert_2 (fun _ a => is_u64b (acc_lamports a) = true)); [vm_compute; reflexivity|].
  apply (map_Forall_insert_2 (fun _ a => is_u64b (acc_lamports a) = true)); [vm_compute; reflexivity|].
  apply (bool_decide_unpack _). vm_compute. exact I.
Qed.

Lemma associated_account_created_witness :
  exists v' b, run allocating_cpi (AssociatedToken.process_instruction AssociatedToken.id
      [wr_signer at_funder; wr at_account; rd at_wallet; rd ex_mint; rd system_program_id; rd spl_token_id] [] at_store)
    = Ok (tt, v') /\ v' !! at_account = Some b /\ acc_owner b = spl_token_id /\ total_lamports v' = total_lamports at_store.
Proof.
  destruct (run_result (run allocating_cpi (AssociatedToken.process_instruction AssociatedToken.id
      [wr_signer at_funder; wr at_account; rd at_wallet; rd ex_mint; rd system_program_id; rd spl_token_id] [] at_store)))
    as [v' E]; [vm_true|].
  destruct (associated_account_created allocating_cpi AssociatedToken.id (wr_signer at_funder) (wr at_account) (rd at_wallet)
    (rd ex_mint) (rd system_program_id) (rd spl_token_id) [] [] at_store v' allocating_system allocating_allocates
    allocating_token at_store_range ltac:(by vm_compute) E)
    as (_ & _ & rent & a & b & t & _ & _ & _ & _ & Hb & Ho & _ & _ & _ & _ & _ & _ & _ & Htot & _).
  exists v', b. exact (conj E (conj Hb (conj Ho Htot))).
Defined.

(** ** Memos are text *)

(** The characters of Unicode and their form in UTF-8. *)
Definition scalar (c : Z) : Prop := 0 <= c < 0xd800 \/ 0xe000 <= c <= 0x10ffff.
Definition utf8 (c : Z) : list byte :=
  if c <? 0x80 then [u8_of c]
  else if c <? 0x800 then [u8_of (0xc0 + c / 64); u8_of (0x80 + c mod 64)]
  else if c <? 0x10000 then [u8_of (0xe0 + c / 4096); u8_of (0x80 + c / 64 mod 64); u8_of (0x80 + c mod 64)]
  else [u8_of (0xf0 + c / 262144); u8_of (0x80 + c / 4096 mod 64); u8_of (0x80 + c / 64 mod 64); u8_of (0x80 + c mod 64)].

Lemma between_iff lo hi b : Memo.between lo hi b = true <-> lo <= u8_val b <= hi.
Proof. unfold Memo.between. rewrite andb_true_iff, !Z.leb_le. lia. Qed.

(** Decides the comparisons of a goal about the parts of a character. *)
Ltac decide_parts :=
  repeat match goal with
  | |- context [?a <? ?b] => destruct (Z.ltb_spec a b); try (exfalso; Z.to_euclidean_division_equations; lia)
  | |- context [?a =? ?b] => destruct (Z.eqb_spec a b); try (exfalso; Z.to_euclidean_division_equations; lia)
  | |- context [?a <=? ?b] => destruct (Z.leb_spec a b); try (exfalso; Z.to_euclidean_division_equations; lia)
  end; try done.

(** Reading one character. *)
Lemma from_utf8_character c rest : scalar c -> Memo.from_utf8 (utf8 c ++ rest) = Memo.from_utf8 rest.
Proof.
  intros Hc. unfold scalar in Hc. unfold utf8.
  destruct (Z.ltb_spec c 0x80); [|destruct (Z.ltb_spec c 0x800); [|destruct (Z.ltb_spec c 0x10000)]];
    cbn [app Memo.from_utf8]; unfold Memo.continuation, Memo.between, Memo.second_low, Memo.second_high;
    rewrite !u8_val_of, !Z.mod_small by (Z.to_euclidean_division_equations; lia); decide_parts.
Qed.

Ltac same_bytes := repeat f_equal; apply u8_of_eq; Z.to_euclidean_division_equations; lia.

(** The character of some bytes. *)
Lemma utf8_bytes1 b : u8_val b < 0x80 -> exists x, scalar x /\ utf8 x = [b].
Proof.
  pose proof (u8_val_range b). intros Hb. exists (u8_val b). unfold scalar, utf8. split; [lia|]. decide_parts. same_bytes.
Qed.

Lemma utf8_bytes2 b c : Memo.between 0xc2 0xdf b = true -> Memo.continuation c = true ->
  exists x, scalar x /\ utf8 x = [b; c].
Proof.
  unfold Memo.continuation. rewrite !between_iff. intros Hb Hc. exists ((u8_val b - 0xc0) * 64 + (u8_val c - 0x80)).
  unfold scalar, utf8. split; [lia|]. decide_parts. same_bytes.
Qed.

Lemma utf8_bytes3 b c d :
  Memo.between 0xe0 0xef b = true -> Memo.between (Memo.second_low b) (Memo.second_high b) c = true ->
  Memo.continuation d = true -> exists x, scalar x /\ utf8 x = [b; c; d].
Proof.
  unfold Memo.continuation, Memo.second_low, Memo.second_high. rewrite !between_iff. intros Hb Hc Hd.
  exists ((u8_val b - 0xe0) * 4096 + (u8_val c - 0x80) * 64 + (u8_val d - 0x80)). unfold scalar, utf8.
  repeat match type of Hc with context [?x =? ?y] => destruct (Z.eqb_spec x y) end; try lia;
    (split; [lia|]); decide_parts; same_bytes.
Qed.

Lemma utf8_bytes4 b c d e :
  Memo.between 0xf0 0xf4 b = true -> Memo.between (Memo.second_low b) (Memo.second_high b) c = true ->
  Memo.continuation d = true -> Memo.continuation e = true -> exists x, scalar x /\ utf8 x = [b; c; d; e].
Proof.
  unfold Memo.continuation, Memo.second_low, Memo.second_high. rewrite !between_iff. intros Hb Hc Hd He.
  exists ((u8_val b - 0xf0) * 262144 + (u8_val c - 0x80) * 4096 + (u8_val d - 0x80) * 64 + (u8_val e - 0x80)).
  unfold scalar, utf8.
  repeat match type of Hc with context [?x =? ?y] => destruct (Z.eqb_spec x y) end; try lia;
    (split; [lia|]); decide_parts; same_bytes.
Qed.

(** The input is the form of some text. *)
Definition is_text (input : list byte) : Prop := exists text, Forall scalar text /\ input = concat (map utf8 text).

Lemma text_cons input rest : (exists x, scalar x /\ utf8 x = input) -> is_text rest -> is_text (input ++ rest).
Proof. intros (x & Hx & <-) (text & Ht & ->). exists (x :: text). split; [by constructor|done]. Qed.

Lemma from_utf8_text n : forall input, (length input <= n)%nat -> Memo.from_utf8 input = true -> is_text input.
Proof.
  induction n as [|n IH]; intros input Hn H.
  { destruct input; [by exists []|cbn in Hn; lia]. }
  destruct input as [|b rest]; [by exists []|]. cbn [Memo.from_utf8] in H. cbn [length] in Hn.
  destruct (Z.ltb_spec (u8_val b) 0x80).
  { apply (text_cons [b]); [by apply utf8_bytes1|]. apply IH; [lia|done]. }
  destruct (Memo.between 0xc2 0xdf b) eqn:H2.
  { destruct rest as [|c rest]; [done|]. apply andb_true_iff in H as [Hc H]. cbn [length] in Hn.
    apply (text_cons [b; c]); [by apply utf8_bytes2|]. apply IH; [lia|done]. }
  destruct (Memo.between 0xe0 0xef b) eqn:H3.
  { destruct rest as [|c [|d rest] ]; [done..|]. apply andb_true_iff in H as [ [Hc Hd]%andb_true_iff H]. cbn [length] in Hn.
    apply (text_cons [b; c; d]); [by apply utf8_bytes3|]. apply IH; [lia|done]. }
  destruct (Memo.between 0xf0 0xf4 b) eqn:H4; [|done].
  destruct rest as [|c [|d [|e rest] ] ]; [done..|].
  apply andb_true_iff in H as [ [ [Hc Hd]%andb_true_iff He]%andb_true_iff H]. cbn [length] in Hn.
  apply (text_cons [b; c; d; e]); [by apply utf8_bytes4|]. apply IH; [lia|done].
Qed.

Lemma from_utf8_iff input : Memo.from_utf8 input = true <-> is_text input.
Proof.
  split; [by apply (from_utf8_text (length input))|]. intros (text & Ht & ->).
  induction Ht as [|c text Hc _ IH]; [done|]. cbn [map concat]. by rewrite from_utf8_character.
Qed.

(** A memo is accepted exactly if all its accounts signed and its data is text in UTF-8, and it changes
    nothing. *)
Theorem memo_accepts (pid : Pubkey) (accounts : list AccountInfo) (input : list byte) (v v' : view) :
  Memo.process_instruction pid accounts input v = TOk tt v' <->
  v' = v /\ Forall (fun a => is_signer a = true) accounts /\ is_text input.
Proof.
  unfold Memo.process_instruction. rewrite prog_bind_ok, <-from_utf8_iff.
  assert (negb (existsb (fun a => negb (is_signer a)) accounts) = true <-> Forall (fun a => is_signer a = true) accounts) as Hs.
  { induction accounts as [|a l IH]; [done|]. cbn [existsb]. rewrite negb_orb, negb_involutive, andb_true_iff, IH, Forall_cons_iff. done. }
  split.
  - intros ([] & w & H1 & H2). apply lift_ok in H1 as [H1%ensure_ok ->]. apply lift_ok in H2 as [H2%ensure_ok ->].
    by rewrite <-Hs.
  - intros (-> & H1 & H2). exists tt, v. by rewrite !lift_ok, !ensure_ok, Hs.
Qed.
