(* ===== verification/Runtime.v ===== *)
(** * The program runtime

    [program-runtime/src/pre_account.rs] (the check of an account after a program
    ran), [accounts_data_meter.rs], [invoke_context.rs] (the stack of running
    programs, the check of privileges in cross-program invocations, the
    verification before and after every call).

    The code of a program is a tree of accesses to the transaction: it may read
    everything, write the accounts of its instruction, and invoke other programs.
    Timing, logging and compute metering do not influence the accounts and are
    left out. *)

From Stdlib Require Import Strings.Byte.
From S2P Require Import Prelude Sdk Rent Program SystemInstruction Transaction.

(** ** [pre_account.rs] *)
Record PreAccount : Type := mkPreAccount {
  pre_key : Pubkey;
  pre_account : Account;
  pre_changed : bool
}.

Module PreAccount.

Definition new (key : Pubkey) (account : Account) : PreAccount := mkPreAccount key account false.

Definition ZEROS_LEN : nat := 1024.

(** [chunks_exact(ZEROS_LEN)] and its remainder; [fuel] bounds the number of chunks. *)
Fixpoint zero_chunks (fuel : nat) (buf : list byte) : bool :=
  if (length buf <? ZEROS_LEN)%nat then bool_decide (buf = replicate (length buf) x00)
  else match fuel with
       | O => false
       | S fuel => bool_decide (take ZEROS_LEN buf = replicate ZEROS_LEN x00)
                   && zero_chunks fuel (drop ZEROS_LEN buf)
       end.

Definition is_zeroed (buf : list byte) : bool := zero_chunks (length buf) buf.

Definition verify (pre : PreAccount) (program_id : Pubkey) (is_writable : bool) (rent : Rent)
    (post : Account) : result InstructionError unit :=
  let pre := pre_account pre in
  let is_owner := key_eqb program_id (acc_owner pre) in
  let owner_changed := negb (key_eqb (acc_owner pre) (acc_owner post)) in
  ensure (negb (owner_changed && (negb is_writable || acc_executable pre || negb is_owner
                                  || negb (is_zeroed (acc_data post)))))
    InstructionError.ModifiedProgramId;;
  ensure (negb (negb is_owner && (acc_lamports post <? acc_lamports pre)))
    InstructionError.ExternalAccountLamportSpend;;
  let lamports_changed := negb (acc_lamports pre =? acc_lamports post) in
  (if lamports_changed then
     ensure is_writable InstructionError.ReadonlyLamportChange;;
     ensure (negb (acc_executable pre)) InstructionError.ExecutableLamportChange
   else Ok tt);;
  ensure (negb (MAX_PERMITTED_DATA_LENGTH <? Z.of_nat (length (acc_data post))))
    InstructionError.InvalidRealloc;;
  let data_len_changed := negb (length (acc_data pre) =? length (acc_data post))%nat in
  ensure (negb (data_len_changed && negb is_owner)) InstructionError.AccountDataSizeChanged;;
  (if negb (is_owner && is_writable && negb (acc_executable pre))
      && negb (bool_decide (acc_data pre = acc_data post)) then
     if acc_executable pre then Err InstructionError.ExecutableDataModified
     else if is_writable then Err InstructionError.ExternalAccountDataModified
     else Err InstructionError.ReadonlyDataModified
   else Ok tt);;
  (if negb (Bool.eqb (acc_executable pre) (acc_executable post)) then
     ensure (is_exempt rent (acc_lamports post) (Z.of_nat (length (acc_data post))))
       InstructionError.ExecutableAccountNotRentExempt;;
     ensure (negb (negb is_writable || acc_executable pre
                   || negb (key_eqb program_id (acc_owner post))))
       InstructionError.ExecutableModified
   else Ok tt);;
  ensure (acc_rent_epoch pre =? acc_rent_epoch post) InstructionError.RentEpochModified.

Definition update (pre : PreAccount) (account : Account) : PreAccount :=
  mkPreAccount (pre_key pre)
    (mkAccount (acc_lamports account) (acc_data account) (acc_owner account)
       (acc_executable account) (acc_rent_epoch (pre_account pre))) true.

End PreAccount.

(** ** [accounts_data_meter.rs] *)
Record AccountsDataMeter : Type := mkMeter {
  meter_maximum : Z;
  meter_initial : Z;
  meter_delta : Z
}.

Definition MAX_ACCOUNTS_DATA_LEN : Z := 128000000000.

Module AccountsDataMeter.

Definition new (initial_accounts_data_len : Z) : AccountsDataMeter :=
  mkMeter MAX_ACCOUNTS_DATA_LEN initial_accounts_data_len 0.

(** [saturating_add_signed(lhs: u64, rhs: i64)] *)
Definition saturating_add_signed (lhs rhs : Z) : Z :=
  let sum := lhs + as_u64 rhs in
  let overflow := U64_MAX <? sum in
  if Bool.eqb overflow (rhs <? 0) then wrap64 sum
  else if overflow then U64_MAX else 0.

Definition current (m : AccountsDataMeter) : Z :=
  saturating_add_signed (meter_initial m) (meter_delta m).

Definition remaining (m : AccountsDataMeter) : Z := saturate_u64 (meter_maximum m - current m).

Definition adjust_delta_unchecked (m : AccountsDataMeter) (amount : Z) : AccountsDataMeter :=
  mkMeter (meter_maximum m) (meter_initial m) (saturate_i64 (meter_delta m + amount)).

Definition adjust_delta (m : AccountsDataMeter) (amount : Z)
    : result InstructionError AccountsDataMeter :=
  if as_i64 (remaining m) <? amount then Err InstructionError.MaxAccountsDataSizeExceeded
  else Ok (adjust_delta_unchecked m amount).

End AccountsDataMeter.

(** ** [invoke_context.rs] *)
Record Features : Type := mkFeatures {
  record_instruction_in_transaction_context_push : bool;
  cap_accounts_data_len : bool;
  prevent_calling_precompiles_as_programs : bool
}.

Record InvokeContext : Type := mkInvokeContext {
  transaction_context : TransactionContext;
  ic_rent : Rent;
  pre_accounts : list PreAccount;
  max_invoke_depth : nat;
  accounts_data_meter : AccountsDataMeter;
  features : Features
}.

Definition InvokeContext_new (tc : TransactionContext) (rent : Rent) (max_invoke_depth : nat)
    (features : Features) (initial_accounts_data_len : Z) : InvokeContext :=
  mkInvokeContext tc rent [] max_invoke_depth
    (AccountsDataMeter.new initial_accounts_data_len) features.

Definition with_tc (ic : InvokeContext) (tc : TransactionContext) : InvokeContext :=
  mkInvokeContext tc (ic_rent ic) (pre_accounts ic) (max_invoke_depth ic)
    (accounts_data_meter ic) (features ic).
Definition with_pre (ic : InvokeContext) (pre : list PreAccount) : InvokeContext :=
  mkInvokeContext (transaction_context ic) (ic_rent ic) pre (max_invoke_depth ic)
    (accounts_data_meter ic) (features ic).
Definition with_pre_meter (ic : InvokeContext) (pre : list PreAccount) (m : AccountsDataMeter)
    : InvokeContext :=
  mkInvokeContext (transaction_context ic) (ic_rent ic) pre (max_invoke_depth ic) m (features ic).

(** [u128] sums of lamports. *)
Definition U128_MAX : Z := 2 ^ 128 - 1.
Definition add_u128 (a b : Z) : result InstructionError Z :=
  if a + b <=? U128_MAX then Ok (a + b) else Err InstructionError.UnbalancedInstruction.

(** [mapM] in the [result] monad, in order. *)
Fixpoint collect {A B} (f : A -> result InstructionError B) (l : list A)
    : result InstructionError (list B) :=
  match l with
  | [] => Ok []
  | x :: l => y ← f x; ys ← collect f l; Ok (y :: ys)
  end.

(** The accounts an instruction names for the first time, with their position. *)
Fixpoint first_occurrences (i : nat) (l : list InstructionAccount) : list InstructionAccount :=
  match l with
  | [] => []
  | ia :: l =>
      if (i =? index_in_callee ia)%nat then ia :: first_occurrences (S i) l
      else first_occurrences (S i) l
  end.

(** The [PreAccount] of an instruction account. *)
Definition pre_account_of (tc : TransactionContext) (ia : InstructionAccount)
    : result InstructionError PreAccount :=
  ensure (index_in_transaction ia <? length (accounts tc))%nat InstructionError.MissingAccount;;
  a ← get_account_at_index tc (index_in_transaction ia);
  k ← get_key_of_account_at_index tc (index_in_transaction ia);
  Ok (PreAccount.new k a).

(** Whether the program of stack level [level] is [program_id]: an error is [false]. *)
Definition runs_at (tc : TransactionContext) (program_id : Pubkey) (level : nat)
    : result InstructionError bool :=
  match get_instruction_context_at tc level with
  | Ok c =>
      match try_borrow_last_program_account c tc with
      | Ok b => k ← key_at tc (ba_index_in_transaction b); Ok (key_eqb k program_id)
      | _ => Ok false
      end
  | _ => Ok false
  end.

(** [(0..height).any(..)], stopping at the first hit. *)
Fixpoint runs_below (tc : TransactionContext) (program_id : Pubkey) (level height : nat)
    : result InstructionError bool :=
  match height with
  | O => Ok false
  | S height =>
      b ← runs_at tc program_id level;
      if (b : bool) then Ok true else runs_below tc program_id (S level) height
  end.

(** The keys and accounts behind the indices, which [push] collects. *)
Definition keyed_account (tc : TransactionContext) (index : nat)
    : result InstructionError (Pubkey * Account) :=
  k ← get_key_of_account_at_index tc index;
  a ← get_account_at_index tc index;
  Ok (k, a).

Module InvokeContext.

Definition get_stack_height (ic : InvokeContext) : nat :=
  get_instruction_context_stack_height (transaction_context ic).

Definition push (instruction_accounts : list InstructionAccount) (program_indices : list nat)
    (instruction_data : list byte) (ic : InvokeContext) : result InstructionError InvokeContext :=
  let tc := transaction_context ic in
  let record := record_instruction_in_transaction_context_push (features ic) in
  ensure (negb (negb record && (max_invoke_depth ic <? get_stack_height ic)%nat))
    InstructionError.CallDepth;;
  program_index ← ok_or (head (rev program_indices)) InstructionError.UnsupportedProgramId;
  program_id ← get_key_of_account_at_index tc program_index;
  ic ← if (get_stack_height ic =? 0)%nat then
         pre ← collect (pre_account_of tc) (first_occurrences 0 instruction_accounts);
         Ok (with_pre ic pre)
       else
         contains ← runs_below tc program_id 0 (get_stack_height ic);
         is_last ← runs_at tc program_id (pred (get_stack_height ic));
         ensure (negb (contains && negb is_last)) InstructionError.ReentrancyNotAllowed;;
         Ok ic;
  collect (keyed_account tc) program_indices;;
  collect (fun ia => keyed_account tc (index_in_transaction ia)) instruction_accounts;;
  tc ← TransactionContext.push program_indices instruction_accounts instruction_data record tc;
  Ok (with_tc ic tc).

Definition pop (ic : InvokeContext) : result InstructionError InvokeContext :=
  tc ← TransactionContext.pop (transaction_context ic);
  Ok (with_tc ic tc).

(** The change of the length of an account, on the meter. *)
Definition meter_change (ic : InvokeContext) (m : AccountsDataMeter) (pre post : list byte)
    : result InstructionError AccountsDataMeter :=
  let delta := saturate_i64 (as_i64 (Z.of_nat (length post)) - as_i64 (Z.of_nat (length pre))) in
  if cap_accounts_data_len (features ic) then AccountsDataMeter.adjust_delta m delta
  else Ok (AccountsDataMeter.adjust_delta_unchecked m delta).

(** The loop of [verify] over the first occurrences [l] and the pre-accounts left. *)
Fixpoint verify_loop (ic : InvokeContext) (program_id : Pubkey) (l : list InstructionAccount)
    (pre : list PreAccount) (pre_sum post_sum : Z) (m : AccountsDataMeter)
    : result InstructionError (Z * Z * AccountsDataMeter) :=
  match l with
  | [] => Ok (pre_sum, post_sum, m)
  | ia :: l =>
      post ← get_account_at_index (transaction_context ic) (index_in_transaction ia);
      match pre with
      | [] => Err InstructionError.NotEnoughAccountKeys
      | p :: pre =>
          PreAccount.verify p program_id (ia_is_writable ia) (ic_rent ic) post;;
          pre_sum ← add_u128 pre_sum (acc_lamports (pre_account p));
          post_sum ← add_u128 post_sum (acc_lamports post);
          m ← meter_change ic m (acc_data (pre_account p)) (acc_data post);
          verify_loop ic program_id l pre pre_sum post_sum m
      end
  end.

Definition verify (instruction_accounts : list InstructionAccount) (program_indices : list nat)
    (ic : InvokeContext) : result InstructionError InvokeContext :=
  let tc := transaction_context ic in
  program_id ← map_err (fun _ => InstructionError.CallDepth)
    (c ← get_current_instruction_context tc; get_last_program_key c tc);
  collect (get_account_at_index tc) program_indices;;
  '(pre_sum, post_sum, m) ←
    verify_loop ic program_id (first_occurrences 0 instruction_accounts) (pre_accounts ic) 0 0
      (accounts_data_meter ic);
  ensure (pre_sum =? post_sum) InstructionError.UnbalancedInstruction;;
  Ok (with_pre_meter ic (pre_accounts ic) m).

(** The inner loop of [verify_and_update]: the first pre-account with the key [k] is
    checked against [post], counted in both sums and updated. *)
Fixpoint update_matching (ic : InvokeContext) (program_id : Pubkey) (k : Pubkey) (post : Account)
    (is_writable : bool) (pre : list PreAccount) (pre_sum post_sum : Z) (m : AccountsDataMeter)
    : result InstructionError (list PreAccount * Z * Z * AccountsDataMeter) :=
  match pre with
  | [] => Ok ([], pre_sum, post_sum, m)
  | p :: pre =>
      if key_eqb k (pre_key p) then
        PreAccount.verify p program_id is_writable (ic_rent ic) post;;
        pre_sum ← add_u128 pre_sum (acc_lamports (pre_account p));
        post_sum ← add_u128 post_sum (acc_lamports post);
        let p := if is_writable && negb (acc_executable (pre_account p))
                 then PreAccount.update p post else p in
        m ← meter_change ic m (acc_data (pre_account p)) (acc_data post);
        Ok (p :: pre, pre_sum, post_sum, m)
      else
        '(pre, pre_sum, post_sum, m) ←
          update_matching ic program_id k post is_writable pre pre_sum post_sum m;
        Ok (p :: pre, pre_sum, post_sum, m)
  end.

(** The outer loop. *)
Fixpoint update_loop (ic : InvokeContext) (program_id : Pubkey) (caller : InstructionContext)
    (before_instruction_context_push : bool) (l : list InstructionAccount)
    (pre : list PreAccount) (pre_sum post_sum : Z) (m : AccountsDataMeter)
    : result InstructionError (list PreAccount * Z * Z * AccountsDataMeter) :=
  match l with
  | [] => Ok (pre, pre_sum, post_sum, m)
  | ia :: l =>
      let tc := transaction_context ic in
      '(pre, pre_sum, post_sum, m) ←
        if (index_in_transaction ia <? length (accounts tc))%nat then
          k ← get_key_of_account_at_index tc (index_in_transaction ia);
          post ← get_account_at_index tc (index_in_transaction ia);
          is_writable ← if before_instruction_context_push
                        then is_instruction_account_writable caller (index_in_caller ia)
                        else Ok (ia_is_writable ia);
          update_matching ic program_id k post is_writable pre pre_sum post_sum m
        else Ok (pre, pre_sum, post_sum, m);
      update_loop ic program_id caller before_instruction_context_push l pre pre_sum post_sum m
  end.

Definition verify_and_update (instruction_accounts : list InstructionAccount)
    (before_instruction_context_push : bool) (ic : InvokeContext)
    : result InstructionError InvokeContext :=
  let tc := transaction_context ic in
  c ← get_current_instruction_context tc;
  program_id ← map_err (fun _ => InstructionError.CallDepth) (get_last_program_key c tc);
  '(pre, pre_sum, post_sum, m) ←
    update_loop ic program_id c before_instruction_context_push
      (first_occurrences 0 instruction_accounts) (pre_accounts ic) 0 0 (accounts_data_meter ic);
  ensure (pre_sum =? post_sum) InstructionError.UnbalancedInstruction;;
  Ok (with_pre_meter ic pre m).

(** *** [prepare_instruction] *)

(** One step of the first loop: the deduplicated accounts and, for every meta so far,
    its position among them. *)
Definition add_meta (tc : TransactionContext) (caller : InstructionContext) (i : nat)
    (meta : AccountMeta) (dedup : list InstructionAccount) (indices : list nat)
    : result InstructionError (list InstructionAccount * list nat) :=
  index ← ok_or (find_index_of_account tc (am_pubkey meta)) InstructionError.MissingAccount;
  match position (fun ia => index_in_transaction ia =? index)%nat dedup with
  | Some j =>
      ia ← ok_or (dedup !! j) InstructionError.NotEnoughAccountKeys;
      let ia := mkInstructionAccount (index_in_transaction ia) (index_in_caller ia)
                  (index_in_callee ia) (ia_is_signer ia || am_is_signer meta)
                  (ia_is_writable ia || am_is_writable meta) in
      Ok (<[j := ia]> dedup, indices ++ [j])
  | None =>
      in_caller ← find_index_of_instruction_account caller tc (am_pubkey meta);
      in_caller ← ok_or in_caller InstructionError.MissingAccount;
      Ok (dedup ++ [mkInstructionAccount index in_caller i (am_is_signer meta)
                      (am_is_writable meta)],
          indices ++ [length dedup])
  end.

Fixpoint dedup_loop (tc : TransactionContext) (caller : InstructionContext) (i : nat)
    (metas : list AccountMeta) (dedup : list InstructionAccount) (indices : list nat)
    : result InstructionError (list InstructionAccount * list nat) :=
  match metas with
  | [] => Ok (dedup, indices)
  | meta :: metas =>
      '(dedup, indices) ← add_meta tc caller i meta dedup indices;
      dedup_loop tc caller (S i) metas dedup indices
  end.

(** The privileges of one account in the callee come from the caller or the seeds. *)
Definition check_privileges (tc : TransactionContext) (caller : InstructionContext)
    (signers : list Pubkey) (ia : InstructionAccount) : result InstructionError unit :=
  borrowed_account ← try_borrow_instruction_account caller (index_in_caller ia) tc;
  ensure (negb (ia_is_writable ia && negb (BorrowedAccount.is_writable borrowed_account)))
    InstructionError.PrivilegeEscalation;;
  k ← key_at tc (ba_index_in_transaction borrowed_account);
  ensure (negb (ia_is_signer ia && negb (BorrowedAccount.is_signer borrowed_account
                                         || existsb (key_eqb k) signers)))
    InstructionError.PrivilegeEscalation.

End InvokeContext.

(** [bpf_loader_upgradeable::UpgradeableLoaderState] and its [bincode] decoder. *)
Inductive UpgradeableLoaderState : Type :=
| LoaderUninitialized
| LoaderBuffer (authority_address : option Pubkey)
| LoaderProgram (programdata_address : Pubkey)
| LoaderProgramData (slot : Z) (upgrade_authority_address : option Pubkey).

Class LoaderBincode : Type := {
  bincode_deserialize_loader : list byte -> option UpgradeableLoaderState
}.

Section prepare.
Context `{LoaderBincode}.

(** The program accounts of the callee: the program data account of an upgradeable
    program, then the program account. *)
Definition program_accounts_of (tc : TransactionContext) (caller : InstructionContext)
    (callee_program_id : Pubkey) : result InstructionError (list nat) :=
  i ← find_index_of_instruction_account caller tc callee_program_id;
  i ← ok_or i InstructionError.MissingAccount;
  b ← try_borrow_instruction_account caller i tc;
  a ← unwrap (accounts tc !! ba_index_in_transaction b);
  ensure (acc_executable a) InstructionError.AccountNotExecutable;;
  data_index ←
    if key_eqb (acc_owner a) bpf_loader_upgradeable_id then
      st ← ok_or (bincode_deserialize_loader (acc_data a)) InstructionError.InvalidAccountData;
      match st with
      | LoaderProgram programdata_address =>
          j ← ok_or (find_index_of_program_account tc programdata_address)
                InstructionError.MissingAccount;
          Ok [j]
      | _ => Err InstructionError.MissingAccount
      end
    else Ok [];
  Ok (data_index ++ [ba_index_in_transaction b]).

Definition prepare_in (instruction : Instruction) (signers : list Pubkey)
    (tc : TransactionContext) : result InstructionError (list InstructionAccount * list nat) :=
  caller ← get_current_instruction_context tc;
  '(dedup, indices) ← InvokeContext.dedup_loop tc caller 0 (ix_accounts instruction) [] [];
  collect (InvokeContext.check_privileges tc caller signers) dedup;;
  instruction_accounts ←
    collect (fun j => ok_or (dedup !! j) InstructionError.NotEnoughAccountKeys) indices;
  program_indices ← program_accounts_of tc caller (ix_program_id instruction);
  Ok (instruction_accounts, program_indices).

Definition prepare_instruction (instruction : Instruction) (signers : list Pubkey)
    (ic : InvokeContext) : result InstructionError (list InstructionAccount * list nat) :=
  prepare_in instruction signers (transaction_context ic).

(** ** Programs and their execution *)

(** What the code of a program does to the transaction.  [Store] overwrites an account
    of the running instruction.  [Crash] is a panic of the runtime.  [Invoke] prepares an instruction, writes back the
    accounts the caller changed ([translate_accounts] of the virtual machine; nothing
    for a built-in program) and processes it; an error of the callee aborts. *)
Inductive program : Type :=
| Return
| Abort_with (e : InstructionError)
| Crash
| Access (k : TransactionContext -> program)
| Store (instruction_account_index : nat) (a : Account) (k : program)
| Invoke (instruction : Instruction) (signers : list Pubkey) (written : list (nat * Account))
    (k : program).

(** Writing one account of the running instruction.  A new length of the data counts in
    [total_resize_delta]. *)
Definition store_account (i : nat) (a : Account) (ic : InvokeContext)
    : result InstructionError InvokeContext :=
  let tc := transaction_context ic in
  c ← get_current_instruction_context tc;
  b ← try_borrow_instruction_account c i tc;
  old ← unwrap (accounts tc !! ba_index_in_transaction b);
  '(_, tc) ← if (length (acc_data a) =? length (acc_data old))%nat then Ok (tt, tc)
             else BorrowedAccount.resize (length (acc_data old)) (length (acc_data a)) tc;
  Ok (with_tc ic (with_accounts tc (<[ba_index_in_transaction b := a]> (accounts tc)))).

Lemma store_account_inv i a ic ic' :
  store_account i a ic = Ok ic' ->
  exists c ia old tc, get_current_instruction_context (transaction_context ic) = Ok c /\
    instruction_accounts c !! i = Some ia /\
    accounts (transaction_context ic) !! index_in_transaction ia = Some old /\
    (tc = transaction_context ic \/
     tc = with_resize_delta (transaction_context ic) (total_resize_delta tc)) /\
    ic' = with_tc ic (with_accounts tc (<[index_in_transaction ia := a]> (accounts tc))).
Proof.
  unfold store_account. intros Hs. apply result_bind_ok in Hs as (c & Hc & Hs).
  apply result_bind_ok in Hs as (b & Hb & Hs). apply result_bind_ok in Hs as (old & Ho & Hs).
  apply result_bind_ok in Hs as ([u tc] & Ht & [= <-]).
  apply borrow_instruction_ok in Hb as (ia & a1 & Hia & Hbi & Ha1 & _ & _).
  exists c, ia, a1, tc. rewrite Hbi. split_and!; try done.
  destruct (length (acc_data a) =? _)%nat; injection Ht as <- <-; auto.
Qed.

Fixpoint store_all (l : list (nat * Account)) (ic : InvokeContext)
    : result InstructionError InvokeContext :=
  match l with
  | [] => Ok ic
  | (i, a) :: l => ic ← store_account i a ic; store_all l ic
  end.

Section exec.
(** [process_instruction] of the callee. *)
Variable call : list byte -> list InstructionAccount -> list nat -> InvokeContext ->
  result InstructionError InvokeContext.

Fixpoint exec (p : program) (ic : InvokeContext) : result InstructionError InvokeContext :=
  match p with
  | Return => Ok ic
  | Abort_with e => Err e
  | Crash => Panic
  | Access k => exec (k (transaction_context ic)) ic
  | Store i a k => ic ← store_account i a ic; exec k ic
  | Invoke instruction signers written k =>
      '(ias, pis) ← prepare_instruction instruction signers ic;
      ic ← store_all written ic;
      ic ← call (ix_data instruction) ias pis ic;
      exec k ic
  end.

End exec.

(** The built-in programs (the loaders among them) in the order of registration. *)
Variable builtin_programs : list (Pubkey * (nat -> program)).

Definition process_executable_chain
    (call : list byte -> list InstructionAccount -> list nat -> InvokeContext ->
            result InstructionError InvokeContext)
    (ic : InvokeContext) : result InstructionError InvokeContext :=
  let tc := transaction_context ic in
  c ← get_current_instruction_context tc;
  b ← map_err (fun _ => InstructionError.UnsupportedProgramId) (try_borrow_program_account c 0 tc);
  root ← unwrap (accounts tc !! ba_index_in_transaction b);
  root_key ← key_at tc (ba_index_in_transaction b);
  let '(first_instruction_account, builtin_id) :=
    if key_eqb (acc_owner root) native_loader_id then (1%nat, root_key) else (0%nat, acc_owner root) in
  match List.find (fun entry => key_eqb entry.1 builtin_id) builtin_programs with
  | Some entry =>
      program_id ← get_last_program_key c tc;
      exec call (entry.2 first_instruction_account)
        (with_tc ic (TransactionContext.set_return_data program_id [] tc))
  | None => Err InstructionError.UnsupportedProgramId
  end.

(** Calls nest at most as deep as the stack of the transaction allows; [fuel] bounds
    the depth. *)
Fixpoint process_instruction (fuel : nat) (instruction_data : list byte)
    (instruction_accounts : list InstructionAccount) (program_indices : list nat)
    (ic : InvokeContext) : result InstructionError InvokeContext :=
  match fuel with
  | O => Err InstructionError.CallDepth
  | S fuel =>
      let nesting_level := InvokeContext.get_stack_height ic in
      let is_top_level_instruction := (nesting_level =? 0)%nat in
      ic ← if is_top_level_instruction then Ok ic
           else
             ic ← InvokeContext.verify_and_update instruction_accounts true ic;
             Ok (if record_instruction_in_transaction_context_push (features ic) then ic
                 else with_tc ic (TransactionContext.record_instruction
                        (mkInstructionContext nesting_level program_indices instruction_accounts
                           instruction_data) (transaction_context ic)));
      ic ← InvokeContext.push instruction_accounts program_indices instruction_data ic;
      ic ← process_executable_chain (process_instruction fuel) ic;
      ic ← if is_top_level_instruction
           then InvokeContext.verify instruction_accounts program_indices ic
           else InvokeContext.verify_and_update instruction_accounts false ic;
      InvokeContext.pop ic
  end.

End prepare.
