(* ===== verification/RuntimeSafety.v ===== *)
(** * What the runtime guarantees of every instruction

    Whatever the programs of an instruction do, if it succeeds then the sum of all
    balances is kept, read-only accounts are unchanged, and accounts of programs
    that are not part of the instruction are at most credited. *)

From Stdlib Require Import Strings.Byte.
From S2P Require Import Prelude Sdk Rent Program SystemInstruction Transaction Runtime.

(** ** The check of one account *)
Lemma zero_chunks_spec fuel buf :
  (length buf <= fuel)%nat -> PreAccount.zero_chunks fuel buf = all_zero buf.
Proof.
  revert buf. induction fuel as [|fuel IH]; intros buf Hl.
  { destruct buf; [done|cbn in Hl; lia]. }
  cbn [PreAccount.zero_chunks]. destruct (Nat.ltb_spec (length buf) PreAccount.ZEROS_LEN).
  - apply eq_true_iff_eq. rewrite bool_decide_eq_true, all_zero_iff. done.
  - unfold PreAccount.ZEROS_LEN in *. rewrite IH by (rewrite length_drop; lia).
    apply eq_true_iff_eq. rewrite andb_true_iff, bool_decide_eq_true, !all_zero_iff.
    set (n := 1024%nat) in *. split.
    + intros [H1 H2]. rewrite <-(take_drop n buf) at 1. rewrite H1, H2, <-replicate_add.
      f_equal. rewrite length_drop. lia.
    + intros H0. rewrite H0. rewrite take_replicate, drop_replicate, length_replicate.
      split; f_equal; lia.
Qed.

Lemma is_zeroed_spec buf : PreAccount.is_zeroed buf = all_zero buf.
Proof. by apply zero_chunks_spec. Qed.

(** What a program may have done to an account. *)
Record permitted (pid : Pubkey) (w : bool) (a a' : Account) : Prop := {
  permitted_owner : acc_owner a' <> acc_owner a ->
    w = true /\ acc_executable a = false /\ pid = acc_owner a /\ all_zero (acc_data a') = true;
  permitted_debit : acc_lamports a' < acc_lamports a -> pid = acc_owner a;
  permitted_lamports : acc_lamports a' <> acc_lamports a -> w = true /\ acc_executable a = false;
  permitted_data : acc_data a' <> acc_data a ->
    pid = acc_owner a /\ w = true /\ acc_executable a = false;
  permitted_executable : acc_executable a' <> acc_executable a ->
    w = true /\ acc_executable a = false /\ pid = acc_owner a';
  permitted_rent_epoch : acc_rent_epoch a' = acc_rent_epoch a
}.

(** The guards of [PreAccount.verify], as booleans. *)
Lemma verify_guards p pid w rent post :
  PreAccount.verify p pid w rent post = Ok tt ->
  let a := pre_account p in
  let is_owner := key_eqb pid (acc_owner a) in
  (key_eqb (acc_owner a) (acc_owner post)
   || w && negb (acc_executable a) && is_owner && all_zero (acc_data post)) = true /\
  (is_owner || (acc_lamports a <=? acc_lamports post)) = true /\
  ((acc_lamports a =? acc_lamports post) || w && negb (acc_executable a)) = true /\
  (bool_decide (acc_data a = acc_data post) || is_owner && w && negb (acc_executable a)) = true /\
  (Bool.eqb (acc_executable a) (acc_executable post)
   || w && negb (acc_executable a) && key_eqb pid (acc_owner post)) = true /\
  acc_rent_epoch a = acc_rent_epoch post.
Proof.
  intros H a is_owner. unfold PreAccount.verify in H. fold a in H. fold is_owner in H.
  repeat match goal with
  | H : mbind _ _ = Ok _ |- _ => apply result_bind_ok in H as ([] & ? & H)
  | H : ensure _ _ = Ok _ |- _ => apply ensure_ok in H
  end.
  rewrite is_zeroed_spec in *. clearbody is_owner. clearbody a.
  repeat split.
  - destruct (key_eqb _ _), w, (acc_executable a), is_owner, (all_zero _); cbn in *; done.
  - rewrite Z.leb_antisym. destruct is_owner, (_ <? _); cbn in *; done.
  - destruct (_ =? _), w, (acc_executable a); cbn in *; done.
  - destruct (bool_decide _), is_owner, w, (acc_executable a); cbn in *; done.
  - destruct (Bool.eqb _ _); [done|]. cbn [negb] in *.
    repeat match goal with
    | H : mbind _ _ = Ok _ |- _ => apply result_bind_ok in H as ([] & ? & H)
    | H : ensure _ _ = Ok _ |- _ => apply ensure_ok in H
    end.
    match goal with H : negb (negb w || _ || _) = true |- _ => revert H end.
    by destruct w, (acc_executable a), (key_eqb pid _).
  - by apply Z.eqb_eq.
Qed.

Lemma verify_permitted p pid w rent post :
  PreAccount.verify p pid w rent post = Ok tt -> permitted pid w (pre_account p) post.
Proof.
  intros H. apply verify_guards in H as (Ho & Hs & Hl & Hd & He & Hr).
  rewrite ?orb_true_iff, ?andb_true_iff, ?negb_true_iff, ?key_eqb_eq, ?bool_decide_eq_true,
    ?Z.leb_le, ?Z.eqb_eq, ?eqb_true_iff in *.
  split; try (intuition congruence). intros. destruct Hs; [done|lia].
Qed.

(** ** Lists of positions *)

(** The balances at the positions [J]. *)
Definition lamports_at (l : list Account) (j : nat) : Z :=
  match l !! j with Some a => acc_lamports a | None => 0 end.
Definition sum_at (l : list Account) (J : list nat) : Z :=
  foldr (fun j s => lamports_at l j + s) 0 J.

Lemma sum_at_insert_other l j a J : j ∉ J -> sum_at (<[j := a]> l) J = sum_at l J.
Proof.
  induction J as [|k J IH]; intros Hj; [done|]. apply not_elem_of_cons in Hj as [Hk HJ].
  cbn. fold (sum_at (<[j := a]> l) J) (sum_at l J). rewrite IH by done.
  unfold lamports_at. rewrite list_lookup_insert_ne by done. done.
Qed.

(** Two lists that agree outside [J] differ by what they differ on [J]. *)
Lemma sum_agree l l' J :
  NoDup J -> length l = length l' -> (forall i, i ∉ J -> l !! i = l' !! i) ->
  sum_lamports l - sum_at l J = sum_lamports l' - sum_at l' J.
Proof.
  intros Hnd. revert l. induction Hnd as [|j J Hj Hnd IH]; intros l Hlen Hout.
  { assert (l = l') as -> by (apply list_eq; intros i; apply Hout, not_elem_of_nil). done. }
  destruct (decide (j < length l)%nat) as [Hlt|Hge].
  - destruct (lookup_lt_is_Some_2 l j Hlt) as [a Ha].
    destruct (lookup_lt_is_Some_2 l' j ltac:(lia)) as [a' Ha'].
    specialize (IH (<[j := a']> l) ltac:(by rewrite length_insert)).
    rewrite (sum_lamports_insert _ _ a), sum_at_insert_other in IH by done.
    cbn [sum_at foldr]. fold (sum_at l J) (sum_at l' J). unfold lamports_at.
    rewrite Ha, Ha'. enough (forall i, i ∉ J -> <[j := a']> l !! i = l' !! i) by (specialize (IH ltac:(done)); lia).
    intros i Hi. destruct (decide (i = j)) as [->|Hne].
    + by rewrite list_lookup_insert_eq.
    + rewrite list_lookup_insert_ne by done. apply Hout. by apply not_elem_of_cons.
  - cbn [sum_at foldr]. fold (sum_at l J) (sum_at l' J). unfold lamports_at.
    rewrite !lookup_ge_None_2 by lia. rewrite !Z.add_0_l. apply IH; [done|].
    intros i Hi. destruct (decide (i = j)) as [->|Hne].
    + by rewrite !lookup_ge_None_2 by lia.
    + apply Hout. by apply not_elem_of_cons.
Qed.

(** ** What [prepare_instruction] grants *)
Lemma position_some {A} (f : A -> bool) l i :
  position f l = Some i -> exists x, l !! i = Some x /\ f x = true.
Proof.
  revert i. induction l as [|x l IH]; intros i H; cbn in H; [done|].
  destruct (f x) eqn:E; [injection H as <-; eauto|].
  destruct (position f l) as [j|]; [|done]. injection H as <-. cbn. by apply IH.
Qed.

Lemma position_first {A} (f : A -> bool) l i q x :
  position f l = Some i -> (q < i)%nat -> l !! q = Some x -> f x = false.
Proof.
  revert i q. induction l as [|y l IH]; intros i q Hp Hq Hx; [done|]. cbn in Hp.
  destruct (f y) eqn:E; [injection Hp as <-; lia|].
  destruct (position f l) as [j|] eqn:Ej; [|done]. injection Hp as <-.
  destruct q as [|q]; [by injection Hx as <-|]. cbn in Hx. eapply IH; [done| |done]. lia.
Qed.

Lemma position_none {A} (f : A -> bool) l i x :
  position f l = None -> l !! i = Some x -> f x = false.
Proof.
  revert i. induction l as [|y l IH]; intros i H Hi; [done|]. cbn in H.
  destruct (f y) eqn:E; [done|]. destruct (position f l) eqn:El; [done|].
  destruct i; [by injection Hi as <-|]. by eapply IH.
Qed.

Lemma find_instruction_account_ok tc k l i :
  find_instruction_account tc k l = Ok (Some i) ->
  exists ia, l !! i = Some ia /\ account_keys tc !! index_in_transaction ia = Some k.
Proof.
  revert i. induction l as [|ia l IH]; intros i H; cbn [find_instruction_account] in H; [done|].
  apply result_bind_ok in H as (k1 & Hk & H). unfold key_at in Hk. apply unwrap_ok in Hk.
  destruct (key_eqb k1 k) eqn:E.
  - apply key_eqb_eq in E as ->. injection H as <-. eauto.
  - apply result_bind_ok in H as ([j|] & Hj & H); [|done]. injection H as <-. cbn. auto.
Qed.

Lemma collect_ok {A B} (f : A -> result InstructionError B) l l' :
  collect f l = Ok l' <-> Forall2 (fun x y => f x = Ok y) l l'.
Proof.
  revert l'. induction l as [|x l IH]; intros l'; cbn [collect].
  - split; [intros [= <-]; constructor|]. by inversion 1.
  - rewrite result_bind_ok. split.
    + intros (y & Hy & H). apply result_bind_ok in H as (ys & Hys & [= <-]).
      constructor; [done|]. by apply IH.
    + inversion 1 as [|? y ? ys Hy Hys]; subst. exists y. split; [done|].
      apply result_bind_ok. exists ys. split; [by apply IH|done].
Qed.

(** Some meta for the key [k] asks for the privilege [f]. *)
Definition asks (f : AccountMeta -> bool) (k : Pubkey) (metas : list AccountMeta) : bool :=
  existsb (fun m => key_eqb (am_pubkey m) k && f m) metas.

Lemma asks_app f k l m :
  asks f k (l ++ [m]) = asks f k l || (key_eqb (am_pubkey m) k && f m).
Proof. unfold asks. rewrite existsb_app. cbn. by rewrite orb_false_r. Qed.

Section dedup.
Variable tc : TransactionContext.
Variable caller : InstructionContext.

Lemma find_index_of_account_ok k i :
  find_index_of_account tc k = Some i -> account_keys tc !! i = Some k.
Proof.
  intros H. apply position_some in H as (k' & Hk & E). apply key_eqb_eq in E as ->. done.
Qed.

Lemma find_index_first k i : find_index_of_account tc k = Some i -> first_at (account_keys tc) i k.
Proof.
  intros H. split; [by apply find_index_of_account_ok|]. intros q Hq Hk.
  pose proof (position_first _ _ _ _ _ H Hq Hk) as E. by apply key_eqb_neq in E.
Qed.

(** The deduplicated entry of the key [k]: found in the caller, with what [metas] ask. *)
Definition entry_for (metas : list AccountMeta) (k : Pubkey) (ia : InstructionAccount) : Prop :=
  find_index_of_account tc k = Some (index_in_transaction ia) /\
  (exists ca, instruction_accounts caller !! index_in_caller ia = Some ca /\
     account_keys tc !! index_in_transaction ca = Some k) /\
  ia_is_signer ia = asks am_is_signer k metas /\
  ia_is_writable ia = asks am_is_writable k metas.

Record dedup_ok (metas : list AccountMeta) (dedup : list InstructionAccount)
    (indices : list nat) : Prop := {
  dedup_entries : forall j ia, dedup !! j = Some ia -> exists k, entry_for metas k ia;
  dedup_distinct : forall j j' ia ia', dedup !! j = Some ia -> dedup !! j' = Some ia' ->
    index_in_transaction ia = index_in_transaction ia' -> j = j';
  dedup_indices : Forall2 (fun m j => exists ia, dedup !! j = Some ia /\
    find_index_of_account tc (am_pubkey m) = Some (index_in_transaction ia)) metas indices
}.

Lemma asks_unknown f k metas dedup indices n :
  dedup_ok metas dedup indices -> find_index_of_account tc k = Some n ->
  (forall j ia, dedup !! j = Some ia -> index_in_transaction ia <> n) ->
  asks f k metas = false.
Proof.
  intros [_ _ Hkn] Hn Hno. unfold asks. apply not_true_iff_false. rewrite existsb_exists.
  intros (m & Hm & Hf). apply andb_true_iff in Hf as [Hk _]. apply key_eqb_eq in Hk as <-.
  apply list_elem_of_In, list_elem_of_lookup in Hm as [x Hx].
  destruct (Forall2_lookup_l _ _ _ _ _ Hkn Hx) as (j & _ & ia & Hj & Hkey).
  eapply Hno; [exact Hj|]. congruence.
Qed.

(** A meta leaves the entries of other keys as they are. *)
Lemma entry_for_other metas m k ia :
  am_pubkey m <> k -> entry_for metas k ia -> entry_for (metas ++ [m]) k ia.
Proof.
  intros Hne (Hi & Hc & Hs & Hw). split_and!; try done; rewrite asks_app;
    replace (key_eqb (am_pubkey m) k) with false by (symmetry; by apply key_eqb_neq);
    by rewrite orb_false_r.
Qed.

Lemma add_known metas dedup indices m j ia :
  dedup_ok metas dedup indices -> dedup !! j = Some ia ->
  find_index_of_account tc (am_pubkey m) = Some (index_in_transaction ia) ->
  dedup_ok (metas ++ [m])
    (<[j := mkInstructionAccount (index_in_transaction ia) (index_in_caller ia)
              (index_in_callee ia) (ia_is_signer ia || am_is_signer m)
              (ia_is_writable ia || am_is_writable m)]> dedup)
    (indices ++ [j]).
Proof.
  set (ia2 := mkInstructionAccount _ _ _ _ _).
  intros [He Hd Hi] Hj Hf. pose proof (lookup_lt_Some _ _ _ Hj) as Hlt.
  assert (forall j' ib, <[j := ia2]> dedup !! j' = Some ib -> exists ic, dedup !! j' = Some ic /\
    index_in_transaction ic = index_in_transaction ib) as Hback.
  { intros j' ib Hb. destruct (decide (j' = j)) as [->|Hne].
    - rewrite list_lookup_insert_eq in Hb by done. injection Hb as <-. by exists ia.
    - rewrite list_lookup_insert_ne in Hb by done. by exists ib. }
  split.
  - intros j' ib Hb. destruct (decide (j' = j)) as [->|Hne].
    + rewrite list_lookup_insert_eq in Hb by done. injection Hb as <-.
      destruct (He j ia Hj) as (k & Hk & Hc & Hs & Hw). exists k.
      assert (am_pubkey m = k) as Hmk.
      { apply find_index_of_account_ok in Hf, Hk. congruence. }
      split_and!; try done; cbn; rewrite asks_app, Hmk, key_eqb_refl; by rewrite ?Hs, ?Hw.
    + rewrite list_lookup_insert_ne in Hb by done. destruct (He j' ib Hb) as (k & Hent).
      exists k. apply entry_for_other; [|done]. intros <-.
      destruct Hent as (Hk & _). apply Hne, (Hd j' j ib ia); try done. congruence.
  - intros j1 j2 ib1 ib2 H1 H2 Heq. destruct (Hback _ _ H1) as (ic1 & H1' & E1).
    destruct (Hback _ _ H2) as (ic2 & H2' & E2). eapply Hd; [exact H1'|exact H2'|congruence].
  - apply Forall2_app; [|constructor; [|constructor]].
    + eapply Forall2_impl; [|exact Hi]. intros m' j' (ib & Hb & Hfb).
      destruct (decide (j' = j)) as [->|Hne].
      * exists ia2. rewrite list_lookup_insert_eq by done. assert (ib = ia) as -> by congruence. done.
      * exists ib. by rewrite list_lookup_insert_ne.
    + exists ia2. by rewrite list_lookup_insert_eq.
Qed.

Lemma add_new metas dedup indices m index in_caller i :
  dedup_ok metas dedup indices -> find_index_of_account tc (am_pubkey m) = Some index ->
  (forall j ia, dedup !! j = Some ia -> index_in_transaction ia <> index) ->
  find_index_of_instruction_account caller tc (am_pubkey m) = Ok (Some in_caller) ->
  dedup_ok (metas ++ [m])
    (dedup ++ [mkInstructionAccount index in_caller i (am_is_signer m) (am_is_writable m)])
    (indices ++ [length dedup]).
Proof.
  intros Hok Hf Hno Hc. pose proof Hok as [He Hd Hi].
  apply find_instruction_account_ok in Hc as (ca & Hca & Hck).
  split.
  - intros j ia Hj. apply lookup_app_Some in Hj as [Hj|[Hge Hj]].
    + destruct (He j ia Hj) as (k & Hent). exists k. apply entry_for_other; [|done].
      intros <-. destruct Hent as (Hk & _). eapply Hno; [exact Hj|]. congruence.
    + apply list_lookup_singleton_Some in Hj as [_ <-]. exists (am_pubkey m).
      split_and!; [done|by exists ca|..]; cbn; rewrite asks_app, key_eqb_refl;
        by erewrite asks_unknown.
  - intros j1 j2 i1 i2 H1 H2 Heq.
    apply lookup_app_Some in H1 as [H1|[G1 H1]]; apply lookup_app_Some in H2 as [H2|[G2 H2]].
    + by eapply Hd.
    + apply list_lookup_singleton_Some in H2 as [_ <-]. by apply Hno in H1.
    + apply list_lookup_singleton_Some in H1 as [_ <-]. by apply Hno in H2.
    + apply list_lookup_singleton_Some in H1 as [? _], H2 as [? _]. lia.
  - apply Forall2_app; [|constructor; [|constructor]].
    + eapply Forall2_impl; [|exact Hi]. intros m' j' (ib & Hb & Hfb). exists ib.
      split; [|done]. by apply lookup_app_l_Some.
    + eexists. split; [by apply list_lookup_middle|]. done.
Qed.

Lemma dedup_loop_ok i todo metas dedup indices dedup' indices' :
  dedup_ok metas dedup indices ->
  InvokeContext.dedup_loop tc caller i todo dedup indices = Ok (dedup', indices') ->
  dedup_ok (metas ++ todo) dedup' indices'.
Proof.
  revert i metas dedup indices. induction todo as [|m todo IH]; intros i metas dedup indices Hok H;
    cbn [InvokeContext.dedup_loop] in H.
  { simplify_eq. by rewrite app_nil_r. }
  apply result_bind_ok in H as ([d ix] & Hadd & H). rewrite cons_middle, app_assoc.
  eapply IH; [|exact H]. unfold InvokeContext.add_meta in Hadd.
  apply result_bind_ok in Hadd as (n & Hn & Hadd). apply ok_or_ok in Hn.
  destruct (position _ dedup) as [j|] eqn:Ep.
  - apply position_some in Ep as (ia & Hj & E). apply Nat.eqb_eq in E as <-.
    apply result_bind_ok in Hadd as (ia' & Hia & Hadd). apply ok_or_ok in Hia.
    assert (ia' = ia) as -> by congruence. injection Hadd as <- <-. by apply add_known.
  - apply result_bind_ok in Hadd as (oc & Hoc & Hadd). apply result_bind_ok in Hadd as (c & Hc & Hadd).
    apply ok_or_ok in Hc as ->. injection Hadd as <- <-. apply add_new; try done.
    intros j ia Hj. pose proof (position_none _ _ _ _ Ep Hj) as E. by apply Nat.eqb_neq.
Qed.

End dedup.

(** What the callee gets for the meta [m]: the account of the key, at the position the
    caller holds it, with the privileges some meta of the key asks for, none of which
    exceeds those of the caller or of the seeds. *)
Definition granted (tc : TransactionContext) (caller : InstructionContext)
    (signers : list Pubkey) (metas : list AccountMeta) (m : AccountMeta)
    (ia : InstructionAccount) : Prop :=
  find_index_of_account tc (am_pubkey m) = Some (index_in_transaction ia) /\
  ia_is_signer ia = asks am_is_signer (am_pubkey m) metas /\
  ia_is_writable ia = asks am_is_writable (am_pubkey m) metas /\
  exists ca, instruction_accounts caller !! index_in_caller ia = Some ca /\
    account_keys tc !! index_in_transaction ca = Some (am_pubkey m) /\
    (ia_is_writable ia = true -> ia_is_writable ca = true) /\
    (ia_is_signer ia = true -> ia_is_signer ca = true \/ am_pubkey m ∈ signers).

(** The program to call is an executable account of the caller. *)
Definition callee_of (tc : TransactionContext) (caller : InstructionContext) (k : Pubkey)
    (pis : list nat) : Prop :=
  exists i ca a, instruction_accounts caller !! i = Some ca /\
    account_keys tc !! index_in_transaction ca = Some k /\
    accounts tc !! index_in_transaction ca = Some a /\ acc_executable a = true /\
    head (rev pis) = Some (index_in_transaction ca).

Lemma check_privileges_ok tc caller signers ia k ca :
  InvokeContext.check_privileges tc caller signers ia = Ok tt ->
  instruction_accounts caller !! index_in_caller ia = Some ca ->
  account_keys tc !! index_in_transaction ca = Some k ->
  (ia_is_writable ia = true -> ia_is_writable ca = true) /\
  (ia_is_signer ia = true -> ia_is_signer ca = true \/ k ∈ signers).
Proof.
  unfold InvokeContext.check_privileges. intros H Hca Hk.
  apply result_bind_ok in H as (b & Hb & H).
  apply borrow_instruction_ok in Hb as (ca' & a & Hca' & Hix & _ & Hw & Hs).
  assert (ca' = ca) as -> by congruence. rewrite Hw, Hs, Hix in H.
  apply result_bind_ok in H as ([] & Hwr & H). apply ensure_ok in Hwr.
  apply result_bind_ok in H as (k' & Hk' & H). unfold key_at in Hk'. apply unwrap_ok in Hk'.
  assert (k' = k) as -> by congruence. apply ensure_ok in H. split.
  - intros E. rewrite E in Hwr. by destruct (ia_is_writable ca).
  - intros E. rewrite E in H. destruct (ia_is_signer ca); [by left|]. right. cbn in H.
    rewrite negb_involutive, existsb_exists in H. destruct H as (x & Hx & Ex).
    apply key_eqb_eq in Ex as ->. by apply list_elem_of_In.
Qed.

Lemma program_accounts_ok `{LoaderBincode} tc caller k pis :
  program_accounts_of tc caller k = Ok pis -> callee_of tc caller k pis.
Proof.
  unfold program_accounts_of. intros Hp. apply result_bind_ok in Hp as (oi & Hoi & Hp).
  apply result_bind_ok in Hp as (i & Hi & Hp). apply ok_or_ok in Hi as ->.
  apply find_instruction_account_ok in Hoi as (ca & Hca & Hk).
  apply result_bind_ok in Hp as (b & Hb & Hp).
  apply borrow_instruction_ok in Hb as (ca' & a' & Hca' & Hix & Ha' & _ & _).
  assert (ca' = ca) as -> by congruence.
  apply result_bind_ok in Hp as (a & Ha & Hp). apply unwrap_ok in Ha.
  apply result_bind_ok in Hp as ([] & Hx & Hp). apply ensure_ok in Hx.
  apply result_bind_ok in Hp as (d & _ & Hp). injection Hp as <-.
  exists i, ca, a. rewrite Hix in Ha. split_and!; try done. by rewrite rev_app_distr, Hix.
Qed.

Lemma prepare_ok `{LoaderBincode} instruction signers ic ias pis :
  prepare_instruction instruction signers ic = Ok (ias, pis) ->
  let tc := transaction_context ic in
  exists caller, get_current_instruction_context tc = Ok caller /\
    Forall2 (granted tc caller signers (ix_accounts instruction)) (ix_accounts instruction) ias /\
    callee_of tc caller (ix_program_id instruction) pis.
Proof.
  intros Hp tc. unfold prepare_instruction, prepare_in in Hp. fold tc in Hp.
  apply result_bind_ok in Hp as (caller & Hc & Hp). exists caller. split; [done|].
  apply result_bind_ok in Hp as ([dedup indices] & Hd & Hp).
  apply result_bind_ok in Hp as (us & Hpr & Hp). apply collect_ok in Hpr.
  apply result_bind_ok in Hp as (ias' & Hias & Hp). apply collect_ok in Hias.
  apply result_bind_ok in Hp as (pis' & Hpis & Hp). injection Hp as <- <-.
  split; [|by apply program_accounts_ok].
  apply (dedup_loop_ok _ _ _ _ []) in Hd;
    [|split; [by intros j ia Hj|by intros j j' ia ia' Hj|constructor]].
  destruct Hd as [He _ Hix]. apply Forall2_same_length_lookup. split.
  { etransitivity; [by eapply Forall2_length|by eapply Forall2_length]. }
  intros n m ia Hm Hia.
  destruct (Forall2_lookup_l _ _ _ _ _ Hix Hm) as (j & Hj & ib & Hjb & Hf).
  destruct (Forall2_lookup_l _ _ _ _ _ Hias Hj) as (ia' & Hia' & Hok). apply ok_or_ok in Hok.
  assert (ib = ia) as -> by congruence.
  destruct (He j ia Hjb) as (k & Hk & (ca & Hca & Hck) & Hs & Hw).
  assert (k = am_pubkey m) as ->.
  { apply find_index_of_account_ok in Hk, Hf. congruence. }
  destruct (Forall2_lookup_l _ _ _ _ _ Hpr Hjb) as ([] & _ & Hpriv).
  destruct (check_privileges_ok _ _ _ _ _ _ Hpriv Hca Hck) as [Hpw Hps].
  split_and!; try done. by exists ca.
Qed.

(** ** The invariant of a running instruction *)

(** The context in which a program runs is found through the last trace. *)
Definition frames (F : InstructionContext -> Prop) (f0 : InstructionContext)
    (tc : TransactionContext) : Prop :=
  exists before t, instruction_trace tc = before ++ [t] /\
    head (instruction_stack tc) = Some (length before) /\ head t = Some f0 /\ Forall F t.

Lemma frames_context F f0 tc level c :
  frames F f0 tc -> get_instruction_context_at tc level = Ok c -> F c.
Proof.
  intros (before & t & Ht & Hs & H0 & HF) H. unfold get_instruction_context_at in H.
  rewrite Hs in H. cbn in H. apply result_bind_ok in H as (i & _ & H). apply ok_or_ok in H.
  rewrite Ht, lookup_app_r, Nat.sub_diag in H by done. cbn in H.
  by eapply (Forall_lookup_1 F).
Qed.

Lemma frames_current F f0 tc c :
  frames F f0 tc -> get_current_instruction_context tc = Ok c -> F c.
Proof.
  unfold get_current_instruction_context. destruct (get_instruction_context_stack_height tc); [done|].
  apply frames_context.
Qed.

Lemma frames_same F f0 tc tc' :
  instruction_stack tc' = instruction_stack tc -> instruction_trace tc' = instruction_trace tc ->
  frames F f0 tc -> frames F f0 tc'.
Proof. unfold frames. by intros -> ->. Qed.

Lemma push_last_app before t c : push_last (before ++ [t]) c = before ++ [t ++ [c]].
Proof. unfold push_last. rewrite rev_app_distr. cbn. by rewrite rev_involutive. Qed.

(** What every change of an account is explained by: programs among [P], and write
    access only where [W] grants it. *)
Definition account_step (P : Pubkey -> Prop) (W : Prop) (a a' : Account) : Prop :=
  exists pid w, P pid /\ (w = true -> W) /\ permitted pid w a a'.

Definition pre_sum (pre : list PreAccount) : Z :=
  foldr (fun p s => acc_lamports (pre_account p) + s) 0 pre.

Lemma add_u128_ok a b c : add_u128 a b = Ok c -> c = a + b.
Proof. unfold add_u128. case_match; by intros [= <-]. Qed.

Lemma update_is_post p pid w post :
  permitted pid w (pre_account p) post ->
  pre_account (if w && negb (acc_executable (pre_account p)) then PreAccount.update p post else p)
  = post.
Proof.
  intros [Ho Hs Hl Hd He Hr]. destruct (w && _) eqn:E.
  - destruct post. cbn in *. by rewrite Hr.
  - assert (~ (w = true /\ acc_executable (pre_account p) = false)) as Hn.
    { intros [-> Hx]. rewrite Hx in E. done. }
    destruct (pre_account p) as [l d o e r], post as [l' d' o' e' r']; cbn in *. subst r'.
    f_equal.
    + destruct (decide (l' = l)); [done|]. exfalso. tauto.
    + destruct (decide (d' = d)); [done|]. exfalso. tauto.
    + destruct (decide (o' = o)); [done|]. exfalso. tauto.
    + destruct (decide (e' = e)); [done|]. exfalso. tauto.
Qed.

Section run.
Variable K : list Pubkey.
Variable J : list nat.
Variable W : nat -> Prop.
Variable P : Pubkey -> Prop.
Variable A0 : list Account.
Variable S0 : Z.
Hypothesis HK : forall j, j ∈ J -> first_position K j.
Hypothesis HJP : forall j k, j ∈ J -> K !! j = Some k -> P k.

(** A verified account: it belongs to the position and explains its changes. *)
Definition pre_ok (j : nat) (p : PreAccount) : Prop :=
  K !! j = Some (pre_key p) /\
  exists a, A0 !! j = Some a /\ rtc (account_step P (W j)) a (pre_account p).

Record inv (ic : InvokeContext) : Prop := {
  inv_keys : account_keys (transaction_context ic) = K;
  inv_length : length (accounts (transaction_context ic)) = length A0;
  inv_pre : Forall2 pre_ok J (pre_accounts ic);
  inv_sum : pre_sum (pre_accounts ic) = S0;
  inv_other : forall i, i ∉ J -> accounts (transaction_context ic) !! i = A0 !! i
}.

(** A frame names accounts of [J] only, with the privileges granted, and a program of [P]. *)
Definition frame_ok (c : InstructionContext) : Prop :=
  Forall (fun ia => index_in_transaction ia ∈ J /\
                    (ia_is_writable ia = true -> W (index_in_transaction ia)))
    (instruction_accounts c) /\
  (forall i k, program_accounts c !! pred (length (program_accounts c)) = Some i ->
     K !! i = Some k -> P k).

Variable f0 : InstructionContext.

Definition good (ic : InvokeContext) : Prop :=
  inv ic /\ frames frame_ok f0 (transaction_context ic).

Lemma last_program_key c tc pid :
  frame_ok c -> account_keys tc = K -> get_last_program_key c tc = Ok pid -> P pid.
Proof.
  intros [_ Hp] Hk H. unfold get_last_program_key in H. apply result_bind_ok in H as (i & Hi & H).
  apply ok_or_ok in Hi. unfold get_key_of_account_at_index in H. apply ok_or_ok in H.
  rewrite Hk in H. eauto.
Qed.

(** *** [verify_and_update] *)
Lemma update_matching_ok ic pid j k post w pre ps qs m pre' ps' qs' m' L :
  P pid -> (w = true -> W j) -> K !! j = Some k -> j ∈ J -> (forall i, i ∈ L -> i ∈ J) -> Forall2 pre_ok L pre ->
  InvokeContext.update_matching ic pid k post w pre ps qs m = Ok (pre', ps', qs', m') ->
  Forall2 pre_ok L pre' /\ pre_sum pre' - pre_sum pre = (qs' - qs) - (ps' - ps).
Proof.
  intros Hpid Hw Hj HjJ HLJ HL. revert pre'. induction HL as [|j1 p L pre Hp HL IH]; intros pre' H; cbn in H.
  { simplify_eq. split; [constructor|lia]. }
  destruct (key_eqb k (pre_key p)) eqn:Ek.
  - apply key_eqb_eq in Ek. destruct Hp as [Hk (a & Ha & Hrtc)].
    assert (j1 = j) as ->.
    { eapply first_position_unique; [apply HK, HLJ; by left|by apply HK|exact Hk|]. by rewrite Hj, Ek. }
    apply result_bind_ok in H as ([] & Hv & H). apply verify_permitted in Hv.
    apply result_bind_ok in H as (x & Hx & H). apply add_u128_ok in Hx.
    apply result_bind_ok in H as (y & Hy & H). apply add_u128_ok in Hy.
    apply result_bind_ok in H as (m1 & _ & H). injection H as <- <- <- <-.
    pose proof (update_is_post _ _ _ _ Hv) as Hpost. split.
    + constructor; [|done]. split.
      * rewrite Hk. f_equal. by destruct (w && _).
      * exists a. split; [done|]. rewrite Hpost. eapply rtc_r; [done|]. by exists pid, w.
    + cbn [pre_sum foldr]. fold (pre_sum pre). rewrite Hpost. lia.
  - apply result_bind_ok in H as ([[[pre1 ps1] qs1] m1] & H1 & H). injection H as <- <- <- <-.
    destruct (IH (fun i Hi => HLJ i (list_elem_of_further _ _ _ Hi)) pre1 H1) as [HF Hs]. split; [by constructor|].
    cbn [pre_sum foldr]. fold (pre_sum pre) (pre_sum pre1). lia.
Qed.

(** An account [verify_and_update] looks at, with the privileges it takes it to have. *)
Definition entry_ok (caller : InstructionContext) (before_push : bool) (ia : InstructionAccount)
    : Prop :=
  index_in_transaction ia ∈ J /\
  forall w, (if before_push then is_instruction_account_writable caller (index_in_caller ia)
             else Ok (ia_is_writable ia)) = Ok w ->
    w = true -> W (index_in_transaction ia).

Lemma update_loop_ok ic pid caller b l pre ps qs m pre' ps' qs' m' :
  P pid -> account_keys (transaction_context ic) = K ->
  Forall (entry_ok caller b) l -> Forall2 pre_ok J pre ->
  InvokeContext.update_loop ic pid caller b l pre ps qs m = Ok (pre', ps', qs', m') ->
  Forall2 pre_ok J pre' /\ pre_sum pre' - pre_sum pre = (qs' - qs) - (ps' - ps).
Proof.
  intros Hpid Hk. revert pre ps qs m. induction l as [|ia l IH]; intros pre ps qs m Hl Hpre H;
    cbn [InvokeContext.update_loop] in H.
  { simplify_eq. split; [done|lia]. }
  apply Forall_cons_1 in Hl as [Hia Hl].
  apply result_bind_ok in H as ([[[pre1 ps1] qs1] m1] & H1 & H).
  assert (Forall2 pre_ok J pre1 /\ pre_sum pre1 - pre_sum pre = (qs1 - qs) - (ps1 - ps)) as [Hp1 Hs1].
  { destruct (_ <? _)%nat; [|simplify_eq; split; [done|lia]].
    apply result_bind_ok in H1 as (k & Hkey & H1). apply result_bind_ok in H1 as (post & _ & H1).
    apply result_bind_ok in H1 as (w & Hw & H1).
    unfold get_key_of_account_at_index in Hkey. apply ok_or_ok in Hkey. rewrite Hk in Hkey.
    eapply (update_matching_ok ic pid (index_in_transaction ia) k post w); try eassumption;
      [by apply Hia|apply Hia|done]. }
  destruct (IH pre1 ps1 qs1 m1 Hl Hp1 H) as [Hp' Hs']. split; [done|lia].
Qed.

Lemma first_occurrences_Forall (Q : InstructionAccount -> Prop) i l :
  Forall Q l -> Forall Q (first_occurrences i l).
Proof.
  intros H. revert i. induction H as [|x l Hx Hl IH]; intros i; cbn [first_occurrences]; [done|].
  destruct (_ =? _)%nat; auto.
Qed.

Lemma verify_and_update_ok ias b ic ic' :
  good ic ->
  (forall c, get_current_instruction_context (transaction_context ic) = Ok c ->
     Forall (entry_ok c b) ias) ->
  InvokeContext.verify_and_update ias b ic = Ok ic' ->
  good ic' /\ transaction_context ic' = transaction_context ic /\ features ic' = features ic.
Proof.
  intros [[Hk Hlen Hpre Hsum Hother] Hfr] Hias H. unfold InvokeContext.verify_and_update in H.
  apply result_bind_ok in H as (c & Hc & H). apply result_bind_ok in H as (pid & Hpid & H).
  apply map_err_ok in Hpid. apply result_bind_ok in H as ([[[pre ps] qs] m] & Hl & H).
  apply result_bind_ok in H as ([] & Heq & H). apply ensure_ok, Z.eqb_eq in Heq. injection H as <-.
  assert (P pid) as HP by (eapply last_program_key; [by eapply frames_current|done..]).
  assert (Forall (entry_ok c b) (first_occurrences 0 ias)) as He.
  { by apply first_occurrences_Forall, Hias. }
  destruct (update_loop_ok _ _ _ _ _ _ _ _ _ _ _ _ _ HP Hk He Hpre Hl) as [Hp Hs].
  split_and!; [|done..]. split; [|done].
  split; try done. cbn [pre_accounts with_pre_meter]. lia.
Qed.

(** *** Writing accounts *)
Lemma store_account_ok i a ic ic' :
  good ic -> store_account i a ic = Ok ic' ->
  good ic' /\ instruction_stack (transaction_context ic') = instruction_stack (transaction_context ic)
  /\ instruction_trace (transaction_context ic') = instruction_trace (transaction_context ic).
Proof.
  intros [[Hk Hlen Hpre Hsum Hother] Hfr] H. apply store_account_inv in H as (c & ia & a1 & tc & Hc & Hia & Ha1 & Htc & ->).
  destruct (frames_current _ _ _ _ Hfr Hc) as [Hias _].
  destruct (Forall_lookup_1 _ _ _ _ Hias Hia) as [HJ _].
  destruct Htc as [->| ->]; (split_and!; [|done..]); (split; [|by eapply frames_same]);
    (split; cbn; try done; [by rewrite length_insert|]);
    intros j Hj; (rewrite list_lookup_insert_ne by congruence); auto.
Qed.

Lemma store_all_ok l ic ic' :
  good ic -> store_all l ic = Ok ic' ->
  good ic' /\ instruction_stack (transaction_context ic') = instruction_stack (transaction_context ic)
  /\ instruction_trace (transaction_context ic') = instruction_trace (transaction_context ic).
Proof.
  revert ic. induction l as [|[i a] l IH]; intros ic Hg H; cbn in H; [by simplify_eq|].
  apply result_bind_ok in H as (ic1 & H1 & H).
  destruct (store_account_ok _ _ _ _ Hg H1) as (Hg1 & Hs1 & Ht1).
  destruct (IH _ Hg1 H) as (Hg' & Hs' & Ht'). split_and!; congruence || done.
Qed.
(** *** Calls *)
Definition call_accounts (c : InstructionContext) (ias : list InstructionAccount) : Prop :=
  Forall (fun ia => exists ca, instruction_accounts c !! index_in_caller ia = Some ca /\
    index_in_transaction ca = index_in_transaction ia /\
    (ia_is_writable ia = true -> ia_is_writable ca = true)) ias.

Definition call_program (pis : list nat) : Prop :=
  forall i k, head (rev pis) = Some i -> K !! i = Some k -> P k.

Lemma head_rev_lookup {A} (l : list A) : head (rev l) = l !! pred (length l).
Proof.
  destruct l as [|x l] using rev_ind; [done|]. rewrite rev_app_distr, length_app. cbn.
  rewrite Nat.add_1_r. cbn. rewrite lookup_app_r, Nat.sub_diag by done. done.
Qed.

Lemma head_removelast {A} (l s : list A) : removelast l = s -> s <> [] -> head (removelast l) = head l.
Proof. destruct l as [|x [|y l]]; cbn; intros <-; done. Qed.

Lemma call_accounts_frame c ias :
  frame_ok c -> call_accounts c ias ->
  Forall (fun ia => index_in_transaction ia ∈ J /\
                    (ia_is_writable ia = true -> W (index_in_transaction ia))) ias.
Proof.
  intros [Hc _] H. eapply Forall_impl; [|exact H]. intros ia (ca & Hca & Hix & Hw).
  destruct (Forall_lookup_1 _ _ _ _ Hc Hca) as [HJ HW]. rewrite <-Hix. auto.
Qed.

Lemma call_accounts_entry c ias b c' :
  frame_ok c -> call_accounts c ias -> (b = true -> c' = c) -> Forall (entry_ok c' b) ias.
Proof.
  intros Hc H Hb. eapply Forall_impl; [|exact H]. intros ia (ca & Hca & Hix & Hw).
  destruct Hc as [Hc _]. destruct (Forall_lookup_1 _ _ _ _ Hc Hca) as [HJ HW]. unfold entry_ok.
  rewrite <-Hix. split; [done|]. intros w Hrw ->.
  destruct b.
  - rewrite Hb in Hrw by done. unfold is_instruction_account_writable in Hrw.
    apply result_bind_ok in Hrw as (ca' & Hca' & Hrw). apply ok_or_ok in Hca'.
    assert (ca' = ca) as -> by congruence. injection Hrw as Hrw. auto.
  - injection Hrw as Hrw. auto.
Qed.

(** Pushing the frame of a call. *)
Lemma tx_push_ok pis ias data record tc tc' :
  frames frame_ok f0 tc -> frame_ok (mkInstructionContext (length (instruction_stack tc)) pis ias data) ->
  TransactionContext.push pis ias data record tc = Ok tc' ->
  frames frame_ok f0 tc' /\ removelast (instruction_stack tc') = instruction_stack tc /\
  accounts tc' = accounts tc /\ account_keys tc' = account_keys tc.
Proof.
  intros (before & t & Ht & Hs & H0 & HF) Hf H. unfold TransactionContext.push in H.
  destruct (instruction_stack tc) as [|s0 st] eqn:Es; [done|]. cbn [length Nat.eqb] in H.
  injection Hs as ->. rewrite Ht, rev_app_distr in H. cbn [rev app] in H.
  set (st' := length before :: st) in *.
  assert (exists t' i, frames frame_ok f0 (with_stack tc (st' ++ [i]) (before ++ [t'])) /\
    tc' = with_stack tc (st' ++ [i]) (before ++ [t'])) as (t' & i & Hfr & ->).
  { destruct record; cbn in H; rewrite <-?Es in H; case_match; try done; injection H as <-.
    - rewrite push_last_app. eexists _, _. split; [|done]. exists before, (t ++ [mkInstructionContext (length st') pis ias data]).
      split_and!; try done; [by destruct t|]. apply Forall_app. split; [done|]. by constructor.
    - eexists t, _. split; [|done]. exists before, t. done. }
  split_and!; try done. cbn [instruction_stack with_stack]. by rewrite removelast_last.
Qed.

Lemma good_tc ic tc' :
  good ic -> frames frame_ok f0 tc' -> accounts tc' = accounts (transaction_context ic) ->
  account_keys tc' = account_keys (transaction_context ic) -> good (with_tc ic tc').
Proof.
  intros [[Hk Hlen Hpre Hsum Hother] _] Hfr Ha Hkeys. split; [|done].
  split; cbn [transaction_context pre_accounts with_tc]; rewrite ?Ha, ?Hkeys; done.
Qed.

Lemma nested_push_ok ias pis data ic ic' :
  good ic -> Forall (fun ia => index_in_transaction ia ∈ J /\
    (ia_is_writable ia = true -> W (index_in_transaction ia))) ias ->
  call_program pis -> InvokeContext.push ias pis data ic = Ok ic' ->
  good ic' /\ removelast (instruction_stack (transaction_context ic'))
             = instruction_stack (transaction_context ic).
Proof.
  intros Hg Hias Hpis H. unfold InvokeContext.push in H.
  apply result_bind_ok in H as ([] & _ & H). apply result_bind_ok in H as (pi & _ & H).
  apply result_bind_ok in H as (pid & _ & H). apply result_bind_ok in H as (ic1 & H1 & H).
  pose proof Hg as [_ Hfr]. destruct (InvokeContext.get_stack_height ic =? 0)%nat eqn:Eh.
  { apply Nat.eqb_eq, nil_length_inv in Eh. destruct Hfr as (? & ? & _ & Hs & _). by rewrite Eh in Hs. }
  assert (ic1 = ic) as ->.
  { apply result_bind_ok in H1 as (b1 & _ & H1). apply result_bind_ok in H1 as (b2 & _ & H1).
    apply result_bind_ok in H1 as ([] & _ & H1). by injection H1 as <-. }
  apply result_bind_ok in H as (ks & _ & H). apply result_bind_ok in H as (ks' & _ & H).
  apply result_bind_ok in H as (tc' & Hp & H). injection H as <-.
  edestruct tx_push_ok as (Hfr' & Hs & Ha & Hk); [exact Hfr| |exact Hp|].
  { split; [done|]. cbn. intros i k. rewrite <-head_rev_lookup. apply Hpis. }
  split; [by apply good_tc|done].
Qed.

Section calls.
Context `{LoaderBincode}.
Variable builtin_programs : list (Pubkey * (nat -> program)).

(** What a call keeps. *)
Definition call_spec (call : list byte -> list InstructionAccount -> list nat -> InvokeContext ->
    result InstructionError InvokeContext) : Prop :=
  forall data ias pis ic ic' c, good ic ->
    get_current_instruction_context (transaction_context ic) = Ok c ->
    call_accounts c ias -> call_program pis -> call data ias pis ic = Ok ic' ->
    good ic' /\ instruction_stack (transaction_context ic')
               = instruction_stack (transaction_context ic).

Lemma current_same tc tc' :
  instruction_stack tc' = instruction_stack tc -> instruction_trace tc' = instruction_trace tc ->
  get_current_instruction_context tc' = get_current_instruction_context tc.
Proof.
  unfold get_current_instruction_context, get_instruction_context_stack_height,
    get_instruction_context_at. by intros -> ->.
Qed.

Lemma prepare_call instruction signers ic ias pis c :
  good ic -> prepare_instruction instruction signers ic = Ok (ias, pis) ->
  get_current_instruction_context (transaction_context ic) = Ok c ->
  call_accounts c ias /\ call_program pis.
Proof.
  intros [Hinv Hfr] Hp Hc. apply prepare_ok in Hp as (c' & Hc' & Hg & i & ca & a & Hca & Hk & _ & _ & Hpi).
  assert (c' = c) as -> by congruence. rewrite (inv_keys _ Hinv) in *. split.
  - apply Forall_lookup_2. intros n ia Hn.
    destruct (Forall2_lookup_r _ _ _ _ _ Hg Hn) as (m & _ & Hf & _ & _ & ca' & Hca' & Hk' & Hw & _).
    exists ca'. split_and!; try done. apply find_index_first in Hf.
    rewrite (inv_keys _ Hinv) in *. eapply first_at_unique; [|exact Hf]. eapply HK; [|done].
    destruct (frames_current _ _ _ _ Hfr Hc) as [Hias _]. by destruct (Forall_lookup_1 _ _ _ _ Hias Hca').
  - intros j k Hj Hjk. rewrite Hpi in Hj. injection Hj as <-. eapply HJP; [|exact Hjk].
    destruct (frames_current _ _ _ _ Hfr Hc) as [Hias _].
    by destruct (Forall_lookup_1 _ _ _ _ Hias Hca).
Qed.

Lemma exec_ok call p ic ic' :
  call_spec call -> good ic -> exec call p ic = Ok ic' ->
  good ic' /\ instruction_stack (transaction_context ic')
             = instruction_stack (transaction_context ic).
Proof.
  intros Hcall. revert ic. induction p as [|e| |k IH|i a k IH|ins signers written k IH]; intros ic Hg He;
    cbn [exec] in He.
  - by simplify_eq.
  - done.
  - done.
  - by eapply IH.
  - apply result_bind_ok in He as (ic1 & H1 & He).
    destruct (store_account_ok _ _ _ _ Hg H1) as (Hg1 & Hs1 & _).
    rewrite <-Hs1. by apply IH.
  - apply result_bind_ok in He as ([ias pis] & Hp & He). apply result_bind_ok in He as (ic1 & H1 & He).
    apply result_bind_ok in He as (ic2 & H2 & He).
    destruct (store_all_ok _ _ _ Hg H1) as (Hg1 & Hs1 & Ht1).
    pose proof (prepare_ok _ _ _ _ _ Hp) as (c & Hc & _).
    destruct (prepare_call _ _ _ _ _ _ Hg Hp Hc) as [Hca Hcp].
    assert (get_current_instruction_context (transaction_context ic1) = Ok c) as Hc1
      by (by rewrite (current_same _ _ Hs1 Ht1)).
    destruct (Hcall _ _ _ _ _ _ Hg1 Hc1 Hca Hcp H2) as [Hg2 Hs2].
    rewrite <-Hs1, <-Hs2. by apply IH.
Qed.

Lemma chain_ok call ic ic' :
  call_spec call -> good ic -> process_executable_chain builtin_programs call ic = Ok ic' ->
  good ic' /\ instruction_stack (transaction_context ic')
             = instruction_stack (transaction_context ic).
Proof.
  intros Hcall Hg H1. unfold process_executable_chain in H1.
  apply result_bind_ok in H1 as (c & _ & H1). apply result_bind_ok in H1 as (b & _ & H1).
  apply result_bind_ok in H1 as (root & _ & H1). apply result_bind_ok in H1 as (rk & _ & H1).
  destruct (if key_eqb _ _ then _ else _) as [fi id]. destruct (List.find _ _) as [entry|]; [|done].
  apply result_bind_ok in H1 as (pid & _ & H1). eapply exec_ok in H1; [exact H1|done|].
  pose proof Hg as [_ Hfr]. by apply good_tc.
Qed.

Lemma nested_ok fuel : call_spec (process_instruction builtin_programs fuel).
Proof.
  induction fuel as [|fuel IH]; intros data ias pis ic ic' c Hg Hc Hca Hcp Hr; [done|].
  cbn [process_instruction] in Hr. pose proof Hg as [_ Hfr0].
  destruct (InvokeContext.get_stack_height ic =? 0)%nat eqn:Eh.
  { apply Nat.eqb_eq, nil_length_inv in Eh. destruct Hfr0 as (? & ? & _ & Hs & _). by rewrite Eh in Hs. }
  pose proof (frames_current _ _ _ _ Hfr0 Hc) as Hfc.
  apply result_bind_ok in Hr as (ic1 & H1 & Hr). apply result_bind_ok in Hr as (ic2 & H2 & Hr).
  apply result_bind_ok in Hr as (ic3 & H3 & Hr). apply result_bind_ok in Hr as (ic4 & H4 & Hr).
  apply result_bind_ok in H1 as (icv & Hv & H1).
  edestruct verify_and_update_ok as (Hgv & Htv & Hfv); [exact Hg| |exact Hv|].
  { intros c' Hc'. eapply (call_accounts_entry c); [done..|]. congruence. }
  assert (good ic1 /\ instruction_stack (transaction_context ic1) = instruction_stack (transaction_context ic))
    as [Hg1 Hs1].
  { injection H1 as <-. destruct (record_instruction_in_transaction_context_push _).
    { by rewrite Htv. }
    cbn [transaction_context with_tc]. rewrite Htv. split; [|done].
    apply good_tc; rewrite ?Htv; try done. destruct Hfr0 as (before & t & Ht & Hs & H0 & HF).
    exists before, (t ++ [mkInstructionContext (InvokeContext.get_stack_height ic) pis ias data]).
    cbn. rewrite Ht, push_last_app. split_and!; try done; [by destruct t|].
    apply Forall_app. split; [done|]. constructor; [|done]. split.
    - by eapply call_accounts_frame.
    - cbn. intros i k. rewrite <-head_rev_lookup. apply Hcp. }
  edestruct nested_push_ok as [Hg2 Hs2]; [exact Hg1|by eapply call_accounts_frame|done|exact H2|].
  destruct (chain_ok _ _ _ IH Hg2 H3) as [Hg3 Hs3].
  edestruct verify_and_update_ok as (Hg4 & Ht4 & _); [exact Hg3| |exact H4|].
  { intros c' Hc'. by eapply (call_accounts_entry c). }
  unfold InvokeContext.pop, TransactionContext.pop in Hr. apply result_bind_ok in Hr as (tc' & Hpop & Hr).
  injection Hr as <-. case_match; [done|]. injection Hpop as <-.
  assert (removelast (instruction_stack (transaction_context ic4)) = instruction_stack (transaction_context ic))
    as Hs by congruence.
  split; [|by rewrite <-Hs]. apply good_tc; try done. destruct Hg4 as [_ (before & t & Ht & Hst & Hh0 & HF)].
  exists before, t. split_and!; try done. cbn [instruction_stack with_stack].
  rewrite (head_removelast _ _ Hs); [done|]. intros E. apply Nat.eqb_neq in Eh. by apply Eh, length_zero_iff_nil.
Qed.

End calls.
End run.
