(* ===== verification/Message.v ===== *)
(** * Transaction messages

    [sdk/program/src/message]: the header and the two message formats ([legacy.rs],
    [versions/v0]), the compilation of instructions into a message
    ([compiled_keys.rs], [account_keys.rs]) and the view of a message the runtime
    works with ([sanitized.rs]).

    Indices of type [u8] are natural numbers; [as u8] is written out as a remainder. A
    [BTreeMap] is a list of entries sorted by key. *)

From Stdlib Require Import Strings.Byte.
From S2P Require Import Prelude Sdk SystemInstruction Transaction Nonce.

(** ** Reserved keys *)
Definition clock_sysvar_id : Pubkey :=
  pubkey_of_Z 0x6a7d51718c774c928566398691d5eb68b5eb8a39b4b6d5c73555b2100000000.
Definition epoch_schedule_sysvar_id : Pubkey :=
  pubkey_of_Z 0x6a7d51718dc3fee02d3e47f0100f8b054f7942e60591e3f508719a805000000.
Definition fees_sysvar_id : Pubkey :=
  pubkey_of_Z 0x6a7d51718e25a8d83503c251a7af07126fd7200df6fc4ed526a9c9000000000.
Definition instructions_sysvar_id : Pubkey :=
  pubkey_of_Z 0x6a7d517187bd16635dad40455fdc2c0c124c68f215675a5dbbacb5f08000000.
Definition rewards_sysvar_id : Pubkey :=
  pubkey_of_Z 0x6a7d517192c6137cee092d9b6923ee1ccd61903fa82b8a16191578d80000000.
Definition slot_hashes_sysvar_id : Pubkey :=
  pubkey_of_Z 0x6a7d517192f0aafc6f265e3fb77cc7ada82c529d0be3b136e2d005520000000.
Definition slot_history_sysvar_id : Pubkey :=
  pubkey_of_Z 0x6a7d517192f0aafc875e2e184577c5069cfc84649e3eb92782f958d48000000.
Definition stake_history_sysvar_id : Pubkey :=
  pubkey_of_Z 0x6a7d517193584d0feed9bb3431d13206be544281b57b8566cc5375ff4000000.
Definition config_program_id : Pubkey :=
  pubkey_of_Z 0x3064aa3002f74dcc86e43310f0c052af8c5da27f6104019a323efa000000000.
Definition feature_program_id : Pubkey :=
  pubkey_of_Z 0x3c0a0cdcb06d2daefae82d16fee7acf61ec737b23481b21946a767000000000.
Definition stake_program_id : Pubkey :=
  pubkey_of_Z 0x6a1d8179137542a983437bdfe2a7ab2557f535c8a78722b68a49dc000000000.
Definition stake_config_id : Pubkey :=
  pubkey_of_Z 0x6a1d817a502050b680791e6ce6db88e1e5b7150f61fc6790a4eb4d100000000.
Definition vote_program_id : Pubkey :=
  pubkey_of_Z 0x761481d357474bb7c4d7624ebd3bdb3d8355e73d11043fc0da3538000000000.

Definition ALL_IDS : list Pubkey :=
  [clock_sysvar_id; epoch_schedule_sysvar_id; fees_sysvar_id; recent_blockhashes_sysvar_id;
   rent_sysvar_id; rewards_sysvar_id; slot_hashes_sysvar_id; slot_history_sysvar_id;
   stake_history_sysvar_id; instructions_sysvar_id].

Definition is_sysvar_id (id : Pubkey) : bool := existsb (fun key => key_eqb key id) ALL_IDS.

Definition BUILTIN_PROGRAMS_KEYS : list Pubkey :=
  [config_program_id; feature_program_id; native_loader_id; stake_program_id; stake_config_id;
   vote_program_id; system_program_id; bpf_loader_id; bpf_loader_deprecated_id;
   bpf_loader_upgradeable_id].

(** [key.0[0]] *)
Definition first_byte (key : Pubkey) : byte := nth 0 (to_bytes key) x00.

(** The table is indexed by the first byte of a key. *)
Definition MAYBE_BUILTIN_KEY_OR_SYSVAR : list bool :=
  let set table key := <[Z.to_nat (u8_val (first_byte key)) := true]> table in
  foldl set (foldl set (replicate 256 false) BUILTIN_PROGRAMS_KEYS) ALL_IDS.

Definition is_builtin_key_or_sysvar (key : Pubkey) : bool :=
  if nth (Z.to_nat (u8_val (first_byte key))) MAYBE_BUILTIN_KEY_OR_SYSVAR false
  then is_sysvar_id key || existsb (fun k => key_eqb k key) BUILTIN_PROGRAMS_KEYS
  else false.

(** ** Headers and compiled instructions *)
Record MessageHeader : Type := mkHeader {
  num_required_signatures : nat;
  num_readonly_signed_accounts : nat;
  num_readonly_unsigned_accounts : nat
}.

Record CompiledInstruction : Type := mkCompiled {
  program_id_index : nat;
  ci_accounts : list nat;
  ci_data : list byte
}.

Inductive SanitizeError : Type := IndexOutOfBounds | ValueOutOfBounds | InvalidValue.

Inductive CompileError : Type :=
| AccountIndexOverflow
| AddressTableLookupIndexOverflow
| UnknownInstructionKey (key : Pubkey).

(** [u8::try_from] *)
Definition u8_try_from (n : nat) : option nat := if (n <? 256)%nat then Some n else None.
(** [as u8] *)
Definition as_u8 (n : nat) : nat := (n mod 256)%nat.
(** [a - b] on [u8] and on [usize], with wrap-around. *)
Definition sub_u8 (a b : nat) : Z := (Z.of_nat a - Z.of_nat b) mod 256.
Definition sub_usize (a b : nat) : Z := (Z.of_nat a - Z.of_nat b) mod 2 ^ 64.

(** ** [compiled_keys.rs] *)

(** [Ord] of an address: the order of its bytes. *)
Fixpoint bytes_ltb (a b : list byte) : bool :=
  match a, b with
  | [], _ :: _ => true
  | x :: a, y :: b => (u8_val x <? u8_val y) || ((u8_val x =? u8_val y) && bytes_ltb a b)
  | _, _ => false
  end.
Definition key_ltb (a b : Pubkey) : bool := bytes_ltb (to_bytes a) (to_bytes b).

(** [entry(k).or_default()] followed by an update of the entry. *)
Fixpoint entry_update {V} (k : Pubkey) (d : V) (f : V -> V) (m : list (Pubkey * V))
    : list (Pubkey * V) :=
  match m with
  | [] => [(k, f d)]
  | (k', v) :: m' =>
      if key_eqb k k' then (k', f v) :: m'
      else if key_ltb k k' then (k, f d) :: m
      else (k', v) :: entry_update k d f m'
  end.

(** [remove_entry] *)
Fixpoint remove_entry {V} (k : Pubkey) (m : list (Pubkey * V)) : list (Pubkey * V) :=
  match m with
  | [] => []
  | (k', v) :: m => if key_eqb k k' then m else (k', v) :: remove_entry k m
  end.

Record CompiledKeyMeta : Type := mkKeyMeta {
  km_is_signer : bool;
  km_is_writable : bool;
  km_is_invoked : bool
}.
Definition CompiledKeyMeta_default : CompiledKeyMeta := mkKeyMeta false false false.

Record CompiledKeys : Type := mkCompiledKeys {
  payer : option Pubkey;
  key_meta_map : list (Pubkey * CompiledKeyMeta)
}.

Module CompiledKeys.

Definition add_account (m : list (Pubkey * CompiledKeyMeta)) (account_meta : AccountMeta)
    : list (Pubkey * CompiledKeyMeta) :=
  entry_update (am_pubkey account_meta) CompiledKeyMeta_default
    (fun meta => mkKeyMeta (km_is_signer meta || am_is_signer account_meta)
                   (km_is_writable meta || am_is_writable account_meta) (km_is_invoked meta)) m.

Definition add_instruction (m : list (Pubkey * CompiledKeyMeta)) (ix : Instruction)
    : list (Pubkey * CompiledKeyMeta) :=
  foldl add_account
    (entry_update (ix_program_id ix) CompiledKeyMeta_default
       (fun meta => mkKeyMeta (km_is_signer meta) (km_is_writable meta) true) m)
    (ix_accounts ix).

Definition compile (instructions : list Instruction) (payer : option Pubkey) : CompiledKeys :=
  let m := foldl add_instruction [] instructions in
  mkCompiledKeys payer
    (match payer with
     | Some payer => entry_update payer CompiledKeyMeta_default
                       (fun meta => mkKeyMeta true true (km_is_invoked meta)) m
     | None => m
     end).

(** The keys whose entry satisfies [f], in the order of the map. *)
Definition keys_where (f : CompiledKeyMeta -> bool) (m : list (Pubkey * CompiledKeyMeta))
    : list Pubkey :=
  (List.filter (fun entry => f entry.2) m).*1.

Definition try_into_u8 (num : nat) : result CompileError nat :=
  ok_or (u8_try_from num) AccountIndexOverflow.

Definition try_into_message_components (self : CompiledKeys)
    : result CompileError (MessageHeader * list Pubkey) :=
  let m := match payer self with
           | Some payer => remove_entry payer (key_meta_map self)
           | None => key_meta_map self
           end in
  let writable_signer_keys :=
    match payer self with Some payer => [payer] | None => [] end
    ++ keys_where (fun meta => km_is_signer meta && km_is_writable meta) m in
  let readonly_signer_keys :=
    keys_where (fun meta => km_is_signer meta && negb (km_is_writable meta)) m in
  let writable_non_signer_keys :=
    keys_where (fun meta => negb (km_is_signer meta) && km_is_writable meta) m in
  let readonly_non_signer_keys :=
    keys_where (fun meta => negb (km_is_signer meta) && negb (km_is_writable meta)) m in
  num_required_signatures ←
    try_into_u8 (length writable_signer_keys + length readonly_signer_keys);
  num_readonly_signed_accounts ← try_into_u8 (length readonly_signer_keys);
  num_readonly_unsigned_accounts ← try_into_u8 (length readonly_non_signer_keys);
  Ok (mkHeader num_required_signatures num_readonly_signed_accounts
        num_readonly_unsigned_accounts,
      writable_signer_keys ++ readonly_signer_keys ++ writable_non_signer_keys
        ++ readonly_non_signer_keys).

(** The loops of [try_drain_keys_found_in_lookup_table]: the index of every search key
    the table holds. *)
Fixpoint drain_loop (lookup_table_addresses search_keys : list Pubkey)
    : result CompileError (list nat * list Pubkey) :=
  match search_keys with
  | [] => Ok ([], [])
  | search_key :: search_keys =>
      match position (fun key => key_eqb key search_key) lookup_table_addresses with
      | Some key_index =>
          lookup_table_index ←
            ok_or (u8_try_from key_index) AddressTableLookupIndexOverflow;
          '(indexes, drained) ← drain_loop lookup_table_addresses search_keys;
          Ok (lookup_table_index :: indexes, search_key :: drained)
      | None => drain_loop lookup_table_addresses search_keys
      end
  end.

Definition try_drain_keys_found_in_lookup_table (lookup_table_addresses : list Pubkey)
    (key_meta_filter : CompiledKeyMeta -> bool) (self : CompiledKeys)
    : result CompileError (list nat * list Pubkey * CompiledKeys) :=
  '(lookup_table_indexes, drained_keys) ←
    drain_loop lookup_table_addresses (keys_where key_meta_filter (key_meta_map self));
  Ok (lookup_table_indexes, drained_keys,
      mkCompiledKeys (payer self)
        (foldl (fun m key => remove_entry key m) (key_meta_map self) drained_keys)).

End CompiledKeys.

(** ** [account_keys.rs] and the loaded addresses of [versions/v0/loaded.rs] *)
Record LoadedAddresses : Type := mkLoaded {
  la_writable : list Pubkey;
  la_readonly : list Pubkey
}.

(** [FromIterator] *)
Definition LoadedAddresses_from_iter (l : list LoadedAddresses) : LoadedAddresses :=
  mkLoaded (concat (map la_writable l)) (concat (map la_readonly l)).

Record AccountKeys : Type := mkAccountKeys {
  static_keys : list Pubkey;
  dynamic_keys : option LoadedAddresses
}.

Module AccountKeys.

Definition key_segment_iter (self : AccountKeys) : list (list Pubkey) :=
  match dynamic_keys self with
  | Some dynamic_keys => [static_keys self; la_writable dynamic_keys; la_readonly dynamic_keys]
  | None => [static_keys self; []; []]
  end.

Fixpoint get_loop (segments : list (list Pubkey)) (index : nat) : option Pubkey :=
  match segments with
  | [] => None
  | key_segment :: segments =>
      if (index <? length key_segment)%nat then key_segment !! index
      else get_loop segments (index - length key_segment)
  end.

Definition get (self : AccountKeys) (index : nat) : option Pubkey :=
  get_loop (key_segment_iter self) index.

Definition len (self : AccountKeys) : nat :=
  foldl (fun n segment => n + length segment)%nat 0%nat (key_segment_iter self).

Definition iter (self : AccountKeys) : list Pubkey := concat (key_segment_iter self).

(** The map from keys to their last index. *)
Fixpoint index_map (index : nat) (keys : list Pubkey) (m : gmap Pubkey nat)
    : result CompileError (gmap Pubkey nat) :=
  match keys with
  | [] => Ok m
  | key :: keys =>
      index8 ← ok_or (u8_try_from index) AccountIndexOverflow;
      index_map (S index) keys (<[key := index8]> m)
  end.

Definition get_account_index (m : gmap Pubkey nat) (key : Pubkey) : result CompileError nat :=
  ok_or (m !! key) (UnknownInstructionKey key).

(** [map(..).collect::<Result<Vec<_>, _>>()] *)
Fixpoint collect_results {A B} (f : A -> result CompileError B) (l : list A)
    : result CompileError (list B) :=
  match l with
  | [] => Ok []
  | x :: l => y ← f x; ys ← collect_results f l; Ok (y :: ys)
  end.

Definition try_compile_instruction (m : gmap Pubkey nat) (ix : Instruction)
    : result CompileError CompiledInstruction :=
  accounts ← collect_results (fun meta => get_account_index m (am_pubkey meta)) (ix_accounts ix);
  program_id_index ← get_account_index m (ix_program_id ix);
  Ok (mkCompiled program_id_index accounts (ix_data ix)).

Definition try_compile_instructions (self : AccountKeys) (instructions : list Instruction)
    : result CompileError (list CompiledInstruction) :=
  account_index_map ← index_map 0 (iter self) ∅;
  collect_results (try_compile_instruction account_index_map) instructions.

End AccountKeys.

(** ** The tests both formats share *)
Definition is_key_passed_to_program (instructions : list CompiledInstruction) (key_index : nat)
    : bool :=
  match u8_try_from key_index with
  | Some key_index => existsb (fun ix => existsb (Nat.eqb key_index) (ci_accounts ix)) instructions
  | None => false
  end.

Definition is_key_called_as_program (instructions : list CompiledInstruction) (key_index : nat)
    : bool :=
  match u8_try_from key_index with
  | Some key_index => existsb (fun ix => program_id_index ix =? key_index)%nat instructions
  | None => false
  end.

Definition is_upgradeable_loader_present (keys : list Pubkey) : bool :=
  existsb (fun key => key_eqb key bpf_loader_upgradeable_id) keys.

Definition demote_program_id (instructions : list CompiledInstruction) (keys : list Pubkey)
    (i : nat) : bool :=
  is_key_called_as_program instructions i && negb (is_upgradeable_loader_present keys).

(** ** [legacy.rs] *)
Module Legacy.

Record Message : Type := mkMessage {
  header : MessageHeader;
  account_keys : list Pubkey;
  recent_blockhash : Hash;
  instructions : list CompiledInstruction
}.

(** [keys.iter().position(..).unwrap() as u8] *)
Definition key_position (keys : list Pubkey) (key : Pubkey) : result CompileError nat :=
  i ← unwrap (position (fun k => key_eqb k key) keys); Ok (as_u8 i).

Definition compile_instruction (keys : list Pubkey) (ix : Instruction)
    : result CompileError CompiledInstruction :=
  accounts ← AccountKeys.collect_results (fun meta => key_position keys (am_pubkey meta))
    (ix_accounts ix);
  program_id_index ← key_position keys (ix_program_id ix);
  Ok (mkCompiled program_id_index accounts (ix_data ix)).

Definition compile_instructions (ixs : list Instruction) (keys : list Pubkey)
    : result CompileError (list CompiledInstruction) :=
  AccountKeys.collect_results (compile_instruction keys) ixs.

(** [expect] *)
Definition expect {A E} (r : result E A) : result E A :=
  match r with Err _ => Panic | r => r end.

Definition new_with_blockhash (instructions : list Instruction) (payer : option Pubkey)
    (blockhash : Hash) : result CompileError Message :=
  '(header, account_keys) ←
    expect (CompiledKeys.try_into_message_components (CompiledKeys.compile instructions payer));
  instructions ← compile_instructions instructions account_keys;
  Ok (mkMessage header account_keys blockhash instructions).

Definition new (instructions : list Instruction) (payer : option Pubkey)
    : result CompileError Message :=
  new_with_blockhash instructions payer Pubkey_default.

Definition new_with_nonce `{SystemBincode} (instructions : list Instruction) (payer : option Pubkey)
    (nonce_account_pubkey nonce_authority_pubkey : Pubkey) : result CompileError Message :=
  new (SystemInstruction.advance_nonce_account nonce_account_pubkey nonce_authority_pubkey :: instructions) payer.

(** The loop of [sanitize] over the accounts of an instruction. *)
Definition sanitize_instruction (n : nat) (ci : CompiledInstruction) : result SanitizeError unit :=
  ensure (program_id_index ci <? n)%nat IndexOutOfBounds;;
  ensure (negb (program_id_index ci =? 0)%nat) IndexOutOfBounds;;
  ensure (forallb (fun ai => ai <? n)%nat (ci_accounts ci)) IndexOutOfBounds.

Fixpoint sanitize_instructions (n : nat) (l : list CompiledInstruction)
    : result SanitizeError unit :=
  match l with
  | [] => Ok tt
  | ci :: l => sanitize_instruction n ci;; sanitize_instructions n l
  end.

Definition sanitize (self : Message) : result SanitizeError unit :=
  ensure (num_required_signatures (header self) + num_readonly_unsigned_accounts (header self)
            <=? length (account_keys self))%nat IndexOutOfBounds;;
  ensure (num_readonly_signed_accounts (header self)
            <? num_required_signatures (header self))%nat IndexOutOfBounds;;
  sanitize_instructions (length (account_keys self)) (instructions self).

Definition program_id {E} (self : Message) (instruction_index : nat)
    : result E (option Pubkey) :=
  match instructions self !! instruction_index with
  | Some ix => k ← unwrap (account_keys self !! program_id_index ix); Ok (Some k)
  | None => Ok None
  end.

(** [is_writable]: the two differences wrap around, the key is indexed. *)
Definition is_writable {E} (self : Message) (i : nat) : result E bool :=
  let h := header self in
  if (Z.of_nat i <? sub_u8 (num_required_signatures h) (num_readonly_signed_accounts h))
     || ((num_required_signatures h <=? i)%nat
         && (Z.of_nat i <? sub_usize (length (account_keys self))
                                     (num_readonly_unsigned_accounts h)))
  then
    k ← unwrap (account_keys self !! i);
    Ok (negb (is_builtin_key_or_sysvar k)
        && negb (demote_program_id (instructions self) (account_keys self) i))
  else Ok false.

Definition is_signer (self : Message) (i : nat) : bool :=
  (i <? num_required_signatures (header self))%nat.

Definition signer_keys (self : Message) : list Pubkey :=
  take (Nat.min (length (account_keys self)) (num_required_signatures (header self)))
    (account_keys self).

(** The loop of [has_duplicates]: every key against those behind it. *)
Fixpoint has_duplicates_in (keys : list Pubkey) : bool :=
  match keys with
  | key :: keys => existsb (fun k => key_eqb k key) keys || has_duplicates_in keys
  | [] => false
  end.

Definition has_duplicates (self : Message) : bool := has_duplicates_in (account_keys self).

End Legacy.

(** ** [versions/v0] *)
Record MessageAddressTableLookup : Type := mkLookup {
  account_key : Pubkey;
  writable_indexes : list nat;
  readonly_indexes : list nat
}.

Record AddressLookupTableAccount : Type := mkLookupTable {
  table_key : Pubkey;
  table_addresses : list Pubkey
}.

Definition try_extract_table_lookup (self : CompiledKeys)
    (lookup_table_account : AddressLookupTableAccount)
    : result CompileError (option (MessageAddressTableLookup * LoadedAddresses) * CompiledKeys) :=
  '(writable_indexes, drained_writable_keys, self) ←
    CompiledKeys.try_drain_keys_found_in_lookup_table (table_addresses lookup_table_account)
      (fun meta => negb (km_is_signer meta) && negb (km_is_invoked meta) && km_is_writable meta)
      self;
  '(readonly_indexes, drained_readonly_keys, self) ←
    CompiledKeys.try_drain_keys_found_in_lookup_table (table_addresses lookup_table_account)
      (fun meta => negb (km_is_signer meta) && negb (km_is_invoked meta)
                   && negb (km_is_writable meta))
      self;
  match writable_indexes, readonly_indexes with
  | [], [] => Ok (None, self)
  | _, _ =>
      Ok (Some (mkLookup (table_key lookup_table_account) writable_indexes readonly_indexes,
                mkLoaded drained_writable_keys drained_readonly_keys), self)
  end.

Module V0.

Record Message : Type := mkMessage {
  header : MessageHeader;
  account_keys : list Pubkey;
  recent_blockhash : Hash;
  instructions : list CompiledInstruction;
  address_table_lookups : list MessageAddressTableLookup
}.

(** The loop of [try_compile] over the lookup tables. *)
Fixpoint extract_loop (tables : list AddressLookupTableAccount) (compiled_keys : CompiledKeys)
    : result CompileError
        (list MessageAddressTableLookup * list LoadedAddresses * CompiledKeys) :=
  match tables with
  | [] => Ok ([], [], compiled_keys)
  | table :: tables =>
      '(found, compiled_keys) ← try_extract_table_lookup compiled_keys table;
      '(lookups, loaded, compiled_keys) ← extract_loop tables compiled_keys;
      match found with
      | Some (lookup, addresses) => Ok (lookup :: lookups, addresses :: loaded, compiled_keys)
      | None => Ok (lookups, loaded, compiled_keys)
      end
  end.

(** The message and the addresses its lookups load. *)
Definition try_compile_loaded (payer : Pubkey) (instructions : list Instruction)
    (address_lookup_table_accounts : list AddressLookupTableAccount) (recent_blockhash : Hash)
    : result CompileError (Message * LoadedAddresses) :=
  '(address_table_lookups, loaded_addresses_list, compiled_keys) ←
    extract_loop address_lookup_table_accounts (CompiledKeys.compile instructions (Some payer));
  '(header, static_keys) ← CompiledKeys.try_into_message_components compiled_keys;
  let dynamic_keys := LoadedAddresses_from_iter loaded_addresses_list in
  instructions ←
    AccountKeys.try_compile_instructions (mkAccountKeys static_keys (Some dynamic_keys))
      instructions;
  Ok (mkMessage header static_keys recent_blockhash instructions address_table_lookups,
      dynamic_keys).

Definition try_compile (payer : Pubkey) (instructions : list Instruction)
    (address_lookup_table_accounts : list AddressLookupTableAccount) (recent_blockhash : Hash)
    : result CompileError Message :=
  '(message, _) ← try_compile_loaded payer instructions address_lookup_table_accounts
                    recent_blockhash;
  Ok message.

(** The number of addresses the lookups load; every lookup loads one at least. *)
Fixpoint count_lookups (total : nat) (l : list MessageAddressTableLookup)
    : result SanitizeError nat :=
  match l with
  | [] => Ok total
  | lookup :: l =>
      let n := (length (writable_indexes lookup) + length (readonly_indexes lookup))%nat in
      ensure (negb (n =? 0)%nat) InvalidValue;; count_lookups (total + n) l
  end.

Definition sanitize_instruction (max_program_id_ix max_account_ix : nat)
    (ci : CompiledInstruction) : result SanitizeError unit :=
  ensure (program_id_index ci <=? max_program_id_ix)%nat IndexOutOfBounds;;
  ensure (negb (program_id_index ci =? 0)%nat) IndexOutOfBounds;;
  ensure (forallb (fun ai => ai <=? max_account_ix)%nat (ci_accounts ci)) IndexOutOfBounds.

Fixpoint sanitize_instructions (max_program_id_ix max_account_ix : nat)
    (l : list CompiledInstruction) : result SanitizeError unit :=
  match l with
  | [] => Ok tt
  | ci :: l => sanitize_instruction max_program_id_ix max_account_ix ci;;
               sanitize_instructions max_program_id_ix max_account_ix l
  end.

Definition sanitize (self : Message) (reject_dynamic_program_ids : bool)
    : result SanitizeError unit :=
  let num_static_account_keys := length (account_keys self) in
  ensure (num_required_signatures (header self) + num_readonly_unsigned_accounts (header self)
            <=? num_static_account_keys)%nat IndexOutOfBounds;;
  ensure (num_readonly_signed_accounts (header self)
            <? num_required_signatures (header self))%nat InvalidValue;;
  num_dynamic_account_keys ← count_lookups 0 (address_table_lookups self);
  ensure (negb (num_static_account_keys =? 0)%nat) InvalidValue;;
  let total_account_keys := (num_static_account_keys + num_dynamic_account_keys)%nat in
  ensure (total_account_keys <=? 256)%nat IndexOutOfBounds;;
  let max_account_ix := pred total_account_keys in
  let max_program_id_ix :=
    if reject_dynamic_program_ids then pred num_static_account_keys else max_account_ix in
  sanitize_instructions max_program_id_ix max_account_ix (instructions self).

End V0.

(** ** [versions/v0/loaded.rs] *)
Record LoadedMessage : Type := mkLoadedMessage {
  lm_message : V0.Message;
  loaded_addresses : LoadedAddresses
}.

Module LoadedMessage.

Definition account_keys (self : LoadedMessage) : AccountKeys :=
  mkAccountKeys (V0.account_keys (lm_message self)) (Some (loaded_addresses self)).

Fixpoint any_repeated (uniq : gset Pubkey) (keys : list Pubkey) : bool :=
  match keys with
  | [] => false
  | key :: keys => bool_decide (key ∈ uniq) || any_repeated ({[key]} ∪ uniq) keys
  end.

Definition has_duplicates (self : LoadedMessage) : bool :=
  any_repeated ∅ (AccountKeys.iter (account_keys self)).

Definition is_writable_index (self : LoadedMessage) (key_index : nat) : bool :=
  let h := V0.header (lm_message self) in
  let num_account_keys := length (V0.account_keys (lm_message self)) in
  let num_signed_accounts := num_required_signatures h in
  if (num_account_keys <=? key_index)%nat then
    (key_index - num_account_keys <? length (la_writable (loaded_addresses self)))%nat
  else if (num_signed_accounts <=? key_index)%nat then
    (key_index - num_signed_accounts
       <? num_account_keys - num_signed_accounts - num_readonly_unsigned_accounts h)%nat
  else (key_index <? num_signed_accounts - num_readonly_signed_accounts h)%nat.

Definition is_writable (self : LoadedMessage) (key_index : nat) : bool :=
  if is_writable_index self key_index then
    match AccountKeys.get (account_keys self) key_index with
    | Some key =>
        negb (is_builtin_key_or_sysvar key
              || demote_program_id (V0.instructions (lm_message self))
                   (AccountKeys.iter (account_keys self)) key_index)
    | None => false
    end
  else false.

Definition is_signer (self : LoadedMessage) (i : nat) : bool :=
  (i <? num_required_signatures (V0.header (lm_message self)))%nat.

End LoadedMessage.

(** ** [sanitized.rs] *)
Inductive SanitizedMessage : Type :=
| LegacyMessage (message : Legacy.Message)
| V0Message (message : LoadedMessage).

Module SanitizedMessage.

Definition header (self : SanitizedMessage) : MessageHeader :=
  match self with
  | LegacyMessage message => Legacy.header message
  | V0Message loaded_msg => V0.header (lm_message loaded_msg)
  end.

Definition instructions (self : SanitizedMessage) : list CompiledInstruction :=
  match self with
  | LegacyMessage message => Legacy.instructions message
  | V0Message loaded_msg => V0.instructions (lm_message loaded_msg)
  end.

Definition account_keys (self : SanitizedMessage) : AccountKeys :=
  match self with
  | LegacyMessage message => mkAccountKeys (Legacy.account_keys message) None
  | V0Message message => LoadedMessage.account_keys message
  end.

Definition has_duplicates (self : SanitizedMessage) : bool :=
  match self with
  | LegacyMessage message => Legacy.has_duplicates message
  | V0Message message => LoadedMessage.has_duplicates message
  end.

Definition is_writable {E} (self : SanitizedMessage) (index : nat) : result E bool :=
  match self with
  | LegacyMessage message => Legacy.is_writable message index
  | V0Message message => Ok (LoadedMessage.is_writable message index)
  end.

Definition is_signer (self : SanitizedMessage) (index : nat) : bool :=
  (index <? num_required_signatures (header self))%nat.

Definition is_invoked (self : SanitizedMessage) (key_index : nat) : bool :=
  is_key_called_as_program (instructions self) key_index.

Definition is_non_loader_key (self : SanitizedMessage) (key_index : nat) : bool :=
  negb (is_invoked self key_index)
  || is_key_passed_to_program (instructions self) key_index.

(** The decompiled form of one account index; the key is unwrapped. *)
Definition decompile_account {E} (self : SanitizedMessage) (account_index : nat)
    : result E AccountMeta :=
  w ← is_writable self account_index;
  k ← unwrap (AccountKeys.get (account_keys self) account_index);
  Ok (mkAccountMeta k (is_signer self account_index) w).

Fixpoint decompile_accounts {E} (self : SanitizedMessage) (l : list nat)
    : result E (list AccountMeta) :=
  match l with
  | [] => Ok []
  | i :: l => m ← decompile_account self i; ms ← decompile_accounts self l; Ok (m :: ms)
  end.

(** [program_instructions_iter] and [decompile_instructions]; [expect] on the program id. *)
Fixpoint decompile_all {E} (self : SanitizedMessage) (l : list CompiledInstruction)
    : result E (list Instruction) :=
  match l with
  | [] => Ok []
  | ix :: l =>
      program_id ← unwrap (AccountKeys.get (account_keys self) (program_id_index ix));
      accounts ← decompile_accounts self (ci_accounts ix);
      rest ← decompile_all self l;
      Ok (mkInstruction program_id accounts (ci_data ix) :: rest)
  end.

Definition decompile_instructions {E} (self : SanitizedMessage)
    : result E (list Instruction) :=
  decompile_all self (instructions self).

End SanitizedMessage.
