(* ===== verification/MessageProcessor.v ===== *)
(** * Processing a message

    [runtime/src/message_processor.rs]: the instructions of a message run one after the
    other over the accounts loaded for it; the first error aborts the message. *)

From Stdlib Require Import Strings.Byte.
From S2P Require Import Prelude Sdk Rent Program SystemInstruction Transaction Nonce Runtime Message.

(** [sdk/src/transaction/error.rs] *)
Inductive TransactionError : Type :=
| AccountInUse | AccountLoadedTwice | AccountNotFound | ProgramAccountNotFound
| InsufficientFundsForFee | InvalidAccountForFee | AlreadyProcessed | BlockhashNotFound
| TxInstructionError (index : nat) (e : InstructionError) | CallChainTooDeep
| MissingSignatureForFee | InvalidAccountIndex | SignatureFailure | InvalidProgramForExecution
| SanitizeFailure | ClusterMaintenance | TxAccountBorrowOutstanding
| WouldExceedMaxBlockCostLimit | UnsupportedVersion | InvalidWritableAccount
| WouldExceedMaxAccountCostLimit | WouldExceedAccountDataBlockLimit | TooManyAccountLocks
| AddressLookupTableNotFound | InvalidAddressLookupTableOwner | InvalidAddressLookupTableData
| InvalidAddressLookupTableIndex | InvalidRentPayingAccount | WouldExceedMaxVoteCostLimit
| WouldExceedAccountDataTotalLimit | DuplicateInstruction (index : nat)
| InsufficientFundsForRent (account_index : nat).

(** ** [sdk/src/precompiles.rs] *)
Definition secp256k1_program_id : Pubkey :=
  pubkey_of_Z 0x4c6fc20f050ccf05584d7211c9f8cf59ec14785bb166a1e2830e81220000000.
Definition ed25519_program_id : Pubkey :=
  pubkey_of_Z 0x37d46d67c93fbbe12f9428f838d40ff0570744927f48a64fcca704480000000.

(** The precompiled programs; both are enabled by the same feature. *)
Definition PRECOMPILES : list Pubkey := [secp256k1_program_id; ed25519_program_id].

Definition is_precompile (program_id : Pubkey) (f : Features) : bool :=
  existsb (fun id => prevent_calling_precompiles_as_programs f && key_eqb id program_id)
    PRECOMPILES.

(** ** [sysvar/instructions.rs] *)
Definition store_current_index {E} (data : list byte) (instruction_index : nat)
    : result E (list byte) :=
  if (length data <? 2)%nat then Panic
  else Ok (take (length data - 2) data
           ++ to_le_bytes 2 (Z.of_nat instruction_index mod 2 ^ 16)).

(** The index of the running instruction is written to the instructions sysvar. *)
Definition fixup_instructions_sysvar (instruction_index : nat) (tc : TransactionContext)
    : result TransactionError TransactionContext :=
  match find_index_of_account tc instructions_sysvar_id with
  | Some account_index =>
      a ← ok_or (accounts tc !! account_index) InvalidAccountIndex;
      d ← store_current_index (acc_data a) instruction_index;
      Ok (with_accounts tc (<[account_index := set_acc_data a d]> (accounts tc)))
  | None => Ok tc
  end.

(** The accounts of a top-level instruction; [before] are those listed so far. *)
Fixpoint message_accounts (message : SanitizedMessage) (instruction_account_index : nat)
    (before l : list nat) : result TransactionError (list InstructionAccount) :=
  match l with
  | [] => Ok []
  | index_in_transaction :: l =>
      let index_in_callee :=
        default instruction_account_index
          (position (fun account_index => account_index =? index_in_transaction)%nat before) in
      is_writable ← SanitizedMessage.is_writable message index_in_transaction;
      rest ← message_accounts message (S instruction_account_index)
               (before ++ [index_in_transaction]) l;
      Ok (mkInstructionAccount index_in_transaction index_in_transaction index_in_callee
            (SanitizedMessage.is_signer message index_in_transaction) is_writable :: rest)
  end.

Section process.
Context `{LoaderBincode}.
Variable builtin_programs : list (Pubkey * (nat -> program)).
(** The depth of nested calls; see [Runtime.process_instruction]. *)
Variable fuel : nat.

(** One instruction of the message. *)
Definition process_one (message : SanitizedMessage) (instruction_index : nat)
    (instruction : CompiledInstruction) (program_indices : list nat) (ic : InvokeContext)
    : result TransactionError InvokeContext :=
  program_id ← unwrap (AccountKeys.get (SanitizedMessage.account_keys message)
                         (program_id_index instruction));
  let is_precompile := prevent_calling_precompiles_as_programs (features ic)
                       && is_precompile program_id (features ic) in
  let record := record_instruction_in_transaction_context_push (features ic) in
  if is_precompile && negb record then Ok ic
  else
    tc ← fixup_instructions_sysvar instruction_index (transaction_context ic);
    let ic := with_tc ic tc in
    instruction_accounts ← message_accounts message 0 [] (ci_accounts instruction);
    map_err (TxInstructionError (as_u8 instruction_index))
      (if is_precompile && record then
         tc ← TransactionContext.push program_indices instruction_accounts
                (ci_data instruction) true (transaction_context ic);
         tc ← TransactionContext.pop tc;
         Ok (with_tc ic tc)
       else process_instruction builtin_programs fuel (ci_data instruction)
              instruction_accounts program_indices ic).

Fixpoint process_all (message : SanitizedMessage) (instruction_index : nat)
    (l : list (CompiledInstruction * list nat)) (ic : InvokeContext)
    : result TransactionError InvokeContext :=
  match l with
  | [] => Ok ic
  | (instruction, program_indices) :: l =>
      ic ← process_one message instruction_index instruction program_indices ic;
      process_all message (S instruction_index) l ic
  end.

(** The change of the length of all account data, and the context with the accounts. *)
Definition process_message (message : SanitizedMessage) (program_indices : list (list nat))
    (tc : TransactionContext) (rent : Rent) (features : Features) (max_invoke_depth : nat)
    (current_accounts_data_len : Z) : result TransactionError (Z * TransactionContext) :=
  ic ← process_all message 0
         (combine (SanitizedMessage.instructions message) program_indices)
         (InvokeContext_new tc rent max_invoke_depth features current_accounts_data_len);
  Ok (meter_delta (accounts_data_meter ic), transaction_context ic).

End process.
