(* ===== verification/MessageFixtures.v ===== *)
(** * A concrete message

    Two built-in programs: the first moves ten lamports between two of its accounts and
    calls the second, which grows the data of a third account. The message that runs the
    first is the input at which the theorems on the runtime are instantiated. *)

From Stdlib Require Import Strings.Byte.
From S2P Require Import Prelude Sdk Rent Program SystemInstruction Transaction Nonce Runtime Message MessageProcessor.

(** No program of the example is upgradeable. *)
Definition no_loader : LoaderBincode := {| bincode_deserialize_loader := fun _ => None |}.
#[global] Existing Instance no_loader.

Definition mx_payer : Pubkey := pubkey_of_Z 101.
Definition mx_other : Pubkey := pubkey_of_Z 102.
Definition mx_store : Pubkey := pubkey_of_Z 103.
Definition mx_idle : Pubkey := pubkey_of_Z 104.
Definition mx_caller : Pubkey := pubkey_of_Z 105.
Definition mx_callee : Pubkey := pubkey_of_Z 106.

(** The program of the message is loaded after the accounts of the message. *)
Definition mx_accounts : list (Pubkey * Account) :=
  [(mx_payer, mkAccount 100 [] mx_caller false 0);
   (mx_other, mkAccount 5 [x01] system_program_id false 0);
   (mx_store, mkAccount 7 [] mx_callee false 0);
   (mx_idle, mkAccount 9 [x02] mx_caller false 0);
   (mx_caller, mkAccount 0 [] system_program_id false 0);
   (mx_callee, mkAccount 1 [] native_loader_id true 0);
   (mx_caller, mkAccount 1 [] native_loader_id true 0)].

Definition mx_tc : TransactionContext := TransactionContext_new mx_accounts 5 1 0.

(** The called program grows its account. *)
Definition mx_callee_code (_ : nat) : program :=
  Store 0 (mkAccount 7 [x0a; x0b; x0c] mx_callee false 0) Return.

(** The calling program moves lamports and calls. *)
Definition mx_caller_code (_ : nat) : program :=
  Store 0 (mkAccount 90 [] mx_caller false 0)
    (Store 1 (mkAccount 15 [x01] system_program_id false 0)
       (Invoke (mkInstruction mx_callee [mkAccountMeta mx_store false true] []) [] [] Return)).

Definition mx_builtins : list (Pubkey * (nat -> program)) :=
  [(mx_caller, mx_caller_code); (mx_callee, mx_callee_code)].

Definition mx_message : SanitizedMessage :=
  LegacyMessage (Legacy.mkMessage (mkHeader 1 0 3)
    [mx_payer; mx_other; mx_store; mx_idle; mx_caller; mx_callee] Pubkey_default
    [mkCompiled 4 [0; 1; 2; 3; 5]%nat []]).

Definition mx_features : Features := mkFeatures true true true.

(** The context after the message. *)
Definition mx_after : TransactionContext :=
  match process_message mx_builtins 6 mx_message [[6%nat]] mx_tc Rent_default mx_features 4 0 with
  | Ok (_, tc) => tc
  | _ => mx_tc
  end.

Lemma mx_run_ok :
  process_message mx_builtins 6 mx_message [[6%nat]] mx_tc Rent_default mx_features 4 0
  = Ok (0, mx_after).
Proof. vm_compute. reflexivity. Qed.
