(* ===== verification/MessageSafety.v ===== *)
(** * What the runtime guarantees of a message

    Whatever the programs of a message do: if the message succeeds, the sum of all
    balances is kept, accounts that no instruction may write are unchanged, and
    accounts of programs that no instruction involves are at most credited. *)

From Stdlib Require Import Strings.Byte.
From S2P Require Import Prelude Sdk Rent Program SystemInstruction Transaction Nonce Runtime RuntimeSafety Message MessageProcessor MessageFixtures.

(** ** The accounts of a top-level instruction *)
Definition first_indices (i : nat) (ias : list InstructionAccount) : list nat :=
  index_in_transaction <$> first_occurrences i ias.

Lemma message_accounts_ok message i before l ias :
  length before = i -> message_accounts message i before l = Ok ias ->
  index_in_transaction <$> ias = l /\
  Forall (fun ia => SanitizedMessage.is_writable (E:=TransactionError) message (index_in_transaction ia)
                      = Ok (ia_is_writable ia)) ias /\
  NoDup (first_indices i ias) /\
  (forall x, x ∈ first_indices i ias -> x ∉ before /\ x ∈ l) /\
  (forall x, x ∈ l -> x ∈ before \/ x ∈ first_indices i ias).
Proof.
  revert i before ias. induction l as [|x l IH]; intros i before ias Hi H; cbn [message_accounts] in H.
  { injection H as <-. split_and!; try done.
    - constructor.
    - intros x Hx. by apply not_elem_of_nil in Hx.
    - intros x Hx. by apply not_elem_of_nil in Hx. }
  apply result_bind_ok in H as (w & Hw & H). apply result_bind_ok in H as (rest & Hrest & H).
  injection H as <-.
  destruct (IH (S i) (before ++ [x]) rest) as (Hix & Hwr & Hnd & Hin & Hcov); [by rewrite length_app, Hi, Nat.add_1_r|done|].
  unfold first_indices in *. cbn [first_occurrences index_in_callee].
  destruct (position _ before) as [j|] eqn:Ep.
  - apply position_some in Ep as (y & Hy & E). apply Nat.eqb_eq in E as ->.
    pose proof (lookup_lt_Some _ _ _ Hy) as Hlt. apply list_elem_of_lookup_2 in Hy.
    cbn [default]. unfold id. replace (i =? j)%nat with false by (symmetry; apply Nat.eqb_neq; lia).
    split_and!; [rewrite fmap_cons; cbn; congruence|by constructor|done|..].
    + intros z Hz. destruct (Hin z Hz) as [Hnb Hzl]. rewrite elem_of_app in Hnb.
      split; [tauto|by right].
    + intros z Hz. apply elem_of_cons in Hz as [->|Hz]; [by left|].
      destruct (Hcov z Hz) as [Hb|?]; [|by right]. apply elem_of_app in Hb as [?|Hb]; [by left|].
      apply list_elem_of_singleton in Hb as ->. by left.
  - cbn [default]. rewrite Nat.eqb_refl, !fmap_cons. cbn [index_in_transaction].
    assert (x ∉ before) as Hx.
    { intros [j Hj]%list_elem_of_lookup. pose proof (position_none _ _ _ _ Ep Hj) as E.
      cbv beta in E. by rewrite Nat.eqb_refl in E. }
    split_and!; [congruence|by constructor|..].
    + constructor; [|done]. intros Hxin. destruct (Hin x Hxin) as [Hnb _].
      apply Hnb, elem_of_app. right. by apply list_elem_of_singleton.
    + intros z Hz. apply elem_of_cons in Hz as [->|Hz]; [split; [done|by left]|].
      destruct (Hin z Hz) as [Hnb Hzl]. rewrite elem_of_app in Hnb. split; [tauto|by right].
    + intros z Hz. rewrite elem_of_cons. apply elem_of_cons in Hz as [->|Hz]; [by right; left|].
      destruct (Hcov z Hz) as [Hb|?]; [|by right; right].
      apply elem_of_app in Hb as [?|Hb]; [by left|]. apply list_elem_of_singleton in Hb as ->.
      by right; left.
Qed.

(** ** A top-level instruction *)
Lemma verify_loop_ok ic pid l pre ps qs m ps' qs' m' :
  length l = length pre ->
  InvokeContext.verify_loop ic pid l pre ps qs m = Ok (ps', qs', m') ->
  ps' - ps = pre_sum pre /\
  qs' - qs = sum_at (accounts (transaction_context ic)) (index_in_transaction <$> l) /\
  Forall2 (fun ia p => exists post,
    accounts (transaction_context ic) !! index_in_transaction ia = Some post /\
    permitted pid (ia_is_writable ia) (pre_account p) post) l pre.
Proof.
  revert pre ps qs m. induction l as [|ia l IH]; intros [|p pre] ps qs m Hlen Hl; try done;
    cbn [InvokeContext.verify_loop] in Hl.
  { injection Hl as <- <- <-. split_and!; [cbn; lia..|constructor]. }
  apply result_bind_ok in Hl as (post & Hpost & Hl). unfold get_account_at_index in Hpost.
  apply ok_or_ok in Hpost. apply result_bind_ok in Hl as ([] & Hv & Hl). apply verify_permitted in Hv.
  apply result_bind_ok in Hl as (ps1 & H1 & Hl). apply add_u128_ok in H1.
  apply result_bind_ok in Hl as (qs1 & H2 & Hl). apply add_u128_ok in H2.
  apply result_bind_ok in Hl as (m1 & _ & Hl).
  destruct (IH pre ps1 qs1 m1) as (Hp & Hq & HF); [by injection Hlen|done|].
  rewrite fmap_cons. cbn [pre_sum sum_at foldr]. fold (pre_sum pre).
  fold (sum_at (accounts (transaction_context ic)) (index_in_transaction <$> l)).
  unfold lamports_at. rewrite Hpost. split_and!; [lia..|]. constructor; [by exists post|done].
Qed.

Section top.
Context `{LoaderBincode}.
Variable builtin_programs : list (Pubkey * (nat -> program)).
Variable W : nat -> Prop.
Variable P : Pubkey -> Prop.
Variable ias : list InstructionAccount.
Variable pis : list nat.
Variable ic : InvokeContext.
Let tc := transaction_context ic.
Let J := first_indices 0 ias.
Hypothesis HK : forall j, j ∈ J -> first_position (account_keys tc) j.
Hypothesis Hstack : instruction_stack tc = [].
Hypothesis HJ : NoDup J.
Hypothesis Hias : Forall (fun ia => index_in_transaction ia ∈ J /\
  (ia_is_writable ia = true -> W (index_in_transaction ia))) ias.
Hypothesis HP : forall j k, j ∈ J -> account_keys tc !! j = Some k -> P k.
Hypothesis Hpid : forall i k, head (rev pis) = Some i -> account_keys tc !! i = Some k -> P k.

Let f0 data := mkInstructionContext 0 pis ias data.
Let state := good (account_keys tc) J W P (accounts tc) (sum_at (accounts tc) J).

Lemma pre_accounts_ok l pre :
  Forall2 (fun ia p => pre_account_of tc ia = Ok p) l pre ->
  Forall2 (pre_ok (account_keys tc) W P (accounts tc)) (index_in_transaction <$> l) pre /\
  pre_sum pre = sum_at (accounts tc) (index_in_transaction <$> l).
Proof.
  induction 1 as [|ia p l pre Hp HF [IH1 IH2]]; [split; [constructor|done]|].
  unfold pre_account_of in Hp. apply result_bind_ok in Hp as ([] & _ & Hp).
  apply result_bind_ok in Hp as (a & Ha & Hp). apply result_bind_ok in Hp as (k & Hk & Hp).
  injection Hp as <-. unfold get_account_at_index in Ha. unfold get_key_of_account_at_index in Hk.
  apply ok_or_ok in Ha, Hk. rewrite fmap_cons. split.
  - constructor; [|done]. split; [done|]. exists a. split; [done|]. apply rtc_refl.
  - cbn [pre_sum sum_at foldr]. fold (pre_sum pre) (sum_at (accounts tc) (index_in_transaction <$> l)).
    unfold lamports_at. rewrite Ha, IH2. done.
Qed.

Lemma top_push_ok data ic' :
  InvokeContext.push ias pis data ic = Ok ic' ->
  state (f0 data) ic' /\ exists n, instruction_stack (transaction_context ic') = [n].
Proof.
  intros Hp. unfold InvokeContext.push in Hp. fold tc in Hp.
  apply result_bind_ok in Hp as ([] & _ & Hp). apply result_bind_ok in Hp as (pi & _ & Hp).
  apply result_bind_ok in Hp as (pid & _ & Hp). apply result_bind_ok in Hp as (ic1 & H1 & Hp).
  apply result_bind_ok in Hp as (ks & _ & Hp). apply result_bind_ok in Hp as (ks' & _ & Hp).
  apply result_bind_ok in Hp as (tc' & Hpush & Hp). injection Hp as <-.
  assert (InvokeContext.get_stack_height ic = 0)%nat as Hh
    by (unfold InvokeContext.get_stack_height, get_instruction_context_stack_height; fold tc; by rewrite Hstack).
  rewrite Hh in H1. cbn [Nat.eqb] in H1. apply result_bind_ok in H1 as (pre & Hpre & H1).
  injection H1 as <-. apply collect_ok in Hpre.
  destruct (pre_accounts_ok _ _ Hpre) as [Hok Hsum].
  unfold TransactionContext.push in Hpush. rewrite Hstack in Hpush. cbn in Hpush.
  case_match; [done|]. injection Hpush as <-. split; [|by eexists]. split.
  - split; try done.
  - exists (instruction_trace tc), [f0 data]. split_and!; try done. constructor; [|done].
    split; [done|]. cbn. intros i k. rewrite <-head_rev_lookup. apply Hpid.
Qed.

(** How a top-level instruction changes the accounts. *)
Definition outcome (tc' : TransactionContext) : Prop :=
  account_keys tc' = account_keys tc /\ length (accounts tc') = length (accounts tc) /\
  instruction_stack tc' = [] /\
  sum_lamports (accounts tc') = sum_lamports (accounts tc) /\
  (forall i, i ∉ J -> accounts tc' !! i = accounts tc !! i) /\
  (forall j, j ∈ J -> exists a a', accounts tc !! j = Some a /\ accounts tc' !! j = Some a' /\
     rtc (account_step P (W j)) a a').

Lemma top_verify_ok data ic1 ic' :
  state (f0 data) ic1 -> InvokeContext.verify ias pis ic1 = Ok ic' ->
  transaction_context ic' = transaction_context ic1 /\
  sum_at (accounts (transaction_context ic1)) J = sum_at (accounts tc) J /\
  (forall j, j ∈ J -> exists a a', accounts tc !! j = Some a /\
     accounts (transaction_context ic1) !! j = Some a' /\ rtc (account_step P (W j)) a a').
Proof.
  intros [[Hk Hlen Hpre Hsum Hother] Hfr] Hv. unfold InvokeContext.verify in Hv.
  apply result_bind_ok in Hv as (pid & Hpid' & Hv). apply map_err_ok in Hpid'.
  apply result_bind_ok in Hpid' as (c & Hc & Hpid'). apply result_bind_ok in Hv as (as_ & _ & Hv).
  apply result_bind_ok in Hv as ([[ps qs] m] & Hl & Hv). apply result_bind_ok in Hv as ([] & Heq & Hv).
  apply ensure_ok, Z.eqb_eq in Heq. injection Hv as <-. split; [done|].
  pose proof (Forall2_length Hpre) as Hlp. unfold J, first_indices in Hlp.
  rewrite length_fmap in Hlp.
  destruct (verify_loop_ok _ _ _ _ _ _ _ _ _ _ Hlp Hl) as (Hps & Hqs & HF).
  split; [fold (first_indices 0 ias) in Hqs; fold J in Hqs; lia|].
  intros j [n Hn]%list_elem_of_lookup. unfold J, first_indices in Hn, Hpre.
  pose proof Hn as Hn'. rewrite list_lookup_fmap in Hn'.
  destruct (first_occurrences 0 ias !! n) as [ia|] eqn:Eia; [|done]. injection Hn' as <-.
  destruct (Forall2_lookup_l _ _ _ _ _ HF Eia) as (p & Hp & post & Hpost & Hperm).
  destruct (Forall2_lookup_l _ _ _ _ _ Hpre Hn) as (p' & Hp' & _ & a & Ha & Hrtc).
  assert (p' = p) as -> by congruence.
  exists a, post. split_and!; [done..|]. eapply rtc_r; [exact Hrtc|].
  exists pid, (ia_is_writable ia). split_and!; [|..|done].
  - eapply last_program_key; [by eapply frames_current|done..].
  - pose proof (first_occurrences_Forall _ 0 _ Hias) as Hf.
    by destruct (Forall_lookup_1 _ _ _ _ Hf Eia).
Qed.

Lemma top_ok fuel data ic' :
  process_instruction builtin_programs fuel data ias pis ic = Ok ic' ->
  outcome (transaction_context ic').
Proof.
  intros Hr. destruct fuel as [|fuel]; [done|]. cbn [process_instruction] in Hr.
  assert (InvokeContext.get_stack_height ic = 0)%nat as Hh
    by (unfold InvokeContext.get_stack_height, get_instruction_context_stack_height; fold tc; by rewrite Hstack).
  rewrite Hh in Hr. cbn [Nat.eqb] in Hr. apply result_bind_ok in Hr as (ic0 & [= <-] & Hr).
  apply result_bind_ok in Hr as (ic1 & H1 & Hr). apply result_bind_ok in Hr as (ic2 & H2 & Hr).
  apply result_bind_ok in Hr as (ic3 & H3 & Hr). unfold InvokeContext.pop, TransactionContext.pop in Hr.
  apply result_bind_ok in Hr as (tc4 & H4 & [= <-]). case_match; [done|]. injection H4 as <-.
  destruct (top_push_ok _ _ H1) as [Hg1 [n Hn]].
  destruct (chain_ok _ _ _ _ _ _ HK HP _ _ _ _ _ (nested_ok _ _ _ _ _ _ HK HP _ _ fuel) Hg1 H2) as [Hg2 Hs2].
  destruct (top_verify_ok _ _ _ Hg2 H3) as (Ht3 & Hsum & Hrtc).
  destruct Hg2 as [[Hk Hl Hpre Hs Hother] Hfr]. unfold outcome. cbn [transaction_context with_tc].
  cbn [account_keys accounts instruction_stack with_stack]. rewrite Ht3, Hs2, Hn.
  split_and!; try done.
  pose proof (sum_agree _ _ J HJ Hl Hother). lia.
Qed.
End top.

(** ** Messages *)
Section message.
Context `{LoaderBincode}.
Variable builtin_programs : list (Pubkey * (nat -> program)).
Variable fuel : nat.
Variable message : SanitizedMessage.
Variable K : list Pubkey.

(** The instructions of the message with the accounts of their programs. *)
Variable L : list (CompiledInstruction * list nat).
Hypothesis HL : forall ci pis j, (ci, pis) ∈ L -> j ∈ ci_accounts ci -> first_position K j.

(** The programs that may run: those of the instructions, and what they may call. *)
Definition involved (k : Pubkey) : Prop :=
  exists ci pis, (ci, pis) ∈ L /\
    ((exists i, head (rev pis) = Some i /\ K !! i = Some k) \/
     (exists j, j ∈ ci_accounts ci /\ K !! j = Some k)).

(** The positions an instruction of the message may write. *)
Definition may_be_written (i : nat) : Prop :=
  SanitizedMessage.is_writable (E:=TransactionError) message i = Ok true /\
  exists ci pis, (ci, pis) ∈ L /\ i ∈ ci_accounts ci.

(** One change of the account at position [i]. *)
Definition message_step (i : nat) (a a' : Account) : Prop :=
  account_step involved (may_be_written i) a a' \/
  (K !! i = Some instructions_sysvar_id /\ exists d, a' = set_acc_data a d).

Record advances (tc tc' : TransactionContext) : Prop := {
  advances_keys : account_keys tc' = account_keys tc;
  advances_length : length (accounts tc') = length (accounts tc);
  advances_stack : instruction_stack tc' = [];
  advances_sum : sum_lamports (accounts tc') = sum_lamports (accounts tc);
  advances_steps : forall i a, accounts tc !! i = Some a ->
    exists a', accounts tc' !! i = Some a' /\ rtc (message_step i) a a'
}.

Lemma advances_same tc tc' :
  account_keys tc' = account_keys tc -> accounts tc' = accounts tc -> instruction_stack tc' = [] ->
  advances tc tc'.
Proof.
  intros HK HA Hs. split; rewrite ?HA; try done. intros i a Ha. exists a. split; [done|apply rtc_refl].
Qed.

Lemma advances_refl tc : instruction_stack tc = [] -> advances tc tc.
Proof. by apply advances_same. Qed.

Lemma advances_trans tc1 tc2 tc3 : advances tc1 tc2 -> advances tc2 tc3 -> advances tc1 tc3.
Proof.
  intros [K1 L1 S1 M1 A1] [K2 L2 S2 M2 A2]. split; try congruence. intros i a Ha.
  destruct (A1 i a Ha) as (b & Hb & R1). destruct (A2 i b Hb) as (c & Hc & R2).
  exists c. split; [done|]. by etransitivity.
Qed.

Lemma fixup_advances n tc tc' :
  account_keys tc = K -> instruction_stack tc = [] ->
  fixup_instructions_sysvar n tc = Ok tc' -> advances tc tc'.
Proof.
  intros HK Hs Hf. unfold fixup_instructions_sysvar in Hf.
  destruct (find_index_of_account tc instructions_sysvar_id) as [j|] eqn:Ej;
    [|injection Hf as <-; by apply advances_refl].
  apply find_index_of_account_ok in Ej. rewrite HK in Ej.
  apply result_bind_ok in Hf as (a & Ha & Hf). apply ok_or_ok in Ha.
  apply result_bind_ok in Hf as (d & _ & [= <-]). split; try done.
  - cbn. by rewrite length_insert.
  - cbn [accounts with_accounts]. by rewrite (sum_lamports_insert_eq _ _ a).
  - intros i b Hb. cbn [accounts with_accounts]. destruct (decide (i = j)) as [->|Hne].
    + rewrite list_lookup_insert_eq by (by eapply lookup_lt_Some).
      assert (b = a) as -> by congruence. eexists. split; [done|].
      apply rtc_once. right. eauto.
    + rewrite list_lookup_insert_ne by done. exists b. split; [done|apply rtc_refl].
Qed.

Lemma process_one_advances n ci pis ic ic' :
  (ci, pis) ∈ L -> account_keys (transaction_context ic) = K -> instruction_stack (transaction_context ic) = [] ->
  process_one builtin_programs fuel message n ci pis ic = Ok ic' ->
  advances (transaction_context ic) (transaction_context ic').
Proof.
  intros Hci HK Hs Hp. unfold process_one in Hp. apply result_bind_ok in Hp as (pid & _ & Hp).
  destruct (_ && negb _); [injection Hp as <-; by apply advances_refl|].
  apply result_bind_ok in Hp as (tc1 & Hf & Hp). apply (fixup_advances _ _ _ HK Hs) in Hf.
  apply result_bind_ok in Hp as (ias & Hias & Hp). apply map_err_ok in Hp.
  eapply advances_trans; [exact Hf|]. destruct Hf as [HK1 HL1 HS1 _ _].
  destruct (_ && record_instruction_in_transaction_context_push _).
  { apply result_bind_ok in Hp as (tc2 & H2 & Hp). apply result_bind_ok in Hp as (tc3 & H3 & [= <-]).
    unfold TransactionContext.push in H2. cbn [transaction_context with_tc] in H2. rewrite HS1 in H2.
    cbn in H2. case_match; [done|]. injection H2 as <-. unfold TransactionContext.pop in H3.
    cbn in H3. injection H3 as <-. by apply advances_same. }
  destruct (message_accounts_ok _ 0 [] _ _ eq_refl Hias) as (Hix & Hw & Hnd & Hin & Hcov).
  assert (forall j, j ∈ first_indices 0 ias <-> j ∈ ci_accounts ci) as HJ.
  { intros j. split; [intros Hj; by apply Hin|]. intros Hj. destruct (Hcov j Hj) as [Hj'|?]; [|done].
    by apply not_elem_of_nil in Hj'. }
  edestruct (top_ok builtin_programs may_be_written involved) as (Hk & Hlen & Hst & Hsum & Hout & Hins);
    [| | | | | |exact Hp|].
  - cbn. intros j Hj. rewrite HK1, HK. eapply HL; [exact Hci|by apply HJ].
  - done.
  - done.
  - apply Forall_lookup_2. intros m ia Hm. assert (index_in_transaction ia ∈ ci_accounts ci) as Hin'.
    { rewrite <-Hix. apply list_elem_of_lookup. exists m. by rewrite list_lookup_fmap, Hm. }
    split; [by apply HJ|]. intros E. split; [|by exists ci, pis].
    pose proof (Forall_lookup_1 _ _ _ _ Hw Hm) as Hwr. cbv beta in Hwr. by rewrite Hwr, E.
  - cbn. intros j k Hj Hk. exists ci, pis. split; [done|]. right. exists j. split; [by apply HJ|].
    congruence.
  - cbn. intros i k Hi Hk. exists ci, pis. split; [done|]. left. exists i. split; [done|]. congruence.
  - split; try done. intros i a Ha. cbn in *. destruct (decide (i ∈ first_indices 0 ias)) as [Hi|Hi].
    + destruct (Hins i Hi) as (b & b' & Hb & Hb' & Hr). assert (b = a) as -> by congruence.
      exists b'. split; [done|]. eapply rtc_subrel; [|exact Hr]. by left.
    + exists a. rewrite Hout by done. split; [done|apply rtc_refl].
Qed.

Lemma process_all_advances n l ic ic' :
  (forall x, x ∈ l -> x ∈ L) -> account_keys (transaction_context ic) = K -> instruction_stack (transaction_context ic) = [] ->
  process_all builtin_programs fuel message n l ic = Ok ic' ->
  advances (transaction_context ic) (transaction_context ic').
Proof.
  revert n ic. induction l as [|[ci pis] l IH]; intros n ic Hl HK Hs Hp; cbn [process_all] in Hp.
  { injection Hp as <-. by apply advances_refl. }
  apply result_bind_ok in Hp as (ic1 & H1 & Hp).
  apply process_one_advances in H1; try done; [|apply Hl; by left].
  eapply advances_trans; [exact H1|]. destruct H1 as [HK1 HL1 HS1 _ _].
  eapply IH; try done; [|congruence].
  intros x Hx. apply Hl. by right.
Qed.
End message.

Lemma steps_readonly P a a' : rtc (account_step P False) a a' -> a' = a.
Proof.
  induction 1 as [|a b c (pid & w & _ & Hw & [Ho Hs Hl Hd He Hr]) _ IH]; [done|]. subst c.
  destruct w; [by destruct Hw|].
  destruct a as [l d o e r], b as [l' d' o' e' r']; cbn in *. subst r'.
  f_equal.
  - destruct (decide (l' = l)) as [|Hn]; [done|]. by destruct (Hl Hn).
  - destruct (decide (d' = d)) as [|Hn]; [done|]. by destruct (Hd Hn) as (_ & ? & _).
  - destruct (decide (o' = o)) as [|Hn]; [done|]. by destruct (Ho Hn).
  - destruct (decide (e' = e)) as [|Hn]; [done|]. by destruct (He Hn).
Qed.

(** What stays of an account none of whose owners runs. *)
Definition at_most_credited (a a' : Account) : Prop :=
  acc_owner a' = acc_owner a /\ acc_data a' = acc_data a /\
  acc_executable a' = acc_executable a /\ acc_rent_epoch a' = acc_rent_epoch a /\
  acc_lamports a <= acc_lamports a'.

Lemma steps_foreign P W a a' :
  ~ P (acc_owner a) -> rtc (account_step P W) a a' -> at_most_credited a a'.
Proof.
  intros Hn Hr. induction Hr as [|a b c (pid & w & HP & Hw & [Ho Hs Hl Hd He Hr]) _ IH].
  { unfold at_most_credited. split_and!; done || lia. }
  assert (pid <> acc_owner a) as Hne by congruence.
  assert (acc_owner b = acc_owner a) as Eo.
  { destruct (decide (acc_owner b = acc_owner a)) as [|E]; [done|]. by destruct (Ho E) as (_ & _ & ? & _). }
  destruct IH as (IHo & IHd & IHe & IHr & IHl); [by rewrite Eo|].
  unfold at_most_credited. split_and!; try congruence.
  - rewrite IHd. destruct (decide (acc_data b = acc_data a)) as [|E]; [done|]. by destruct (Hd E).
  - rewrite IHe. destruct (decide (acc_executable b = acc_executable a)) as [|E]; [done|].
    destruct (He E) as (_ & _ & E'). congruence.
  - destruct (decide (acc_lamports b < acc_lamports a)) as [E|E]; [by destruct (Hs E)|lia].
Qed.

(** ** The context of a message

    The distinct keys of the message come first, and its instructions name accounts among
    them; the accounts of its programs follow. *)
Definition message_keys (message : SanitizedMessage) : list Pubkey :=
  AccountKeys.iter (SanitizedMessage.account_keys message).

Lemma keys_length m : AccountKeys.len (SanitizedMessage.account_keys m) = length (message_keys m).
Proof.
  unfold message_keys, AccountKeys.len, AccountKeys.iter. generalize (AccountKeys.key_segment_iter (SanitizedMessage.account_keys m)).
  assert (forall (l : list (list Pubkey)) n, foldl (fun n segment => n + length segment)%nat n l = (n + length (concat l))%nat) as H.
  { induction l as [|x l IH]; intros n; cbn; [lia|]. rewrite IH, length_app. lia. }
  intros l. by rewrite H.
Qed.

Record message_context (message : SanitizedMessage) (tc : TransactionContext) : Prop := {
  mc_keys : exists programs, account_keys tc = message_keys message ++ programs;
  mc_distinct : SanitizedMessage.has_duplicates message = false;
  mc_indices ci j : ci ∈ SanitizedMessage.instructions message -> j ∈ ci_accounts ci ->
    (j < length (message_keys message))%nat
}.

Lemma has_duplicates_in_distinct keys : Legacy.has_duplicates_in keys = false -> NoDup keys.
Proof.
  induction keys as [|k keys IH]; cbn; [by constructor|]. intros [Hk Hr]%orb_false_iff.
  constructor; [|by apply IH]. intros Hin. apply not_true_iff_false in Hk. apply Hk, existsb_exists.
  exists k. split; [by apply list_elem_of_In|by apply key_eqb_eq].
Qed.

Lemma any_repeated_distinct keys uniq :
  LoadedMessage.any_repeated uniq keys = false -> NoDup keys /\ forall k, k ∈ keys -> k ∉ uniq.
Proof.
  revert uniq. induction keys as [|k keys IH]; intros uniq; cbn.
  { intros _. split; [constructor|]. intros k Hk. by apply not_elem_of_nil in Hk. }
  intros [Hk%bool_decide_eq_false (Hn & Hu)%IH]%orb_false_iff. split.
  - constructor; [|done]. intros Hin. apply (Hu k Hin). set_solver.
  - intros k' [->|Hin]%elem_of_cons; [done|]. specialize (Hu k' Hin). set_solver.
Qed.

Lemma distinct_keys message : SanitizedMessage.has_duplicates message = false -> NoDup (message_keys message).
Proof.
  destruct message as [m|m]; cbn.
  - intros H%has_duplicates_in_distinct. unfold message_keys, AccountKeys.iter. cbn. by rewrite app_nil_r.
  - by intros [? _]%any_repeated_distinct.
Qed.

Lemma context_first message tc ci j :
  message_context message tc -> ci ∈ SanitizedMessage.instructions message -> j ∈ ci_accounts ci ->
  first_position (account_keys tc) j.
Proof.
  intros [[programs ->] Hd Hi] Hci Hj. apply distinct_first; [by apply distinct_keys|by eapply Hi].
Qed.

(** ** The claims *)
Section claims.
Context `{LoaderBincode}.
Variables (builtin_programs : list (Pubkey * (nat -> program))) (fuel : nat).
Variables (message : SanitizedMessage) (program_indices : list (list nat)).
Variables (tc : TransactionContext) (rent : Rent) (features : Features) (max_invoke_depth : nat).
Variables (len delta : Z) (tc' : TransactionContext).

Let instructions := combine (SanitizedMessage.instructions message) program_indices.

Lemma process_message_advances :
  message_context message tc -> instruction_stack tc = [] ->
  process_message builtin_programs fuel message program_indices tc rent features max_invoke_depth
    len = Ok (delta, tc') ->
  advances message (account_keys tc) instructions tc tc'.
Proof.
  intros Hctx Hs Hp. unfold process_message in Hp. apply result_bind_ok in Hp as (ic & Hp & [= _ <-]).
  eapply (process_all_advances _ _ _ (account_keys tc) instructions) in Hp; try done.
  intros ci pis j Hin%list_elem_of_In%in_combine_l%list_elem_of_In Hj. by eapply context_first.
Qed.

(** C8: Whatever the programs do, nested calls included, a message the runtime processes
    successfully keeps the sum of all balances of the transaction, its keys and the
    number of its accounts, and leaves the stack of instructions empty. *)
Theorem message_conserves_lamports
    (Hctx : message_context message tc) (Hs : instruction_stack tc = [])
    (Hrun : process_message builtin_programs fuel message program_indices tc rent features
              max_invoke_depth len = Ok (delta, tc')) :
  sum_lamports (accounts tc') = sum_lamports (accounts tc) /\
  account_keys tc' = account_keys tc /\ length (accounts tc') = length (accounts tc) /\
  instruction_stack tc' = [].
Proof. by apply process_message_advances in Hrun as [HK HL HS HM _]. Qed.

(** C9: Whatever the programs do, an account that no instruction of the message lists,
    or that the message does not mark writable, is unchanged after the message, the
    instructions sysvar excepted, whose data the runtime itself writes. *)
Theorem message_readonly_unchanged (i : nat) (k : Pubkey) (a : Account)
    (Hctx : message_context message tc) (Hs : instruction_stack tc = [])
    (Hrun : process_message builtin_programs fuel message program_indices tc rent features
              max_invoke_depth len = Ok (delta, tc'))
    (Hk : account_keys tc !! i = Some k) (Hne : k <> instructions_sysvar_id)
    (Ha : accounts tc !! i = Some a)
    (Hro : ~ may_be_written message (combine (SanitizedMessage.instructions message) program_indices) i) :
  accounts tc' !! i = Some a.
Proof.
  apply process_message_advances in Hrun as [_ _ _ _ Hst]; [|done..].
  destruct (Hst i a Ha) as (a' & Ha' & Hr). rewrite Ha'. f_equal.
  eapply (steps_readonly (involved (account_keys tc) instructions)).
  eapply rtc_subrel; [|exact Hr]. intros b b' [(pid & w & HP & Hw & Hp)|[Hk' _]]; [|congruence].
  exists pid, w. split_and!; try done. intros E. by apply Hro, Hw.
Qed.

(** C10: Whatever the programs do, an account whose owner is neither the program of an
    instruction nor an account an instruction lists keeps its owner, data and flags, and
    its balance does not decrease. *)
Theorem message_foreign_protected (i : nat) (k : Pubkey) (a : Account)
    (Hctx : message_context message tc) (Hs : instruction_stack tc = [])
    (Hrun : process_message builtin_programs fuel message program_indices tc rent features
              max_invoke_depth len = Ok (delta, tc'))
    (Hk : account_keys tc !! i = Some k) (Hne : k <> instructions_sysvar_id)
    (Ha : accounts tc !! i = Some a)
    (Hfor : ~ involved (account_keys tc)
                (combine (SanitizedMessage.instructions message) program_indices) (acc_owner a)) :
  exists a', accounts tc' !! i = Some a' /\ at_most_credited a a'.
Proof.
  apply process_message_advances in Hrun as [_ _ _ _ Hst]; [|done..].
  destruct (Hst i a Ha) as (a' & Ha' & Hr). exists a'. split; [done|].
  eapply (steps_foreign _ (may_be_written message instructions i)); [exact Hfor|].
  eapply rtc_subrel; [|exact Hr]. intros b b' [Hb|[Hk' _]]; [done|congruence].
Qed.

End claims.

(** ** Instances *)
Lemma mx_context : message_context mx_message mx_tc.
Proof.
  split.
  - by exists [mx_caller].
  - vm_compute. reflexivity.
  - intros ci j ->%list_elem_of_singleton Hj. cbn [ci_accounts] in Hj.
    assert (Forall (fun n => n < 6)%nat [0; 1; 2; 3; 5]%nat) as Hall by (repeat constructor).
    rewrite Forall_forall in Hall. by apply Hall, list_elem_of_In.
Qed.

Lemma message_conserves_lamports_witness :
  sum_lamports (accounts mx_after) = 123 /\ sum_lamports (accounts mx_tc) = 123.
Proof.
  assert (sum_lamports (accounts mx_tc) = 123) as H0 by (vm_compute; reflexivity).
  destruct (message_conserves_lamports mx_builtins 6 mx_message [[6%nat]] mx_tc Rent_default mx_features 4 0 0 mx_after
    mx_context eq_refl mx_run_ok) as (Hs & _).
  exact (conj (eq_trans Hs H0) H0).
Defined.

Lemma message_readonly_unchanged_witness :
  accounts mx_after !! 3%nat = Some (mkAccount 9 [x02] mx_caller false 0).
Proof.
  refine (message_readonly_unchanged mx_builtins 6 mx_message [[6%nat]] mx_tc Rent_default mx_features 4 0 0 mx_after
    3 mx_idle _ mx_context eq_refl mx_run_ok
    eq_refl _ eq_refl _).
  - intros H. apply (f_equal to_bytes) in H. vm_compute in H. discriminate H.
  - intros [H _]. vm_compute in H. discriminate H.
Defined.

Lemma message_foreign_protected_witness :
  exists a', accounts mx_after !! 1%nat = Some a' /\
    at_most_credited (mkAccount 5 [x01] system_program_id false 0) a'.
Proof.
  refine (message_foreign_protected mx_builtins 6 mx_message [[6%nat]] mx_tc Rent_default mx_features 4 0 0 mx_after
    1 mx_other _ mx_context eq_refl mx_run_ok
    eq_refl _ eq_refl _).
  - intros H. apply (f_equal to_bytes) in H. vm_compute in H. discriminate H.
  - intros (ci & pis & Hin & H). apply list_elem_of_singleton in Hin. injection Hin as -> ->.
    destruct H as [(i & Hi & Hk)|(j & Hj & Hk)].
    + cbn in Hi. injection Hi as <-. apply (f_equal (fmap to_bytes)) in Hk. vm_compute in Hk.
      discriminate Hk.
    + cbn [ci_accounts] in Hj. rewrite !elem_of_cons in Hj.
      apply (f_equal (fmap to_bytes)) in Hk.
      destruct Hj as [->|[->|[->|[->|[->|Hj]]]]]; try (vm_compute in Hk; discriminate Hk).
      by apply not_elem_of_nil in Hj.
Defined.
