(* ===== verification/RentCollection.v ===== *)
(** * Collecting rent

    [runtime/src/rent_collector.rs] and [runtime/src/account_rent_state.rs]: what an account owes,
    how it is charged when a transaction loads or creates it, and which changes of its state with
    regard to rent a transaction may make. *)

From Stdlib Require Import Strings.Byte Floats.SpecFloat.
From S2P Require Import Prelude Sdk Rent EpochSchedule Transaction Message MessageProcessor.

(** [x / y] *)
Definition f64_div (x y : f64) : f64 := SFdiv 53 1024 x y.
(** [x != 0.0] *)
Definition f64_nonzero (x : f64) : bool := match x with S754_zero _ => false | _ => true end.

Definition incinerator_id : Pubkey :=
  pubkey_of_Z 0x3390728d34116079bdc911bfff00dbd44d2ecdccf79ca6e10038e100000000.

(** [AccountSharedData::default()] *)
Definition Account_default : Account := mkAccount 0 [] Pubkey_default false 0.

(** ** [rent_collector.rs] *)
Record RentCollector : Type := mkRentCollector {
  rc_epoch : Z;
  rc_epoch_schedule : EpochSchedule;
  rc_slots_per_year : f64;
  rc_rent : Rent
}.

Inductive RentResult : Type :=
| LeaveAloneNoRent
| CollectRent (new_rent_epoch rent_due : Z).

Record CollectedInfo : Type := mkCollected {
  rent_amount : Z;
  account_data_len_reclaimed : Z
}.
Definition CollectedInfo_default : CollectedInfo := mkCollected 0 0.

(** The bytes of a filler account after its prefix are those of the suffix. *)
Definition filler_prefix_bytes : nat := 12.
Definition is_filler_account_helper (pubkey : Pubkey) (filler_account_suffix : option Pubkey) : bool :=
  match filler_account_suffix with
  | Some suffix =>
      bool_decide (drop filler_prefix_bytes (to_bytes pubkey) = drop filler_prefix_bytes (to_bytes suffix))
  | None => false
  end.

Module RentCollector.
Section collector.
Variable self : RentCollector.

Definition clone_with_epoch (epoch : Z) : RentCollector :=
  mkRentCollector epoch (rc_epoch_schedule self) (rc_slots_per_year self) (rc_rent self).

Definition should_collect_rent (address : Pubkey) (account : Account) : bool :=
  negb (acc_executable account || key_eqb address incinerator_id).

(** The epochs [from..=to]. *)
Definition epochs_between (from to : Z) : list Z :=
  (fun n => from + Z.of_nat n) <$> seq 0 (Z.to_nat (to - from + 1)).

Definition get_rent_due (account : Account) : RentDue :=
  let data_len := Z.of_nat (length (acc_data account)) in
  if is_exempt (rc_rent self) (acc_lamports account) data_len then Exempt
  else
    let slots_elapsed :=
      foldl (fun sum epoch =>
               wrapping_add sum
                 (EpochSchedule.get_slots_in_epoch (rc_epoch_schedule self) (wrapping_add epoch 1)))
        0 (epochs_between (acc_rent_epoch account) (rc_epoch self)) in
    let years_elapsed :=
      if f64_nonzero (rc_slots_per_year self)
      then f64_div (f64_of_u64 slots_elapsed) (rc_slots_per_year self)
      else S754_zero false in
    Paying (due_amount (rc_rent self) data_len years_elapsed).

Definition can_skip_rent_collection (address : Pubkey) (account : Account)
    (filler_account_suffix : option Pubkey) : bool :=
  negb (should_collect_rent address account) || (rc_epoch self <? acc_rent_epoch account)
  || is_filler_account_helper address filler_account_suffix.

Definition calculate_rent_result (address : Pubkey) (account : Account)
    (filler_account_suffix : option Pubkey) : RentResult :=
  if can_skip_rent_collection address account filler_account_suffix then LeaveAloneNoRent
  else
    match get_rent_due account with
    | Exempt => CollectRent (rc_epoch self) 0
    | Paying rent_due =>
        if rent_due =? 0 then LeaveAloneNoRent else CollectRent (wrapping_add (rc_epoch self) 1) rent_due
    end.

(** The account afterwards, and what was collected. *)
Definition collect_from_existing_account (address : Pubkey) (account : Account)
    (filler_account_suffix : option Pubkey) : Account * CollectedInfo :=
  match calculate_rent_result address account filler_account_suffix with
  | LeaveAloneNoRent => (account, CollectedInfo_default)
  | CollectRent new_rent_epoch rent_due =>
      let taken := (Account_default,
        mkCollected (acc_lamports account) (Z.of_nat (length (acc_data account)))) in
      match checked_sub (acc_lamports account) rent_due with
      | None => taken
      | Some lamports =>
          if lamports =? 0 then taken
          else (mkAccount lamports (acc_data account) (acc_owner account) (acc_executable account) new_rent_epoch,
                mkCollected rent_due 0)
      end
  end.

Definition collect_from_created_account (address : Pubkey) (account : Account) : Account * CollectedInfo :=
  collect_from_existing_account address
    (mkAccount (acc_lamports account) (acc_data account) (acc_owner account) (acc_executable account) (rc_epoch self))
    None.

End collector.
End RentCollector.

(** ** [account_rent_state.rs] *)
Inductive RentState : Type :=
| RentUninitialized
| RentPaying (data_size : nat)
| RentExempt.

Module RentState.

Definition from_account (account : Account) (rent : Rent) : RentState :=
  if acc_lamports account =? 0 then RentUninitialized
  else if negb (is_exempt rent (acc_lamports account) (Z.of_nat (length (acc_data account))))
  then RentPaying (length (acc_data account))
  else RentExempt.

(** [self] is the state after the transaction. *)
Definition transition_allowed_from (self pre_rent_state : RentState) : bool :=
  match self with
  | RentPaying post_data_size =>
      match pre_rent_state with
      | RentPaying pre_data_size => (post_data_size =? pre_data_size)%nat
      | _ => false
      end
  | _ => true
  end.

End RentState.

Definition check_rent_state_with_account (pre_rent_state post_rent_state : RentState) (address : Pubkey)
    (account_index : option nat) : result TransactionError unit :=
  if negb (key_eqb address incinerator_id) && negb (RentState.transition_allowed_from post_rent_state pre_rent_state)
  then match account_index with
       | Some account_index => Err (InsufficientFundsForRent (as_u8 account_index))
       | None => Err InvalidRentPayingAccount
       end
  else Ok tt.

Definition check_rent_state (pre_rent_state post_rent_state : option RentState) (tc : TransactionContext)
    (index : nat) (include_account_index_in_err : bool) : result TransactionError unit :=
  match pre_rent_state, post_rent_state with
  | Some pre_rent_state, Some post_rent_state =>
      address ← unwrap (account_keys tc !! index);
      unwrap (accounts tc !! index);;
      check_rent_state_with_account pre_rent_state post_rent_state address
        (if include_account_index_in_err then Some index else None)
  | _, _ => Ok tt
  end.

(** ** Properties of the collection *)
Section facts.
Variable rc : RentCollector.

(** What the account loses is what is collected. *)
Lemma collect_conserves address a suffix a' info :
  0 <= acc_lamports a -> RentCollector.collect_from_existing_account rc address a suffix = (a', info) ->
  acc_lamports a' + rent_amount info = acc_lamports a /\ 0 <= acc_lamports a' /\ 0 <= rent_amount info /\
  (rent_amount info = acc_lamports a \/ a' = mkAccount (acc_lamports a') (acc_data a) (acc_owner a)
     (acc_executable a) (acc_rent_epoch a')).
Proof.
  intros Ha. unfold RentCollector.collect_from_existing_account.
  destruct (RentCollector.calculate_rent_result _ _ _ _) as [|e d] eqn:Er.
  { intros [= <- <-]. cbn. split_and!; [lia..|]. right. by destruct a. }
  assert (0 <= d) as Hd.
  { unfold RentCollector.calculate_rent_result in Er. destruct (RentCollector.can_skip_rent_collection _ _ _ _); [done|].
    destruct (RentCollector.get_rent_due rc a) as [|x] eqn:Ed; [injection Er; lia|]. destruct (x =? 0); [done|].
    injection Er as _ <-. unfold RentCollector.get_rent_due in Ed. destruct (is_exempt _ _ _); [done|].
    injection Ed as <-. apply f64_to_u64_range. }
  unfold checked_sub. destruct (Z.leb_spec d (acc_lamports a)).
  - destruct (Z.eqb_spec (acc_lamports a - d) 0); intros [= <- <-]; cbn; split_and!; (lia || by auto).
  - intros [= <- <-]. cbn. split_and!; lia.
Qed.

(** An account without lamports stays so. *)
Lemma collect_empty address a suffix a' info :
  acc_lamports a = 0 -> RentCollector.collect_from_existing_account rc address a suffix = (a', info) ->
  rent_amount info = 0 /\ acc_lamports a' = 0.
Proof. intros Ha H. apply collect_conserves in H as (? & ? & ? & _); lia. Qed.

(** Exempt accounts are not charged. *)
Lemma collect_exempt address a suffix a' info :
  is_exempt (rc_rent rc) (acc_lamports a) (Z.of_nat (length (acc_data a))) = true -> 0 < acc_lamports a ->
  RentCollector.collect_from_existing_account rc address a suffix = (a', info) ->
  rent_amount info = 0 /\ acc_lamports a' = acc_lamports a /\ acc_data a' = acc_data a /\ acc_owner a' = acc_owner a.
Proof.
  intros He Ha. unfold RentCollector.collect_from_existing_account, RentCollector.calculate_rent_result.
  destruct (RentCollector.can_skip_rent_collection _ _ _ _); [by intros [= <- <-]|].
  unfold RentCollector.get_rent_due. rewrite He. unfold checked_sub. destruct (Z.leb_spec 0 (acc_lamports a)); [|lia].
  rewrite Z.sub_0_r. destruct (Z.eqb_spec (acc_lamports a) 0); [lia|]. by intros [= <- <-].
Qed.

End facts.

(** C27: Collecting rent from an account creates and destroys no lamports: the balance
    loses exactly the rent that is reported. An account is either emptied or keeps its
    data and owner; an exempt one pays nothing, and collecting again in the same epoch
    takes nothing. *)
Theorem rent_collected_once (rc : RentCollector) (address : Pubkey) (suffix : option Pubkey) (a a' : Account)
    (info : CollectedInfo) (Ha : 0 <= acc_lamports a) (Hepoch : 0 <= rc_epoch rc < U64_MAX)
    (Hrun : RentCollector.collect_from_existing_account rc address a suffix = (a', info)) :
  acc_lamports a' + rent_amount info = acc_lamports a /\
  (acc_lamports a' = 0 \/ acc_data a' = acc_data a /\ acc_owner a' = acc_owner a) /\
  (is_exempt (rc_rent rc) (acc_lamports a) (Z.of_nat (length (acc_data a))) = true -> rent_amount info = 0) /\
  forall a'' info', RentCollector.collect_from_existing_account rc address a' suffix = (a'', info') ->
    rent_amount info' = 0 /\ acc_lamports a'' = acc_lamports a'.
Proof.
  pose proof (collect_conserves rc address a suffix a' info Ha Hrun) as (Hc & H0 & Hr & Hk).
  split_and!; [done| | |].
  - destruct Hk as [Hk|Hk]; [left; lia|]. right. rewrite Hk. done.
  - intros He. destruct (Z.eq_dec (acc_lamports a) 0); [lia|]. by apply (collect_exempt rc address a suffix a' info He ltac:(lia)).
  - intros a'' info' H2. destruct (Z.eq_dec (acc_lamports a') 0) as [E|E].
    { rewrite E. by apply (collect_empty rc address a' suffix). }
    pose proof Hrun as H1. unfold RentCollector.collect_from_existing_account in H1.
    destruct (RentCollector.calculate_rent_result _ _ _ _) as [|e d] eqn:Er.
    { injection H1 as <- <-. unfold RentCollector.collect_from_existing_account in H2. rewrite Er in H2.
      by injection H2 as <- <-. }
    unfold RentCollector.calculate_rent_result in Er.
    destruct (RentCollector.can_skip_rent_collection _ _ _ _); [done|].
    destruct (checked_sub (acc_lamports a) d) as [l|] eqn:Es; [|injection H1 as <- <-; done].
    destruct (Z.eqb_spec l 0); [injection H1 as <- <-; done|]. injection H1 as <- <-. cbn [acc_lamports] in *.
    destruct (RentCollector.get_rent_due rc a) as [|x] eqn:Ed.
    + injection Er as <- <-. apply checked_sub_some in Es. eapply (collect_exempt rc) in H2 as (? & ? & _ & _); [done| |cbn; lia].
      cbn. unfold RentCollector.get_rent_due in Ed. destruct (is_exempt _ _ _) eqn:Ex; [|done]. rewrite <-Ex. f_equal. lia.
    + destruct (x =? 0); [done|]. injection Er as <- <-. unfold RentCollector.collect_from_existing_account,
        RentCollector.calculate_rent_result, RentCollector.can_skip_rent_collection in H2. cbn [acc_rent_epoch] in H2.
      assert ((rc_epoch rc <? wrapping_add (rc_epoch rc) 1) = true) as Ee.
      { apply Z.ltb_lt. unfold wrapping_add. rewrite wrap64_small by (unfold is_u64; lia). lia. }
      rewrite Ee, orb_true_r in H2. cbn in H2. by injection H2 as <- <-.
Qed.

(** A schedule of short epochs, and a thousand slots a year. *)
Definition ex_collector : RentCollector :=
  mkRentCollector 3 (mkEpochSchedule 32 32 false 0 0) (f64_of_u64 1000) Rent_default.

Definition ex_rented : Account * CollectedInfo :=
  RentCollector.collect_from_existing_account ex_collector system_program_id
    (mkAccount 500000 [x00] system_program_id false 1) None.

(** An account that owes rent is charged, once. *)
Lemma rent_collected_once_witness :
  rent_amount ex_rented.2 = 43096 /\ acc_lamports ex_rented.1 + rent_amount ex_rented.2 = 500000 /\
  rent_amount (RentCollector.collect_from_existing_account ex_collector system_program_id ex_rented.1 None).2 = 0.
Proof.
  destruct (rent_collected_once ex_collector system_program_id None (mkAccount 500000 [x00] system_program_id false 1)
    ex_rented.1 ex_rented.2 ltac:(done) ltac:(vm_compute; split; [discriminate|reflexivity]) eq_refl) as (Hc & _ & _ & H).
  split; [vm_compute; reflexivity|]. split; [exact Hc|]. exact (proj1 (H _ _ eq_refl)).
Defined.
