(* ===== verification/Fees.v ===== *)
(** * Fees

    [program-runtime/src/compute_budget.rs] and [prioritization_fee.rs], [sdk/src/compute_budget.rs],
    [sdk/src/fee.rs] and [calculate_fee] of [runtime/src/bank.rs]: the compute budget a message asks
    for, and the fee it pays. *)

From Stdlib Require Import Strings.Byte Floats.SpecFloat.
From S2P Require Import Prelude Sdk Rent Borsh SystemInstruction Transaction Runtime Message MessageProcessor MessageSafety RentCollection.

(** ** Compute budget instructions *)
Definition compute_budget_id : Pubkey :=
  pubkey_of_Z 0x306466fe5211732ffecadba72c39be7bc8ce5bbc5f7126b2c439b3a40000000.

Inductive ComputeBudgetInstruction : Type :=
| RequestUnitsDeprecated (units additional_fee : Z)
| RequestHeapFrame (bytes : Z)
| SetComputeUnitLimit (units : Z)
| SetComputeUnitPrice (micro_lamports : Z).

Section codec.
Context {B : BorshCrate}.

Definition budget_serialize (i : ComputeBudgetInstruction) : list byte :=
  match i with
  | RequestUnitsDeprecated units additional_fee => ser_u8 x00 ++ ser_u32 units ++ ser_u32 additional_fee
  | RequestHeapFrame bytes => ser_u8 x01 ++ ser_u32 bytes
  | SetComputeUnitLimit units => ser_u8 x02 ++ ser_u32 units
  | SetComputeUnitPrice micro_lamports => ser_u8 x03 ++ ser_u64 micro_lamports
  end.

Definition budget_deserialize : reader ComputeBudgetInstruction :=
  tag ← de_u8;
  match tag with
  | x00 => units ← de_u32; additional_fee ← de_u32; mret (RequestUnitsDeprecated units additional_fee)
  | x01 => bytes ← de_u32; mret (RequestHeapFrame bytes)
  | x02 => units ← de_u32; mret (SetComputeUnitLimit units)
  | x03 => micro_lamports ← de_u64; mret (SetComputeUnitPrice micro_lamports)
  | _ => fun _ => Err (unexpected_variant tag)
  end.

Definition request_heap_frame (bytes : Z) : Instruction :=
  mkInstruction compute_budget_id [] (budget_serialize (RequestHeapFrame bytes)).
Definition set_compute_unit_limit (units : Z) : Instruction :=
  mkInstruction compute_budget_id [] (budget_serialize (SetComputeUnitLimit units)).
Definition set_compute_unit_price (micro_lamports : Z) : Instruction :=
  mkInstruction compute_budget_id [] (budget_serialize (SetComputeUnitPrice micro_lamports)).

End codec.

(** ** [prioritization_fee.rs] *)
Definition MICRO_LAMPORTS_PER_LAMPORT : Z := 1000000.
Definition U128_MAX : Z := 2 ^ 128 - 1.

Inductive PrioritizationFeeType : Type :=
| ComputeUnitPrice (cu_price : Z)
| Deprecated (fee : Z).

Record PrioritizationFeeDetails : Type := mkFeeDetails { pf_fee : Z; pf_priority : Z }.
Definition PrioritizationFeeDetails_default : PrioritizationFeeDetails := mkFeeDetails 0 0.

(** [u64::try_from(x).unwrap_or(u64::MAX)] *)
Definition u64_or_max (x : Z) : Z := if x <=? U64_MAX then x else U64_MAX.

Definition PrioritizationFeeDetails_new (fee_type : PrioritizationFeeType) (compute_unit_limit : Z)
    : PrioritizationFeeDetails :=
  match fee_type with
  | Deprecated fee =>
      let priority :=
        if compute_unit_limit =? 0 then 0
        else u64_or_max (Z.min U128_MAX (fee * MICRO_LAMPORTS_PER_LAMPORT) / compute_unit_limit) in
      mkFeeDetails fee priority
  | ComputeUnitPrice cu_price =>
      let micro_lamport_fee := Z.min U128_MAX (cu_price * compute_unit_limit) in
      let fee := Z.min U128_MAX (micro_lamport_fee + saturating_sub MICRO_LAMPORTS_PER_LAMPORT 1)
                 / MICRO_LAMPORTS_PER_LAMPORT in
      mkFeeDetails (u64_or_max fee) cu_price
  end.

(** ** [compute_budget.rs] *)
Definition DEFAULT_INSTRUCTION_COMPUTE_UNIT_LIMIT : Z := 200000.
Definition MAX_COMPUTE_UNIT_LIMIT : Z := 1400000.
Definition MAX_HEAP_FRAME_BYTES : Z := 256 * 1024.
Definition MIN_HEAP_FRAME_BYTES : Z := 32 * 1024.

(** The fields a message sets and the depth of calls; the others are the costs of the syscalls. *)
Record ComputeBudget : Type := mkBudget {
  compute_unit_limit : Z;
  max_invoke_depth : nat;
  heap_size : option Z
}.

Definition ComputeBudget_new (compute_unit_limit : Z) : ComputeBudget := mkBudget compute_unit_limit 4 None.
Definition ComputeBudget_default : ComputeBudget := ComputeBudget_new MAX_COMPUTE_UNIT_LIMIT.

(** The variables of the loop of [process_instructions]. *)
Record Requests : Type := mkRequests {
  num_non_compute_budget_instructions : Z;
  updated_compute_unit_limit : option Z;
  requested_heap_size : option (Z * nat);
  prioritization_fee : option PrioritizationFeeType
}.

Definition is_some {A} (o : option A) : bool := match o with Some _ => true | None => false end.

Section budget.
Context {B : BorshCrate}.
Variables default_units_per_instruction support_set_compute_unit_price_ix : bool.

(** A compute budget instruction at index [i]. *)
Definition process_request (i : nat) (data : list byte) (r : Requests) : result TransactionError Requests :=
  let 'mkRequests n limit heap fee := r in
  let parsed := match budget_deserialize data with Ok (ix, _) => Some ix | _ => None end in
  if support_set_compute_unit_price_ix then
    let duplicate := Err (DuplicateInstruction (as_u8 i)) in
    match parsed with
    | Some (RequestUnitsDeprecated units additional_fee) =>
        if is_some limit then duplicate else if is_some fee then duplicate
        else Ok (mkRequests n (Some units) heap (Some (Deprecated additional_fee)))
    | Some (RequestHeapFrame bytes) =>
        if is_some heap then duplicate else Ok (mkRequests n limit (Some (bytes, as_u8 i)) fee)
    | Some (SetComputeUnitLimit units) =>
        if is_some limit then duplicate else Ok (mkRequests n (Some units) heap fee)
    | Some (SetComputeUnitPrice micro_lamports) =>
        if is_some fee then duplicate else Ok (mkRequests n limit heap (Some (ComputeUnitPrice micro_lamports)))
    | None => Err (TxInstructionError (as_u8 i) InstructionError.InvalidInstructionData)
    end
  else if (i <? 3)%nat then
    match parsed with
    | Some (RequestUnitsDeprecated units additional_fee) =>
        Ok (mkRequests n (Some units) heap (Some (Deprecated additional_fee)))
    | Some (RequestHeapFrame bytes) => Ok (mkRequests n limit (Some (bytes, 0%nat)) fee)
    | _ => Err (TxInstructionError 0 InstructionError.InvalidInstructionData)
    end
  else Ok r.

(** The loop over [program_instructions_iter], from the instruction at [i]. *)
Fixpoint requests_loop (message : SanitizedMessage) (i : nat) (instructions : list CompiledInstruction) (r : Requests)
    : result TransactionError Requests :=
  match instructions with
  | [] => Ok r
  | instruction :: instructions =>
      program_id ← unwrap (AccountKeys.get (SanitizedMessage.account_keys message) (program_id_index instruction));
      r ← if key_eqb program_id compute_budget_id then process_request i (ci_data instruction) r
          else Ok (mkRequests (saturating_add (num_non_compute_budget_instructions r) 1)
                     (updated_compute_unit_limit r) (requested_heap_size r) (prioritization_fee r));
      requests_loop message (S i) instructions r
  end.

Definition process_instructions (self : ComputeBudget) (message : SanitizedMessage)
    : result TransactionError (PrioritizationFeeDetails * ComputeBudget) :=
  r ← requests_loop message 0 (SanitizedMessage.instructions message) (mkRequests 0 None None None);
  heap_size ← match requested_heap_size r with
              | Some (bytes, i) =>
                  if (MAX_HEAP_FRAME_BYTES <? bytes) || (bytes <? MIN_HEAP_FRAME_BYTES) || negb (bytes mod 1024 =? 0)
                  then Err (TxInstructionError i InstructionError.InvalidInstructionData)
                  else Ok (Some bytes)
              | None => Ok (heap_size self)
              end;
  let limit :=
    match updated_compute_unit_limit r with
    | Some units => Some units
    | None =>
        if default_units_per_instruction
        then Some (Z.min (2 ^ 32 - 1)
                     ((num_non_compute_budget_instructions r mod 2 ^ 32) * DEFAULT_INSTRUCTION_COMPUTE_UNIT_LIMIT))
        else None
    end in
  let compute_unit_limit := Z.min (default MAX_COMPUTE_UNIT_LIMIT limit) MAX_COMPUTE_UNIT_LIMIT in
  Ok (match prioritization_fee r with
      | Some fee_type => PrioritizationFeeDetails_new fee_type compute_unit_limit
      | None => PrioritizationFeeDetails_default
      end, mkBudget compute_unit_limit (max_invoke_depth self) heap_size).

End budget.

(** ** [fee.rs] *)
Record FeeBin : Type := mkFeeBin { fb_limit : Z; fb_fee : Z }.
Record FeeStructure : Type := mkFeeStructure {
  fs_lamports_per_signature : Z;
  fs_lamports_per_write_lock : Z;
  fs_compute_fee_bins : list FeeBin
}.

(** [FeeStructure::default()]: 0.000005 SOL for a signature. *)
Definition FeeStructure_default : FeeStructure := mkFeeStructure 5000 0 [mkFeeBin 1400000 0].

(** ** The fee of a message *)

(** [x.round() as u64], half away from zero. *)
Definition f64_round_to_u64 (x : f64) : Z :=
  match x with
  | S754_finite false m e =>
      let v := if 0 <=? e then Z.pos m * 2 ^ e else (2 * Z.pos m + 2 ^ (- e)) / 2 ^ (- e + 1) in
      Z.min v U64_MAX
  | S754_infinity false => U64_MAX
  | _ => 0
  end.

(** [x.max(y)] of numbers *)
Definition f64_max (x y : f64) : f64 := if SFltb x y then y else x.

Definition BASE_CONGESTION : f64 := f64_of_u64 5000.

(** The loop of [get_num_signatures_in_message]. *)
Fixpoint count_signatures (message : SanitizedMessage) (l : list CompiledInstruction) (n : Z)
    : result TransactionError Z :=
  match l with
  | [] => Ok n
  | instruction :: l =>
      program_id ← unwrap (AccountKeys.get (SanitizedMessage.account_keys message) (program_id_index instruction));
      count_signatures message l
        (if key_eqb program_id secp256k1_program_id || key_eqb program_id ed25519_program_id
         then match ci_data instruction with b :: _ => saturating_add n (u8_val b) | [] => n end
         else n)
  end.

Definition get_num_signatures_in_message (message : SanitizedMessage) : result TransactionError Z :=
  count_signatures message (SanitizedMessage.instructions message)
    (Z.of_nat (num_required_signatures (SanitizedMessage.header message))).

Definition num_readonly_accounts (message : SanitizedMessage) : Z :=
  let loaded_readonly_addresses :=
    match message with
    | V0Message m => Z.of_nat (length (la_readonly (loaded_addresses m)))
    | LegacyMessage _ => 0
    end in
  saturating_add
    (saturating_add loaded_readonly_addresses
       (Z.of_nat (num_readonly_signed_accounts (SanitizedMessage.header message))))
    (Z.of_nat (num_readonly_unsigned_accounts (SanitizedMessage.header message))).

Definition get_num_write_locks_in_message (message : SanitizedMessage) : Z :=
  saturating_sub (Z.of_nat (AccountKeys.len (SanitizedMessage.account_keys message))) (num_readonly_accounts message).

(** The fee for the compute units: that of the first bin with a sufficient limit, or the last. *)
Definition compute_fee (bins : list FeeBin) (limit : Z) : Z :=
  match List.find (fun bin => limit <=? fb_limit bin) bins with
  | Some bin => fb_fee bin
  | None => match head (rev bins) with Some bin => fb_fee bin | None => 0 end
  end.

(** The factor the fee is multiplied by, from the rate of the transaction's blockhash. *)
Definition congestion_multiplier (lamports_per_signature : Z) : f64 :=
  let current_congestion := f64_max BASE_CONGESTION (f64_of_u64 lamports_per_signature) in
  if lamports_per_signature =? 0 then S754_zero false else f64_div BASE_CONGESTION current_congestion.

(** The sum of the fees for prioritization, signatures, write locks and compute units. *)
Definition fee_sum {B : BorshCrate} (message : SanitizedMessage) (fee_structure : FeeStructure)
    (support_set_compute_unit_price_ix : bool) : result TransactionError Z :=
  '(details, compute_budget) ←
    match process_instructions false support_set_compute_unit_price_ix ComputeBudget_default message with
    | Ok r => Ok r
    | Err _ => Ok (PrioritizationFeeDetails_default, ComputeBudget_default)
    | Panic => Panic
    end;
  num_signatures ← get_num_signatures_in_message message;
  let signature_fee := saturating_mul num_signatures (fs_lamports_per_signature fee_structure) in
  let write_lock_fee :=
    saturating_mul (get_num_write_locks_in_message message) (fs_lamports_per_write_lock fee_structure) in
  Ok (saturating_add (saturating_add (saturating_add (pf_fee details) signature_fee) write_lock_fee)
        (compute_fee (fs_compute_fee_bins fee_structure) (compute_unit_limit compute_budget))).

Definition calculate_fee {B : BorshCrate} (message : SanitizedMessage) (lamports_per_signature : Z)
    (fee_structure : FeeStructure) (support_set_compute_unit_price_ix : bool) : result TransactionError Z :=
  sum ← fee_sum message fee_structure support_set_compute_unit_price_ix;
  Ok (f64_round_to_u64 (f64_mul (f64_of_u64 sum) (congestion_multiplier lamports_per_signature))).

(** ** Properties *)
Lemma f64_round_range x : is_u64 (f64_round_to_u64 x).
Proof.
  unfold is_u64, f64_round_to_u64. destruct x as [|[]| |[] m e]; try (unfold U64_MAX; lia).
  assert (0 <= if 0 <=? e then Z.pos m * 2 ^ e else (2 * Z.pos m + 2 ^ (- e)) / 2 ^ (- e + 1)) as Hv.
  { destruct (Z.leb_spec 0 e).
    - assert (0 < 2 ^ e) by (apply Z.pow_pos_nonneg; lia). nia.
    - assert (0 < 2 ^ (- e)) by (apply Z.pow_pos_nonneg; lia). assert (0 < 2 ^ (- e + 1)) by (apply Z.pow_pos_nonneg; lia).
      apply Z.div_pos; lia. }
  unfold U64_MAX. cbv zeta. lia.
Qed.

Lemma calculate_fee_range {B : BorshCrate} message rate structure support fee :
  calculate_fee message rate structure support = Ok fee -> is_u64 fee.
Proof.
  unfold calculate_fee. intros H. apply result_bind_ok in H as (n & _ & [= <-]). apply f64_round_range.
Qed.

(** Multiplying by a power of two is exact: [k] is 0 for one and 1 for a half. *)
Lemma f64_mul_pow_53 q e k :
  Z.pos (digits2_pos q) = 53 -> 0 <= k <= 1 -> -1073 <= e <= 971 ->
  f64_mul (S754_finite false q e) (S754_finite false 4503599627370496 (-52 - k)) = S754_finite false q (e - k).
Proof.
  intros Hq Hk He. unfold f64_mul. cbn [SFmul xorb]. rewrite !Pos.mul_xO_r, Pos.mul_1_r.
  change (binary_round_aux 53 1024 false (Z.pos (Pos.iter xO q 52)) (e + (-52 - k)) loc_Exact = S754_finite false q (e - k)).
  rewrite binary_round_aux_shift by (done || lia). f_equal. lia.
Qed.

Lemma f64_of_u64_53 z :
  0 < z < 2 ^ 53 ->
  exists q e, f64_of_u64 z = S754_finite false q e /\ Z.pos (digits2_pos q) = 53 /\ -52 <= e <= 0 /\
              Z.pos q = z * 2 ^ (- e).
Proof.
  intros Hz. destruct z as [|p|p]; [lia| |lia].
  assert (Hd : Z.pos (digits2_pos p) <= 53) by (apply digits2_pos_bound; lia).
  unfold f64_of_u64. cbn [binary_normalize]. unfold binary_round, fexp, emin. rewrite Z.add_0_r.
  replace (Z.max (Z.pos (digits2_pos p) - 53) (3 - 1024 - 53)) with (Z.pos (digits2_pos p) - 53) by lia.
  unfold shl_align. rewrite Z.sub_0_r. destruct (Z.pos (digits2_pos p) - 53) as [|n|n] eqn:E; [|lia|].
  - exists p, 0. rewrite binary_round_aux_53 by lia. split_and!; try lia; done.
  - exists (Pos.iter xO p n), (Z.neg n). rewrite binary_round_aux_53 by (rewrite ?digits2_pos_shift; lia).
    split_and!; [done|rewrite digits2_pos_shift; lia|lia..|]. apply pos_iter_xO.
Qed.

Lemma round_scaled q e z :
  e <= 0 -> 0 <= z <= U64_MAX -> Z.pos q = z * 2 ^ (- e) ->
  f64_round_to_u64 (S754_finite false q e) = z /\ f64_round_to_u64 (S754_finite false q (e - 1)) = (z + 1) / 2.
Proof.
  intros He Hz Hq. unfold f64_round_to_u64. rewrite (proj2 (Z.leb_gt 0 (e - 1))) by lia. rewrite Hq.
  replace (- (e - 1)) with (- e + 1) by lia. replace (- e + 1 + 1) with (- e + 2) by lia.
  rewrite !Z.pow_add_r by lia. change (2 ^ 2) with 4. change (2 ^ 1) with 2.
  pose proof (Z.pow_pos_nonneg 2 (- e) ltac:(lia) ltac:(lia)) as Hp. split.
  - destruct (Z.leb_spec 0 e).
    + replace e with 0 by lia. change (2 ^ (- 0)) with 1. change (2 ^ 0) with 1. lia.
    + rewrite <- (Z.div_unique_pos (2 * (z * 2 ^ (- e)) + 2 ^ (- e)) (2 ^ (- e) * 2) z (2 ^ (- e))); lia.
  - replace (2 * (z * 2 ^ (- e)) + 2 ^ (- e) * 2) with ((z + 1) * (2 ^ (- e) * 2)) by lia.
    replace (2 ^ (- e) * 4) with (2 * (2 ^ (- e) * 2)) by lia. rewrite Z.div_mul_cancel_r by lia.
    apply Z.min_l. pose proof (Z.div_mod (z + 1) 2 ltac:(lia)). pose proof (Z.mod_pos_bound (z + 1) 2 ltac:(lia)).
    unfold U64_MAX in *. lia.
Qed.

Lemma multiplier_at rate : 1 <= rate <= 5000 -> congestion_multiplier rate = S754_finite false 4503599627370496 (-52).
Proof.
  intros Hr. assert (Hall : forallb (fun n => match congestion_multiplier (Z.of_nat n) with
    | S754_finite false m e => (m =? 4503599627370496)%positive && (e =? -52) | _ => false end) (seq 1 5000) = true)
    by (vm_compute; reflexivity).
  rewrite forallb_forall in Hall. specialize (Hall (Z.to_nat rate)).
  rewrite Z2Nat.id in Hall by lia. destruct (congestion_multiplier rate) as [|[]| |[] m e];
    try (discriminate Hall; apply in_seq; lia).
  apply andb_prop in Hall as [->%Pos.eqb_eq ->%Z.eqb_eq]; [done|]. apply in_seq. lia.
Qed.

(** ** The fee a message owes *)

(** The instructions of a message as the addresses of their programs with their data. *)
Definition invocations (m : SanitizedMessage) : option (list (Pubkey * list byte)) :=
  mapM (fun ci => k ← message_keys m !! program_id_index ci; Some (k, ci_data ci)) (SanitizedMessage.instructions m).

(** What an instruction of the compute budget program says: a tag and little-endian numbers;
    further bytes are ignored. *)
Definition request (data : list byte) : option ComputeBudgetInstruction :=
  match data with
  | x00 :: l => if (8 <=? length l)%nat
                then Some (RequestUnitsDeprecated (from_le_bytes (take 4 l)) (from_le_bytes (take 4 (drop 4 l)))) else None
  | x01 :: l => if (4 <=? length l)%nat then Some (RequestHeapFrame (from_le_bytes (take 4 l))) else None
  | x02 :: l => if (4 <=? length l)%nat then Some (SetComputeUnitLimit (from_le_bytes (take 4 l))) else None
  | x03 :: l => if (8 <=? length l)%nat then Some (SetComputeUnitPrice (from_le_bytes (take 8 l))) else None
  | _ => None
  end.

Definition requests (l : list (Pubkey * list byte)) : list (option ComputeBudgetInstruction) :=
  (fun x => request x.2) <$> filter (fun x => x.1 = compute_budget_id) l.

Definition limits (rs : list (option ComputeBudgetInstruction)) : list Z :=
  omap (fun r => match r with
                 | Some (RequestUnitsDeprecated units _) | Some (SetComputeUnitLimit units) => Some units
                 | _ => None
                 end) rs.
Definition prices (rs : list (option ComputeBudgetInstruction)) : list PrioritizationFeeType :=
  omap (fun r => match r with
                 | Some (RequestUnitsDeprecated _ fee) => Some (Deprecated fee)
                 | Some (SetComputeUnitPrice price) => Some (ComputeUnitPrice price)
                 | _ => None
                 end) rs.
Definition heaps (rs : list (option ComputeBudgetInstruction)) : list Z :=
  omap (fun r => match r with Some (RequestHeapFrame bytes) => Some bytes | _ => None end) rs.

(** The requests are honoured when all can be read, each thing is asked for once, and the
    heap has between 32 and 256 kilobytes. *)
Definition honoured (rs : list (option ComputeBudgetInstruction)) : bool :=
  forallb is_some rs && (length (limits rs) <=? 1)%nat && (length (prices rs) <=? 1)%nat && (length (heaps rs) <=? 1)%nat
  && forallb (fun bytes => (32 * 1024 <=? bytes) && (bytes <=? 256 * 1024) && (bytes mod 1024 =? 0)) (heaps rs).

(** The limit of compute units, and the fee for a price per unit in millionths of a lamport. *)
Definition unit_limit (rs : list (option ComputeBudgetInstruction)) : Z :=
  if honoured rs then Z.min 1400000 (default 1400000 (head (limits rs))) else 1400000.
Definition priority_fee (rs : list (option ComputeBudgetInstruction)) : Z :=
  if honoured rs then
    match head (prices rs) with
    | Some (Deprecated fee) => fee
    | Some (ComputeUnitPrice price) => (price * unit_limit rs + 999999) / 1000000
    | None => 0
    end
  else 0.

(** The signatures: those of the message, and those its instructions have verified. *)
Definition verified_signatures (x : Pubkey * list byte) : Z :=
  if decide (x.1 = secp256k1_program_id \/ x.1 = ed25519_program_id)
  then match x.2 with b :: _ => u8_val b | [] => 0 end else 0.
Definition signatures (m : SanitizedMessage) (l : list (Pubkey * list byte)) : Z :=
  Z.of_nat (num_required_signatures (SanitizedMessage.header m)) + foldr (fun x n => verified_signatures x + n) 0 l.

(** The accounts of a message that are not declared read-only. *)
Definition writable_accounts (m : SanitizedMessage) : Z :=
  Z.max 0 (Z.of_nat (length (message_keys m))
           - Z.of_nat (num_readonly_signed_accounts (SanitizedMessage.header m))
           - Z.of_nat (num_readonly_unsigned_accounts (SanitizedMessage.header m))
           - match m with V0Message v => Z.of_nat (length (la_readonly (loaded_addresses v))) | LegacyMessage _ => 0 end).

(** The fee of the first bin for at least [limit] units, or of the last bin. *)
Fixpoint bin_fee (bins : list FeeBin) (limit : Z) : Z :=
  match bins with
  | [] => 0
  | [bin] => fb_fee bin
  | bin :: bins => if limit <=? fb_limit bin then fb_fee bin else bin_fee bins limit
  end.

Definition fee_due (m : SanitizedMessage) (fs : FeeStructure) (l : list (Pubkey * list byte)) : Z :=
  priority_fee (requests l) + signatures m l * fs_lamports_per_signature fs
  + writable_accounts m * fs_lamports_per_write_lock fs + bin_fee (fs_compute_fee_bins fs) (unit_limit (requests l)).

(** *** The code computes it *)
Lemma get_lookup m i : AccountKeys.get (SanitizedMessage.account_keys m) i = message_keys m !! i.
Proof.
  unfold AccountKeys.get, message_keys, AccountKeys.iter.
  generalize (AccountKeys.key_segment_iter (SanitizedMessage.account_keys m)) i. clear.
  induction l as [|x l IH]; intros i; cbn [AccountKeys.get_loop concat]; [done|]. destruct (Nat.ltb_spec i (length x)).
  - rewrite lookup_app_l by done. done.
  - rewrite lookup_app_r by done. apply IH.
Qed.

Lemma invocations_cons m ci cis l :
  mapM (fun ci => k ← message_keys m !! program_id_index ci; Some (k, ci_data ci)) (ci :: cis) = Some l ->
  exists k l', AccountKeys.get (SanitizedMessage.account_keys m) (program_id_index ci) = Some k /\ l = (k, ci_data ci) :: l' /\
    mapM (fun ci => k ← message_keys m !! program_id_index ci; Some (k, ci_data ci)) cis = Some l'.
Proof.
  rewrite get_lookup. cbn. destruct (message_keys m !! program_id_index ci) as [k|]; cbn; [|done].
  destruct (mapM _ cis) as [l'|]; cbn; [|done]. intros [= <-]. eauto.
Qed.

Lemma budget_request {B : BorshCrate} `{!BorshSpec B} data :
  match budget_deserialize data with Ok (ix, _) => Some ix | _ => None end = request data.
Proof.
  unfold budget_deserialize, request, mbind, reader_bind. destruct data as [|tag l].
  { destruct de_u8_short as [e ->]. done. }
  rewrite de_u8_spec.
  assert (forall (f : Z -> reader ComputeBudgetInstruction), match (match de_u32 l with Ok (a, l') => f a l' | Err e => Err e | Panic => Panic end)
    with Ok (ix, _) => Some ix | _ => None end = if (4 <=? length l)%nat
    then match f (from_le_bytes (take 4 l)) (drop 4 l) with Ok (ix, _) => Some ix | _ => None end else None) as H32.
  { intros f. destruct (Nat.leb_spec 4 (length l)); [by rewrite de_u32_spec|]. by destruct (de_u32_short l) as [e ->]. }
  destruct tag; try done; rewrite ?H32; try done.
  - destruct (Nat.leb_spec 4 (length l)), (Nat.leb_spec 8 (length l)); try lia; try done.
    + rewrite de_u32_spec by (rewrite length_drop; lia). done.
    + destruct (de_u32_short (drop 4 l)) as [e ->]; [rewrite length_drop; lia|done].
  - destruct (Nat.leb_spec 8 (length l)); [by rewrite de_u64_spec|]. by destruct (de_u64_short l) as [e ->].
Qed.

(** The requests [rs] can follow those of [r]. *)
Definition may_follow (r : Requests) (rs : list (option ComputeBudgetInstruction)) : bool :=
  forallb is_some rs
  && (length (limits rs) <=? if is_some (updated_compute_unit_limit r) then 0 else 1)%nat
  && (length (prices rs) <=? if is_some (prioritization_fee r) then 0 else 1)%nat
  && (length (heaps rs) <=? if is_some (requested_heap_size r) then 0 else 1)%nat.

Definition first_of {A} (o : option A) (l : list A) : option A := match o with Some x => Some x | None => head l end.

Lemma requests_loop_spec {B : BorshCrate} `{!BorshSpec B} m i cis l r :
  mapM (fun ci => k ← message_keys m !! program_id_index ci; Some (k, ci_data ci)) cis = Some l ->
  match requests_loop true m i cis r with
  | Ok r' => may_follow r (requests l) = true /\
      updated_compute_unit_limit r' = first_of (updated_compute_unit_limit r) (limits (requests l)) /\
      prioritization_fee r' = first_of (prioritization_fee r) (prices (requests l)) /\
      fst <$> requested_heap_size r' = first_of (fst <$> requested_heap_size r) (heaps (requests l))
  | Err _ => may_follow r (requests l) = false
  | Panic => False
  end.
Proof.
  revert i l r. induction cis as [|ci cis IH]; intros i l r Hl.
  { injection Hl as <-. destruct r as [n [] [] []]; done. }
  apply invocations_cons in Hl as (k & l' & Hk & -> & Hl). cbn [requests_loop]. rewrite Hk. cbn [unwrap mbind result_bind].
  unfold requests. rewrite filter_cons. cbn [fst snd]. case_decide as Ek.
  2: { apply key_eqb_neq in Ek. rewrite Ek. cbn [mbind result_bind]. apply (IH (S i) l' (mkRequests _ _ _ _) Hl). }
  apply key_eqb_eq in Ek. rewrite Ek, fmap_cons. fold (requests l'). unfold process_request. rewrite budget_request.
  destruct r as [n limit heap fee]. cbn [snd].
  destruct (request (ci_data ci)) as [[u f|b|u|p]|]; cbn [mbind result_bind].
  - destruct limit as [x|]; cbn [is_some]; [by unfold may_follow; cbn; rewrite ?andb_false_r|].
    destruct fee as [x|]; cbn [is_some]; [by unfold may_follow; cbn; rewrite ?andb_false_r|].
    cbn [mbind result_bind]. specialize (IH (S i) l' (mkRequests n (Some u) heap (Some (Deprecated f))) Hl).
    destruct (requests_loop _ _ _ _ _); exact IH.
  - destruct heap as [x|]; cbn [is_some]; [by unfold may_follow; cbn; rewrite ?andb_false_r|].
    cbn [mbind result_bind]. specialize (IH (S i) l' (mkRequests n limit (Some (b, as_u8 i)) fee) Hl).
    destruct (requests_loop _ _ _ _ _); exact IH.
  - destruct limit as [x|]; cbn [is_some]; [by unfold may_follow; cbn; rewrite ?andb_false_r|].
    cbn [mbind result_bind]. specialize (IH (S i) l' (mkRequests n (Some u) heap fee) Hl).
    destruct (requests_loop _ _ _ _ _); exact IH.
  - destruct fee as [x|]; cbn [is_some]; [by unfold may_follow; cbn; rewrite ?andb_false_r|].
    cbn [mbind result_bind]. specialize (IH (S i) l' (mkRequests n limit heap (Some (ComputeUnitPrice p))) Hl).
    destruct (requests_loop _ _ _ _ _); exact IH.
  - done.
Qed.

(** What is asked for is not negative. *)
Definition request_nonneg (r : ComputeBudgetInstruction) : Prop :=
  match r with
  | RequestUnitsDeprecated a b => 0 <= a /\ 0 <= b
  | RequestHeapFrame a | SetComputeUnitLimit a | SetComputeUnitPrice a => 0 <= a
  end.

Lemma requests_nonneg l : Forall (fun o => match o with Some r => request_nonneg r | None => True end) (requests l).
Proof.
  unfold requests. apply Forall_fmap, Forall_true. intros [k data]. cbn. unfold request.
  destruct data as [|[] data]; try done; destruct (_ <=? _)%nat; try done; cbn; try split; apply from_le_bytes_range.
Qed.

Lemma honoured_range l : 0 <= unit_limit (requests l) /\ 0 <= priority_fee (requests l).
Proof.
  pose proof (requests_nonneg l) as Hr. set (rs := requests l) in *.
  assert (0 <= default 0 (head (limits rs))) as Hl.
  { induction Hr as [|[[]|] rs Hx _ IH]; cbn; try done; apply Hx. }
  assert (match head (prices rs) with Some (Deprecated f) => 0 <= f | Some (ComputeUnitPrice p) => 0 <= p | None => True end) as Hp.
  { clear Hl. induction Hr as [|[[]|] rs Hx _ IH]; cbn; try done; apply Hx. }
  unfold priority_fee. assert (0 <= unit_limit rs) as Hu.
  { unfold unit_limit. destruct (honoured rs); [|lia].
    destruct (head (limits rs)) as [x|]; [change (0 <= x) in Hl; change (0 <= Z.min 1400000 x); lia|done]. }
  split; [done|]. destruct (honoured rs); [|done]. destruct (head (prices rs)) as [[p|f]|]; [|done|done].
  apply Z.div_pos; nia.
Qed.

Lemma process_spec {B : BorshCrate} `{!BorshSpec B} m l :
  invocations m = Some l ->
  match process_instructions false true ComputeBudget_default m with
  | Ok (details, budget) => honoured (requests l) = true /\ compute_unit_limit budget = unit_limit (requests l) /\
      (priority_fee (requests l) <= U64_MAX -> pf_fee details = priority_fee (requests l))
  | Err _ => honoured (requests l) = false
  | Panic => False
  end.
Proof.
  intros Hl. unfold process_instructions.
  pose proof (requests_loop_spec m 0 _ _ (mkRequests 0 None None None) Hl) as Hloop.
  destruct (requests_loop _ _ _ _ _) as [r|e|]; cbn [mbind result_bind]; [| |done].
  2: { unfold may_follow in Hloop. cbn in Hloop. unfold honoured. by rewrite Hloop. }
  destruct Hloop as (Hf & Hlim & Hfee & Hheap). unfold may_follow in Hf. cbn in Hf, Hlim, Hfee, Hheap.
  assert (Hlen : (length (heaps (requests l)) <= 1)%nat) by (apply andb_true_iff in Hf as [_ Hf]; by apply Nat.leb_le).
  assert (Hh : match (match requested_heap_size r with
     | Some (bytes, i) => if (MAX_HEAP_FRAME_BYTES <? bytes) || (bytes <? MIN_HEAP_FRAME_BYTES) || negb (bytes mod 1024 =? 0)
         then Err (TxInstructionError i InstructionError.InvalidInstructionData) else Ok (Some bytes)
     | None => Ok (heap_size ComputeBudget_default) end) with
     | Ok _ => honoured (requests l) = true | Err _ => honoured (requests l) = false | Panic => False end).
  { unfold honoured. rewrite Hf. cbn [andb]. destruct (requested_heap_size r) as [[b i]|].
    - destruct (heaps (requests l)) as [|b' [|]]; cbn in Hheap, Hlen; [done| |lia]. injection Hheap as <-.
      cbn [forallb]. unfold MAX_HEAP_FRAME_BYTES, MIN_HEAP_FRAME_BYTES.
      destruct (Z.ltb_spec (256 * 1024) b), (Z.ltb_spec b (32 * 1024)), (Z.leb_spec (32 * 1024) b), (Z.leb_spec b (256 * 1024)),
        (b mod 1024 =? 0); cbn; try done; lia.
    - destruct (heaps (requests l)); [done|done]. }
  destruct (match requested_heap_size r with Some _ => _ | None => _ end) as [hs|e|]; cbn [mbind result_bind]; [|done..].
  split; [done|]. rewrite Hlim, Hfee. unfold unit_limit, priority_fee. rewrite Hh. cbn [compute_unit_limit].
  assert (Z.min (default MAX_COMPUTE_UNIT_LIMIT match head (limits (requests l)) with Some units => Some units | None => None end)
    MAX_COMPUTE_UNIT_LIMIT = Z.min 1400000 (default 1400000 (head (limits (requests l))))) as ->.
  { unfold MAX_COMPUTE_UNIT_LIMIT. destruct (head (limits (requests l))); cbn; lia. }
  split; [done|]. destruct (head (prices (requests l))) as [[p|f]|]; [|done|done].
  unfold unit_limit. rewrite Hh. intros Hle. cbn [pf_fee PrioritizationFeeDetails_new].
  set (x := p * _) in *. change (saturating_sub MICRO_LAMPORTS_PER_LAMPORT 1) with 999999.
  change MICRO_LAMPORTS_PER_LAMPORT with 1000000.
  pose proof (Z.div_mod (x + 999999) 1000000 ltac:(lia)). pose proof (Z.mod_pos_bound (x + 999999) 1000000 ltac:(lia)).
  unfold U64_MAX, U128_MAX in *. rewrite (Z.min_r _ x) by lia. rewrite Z.min_r by lia. unfold u64_or_max.
  by rewrite (proj2 (Z.leb_le _ _)).
Qed.

Lemma count_signatures_spec m cis l n :
  mapM (fun ci => k ← message_keys m !! program_id_index ci; Some (k, ci_data ci)) cis = Some l -> 0 <= n ->
  exists c, count_signatures m cis n = Ok c /\ 0 <= c /\
    (n + foldr (fun x n => verified_signatures x + n) 0 l < 2 ^ 53 -> c = n + foldr (fun x n => verified_signatures x + n) 0 l) /\
    0 <= foldr (fun x n => verified_signatures x + n) 0 l.
Proof.
  revert l n. induction cis as [|ci cis IH]; intros l n Hl Hn.
  { injection Hl as <-. exists n. cbn. split_and!; try done; lia. }
  apply invocations_cons in Hl as (k & l' & Hk & -> & Hl). cbn [count_signatures foldr]. rewrite Hk. cbn [unwrap mbind result_bind].
  assert (0 <= verified_signatures (k, ci_data ci)) as Hb.
  { unfold verified_signatures. cbn. case_decide; [|done]. destruct (ci_data ci) as [|b]; [done|]. apply u8_val_range. }
  set (n' := if key_eqb k secp256k1_program_id || key_eqb k ed25519_program_id then _ else n). assert (n' = saturating_add n (verified_signatures (k, ci_data ci)) \/
    n' = n /\ verified_signatures (k, ci_data ci) = 0) as Hn'.
  { unfold n', verified_signatures. cbn [fst snd]. destruct (key_eqb k secp256k1_program_id || key_eqb k ed25519_program_id) eqn:E.
    - apply orb_true_iff in E. rewrite !key_eqb_eq in E. rewrite decide_True by done. destruct (ci_data ci); [by right|by left].
    - apply orb_false_iff in E. rewrite !key_eqb_neq in E. rewrite decide_False by tauto. by right. }
  unfold saturating_add, U64_MAX in Hn'. destruct (IH l' n' Hl) as (c & Hc & Hc0 & Heq & Hs); [lia|].
  exists c. split_and!; [done..|intros Hlt; rewrite Heq; lia|lia].
Qed.

Lemma compute_fee_bins bins limit : compute_fee bins limit = bin_fee bins limit.
Proof.
  unfold compute_fee. induction bins as [|b bins IH]; [done|]. cbn [List.find bin_fee].
  destruct bins as [|b' bins]; [by destruct (_ <=? _)|]. destruct (limit <=? fb_limit b); [done|].
  rewrite <-IH. destruct (List.find _ _); [done|]. cbn [rev]. destruct (rev bins ++ [b']) eqn:E; [by destruct (rev bins)|done].
Qed.

Lemma write_locks_spec m :
  is_u64 (Z.of_nat (length (message_keys m))) -> get_num_write_locks_in_message m = writable_accounts m.
Proof.
  intros Hk. unfold get_num_write_locks_in_message, writable_accounts, num_readonly_accounts, saturating_sub, saturating_add.
  rewrite keys_length. unfold is_u64 in Hk. destruct m; lia.
Qed.

(** The fees of the structure are numbers of lamports. *)
Record fees_wf (fs : FeeStructure) : Prop := {
  fw_signature : 0 <= fs_lamports_per_signature fs;
  fw_write_lock : 0 <= fs_lamports_per_write_lock fs;
  fw_bins : Forall (fun bin => 0 <= fb_fee bin) (fs_compute_fee_bins fs)
}.

Lemma fee_sum_due {B : BorshCrate} `{!BorshSpec B} m fs l :
  invocations m = Some l -> is_u64 (Z.of_nat (length (message_keys m))) -> fees_wf fs -> fee_due m fs l < 2 ^ 53 ->
  fee_sum m fs true = Ok (fee_due m fs l) /\ 0 <= fee_due m fs l.
Proof.
  intros Hl Hk [Hs Hw Hb] Hlt. unfold fee_sum. pose proof (process_spec m l Hl) as Hp.
  destruct (honoured_range l) as [Hu Hpf].
  destruct (count_signatures_spec m _ _ (Z.of_nat (num_required_signatures (SanitizedMessage.header m))) Hl)
    as (c & Hc & Hc0 & Hceq & Hs0); [lia|].
  assert (0 <= bin_fee (fs_compute_fee_bins fs) (unit_limit (requests l))) as Hbin.
  { generalize (unit_limit (requests l)). induction Hb as [|b bins Hb0 _ IH]; intros x; cbn [bin_fee]; [done|].
    destruct bins; [done|]. destruct (x <=? fb_limit b); [done|]. apply IH. }
  assert (0 <= writable_accounts m) as Hwr by (unfold writable_accounts; lia).
  unfold fee_due in *. fold (signatures m l) in Hceq. assert (0 <= signatures m l) as Hsg by (unfold signatures; lia).
  set (sg := signatures m l) in *. set (wr := writable_accounts m) in *. set (bf := bin_fee _ _) in *.
  set (pf := priority_fee (requests l)) in *.
  assert (saturating_mul c (fs_lamports_per_signature fs) = sg * fs_lamports_per_signature fs) as Esg.
  { unfold saturating_mul, U64_MAX. destruct (decide (fs_lamports_per_signature fs = 0)) as [->|]; [lia|].
    rewrite Hceq by nia. nia. }
  assert (saturating_mul wr (fs_lamports_per_write_lock fs) = wr * fs_lamports_per_write_lock fs) as Ewr
    by (unfold saturating_mul, U64_MAX; nia).
  assert (exists d b, match process_instructions false true ComputeBudget_default m with
    | Ok r => Ok r | Err _ => Ok (PrioritizationFeeDetails_default, ComputeBudget_default) | Panic => Panic end
    = Ok (E:=TransactionError) (d, b) /\ pf_fee d = pf /\ compute_unit_limit b = unit_limit (requests l)) as (d & b & -> & Hd & Hlim).
  { unfold pf, priority_fee, unit_limit in *. destruct (process_instructions _ _ _ _) as [[d b]|e|]; [| |done].
    - destruct Hp as (Hh & Hlim & Hfee). rewrite Hh in *. exists d, b. split_and!; [done| |done]. apply Hfee. unfold U64_MAX. nia.
    - rewrite Hp. by exists PrioritizationFeeDetails_default, ComputeBudget_default. }
  cbn [mbind result_bind]. unfold get_num_signatures_in_message. rewrite Hc. cbn [mbind result_bind].
  rewrite Hd, Hlim, Esg, write_locks_spec, compute_fee_bins by done. fold wr. rewrite Ewr. fold bf.
  unfold saturating_add, U64_MAX. split; [f_equal; nia|nia].
Qed.


(** A message with one signature that has two more verified, and offers three millionths of a
    lamport for each of half a million compute units. *)
Definition fx_message : SanitizedMessage :=
  LegacyMessage (Legacy.mkMessage (mkHeader 1 0 2) [pubkey_of_Z 101; compute_budget_id; ed25519_program_id] Pubkey_default
    [mkCompiled 1 [] (x03 :: u64_le 3); mkCompiled 1 [] (x02 :: to_le_bytes 4 500000); mkCompiled 2 [] [x02; x00]]).

