(* ===== verification/AccountLocks.v ===== *)
(** * Account locks

    [runtime/src/accounts.rs] and [sdk/src/transaction/sanitized.rs]: the accounts of a transaction
    are locked for reading or writing before it is processed, so that transactions processed at the
    same time do not interfere. *)

From S2P Require Import Prelude Sdk SystemInstruction Transaction Message MessageProcessor MessageFixtures MessageSafety.

Record AccountLocks : Type := mkLocks {
  write_locks : gset Pubkey;
  readonly_locks : gmap Pubkey Z
}.

Module AccountLocks.
Section locks.
Variable self : AccountLocks.

Definition is_locked_readonly (key : Pubkey) : bool :=
  match readonly_locks self !! key with Some count => 0 <? count | None => false end.

Definition is_locked_write (key : Pubkey) : bool := bool_decide (key ∈ write_locks self).

Definition insert_new_readonly {E} (key : Pubkey) : result E AccountLocks :=
  match readonly_locks self !! key with
  | Some _ => Panic
  | None => Ok (mkLocks (write_locks self) (<[key := 1]> (readonly_locks self)))
  end.

(** [None] when there is no count to increment. *)
Definition lock_readonly (key : Pubkey) : option AccountLocks :=
  count ← readonly_locks self !! key;
  Some (mkLocks (write_locks self) (<[key := wrapping_add count 1]> (readonly_locks self))).

Definition unlock_readonly (key : Pubkey) : AccountLocks :=
  match readonly_locks self !! key with
  | Some count =>
      let count := wrapping_sub count 1 in
      mkLocks (write_locks self)
        (if count =? 0 then delete key (readonly_locks self) else <[key := count]> (readonly_locks self))
  | None => self
  end.

Definition lock_write (key : Pubkey) : AccountLocks :=
  mkLocks ({[key]} ∪ write_locks self) (readonly_locks self).

Definition unlock_write (key : Pubkey) : AccountLocks :=
  mkLocks (write_locks self ∖ {[key]}) (readonly_locks self).

End locks.
End AccountLocks.

(** ** The locks of a transaction *)
Definition MAX_TX_ACCOUNT_LOCKS : nat := 64.

Record TransactionAccountLocks : Type := mkTxLocks {
  tl_readonly : list Pubkey;
  tl_writable : list Pubkey
}.

Definition push_lock (is_writable : bool) (key : Pubkey) (locks : TransactionAccountLocks)
    : TransactionAccountLocks :=
  if is_writable then mkTxLocks (tl_readonly locks) (tl_writable locks ++ [key])
  else mkTxLocks (tl_readonly locks ++ [key]) (tl_writable locks).

(** The loop of [get_account_locks_unchecked] from the key at [i]. *)
Fixpoint account_locks_loop (message : SanitizedMessage) (i : nat) (keys : list Pubkey)
    (locks : TransactionAccountLocks) : result TransactionError TransactionAccountLocks :=
  match keys with
  | [] => Ok locks
  | key :: keys =>
      w ← SanitizedMessage.is_writable (E:=TransactionError) message i;
      account_locks_loop message (S i) keys (push_lock w key locks)
  end.

Definition get_account_locks_unchecked (message : SanitizedMessage)
    : result TransactionError TransactionAccountLocks :=
  account_locks_loop message 0 (AccountKeys.iter (SanitizedMessage.account_keys message)) (mkTxLocks [] []).

Definition get_account_locks (message : SanitizedMessage) : result TransactionError TransactionAccountLocks :=
  if SanitizedMessage.has_duplicates message then Err AccountLoadedTwice
  else if (MAX_TX_ACCOUNT_LOCKS <? AccountKeys.len (SanitizedMessage.account_keys message))%nat
  then Err TooManyAccountLocks
  else get_account_locks_unchecked message.

(** ** Locking and unlocking *)
Fixpoint lock_readers {E} (locks : AccountLocks) (keys : list Pubkey) : result E AccountLocks :=
  match keys with
  | [] => Ok locks
  | k :: keys =>
      locks ← match AccountLocks.lock_readonly locks k with
              | Some locks => Ok locks
              | None => AccountLocks.insert_new_readonly locks k
              end;
      lock_readers locks keys
  end.

Definition lock_account (locks : AccountLocks) (writable_keys readonly_keys : list Pubkey)
    : result TransactionError AccountLocks :=
  if existsb (fun k => AccountLocks.is_locked_write locks k || AccountLocks.is_locked_readonly locks k) writable_keys
  then Err AccountInUse
  else if existsb (AccountLocks.is_locked_write locks) readonly_keys then Err AccountInUse
  else lock_readers (foldl AccountLocks.lock_write locks writable_keys) readonly_keys.

Definition unlock_account (locks : AccountLocks) (writable_keys readonly_keys : list Pubkey) : AccountLocks :=
  foldl AccountLocks.unlock_readonly (foldl AccountLocks.unlock_write locks writable_keys) readonly_keys.

(** The loop of [lock_accounts_inner]: the result of every transaction, and the locks. A failed
    transaction leaves the locks as they are. *)
Fixpoint lock_accounts_inner (locks : AccountLocks)
    (tx_account_locks_results : list (result TransactionError TransactionAccountLocks))
    : result TransactionError (list (result TransactionError unit) * AccountLocks) :=
  match tx_account_locks_results with
  | [] => Ok ([], locks)
  | Panic :: _ => Panic
  | Err e :: rest => '(results, locks) ← lock_accounts_inner locks rest; Ok (Err e :: results, locks)
  | Ok tx_account_locks :: rest =>
      match lock_account locks (tl_writable tx_account_locks) (tl_readonly tx_account_locks) with
      | Ok locks => '(results, locks) ← lock_accounts_inner locks rest; Ok (Ok tt :: results, locks)
      | Err e => '(results, locks) ← lock_accounts_inner locks rest; Ok (Err e :: results, locks)
      | Panic => Panic
      end
  end.

Definition lock_accounts (locks : AccountLocks) (txs : list SanitizedMessage)
    : result TransactionError (list (result TransactionError unit) * AccountLocks) :=
  lock_accounts_inner locks (get_account_locks <$> txs).

Definition lock_accounts_with_results (locks : AccountLocks) (txs : list SanitizedMessage)
    (results : list (result TransactionError unit))
    : result TransactionError (list (result TransactionError unit) * AccountLocks) :=
  lock_accounts_inner locks
    (zip_with (fun tx r => match r with Ok _ => get_account_locks tx | Err e => Err e | Panic => Panic end)
       txs results).

(** The transactions that hold no locks. *)
Definition holds_no_locks (e : TransactionError) : bool :=
  match e with
  | AccountLoadedTwice | AccountInUse | SanitizeFailure | TooManyAccountLocks
  | WouldExceedMaxBlockCostLimit | WouldExceedMaxVoteCostLimit | WouldExceedMaxAccountCostLimit
  | WouldExceedAccountDataBlockLimit | WouldExceedAccountDataTotalLimit => true
  | _ => false
  end.

Fixpoint unlock_accounts (locks : AccountLocks) (txs : list SanitizedMessage)
    (results : list (result TransactionError unit)) : result TransactionError AccountLocks :=
  match txs, results with
  | tx :: txs, res :: results =>
      if match res with Err e => holds_no_locks e | _ => false end then unlock_accounts locks txs results
      else
        keys ← get_account_locks_unchecked tx;
        unlock_accounts (unlock_account locks (tl_writable keys) (tl_readonly keys)) txs results
  | _, _ => Ok locks
  end.

(** ** What the locks represent *)

(** The transactions of [held] that write, or read, the account [k]. *)
Definition writers (held : list TransactionAccountLocks) (k : Pubkey) : nat :=
  length (filter (fun h => k ∈ tl_writable h) held).
Definition readers (held : list TransactionAccountLocks) (k : Pubkey) : nat :=
  length (filter (fun h => k ∈ tl_readonly h) held).

(** An account has one writer and no reader, or no writer. *)
Definition exclusive (held : list TransactionAccountLocks) : Prop :=
  forall k, writers held k = 0%nat \/ (writers held k = 1%nat /\ readers held k = 0%nat).

Definition distinct_locks (h : TransactionAccountLocks) : Prop := NoDup (tl_writable h ++ tl_readonly h).

(** The locks are those of the transactions [held]. *)
Record represents (l : AccountLocks) (held : list TransactionAccountLocks) : Prop := {
  rp_write k : k ∈ write_locks l <-> writers held k <> 0%nat;
  rp_read k : readonly_locks l !! k
    = (if (readers held k =? 0)%nat then None else Some (Z.of_nat (readers held k)))
}.

Lemma represents_unique l l' held : represents l held -> represents l' held -> l = l'.
Proof.
  intros [W R] [W' R']. destruct l as [w r], l' as [w' r']. cbn in *. f_equal.
  - apply set_eq. intros k. by rewrite W, W'.
  - apply map_eq. intros k. by rewrite R, R'.
Qed.

Lemma writers_cons h held k :
  writers (h :: held) k = ((if decide (k ∈ tl_writable h) then 1 else 0) + writers held k)%nat.
Proof. unfold writers. rewrite filter_cons. by case_decide. Qed.
Lemma readers_cons h held k :
  readers (h :: held) k = ((if decide (k ∈ tl_readonly h) then 1 else 0) + readers held k)%nat.
Proof. unfold readers. rewrite filter_cons. by case_decide. Qed.

Lemma readers_length held k : (readers held k <= length held)%nat.
Proof. apply length_filter. Qed.

Lemma lock_writes_eq l keys :
  foldl AccountLocks.lock_write l keys = mkLocks (list_to_set keys ∪ write_locks l) (readonly_locks l).
Proof.
  revert l. induction keys as [|k keys IH]; intros l; cbn; [destruct l; f_equal; set_solver|].
  rewrite IH. cbn. f_equal. set_solver.
Qed.

Lemma unlock_writes_eq l keys :
  foldl AccountLocks.unlock_write l keys = mkLocks (write_locks l ∖ list_to_set keys) (readonly_locks l).
Proof.
  revert l. induction keys as [|k keys IH]; intros l; cbn; [destruct l; f_equal; set_solver|].
  rewrite IH. cbn. f_equal. set_solver.
Qed.

Lemma lock_readers_ok {E} l keys :
  NoDup keys -> (forall k c, k ∈ keys -> readonly_locks l !! k = Some c -> 0 <= c < U64_MAX) ->
  exists l', lock_readers (E:=E) l keys = Ok l' /\ write_locks l' = write_locks l /\
    forall k, readonly_locks l' !! k
      = if decide (k ∈ keys) then Some (default 0 (readonly_locks l !! k) + 1) else readonly_locks l !! k.
Proof.
  intros Hnd. revert l. induction Hnd as [|k keys Hk Hnd IH]; intros l Hl.
  { by exists l. }
  assert (exists l1, match AccountLocks.lock_readonly l k with Some l => Ok (E:=E) l
      | None => AccountLocks.insert_new_readonly l k end = Ok l1 /\ write_locks l1 = write_locks l /\
      readonly_locks l1 = <[k := default 0 (readonly_locks l !! k) + 1]> (readonly_locks l))
    as (l1 & H1 & Hw & Hr).
  { unfold AccountLocks.lock_readonly, AccountLocks.insert_new_readonly.
    destruct (readonly_locks l !! k) as [c|] eqn:Ec; cbn; [|by eexists].
    eexists. split_and!; [done..|]. cbn. unfold wrapping_add, id.
    rewrite wrap64_small; [done|]. specialize (Hl k c ltac:(by left) Ec). unfold is_u64. lia. }
  destruct (IH l1) as (l' & H' & Hw' & Hr').
  { intros k' c Hk' Hc. rewrite Hr, lookup_insert_ne in Hc by (intros ->; done). eapply Hl; [by right|done]. }
  exists l'. cbn [lock_readers]. rewrite H1. cbn [mbind result_bind]. split_and!; [done|congruence|].
  intros k'. rewrite Hr', Hr. destruct (decide (k' = k)) as [->|Hne].
  - rewrite decide_False, decide_True by (done || by left). by rewrite lookup_insert_eq.
  - rewrite lookup_insert_ne by done. by rewrite (decide_ext (k' ∈ k :: keys) (k' ∈ keys)) by set_solver.
Qed.

Lemma unlock_readers_ok l keys :
  NoDup keys -> (forall k, k ∈ keys -> exists c, readonly_locks l !! k = Some c /\ 1 <= c <= U64_MAX) ->
  let l' := foldl AccountLocks.unlock_readonly l keys in
  write_locks l' = write_locks l /\
  forall k, readonly_locks l' !! k
    = if decide (k ∈ keys) then (c ← readonly_locks l !! k; if c =? 1 then None else Some (c - 1))
      else readonly_locks l !! k.
Proof.
  intros Hnd. revert l. induction Hnd as [|k keys Hk Hnd IH]; intros l Hl.
  { done. }
  destruct (Hl k ltac:(by left)) as (c & Hc & Hb). cbn [foldl].
  assert (AccountLocks.unlock_readonly l k = mkLocks (write_locks l)
    (if c =? 1 then delete k (readonly_locks l) else <[k := c - 1]> (readonly_locks l))) as E.
  { unfold AccountLocks.unlock_readonly. rewrite Hc. unfold wrapping_sub. rewrite wrap64_small by (unfold is_u64; lia).
    by destruct (Z.eqb_spec c 1), (Z.eqb_spec (c - 1) 0); try lia. }
  rewrite E. set (l1 := mkLocks _ _).
  assert (forall k', k' <> k -> readonly_locks l1 !! k' = readonly_locks l !! k') as Hne.
  { intros k' Hk'. unfold l1. cbn. case_match; [by rewrite lookup_delete_ne|by rewrite lookup_insert_ne]. }
  destruct (IH l1) as [Hw' Hr'].
  { intros k' Hk'. rewrite Hne by (intros ->; done). apply Hl. by right. }
  split; [done|]. intros k'. rewrite Hr'. destruct (decide (k' = k)) as [->|Hk'].
  - rewrite decide_False, decide_True by (done || by left). rewrite Hc. unfold l1. cbn.
    case_match; [by rewrite lookup_delete_eq|by rewrite lookup_insert_eq].
  - rewrite Hne by done. by rewrite (decide_ext (k' ∈ k :: keys) (k' ∈ keys)) by set_solver.
Qed.

(** A transaction does not conflict with those of [held]. *)
Definition free_for (held : list TransactionAccountLocks) (h : TransactionAccountLocks) : Prop :=
  (forall k, k ∈ tl_writable h -> writers held k = 0%nat /\ readers held k = 0%nat) /\
  (forall k, k ∈ tl_readonly h -> writers held k = 0%nat).

Lemma exclusive_cons held h :
  distinct_locks h -> exclusive held -> free_for held h -> exclusive (h :: held).
Proof.
  intros Hd He [Hw Hr] k. specialize (He k). rewrite writers_cons, readers_cons.
  apply list.NoDup_app in Hd as (_ & Hd & _). specialize (Hd k).
  destruct (decide (k ∈ tl_writable h)) as [Hkw|Hkw], (decide (k ∈ tl_readonly h)) as [Hkr|Hkr].
  - by destruct Hd.
  - right. destruct (Hw k Hkw). lia.
  - left. specialize (Hr k Hkr). lia.
  - cbn. done.
Qed.

(** Locks are granted exactly to the transactions that do not conflict with the holders. *)
Lemma lock_account_spec l held h :
  represents l held -> distinct_locks h -> Z.of_nat (length held) < U64_MAX ->
  (free_for held h /\ exists l', lock_account l (tl_writable h) (tl_readonly h) = Ok l' /\ represents l' (h :: held)) \/
  (~ free_for held h /\ lock_account l (tl_writable h) (tl_readonly h) = Err AccountInUse).
Proof.
  intros [HW HR] Hd Hlen. unfold lock_account.
  assert (forall k, AccountLocks.is_locked_write l k = true <-> writers held k <> 0%nat) as Ew.
  { intros k. unfold AccountLocks.is_locked_write. by rewrite bool_decide_eq_true. }
  assert (forall k, AccountLocks.is_locked_readonly l k = true <-> readers held k <> 0%nat) as Er.
  { intros k. unfold AccountLocks.is_locked_readonly. rewrite HR. destruct (Nat.eqb_spec (readers held k) 0); [lia|].
    rewrite Z.ltb_lt. lia. }
  destruct (existsb _ (tl_writable h)) eqn:E1.
  { right. apply existsb_exists in E1 as (k & Hk & E). split; [|done]. intros [Hf _].
    destruct (Hf k) as [H0 H1]; [by apply list_elem_of_In|]. apply orb_true_iff in E as [E|E]; [by apply Ew in E|by apply Er in E]. }
  destruct (existsb _ (tl_readonly h)) eqn:E2.
  { right. apply existsb_exists in E2 as (k & Hk & E). split; [|done]. intros [_ Hf].
    apply Ew in E. by apply E, Hf, list_elem_of_In. }
  assert (free_for held h) as Hf.
  { split; intros k Hk.
    - assert (~ (AccountLocks.is_locked_write l k || AccountLocks.is_locked_readonly l k = true)) as Hn.
      { intros E. apply not_true_iff_false in E1. apply E1, existsb_exists. exists k. by rewrite <-list_elem_of_In. }
      rewrite orb_true_iff, Ew, Er in Hn. lia.
    - assert (~ (AccountLocks.is_locked_write l k = true)) as Hn.
      { intros E. apply not_true_iff_false in E2. apply E2, existsb_exists. exists k. by rewrite <-list_elem_of_In. }
      rewrite Ew in Hn. lia. }
  left. split; [done|]. rewrite lock_writes_eq. pose proof Hd as (_ & _ & Hnr)%list.NoDup_app.
  edestruct (lock_readers_ok (E:=TransactionError) (mkLocks (list_to_set (tl_writable h) ∪ write_locks l) (readonly_locks l))
    (tl_readonly h) Hnr) as (l' & -> & Hw' & Hr').
  { cbn. intros k c _. rewrite HR. pose proof (readers_length held k). case_match; [done|]. intros [= <-]. lia. }
  exists l'. split; [done|]. split.
  - intros k. rewrite Hw', writers_cons. cbn. rewrite elem_of_union, elem_of_list_to_set, HW. case_decide; [split; [lia|auto]|].
    cbn. tauto.
  - intros k. rewrite Hr', readers_cons. cbn [readonly_locks]. rewrite HR. case_decide; cbn [Nat.add]; [|done].
    destruct (Nat.eqb_spec (readers held k) 0) as [->|]; cbn; [done|]. unfold id. f_equal. lia.
Qed.

(** Unlocking a holder releases its locks. *)
Lemma unlock_account_spec l held h :
  represents l (h :: held) -> exclusive (h :: held) -> distinct_locks h -> Z.of_nat (length held) < U64_MAX ->
  represents (unlock_account l (tl_writable h) (tl_readonly h)) held.
Proof.
  intros [HW HR] He Hd Hlen. unfold unlock_account. rewrite unlock_writes_eq.
  pose proof Hd as (_ & _ & Hnr)%list.NoDup_app.
  destruct (unlock_readers_ok (mkLocks (write_locks l ∖ list_to_set (tl_writable h)) (readonly_locks l)) (tl_readonly h) Hnr)
    as [Hw' Hr'].
  { cbn. intros k Hk. rewrite HR, readers_cons, decide_True by done. cbn. eexists. split; [done|].
    pose proof (readers_length held k). lia. }
  split; intros k.
  - rewrite Hw'. cbn. rewrite elem_of_difference, elem_of_list_to_set, HW. specialize (He k).
    rewrite writers_cons in *. case_decide; cbn in *; [|tauto]. lia || (split; [tauto|]; lia).
  - rewrite Hr'. cbn [readonly_locks]. rewrite HR, readers_cons. case_decide; [|done].
    destruct (readers held k) as [|n]; cbn [Nat.add Nat.eqb mbind option_bind]; [done|].
    destruct (Z.eqb_spec (Z.of_nat (S (S n))) 1); [lia|]. f_equal. lia.
Qed.

(** ** The locks of a message *)
Lemma is_writable_no_error {E} message i (e : E) : SanitizedMessage.is_writable message i <> Err e.
Proof.
  destruct message as [m|m]; cbn; [|done]. unfold Legacy.is_writable.
  case_match; [|done]. by destruct (Legacy.account_keys m !! i).
Qed.

(** [h] holds the keys from position [i] on, split by [is_writable], after those of [acc]. *)
Lemma account_locks_loop_ok message i keys acc h :
  account_locks_loop message i keys acc = Ok h ->
  tl_writable h ++ tl_readonly h ≡ₚ tl_writable acc ++ tl_readonly acc ++ keys /\
  (forall k, k ∈ tl_writable h <-> k ∈ tl_writable acc \/
     exists j, keys !! j = Some k /\ SanitizedMessage.is_writable (E:=TransactionError) message (i + j) = Ok true).
Proof.
  revert i acc. induction keys as [|key keys IH]; intros i acc H; cbn [account_locks_loop] in H.
  { injection H as <-. rewrite app_nil_r. split; [done|]. intros k. split; [auto|]. by intros [?|(j & ? & _)]. }
  apply result_bind_ok in H as (w & Hw & H). destruct (IH _ _ H) as [Hp Hk]. split.
  - rewrite Hp. destruct w; cbn.
    + rewrite <-app_assoc. apply Permutation_app_head. cbn. by rewrite <-Permutation_middle.
    + rewrite <-app_assoc. done.
  - intros k. rewrite Hk. split.
    + intros [Hin|(j & Hj & Hjw)]; [|right; exists (S j); by rewrite Nat.add_succ_r].
      destruct w; cbn in Hin; [|by left]. apply elem_of_app in Hin as [?| ->%list_elem_of_singleton]; [by left|].
      right. exists 0%nat. by rewrite Nat.add_0_r.
    + intros [Hin|([|j] & Hj & Hjw)].
      * left. destruct w; cbn; set_solver.
      * rewrite Nat.add_0_r in Hjw. assert (w = true) as -> by congruence. injection Hj as <-. left. cbn. set_solver.
      * right. exists j. by rewrite Nat.add_succ_r in Hjw.
Qed.

Lemma get_account_locks_ok message h :
  get_account_locks message = Ok h ->
  SanitizedMessage.has_duplicates message = false /\ get_account_locks_unchecked message = Ok h /\ distinct_locks h /\
  forall k, k ∈ tl_writable h <-> exists j, message_keys message !! j = Some k /\
    SanitizedMessage.is_writable (E:=TransactionError) message j = Ok true.
Proof.
  unfold get_account_locks. destruct (SanitizedMessage.has_duplicates message) eqn:Ed; [done|].
  destruct (_ <? _)%nat; [done|]. intros H. pose proof H as [Hp Hk]%account_locks_loop_ok. cbn in Hp, Hk.
  split_and!; try done.
  - unfold distinct_locks. rewrite Hp. by apply distinct_keys.
  - intros k. rewrite Hk. split; [|auto]. by intros [[]%not_elem_of_nil|?].
Qed.

Lemma get_account_locks_error message e : get_account_locks message = Err e -> holds_no_locks e = true.
Proof.
  unfold get_account_locks. destruct (SanitizedMessage.has_duplicates message); [by intros [= <-]|].
  destruct (_ <? _)%nat; [by intros [= <-]|]. unfold get_account_locks_unchecked. generalize (mkTxLocks [] []), 0%nat.
  induction (AccountKeys.iter _) as [|k keys IH]; intros acc i H; cbn in H; [done|].
  destruct (SanitizedMessage.is_writable message i) as [w|e'|] eqn:Ew; cbn in H; [by eapply IH| |done].
  by apply is_writable_no_error in Ew.
Qed.

(** ** Batches *)

(** The locks granted to the transactions [txs], with their results. *)
Inductive grants : list SanitizedMessage -> list (result TransactionError unit) ->
    list TransactionAccountLocks -> Prop :=
| grants_nil : grants [] [] []
| grants_ok tx h txs results granted :
    get_account_locks tx = Ok h -> grants txs results granted ->
    grants (tx :: txs) (Ok tt :: results) (h :: granted)
| grants_err tx e txs results granted :
    holds_no_locks e = true -> grants txs results granted ->
    grants (tx :: txs) (Err e :: results) granted.

#[global] Instance represents_perm l : Proper (Permutation ==> iff) (represents l).
Proof.
  assert (forall h h', h ≡ₚ h' -> represents l h -> represents l h') as Hp.
  { intros h h' Hh [W R]. assert (forall k, writers h' k = writers h k /\ readers h' k = readers h k) as E.
    { intros k. unfold writers, readers. by rewrite Hh. }
    split; intros k; destruct (E k) as [Ew Er]; [by rewrite Ew|by rewrite Er]. }
  intros h h' Hh. split; apply Hp; [done|by symmetry].
Qed.

#[global] Instance exclusive_perm : Proper (Permutation ==> iff) exclusive.
Proof. intros h h' Hh. unfold exclusive, writers, readers. by setoid_rewrite Hh. Qed.

Lemma exclusive_app_r g held : exclusive (g ++ held) -> exclusive held.
Proof.
  intros He k. specialize (He k). unfold writers, readers in *. rewrite !list.filter_app, !length_app in He. lia.
Qed.

Lemma unlock_grants txs results granted l held :
  grants txs results granted -> represents l (granted ++ held) -> exclusive (granted ++ held) ->
  Z.of_nat (length held + length txs) <= U64_MAX ->
  exists l', unlock_accounts l txs results = Ok l' /\ represents l' held.
Proof.
  intros Hg. revert l. induction Hg as [|tx h txs results g Htx Hg IH|tx e txs results g He Hg IH]; intros l Hr Hex Hn.
  - by exists l.
  - cbn [unlock_accounts]. apply get_account_locks_ok in Htx as (_ & -> & Hd & _). cbn [mbind result_bind].
    assert (length g <= length txs)%nat by (clear -Hg; induction Hg; cbn; lia).
    cbn [app length] in *. apply IH; [|by apply (exclusive_app_r [h])|lia].
    apply unlock_account_spec; [done..|]. rewrite length_app. lia.
  - cbn [unlock_accounts]. rewrite He. apply IH; [done..|]. cbn in Hn. lia.
Qed.

(** ** What the locks promise *)

(** A message may write the account [k]. *)
Definition may_write (m : SanitizedMessage) (k : Pubkey) : Prop :=
  exists j, message_keys m !! j = Some k /\ SanitizedMessage.is_writable (E:=TransactionError) m j = Ok true.

Lemma may_write_exists m k :
  may_write m k <-> existsb (fun j => bool_decide (message_keys m !! j = Some k) &&
    match SanitizedMessage.is_writable (E:=TransactionError) m j with Ok w => w | _ => false end)
    (seq 0 (length (message_keys m))) = true.
Proof.
  rewrite existsb_exists. split.
  - intros (j & Hj & Hw). exists j. rewrite in_seq, Hw, bool_decide_true by done. apply lookup_lt_Some in Hj. split; [lia|done].
  - intros (j & _ & [Hj%bool_decide_eq_true Hw]%andb_true_iff). exists j. split; [done|].
    destruct (SanitizedMessage.is_writable m j); [by subst|done..].
Qed.

#[global] Instance may_write_dec m k : Decision (may_write m k).
Proof.
  destruct (existsb (fun j => bool_decide (message_keys m !! j = Some k) &&
    match SanitizedMessage.is_writable (E:=TransactionError) m j with Ok w => w | _ => false end)
    (seq 0 (length (message_keys m)))) eqn:E; [left|right]; rewrite may_write_exists; congruence.
Defined.

(** Two messages conflict when they share an account that one of them may write. *)
Definition conflict (m m' : SanitizedMessage) : Prop :=
  exists k, k ∈ message_keys m /\ k ∈ message_keys m' /\ (may_write m k \/ may_write m' k).

(** The messages that can be locked: distinct accounts, at most 64. *)
Definition lockable (m : SanitizedMessage) : Prop :=
  NoDup (message_keys m) /\ (length (message_keys m) <= 64)%nat.

(** The locks are those of the messages [held]: an account is locked for writing when one of
    them may write it, and counted for each one that only reads it. *)
Record holds (l : AccountLocks) (held : list SanitizedMessage) : Prop := {
  ho_write k : k ∈ write_locks l <-> exists m, m ∈ held /\ may_write m k;
  ho_read k : default 0 (readonly_locks l !! k)
    = Z.of_nat (length (filter (fun m => k ∈ message_keys m /\ ~ may_write m k) held));
  ho_count k c : readonly_locks l !! k = Some c -> c <> 0
}.

(** A batch of transactions over the messages that hold locks: each is granted its locks when
    it conflicts with no holder, and holds them from then on. *)
Inductive batch : list SanitizedMessage -> list SanitizedMessage -> list (result TransactionError unit) ->
    list SanitizedMessage -> Prop :=
| batch_nil held : batch held [] [] held
| batch_granted held tx txs results held' :
    lockable tx -> Forall (fun m => ~ conflict tx m) held -> batch (tx :: held) txs results held' ->
    batch held (tx :: txs) (Ok tt :: results) held'
| batch_in_use held tx txs results held' :
    lockable tx -> Exists (conflict tx) held -> batch held txs results held' ->
    batch held (tx :: txs) (Err AccountInUse :: results) held'
| batch_twice held tx txs results held' :
    ~ NoDup (message_keys tx) -> batch held txs results held' ->
    batch held (tx :: txs) (Err AccountLoadedTwice :: results) held'
| batch_too_many held tx txs results held' :
    NoDup (message_keys tx) -> (64 < length (message_keys tx))%nat -> batch held txs results held' ->
    batch held (tx :: txs) (Err TooManyAccountLocks :: results) held'.

(** *** The locks the code computes *)
Lemma is_writable_total m j k :
  message_keys m !! j = Some k -> exists w, SanitizedMessage.is_writable (E:=TransactionError) m j = Ok w.
Proof.
  destruct m as [m|m]; cbn; [|by eexists]. unfold message_keys, AccountKeys.iter. cbn. rewrite app_nil_r. intros Hj.
  unfold Legacy.is_writable. case_match; [|by eexists]. rewrite Hj. by eexists.
Qed.

Lemma account_locks_loop_total m before keys acc :
  message_keys m = before ++ keys -> exists h, account_locks_loop m (length before) keys acc = Ok h.
Proof.
  revert before acc. induction keys as [|k keys IH]; intros before acc Hk; cbn; [by exists acc|].
  destruct (is_writable_total m (length before) k) as [w ->]; [rewrite Hk; by apply list_lookup_middle|].
  cbn. rewrite cons_middle, app_assoc in Hk. destruct (IH _ (push_lock w k acc) Hk) as [h Hh].
  rewrite length_app, Nat.add_1_r in Hh. by exists h.
Qed.

(** The locks of a message. *)
Definition locks_of (m : SanitizedMessage) : TransactionAccountLocks :=
  match get_account_locks_unchecked m with Ok h => h | _ => mkTxLocks [] [] end.

Lemma locks_of_eq m : get_account_locks_unchecked m = Ok (locks_of m).
Proof.
  unfold locks_of. destruct (account_locks_loop_total m [] (message_keys m) (mkTxLocks [] [])) as [h Hh]; [done|].
  change (account_locks_loop m _ _ _) with (get_account_locks_unchecked m) in Hh. by rewrite Hh.
Qed.

Lemma any_repeated_none keys uniq :
  NoDup keys -> (forall k, k ∈ keys -> k ∉ uniq) -> LoadedMessage.any_repeated uniq keys = false.
Proof.
  intros Hd. revert uniq. induction Hd as [|k keys Hk _ IH]; intros uniq Hu; cbn; [done|].
  rewrite bool_decide_false by (apply Hu; by left). cbn. apply IH. intros k' Hk'.
  specialize (Hu k' ltac:(by right)). intros [->%elem_of_singleton|?]%elem_of_union; done.
Qed.

Lemma has_duplicates_spec m : SanitizedMessage.has_duplicates m = false <-> NoDup (message_keys m).
Proof.
  split; [apply distinct_keys|]. destruct m as [m|m]; cbn.
  - unfold message_keys, AccountKeys.iter. cbn. rewrite app_nil_r. unfold Legacy.has_duplicates.
    induction 1 as [|k keys Hk _ IH]; cbn; [done|]. rewrite IH, orb_false_r. apply not_true_iff_false.
    intros (k' & Hk' & ->%key_eqb_eq)%existsb_exists. by apply Hk, list_elem_of_In.
  - unfold LoadedMessage.has_duplicates. change (AccountKeys.iter _) with (message_keys (V0Message m)).
    intros Hd. apply any_repeated_none; [done|]. intros k _. apply not_elem_of_empty.
Qed.

Lemma locks_of_spec m :
  NoDup (message_keys m) -> distinct_locks (locks_of m) /\
  (forall k, k ∈ tl_writable (locks_of m) <-> may_write m k) /\
  (forall k, k ∈ tl_readonly (locks_of m) <-> k ∈ message_keys m /\ ~ may_write m k).
Proof.
  intros Hd. pose proof (locks_of_eq m) as [Hp Hk]%account_locks_loop_ok. cbn in Hp, Hk. fold (message_keys m) in Hp, Hk.
  assert (distinct_locks (locks_of m)) as Hdl by (unfold distinct_locks; by rewrite Hp).
  assert (forall k, k ∈ tl_writable (locks_of m) <-> may_write m k) as Hw.
  { intros k. rewrite Hk. unfold may_write. split; [|auto]. by intros [[]%not_elem_of_nil|?]. }
  split_and!; [done..|]. intros k. rewrite <-Hw, <-Hp, elem_of_app.
  apply list.NoDup_app in Hdl as (_ & Hdl & _). specialize (Hdl k). tauto.
Qed.

(** *** Locks of messages *)
Lemma readers_spec held k :
  Forall lockable held -> readers (locks_of <$> held) k
  = length (filter (fun m => k ∈ message_keys m /\ ~ may_write m k) held).
Proof.
  unfold readers. induction 1 as [|m held [Hm _] _ IH]; [done|].
  destruct (locks_of_spec m Hm) as (_ & _ & Hr). specialize (Hr k). rewrite fmap_cons, !filter_cons.
  repeat case_decide; cbn; rewrite ?IH; tauto.
Qed.

Lemma readers_none held k :
  Forall lockable held ->
  readers (locks_of <$> held) k = 0%nat <-> forall m, m ∈ held -> k ∈ message_keys m -> may_write m k.
Proof.
  intros Hf. rewrite readers_spec by done. split.
  - intros H0%nil_length_inv m Hm Hk. apply dec_stable. intros Hn.
    assert (m ∈ filter (fun m => k ∈ message_keys m /\ ~ may_write m k) held) as Hin by (by apply list_elem_of_filter).
    rewrite H0 in Hin. by apply not_elem_of_nil in Hin.
  - intros Hall. destruct (filter _ held) as [|m l] eqn:E; [done|]. exfalso.
    assert (m ∈ m :: l) as Hin by (by left). rewrite <-E in Hin.
    apply list_elem_of_filter in Hin as [[Hk Hn] Hm]. by apply Hn, Hall.
Qed.

Lemma writers_none held k :
  Forall lockable held -> writers (locks_of <$> held) k = 0%nat <-> forall m, m ∈ held -> ~ may_write m k.
Proof.
  unfold writers. induction 1 as [|m held [Hm _] _ IH]; [split; [by intros _ m []%not_elem_of_nil|done]|].
  destruct (locks_of_spec m Hm) as (_ & Hw & _). specialize (Hw k). rewrite fmap_cons, filter_cons.
  setoid_rewrite elem_of_cons. case_decide; [cbn; split; [done|naive_solver]|]. rewrite IH. naive_solver.
Qed.

Lemma represents_holds l held :
  Forall lockable held -> represents l (locks_of <$> held) <-> holds l held.
Proof.
  intros Hf.
  assert (forall k, writers (locks_of <$> held) k <> 0%nat <-> exists m, m ∈ held /\ may_write m k) as Ew.
  { intros k. rewrite writers_none by done. split.
    - intros Hn. destruct (decide (Exists (fun m => may_write m k) held)) as [Hx|Hx]; rewrite list.Exists_exists in Hx; [done|].
      destruct Hn. naive_solver.
    - naive_solver. }
  split; [intros [HW HR]|intros [HW HR HC]].
  - split; intros k; [by rewrite HW, Ew|..].
    + rewrite HR, <-readers_spec by done. by destruct (Nat.eqb_spec (readers (locks_of <$> held) k) 0) as [->|].
    + rewrite HR. intros c. destruct (Nat.eqb_spec (readers (locks_of <$> held) k) 0); [done|]. intros [= <-]. lia.
  - split; intros k; [by rewrite HW, Ew|]. specialize (HR k). rewrite <-readers_spec in HR by done.
    destruct (Nat.eqb_spec (readers (locks_of <$> held) k) 0) as [E|E], (readonly_locks l !! k) as [c|] eqn:Ec;
      cbn in HR; unfold id in HR; try done.
    + by destruct (HC k c Ec); lia.
    + by rewrite HR.
    + lia.
Qed.

Lemma may_write_key m k : may_write m k -> k ∈ message_keys m.
Proof. intros (j & Hj & _). by eapply list_elem_of_lookup_2. Qed.

Lemma free_for_spec held tx :
  Forall lockable held -> lockable tx ->
  free_for (locks_of <$> held) (locks_of tx) <-> Forall (fun m => ~ conflict tx m) held.
Proof.
  intros Hf [Htx _]. destruct (locks_of_spec tx Htx) as (_ & Hw & Hr). rewrite Forall_forall. split.
  - intros [H1 H2] m Hm (k & Hk & Hk' & Hor). apply list_elem_of_In in Hm.
    destruct (decide (may_write tx k)) as [Hx|Hx].
    + destruct (H1 k (proj2 (Hw k) Hx)) as [Ha Hb]. eapply (proj1 (writers_none _ _ Hf) Ha m Hm).
      by apply (proj1 (readers_none _ _ Hf) Hb).
    + destruct Hor as [?|Hy]; [done|]. eapply (proj1 (writers_none _ _ Hf)); [by apply H2, Hr|done..].
  - intros Hn. split.
    + intros k Hk%Hw. pose proof (may_write_key _ _ Hk).
      rewrite writers_none, readers_none by done. split; intros m Hm.
      * intros Hx. apply (Hn m); [by apply list_elem_of_In|]. exists k. auto using may_write_key.
      * intros Hx. destruct (Hn m); [by apply list_elem_of_In|]. exists k. auto.
    + intros k [Hk _]%Hr. rewrite writers_none by done. intros m Hm Hx.
      apply (Hn m); [by apply list_elem_of_In|]. exists k. auto using may_write_key.
Qed.

#[global] Instance conflict_dec m m' : Decision (conflict m m').
Proof.
  destruct (decide (Exists (fun k => k ∈ message_keys m' /\ (may_write m k \/ may_write m' k)) (message_keys m))) as [H|H];
    [left|right]; rewrite list.Exists_exists in H; exact H.
Defined.

Lemma compatible_exclusive held :
  Forall lockable held -> ForallOrdPairs (fun m m' => ~ conflict m m') held -> exclusive (locks_of <$> held).
Proof.
  intros Hf Hc. induction Hc as [|m held Hm _ IH]; [by left|]. apply Forall_cons_1 in Hf as [Hl Hf].
  rewrite fmap_cons. apply exclusive_cons; [by apply locks_of_spec, Hl|by apply IH|by apply free_for_spec].
Qed.

Lemma get_account_locks_cases m :
  match get_account_locks m with
  | Ok h => lockable m /\ h = locks_of m
  | Err e => (e = AccountLoadedTwice /\ ~ NoDup (message_keys m)) \/
      (e = TooManyAccountLocks /\ NoDup (message_keys m) /\ (64 < length (message_keys m))%nat)
  | Panic => False
  end.
Proof.
  unfold get_account_locks. pose proof (has_duplicates_spec m) as Hd.
  destruct (SanitizedMessage.has_duplicates m); [left; naive_solver|]. rewrite keys_length.
  destruct (Nat.ltb_spec MAX_TX_ACCOUNT_LOCKS (length (message_keys m))) as [Hl|Hl]; unfold MAX_TX_ACCOUNT_LOCKS in Hl.
  - right. naive_solver.
  - rewrite locks_of_eq. unfold lockable. naive_solver.
Qed.

Lemma lock_batch l held txs :
  represents l (locks_of <$> held) -> Forall lockable held -> Z.of_nat (length held + length txs) <= U64_MAX ->
  exists results l' held' granted, lock_accounts l txs = Ok (results, l') /\ batch held txs results held' /\
    represents l' (locks_of <$> held') /\ grants txs results granted /\
    (locks_of <$> held') ≡ₚ granted ++ (locks_of <$> held) /\ Forall lockable held' /\
    (ForallOrdPairs (fun m m' => ~ conflict m m') held -> ForallOrdPairs (fun m m' => ~ conflict m m') held').
Proof.
  unfold lock_accounts. revert l held. induction txs as [|tx txs IH]; intros l held Hr Hf Hn.
  { exists [], l, held, []. split_and!; try done; constructor. }
  rewrite fmap_cons. cbn [length lock_accounts_inner] in *. pose proof (get_account_locks_cases tx) as Hcases.
  destruct (get_account_locks tx) as [h|e|] eqn:Etx; [| |done].
  - destruct Hcases as [Hl ->]. destruct (locks_of_spec tx (proj1 Hl)) as (Hd & _ & _).
    destruct (lock_account_spec l (locks_of <$> held) (locks_of tx) Hr Hd) as [(Hfree & l1 & -> & Hr1)|(Hfree & ->)];
      [rewrite length_fmap; lia|..]; rewrite (free_for_spec _ _ Hf Hl) in Hfree.
    + rewrite <-fmap_cons in Hr1.
      destruct (IH l1 (tx :: held) Hr1) as (rs & l' & held' & g & -> & Hb & Hr' & Hg & Hp & Hf' & Hc');
        [by constructor|cbn; lia|].
      exists (Ok tt :: rs), l', held', (locks_of tx :: g). split_and!; try done; [by constructor..| |].
      * rewrite Hp, fmap_cons. cbn. by rewrite Permutation_middle.
      * intros Hc. apply Hc'. by constructor.
    + destruct (IH l held Hr Hf) as (rs & l' & held' & g & -> & Hb & Hr' & Hg & Hp & Hf' & Hc'); [lia|].
      exists (Err AccountInUse :: rs), l', held', g. split_and!; try done; constructor; try done.
      apply not_Forall_Exists in Hfree; [|apply _]. eapply Exists_impl; [|exact Hfree].
      intros m Hm. by apply dec_stable.
  - destruct (IH l held Hr Hf) as (rs & l' & held' & g & -> & Hb & Hr' & Hg & Hp & Hf' & Hc'); [lia|].
    exists (Err e :: rs), l', held', g.
    destruct Hcases as [[-> Hx]|(-> & Hx & Hy)]; split_and!; try done; by constructor.
Qed.

(** C26: Locking the accounts of a batch of transactions never fails as a whole and
    decides each transaction in turn: one that names an account twice, or more than 64,
    is refused for that; one that shares an account with an earlier holder of locks
    which one of the two may write is refused as in use; every other one gets its locks.
    So no two holders conflict, those from before the batch included; an account is
    locked for writing exactly if a holder may write it, and its read locks count the
    holders that only read it. Unlocking the batch with the results of locking gives
    back exactly the locks before. *)
Theorem locks_exclusive (l : AccountLocks) (held txs : list SanitizedMessage)
    (Hl : holds l held) (Hheld : Forall lockable held)
    (Hcompatible : ForallOrdPairs (fun m m' => ~ conflict m m') held)
    (Hn : Z.of_nat (length held + length txs) <= U64_MAX) :
  exists results l' held',
    lock_accounts l txs = Ok (results, l') /\ batch held txs results held' /\ holds l' held' /\
    ForallOrdPairs (fun m m' => ~ conflict m m') held' /\ unlock_accounts l' txs results = Ok l.
Proof.
  apply represents_holds in Hl; [|done].
  destruct (lock_batch l held txs Hl Hheld Hn) as (rs & l' & held' & g & Hlock & Hb & Hr & Hg & Hp & Hf & Hc).
  specialize (Hc Hcompatible). pose proof (compatible_exclusive _ Hf Hc) as He.
  exists rs, l', held'. split_and!; try done; [by apply represents_holds|].
  rewrite Hp in Hr, He. destruct (unlock_grants txs rs g l' _ Hg Hr He) as (l2 & -> & Hr2).
  { by rewrite length_fmap. }
  f_equal. by eapply represents_unique.
Qed.

Lemma holds_none : holds (mkLocks ∅ ∅) [].
Proof.
  split; intros k; cbn [write_locks readonly_locks].
  - split; [intros Hk; destruct (not_elem_of_empty (C:=gset Pubkey) k Hk)|by intros (m & []%not_elem_of_nil & _)].
  - by rewrite lookup_empty.
  - by rewrite lookup_empty.
Qed.

(** Two copies of a message: the second one finds the accounts of the first in use. *)
Definition ex_locked : list (result TransactionError unit) * AccountLocks :=
  match lock_accounts (mkLocks ∅ ∅) [mx_message; mx_message] with Ok r => r | _ => ([], mkLocks ∅ ∅) end.

Lemma locks_exclusive_witness :
  ex_locked.1 = [Ok tt; Err AccountInUse] /\
  exists results l' held', lock_accounts (mkLocks ∅ ∅) [mx_message; mx_message] = Ok (results, l') /\
    batch [] [mx_message; mx_message] results held' /\ unlock_accounts l' [mx_message; mx_message] results = Ok (mkLocks ∅ ∅).
Proof.
  split; [vm_compute; reflexivity|].
  destruct (locks_exclusive (mkLocks ∅ ∅) [] [mx_message; mx_message]) as (rs & l' & held' & H1 & H2 & _ & _ & H3).
  - exact holds_none.
  - constructor.
  - constructor.
  - vm_compute. discriminate.
  - exists rs, l', held'. split; [exact H1|]. split; [exact H2|exact H3].
Defined.
