(* ===== verification/RuntimeDepth.v ===== *)
(** * Nested calls are bounded by the stack

    [Runtime.process_instruction] carries a bound on the depth of nested calls. The
    capacity of the instruction stack already bounds it: with a bound above the
    capacity, the result is the one every larger bound gives, so the bound is an
    artefact of the definition and no behaviour of the program. *)

From Stdlib Require Import Strings.Byte.
From S2P Require Import Prelude Sdk Rent Program SystemInstruction Transaction Nonce Runtime RuntimeSafety Message MessageProcessor MessageFixtures.

(** The capacity and the height of the stack. *)
Definition shape (tc : TransactionContext) : nat * nat :=
  (instruction_context_capacity tc, length (instruction_stack tc)).

Definition call : Type :=
  list byte -> list InstructionAccount -> list nat -> InvokeContext ->
  result InstructionError InvokeContext.

(** A call that returns leaves the stack as high as it was. *)
Definition keeps_shape (f : call) : Prop :=
  forall data ias pis ic ic', f data ias pis ic = Ok ic' ->
    shape (transaction_context ic') = shape (transaction_context ic).

Lemma store_account_shape i a ic ic' :
  store_account i a ic = Ok ic' -> shape (transaction_context ic') = shape (transaction_context ic).
Proof.
  intros H. apply store_account_inv in H as (c & ia & a1 & tc & _ & _ & _ & Hs & ->).
  by destruct Hs as [->| ->].
Qed.

Lemma store_all_shape l ic ic' :
  store_all l ic = Ok ic' -> shape (transaction_context ic') = shape (transaction_context ic).
Proof.
  revert ic. induction l as [|[i a] l IH]; intros ic H; cbn in H; [by simplify_eq|].
  apply result_bind_ok in H as (ic1 & H1 & H). apply store_account_shape in H1.
  apply IH in H. congruence.
Qed.

Section exec.
Context `{LoaderBincode}.

Lemma exec_shape f p ic ic' :
  keeps_shape f -> exec f p ic = Ok ic' ->
  shape (transaction_context ic') = shape (transaction_context ic).
Proof.
  intros Hf. revert ic. induction p as [|e| |k IH|i a k IH|ins signers written k IH]; intros ic He;
    cbn [exec] in He.
  - by simplify_eq.
  - done.
  - done.
  - by apply IH in He.
  - apply result_bind_ok in He as (ic1 & H1 & He). apply store_account_shape in H1.
    apply IH in He. congruence.
  - apply result_bind_ok in He as ([ias pis] & _ & He). apply result_bind_ok in He as (ic1 & H1 & He).
    apply result_bind_ok in He as (ic2 & H2 & He). apply store_all_shape in H1. apply Hf in H2.
    apply IH in He. congruence.
Qed.

(** Calls that agree at the height of the stack give equal executions. *)
Lemma exec_agree f g s p ic :
  keeps_shape f ->
  (forall data ias pis ic, shape (transaction_context ic) = s -> f data ias pis ic = g data ias pis ic) ->
  shape (transaction_context ic) = s -> exec f p ic = exec g p ic.
Proof.
  intros Hf Hfg. revert ic. induction p as [|e| |k IH|i a k IH|ins signers written k IH]; intros ic Hs;
    cbn [exec]; try done.
  - by apply IH.
  - destruct (store_account i a ic) as [ic1|?|] eqn:E1; try done. cbn.
    apply IH. apply store_account_shape in E1. congruence.
  - destruct (prepare_instruction ins signers ic) as [[ias pis]|?|]; try done. cbn.
    destruct (store_all written ic) as [ic1|?|] eqn:E1; try done. cbn.
    apply store_all_shape in E1. rewrite <-(Hfg _ _ _ ic1) by congruence.
    destruct (f _ ias pis ic1) as [ic2|?|] eqn:E2; try done. cbn. apply Hf in E2.
    apply IH. congruence.
Qed.

Variable builtin_programs : list (Pubkey * (nat -> program)).

Lemma chain_shape f ic ic' :
  keeps_shape f -> process_executable_chain builtin_programs f ic = Ok ic' ->
  shape (transaction_context ic') = shape (transaction_context ic).
Proof.
  intros Hf H1. unfold process_executable_chain in H1.
  apply result_bind_ok in H1 as (c & _ & H1). apply result_bind_ok in H1 as (b & _ & H1).
  apply result_bind_ok in H1 as (root & _ & H1). apply result_bind_ok in H1 as (rk & _ & H1).
  destruct (if key_eqb _ _ then _ else _) as [fi id]. destruct (List.find _ _) as [entry|]; [|done].
  apply result_bind_ok in H1 as (pid & _ & H1). by apply exec_shape in H1.
Qed.

Lemma chain_agree f g s ic :
  keeps_shape f ->
  (forall data ias pis ic, shape (transaction_context ic) = s -> f data ias pis ic = g data ias pis ic) ->
  shape (transaction_context ic) = s ->
  process_executable_chain builtin_programs f ic = process_executable_chain builtin_programs g ic.
Proof.
  intros Hf Hfg Hs. unfold process_executable_chain.
  destruct (get_current_instruction_context _); try done. cbn.
  destruct (map_err _ _); try done. cbn. destruct (unwrap _); try done. cbn.
  destruct (key_at _ _); try done. cbn.
  destruct (if key_eqb _ _ then _ else _) as [fi id]. destruct (List.find _ _) as [entry|]; [|done].
  destruct (get_last_program_key _ _); try done. cbn. by apply (exec_agree f g s).
Qed.

Lemma push_shape ias pis data ic ic' :
  InvokeContext.push ias pis data ic = Ok ic' ->
  (InvokeContext.get_stack_height ic < instruction_context_capacity (transaction_context ic))%nat /\
  shape (transaction_context ic') = (instruction_context_capacity (transaction_context ic),
                                     S (InvokeContext.get_stack_height ic)).
Proof.
  intros Hp. unfold InvokeContext.push in Hp. apply result_bind_ok in Hp as ([] & _ & Hp).
  apply result_bind_ok in Hp as (pi & _ & Hp). apply result_bind_ok in Hp as (pid & _ & Hp).
  apply result_bind_ok in Hp as (ic1 & H1 & Hp).
  apply result_bind_ok in Hp as (ks & _ & Hp). apply result_bind_ok in Hp as (ks' & _ & Hp).
  apply result_bind_ok in Hp as (tc' & Hpush & Hp). injection Hp as <-.
  unfold TransactionContext.push in Hpush. apply result_bind_ok in Hpush as ([n tr] & _ & Hpush).
  destruct (Nat.leb_spec (instruction_context_capacity (transaction_context ic))
    (length (instruction_stack (transaction_context ic)))); [done|]. injection Hpush as <-.
  split; [done|]. unfold shape. cbn [transaction_context with_tc instruction_stack with_stack].
  by rewrite length_app, Nat.add_1_r.
Qed.

(** The checks around a call leave the context alone. *)
Lemma verify_and_update_tc ias b ic ic' :
  InvokeContext.verify_and_update ias b ic = Ok ic' ->
  transaction_context ic' = transaction_context ic.
Proof.
  intros H1. unfold InvokeContext.verify_and_update in H1.
  apply result_bind_ok in H1 as (c & _ & H1). apply result_bind_ok in H1 as (pid & _ & H1).
  apply result_bind_ok in H1 as ([[[pre ps] qs] m] & _ & H1).
  by apply result_bind_ok in H1 as ([] & _ & [= <-]).
Qed.

Lemma verify_tc ias pis ic ic' :
  InvokeContext.verify ias pis ic = Ok ic' -> transaction_context ic' = transaction_context ic.
Proof.
  intros H1. unfold InvokeContext.verify in H1.
  apply result_bind_ok in H1 as (pid & _ & H1). apply result_bind_ok in H1 as (as_ & _ & H1).
  apply result_bind_ok in H1 as ([[ps qs] m] & _ & H1).
  by apply result_bind_ok in H1 as ([] & _ & [= <-]).
Qed.

(** The check of the caller before a nested call. *)
Lemma caller_check_shape (top record : bool) ias nc ic ic' :
  (if top then Ok ic
   else ic ← InvokeContext.verify_and_update ias true ic;
        Ok (if record_instruction_in_transaction_context_push (features ic) then ic
            else with_tc ic (TransactionContext.record_instruction nc (transaction_context ic))))
  = Ok ic' -> shape (transaction_context ic') = shape (transaction_context ic).
Proof.
  destruct top; [by intros [= <-]|]. intros H1. apply result_bind_ok in H1 as (ic1 & H1 & [= <-]).
  apply verify_and_update_tc in H1. destruct (record_instruction_in_transaction_context_push _); cbn;
    rewrite H1; done.
Qed.

Lemma process_shape fuel : keeps_shape (process_instruction builtin_programs fuel).
Proof.
  induction fuel as [|fuel IH]; intros data ias pis ic ic' Hr; [done|].
  cbn [process_instruction] in Hr.
  apply result_bind_ok in Hr as (ic1 & H1 & Hr). apply (caller_check_shape _ true) in H1.
  apply result_bind_ok in Hr as (ic2 & H2 & Hr). apply push_shape in H2 as [_ H2].
  apply result_bind_ok in Hr as (ic3 & H3 & Hr). apply (chain_shape _ _ _ IH) in H3.
  apply result_bind_ok in Hr as (ic4 & H4 & Hr).
  assert (transaction_context ic4 = transaction_context ic3) as H4'
    by (destruct (_ =? _)%nat; [by apply verify_tc in H4|by apply verify_and_update_tc in H4]).
  unfold InvokeContext.pop, TransactionContext.pop in Hr. apply result_bind_ok in Hr as (tc' & Hp & [= <-]).
  case_match; [done|]. injection Hp as <-. unfold shape in *. cbn [transaction_context with_tc].
  cbn [instruction_context_capacity instruction_stack with_stack]. rewrite H4'.
  injection H1 as H1c H1s. injection H2 as H2c H2s. injection H3 as H3c H3s.
  rewrite removelast_firstn_len, length_firstn.
  unfold InvokeContext.get_stack_height, get_instruction_context_stack_height in *. f_equal; lia.
Qed.

Lemma process_agree fuel fuel' data ias pis ic :
  (InvokeContext.get_stack_height ic <= instruction_context_capacity (transaction_context ic))%nat ->
  (instruction_context_capacity (transaction_context ic) < InvokeContext.get_stack_height ic + fuel)%nat ->
  (instruction_context_capacity (transaction_context ic) < InvokeContext.get_stack_height ic + fuel')%nat ->
  process_instruction builtin_programs fuel data ias pis ic =
  process_instruction builtin_programs fuel' data ias pis ic.
Proof.
  revert fuel' data ias pis ic. induction fuel as [|fuel IH]; intros [|fuel'] data ias pis ic Hh Hf Hf';
    try lia.
  cbn [process_instruction]. destruct (if (_ =? 0)%nat then _ else _) as [ic1|?|] eqn:E1; try done.
  apply (caller_check_shape _ true) in E1. injection E1 as E1c E1s. cbn [mbind result_bind].
  destruct (InvokeContext.push ias pis data ic1) as [ic2|?|] eqn:E2; try done.
  apply push_shape in E2 as [Hlt E2]. cbn [mbind result_bind].
  unfold InvokeContext.get_stack_height, get_instruction_context_stack_height in *.
  assert (process_executable_chain builtin_programs (process_instruction builtin_programs fuel) ic2 =
    process_executable_chain builtin_programs (process_instruction builtin_programs fuel') ic2) as Hch.
  { eapply chain_agree; [apply process_shape| |exact E2].
    intros data' ias' pis' ic' Hs. injection Hs as Hc Hs.
    apply IH; unfold InvokeContext.get_stack_height, get_instruction_context_stack_height; lia. }
  cbn. by rewrite Hch.
Qed.

(** Messages. *)
Variable message : SanitizedMessage.

Lemma process_one_agree fuel fuel' n ci pis ic :
  instruction_stack (transaction_context ic) = [] ->
  (instruction_context_capacity (transaction_context ic) < fuel)%nat ->
  (instruction_context_capacity (transaction_context ic) < fuel')%nat ->
  process_one builtin_programs fuel message n ci pis ic =
  process_one builtin_programs fuel' message n ci pis ic /\
  (forall ic', process_one builtin_programs fuel message n ci pis ic = Ok ic' ->
     shape (transaction_context ic') = shape (transaction_context ic)).
Proof.
  intros Hs Hf Hf'. unfold process_one. destruct (unwrap _) as [pid|?|]; try done. cbn [mbind result_bind].
  destruct (_ && negb _); [by split; [|intros ic' [= <-]]|].
  destruct (fixup_instructions_sysvar n (transaction_context ic)) as [tc1|?|] eqn:Ef; try done.
  cbn [mbind result_bind].
  assert (shape tc1 = shape (transaction_context ic)) as Hs1.
  { unfold fixup_instructions_sysvar in Ef. case_match; [|by injection Ef as <-].
    apply result_bind_ok in Ef as (a & _ & Ef). by apply result_bind_ok in Ef as (d & _ & [= <-]). }
  injection Hs1 as Hc1 Hl1. rewrite Hs in Hl1. cbn [length] in Hl1.
  destruct (message_accounts _ _ _ _) as [ias|?|]; try done. cbn [mbind result_bind].
  destruct (_ && record_instruction_in_transaction_context_push _).
  { split; [done|]. intros ic' Hr. apply map_err_ok in Hr.
    apply result_bind_ok in Hr as (tc2 & H2 & Hr). apply result_bind_ok in Hr as (tc3 & H3 & [= <-]).
    apply length_zero_iff_nil in Hl1.
    unfold TransactionContext.push in H2. cbn [transaction_context with_tc] in H2. rewrite Hl1 in H2.
    cbn in H2. case_match; [done|]. injection H2 as <-. unfold TransactionContext.pop in H3.
    cbn in H3. injection H3 as <-. unfold shape. cbn. by rewrite Hs, Hc1. }
  split.
  - f_equal. apply process_agree; unfold InvokeContext.get_stack_height,
      get_instruction_context_stack_height; cbn; lia.
  - intros ic' Hr. apply map_err_ok, process_shape in Hr. unfold shape in *. cbn in Hr.
    rewrite Hs. cbn. congruence.
Qed.

Lemma process_all_agree fuel fuel' n l ic :
  instruction_stack (transaction_context ic) = [] ->
  (instruction_context_capacity (transaction_context ic) < fuel)%nat ->
  (instruction_context_capacity (transaction_context ic) < fuel')%nat ->
  process_all builtin_programs fuel message n l ic = process_all builtin_programs fuel' message n l ic.
Proof.
  revert n ic. induction l as [|[ci pis] l IH]; intros n ic Hs Hf Hf'; [done|]. cbn [process_all].
  destruct (process_one_agree fuel fuel' n ci pis ic Hs Hf Hf') as [He Hk]. rewrite <-He.
  destruct (process_one builtin_programs fuel message n ci pis ic) as [ic1|?|] eqn:E; try done. cbn [mbind result_bind].
  specialize (Hk ic1 eq_refl). injection Hk as Hc Hl. rewrite Hs in Hl. apply length_zero_iff_nil in Hl.
  apply IH; congruence || lia.
Qed.

(** C11: Nested calls end: the capacity of the instruction stack bounds their depth, so
    with any depth bound above the capacity processing a message gives the same result
    as with every larger one. *)
Theorem call_depth_bounded (fuel fuel' : nat) (program_indices : list (list nat))
    (tc : TransactionContext) (rent : Rent) (features : Features) (max_invoke_depth : nat) (len : Z)
    (Hs : instruction_stack tc = [])
    (Hf : (instruction_context_capacity tc < fuel)%nat)
    (Hf' : (instruction_context_capacity tc < fuel')%nat) :
  process_message builtin_programs fuel message program_indices tc rent features max_invoke_depth len
  = process_message builtin_programs fuel' message program_indices tc rent features max_invoke_depth len.
Proof. unfold process_message. by rewrite (process_all_agree fuel fuel'). Qed.

End exec.

Lemma call_depth_bounded_witness :
  process_message mx_builtins 1000 mx_message [[6%nat]] mx_tc Rent_default mx_features 4 0
  = Ok (0, mx_after).
Proof.
  rewrite (call_depth_bounded mx_builtins mx_message 1000 6 _ mx_tc);
    [exact mx_run_ok|reflexivity|cbn; lia..].
Defined.
