(* ===== verification/Loader.v ===== *)
(** * The loader of on-chain programs

    [programs/bpf_loader/src/lib.rs] (finding the code of a program and executing
    it) and [syscalls.rs] (cross-program invocation): how the code of a contract,
    a [ProgM] over account cells, runs as a built-in of the runtime.

    The code in the bytes of a program account is a parameter: contracts are modelled
    from their sources, and the machine that runs their compiled form is the subject
    of [EbpfInterpreter].  The addresses of the
    virtual machine are resolved: an [AccountInfo] is a handle whose cells are
    found by its key, and translating them does not fail.  Compute units and logs
    are left out.  The executor cache is read but not extended: a miss creates the
    executor again.  The instructions of the loaders themselves (deploying programs) are
    parameters here, which [UpgradeableLoader] instantiates; the execution of programs of
    the deprecated loader is a parameter. *)

From Stdlib Require Import Strings.Byte.
From S2P Require Import Prelude Sdk Rent Program SystemInstruction Transaction Serialization Runtime MessageProcessor.

(** ** Reading the transaction *)
Definition reading {A} (r : TransactionContext -> result InstructionError A) (k : A -> program)
    : program :=
  Access (fun tc => match r tc with Ok a => k a | Err e => Abort_with e | Panic => Crash end).

Definition demand (b : bool) (e : InstructionError) (k : program) : program :=
  if b then k else Abort_with e.

(** The value of a [TxM] computation that does not write. *)
Definition value_of {A} (m : TxM A) (tc : TransactionContext) : result InstructionError A :=
  '(a, _) ← m tc; Ok a.

(** The current instruction, for a computation that needs it. *)
Definition in_current {A} (f : InstructionContext -> TxM A) (tc : TransactionContext)
    : result InstructionError A :=
  c ← get_current_instruction_context tc; value_of (f c) tc.

(** ** Cross-program invocation ([syscalls.rs])

    An error of a syscall that is not an [InstructionError] ends the program with
    [ProgramFailedToComplete]. *)
Definition MAX_SIGNERS : nat := 16.
Definition max_cpi_instruction_size : nat := 1280.
Definition size_of_AccountMeta : nat := 34.

Definition check_instruction_size (num_accounts data_len : nat) : bool :=
  (num_accounts * size_of_AccountMeta + data_len <=? max_cpi_instruction_size)%nat.

Definition check_account_infos (len : nat) : bool := (len * 32 <=? max_cpi_instruction_size)%nat.

Definition first_byte_is (b : byte) (instruction_data : list byte) : bool :=
  match instruction_data with [] => false | x :: _ => u8_eqb b x end.
Definition is_upgrade_instruction : list byte -> bool := first_byte_is x03.
Definition is_set_authority_instruction : list byte -> bool := first_byte_is x04.
Definition is_close_instruction : list byte -> bool := first_byte_is x05.

Section syscalls.
Context `{Crypto}.
Variable features : Features.

Definition check_authorized_program (program_id : Pubkey) (instruction_data : list byte) : bool :=
  negb (key_eqb program_id native_loader_id
        || key_eqb program_id bpf_loader_id
        || key_eqb program_id bpf_loader_deprecated_id
        || (key_eqb program_id bpf_loader_upgradeable_id
            && negb (is_upgrade_instruction instruction_data
                     || is_set_authority_instruction instruction_data
                     || is_close_instruction instruction_data))
        || (prevent_calling_precompiles_as_programs features && is_precompile program_id features)).

(** The signer of one list of seeds. *)
Definition translate_signer (program_id : Pubkey) (seeds : list (list byte))
    : result InstructionError Pubkey :=
  ensure (length seeds <=? MAX_SEEDS)%nat InstructionError.MaxSeedLengthExceeded;;
  map_err (fun _ => InstructionError.ProgramFailedToComplete)
    (create_program_address seeds program_id).

Definition translate_signers (program_id : Pubkey) (signers_seeds : seeds)
    : result InstructionError (list Pubkey) :=
  ensure (length signers_seeds <=? MAX_SIGNERS)%nat InstructionError.ProgramFailedToComplete;;
  collect (translate_signer program_id) signers_seeds.

(** A writable account of the callee: the cell of the caller to update after the call
    and the length its data had when the caller started. *)
Record CallerAccount : Type := mkCallerAccount {
  ca_key : Pubkey;
  original_data_len : nat
}.

(** One account of the callee: what is written to it before the call and what is
    updated in the caller after it. *)
Definition translate_account (tc : TransactionContext) (c : InstructionContext)
    (orig_data_lens : list nat) (account_infos : list AccountInfo) (v : view)
    (ia : InstructionAccount)
    : result InstructionError (list (nat * Account) * (nat * option CallerAccount)) :=
  b ← try_borrow_instruction_account c (index_in_caller ia) tc;
  account_key ← get_key_of_account_at_index tc (index_in_transaction ia);
  a ← unwrap (accounts tc !! ba_index_in_transaction b);
  if acc_executable a then Ok ([], (index_in_caller ia, None))
  else if existsb (fun i => key_eqb (key i) account_key) account_infos then
    cell ← unwrap (v !! account_key);
    caller_account ←
      if ia_is_writable ia then
        n ← ok_or (orig_data_lens !! index_in_caller ia) InstructionError.MissingAccount;
        Ok (Some (mkCallerAccount account_key n))
      else Ok None;
    Ok ([(index_in_caller ia, cell)], (index_in_caller ia, caller_account))
  else Err InstructionError.MissingAccount.

Definition get_translated_accounts (tc : TransactionContext) (c : InstructionContext)
    (orig_data_lens : list nat) (account_infos : list AccountInfo) (v : view)
    (instruction_accounts : list InstructionAccount) (program_indices : list nat)
    : result InstructionError (list (nat * Account) * list (nat * option CallerAccount)) :=
  program_account_index ← ok_or (head (rev program_indices)) InstructionError.MissingAccount;
  l ← collect (translate_account tc c orig_data_lens account_infos v)
        (first_occurrences 0 instruction_accounts);
  Ok (concat (fst <$> l), (program_account_index, None) :: (snd <$> l)).

(** Copying the results of a call into the cells of the caller. *)
Fixpoint copy_back (tc : TransactionContext) (c : InstructionContext)
    (translated : list (nat * option CallerAccount)) (v : view) : result InstructionError view :=
  match translated with
  | [] => Ok v
  | (_, None) :: translated => copy_back tc c translated v
  | (index_in_caller, Some caller_account) :: translated =>
      b ← try_borrow_instruction_account c index_in_caller tc;
      callee ← unwrap (accounts tc !! ba_index_in_transaction b);
      cell ← unwrap (v !! ca_key caller_account);
      let new_len := length (acc_data callee) in
      ensure ((length (acc_data cell) =? new_len)%nat
              || (new_len <=? original_data_len caller_account + MAX_PERMITTED_DATA_INCREASE)%nat)
        InstructionError.InvalidRealloc;;
      copy_back tc c translated
        (<[ca_key caller_account :=
             mkAccount (acc_lamports callee) (acc_data callee) (acc_owner callee)
               (acc_executable cell) (acc_rent_epoch cell)]> v)
  end.

Context `{LoaderBincode}.

(** [call]: the checks before the call, the call, and the continuation with the updated
    cells. *)
Definition call (orig_data_lens : list nat) (instruction : Instruction)
    (account_infos : list AccountInfo) (signers_seeds : seeds) (v : view) (k : view -> program)
    : program :=
  demand (check_instruction_size (length (ix_accounts instruction)) (length (ix_data instruction)))
    InstructionError.ProgramFailedToComplete (
  reading get_current_instruction_context (fun c =>
  reading (get_last_program_key c) (fun caller_program_id =>
  reading (fun _ => translate_signers caller_program_id signers_seeds) (fun signers =>
  reading (prepare_in instruction signers) (fun '(instruction_accounts, program_indices) =>
  demand (check_authorized_program (ix_program_id instruction) (ix_data instruction))
    InstructionError.ProgramFailedToComplete (
  demand (check_account_infos (length account_infos)) InstructionError.ProgramFailedToComplete (
  reading (fun tc => get_translated_accounts tc c orig_data_lens account_infos v
                       instruction_accounts program_indices) (fun '(written, translated) =>
  Invoke instruction signers written (
  reading get_current_instruction_context (fun c =>
  reading (fun tc => copy_back tc c translated v) k)))))))))).

(** ** Executing a program ([lib.rs]) *)

(** The exit status of a program that returned an error. *)
Definition status_error (e : ProgramError) : InstructionError :=
  let status := u64_from_program_error e in
  if (status =? MAX_ACCOUNTS_DATA_SIZE_EXCEEDED) && negb (cap_accounts_data_len features)
  then InstructionError.InvalidError
  else instruction_error_from_u64 status.

(** Reading the accounts back from the buffer: the accounts [deserialize_parameters]
    leaves are stored in the order it sets them. *)
Fixpoint store_each (l : list nat) (c : InstructionContext) (tc : TransactionContext) (k : program)
    : program :=
  match l with
  | [] => k
  | i :: l =>
      match instruction_accounts c !! i with
      | Some ia =>
          if is_duplicate c i then store_each l c tc k
          else match accounts tc !! index_in_transaction ia with
               | Some a => Store i a (store_each l c tc k)
               | None => Crash
               end
      | None => store_each l c tc k
      end
  end.

Definition read_parameters_back (buffer : list byte) (account_lengths : list nat) : program :=
  reading (fun tc =>
    c ← get_current_instruction_context tc;
    '(_, tc') ← deserialize_parameters c buffer account_lengths tc;
    Ok (c, tc'))
  (fun '(c, tc') => store_each (instruction_account_indices c) c tc' Return).

(** The cells of the handles, in the order of the instruction accounts. *)
Definition posts_of (ps : list param) (v : view) : list Account :=
  (fun p : param => default p.2 (v !! key p.1)) <$> ps.

(** The code of a program. *)
Definition contract : Type := Pubkey -> list AccountInfo -> list byte -> ProgM unit.

Section run.
Variables (c : InstructionContext) (ps : list param) (buffer : list byte) (account_lengths : list nat).

Fixpoint run_contract (t : tree unit) : program :=
  match t with
  | TOk _ v =>
      read_parameters_back (store_parameters c account_lengths (posts_of ps v) buffer) account_lengths
  | TErr e => Abort_with (status_error e)
  | TPanic => Abort_with InstructionError.ProgramFailedToComplete
  | TCpi instruction account_infos signers_seeds v k =>
      call account_lengths instruction account_infos signers_seeds v (fun v' => run_contract (k v'))
  end.

End run.

Definition view_of (ps : list param) : view :=
  list_to_map ((fun p : param => (key p.1, p.2)) <$> ps).

(** [BpfExecutor::execute] for the layout of current programs. *)
Definition execute (code : contract) : program :=
  reading get_current_instruction_context (fun c =>
  reading (value_of (serialize_parameters c)) (fun '(buffer, account_lengths) =>
  match Entrypoint_deserialize buffer with
  | Some (program_id, ps, instruction_data) =>
      run_contract c ps buffer account_lengths
        (code program_id (fst <$> ps) instruction_data (view_of ps))
  | None => Abort_with InstructionError.ProgramFailedToComplete
  end)).

End syscalls.

(** ** Finding the code ([process_instruction_common]) *)
Definition get_index_in_transaction (c : InstructionContext) (index_in_instruction : nat)
    : result InstructionError nat :=
  if (index_in_instruction <? length (program_accounts c))%nat
  then get_index_of_program_account_in_transaction c index_in_instruction
  else get_index_of_instruction_account_in_transaction c
         (index_in_instruction - length (program_accounts c)).

(** [try_borrow_account] of the loader *)
Definition borrow_account_at (c : InstructionContext) (index_in_instruction : nat)
    (tc : TransactionContext) : result InstructionError BorrowedAccount :=
  if (index_in_instruction <? length (program_accounts c))%nat
  then try_borrow_program_account c index_in_instruction tc
  else try_borrow_instruction_account c (index_in_instruction - length (program_accounts c)) tc.

(** The account behind it. *)
Definition account_at (c : InstructionContext) (index_in_instruction : nat)
    (tc : TransactionContext) : result InstructionError Account :=
  b ← borrow_account_at c index_in_instruction tc;
  unwrap (accounts tc !! ba_index_in_transaction b).

Definition check_loader_id (id : Pubkey) : bool :=
  key_eqb id bpf_loader_id || key_eqb id bpf_loader_deprecated_id
  || key_eqb id bpf_loader_upgradeable_id.

Definition size_of_programdata_metadata : nat := 45.

Section loader.
Context `{Crypto} `{LoaderBincode}.
Variable features : Features.
Variable disable_deprecated_loader : bool.
(** The cached code of a program, and the code in the bytes of a program account. *)
Variable get_executor : Pubkey -> option contract.
Variable from_elf : list byte -> result InstructionError contract.
Variable execute_deprecated : contract -> program.
Variables process_loader_upgradeable_instruction process_loader_instruction : nat -> program.

(** The account of the running program. *)
Definition program_account_index (c : InstructionContext) (first_instruction_account : nat)
    (tc : TransactionContext) : result InstructionError nat :=
  program_id ← get_last_program_key c tc;
  i ← get_index_in_transaction c first_instruction_account;
  first_account_key ← get_key_of_account_at_index tc i;
  let second_account_key :=
    i ← get_index_in_transaction c (S first_instruction_account);
    get_key_of_account_at_index tc i in
  if key_eqb first_account_key program_id then Ok first_instruction_account
  else if match second_account_key with Ok k => key_eqb k program_id | _ => false end
  then Ok (S first_instruction_account)
  else
    a ← account_at c first_instruction_account tc;
    ensure (negb (acc_executable a)) InstructionError.IncorrectProgramId;;
    Ok first_instruction_account.

(** Where the code starts in the account that holds it. *)
Definition program_data_offset (c : InstructionContext) (first_instruction_account : nat)
    (program : Account) (tc : TransactionContext) : result InstructionError nat :=
  if key_eqb (acc_owner program) bpf_loader_upgradeable_id then
    i ← get_index_in_transaction c first_instruction_account;
    first_account_key ← get_key_of_account_at_index tc i;
    st ← ok_or (bincode_deserialize_loader (acc_data program)) InstructionError.InvalidAccountData;
    match st with
    | LoaderProgram programdata_address =>
        ensure (key_eqb programdata_address first_account_key) InstructionError.InvalidArgument;;
        b ← try_borrow_program_account c first_instruction_account tc;
        a ← unwrap (accounts tc !! ba_index_in_transaction b);
        st ← ok_or (bincode_deserialize_loader (acc_data a)) InstructionError.InvalidAccountData;
        match st with
        | LoaderProgramData _ _ => Ok size_of_programdata_metadata
        | _ => Err InstructionError.InvalidAccountData
        end
    | _ => Err InstructionError.InvalidAccountData
    end
  else Ok 0%nat.

Definition create_executor (c : InstructionContext) (programdata_account_index : nat)
    (programdata_offset : nat) (tc : TransactionContext) : result InstructionError contract :=
  programdata ← account_at c programdata_account_index tc;
  ensure (programdata_offset <=? length (acc_data programdata))%nat
    InstructionError.AccountDataTooSmall;;
  from_elf (drop programdata_offset (acc_data programdata)).

Definition process_instruction_common (first_instruction_account : nat) : program :=
  reading get_current_instruction_context (fun c =>
  reading (get_last_program_key c) (fun program_id =>
  reading (program_account_index c first_instruction_account) (fun program_account_index =>
  reading (account_at c program_account_index) (fun program =>
  if acc_executable program then
    demand (check_loader_id (acc_owner program)) InstructionError.IncorrectProgramId (
    reading (program_data_offset c first_instruction_account program) (fun program_data_offset =>
    reading (fun tc =>
      match get_executor program_id with
      | Some executor => Ok executor
      | None => create_executor c first_instruction_account program_data_offset tc
      end) (fun code =>
    if key_eqb (acc_owner program) bpf_loader_deprecated_id then execute_deprecated code
    else execute features code)))
  else if key_eqb program_id bpf_loader_upgradeable_id
  then process_loader_upgradeable_instruction first_instruction_account
  else if key_eqb program_id bpf_loader_id
          || (negb disable_deprecated_loader && key_eqb program_id bpf_loader_deprecated_id)
  then process_loader_instruction first_instruction_account
  else if disable_deprecated_loader && key_eqb program_id bpf_loader_deprecated_id
  then Abort_with InstructionError.UnsupportedProgramId
  else Abort_with InstructionError.IncorrectProgramId)))).

End loader.
