(* ===== verification/LoaderFacts.v ===== *)
(** * Executing a program

    What [Loader] does with a program that makes no calls, on every outcome: its
    error or panic becomes the error of the instruction, and on success the accounts
    of the instruction are exactly the cells it left.  Whatever bytes a program
    leaves in its parameters, the accounts read back are well formed. *)

From Stdlib Require Import Strings.Byte.
From S2P Require Import Prelude Sdk Rent Program SystemInstruction Fixtures Transaction Serialization SerializationFacts ReadBack Runtime RuntimeSafety MessageProcessor MessageFixtures Loader.

#[local] Opaque MAX_PERMITTED_DATA_INCREASE.

(** ** Contexts that differ in accounts only *)
Record same_frame (ic ic' : InvokeContext) : Prop := {
  sf_keys : account_keys (transaction_context ic') = account_keys (transaction_context ic);
  sf_stack : instruction_stack (transaction_context ic') = instruction_stack (transaction_context ic);
  sf_trace : instruction_trace (transaction_context ic') = instruction_trace (transaction_context ic);
  sf_length : length (accounts (transaction_context ic')) = length (accounts (transaction_context ic));
  sf_pre : pre_accounts ic' = pre_accounts ic;
  sf_features : features ic' = features ic
}.

Lemma same_frame_refl ic : same_frame ic ic.
Proof. by split. Qed.

Lemma same_frame_trans a b c : same_frame a b -> same_frame b c -> same_frame a c.
Proof. intros [] []. split; congruence. Qed.

Lemma same_frame_current ic ic' :
  same_frame ic ic' -> get_current_instruction_context (transaction_context ic')
                       = get_current_instruction_context (transaction_context ic).
Proof. intros []. by apply current_same. Qed.

(** ** Steps of the loader *)
Section exec.
Context `{LoaderBincode}.
Variable call : list byte -> list InstructionAccount -> list nat -> InvokeContext ->
  result InstructionError InvokeContext.

Lemma exec_reading {A} (r : TransactionContext -> result InstructionError A) k ic a :
  r (transaction_context ic) = Ok a -> exec call (reading r k) ic = exec call (k a) ic.
Proof. intros Hr. cbn. by rewrite Hr. Qed.

Lemma borrow_instruction_eq c i ia a tc :
  instruction_accounts c !! i = Some ia -> accounts tc !! index_in_transaction ia = Some a ->
  exists b, try_borrow_instruction_account c i tc = Ok b /\
    ba_index_in_transaction b = index_in_transaction ia.
Proof.
  intros Hi Ha. unfold try_borrow_instruction_account, get_index_of_instruction_account_in_transaction.
  rewrite Hi. cbn. unfold try_borrow_account. rewrite Ha. cbn. eexists. done.
Qed.

Lemma store_account_eq ic c i ia a old :
  get_current_instruction_context (transaction_context ic) = Ok c ->
  instruction_accounts c !! i = Some ia ->
  accounts (transaction_context ic) !! index_in_transaction ia = Some old ->
  exists ic', store_account i a ic = Ok ic' /\ same_frame ic ic' /\
    accounts (transaction_context ic')
    = <[index_in_transaction ia := a]> (accounts (transaction_context ic)).
Proof.
  intros Hc Hi Ha. unfold store_account. rewrite Hc. cbn [mbind result_bind].
  destruct (borrow_instruction_eq _ _ _ _ _ Hi Ha) as (b & Hb & Hbi). rewrite Hb. cbn [mbind result_bind].
  rewrite Hbi, Ha. cbn [unwrap mbind result_bind].
  destruct (length (acc_data a) =? _)%nat; cbn [mbind result_bind BorrowedAccount.resize];
    (eexists; split; [reflexivity|]); (split; [|done]); split; try done; cbn; by rewrite length_insert.
Qed.

(** The positions the read-back stores: the first occurrences. *)
Definition stored (c : InstructionContext) (l : list nat) : list nat :=
  omap (fun i => ia ← instruction_accounts c !! i;
                 if is_duplicate c i then None else Some (index_in_transaction ia)) l.

Lemma elem_of_stored c l j :
  j ∈ stored c l <-> exists i ia, i ∈ l /\ instruction_accounts c !! i = Some ia /\
    index_in_callee ia = i /\ index_in_transaction ia = j.
Proof.
  unfold stored. rewrite list_elem_of_omap. split.
  - intros (i & Hi & Hj). destruct (instruction_accounts c !! i) as [ia|] eqn:E; [|done]. cbn in Hj.
    unfold is_duplicate in Hj. rewrite E in Hj. case_match eqn:Hd; [done|].
    apply negb_false_iff, Nat.eqb_eq in Hd. exists i, ia. split_and!; try done. by injection Hj.
  - intros (i & ia & Hi & E & Hd & Hj). exists i. split; [done|]. rewrite E. cbn.
    unfold is_duplicate. rewrite E, Hd, Nat.eqb_refl. cbn. by rewrite Hj.
Qed.

Lemma exec_store_each c tcr l k ic :
  get_current_instruction_context (transaction_context ic) = Ok c ->
  (forall i ia, i ∈ l -> instruction_accounts c !! i = Some ia ->
     is_Some (accounts (transaction_context ic) !! index_in_transaction ia)) ->
  length (accounts tcr) = length (accounts (transaction_context ic)) ->
  exists ic', exec call (store_each l c tcr k) ic = exec call k ic' /\ same_frame ic ic' /\
    forall j, accounts (transaction_context ic') !! j
              = if decide (j ∈ stored c l) then accounts tcr !! j
                else accounts (transaction_context ic) !! j.
Proof.
  revert ic. induction l as [|i l IH]; intros ic Hc Hl Hlen; cbn [store_each].
  { exists ic. split_and!; [done|apply same_frame_refl|]. intros j. by rewrite decide_False by apply not_elem_of_nil. }
  assert (forall i' ia, i' ∈ l -> instruction_accounts c !! i' = Some ia ->
     is_Some (accounts (transaction_context ic) !! index_in_transaction ia)) as Hl'.
  { intros i' ia Hin. apply Hl. by right. }
  unfold stored. cbn [omap list_omap]. fold (stored c l).
  destruct (instruction_accounts c !! i) as [ia|] eqn:Hi; cbn [mbind option_bind]; [|by apply IH].
  destruct (is_duplicate c i) eqn:Hd; [by apply IH|].
  destruct (Hl i ia) as [old Hold]; [by left|done|].
  destruct (lookup_lt_is_Some_2 (accounts tcr) (index_in_transaction ia)) as [a Ha].
  { rewrite Hlen. by eapply lookup_lt_Some. }
  rewrite Ha. cbn [exec].
  destruct (store_account_eq ic c i ia a old Hc Hi Hold) as (ic1 & He1 & Hf1 & Ha1).
  rewrite He1. cbn [mbind result_bind].
  destruct (IH ic1) as (ic' & He & Hf & Hs).
  { by rewrite (same_frame_current _ _ Hf1). }
  { intros i' ib Hin Hi'. rewrite Ha1. apply lookup_lt_is_Some_2. rewrite length_insert.
    apply lookup_lt_is_Some. by eapply Hl'. }
  { by rewrite (sf_length _ _ Hf1). }
  exists ic'. split_and!; [done|by eapply same_frame_trans|]. intros j. rewrite Hs, Ha1.
  destruct (decide (j ∈ stored c l)) as [Hj|Hj]; [by rewrite decide_True by (by right)|].
  destruct (decide (j = index_in_transaction ia)) as [->|Hne].
  - rewrite decide_True by left. rewrite Ha. apply list_lookup_insert_eq. by eapply lookup_lt_Some.
  - rewrite decide_False by (by rewrite not_elem_of_cons). by apply list_lookup_insert_ne.
Qed.

End exec.

(** ** Reading back any buffer *)

(** Balances and epochs are [u64]s, and no account is larger than permitted. *)
Definition account_typed (a : Account) : Prop :=
  is_u64 (acc_lamports a) /\ is_u64 (acc_rent_epoch a) /\
  Z.of_nat (length (acc_data a)) <= MAX_PERMITTED_DATA_LENGTH.

Lemma account_typed_wf a : account_typed a -> account_wf a.
Proof.
  intros (Hl & He & Hd). split_and!; try done. unfold is_u64, U64_MAX.
  unfold MAX_PERMITTED_DATA_LENGTH in Hd. lia.
Qed.

(** A change of accounts at positions of [S] that keeps them well formed. *)
Definition typed_change (S : list nat) (tc tc' : TransactionContext) : Prop :=
  exists l, writes tc l tc' /\ length l = length (accounts tc) /\
    (Forall account_typed (accounts tc) -> Forall account_typed l) /\
    forall j, j ∉ S -> l !! j = accounts tc !! j.

Lemma typed_change_refl S tc : typed_change S tc tc.
Proof. exists (accounts tc). split_and!; try done. apply writes_refl. Qed.

Lemma typed_change_trans S tc tc1 tc' :
  typed_change S tc tc1 -> typed_change S tc1 tc' -> typed_change S tc tc'.
Proof.
  intros (l & Hw & Hl & Ht & Ho) (l' & Hw' & Hl' & Ht' & Ho'). exists l'.
  rewrite (writes_accounts _ _ _ Hw) in *. split_and!.
  - by eapply writes_trans.
  - congruence.
  - auto.
  - intros j Hj. by rewrite Ho', Ho.
Qed.

Lemma typed_change_insert S tc tc' j a a' :
  writes tc (<[j := a']> (accounts tc)) tc' -> j ∈ S -> accounts tc !! j = Some a ->
  (account_typed a -> account_typed a') -> typed_change S tc tc'.
Proof.
  intros Hw Hj Ha Hwf. eexists. split_and!; [exact Hw|by rewrite length_insert|..].
  - intros Ht. apply Forall_insert; [done|]. apply Hwf. by eapply Forall_lookup_1, Ha.
  - intros i Hi. apply list_lookup_insert_ne. by intros <-.
Qed.

Lemma set_lamports_ok b l tc u tc' :
  BorrowedAccount.set_lamports b l tc = Ok (u, tc') ->
  exists a, accounts tc !! ba_index_in_transaction b = Some a /\
    writes tc (<[ba_index_in_transaction b := set_acc_lamports a l]> (accounts tc)) tc'.
Proof. unfold BorrowedAccount.set_lamports. intros H. inv_tx. eauto using set_cell_ok. Qed.

Lemma read_u64_range bytes tc z tc' : read_u64 bytes tc = Ok (z, tc') -> is_u64 z /\ tc' = tc.
Proof.
  unfold read_u64. intros H. apply reads_ok in H as [H ->].
  destruct (8 <=? length bytes)%nat eqn:E; [|done]. injection H as <-. split; [|done].
  apply Nat.leb_le in E. apply from_le_bytes_u64. by rewrite length_take, Nat.min_l.
Qed.

Section read_back.
Variables (ic : InstructionContext) (buffer : list byte).
Let S := stored ic (instruction_account_indices ic).

Lemma borrowed_stored i tc b :
  try_borrow_instruction_account ic i tc = Ok b -> is_instruction_account_duplicate ic i = Ok None ->
  ba_index_in_transaction b ∈ S.
Proof.
  intros Hb Hd. apply borrow_instruction_ok in Hb as (ia & a & Hi & -> & _).
  unfold is_instruction_account_duplicate in Hd. rewrite Hi in Hd. cbn in Hd.
  destruct (Nat.eqb_spec (index_in_callee ia) i) as [Hc|]; [|done].
  apply elem_of_stored. exists i, ia. split_and!; try done.
  unfold instruction_account_indices. apply elem_of_seq. split; [lia|]. cbn. by eapply lookup_lt_Some.
Qed.

Lemma setter_typed b tc tc' a a' :
  ba_index_in_transaction b ∈ S -> accounts tc !! ba_index_in_transaction b = Some a ->
  writes tc (<[ba_index_in_transaction b := a']> (accounts tc)) tc' ->
  (account_typed a -> account_typed a') -> typed_change S tc tc'.
Proof. intros. by eapply typed_change_insert. Qed.

Lemma get_range_length start len tc d tc' :
  get_range buffer start len tc = Ok (d, tc') -> length d = len /\ tc' = tc.
Proof.
  unfold get_range. intros H. inv_tx. match goal with H : (_ <=? _)%nat = true |- _ =>
    apply Nat.leb_le in H end.
  rewrite length_take, length_drop. split; [lia|done].
Qed.

Ltac inv_read_back :=
  match goal with H : try_borrow_instruction_account _ _ _ = Ok _ |- _ =>
    eapply borrowed_stored in H as HS; [|eassumption] end;
  repeat match goal with
  | H : get_range _ _ _ _ = Ok _ |- _ => apply get_range_length in H as (? & ->)
  | H : get_from _ _ _ = Ok _ |- _ => unfold get_from in H; inv_tx
  | H : read_u64 _ _ = Ok _ |- _ => apply read_u64_range in H as [? ->]
  | H : BorrowedAccount.set_owner _ _ _ = Ok _ |- _ => apply set_owner_ok in H as (? & ? & ?)
  | H : BorrowedAccount.set_lamports _ _ _ = Ok _ |- _ => apply set_lamports_ok in H as (? & ? & ?)
  | H : BorrowedAccount.set_data _ _ _ = Ok _ |- _ => apply set_data_ok in H as (? & ? & ?)
  end.

Lemma read_back_aligned_typed i pre_len start tc n tc' :
  read_back_aligned buffer ic i pre_len start tc = Ok (n, tc') -> typed_change S tc tc'.
Proof.
  unfold read_back_aligned, duplicate_of. intros H. inv_tx. case_match; subst; inv_tx.
  { apply typed_change_refl. }
  inv_read_back.
  eapply typed_change_trans; [eapply setter_typed; eauto; by intros (? & ? & ?)|].
  eapply typed_change_trans; [eapply setter_typed; eauto; by intros (? & ? & ?)|].
  eapply setter_typed; eauto. intros (? & ? & ?). split_and!; try done. cbn.
  match goal with H : negb (_ || _) = true |- _ => apply negb_true_iff, orb_false_iff in H as [_ H];
    apply Z.ltb_ge in H end.
  unfold is_u64 in *. lia.
Qed.

Lemma read_back_unaligned_typed i pre_len start tc n tc' :
  Z.of_nat pre_len <= MAX_PERMITTED_DATA_LENGTH ->
  read_back_unaligned buffer ic i pre_len start tc = Ok (n, tc') -> typed_change S tc tc'.
Proof.
  intros Hpre. unfold read_back_unaligned, duplicate_of. intros H. inv_tx. case_match; subst; inv_tx.
  { apply typed_change_refl. }
  inv_read_back.
  eapply typed_change_trans; [eapply setter_typed; eauto; by intros (? & ? & ?)|].
  eapply setter_typed; eauto. intros (? & ? & ?). split_and!; try done. cbn. lia.
Qed.

Lemma read_back_loop_typed f l start tc u tc' :
  (forall i n start tc m tc', (i, n) ∈ l -> f i n start tc = Ok (m, tc') -> typed_change S tc tc') ->
  read_back_loop f l start tc = Ok (u, tc') -> typed_change S tc tc'.
Proof.
  revert start tc. induction l as [|[i n] l IH]; intros start tc Hf H; cbn [read_back_loop] in H;
    inv_tx; [apply typed_change_refl|]. eapply typed_change_trans.
  - eapply Hf; [by left|eassumption].
  - eapply IH; [|eassumption]. intros. eapply Hf; [by right|eassumption].
Qed.

Lemma deserialize_typed lens tc u tc' :
  Forall (fun n => Z.of_nat n <= MAX_PERMITTED_DATA_LENGTH) lens ->
  deserialize_parameters ic buffer lens tc = Ok (u, tc') -> typed_change S tc tc'.
Proof.
  intros Hlens. unfold deserialize_parameters, is_loader_deprecated. intros H. inv_tx.
  destruct (key_eqb _ _); (eapply read_back_loop_typed; [|exact H]); intros i n start tc1 m tc1' Hin Hr.
  - eapply read_back_unaligned_typed; [|exact Hr].
    apply list_elem_of_lookup in Hin as [q Hq]. apply lookup_zip_Some in Hq as [_ Hq].
    by apply (Forall_lookup_1 _ _ _ _ Hlens Hq).
  - by eapply read_back_aligned_typed.
Qed.

End read_back.

(** Whatever bytes a program leaves in its parameters, reading them back keeps
    every account of the transaction typed (lamports and rent epoch are u64s, the data
    no longer than permitted), keeps keys and number of accounts, and changes no account
    the instruction does not list. *)
Theorem read_back_typed (ic : InstructionContext) (buffer : list byte) (lens : list nat)
    (tc tc' : TransactionContext)
    (Hlens : Forall (fun n => Z.of_nat n <= MAX_PERMITTED_DATA_LENGTH) lens)
    (Hwf : Forall account_typed (accounts tc))
    (Hread : deserialize_parameters ic buffer lens tc = Ok (tt, tc')) :
  Forall account_typed (accounts tc') /\
  account_keys tc' = account_keys tc /\ length (accounts tc') = length (accounts tc) /\
  forall j, (forall i ia, instruction_accounts ic !! i = Some ia -> index_in_transaction ia <> j) ->
    accounts tc' !! j = accounts tc !! j.
Proof.
  destruct (deserialize_typed ic buffer _ _ _ _ Hlens Hread) as (l & Hw & Hl & Ht & Ho).
  rewrite (writes_accounts _ _ _ Hw), (writes_keys _ _ _ Hw). split_and!; auto.
  intros j Hj. apply Ho. intros (i & ia & _ & Hi & _ & Hx)%elem_of_stored. by apply (Hj i ia).
Qed.

(** ** Execution of an instruction *)

(** An instruction of the current loader as the runtime sets it up: a repeated account
    is the same account of the transaction as its first occurrence. *)
Record runnable (tc : TransactionContext) (c : InstructionContext) : Prop := {
  rn_wf : instruction_wf tc c;
  rn_keys : forall i ia, instruction_accounts c !! i = Some ia ->
    first_position (account_keys tc) (index_in_transaction ia);
  rn_once : forall i j ia ja, instruction_accounts c !! i = Some ia ->
    instruction_accounts c !! j = Some ja -> index_in_callee ia = i -> index_in_callee ja = j ->
    index_in_transaction ia = index_in_transaction ja -> i = j;
  rn_loader : is_loader_deprecated c tc = Ok (false, tc)
}.

(** The account [a] with key [k] occurs first at position [i] of the instruction. *)
Definition occurs (tc : TransactionContext) (c : InstructionContext) (i : nat) (k : Pubkey)
    (a : Account) : Prop :=
  exists ia, instruction_accounts c !! i = Some ia /\ index_in_callee ia = i /\
    account_keys tc !! index_in_transaction ia = Some k /\
    accounts tc !! index_in_transaction ia = Some a.

Lemma list_to_map_agree (l : list (Pubkey * Account)) k a :
  (forall k a b, (k, a) ∈ l -> (k, b) ∈ l -> a = b) ->
  (list_to_map l : view) !! k = Some a <-> (k, a) ∈ l.
Proof.
  intros Hl. induction l as [|[j b] l IH]; cbn.
  { rewrite lookup_empty. split; [done|]. intros H. by apply not_elem_of_nil in H. }
  rewrite lookup_insert, elem_of_cons. case_decide as E.
  - subst. split; [intros [= ->]; by left|]. intros [[= ->]|Hin]; [done|]. f_equal.
    eapply (Hl k); [by left|by right].
  - rewrite IH; [|intros k' x y Hx Hy; eapply Hl; by right]. naive_solver.
Qed.

Lemma param_occurs tc c i info a :
  instruction_wf tc c -> param_of tc c i = Some (info, a) ->
  exists j, occurs tc c j (key info) a.
Proof.
  intros Hwf Hp. unfold param_of in Hp. apply bind_Some in Hp as (ia & Hia & Hp).
  apply bind_Some in Hp as (ja & Hja & Hp). apply bind_Some in Hp as (k & Hk & Hp).
  apply bind_Some in Hp as (a' & Ha & [= <- <-]).
  destruct (iw_first _ _ Hwf _ _ Hia) as (_ & ja' & Hja' & Hs). assert (ja' = ja) as -> by congruence.
  exists (index_in_callee ia), ja. done.
Qed.

Lemma occurs_param tc c j k a :
  occurs tc c j k a -> exists info, param_of tc c j = Some (info, a) /\ key info = k.
Proof.
  intros (ia & Hia & Hc & Hk & Ha). unfold param_of. rewrite Hia. cbn [mbind option_bind].
  rewrite Hc, Hia. cbn [mbind option_bind]. rewrite Hk, Ha. eexists. done.
Qed.

Lemma occurs_agree tc c i j k a b :
  runnable tc c -> occurs tc c i k a -> occurs tc c j k b -> i = j /\ a = b.
Proof.
  intros Hr (ia & Hia & Hi & Hk & Ha) (ja & Hja & Hj & Hk' & Hb).
  assert (index_in_transaction ia = index_in_transaction ja) as Hx
    by (eapply first_position_unique; [by eapply rn_keys|by eapply rn_keys|exact Hk|exact Hk']).
  split; [|congruence]. by eapply (rn_once _ _ Hr _ _ ia ja).
Qed.

Lemma view_of_spec tc c ps k a :
  runnable tc c -> length ps = length (instruction_accounts c) ->
  (forall i, (i < length ps)%nat -> ps !! i = param_of tc c i) ->
  view_of ps !! k = Some a <-> exists i, occurs tc c i k a.
Proof.
  intros Hr Hlen Hps.
  assert (forall k a, (k, a) ∈ (fun p : param => (key p.1, p.2)) <$> ps -> exists i, occurs tc c i k a)
    as Hin.
  { intros k' a' ([info b] & [= -> ->] & [i Hi]%list_elem_of_lookup)%list_elem_of_fmap.
    pose proof (lookup_lt_Some _ _ _ Hi) as Hlt. rewrite Hps in Hi by done.
    eapply param_occurs; [apply Hr|exact Hi]. }
  unfold view_of. rewrite list_to_map_agree.
  - split; [apply Hin|]. intros [i Ho]. destruct (occurs_param _ _ _ _ _ Ho) as (info & Hp & <-).
    apply list_elem_of_fmap. exists (info, a). split; [done|]. apply list_elem_of_lookup. exists i.
    rewrite Hps; [done|]. rewrite Hlen. destruct Ho as (ia & Hia & _). by eapply lookup_lt_Some.
  - intros k' x y Hx Hy. destruct (Hin _ _ Hx) as [i Hi], (Hin _ _ Hy) as [j Hj].
    by destruct (occurs_agree _ _ _ _ _ _ _ Hr Hi Hj).
Qed.

Lemma last_key tc c k :
  instruction_wf tc c -> Serialization.last_program_key c tc = Ok (k, tc) -> get_last_program_key c tc = Ok k.
Proof.
  intros Hwf Hk. destruct (last_program tc c Hwf) as (i & k' & a & Hi & Hk' & _ & Hl).
  assert (k' = k) as -> by congruence.
  unfold get_last_program_key, get_index_of_program_account_in_transaction. rewrite Hi. cbn.
  unfold get_key_of_account_at_index. by rewrite Hk'.
Qed.

Lemma posts_lookup tc c ps v i k a post :
  length ps = length (instruction_accounts c) ->
  (forall i, (i < length ps)%nat -> ps !! i = param_of tc c i) ->
  occurs tc c i k a -> posts_of ps v !! i = Some post <-> post = default a (v !! k).
Proof.
  intros Hlen Hps Ho. destruct (occurs_param _ _ _ _ _ Ho) as (info & Hp & <-).
  unfold posts_of. rewrite list_lookup_fmap, Hps, Hp; [cbn; naive_solver|].
  destruct Ho as (ia & Hia & _). rewrite Hlen. by eapply lookup_lt_Some.
Qed.

Section execute.
Context `{Crypto} `{LoaderBincode}.
Variable call : list byte -> list InstructionAccount -> list nat -> InvokeContext ->
  result InstructionError InvokeContext.
Variables (feats : Features) (code : contract) (ic : InvokeContext) (c : InstructionContext).
Let tc := transaction_context ic.
Hypothesis Hc : get_current_instruction_context tc = Ok c.
Hypothesis Hrun : runnable tc c.

(** The accounts after a successful program: the instruction has the cells of [v']. *)
Definition left_by (v' : view) (ic' : InvokeContext) : Prop :=
  same_frame ic ic' /\
  (forall i k a ia, occurs tc c i k a -> instruction_accounts c !! i = Some ia ->
     accounts (transaction_context ic') !! index_in_transaction ia
     = Some (updated a (default a (v' !! k)))) /\
  (forall j, (forall i ia, instruction_accounts c !! i = Some ia -> index_in_transaction ia <> j) ->
     accounts (transaction_context ic') !! j = accounts tc !! j).

Lemma read_parameters_back_eq buffer lens ps v' :
  serialize_parameters c tc = Ok ((buffer, lens), tc) ->
  length ps = length (instruction_accounts c) ->
  (forall i, (i < length ps)%nat -> ps !! i = param_of tc c i) ->
  (forall i k a, occurs tc c i k a -> fits (length (acc_data a)) (default a (v' !! k))) ->
  exists ic', exec call (read_parameters_back (store_parameters c lens (posts_of ps v') buffer) lens) ic
              = Ok ic' /\ left_by v' ic'.
Proof.
  intros Hser Hlen Hps Hfits. pose proof Hrun as [Hwf Hnd Honce Hdep].
  destruct (writes_read_back tc c buffer lens (posts_of ps v') Hwf Hdep Hser Honce)
    as (tc' & Hde & Hkeys & Hlen' & Hacc & Hoth).
  { unfold posts_of. by rewrite length_fmap. }
  { intros i ia a post Hia Hi Ha Hpost.
    destruct (key_and_account tc c _ Hwf (iw_indices _ _ Hwf _ _ Hia)) as (k & a' & Hk & Ha' & _).
    assert (a' = a) as -> by congruence. assert (occurs tc c i k a) as Ho by (by exists ia).
    eapply (posts_lookup _ _ _ _ _ _ _ _ Hlen Hps Ho) in Hpost as ->. by eapply Hfits. }
  unfold read_parameters_back. erewrite (exec_reading _ _ _ _ (c, tc')).
  2: { fold tc. rewrite Hc. cbn [mbind result_bind]. rewrite Hde. done. }
  destruct (exec_store_each call c tc' (instruction_account_indices c) Return ic Hc) as (ic' & He & Hf & Hj).
  { intros i ia _ Hia. apply lookup_lt_is_Some_2. by eapply iw_indices. }
  { done. }
  exists ic'. split; [done|]. split_and!; [done|..].
  - intros i k a ia Ho Hia. rewrite Hj. destruct Ho as (ia' & Hia' & Hi & Hk & Ha).
    assert (ia' = ia) as -> by congruence. rewrite decide_True.
    + eapply Hacc; [done..|]. eapply posts_lookup; [done..| |done]. by exists ia.
    + apply elem_of_stored. exists i, ia. split_and!; try done. apply elem_of_seq.
      split; [lia|]. by eapply lookup_lt_Some.
  - intros j Hn. rewrite Hj, decide_False; [done|].
    intros (i & ia & _ & Hia & _ & Hx)%elem_of_stored. by apply (Hn i ia).
Qed.

(** What the runtime makes of the outcome of a program without calls. *)
Lemma execute_outcome :
  exists k infos v, get_last_program_key c tc = Ok k /\
    length infos = length (instruction_accounts c) /\
    (forall i, infos !! i = fst <$> param_of tc c i) /\
    (forall k a, v !! k = Some a <-> exists i, occurs tc c i k a) /\
    match code k infos (instruction_data c) v with
    | TOk _ v' =>
        (forall i k a, occurs tc c i k a -> fits (length (acc_data a)) (default a (v' !! k))) ->
        exists ic', exec call (execute feats code) ic = Ok ic' /\ left_by v' ic'
    | TErr e => exec call (execute feats code) ic = Err (status_error feats e)
    | TPanic => exec call (execute feats code) ic = Err InstructionError.ProgramFailedToComplete
    | TCpi _ _ _ _ _ => True
    end.
Proof.
  pose proof Hrun as [Hwf Hnd Honce Hdep].
  destruct (parameters_read tc c Hwf) as (buffer & lens & k & ps & Hser & Hk & Hlen & Hps & Hread & _).
  exists k, (fst <$> ps), (view_of ps). split_and!.
  - by apply last_key.
  - by rewrite length_fmap.
  - intros i. rewrite list_lookup_fmap. destruct (decide (i < length ps)%nat) as [Hi|Hi]; [by rewrite Hps|].
    rewrite lookup_ge_None_2 by lia. unfold param_of.
    by rewrite (lookup_ge_None_2 (instruction_accounts c)) by lia.
  - intros. by apply view_of_spec.
  - assert (exec call (execute feats code) ic
            = exec call (run_contract feats c ps buffer lens
                (code k (fst <$> ps) (instruction_data c) (view_of ps))) ic) as He.
    { unfold execute. rewrite (exec_reading _ _ _ _ c) by done.
      rewrite (exec_reading _ _ _ _ (buffer, lens)) by (unfold value_of; fold tc; by rewrite Hser).
      by rewrite Hread. }
    rewrite He. destruct (code k _ _ _) as [u v'|e| |]; try done. cbn [run_contract].
    by apply read_parameters_back_eq.
Qed.

End execute.

(** Executing a program of the current loader that makes no calls: it runs on its
    program id, the handles and the cells of exactly the accounts of the instruction;
    its error becomes the error of its exit status and its panic
    ProgramFailedToComplete; when it succeeds with cells of permitted sizes, each
    account of the instruction takes the lamports, data and owner it left and nothing
    else changes. *)
Theorem execute_spec `{Crypto} `{LoaderBincode}
    (call : list byte -> list InstructionAccount -> list nat -> InvokeContext ->
       result InstructionError InvokeContext)
    (feats : Features) (code : contract) (ic : InvokeContext) (c : InstructionContext)
    (Hc : get_current_instruction_context (transaction_context ic) = Ok c)
    (Hrun : runnable (transaction_context ic) c) :
  exists k infos v, get_last_program_key c (transaction_context ic) = Ok k /\
    length infos = length (instruction_accounts c) /\
    (forall i, infos !! i = fst <$> param_of (transaction_context ic) c i) /\
    (forall k a, v !! k = Some a <-> exists i, occurs (transaction_context ic) c i k a) /\
    match code k infos (instruction_data c) v with
    | TOk _ v' =>
        (forall i k a, occurs (transaction_context ic) c i k a ->
           fits (length (acc_data a)) (default a (v' !! k))) ->
        exists ic', exec call (execute feats code) ic = Ok ic' /\ left_by ic c v' ic'
    | TErr e => exec call (execute feats code) ic = Err (status_error feats e)
    | TPanic => exec call (execute feats code) ic = Err InstructionError.ProgramFailedToComplete
    | TCpi _ _ _ _ _ => True
    end.
Proof. exact (execute_outcome call feats code ic c Hc Hrun). Qed.

(** ** The instruction of [SerializationFacts], running *)
Definition lx_tc : TransactionContext :=
  mkTransactionContext (account_keys sx_context) (accounts sx_context) 4 [0%nat] 1 [[sx_instruction]]
    (return_data sx_context) 0 0.
Definition lx_ic : InvokeContext := InvokeContext_new lx_tc Rent_default 4 mx_features 0.

(** A program that moves two lamports from its own account to another one. *)
Definition lx_move (n m : Z) : contract := fun _ infos _ v =>
  match infos with
  | from :: to :: _ =>
      (update_cell from (fun a => set_acc_lamports a n);;
       update_cell to (fun a => set_acc_lamports a m)) v
  | _ => TErr ProgramError.NotEnoughAccountKeys
  end.

Lemma lx_runnable : runnable lx_tc sx_instruction.
Proof.
  split.
  - destruct sx_wf. by split.
  - intros i ia _. apply sole_first, distinct_sole, (bool_decide_unpack _). vm_compute. exact I.
  - exact sx_once.
  - vm_compute. reflexivity.
Qed.

Lemma lx_typed : Forall account_typed (accounts lx_tc).
Proof. repeat constructor; cbn; unfold U64_MAX, MAX_PERMITTED_DATA_LENGTH; lia. Qed.

Definition lx_from : Account := mkAccount 7 [x01; x02; x03] (sx_key 9) false 3.
Definition lx_to : Account := mkAccount 11 [] system_program_id false 0.
Definition lx_moved (n m : Z) (v : view) : view :=
  <[sx_key 2 := set_acc_lamports lx_to m]> (<[sx_key 1 := set_acc_lamports lx_from n]> v).

Lemma lx_occurs i k a :
  occurs lx_tc sx_instruction i k a ->
  (i = 0%nat /\ k = sx_key 1 /\ a = lx_from) \/ (i = 1%nat /\ k = sx_key 2 /\ a = lx_to).
Proof.
  intros (ia & Hi & Hc & Hk & Ha). destruct i as [|[|[|i]]]; cbn in Hi; simplify_eq; cbn [index_in_callee] in Hc;
    try discriminate; cbn in Hk, Ha; injection Hk as <-; injection Ha as <-; auto.
Qed.

Lemma lx_occurs_from : occurs lx_tc sx_instruction 0 (sx_key 1) lx_from.
Proof. exists (mkInstructionAccount 0 0 0 false true). split_and!; reflexivity. Qed.
Lemma lx_occurs_to : occurs lx_tc sx_instruction 1 (sx_key 2) lx_to.
Proof. exists (mkInstructionAccount 1 1 1 true true). split_and!; reflexivity. Qed.

Lemma lx_keys : sx_key 1 <> sx_key 2.
Proof. apply key_eqb_neq. vm_compute. reflexivity. Qed.

Lemma lx_move_runs n m k infos data v :
  (forall i, infos !! i = fst <$> param_of lx_tc sx_instruction i) ->
  v !! sx_key 1 = Some lx_from -> v !! sx_key 2 = Some lx_to ->
  lx_move n m k infos data v = TOk tt (lx_moved n m v).
Proof.
  intros Hinfos H1 H2. pose proof (Hinfos 0%nat) as E0. pose proof (Hinfos 1%nat) as E1.
  destruct infos as [|x [|y infos]]; [discriminate E0|discriminate E1|].
  change (Some x = Some (mkAccountInfo (sx_key 1) false true)) in E0.
  change (Some y = Some (mkAccountInfo (sx_key 2) true true)) in E1.
  injection E0 as ->. injection E1 as ->.
  unfold lx_move, update_cell, mbind, ProgM_bind. cbn [key]. rewrite H1. cbn [tbind].
  rewrite lookup_insert_ne by exact lx_keys. rewrite H2. reflexivity.
Qed.

Ltac lx_fit :=
  split; [by apply is_u64b_spec|]; cbn [acc_data set_acc_lamports lx_from lx_to length];
  rewrite max_increase; split; [lia|vm_compute; discriminate].

Lemma lx_fits v i k a :
  occurs lx_tc sx_instruction i k a -> fits (length (acc_data a)) (default a (lx_moved 5 13 v !! k)).
Proof.
  intros [(-> & -> & ->)|(-> & -> & ->)]%lx_occurs; unfold lx_moved.
  - rewrite lookup_insert_ne by (symmetry; exact lx_keys). rewrite lookup_insert_eq.
    cbn [default from_option id]. lx_fit.
  - rewrite lookup_insert_eq. cbn [default from_option id]. lx_fit.
Qed.

Lemma execute_spec_witness :
  exists ic', exec (fun _ _ _ _ => Panic) (execute mx_features (lx_move 5 13)) lx_ic = Ok ic' /\
    accounts (transaction_context ic') !! 0%nat = Some (set_acc_lamports lx_from 5) /\
    exec (fun _ _ _ _ => Panic) (execute mx_features (fun _ _ _ _ => TErr (ProgramError.Custom 7))) lx_ic
    = Err (InstructionError.Custom 7).
Proof.
  destruct (execute_spec (fun _ _ _ _ => Panic) mx_features (fun _ _ _ _ => TErr (ProgramError.Custom 7)) lx_ic
    sx_instruction eq_refl lx_runnable) as (k' & infos' & w & _ & _ & _ & _ & Herr).
  destruct (execute_spec (fun _ _ _ _ => Panic) mx_features (lx_move 5 13) lx_ic sx_instruction eq_refl lx_runnable)
    as (k & infos & v & _ & _ & Hinfos & Hv & He).
  rewrite (lx_move_runs 5 13 k infos _ v Hinfos) in He.
  - destruct (He (lx_fits v)) as (ic' & Hex & _ & Hacc & _). exists ic'. split; [exact Hex|].
    split; [|exact Herr]. etransitivity; [exact (Hacc 0%nat (sx_key 1) lx_from _ lx_occurs_from eq_refl)|].
    unfold lx_moved. rewrite lookup_insert_ne by (symmetry; exact lx_keys). rewrite lookup_insert_eq.
    reflexivity.
  - apply Hv. exists 0%nat. exact lx_occurs_from.
  - apply Hv. exists 1%nat. exact lx_occurs_to.
Defined.

(** Reading back a buffer in which the program left a longer account. *)
Lemma read_back_typed_witness :
  exists tc', deserialize_parameters sx_instruction
      (store_parameters sx_instruction [3; 0; 0]%nat sx_posts
         match serialize_parameters sx_instruction lx_tc with Ok (b, _, _) => b | _ => [] end)
      [3; 0; 0]%nat lx_tc = Ok (tt, tc') /\
    Forall account_typed (accounts tc').
Proof.
  destruct (deserialize_parameters _ _ _ lx_tc) as [[[] tc']| |] eqn:E; [|vm_compute in E; discriminate..].
  exists tc'. split; [reflexivity|].
  refine (proj1 (read_back_typed sx_instruction _ [3; 0; 0]%nat lx_tc tc' _ lx_typed E)).
  repeat constructor; vm_compute; discriminate.
Defined.
