(* ===== verification/CallContexts.v ===== *)
(** * Cross-program calls and the contexts in which programs run

    The privileges a call passes on, the check of accounts around a call, and what the meter of
    account data sees of it.  The list of accounts the runtime gives a program, from the metas
    of a call or from a compiled instruction, refers every repeated account to its first
    occurrence; the context of a call is the current one while the program runs, and calls that
    return leave the context of their caller the current one. *)

From Stdlib Require Import Strings.Byte.
From S2P Require Import Prelude Sdk Rent Program SystemInstruction Transaction Nonce Runtime RuntimeSafety Message MessageProcessor MessageFixtures.

(** ** Privileges *)

(** A prepared cross-program call gives the callee, for every account meta, the
    account of that key with exactly the privileges some meta of the key asks for; a
    writable account is writable in the caller, a signer signed in the caller or is
    derived from the seeds, and the program called is an executable account of the
    caller. *)
Theorem call_privileges_granted `{LoaderBincode} (instruction : Instruction)
    (signers : list Pubkey) (ic : InvokeContext) (ias : list InstructionAccount) (pis : list nat)
    (Hrun : prepare_instruction instruction signers ic = Ok (ias, pis)) :
  exists caller,
    get_current_instruction_context (transaction_context ic) = Ok caller /\
    Forall2 (granted (transaction_context ic) caller signers (ix_accounts instruction))
      (ix_accounts instruction) ias /\
    callee_of (transaction_context ic) caller (ix_program_id instruction) pis.
Proof. by apply prepare_ok in Hrun. Qed.

(** ** The zero test *)

(** The zero test of the runtime, which compares the data in chunks of 1024 bytes
    and then the rest, holds exactly if every byte is zero. *)
Theorem is_zeroed_all_zero (buf : list byte) :
  PreAccount.is_zeroed buf = forallb (fun b => u8_val b =? 0) buf.
Proof.
  rewrite is_zeroed_spec. unfold all_zero. induction buf as [|b buf IH]; [done|].
  cbn [forallb]. rewrite IH. f_equal. apply eq_true_iff_eq. rewrite u8_eqb_eq, Z.eqb_eq.
  split; [by intros <-|]. intros Hb. symmetry. by apply u8_val_inj.
Qed.

(** ** The meter *)
Lemma meter_change_same ic m d m' :
  I64_MIN <= meter_delta m <= I64_MAX ->
  InvokeContext.meter_change ic m d d = Ok m' -> m' = m.
Proof.
  intros Hm. unfold InvokeContext.meter_change. rewrite Z.sub_diag.
  change (saturate_i64 0) with 0. unfold AccountsDataMeter.adjust_delta,
    AccountsDataMeter.adjust_delta_unchecked. rewrite Z.add_0_r.
  assert (saturate_i64 (meter_delta m) = meter_delta m) as -> by (unfold saturate_i64; lia).
  destruct m. case_match; [case_match; [done|]|]; by intros [= <-].
Qed.

Lemma update_matching_meter ic pid k post w pre ps qs m pre' ps' qs' m' :
  I64_MIN <= meter_delta m <= I64_MAX ->
  InvokeContext.update_matching ic pid k post w pre ps qs m = Ok (pre', ps', qs', m') -> m' = m.
Proof.
  intros Hm. revert pre'. induction pre as [|p pre IH]; intros pre' Hu;
    cbn [InvokeContext.update_matching] in Hu; [by simplify_eq|].
  destruct (key_eqb k (pre_key p)).
  - apply result_bind_ok in Hu as ([] & Hv & Hu). apply verify_permitted, update_is_post in Hv.
    apply result_bind_ok in Hu as (x & _ & Hu). apply result_bind_ok in Hu as (y & _ & Hu).
    apply result_bind_ok in Hu as (m1 & H1 & Hu). injection Hu as _ _ _ <-.
    rewrite Hv in H1. by apply meter_change_same in H1.
  - apply result_bind_ok in Hu as ([[[pre1 ps1] qs1] m1] & H1 & Hu). injection Hu as _ <- <- <-.
    by apply IH in H1.
Qed.

Lemma update_loop_meter ic pid c b l pre ps qs m pre' ps' qs' m' :
  I64_MIN <= meter_delta m <= I64_MAX ->
  InvokeContext.update_loop ic pid c b l pre ps qs m = Ok (pre', ps', qs', m') -> m' = m.
Proof.
  intros Hm. revert pre ps qs. induction l as [|ia l IH]; intros pre ps qs Hl;
    cbn [InvokeContext.update_loop] in Hl; [by simplify_eq|].
  apply result_bind_ok in Hl as ([[[pre1 ps1] qs1] m1] & H1 & Hl).
  assert (m1 = m) as ->; [|by eapply IH].
  destruct (_ <? _)%nat; [|by simplify_eq].
  apply result_bind_ok in H1 as (k & _ & H1). apply result_bind_ok in H1 as (post & _ & H1).
  apply result_bind_ok in H1 as (w & _ & H1). by apply update_matching_meter in H1.
Qed.

(** The check around a nested call never moves the meter of account data, whatever
    the accounts grew: the old length is read after the old account has been
    overwritten. A message whose callee grows an account by three bytes reports a change
    of zero. *)
Theorem nested_growth_unmetered (ias : list InstructionAccount) (before_push : bool)
    (ic ic' : InvokeContext)
    (Hm : I64_MIN <= meter_delta (accounts_data_meter ic) <= I64_MAX)
    (Hrun : InvokeContext.verify_and_update ias before_push ic = Ok ic') :
  accounts_data_meter ic' = accounts_data_meter ic.
Proof.
  unfold InvokeContext.verify_and_update in Hrun. apply result_bind_ok in Hrun as (c & _ & Hrun).
  apply result_bind_ok in Hrun as (pid & _ & Hrun).
  apply result_bind_ok in Hrun as ([[[pre ps] qs] m] & Hl & Hrun).
  apply result_bind_ok in Hrun as ([] & _ & [= <-]). by apply update_loop_meter in Hl.
Qed.

(** ** Instances *)

(** The calling program of the example, about to call. *)
Definition mx_caller_frame : InstructionContext :=
  mkInstructionContext 0 [6%nat]
    [mkInstructionAccount 0 0 0 true true; mkInstructionAccount 1 1 1 false true;
     mkInstructionAccount 2 2 2 false true; mkInstructionAccount 5 5 3 false false] [].

Definition mx_calling : InvokeContext :=
  mkInvokeContext
    (with_stack mx_tc [0%nat] [[mx_caller_frame]]) Rent_default
    [PreAccount.new mx_store (mkAccount 7 [] mx_callee false 0)] 4 (AccountsDataMeter.new 0)
    mx_features.

(** The callee has run and grown its account by three bytes. *)
Definition mx_called : InvokeContext :=
  with_tc mx_calling
    (with_stack
       (with_accounts mx_tc
          (<[2%nat := mkAccount 7 [x0a; x0b; x0c] mx_callee false 0]> (accounts mx_tc)))
       [0; 1]%nat
       [[mx_caller_frame;
         mkInstructionContext 1 [5%nat] [mkInstructionAccount 2 2 0 false true] []]]).

Lemma call_privileges_granted_witness :
  exists caller,
    get_current_instruction_context (transaction_context mx_calling) = Ok caller /\
    Forall2 (granted (transaction_context mx_calling) caller []
               [mkAccountMeta mx_store false true; mkAccountMeta mx_payer true false])
      [mkAccountMeta mx_store false true; mkAccountMeta mx_payer true false]
      [mkInstructionAccount 2 2 0 false true; mkInstructionAccount 0 0 1 true false] /\
    callee_of (transaction_context mx_calling) caller mx_callee [5%nat].
Proof.
  exact (call_privileges_granted (mkInstruction mx_callee
    [mkAccountMeta mx_store false true; mkAccountMeta mx_payer true false] []) [] mx_calling _ _
    ltac:(vm_compute; reflexivity)).
Defined.

Lemma nested_growth_unmetered_witness :
  exists ic', InvokeContext.verify_and_update [mkInstructionAccount 2 2 0 false true] false mx_called
                = Ok ic' /\ accounts_data_meter ic' = accounts_data_meter mx_called.
Proof.
  destruct (InvokeContext.verify_and_update [mkInstructionAccount 2 2 0 false true] false mx_called)
    as [ic'| |] eqn:E; [|exfalso; vm_compute in E; discriminate E..].
  exists ic'. refine (conj eq_refl (nested_growth_unmetered _ false mx_called ic' _ E)).
  cbn. unfold I64_MIN, I64_MAX. lia.
Defined.

(** ** Lists of instruction accounts *)

(** Accounts of a transaction of [n] accounts; a repeated account refers to its first
    occurrence. *)
Record well_listed (n : nat) (ias : list InstructionAccount) : Prop := {
  wl_index i ia : ias !! i = Some ia -> (index_in_transaction ia < n)%nat;
  wl_first i ia : ias !! i = Some ia -> (index_in_callee ia <= i)%nat /\
    exists ja, ias !! index_in_callee ia = Some ja /\ index_in_callee ja = index_in_callee ia /\
      index_in_transaction ja = index_in_transaction ia;
  wl_once i j ia ja : ias !! i = Some ia -> ias !! j = Some ja -> index_in_callee ia = i ->
    index_in_callee ja = j -> index_in_transaction ia = index_in_transaction ja -> i = j
}.

(** What the first loop of [prepare_instruction] keeps: every deduplicated account knows
    the position of its first meta. *)
Record positions_ok (n : nat) (dedup : list InstructionAccount) (indices : list nat) : Prop := {
  po_index j ia : dedup !! j = Some ia -> (index_in_transaction ia < n)%nat;
  po_first j ia : dedup !! j = Some ia -> indices !! index_in_callee ia = Some j;
  po_after i j : indices !! i = Some j -> exists ia, dedup !! j = Some ia /\ (index_in_callee ia <= i)%nat;
  po_once j j' ia ia' : dedup !! j = Some ia -> dedup !! j' = Some ia' ->
    index_in_transaction ia = index_in_transaction ia' -> j = j'
}.

Lemma positions_known n dedup indices j ia s w :
  positions_ok n dedup indices -> dedup !! j = Some ia ->
  positions_ok n (<[j := mkInstructionAccount (index_in_transaction ia) (index_in_caller ia)
                          (index_in_callee ia) s w]> dedup) (indices ++ [j]).
Proof.
  set (ia2 := mkInstructionAccount _ _ _ _ _). intros [Hi Hf Ha Ho] Hj.
  pose proof (lookup_lt_Some _ _ _ Hj) as Hlt.
  assert (forall j' ib, <[j := ia2]> dedup !! j' = Some ib -> exists ic, dedup !! j' = Some ic /\
    index_in_transaction ic = index_in_transaction ib /\ index_in_callee ic = index_in_callee ib) as Hback.
  { intros j' ib Hb. destruct (decide (j' = j)) as [->|Hne].
    - rewrite list_lookup_insert_eq in Hb by done. injection Hb as <-. by exists ia.
    - rewrite list_lookup_insert_ne in Hb by done. by exists ib. }
  split.
  - intros j' ib (ic & Hic & <- & _)%Hback. by eapply Hi.
  - intros j' ib (ic & Hic & _ & <-)%Hback. apply lookup_app_l_Some. by eapply Hf.
  - assert (forall i j', (exists ib, dedup !! j' = Some ib /\ (index_in_callee ib <= i)%nat) ->
      exists ib, <[j := ia2]> dedup !! j' = Some ib /\ (index_in_callee ib <= i)%nat) as Hfwd.
    { intros i j' (ib & Hb & Hle). destruct (decide (j' = j)) as [->|Hne].
      - exists ia2. rewrite list_lookup_insert_eq by done. assert (ib = ia) as -> by congruence. done.
      - exists ib. by rewrite list_lookup_insert_ne. }
    intros i j' Hij. apply Hfwd. apply lookup_app_Some in Hij as [Hij|[Hge Hij]]; [by apply Ha|].
    apply list_lookup_singleton_Some in Hij as [Hz <-]. exists ia. split; [done|].
    apply Hf, lookup_lt_Some in Hj. lia.
  - intros j1 j2 ib1 ib2 (ic1 & H1 & E1 & _)%Hback (ic2 & H2 & E2 & _)%Hback Heq.
    eapply Ho; [exact H1|exact H2|congruence].
Qed.

Lemma positions_new n dedup indices index in_caller s w :
  positions_ok n dedup indices -> (index < n)%nat ->
  (forall j ia, dedup !! j = Some ia -> index_in_transaction ia <> index) ->
  positions_ok n (dedup ++ [mkInstructionAccount index in_caller (length indices) s w])
    (indices ++ [length dedup]).
Proof.
  intros [Hi Hf Ha Ho] Hlt Hno. split.
  - intros j ia [Hj|[_ Hj]]%lookup_app_Some; [by eapply Hi|].
    by apply list_lookup_singleton_Some in Hj as [_ <-].
  - intros j ia [Hj|[Hge Hj]]%lookup_app_Some; [by eapply lookup_app_l_Some, Hf|].
    apply list_lookup_singleton_Some in Hj as [Hz <-]. cbn.
    rewrite lookup_app_r, Nat.sub_diag by done. cbn. f_equal. lia.
  - intros i j [Hij|[Hge Hij]]%lookup_app_Some.
    + destruct (Ha _ _ Hij) as (ia & Hia & Hle). exists ia. split; [by apply lookup_app_l_Some|done].
    + apply list_lookup_singleton_Some in Hij as [Hz <-].
      eexists. split; [by apply list_lookup_middle|]. done.
  - intros j1 j2 i1 i2 [H1|[G1 H1]]%lookup_app_Some [H2|[G2 H2]]%lookup_app_Some Heq.
    + by eapply Ho.
    + apply list_lookup_singleton_Some in H2 as [_ <-]. by apply Hno in H1.
    + apply list_lookup_singleton_Some in H1 as [_ <-]. by apply Hno in H2.
    + apply list_lookup_singleton_Some in H1 as [? _], H2 as [? _]. lia.
Qed.

Lemma dedup_positions tc caller i todo dedup indices dedup' indices' :
  length indices = i -> positions_ok (length (account_keys tc)) dedup indices ->
  InvokeContext.dedup_loop tc caller i todo dedup indices = Ok (dedup', indices') ->
  positions_ok (length (account_keys tc)) dedup' indices'.
Proof.
  revert i dedup indices. induction todo as [|m todo IH]; intros i dedup indices Hl Hok H;
    cbn [InvokeContext.dedup_loop] in H.
  { by simplify_eq. }
  apply result_bind_ok in H as ([d ix] & Hadd & H). unfold InvokeContext.add_meta in Hadd.
  apply result_bind_ok in Hadd as (n & Hn & Hadd). apply ok_or_ok, find_index_of_account_ok in Hn.
  destruct (position _ dedup) as [j|] eqn:Ep.
  - apply position_some in Ep as (ia & Hj & E). apply result_bind_ok in Hadd as (ia' & Hia & Hadd).
    apply ok_or_ok in Hia. assert (ia' = ia) as -> by congruence. injection Hadd as <- <-.
    eapply IH; [|by apply positions_known|exact H]. rewrite length_app. cbn. lia.
  - apply result_bind_ok in Hadd as (oc & _ & Hadd). apply result_bind_ok in Hadd as (c & _ & Hadd).
    injection Hadd as <- <-. eapply IH; [| |exact H].
    + rewrite length_app. cbn. lia.
    + rewrite <-Hl. apply positions_new; [done|by eapply lookup_lt_Some|].
      intros j ia Hj. pose proof (position_none _ _ _ _ Ep Hj) as E. by apply Nat.eqb_neq.
Qed.

Lemma prepare_listed `{LoaderBincode} instruction signers tc ias pis :
  prepare_in instruction signers tc = Ok (ias, pis) ->
  well_listed (length (account_keys tc)) ias /\ length ias = length (ix_accounts instruction).
Proof.
  intros Hp. unfold prepare_in in Hp. apply result_bind_ok in Hp as (caller & _ & Hp).
  apply result_bind_ok in Hp as ([dedup indices] & Hd & Hp). apply result_bind_ok in Hp as (us & _ & Hp).
  apply result_bind_ok in Hp as (ias' & Hias & Hp). apply collect_ok in Hias.
  apply result_bind_ok in Hp as (pis' & _ & [= <- <-]).
  pose proof Hd as Hpos. apply dedup_positions in Hpos as [Hi Hf Ha Ho]; [|done|by split].
  assert (forall i ia, ias' !! i = Some ia <-> exists j, indices !! i = Some j /\ dedup !! j = Some ia) as Hl.
  { intros i ia. split.
    - intros Hia. destruct (Forall2_lookup_r _ _ _ _ _ Hias Hia) as (j & Hj & Hok).
      exists j. by apply ok_or_ok in Hok.
    - intros (j & Hj & Hia). destruct (Forall2_lookup_l _ _ _ _ _ Hias Hj) as (ib & Hib & Hok).
      apply ok_or_ok in Hok. congruence. }
  split.
  - split.
    + intros i ia (j & _ & Hia)%Hl. by eapply Hi.
    + intros i ia (j & Hj & Hia)%Hl. destruct (Ha _ _ Hj) as (ib & Hib & Hle).
      assert (ib = ia) as -> by congruence. split; [done|]. exists ia. split; [|done].
      apply Hl. exists j. split; [by apply Hf|done].
    + intros i i' ia ia' (j & Hj & Hia)%Hl (j' & Hj' & Hia')%Hl <- <- Hx.
      assert (j = j') as -> by (by eapply Ho). congruence.
  - rewrite <-(Forall2_length Hias).
    apply (dedup_loop_ok _ _ _ _ []) in Hd;
      [|split; [by intros j ia Hj|by intros j j' ia ia' Hj|constructor]].
    destruct Hd as [_ _ Hix]. by rewrite <-(Forall2_length Hix).
Qed.

(** ** The accounts of a compiled instruction *)
Lemma message_accounts_first message i before l ias :
  length before = i -> message_accounts message i before l = Ok ias ->
  length ias = length l /\
  forall p ia, ias !! p = Some ia -> l !! p = Some (index_in_transaction ia) /\
    (index_in_callee ia <= i + p)%nat /\
    first_at (before ++ l) (index_in_callee ia) (index_in_transaction ia).
Proof.
  revert i before ias. induction l as [|x l IH]; intros i before ias Hi H; cbn [message_accounts] in H.
  { injection H as <-. split; [done|]. by intros p ia Hp. }
  apply result_bind_ok in H as (w & _ & H). apply result_bind_ok in H as (rest & Hrest & [= <-]).
  destruct (IH (S i) (before ++ [x]) rest) as [Hlen Hr]; [by rewrite length_app, Hi, Nat.add_1_r|done|].
  split; [cbn; by rewrite Hlen|]. intros [|p] ia Hp.
  - injection Hp as <-. cbn [index_in_transaction index_in_callee]. split; [done|].
    destruct (position _ before) as [j|] eqn:Ep; cbn [default]; unfold id.
    + pose proof Ep as (y & Hy & E)%position_some. apply Nat.eqb_eq in E as ->.
      pose proof (lookup_lt_Some _ _ _ Hy) as Hlt. split; [lia|]. split; [by apply lookup_app_l_Some|].
      intros q Hq Hx. rewrite lookup_app_l in Hx by lia. pose proof (position_first _ _ _ _ _ Ep Hq Hx) as E.
      cbv beta in E. by rewrite Nat.eqb_refl in E.
    + split; [lia|]. split; [by apply list_lookup_middle|]. intros q Hq Hx.
      rewrite lookup_app_l in Hx by lia. pose proof (position_none _ _ _ _ Ep Hx) as E.
      cbv beta in E. by rewrite Nat.eqb_refl in E.
  - cbn in Hp. destruct (Hr p ia Hp) as (Hl & Hle & Hf). split; [done|]. split; [lia|].
    by rewrite <-app_assoc in Hf.
Qed.

Lemma message_listed message l ias n :
  message_accounts message 0 [] l = Ok ias -> (forall x, x ∈ l -> (x < n)%nat) ->
  well_listed n ias /\ length ias = length l.
Proof.
  intros Hm Hn. destruct (message_accounts_first _ 0 [] _ _ eq_refl Hm) as [Hlen Hr]. split; [|done]. split.
  - intros i ia Hi. destruct (Hr i ia Hi) as (Hl & _). apply Hn. by eapply list_elem_of_lookup_2.
  - intros i ia Hi. destruct (Hr i ia Hi) as (Hl & Hle & Hf). split; [done|]. pose proof Hf as [Hx _].
    cbn in Hx. destruct (lookup_lt_is_Some_2 ias (index_in_callee ia)) as [ja Hja].
    { rewrite Hlen. by eapply lookup_lt_Some. }
    destruct (Hr _ ja Hja) as (Hl' & _ & Hf'). assert (index_in_transaction ja = index_in_transaction ia) as E
      by congruence.
    exists ja. split_and!; try done. rewrite E in Hf'. by eapply first_at_unique.
  - intros i j ia ja Hi Hj <- <- Hx. destruct (Hr _ ia Hi) as (_ & _ & Hf), (Hr _ ja Hj) as (_ & _ & Hf').
    rewrite <-Hx in Hf'. by eapply first_at_unique.
Qed.

(** ** The current context *)

(** The stack is as before, and the last trace has grown. *)
Definition grown (tc tc' : TransactionContext) : Prop :=
  exists before t ext, instruction_trace tc = before ++ [t] /\
    instruction_trace tc' = before ++ [t ++ ext] /\
    instruction_stack tc' = instruction_stack tc /\ head (instruction_stack tc) = Some (length before).

Lemma grown_refl F f0 tc tc' :
  frames F f0 tc -> instruction_stack tc' = instruction_stack tc ->
  instruction_trace tc' = instruction_trace tc -> grown tc tc'.
Proof.
  intros (before & t & Ht & Hs & _) Hs' Ht'. exists before, t, []. rewrite app_nil_r. by rewrite Ht', Ht.
Qed.

Lemma grown_trans tc tc1 tc' : grown tc tc1 -> grown tc1 tc' -> grown tc tc'.
Proof.
  intros (before & t & ext & Ht & Ht1 & Hs1 & Hh) (before' & t' & ext' & Ht1' & Ht' & Hs' & Hh').
  rewrite Ht1 in Ht1'. apply app_inj_tail in Ht1' as [<- <-].
  exists before, t, (ext ++ ext'). rewrite app_assoc. split_and!; congruence.
Qed.

Lemma context_at_trace tc before t level :
  instruction_trace tc = before ++ [t] -> head (instruction_stack tc) = Some (length before) ->
  get_instruction_context_at tc level
  = (i ← (if (level =? 0)%nat then Ok 0%nat
          else ok_or (instruction_stack tc !! level) InstructionError.CallDepth);
     ok_or (t !! i) InstructionError.CallDepth).
Proof.
  intros Ht Hs. unfold get_instruction_context_at. rewrite Hs, Ht. cbn [ok_or mbind result_bind].
  destruct (if (level =? 0)%nat then _ else _) as [i| |]; try done. cbn [mbind result_bind].
  by rewrite lookup_app_r, Nat.sub_diag by done.
Qed.

Lemma grown_current tc tc' c :
  grown tc tc' -> get_current_instruction_context tc = Ok c ->
  get_current_instruction_context tc' = Ok c.
Proof.
  intros (before & t & ext & Ht & Ht' & Hs & Hh). unfold get_current_instruction_context,
    get_instruction_context_stack_height. rewrite Hs.
  destruct (length (instruction_stack tc)) as [|level]; [done|].
  rewrite (context_at_trace tc before t) by done.
  rewrite (context_at_trace tc' before (t ++ ext)) by congruence. rewrite Hs.
  intros H. apply result_bind_ok in H as (i & Hi & H). rewrite Hi. cbn [mbind result_bind].
  apply ok_or_ok in H. by rewrite (lookup_app_l_Some _ _ _ _ H).
Qed.

(** Entering a call: the context is recorded, before the push or by it, and is current. *)
Lemma enter_call F f0 ias pis data ic ic1 ic' :
  frames F f0 (transaction_context ic) ->
  let tc := transaction_context ic in
  let ctx := mkInstructionContext (InvokeContext.get_stack_height ic) pis ias data in
  ic1 = (if record_instruction_in_transaction_context_push (features ic) then ic
         else with_tc ic (TransactionContext.record_instruction ctx tc)) ->
  InvokeContext.push ias pis data ic1 = Ok ic' ->
  (exists pid, get_last_program_key ctx tc = Ok pid) /\
  get_current_instruction_context (transaction_context ic') = Ok ctx /\
  accounts (transaction_context ic') = accounts tc /\
  account_keys (transaction_context ic') = account_keys tc /\
  pre_accounts ic' = pre_accounts ic /\ features ic' = features ic /\
  exists before t, instruction_trace tc = before ++ [t] /\
    head (instruction_stack tc) = Some (length before) /\
    instruction_trace (transaction_context ic') = before ++ [t ++ [ctx]] /\
    instruction_stack (transaction_context ic') = instruction_stack tc ++ [length t].
Proof.
  intros Hfr tc ctx Hic1 H. pose proof Hfr as (before & t & Ht & Hs & _). fold tc in Ht, Hs.
  destruct (instruction_stack tc) as [|s0 st] eqn:Est; [done|].
  assert (transaction_context ic1 = tc /\ record_instruction_in_transaction_context_push (features ic) = true \/
    transaction_context ic1 = with_stack tc (s0 :: st) (before ++ [t ++ [ctx]]) /\
    record_instruction_in_transaction_context_push (features ic) = false) as Htc1.
  { rewrite Hic1. destruct (record_instruction_in_transaction_context_push _); [by left|right].
    split; [|done]. cbn [transaction_context with_tc]. unfold TransactionContext.record_instruction.
    by rewrite Est, Ht, push_last_app. }
  assert (pre_accounts ic1 = pre_accounts ic /\ features ic1 = features ic) as [Hp1 Hf1]
    by (rewrite Hic1; by case_match).
  assert (account_keys (transaction_context ic1) = account_keys tc /\
    accounts (transaction_context ic1) = accounts tc /\
    instruction_stack (transaction_context ic1) = s0 :: st) as (Hk1 & Ha1 & Hs1).
  { destruct Htc1 as [[-> _]|[-> _]]; [done|by rewrite <-Est]. }
  unfold InvokeContext.push, InvokeContext.get_stack_height, get_instruction_context_stack_height in H.
  rewrite Hs1, Hf1 in H. cbn [length Nat.eqb] in H.
  apply result_bind_ok in H as ([] & _ & H). apply result_bind_ok in H as (pi & Hpi & H).
  apply result_bind_ok in H as (pid & Hpid & H). apply result_bind_ok in H as (ic2 & H2 & H).
  assert (ic2 = ic1) as ->.
  { apply result_bind_ok in H2 as (b1 & _ & H2). apply result_bind_ok in H2 as (b2 & _ & H2).
    apply result_bind_ok in H2 as ([] & _ & H2). by injection H2 as <-. }
  apply result_bind_ok in H as (ks & _ & H). apply result_bind_ok in H as (ks' & _ & H).
  apply result_bind_ok in H as (tc' & Hpush & [= <-]). cbn [transaction_context with_tc].
  assert (tc' = with_stack (transaction_context ic1) ((s0 :: st) ++ [length t]) (before ++ [t ++ [ctx]])) as ->.
  { unfold TransactionContext.push in Hpush. rewrite Hs1 in Hpush. cbn [length Nat.eqb] in Hpush.
    destruct Htc1 as [[Htc1 Hr]|[Htc1 Hr]]; rewrite Hr in Hpush; rewrite Htc1 in *.
    - rewrite Ht, rev_app_distr in Hpush. cbn [rev app mbind result_bind] in Hpush. case_match; [done|].
      injection Hpush as <-. rewrite push_last_app. unfold ctx, InvokeContext.get_stack_height,
        get_instruction_context_stack_height. fold tc. by rewrite Est.
    - cbn [instruction_trace with_stack] in Hpush. rewrite rev_app_distr in Hpush.
      cbn [rev app mbind result_bind] in Hpush. case_match; [done|]. injection Hpush as <-.
      rewrite length_app. cbn [length]. by rewrite Nat.add_1_r. }
  split_and!; try done.
  - exists pid. unfold get_last_program_key, get_index_of_program_account_in_transaction.
    cbn [program_accounts ctx]. apply ok_or_ok in Hpi. rewrite <-head_rev_lookup, Hpi.
    cbn [ok_or mbind result_bind]. unfold get_key_of_account_at_index in *. by rewrite <-Hk1.
  - unfold get_current_instruction_context, get_instruction_context_stack_height.
    cbn [instruction_stack with_stack]. rewrite length_app. cbn [length].
    rewrite Nat.add_1_r, (context_at_trace _ before (t ++ [ctx])) by done. cbn [Nat.eqb].
    cbn [instruction_stack with_stack]. change (s0 :: st ++ [length t]) with ((s0 :: st) ++ [length t]).
    rewrite lookup_app_r by done. cbn [length]. rewrite Nat.sub_diag. cbn [lookup list_lookup ok_or mbind result_bind].
    by rewrite lookup_app_r, Nat.sub_diag by done.
  - by exists before, t.
Qed.
