(* ===== verification/Ledger.v ===== *)
(** * Ledgers kept by a program

    A quantity that is a sum over the accounts a program owns, such as the tokens in
    circulation of a mint, and that the code of the program keeps.  [Ledger] is what
    the code of the program promises to the runtime; the runtime's theorems are
    proved against it, and [TokenLedger] discharges it for the token program. *)

From Stdlib Require Import Strings.Byte.
From S2P Require Import Prelude Sdk Rent Program SystemInstruction Transaction SerializationFacts ReadBack Runtime RuntimeSafety Loader LoaderFacts.

(** ** Sums over a store *)
Section keyed_sum.
Context (g : Pubkey -> Account -> Z).

Definition keyed_sum (v : view) : Z := map_fold (fun k a s => g k a + s) 0 v.

Lemma keyed_sum_insert v k a : v !! k = None -> keyed_sum (<[k := a]> v) = g k a + keyed_sum v.
Proof. intros Hk. unfold keyed_sum. rewrite map_fold_insert_L; [done|intros; lia|done]. Qed.

Lemma keyed_sum_union v w : v ##ₘ w -> keyed_sum (v ∪ w) = keyed_sum v + keyed_sum w.
Proof.
  induction v as [|k a v Hk IH] using map_ind; intros Hd.
  { rewrite (left_id_L ∅ (∪)). done. }
  apply map_disjoint_insert_l in Hd as [Hw Hd]. rewrite <-insert_union_l, !keyed_sum_insert, IH;
    [lia|done|done|]. apply lookup_union_None. done.
Qed.

(** Stores with equal contributions have equal sums. *)
Lemma keyed_sum_ext v w :
  (forall k, match v !! k, w !! k with
             | Some a, Some b => g k a = g k b
             | None, None => True
             | _, _ => False
             end) -> keyed_sum v = keyed_sum w.
Proof.
  revert w. induction v as [|k a v Hk IH] using map_ind; intros w Hw.
  { assert (w = ∅) as ->; [|done]. apply map_eq. intros k. specialize (Hw k).
    rewrite lookup_empty in *. by destruct (w !! k). }
  pose proof (Hw k) as Hwk. rewrite lookup_insert_eq in Hwk.
  destruct (w !! k) as [b|] eqn:Eb; [|done].
  rewrite keyed_sum_insert by done. rewrite <-(insert_delete_id w k b) by done.
  rewrite keyed_sum_insert by apply lookup_delete_eq. rewrite Hwk. f_equal.
  apply IH. intros j. specialize (Hw j). destruct (decide (j = k)) as [->|Hne].
  - by rewrite Hk, lookup_delete_eq.
  - by rewrite lookup_insert_ne in Hw by done; rewrite lookup_delete_ne by done.
Qed.

(** Replacing a part of a store. *)
Lemma keyed_sum_replace v v' m :
  v ⊆ m -> dom v' = dom v -> keyed_sum (v' ∪ m) = keyed_sum m + keyed_sum v' - keyed_sum v.
Proof.
  intros Hsub Hdom. assert (m = v ∪ (m ∖ v)) as Hm by (symmetry; by apply map_difference_union).
  assert (v' ##ₘ m ∖ v) as Hd.
  { apply map_disjoint_dom. rewrite Hdom, dom_difference. set_solver. }
  assert (v' ∪ m = v' ∪ (m ∖ v)) as ->.
  { apply map_eq. intros k. rewrite !lookup_union, lookup_difference.
    destruct (v' !! k) as [a|] eqn:E; [by destruct (m !! k), (v !! k)|].
    assert (v !! k = None) as ->; [|done]. apply not_elem_of_dom. rewrite <-Hdom. by apply not_elem_of_dom. }
  rewrite keyed_sum_union by done. rewrite Hm at 2. rewrite keyed_sum_union; [lia|].
  apply map_disjoint_dom. rewrite dom_difference. set_solver.
Qed.

End keyed_sum.

(** ** What the program promises *)

(** A store whose cells are typed, and well formed where the program owns them. *)
Definition ledger_store (T : Pubkey) (wf : Account -> Prop) (v : view) : Prop :=
  forall k a, v !! k = Some a -> account_typed a /\ (acc_owner a = T -> wf a).

(** A cell keeps the length of its data, and its balance stays a [u64]. *)
Definition cells_kept (v v' : view) : Prop :=
  forall k a, v !! k = Some a -> exists a', v' !! k = Some a' /\
    length (acc_data a') = length (acc_data a) /\ is_u64 (acc_lamports a').

(** The code [code] of the program [T] keeps the sum of [g] over its accounts, as long as
    it writes to no other account, and keeps them well formed. *)
Class Ledger (T : Pubkey) (code : contract) (g : Pubkey -> Account -> Z) (wf : Account -> Prop)
    : Prop := {
  ledger_data k a b : acc_owner a = acc_owner b -> acc_data a = acc_data b ->
    g k a = g k b /\ (wf a -> wf b);
  ledger_foreign k a : acc_owner a <> T -> g k a = 0;
  ledger_zero k a : all_zero (acc_data a) = true -> g k a = 0 /\ wf a;
  ledger_no_calls infos data v : ledger_store T wf v ->
    match code T infos data v with TCpi _ _ _ _ _ => False | _ => True end;
  ledger_cells infos data v v' : ledger_store T wf v ->
    code T infos data v = TOk tt v' -> dom v' = dom v /\ cells_kept v v';
  ledger_keeps infos data v v' : ledger_store T wf v -> code T infos data v = TOk tt v' ->
    (forall k a a', v !! k = Some a -> v' !! k = Some a' -> acc_owner a <> T ->
       acc_data a' = acc_data a) ->
    keyed_sum g v' = keyed_sum g v /\
    (forall k a, v' !! k = Some a -> acc_owner a = T -> wf a)
}.

Section ledger.
Context (T : Pubkey) (code : contract) (g : Pubkey -> Account -> Z) (wf : Account -> Prop).
Context `{!Ledger T code g wf}.

(** The accounts of the program in a store are well formed. *)
Definition owned_wf (m : view) : Prop :=
  forall k a, m !! k = Some a -> acc_owner a = T -> wf a.

(** Another program cannot change the ledger. *)
Lemma permitted_foreign pid w k a a' :
  pid <> T -> permitted pid w a a' ->
  g k a' = g k a /\ ((acc_owner a = T -> wf a) -> acc_owner a' = T -> wf a').
Proof.
  intros Hp [Ho _ _ Hd _ _]. destruct (decide (acc_owner a' = acc_owner a)) as [He|He].
  - destruct (decide (acc_owner a = T)) as [Ht|Ht].
    + assert (acc_data a' = acc_data a) as Hda.
      { destruct (decide (acc_data a' = acc_data a)); [done|]. destruct Hd as [Hd _]; congruence. }
      destruct (ledger_data k a' a He Hda) as [Hg _].
      destruct (ledger_data k a a' (eq_sym He) (eq_sym Hda)) as [_ Hw]. auto.
    + rewrite !ledger_foreign by congruence. split; [done|congruence].
  - destruct (Ho He) as (_ & _ & Hpid & Hz). destruct (ledger_zero k a' Hz) as [Hg Hw].
    rewrite Hg, ledger_foreign by congruence. done.
Qed.

(** A step of the program itself on the part [v] of the store [m]. *)
Lemma ledger_step infos data m m' v v' :
  ledger_store T wf v -> v ⊆ m -> code T infos data v = TOk tt v' -> owned_wf m ->
  (forall k, match v !! k with
             | Some a => exists a' b, v' !! k = Some a' /\ m' !! k = Some b /\
                 acc_owner b = acc_owner a' /\ acc_data b = acc_data a' /\
                 (acc_owner a <> T -> acc_data b = acc_data a)
             | None => m' !! k = m !! k
             end) ->
  keyed_sum g m' = keyed_sum g m /\ owned_wf m'.
Proof.
  intros Hv Hsub Hrun Hm Hk. destruct (ledger_cells _ _ _ _ Hv Hrun) as [Hdom _].
  destruct (ledger_keeps infos data v v' Hv Hrun) as [Hsum Hwf'].
  { intros k a a' Ha Ha' Ho. specialize (Hk k). rewrite Ha in Hk.
    destruct Hk as (a'' & b & Ha'' & _ & _ & Hd & He). specialize (He Ho). congruence. }
  set (w := m' ∩ v). assert (forall k, w !! k = match v !! k with Some _ => m' !! k | None => None end) as Hw.
  { intros k. unfold w. rewrite lookup_intersection. specialize (Hk k).
    destruct (v !! k); [|by destruct (m' !! k)]. destruct Hk as (? & b & _ & Hb & _). by rewrite Hb. }
  clearbody w. assert (dom w = dom v) as Hdw.
  { apply set_eq. intros k. rewrite !elem_of_dom, Hw. specialize (Hk k). unfold is_Some.
    destruct (v !! k); [|naive_solver]. destruct Hk as (? & b & _ & Hb & _). rewrite Hb. naive_solver. }
  assert (m' = w ∪ m) as Hm'.
  { apply map_eq. intros k. rewrite lookup_union, Hw. specialize (Hk k).
    destruct (v !! k) as [a|] eqn:Ea; [|rewrite Hk; by destruct (m !! k)].
    destruct Hk as (? & b & _ & Hb & _). rewrite Hb. by destruct (m !! k). }
  split.
  - rewrite Hm', (keyed_sum_replace g v w m) by done. rewrite (keyed_sum_ext g w v'); [lia|].
    intros k. rewrite Hw. specialize (Hk k). destruct (v !! k) as [a|] eqn:Ea.
    + destruct Hk as (a' & b & Ha' & Hb & Ho & Hd & _). rewrite Ha', Hb.
      by destruct (ledger_data k b a' Ho Hd).
    + assert (v' !! k = None) as ->; [|done]. apply not_elem_of_dom. rewrite Hdom. by apply not_elem_of_dom.
  - intros k b Hb Ho. specialize (Hk k). destruct (v !! k) as [a|] eqn:Ea.
    + destruct Hk as (a' & b' & Ha' & Hb' & Ho' & Hd' & _). assert (b' = b) as -> by congruence.
      destruct (ledger_data k a' b (eq_sym Ho') (eq_sym Hd')) as [_ Hwb]. apply Hwb.
      eapply Hwf'; [exact Ha'|congruence].
    + rewrite Hk in Hb. by eapply Hm.
Qed.

End ledger.
