(* ===== verification/LedgerSafety.v ===== *)
(** * No message breaks a ledger

    Whatever programs a message runs, nested calls included: a ledger that the code of
    a program keeps ([Ledger]) is kept by the whole message.  The runtime checks every
    change before and after each call, so that other programs cannot touch the
    accounts of the ledger, and the program itself runs on accounts the runtime has
    just checked. *)

From Stdlib Require Import Strings.Byte.
From S2P Require Import Prelude Sdk Rent Program SystemInstruction Transaction Serialization SerializationFacts ReadBack Runtime RuntimeSafety Message MessageProcessor MessageSafety Loader LoaderFacts CallContexts Ledger.

(** ** The accounts the runtime has checked *)
Definition checked_accounts (pre : list PreAccount) : view :=
  list_to_map ((fun p => (pre_key p, pre_account p)) <$> pre).

Lemma checked_accounts_cons p pre :
  checked_accounts (p :: pre) = <[pre_key p := pre_account p]> (checked_accounts pre).
Proof. done. Qed.

Lemma alter_const_insert (m : view) k j a post :
  alter (fun _ => post) k (<[j := a]> m)
  = if decide (j = k) then <[j := post]> m else <[j := a]> (alter (fun _ => post) k m).
Proof. case_decide; subst; [by rewrite alter_insert_eq|by rewrite alter_insert_ne]. Qed.

Lemma update_matching_map ic pid k post w pre ps qs m pre' ps' qs' m' :
  InvokeContext.update_matching ic pid k post w pre ps qs m = Ok (pre', ps', qs', m') ->
  checked_accounts pre' = alter (fun _ => post) k (checked_accounts pre) /\
  (forall a, checked_accounts pre !! k = Some a -> permitted pid w a post) /\
  pre_key <$> pre' = pre_key <$> pre.
Proof.
  revert pre'. induction pre as [|p pre IH]; intros pre' H; cbn in H.
  { injection H as <- <- <- <-. by split_and!. }
  destruct (key_eqb k (pre_key p)) eqn:Ek.
  - apply key_eqb_eq in Ek as ->. apply result_bind_ok in H as ([] & Hv & H).
    apply verify_permitted in Hv. apply result_bind_ok in H as (x & _ & H).
    apply result_bind_ok in H as (y & _ & H). apply result_bind_ok in H as (m1 & _ & H).
    injection H as <- <- <- <-. match goal with |- checked_accounts (?x :: pre) = _ /\ _ => set (p' := x) end.
    assert (pre_key p' = pre_key p) as Hk by (unfold p'; by case_match).
    assert (pre_account p' = post) as Ha by (by apply (update_is_post _ pid)).
    rewrite !checked_accounts_cons, Hk, Ha, alter_const_insert, decide_True by done.
    split_and!; [done| |by rewrite !fmap_cons, Hk].
    intros a. rewrite lookup_insert_eq. by intros [= <-].
  - apply key_eqb_neq in Ek. apply result_bind_ok in H as ([[[pre1 ps1] qs1] m1] & H1 & H).
    injection H as <- <- <- <-. destruct (IH pre1 H1) as (Hm & Hp & Hk).
    rewrite !checked_accounts_cons, alter_const_insert, decide_False, Hm by congruence.
    split_and!; [done| |by rewrite !fmap_cons, Hk].
    intros a. rewrite lookup_insert_ne by congruence. apply Hp.
Qed.

(** Some account of [l] has the key [k]. *)
Definition names (K : list Pubkey) (l : list InstructionAccount) (k : Pubkey) : Prop :=
  Exists (fun ia => K !! index_in_transaction ia = Some k) l.

(** The checked accounts [m] after a check of the accounts [l] against [accs]. *)
Record rechecked (K : list Pubkey) (accs : list Account) (pid : Pubkey) (l : list InstructionAccount)
    (m m' : view) : Prop := {
  rc_dom : dom m' = dom m;
  rc_step k a a' : m !! k = Some a -> m' !! k = Some a' -> a' = a \/ exists w, permitted pid w a a';
  rc_named ia k a' : ia ∈ l -> K !! index_in_transaction ia = Some k -> m' !! k = Some a' ->
    accs !! index_in_transaction ia = Some a';
  rc_other k : ~ names K l k -> m' !! k = m !! k
}.

Lemma rechecked_nil K accs pid m : rechecked K accs pid [] m m.
Proof.
  split; try done.
  - intros k a a' Ha Ha'. left. congruence.
  - intros ia k a' Hin. by apply not_elem_of_nil in Hin.
Qed.

Lemma rechecked_cons K accs pid ia l m m1 m' :
  Forall (fun ib => first_position K (index_in_transaction ib)) (ia :: l) ->
  rechecked K accs pid [ia] m m1 -> rechecked K accs pid l m1 m' ->
  rechecked K accs pid (ia :: l) m m'.
Proof.
  intros [HKa HKl]%Forall_cons_1 [D1 S1 N1 O1] [D2 S2 N2 O2].
  assert (forall k a', K !! index_in_transaction ia = Some k -> m' !! k = Some a' -> m1 !! k = Some a')
    as Hkeep.
  { intros k a' Hk Ha'. destruct (decide (names K l k)) as [Hn|Hn]; [|by rewrite <-O2].
    apply Exists_exists in Hn as (ib & Hin & Hkb). rewrite Forall_forall in HKl.
    assert (index_in_transaction ib = index_in_transaction ia) as He
      by (eapply first_position_unique; [by apply HKl|done..]).
    apply list_elem_of_In in Hin.
    specialize (N2 ib k a' Hin Hkb Ha'). rewrite He in N2.
    assert (is_Some (m1 !! k)) as [a1 Ha1].
    { apply elem_of_dom. rewrite <-D2. by apply elem_of_dom_2 in Ha'. }
    rewrite Ha1. rewrite <-N2. symmetry. eapply N1; [by left|done..]. }
  split.
  - congruence.
  - intros k a a' Ha Ha'. destruct (decide (K !! index_in_transaction ia = Some k)) as [Hk|Hk].
    + eapply S1; [done|]. by apply Hkeep.
    + eapply S2; [|done]. rewrite O1; [done|]. unfold names. by rewrite Exists_cons, Exists_nil; intros [?|?].
  - intros ib k a' Hin Hk Ha'. apply elem_of_cons in Hin as [->|Hin]; [|by eapply N2].
    eapply N1; [by left|done|]. by apply Hkeep.
  - intros k Hn. unfold names in Hn. rewrite Exists_cons in Hn.
    rewrite O2, O1; [done|..]; unfold names; rewrite ?Exists_cons, ?Exists_nil; tauto.
Qed.

Lemma rechecked_one K accs pid w ia k post m :
  K !! index_in_transaction ia = Some k -> accs !! index_in_transaction ia = Some post ->
  (forall a, m !! k = Some a -> permitted pid w a post) ->
  rechecked K accs pid [ia] m (alter (fun _ => post) k m).
Proof.
  intros Hk Ha Hp. split.
  - apply dom_alter_L.
  - intros k' a a' Hm Hm'. rewrite lookup_alter in Hm'. case_decide as E; [subst|left; congruence].
    rewrite Hm in Hm'. injection Hm' as <-. right. eauto.
  - intros ib k' a' Hin Hk' Hm'. apply list_elem_of_singleton in Hin as ->.
    assert (k' = k) as -> by congruence. rewrite lookup_alter_eq in Hm'.
    destruct (m !! k); [|done]. cbn in Hm'. congruence.
  - intros k' Hn. rewrite lookup_alter_ne; [done|]. intros <-. apply Hn. by constructor.
Qed.

Lemma update_loop_map K ic pid caller b l pre ps qs m pre' ps' qs' m' :
  let tc := transaction_context ic in
  Forall (fun ia => first_position K (index_in_transaction ia)) l ->
  account_keys tc = K -> length (accounts tc) = length K ->
  InvokeContext.update_loop ic pid caller b l pre ps qs m = Ok (pre', ps', qs', m') ->
  rechecked K (accounts tc) pid l (checked_accounts pre) (checked_accounts pre').
Proof.
  intros tc HK Hk Hlen. revert pre ps qs m. induction l as [|ia l IH]; intros pre ps qs m H;
    cbn [InvokeContext.update_loop] in H; [|pose proof HK as [_ HKl]%Forall_cons_1].
  { injection H as <- <- <- <-. apply rechecked_nil. }
  apply result_bind_ok in H as ([[[pre1 ps1] qs1] m1] & H1 & H). fold tc in H1.
  apply (rechecked_cons _ _ _ _ _ _ (checked_accounts pre1)); [done| |by eapply IH].
  destruct (_ <? _)%nat eqn:Elt.
  - apply result_bind_ok in H1 as (k & Hkey & H1). apply result_bind_ok in H1 as (post & Hpost & H1).
    apply result_bind_ok in H1 as (w & _ & H1). apply ok_or_ok in Hkey, Hpost. rewrite Hk in Hkey.
    apply update_matching_map in H1 as (-> & Hp & _). by eapply rechecked_one.
  - injection H1 as <- <- <- <-. apply Nat.ltb_ge in Elt.
    destruct (rechecked_nil K (accounts tc) pid (checked_accounts pre)) as [D S N O]. split; try done.
    intros ib k a' Hin Hkey. apply list_elem_of_singleton in Hin as ->.
    apply lookup_lt_Some in Hkey. lia.
Qed.

Lemma verify_and_update_map K ias b ic ic' pid c :
  let tc := transaction_context ic in
  Forall (fun ia => first_position K (index_in_transaction ia)) ias ->
  account_keys tc = K -> length (accounts tc) = length K ->
  get_current_instruction_context tc = Ok c -> get_last_program_key c tc = Ok pid ->
  InvokeContext.verify_and_update ias b ic = Ok ic' ->
  transaction_context ic' = tc /\
  rechecked K (accounts tc) pid (first_occurrences 0 ias) (checked_accounts (pre_accounts ic))
    (checked_accounts (pre_accounts ic')).
Proof.
  intros tc HK Hk Hlen Hc Hpid H. unfold InvokeContext.verify_and_update in H. fold tc in H.
  rewrite Hc in H. cbn [mbind result_bind] in H. rewrite Hpid in H. cbn [mbind result_bind map_err] in H.
  apply result_bind_ok in H as ([[[pre ps] qs] m] & Hl & H).
  apply result_bind_ok in H as ([] & _ & [= <-]). split; [done|].
  eapply update_loop_map; [by apply first_occurrences_Forall|done..].
Qed.

(** ** A check of accounts keeps the ledger *)
Lemma first_occurrences_elem ia n ias :
  ia ∈ first_occurrences n ias <-> exists i, ias !! i = Some ia /\ index_in_callee ia = (n + i)%nat.
Proof.
  revert n. induction ias as [|x ias IH]; intros n; cbn [first_occurrences].
  { split; [intros H; by apply not_elem_of_nil in H|by intros (i & Hi & _)]. }
  assert (ia ∈ first_occurrences (S n) ias <->
    exists i, (x :: ias) !! S i = Some ia /\ index_in_callee ia = (n + S i)%nat) as IH'.
  { rewrite IH. split; intros (i & Hi & He); exists i; (split; [done|lia]). }
  destruct (Nat.eqb_spec n (index_in_callee x)) as [E|E].
  - rewrite elem_of_cons, IH'. split.
    + intros [->|(i & ?)]; [exists 0%nat; split; [done|lia]|by exists (S i)].
    + intros ([|i] & Hi & He); [left; by injection Hi|right; eauto].
  - rewrite IH'. split; [intros (i & ?); by exists (S i)|].
    intros ([|i] & Hi & He); [|eauto]. injection Hi as ->. lia.
Qed.

Section ledger.
Context (T : Pubkey) (code : contract) (g : Pubkey -> Account -> Z) (wf : Account -> Prop).
Context `{!Ledger T code g wf}.

Lemma rechecked_foreign K accs pid l m m' :
  pid <> T -> rechecked K accs pid l m m' -> owned_wf T wf m ->
  keyed_sum g m' = keyed_sum g m /\ owned_wf T wf m'.
Proof.
  intros Hp [Hd Hs _ _] Hm.
  assert (forall k, is_Some (m' !! k) <-> is_Some (m !! k)) as Hdom.
  { intros k. rewrite <-!elem_of_dom. by rewrite Hd. }
  assert (forall k a a', m !! k = Some a -> m' !! k = Some a' ->
    g k a' = g k a /\ ((acc_owner a = T -> wf a) -> acc_owner a' = T -> wf a')) as Hk.
  { intros k a a' Ha Ha'. destruct (Hs k a a' Ha Ha') as [->|[w Hw]]; [done|].
    by eapply permitted_foreign. }
  split.
  - apply keyed_sum_ext. intros k. specialize (Hdom k).
    destruct (m' !! k) as [a'|] eqn:Ha', (m !! k) as [a|] eqn:Ha; [|naive_solver..].
    by destruct (Hk k a a' Ha Ha').
  - intros k a' Ha' Ho. destruct (proj1 (Hdom k)) as [a Ha]; [by eexists|].
    destruct (Hk k a a' Ha Ha') as [_ Hw]. apply Hw; [|done]. intros E. by apply (Hm k a).
Qed.

(** A successful run of the program itself. *)
Section own.
Context `{Crypto} `{LoaderBincode}.
Variable call : list byte -> list InstructionAccount -> list nat -> InvokeContext ->
  result InstructionError InvokeContext.
Variables (feats : Features) (K : list Pubkey) (ic ic' : InvokeContext) (c : InstructionContext) (m : view).
Let tc := transaction_context ic.
Hypothesis HK : account_keys tc = K.
Hypothesis Hc : get_current_instruction_context tc = Ok c.
Hypothesis Hpid : get_last_program_key c tc = Ok T.
Hypothesis Hrun : runnable tc c.
Hypothesis Hty : Forall account_typed (accounts tc).
Hypothesis Hsync : forall i k a, occurs tc c i k a -> m !! k = Some a.
Hypothesis Hm : owned_wf T wf m.
Hypothesis Hexec : exec call (execute feats code) ic = Ok ic'.

Lemma own_run : exists infos v v',
  (forall k a, v !! k = Some a <-> exists i, occurs tc c i k a) /\ ledger_store T wf v /\
  code T infos (instruction_data c) v = TOk tt v' /\ left_by ic c v' ic'.
Proof.
  destruct (execute_outcome call feats code ic c Hc Hrun) as (k & infos & v & Hk & _ & _ & Hv & Hout).
  fold tc in Hk, Hv, Hout. assert (k = T) as -> by congruence.
  assert (ledger_store T wf v) as Hst.
  { intros k a Ha. apply Hv in Ha as [i Ho]. split; [|by apply (Hm k), (Hsync i)].
    destruct Ho as (ia & _ & _ & _ & Ha). by eapply Forall_lookup_1, Ha. }
  pose proof (ledger_no_calls infos (instruction_data c) v Hst) as Hnc.
  destruct (code T infos (instruction_data c) v) as [[] v'|e| |] eqn:Hcode;
    [|rewrite Hout in Hexec; done..|done].
  destruct (ledger_cells _ _ _ _ Hst Hcode) as [Hdom Hkept].
  destruct Hout as (ic1 & He1 & Hleft).
  { intros i k a Ho. assert (v !! k = Some a) as Ha by (apply Hv; by exists i).
    destruct (Hkept k a Ha) as (a' & -> & Hl & Hu). destruct (Hst k a Ha) as [(_ & _ & Hd) _].
    cbn [default]. unfold id. split_and!; [done|lia|lia]. }
  assert (ic1 = ic') as -> by congruence. by exists infos, v, v'.
Qed.

(** It leaves typed accounts. *)
Lemma own_typed :
  well_listed (length K) (instruction_accounts c) -> Forall account_typed (accounts (transaction_context ic')).
Proof.
  intros Hwl. destruct own_run as (infos & v & v' & Hv & Hst & Hcode & _ & Hleft & Hother). fold tc in Hother.
  destruct (ledger_cells _ _ _ _ Hst Hcode) as [Hdom Hkept].
  apply Forall_lookup_2. intros j b Hb.
  destruct (decide (Exists (fun ia => index_in_transaction ia = j) (instruction_accounts c))) as [Hin|Hin].
  - apply Exists_exists in Hin as (ia & Hin & Hj). apply list_elem_of_In, list_elem_of_lookup in Hin as [i Hi].
    destruct (wl_first _ _ Hwl _ _ Hi) as (_ & ja & Hja & Hcal & Hx).
    destruct (key_and_account tc c _ (rn_wf _ _ Hrun) (iw_indices _ _ (rn_wf _ _ Hrun) _ _ Hja))
      as (k & a & Hk & Ha & _).
    assert (occurs tc c (index_in_callee ia) k a) as Ho by (by exists ja).
    assert (v !! k = Some a) as Hva by (apply Hv; eauto).
    pose proof (Hleft _ _ _ _ Ho Hja) as Hb'. destruct (Hkept k a Hva) as (a' & Ha' & Hl & Hu).
    rewrite Ha', Hx, Hj, Hb in Hb'. injection Hb' as ->.
    destruct (Hst k a Hva) as [(_ & Hr & Hd) _]. split_and!; try done. cbn. lia.
  - rewrite Hother in Hb; [by eapply Forall_lookup_1, Hb|]. intros i ia Hi Hx. apply Hin, Exists_exists.
    exists ia. split; [|done]. by eapply list_elem_of_In, list_elem_of_lookup_2.
Qed.

(** A check of what it left keeps the ledger. *)
Lemma rechecked_own m' :
  rechecked K (accounts (transaction_context ic')) T (first_occurrences 0 (instruction_accounts c)) m m' ->
  keyed_sum g m' = keyed_sum g m /\ owned_wf T wf m'.
Proof.
  intros [Hrd Hrs Hrn Hro].
  destruct own_run as (infos & v & v' & Hv & Hst & Hcode & _ & Hleft & _).
  destruct (ledger_cells _ _ _ _ Hst Hcode) as [Hdom Hkept].
  eapply (ledger_step T code g wf infos (instruction_data c) m m' v v'); try done.
  - apply map_subseteq_spec. intros k a Ha. apply Hv in Ha as [i Ho]. by eapply Hsync.
  - intros k. destruct (v !! k) as [a|] eqn:Ha.
    + pose proof Ha as [i Ho]%Hv. destruct (Hkept k a Ha) as (a' & Ha' & _).
      assert (is_Some (m' !! k)) as [b Hb].
      { apply elem_of_dom. rewrite Hrd. apply elem_of_dom. exists a. by eapply Hsync. }
      exists a', b. pose proof Ho as (ia & Hia & Hi & Hik & _).
      assert (accounts (transaction_context ic') !! index_in_transaction ia = Some b) as Hb'.
      { eapply Hrn; [|rewrite <-HK; exact Hik|done]. apply first_occurrences_elem. by exists i. }
      rewrite (Hleft i k a ia Ho Hia), Ha' in Hb'. injection Hb' as <-. split_and!; try done.
      intros Hno. destruct (Hrs k a _ (Hsync _ _ _ Ho) Hb) as [E|[w Hp]]; [by rewrite E|].
      destruct (decide (acc_data (updated a (default a (Some a'))) = acc_data a)); [done|].
      destruct (permitted_data _ _ _ _ Hp) as [E _]; [done|]. congruence.
    + apply Hro. intros (ia & Hin & Hik)%Exists_exists. apply list_elem_of_In, first_occurrences_elem in Hin
        as (i & Hia & Hi). destruct (lookup_lt_is_Some_2 (accounts tc) (index_in_transaction ia)) as [a Ha'].
      { eapply iw_indices; [apply Hrun|exact Hia]. }
      assert (v !! k = Some a) as Hk'; [|congruence]. apply Hv. exists i, ia. rewrite HK. done.
Qed.

End own.
End ledger.

(** ** Programs *)

(** Where the loader, told that the accounts of the instruction start at [first], finds a
    program it may run with the current layout, the program the runtime runs is not one of
    the deprecated loader. *)
Definition located `{LoaderBincode} (c : InstructionContext) (first : nat) (tc : TransactionContext) : Prop :=
  forall n a off, program_account_index c first tc = Ok n -> account_at c n tc = Ok a ->
    acc_executable a = true -> check_loader_id (acc_owner a) = true ->
    program_data_offset c first a tc = Ok off -> acc_owner a <> bpf_loader_deprecated_id ->
    is_loader_deprecated c tc = Ok (false, tc).

(** An instruction the runtime has set up: its program [pid] is about to run. *)
Record set_up (tc : TransactionContext) (c : InstructionContext) (pid : Pubkey) : Prop := {
  su_current : get_current_instruction_context tc = Ok c;
  su_program : get_last_program_key c tc = Ok pid;
  su_listed : well_listed (length (account_keys tc)) (instruction_accounts c);
  su_early : repeats_early (instruction_accounts c);
  su_count : is_u64 (Z.of_nat (length (instruction_accounts c)));
  su_data : is_u64 (Z.of_nat (length (instruction_data c)));
  su_first i ia : instruction_accounts c !! i = Some ia ->
    first_position (account_keys tc) (index_in_transaction ia)
}.

Lemma last_key_same c tc tc' :
  account_keys tc' = account_keys tc -> get_last_program_key c tc' = get_last_program_key c tc.
Proof. intros E. unfold get_last_program_key, get_key_of_account_at_index. by rewrite E. Qed.

(** An instruction with at most 255 accounts repeats none too late. *)
Lemma few_early n ias :
  well_listed n ias -> (length ias <= 255)%nat ->
  repeats_early ias /\ is_u64 (Z.of_nat (length ias)).
Proof.
  intros Hwl Hn. split; [|unfold is_u64, U64_MAX; lia]. intros i ia Hia Hne.
  destruct (wl_first _ _ Hwl _ _ Hia) as [Hle _]. apply lookup_lt_Some in Hia. lia.
Qed.

(** Where every address occurs once, an instruction names every account. *)
Lemma distinct_set_up tc c pid :
  NoDup (account_keys tc) -> get_current_instruction_context tc = Ok c -> get_last_program_key c tc = Ok pid ->
  well_listed (length (account_keys tc)) (instruction_accounts c) ->
  (length (instruction_accounts c) <= 255)%nat -> is_u64 (Z.of_nat (length (instruction_data c))) ->
  set_up tc c pid.
Proof.
  intros Hd Hc Hp Hl Hn Hx. destruct (few_early _ _ Hl Hn). split; try done.
  intros i ia _. by apply sole_first, distinct_sole.
Qed.

Lemma set_up_grown tc tc' c pid :
  grown tc tc' -> account_keys tc' = account_keys tc -> set_up tc c pid -> set_up tc' c pid.
Proof.
  intros Hg Hk [Hc Hp Hl He Hn Hd Hf]. split; rewrite ?Hk; try done.
  - by eapply grown_current.
  - by rewrite (last_key_same _ tc).
Qed.

(** The transactions in which the program [pid] runs its instruction [c]. *)
Record ready (K : list Pubkey) (c : InstructionContext) (pid : Pubkey) (tc : TransactionContext) : Prop := {
  rd_keys : account_keys tc = K;
  rd_wf : context_wf tc;
  rd_typed : Forall account_typed (accounts tc);
  rd_set_up : set_up tc c pid
}.

Lemma ready_wf K c pid tc : ready K c pid tc -> instruction_wf tc c.
Proof.
  intros [HK Hlen Hty [Hc Hp Hwl He Hn Hd _]]. unfold context_wf in Hlen. split; try done.
  - eapply Forall_impl; [exact account_typed_wf|exact Hty].
  - intros i ia Hi. rewrite Hlen. by eapply wl_index.
  - intros i ia Hi. destruct (wl_first _ _ Hwl _ _ Hi) as (Hle & ja & Hja & Hcal & _). eauto.
  - unfold get_last_program_key in Hp. apply result_bind_ok in Hp as (j & Hj & Hp).
    apply ok_or_ok in Hj. unfold get_key_of_account_at_index in Hp. apply ok_or_ok in Hp.
    exists j. split; [done|]. rewrite Hlen. by eapply lookup_lt_Some.
Qed.

Lemma ready_runnable K c pid tc :
  ready K c pid tc -> is_loader_deprecated c tc = Ok (false, tc) -> runnable tc c.
Proof.
  intros Hr Hdep. split; [by eapply ready_wf|exact (su_first _ _ _ (rd_set_up _ _ _ _ Hr))|exact (wl_once _ _ (su_listed _ _ _ (rd_set_up _ _ _ _ Hr)))|done].
Qed.

(** Programs store and pass on typed accounts only, and their calls respect the limits
    on the number of accounts and the length of the data.  After a store or a call the
    transaction is only known to be [ready]. *)
Section disciplined.
Variables (K : list Pubkey) (c : InstructionContext) (pid : Pubkey).

Inductive disciplined (tc : TransactionContext) : program -> Prop :=
| disciplined_return : disciplined tc Return
| disciplined_abort e : disciplined tc (Abort_with e)
| disciplined_crash : disciplined tc Crash
| disciplined_access k : disciplined tc (k tc) -> disciplined tc (Access k)
| disciplined_store i a k :
    account_typed a -> (forall tc', ready K c pid tc' -> disciplined tc' k) ->
    disciplined tc (Store i a k)
| disciplined_invoke instruction signers written k :
    (length (ix_accounts instruction) <= 255)%nat ->
    is_u64 (Z.of_nat (length (ix_data instruction))) ->
    Forall (fun x : nat * Account => account_typed x.2) written ->
    (forall tc', ready K c pid tc' -> disciplined tc' k) ->
    disciplined tc (Invoke instruction signers written k).

End disciplined.

(** A built-in program all of whose runs are disciplined. *)
Definition well_behaved `{LoaderBincode} (p : nat -> program) : Prop :=
  forall first K c pid tc, ready K c pid tc -> located c first tc -> disciplined K c pid tc (p first).

(** A built-in runs the code [code] when the current program is [T]. *)
Definition runs `{Crypto} `{LoaderBincode} (feats : Features) (T : Pubkey) (code : contract)
    (p : nat -> program) : Prop :=
  forall first call ic ic' c,
    get_current_instruction_context (transaction_context ic) = Ok c ->
    get_last_program_key c (transaction_context ic) = Ok T ->
    located c first (transaction_context ic) ->
    exec call (p first) ic = Ok ic' ->
    is_loader_deprecated c (transaction_context ic) = Ok (false, transaction_context ic) /\
    exec call (execute feats code) ic = Ok ic'.

Lemma store_all_keeps l ic ic' :
  store_all l ic = Ok ic' ->
  instruction_stack (transaction_context ic') = instruction_stack (transaction_context ic) /\
  instruction_trace (transaction_context ic') = instruction_trace (transaction_context ic) /\
  pre_accounts ic' = pre_accounts ic /\
  (Forall (fun x : nat * Account => account_typed x.2) l ->
   Forall account_typed (accounts (transaction_context ic)) ->
   Forall account_typed (accounts (transaction_context ic'))).
Proof.
  revert ic. induction l as [|[i a] l IH]; intros ic H; cbn in H; [by simplify_eq|].
  apply result_bind_ok in H as (ic1 & H1 & H). destruct (IH _ H) as (Hs & Ht & Hp & Hty).
  apply store_account_inv in H1 as (c & ia & old & tc & _ & _ & _ & Htc & ->).
  cbn [transaction_context with_tc pre_accounts accounts with_accounts instruction_stack instruction_trace] in *.
  assert (instruction_stack tc = instruction_stack (transaction_context ic) /\
    instruction_trace tc = instruction_trace (transaction_context ic) /\
    accounts tc = accounts (transaction_context ic)) as (Es & Et & Ea).
  { by destruct Htc as [->| ->]. }
  split_and!; try congruence. intros Hl Ha. apply Forall_cons_1 in Hl as [Hx Hl]. apply Hty; [done|].
  rewrite Ea. by apply Forall_insert.
Qed.

(** Storing one account is storing a list of one. *)
Lemma store_one i a ic ic' : store_account i a ic = Ok ic' -> store_all [(i, a)] ic = Ok ic'.
Proof. intros H. cbn. by rewrite H. Qed.

(** An account loaded a second time that the loader would not run as a program of the
    second loader. *)
Definition harmless (a : Account) : Prop := acc_executable a = false \/ acc_owner a <> bpf_loader_id.

(** The accounts loaded for a program: those at the address of the program are its account,
    or, as the first of two, an account outside [J] that the loader would not run. *)
Definition placed (K : list Pubkey) (J : list nat) (A : list Account) (pis : list nat) : Prop :=
  forall i n j, head (rev pis) = Some i -> pis !! n = Some j -> K !! j = K !! i -> j = i \/
    (length pis = 2 /\ n = 0 /\ j ∉ J /\ forall a, A !! j = Some a -> harmless a)%nat.

Section found.
Context `{LoaderBincode}.

Lemma account_at_ok c i tc a :
  account_at c i tc = Ok a ->
  exists j, get_index_in_transaction c i = Ok j /\ accounts tc !! j = Some a.
Proof.
  unfold account_at, borrow_account_at, get_index_in_transaction. intros Ha.
  apply result_bind_ok in Ha as (b & Hb & Ha).
  destruct (i <? length (program_accounts c))%nat; apply result_bind_ok in Hb as (j & Hj & Hb);
    unfold try_borrow_account in Hb; destruct (accounts tc !! j) as [x|] eqn:E; try done;
    injection Hb as <-; cbn in Ha; rewrite E in Ha; injection Ha as <-; by exists j.
Qed.

(** The owner of the last program account decides on the layout. *)
Lemma last_owner c tc i a :
  head (rev (program_accounts c)) = Some i -> accounts tc !! i = Some a ->
  is_loader_deprecated c tc = Ok (key_eqb (acc_owner a) bpf_loader_deprecated_id, tc).
Proof.
  intros Hi Ha. unfold is_loader_deprecated, mbind, TxM_bind, reads, try_borrow_last_program_account, try_borrow_program_account.
  unfold get_index_of_program_account_in_transaction. rewrite <-head_rev_lookup, Hi. cbn.
  unfold try_borrow_account. rewrite Ha. cbn.
  unfold BorrowedAccount.get_owner, mbind, TxM_bind, BorrowedAccount.cell, reads. cbn. by rewrite Ha.
Qed.

(** An executable account the loader finds has the address of the running program; it is
    the account at [first], or the next one where the account at [first] has another address. *)
Lemma found_key c first tc pid n a :
  get_last_program_key c tc = Ok pid -> program_account_index c first tc = Ok n ->
  account_at c n tc = Ok a -> acc_executable a = true ->
  exists j, get_index_in_transaction c n = Ok j /\ accounts tc !! j = Some a /\
    account_keys tc !! j = Some pid /\
    (n = first \/ n = S first /\ exists j', get_index_in_transaction c first = Ok j' /\ account_keys tc !! j' <> Some pid).
Proof.
  intros Hp Hi Ha Hx. apply account_at_ok in Ha as Hj. destruct Hj as (j & Hj & Haj). exists j.
  unfold program_account_index in Hi. rewrite Hp in Hi. cbn [mbind result_bind] in Hi.
  apply result_bind_ok in Hi as (j1 & Hj1 & Hi). apply result_bind_ok in Hi as (k1 & Hk1 & Hi).
  apply ok_or_ok in Hk1. destruct (key_eqb k1 pid) eqn:E1.
  { apply key_eqb_eq in E1 as ->. injection Hi as <-. assert (j1 = j) as -> by congruence. eauto. }
  apply key_eqb_neq in E1.
  destruct (get_index_in_transaction c (S first)) as [j2| |] eqn:Hj2; cbn [mbind result_bind] in Hi;
    [destruct (get_key_of_account_at_index tc j2) as [k2| |] eqn:Hk2;
     [destruct (key_eqb k2 pid) eqn:E2|..]|..].
  1: { apply key_eqb_eq in E2 as ->. injection Hi as <-. assert (j2 = j) as -> by congruence.
       apply ok_or_ok in Hk2. split_and!; try done. right. split; [done|]. exists j1. split; [done|congruence]. }
  all: apply result_bind_ok in Hi as (a1 & Ha1 & Hi); apply result_bind_ok in Hi as ([] & Hen & [= <-]);
    assert (a1 = a) as -> by congruence; rewrite Hx in Hen; done.
Qed.

(** A program of the upgradeable loader is not the account of its own code. *)
Lemma own_code_refused c first tc a j off :
  (first < length (program_accounts c))%nat -> get_index_in_transaction c first = Ok j ->
  accounts tc !! j = Some a -> acc_owner a = bpf_loader_upgradeable_id ->
  program_data_offset c first a tc <> Ok off.
Proof.
  intros Hl Hj Ha Ho Hoff. unfold program_data_offset in Hoff. rewrite Ho, (proj2 (key_eqb_eq _ _) eq_refl), Hj in Hoff.
  cbn [mbind result_bind] in Hoff. apply result_bind_ok in Hoff as (k & _ & Hoff).
  apply result_bind_ok in Hoff as (st & Hst & Hoff). destruct st; try done.
  apply result_bind_ok in Hoff as ([] & _ & Hoff). unfold get_index_in_transaction in Hj.
  apply Nat.ltb_lt in Hl. rewrite Hl in Hj. unfold try_borrow_program_account in Hoff. rewrite Hj in Hoff.
  cbn [mbind result_bind] in Hoff. unfold try_borrow_account in Hoff. rewrite Ha in Hoff.
  cbn [mbind result_bind ba_index_in_transaction] in Hoff. rewrite Ha in Hoff. cbn [unwrap mbind result_bind] in Hoff.
  rewrite Hst in Hoff. done.
Qed.

Lemma chain_located K J A c tc pid r root first :
  account_keys tc = K -> placed K J A (program_accounts c) ->
  (forall j, j ∉ J -> accounts tc !! j = A !! j) -> get_last_program_key c tc = Ok pid ->
  program_accounts c !! 0%nat = Some r -> accounts tc !! r = Some root ->
  first = (if key_eqb (acc_owner root) native_loader_id then 1 else 0)%nat ->
  located c first tc.
Proof.
  intros HK Hpl Hout Hp Hr Hroot Hfirst n a off Hn Ha Hx Hl Hoff Hdep.
  destruct (found_key _ _ _ _ _ _ Hp Hn Ha Hx) as (j & Hj & Haj & Hkj & Hwhere). rewrite HK in Hkj, Hwhere.
  unfold get_last_program_key in Hp. apply result_bind_ok in Hp as (i & Hi & Hki). apply ok_or_ok in Hi, Hki.
  rewrite HK in Hki. pose proof Hi as Hi'. rewrite <-head_rev_lookup in Hi.
  set (pis := program_accounts c) in *. pose proof (lookup_lt_Some _ _ _ Hr) as Hlen.
  assert (first = 0 \/ first = 1 /\ acc_owner root = native_loader_id)%nat as Hf.
  { destruct (key_eqb _ _) eqn:E; [|by left]. apply key_eqb_eq in E. by right. }
  destruct (Nat.lt_ge_cases n (length pis)) as [Hlt|Hge].
  - unfold get_index_in_transaction in Hj. apply Nat.ltb_lt in Hlt as Hlt'. fold pis in Hj. rewrite Hlt' in Hj.
    apply ok_or_ok in Hj. fold pis in Hj.
    destruct (Hpl i n j Hi Hj) as [->|(Hl2 & -> & HjJ & Hh)]; [congruence|..].
    { rewrite (last_owner _ _ _ _ Hi Haj). by apply key_eqb_neq in Hdep as ->. }
    exfalso. rewrite Hout in Haj by done. destruct (Hh _ Haj) as [?|Ho]; [congruence|].
    rewrite <-Hout in Haj by done. unfold check_loader_id in Hl.
    apply key_eqb_neq in Hdep, Ho. rewrite Hdep, Ho in Hl. cbn in Hl. apply key_eqb_eq in Hl.
    destruct Hwhere as [<-|[? _]]; [|lia]. revert Hoff. eapply own_code_refused; [done| |done..].
    unfold get_index_in_transaction. fold pis. rewrite Hlt'. by apply ok_or_ok.
  - destruct (decide (first = 1 /\ length pis = 1)%nat) as [[-> Hl1]|Hother].
    + destruct Hf as [?|[_ Ho]]; [lia|]. rewrite Hl1 in Hi'. cbn in Hi'. assert (r = i) as -> by congruence.
      rewrite (last_owner _ _ _ _ Hi Hroot), Ho. reflexivity.
    + exfalso. destruct Hwhere as [->|[-> (j' & Hj' & Hk')]]; [destruct Hf as [?|[? _]]; lia|].
      assert (first = pred (length pis)) as E by (destruct Hf as [?|[? _]]; lia).
      unfold get_index_in_transaction in Hj'. fold pis in Hj'.
      rewrite (proj2 (Nat.ltb_lt _ _)) in Hj' by lia. apply ok_or_ok in Hj'. fold pis in Hj'. congruence.
Qed.

End found.

Section run.
Context `{Crypto} `{LoaderBincode}.
Context (T : Pubkey) (code : contract) (g : Pubkey -> Account -> Z) (wf : Account -> Prop).
Context `{!Ledger T code g wf}.
Variable feats : Features.
Variable builtin_programs : list (Pubkey * (nat -> program)).
Hypothesis Hdisc : forall entry, entry ∈ builtin_programs -> well_behaved entry.2.
Hypothesis Hcode : forall entry, entry ∈ builtin_programs -> runs feats T code entry.2.

Variables (K : list Pubkey) (J : list nat) (W : nat -> Prop) (P : Pubkey -> Prop).
Variables (A0 : list Account) (S0 : Z) (f0 : InstructionContext) (G0 : Z).
Hypothesis HJ : forall j, j ∈ J -> first_position K j.
Hypothesis Hcopies : forall j p a, j ∈ J -> p <> j -> is_Some (K !! j) -> K !! p = K !! j ->
  A0 !! p = Some a -> harmless a.
Hypothesis HA : length A0 = length K.
Hypothesis HJP : forall j k, j ∈ J -> K !! j = Some k -> P k.

(** The checked accounts keep the ledger, and all accounts are typed. *)
Record kept (ic : InvokeContext) : Prop := {
  kept_good : good K J W P A0 S0 f0 ic;
  kept_sum : keyed_sum g (checked_accounts (pre_accounts ic)) = G0;
  kept_wf : owned_wf T wf (checked_accounts (pre_accounts ic));
  kept_typed : Forall account_typed (accounts (transaction_context ic))
}.

Lemma kept_keys ic : kept ic -> account_keys (transaction_context ic) = K.
Proof. intros [[[] _] _ _ _]. done. Qed.

Lemma kept_length ic : kept ic -> length (accounts (transaction_context ic)) = length K.
Proof. intros [[[] _] _ _ _]. congruence. Qed.

Lemma kept_frames ic : kept ic -> frames (frame_ok K J W P) f0 (transaction_context ic).
Proof. by intros [[_ ?] _ _ _]. Qed.

(** Every account of [J] is checked. *)
Lemma kept_checked ic j k :
  kept ic -> j ∈ J -> K !! j = Some k -> is_Some (checked_accounts (pre_accounts ic) !! k).
Proof.
  intros [[[_ _ Hpre _ _] _] _ _ _] [n Hn]%list_elem_of_lookup Hk.
  destruct (Forall2_lookup_l _ _ _ _ _ Hpre Hn) as (p & Hp & Hkp & _).
  apply elem_of_dom. unfold checked_accounts. rewrite dom_list_to_map_L, elem_of_list_to_set.
  apply list_elem_of_fmap. exists (pre_key p, pre_account p). split; [cbn; congruence|].
  apply list_elem_of_fmap. exists p. split; [done|]. by eapply list_elem_of_lookup_2.
Qed.

(** What a call keeps, for a caller that is not the program of the ledger. *)
Definition call_kept (call : list byte -> list InstructionAccount -> list nat -> InvokeContext ->
    result InstructionError InvokeContext) : Prop :=
  forall data ias pis ic ic' c pid, kept ic ->
    get_current_instruction_context (transaction_context ic) = Ok c ->
    get_last_program_key c (transaction_context ic) = Ok pid -> pid <> T ->
    call_accounts c ias -> call_program K P pis -> placed K J A0 pis ->
    well_listed (length K) ias -> (length ias <= 255)%nat -> is_u64 (Z.of_nat (length data)) ->
    call data ias pis ic = Ok ic' ->
    kept ic' /\ grown (transaction_context ic) (transaction_context ic').

Lemma kept_context ic : kept ic -> context_wf (transaction_context ic).
Proof. intros Hk. unfold context_wf. by rewrite (kept_keys _ Hk), (kept_length _ Hk). Qed.

Lemma kept_ready ic tc c pid :
  kept ic -> account_keys tc = K -> grown tc (transaction_context ic) -> set_up tc c pid ->
  ready K c pid (transaction_context ic).
Proof.
  intros Hk HKt Hg Hsu. pose proof (kept_keys _ Hk). split; [done|by apply kept_context|apply Hk|].
  eapply set_up_grown; [exact Hg|congruence|done].
Qed.

Lemma prepare_length instruction signers ic ias pis :
  prepare_instruction instruction signers ic = Ok (ias, pis) -> (length pis <= 2)%nat.
Proof.
  intros Hp. unfold prepare_instruction, prepare_in in Hp. apply result_bind_ok in Hp as (c & _ & Hp).
  apply result_bind_ok in Hp as ([dedup indices] & _ & Hp). apply result_bind_ok in Hp as (us & _ & Hp).
  apply result_bind_ok in Hp as (ias' & _ & Hp). apply result_bind_ok in Hp as (pis' & Hpis & [= _ <-]).
  unfold program_accounts_of in Hpis. apply result_bind_ok in Hpis as (oi & _ & Hpis).
  apply result_bind_ok in Hpis as (i & _ & Hpis). apply result_bind_ok in Hpis as (b & _ & Hpis).
  apply result_bind_ok in Hpis as (a & _ & Hpis). apply result_bind_ok in Hpis as ([] & _ & Hpis).
  apply result_bind_ok in Hpis as (d & Hd & [= <-]). rewrite length_app. cbn.
  assert (length d <= 1)%nat; [|lia]. destruct (key_eqb _ _); [|by injection Hd as <-; cbn; lia].
  apply result_bind_ok in Hd as (st & _ & Hd). destruct st; try done.
  apply result_bind_ok in Hd as (j & _ & [= <-]). cbn. lia.
Qed.

(** The program of a call is an account of the caller. *)
Lemma prepare_placed instruction signers ic ias pis c :
  kept ic -> prepare_instruction instruction signers ic = Ok (ias, pis) ->
  get_current_instruction_context (transaction_context ic) = Ok c -> placed K J A0 pis.
Proof.
  intros Hk Hp Hc i n j Hi Hn Hkj. pose proof (prepare_length _ _ _ _ _ Hp) as Hlen.
  apply prepare_ok in Hp as (c' & Hc' & _ & m & ca & a & Hca & Hkca & _ & _ & Hpi).
  assert (c' = c) as -> by congruence. rewrite Hpi in Hi. injection Hi as <-.
  destruct (frames_current _ _ _ _ (kept_frames _ Hk) Hc) as [Hias _].
  destruct (Forall_lookup_1 _ _ _ _ Hias Hca) as [HiJ _]. rewrite (kept_keys _ Hk) in Hkca.
  destruct (decide (j = index_in_transaction ca)) as [|Hne]; [by left|]. right.
  assert (n <> pred (length pis)).
  { intros ->. rewrite <-head_rev_lookup in Hn. congruence. }
  pose proof (lookup_lt_Some _ _ _ Hn). split_and!; [lia|lia|..].
  - intros HjJ. destruct Hne. eapply first_position_unique; [by apply HJ|by apply HJ| |done]. congruence.
  - intros b Hb. by eapply Hcopies.
Qed.

Lemma store_all_kept l ic ic' :
  kept ic -> Forall (fun x : nat * Account => account_typed x.2) l -> store_all l ic = Ok ic' ->
  kept ic' /\ grown (transaction_context ic) (transaction_context ic').
Proof.
  intros Hk Hl Hs. destruct (store_all_keeps _ _ _ Hs) as (Es & Et & Ep & Hty).
  destruct (store_all_ok _ _ _ _ _ _ _ _ _ _ (kept_good _ Hk) Hs) as (Hg & _).
  split; [|eapply grown_refl; [by apply kept_frames|done..]].
  destruct Hk as [_ Hsum Hwf Hk]. split; rewrite ?Ep; auto.
Qed.

Lemma exec_kept call p ic ic' c pid :
  call_kept call -> disciplined K c pid (transaction_context ic) p -> kept ic ->
  set_up (transaction_context ic) c pid -> pid <> T ->
  exec call p ic = Ok ic' -> kept ic' /\ grown (transaction_context ic) (transaction_context ic').
Proof.
  intros Hcall Hp. remember (transaction_context ic) as tc eqn:Etc. revert ic Etc.
  induction Hp as [tc|tc e|tc|tc k Hk IH|tc i a k Ha Hk IH|tc ins signers written k Hn Hd Hw Hk IH];
    intros ic -> Hkept Hsu Hne He; cbn [exec] in He.
  - injection He as <-. split; [done|]. eapply grown_refl; [by apply kept_frames|done..].
  - done.
  - done.
  - by eapply IH.
  - apply result_bind_ok in He as (ic1 & H1 & He). apply store_one in H1.
    edestruct (store_all_kept [(i, a)]) as [Hk1 Hg1]; [exact Hkept|by apply Forall_singleton|exact H1|].
    assert (ready K c pid (transaction_context ic1)) as Hr1
      by (by apply (kept_ready _ (transaction_context ic)); [| apply kept_keys | |]).
    destruct (IH _ Hr1 ic1 eq_refl Hk1) as [Hk' Hg']; try done; [apply Hr1|].
    split; [done|by eapply grown_trans].
  - apply result_bind_ok in He as ([ias pis] & Hp & He). apply result_bind_ok in He as (ic1 & H1 & He).
    apply result_bind_ok in He as (ic2 & H2 & He). pose proof Hsu as [Hc _ _ _ _ _ _].
    destruct (store_all_kept _ _ _ Hkept Hw H1) as [Hk1 Hg1].
    destruct (prepare_call _ _ _ _ _ _ HJ HJP _ _ _ _ _ _ _ (kept_good _ Hkept) Hp Hc) as [Hca Hcp].
    pose proof (prepare_placed _ _ _ _ _ _ Hkept Hp Hc) as Hlast.
    destruct (prepare_listed _ _ (transaction_context ic) _ _ Hp) as [Hwl Hlen].
    rewrite (kept_keys _ Hkept) in Hwl.
    assert (set_up (transaction_context ic1) c pid) as Hsu1
      by (by apply (kept_ready _ (transaction_context ic)); [| apply kept_keys | |]).
    pose proof Hsu1 as [Hc1 Hpid1 _ _ _ _ _].
    edestruct Hcall as [Hk2 Hg2]; [exact Hk1|exact Hc1|exact Hpid1|done|exact Hca|exact Hcp|exact Hlast|done|lia|done|exact H2|].
    assert (ready K c pid (transaction_context ic2)) as Hr2
      by (by apply (kept_ready _ (transaction_context ic1)); [| apply kept_keys | |]).
    destruct (IH _ Hr2 ic2 eq_refl Hk2) as [Hk' Hg']; try done; [apply Hr2|].
    split; [done|]. eapply grown_trans; [|done]. by eapply grown_trans.
Qed.

(** *** Running one program *)

Lemma kept_return_data pid data ic :
  kept ic -> kept (with_tc ic (TransactionContext.set_return_data pid data (transaction_context ic))).
Proof. intros [[Hi Hf] Hs Hw Ht]. split; try done. by apply good_tc. Qed.

(** After the code of a program has run, a check of its accounts keeps the ledger. *)
Lemma chain_kept call ic ic' c pid :
  call_kept call -> call_spec K J W P A0 S0 f0 call -> kept ic -> set_up (transaction_context ic) c pid ->
  placed K J A0 (program_accounts c) ->
  (forall i k a, occurs (transaction_context ic) c i k a -> checked_accounts (pre_accounts ic) !! k = Some a) ->
  process_executable_chain builtin_programs call ic = Ok ic' ->
  good K J W P A0 S0 f0 ic' /\ Forall account_typed (accounts (transaction_context ic')) /\
  grown (transaction_context ic) (transaction_context ic') /\
  forall m', rechecked K (accounts (transaction_context ic')) pid
               (first_occurrences 0 (instruction_accounts c)) (checked_accounts (pre_accounts ic')) m' ->
    keyed_sum g m' = G0 /\ owned_wf T wf m'.
Proof.
  intros Hcall Hspec Hk Hsu Hpl Hsync Hch.
  destruct (chain_ok _ _ _ _ _ _ HJ HJP _ _ _ _ _ Hspec (kept_good _ Hk) Hch) as [Hg' _].
  unfold process_executable_chain in Hch.
  apply result_bind_ok in Hch as (c1 & Hc1 & Hch). apply result_bind_ok in Hch as (b & Hb & Hch).
  apply result_bind_ok in Hch as (root & Hroot & Hch). apply result_bind_ok in Hch as (rk & _ & Hch).
  rewrite (su_current _ _ _ Hsu) in Hc1. injection Hc1 as <-.
  apply map_err_ok, result_bind_ok in Hb as (r & Hr & Hb). apply ok_or_ok in Hr. apply unwrap_ok in Hroot.
  assert (ba_index_in_transaction b = r) as Hbr
    by (unfold try_borrow_account in Hb; destruct (accounts _ !! r); [by injection Hb as <-|done]).
  rewrite Hbr in Hroot. destruct (if key_eqb _ _ then _ else _) as [fi id] eqn:Efi.
  destruct (List.find _ _) as [entry|] eqn:Ef; [|done].
  apply List.find_some in Ef as [Hin _]. apply list_elem_of_In in Hin.
  apply result_bind_ok in Hch as (pid1 & _ & Hch). set (icr := with_tc ic _) in Hch.
  assert (kept icr) as Hkr by (by apply kept_return_data).
  assert (located c fi (transaction_context icr)) as Hloc.
  { eapply (chain_located K J A0); [by apply kept_keys|done|apply Hk|apply Hsu|exact Hr|exact Hroot|].
    by destruct (key_eqb _ _); injection Efi as <- <-. }
  destruct (decide (pid = T)) as [->|Hne].
  - pose proof Hsu as [Hc Hp Hwl _ _ _ _]. rewrite (kept_keys _ Hk) in Hwl.
    assert (set_up (transaction_context icr) c T) as Hsur by (by destruct Hsu).
    destruct (Hcode entry Hin fi call icr ic' c Hc Hp Hloc Hch) as [Hdep He].
    assert (runnable (transaction_context icr) c) as Hrun.
    { eapply ready_runnable; [|exact Hdep]. by split; [apply kept_keys|apply kept_context|apply Hkr|]. }
    pose proof (own_run T code g wf call feats icr ic' c (checked_accounts (pre_accounts ic)) Hc Hp Hrun
      (kept_typed _ Hkr) Hsync (kept_wf _ Hk) He) as (infos & v & v' & _ & _ & _ & Hf & _).
    split_and!; try done.
    + exact (own_typed T code g wf call feats K icr ic' c (checked_accounts (pre_accounts ic)) Hc Hp Hrun
        (kept_typed _ Hkr) Hsync (kept_wf _ Hk) He Hwl).
    + eapply grown_trans; [eapply (grown_refl _ _ _ (transaction_context icr)); [by apply kept_frames|done..]|].
      eapply grown_refl; [by apply kept_frames|apply Hf..].
    + intros m' Hre. rewrite (sf_pre _ _ Hf) in Hre. rewrite <-(kept_sum _ Hk).
      exact (rechecked_own T code g wf call feats K icr ic' c (checked_accounts (pre_accounts ic))
        (kept_keys _ Hkr) Hc Hp Hrun (kept_typed _ Hkr) Hsync (kept_wf _ Hk) He m' Hre).
  - destruct (exec_kept call (entry.2 fi) icr ic' c pid) as [Hk' Hg]; try done; [|by destruct Hsu|].
    { apply Hdisc; [done| |done]. split; [by apply kept_keys|by apply kept_context|apply Hkr|by destruct Hsu]. }
    split_and!; [done|apply Hk'|done|]. intros m' Hre. rewrite <-(kept_sum _ Hk').
    eapply (rechecked_foreign T code g wf); [exact Hne|exact Hre|exact (kept_wf _ Hk')].
Qed.

(** *** Nested calls *)

(** The context of a call keeps what the caller had. *)
Lemma entered_kept ias pis data ic ic1 ic' :
  kept ic -> Forall (fun ia => index_in_transaction ia ∈ J /\
    (ia_is_writable ia = true -> W (index_in_transaction ia))) ias ->
  call_program K P pis -> well_listed (length K) ias -> (length ias <= 255)%nat -> is_u64 (Z.of_nat (length data)) ->
  let ctx := mkInstructionContext (InvokeContext.get_stack_height ic) pis ias data in
  ic1 = (if record_instruction_in_transaction_context_push (features ic) then ic
         else with_tc ic (TransactionContext.record_instruction ctx (transaction_context ic))) ->
  InvokeContext.push ias pis data ic1 = Ok ic' ->
  kept ic' /\ pre_accounts ic' = pre_accounts ic /\
  accounts (transaction_context ic') = accounts (transaction_context ic) /\
  (exists pid, set_up (transaction_context ic') ctx pid) /\
  exists before t, instruction_trace (transaction_context ic) = before ++ [t] /\
    head (instruction_stack (transaction_context ic)) = Some (length before) /\
    instruction_trace (transaction_context ic') = before ++ [t ++ [ctx]].
Proof.
  intros Hk Hias Hpis Hwl Hn Hd ctx Hic1 Hp. destruct (few_early _ _ Hwl Hn) as [Hearly Hcount].
  destruct (enter_call _ _ _ _ _ _ _ _ (kept_frames _ Hk) Hic1 Hp)
    as ([pid Hpid] & Hc & Ha & Hkeys & Hpre & _ & before & t & Ht & Hh & Ht' & Hs').
  destruct Hk as [[[Ik Il Ip Is Io] Hfr] Hsum Hwf Hty].
  destruct Hfr as (before' & t' & Ht'' & Hh' & Hf0 & HF). rewrite Ht in Ht''.
  apply app_inj_tail in Ht'' as [<- <-]. fold ctx in Hc, Ht'. split_and!; try done.
  - split; rewrite ?Hpre, ?Ha; try done. split.
    + split; rewrite ?Hkeys, ?Ha, ?Hpre; done.
    + exists before, (t ++ [ctx]). split_and!; try done.
      * rewrite Hs'. by destruct (instruction_stack _).
      * by destruct t.
      * apply Forall_app. split; [done|]. constructor; [|done]. split; [done|].
        cbn. intros i k. rewrite <-head_rev_lookup. apply Hpis.
  - exists pid. split; rewrite ?Hkeys, ?Ik; try done.
    + by rewrite (last_key_same _ (transaction_context ic)).
    + intros i ia Hia. apply HJ. by destruct (Forall_lookup_1 _ _ _ _ Hias Hia).
  - by exists before, t.
Qed.

Lemma nested_kept fuel : call_kept (process_instruction builtin_programs fuel).
Proof.
  induction fuel as [|fuel IH]; intros data ias pis ic ic' c pid Hk Hc Hpid Hne Hca Hcp Hlast Hwl Hn Hd Hr; [done|].
  pose proof (nested_ok _ _ _ _ _ _ HJ HJP _ _ (S fuel) _ _ _ _ _ _ (kept_good _ Hk) Hc Hca Hcp Hr) as [Hg' Hs'].
  cbn [process_instruction] in Hr. pose proof (kept_frames _ Hk) as Hfr.
  destruct (InvokeContext.get_stack_height ic =? 0)%nat eqn:Eh.
  { apply Nat.eqb_eq, nil_length_inv in Eh. destruct Hfr as (? & ? & _ & Hs & _). by rewrite Eh in Hs. }
  pose proof (frames_current _ _ _ _ Hfr Hc) as Hfc.
  apply result_bind_ok in Hr as (ic1 & H1 & Hr). apply result_bind_ok in Hr as (ic2 & H2 & Hr).
  apply result_bind_ok in Hr as (ic3 & H3 & Hr). apply result_bind_ok in Hr as (ic4 & H4 & Hr).
  apply result_bind_ok in H1 as (icv & Hv & [= H1]).
  edestruct verify_and_update_ok as (Hgv & Htv & Hfv); [exact HJ|exact (kept_good _ Hk)| |exact Hv|].
  { intros c' Hc'. eapply (call_accounts_entry _ _ _ _ c); [done..|]. congruence. }
  pose proof (call_accounts_frame _ _ _ _ _ _ Hfc Hca) as Hias.
  assert (Forall (fun ia => first_position K (index_in_transaction ia)) ias) as Hfirst.
  { eapply Forall_impl; [|exact Hias]. intros ia [Hin _]. by apply HJ. }
  destruct (verify_and_update_map K ias true ic icv pid c Hfirst (kept_keys _ Hk) (kept_length _ Hk) Hc Hpid Hv)
    as [_ Hre].
  destruct (rechecked_foreign T code g wf _ _ _ _ _ _ Hne Hre (kept_wf _ Hk)) as [Hsv Hwv].
  assert (kept icv) as Hkv.
  { split; [done|by rewrite Hsv; apply Hk|done|rewrite Htv; apply Hk]. }
  destruct (entered_kept ias pis data icv ic1 ic2 Hkv Hias Hcp Hwl Hn Hd) as (Hk2 & Hp2 & Ha2 & [pid2 Hsu] & before & t & Htr & Hh & Htr2);
    [|done|].
  { rewrite <-H1. unfold InvokeContext.get_stack_height. by rewrite Htv. }
  set (ctx := mkInstructionContext _ _ _ _) in Hsu.
  edestruct (chain_kept (process_instruction builtin_programs fuel) ic2 ic3 ctx pid2 IH (nested_ok _ _ _ _ _ _ HJ HJP _ _ fuel) Hk2 Hsu Hlast) as (Hg3 & Hty3 & Hgr3 & Hl3);
    [|exact H3|].
  { intros i k a (ia & Hia & Hi & Hik & Ha). rewrite (kept_keys _ Hk2) in Hik. rewrite Hp2.
    destruct (kept_checked icv (index_in_transaction ia) k Hkv) as [a' Ha']; [|done|].
    { by destruct (Forall_lookup_1 _ _ _ _ Hias Hia). }
    rewrite Ha'. rewrite <-Ha, Ha2, Htv. symmetry. eapply rc_named; [exact Hre| |done..].
    apply first_occurrences_elem. by exists i. }
  edestruct verify_and_update_ok as (Hg4 & Ht4 & _); [exact HJ|exact Hg3| |exact H4|].
  { intros c' Hc'. by eapply (call_accounts_entry _ _ _ _ c). }
  destruct Hg3 as [[Ik3 Il3 _ _ _] _].
  destruct (verify_and_update_map K ias false ic3 ic4 pid2 ctx Hfirst Ik3) as [_ Hre4]; [congruence|..].
  { eapply grown_current; [exact Hgr3|apply Hsu]. }
  { rewrite (last_key_same _ (transaction_context ic2)); [apply Hsu|]. by rewrite (kept_keys _ Hk2). }
  { done. }
  destruct (Hl3 _ Hre4) as [Hs4 Hw4].
  unfold InvokeContext.pop, TransactionContext.pop in Hr. apply result_bind_ok in Hr as (tc' & Hpop & [= <-]).
  case_match; [done|]. injection Hpop as <-.
  split; [split; try done; cbn; by rewrite Ht4|].
  destruct Hgr3 as (before' & t' & ext & Htr2' & Htr3 & _ & _). rewrite Htr2 in Htr2'.
  apply app_inj_tail in Htr2' as [<- <-]. rewrite Htv in Htr, Hh.
  exists before, t, ([ctx] ++ ext). rewrite app_assoc. split_and!; try done. cbn. by rewrite Ht4.
Qed.

End run.

(** ** Top-level instructions *)

Lemma checked_lookup pre k a :
  checked_accounts pre !! k = Some a -> exists p, p ∈ pre /\ pre_key p = k /\ pre_account p = a.
Proof.
  intros H. apply elem_of_list_to_map_2, list_elem_of_fmap in H as (p & [= -> ->] & Hp). eauto.
Qed.

Lemma checked_dom K W P A0 J pre k :
  Forall2 (pre_ok K W P A0) J pre ->
  is_Some (checked_accounts pre !! k) <-> exists j, j ∈ J /\ K !! j = Some k.
Proof.
  intros HF. split.
  - intros [a (p & [n Hn]%list_elem_of_lookup & <- & _)%checked_lookup].
    destruct (Forall2_lookup_r _ _ _ _ _ HF Hn) as (j & Hj & Hk & _). exists j.
    split; [by eapply list_elem_of_lookup_2|done].
  - intros (j & [n Hn]%list_elem_of_lookup & Hk).
    destruct (Forall2_lookup_l _ _ _ _ _ HF Hn) as (p & Hp & Hkp & _).
    apply elem_of_dom. unfold checked_accounts. rewrite dom_list_to_map_L, elem_of_list_to_set.
    apply list_elem_of_fmap. exists (pre_key p, pre_account p). split; [cbn; congruence|].
    apply list_elem_of_fmap. exists p. split; [done|]. by eapply list_elem_of_lookup_2.
Qed.

(** The check at the end of a top-level instruction. *)
Lemma verify_rechecked W P A0 J ic pid ias ps qs m m0 :
  let tc := transaction_context ic in
  length (accounts tc) = length (account_keys tc) ->
  J = index_in_transaction <$> first_occurrences 0 ias -> (forall j, j ∈ J -> first_position (account_keys tc) j) ->
  Forall2 (pre_ok (account_keys tc) W P A0) J (pre_accounts ic) ->
  InvokeContext.verify_loop ic pid (first_occurrences 0 ias) (pre_accounts ic) 0 0 m0 = Ok (ps, qs, m) ->
  rechecked (account_keys tc) (accounts tc) pid (first_occurrences 0 ias)
    (checked_accounts (pre_accounts ic)) (all_accounts tc ∩ checked_accounts (pre_accounts ic)).
Proof.
  intros tc Hlen -> HK HF Hv. pose proof (Forall2_length HF) as Hl. rewrite length_fmap in Hl.
  apply verify_loop_ok in Hv as (_ & _ & Hperm); [|done]. fold tc in Hperm.
  set (l := first_occurrences 0 ias) in *. set (pre := pre_accounts ic) in *.
  assert (forall k, is_Some (checked_accounts pre !! k) <->
    exists ia, ia ∈ l /\ account_keys tc !! index_in_transaction ia = Some k) as Hdom.
  { intros k. rewrite checked_dom by done. split.
    - intros (j & (ia & -> & Hin)%list_elem_of_fmap & Hk). eauto.
    - intros (ia & Hin & Hk). exists (index_in_transaction ia). split; [|done].
      by apply list_elem_of_fmap_2. }
  assert (forall k b, (all_accounts tc ∩ checked_accounts pre) !! k = Some b <->
    is_Some (checked_accounts pre !! k) /\
    exists j, first_at (account_keys tc) j k /\ accounts tc !! j = Some b) as Hint.
  { intros k b. rewrite lookup_intersection_Some, all_accounts_lookup. tauto. }
  assert (forall ia j k, ia ∈ l -> account_keys tc !! index_in_transaction ia = Some k ->
    first_at (account_keys tc) j k -> j = index_in_transaction ia) as Hat.
  { intros ia j k Hin Hk Hj. eapply first_at_unique; [exact Hj|]. apply HK; [|done].
    by apply list_elem_of_fmap_2. }
  split.
  - apply set_eq. intros k. rewrite !elem_of_dom. split.
    + intros [b [? _]%Hint]. done.
    + intros Hk. pose proof Hk as (ia & Hin & Hik)%Hdom.
      destruct (lookup_lt_is_Some_2 (accounts tc) (index_in_transaction ia)) as [b Hb].
      { rewrite Hlen. by eapply lookup_lt_Some. }
      exists b. apply Hint. split; [done|]. exists (index_in_transaction ia). split; [|done].
      apply HK; [by apply list_elem_of_fmap_2|done].
  - intros k a b Ha [_ (j & Hj & Hb)]%Hint. right.
    apply checked_lookup in Ha as (p & [n Hn]%list_elem_of_lookup & Hpk & <-).
    destruct (Forall2_lookup_r _ _ _ _ _ Hperm Hn) as (ia & Hia & post & Hpost & Hp).
    destruct (Forall2_lookup_r _ _ _ _ _ HF Hn) as (j' & Hj' & Hk' & _).
    rewrite list_lookup_fmap, Hia in Hj'. injection Hj' as <-. rewrite Hpk in Hk'.
    assert (j = index_in_transaction ia) as -> by (eapply Hat; [by eapply list_elem_of_lookup_2|done..]).
    assert (post = b) as -> by congruence. eauto.
  - intros ia k b Hin Hk [_ (j & Hj & Hb)]%Hint.
    assert (j = index_in_transaction ia) as -> by (by eapply Hat). done.
  - intros k Hn. destruct (checked_accounts pre !! k) as [a|] eqn:Ha.
    + destruct Hn. apply Exists_exists. destruct (proj1 (Hdom k)) as (ia & Hin & Hk); [eauto|].
      exists ia. split; [by apply list_elem_of_In|done].
    + apply lookup_intersection_None. by right.
Qed.

Section top.
Context `{Crypto} `{LoaderBincode}.
Context (T : Pubkey) (code : contract) (g : Pubkey -> Account -> Z) (wf : Account -> Prop).
Context `{!Ledger T code g wf}.
Variable feats : Features.
Variable builtin_programs : list (Pubkey * (nat -> program)).
Hypothesis Hdisc : forall entry, entry ∈ builtin_programs -> well_behaved entry.2.
Hypothesis Hcode : forall entry, entry ∈ builtin_programs -> runs feats T code entry.2.

Variables (W : nat -> Prop) (P : Pubkey -> Prop).
Variables (ias : list InstructionAccount) (pis : list nat) (data : list byte) (ic : InvokeContext).
Let tc := transaction_context ic.
Let K := account_keys tc.
Let J := first_indices 0 ias.
Hypothesis Hwf : context_wf tc.
Hypothesis HK : forall j, j ∈ J -> first_position K j.
Hypothesis Hcopies : forall j p a, j ∈ J -> p <> j -> is_Some (K !! j) -> K !! p = K !! j ->
  accounts tc !! p = Some a -> harmless a.
Hypothesis Hchain : forall i j, head (rev pis) = Some i -> j ∈ pis -> K !! j = K !! i -> j = i.
Hypothesis Hstack : instruction_stack tc = [].
Hypothesis HJ : NoDup J.
Hypothesis Hias : Forall (fun ia => index_in_transaction ia ∈ J /\
  (ia_is_writable ia = true -> W (index_in_transaction ia))) ias.
Hypothesis HP : forall j k, j ∈ J -> K !! j = Some k -> P k.
Hypothesis Hpid : forall i k, head (rev pis) = Some i -> K !! i = Some k -> P k.
Hypothesis Hwl : well_listed (length K) ias.
Hypothesis Hearly : repeats_early ias.
Hypothesis Hcount : is_u64 (Z.of_nat (length ias)).
Hypothesis Hdata : is_u64 (Z.of_nat (length data)).
Hypothesis Hty : Forall account_typed (accounts tc).
Hypothesis Hown : owned_wf T wf (all_accounts tc).

Let ctx := mkInstructionContext 0 pis ias data.

Lemma top_placed : placed K J (accounts tc) pis.
Proof. intros i n j Hi Hj Hk. left. eapply Hchain; [done|by eapply list_elem_of_lookup_2|done]. Qed.

(** The start of a top-level instruction: its accounts are the checked ones. *)
Lemma top_entered ic1 :
  InvokeContext.push ias pis data ic = Ok ic1 ->
  checked_accounts (pre_accounts ic1) ⊆ all_accounts tc /\
  accounts (transaction_context ic1) = accounts tc /\
  exists pid, set_up (transaction_context ic1) ctx pid.
Proof.
  intros Hp. unfold InvokeContext.push in Hp. fold tc in Hp.
  apply result_bind_ok in Hp as ([] & _ & Hp). apply result_bind_ok in Hp as (pi & Hpi & Hp).
  apply result_bind_ok in Hp as (pid & Hkey & Hp). apply result_bind_ok in Hp as (ic2 & H1 & Hp).
  apply result_bind_ok in Hp as (ks & _ & Hp). apply result_bind_ok in Hp as (ks' & _ & Hp).
  apply result_bind_ok in Hp as (tc' & Hpush & Hp). injection Hp as <-.
  assert (InvokeContext.get_stack_height ic = 0)%nat as Hh
    by (unfold InvokeContext.get_stack_height, get_instruction_context_stack_height; fold tc; by rewrite Hstack).
  rewrite Hh in H1. cbn [Nat.eqb] in H1. apply result_bind_ok in H1 as (pre & Hpre & [= <-]).
  apply collect_ok in Hpre. unfold TransactionContext.push in Hpush. rewrite Hstack in Hpush. cbn in Hpush.
  case_match; [done|]. injection Hpush as <-. cbn [pre_accounts transaction_context with_tc with_pre].
  split_and!; [|done|].
  - apply map_subseteq_spec. intros k a (p & [n Hn]%list_elem_of_lookup & <- & <-)%checked_lookup.
    destruct (Forall2_lookup_r _ _ _ _ _ Hpre Hn) as (ia & Hia & Hpa). unfold pre_account_of in Hpa.
    apply result_bind_ok in Hpa as ([] & _ & Hpa). apply result_bind_ok in Hpa as (a & Ha & Hpa).
    apply result_bind_ok in Hpa as (k & Hk & [= <-]). apply ok_or_ok in Ha, Hk.
    apply all_accounts_lookup. exists (index_in_transaction ia). split; [|done].
    apply HK; [|done]. by eapply list_elem_of_fmap_2, list_elem_of_lookup_2.
  - exists pid. apply ok_or_ok in Hpi, Hkey. split; try done.
    + unfold get_current_instruction_context, get_instruction_context_stack_height.
      cbn [instruction_stack with_stack length].
      by erewrite context_at_trace by reflexivity.
    + unfold get_last_program_key, get_index_of_program_account_in_transaction. cbn.
      rewrite <-head_rev_lookup, Hpi. cbn. unfold get_key_of_account_at_index. cbn. fold tc. by rewrite Hkey.
    + intros i ia Hia. apply HK. by destruct (Forall_lookup_1 _ _ _ _ Hias Hia).
Qed.

Lemma top_ledger fuel ic' :
  process_instruction builtin_programs fuel data ias pis ic = Ok ic' ->
  keyed_sum g (all_accounts (transaction_context ic')) = keyed_sum g (all_accounts tc) /\
  owned_wf T wf (all_accounts (transaction_context ic')) /\
  Forall account_typed (accounts (transaction_context ic')).
Proof.
  intros Hr. destruct fuel as [|fuel]; [done|].
  pose proof (top_ok _ _ _ _ _ _ HK Hstack HJ Hias HP Hpid _ _ _ Hr) as (Hk' & Hl' & _).
  cbn [process_instruction] in Hr.
  assert (InvokeContext.get_stack_height ic = 0)%nat as Hh
    by (unfold InvokeContext.get_stack_height, get_instruction_context_stack_height; fold tc; by rewrite Hstack).
  rewrite Hh in Hr. cbn [Nat.eqb] in Hr. apply result_bind_ok in Hr as (ic0 & [= <-] & Hr).
  apply result_bind_ok in Hr as (ic1 & H1 & Hr). apply result_bind_ok in Hr as (ic2 & H2 & Hr).
  apply result_bind_ok in Hr as (ic3 & H3 & Hr). unfold InvokeContext.pop, TransactionContext.pop in Hr.
  apply result_bind_ok in Hr as (tc4 & H4 & [= <-]). case_match; [done|]. injection H4 as <-.
  destruct (top_push_ok W P ias pis ic Hstack Hias Hpid data ic1 H1) as [Hg1 _].
  destruct (top_entered ic1 H1) as (Hsub & Ha1 & pid & Hsu).
  set (G0 := keyed_sum g (checked_accounts (pre_accounts ic1))).
  assert (kept T g wf K J W P (accounts tc) (sum_at (accounts tc) J) ctx G0 ic1) as Hk1.
  { split; [done|done| |by rewrite Ha1]. intros k a Ha Ho. eapply Hown; [|done]. by eapply lookup_weaken. }
  assert (forall k, is_Some (checked_accounts (pre_accounts ic1) !! k) <-> exists j, j ∈ J /\ K !! j = Some k)
    as Hd1 by (intros k; eapply checked_dom, Hk1).
  edestruct (chain_kept T code g wf feats builtin_programs Hdisc Hcode K J W P (accounts tc)
    (sum_at (accounts tc) J) ctx G0 HK Hcopies Hwf HP (process_instruction builtin_programs fuel) ic1 ic2 ctx pid)
    as (Hg2 & Hty2 & Hgr2 & Hl2); [| |exact Hk1|exact Hsu|exact top_placed| |exact H2|].
  { by apply (nested_kept T code g wf feats builtin_programs Hdisc Hcode). }
  { apply nested_ok; [exact HK|done]. }
  { intros i k a (ia & Hia & Hi & Hik & Ha). rewrite (kept_keys _ _ _ _ _ _ _ _ _ _ _ _ Hk1) in Hik.
    destruct (proj2 (Hd1 k)) as [a' Ha'].
    { exists (index_in_transaction ia). split; [|done]. by destruct (Forall_lookup_1 _ _ _ _ Hias Hia). }
    rewrite Ha'. pose proof (lookup_weaken _ _ _ _ Ha' Hsub) as (j & Hj & Hja)%all_accounts_lookup.
    assert (j = index_in_transaction ia) as ->.
    { eapply first_at_unique; [exact Hj|]. apply HK; [|done]. by destruct (Forall_lookup_1 _ _ _ _ Hias Hia). }
    rewrite Ha1 in Ha. congruence. }
  pose proof Hg2 as [[Ik2 Il2 Ip2 _ Io2] _].
  unfold InvokeContext.verify in H3. apply result_bind_ok in H3 as (pid' & Hpid' & H3).
  apply map_err_ok, result_bind_ok in Hpid' as (c' & Hc' & Hpid').
  rewrite (grown_current _ _ _ Hgr2 (su_current _ _ _ Hsu)) in Hc'. injection Hc' as <-.
  rewrite (last_key_same _ (transaction_context ic1)), (su_program _ _ _ Hsu) in Hpid'
    by (rewrite Ik2; symmetry; apply (kept_keys _ _ _ _ _ _ _ _ _ _ _ _ Hk1)).
  injection Hpid' as <-. apply result_bind_ok in H3 as (as_ & _ & H3).
  apply result_bind_ok in H3 as ([[ps qs] m] & Hl & H3). apply result_bind_ok in H3 as ([] & _ & [= <-]).
  assert (length (accounts (transaction_context ic2)) = length (account_keys (transaction_context ic2))) as Hlen2
    by (rewrite Il2, Ik2; exact Hwf).
  eapply (verify_rechecked W P (accounts tc) J) in Hl; [|done|done|rewrite Ik2; exact HK|by rewrite Ik2].
  rewrite Ik2 in Hl. destruct (Hl2 _ Hl) as [Hsum Hown'].
  set (m' := _ ∩ _) in *. cbn [transaction_context with_tc with_pre_meter accounts with_stack].
  change (all_accounts (with_stack _ _ _)) with (all_accounts (transaction_context ic2)).
  assert (forall k, is_Some (checked_accounts (pre_accounts ic2) !! k) <-> exists j, j ∈ J /\ K !! j = Some k)
    as Hd2 by (intros k; by eapply checked_dom).
  assert (all_accounts (transaction_context ic2) = m' ∪ all_accounts tc) as Hall.
  { apply map_eq. intros k. rewrite lookup_union. unfold m'. rewrite lookup_intersection.
    destruct (checked_accounts (pre_accounts ic2) !! k) as [x|] eqn:Hx.
    - destruct (all_accounts (transaction_context ic2) !! k) as [b|] eqn:Hb; [by destruct (all_accounts tc !! k)|].
      assert (is_Some (m' !! k)) as [b Hb']; [apply elem_of_dom; rewrite (rc_dom _ _ _ _ _ _ Hl); by eapply elem_of_dom_2|].
      unfold m' in Hb'. rewrite lookup_intersection, Hb in Hb'. done.
    - assert (all_accounts (transaction_context ic2) !! k = all_accounts tc !! k) as ->;
        [|by destruct (all_accounts tc !! k)].
      apply option_eq. intros a. rewrite !all_accounts_lookup, Ik2.
      split; intros (j & Hj & Ha); exists j; (split; [done|]); [rewrite <-Io2|rewrite Io2]; try done;
        intros HjJ; destruct Hj as [Hj _]; destruct (proj2 (Hd2 k)) as [? ?]; eauto; congruence. }
  rewrite Hall. split_and!; [| |done].
  - rewrite (keyed_sum_replace g (checked_accounts (pre_accounts ic1)) m') by
      (done || (rewrite (rc_dom _ _ _ _ _ _ Hl); apply set_eq; intros k; by rewrite !elem_of_dom, Hd1, Hd2)).
    rewrite Hsum. unfold G0. lia.
  - intros k a Ha Ho. apply lookup_union_Some_raw in Ha as [Ha|[_ Ha]]; [by eapply Hown'|by eapply Hown].
Qed.
End top.

(** ** Messages *)
Section message.
Context `{Crypto} `{LoaderBincode}.
Context (T : Pubkey) (code : contract) (g : Pubkey -> Account -> Z) (wf : Account -> Prop).
Context `{!Ledger T code g wf}.
Variable feats : Features.
Variable builtin_programs : list (Pubkey * (nat -> program)).
Hypothesis Hdisc : forall entry, entry ∈ builtin_programs -> well_behaved entry.2.
Hypothesis Hcode : forall entry, entry ∈ builtin_programs -> runs feats T code entry.2.
Variables (fuel : nat) (message : SanitizedMessage).

(** A transaction between instructions. *)
Record idle (tc : TransactionContext) : Prop := {
  idle_wf : context_wf tc;
  idle_stack : instruction_stack tc = [];
  idle_sysvar j a : account_keys tc !! j = Some instructions_sysvar_id -> accounts tc !! j = Some a ->
    acc_owner a <> T;
  idle_typed : Forall account_typed (accounts tc);
  idle_owned : owned_wf T wf (all_accounts tc)
}.

(** An account listed more than once is first listed before position 255. *)
Definition repeated_early (l : list nat) : Prop :=
  forall i j n, first_at l i n -> l !! j = Some n -> i <> j -> (i < 255)%nat.

(** An instruction of the message, with the accounts of its program, over the addresses [K]
    and the accounts [A] of the transaction: its accounts are accounts of the message; where
    one of them is loaded again for a program, what is loaded is not a program of the second
    loader; and of the accounts loaded for its program only the last has the address of
    the program. *)
Record admissible (K : list Pubkey) (A : list Account) (ci : CompiledInstruction) (pis : list nat) : Prop := {
  ad_early : repeated_early (ci_accounts ci);
  ad_count : is_u64 (Z.of_nat (length (ci_accounts ci)));
  ad_data : is_u64 (Z.of_nat (length (ci_data ci)));
  ad_first j : j ∈ ci_accounts ci -> first_position K j;
  ad_copies j p a : j ∈ ci_accounts ci -> p <> j -> is_Some (K !! j) -> K !! p = K !! j ->
    A !! p = Some a -> harmless a;
  ad_chain i j : head (rev pis) = Some i -> j ∈ pis -> K !! j = K !! i -> j = i
}.

(** The addresses of the transaction; the instructions sysvar is read-only in the message. *)
Variable K : list Pubkey.
Hypothesis Hsysvar : forall j, K !! j = Some instructions_sysvar_id ->
  SanitizedMessage.is_writable (E:=TransactionError) message j <> Ok true.

Lemma process_indices data ias pis ic ic' ia :
  process_instruction builtin_programs fuel data ias pis ic = Ok ic' ->
  instruction_stack (transaction_context ic) = [] -> ia ∈ ias ->
  (index_in_transaction ia < length (account_keys (transaction_context ic)))%nat.
Proof.
  intros Hr Hs [n Hn]%list_elem_of_lookup. destruct fuel as [|f]; [done|]. cbn [process_instruction] in Hr.
  unfold InvokeContext.get_stack_height, get_instruction_context_stack_height in Hr. rewrite Hs in Hr.
  cbn [length Nat.eqb] in Hr. apply result_bind_ok in Hr as (ic0 & [= <-] & Hr).
  apply result_bind_ok in Hr as (ic1 & Hp & _). unfold InvokeContext.push in Hp.
  apply result_bind_ok in Hp as ([] & _ & Hp). apply result_bind_ok in Hp as (pi & _ & Hp).
  apply result_bind_ok in Hp as (pid & _ & Hp). apply result_bind_ok in Hp as (ic2 & _ & Hp).
  apply result_bind_ok in Hp as (ks & _ & Hp). apply result_bind_ok in Hp as (ks' & Hks & _).
  apply collect_ok in Hks. destruct (Forall2_lookup_l _ _ _ _ _ Hks Hn) as (x & _ & Hx).
  unfold keyed_account in Hx. apply result_bind_ok in Hx as (k & Hk & _). apply ok_or_ok in Hk.
  by eapply lookup_lt_Some.
Qed.

(** The accounts at a position have the same owner and are both programs or both not. *)
Definition alike (A A' : list Account) (p : nat) : Prop :=
  forall a', A' !! p = Some a' -> exists a, A !! p = Some a /\
    acc_owner a' = acc_owner a /\ acc_executable a' = acc_executable a.

Lemma alike_trans A A' A'' p : alike A A' p -> alike A' A'' p -> alike A A'' p.
Proof.
  intros H1 H2 a'' (a' & Ha' & Ho' & Hx')%H2. destruct (H1 _ Ha') as (a & Ha & Ho & Hx).
  exists a. split_and!; congruence.
Qed.

(** What no instruction may write keeps its owner. *)
Lemma advances_alike L tc tc' p :
  advances message K L tc tc' -> ~ may_be_written message L p -> alike (accounts tc) (accounts tc') p.
Proof.
  intros [_ Hlen _ _ Hsteps] Hw a' Ha'. destruct (lookup_lt_is_Some_2 (accounts tc) p) as [a Ha].
  { rewrite <-Hlen. by eapply lookup_lt_Some. }
  exists a. split; [done|]. destruct (Hsteps _ _ Ha) as (a1 & Ha1 & Hr).
  assert (a1 = a') as -> by congruence. clear -Hr Hw.
  induction Hr as [|a b c [(pid & w & _ & Hww & Hp)|(_ & d & ->)] _ [IHo IHx]]; [done| |done].
  destruct w; [by destruct Hw, Hww|].
  assert (acc_owner b = acc_owner a /\ acc_executable b = acc_executable a) as [Eo Ex]; [|split; congruence].
  split; [destruct (decide (acc_owner b = acc_owner a)) as [|Hn]; [done|]|
          destruct (decide (acc_executable b = acc_executable a)) as [|Hn]; [done|]].
  - by destruct (permitted_owner _ _ _ _ Hp Hn).
  - by destruct (permitted_executable _ _ _ _ Hp Hn).
Qed.

Lemma admissible_alike A A' ci pis :
  (forall p, ~ first_position K p -> alike A A' p) -> admissible K A ci pis -> admissible K A' ci pis.
Proof.
  intros Ha [He Hn Hd Hf Hc Hch]. split; try done. intros j p a' Hj Hne [k Hk] Hkp Ha'.
  destruct (Ha p) with (a' := a') as (a & Hpa & Ho & Hx); [|done|].
  - intros Hp. destruct Hne. eapply first_position_unique; [done|by apply Hf| |done]. congruence.
  - unfold harmless. rewrite Ho, Hx. by eapply Hc.
Qed.

(** The index of the instruction is written to an account the ledger does not own. *)
Lemma fixup_ledger n tc tc' :
  idle tc -> fixup_instructions_sysvar n tc = Ok tc' ->
  idle tc' /\ account_keys tc' = account_keys tc /\
  keyed_sum g (all_accounts tc') = keyed_sum g (all_accounts tc) /\
  forall p, alike (accounts tc) (accounts tc') p.
Proof.
  intros Hi Hf. unfold fixup_instructions_sysvar in Hf.
  destruct (find_index_of_account tc instructions_sysvar_id) as [j|] eqn:Ej.
  2: { injection Hf as <-. split_and!; try done. intros p a Ha. by exists a. }
  apply find_index_of_account_ok in Ej. apply result_bind_ok in Hf as (a & Ha & Hf). apply ok_or_ok in Ha.
  apply result_bind_ok in Hf as (d & Hd & [= <-]). destruct Hi as [Hwf Hs Hsys Hty Hown].
  pose proof (Hsys _ _ Ej Ha) as Hne. unfold store_current_index in Hd.
  destruct (Nat.ltb_spec (length (acc_data a)) 2) as [|Hl]; [done|]. injection Hd as Hd.
  assert (length d = length (acc_data a)) as Hlen
    by (rewrite <-Hd, length_app, length_take; cbn [to_le_bytes length]; lia).
  set (A' := <[j := set_acc_data a d]> (accounts tc)).
  assert (forall p b', A' !! p = Some b' -> exists b, accounts tc !! p = Some b /\
    (b' = b \/ b = a /\ b' = set_acc_data a d)) as HA.
  { intros p b' [(-> & <- & _)|[_ Hb]]%list_lookup_insert_Some; eauto. }
  assert (forall k, match all_accounts (with_accounts tc A') !! k, all_accounts tc !! k with
    | Some b', Some b => b' = b \/ b = a /\ b' = set_acc_data a d | None, None => True | _, _ => False end) as Hall.
  { intros k. destruct (all_accounts (with_accounts tc A') !! k) as [b'|] eqn:Eb'.
    - apply all_accounts_lookup in Eb' as (p & Hp & Hb'). destruct (HA _ _ Hb') as (b & Hb & Hor).
      by rewrite (proj2 (all_accounts_lookup _ _ _)) by eauto.
    - destruct (all_accounts tc !! k) as [b|] eqn:Eb; [|done].
      apply all_accounts_lookup in Eb as (p & Hp & Hb). destruct (lookup_lt_is_Some_2 A' p) as [b' Hb'].
      { unfold A'. rewrite length_insert. by eapply lookup_lt_Some. }
      by rewrite (proj2 (all_accounts_lookup (with_accounts tc A') k b')) in Eb' by eauto. }
  split_and!; [|done| |].
  - split; [by unfold context_wf; cbn; unfold A'; rewrite length_insert|done|..].
    + intros p b' Hp (b & Hb & [->|[-> ->]])%HA; eauto.
    + apply Forall_insert; [done|]. destruct (Forall_lookup_1 _ _ _ _ Hty Ha) as (?&?&?).
      split_and!; try done. cbn. by rewrite Hlen.
    + intros k b' Hb' Ho. specialize (Hall k). rewrite Hb' in Hall.
      destruct (all_accounts tc !! k) as [b|] eqn:Eb; [|done].
      destruct Hall as [->|[-> ->]]; [by eapply Hown|done].
  - apply keyed_sum_ext. intros k. specialize (Hall k).
    destruct (all_accounts _ !! k) as [b'|], (all_accounts tc !! k) as [b|]; try done.
    destruct Hall as [->|[-> ->]]; [done|]. by rewrite !(ledger_foreign (T:=T)).
  - intros p b' (b & Hb & [->|[-> ->]])%HA; eauto.
Qed.

Lemma message_early l ias :
  message_accounts message 0 [] l = Ok ias -> repeated_early l -> repeats_early ias.
Proof.
  intros Hias Hl i ia Hi Hne. destruct (message_accounts_first _ 0 [] _ _ eq_refl Hias) as [_ Hr].
  destruct (Hr _ _ Hi) as (Hx & _ & Hf). by eapply Hl.
Qed.

Lemma process_one_ledger n ci pis ic ic' :
  account_keys (transaction_context ic) = K -> idle (transaction_context ic) ->
  admissible K (accounts (transaction_context ic)) ci pis ->
  process_one builtin_programs fuel message n ci pis ic = Ok ic' ->
  idle (transaction_context ic') /\ account_keys (transaction_context ic') = K /\
  keyed_sum g (all_accounts (transaction_context ic')) = keyed_sum g (all_accounts (transaction_context ic)) /\
  forall p, ~ first_position K p -> alike (accounts (transaction_context ic)) (accounts (transaction_context ic')) p.
Proof.
  intros HK Hidle Had Hp.
  assert (advances message K [(ci, pis)] (transaction_context ic) (transaction_context ic')) as Hadv.
  { eapply process_one_advances; [|by left|done|apply Hidle|exact Hp].
    intros ci' pis' j [= -> ->]%list_elem_of_singleton Hj. by eapply ad_first. }
  assert (forall p, ~ first_position K p -> alike (accounts (transaction_context ic)) (accounts (transaction_context ic')) p)
    as Halike.
  { intros p Hnp. eapply advances_alike; [exact Hadv|]. intros [_ (ci' & pis' & [= -> ->]%list_elem_of_singleton & Hin)].
    by eapply Hnp, ad_first. }
  assert (forall j a, account_keys (transaction_context ic') !! j = Some instructions_sysvar_id ->
    accounts (transaction_context ic') !! j = Some a -> acc_owner a <> T) as Hsys'.
  { intros j a' Hj Ha'. rewrite (advances_keys _ _ _ _ _ Hadv), HK in Hj.
    destruct (advances_alike _ _ _ j Hadv) with (a' := a') as (a & Ha & -> & _); [|done|].
    - intros [Hw _]. by eapply Hsysvar.
    - by eapply (idle_sysvar _ Hidle); [rewrite HK|]. }
  pose proof Hadv as [HK' HL' HS' _ _]. rewrite HK in HK'.
  unfold process_one in Hp. apply result_bind_ok in Hp as (pid & _ & Hp).
  destruct (_ && negb _); [by injection Hp as <-|].
  apply result_bind_ok in Hp as (tc1 & Hf & Hp).
  destruct (fixup_ledger _ _ _ Hidle Hf) as ([Hwf Hs _ Hty Hown] & HK1 & Hsum1 & Halike1). rewrite HK in HK1.
  apply (admissible_alike _ (accounts tc1)) in Had as [Hearly Hcount Hd Hfirst Hcopies Hchain]; [|done].
  assert (context_wf (transaction_context ic')) as Hwf'.
  { unfold context_wf. rewrite HK', HL', <-HK. apply Hidle. }
  apply result_bind_ok in Hp as (ias & Hias & Hp). apply map_err_ok in Hp.
  destruct (_ && record_instruction_in_transaction_context_push _).
  { apply result_bind_ok in Hp as (tc2 & H2 & Hp). apply result_bind_ok in Hp as (tc3 & H3 & [= <-]).
    unfold TransactionContext.push in H2. cbn [transaction_context with_tc] in H2. rewrite Hs in H2. cbn in H2.
    case_match; [done|]. injection H2 as <-. unfold TransactionContext.pop in H3. cbn in H3. injection H3 as <-.
    split_and!; try done. }
  destruct (message_accounts_ok _ 0 [] _ _ eq_refl Hias) as (Hix & _ & Hnd & Hin & Hcov).
  edestruct (message_listed message (ci_accounts ci) ias) as [Hwl Hlen]; [exact Hias| |].
  { intros x Hx. rewrite <-Hix in Hx. apply list_elem_of_fmap in Hx as (ia & -> & Hia).
    by eapply (process_indices _ _ _ _ _ _ Hp). }
  edestruct (top_ledger T code g wf feats builtin_programs Hdisc Hcode (fun _ => True) (fun _ => True) ias pis
    (ci_data ci) (with_tc ic tc1)) as (Hsum & Hown' & Hty'); try exact Hp; try done; cbn [transaction_context with_tc].
  - intros j Hj. rewrite HK1. by apply Hfirst, Hin.
  - intros j p a Hj. rewrite HK1. by apply Hcopies, Hin.
  - by rewrite HK1.
  - apply Forall_forall. intros ia Hia. split; [|done].
    assert (index_in_transaction ia ∈ ci_accounts ci) as Hx
      by (rewrite <-Hix; by apply list_elem_of_fmap_2, list_elem_of_In).
    destruct (Hcov _ Hx) as [Hx'|?]; [by apply not_elem_of_nil in Hx'|done].
  - by eapply message_early.
  - by rewrite Hlen.
  - split_and!; [by split|done| |done]. cbn [transaction_context with_tc] in Hsum. congruence.
Qed.

Lemma process_all_ledger n l ic ic' :
  account_keys (transaction_context ic) = K -> idle (transaction_context ic) ->
  Forall (fun x : CompiledInstruction * list nat => admissible K (accounts (transaction_context ic)) x.1 x.2) l ->
  process_all builtin_programs fuel message n l ic = Ok ic' ->
  idle (transaction_context ic') /\
  keyed_sum g (all_accounts (transaction_context ic')) = keyed_sum g (all_accounts (transaction_context ic)).
Proof.
  revert n ic. induction l as [|[ci pis] l IH]; intros n ic HK Hi Hl Hp; cbn [process_all] in Hp.
  { by injection Hp as <-. }
  apply result_bind_ok in Hp as (ic1 & H1 & Hp). apply Forall_cons_1 in Hl as [Hci Hl].
  destruct (process_one_ledger _ _ _ _ _ HK Hi Hci H1) as (Hi1 & Hk1 & Hs1 & Halike).
  destruct (IH (S n) ic1 Hk1 Hi1) as [Hi' Hs']; [|exact Hp|split; [done|congruence]].
  eapply Forall_impl; [|exact Hl]. intros x. by apply admissible_alike.
Qed.

Lemma message_ledger program_indices tc rent features max_invoke_depth len delta tc' :
  account_keys tc = K -> idle tc ->
  (forall ci pis, (ci, pis) ∈ combine (SanitizedMessage.instructions message) program_indices ->
     admissible K (accounts tc) ci pis) ->
  process_message builtin_programs fuel message program_indices tc rent features max_invoke_depth len
  = Ok (delta, tc') ->
  idle tc' /\ keyed_sum g (all_accounts tc') = keyed_sum g (all_accounts tc).
Proof.
  intros HK Hi Had Hp. unfold process_message in Hp. apply result_bind_ok in Hp as (ic & Hp & [= _ <-]).
  apply process_all_ledger in Hp; [done|done|done|]. apply Forall_forall. intros [ci pis] Hin.
  by apply Had, list_elem_of_In.
Qed.
End message.
