(* ===== verification/LoaderLedger.v ===== *)
(** * The loader as a built-in of the runtime

    [Loader.process_instruction_common] discharges what [LedgerSafety] asks of the
    built-ins: it is well behaved when the programs it runs keep their cells within the
    types of the source, and it runs the code it has for a program. *)

From Stdlib Require Import Strings.Byte.
From S2P Require Import Prelude Sdk Rent Program SystemInstruction Transaction Serialization SerializationFacts ReadBack Runtime RuntimeSafety Message MessageProcessor Loader LoaderFacts CallContexts Ledger LedgerSafety.

(** ** Programs whose cells are typed *)
Definition typed_view (v : view) : Prop := map_Forall (fun _ => account_typed) v.

(** A program that is given typed cells calls others with typed cells. *)
Inductive tree_typed : tree unit -> Prop :=
| typed_ok u v : tree_typed (TOk u v)
| typed_err e : tree_typed (TErr e)
| typed_panic : tree_typed TPanic
| typed_cpi instruction infos signers v k :
    typed_view v -> (forall v', typed_view v' -> tree_typed (k v')) ->
    tree_typed (TCpi instruction infos signers v k).

Definition contract_typed (code : contract) : Prop :=
  forall pid infos data v, typed_view v -> tree_typed (code pid infos data v).

(** ** Steps of the loader *)
Section steps.
Context (K : list Pubkey) (c : InstructionContext) (pid : Pubkey).

Lemma reading_disciplined {A} (r : TransactionContext -> result InstructionError A) k tc :
  (forall a, r tc = Ok a -> disciplined K c pid tc (k a)) -> disciplined K c pid tc (reading r k).
Proof. intros Hk. constructor. destruct (r tc); [auto|constructor..]. Qed.

Lemma demand_disciplined b e k tc :
  (b = true -> disciplined K c pid tc k) -> disciplined K c pid tc (demand b e k).
Proof. intros Hk. destruct b; [auto|constructor]. Qed.

Lemma borrow_typed i tc b a :
  Forall account_typed (accounts tc) -> try_borrow_instruction_account c i tc = Ok b ->
  unwrap (E:=InstructionError) (accounts tc !! ba_index_in_transaction b) = Ok a -> account_typed a.
Proof.
  intros Hty _ Ha. destruct (accounts tc !! _) as [a'|] eqn:E; [|done]. injection Ha as <-.
  by eapply Forall_lookup_1.
Qed.

Lemma translate_account_typed tc lens infos v ia written t :
  typed_view v -> translate_account tc c lens infos v ia = Ok (written, t) ->
  Forall (fun x : nat * Account => account_typed x.2) written.
Proof.
  intros Hv H. unfold translate_account in H. apply result_bind_ok in H as (b & _ & H).
  apply result_bind_ok in H as (k & _ & H). apply result_bind_ok in H as (a & _ & H).
  destruct (acc_executable a); [by injection H as <- <-|]. destruct (existsb _ _); [|done].
  apply result_bind_ok in H as (cell & Hcell & H). apply result_bind_ok in H as (ca & _ & [= <- <-]).
  apply Forall_singleton. cbn. destruct (v !! k) as [x|] eqn:E; [|done]. injection Hcell as <-.
  by eapply Hv.
Qed.

Lemma translated_typed tc lens infos v ias pis written translated :
  typed_view v -> get_translated_accounts tc c lens infos v ias pis = Ok (written, translated) ->
  Forall (fun x : nat * Account => account_typed x.2) written.
Proof.
  intros Hv H. unfold get_translated_accounts in H. apply result_bind_ok in H as (p & _ & H).
  apply result_bind_ok in H as (l & Hl & [= <- <-]). apply collect_ok in Hl.
  induction Hl as [|ia [w t] ias' l Hx _ IH]; [by constructor|]. cbn.
  apply Forall_app. split; [by eapply translate_account_typed|done].
Qed.

Lemma copy_back_typed tc translated v v' :
  Forall account_typed (accounts tc) -> typed_view v -> copy_back tc c translated v = Ok v' -> typed_view v'.
Proof.
  intros Hty. revert v. induction translated as [|[i [ca|]] translated IH]; intros v Hv H;
    cbn [copy_back] in H; [by injection H as <-| |by eapply IH].
  apply result_bind_ok in H as (b & Hb & H). apply result_bind_ok in H as (callee & Hcallee & H).
  apply result_bind_ok in H as (cell & Hcell & H). apply result_bind_ok in H as ([] & _ & H).
  eapply IH; [|exact H]. apply map_Forall_insert_2; [|done].
  pose proof (borrow_typed _ _ _ _ Hty Hb Hcallee) as (Hl & _ & Hd).
  destruct (v !! ca_key ca) as [x|] eqn:E; [|done]. injection Hcell as <-.
  destruct (Hv _ _ E) as (_ & He & _). done.
Qed.

(** ** The call *)
Context `{Crypto} `{LoaderBincode}.
Variable feats : Features.

Lemma instruction_size_small n m :
  check_instruction_size n m = true -> (n <= 255)%nat /\ is_u64 (Z.of_nat m).
Proof.
  unfold check_instruction_size, size_of_AccountMeta, max_cpi_instruction_size. intros Hs%Nat.leb_le.
  unfold is_u64, U64_MAX. lia.
Qed.

Lemma call_disciplined lens instruction infos signers v k tc :
  ready K c pid tc -> typed_view v ->
  (forall tc' v', ready K c pid tc' -> typed_view v' -> disciplined K c pid tc' (k v')) ->
  disciplined K c pid tc (Loader.call feats lens instruction infos signers v k).
Proof.
  intros Hr Hv Hk. unfold Loader.call. apply demand_disciplined. intros [Hn Hd]%instruction_size_small.
  apply reading_disciplined. intros c1 Hc1. assert (c1 = c) as ->.
  { rewrite (su_current _ _ _ (rd_set_up _ _ _ _ Hr)) in Hc1. by injection Hc1. }
  apply reading_disciplined. intros key _. apply reading_disciplined. intros ss _.
  apply reading_disciplined. intros [ias pis] _. do 2 (apply demand_disciplined; intros _).
  apply reading_disciplined. intros [written translated] Hw.
  apply disciplined_invoke; [done..|by eapply translated_typed|]. intros tc' Hr'.
  apply reading_disciplined. intros c2 Hc2. assert (c2 = c) as ->.
  { rewrite (su_current _ _ _ (rd_set_up _ _ _ _ Hr')) in Hc2. by injection Hc2. }
  apply reading_disciplined. intros v' Hv'. apply Hk; [done|].
  eapply copy_back_typed; [apply Hr'|exact Hv|exact Hv'].
Qed.

(** ** Running a program *)
Lemma store_each_disciplined l c' tcr k tc :
  Forall account_typed (accounts tcr) -> ready K c pid tc ->
  (forall tc', ready K c pid tc' -> disciplined K c pid tc' k) ->
  disciplined K c pid tc (store_each l c' tcr k).
Proof.
  intros Hty Hr Hk. revert tc Hr. induction l as [|i l IH]; intros tc Hr; cbn [store_each]; [auto|].
  destruct (instruction_accounts c' !! i) as [ia|]; [|auto]. destruct (is_duplicate c' i); [auto|].
  destruct (accounts tcr !! index_in_transaction ia) as [a|] eqn:Ea; [|constructor].
  apply disciplined_store; [|auto]. by eapply Forall_lookup_1.
Qed.

Lemma read_parameters_back_disciplined buffer lens tc :
  Forall (fun n => Z.of_nat n <= MAX_PERMITTED_DATA_LENGTH) lens -> ready K c pid tc ->
  disciplined K c pid tc (read_parameters_back buffer lens).
Proof.
  intros Hl Hr. apply reading_disciplined. intros [c' tc'] Hread.
  apply result_bind_ok in Hread as (c1 & _ & Hread). apply result_bind_ok in Hread as ([u tc1] & Hd & [= <- <-]).
  destruct (deserialize_typed c1 buffer _ _ _ _ Hl Hd) as (l & Hw & _ & Hty & _).
  apply store_each_disciplined; [|done|constructor].
  rewrite (writes_accounts _ _ _ Hw). apply Hty, Hr.
Qed.

Lemma run_contract_disciplined ps buffer lens t tc :
  Forall (fun n => Z.of_nat n <= MAX_PERMITTED_DATA_LENGTH) lens -> tree_typed t -> ready K c pid tc ->
  disciplined K c pid tc (run_contract feats c ps buffer lens t).
Proof.
  intros Hl Ht. revert tc. induction Ht as [u v|e| |instruction infos signers v k Hv Hk IH]; intros tc Hr;
    cbn [run_contract]; [by apply read_parameters_back_disciplined|constructor..|].
  apply call_disciplined; auto.
Qed.

Lemma view_of_typed tc ps :
  runnable tc c -> Forall account_typed (accounts tc) -> length ps = length (instruction_accounts c) ->
  (forall i, (i < length ps)%nat -> ps !! i = param_of tc c i) -> typed_view (view_of ps).
Proof.
  intros Hrun Hty Hlen Hps k a [i (ia & _ & _ & _ & Ha)]%(view_of_spec tc c ps k a); [|done..].
  by eapply Forall_lookup_1.
Qed.

Lemma lengths_typed tc buffer lens :
  instruction_wf tc c -> Forall account_typed (accounts tc) ->
  serialize_parameters c tc = Ok ((buffer, lens), tc) ->
  Forall (fun n => Z.of_nat n <= MAX_PERMITTED_DATA_LENGTH) lens.
Proof.
  intros Hwf Hty Hser. destruct (entries_exist tc c Hwf) as (es & Hes & _).
  destruct (last_program tc c Hwf) as (_ & k & _ & _ & _ & _ & Hk).
  destruct (deprecated_flag tc c Hwf) as [b Hb].
  destruct (serialize_parameters_eq tc c es k b Hwf Hes Hk Hb) as (lens' & Hser' & H2).
  assert (lens' = lens) as -> by congruence. clear -H2 Hty.
  induction H2 as [|i n l lens (ia & a & _ & Ha & ->) _ IH]; constructor; [|done].
  by eapply Forall_lookup_1 in Hty as (_ & _ & ?); [|exact Ha].
Qed.

Lemma execute_disciplined code tc :
  contract_typed code -> ready K c pid tc -> is_loader_deprecated c tc = Ok (false, tc) ->
  disciplined K c pid tc (execute feats code).
Proof.
  intros Hcode Hr Hdep. pose proof (ready_runnable _ _ _ _ Hr Hdep) as Hrun.
  pose proof (ready_wf _ _ _ _ Hr) as Hwf. unfold execute.
  apply reading_disciplined. intros c1 Hc1. assert (c1 = c) as ->.
  { rewrite (su_current _ _ _ (rd_set_up _ _ _ _ Hr)) in Hc1. by injection Hc1. }
  destruct (parameters_read tc c Hwf) as (buffer & lens & k & ps & Hser & _ & Hlen & Hps & Hde & _).
  apply reading_disciplined. intros [buffer1 lens1] Hv. unfold value_of in Hv. rewrite Hser in Hv.
  injection Hv as <- <-. rewrite (Hde Hdep). apply run_contract_disciplined; [|apply Hcode|done].
  - eapply lengths_typed; [done|apply Hr|done].
  - eapply view_of_typed; [done|apply Hr|done..].
Qed.

End steps.

(** ** Finding the program *)

Lemma reading_ok {A} call (r : TransactionContext -> result InstructionError A) k ic ic' `{LoaderBincode} :
  exec call (reading r k) ic = Ok ic' ->
  exists a, r (transaction_context ic) = Ok a /\ exec call (k a) ic = Ok ic'.
Proof. cbn. destruct (r _) as [a| |]; [by exists a|done..]. Qed.

(** ** The loader *)
Section loader.
Context `{Crypto} `{LoaderBincode}.
Variables (feats : Features) (disable_deprecated_loader : bool).
Variable get_executor : Pubkey -> option contract.
Variable from_elf : list byte -> result InstructionError contract.
Variable execute_deprecated : contract -> program.
Variables process_loader_upgradeable_instruction process_loader_instruction : nat -> program.
Let loader : nat -> program :=
  process_instruction_common feats disable_deprecated_loader get_executor from_elf execute_deprecated
    process_loader_upgradeable_instruction process_loader_instruction.

Lemma loader_runs (T : Pubkey) (code : contract) :
  check_loader_id T = false -> get_executor T = Some code ->
  (forall call ic ic', exec call (execute_deprecated code) ic <> Ok ic') ->
  runs feats T code loader.
Proof.
  intros HT Hget Hdep first call ic ic' c Hc Hp Hloc He. unfold loader, process_instruction_common in He.
  apply reading_ok in He as (c1 & Hc1 & He). assert (c1 = c) as -> by congruence.
  apply reading_ok in He as (pid & Hpid & He). assert (pid = T) as -> by congruence.
  apply reading_ok in He as (i & Hi & He). apply reading_ok in He as (a & Ha & He).
  unfold check_loader_id in HT. apply orb_false_iff in HT as [[HT1 HT2]%orb_false_iff HT3].
  destruct (acc_executable a) eqn:Hx.
  - unfold demand in He. destruct (check_loader_id _) eqn:Hl; [|done].
    apply reading_ok in He as (off & Hoff & He). apply reading_ok in He as (code1 & Hcode & He).
    rewrite Hget in Hcode. injection Hcode as <-.
    destruct (key_eqb (acc_owner a) bpf_loader_deprecated_id) eqn:Hd; [by destruct (Hdep call ic ic')|].
    apply key_eqb_neq in Hd. split; [by eapply Hloc|done].
  - rewrite HT1, HT2, HT3, !andb_false_r in He. done.
Qed.

Hypothesis Hcached : forall pid code, get_executor pid = Some code -> contract_typed code.
Hypothesis Helf : forall bytes code, from_elf bytes = Ok code -> contract_typed code.
Hypothesis Hdeprecated : forall code, contract_typed code -> well_behaved (fun _ => execute_deprecated code).
Hypothesis Hupgradeable : well_behaved process_loader_upgradeable_instruction.
Hypothesis Hloader : well_behaved process_loader_instruction.

Lemma loader_well_behaved : well_behaved loader.
Proof.
  intros first K c pid tc Hr Hloc. pose proof (su_current _ _ _ (rd_set_up _ _ _ _ Hr)) as Hc.
  unfold loader, process_instruction_common.
  apply reading_disciplined. intros c1 Hc1. assert (c1 = c) as -> by congruence.
  apply reading_disciplined. intros pid1 _. apply reading_disciplined. intros i Hi.
  apply reading_disciplined. intros a Ha. destruct (acc_executable a) eqn:Hx.
  - apply demand_disciplined. intros Hl. apply reading_disciplined. intros off Hoff.
    apply reading_disciplined. intros code Hcode.
    assert (contract_typed code) as Hty.
    { destruct (get_executor pid1) as [x|] eqn:E; [injection Hcode as ->; by eapply Hcached|].
      unfold create_executor in Hcode. apply result_bind_ok in Hcode as (pd & _ & Hcode).
      apply result_bind_ok in Hcode as ([] & _ & Hcode). by eapply Helf. }
    destruct (key_eqb (acc_owner a) bpf_loader_deprecated_id) eqn:Hd.
    + by apply (Hdeprecated code Hty first).
    + apply key_eqb_neq in Hd. apply execute_disciplined; [done|done|]. by eapply Hloc.
  - repeat case_match; [by apply Hupgradeable|by apply Hloader|constructor..].
Qed.

End loader.
