(* ===== verification/UpgradeableLoader.v ===== *)
(** * Deploying programs

    The instructions of the loaders themselves: [programs/bpf_loader/src/lib.rs]
    ([process_loader_upgradeable_instruction], [process_loader_instruction] and their
    helpers) and the instruction builders of [sdk/program/src/bpf_loader_upgradeable.rs]
    and [loader_instruction.rs].

    The handlers read and write the accounts of the instruction; deploying also calls the
    system program.  Two accounts borrowed at once that are one account fail, which is
    written out where the code does so.  The [bincode] encodings and the verifier of ELF
    files are parameters; the cache of executors is not extended. *)

From Stdlib Require Import Strings.Byte.
From S2P Require Import Prelude Sdk Rent Program SystemInstruction Transaction Serialization Nonce SystemProgram Runtime Message MessageProcessor Loader.

(** ** Instructions *)
Inductive UpgradeableLoaderInstruction : Type :=
| InitializeBuffer
| LoaderWrite (offset : Z) (bytes : list byte)
| DeployWithMaxDataLen (max_data_len : Z)
| LoaderUpgrade
| LoaderSetAuthority
| LoaderClose.

(** [loader_instruction::LoaderInstruction] *)
Inductive LoaderInstruction : Type :=
| PlainWrite (offset : Z) (bytes : list byte)
| Finalize.

Class UpgradeableBincode : Type := {
  bincode_serialize_loader : UpgradeableLoaderState -> list byte;
  bincode_serialize_upgradeable : UpgradeableLoaderInstruction -> list byte;
  limited_deserialize_upgradeable : list byte -> option UpgradeableLoaderInstruction;
  bincode_serialize_plain : LoaderInstruction -> list byte;
  limited_deserialize_plain : list byte -> option LoaderInstruction
}.

(** ** Sizes *)
Definition size_of_buffer_metadata : nat := 37.
Definition size_of_program : nat := 36.
Definition size_of_buffer (program_len : Z) : Z :=
  saturate_u64 (Z.of_nat size_of_buffer_metadata + program_len).
Definition size_of_programdata (program_len : Z) : Z :=
  saturate_u64 (Z.of_nat size_of_programdata_metadata + program_len).

(** ** Builders *)
Section builders.
Context `{UpgradeableBincode} `{SystemBincode} `{Crypto}.

Definition loader_ix (i : UpgradeableLoaderInstruction) (accounts : list AccountMeta) : Instruction :=
  mkInstruction bpf_loader_upgradeable_id accounts (bincode_serialize_upgradeable i).

Definition create_buffer (payer_address buffer_address authority_address : Pubkey)
    (lamports program_len : Z) : list Instruction :=
  [SystemInstruction.create_account payer_address buffer_address lamports (size_of_buffer program_len)
     bpf_loader_upgradeable_id;
   loader_ix InitializeBuffer
     [AccountMeta_new buffer_address false; AccountMeta_new_readonly authority_address false]].

Definition loader_write (buffer_address authority_address : Pubkey) (offset : Z) (bytes : list byte)
    : Instruction :=
  loader_ix (LoaderWrite offset bytes)
    [AccountMeta_new buffer_address false; AccountMeta_new_readonly authority_address true].

(** [None] is the panic of [find_program_address]. *)
Definition programdata_address_of (program_address : Pubkey) : option Pubkey :=
  fst <$> find_program_address [to_bytes program_address] bpf_loader_upgradeable_id.

Definition deploy_with_max_program_len
    (payer_address program_address buffer_address upgrade_authority_address : Pubkey)
    (program_lamports max_data_len : Z) : option (list Instruction) :=
  programdata_address ← programdata_address_of program_address;
  Some [SystemInstruction.create_account payer_address program_address program_lamports
          (Z.of_nat size_of_program) bpf_loader_upgradeable_id;
        loader_ix (DeployWithMaxDataLen max_data_len)
          [AccountMeta_new payer_address true; AccountMeta_new programdata_address false;
           AccountMeta_new program_address false; AccountMeta_new buffer_address false;
           AccountMeta_new_readonly rent_sysvar_id false;
           AccountMeta_new_readonly clock_sysvar_id false;
           AccountMeta_new_readonly system_program_id false;
           AccountMeta_new_readonly upgrade_authority_address true]].

Definition loader_upgrade (program_address buffer_address authority_address spill_address : Pubkey)
    : option Instruction :=
  programdata_address ← programdata_address_of program_address;
  Some (loader_ix LoaderUpgrade
    [AccountMeta_new programdata_address false; AccountMeta_new program_address false;
     AccountMeta_new buffer_address false; AccountMeta_new spill_address false;
     AccountMeta_new_readonly rent_sysvar_id false; AccountMeta_new_readonly clock_sysvar_id false;
     AccountMeta_new_readonly authority_address true]).

Definition set_buffer_authority (buffer_address current_authority_address new_authority_address : Pubkey)
    : Instruction :=
  loader_ix LoaderSetAuthority
    [AccountMeta_new buffer_address false; AccountMeta_new_readonly current_authority_address true;
     AccountMeta_new_readonly new_authority_address false].

Definition set_upgrade_authority (program_address current_authority_address : Pubkey)
    (new_authority_address : option Pubkey) : option Instruction :=
  programdata_address ← programdata_address_of program_address;
  Some (loader_ix LoaderSetAuthority
    ([AccountMeta_new programdata_address false; AccountMeta_new_readonly current_authority_address true]
     ++ match new_authority_address with Some a => [AccountMeta_new_readonly a false] | None => [] end)).

Definition close_any (close_address recipient_address : Pubkey)
    (authority_address program_address : option Pubkey) : Instruction :=
  loader_ix LoaderClose
    ([AccountMeta_new close_address false; AccountMeta_new recipient_address false]
     ++ match authority_address with Some a => [AccountMeta_new_readonly a true] | None => [] end
     ++ match program_address with Some a => [AccountMeta_new a false] | None => [] end).

Definition loader_close (close_address recipient_address authority_address : Pubkey) : Instruction :=
  close_any close_address recipient_address (Some authority_address) None.

(** [loader_instruction::write] and [finalize] *)
Definition plain_write (account_pubkey program_id : Pubkey) (offset : Z) (bytes : list byte) : Instruction :=
  mkInstruction program_id [AccountMeta_new account_pubkey true]
    (bincode_serialize_plain (PlainWrite offset bytes)).
Definition plain_finalize (account_pubkey program_id : Pubkey) : Instruction :=
  mkInstruction program_id
    [AccountMeta_new account_pubkey true; AccountMeta_new_readonly rent_sysvar_id false]
    (bincode_serialize_plain Finalize).

End builders.

(** ** Writing accounts from a built-in *)

(** A computation over the accounts of the instruction, then the rest of the program. *)
Definition commit (m : InstructionContext -> TxM unit) (k : program) : program :=
  reading (fun tc =>
    c ← get_current_instruction_context tc;
    '(_, tc') ← m c tc;
    Ok (c, tc'))
  (fun '(c, tc') => store_each (instruction_account_indices c) c tc' k).

(** ** Operations on accounts *)

(** What the loaders read of the [InvokeContext] besides the accounts. *)
Record LoaderEnv : Type := mkLoaderEnv {
  reduce_required_deploy_balance : bool;
  loader_cache_rent : option Rent;
  loader_cache_clock_slot : option Z
}.

(** [data[offset..offset + bytes.len()].copy_from_slice(bytes)], in range. *)
Definition write_slice (offset : nat) (bytes data : list byte) : list byte :=
  take offset data ++ bytes ++ drop (offset + length bytes) data.

Section operations.
Context `{LoaderBincode} `{UpgradeableBincode}.

Definition get_loader_state (account : BorrowedAccount) : TxM UpgradeableLoaderState :=
  d ← BorrowedAccount.get_data account;
  reads (fun _ => ok_or (bincode_deserialize_loader d) InstructionError.InvalidAccountData).

Definition set_loader_state (account : BorrowedAccount) (state : UpgradeableLoaderState) : TxM unit :=
  a ← BorrowedAccount.cell account;
  let bytes := bincode_serialize_loader state in
  if (length (acc_data a) <? length bytes)%nat then throw InstructionError.AccountDataTooSmall
  else BorrowedAccount.set_cell account (set_acc_data a (write_prefix bytes (acc_data a))).

Definition write_program_data (program_account_index program_data_offset : nat) (bytes : list byte)
    (ic : InstructionContext) : TxM unit :=
  program ← reads (borrow_account_at ic program_account_index);
  a ← BorrowedAccount.cell program;
  guard (negb (length (acc_data a) <? program_data_offset + length bytes)%nat)
    InstructionError.AccountDataTooSmall;;
  BorrowedAccount.set_cell program
    (set_acc_data a (write_slice program_data_offset bytes (acc_data a))).

(** The signature of the instruction account [i] is the one of the authority. *)
Definition check_authority (ic : InstructionContext) (i : nat) (authority_address : option Pubkey)
    (authority_key : Pubkey) : TxM unit :=
  guard (bool_decide (authority_address = Some authority_key)) InstructionError.IncorrectAuthority;;
  signed ← reads (fun _ => is_instruction_account_signer ic i);
  guard signed InstructionError.MissingRequiredSignature.

Definition common_close_account (authority_address : option Pubkey) (ic : InstructionContext) : TxM unit :=
  guard (negb (bool_decide (authority_address = None))) InstructionError.Immutable;;
  authority_key ← key_of_instruction_account ic 2;
  check_authority ic 2 authority_address authority_key;;
  close_account ← reads (try_borrow_instruction_account ic 0);
  recipient_account ← reads (try_borrow_instruction_account ic 1);
  guard (negb (ba_index_in_transaction close_account =? ba_index_in_transaction recipient_account)%nat)
    InstructionError.AccountBorrowFailed;;
  close_lamports ← BorrowedAccount.get_lamports close_account;
  BorrowedAccount.checked_add_lamports recipient_account close_lamports;;
  BorrowedAccount.set_lamports close_account 0;;
  set_loader_state close_account LoaderUninitialized.

Definition initialize_buffer (ic : InstructionContext) : TxM unit :=
  reads (fun _ => check_number_of_instruction_accounts ic 2);;
  buffer ← reads (try_borrow_instruction_account ic 0);
  state ← get_loader_state buffer;
  guard (match state with LoaderUninitialized => true | _ => false end)
    InstructionError.AccountAlreadyInitialized;;
  authority_key ← key_of_instruction_account ic 1;
  set_loader_state buffer (LoaderBuffer (Some authority_key)).

Definition write_buffer (first_instruction_account : nat) (offset : Z) (bytes : list byte)
    (ic : InstructionContext) : TxM unit :=
  reads (fun _ => check_number_of_instruction_accounts ic 2);;
  buffer ← reads (try_borrow_instruction_account ic 0);
  state ← get_loader_state buffer;
  (match state with
   | LoaderBuffer authority_address =>
       guard (negb (bool_decide (authority_address = None))) InstructionError.Immutable;;
       authority_key ← key_of_instruction_account ic 1;
       check_authority ic 1 authority_address authority_key
   | _ => throw InstructionError.InvalidAccountData
   end);;
  write_program_data first_instruction_account (size_of_buffer_metadata + Z.to_nat offset) bytes ic.

Definition set_authority (ic : InstructionContext) : TxM unit :=
  reads (fun _ => check_number_of_instruction_accounts ic 2);;
  account ← reads (try_borrow_instruction_account ic 0);
  present_authority_key ← key_of_instruction_account ic 1;
  new_authority ← (fun tc =>
    match key_of_instruction_account ic 2 tc with
    | Ok (k, tc) => Ok (Some k, tc)
    | Err _ => Ok (None, tc)
    | Panic => Panic
    end);
  state ← get_loader_state account;
  match state with
  | LoaderBuffer authority_address =>
      guard (negb (bool_decide (new_authority = None))) InstructionError.IncorrectAuthority;;
      guard (negb (bool_decide (authority_address = None))) InstructionError.Immutable;;
      check_authority ic 1 authority_address present_authority_key;;
      set_loader_state account (LoaderBuffer new_authority)
  | LoaderProgramData slot upgrade_authority_address =>
      guard (negb (bool_decide (upgrade_authority_address = None))) InstructionError.Immutable;;
      check_authority ic 1 upgrade_authority_address present_authority_key;;
      set_loader_state account (LoaderProgramData slot new_authority)
  | _ => throw InstructionError.InvalidArgument
  end.

Definition close (program_id : Pubkey) (ic : InstructionContext) : TxM unit :=
  reads (fun _ => check_number_of_instruction_accounts ic 2);;
  i ← reads (fun _ => get_index_of_instruction_account_in_transaction ic 0);
  j ← reads (fun _ => get_index_of_instruction_account_in_transaction ic 1);
  guard (negb (i =? j)%nat) InstructionError.InvalidArgument;;
  close_account ← reads (try_borrow_instruction_account ic 0);
  close_key ← BorrowedAccount.get_key close_account;
  state ← get_loader_state close_account;
  match state with
  | LoaderUninitialized =>
      close_lamports ← BorrowedAccount.get_lamports close_account;
      BorrowedAccount.set_lamports close_account 0;;
      recipient_account ← reads (try_borrow_instruction_account ic 1);
      BorrowedAccount.checked_add_lamports recipient_account close_lamports
  | LoaderBuffer authority_address =>
      reads (fun _ => check_number_of_instruction_accounts ic 3);;
      common_close_account authority_address ic
  | LoaderProgramData _ authority_address =>
      reads (fun _ => check_number_of_instruction_accounts ic 4);;
      program_account ← reads (try_borrow_instruction_account ic 3);
      guard (BorrowedAccount.is_writable program_account) InstructionError.InvalidArgument;;
      o ← BorrowedAccount.get_owner program_account;
      guard (key_eqb o program_id) InstructionError.IncorrectProgramId;;
      program_state ← get_loader_state program_account;
      match program_state with
      | LoaderProgram programdata_address =>
          guard (key_eqb programdata_address close_key) InstructionError.InvalidArgument;;
          common_close_account authority_address ic
      | _ => throw InstructionError.InvalidArgument
      end
  | _ => throw InstructionError.InvalidArgument
  end.

End operations.

(** ** Deploying and upgrading *)
Section deploy.
Context `{LoaderBincode} `{UpgradeableBincode} `{SystemBincode} `{Crypto}.
Variable env : LoaderEnv.
(** Loading and verifying the code in the bytes of a buffer. *)
Variable verify_elf : list byte -> result InstructionError contract.

Definition loader_rent (ic : InstructionContext) (i : nat) : TxM Rent :=
  check_sysvar_account rent_sysvar_id ic i;;
  reads (fun _ => ok_or (loader_cache_rent env) InstructionError.UnsupportedSysvar).
Definition loader_clock_slot (ic : InstructionContext) (i : nat) : TxM Z :=
  check_sysvar_account clock_sysvar_id ic i;;
  reads (fun _ => ok_or (loader_cache_clock_slot env) InstructionError.UnsupportedSysvar).

(** The buffer, instruction account [b], belongs to the authority, instruction account [i],
    who signed; its key, balance and the length of the code in it. *)
Definition verify_buffer (ic : InstructionContext) (b i : nat) (authority_key : Pubkey)
    : TxM (Pubkey * Z * nat) :=
  buffer ← reads (try_borrow_instruction_account ic b);
  state ← get_loader_state buffer;
  (match state with
   | LoaderBuffer authority_address => check_authority ic i authority_address authority_key
   | _ => throw InstructionError.InvalidArgument
   end);;
  buffer_key ← BorrowedAccount.get_key buffer;
  buffer_lamports ← BorrowedAccount.get_lamports buffer;
  d ← BorrowedAccount.get_data buffer;
  let buffer_data_len := (length d - size_of_buffer_metadata)%nat in
  guard (negb ((length d <? size_of_buffer_metadata)%nat || (buffer_data_len =? 0)%nat))
    InstructionError.InvalidAccountData;;
  mret (buffer_key, buffer_lamports, buffer_data_len).

(** What the checks of a deployment find. *)
Record Deployment : Type := mkDeployment {
  dp_payer_key : Pubkey;
  dp_programdata_key : Pubkey;
  dp_rent : Rent;
  dp_slot : Z;
  dp_authority_key : Pubkey;
  dp_new_program_id : Pubkey;
  dp_buffer_key : Pubkey;
  dp_buffer_lamports : Z;
  dp_buffer_data_len : nat;
  dp_programdata_len : Z;
  dp_bump_seed : byte
}.

Definition verify_deployment (program_id : Pubkey) (max_data_len : Z) (ic : InstructionContext)
    : TxM Deployment :=
  reads (fun _ => check_number_of_instruction_accounts ic 4);;
  payer_key ← key_of_instruction_account ic 0;
  programdata_key ← key_of_instruction_account ic 1;
  rent ← loader_rent ic 4;
  slot ← loader_clock_slot ic 5;
  reads (fun _ => check_number_of_instruction_accounts ic 8);;
  authority_key ← key_of_instruction_account ic 7;
  program ← reads (try_borrow_instruction_account ic 2);
  state ← get_loader_state program;
  guard (match state with LoaderUninitialized => true | _ => false end)
    InstructionError.AccountAlreadyInitialized;;
  d ← BorrowedAccount.get_data program;
  guard (negb (length d <? size_of_program)%nat) InstructionError.AccountDataTooSmall;;
  l ← BorrowedAccount.get_lamports program;
  guard (negb (l <? minimum_balance rent (Z.of_nat (length d))))
    InstructionError.ExecutableAccountNotRentExempt;;
  new_program_id ← BorrowedAccount.get_key program;
  '(buffer_key, buffer_lamports, buffer_data_len) ← verify_buffer ic 3 7 authority_key;
  guard (negb (max_data_len <? Z.of_nat buffer_data_len)) InstructionError.AccountDataTooSmall;;
  let programdata_len := size_of_programdata max_data_len in
  guard (negb (MAX_PERMITTED_DATA_LENGTH <? programdata_len)) InstructionError.InvalidArgument;;
  '(derived_address, bump_seed) ←
    reads (fun _ => unwrap (find_program_address [to_bytes new_program_id] program_id));
  guard (key_eqb derived_address programdata_key) InstructionError.InvalidArgument;;
  mret (mkDeployment payer_key programdata_key rent slot authority_key new_program_id buffer_key
          buffer_lamports buffer_data_len programdata_len bump_seed).

(** The balance of the buffer goes to the payer. *)
Definition drain_buffer (d : Deployment) (ic : InstructionContext) : TxM unit :=
  payer ← reads (try_borrow_instruction_account ic 0);
  BorrowedAccount.checked_add_lamports payer (dp_buffer_lamports d);;
  buffer ← reads (try_borrow_instruction_account ic 3);
  BorrowedAccount.set_lamports buffer 0.

Definition create_programdata (program_id : Pubkey) (d : Deployment) : Instruction :=
  let instruction :=
    SystemInstruction.create_account (dp_payer_key d) (dp_programdata_key d)
      (Z.max 1 (minimum_balance (dp_rent d) (dp_programdata_len d))) (dp_programdata_len d) program_id in
  mkInstruction (ix_program_id instruction)
    (ix_accounts instruction ++ [AccountMeta_new (dp_buffer_key d) false]) (ix_data instruction).

(** The code of the buffer, instruction account [b], into the program data account,
    instruction account [p], behind its new state. *)
Definition record_code (p b buffer_data_len : nat) (slot : Z) (authority_key : Pubkey)
    (ic : InstructionContext) : TxM unit :=
  programdata ← reads (try_borrow_instruction_account ic p);
  set_loader_state programdata (LoaderProgramData slot (Some authority_key));;
  a ← BorrowedAccount.cell programdata;
  guard (size_of_programdata_metadata + buffer_data_len <=? length (acc_data a))%nat
    InstructionError.AccountDataTooSmall;;
  buffer ← reads (try_borrow_instruction_account ic b);
  guard (negb (ba_index_in_transaction programdata =? ba_index_in_transaction buffer)%nat)
    InstructionError.AccountBorrowFailed;;
  d ← BorrowedAccount.get_data buffer;
  guard (size_of_buffer_metadata <=? length d)%nat InstructionError.AccountDataTooSmall;;
  let src_slice := drop size_of_buffer_metadata d in
  reads (fun _ => assert_ (length src_slice =? buffer_data_len)%nat);;
  BorrowedAccount.set_cell programdata
    (set_acc_data a (write_slice size_of_programdata_metadata src_slice (acc_data a))).

Definition finish_deployment (d : Deployment) (ic : InstructionContext) : TxM unit :=
  record_code 1 3 (dp_buffer_data_len d) (dp_slot d) (dp_authority_key d) ic;;
  program ← reads (try_borrow_instruction_account ic 2);
  set_loader_state program (LoaderProgram (dp_programdata_key d));;
  BorrowedAccount.set_executable program true;;
  if reduce_required_deploy_balance env then mret tt else drain_buffer d ic.

(** The code in the instruction account [b] is loaded and verified. *)
Definition load_code (first_instruction_account b : nat) (ic : InstructionContext)
    : TransactionContext -> result InstructionError contract :=
  create_executor verify_elf ic (first_instruction_account + b) size_of_buffer_metadata.

Definition deploy (first_instruction_account : nat) (program_id : Pubkey) (max_data_len : Z) : program :=
  reading (in_current (verify_deployment program_id max_data_len)) (fun d =>
  commit (fun ic => if reduce_required_deploy_balance env then drain_buffer d ic else mret tt) (
  reading (fun tc =>
    c ← get_current_instruction_context tc;
    caller_program_id ← get_last_program_key c tc;
    map_err instruction_error_of_pubkey_error
      (create_program_address [to_bytes (dp_new_program_id d); [dp_bump_seed d]] caller_program_id))
  (fun signer =>
  Invoke (create_programdata program_id d) [signer] [] (
  reading (fun tc => c ← get_current_instruction_context tc; load_code first_instruction_account 3 c tc)
  (fun _ =>
  commit (finish_deployment d) Return))))).

(** What the checks of an upgrade find. *)
Record UpgradePlan : Type := mkUpgradePlan {
  up_slot : Z;
  up_authority_key : Pubkey;
  up_buffer_lamports : Z;
  up_buffer_data_len : nat;
  up_balance_required : Z
}.

Definition verify_upgrade (program_id : Pubkey) (ic : InstructionContext) : TxM UpgradePlan :=
  reads (fun _ => check_number_of_instruction_accounts ic 3);;
  programdata_key ← key_of_instruction_account ic 0;
  rent ← loader_rent ic 4;
  slot ← loader_clock_slot ic 5;
  reads (fun _ => check_number_of_instruction_accounts ic 7);;
  authority_key ← key_of_instruction_account ic 6;
  program ← reads (try_borrow_instruction_account ic 1);
  executable ← BorrowedAccount.is_executable program;
  guard executable InstructionError.AccountNotExecutable;;
  guard (BorrowedAccount.is_writable program) InstructionError.InvalidArgument;;
  o ← BorrowedAccount.get_owner program;
  guard (key_eqb o program_id) InstructionError.IncorrectProgramId;;
  state ← get_loader_state program;
  (match state with
   | LoaderProgram programdata_address =>
       guard (key_eqb programdata_address programdata_key) InstructionError.InvalidArgument
   | _ => throw InstructionError.InvalidAccountData
   end);;
  '(_, buffer_lamports, buffer_data_len) ← verify_buffer ic 2 6 authority_key;
  programdata ← reads (try_borrow_instruction_account ic 0);
  d ← BorrowedAccount.get_data programdata;
  let programdata_balance_required := Z.max 1 (minimum_balance rent (Z.of_nat (length d))) in
  guard (negb (Z.of_nat (length d) <? size_of_programdata (Z.of_nat buffer_data_len)))
    InstructionError.AccountDataTooSmall;;
  l ← BorrowedAccount.get_lamports programdata;
  guard (negb (saturate_u64 (l + buffer_lamports) <? programdata_balance_required))
    InstructionError.InsufficientFunds;;
  state ← get_loader_state programdata;
  (match state with
   | LoaderProgramData _ upgrade_authority_address =>
       guard (negb (bool_decide (upgrade_authority_address = None))) InstructionError.Immutable;;
       check_authority ic 6 upgrade_authority_address authority_key
   | _ => throw InstructionError.InvalidAccountData
   end);;
  mret (mkUpgradePlan slot authority_key buffer_lamports buffer_data_len programdata_balance_required).

Definition finish_upgrade (u : UpgradePlan) (ic : InstructionContext) : TxM unit :=
  record_code 0 2 (up_buffer_data_len u) (up_slot u) (up_authority_key u) ic;;
  programdata ← reads (try_borrow_instruction_account ic 0);
  a ← BorrowedAccount.cell programdata;
  let kept := (size_of_programdata_metadata + up_buffer_data_len u)%nat in
  guard (kept <=? length (acc_data a))%nat InstructionError.AccountDataTooSmall;;
  BorrowedAccount.set_cell programdata
    (set_acc_data a (take kept (acc_data a) ++ replicate (length (acc_data a) - kept) x00));;
  programdata_lamports ← BorrowedAccount.get_lamports programdata;
  BorrowedAccount.set_lamports programdata (up_balance_required u);;
  buffer ← reads (try_borrow_instruction_account ic 2);
  BorrowedAccount.set_lamports buffer 0;;
  spill ← reads (try_borrow_instruction_account ic 3);
  BorrowedAccount.checked_add_lamports spill
    (saturate_u64 (saturate_u64 (programdata_lamports + up_buffer_lamports u) - up_balance_required u)).

Definition upgrade (first_instruction_account : nat) (program_id : Pubkey) : program :=
  reading (in_current (verify_upgrade program_id)) (fun u =>
  reading (fun tc => c ← get_current_instruction_context tc; load_code first_instruction_account 2 c tc)
  (fun _ => commit (finish_upgrade u) Return)).

(** ** The processors *)
Definition process_loader_upgradeable_instruction (first_instruction_account : nat) : program :=
  reading get_current_instruction_context (fun c =>
  reading (get_last_program_key c) (fun program_id =>
  match limited_deserialize_upgradeable (instruction_data c) with
  | None => Abort_with InstructionError.InvalidInstructionData
  | Some InitializeBuffer => commit initialize_buffer Return
  | Some (LoaderWrite offset bytes) => commit (write_buffer first_instruction_account offset bytes) Return
  | Some (DeployWithMaxDataLen max_data_len) => deploy first_instruction_account program_id max_data_len
  | Some LoaderUpgrade => upgrade first_instruction_account program_id
  | Some LoaderSetAuthority => commit set_authority Return
  | Some LoaderClose => commit (close program_id) Return
  end)).

(** The account to be written or finalized signed and belongs to the loader. *)
Definition check_plain_program (ic : InstructionContext) : TxM bool :=
  program_id ← reads (get_last_program_key ic);
  program ← reads (try_borrow_instruction_account ic 0);
  o ← BorrowedAccount.get_owner program;
  guard (key_eqb o program_id) InstructionError.IncorrectProgramId;;
  mret (BorrowedAccount.is_signer program).

Definition process_loader_instruction (first_instruction_account : nat) : program :=
  reading (in_current check_plain_program) (fun is_program_signer =>
  reading get_current_instruction_context (fun c =>
  match limited_deserialize_plain (instruction_data c) with
  | None => Abort_with InstructionError.InvalidInstructionData
  | Some (PlainWrite offset bytes) =>
      demand is_program_signer InstructionError.MissingRequiredSignature
        (commit (write_program_data first_instruction_account (Z.to_nat offset) bytes) Return)
  | Some Finalize =>
      demand is_program_signer InstructionError.MissingRequiredSignature (
      reading (fun tc => create_executor verify_elf c first_instruction_account 0 tc) (fun _ =>
      commit (fun ic =>
        program ← reads (try_borrow_instruction_account ic 0);
        BorrowedAccount.set_executable program true) Return))
  end)).

End deploy.
