(* ===== verification/UpgradeFacts.v ===== *)
(** * What the loaders do to accounts

    Inversion of the handlers of [UpgradeableLoader]: which accounts they write, under
    which authority, and that they keep accounts typed; so the instructions of the loaders
    are well behaved built-ins of the runtime. *)

From Stdlib Require Import Strings.Byte.
From S2P Require Import Prelude Sdk Rent Program SystemInstruction Transaction Serialization SerializationFacts ReadBack Nonce SystemProgram SystemSafety Runtime RuntimeSafety Message MessageProcessor Loader LoaderFacts CallContexts Ledger LedgerSafety LoaderLedger UpgradeableLoader.

(** ** Writing one account *)

(** [tc'] is [tc] with the account [i], which was [a], replaced by [a']. *)
Definition rewrites (i : nat) (a a' : Account) (tc tc' : TransactionContext) : Prop :=
  accounts tc !! i = Some a /\ writes tc (<[i := a']> (accounts tc)) tc'.

Lemma rewrites_typed i a a' tc tc' :
  rewrites i a a' tc tc' -> (account_typed a -> account_typed a') ->
  Forall account_typed (accounts tc) -> Forall account_typed (accounts tc').
Proof.
  intros [Ha Hw] Hty Hall. rewrite (writes_accounts _ _ _ Hw). apply Forall_insert; [done|].
  apply Hty. by eapply Forall_lookup_1.
Qed.

Lemma typed_data a d :
  length d = length (acc_data a) -> account_typed a -> account_typed (set_acc_data a d).
Proof. intros Hl (? & ? & ?). split_and!; cbn; congruence. Qed.

Lemma typed_lamports a l : is_u64 l -> account_typed a -> account_typed (set_acc_lamports a l).
Proof. intros Hl (? & ? & ?). by split_and!. Qed.

Lemma length_write_slice offset bytes data :
  (offset + length bytes <= length data)%nat -> length (write_slice offset bytes data) = length data.
Proof. intros Hl. unfold write_slice. rewrite !length_app, length_take, length_drop. lia. Qed.

Section accounts.
Context `{LoaderBincode} `{UpgradeableBincode}.

Lemma get_loader_state_ok b tc st tc' :
  get_loader_state b tc = Ok (st, tc') ->
  tc' = tc /\ exists a, accounts tc !! ba_index_in_transaction b = Some a /\
    bincode_deserialize_loader (acc_data a) = Some st.
Proof. unfold get_loader_state. intros Hs. inv_tx. eauto. Qed.

Lemma set_loader_state_ok b st tc u tc' :
  set_loader_state b st tc = Ok (u, tc') ->
  exists a, (length (bincode_serialize_loader st) <= length (acc_data a))%nat /\
    rewrites (ba_index_in_transaction b) a
      (set_acc_data a (write_prefix (bincode_serialize_loader st) (acc_data a))) tc tc'.
Proof.
  unfold set_loader_state. intros Hs. inv_tx.
  destruct (Nat.ltb_spec (length (acc_data x)) (length (bincode_serialize_loader st))); [done|].
  exists x. split; [done|]. split; [done|]. by eapply set_cell_ok.
Qed.

Lemma lamports_set b l tc u tc' :
  BorrowedAccount.set_lamports b l tc = Ok (u, tc') ->
  exists a, rewrites (ba_index_in_transaction b) a (set_acc_lamports a l) tc tc'.
Proof. unfold BorrowedAccount.set_lamports. intros Hs. inv_tx. eexists. split; [done|]. by eapply set_cell_ok. Qed.

Lemma add_lamports_ok b l tc u tc' :
  BorrowedAccount.checked_add_lamports b l tc = Ok (u, tc') ->
  exists a, acc_lamports a + l <= U64_MAX /\
    rewrites (ba_index_in_transaction b) a (set_acc_lamports a (acc_lamports a + l)) tc tc'.
Proof. intros (a & Ha & Hl & Hw)%checked_add_lamports_ok. by exists a. Qed.

Definition made_executable (a : Account) : Account :=
  mkAccount (acc_lamports a) (acc_data a) (acc_owner a) true (acc_rent_epoch a).

Lemma set_executable_ok b tc u tc' :
  BorrowedAccount.set_executable b true tc = Ok (u, tc') ->
  exists a, rewrites (ba_index_in_transaction b) a (made_executable a) tc tc'.
Proof. unfold BorrowedAccount.set_executable. intros Hs. inv_tx. eexists. split; [done|]. by eapply set_cell_ok. Qed.

Lemma borrow_at_ok c i tc b :
  borrow_account_at c i tc = Ok b -> get_index_in_transaction c i = Ok (ba_index_in_transaction b).
Proof.
  unfold borrow_account_at, get_index_in_transaction. destruct (_ <? _)%nat; intros Hb;
    apply result_bind_ok in Hb as (j & Hj & Hb); rewrite Hj; unfold try_borrow_account in Hb;
    destruct (accounts tc !! j); [by injection Hb as <-|done|by injection Hb as <-|done].
Qed.

Lemma write_program_data_ok i offset bytes c tc u tc' :
  write_program_data i offset bytes c tc = Ok (u, tc') ->
  exists j a, get_index_in_transaction c i = Ok j /\ (offset + length bytes <= length (acc_data a))%nat /\
    rewrites j a (set_acc_data a (write_slice offset bytes (acc_data a))) tc tc'.
Proof.
  unfold write_program_data. intros Hs. inv_tx.
  match goal with Hb : borrow_account_at _ _ _ = _ |- _ => apply borrow_at_ok in Hb end.
  match goal with Hl : negb _ = true |- _ => apply negb_true_iff, Nat.ltb_ge in Hl end.
  eexists _, _. split_and!; [done..|]. split; [done|]. by eapply set_cell_ok.
Qed.

Lemma check_authority_ok c i o k tc u tc' :
  check_authority c i o k tc = Ok (u, tc') ->
  tc' = tc /\ o = Some k /\ exists ia, instruction_accounts c !! i = Some ia /\ ia_is_signer ia = true.
Proof.
  unfold check_authority. intros Hs. inv_tx.
  match goal with Ho : bool_decide _ = true |- _ => apply bool_decide_eq_true in Ho end.
  match goal with Hg : is_instruction_account_signer _ _ = _ |- _ =>
    unfold is_instruction_account_signer in Hg; apply result_bind_ok in Hg as (ia & Hia & [= <-]) end.
  apply ok_or_ok in Hia. split_and!; [done..|]. by exists ia.
Qed.

End accounts.

(** ** Changes by a handler *)

(** The account got lamports and is otherwise as it was. *)
Definition credited (a a' : Account) : Prop :=
  acc_lamports a <= acc_lamports a' /\ a' = set_acc_lamports a (acc_lamports a').

Lemma credited_refl a : credited a a.
Proof. split; [lia|]. by destruct a. Qed.
Lemma credited_trans a b c : credited a b -> credited b c -> credited a c.
Proof. intros [? E1] [? E2]. split; [lia|]. rewrite E2, E1. by destruct a. Qed.

(** Accounts outside of [H] are at most credited; no account changes its owner or the
    length of its data. *)
Record handled (H : nat -> Prop) (tc tc' : TransactionContext) : Prop := {
  hd_writes : writes tc (accounts tc') tc';
  hd_length : length (accounts tc') = length (accounts tc);
  hd_typed : Forall account_typed (accounts tc) -> Forall account_typed (accounts tc');
  hd_each j a : accounts tc !! j = Some a -> exists a', accounts tc' !! j = Some a' /\
    acc_owner a' = acc_owner a /\ length (acc_data a') = length (acc_data a) /\ (~ H j -> credited a a')
}.

Lemma handled_refl H tc : handled H tc tc.
Proof. split; [apply writes_refl|done..|]. intros j a Ha. exists a. eauto using credited_refl. Qed.

Lemma handled_trans H tc1 tc2 tc3 : handled H tc1 tc2 -> handled H tc2 tc3 -> handled H tc1 tc3.
Proof.
  intros [W1 L1 T1 E1] [W2 L2 T2 E2]. split; [by eapply writes_trans|congruence|auto|].
  intros j a Ha. destruct (E1 j a Ha) as (b & Hb & Ho & Hl & Hc). destruct (E2 j b Hb) as (d & Hd & Ho' & Hl' & Hc').
  exists d. split_and!; [done|congruence|congruence|]. intros Hn. eapply credited_trans; eauto.
Qed.

Lemma handled_rewrites (H : nat -> Prop) i a a' tc tc' :
  rewrites i a a' tc tc' -> (account_typed a -> account_typed a') -> acc_owner a' = acc_owner a ->
  length (acc_data a') = length (acc_data a) -> H i \/ credited a a' -> handled H tc tc'.
Proof.
  intros Hr Hty Ho Hl Hi. pose proof Hr as [Ha Hw]. pose proof (writes_accounts _ _ _ Hw) as Hacc.
  split; [by rewrite Hacc|by rewrite Hacc, length_insert|by eapply rewrites_typed|].
  intros j b Hj. rewrite Hacc. destruct (decide (i = j)) as [<-|Hne].
  - assert (b = a) as -> by congruence. exists a'. rewrite list_lookup_insert_eq by (by eapply lookup_lt_Some).
    split_and!; [done..|]. intros Hn. by destruct Hi.
  - exists b. rewrite list_lookup_insert_ne by done. eauto using credited_refl.
Qed.

Section handlers.
Context `{LoaderBincode} `{UpgradeableBincode}.

Lemma set_loader_state_handled (Q : nat -> Prop) b st tc u tc' :
  Q (ba_index_in_transaction b) -> set_loader_state b st tc = Ok (u, tc') -> handled Q tc tc'.
Proof.
  intros Hb (a & Hl & Hr)%set_loader_state_ok. eapply handled_rewrites; [exact Hr| |done| |by left].
  - apply typed_data. by apply length_write_prefix.
  - by apply length_write_prefix.
Qed.

Lemma set_lamports_handled (Q : nat -> Prop) b l tc u tc' :
  is_u64 l -> Q (ba_index_in_transaction b) -> BorrowedAccount.set_lamports b l tc = Ok (u, tc') -> handled Q tc tc'.
Proof.
  intros Hl Hb (a & Hr)%lamports_set. eapply handled_rewrites; [exact Hr|by apply typed_lamports|done..|by left].
Qed.

Lemma add_lamports_handled Q b l tc u tc' :
  0 <= l -> BorrowedAccount.checked_add_lamports b l tc = Ok (u, tc') -> handled Q tc tc'.
Proof.
  intros Hl (a & Hmax & Hr)%add_lamports_ok. eapply handled_rewrites; [exact Hr| |done..|].
  - intros Hty. apply typed_lamports; [|done]. destruct Hty as ([? ?] & _). split; lia.
  - right. split; [cbn; lia|done].
Qed.

Lemma write_program_data_handled (Q : nat -> Prop) i offset bytes c tc u tc' :
  (forall j, get_index_in_transaction c i = Ok j -> Q j) ->
  write_program_data i offset bytes c tc = Ok (u, tc') -> handled Q tc tc'.
Proof.
  intros Hi (j & a & Hj & Hl & Hr)%write_program_data_ok.
  eapply handled_rewrites; [exact Hr| |done| |left; auto]; [apply typed_data|]; by apply length_write_slice.
Qed.

Lemma set_executable_handled (Q : nat -> Prop) b tc u tc' :
  Q (ba_index_in_transaction b) -> BorrowedAccount.set_executable b true tc = Ok (u, tc') -> handled Q tc tc'.
Proof. intros Hb (a & Hr)%set_executable_ok. eapply handled_rewrites; [exact Hr|done..|by left]. Qed.

End handlers.

(** ** Authority *)

(** The account of key [k] signed the instruction. *)
Definition signed (c : InstructionContext) (keys : list Pubkey) (k : Pubkey) : Prop :=
  exists i ia, instruction_accounts c !! i = Some ia /\ ia_is_signer ia = true /\
    keys !! index_in_transaction ia = Some k.

Section authority.
Context `{LoaderBincode} `{UpgradeableBincode}.

(** Whoever signed may change an account in the state: its authority for a buffer or the data
    of a program, and no signature is enough when there is no authority, for a program account
    or when there is no state. Nobody has to sign for an uninitialized account, where [fresh]
    says that the instruction takes such accounts. *)
Definition controls (fresh : bool) (sg : Pubkey -> Prop) (st : option UpgradeableLoaderState) : Prop :=
  match st with
  | Some LoaderUninitialized => fresh = true
  | Some (LoaderBuffer (Some k)) | Some (LoaderProgramData _ (Some k)) => sg k
  | _ => False
  end.

Definition held (fresh : bool) (c : InstructionContext) (tc : TransactionContext) (j : nat) : Prop :=
  exists a, accounts tc !! j = Some a /\
    controls fresh (signed c (account_keys tc)) (bincode_deserialize_loader (acc_data a)).

Lemma check_signed c i o k tc u tc' :
  key_of_instruction_account c i tc = Ok (k, tc) -> check_authority c i o k tc = Ok (u, tc') ->
  tc' = tc /\ o = Some k /\ signed c (account_keys tc) k.
Proof.
  intros (_ & ia & Hia & Hk)%key_of_instruction_account_ok (-> & -> & ia' & Hia' & Hs)%check_authority_ok.
  split_and!; [done..|]. exists i, ia. split_and!; congruence.
Qed.

(** The state of a borrowed account, as found by a handler. *)
Lemma state_held fresh c tc b st tc' :
  get_loader_state b tc = Ok (st, tc') -> controls fresh (signed c (account_keys tc)) (Some st) ->
  held fresh c tc (ba_index_in_transaction b).
Proof. intros (_ & a & Ha & Hd)%get_loader_state_ok Hc. exists a. by rewrite Hd. Qed.

Lemma initialize_buffer_handled c tc u tc' :
  initialize_buffer c tc = Ok (u, tc') -> handled (held true c tc) tc tc'.
Proof.
  unfold initialize_buffer. intros Hi. inv_tx.
  match goal with Hg : get_loader_state _ _ = Ok (?st, ?t) |- _ =>
    pose proof (state_held true c _ _ _ _ Hg) as Hh; apply get_loader_state_ok in Hg as [-> _]; destruct st; try done end.
  match goal with Hk : key_of_instruction_account _ _ _ = _ |- _ => apply key_of_instruction_account_ok in Hk as [-> _] end.
  eapply set_loader_state_handled; [by apply Hh|exact Hi].
Qed.

Lemma write_buffer_ok first offset bytes c tc u tc' :
  write_buffer first offset bytes c tc = Ok (u, tc') ->
  (exists ia, instruction_accounts c !! 0%nat = Some ia /\ held false c tc (index_in_transaction ia)) /\
  write_program_data first (size_of_buffer_metadata + Z.to_nat offset) bytes c tc = Ok (u, tc').
Proof.
  unfold write_buffer. intros Hi. inv_tx.
  match goal with Hg : get_loader_state _ _ = Ok (?st, ?t) |- _ =>
    pose proof (state_held false c _ _ _ _ Hg) as Hh; apply get_loader_state_ok in Hg as [-> _]; destruct st; try done end.
  inv_tx.
  match goal with Hk : key_of_instruction_account _ _ _ = _ |- _ =>
    pose proof (key_of_instruction_account_ok _ _ _ _ _ Hk) as [-> _] end.
  match goal with Hk : key_of_instruction_account _ _ _ = _, Ha : check_authority _ _ _ _ _ = _ |- _ =>
    destruct (check_signed _ _ _ _ _ _ _ Hk Ha) as (-> & -> & Hs) end.
  match goal with Hb : try_borrow_instruction_account _ _ _ = _ |- _ =>
    apply borrow_instruction_ok in Hb as (ia & a & Hia & Hix & _) end.
  split; [|exact Hi]. exists ia. split; [done|]. rewrite <-Hix. by apply Hh.
Qed.

(** The loader is entered with the position of the first instruction account. *)
Lemma write_buffer_handled first offset bytes c tc u tc' :
  first = length (program_accounts c) ->
  write_buffer first offset bytes c tc = Ok (u, tc') -> handled (held false c tc) tc tc'.
Proof.
  intros Hfirst [(ia & Hia & Hh) Hi]%write_buffer_ok. eapply write_program_data_handled; [|exact Hi]. intros j Hj.
  unfold get_index_in_transaction in Hj. rewrite Hfirst, Nat.ltb_irrefl, Nat.sub_diag in Hj.
  unfold get_index_of_instruction_account_in_transaction in Hj. rewrite Hia in Hj. by injection Hj as <-.
Qed.

Lemma set_authority_handled c tc u tc' :
  set_authority c tc = Ok (u, tc') -> handled (held false c tc) tc tc'.
Proof.
  unfold set_authority. intros Hi. inv_tx.
  match goal with Hk : key_of_instruction_account _ _ _ = _ |- _ =>
    pose proof (key_of_instruction_account_ok _ _ _ _ _ Hk) as [-> _] end.
  match goal with Hn : match key_of_instruction_account c 2 ?t with Ok _ => _ | Err _ => _ | Panic => _ end = Ok (_, ?t') |- _ =>
    assert (t' = t) as -> by (destruct (key_of_instruction_account c 2 t) as [[k t1]|e|] eqn:E2;
      [apply key_of_instruction_account_ok in E2 as [-> _]; by injection Hn|by injection Hn|done]) end.
  match goal with Hg : get_loader_state _ _ = Ok (?st, ?t) |- _ =>
    pose proof (state_held false c _ _ _ _ Hg) as Hh; apply get_loader_state_ok in Hg as [-> _]; destruct st; try done end;
  inv_tx;
  match goal with Hk : key_of_instruction_account c 1 _ = _, Ha : check_authority _ _ _ _ _ = _ |- _ =>
    destruct (check_signed _ _ _ _ _ _ _ Hk Ha) as (-> & -> & Hs) end;
  (eapply set_loader_state_handled; [by apply Hh|exact Hi]).
Qed.


Lemma typed_balance i tc a : Forall account_typed (accounts tc) -> accounts tc !! i = Some a -> 0 <= acc_lamports a.
Proof. intros Hty Ha. by eapply Forall_lookup_1 in Hty as ([? _] & _); [|exact Ha]. Qed.

Lemma common_close_handled o c tc u tc' :
  Forall account_typed (accounts tc) ->
  (forall ia, instruction_accounts c !! 0%nat = Some ia ->
     controls true (signed c (account_keys tc)) (Some (LoaderBuffer o)) -> held true c tc (index_in_transaction ia)) ->
  common_close_account o c tc = Ok (u, tc') -> handled (held true c tc) tc tc'.
Proof.
  intros Hty Hh Hi. unfold common_close_account in Hi. inv_tx.
  match goal with Hk : key_of_instruction_account _ _ _ = _ |- _ =>
    pose proof (key_of_instruction_account_ok _ _ _ _ _ Hk) as [-> _] end.
  match goal with Hk : key_of_instruction_account c 2 _ = _, Ha : check_authority _ _ _ _ _ = _ |- _ =>
    destruct (check_signed _ _ _ _ _ _ _ Hk Ha) as (-> & -> & Hs) end.
  match goal with Hb : try_borrow_instruction_account c 0 _ = Ok ?b |- _ =>
    apply borrow_instruction_ok in Hb as (ia & a & Hia & Hix & Ha & _);
    assert (held true c tc (ba_index_in_transaction b)) as Hb' by (rewrite Hix; by apply Hh) end.
  match goal with Hadd : BorrowedAccount.checked_add_lamports _ _ _ = Ok _,
    Hset : BorrowedAccount.set_lamports _ _ _ = Ok _ |- _ =>
    apply (add_lamports_handled (held true c tc)) in Hadd; [|by eapply typed_balance];
    apply (set_lamports_handled (held true c tc)) in Hset; [|done|done];
    eapply handled_trans; [exact Hadd|]; eapply handled_trans; [exact Hset|] end.
  by eapply set_loader_state_handled.
Qed.

Lemma close_handled pid c tc u tc' :
  Forall account_typed (accounts tc) -> close pid c tc = Ok (u, tc') -> handled (held true c tc) tc tc'.
Proof.
  intros Hty Hi. unfold close in Hi. inv_tx.
  match goal with Hb : try_borrow_instruction_account c 0 _ = Ok ?b |- _ =>
    apply borrow_instruction_ok in Hb as (ia & a & Hia & Hix & Ha & _) end.
  match goal with Hg : get_loader_state _ _ = Ok (?st, ?t) |- _ =>
    pose proof (state_held true c _ _ _ _ Hg) as Hh; apply get_loader_state_ok in Hg as [-> _]; destruct st; try done end;
  inv_tx.
  - match goal with Hset : BorrowedAccount.set_lamports _ _ _ = Ok _ |- _ =>
      apply (set_lamports_handled (held true c tc)) in Hset; [|done|by apply Hh];
      eapply handled_trans; [exact Hset|] end.
    eapply add_lamports_handled; [|exact Hi]. by eapply typed_balance.
  - eapply common_close_handled; [done| |exact Hi]. intros ia' Hia' Hc. assert (ia' = ia) as -> by congruence.
    rewrite <-Hix. by apply Hh.
  - match goal with Hg : get_loader_state _ _ = Ok (?st, ?t) |- _ =>
      apply get_loader_state_ok in Hg as [-> _]; destruct st; try done end. inv_tx.
    eapply common_close_handled; [done| |exact Hi]. intros ia' Hia' Hc. assert (ia' = ia) as -> by congruence.
    rewrite <-Hix. by apply Hh.
Qed.

End authority.

(** ** Deploying and upgrading *)

(** The index of the instruction account [i] is in [Q]. *)
Definition at_account (c : InstructionContext) (Q : nat -> Prop) (i : nat) : Prop :=
  forall ia, instruction_accounts c !! i = Some ia -> Q (index_in_transaction ia).

Lemma borrowed_in c Q i tc b :
  at_account c Q i -> try_borrow_instruction_account c i tc = Ok b -> Q (ba_index_in_transaction b).
Proof. intros Hq (ia & a & Hia & -> & _)%borrow_instruction_ok. by apply Hq. Qed.

Lemma saturate_u64_range z : is_u64 (saturate_u64 z).
Proof. unfold is_u64, saturate_u64, U64_MAX. lia. Qed.

Section deploy.
Context `{LoaderBincode} `{UpgradeableBincode} `{SystemBincode} `{Crypto}.
Variable env : LoaderEnv.

Lemma record_code_handled Q p b n slot k c tc u tc' :
  at_account c Q p -> record_code p b n slot k c tc = Ok (u, tc') -> handled Q tc tc'.
Proof.
  intros Hp Hr. unfold record_code in Hr. inv_tx.
  match goal with Hb : try_borrow_instruction_account c p _ = _ |- _ => apply (borrowed_in _ _ _ _ _ Hp) in Hb end.
  match goal with Hs : set_loader_state _ _ _ = _ |- _ =>
    eapply handled_trans; [by eapply set_loader_state_handled|] end.
  repeat match goal with
  | Hl : (_ <=? _)%nat = true |- _ => apply Nat.leb_le in Hl
  | Hl : assert_ (_ =? _)%nat = Ok _ |- _ => apply assert_ok, Nat.eqb_eq in Hl
  end.
  apply set_cell_ok in Hr. match goal with Ha : accounts _ !! ba_index_in_transaction ?b0 = Some ?a,
    Hw : writes _ (<[ba_index_in_transaction ?b0 := set_acc_data ?a ?d]> _) _ |- _ =>
    assert (length d = length (acc_data a)) as Hlen by (apply length_write_slice; lia);
    eapply (handled_rewrites Q _ a); [by split|by apply typed_data|done..|by left] end.
Qed.

Lemma finish_upgrade_handled Q plan c tc u tc' :
  at_account c Q 0 -> at_account c Q 2 -> is_u64 (up_balance_required plan) ->
  finish_upgrade plan c tc = Ok (u, tc') -> handled Q tc tc'.
Proof.
  intros Hpd Hbuf Hu Hf. unfold finish_upgrade in Hf. inv_tx.
  match goal with Hr : record_code _ _ _ _ _ _ _ = _ |- _ =>
    eapply handled_trans; [exact (record_code_handled Q 0 2 _ _ _ _ _ _ _ Hpd Hr)|] end.
  repeat match goal with
  | Hb : try_borrow_instruction_account c 0 _ = _ |- _ => apply (borrowed_in _ _ _ _ _ Hpd) in Hb
  | Hb : try_borrow_instruction_account c 2 _ = _ |- _ => apply (borrowed_in _ _ _ _ _ Hbuf) in Hb
  | Hl : (_ <=? _)%nat = true |- _ => apply Nat.leb_le in Hl
  end.
  match goal with Hs : BorrowedAccount.set_cell _ (set_acc_data ?a ?d) _ = _ |- _ =>
    apply set_cell_ok in Hs;
    assert (length d = length (acc_data a)) as Hlen by (rewrite length_app, length_take, length_replicate; lia);
    eapply handled_trans; [eapply (handled_rewrites Q _ a); [by split|by apply typed_data|done..|by left]|] end.
  match goal with Hs : BorrowedAccount.set_lamports _ (up_balance_required plan) _ = _ |- _ =>
    apply (set_lamports_handled Q) in Hs; [|done|done]; eapply handled_trans; [exact Hs|] end.
  match goal with Hs : BorrowedAccount.set_lamports _ 0 _ = _ |- _ =>
    apply (set_lamports_handled Q) in Hs; [|done|done]; eapply handled_trans; [exact Hs|] end.
  eapply add_lamports_handled; [|exact Hf]. apply saturate_u64_range.
Qed.


Ltac sysvar_reads := repeat match goal with
  | Hk : key_of_instruction_account _ _ ?t = Ok (_, ?t') |- _ =>
      assert_fails (constr_eq t t'); pose proof (key_of_instruction_account_ok _ _ _ _ _ Hk) as [-> _]
  | Hc : check_sysvar_account _ _ _ _ = Ok _ |- _ => apply check_sysvar_account_ok in Hc as ->
  end.

Lemma verify_buffer_ok c b i k tc r tc' :
  key_of_instruction_account c i tc = Ok (k, tc) -> verify_buffer c b i k tc = Ok (r, tc') ->
  tc' = tc /\ at_account c (held false c tc) b /\
  exists ia a, instruction_accounts c !! b = Some ia /\ accounts tc !! index_in_transaction ia = Some a /\
    r.1.2 = acc_lamports a /\ (r.2 = length (acc_data a) - size_of_buffer_metadata)%nat /\
    (size_of_buffer_metadata <= length (acc_data a))%nat.
Proof.
  intros Hk Hv. unfold verify_buffer in Hv. inv_tx.
  match goal with Hg : get_loader_state _ _ = Ok (?st, ?t) |- _ =>
    pose proof (state_held false c _ _ _ _ Hg) as Hh; apply get_loader_state_ok in Hg as [-> _]; destruct st; try done end.
  match goal with Ha : check_authority _ _ _ _ _ = _ |- _ =>
    destruct (check_signed _ _ _ _ _ _ _ Hk Ha) as (-> & -> & Hs) end.
  match goal with Hb : try_borrow_instruction_account c b _ = Ok _ |- _ =>
    apply borrow_instruction_ok in Hb as (ia & a & Hia & Hix & Ha & _) end.
  rewrite Hix in *. simplify_eq. split; [done|]. split.
  - intros ia' Hia'. assert (ia' = ia) as -> by congruence. by apply Hh.
  - exists ia. eexists. split_and!; [done..|]. cbn [fst snd].
    match goal with Hl : negb _ = true |- _ =>
      apply negb_true_iff, orb_false_iff in Hl as [Hl _]; by apply Nat.ltb_ge in Hl end.
Qed.

Lemma verify_upgrade_ok pid c tc plan tc' :
  verify_upgrade env pid c tc = Ok (plan, tc') ->
  tc' = tc /\ at_account c (held false c tc) 0 /\ at_account c (held false c tc) 2 /\ is_u64 (up_balance_required plan).
Proof.
  intros Hv. unfold verify_upgrade, loader_rent, loader_clock_slot, BorrowedAccount.is_executable in Hv.
  inv_tx. sysvar_reads.
  match goal with Hg : get_loader_state _ _ = Ok (?st, ?t), Hm : match ?st with _ => _ end _ = Ok _ |- _ =>
    apply get_loader_state_ok in Hg as [-> _]; destruct st; try done end. inv_tx.
  match goal with Hb : verify_buffer _ _ _ _ _ = Ok (?r, _), Hk : key_of_instruction_account c 6 _ = _ |- _ =>
    destruct (verify_buffer_ok _ _ _ _ _ _ _ Hk Hb) as (-> & Hbuf & _); destruct r as [[bk bl] n] end.
  inv_tx. match goal with Hb : try_borrow_instruction_account c 0 _ = Ok _ |- _ =>
    apply borrow_instruction_ok in Hb as (ia & a & Hia & Hix & Ha & _) end.
  match goal with Hg : get_loader_state _ _ = Ok (?st, ?t), Hm : match ?st with _ => _ end _ = Ok _ |- _ =>
    pose proof (state_held false c _ _ _ _ Hg) as Hh; apply get_loader_state_ok in Hg as [-> _]; destruct st; try done end.
  inv_tx. match goal with Hk : key_of_instruction_account c 6 _ = _, Ha : check_authority _ _ _ _ _ = _ |- _ =>
    destruct (check_signed _ _ _ _ _ _ _ Hk Ha) as (-> & -> & Hs) end.
  split_and!; [done| |done|].
  - intros ia' Hia'. assert (ia' = ia) as -> by congruence. rewrite <-Hix. by apply Hh.
  - cbn. match goal with |- context [minimum_balance ?r ?n] =>
      pose proof (minimum_balance_range r n) as Hr; unfold is_u64, U64_MAX in Hr |- * end. lia.
Qed.

Lemma drain_buffer_handled Q d c tc u tc' :
  0 <= dp_buffer_lamports d -> at_account c Q 3 -> drain_buffer d c tc = Ok (u, tc') -> handled Q tc tc'.
Proof.
  intros Hl Hb Hd. unfold drain_buffer in Hd. inv_tx.
  match goal with Hadd : BorrowedAccount.checked_add_lamports _ _ _ = Ok _ |- _ =>
    apply (add_lamports_handled Q) in Hadd; [|done]; eapply handled_trans; [exact Hadd|] end.
  match goal with Hb3 : try_borrow_instruction_account c 3 _ = _ |- _ => apply (borrowed_in _ _ _ _ _ Hb) in Hb3 end.
  eapply set_lamports_handled; [|eassumption|exact Hd]. done.
Qed.

Lemma finish_deployment_handled Q d c tc u tc' :
  0 <= dp_buffer_lamports d -> at_account c Q 1 -> at_account c Q 2 -> at_account c Q 3 ->
  finish_deployment env d c tc = Ok (u, tc') -> handled Q tc tc'.
Proof.
  intros Hl Hpd Hp Hb Hf. unfold finish_deployment in Hf. inv_tx.
  match goal with Hr : record_code _ _ _ _ _ _ _ = _ |- _ =>
    eapply handled_trans; [exact (record_code_handled Q 1 3 _ _ _ _ _ _ _ Hpd Hr)|] end.
  match goal with Hb2 : try_borrow_instruction_account c 2 _ = _ |- _ => apply (borrowed_in _ _ _ _ _ Hp) in Hb2 end.
  match goal with Hs : set_loader_state _ _ _ = _ |- _ =>
    eapply handled_trans; [by eapply set_loader_state_handled|] end.
  match goal with Hs : BorrowedAccount.set_executable _ _ _ = _ |- _ =>
    eapply handled_trans; [by eapply set_executable_handled|] end.
  destruct (reduce_required_deploy_balance env); [inv_tx; apply handled_refl|by eapply drain_buffer_handled].
Qed.

(** A deployment is verified: the buffer is held and the program account not initialized;
    the program data account has the address derived from the program. *)
Lemma verify_deployment_ok pid n c tc d tc' :
  Forall account_typed (accounts tc) -> verify_deployment env pid n c tc = Ok (d, tc') ->
  tc' = tc /\ at_account c (held true c tc) 2 /\ at_account c (held false c tc) 3 /\
  0 <= dp_buffer_lamports d /\ 0 <= dp_programdata_len d <= MAX_PERMITTED_DATA_LENGTH /\
  key_of_instruction_account c 0 tc = Ok (dp_payer_key d, tc) /\
  key_of_instruction_account c 1 tc = Ok (dp_programdata_key d, tc).
Proof.
  intros Hty Hv. unfold verify_deployment, loader_rent, loader_clock_slot in Hv. inv_tx. sysvar_reads.
  match goal with Hb : try_borrow_instruction_account c 2 _ = Ok _ |- _ =>
    apply borrow_instruction_ok in Hb as (ia & a & Hia & Hix & Ha & _) end.
  match goal with Hg : get_loader_state _ _ = Ok (?st, ?t) |- _ =>
    pose proof (state_held true c _ _ _ _ Hg) as Hh; apply get_loader_state_ok in Hg as [-> _]; destruct st; try done end.
  match goal with Hb : verify_buffer _ _ _ _ _ = Ok (?r, _), Hk : key_of_instruction_account c 7 _ = _ |- _ =>
    destruct (verify_buffer_ok _ _ _ _ _ _ _ Hk Hb) as (-> & Hbuf & ib & b & Hib & Hb' & Hbl & _);
    destruct r as [[bk bl] len] end.
  inv_tx. match goal with x : Pubkey * byte |- _ => destruct x as [derived bump] end. inv_tx. cbn in Hbl |- *.
  split_and!; [done| |done|rewrite Hbl; by eapply typed_balance|apply saturate_u64_range| |done..].
  - intros ia' Hia'. assert (ia' = ia) as -> by congruence. rewrite <-Hix. by apply Hh.
  - by apply Z.ltb_ge, negb_true_iff.
Qed.

End deploy.

(** ** The loaders are well behaved *)
Section behaved.
Context `{LB : LoaderBincode} `{UB : UpgradeableBincode} `{SB : SystemBincode} `{CR : Crypto}.
Variable env : LoaderEnv.
Variable verify_elf : list byte -> result InstructionError contract.

Lemma commit_disciplined K c pid (m : InstructionContext -> TxM unit) k tc :
  ready K c pid tc ->
  (forall u tc', m c tc = Ok (u, tc') -> Forall account_typed (accounts tc')) ->
  (forall tc', ready K c pid tc' -> disciplined K c pid tc' k) ->
  disciplined K c pid tc (commit m k).
Proof.
  intros Hr Hm Hk. apply reading_disciplined. intros [c1 tc1] H1.
  apply result_bind_ok in H1 as (c2 & Hc2 & H1). apply result_bind_ok in H1 as ([u tc2] & H2 & [= <- <-]).
  rewrite (su_current _ _ _ (rd_set_up _ _ _ _ Hr)) in Hc2. injection Hc2 as <-.
  apply store_each_disciplined; [by eapply Hm|done..].
Qed.

Lemma handled_disciplined K c pid (m : InstructionContext -> TxM unit) k tc :
  ready K c pid tc ->
  (forall u tc', m c tc = Ok (u, tc') -> exists Q, handled Q tc tc') ->
  (forall tc', ready K c pid tc' -> disciplined K c pid tc' k) ->
  disciplined K c pid tc (commit m k).
Proof.
  intros Hr Hm Hk. apply commit_disciplined; [done| |done]. intros u tc' Hc.
  destruct (Hm _ _ Hc) as [Q Hh]. by apply Hh, Hr.
Qed.

Lemma in_current_ok {A} (f : InstructionContext -> TxM A) c tc a :
  get_current_instruction_context tc = Ok c -> in_current f tc = Ok a -> exists tc', f c tc = Ok (a, tc').
Proof.
  intros Hc Hf. unfold in_current, value_of in Hf. rewrite Hc in Hf. cbn in Hf.
  apply result_bind_ok in Hf as ([a' tc'] & Hf & [= <-]). eauto.
Qed.

Let anywhere : nat -> Prop := fun _ => True.

Lemma anywhere_at c i : at_account c anywhere i.
Proof. done. Qed.

(** The encoding of the instruction that creates an account is not longer than a slice can be. *)
Definition encodes_creation : Prop :=
  forall lamports space owner,
    is_u64 (Z.of_nat (length (bincode_serialize_system (CreateAccount lamports space owner)))).

Lemma create_programdata_small pid d :
  encodes_creation ->
  (length (ix_accounts (create_programdata pid d)) <= 255)%nat /\
  is_u64 (Z.of_nat (length (ix_data (create_programdata pid d)))).
Proof. intros Hs. split; [cbn; lia|apply Hs]. Qed.

Lemma deploy_well_behaved first pid0 n K c pid tc :
  encodes_creation ->
  ready K c pid tc -> disciplined K c pid tc (deploy env verify_elf first pid0 n).
Proof.
  intros Hs Hr. unfold deploy. apply reading_disciplined. intros d Hd.
  apply (in_current_ok _ c) in Hd as [tc1 Hd]; [|apply Hr].
  apply verify_deployment_ok in Hd as (_ & _ & _ & Hl & _); [|apply Hr].
  apply handled_disciplined; [done| |].
  { intros u tc' Hc. exists anywhere. destruct (reduce_required_deploy_balance env).
    - by eapply drain_buffer_handled; [..|exact Hc].
    - inv_tx. apply handled_refl. }
  intros tc2 Hr2. apply reading_disciplined. intros signer _.
  apply disciplined_invoke; [by apply create_programdata_small..|done|]. intros tc3 Hr3.
  apply reading_disciplined. intros code _. apply handled_disciplined; [done| |constructor].
  intros u tc' Hc. exists anywhere. by eapply finish_deployment_handled; [..|exact Hc].
Qed.

Lemma upgrade_well_behaved first pid0 K c pid tc :
  ready K c pid tc -> disciplined K c pid tc (upgrade env verify_elf first pid0).
Proof.
  intros Hr. unfold upgrade. apply reading_disciplined. intros plan Hp.
  apply (in_current_ok _ c) in Hp as [tc1 Hp]; [|apply Hr]. apply verify_upgrade_ok in Hp as (_ & _ & _ & Hu).
  apply reading_disciplined. intros code _. apply handled_disciplined; [done| |constructor].
  intros u tc' Hc. exists anywhere. by eapply finish_upgrade_handled; [..|exact Hc].
Qed.

Lemma upgradeable_well_behaved :
  encodes_creation ->
  well_behaved (process_loader_upgradeable_instruction env verify_elf).
Proof.
  intros Hs first K c pid tc Hr _. unfold process_loader_upgradeable_instruction.
  apply reading_disciplined. intros c1 Hc1. apply reading_disciplined. intros pid1 _.
  destruct (limited_deserialize_upgradeable _) as [[]|]; [..|constructor].
  - apply handled_disciplined; [done| |constructor]. eauto using initialize_buffer_handled.
  - apply handled_disciplined; [done| |constructor]. intros u tc' [_ Hw]%write_buffer_ok.
    exists anywhere. by eapply write_program_data_handled.
  - by apply deploy_well_behaved.
  - by apply upgrade_well_behaved.
  - apply handled_disciplined; [done| |constructor]. eauto using set_authority_handled.
  - apply handled_disciplined; [done| |constructor]. intros u tc' Hc. exists (held true c tc).
    eapply close_handled; [apply Hr|exact Hc].
Qed.

Lemma plain_well_behaved : well_behaved (process_loader_instruction verify_elf).
Proof.
  intros first K c pid tc Hr _. unfold process_loader_instruction.
  apply reading_disciplined. intros sg _. apply reading_disciplined. intros c1 Hc1.
  destruct (limited_deserialize_plain _) as [[]|]; [..|constructor]; apply demand_disciplined; intros _.
  - apply handled_disciplined; [done| |constructor]. intros u tc' Hw. exists anywhere.
    by eapply write_program_data_handled.
  - apply reading_disciplined. intros code _. apply handled_disciplined; [done| |constructor].
    intros u tc' Hc. exists anywhere. inv_tx. by eapply set_executable_handled.
Qed.

End behaved.
