(* ===== verification/UpgradeSafety.v ===== *)
(** * Who may change a deployed program

    A successful instruction of the upgradeable loader changes an account only under the
    authority the account names: buffers and the data of programs need the signature of
    their authority, and without an authority, or for a program account, nothing but the
    balance ever changes. *)

From Stdlib Require Import Strings.Byte.
From S2P Require Import Prelude Sdk Rent Program SystemInstruction Fixtures Transaction Serialization SerializationFacts ReadBack Nonce SystemProgram SystemSafety Runtime RuntimeSafety Message MessageProcessor Loader LoaderFacts CallContexts Ledger LedgerSafety LoaderLedger UpgradeableLoader UpgradeFacts.

(** ** Running a handler *)
Section commit.
Context `{LB : LoaderBincode}.
Variable call : list byte -> list InstructionAccount -> list nat -> InvokeContext ->
  result InstructionError InvokeContext.

(** The accounts after a handler was run and stored: those of the instruction. *)
Definition committed (c : InstructionContext) (tc tcr tc' : TransactionContext) : Prop :=
  forall j, accounts tc' !! j =
    if decide (j ∈ stored c (instruction_account_indices c)) then accounts tcr !! j else accounts tc !! j.

Lemma commit_exec K c pid m k ic ic' :
  ready K c pid (transaction_context ic) ->
  (forall u tcr, m c (transaction_context ic) = Ok (u, tcr) ->
     length (accounts tcr) = length (accounts (transaction_context ic))) ->
  exec call (commit m k) ic = Ok ic' ->
  exists u tcr ic1, m c (transaction_context ic) = Ok (u, tcr) /\ exec call k ic1 = Ok ic' /\
    same_frame ic ic1 /\ committed c (transaction_context ic) tcr (transaction_context ic1).
Proof.
  intros Hr Hlen He. pose proof (ready_wf _ _ _ _ Hr) as Hwf. destruct Hr as [_ _ _ [Hc _ _ _ _]].
  unfold commit in He. apply reading_ok in He as ([c1 tcr] & H1 & He).
  apply result_bind_ok in H1 as (c2 & Hc2 & H1). apply result_bind_ok in H1 as ([u tcr'] & H2 & [= <- <-]).
  assert (c2 = c) as -> by congruence.
  destruct (exec_store_each call c tcr' (instruction_account_indices c) k ic Hc) as (ic1 & He1 & Hf & Hj).
  - intros i ia _ Hia. apply lookup_lt_is_Some_2. by eapply iw_indices.
  - by eapply Hlen.
  - rewrite He1 in He. by exists u, tcr', ic1.
Qed.

(** A handler that only touches what is held, stored. *)
Lemma committed_handled Q c tc tcr tc' :
  handled Q tc tcr -> committed c tc tcr tc' ->
  forall j a, accounts tc !! j = Some a -> exists a', accounts tc' !! j = Some a' /\
    acc_owner a' = acc_owner a /\ length (acc_data a') = length (acc_data a) /\ (~ Q j -> credited a a').
Proof.
  intros Hh Hc j a Ha. rewrite Hc. case_decide; [by apply Hh|]. exists a. eauto using credited_refl.
Qed.

End commit.

(** ** One instruction *)
Section instruction.
Context `{LB : LoaderBincode} `{UB : UpgradeableBincode} `{SB : SystemBincode} `{CR : Crypto}.
Variable call : list byte -> list InstructionAccount -> list nat -> InvokeContext ->
  result InstructionError InvokeContext.
Variables (env : LoaderEnv) (verify_elf : list byte -> result InstructionError contract).

(** The instructions that take accounts nobody has initialized: one makes a buffer of such an
    account, the other empties it. *)
Definition takes_fresh (i : UpgradeableLoaderInstruction) : bool :=
  match i with InitializeBuffer | LoaderClose => true | _ => false end.

(** Accounts that the signers do not hold are at most credited. *)
Definition needs_authority (fresh : bool) (c : InstructionContext) (tc tc' : TransactionContext) : Prop :=
  forall j a, accounts tc !! j = Some a -> exists a', accounts tc' !! j = Some a' /\
    acc_owner a' = acc_owner a /\ length (acc_data a') = length (acc_data a) /\
    (~ controls fresh (signed c (account_keys tc)) (bincode_deserialize_loader (acc_data a)) -> credited a a').

Lemma handled_needs_authority fresh K c pid m ic ic' :
  ready K c pid (transaction_context ic) ->
  (forall u tcr, m c (transaction_context ic) = Ok (u, tcr) ->
     handled (held fresh c (transaction_context ic)) (transaction_context ic) tcr) ->
  exec call (commit m Return) ic = Ok ic' ->
  needs_authority fresh c (transaction_context ic) (transaction_context ic').
Proof.
  intros Hr Hm He. apply (commit_exec call K c pid) in He as (u & tcr & ic1 & H1 & He & _ & Hc); [|done|].
  - injection He as <-. intros j a Ha.
    destruct (committed_handled _ _ _ _ _ (Hm _ _ H1) Hc j a Ha) as (a' & Ha' & Ho & Hl & Hcr).
    exists a'. split_and!; [done..|]. intros Hn. apply Hcr. intros (b & Hb & Hcon).
    apply Hn. by simplify_eq.
  - intros u tcr Hrun. by eapply hd_length, Hm.
Qed.

Definition deploys (i : UpgradeableLoaderInstruction) : bool :=
  match i with DeployWithMaxDataLen _ => true | _ => false end.

Lemma upgrade_needs_authority K c pid pid0 first ic ic' :
  ready K c pid (transaction_context ic) -> exec call (upgrade env verify_elf first pid0) ic = Ok ic' ->
  needs_authority false c (transaction_context ic) (transaction_context ic').
Proof.
  intros Hr He. unfold upgrade in He. apply reading_ok in He as (plan & Hp & He).
  apply (in_current_ok _ c) in Hp as [tc1 Hp]; [|apply Hr].
  apply verify_upgrade_ok in Hp as (_ & Hpd & Hb & Hu). apply reading_ok in He as (code & _ & He).
  eapply handled_needs_authority; [done| |exact He]. intros u tcr Hf. by eapply finish_upgrade_handled.
Qed.

(** C15: A successful instruction of the upgradeable loader, deployments apart, never
    changes the owner or the length of an account, and all it does to an account whose
    state names no authority that signed (a program, a program without an upgrade
    authority, a buffer without one, someone else's buffer) is to add to its balance:
    code can only be replaced, an authority changed or an initialized account closed by
    the authority recorded in the account. The same holds for uninitialized accounts,
    except that two instructions take them without a signature: InitializeBuffer makes
    one a buffer, and Close empties one. *)
Theorem loader_needs_authority (K : list Pubkey) (c : InstructionContext) (pid : Pubkey) (first : nat)
    (ic ic' : InvokeContext) (i : UpgradeableLoaderInstruction)
    (Hready : ready K c pid (transaction_context ic)) (Hfirst : first = length (program_accounts c))
    (Hdata : limited_deserialize_upgradeable (instruction_data c) = Some i) (Hi : deploys i = false)
    (Hrun : exec call (process_loader_upgradeable_instruction env verify_elf first) ic = Ok ic') :
  needs_authority (takes_fresh i) c (transaction_context ic) (transaction_context ic').
Proof.
  unfold process_loader_upgradeable_instruction in Hrun. apply reading_ok in Hrun as (c1 & Hc1 & Hrun).
  pose proof Hready as [_ _ Hty [Hc _ _ _ _]]. assert (c1 = c) as -> by congruence.
  apply reading_ok in Hrun as (pid1 & _ & Hrun). rewrite Hdata in Hrun. destruct i;
    try (eapply handled_needs_authority; [done| |exact Hrun]; intros u tcr Hm).
  - by eapply initialize_buffer_handled.
  - by eapply write_buffer_handled.
  - done.
  - by eapply upgrade_needs_authority.
  - by eapply set_authority_handled.
  - by eapply close_handled.
Qed.

End instruction.

(** ** An example *)

(** The encoding of the state of an account: a tag in four bytes, keys as they are, a byte in
    front of an optional key. *)
Definition lx_key_of (l : list byte) : option (option Pubkey) :=
  match l with
  | x00 :: _ => Some None
  | x01 :: l => Some <$> Pubkey_new (take 32 l)
  | _ => None
  end.
Definition lx_decode (l : list byte) : option UpgradeableLoaderState :=
  match l with
  | x00 :: x00 :: x00 :: x00 :: _ => Some LoaderUninitialized
  | x01 :: x00 :: x00 :: x00 :: l => LoaderBuffer <$> lx_key_of l
  | x02 :: x00 :: x00 :: x00 :: l => LoaderProgram <$> Pubkey_new (take 32 l)
  | x03 :: x00 :: x00 :: x00 :: l =>
      if (length l <? 8)%nat then None
      else LoaderProgramData (from_le_bytes (take 8 l)) <$> lx_key_of (drop 8 l)
  | _ => None
  end.
Definition lx_key (k : option Pubkey) : list byte :=
  match k with None => [x00] | Some k => x01 :: to_bytes k end.
Definition lx_encode (s : UpgradeableLoaderState) : list byte :=
  match s with
  | LoaderUninitialized => [x00; x00; x00; x00]
  | LoaderBuffer k => [x01; x00; x00; x00] ++ lx_key k
  | LoaderProgram k => [x02; x00; x00; x00] ++ to_bytes k
  | LoaderProgramData slot k => [x03; x00; x00; x00] ++ u64_le slot ++ lx_key k
  end.

Definition lx_states : LoaderBincode := {| bincode_deserialize_loader := lx_decode |}.
#[local] Existing Instance lx_states.

(** The instructions without arguments, by their tag. *)
Definition lx_instructions : UpgradeableBincode := {|
  bincode_serialize_loader := lx_encode;
  bincode_serialize_upgradeable i :=
    match i with
    | LoaderUpgrade => [x03; x00; x00; x00]
    | LoaderSetAuthority => [x04; x00; x00; x00]
    | LoaderClose => [x05; x00; x00; x00]
    | _ => []
    end;
  limited_deserialize_upgradeable l :=
    match l with
    | [x03; x00; x00; x00] => Some LoaderUpgrade
    | [x04; x00; x00; x00] => Some LoaderSetAuthority
    | [x05; x00; x00; x00] => Some LoaderClose
    | _ => None
    end;
  bincode_serialize_plain _ := [];
  limited_deserialize_plain _ := None
|}.
#[local] Existing Instance lx_instructions.

Definition lx_authority : Pubkey := pubkey_of_Z 401.
Definition lx_program : Pubkey := pubkey_of_Z 402.
Definition lx_programdata : Pubkey := pubkey_of_Z 403.
Definition lx_buffer : Pubkey := pubkey_of_Z 404.
Definition lx_spill : Pubkey := pubkey_of_Z 405.
Definition lx_frozen : Pubkey := pubkey_of_Z 406.

(** A program whose authority upgrades it, and a buffer that nobody controls. *)
Definition lx_frame : InstructionContext :=
  mkInstructionContext 0 [8%nat]
    [mkInstructionAccount 0 0 0 false true; mkInstructionAccount 1 1 1 false true;
     mkInstructionAccount 2 2 2 false true; mkInstructionAccount 3 3 3 false true;
     mkInstructionAccount 4 4 4 false false; mkInstructionAccount 5 5 5 false false;
     mkInstructionAccount 6 6 6 true false; mkInstructionAccount 7 7 7 false true]
    (bincode_serialize_upgradeable LoaderUpgrade).
Definition lx_context : TransactionContext :=
  mkTransactionContext
    [lx_programdata; lx_program; lx_buffer; lx_spill; rent_sysvar_id; clock_sysvar_id; lx_authority; lx_frozen;
     bpf_loader_upgradeable_id]
    [mkAccount 2000000 (lx_encode (LoaderProgramData 3 (Some lx_authority)) ++ [x07; x07])
       bpf_loader_upgradeable_id false 0;
     mkAccount 1000 (lx_encode (LoaderProgram lx_programdata)) bpf_loader_upgradeable_id true 0;
     mkAccount 50 (lx_encode (LoaderBuffer (Some lx_authority)) ++ [x08; x09]) bpf_loader_upgradeable_id false 0;
     mkAccount 5 [] system_program_id false 0; mkAccount 1 [] native_loader_id false 0;
     mkAccount 1 [] native_loader_id false 0; mkAccount 9 [] system_program_id false 0;
     mkAccount 60 (lx_encode (LoaderBuffer None)) bpf_loader_upgradeable_id false 0;
     mkAccount 1 [] native_loader_id true 0]
    5 [0%nat] 1 [[lx_frame]] (mkReturnData Pubkey_default []) 10000000 0.
Definition lx_start : InvokeContext :=
  InvokeContext_new lx_context Rent_default 5 (mkFeatures true true true) 0.

Definition lx_env : LoaderEnv := mkLoaderEnv true (Some Rent_default) (Some 11).
(** Code is two bytes that do nothing. *)
Definition lx_verify_elf (l : list byte) : result InstructionError contract :=
  if (length l =? 2)%nat then Ok (fun _ _ _ => mret tt) else Err InstructionError.InvalidAccountData.
Definition lx_call (_ : list byte) (_ : list InstructionAccount) (_ : list nat) (_ : InvokeContext)
    : result InstructionError InvokeContext := Err InstructionError.CallDepth.

Definition lx_run : result InstructionError InvokeContext :=
  exec lx_call (process_loader_upgradeable_instruction lx_env lx_verify_elf 1) lx_start.
Definition lx_after : InvokeContext := match lx_run with Ok ic => ic | _ => lx_start end.

Lemma lx_run_ok : lx_run = Ok lx_after.
Proof. vm_compute. reflexivity. Qed.

Lemma in_order_listed n ias :
  (forall i ia, ias !! i = Some ia -> index_in_transaction ia = i /\ index_in_callee ia = i) ->
  (length ias <= n)%nat -> well_listed n ias.
Proof.
  intros Hi Hn. split.
  - intros i ia Hia. destruct (Hi _ _ Hia) as [-> _]. apply lookup_lt_Some in Hia. lia.
  - intros i ia Hia. destruct (Hi _ _ Hia) as [_ E]. rewrite E. split; [done|]. by exists ia.
  - intros i j ia ja Hia Hja _ _ E. destruct (Hi _ _ Hia) as [<- _]. by destruct (Hi _ _ Hja) as [<- _].
Qed.

Lemma lx_ready : ready (account_keys lx_context) lx_frame bpf_loader_upgradeable_id (transaction_context lx_start).
Proof.
  split; [done|done| |apply distinct_set_up].
  - repeat constructor; vm_compute; discriminate.
  - apply (bool_decide_unpack _). vm_compute. exact I.
  - reflexivity.
  - vm_compute. reflexivity.
  - apply in_order_listed; [|cbn; lia]. intros i ia Hia.
    do 8 (destruct i as [|i]; [by injection Hia as <-|]). discriminate Hia.
  - cbn. lia.
  - split; vm_compute; discriminate.
Qed.

(** What the accounts of the loader hold: a balance, the state and the code. *)
Definition lx_view (ic : InvokeContext) (j : nat) : option (Z * option UpgradeableLoaderState * list byte) :=
  (fun a => (acc_lamports a, lx_decode (acc_data a), drop size_of_programdata_metadata (acc_data a))) <$>
    accounts (transaction_context ic) !! j.

Lemma loader_needs_authority_witness :
  lx_view lx_start 0 = Some (2000000, Some (LoaderProgramData 3 (Some lx_authority)), [x07; x07]) /\
  lx_view lx_after 0 = Some (1218000, Some (LoaderProgramData 11 (Some lx_authority)), [x08; x09]) /\
  needs_authority false lx_frame (transaction_context lx_start) (transaction_context lx_after).
Proof.
  split; [vm_compute; reflexivity|]. split; [vm_compute; reflexivity|].
  apply (loader_needs_authority lx_call lx_env lx_verify_elf (account_keys lx_context) lx_frame
    bpf_loader_upgradeable_id 1 lx_start lx_after LoaderUpgrade).
  - exact lx_ready.
  - reflexivity.
  - reflexivity.
  - reflexivity.
  - exact lx_run_ok.
Defined.
