(* ===== verification/LookupTable.v ===== *)
(** * Address lookup tables

    [programs/address-lookup-table/src] ([state.rs], [instruction.rs], [processor.rs],
    [error.rs]), the recent slots it relies on ([sdk/program/src/slot_hashes.rs], extended by
    [Bank::update_slot_hashes]) and the loading of the addresses of a message
    ([runtime/src/accounts.rs] and [bank/address_lookup_table.rs]).

    The handlers read and write the accounts of the instruction; creating and extending a
    table also call the system program.  The [bincode] encodings are parameters, and the
    accounts of the bank a function from keys. *)

From Stdlib Require Import Strings.Byte.
From S2P Require Import Prelude Sdk Rent Program SystemInstruction Transaction Serialization Nonce SystemProgram Runtime Message MessageProcessor Loader UpgradeableLoader.

(** ** Recent slots *)
Definition MAX_ENTRIES : nat := 512.

(** Most recent first. *)
Notation SlotHashes := (list (Z * Hash)).

Module SlotHashes.
(** [slice::binary_search_by] with [|(probe, _)| slot.cmp(probe)]: [inl] where the slot is,
    [inr] where it belongs.  The size shrinks in every round. *)
Fixpoint search_loop (fuel : nat) (l : SlotHashes) (slot : Z) (left right size : nat) : nat + nat :=
  match fuel with
  | O => inr left
  | S fuel =>
      if (left <? right)%nat then
        let mid := (left + size / 2)%nat in
        match l !! mid with
        | Some (probe, _) =>
            match slot ?= probe with
            | Eq => inl mid
            | Lt => search_loop fuel l slot (mid + 1) right (right - (mid + 1))
            | Gt => search_loop fuel l slot left mid (mid - left)
            end
        | None => inr left
        end
      else inr left
  end.

Definition binary_search (l : SlotHashes) (slot : Z) : nat + nat :=
  search_loop (S (length l)) l slot 0 (length l) (length l).

Definition position (l : SlotHashes) (slot : Z) : option nat :=
  match binary_search l slot with inl i => Some i | inr _ => None end.

Definition get (l : SlotHashes) (slot : Z) : option Hash :=
  i ← position l slot; snd <$> l !! i.

Definition add (l : SlotHashes) (slot : Z) (hash : Hash) : SlotHashes :=
  take MAX_ENTRIES
    match binary_search l slot with
    | inl i => <[i := (slot, hash)]> l
    | inr i => take i l ++ (slot, hash) :: drop i l
    end.
End SlotHashes.

(** ** State *)
Definition LOOKUP_TABLE_MAX_ADDRESSES : nat := 256.
Definition LOOKUP_TABLE_META_SIZE : nat := 56.

Record LookupTableMeta : Type := mkLookupTableMeta {
  deactivation_slot : Z;
  last_extended_slot : Z;
  last_extended_slot_start_index : Z;
  lt_authority : option Pubkey;
  lt_padding : Z
}.

(** [ProgramState] *)
Inductive LookupState : Type :=
| LookupUninitialized
| LookupTable (meta : LookupTableMeta).

Inductive LookupTableStatus : Type :=
| Activated
| Deactivating (remaining_blocks : nat)
| Deactivated.

Record AddressLookupTable : Type := mkAddressLookupTable {
  lt_meta : LookupTableMeta;
  lt_addresses : list Pubkey
}.

Inductive AddressLookupError : Type :=
| LookupTableAccountNotFound
| LookupInvalidAccountOwner
| LookupInvalidAccountData
| InvalidLookupIndex.

Definition transaction_error_of_lookup (e : AddressLookupError) : TransactionError :=
  match e with
  | LookupTableAccountNotFound => AddressLookupTableNotFound
  | LookupInvalidAccountOwner => InvalidAddressLookupTableOwner
  | LookupInvalidAccountData => InvalidAddressLookupTableData
  | InvalidLookupIndex => InvalidAddressLookupTableIndex
  end.

Definition LookupTableMeta_default : LookupTableMeta := mkLookupTableMeta U64_MAX 0 0 None 0.
Definition LookupTableMeta_new (authority : Pubkey) : LookupTableMeta :=
  mkLookupTableMeta U64_MAX 0 0 (Some authority) 0.

Definition status (self : LookupTableMeta) (current_slot : Z) (slot_hashes : SlotHashes) : LookupTableStatus :=
  if deactivation_slot self =? U64_MAX then Activated
  else if deactivation_slot self =? current_slot then Deactivating (MAX_ENTRIES + 1)
  else match SlotHashes.position slot_hashes (deactivation_slot self) with
       | Some slot_hash_position => Deactivating (MAX_ENTRIES - slot_hash_position)
       | None => Deactivated
       end.

Definition is_active (self : LookupTableMeta) (current_slot : Z) (slot_hashes : SlotHashes) : bool :=
  match status self current_slot slot_hashes with
  | Activated | Deactivating _ => true
  | Deactivated => false
  end.

(** ** Instructions *)
(** [ProgramInstruction] *)
Inductive LookupInstruction : Type :=
| CreateLookupTable (recent_slot : Z) (bump_seed : byte)
| FreezeLookupTable
| ExtendLookupTable (new_addresses : list Pubkey)
| DeactivateLookupTable
| CloseLookupTable.

Class LookupBincode : Type := {
  bincode_serialize_table : LookupState -> list byte;
  bincode_deserialize_table : list byte -> option LookupState;
  bincode_serialize_lookup : LookupInstruction -> list byte;
  limited_deserialize_lookup : list byte -> option LookupInstruction
}.

Definition address_lookup_table_id : Pubkey :=
  pubkey_of_Z 0x277a6af97339b7ac88d1892c90446f50002309266f62e53c118244982000000.

Section builders.
Context `{LookupBincode} `{Crypto}.

Definition lookup_ix (i : LookupInstruction) (accounts : list AccountMeta) : Instruction :=
  mkInstruction address_lookup_table_id accounts (bincode_serialize_lookup i).

(** [None] is the panic of [find_program_address]. *)
Definition derive_lookup_table_address (authority_address : Pubkey) (recent_block_slot : Z)
    : option (Pubkey * byte) :=
  find_program_address [to_bytes authority_address; u64_le recent_block_slot] address_lookup_table_id.

Definition create_lookup_table_ix (authority_address payer_address : Pubkey) (recent_slot : Z)
    : option (Instruction * Pubkey) :=
  '(lookup_table_address, bump_seed) ← derive_lookup_table_address authority_address recent_slot;
  Some (lookup_ix (CreateLookupTable recent_slot bump_seed)
          [AccountMeta_new lookup_table_address false; AccountMeta_new_readonly authority_address true;
           AccountMeta_new payer_address true; AccountMeta_new_readonly system_program_id false],
        lookup_table_address).

Definition freeze_lookup_table_ix (lookup_table_address authority_address : Pubkey) : Instruction :=
  lookup_ix FreezeLookupTable
    [AccountMeta_new lookup_table_address false; AccountMeta_new_readonly authority_address true].

Definition extend_lookup_table_ix (lookup_table_address authority_address : Pubkey)
    (payer_address : option Pubkey) (new_addresses : list Pubkey) : Instruction :=
  lookup_ix (ExtendLookupTable new_addresses)
    ([AccountMeta_new lookup_table_address false; AccountMeta_new_readonly authority_address true]
     ++ match payer_address with
        | Some payer => [AccountMeta_new payer true; AccountMeta_new_readonly system_program_id false]
        | None => []
        end).

Definition deactivate_lookup_table_ix (lookup_table_address authority_address : Pubkey) : Instruction :=
  lookup_ix DeactivateLookupTable
    [AccountMeta_new lookup_table_address false; AccountMeta_new_readonly authority_address true].

Definition close_lookup_table_ix (lookup_table_address authority_address recipient_address : Pubkey)
    : Instruction :=
  lookup_ix CloseLookupTable
    [AccountMeta_new lookup_table_address false; AccountMeta_new_readonly authority_address true;
     AccountMeta_new recipient_address false].
End builders.

(** ** Tables in accounts *)

(** [bytemuck::try_cast_slice] to keys, which have alignment one. *)
Fixpoint chunks (n : nat) (l : list byte) : list (list byte) :=
  match n with
  | O => []
  | S n => take 32 l :: chunks n (drop 32 l)
  end.
Definition cast_keys (l : list byte) : option (list Pubkey) :=
  if (length l mod 32 =? 0)%nat then mapM Pubkey_new (chunks (length l / 32) l) else None.

Section tables.
Context `{LookupBincode}.

Definition deserialize_table (data : list byte) : result InstructionError AddressLookupTable :=
  program_state ← ok_or (bincode_deserialize_table data) InstructionError.InvalidAccountData;
  meta ← (match program_state with
          | LookupTable meta => Ok meta
          | LookupUninitialized => Err InstructionError.UninitializedAccount
          end);
  ensure (LOOKUP_TABLE_META_SIZE <=? length data)%nat InstructionError.InvalidAccountData;;
  addresses ← ok_or (cast_keys (drop LOOKUP_TABLE_META_SIZE data)) InstructionError.InvalidAccountData;
  Ok (mkAddressLookupTable meta addresses).

Definition overwrite_meta_data (data : list byte) (meta : LookupTableMeta) : result InstructionError (list byte) :=
  ensure (LOOKUP_TABLE_META_SIZE <=? length data)%nat InstructionError.InvalidAccountData;;
  let bytes := bincode_serialize_table (LookupTable meta) in
  ensure (length bytes <=? LOOKUP_TABLE_META_SIZE)%nat InstructionError.GenericError;;
  Ok (bytes ++ replicate (LOOKUP_TABLE_META_SIZE - length bytes) x00 ++ drop LOOKUP_TABLE_META_SIZE data).

End tables.

Definition get_active_addresses_len (self : AddressLookupTable) (current_slot : Z) (slot_hashes : SlotHashes)
    : result AddressLookupError nat :=
  ensure (is_active (lt_meta self) current_slot slot_hashes) LookupTableAccountNotFound;;
  Ok (if last_extended_slot (lt_meta self) <? current_slot then length (lt_addresses self)
      else Z.to_nat (last_extended_slot_start_index (lt_meta self))).

(** [&self.addresses[0..active_addresses_len]] panics out of range. *)
Definition lookup_addresses (self : AddressLookupTable) (current_slot : Z) (indexes : list nat)
    (slot_hashes : SlotHashes) : result AddressLookupError (list Pubkey) :=
  active_addresses_len ← get_active_addresses_len self current_slot slot_hashes;
  assert_ (active_addresses_len <=? length (lt_addresses self))%nat;;
  let active_addresses := take active_addresses_len (lt_addresses self) in
  ok_or (mapM (fun idx => active_addresses !! idx) indexes) InvalidLookupIndex.

(** ** The processor *)

(** The sysvars the program reads. *)
Record LookupEnv : Type := mkLookupEnv {
  lookup_clock_slot : option Z;
  lookup_rent : option Rent;
  lookup_slot_hashes : option SlotHashes
}.

Section processor.
Context `{LookupBincode} `{SystemBincode} `{Crypto}.
Variable env : LookupEnv.

Definition sysvar_of {A} (x : option A) : TxM A := reads (fun _ => ok_or x InstructionError.UnsupportedSysvar).

(** The key of the instruction account [i], which signed. *)
Definition signer_key (ic : InstructionContext) (i : nat) : TxM Pubkey :=
  account ← reads (try_borrow_instruction_account ic i);
  key ← BorrowedAccount.get_key account;
  guard (BorrowedAccount.is_signer account) InstructionError.MissingRequiredSignature;;
  mret key.

(** The lamports that are missing for an account of [len] bytes. *)
Definition missing_lamports (rent : Rent) (len : nat) (lamports : Z) : Z :=
  Z.max 0 (Z.max 1 (minimum_balance rent (Z.of_nat len)) - lamports).

(** *** Creating *)
Record Creation : Type := mkCreation {
  cr_table_key : Pubkey;
  cr_authority_key : Pubkey;
  cr_payer_key : Pubkey;
  cr_required_lamports : Z
}.

Definition verify_creation (untrusted_recent_slot : Z) (bump_seed : byte) (ic : InstructionContext)
    : TxM Creation :=
  lookup_table_account ← reads (try_borrow_instruction_account ic 0);
  lookup_table_lamports ← BorrowedAccount.get_lamports lookup_table_account;
  table_key ← BorrowedAccount.get_key lookup_table_account;
  data ← BorrowedAccount.get_data lookup_table_account;
  guard (length data =? 0)%nat InstructionError.AccountAlreadyInitialized;;
  authority_key ← signer_key ic 1;
  payer_key ← signer_key ic 2;
  slot_hashes ← sysvar_of (lookup_slot_hashes env);
  guard (bool_decide (is_Some (SlotHashes.get slot_hashes untrusted_recent_slot)))
    InstructionError.InvalidInstructionData;;
  derived_table_key ← reads (fun _ => map_err instruction_error_of_pubkey_error
    (create_program_address [to_bytes authority_key; u64_le untrusted_recent_slot; [bump_seed]]
       address_lookup_table_id));
  guard (key_eqb table_key derived_table_key) InstructionError.InvalidArgument;;
  rent ← sysvar_of (lookup_rent env);
  mret (mkCreation table_key authority_key payer_key
          (missing_lamports rent LOOKUP_TABLE_META_SIZE lookup_table_lamports)).

(** [set_state] *)
Definition initialize_table (authority_key : Pubkey) (ic : InstructionContext) : TxM unit :=
  lookup_table_account ← reads (try_borrow_instruction_account ic 0);
  a ← BorrowedAccount.cell lookup_table_account;
  let bytes := bincode_serialize_table (LookupTable (LookupTableMeta_new authority_key)) in
  guard (negb (length (acc_data a) <? length bytes)%nat) InstructionError.AccountDataTooSmall;;
  BorrowedAccount.set_cell lookup_table_account (set_acc_data a (write_prefix bytes (acc_data a))).

Definition create_lookup_table (untrusted_recent_slot : Z) (bump_seed : byte) : program :=
  reading (in_current (verify_creation untrusted_recent_slot bump_seed)) (fun c =>
  let allocate_and_assign :=
    Invoke (SystemInstruction.allocate (cr_table_key c) (Z.of_nat LOOKUP_TABLE_META_SIZE)) [cr_table_key c] [] (
    Invoke (SystemInstruction.assign (cr_table_key c) address_lookup_table_id) [cr_table_key c] [] (
    commit (initialize_table (cr_authority_key c)) Return)) in
  if 0 <? cr_required_lamports c then
    Invoke (SystemInstruction.transfer (cr_payer_key c) (cr_table_key c) (cr_required_lamports c))
      [cr_payer_key c] [] allocate_and_assign
  else allocate_and_assign).

(** *** Changing *)

(** The owner of the table is checked and the authority signed. *)
Definition check_table_owner (ic : InstructionContext) : TxM Pubkey :=
  lookup_table_account ← reads (try_borrow_instruction_account ic 0);
  o ← BorrowedAccount.get_owner lookup_table_account;
  guard (key_eqb o address_lookup_table_id) InstructionError.InvalidAccountOwner;;
  signer_key ic 1.

(** The table, which has the authority. *)
Definition read_table (authority_key : Pubkey) (ic : InstructionContext)
    : TxM (BorrowedAccount * AddressLookupTable) :=
  lookup_table_account ← reads (try_borrow_instruction_account ic 0);
  data ← BorrowedAccount.get_data lookup_table_account;
  lookup_table ← reads (fun _ => deserialize_table data);
  let authority := lt_authority (lt_meta lookup_table) in
  guard (negb (bool_decide (authority = None))) InstructionError.Immutable;;
  guard (bool_decide (authority = Some authority_key)) InstructionError.IncorrectAuthority;;
  mret (lookup_table_account, lookup_table).

Definition write_meta (account : BorrowedAccount) (meta : LookupTableMeta) : TxM unit :=
  a ← BorrowedAccount.cell account;
  data ← reads (fun _ => overwrite_meta_data (acc_data a) meta);
  BorrowedAccount.set_cell account (set_acc_data a data).

Definition with_authority (m : LookupTableMeta) (authority : option Pubkey) : LookupTableMeta :=
  mkLookupTableMeta (deactivation_slot m) (last_extended_slot m) (last_extended_slot_start_index m) authority
    (lt_padding m).
Definition with_deactivation (m : LookupTableMeta) (slot : Z) : LookupTableMeta :=
  mkLookupTableMeta slot (last_extended_slot m) (last_extended_slot_start_index m) (lt_authority m)
    (lt_padding m).
Definition with_extension (m : LookupTableMeta) (slot start_index : Z) : LookupTableMeta :=
  mkLookupTableMeta (deactivation_slot m) slot start_index (lt_authority m) (lt_padding m).

Definition freeze_lookup_table (ic : InstructionContext) : TxM unit :=
  authority_key ← check_table_owner ic;
  '(account, lookup_table) ← read_table authority_key ic;
  guard (deactivation_slot (lt_meta lookup_table) =? U64_MAX) InstructionError.InvalidArgument;;
  guard (negb (length (lt_addresses lookup_table) =? 0)%nat) InstructionError.InvalidInstructionData;;
  write_meta account (with_authority (lt_meta lookup_table) None).

Definition deactivate_lookup_table (ic : InstructionContext) : TxM unit :=
  authority_key ← check_table_owner ic;
  '(account, lookup_table) ← read_table authority_key ic;
  guard (deactivation_slot (lt_meta lookup_table) =? U64_MAX) InstructionError.InvalidArgument;;
  slot ← sysvar_of (lookup_clock_slot env);
  write_meta account (with_deactivation (lt_meta lookup_table) slot).

(** The table is extended; its key, its balance and the new length of its data. *)
Definition extend_table (new_addresses : list Pubkey) (ic : InstructionContext) : TxM (Pubkey * Z * nat) :=
  authority_key ← check_table_owner ic;
  '(account, lookup_table) ← read_table authority_key ic;
  table_key ← BorrowedAccount.get_key account;
  lookup_table_lamports ← BorrowedAccount.get_lamports account;
  let meta := lt_meta lookup_table in
  let n := length (lt_addresses lookup_table) in
  guard (deactivation_slot meta =? U64_MAX) InstructionError.InvalidArgument;;
  guard (negb (LOOKUP_TABLE_MAX_ADDRESSES <=? n)%nat) InstructionError.InvalidArgument;;
  guard (negb (length new_addresses =? 0)%nat) InstructionError.InvalidInstructionData;;
  let new_table_addresses_len := (n + length new_addresses)%nat in
  guard (negb (LOOKUP_TABLE_MAX_ADDRESSES <? new_table_addresses_len)%nat)
    InstructionError.InvalidInstructionData;;
  slot ← sysvar_of (lookup_clock_slot env);
  meta ← (if slot =? last_extended_slot meta then mret meta
          else
            guard (n <? 256)%nat InstructionError.InvalidAccountData;;
            mret (with_extension meta slot (Z.of_nat n)));
  a ← BorrowedAccount.cell account;
  table_data ← reads (fun _ => overwrite_meta_data (acc_data a) meta);
  BorrowedAccount.set_data account (table_data ++ concat (map to_bytes new_addresses));;
  mret (table_key, lookup_table_lamports, (LOOKUP_TABLE_META_SIZE + new_table_addresses_len * 32)%nat).

(** The payer covers the rent of the longer table. *)
Definition extend_lookup_table (new_addresses : list Pubkey) : program :=
  reading (in_current (extend_table new_addresses)) (fun '(table_key, lookup_table_lamports, new_table_data_len) =>
  commit (fun ic => extend_table new_addresses ic;; mret tt) (
  reading (fun _ => ok_or (lookup_rent env) InstructionError.UnsupportedSysvar) (fun rent =>
  let required_lamports := missing_lamports rent new_table_data_len lookup_table_lamports in
  if 0 <? required_lamports then
    reading (in_current (fun ic => signer_key ic 2)) (fun payer_key =>
    Invoke (SystemInstruction.transfer payer_key table_key required_lamports) [payer_key] [] Return)
  else Return))).

(** *** Closing *)
Definition close_lookup_table (ic : InstructionContext) : TxM unit :=
  authority_key ← check_table_owner ic;
  reads (fun _ => check_number_of_instruction_accounts ic 3);;
  i ← reads (fun _ => get_index_of_instruction_account_in_transaction ic 0);
  j ← reads (fun _ => get_index_of_instruction_account_in_transaction ic 2);
  guard (negb (i =? j)%nat) InstructionError.InvalidArgument;;
  '(account, lookup_table) ← read_table authority_key ic;
  withdrawn_lamports ← BorrowedAccount.get_lamports account;
  slot ← sysvar_of (lookup_clock_slot env);
  slot_hashes ← sysvar_of (lookup_slot_hashes env);
  guard (match status (lt_meta lookup_table) slot slot_hashes with Deactivated => true | _ => false end)
    InstructionError.InvalidArgument;;
  recipient_account ← reads (try_borrow_instruction_account ic 2);
  BorrowedAccount.checked_add_lamports recipient_account withdrawn_lamports;;
  account ← reads (try_borrow_instruction_account ic 0);
  BorrowedAccount.set_data account [];;
  BorrowedAccount.set_lamports account 0.

Definition process_lookup_instruction (first_instruction_account : nat) : program :=
  reading get_current_instruction_context (fun c =>
  match limited_deserialize_lookup (instruction_data c) with
  | None => Abort_with InstructionError.InvalidInstructionData
  | Some (CreateLookupTable recent_slot bump_seed) => create_lookup_table recent_slot bump_seed
  | Some FreezeLookupTable => commit freeze_lookup_table Return
  | Some (ExtendLookupTable new_addresses) => extend_lookup_table new_addresses
  | Some DeactivateLookupTable => commit deactivate_lookup_table Return
  | Some CloseLookupTable => commit close_lookup_table Return
  end).
End processor.

(** ** The bank *)

(** [update_slot_hashes]: what a new bank makes of the slots of its parent. *)
Definition update_slot_hashes (account : option SlotHashes) (parent_slot : Z) (parent_hash : Hash) : SlotHashes :=
  SlotHashes.add (default [] account) parent_slot parent_hash.

Section bank.
Context `{LookupBincode}.

(** [load]: the accounts of the bank; [current_slot]: [ancestors.max_slot()]. *)
Definition load_lookup_table_addresses (load : Pubkey -> option Account) (current_slot : Z)
    (address_table_lookup : MessageAddressTableLookup) (slot_hashes : SlotHashes)
    : result AddressLookupError LoadedAddresses :=
  table_account ← ok_or (load (account_key address_table_lookup)) LookupTableAccountNotFound;
  if key_eqb (acc_owner table_account) address_lookup_table_id then
    lookup_table ← map_err (fun _ => LookupInvalidAccountData) (deserialize_table (acc_data table_account));
    w ← lookup_addresses lookup_table current_slot (writable_indexes address_table_lookup) slot_hashes;
    r ← lookup_addresses lookup_table current_slot (readonly_indexes address_table_lookup) slot_hashes;
    Ok (mkLoaded w r)
  else Err LookupInvalidAccountOwner.

Fixpoint load_each (load : Pubkey -> option Account) (current_slot : Z) (slot_hashes : SlotHashes)
    (l : list MessageAddressTableLookup) : result AddressLookupError (list LoadedAddresses) :=
  match l with
  | [] => Ok []
  | lookup :: l =>
      a ← load_lookup_table_addresses load current_slot lookup slot_hashes;
      l ← load_each load current_slot slot_hashes l;
      Ok (a :: l)
  end.

Definition load_addresses (versioned_tx_message_enabled : bool) (cached : option SlotHashes)
    (load : Pubkey -> option Account) (current_slot : Z) (address_table_lookups : list MessageAddressTableLookup)
    : result TransactionError LoadedAddresses :=
  ensure versioned_tx_message_enabled UnsupportedVersion;;
  slot_hashes ← ok_or cached AccountNotFound;
  l ← map_err transaction_error_of_lookup (load_each load current_slot slot_hashes address_table_lookups);
  Ok (LoadedAddresses_from_iter l).
End bank.
