(* ===== verification/LookupFacts.v ===== *)
(** * Recent slots and tables

    The search in the recent slots finds what is there, the recent slots of a chain of banks
    forget the oldest first, and what the handlers of [LookupTable] do to a table. *)

From Stdlib Require Import Strings.Byte.
From S2P Require Import Prelude Sdk Rent Program SystemInstruction Transaction Serialization SerializationFacts ReadBack Nonce SystemProgram SystemSafety Runtime RuntimeSafety Message MessageProcessor Loader LoaderFacts CallContexts Ledger LedgerSafety LoaderLedger UpgradeableLoader UpgradeFacts LookupTable.

(** ** Searching *)

(** Most recent first. *)
Definition newest_first (l : SlotHashes) : Prop :=
  forall i j a b, (i < j)%nat -> l !! i = Some a -> l !! j = Some b -> b.1 < a.1.

Definition has_slot (l : SlotHashes) (slot : Z) : Prop := exists i h, l !! i = Some (slot, h).

(** Where the slot is, or belongs. *)
Definition found (l : SlotHashes) (slot : Z) (r : nat + nat) : Prop :=
  match r with
  | inl i => exists h, l !! i = Some (slot, h)
  | inr i => (i <= length l)%nat /\
      (forall j a, (j < i)%nat -> l !! j = Some a -> slot < a.1) /\
      (forall j a, (i <= j)%nat -> l !! j = Some a -> a.1 < slot)
  end.

Lemma search_found fuel l slot left right :
  newest_first l -> (right - left < fuel)%nat -> (left <= right <= length l)%nat ->
  (forall j a, (j < left)%nat -> l !! j = Some a -> slot < a.1) ->
  (forall j a, (right <= j)%nat -> l !! j = Some a -> a.1 < slot) ->
  found l slot (SlotHashes.search_loop fuel l slot left right (right - left)).
Proof.
  intros Hs. revert left right. induction fuel as [|fuel IH]; intros left right Hf Hb Hlo Hhi; [lia|].
  cbn [SlotHashes.search_loop]. cbv zeta. destruct (Nat.ltb_spec left right).
  2:{ replace right with left in Hhi by lia. by split; [lia|]. }
  set (mid := (left + (right - left) / 2)%nat).
  assert ((right - left) / 2 < right - left)%nat by (apply Nat.div_lt; lia).
  destruct (lookup_lt_is_Some_2 l mid) as [[probe h] Hm]; [lia|]. rewrite Hm.
  destruct (Z.compare_spec slot probe) as [->|Hlt|Hgt]; [by exists h|..].
  - apply IH; [lia..| |done]. intros j a Hj Ha. destruct (decide (j = mid)) as [->|]; [by simplify_eq|].
    specialize (Hs j mid a (probe, h) ltac:(lia) Ha Hm). cbn in Hs. lia.
  - apply IH; [lia..|done|]. intros j a Hj Ha. destruct (decide (j = mid)) as [->|]; [by simplify_eq|].
    specialize (Hs mid j (probe, h) a ltac:(lia) Hm Ha). cbn in Hs. lia.
Qed.

Lemma binary_search_found l slot : newest_first l -> found l slot (SlotHashes.binary_search l slot).
Proof.
  intros Hs. unfold SlotHashes.binary_search. rewrite <-(Nat.sub_0_r (length l)) at 3.
  apply search_found; [done|lia..|]. intros j a Hj Ha%lookup_lt_Some. lia.
Qed.

Lemma position_spec l slot :
  newest_first l ->
  match SlotHashes.position l slot with
  | Some i => exists h, l !! i = Some (slot, h)
  | None => ~ has_slot l slot
  end.
Proof.
  intros Hs. unfold SlotHashes.position. pose proof (binary_search_found l slot Hs) as Hf.
  destruct (SlotHashes.binary_search l slot) as [i|i]; [done|]. destruct Hf as (_ & Hlo & Hhi).
  intros (j & h & Hj). destruct (decide (j < i)%nat) as [Hji|Hji].
  - specialize (Hlo j _ Hji Hj). cbn in Hlo. lia.
  - specialize (Hhi j _ ltac:(lia) Hj). cbn in Hhi. lia.
Qed.

Lemma get_has_slot l slot : newest_first l -> is_Some (SlotHashes.get l slot) <-> has_slot l slot.
Proof.
  intros Hs. unfold SlotHashes.get. pose proof (position_spec l slot Hs) as Hp.
  destruct (SlotHashes.position l slot) as [i|]; cbn.
  - destruct Hp as [h Hh]. rewrite Hh. cbn. split; [intros _; by exists i, h|eauto].
  - split; [by intros []|done].
Qed.

(** ** A chain of banks *)

(** The slots are those of ancestors of a bank at slot [now]. *)
Record recent (now : Z) (l : SlotHashes) : Prop := {
  rc_sorted : newest_first l;
  rc_older slot : has_slot l slot -> slot < now;
  rc_length : (length l <= MAX_ENTRIES)%nat
}.

(** Adding the newest slot puts it in front. *)
Lemma add_newest l slot h :
  newest_first l -> (forall s, has_slot l s -> s < slot) ->
  SlotHashes.add l slot h = take MAX_ENTRIES ((slot, h) :: l).
Proof.
  intros Hs Hn. unfold SlotHashes.add. pose proof (binary_search_found l slot Hs) as Hf.
  destruct (SlotHashes.binary_search l slot) as [i|i].
  - destruct Hf as [h' Hh]. specialize (Hn slot (ex_intro _ i (ex_intro _ h' Hh))). lia.
  - destruct Hf as (Hi & Hlo & _). destruct i as [|i]; [by rewrite drop_0|].
    destruct (lookup_lt_is_Some_2 l 0) as [[s0 h0] H0]; [lia|].
    specialize (Hlo 0%nat _ ltac:(lia) H0). specialize (Hn s0 (ex_intro _ 0%nat (ex_intro _ h0 H0))). cbn in Hlo. lia.
Qed.

Lemma newest_first_take n l : newest_first l -> newest_first (take n l).
Proof.
  intros Hs i j a b Hij [Hi _]%lookup_take_Some [Hj _]%lookup_take_Some. by eapply Hs.
Qed.

Lemma newest_first_cons a l : newest_first l -> (forall s, has_slot l s -> s < a.1) -> newest_first (a :: l).
Proof.
  intros Hs Hn i j b c Hij Hi Hj. destruct j as [|j]; [lia|]. cbn in Hj. destruct i as [|i]; cbn in Hi.
  - simplify_eq. destruct c as [s h]. apply Hn. by exists j, h.
  - eapply (Hs i j); [lia|done..].
Qed.

Lemma has_slot_take n l slot : has_slot (take n l) slot -> has_slot l slot.
Proof. intros (i & h & [Hi _]%lookup_take_Some). by exists i, h. Qed.

Lemma has_slot_cons a l slot : has_slot (a :: l) slot <-> slot = a.1 \/ has_slot l slot.
Proof.
  split.
  - intros ([|i] & h & Hi); cbn in Hi; [simplify_eq; by left|right; by exists i, h].
  - intros [->|(i & h & Hi)]; [exists 0%nat; destruct a; eauto|by exists (S i), h].
Qed.

(** The bank at slot [now], a child of the bank at slot [parent]. *)
Lemma recent_child parent now l h :
  recent parent l -> parent < now -> recent now (update_slot_hashes (Some l) parent h).
Proof.
  intros [Hs Ho Hl] Hp. unfold update_slot_hashes. cbn [from_option id]. rewrite add_newest by done. split.
  - by apply newest_first_take, newest_first_cons.
  - intros slot [->|Hh]%has_slot_take%has_slot_cons; [done|]. specialize (Ho slot Hh). lia.
  - rewrite length_take. lia.
Qed.

(** A slot that a bank of the chain had is still there, or all that is there is newer. *)
Definition remembered (slot : Z) (l : SlotHashes) : Prop :=
  has_slot l slot \/ forall s, has_slot l s -> slot < s.

Lemma remembered_child slot parent l h :
  recent parent l -> slot <= parent -> slot = parent \/ remembered slot l ->
  remembered slot (update_slot_hashes (Some l) parent h).
Proof.
  intros [Hs Ho Hl] Hp Hr. unfold update_slot_hashes. cbn [from_option id]. rewrite add_newest by done.
  assert (has_slot ((parent, h) :: l) slot \/ forall s, has_slot ((parent, h) :: l) s -> slot < s) as [Hin|Hnew].
  { destruct Hr as [->|[Hr|Hr]].
    - left. apply has_slot_cons. by left.
    - left. apply has_slot_cons. by right.
    - destruct (decide (slot = parent)) as [->|Hne]; [left; apply has_slot_cons; by left|].
      right. intros s [->|Hh]%has_slot_cons; [cbn; lia|by apply Hr]. }
  - destruct Hin as (i & h' & Hi). destruct (decide (i < MAX_ENTRIES)%nat).
    + left. exists i, h'. rewrite lookup_take_lt by done. exact Hi.
    + right. intros s (j & h2 & [Hj Hjn]%lookup_take_Some).
      eapply (newest_first_cons (parent, h) l Hs Ho j i (s, h2) (slot, h')); [lia|done..].
  - right. intros s Hh%has_slot_take. by apply Hnew.
Qed.

(** ** Tables as bytes *)

Lemma concat_chunks n l : length l = (n * 32)%nat -> concat (chunks n l) = l.
Proof.
  revert l. induction n as [|n IH]; intros l Hl; cbn [chunks concat]; [by apply nil_length_inv in Hl|].
  rewrite IH by (rewrite length_drop; lia). apply take_drop.
Qed.

Lemma cast_keys_some l ks : cast_keys l = Some ks <-> l = concat (map to_bytes ks).
Proof.
  unfold cast_keys. split.
  - destruct (Nat.eqb_spec (length l mod 32) 0) as [Hm|]; [|done]. intros Hk%mapM_Some_1.
    rewrite <-(concat_chunks (length l / 32) l) by (rewrite (Nat.div_mod (length l) 32) at 1; lia).
    induction Hk as [|c k cs ks Hc _ IH]; [done|]. cbn [concat map]. apply Pubkey_new_some in Hc. by rewrite <-Hc, IH.
  - intros ->. assert (length (concat (map to_bytes ks)) = (length ks * 32)%nat) as Hl.
    { induction ks as [|k ks IH]; [done|]. cbn [map concat length]. rewrite length_app, IH, length_to_bytes. lia. }
    rewrite Hl, Nat.Div0.mod_mul, Nat.div_mul by done. cbn [Nat.eqb]. clear Hl.
    induction ks as [|k ks IH]; [done|]. cbn [map concat chunks length].
    rewrite take_app_length', drop_app_length' by (by rewrite length_to_bytes). cbn. by rewrite Pubkey_new_to_bytes, IH.
Qed.

(** The fields of the meta data are in the range of their types. *)
Record meta_typed (m : LookupTableMeta) : Prop := {
  mt_deactivation : is_u64 (deactivation_slot m);
  mt_extended : is_u64 (last_extended_slot m);
  mt_start : 0 <= last_extended_slot_start_index m < 256;
  mt_padding : 0 <= lt_padding m < 65536
}.

(** The encoding of a table fits in front of its addresses and is read back whatever follows. *)
Class LookupBincodeLaws `{LookupBincode} : Prop := {
  table_size m : (length (bincode_serialize_table (LookupTable m)) <= LOOKUP_TABLE_META_SIZE)%nat;
  table_read_back m rest : meta_typed m ->
    bincode_deserialize_table (bincode_serialize_table (LookupTable m) ++ rest) = Some (LookupTable m);
  table_read_typed d m : bincode_deserialize_table d = Some (LookupTable m) -> meta_typed m
}.

Section tables.
Context `{LookupBincode} `{!LookupBincodeLaws}.

(** The bytes of an account hold a table. *)
Lemma deserialize_ok d t :
  deserialize_table d = Ok t <->
  (LOOKUP_TABLE_META_SIZE <= length d)%nat /\ bincode_deserialize_table d = Some (LookupTable (lt_meta t)) /\
  drop LOOKUP_TABLE_META_SIZE d = concat (map to_bytes (lt_addresses t)).
Proof.
  unfold deserialize_table. destruct (bincode_deserialize_table d) as [[|m]|]; cbn [ok_or mbind result_bind];
    [by split; [|intros (_ & ? & _)]| |by split; [|intros (_ & ? & _)]].
  rewrite result_bind_ok. split.
  - intros ([] & Hl%ensure_ok & Ht). apply Nat.leb_le in Hl. apply result_bind_ok in Ht as (ks & Hk & [= <-]).
    apply ok_or_ok, cast_keys_some in Hk. done.
  - intros (Hl & [= ->] & Hd). exists tt. split; [by apply ensure_ok, Nat.leb_le|].
    apply cast_keys_some in Hd. rewrite Hd. by destruct t.
Qed.

Lemma table_meta_typed d t : deserialize_table d = Ok t -> meta_typed (lt_meta t).
Proof. intros (_ & Hd & _)%deserialize_ok. by eapply table_read_typed. Qed.

(** Overwriting the meta data of a table and appending addresses. *)
Lemma overwrite_deserialize d t m d' new :
  deserialize_table d = Ok t -> meta_typed m -> overwrite_meta_data d m = Ok d' ->
  length d' = length d /\
  deserialize_table (d' ++ concat (map to_bytes new)) = Ok (mkAddressLookupTable m (lt_addresses t ++ new)).
Proof.
  intros (Hl & Hd & Ha)%deserialize_ok Hm Ho. unfold overwrite_meta_data in Ho.
  apply result_bind_ok in Ho as ([] & _ & Ho). apply result_bind_ok in Ho as ([] & Hs%ensure_ok & [= <-]).
  apply Nat.leb_le in Hs. set (bytes := bincode_serialize_table (LookupTable m)) in *.
  assert (length (bytes ++ replicate (LOOKUP_TABLE_META_SIZE - length bytes) x00) = LOOKUP_TABLE_META_SIZE) as Hf
    by (rewrite length_app, length_replicate; lia).
  split; [rewrite !length_app, length_replicate, length_drop; lia|]. apply deserialize_ok. cbn [lt_meta lt_addresses].
  split_and!.
  - rewrite !length_app, length_replicate. lia.
  - rewrite <-app_assoc. by apply table_read_back.
  - rewrite app_assoc, <-app_assoc. rewrite drop_app_length' by done. by rewrite Ha, map_app, concat_app.
Qed.
End tables.

(** ** Steps of a table *)

(** The meta data after an extension at slot [now]. *)
Definition extended (now : Z) (t : AddressLookupTable) : LookupTableMeta :=
  if now =? last_extended_slot (lt_meta t) then lt_meta t
  else with_extension (lt_meta t) now (Z.of_nat (length (lt_addresses t))).

(** What an instruction at slot [now] may make of a table: its authority is among the signers
    [sg] and the table is not deactivated. *)
Inductive table_step (now : Z) (sg : Pubkey -> Prop) (t : AddressLookupTable) : AddressLookupTable -> Prop :=
| step_freeze k :
    lt_authority (lt_meta t) = Some k -> sg k -> deactivation_slot (lt_meta t) = U64_MAX -> lt_addresses t <> [] ->
    table_step now sg t (mkAddressLookupTable (with_authority (lt_meta t) None) (lt_addresses t))
| step_extend k new :
    lt_authority (lt_meta t) = Some k -> sg k -> deactivation_slot (lt_meta t) = U64_MAX -> new <> [] ->
    (length (lt_addresses t ++ new) <= LOOKUP_TABLE_MAX_ADDRESSES)%nat ->
    table_step now sg t (mkAddressLookupTable (extended now t) (lt_addresses t ++ new))
| step_deactivate k :
    lt_authority (lt_meta t) = Some k -> sg k -> deactivation_slot (lt_meta t) = U64_MAX ->
    table_step now sg t (mkAddressLookupTable (with_deactivation (lt_meta t) now) (lt_addresses t)).

(** What an instruction at slot [now] makes of an active table: a frozen table has no
    authority; an extension appends its addresses, at most 256 in all, and records the slot
    with the number of addresses before it, unless the table was extended in that slot
    already; a deactivation records the slot. *)
Definition instructed (now : Z) (i : LookupInstruction) (t t' : AddressLookupTable) : Prop :=
  let m := lt_meta t in
  match i with
  | FreezeLookupTable => lt_addresses t <> [] /\
      t' = mkAddressLookupTable (mkLookupTableMeta (deactivation_slot m) (last_extended_slot m)
             (last_extended_slot_start_index m) None (lt_padding m)) (lt_addresses t)
  | ExtendLookupTable new => new <> [] /\ (length (lt_addresses t) + length new <= 256)%nat /\
      lt_addresses t' = lt_addresses t ++ new /\
      lt_meta t' = (if decide (now = last_extended_slot m) then m
                    else mkLookupTableMeta (deactivation_slot m) now (Z.of_nat (length (lt_addresses t)))
                           (lt_authority m) (lt_padding m))
  | DeactivateLookupTable =>
      t' = mkAddressLookupTable (mkLookupTableMeta now (last_extended_slot m)
             (last_extended_slot_start_index m) (lt_authority m) (lt_padding m)) (lt_addresses t)
  | CreateLookupTable _ _ | CloseLookupTable => False
  end.

Lemma instructed_step now sg i t t' k :
  lt_authority (lt_meta t) = Some k -> sg k -> deactivation_slot (lt_meta t) = U64_MAX -> instructed now i t t' ->
  table_step now sg t t'.
Proof.
  intros Hk Hsg Hd Hi. destruct i as [| |new| |]; cbn in Hi; try done.
  - destruct Hi as [Hne ->]. by eapply step_freeze.
  - destruct Hi as (Hne & Hl & Ha & Hm). destruct t' as [m' l']. cbn in Ha, Hm. subst l'.
    replace m' with (extended now t); [eapply step_extend; [done..|rewrite length_app; done]|].
    unfold extended. destruct (Z.eqb_spec now (last_extended_slot (lt_meta t))), (decide (now = last_extended_slot (lt_meta t))); done.
  - subst t'. by eapply step_deactivate.
Qed.

(** A table counts as deactivated when its slot is neither the current one nor recent. *)
Lemma deactivated_spec m now hashes :
  newest_first hashes -> status m now hashes = Deactivated ->
  deactivation_slot m <> U64_MAX /\ deactivation_slot m <> now /\ forall h, (deactivation_slot m, h) ∉ hashes.
Proof.
  intros Hs Hst. unfold status in Hst. destruct (Z.eqb_spec (deactivation_slot m) U64_MAX); [done|].
  destruct (Z.eqb_spec (deactivation_slot m) now); [done|]. pose proof (position_spec hashes (deactivation_slot m) Hs) as Hp.
  destruct (SlotHashes.position _ _); [done|]. split_and!; try done. intros h [i Hi]%list_elem_of_lookup.
  apply Hp. by exists i, h.
Qed.

Section handlers.
Context `{LookupBincode} `{!LookupBincodeLaws}.

(** The account [j], instruction account zero, holds the table [t]. *)
Definition holds_table (ic : InstructionContext) (tc : TransactionContext) (j : nat) (a : Account)
    (t : AddressLookupTable) : Prop :=
  (exists ia, instruction_accounts ic !! 0%nat = Some ia /\ index_in_transaction ia = j) /\
  accounts tc !! j = Some a /\ acc_owner a = address_lookup_table_id /\ deserialize_table (acc_data a) = Ok t.

(** The active table of the instruction, whose authority signed, becomes what the
    instruction [i] makes of it; the data of its account changes and nothing else. *)
Definition table_stepped (now : Z) (i : LookupInstruction) (ic : InstructionContext) (tc tc' : TransactionContext) : Prop :=
  exists j a t d t' k, holds_table ic tc j a t /\
    lt_authority (lt_meta t) = Some k /\ signed ic (account_keys tc) k /\ deactivation_slot (lt_meta t) = U64_MAX /\
    instructed now i t t' /\
    deserialize_table d = Ok t' /\ accounts tc' = <[j := set_acc_data a d]> (accounts tc).

(** The table of the instruction is closed: its authority signed, it was deactivated at a slot
    that is neither the current slot nor a recent one, and its balance goes to another account. *)
Definition table_closed (now : Z) (hashes : SlotHashes) (ic : InstructionContext) (tc tc' : TransactionContext) : Prop :=
  exists j a t k r b, holds_table ic tc j a t /\
    lt_authority (lt_meta t) = Some k /\ signed ic (account_keys tc) k /\
    (deactivation_slot (lt_meta t) <> U64_MAX /\ deactivation_slot (lt_meta t) <> now /\
     forall h, (deactivation_slot (lt_meta t), h) ∉ hashes) /\
    (exists ia, instruction_accounts ic !! 2%nat = Some ia /\ index_in_transaction ia = r) /\ j <> r /\
    accounts tc !! r = Some b /\ acc_lamports b + acc_lamports a <= U64_MAX /\
    accounts tc' = <[j := set_acc_lamports (set_acc_data a []) 0]>
                     (<[r := set_acc_lamports b (acc_lamports b + acc_lamports a)]> (accounts tc)).

Lemma signer_key_ok ic i tc k tc' :
  signer_key ic i tc = Ok (k, tc') -> tc' = tc /\ signed ic (account_keys tc) k.
Proof.
  unfold signer_key. intros Hs. inv_tx.
  match goal with Hb : try_borrow_instruction_account _ _ _ = _ |- _ =>
    apply borrow_instruction_ok in Hb as (ia & a & Hia & Hix & _ & _ & Hsg) end.
  match goal with Hk : key_at _ _ = Ok _ |- _ => unfold key_at in Hk; apply unwrap_ok in Hk; rewrite Hix in Hk end.
  split; [done|]. exists i, ia. split_and!; [done|congruence|done].
Qed.

Lemma read_table_ok k ic tc r tc' :
  read_table k ic tc = Ok (r, tc') ->
  tc' = tc /\ lt_authority (lt_meta r.2) = Some k /\
  exists ia a, instruction_accounts ic !! 0%nat = Some ia /\ ba_index_in_transaction r.1 = index_in_transaction ia /\
    accounts tc !! index_in_transaction ia = Some a /\ deserialize_table (acc_data a) = Ok r.2.
Proof.
  unfold read_table. intros Hs. inv_tx.
  match goal with Hb : try_borrow_instruction_account _ _ _ = _ |- _ =>
    apply borrow_instruction_ok in Hb as (ia & a & Hia & Hix & Ha & _) end.
  rewrite Hix in *. simplify_eq. match goal with Ho : bool_decide _ = true |- _ => apply bool_decide_eq_true in Ho end.
  split_and!; [done..|]. exists ia. eauto 10.
Qed.

(** What the handlers that change a table have in common. *)
Lemma table_read_ok ic tc k r tc1 :
  check_table_owner ic tc = Ok (k, tc1) /\ read_table k ic tc1 = Ok (r, tc1) ->
  tc1 = tc /\ lt_authority (lt_meta r.2) = Some k /\ signed ic (account_keys tc) k /\
  exists a, holds_table ic tc (ba_index_in_transaction r.1) a r.2.
Proof.
  unfold check_table_owner. intros [Hc Hr]. inv_tx. apply signer_key_ok in Hc as [-> Hs].
  apply read_table_ok in Hr as (_ & Hau & ia & a & Hia & Hix & Ha & Hd).
  match goal with Hb : try_borrow_instruction_account _ _ _ = _ |- _ =>
    apply borrow_instruction_ok in Hb as (ia' & a' & Hia' & Hix' & Ha' & _); rewrite Hix' in * end.
  simplify_eq. match goal with Ho : key_eqb _ _ = true |- _ => apply key_eqb_eq in Ho end.
  split_and!; try done. eexists. unfold holds_table. rewrite Hix. split_and!; eauto.
Qed.

Lemma write_meta_ok b m tc u tc' :
  write_meta b m tc = Ok (u, tc') ->
  exists a d, overwrite_meta_data (acc_data a) m = Ok d /\ rewrites (ba_index_in_transaction b) a (set_acc_data a d) tc tc'.
Proof. unfold write_meta. intros Hs. inv_tx. do 2 eexists. split; [eassumption|]. split; [done|]. by eapply set_cell_ok. Qed.

(** A step that only overwrites the meta data. *)
Lemma meta_stepped now i ic tc b a t k m u tc' :
  holds_table ic tc (ba_index_in_transaction b) a t -> meta_typed m ->
  lt_authority (lt_meta t) = Some k -> signed ic (account_keys tc) k -> deactivation_slot (lt_meta t) = U64_MAX ->
  instructed now i t (mkAddressLookupTable m (lt_addresses t)) ->
  write_meta b m tc = Ok (u, tc') -> table_stepped now i ic tc tc'.
Proof.
  intros Hh Hm Hk Hsg Hda Hst (a' & d & Ho & Hr)%write_meta_ok. pose proof Hh as (_ & Ha & _ & Hd).
  destruct Hr as [Ha' Hw%writes_accounts]. assert (a' = a) as -> by congruence.
  destruct (overwrite_deserialize _ _ _ _ [] Hd Hm Ho) as [_ Hd']. rewrite !app_nil_r in Hd'.
  exists (ba_index_in_transaction b), a, t, d, (mkAddressLookupTable m (lt_addresses t)), k. done.
Qed.

Ltac table_read :=
  match goal with
  | Hc : check_table_owner _ _ = Ok (?k, ?t1), Hr : read_table ?k _ ?t1 = Ok (?r, ?t2) |- _ =>
      pose proof (read_table_ok _ _ _ _ _ Hr) as [-> _];
      destruct (table_read_ok _ _ _ _ _ (conj Hc Hr)) as (-> & Hau & Hsg & a & Hh); clear Hc Hr;
      destruct r as [b t]; cbn [fst snd] in Hau, Hh
  end; inv_tx.

Lemma freeze_stepped now ic tc u tc' :
  freeze_lookup_table ic tc = Ok (u, tc') -> table_stepped now FreezeLookupTable ic tc tc'.
Proof.
  unfold freeze_lookup_table. intros Hs. inv_tx. table_read.
  pose proof Hh as (_ & _ & _ & Hd). destruct (table_meta_typed _ _ Hd) as [T1 T2 T3 T4].
  match goal with Hz : (_ =? _) = true |- _ => apply Z.eqb_eq in Hz end.
  refine (meta_stepped _ _ _ _ _ _ _ _ _ _ _ Hh _ Hau Hsg _ _ Hs); [by split|done|].
  split; [|done]. intros E. by rewrite E in *.
Qed.

Variable env : LookupEnv.

Lemma deactivate_stepped now ic tc u tc' :
  is_u64 now -> lookup_clock_slot env = Some now ->
  deactivate_lookup_table env ic tc = Ok (u, tc') -> table_stepped now DeactivateLookupTable ic tc tc'.
Proof.
  unfold deactivate_lookup_table, sysvar_of. intros Hn Hclk Hs. inv_tx. table_read.
  pose proof Hh as (_ & _ & _ & Hd). destruct (table_meta_typed _ _ Hd) as [T1 T2 T3 T4].
  match goal with Hz : (_ =? _) = true |- _ => apply Z.eqb_eq in Hz end.
  match goal with Hc : lookup_clock_slot env = Some ?x |- _ => assert (x = now) as -> by congruence end.
  refine (meta_stepped _ _ _ _ _ _ _ _ _ _ _ Hh _ Hau Hsg _ _ Hs); [by split|done|done].
Qed.

Lemma extended_typed now t :
  is_u64 now -> (length (lt_addresses t) < 256)%nat -> meta_typed (lt_meta t) -> meta_typed (extended now t).
Proof. intros Hn Hl [T1 T2 T3 T4]. unfold extended. destruct (_ =? _); split; cbn; try done. lia. Qed.

Lemma extend_stepped now new ic tc r tc' :
  is_u64 now -> lookup_clock_slot env = Some now ->
  extend_table env new ic tc = Ok (r, tc') -> table_stepped now (ExtendLookupTable new) ic tc tc'.
Proof.
  unfold extend_table, sysvar_of. intros Hn Hclk Hs. inv_tx. table_read.
  pose proof Hh as (_ & Ha & _ & Hd). pose proof (table_meta_typed _ _ Hd) as Hty.
  repeat match goal with
  | Hz : (_ =? _) = true |- _ => apply Z.eqb_eq in Hz
  | Hz : negb _ = true |- _ => apply negb_true_iff in Hz
  | Hz : (_ <=? _)%nat = false |- _ => apply Nat.leb_gt in Hz
  | Hz : (_ <? _)%nat = false |- _ => apply Nat.ltb_ge in Hz
  | Hz : (_ =? _)%nat = false |- _ => apply Nat.eqb_neq in Hz
  | Hc : lookup_clock_slot env = Some ?x |- _ => assert (x = now) as -> by congruence; clear Hc
  end.
  match goal with Hm : (if now =? _ then _ else _) ?t1 = Ok (?m, ?t2) |- _ =>
    assert (m = extended now t /\ t2 = t1) as [-> ->]
      by (unfold extended; destruct (now =? _); inv_tx; done); clear Hm end.
  match goal with Ho : overwrite_meta_data _ _ = Ok ?d, Hset : BorrowedAccount.set_data _ _ _ = _ |- _ =>
    apply set_data_ok in Hset as (a2 & Ha2 & Hw); exists (ba_index_in_transaction b), a, t, (d ++ concat (map to_bytes new)) end.
  simplify_eq. eexists (mkAddressLookupTable (extended now t) (lt_addresses t ++ new)), _.
  split; [exact Hh|]. split_and!; [done..| | |by eapply writes_accounts].
  - split_and!; [by intros ->|unfold LOOKUP_TABLE_MAX_ADDRESSES in *; lia|done|]. cbn. unfold extended.
    by destruct (Z.eqb_spec now (last_extended_slot (lt_meta t))), (decide (now = last_extended_slot (lt_meta t))).
  - eapply overwrite_deserialize; [done|by apply extended_typed|done].
Qed.

Lemma close_closed now hashes ic tc u tc' :
  lookup_clock_slot env = Some now -> lookup_slot_hashes env = Some hashes -> newest_first hashes ->
  close_lookup_table env ic tc = Ok (u, tc') -> table_closed now hashes ic tc tc'.
Proof.
  unfold close_lookup_table, sysvar_of. intros Hclk Hsh Hnf Hs. inv_tx. table_read.
  repeat match goal with
  | Hc : lookup_clock_slot env = Some ?x |- _ => assert (x = now) as -> by congruence; clear Hc
  | Hc : lookup_slot_hashes env = Some ?x |- _ => assert (x = hashes) as -> by congruence; clear Hc
  end.
  match goal with Hst : (match ?x with Activated => _ | _ => _ end) = true |- _ =>
    destruct x eqn:Est; try done; clear Hst end.
  apply (deactivated_spec _ _ _ Hnf) in Est.
  pose proof Hh as ((ia & Hia & Hj) & Ha & _). simplify_eq.
  match goal with Hb : try_borrow_instruction_account ic 2 _ = _ |- _ =>
    apply borrow_instruction_ok in Hb as (ia2 & b2 & Hia2 & Hix2 & Hb2 & _) end.
  match goal with Hb : try_borrow_instruction_account ic 0 _ = _ |- _ =>
    apply borrow_instruction_ok in Hb as (ia0 & b0 & Hia0 & Hix0 & Hb0 & _) end.
  simplify_eq.
  match goal with H0 : get_index_of_instruction_account_in_transaction ic 0 = Ok ?i,
    H2 : get_index_of_instruction_account_in_transaction ic 2 = Ok ?j, Hn : negb (?i =? ?j)%nat = true |- _ =>
    unfold get_index_of_instruction_account_in_transaction in H0, H2; rewrite Hia0 in H0; rewrite Hia2 in H2;
    injection H0 as <-; injection H2 as <-; apply negb_true_iff, Nat.eqb_neq in Hn; rename Hn into Hne end.
  rewrite <-Hj in *.
  match goal with Hadd : BorrowedAccount.checked_add_lamports _ _ _ = _ |- _ =>
    apply checked_add_lamports_ok in Hadd as (b2' & Hb2' & Hmax & Hw1); rewrite Hix2 in * end.
  match goal with Hset : BorrowedAccount.set_data _ _ _ = _ |- _ =>
    apply set_data_ok in Hset as (a1 & Ha1 & Hw2); rewrite Hix0 in * end.
  apply lamports_set in Hs as (a2 & Ha2 & Hw3). rewrite Hix0 in *.
  rewrite (writes_accounts _ _ _ Hw1) in *. rewrite list_lookup_insert_ne in Ha1 by done.
  rewrite (writes_accounts _ _ _ Hw2) in *. rewrite list_lookup_insert_eq in Ha2
    by (rewrite length_insert; apply lookup_lt_Some in Ha1; done).
  simplify_eq. eexists (index_in_transaction ia0), _, t, x, (index_in_transaction ia2), _.
  split_and!; [exact Hh|done|done|apply Est|apply Est|apply Est|by eexists|done|done|done|].
  rewrite (writes_accounts _ _ _ Hw3). apply list_insert_insert_eq.
Qed.
End handlers.
