(* ===== verification/LookupSafety.v ===== *)
(** * What lookup tables promise

    Instructions of the lookup table program are steps of the table under its authority; the
    addresses of a table resolve the same way for all transactions of a slot and never
    change; and a closed table cannot be created again at its address. *)

From Stdlib Require Import Strings.Byte.
From S2P Require Import Prelude Sdk Rent Program SystemInstruction Fixtures Transaction Serialization SerializationFacts ReadBack Nonce SystemProgram SystemSafety Runtime RuntimeSafety Message MessageProcessor Loader LoaderFacts CallContexts Ledger LedgerSafety LoaderLedger UpgradeableLoader UpgradeFacts UpgradeSafety LookupTable LookupFacts.

(** ** Running a handler *)

(** The accounts of the instruction are stored. *)
Lemma listed_stored K c pid tc i ia :
  ready K c pid tc -> instruction_accounts c !! i = Some ia ->
  index_in_transaction ia ∈ stored c (instruction_account_indices c).
Proof.
  intros [_ _ _ [_ _ Hwl _ _]] Hia. destruct (wl_first _ _ Hwl _ _ Hia) as (_ & ja & Hja & Hcal & Hx).
  apply elem_of_stored. exists (index_in_callee ia), ja. split_and!; try done.
  unfold instruction_account_indices. apply elem_of_seq. split; [lia|]. cbn. by eapply lookup_lt_Some.
Qed.

Section instruction.
Context `{LKB : LookupBincode} `{LKL : !LookupBincodeLaws} `{SB : SystemBincode} `{CR : Crypto}.
Variable call : list byte -> list InstructionAccount -> list nat -> InvokeContext ->
  result InstructionError InvokeContext.
Variable env : LookupEnv.

(** A handler that changes accounts of the instruction only. *)
Definition confined (c : InstructionContext) (tc tcr : TransactionContext) : Prop :=
  length (accounts tcr) = length (accounts tc) /\
  forall j, (forall i ia, instruction_accounts c !! i = Some ia -> index_in_transaction ia <> j) ->
    accounts tcr !! j = accounts tc !! j.

Lemma commit_confined K c pid m k ic ic' :
  ready K c pid (transaction_context ic) ->
  (forall u tcr, m c (transaction_context ic) = Ok (u, tcr) -> confined c (transaction_context ic) tcr) ->
  exec call (commit m k) ic = Ok ic' ->
  exists u tcr ic1, m c (transaction_context ic) = Ok (u, tcr) /\ exec call k ic1 = Ok ic' /\
    same_frame ic ic1 /\ accounts (transaction_context ic1) = accounts tcr.
Proof.
  intros Hr Hm He.
  apply (commit_exec (LB := {| bincode_deserialize_loader _ := None |}) call K c pid) in He
    as (u & tcr & ic1 & H1 & He & Hf & Hc); [|done|intros u tcr Hrun; by eapply Hm].
  exists u, tcr, ic1. split_and!; try done. apply list_eq. intros j. rewrite Hc. case_decide as Hj; [done|].
  symmetry. apply (Hm _ _ H1). intros i ia Hia <-. apply Hj. by eapply listed_stored.
Qed.

Lemma stepped_confined now i c tc tcr : table_stepped now i c tc tcr -> confined c tc tcr.
Proof.
  intros (j & a & t & d & t' & k & ((ia & Hia & Hj) & _) & _ & _ & _ & _ & _ & Hacc). unfold confined. rewrite Hacc.
  split; [apply length_insert|]. intros j' Hn. apply list_lookup_insert_ne. rewrite <-Hj. by eapply Hn.
Qed.

Lemma closed_confined now hashes c tc tcr : table_closed now hashes c tc tcr -> confined c tc tcr.
Proof.
  intros (j & a & t & k & r & b & ((ia & Hia & Hj) & _) & _ & _ & _ & (ir & Hir & Hr) & _ & _ & _ & Hacc).
  unfold confined. rewrite Hacc. split; [by rewrite !length_insert|]. intros j' Hn.
  rewrite !list_lookup_insert_ne; [done|rewrite <-Hr; by eapply Hn|rewrite <-Hj; by eapply Hn].
Qed.

Lemma stepped_accounts now i c tc tcr tc1 :
  accounts tc1 = accounts tcr -> table_stepped now i c tc tcr -> table_stepped now i c tc tc1.
Proof. intros E (j & a & t & d & t' & k & Hst). exists j, a, t, d, t', k. by rewrite E. Qed.

Lemma closed_accounts now hashes c tc tcr tc1 :
  accounts tc1 = accounts tcr -> table_closed now hashes c tc tcr -> table_closed now hashes c tc tc1.
Proof.
  intros E (j & a & t & k & r & b & Hh & H1 & H2 & H3 & H4 & H5 & H6 & H7 & H8).
  exists j, a, t, k, r, b. by rewrite E.
Qed.

Definition creates (i : LookupInstruction) : bool :=
  match i with CreateLookupTable _ _ => true | _ => false end.

(** The effect of an instruction on the accounts. *)
Definition table_effect (now : Z) (hashes : SlotHashes) (c : InstructionContext) (i : LookupInstruction)
    (tc tc' : TransactionContext) : Prop :=
  match i with
  | CloseLookupTable => table_closed now hashes c tc tc'
  | _ => table_stepped now i c tc tc'
  end.

(** What may follow an extension: a signer pays for the longer table. *)
Definition funded (c : InstructionContext) (ic ic' : InvokeContext) : Prop :=
  ic' = ic \/
  exists payer_key table_key lamports, signed c (account_keys (transaction_context ic)) payer_key /\
    exec call (Invoke (SystemInstruction.transfer payer_key table_key lamports) [payer_key] [] Return) ic = Ok ic'.

Lemma commit_effect K c pid now hashes i m k ic ic' :
  ready K c pid (transaction_context ic) ->
  (forall u tcr, m c (transaction_context ic) = Ok (u, tcr) -> table_effect now hashes c i (transaction_context ic) tcr) ->
  exec call (commit m k) ic = Ok ic' ->
  exists ic1, same_frame ic ic1 /\ table_effect now hashes c i (transaction_context ic) (transaction_context ic1) /\
    exec call k ic1 = Ok ic'.
Proof.
  intros Hr Hm He. apply (commit_confined K c pid) in He as (u & tcr & ic1 & H1 & He & Hf & Hacc); [|done|].
  - exists ic1. split_and!; try done. specialize (Hm _ _ H1).
    destruct i; cbn in Hm |- *; solve [by eapply stepped_accounts|by eapply closed_accounts].
  - intros u tcr Hrun. specialize (Hm _ _ Hrun).
    destruct i; cbn in Hm; solve [by eapply stepped_confined|by eapply closed_confined].
Qed.

Lemma extend_refines K c pid now (hashes : SlotHashes) new ic ic' :
  ready K c pid (transaction_context ic) -> is_u64 now -> lookup_clock_slot env = Some now ->
  exec call (extend_lookup_table env new) ic = Ok ic' ->
  exists ic1, same_frame ic ic1 /\
    table_effect now hashes c (ExtendLookupTable new) (transaction_context ic) (transaction_context ic1) /\
    funded c ic1 ic'.
Proof.
  intros Hr Hnow Hclock He. unfold extend_lookup_table in He. cbn [reading exec] in He.
  destruct (in_current _ _) as [[[table_key lamports] len]|e|]; [|done..].
  apply (commit_effect K c pid now hashes (ExtendLookupTable new)) in He as (ic1 & Hf & Heff & He); [|done|].
  2:{ intros u tcr Hm. inv_tx. by eapply extend_stepped. }
  exists ic1. split_and!; [done..|]. cbn [reading exec] in He.
  destruct (lookup_rent env) as [rent|]; [|done]. cbn [ok_or] in He.
  destruct (0 <? _); [|left; by injection He]. right. cbn [reading exec] in He.
  destruct (in_current _ _) as [payer|e|] eqn:Hp; [|done..].
  pose proof Hr as [_ _ _ [Hc _ _ _ _]].
  apply (in_current_ok _ c) in Hp as [tc1 [_ Hs]%signer_key_ok]; [|by rewrite (same_frame_current _ _ Hf)].
  eauto.
Qed.

(** C16: A successful instruction of the lookup table program other than a creation
    changes the table in its first account, which the program owns and whose authority
    signed, as the decoded instruction says. An active table is frozen if it has
    addresses: it loses its authority. An active table is extended by exactly the
    addresses of the instruction, up to 256 in all, and records the slot with the number
    of addresses before it, unless it was extended in this slot already. An active table
    is deactivated at the current slot. Nothing but the data of its account changes,
    except that a signer may pay for an extension by a transfer. Or the table is closed:
    it was deactivated at a slot that is neither the current one nor among the recent
    slots of the bank (which are kept newest first), its data is removed and its balance
    goes to another account of the instruction. *)
Theorem lookup_instruction_refines (K : list Pubkey) (c : InstructionContext) (pid : Pubkey) (first : nat)
    (ic ic' : InvokeContext) (i : LookupInstruction) (now : Z) (hashes : SlotHashes)
    (Hready : ready K c pid (transaction_context ic)) (Hnow : is_u64 now)
    (Hclock : lookup_clock_slot env = Some now) (Hhashes : lookup_slot_hashes env = Some hashes)
    (Hrecent : newest_first hashes)
    (Hdata : limited_deserialize_lookup (instruction_data c) = Some i) (Hi : creates i = false)
    (Hrun : exec call (process_lookup_instruction env first) ic = Ok ic') :
  exists ic1, same_frame ic ic1 /\
    table_effect now hashes c i (transaction_context ic) (transaction_context ic1) /\
    match i with ExtendLookupTable _ => funded c ic1 ic' | _ => ic' = ic1 end.
Proof.
  unfold process_lookup_instruction in Hrun. pose proof Hready as [_ _ _ [Hc _ _ _ _]].
  cbn in Hrun. rewrite Hc, Hdata in Hrun. destruct i as [| |new| |]; [done|..].
  - apply (commit_effect K c pid now hashes FreezeLookupTable) in Hrun as (ic1 & Hf & He & [= <-]); [by exists ic1|done|].
    intros u tcr Hm. by eapply freeze_stepped.
  - by eapply extend_refines.
  - apply (commit_effect K c pid now hashes DeactivateLookupTable) in Hrun as (ic1 & Hf & He & [= <-]); [by exists ic1|done|].
    intros u tcr Hm. by eapply deactivate_stepped.
  - apply (commit_effect K c pid now hashes CloseLookupTable) in Hrun as (ic1 & Hf & He & [= <-]); [by exists ic1|done|].
    intros u tcr Hm. by eapply close_closed.
Qed.
End instruction.

(** ** Looking up addresses *)

(** The tables that instructions leave at slots up to [now]. *)
Record table_ok (now : Z) (t : AddressLookupTable) : Prop := {
  to_length : (length (lt_addresses t) <= LOOKUP_TABLE_MAX_ADDRESSES)%nat;
  to_start : 0 <= last_extended_slot_start_index (lt_meta t) <= Z.of_nat (length (lt_addresses t));
  to_extended : last_extended_slot (lt_meta t) <= now
}.

(** How many addresses can be used at a slot. *)
Definition usable (t : AddressLookupTable) (slot : Z) : nat :=
  if last_extended_slot (lt_meta t) <? slot then length (lt_addresses t)
  else Z.to_nat (last_extended_slot_start_index (lt_meta t)).

Lemma usable_le now t slot : table_ok now t -> (usable t slot <= length (lt_addresses t))%nat.
Proof. intros [_ Hs _]. unfold usable. destruct (_ <? _); lia. Qed.

Lemma usable_mono now t s s' : table_ok now t -> s <= s' -> (usable t s <= usable t s')%nat.
Proof.
  intros [_ Hs _] Hle. unfold usable. destruct (Z.ltb_spec (last_extended_slot (lt_meta t)) s),
    (Z.ltb_spec (last_extended_slot (lt_meta t)) s'); lia.
Qed.

Lemma lookup_usable now t slot indexes hashes :
  table_ok now t ->
  lookup_addresses t slot indexes hashes =
    if is_active (lt_meta t) slot hashes
    then ok_or (mapM (fun i => take (usable t slot) (lt_addresses t) !! i) indexes) InvalidLookupIndex
    else Err LookupTableAccountNotFound.
Proof.
  intros Hok. unfold lookup_addresses, get_active_addresses_len. destruct (is_active _ _ _); [|done].
  cbn [ensure mbind result_bind]. fold (usable t slot). pose proof (usable_le _ _ slot Hok) as Hle.
  destruct (Nat.leb_spec (usable t slot) (length (lt_addresses t))); [done|lia].
Qed.

(** A step keeps the tables well formed, appends addresses, and does not change how many can
    be used at its slot. *)
Lemma step_keeps now sg t t' :
  table_ok now t -> table_step now sg t t' ->
  table_ok now t' /\ usable t' now = usable t now /\ lt_addresses t `prefix_of` lt_addresses t' /\
  forall hashes, is_active (lt_meta t) now hashes = true /\ is_active (lt_meta t') now hashes = true.
Proof.
  intros [Hl Hs He] Hst. assert (forall m hashes, deactivation_slot m = U64_MAX -> is_active m now hashes = true) as Hact.
  { intros m hashes Hd. unfold is_active, status. by rewrite Hd, Z.eqb_refl. }
  destruct Hst as [k Hau Hsg Hd Hne|k new Hau Hsg Hd Hne Hmax|k Hau Hsg Hd].
  - split_and!; [by split|done..|]. intros hashes. split; by apply Hact.
  - assert (deactivation_slot (extended now t) = U64_MAX) as Hd'
      by (unfold extended; by destruct (now =? _)).
    split_and!; [|..|intros hashes; split; by apply Hact].
    + unfold extended. rewrite length_app in Hmax. destruct (Z.eqb_spec now (last_extended_slot (lt_meta t))); split; cbn;
        rewrite ?length_app; lia.
    + unfold usable, extended. destruct (Z.eqb_spec now (last_extended_slot (lt_meta t))) as [E|]; cbn.
      * rewrite <-E, Z.ltb_irrefl. done.
      * rewrite Z.ltb_irrefl, Nat2Z.id. destruct (Z.ltb_spec (last_extended_slot (lt_meta t)) now); [done|lia].
    + by exists new.
  - split_and!; [by split|done..|]. intros hashes. split; [by apply Hact|]. unfold is_active, status. cbn.
    rewrite Z.eqb_refl. by destruct (now =? U64_MAX).
Qed.

Lemma step_agrees now sg t t' indexes hashes :
  table_ok now t -> table_step now sg t t' ->
  table_ok now t' /\ lookup_addresses t' now indexes hashes = lookup_addresses t now indexes hashes.
Proof.
  intros Hok Hst. destruct (step_keeps _ _ _ _ Hok Hst) as (Hok' & Hu & [l Hl] & Ha). split; [done|].
  rewrite !(lookup_usable now) by done. destruct (Ha hashes) as [-> ->]. rewrite Hu, Hl.
  by rewrite take_app_le by (by eapply usable_le).
Qed.

(** Instructions of one slot. *)
Definition slot_steps (now : Z) : AddressLookupTable -> AddressLookupTable -> Prop :=
  rtc (fun t t' => exists sg, table_step now sg t t').

Lemma slot_steps_agree now t t' indexes hashes :
  slot_steps now t t' -> table_ok now t ->
  lookup_addresses t' now indexes hashes = lookup_addresses t now indexes hashes.
Proof.
  induction 1 as [|t t1 t' [sg Hst] _ IH]; intros Hok; [done|].
  destruct (step_agrees _ _ _ _ indexes hashes Hok Hst) as [Hok' <-]. by apply IH.
Qed.

Section loading.
Context `{LKB : LookupBincode}.

(** The table at a key made steps at slot [now], or nothing happened. *)
Definition tables_stepped (now : Z) (load load' : Pubkey -> option Account) : Prop :=
  forall k, load' k = load k \/
    exists a a' t t', load k = Some a /\ load' k = Some a' /\
      acc_owner a = address_lookup_table_id /\ acc_owner a' = address_lookup_table_id /\
      deserialize_table (acc_data a) = Ok t /\ deserialize_table (acc_data a') = Ok t' /\
      table_ok now t /\ slot_steps now t t'.

Lemma load_table_agrees now load load' lookup hashes :
  tables_stepped now load load' ->
  load_lookup_table_addresses load' now lookup hashes = load_lookup_table_addresses load now lookup hashes.
Proof.
  intros Hst. unfold load_lookup_table_addresses.
  destruct (Hst (account_key lookup)) as [->|(a & a' & t & t' & -> & -> & Ho & Ho' & Hd & Hd' & Hok & Hs)]; [done|].
  cbn [ok_or mbind result_bind]. rewrite Ho, Ho', Hd, Hd'. cbn [map_err mbind result_bind].
  by rewrite !(slot_steps_agree _ _ _ _ _ Hs Hok).
Qed.

(** The addresses that the bank loads for a message do not depend on the order of
    the transactions of a slot: loading them before and after tables were frozen,
    extended or deactivated in that slot gives the same result. *)
Theorem loaded_addresses_agree (now : Z) (load load' : Pubkey -> option Account) (enabled : bool)
    (cached : option SlotHashes) (lookups : list MessageAddressTableLookup)
    (Hstepped : tables_stepped now load load') :
  load_addresses enabled cached load' now lookups = load_addresses enabled cached load now lookups.
Proof.
  unfold load_addresses. destruct enabled; [|done]. cbn [ensure mbind result_bind].
  destruct cached as [hashes|]; [|done]. cbn [ok_or mbind result_bind].
  assert (load_each load' now hashes lookups = load_each load now hashes lookups) as ->; [|done].
  induction lookups as [|lookup l IH]; [done|]. cbn [load_each]. by rewrite (load_table_agrees now load), IH.
Qed.
End loading.

(** ** Over time *)

(** Steps at slots that do not decrease. *)
Inductive table_history : Z -> AddressLookupTable -> Z -> AddressLookupTable -> Prop :=
| history_refl now t : table_history now t now t
| history_later now t now' t' later : table_history now t now' t' -> now' <= later -> table_history now t later t'
| history_step now t now' t' sg t'' :
    table_history now t now' t' -> table_step now' sg t' t'' -> table_history now t now' t''.

Lemma history_keeps now t now' t' :
  table_history now t now' t' -> table_ok now t ->
  table_ok now' t' /\ now <= now' /\ lt_addresses t `prefix_of` lt_addresses t' /\
  forall s, s <= now -> (usable t s <= usable t' now')%nat.
Proof.
  induction 1 as [now t|now t now' t' later _ IH Hle|now t now' t' sg t'' _ IH Hst]; intros Hok.
  - split_and!; [done|lia|done|]. intros s Hs. by eapply usable_mono.
  - destruct (IH Hok) as (Hok' & Hn & Hp & Hu). split_and!; [|lia|done|].
    + destruct Hok' as [H1 H2 H3]. split; [done..|lia].
    + intros s Hs. etrans; [by apply Hu|]. by eapply usable_mono.
  - destruct (IH Hok) as (Hok' & Hn & Hp & Hu). destruct (step_keeps _ _ _ _ Hok' Hst) as (Hok'' & Hu' & Hp' & _).
    split_and!; [done..|by etrans|]. intros s Hs. rewrite Hu'. by apply Hu.
Qed.

(** What indexes of a table resolve to never changes: whatever instructions run on
    the table at the same or later slots, a lookup that succeeded gives the same
    addresses as long as the table is active, and reports a missing table when it is
    not. *)
Theorem lookups_never_change (now now' : Z) (t t' : AddressLookupTable) (indexes : list nat)
    (hashes hashes' : SlotHashes) (addresses : list Pubkey)
    (Hok : table_ok now t) (Hhistory : table_history now t now' t')
    (Hlookup : lookup_addresses t now indexes hashes = Ok addresses) :
  lookup_addresses t' now' indexes hashes' =
    if is_active (lt_meta t') now' hashes' then Ok addresses else Err LookupTableAccountNotFound.
Proof.
  destruct (history_keeps _ _ _ _ Hhistory Hok) as (Hok' & Hn & [l Hl] & Hu).
  rewrite (lookup_usable now) in Hlookup by done. rewrite (lookup_usable now') by done.
  destruct (is_active (lt_meta t) now hashes); [|done]. destruct (is_active (lt_meta t') now' hashes'); [|done].
  apply ok_or_ok in Hlookup. apply mapM_Some in Hlookup.
  assert (mapM (fun i => take (usable t' now') (lt_addresses t') !! i) indexes = Some addresses) as ->; [|done].
  apply mapM_Some. eapply List.Forall2_impl; [|exact Hlookup]. intros i k [Hi Hlt]%lookup_take_Some.
  specialize (Hu now ltac:(lia)). rewrite lookup_take_lt by lia. rewrite Hl. by apply lookup_app_l_Some.
Qed.

(** ** Closing and creating *)

(** From the bank at slot [now] with the recent slots [l], along a chain of children. *)
Inductive chain (now : Z) (l : SlotHashes) : Z -> SlotHashes -> Prop :=
| chain_refl : chain now l now l
| chain_child parent lp child h :
    chain now l parent lp -> parent < child -> chain now l child (update_slot_hashes (Some lp) parent h).

Lemma chain_recent now l now' l' : chain now l now' l' -> recent now l -> recent now' l' /\ now <= now'.
Proof.
  induction 1 as [|parent lp child h _ IH Hlt]; intros Hr; [split; [done|lia]|].
  destruct (IH Hr) as [Hp Hle]. split; [by apply recent_child|lia].
Qed.

(** After a child, the slot is remembered. *)
Lemma chain_remembered now l now' l' :
  chain now l now' l' -> recent now l -> now' = now \/ remembered now l'.
Proof.
  induction 1 as [|parent lp child h Hc IH Hlt]; intros Hr; [by left|]. right.
  destruct (chain_recent _ _ _ _ Hc Hr) as [Hp Hle]. apply remembered_child; [done..|].
  destruct (IH Hr) as [->|]; [by left|by right].
Qed.

Lemma chain_forgotten slot now l now' l' :
  chain now l now' l' -> recent now l -> (forall s, has_slot l s -> slot < s) -> slot < now ->
  forall s, has_slot l' s -> slot < s.
Proof.
  induction 1 as [|parent lp child h Hc IH Hlt]; intros Hr Hall Hs s; [by apply Hall|].
  destruct (chain_recent _ _ _ _ Hc Hr) as [[Hso Ho Hln] Hnow]. unfold update_slot_hashes. cbn [from_option id].
  rewrite add_newest by done. intros [->|Hh]%has_slot_take%has_slot_cons; [cbn; lia|by apply IH].
Qed.

Section creation.
Context `{LKB : LookupBincode} `{SB : SystemBincode} `{CR : Crypto}.

Lemma verify_creation_slot env slot bump c tc r tc' hashes :
  lookup_slot_hashes env = Some hashes -> newest_first hashes ->
  verify_creation env slot bump c tc = Ok (r, tc') -> has_slot hashes slot.
Proof.
  intros Hh Hs Hv. unfold verify_creation, sysvar_of in Hv. inv_tx.
  match goal with Hl : lookup_slot_hashes env = Some ?x |- _ => assert (x = hashes) as -> by congruence end.
  match goal with Hg : bool_decide (is_Some _) = true |- _ => apply bool_decide_eq_true, get_has_slot in Hg end; done.
Qed.

(** A table that was created from a recent slot, deactivated and closed can never
    be created again at the address derived from that slot: along any chain of banks,
    the slot has left the recent slots before the table can be closed, and creating a
    table from it fails from then on. *)
Theorem closed_address_retired (env env' : LookupEnv) (slot : Z) (bump bump' : byte)
    (c c' : InstructionContext) (tc tc1 tc' : TransactionContext) (created : Creation)
    (m : LookupTableMeta) (created_at closed_at later : Z) (l l1 l2 l3 : SlotHashes)
    (Hrecent : recent created_at l) (Hhashes : lookup_slot_hashes env = Some l)
    (Hcreated : verify_creation env slot bump c tc = Ok (created, tc1))
    (Hdeactivated : chain created_at l (deactivation_slot m) l1)
    (Hclosed_at : chain (deactivation_slot m) l1 closed_at l2)
    (Hclosed : status m closed_at l2 = Deactivated)
    (Hlater : chain closed_at l2 later l3) (Hhashes' : lookup_slot_hashes env' = Some l3) :
  forall r, verify_creation env' slot bump' c' tc' <> Ok r.
Proof.
  apply verify_creation_slot with (hashes := l) in Hcreated; [|done|apply Hrecent].
  pose proof (rc_older _ _ Hrecent slot Hcreated) as Hold.
  destruct (chain_recent _ _ _ _ Hdeactivated Hrecent) as [Hr1 Hle1].
  destruct (chain_recent _ _ _ _ Hclosed_at Hr1) as [Hr2 Hle2].
  destruct (chain_recent _ _ _ _ Hlater Hr2) as [Hr3 _].
  unfold status in Hclosed. destruct (_ =? U64_MAX); [done|].
  destruct (Z.eqb_spec (deactivation_slot m) closed_at) as [|Hne]; [done|].
  pose proof (position_spec l2 (deactivation_slot m) (rc_sorted _ _ Hr2)) as Hpos.
  destruct (SlotHashes.position l2 (deactivation_slot m)); [done|].
  destruct (chain_remembered _ _ _ _ Hclosed_at Hr1) as [|[|Hnew]]; [congruence|done|].
  intros [r tc2] Hv. apply verify_creation_slot with (hashes := l3) in Hv; [|done|apply Hr3].
  assert (deactivation_slot m < slot); [|lia]. eapply chain_forgotten; [exact Hlater|done|done|lia|done].
Qed.
End creation.

(** ** An example *)

(** The encoding of a table: a tag in four bytes, integers in little-endian order, a byte in
    front of an optional key. *)
Definition tx_encode (s : LookupState) : list byte :=
  match s with
  | LookupUninitialized => [x00; x00; x00; x00]
  | LookupTable m =>
      [x01; x00; x00; x00] ++ u64_le (deactivation_slot m) ++ u64_le (last_extended_slot m) ++
      to_le_bytes 1 (last_extended_slot_start_index m) ++
      match lt_authority m with None => [x00] | Some k => x01 :: to_bytes k end ++ to_le_bytes 2 (lt_padding m)
  end.

Definition tx_decode_authority (l : list byte) : option (option Pubkey * list byte) :=
  match l with
  | x00 :: l => Some (None, l)
  | x01 :: l => k ← Pubkey_new (take 32 l); Some (Some k, drop 32 l)
  | _ => None
  end.
Definition tx_decode (l : list byte) : option LookupState :=
  if bool_decide (take 4 l = [x00; x00; x00; x00]) then Some LookupUninitialized
  else if bool_decide (take 4 l = [x01; x00; x00; x00]) then
    '(authority, rest) ← tx_decode_authority (drop 17 (drop 4 l));
    if (length rest <? 2)%nat then None
    else Some (LookupTable (mkLookupTableMeta (from_le_bytes (take 8 (drop 4 l)))
           (from_le_bytes (take 8 (drop 8 (drop 4 l)))) (from_le_bytes (take 1 (drop 16 (drop 4 l)))) authority
           (from_le_bytes (take 2 rest))))
  else None.

Definition tx_bincode : LookupBincode := {|
  bincode_serialize_table := tx_encode;
  bincode_deserialize_table := tx_decode;
  bincode_serialize_lookup i :=
    match i with
    | FreezeLookupTable => [x01; x00; x00; x00]
    | DeactivateLookupTable => [x03; x00; x00; x00]
    | CloseLookupTable => [x04; x00; x00; x00]
    | _ => []
    end;
  limited_deserialize_lookup l :=
    match l with
    | [x01; x00; x00; x00] => Some FreezeLookupTable
    | [x03; x00; x00; x00] => Some DeactivateLookupTable
    | [x04; x00; x00; x00] => Some CloseLookupTable
    | _ => None
    end
|}.
#[local] Existing Instance tx_bincode.

Lemma take_range n l : 0 <= from_le_bytes (take n l) < 256 ^ Z.of_nat n.
Proof.
  pose proof (from_le_bytes_range (take n l)) as Hr. rewrite length_take in Hr.
  pose proof (Z.pow_le_mono_r 256 (Z.of_nat (n `min` length l)) (Z.of_nat n) ltac:(lia) ltac:(lia)). lia.
Qed.

Lemma tx_authority o l :
  tx_decode_authority (match o with None => [x00] | Some k => x01 :: to_bytes k end ++ l) = Some (o, l).
Proof.
  destruct o as [k|]; [|done]. cbn [app tx_decode_authority].
  rewrite take_app_length', drop_app_length' by (by rewrite length_to_bytes). by rewrite Pubkey_new_to_bytes.
Qed.

Lemma tx_read_back m rest : meta_typed m -> tx_decode (tx_encode (LookupTable m) ++ rest) = Some (LookupTable m).
Proof.
  destruct m as [d e s o p]. intros [Hd He Hs Hp]. cbn [deactivation_slot last_extended_slot
    last_extended_slot_start_index lt_authority lt_padding tx_encode] in *.
  rewrite <-!app_assoc. unfold tx_decode.
  match goal with |- context [take 4 (?tag ++ ?body)] =>
    change (take 4 (tag ++ body)) with tag; change (drop 4 (tag ++ body)) with body end.
  rewrite bool_decide_false, bool_decide_true by done.
  set (tail := match o with None => [x00] | Some k => x01 :: to_bytes k end ++ to_le_bytes 2 p ++ rest).
  assert (drop 8 (u64_le d ++ u64_le e ++ to_le_bytes 1 s ++ tail) = u64_le e ++ to_le_bytes 1 s ++ tail) as ->
    by (apply drop_app_length'; by rewrite length_u64_le).
  assert (drop 16 (u64_le d ++ u64_le e ++ to_le_bytes 1 s ++ tail) = to_le_bytes 1 s ++ tail) as ->
    by (rewrite app_assoc; apply drop_app_length'; by rewrite length_app, !length_u64_le).
  assert (drop 17 (u64_le d ++ u64_le e ++ to_le_bytes 1 s ++ tail) = tail) as ->
    by (rewrite !app_assoc; apply drop_app_length'; by rewrite !length_app, !length_u64_le, length_to_le_bytes).
  rewrite !take_app_length' by (by rewrite ?length_u64_le, ?length_to_le_bytes).
  unfold tail. rewrite tx_authority. cbn [mbind option_bind].
  rewrite length_app, length_to_le_bytes. destruct (Nat.ltb_spec (2 + length rest) 2); [lia|].
  rewrite take_app_length' by (by rewrite length_to_le_bytes).
  rewrite !from_u64_le, !from_to_le_bytes, !Z.mod_small by (done || lia). done.
Qed.

Lemma tx_read_typed l m : tx_decode l = Some (LookupTable m) -> meta_typed m.
Proof.
  unfold tx_decode. intros Hd. case_bool_decide; [done|]. case_bool_decide; [|done].
  destruct (tx_decode_authority _) as [[o rest]|]; [|done]. cbn in Hd. destruct (_ <=? _)%nat; [done|].
  injection Hd as <-. split; cbn [deactivation_slot last_extended_slot last_extended_slot_start_index lt_padding].
  - pose proof (take_range 8 (drop 4 l)). unfold is_u64, U64_MAX. lia.
  - pose proof (take_range 8 (drop 8 (drop 4 l))). unfold is_u64, U64_MAX. lia.
  - apply (take_range 1).
  - apply (take_range 2).
Qed.

#[local] Instance tx_laws : LookupBincodeLaws.
Proof.
  split.
  - intros m. cbn [bincode_serialize_table tx_bincode tx_encode]. rewrite !length_app, !length_u64_le, !length_to_le_bytes.
    unfold LOOKUP_TABLE_META_SIZE. destruct (lt_authority m); cbn [length]; rewrite ?length_to_bytes; lia.
  - apply tx_read_back.
  - apply tx_read_typed.
Qed.

Definition tx_authority_key : Pubkey := pubkey_of_Z 501.
Definition tx_table_key : Pubkey := pubkey_of_Z 502.
Definition tx_address (n : Z) : Pubkey := pubkey_of_Z (600 + n).

(** A table with two addresses, the second added in the current slot. *)
Definition tx_meta : LookupTableMeta := mkLookupTableMeta U64_MAX 20 1 (Some tx_authority_key) 0.
Definition tx_table : AddressLookupTable := mkAddressLookupTable tx_meta [tx_address 1; tx_address 2].
Definition tx_hashes : SlotHashes := [(19, Pubkey_default); (18, Pubkey_default); (15, Pubkey_default)].
Definition tx_env : LookupEnv := mkLookupEnv (Some 20) (Some Rent_default) (Some tx_hashes).

(** Its authority deactivates it. *)
Definition tx_frame : InstructionContext :=
  mkInstructionContext 0 [2%nat] [mkInstructionAccount 0 0 0 false true; mkInstructionAccount 1 1 1 true false]
    (bincode_serialize_lookup DeactivateLookupTable).
Definition tx_context : TransactionContext :=
  mkTransactionContext [tx_table_key; tx_authority_key; address_lookup_table_id]
    [mkAccount 2000000 (tx_encode (LookupTable tx_meta) ++ to_bytes (tx_address 1) ++ to_bytes (tx_address 2))
       address_lookup_table_id false 0;
     mkAccount 9 [] system_program_id false 0; mkAccount 1 [] native_loader_id true 0]
    5 [0%nat] 1 [[tx_frame]] (mkReturnData Pubkey_default []) 10000000 0.
Definition tx_start : InvokeContext := InvokeContext_new tx_context Rent_default 5 (mkFeatures true true true) 0.
Definition tx_run : result InstructionError InvokeContext :=
  exec lx_call (process_lookup_instruction tx_env 1) tx_start.
Definition tx_after : InvokeContext := match tx_run with Ok ic => ic | _ => tx_start end.

Lemma tx_deactivated_ok : tx_run = Ok tx_after.
Proof. vm_compute. reflexivity. Qed.

Lemma tx_ready : ready (account_keys tx_context) tx_frame address_lookup_table_id (transaction_context tx_start).
Proof.
  split; [done|done| |apply distinct_set_up].
  - repeat constructor; vm_compute; discriminate.
  - apply (bool_decide_unpack _). vm_compute. exact I.
  - reflexivity.
  - vm_compute. reflexivity.
  - apply in_order_listed; [|cbn; lia]. intros i ia Hia.
    do 2 (destruct i as [|i]; [by injection Hia as <-|]). discriminate Hia.
  - cbn. lia.
  - split; vm_compute; discriminate.
Qed.

Lemma tx_newest_first : newest_first tx_hashes.
Proof. intros [|[|[|i]]] [|[|[|j]]] a b Hij Ha Hb; cbn in *; simplify_eq; cbn; lia. Qed.

Definition tx_view (ic : InvokeContext) : option (result InstructionError AddressLookupTable) :=
  (fun a => deserialize_table (acc_data a)) <$> accounts (transaction_context ic) !! 0%nat.

Lemma lookup_instruction_refines_witness :
  tx_view tx_start = Some (Ok tx_table) /\
  tx_view tx_after = Some (Ok (mkAddressLookupTable (with_deactivation tx_meta 20) (lt_addresses tx_table))) /\
  exists ic1, same_frame tx_start ic1 /\
    table_stepped 20 DeactivateLookupTable tx_frame (transaction_context tx_start) (transaction_context ic1) /\ tx_after = ic1.
Proof.
  split; [vm_compute; reflexivity|]. split; [vm_compute; reflexivity|].
  exact (lookup_instruction_refines lx_call tx_env (account_keys tx_context) tx_frame address_lookup_table_id 1
    tx_start tx_after DeactivateLookupTable 20 tx_hashes tx_ready ltac:(by apply is_u64b_spec) eq_refl eq_refl
    tx_newest_first eq_refl eq_refl tx_deactivated_ok).
Defined.

Lemma tx_table_ok : table_ok 20 tx_table.
Proof. split; unfold LOOKUP_TABLE_MAX_ADDRESSES; cbn; lia. Qed.

Definition tx_extended : AddressLookupTable :=
  mkAddressLookupTable (extended 20 tx_table) (lt_addresses tx_table ++ [tx_address 3]).

Lemma tx_extend : table_step 20 (eq tx_authority_key) tx_table tx_extended.
Proof.
  apply (step_extend 20 _ _ tx_authority_key [tx_address 3]); [done..|].
  unfold LOOKUP_TABLE_MAX_ADDRESSES. cbn. lia.
Qed.

Definition tx_load (t : AddressLookupTable) (k : Pubkey) : option Account :=
  if key_eqb k tx_table_key
  then Some (mkAccount 2000000 (tx_encode (LookupTable (lt_meta t)) ++ concat (map to_bytes (lt_addresses t)))
               address_lookup_table_id false 0)
  else None.

(** The address added in this slot cannot be used yet, before and after another one is added. *)
Lemma loaded_addresses_agree_witness :
  load_addresses true (Some tx_hashes) (tx_load tx_extended) 20 [mkLookup tx_table_key [0%nat] []] =
    Ok (mkLoaded [tx_address 1] []) /\
  load_addresses true (Some tx_hashes) (tx_load tx_extended) 20 [mkLookup tx_table_key [0%nat] [1%nat]] =
    Err InvalidAddressLookupTableIndex.
Proof.
  assert (tables_stepped 20 (tx_load tx_table) (tx_load tx_extended)) as Hs.
  { intros k. unfold tx_load. destruct (key_eqb k tx_table_key); [|by left]. right.
    eexists _, _, tx_table, tx_extended. split_and!; [done|done|done|done|vm_compute; reflexivity|vm_compute; reflexivity|
      apply tx_table_ok|]. apply rtc_once. exists (eq tx_authority_key). apply tx_extend. }
  rewrite !(loaded_addresses_agree 20 (tx_load tx_table) (tx_load tx_extended) true (Some tx_hashes) _ Hs).
  split; vm_compute; reflexivity.
Defined.

Lemma lookups_never_change_witness :
  lookup_addresses tx_extended 21 [0%nat] tx_hashes = Ok [tx_address 1].
Proof.
  apply (lookups_never_change 20 21 tx_table tx_extended [0%nat] tx_hashes tx_hashes [tx_address 1] tx_table_ok).
  - eapply history_later; [eapply history_step; [apply history_refl|apply tx_extend]|lia].
  - vm_compute. reflexivity.
Defined.

(** A table created from slot 18 at slot 20, deactivated there, and closed 600 slots later. *)
Definition tx_derived : Pubkey :=
  match create_program_address [to_bytes tx_authority_key; u64_le 18; [x07]] address_lookup_table_id with
  | Ok k => k
  | _ => Pubkey_default
  end.
Definition tx_create_frame : InstructionContext :=
  mkInstructionContext 0 [3%nat]
    [mkInstructionAccount 0 0 0 false true; mkInstructionAccount 1 1 1 true false; mkInstructionAccount 2 2 2 true true] [].
Definition tx_create_context : TransactionContext :=
  mkTransactionContext [tx_derived; tx_authority_key; tx_address 9; address_lookup_table_id]
    [mkAccount 0 [] system_program_id false 0; mkAccount 9 [] system_program_id false 0;
     mkAccount 90000000 [] system_program_id false 0; mkAccount 1 [] native_loader_id true 0]
    5 [0%nat] 1 [[tx_create_frame]] (mkReturnData Pubkey_default []) 10000000 0.

Lemma tx_created :
  exists created, verify_creation tx_env 18 x07 tx_create_frame tx_create_context = Ok (created, tx_create_context).
Proof. eexists. vm_compute. reflexivity. Qed.

Fixpoint tx_grow (now : Z) (n : nat) (l : SlotHashes) : SlotHashes :=
  match n with
  | O => l
  | S n => tx_grow (now + 1) n (update_slot_hashes (Some l) now Pubkey_default)
  end.

Lemma tx_grown n : forall now0 l0 now l, chain now0 l0 now l -> chain now0 l0 (now + Z.of_nat n) (tx_grow now n l).
Proof.
  induction n as [|n IH]; intros now0 l0 now l Hc; [by rewrite Z.add_0_r|]. cbn [tx_grow].
  replace (now + Z.of_nat (S n)) with (now + 1 + Z.of_nat n) by lia. apply IH. apply chain_child; [done|lia].
Qed.

Lemma tx_recent : recent 20 tx_hashes.
Proof.
  split; [| |cbn; unfold MAX_ENTRIES; lia].
  - intros i j a b Hij Ha Hb.
    do 3 (destruct i as [|i]; [do 3 (destruct j as [|j]; [simplify_eq/=; lia|]); done|]). done.
  - intros slot (i & h & Hi). do 3 (destruct i as [|i]; [simplify_eq/=; lia|]). done.
Qed.

Definition tx_late : SlotHashes := tx_grow 20 600 tx_hashes.

Lemma closed_address_retired_witness :
  (exists r, verify_creation tx_env 18 x07 tx_create_frame tx_create_context = Ok r) /\
  forall r, verify_creation (mkLookupEnv (Some 620) (Some Rent_default) (Some tx_late)) 18 x07 tx_create_frame
    tx_create_context <> Ok r.
Proof.
  destruct tx_created as [created Hc]. split; [by eexists|].
  apply (closed_address_retired tx_env (mkLookupEnv (Some 620) (Some Rent_default) (Some tx_late)) 18 x07 x07
    tx_create_frame tx_create_frame tx_create_context tx_create_context tx_create_context created
    (with_deactivation tx_meta 20) 20 620 620 tx_hashes tx_hashes tx_late tx_late tx_recent eq_refl Hc).
  - apply chain_refl.
  - apply (tx_grown 600 20 tx_hashes 20 tx_hashes), chain_refl.
  - vm_compute. reflexivity.
  - apply chain_refl.
  - reflexivity.
Defined.
