(* ===== verification/ShortVec.v ===== *)
(** * Vectors with a short length

    [sdk/program/src/short_vec.rs]: lengths in one to three bytes, vectors with such a
    length in front, and the decoder that reads a length out of a slice.

    The code is generic in a [serde] format; the repository uses it with [bincode], which is not
    part of it.  The primitive codecs of [bincode] are parameters ([Bincode]); what the code relies
    on, its documented format, is the class [BincodeSpec].  The codecs of tuples, structs and
    vectors, which are their elements one after the other, are built from the primitives as
    instances of [Wire]. *)

From Stdlib Require Import Strings.Byte.
From S2P Require Import Prelude.

Definition U16_MAX : Z := 2 ^ 16 - 1.
Definition U32_MAX : Z := 2 ^ 32 - 1.

(** ** Lengths *)
Inductive VisitStatus : Type :=
| Done (val : Z)
| More (val : Z).

Inductive VisitError : Type :=
| TooLong (len : nat)
| TooShort (len : nat)
| Overflow (val : Z)
| Alias
| ByteThreeContinues.

Definition MAX_ENCODING_LENGTH : nat := 3.

(** The bytes of a [ShortU16]: seven bits each, the top bit set on all but the last. *)
Fixpoint ShortU16_loop (fuel : nat) (rem_val : Z) : list byte :=
  match fuel with
  | O => []
  | S fuel =>
      let elem := Z.land rem_val 0x7f in
      let rem_val := Z.shiftr rem_val 7 in
      if rem_val =? 0 then [u8_of elem]
      else u8_of (Z.lor elem 0x80) :: ShortU16_loop fuel rem_val
  end.

(** Sixteen bits are used up after three rounds. *)
Definition ShortU16_serialize (self : Z) : list byte := ShortU16_loop MAX_ENCODING_LENGTH self.

(** [u32::checked_shl]: fails from 32 on, drops the bits that are shifted out. *)
Definition checked_shl_u32 (a shift : Z) : option Z :=
  if shift <? 32 then Some (Z.shiftl a shift mod 2 ^ 32) else None.

Definition visit_byte (elem : byte) (val : Z) (nth_byte : nat) : result VisitError VisitStatus :=
  ensure (negb (u8_eqb elem x00 && negb (nth_byte =? 0)%nat)) Alias;;
  let elem := u8_val elem in
  let elem_val := Z.land elem 0x7f in
  let elem_done := Z.land elem 0x80 =? 0 in
  ensure (negb (MAX_ENCODING_LENGTH <=? nth_byte)%nat) (TooLong (nth_byte + 1));;
  ensure (negb ((nth_byte =? MAX_ENCODING_LENGTH - 1)%nat && negb elem_done)) ByteThreeContinues;;
  let shift := Z.min (Z.min (Z.of_nat nth_byte) U32_MAX * 7) U32_MAX in
  let elem_val := default U32_MAX (checked_shl_u32 elem_val shift) in
  let new_val := Z.lor val elem_val in
  ensure (new_val <=? U16_MAX) (Overflow new_val);;
  Ok (if elem_done then Done new_val else More new_val).

(** [decode_shortu16_len], from the [nth_byte]-th byte on. *)
Fixpoint decode_loop (bytes : list byte) (val : Z) (nth_byte : nat) : result unit (Z * nat) :=
  match bytes with
  | [] => Err tt
  | b :: bytes =>
      status ← map_err (fun _ => tt) (visit_byte b val nth_byte);
      match status with
      | More new_val => decode_loop bytes new_val (S nth_byte)
      | Done new_val => Ok (new_val, S nth_byte)
      end
  end.

(** The decoded value and how many bytes it consumed. *)
Definition decode_shortu16_len (bytes : list byte) : result unit (Z * nat) :=
  decode_loop (take MAX_ENCODING_LENGTH bytes) 0 0.

(** ** Encodings *)

(** What a decoder reports: a bad length, the end of the input, or a value the type has not. *)
Inductive DeError : Type :=
| InvalidShortU16 (e : VisitError)
| UnexpectedEnd
| InvalidMessagePrefix (version : Z)
| InvalidElement.

(** [Serialize] and [Deserialize]: [None] is an error of the serializer; a decoder leaves the
    rest of its input. *)
Class Wire (T : Type) : Type := {
  put : T -> option (list byte);
  next : list byte -> result DeError (T * list byte)
}.

(** The values of the type that exist in the program. *)
Class Typed (T : Type) : Type := typed : T -> Prop.

(** A decoder reads back what was written, and accepts nothing else. *)
Class WireLaws (T : Type) `{Wire T} `{Typed T} : Prop := {
  next_put x e rest : typed x -> put x = Some e -> next (e ++ rest) = Ok (x, rest);
  next_inv l x rest : next l = Ok (x, rest) -> typed x /\ exists e, put x = Some e /\ l = e ++ rest
}.

(** The primitives of [bincode] with fixed-width integers. *)
Class Bincode : Type := {
  bincode_u8 : byte -> list byte;
  next_u8 : list byte -> result DeError (byte * list byte);
  bincode_bool : bool -> list byte;
  next_bool : list byte -> result DeError (bool * list byte);
  bincode_i64 : Z -> list byte
}.

(** A [u8] is itself, a [bool] a byte that is zero or one, an [i64] eight bytes; reading takes exactly
    these bytes. *)
Class BincodeSpec (B : Bincode) : Prop := {
  bincode_u8_spec b : bincode_u8 b = [b];
  next_u8_spec b l : next_u8 (b :: l) = Ok (b, l);
  next_u8_end : exists e, next_u8 [] = Err e;
  bincode_bool_spec b : bincode_bool b = [if b : bool then x01 else x00];
  next_bool_false l : next_bool (x00 :: l) = Ok (false, l);
  next_bool_true l : next_bool (x01 :: l) = Ok (true, l);
  next_bool_other b l : b <> x00 -> b <> x01 -> exists e, next_bool (b :: l) = Err e;
  next_bool_end : exists e, next_bool [] = Err e;
  length_bincode_i64 z : length (bincode_i64 z) = 8%nat
}.

Section codecs.
Context {B : Bincode}.

(** A [u8]; indices and counts of a message are natural numbers below 256. *)
#[global] Instance u8_typed : Typed nat := fun n => (n < 256)%nat.
#[global] Instance u8_wire : Wire nat := {|
  put n := Some (bincode_u8 (u8_of (Z.of_nat n)));
  next l := '(b, l) ← next_u8 l; Ok (Z.to_nat (u8_val b), l)
|}.
#[global] Instance byte_typed : Typed byte := fun _ => True.
#[global] Instance byte_wire : Wire byte := {| put b := Some (bincode_u8 b); next := next_u8 |}.
#[global] Instance bool_typed : Typed bool := fun _ => True.
#[global] Instance bool_wire : Wire bool := {| put b := Some (bincode_bool b); next := next_bool |}.

(** [[u8; n]] *)
Definition put_array (l : list byte) : list byte := concat (map bincode_u8 l).
Fixpoint next_array (n : nat) (l : list byte) : result DeError (list byte * list byte) :=
  match n with
  | O => Ok ([], l)
  | S n => '(b, l) ← next_u8 l; '(x, l) ← next_array n l; Ok (b :: x, l)
  end.

(** The fields of a struct, one after the other. *)
#[global] Instance pair_typed {A B} `{Typed A} `{Typed B} : Typed (A * B) := fun p => typed p.1 /\ typed p.2.
#[global] Instance pair_wire {A B} `{Wire A} `{Wire B} : Wire (A * B) := {|
  put p := a ← put p.1; b ← put p.2; Some (a ++ b);
  next l := '(a, l) ← next l; '(b, l) ← next l; Ok ((a, b), l)
|}.

(** [ShortU16Visitor::visit_seq] *)
Fixpoint visit_seq_loop (rounds : nat) (val : Z) (nth_byte : nat) (l : list byte) : result DeError (Z * list byte) :=
  match rounds with
  | O => Err (InvalidShortU16 ByteThreeContinues)
  | S rounds =>
      '(elem, l) ← next_u8 l;
      status ← map_err InvalidShortU16 (visit_byte elem val nth_byte);
      match status with
      | Done new_val => Ok (new_val, l)
      | More new_val => visit_seq_loop rounds new_val (S nth_byte) l
      end
  end.
Definition ShortU16_deserialize (l : list byte) : result DeError (Z * list byte) :=
  visit_seq_loop MAX_ENCODING_LENGTH 0 0 l.

(** ** Vectors *)
Section vectors.
Context {T : Type} `{Wire T}.

Fixpoint put_all (elements : list T) : option (list byte) :=
  match elements with
  | [] => Some []
  | x :: elements => e ← put x; l ← put_all elements; Some (e ++ l)
  end.

(** [short_vec::serialize] *)
Definition ShortVec_serialize (elements : list T) : option (list byte) :=
  let len := Z.of_nat (length elements) in
  if U16_MAX <? len then None
  else l ← put_all elements; Some (put_array (ShortU16_serialize len) ++ l).

Fixpoint next_n (n : nat) (l : list byte) : result DeError (list T * list byte) :=
  match n with
  | O => Ok ([], l)
  | S n => '(x, l) ← next l; '(xs, l) ← next_n n l; Ok (x :: xs, l)
  end.

(** [ShortVecVisitor::visit_seq] *)
Definition ShortVec_deserialize (l : list byte) : result DeError (list T * list byte) :=
  '(short_len, l) ← ShortU16_deserialize l;
  next_n (Z.to_nat short_len) l.
End vectors.

#[global] Instance short_vec_typed {T} `{Typed T} : Typed (list T) := Forall typed.
#[global] Instance short_vec_wire {T} `{Wire T} : Wire (list T) := {|
  put := ShortVec_serialize;
  next := ShortVec_deserialize
|}.
End codecs.

(** ** Lengths are encoded one-to-one *)

Lemma land_low b : Z.land (u8_val b) 0x7f = u8_val b mod 128.
Proof. change 0x7f with (Z.ones 7). by rewrite Z.land_ones by lia. Qed.

Lemma land_top b : (Z.land (u8_val b) 0x80 =? 0) = (u8_val b <? 128).
Proof. by destruct b. Qed.

Lemma lor_above val x k : 0 <= k -> 0 <= val < 2 ^ k -> Z.lor val (x * 2 ^ k) = val + x * 2 ^ k.
Proof.
  intros Hk Hv. rewrite <-(Z.add_lor_land val (x * 2 ^ k)).
  assert (Z.land val (x * 2 ^ k) = 0) as ->; [|lia].
  apply Z.bits_inj'. intros i Hi. rewrite Z.land_spec, Z.bits_0.
  destruct (Z.lt_ge_cases i k) as [Hlt|Hge].
  - by rewrite Z.mul_pow2_bits_low, andb_false_r.
  - rewrite <-(Z.mod_small val (2 ^ k)) by lia. by rewrite Z.mod_pow2_bits_high by lia.
Qed.

(** What a byte adds to the value read so far. *)
Lemma visit_byte_spec b val n :
  (n < 3)%nat -> 0 <= val < 2 ^ (7 * Z.of_nat n) ->
  visit_byte b val n =
    if u8_eqb b x00 && negb (n =? 0)%nat then Err Alias
    else if (n =? 2)%nat && negb (u8_val b <? 128) then Err ByteThreeContinues
    else let new_val := val + u8_val b mod 128 * 2 ^ (7 * Z.of_nat n) in
         if new_val <=? U16_MAX then Ok (if u8_val b <? 128 then Done new_val else More new_val)
         else Err (Overflow new_val).
Proof.
  intros Hn Hv. unfold visit_byte. destruct (_ && negb (n =? 0)%nat); [done|]. cbn [negb ensure mbind result_bind].
  destruct (Nat.leb_spec MAX_ENCODING_LENGTH n) as [Hl|_]; [unfold MAX_ENCODING_LENGTH in Hl; lia|].
  cbn [negb ensure mbind result_bind]. rewrite land_top, land_low.
  change (MAX_ENCODING_LENGTH - 1)%nat with 2%nat. destruct (_ && negb _); [done|]. cbn [negb ensure mbind result_bind].
  assert (Z.min (Z.min (Z.of_nat n) U32_MAX * 7) U32_MAX = 7 * Z.of_nat n) as -> by (unfold U32_MAX; lia).
  pose proof (Z.mod_pos_bound (u8_val b) 128 ltac:(lia)) as Hm.
  assert (default U32_MAX (checked_shl_u32 (u8_val b mod 128) (7 * Z.of_nat n)) =
          u8_val b mod 128 * 2 ^ (7 * Z.of_nat n)) as ->.
  { unfold checked_shl_u32. destruct (Z.ltb_spec (7 * Z.of_nat n) 32); [|lia]. cbn [default from_option id].
    rewrite Z.shiftl_mul_pow2 by lia. apply Z.mod_small.
    pose proof (Z.pow_le_mono_r 2 (7 * Z.of_nat n) 14 ltac:(lia) ltac:(lia)).
    pose proof (Z.pow_pos_nonneg 2 (7 * Z.of_nat n) ltac:(lia) ltac:(lia)). nia. }
  rewrite lor_above by lia. cbn zeta. by destruct (_ <=? U16_MAX).
Qed.

Lemma u8_eqb_zero b : u8_eqb b x00 = (u8_val b =? 0).
Proof. by destruct b. Qed.

Lemma lor_top x : 0 <= x < 128 -> Z.lor x 0x80 = x + 128.
Proof. intros Hx. change 0x80 with (1 * 2 ^ 7). by rewrite lor_above by lia. Qed.

Lemma loop_more fuel v :
  128 <= v -> ShortU16_loop (S fuel) v = u8_of (v mod 128 + 128) :: ShortU16_loop fuel (v / 128).
Proof.
  intros Hv. cbn [ShortU16_loop]. change 0x7f with (Z.ones 7). rewrite Z.land_ones, Z.shiftr_div_pow2 by lia.
  change (2 ^ 7) with 128. pose proof (Z.mod_pos_bound v 128 ltac:(lia)).
  pose proof (Z.div_le_mono 128 v 128 ltac:(lia) Hv) as Hd. rewrite Z.div_same in Hd by lia.
  destruct (Z.eqb_spec (v / 128) 0); [lia|]. by rewrite lor_top.
Qed.

Lemma loop_last fuel v : 0 <= v < 128 -> ShortU16_loop (S fuel) v = [u8_of v].
Proof.
  intros Hv. cbn [ShortU16_loop]. change 0x7f with (Z.ones 7).
  rewrite Z.land_ones, Z.shiftr_div_pow2, Z.mod_small, Z.div_small by lia. done.
Qed.

(** The rounds a value takes are enough for its bits. *)
Lemma serialize_shape v :
  0 <= v <= U16_MAX ->
  (v < 128 /\ ShortU16_serialize v = [u8_of v]) \/
  (128 <= v < 16384 /\ ShortU16_serialize v = [u8_of (v mod 128 + 128); u8_of (v / 128)]) \/
  (16384 <= v /\
   ShortU16_serialize v = [u8_of (v mod 128 + 128); u8_of (v / 128 mod 128 + 128); u8_of (v / 128 / 128)]).
Proof.
  unfold U16_MAX, ShortU16_serialize, MAX_ENCODING_LENGTH. intros Hv.
  destruct (Z.lt_ge_cases v 128); [left; split; [done|]; apply loop_last; lia|]. right.
  rewrite loop_more by done. destruct (Z.lt_ge_cases v 16384); [left|right]; (split; [lia|]).
  - rewrite loop_last; [done|]. split; [apply Z.div_pos; lia|apply Z.div_lt_upper_bound; lia].
  - rewrite loop_more by (apply Z.div_le_lower_bound; lia). rewrite loop_last; [done|].
    split; [apply Z.div_pos; [apply Z.div_pos|]; lia|]. do 2 (apply Z.div_lt_upper_bound; [lia|]). lia.
Qed.

Lemma length_short v : 0 <= v <= U16_MAX -> (1 <= length (ShortU16_serialize v) <= 3)%nat.
Proof. intros Hv. destruct (serialize_shape v Hv) as [ [_ ->]|[ [_ ->]|[_ ->] ] ]; cbn [length]; lia. Qed.

Ltac mod_lia := Z.div_mod_to_equations; lia.

(** One round of the decoder. *)
Lemma decode_step b l val n :
  (n < 3)%nat -> 0 <= val < 2 ^ (7 * Z.of_nat n) ->
  forall r, decode_loop (b :: l) val n = Ok r <->
  ((n <> 0%nat -> u8_val b <> 0) /\ (n = 2%nat -> u8_val b < 128) /\
   val + u8_val b mod 128 * 2 ^ (7 * Z.of_nat n) <= U16_MAX /\
   (if u8_val b <? 128 then r = (val + u8_val b mod 128 * 2 ^ (7 * Z.of_nat n), S n)
    else decode_loop l (val + u8_val b mod 128 * 2 ^ (7 * Z.of_nat n)) (S n) = Ok r)).
Proof.
  intros Hn Hv r. cbn [decode_loop]. rewrite visit_byte_spec, u8_eqb_zero by done.
  cbn zeta. set (w := val + _). clearbody w.
  destruct (Z.eqb_spec (u8_val b) 0), (Nat.eqb_spec n 0), (Nat.eqb_spec n 2), (Z.ltb_spec (u8_val b) 128),
    (Z.leb_spec w U16_MAX); cbn; naive_solver lia.
Qed.

(** Decoding inverts the loop that encodes. *)
Lemma decode_loop_iff k : forall n l val v m,
  (n + k = 3)%nat -> 0 <= val < 2 ^ (7 * Z.of_nat n) ->
  decode_loop (take k l) val n = Ok (v, m) <->
  (0 < k)%nat /\ exists w rest, 0 <= w /\ (n <> 0%nat -> w <> 0) /\ v = val + w * 2 ^ (7 * Z.of_nat n) /\
    v <= U16_MAX /\ l = ShortU16_loop k w ++ rest /\ m = (n + length (ShortU16_loop k w))%nat.
Proof.
  induction k as [|k IH]; intros n l val v m Hnk Hval; [split; [done|intros [? _]; lia]|].
  set (p := 2 ^ (7 * Z.of_nat n)) in *.
  assert (0 < p) as Hp by (apply Z.pow_pos_nonneg; lia).
  assert (2 ^ (7 * Z.of_nat (S n)) = 128 * p) as Hp' by (unfold p; rewrite <-(Z.pow_add_r 2 7) by lia; f_equal; lia).
  assert (n = 2%nat -> p = 16384) as Hp2 by (unfold p; by intros ->).
  split.
  - destruct l as [|b l]; [done|]. cbn [take]. rewrite decode_step by (done || lia). fold p.
    pose proof (u8_val_range b). intros (Hz & H2 & Hmax & Hr). split; [lia|].
    destruct (Z.ltb_spec (u8_val b) 128) as [Hb|Hb].
    + injection Hr as -> ->. rewrite Z.mod_small in * by lia. exists (u8_val b), l.
      rewrite loop_last, u8_of_val by lia. cbn. split_and!; try done; lia.
    + pose proof (Z.mod_pos_bound (u8_val b) 128 ltac:(lia)).
      apply IH in Hr as (Hk & w & rest & Hw & Hnz & -> & Hm & -> & ->); [|lia|rewrite Hp'; nia].
      rewrite Hp' in *. specialize (Hnz ltac:(lia)). exists (u8_val b mod 128 + 128 * w), rest.
      assert ((u8_val b mod 128 + 128 * w) / 128 = w) as Hdiv by mod_lia.
      assert ((u8_val b mod 128 + 128 * w) mod 128 + 128 = u8_val b) as Hmod by mod_lia.
      rewrite loop_more by mod_lia. rewrite Hdiv, Hmod, u8_of_val. cbn [length app].
      split_and!; try done; lia.
  - intros (_ & w & rest & Hw & Hnz & -> & Hm & -> & ->).
    destruct (Z.lt_ge_cases w 128) as [Hlt|Hge].
    + rewrite loop_last by lia. cbn [take app length]. rewrite decode_step by (done || lia). fold p.
      rewrite u8_val_of, (Z.mod_small w 256), (Z.mod_small w 128) by lia. destruct (Z.ltb_spec w 128); [|lia].
      split_and!; try done; try lia. f_equal; lia.
    + rewrite loop_more by lia. cbn [take app length]. rewrite decode_step by (done || lia). fold p.
      assert ((w mod 128 + 128) mod 256 = w mod 128 + 128) as Hb by mod_lia.
      rewrite u8_val_of, Hb. assert ((w mod 128 + 128) mod 128 = w mod 128) as -> by mod_lia.
      pose proof (Z.mod_pos_bound w 128 ltac:(lia)). destruct (Z.ltb_spec (w mod 128 + 128) 128); [lia|].
      assert (w = w mod 128 + 128 * (w / 128)) as Hdm by mod_lia.
      assert (n = 2%nat -> False) as Hn2 by (intros E; specialize (Hp2 E); unfold U16_MAX in Hm; nia).
      split_and!; [lia|lia|nia|]. apply IH; [lia|rewrite Hp'; nia|]. split; [lia|].
      exists (w / 128), rest. rewrite Hp'. split_and!; try done; try lia; try nia; mod_lia.
Qed.

(** A length is read from bytes exactly if they begin with its one short form: the encoding of lengths is
    one to one. *)
Theorem short_lengths_one_to_one (bytes : list byte) (v : Z) (n : nat) :
  decode_shortu16_len bytes = Ok (v, n) <->
  0 <= v <= U16_MAX /\ (1 <= n <= 3)%nat /\ n = length (ShortU16_serialize v) /\
  take n bytes = ShortU16_serialize v.
Proof.
  unfold decode_shortu16_len. rewrite (decode_loop_iff 3) by (cbn; lia).
  rewrite Z.mul_0_r, Z.pow_0_r. split.
  - intros (_ & w & rest & Hw & _ & -> & Hm & -> & ->). rewrite Z.mul_1_r, Z.add_0_l in *.
    change (ShortU16_loop 3 w) with (ShortU16_serialize w). pose proof (length_short w ltac:(lia)).
    split_and!; try lia. by apply take_app_length'.
  - intros (Hv & _ & -> & Ht). split; [lia|]. exists v, (drop (length (ShortU16_serialize v)) bytes).
    split_and!; [lia|done|lia|lia| |done]. change (ShortU16_loop 3 v) with (ShortU16_serialize v).
    by rewrite <-(take_drop (length (ShortU16_serialize v)) bytes) at 1; rewrite Ht.
Qed.

Lemma decode_serialized v rest :
  0 <= v <= U16_MAX -> decode_shortu16_len (ShortU16_serialize v ++ rest) = Ok (v, length (ShortU16_serialize v)).
Proof.
  intros Hv. unfold decode_shortu16_len. apply (decode_loop_iff 3); [cbn; lia..|]. split; [lia|].
  exists v, rest. rewrite Z.mul_0_r, Z.pow_0_r. split_and!; (done || lia).
Qed.

(** ** Reading back *)
Section reading_back.
Context {B : Bincode} {BS : BincodeSpec B}.

Lemma next_u8_iff l b rest : next_u8 l = Ok (b, rest) <-> l = b :: rest.
Proof.
  destruct l as [|b' l].
  - destruct next_u8_end as [e ->]. done.
  - rewrite next_u8_spec. split; [by intros [= -> ->]|by intros [= -> ->]].
Qed.

Lemma put_array_id l : put_array l = l.
Proof. unfold put_array. induction l as [|b l IH]; [done|]. cbn [map concat]. by rewrite bincode_u8_spec, IH. Qed.

Lemma next_array_iff n : forall l x rest, next_array n l = Ok (x, rest) <-> length x = n /\ l = x ++ rest.
Proof.
  induction n as [|n IH]; intros l x rest; cbn [next_array].
  - split; [by intros [= <- <-]|]. intros [Hx ->]. by destruct x.
  - rewrite result_bind_ok. split.
    + intros ([b l1] & ->%next_u8_iff & Hn). apply result_bind_ok in Hn as ([y l2] & [Hy ->]%IH & [= <- <-]).
      split; [by cbn; rewrite Hy|done].
    + intros [Hx ->]. destruct x as [|b x]; [done|]. exists (b, x ++ rest). split; [by apply next_u8_iff|].
      rewrite (proj2 (IH (x ++ rest) x rest)); [done|]. split; [by injection Hx|done].
Qed.


Lemma decode_loop_count l : forall val k v m, decode_loop l val k = Ok (v, m) -> (k < m)%nat.
Proof.
  induction l as [|b l IH]; intros val k v m; [done|]. cbn [decode_loop].
  destruct (visit_byte b val k) as [ [new|new]|e|]; cbn; [intros [= _ <-]; lia|intros He%IH; lia|done..].
Qed.

Lemma visit_decode rounds : forall val n l v rest,
  visit_seq_loop rounds val n l = Ok (v, rest) <->
  exists m, decode_loop (take rounds l) val n = Ok (v, (n + m)%nat) /\ rest = drop m l.
Proof.
  induction rounds as [|rounds IH]; intros val n l v rest; [split; [done|by intros (m & ? & _)]|].
  cbn [visit_seq_loop]. destruct l as [|b l].
  { destruct next_u8_end as [e ->]. split; [done|by intros (m & ? & _)]. }
  rewrite next_u8_spec. cbn [mbind result_bind take decode_loop].
  destruct (visit_byte b val n) as [[new|new]|e|]; cbn [map_err mbind result_bind];
    [| |split; [done|by intros (m & ? & _)]..].
  - split.
    + intros [= <- <-]. exists 1%nat. by rewrite Nat.add_1_r.
    + intros (m & [= <- Hm] & ->). assert (m = 1%nat) as -> by lia. done.
  - rewrite IH. split; intros (m & Hm & ->).
    + exists (S m). by rewrite Nat.add_succ_r.
    + destruct m as [|m]; [|exists m; split; [by rewrite <-Nat.add_succ_comm in Hm|done]].
      apply decode_loop_count in Hm. lia.
Qed.

Lemma short_u16_iff l v rest :
  ShortU16_deserialize l = Ok (v, rest) <-> 0 <= v <= U16_MAX /\ l = ShortU16_serialize v ++ rest.
Proof.
  unfold ShortU16_deserialize. rewrite visit_decode. split.
  - intros (m & Hm & ->). apply (decode_loop_iff 3) in Hm as (_ & w & r & Hw & _ & -> & Hmax & -> & Hl); [|cbn; lia..].
    cbn in Hl. rewrite Z.mul_1_r, Z.add_0_l in *. split; [lia|]. f_equal.
    rewrite Hl. by rewrite drop_app_length.
  - intros [Hv ->]. exists (length (ShortU16_serialize v)). rewrite drop_app_length. split; [|done].
    apply (decode_loop_iff 3); [cbn; lia..|]. split; [lia|]. exists v, rest. cbn [Nat.add].
    rewrite Z.mul_0_r, Z.pow_0_r. split_and!; (done || lia).
Qed.

#[global] Instance u8_laws : WireLaws nat.
Proof.
  split.
  - intros n e rest Hn [= <-]. unfold typed, u8_typed in Hn. cbn [next u8_wire]. rewrite bincode_u8_spec. cbn [app].
    rewrite next_u8_spec. cbn [mbind result_bind]. rewrite u8_val_of, Z.mod_small by lia. by rewrite Nat2Z.id.
  - intros l n rest Hn. cbn [next u8_wire] in Hn. apply result_bind_ok in Hn as ([b l1] & ->%next_u8_iff & [= <- <-]).
    pose proof (u8_val_range b). split.
    + unfold typed, u8_typed. lia.
    + exists [b]. cbn [put u8_wire]. by rewrite bincode_u8_spec, Z2Nat.id, u8_of_val by lia.
Qed.

#[global] Instance byte_laws : WireLaws byte.
Proof.
  split.
  - intros b e rest _ [= <-]. cbn [next byte_wire]. rewrite bincode_u8_spec. apply next_u8_spec.
  - intros l b rest ->%next_u8_iff. split; [done|]. exists [b]. cbn [put byte_wire]. by rewrite bincode_u8_spec.
Qed.

#[global] Instance bool_laws : WireLaws bool.
Proof.
  split.
  - intros [] e rest _ [= <-]; cbn [next bool_wire]; rewrite bincode_bool_spec; [apply next_bool_true|apply next_bool_false].
  - intros l b rest Hn. cbn [next bool_wire] in Hn. split; [done|]. exists [if b : bool then x01 else x00].
    cbn [put bool_wire]. rewrite bincode_bool_spec. split; [done|]. destruct l as [|x l].
    { destruct next_bool_end as [e E]. by rewrite E in Hn. }
    destruct (decide (x = x00)) as [->|H0]; [rewrite next_bool_false in Hn; by injection Hn as <- <-|].
    destruct (decide (x = x01)) as [->|H1]; [rewrite next_bool_true in Hn; by injection Hn as <- <-|].
    destruct (next_bool_other x l H0 H1) as [e E]. by rewrite E in Hn.
Qed.

#[global] Instance pair_laws {A C} `{WireLaws A} `{WireLaws C} : WireLaws (A * C).
Proof.
  split.
  - intros [a b] e rest [Ha Hb] He. cbn in He |- *. destruct (put a) as [ea|] eqn:Ea; [|done].
    destruct (put b) as [eb|] eqn:Eb; [|done]. injection He as <-. rewrite <-app_assoc.
    rewrite (next_put a ea) by done. cbn. by rewrite (next_put b eb).
  - intros l [a b] rest Hn. cbn in Hn. apply result_bind_ok in Hn as ([a' l1] & Ha & Hn).
    apply result_bind_ok in Hn as ([b' l2] & Hb & [= <- <- <-]).
    destruct (next_inv _ _ _ Ha) as (Hta & ea & Ea & ->). destruct (next_inv _ _ _ Hb) as (Htb & eb & Eb & ->).
    split; [done|]. exists (ea ++ eb). cbn. rewrite Ea, Eb. cbn. by rewrite app_assoc.
Qed.

Section vector_laws.
Context {T : Type} `{WireLaws T}.

Lemma next_n_put xs : forall e rest, Forall typed xs -> put_all xs = Some e -> next_n (length xs) (e ++ rest) = Ok (xs, rest).
Proof.
  induction xs as [|x xs IH]; intros e rest Ht He; [by injection He as <-|]. apply Forall_cons_1 in Ht as [Hx Hxs].
  cbn in He |- *. destruct (put x) as [ex|] eqn:Ex; [|done]. destruct (put_all xs) as [exs|] eqn:Exs; [|done].
  injection He as <-. rewrite <-app_assoc, (next_put x ex) by done. cbn. by rewrite (IH exs).
Qed.

Lemma next_n_inv n : forall l xs rest, next_n n l = Ok (xs, rest) ->
  length xs = n /\ Forall typed xs /\ exists e, put_all xs = Some e /\ l = e ++ rest.
Proof.
  induction n as [|n IH]; intros l xs rest Hn.
  - injection Hn as <- <-. split_and!; [done..|]. by exists [].
  - cbn in Hn. apply result_bind_ok in Hn as ([x l1] & Hx & Hn). apply result_bind_ok in Hn as ([ys l2] & Hys & [= <- <-]).
    destruct (next_inv _ _ _ Hx) as (Htx & ex & Ex & ->). apply IH in Hys as (<- & Hty & ey & Ey & ->).
    split_and!; [done|by constructor|]. exists (ex ++ ey). cbn. rewrite Ex, Ey. cbn. by rewrite app_assoc.
Qed.

#[global] Instance short_vec_laws : WireLaws (list T).
Proof.
  split.
  - intros xs e rest Ht He. cbn [put next short_vec_wire] in He |- *. unfold ShortVec_serialize in He.
    destruct (Z.ltb_spec U16_MAX (Z.of_nat (length xs))); [done|]. destruct (put_all xs) as [ex|] eqn:Ex; [|done].
    injection He as <-. rewrite put_array_id, <-app_assoc. unfold ShortVec_deserialize.
    assert (0 <= Z.of_nat (length xs) <= U16_MAX) as Hr by lia.
    rewrite (proj2 (short_u16_iff _ _ (ex ++ rest)) (conj Hr eq_refl)).
    cbn [mbind result_bind]. rewrite Nat2Z.id. by apply next_n_put.
  - intros l xs rest Hn. cbn [next short_vec_wire] in Hn. unfold ShortVec_deserialize in Hn. apply result_bind_ok in Hn as ([v l1] & Hv & Hn).
    apply short_u16_iff in Hv as [Hv ->]. apply next_n_inv in Hn as (Hl & Ht & e & He & ->).
    split; [done|]. exists (ShortU16_serialize v ++ e). rewrite <-app_assoc. split; [|done].
    cbn [put short_vec_wire]. unfold ShortVec_serialize. rewrite put_array_id, Hl, Z2Nat.id, He by lia. by destruct (Z.ltb_spec U16_MAX v); [lia|].
Qed.
End vector_laws.
End reading_back.

(** ** An instance *)
Definition plain_bincode : Bincode := {|
  bincode_u8 b := [b];
  next_u8 l := match l with [] => Err UnexpectedEnd | b :: l => Ok (b, l) end;
  bincode_bool b := [if b : bool then x01 else x00];
  next_bool l :=
    match l with x00 :: l => Ok (false, l) | x01 :: l => Ok (true, l) | [] => Err UnexpectedEnd | _ => Err InvalidElement end;
  bincode_i64 z := map (fun i => u8_of (Z.shiftr z (8 * Z.of_nat i))) (seq 0 8)
|}.

Lemma plain_bincode_spec : BincodeSpec plain_bincode.
Proof. split; try done; [by eexists| |by eexists]. intros b l H0 H1. cbn. by destruct b; (done || eexists). Qed.
