(* ===== verification/WireFormat.v ===== *)
(** * Transactions on the wire

    The encodings of messages and transactions: the structs of
    [sdk/program/src/message/legacy.rs], [versions/v0/mod.rs] and [instruction.rs] with their
    [short_vec] fields, [VersionedMessage] of [versions/mod.rs] with its prefix byte, and
    [VersionedTransaction] of [sdk/src/transaction/versioned/mod.rs], with its checks and the
    verification of its signatures.

    A struct is written as its fields in order, an array as its bytes.  The verification of
    one ed25519 signature is a parameter. *)

From Stdlib Require Import Strings.Byte.
From S2P Require Import Prelude Sdk Nonce Message MessageProcessor ShortVec.

(** ** Fields *)

(** An encoding through an isomorphic type: a struct as the tuple of its fields. *)
Definition wire_via {A B} `{Wire B} (f : A -> B) (g : B -> A) : Wire A := {|
  put a := put (f a);
  next l := '(b, l) ← next l; Ok (g b, l)
|}.

Lemma wire_via_laws {A B} `{WireLaws B} (f : A -> B) (g : B -> A) :
  (forall a, g (f a) = a) -> (forall b, f (g b) = b) ->
  @WireLaws A (wire_via f g) (fun a => typed (f a)).
Proof.
  intros Hgf Hfg. split.
  - intros a e rest Ha He. cbn in He |- *. rewrite (next_put (f a) e) by done. cbn. by rewrite Hgf.
  - intros l a rest Hn. cbn in Hn. apply result_bind_ok in Hn as ([b l1] & Hb & [= <- <-]).
    destruct (next_inv _ _ _ Hb) as (Ht & e & He & ->). unfold typed. rewrite Hfg. split; [done|].
    exists e. cbn. by rewrite Hfg.
Qed.

Section structs.
Context {BC : Bincode}.

#[global] Instance pubkey_typed : Typed Pubkey := fun _ => True.
#[global] Instance pubkey_wire : Wire Pubkey := {|
  put k := Some (put_array (to_bytes k));
  next l := '(x, l) ← next_array 32 l; k ← ok_or (Pubkey_new x) UnexpectedEnd; Ok (k, l)
|}.

#[global] Instance pubkey_laws `{!BincodeSpec BC} : WireLaws Pubkey.
Proof.
  split.
  - intros k e rest _ [= <-]. cbn [next pubkey_wire]. rewrite put_array_id, (proj2 (next_array_iff 32 _ (to_bytes k) rest)) by (split; [apply length_to_bytes|done]).
    cbn [mbind result_bind]. by rewrite Pubkey_new_to_bytes.
  - intros l k rest Hn. cbn [next pubkey_wire] in Hn. apply result_bind_ok in Hn as ([x l1] & Hx & Hn).
    apply result_bind_ok in Hn as (k' & Hk & [= <- <-]). apply ok_or_ok in Hk. apply next_array_iff in Hx as [_ ->].
    apply Pubkey_new_some in Hk. split; [done|]. exists x. cbn [put pubkey_wire]. rewrite put_array_id. by subst x.
Qed.

(** [Signature] *)
Definition SIGNATURE_BYTES : nat := 64.
Record Signature : Type := mkSignature { signature_bytes : list byte }.

#[global] Instance signature_typed : Typed Signature := fun s => length (signature_bytes s) = SIGNATURE_BYTES.
#[global] Instance signature_wire : Wire Signature := {|
  put s := Some (put_array (signature_bytes s));
  next l := '(x, l) ← next_array SIGNATURE_BYTES l; Ok (mkSignature x, l)
|}.

#[global] Instance signature_laws `{!BincodeSpec BC} : WireLaws Signature.
Proof.
  split.
  - intros [x] e rest Hx [= <-]. cbn [next signature_wire signature_bytes]. by rewrite put_array_id, (proj2 (next_array_iff SIGNATURE_BYTES _ x rest)).
  - intros l s rest Hn. cbn [next signature_wire] in Hn. apply result_bind_ok in Hn as ([x l1] & Hx & [= <- <-]).
    apply next_array_iff in Hx as [Hl ->]. split; [done|]. exists x. cbn [put signature_wire signature_bytes]. by rewrite put_array_id.
Qed.

(** ** Structs *)
Definition header_fields (h : MessageHeader) : nat * (nat * nat) :=
  (num_required_signatures h, (num_readonly_signed_accounts h, num_readonly_unsigned_accounts h)).
Definition header_of (f : nat * (nat * nat)) : MessageHeader := let '(a, (b, c)) := f in mkHeader a b c.

Definition compiled_fields (c : CompiledInstruction) : nat * (list nat * list byte) :=
  (program_id_index c, (ci_accounts c, ci_data c)).
Definition compiled_of (f : nat * (list nat * list byte)) : CompiledInstruction :=
  let '(a, (b, c)) := f in mkCompiled a b c.

Definition lookup_fields (a : MessageAddressTableLookup) : Pubkey * (list nat * list nat) :=
  (account_key a, (writable_indexes a, readonly_indexes a)).
Definition lookup_of (f : Pubkey * (list nat * list nat)) : MessageAddressTableLookup :=
  let '(a, (b, c)) := f in mkLookup a b c.

#[global] Instance header_typed : Typed MessageHeader := fun h => typed (header_fields h).
#[global] Instance header_wire : Wire MessageHeader := wire_via header_fields header_of.
#[global] Instance compiled_typed : Typed CompiledInstruction := fun c => typed (compiled_fields c).
#[global] Instance compiled_wire : Wire CompiledInstruction := wire_via compiled_fields compiled_of.
#[global] Instance lookup_typed : Typed MessageAddressTableLookup := fun a => typed (lookup_fields a).
#[global] Instance lookup_wire : Wire MessageAddressTableLookup := wire_via lookup_fields lookup_of.

#[global] Instance header_laws `{!BincodeSpec BC} : WireLaws MessageHeader.
Proof. refine (wire_via_laws header_fields header_of _ _); [by intros []|by intros (? & ? & ?)]. Qed.
#[global] Instance compiled_laws `{!BincodeSpec BC} : WireLaws CompiledInstruction.
Proof. refine (wire_via_laws compiled_fields compiled_of _ _); [by intros []|by intros (? & ? & ?)]. Qed.
#[global] Instance lookup_laws `{!BincodeSpec BC} : WireLaws MessageAddressTableLookup.
Proof. refine (wire_via_laws lookup_fields lookup_of _ _); [by intros []|by intros (? & ? & ?)]. Qed.

Definition legacy_fields (m : Legacy.Message) : MessageHeader * (list Pubkey * (Hash * list CompiledInstruction)) :=
  (Legacy.header m, (Legacy.account_keys m, (Legacy.recent_blockhash m, Legacy.instructions m))).
Definition legacy_of (f : MessageHeader * (list Pubkey * (Hash * list CompiledInstruction))) : Legacy.Message :=
  let '(a, (b, (c, d))) := f in Legacy.mkMessage a b c d.

Definition v0_fields (m : V0.Message)
    : MessageHeader * (list Pubkey * (Hash * (list CompiledInstruction * list MessageAddressTableLookup))) :=
  (V0.header m, (V0.account_keys m, (V0.recent_blockhash m, (V0.instructions m, V0.address_table_lookups m)))).
Definition v0_of (f : MessageHeader * (list Pubkey * (Hash * (list CompiledInstruction * list MessageAddressTableLookup))))
    : V0.Message := let '(a, (b, (c, (d, e)))) := f in V0.mkMessage a b c d e.

#[global] Instance legacy_typed : Typed Legacy.Message := fun m => typed (legacy_fields m).
#[global] Instance legacy_wire : Wire Legacy.Message := wire_via legacy_fields legacy_of.
#[global] Instance v0_typed : Typed V0.Message := fun m => typed (v0_fields m).
#[global] Instance v0_wire : Wire V0.Message := wire_via v0_fields v0_of.

#[global] Instance legacy_laws `{!BincodeSpec BC} : WireLaws Legacy.Message.
Proof. refine (wire_via_laws legacy_fields legacy_of _ _); [by intros []|by intros (? & ? & ? & ?)]. Qed.
#[global] Instance v0_laws `{!BincodeSpec BC} : WireLaws V0.Message.
Proof. refine (wire_via_laws v0_fields v0_of _ _); [by intros []|by intros (? & ? & ? & ? & ?)]. Qed.

End structs.

(** ** [VersionedMessage] *)
(** The fields of a legacy message after its first byte ([RemainingLegacyMessage]). *)
Notation RemainingLegacyMessage := (nat * nat * (list Pubkey * (Hash * list CompiledInstruction)))%type.

Definition MESSAGE_VERSION_PREFIX : byte := x80.

Inductive VersionedMessage : Type :=
| VersionedLegacy (message : Legacy.Message)
| VersionedV0 (message : V0.Message).

Module VersionedMessage.
Definition header (self : VersionedMessage) : MessageHeader :=
  match self with VersionedLegacy m => Legacy.header m | VersionedV0 m => V0.header m end.

Definition static_account_keys (self : VersionedMessage) : list Pubkey :=
  match self with VersionedLegacy m => Legacy.account_keys m | VersionedV0 m => V0.account_keys m end.

Definition instructions (self : VersionedMessage) : list CompiledInstruction :=
  match self with VersionedLegacy m => Legacy.instructions m | VersionedV0 m => V0.instructions m end.

Definition recent_blockhash (self : VersionedMessage) : Hash :=
  match self with VersionedLegacy m => Legacy.recent_blockhash m | VersionedV0 m => V0.recent_blockhash m end.

Definition address_table_lookups (self : VersionedMessage) : option (list MessageAddressTableLookup) :=
  match self with VersionedLegacy _ => None | VersionedV0 m => Some (V0.address_table_lookups m) end.

Definition sanitize (self : VersionedMessage) (require_static_program_ids : bool) : result SanitizeError unit :=
  match self with
  | VersionedLegacy m => Legacy.sanitize m
  | VersionedV0 m => V0.sanitize m require_static_program_ids
  end.

Definition is_signer (self : VersionedMessage) (index : nat) : bool :=
  (index <? num_required_signatures (header self))%nat.

Section wire.
Context {BC : Bincode}.

(** [Serialize] *)
Definition serialize (self : VersionedMessage) : option (list byte) :=
  match self with
  | VersionedLegacy m => put m
  | VersionedV0 m => l ← put m; Some (bincode_u8 MESSAGE_VERSION_PREFIX ++ l)
  end.

(** [MessagePrefix]: [inl] the first byte of a legacy message, [inr] a version. *)
Definition message_prefix (b : byte) : nat + Z :=
  let b := u8_val b in
  let prefix := u8_val MESSAGE_VERSION_PREFIX in
  if negb (Z.land b prefix =? 0) then inr (Z.land b (Z.lxor prefix 0xff)) else inl (Z.to_nat b).

(** [Deserialize] *)
Definition deserialize (l : list byte) : result DeError (VersionedMessage * list byte) :=
  '(b, l) ← next_u8 l;
  match message_prefix b with
  | inl num_required_signatures =>
      '(message, l) ← next (T := RemainingLegacyMessage) l;
      let '(a, b, (account_keys, (recent_blockhash, instructions))) := message in
      Ok (VersionedLegacy (Legacy.mkMessage (mkHeader num_required_signatures a b) account_keys recent_blockhash
            instructions), l)
  | inr version =>
      if version =? 0 then '(message, l) ← next l; Ok (VersionedV0 message, l)
      else Err (InvalidMessagePrefix version)
  end.
End wire.
End VersionedMessage.

Section versioned.
Context {BC : Bincode}.

(** A legacy message has its first byte below the prefix. *)
#[global] Instance versioned_typed : Typed VersionedMessage := fun self =>
  match self with
  | VersionedLegacy m => typed m /\ (num_required_signatures (Legacy.header m) < 128)%nat
  | VersionedV0 m => typed m
  end.
#[global] Instance versioned_wire : Wire VersionedMessage := {|
  put := VersionedMessage.serialize;
  next := VersionedMessage.deserialize
|}.

Lemma prefix_legacy b : u8_val b < 128 -> VersionedMessage.message_prefix b = inl (Z.to_nat (u8_val b)).
Proof.
  intros Hb. unfold VersionedMessage.message_prefix. change (u8_val MESSAGE_VERSION_PREFIX) with 0x80.
  rewrite land_top. by destruct (Z.ltb_spec (u8_val b) 128); [|lia].
Qed.

Lemma prefix_cases b :
  (u8_val b < 128 /\ VersionedMessage.message_prefix b = inl (Z.to_nat (u8_val b))) \/
  (128 <= u8_val b /\ VersionedMessage.message_prefix b = inr (u8_val b - 128)).
Proof. destruct b; solve [left; split; [reflexivity|reflexivity]|right; split; [discriminate|reflexivity]]. Qed.

(** The first byte of a header and the rest of the message. *)
Lemma put_legacy m :
  put m = ((fun l => bincode_u8 (u8_of (Z.of_nat (num_required_signatures (Legacy.header m)))) ++ l) <$>
    put (num_readonly_signed_accounts (Legacy.header m), num_readonly_unsigned_accounts (Legacy.header m),
         (Legacy.account_keys m, (Legacy.recent_blockhash m, Legacy.instructions m)))).
Proof.
  destruct m as [[a b c] keys bh ixs]. cbn [put legacy_wire wire_via legacy_fields pair_wire header_wire header_fields
    u8_wire fst snd num_required_signatures num_readonly_signed_accounts num_readonly_unsigned_accounts
    Legacy.header Legacy.account_keys Legacy.recent_blockhash Legacy.instructions mbind option_bind].
  destruct (put keys) as [ek|]; [|reflexivity]. cbn [mbind option_bind]. change (put bh) with (Some (put_array (to_bytes bh))).
  cbn [mbind option_bind]. destruct (put ixs) as [ei|]; [|reflexivity]. cbn [mbind option_bind fmap option_fmap option_map].
  by rewrite !app_assoc.
Qed.

Lemma typed_legacy m :
  typed m <-> (num_required_signatures (Legacy.header m) < 256)%nat /\
    typed (num_readonly_signed_accounts (Legacy.header m), num_readonly_unsigned_accounts (Legacy.header m),
           (Legacy.account_keys m, (Legacy.recent_blockhash m, Legacy.instructions m))).
Proof.
  destruct m as [ [a b c] keys bh ixs]. split.
  - intros [ [Ha [Hb Hc] ] Hr]. by split.
  - intros [Ha [ [Hb Hc] Hr] ]. by split.
Qed.

#[global] Instance versioned_laws `{!BincodeSpec BC} : WireLaws VersionedMessage.
Proof.
  split.
  - intros [m|m] e rest Ht He; cbn [put next versioned_wire VersionedMessage.serialize] in He |- *.
    + destruct Ht as [Ht Hn]. rewrite put_legacy in He. apply fmap_Some in He as (e' & He' & ->).
      unfold VersionedMessage.deserialize. rewrite bincode_u8_spec. cbn [app]. rewrite next_u8_spec. cbn [mbind result_bind].
      rewrite prefix_legacy by (rewrite u8_val_of, Z.mod_small; lia). rewrite u8_val_of, Z.mod_small, Nat2Z.id by lia.
      rewrite (next_put _ e') by (done || by apply typed_legacy).
      by destruct m as [[a b c] keys bh ixs].
    + destruct (put m) as [l|] eqn:El; [|done]. injection He as <-.
      unfold VersionedMessage.deserialize. rewrite bincode_u8_spec. cbn [app]. rewrite next_u8_spec. cbn [mbind result_bind].
      change (VersionedMessage.message_prefix MESSAGE_VERSION_PREFIX) with (@inr nat Z 0). cbn [Z.eqb].
      by rewrite (next_put m l).
  - intros l m rest Hn. cbn [next versioned_wire] in Hn. unfold VersionedMessage.deserialize in Hn.
    apply result_bind_ok in Hn as ([b l1] & ->%next_u8_iff & Hn).
    destruct (prefix_cases b) as [[Hlt E]|[Hge E]]; rewrite E in Hn.
    + apply result_bind_ok in Hn as ([[[h1 h2] [keys [bh ixs]]] l2] & Hr & [= <- <-]).
      destruct (next_inv _ _ _ Hr) as (Ht & e & He & ->). pose proof (u8_val_range b).
      split; [split; [|cbn; lia]|].
      * apply typed_legacy. split; [cbn; lia|done].
      * exists (b :: e). split; [|done]. cbn [put versioned_wire VersionedMessage.serialize].
        rewrite put_legacy. cbn [Legacy.header Legacy.account_keys Legacy.recent_blockhash Legacy.instructions
          num_required_signatures num_readonly_signed_accounts num_readonly_unsigned_accounts].
        rewrite He. cbn [fmap option_fmap option_map]. by rewrite bincode_u8_spec, Z2Nat.id, u8_of_val by lia.
    + destruct (Z.eqb_spec (u8_val b - 128) 0) as [E0|]; [|done].
      apply result_bind_ok in Hn as ([m' l2] & Hm & [= <- <-]).
      destruct (next_inv _ _ _ Hm) as (Ht & e & He & ->). split; [done|]. exists (b :: e).
      cbn [put versioned_wire VersionedMessage.serialize]. rewrite He. assert (b = x80) as -> by (apply u8_val_inj; change (u8_val x80) with 128; lia).
      cbn [mbind option_bind]. by rewrite bincode_u8_spec.
Qed.
End versioned.

(** ** [VersionedTransaction] *)
Record VersionedTransaction : Type := mkVersionedTransaction {
  signatures : list Signature;
  tx_message : VersionedMessage
}.

Definition transaction_fields (t : VersionedTransaction) : list Signature * VersionedMessage :=
  (signatures t, tx_message t).
Definition transaction_of (f : list Signature * VersionedMessage) : VersionedTransaction :=
  mkVersionedTransaction f.1 f.2.

Section transactions.
Context {BC : Bincode}.

#[global] Instance transaction_typed : Typed VersionedTransaction := fun t => typed (transaction_fields t).
#[global] Instance transaction_wire : Wire VersionedTransaction := wire_via transaction_fields transaction_of.
#[global] Instance transaction_laws `{!BincodeSpec BC} : WireLaws VersionedTransaction.
Proof. refine (wire_via_laws transaction_fields transaction_of _ _); [by intros []|by intros []]. Qed.

End transactions.

(** [bincode] with [reject_trailing_bytes]. *)
Definition deserialize_exact {T} `{Wire T} (bytes : list byte) : result DeError T :=
  '(x, rest) ← next bytes;
  match rest with [] => Ok x | _ => Err InvalidElement end.

Lemma deserialize_exact_iff {T} `{WireLaws T} bytes x :
  deserialize_exact bytes = Ok x <-> typed x /\ put x = Some bytes.
Proof.
  unfold deserialize_exact. split.
  - intros Hd. apply result_bind_ok in Hd as ([y rest] & Hn & Hd). destruct rest; [|done]. injection Hd as ->.
    destruct (next_inv _ _ _ Hn) as (Ht & e & He & ->). by rewrite app_nil_r.
  - intros [Ht Hp]. pose proof (next_put x bytes [] Ht Hp) as Hn. rewrite app_nil_r in Hn. by rewrite Hn.
Qed.

(** C20: Reading bytes as a versioned transaction and writing it are inverse to each
    other: bytes without a remainder are read as a transaction exactly if the
    transaction has fields in range and is written as these bytes. No two byte strings
    are the same transaction. *)
Theorem transactions_read_back {BC : Bincode} {BS : BincodeSpec BC} (bytes : list byte) (t : VersionedTransaction) :
  deserialize_exact bytes = Ok t <-> typed t /\ put t = Some bytes.
Proof. apply deserialize_exact_iff. Qed.

#[local] Existing Instance plain_bincode.
#[local] Existing Instance plain_bincode_spec.

(** A transaction of one signature without instructions. *)
Definition wx_tx : VersionedTransaction :=
  mkVersionedTransaction [mkSignature (replicate 64 x07)]
    (VersionedV0 (V0.mkMessage (mkHeader 1 0 0) [Pubkey_default] Pubkey_default [] [])).
Definition wx_bytes : list byte := default [] (put wx_tx).

Lemma transactions_read_back_witness :
  length wx_bytes = 136%nat /\ deserialize_exact wx_bytes = Ok wx_tx.
Proof.
  split; [vm_compute; reflexivity|].
  apply (transactions_read_back wx_bytes wx_tx).
  split; [|vm_compute; reflexivity]. split; [by repeat constructor|]. repeat (split || constructor); cbn; lia.
Defined.

(** [ed25519_dalek]: [verify_strict] of the signature with the key and the message. *)
Class Ed25519 : Type := { verify_strict : list byte -> list byte -> list byte -> bool }.

Section verification.
Context {BC : Bincode} `{Ed25519}.

(** [Signature::verify] *)
Definition verify (self : Signature) (pubkey_bytes message_bytes : list byte) : bool :=
  verify_strict (signature_bytes self) pubkey_bytes message_bytes.

Definition sanitize_signatures (self : VersionedTransaction) : result SanitizeError unit :=
  let num_required_signatures := num_required_signatures (VersionedMessage.header (tx_message self)) in
  ensure (num_required_signatures <=? length (signatures self))%nat IndexOutOfBounds;;
  ensure (length (signatures self) <=? num_required_signatures)%nat InvalidValue;;
  ensure (negb (length (VersionedMessage.static_account_keys (tx_message self)) <? length (signatures self)))%nat
    IndexOutOfBounds.

Definition transaction_sanitize (self : VersionedTransaction) (require_static_program_ids : bool)
    : result SanitizeError unit :=
  VersionedMessage.sanitize (tx_message self) require_static_program_ids;;
  sanitize_signatures self.

(** [_verify_with_results] *)
Definition verify_results (self : VersionedTransaction) (message_bytes : list byte) : list bool :=
  zip_with (fun signature pubkey => verify signature (to_bytes pubkey) message_bytes)
    (signatures self) (VersionedMessage.static_account_keys (tx_message self)).

(** The message is serialized and unwrapped. *)
Definition verify_with_results {E} (self : VersionedTransaction) : result E (list bool) :=
  message_bytes ← unwrap (VersionedMessage.serialize (tx_message self));
  Ok (verify_results self message_bytes).

(** [hash_raw_message]: the hash is a parameter. *)
Definition verify_and_hash_message (hash_raw_message : list byte -> Hash) (self : VersionedTransaction)
    : result TransactionError Hash :=
  message_bytes ← unwrap (VersionedMessage.serialize (tx_message self));
  if negb (forallb id (verify_results self message_bytes)) then Err SignatureFailure
  else Ok (hash_raw_message message_bytes).
End verification.
