(* ===== verification/Sigverify.v ===== *)
(** * Packets and the verification of their signatures

    [sdk/src/packet.rs] and [perf/src/sigverify.rs]: a packet is a buffer of bytes with a size
    and flags; the signatures of the transaction in a packet are found by offsets that are read
    out of the bytes, without deserializing it.

    Sizes and offsets are [Z]s with the checked arithmetic of [usize]; the verification of one
    signature and the hash of the deduplication are parameters. *)

From Stdlib Require Import Strings.Byte.
From S2P Require Import Prelude Sdk Nonce Message MessageProcessor ShortVec WireFormat.

Definition checked_mul (a b : Z) : option Z := if a * b <=? U64_MAX then Some (a * b) else None.

(** [slice.get(a..b)] and [slice.get(a..)] *)
Definition slice_range (l : list byte) (a b : Z) : option (list byte) :=
  if (a <=? b) && (b <=? Z.of_nat (length l)) then Some (take (Z.to_nat (b - a)) (drop (Z.to_nat a) l)) else None.
Definition slice_from (l : list byte) (a : Z) : option (list byte) := slice_range l a (Z.of_nat (length l)).

(** ** [packet.rs] *)
Definition PACKET_DATA_SIZE : nat := 1232.

Definition DISCARD : Z := 0x01.
Definition FORWARDED : Z := 0x02.
Definition REPAIR : Z := 0x04.
Definition SIMPLE_VOTE_TX : Z := 0x08.
Definition TRACER_PACKET : Z := 0x10.

(** The address, the port and the stake of the sender play no role here. *)
Record Meta : Type := mkMeta {
  size : Z;
  flags : Z
}.

Record Packet : Type := mkPacket {
  buffer : list byte;
  meta : Meta
}.

Definition flags_contain (bits other : Z) : bool := Z.land bits other =? other.
Definition flags_set (bits other : Z) (value : bool) : Z :=
  if value then Z.lor bits other else Z.ldiff bits other.

Module Packet.
Definition discard (self : Packet) : bool := flags_contain (flags (meta self)) DISCARD.
Definition is_simple_vote_tx (self : Packet) : bool := flags_contain (flags (meta self)) SIMPLE_VOTE_TX.
Definition is_tracer_packet (self : Packet) : bool := flags_contain (flags (meta self)) TRACER_PACKET.

Definition set_flag (self : Packet) (flag : Z) (value : bool) : Packet :=
  mkPacket (buffer self) (mkMeta (size (meta self)) (flags_set (flags (meta self)) flag value)).
Definition set_discard (self : Packet) (value : bool) : Packet := set_flag self DISCARD value.
Definition set_tracer (self : Packet) (value : bool) : Packet := set_flag self TRACER_PACKET value.

(** [packet.data(..)]: nothing of a discarded packet, or past its size. *)
Definition data (self : Packet) : option (list byte) :=
  if discard self then None else slice_range (buffer self) 0 (size (meta self)).
Definition data_at (self : Packet) (i : Z) : option byte := l ← data self; l !! Z.to_nat i.
Definition data_range (self : Packet) (a b : Z) : option (list byte) := l ← data self; slice_range l a b.
Definition data_from (self : Packet) (a : Z) : option (list byte) := l ← data self; slice_from l a.

(** [populate_packet]: the serialized value at the front of the buffer. *)
Definition populate_packet {T} `{Wire T} (self : Packet) (x : T) : option Packet :=
  bytes ← put x;
  if (length bytes <=? length (buffer self))%nat
  then Some (mkPacket (write_prefix bytes (buffer self)) (mkMeta (Z.of_nat (length bytes)) (flags (meta self))))
  else None.

(** [deserialize_slice(..)] *)
Definition deserialize_slice {T} `{Wire T} (self : Packet) : result DeError T :=
  bytes ← ok_or (data self) UnexpectedEnd;
  ensure (length bytes <=? PACKET_DATA_SIZE)%nat UnexpectedEnd;;
  deserialize_exact bytes.
End Packet.

(** ** Offsets *)
Record PacketOffsets : Type := mkPacketOffsets {
  sig_len : Z;
  sig_start : Z;
  msg_start : Z;
  pubkey_start : Z;
  pubkey_len : Z
}.

Inductive PacketError : Type :=
| InvalidLen
| InvalidPubkeyLen
| InvalidShortVec
| InvalidSignatureLen
| MismatchSignatureLen
| PayerNotWritable
| InvalidProgramIdIndex
| InvalidProgramLen
| UnsupportedPacketVersion.

Definition SIZE_OF_SIGNATURE : Z := 64.
Definition SIZE_OF_PUBKEY : Z := 32.
Definition MESSAGE_HEADER_LENGTH : Z := 3.

Definition u32_try_from (z : Z) : result PacketError Z := if z <=? U32_MAX then Ok z else Err InvalidLen.

(** [opt.filter(|v| *v <= limit)] *)
Definition at_most (o : option Z) (limit : Z) : option Z :=
  v ← o; if v <=? limit then Some v else None.

(** [decode_shortu16_len] of the bytes from an offset on. *)
Definition decode_len_at (packet : Packet) (offset : Z) : option (Z * Z) :=
  bytes ← Packet.data_from packet offset;
  match decode_shortu16_len bytes with Ok (v, n) => Some (v, Z.of_nat n) | _ => None end.

(** Where the header of the message is, after the prefix of a versioned one. *)
Definition get_msg_header_offset (packet : Packet) (msg_start_offset : Z) : result PacketError Z :=
  ensure (msg_start_offset <? size (meta packet)) InvalidSignatureLen;;
  message_prefix ← ok_or (Packet.data_at packet msg_start_offset) InvalidSignatureLen;
  let prefix := u8_val MESSAGE_VERSION_PREFIX in
  if negb (Z.land (u8_val message_prefix) prefix =? 0) then
    let version := Z.land (u8_val message_prefix) (Z.lxor prefix 0xff) in
    if version =? 0 then ok_or (checked_add msg_start_offset 1) InvalidLen
    else Err UnsupportedPacketVersion
  else Ok msg_start_offset.

Definition do_get_packet_offsets (packet : Packet) (current_offset : Z) : result PacketError PacketOffsets :=
  ok_or (at_most (checked_add 1 SIZE_OF_SIGNATURE) (size (meta packet))) InvalidLen;;
  '(sig_len_untrusted, sig_size) ← ok_or (decode_len_at packet 0) InvalidShortVec;
  msg_start_offset ← ok_or (v ← checked_mul sig_len_untrusted SIZE_OF_SIGNATURE; checked_add v sig_size) InvalidLen;
  msg_header_offset ← get_msg_header_offset packet msg_start_offset;
  msg_header_offset_plus_one ← ok_or (checked_add msg_header_offset 1) InvalidLen;
  ok_or (at_most (checked_add msg_header_offset_plus_one MESSAGE_HEADER_LENGTH) (size (meta packet)))
    InvalidSignatureLen;;
  sig_len_maybe_trusted ← ok_or (Packet.data_at packet msg_header_offset) InvalidSignatureLen;
  message_account_keys_len_offset ← ok_or (checked_add msg_header_offset MESSAGE_HEADER_LENGTH) InvalidSignatureLen;
  readonly_signed ← ok_or (Packet.data_at packet msg_header_offset_plus_one) InvalidSignatureLen;
  ensure (negb (u8_val sig_len_maybe_trusted <=? u8_val readonly_signed)) PayerNotWritable;;
  ensure (u8_val sig_len_maybe_trusted =? sig_len_untrusted) MismatchSignatureLen;;
  '(pubkey_len, pubkey_len_size) ← ok_or (decode_len_at packet message_account_keys_len_offset) InvalidShortVec;
  pubkey_start ← ok_or (checked_add message_account_keys_len_offset pubkey_len_size) InvalidPubkeyLen;
  ok_or (at_most (v ← checked_mul pubkey_len SIZE_OF_PUBKEY; checked_add v pubkey_start) (size (meta packet)))
    InvalidPubkeyLen;;
  ensure (negb (pubkey_len <? sig_len_untrusted)) InvalidPubkeyLen;;
  sig_start ← ok_or (checked_add current_offset sig_size) InvalidLen;
  msg_start ← ok_or (checked_add current_offset msg_start_offset) InvalidLen;
  pubkey_start ← ok_or (checked_add current_offset pubkey_start) InvalidLen;
  a ← u32_try_from sig_len_untrusted;
  b ← u32_try_from sig_start;
  c ← u32_try_from msg_start;
  d ← u32_try_from pubkey_start;
  e ← u32_try_from pubkey_len;
  Ok (mkPacketOffsets a b c d e).

(** The flag is set on the packet when its only instruction is one of the vote program. *)
Definition check_for_simple_vote_transaction (packet : Packet) (packet_offsets : PacketOffsets)
    (current_offset : Z) : result PacketError Packet :=
  ensure (negb (2 <? sig_len packet_offsets)) InvalidSignatureLen;;
  pubkey_start ← ok_or (checked_sub (pubkey_start packet_offsets) current_offset) InvalidLen;
  instructions_len_offset ← ok_or (v ← checked_mul (pubkey_len packet_offsets) SIZE_OF_PUBKEY;
                                   v ← checked_add v pubkey_start; checked_add v SIZE_OF_PUBKEY) InvalidLen;
  ok_or (at_most (checked_add instructions_len_offset 1) (size (meta packet))) InvalidLen;;
  '(instruction_len, instruction_len_size) ← ok_or (decode_len_at packet instructions_len_offset) InvalidLen;
  ensure (instruction_len =? 1) InvalidProgramLen;;
  instruction_start ← ok_or (checked_add instructions_len_offset instruction_len_size) InvalidLen;
  ok_or (at_most (checked_add instruction_start 1) (size (meta packet))) InvalidLen;;
  index ← ok_or (Packet.data_at packet instruction_start) InvalidLen;
  let instruction_program_id_index := u8_val index in
  ensure (negb (pubkey_len packet_offsets <=? instruction_program_id_index)) InvalidProgramIdIndex;;
  instruction_program_id_start ← ok_or (v ← checked_mul instruction_program_id_index SIZE_OF_PUBKEY;
                                        checked_add v pubkey_start) InvalidLen;
  instruction_program_id_end ← ok_or (checked_add instruction_program_id_start SIZE_OF_PUBKEY) InvalidLen;
  program_id ← ok_or (Packet.data_range packet instruction_program_id_start instruction_program_id_end) InvalidLen;
  Ok (if bool_decide (program_id = to_bytes vote_program_id)
      then Packet.set_flag packet SIMPLE_VOTE_TX true else packet).

(** [.ok()]: an error of the check leaves the packet alone. *)
Definition get_packet_offsets (packet : Packet) (current_offset : Z) (reject_non_vote : bool)
    : Packet * PacketOffsets :=
  let zeros := mkPacketOffsets 0 0 0 0 0 in
  match do_get_packet_offsets packet current_offset with
  | Ok offsets =>
      let packet :=
        match check_for_simple_vote_transaction packet offsets current_offset with Ok p => p | _ => packet end in
      (packet, if negb reject_non_vote || Packet.is_simple_vote_tx packet then offsets else zeros)
  | _ => (packet, zeros)
  end.

Definition TRACER_KEY_BYTES : list byte :=
  [x0d; x25; xb4; xaa; xfc; x89; x24; xc2; xb7; x8f; xa1; xc1; xc9; xcf; xd3; x17;
   xbd; x5d; x21; x6e; x9b; x5a; x1e; x27; x74; x73; xee; x26; x7e; x15; xe8; x85].
Definition TRACER_KEY_OFFSET_IN_TRANSACTION : Z := 69.
Definition check_for_tracer_packet (packet : Packet) : Packet * bool :=
  match checked_add TRACER_KEY_OFFSET_IN_TRANSACTION SIZE_OF_PUBKEY with
  | None => (packet, false)
  | Some first_pubkey_end =>
      match Packet.data_range packet TRACER_KEY_OFFSET_IN_TRANSACTION first_pubkey_end with
      | Some pubkey =>
          if bool_decide (pubkey = TRACER_KEY_BYTES) then (Packet.set_tracer packet true, true) else (packet, false)
      | None => (packet, false)
      end
  end.

(** ** Verifying *)
Section verifying.
Context `{Ed25519}.

(** The loop over the signatures; a range that is out of the packet fails. *)
Fixpoint verify_loop (packet : Packet) (msg_start : Z) (n : nat) (sig_start pubkey_start : Z) : bool :=
  match n with
  | O => true
  | S n =>
      let pubkey_end := saturating_add pubkey_start SIZE_OF_PUBKEY in
      match checked_add sig_start SIZE_OF_SIGNATURE with
      | None => false
      | Some sig_end =>
          match Packet.data_range packet sig_start sig_end, Packet.data_range packet pubkey_start pubkey_end,
                Packet.data_from packet msg_start with
          | Some signature, Some pubkey, Some message =>
              verify (mkSignature signature) pubkey message && verify_loop packet msg_start n sig_end pubkey_end
          | _, _, _ => false
          end
      end
  end.

(** The packet with its flags, and whether its signatures verify. *)
Definition verify_packet (packet : Packet) (reject_non_vote : bool) : Packet * bool :=
  if Packet.discard packet then (packet, false)
  else
    let '(packet, packet_offsets) := get_packet_offsets packet 0 reject_non_vote in
    if sig_len packet_offsets =? 0 then (packet, false)
    else if size (meta packet) <=? msg_start packet_offsets then (packet, false)
    else (packet, verify_loop packet (msg_start packet_offsets) (Z.to_nat (sig_len packet_offsets))
                    (sig_start packet_offsets) (pubkey_start packet_offsets)).

(** What happens to a packet of [ed25519_verify_cpu]. *)
Definition verify_or_discard (reject_non_vote : bool) (packet : Packet) : Packet :=
  if Packet.discard packet then packet
  else let '(packet, ok) := verify_packet packet reject_non_vote in
       if ok then packet else Packet.set_discard packet true.

(** The three ways to spread the work over threads handle every packet once, by itself. *)
Definition ed25519_verify_cpu (batches : list (list Packet)) (reject_non_vote : bool) : list (list Packet) :=
  map (map (verify_or_discard reject_non_vote)) batches.
End verifying.

Definition ed25519_verify_disabled (batches : list (list Packet)) : list (list Packet) :=
  map (map (fun p => Packet.set_discard p false)) batches.

Definition count_packets_in_batches (batches : list (list Packet)) : nat := sum_list (map length batches).
Definition count_valid_packets (batches : list (list Packet)) : nat :=
  sum_list (map (fun batch => length (List.filter (fun p => negb (Packet.discard p)) batch)) batches).
Definition count_discarded_packets (batches : list (list Packet)) : nat :=
  sum_list (map (fun batch => length (List.filter Packet.discard batch)) batches).

(** ** Deduplication *)

(** The hash of the bytes of a packet under the seed, [compute_hash]. *)
Record Deduper : Type := mkDeduper {
  dedup_filter : list Z;
  seeded_hash : list byte -> Z;
  saturated : bool
}.

Module Deduper.
Definition new (size : nat) (seed : list byte -> Z) : Deduper := mkDeduper (replicate size 0) seed false.

(** [now.duration_since(age) > max_age] is [expired]. *)
Definition reset (self : Deduper) (expired : bool) (seed : list byte -> Z) : Deduper :=
  if saturated self || expired then mkDeduper (replicate (length (dedup_filter self)) 0) seed false else self.

(** [wrapping_rem] by zero panics. *)
Definition compute_hash (self : Deduper) (packet : Packet) : result unit (Z * nat) :=
  let h := seeded_hash self (default [] (Packet.data packet)) in
  assert_ (negb (length (dedup_filter self) =? 0)%nat);;
  Ok (h, Z.to_nat (h mod Z.of_nat (length (dedup_filter self)))).

(** [fetch_or] on the position of the hash, which starts again when it is saturated. *)
Definition dedup_packet (self : Deduper) (packet : Packet) : result unit (Deduper * Packet * Z) :=
  if Packet.discard packet then Ok (self, packet, 1)
  else
    '(hash, pos) ← compute_hash self packet;
    prev ← unwrap (dedup_filter self !! pos);
    let self :=
      if prev =? U64_MAX then mkDeduper (<[pos := hash]> (dedup_filter self)) (seeded_hash self) true
      else mkDeduper (<[pos := Z.lor prev hash]> (dedup_filter self)) (seeded_hash self) (saturated self) in
    if hash =? Z.land prev hash then Ok (self, Packet.set_discard packet true, 1)
    else Ok (self, packet, 0).

(** The packets of a batch in order, without the callback on each of them. *)
Fixpoint dedup_packets (self : Deduper) (packets : list Packet) (num_removed : Z)
    : result unit (Deduper * list Packet * Z) :=
  match packets with
  | [] => Ok (self, [], num_removed)
  | p :: packets =>
      '(self, p, is_duplicate) ← dedup_packet self p;
      let num_removed := if is_duplicate =? 1 then saturating_add num_removed 1 else num_removed in
      '(self, packets, num_removed) ← dedup_packets self packets num_removed;
      Ok (self, p :: packets, num_removed)
  end.
End Deduper.

(** ** Compaction *)
Record Shrink : Type := mkShrink {
  batches : list (list Packet);
  valid_batch_ix : nat;
  valid_packet_ix : nat;
  last_valid_batch : nat
}.

Section shrink.

Definition packet_at (l : list (list Packet)) (i j : nat) : option Packet := b ← l !! i; b !! j.
Definition set_packet (l : list (list Packet)) (i j : nat) (p : Packet) : list (list Packet) :=
  alter (fun b => <[j := p]> b) i l.
Definition batch_len (l : list (list Packet)) (i : nat) : nat := length (default [] (l !! i)).

(** The inner loop: the first discarded packet of a batch from [ix] on, or the end. *)
Fixpoint next_discarded (fuel : nat) (b : list Packet) (ix : nat) : nat :=
  match fuel with
  | O => ix
  | S fuel =>
      match b !! ix with
      | Some p => if Packet.discard p then ix else next_discarded fuel b (S ix)
      | None => ix
      end
  end.

(** The outer loop: a spot in an earlier batch, which takes the packet [p] at [(batch_ix, packet_ix)]. *)
Fixpoint find_spot (fuel : nat) (st : Shrink) (batch_ix packet_ix : nat) (p : Packet) : Shrink :=
  match fuel with
  | O => st
  | S fuel =>
      if (valid_batch_ix st <? batch_ix)%nat then
        let vb := valid_batch_ix st in
        let b := default [] (batches st !! vb) in
        let vp := next_discarded (length b) b (valid_packet_ix st) in
        if (vp <? length b)%nat then
          mkShrink (set_packet (set_packet (batches st) vb vp p) batch_ix packet_ix (Packet.set_discard p true))
            vb vp (vb + 1)
        else find_spot fuel (mkShrink (batches st) (vb + 1) 0 (last_valid_batch st)) batch_ix packet_ix p
      else st
  end.

(** One round of the loops over the batches and their packets. *)
Definition shrink_packet (st : Shrink) (batch_ix packet_ix : nat) : Shrink :=
  match packet_at (batches st) batch_ix packet_ix with
  | Some p =>
      if Packet.discard p then st
      else find_spot (S batch_ix) (mkShrink (batches st) (valid_batch_ix st) (valid_packet_ix st) (batch_ix + 1))
             batch_ix packet_ix p
  | None => st
  end.

Definition shrink_batch (st : Shrink) (batch_ix : nat) : Shrink :=
  foldl (fun st packet_ix => shrink_packet st batch_ix packet_ix) st (seq 0 (batch_len (batches st) batch_ix)).

Definition shrink_batches (l : list (list Packet)) : list (list Packet) :=
  let st := foldl shrink_batch (mkShrink l 0 0 0) (seq 0 (length l)) in
  take (last_valid_batch st) (batches st).
End shrink.
