(* ===== verification/SigverifyFacts.v ===== *)
(** * Reading a transaction out of a packet

    Where the parts of a serialized transaction are, and what the offsets of
    [do_get_packet_offsets] point to. *)

From Stdlib Require Import Strings.Byte.
From S2P Require Import Prelude Sdk Nonce Message MessageProcessor ShortVec WireFormat Sigverify.

(** ** Layout *)
Lemma put_all_total {T} `{Wire T} (f : T -> list byte) xs :
  (forall x, put x = Some (f x)) -> put_all xs = Some (concat (map f xs)).
Proof. intros Hf. induction xs as [|x xs IH]; [done|]. cbn [put_all]. by rewrite Hf, IH. Qed.

Section layout.
Context {BC : Bincode} {BS : BincodeSpec BC}.

Lemma put_vec {T} `{Wire T} (xs : list T) e :
  put xs = Some e -> exists l, put_all xs = Some l /\ e = ShortU16_serialize (Z.of_nat (length xs)) ++ l /\
    Z.of_nat (length xs) <= U16_MAX.
Proof.
  cbn [put short_vec_wire]. unfold ShortVec_serialize. destruct (Z.ltb_spec U16_MAX (Z.of_nat (length xs))); [done|].
  destruct (put_all xs) as [l|]; [|done]. intros [= <-]. exists l. by rewrite put_array_id.
Qed.

Lemma put_pair {A B} `{Wire A} `{Wire B} (a : A) (b : B) e :
  put (a, b) = Some e -> exists ea eb, put a = Some ea /\ put b = Some eb /\ e = ea ++ eb.
Proof.
  cbn [put pair_wire fst snd]. destruct (put a) as [ea|]; [|done]. cbn [mbind option_bind].
  destruct (put b) as [eb|]; [|done]. intros [= <-]. by exists ea, eb.
Qed.

Definition prefix_bytes (m : VersionedMessage) : list byte :=
  match m with VersionedLegacy _ => [] | VersionedV0 _ => [MESSAGE_VERSION_PREFIX] end.

Definition header_bytes (h : MessageHeader) : list byte :=
  [u8_of (Z.of_nat (num_required_signatures h)); u8_of (Z.of_nat (num_readonly_signed_accounts h));
   u8_of (Z.of_nat (num_readonly_unsigned_accounts h))].

Definition key_bytes (keys : list Pubkey) : list byte := concat (map to_bytes keys).

(** The instructions and what follows them. *)
Lemma message_layout m bytes :
  VersionedMessage.serialize m = Some bytes ->
  exists ixs tail, put_all (VersionedMessage.instructions m) = Some ixs /\
    Z.of_nat (length (VersionedMessage.static_account_keys m)) <= U16_MAX /\
    Z.of_nat (length (VersionedMessage.instructions m)) <= U16_MAX /\
    bytes = prefix_bytes m ++ header_bytes (VersionedMessage.header m) ++
      ShortU16_serialize (Z.of_nat (length (VersionedMessage.static_account_keys m))) ++
      key_bytes (VersionedMessage.static_account_keys m) ++ to_bytes (VersionedMessage.recent_blockhash m) ++
      ShortU16_serialize (Z.of_nat (length (VersionedMessage.instructions m))) ++ ixs ++ tail.
Proof.
  assert (forall (h : MessageHeader) e, put h = Some e -> e = header_bytes h) as Hh.
  { intros [] e [= <-]. by rewrite !bincode_u8_spec. }
  assert (forall (keys : list Pubkey) l, put_all keys = Some l -> l = key_bytes keys) as Hk.
  { intros keys l. rewrite (put_all_total to_bytes); [by intros [= <-]|]. intros x. cbn [put pubkey_wire]. by rewrite put_array_id. }
  destruct m as [[h keys bh ixs]|[h keys bh ixs lookups]]; cbn [VersionedMessage.serialize VersionedMessage.header
    VersionedMessage.static_account_keys VersionedMessage.recent_blockhash VersionedMessage.instructions
    Legacy.header Legacy.account_keys Legacy.recent_blockhash Legacy.instructions
    V0.header V0.account_keys V0.recent_blockhash V0.instructions].
  - intros He. apply put_pair in He as (eh & e1 & Eh & He & ->). apply put_pair in He as (ek & e2 & Ek & He & ->).
    apply put_pair in He as (eb & ei & [= <-] & Ei & ->). apply put_vec in Ek as (lk & Elk & -> & Hlk).
    apply put_vec in Ei as (li & Eli & -> & Hli). apply Hh in Eh as ->. apply Hk in Elk as ->.
    exists li, []. split_and!; [done..|]. cbn [prefix_bytes app]. by rewrite put_array_id, app_nil_r, <-!app_assoc.
  - intros He. apply bind_Some in He as (e & He & [= <-]).
    apply put_pair in He as (eh & e1 & Eh & He & ->). apply put_pair in He as (ek & e2 & Ek & He & ->).
    apply put_pair in He as (eb & e3 & [= <-] & He & ->). apply put_pair in He as (ei & el & Ei & El & ->).
    apply put_vec in Ek as (lk & Elk & -> & Hlk).
    apply put_vec in Ei as (li & Eli & -> & Hli). apply Hh in Eh as ->. apply Hk in Elk as ->.
    exists li, el. split_and!; [done..|]. rewrite put_array_id, bincode_u8_spec. cbn [prefix_bytes app]. by rewrite <-!app_assoc.
Qed.

Definition all_signatures (t : VersionedTransaction) : list byte := concat (map signature_bytes (signatures t)).

Lemma transaction_layout t bytes :
  put t = Some bytes -> exists msg, VersionedMessage.serialize (tx_message t) = Some msg /\
    Z.of_nat (length (signatures t)) <= U16_MAX /\
    bytes = ShortU16_serialize (Z.of_nat (length (signatures t))) ++ all_signatures t ++ msg.
Proof.
  destruct t as [sigs m]. intros He. apply put_pair in He as (es & msg & Es & Em & ->). exists msg.
  apply put_vec in Es as (l & El & -> & Hl). rewrite (put_all_total signature_bytes) in El
    by (intros x; cbn [put signature_wire]; by rewrite put_array_id).
  injection El as <-. split_and!; [done..|]. by rewrite <-app_assoc.
Qed.
End layout.

Lemma length_concat_fixed {A} (f : A -> list byte) n xs :
  Forall (fun x => length (f x) = n) xs -> length (concat (map f xs)) = (n * length xs)%nat.
Proof. induction 1 as [|x xs Hx _ IH]; [cbn; lia|]. cbn [map concat length]. rewrite length_app, Hx, IH. lia. Qed.

Lemma length_key_bytes keys : length (key_bytes keys) = (32 * length keys)%nat.
Proof. apply length_concat_fixed. apply Forall_forall. intros. apply length_to_bytes. Qed.

Lemma length_all_signatures t : typed t -> length (all_signatures t) = (64 * length (signatures t))%nat.
Proof. intros [Hs _]. by apply length_concat_fixed. Qed.

(** ** Slices *)
Lemma checked_add_ok a b : a + b <= U64_MAX -> checked_add a b = Some (a + b).
Proof. intros H. by apply checked_add_some. Qed.

Lemma checked_mul_ok a b : a * b <= U64_MAX -> checked_mul a b = Some (a * b).
Proof. intros H. unfold checked_mul. destruct (Z.leb_spec (a * b) U64_MAX); [done|lia]. Qed.

Lemma at_most_ok v limit : v <= limit -> at_most (Some v) limit = Some v.
Proof. intros H. cbn. destruct (Z.leb_spec v limit); [done|lia]. Qed.

Lemma slice_app x y z a b :
  a = Z.of_nat (length x) -> b = a + Z.of_nat (length y) -> slice_range (x ++ y ++ z) a b = Some y.
Proof.
  intros -> ->. unfold slice_range. rewrite !length_app.
  destruct (Z.leb_spec (Z.of_nat (length x)) (Z.of_nat (length x) + Z.of_nat (length y))); [|lia].
  destruct (Z.leb_spec (Z.of_nat (length x) + Z.of_nat (length y))
    (Z.of_nat (length x + (length y + length z)))); [|lia]. cbn [andb]. f_equal.
  rewrite Nat2Z.id, drop_app_length. apply take_app_length'. lia.
Qed.

Section reading.
Variables (p : Packet) (bytes : list byte).
Hypothesis Hdata : Packet.data p = Some bytes.

Lemma data_size : size (meta p) = Z.of_nat (length bytes) /\ Packet.discard p = false.
Proof.
  unfold Packet.data in Hdata. destruct (Packet.discard p); [done|]. split; [|done].
  unfold slice_range in Hdata. destruct (Z.leb_spec 0 (size (meta p))); [|done].
  destruct (Z.leb_spec (size (meta p)) (Z.of_nat (length (buffer p)))); [|done].
  injection Hdata as <-. rewrite drop_0, length_take. lia.
Qed.

Lemma data_at_app x b z i : bytes = x ++ b :: z -> i = Z.of_nat (length x) -> Packet.data_at p i = Some b.
Proof.
  intros Hb ->. unfold Packet.data_at. rewrite Hdata, Hb. cbn [mbind option_bind].
  by rewrite Nat2Z.id, lookup_app_r, Nat.sub_diag.
Qed.

Lemma data_range_app x y z a b :
  bytes = x ++ y ++ z -> a = Z.of_nat (length x) -> b = a + Z.of_nat (length y) -> Packet.data_range p a b = Some y.
Proof. intros -> Ha Hb. unfold Packet.data_range. rewrite Hdata. by apply slice_app. Qed.

Lemma data_from_app x y a : bytes = x ++ y -> a = Z.of_nat (length x) -> Packet.data_from p a = Some y.
Proof.
  intros Hb ->. unfold Packet.data_from, slice_from. rewrite Hdata, Hb. cbn [mbind option_bind].
  rewrite <-(app_nil_r (x ++ y)), <-app_assoc. apply slice_app; [done|]. rewrite !length_app. cbn. lia.
Qed.

Lemma decode_len_app x v z a :
  bytes = x ++ ShortU16_serialize v ++ z -> a = Z.of_nat (length x) -> 0 <= v <= U16_MAX ->
  decode_len_at p a = Some (v, Z.of_nat (length (ShortU16_serialize v))).
Proof.
  intros Hb Ha Hv. unfold decode_len_at. rewrite (data_from_app x _ a Hb Ha). cbn [mbind option_bind].
  by rewrite decode_serialized.
Qed.
End reading.

(** ** The offsets of a transaction *)
Section offsets.
Context {BC : Bincode} {BS : BincodeSpec BC}.
Variables (p : Packet) (bytes : list byte) (t : VersionedTransaction).
Hypothesis Hdata : Packet.data p = Some bytes.
Hypothesis Hlen : (length bytes <= PACKET_DATA_SIZE)%nat.
Hypothesis Htyped : typed t.
Hypothesis Hput : put t = Some bytes.

#[local] Notation n := (length (signatures t)).
#[local] Notation h := (VersionedMessage.header (tx_message t)).
#[local] Notation keys := (VersionedMessage.static_account_keys (tx_message t)).

(** What the offsets mean. *)
Definition msg_offset : Z := Z.of_nat (length (ShortU16_serialize (Z.of_nat n))) + 64 * Z.of_nat n.
Definition header_offset : Z := msg_offset + Z.of_nat (length (prefix_bytes (tx_message t))).
Definition keys_offset : Z := header_offset + 3 + Z.of_nat (length (ShortU16_serialize (Z.of_nat (length keys)))).
Definition transaction_offsets : PacketOffsets :=
  mkPacketOffsets (Z.of_nat n) (Z.of_nat (length (ShortU16_serialize (Z.of_nat n)))) msg_offset keys_offset
    (Z.of_nat (length keys)).

Lemma header_range :
  (num_required_signatures h < 256)%nat /\ (num_readonly_signed_accounts h < 256)%nat.
Proof.
  destruct t as [sigs [m|m]]; destruct Htyped as [_ Hm]; cbn [tx_message VersionedMessage.header].
  - destruct Hm as [ [Hh _] _]. destruct Hh as [H1 [H2 _] ]. by split.
  - destruct Hm as [Hh _]. destruct Hh as [H1 [H2 _] ]. by split.
Qed.

Lemma legacy_below m : tx_message t = VersionedLegacy m -> (num_required_signatures h < 128)%nat.
Proof.
  destruct Htyped as [_ Hm]. intros E. unfold transaction_fields in Hm. cbn [snd] in Hm. rewrite E in *. apply Hm.
Qed.

Lemma read_header_offset : get_msg_header_offset p msg_offset = Ok header_offset.
Proof.
  destruct (transaction_layout _ _ Hput) as (msg & Hm & Hn & Hb).
  destruct (message_layout _ _ Hm) as (ixs & tail & _ & _ & _ & Hl).
  destruct (data_size _ _ Hdata) as [Hs _]. pose proof (length_all_signatures t Htyped) as Hsl.
  assert (msg_offset = Z.of_nat (length (ShortU16_serialize (Z.of_nat n) ++ all_signatures t))) as Hmo
    by (unfold msg_offset; rewrite length_app, Hsl; lia).
  rewrite app_assoc in Hb. unfold get_msg_header_offset.
  assert (msg_offset < size (meta p)) as Hlt.
  { rewrite Hs, Hmo, Hb, !length_app, Hl, !length_app. cbn [length header_bytes]. lia. }
  destruct (Z.ltb_spec msg_offset (size (meta p))); [|lia]. cbn [ensure mbind result_bind].
  unfold header_offset. destruct (tx_message t) as [m|m] eqn:Em; cbn [prefix_bytes length app] in Hl |- *.
  - pose proof (legacy_below m Em) as Hlow. rewrite Em in Hlow. cbn [VersionedMessage.header] in Hlow, Hl.
    unfold header_bytes in Hl. cbn [app] in Hl. rewrite Hl in Hb.
    rewrite (data_at_app _ _ Hdata _ _ _ _ Hb Hmo). cbn [ok_or mbind result_bind].
    change (u8_val MESSAGE_VERSION_PREFIX) with 0x80. rewrite land_top, u8_val_of, Z.mod_small by lia.
    destruct (Z.ltb_spec (Z.of_nat (num_required_signatures (Legacy.header m))) 128); [|lia].
    cbn [negb]. by rewrite Z.add_0_r.
  - rewrite Hl in Hb. rewrite (data_at_app _ _ Hdata _ _ _ _ Hb Hmo). cbn [ok_or mbind result_bind].
    change (negb (_ =? 0)) with true. change (Z.land _ (Z.lxor _ _) =? 0) with true. cbn iota.
    rewrite checked_add_ok; [done|]. rewrite Hs in Hlt. unfold PACKET_DATA_SIZE, U64_MAX in *. lia.
Qed.

(** The offsets in a memory that holds the packet at [current_offset]. *)
Definition shift_offsets (current_offset : Z) (o : PacketOffsets) : result PacketError PacketOffsets :=
  sig_start ← ok_or (checked_add current_offset (sig_start o)) InvalidLen;
  msg_start ← ok_or (checked_add current_offset (msg_start o)) InvalidLen;
  pubkey_start ← ok_or (checked_add current_offset (pubkey_start o)) InvalidLen;
  a ← u32_try_from (sig_len o);
  b ← u32_try_from sig_start;
  c ← u32_try_from msg_start;
  d ← u32_try_from pubkey_start;
  e ← u32_try_from (pubkey_len o);
  Ok (mkPacketOffsets a b c d e).

(** The bytes up to the keys, and after them. *)
Lemma bytes_split : exists ixs tail,
  put_all (VersionedMessage.instructions (tx_message t)) = Some ixs /\
  Z.of_nat n <= U16_MAX /\ Z.of_nat (length keys) <= U16_MAX /\
  Z.of_nat (length (VersionedMessage.instructions (tx_message t))) <= U16_MAX /\
  bytes = (ShortU16_serialize (Z.of_nat n) ++ all_signatures t ++ prefix_bytes (tx_message t)) ++ header_bytes h ++
    ShortU16_serialize (Z.of_nat (length keys)) ++ key_bytes keys ++
    to_bytes (VersionedMessage.recent_blockhash (tx_message t)) ++
    ShortU16_serialize (Z.of_nat (length (VersionedMessage.instructions (tx_message t)))) ++ ixs ++ tail.
Proof.
  destruct (transaction_layout _ _ Hput) as (msg & Hm & Hn & Hb).
  destruct (message_layout _ _ Hm) as (ixs & tail & Hi & Hk & Hil & Hl). exists ixs, tail. split_and!; try done.
  by rewrite Hb, Hl, <-!app_assoc.
Qed.

Lemma header_offset_length :
  header_offset =
    Z.of_nat (length (ShortU16_serialize (Z.of_nat n) ++ all_signatures t ++ prefix_bytes (tx_message t))).
Proof.
  unfold header_offset, msg_offset. rewrite !length_app, (length_all_signatures t Htyped). lia.
Qed.

Lemma offsets_fit :
  64 * Z.of_nat n < msg_offset <= header_offset /\
  header_offset + 3 < keys_offset /\ keys_offset + 32 * Z.of_nat (length keys) + 33 <= Z.of_nat (length bytes) <= 1232 /\
  size (meta p) = Z.of_nat (length bytes).
Proof.
  destruct bytes_split as (ixs & tail & _ & Hn & Hk & Hi & Hb). pose proof header_offset_length as Hho.
  destruct (data_size _ _ Hdata) as [Hs _].
  pose proof (length_short (Z.of_nat n) ltac:(lia)). pose proof (length_short (Z.of_nat (length keys)) ltac:(lia)).
  pose proof (length_short (Z.of_nat (length (VersionedMessage.instructions (tx_message t)))) ltac:(lia)).
  apply (f_equal length) in Hb. rewrite !length_app, length_key_bytes, length_to_bytes in Hb.
  rewrite !length_app in Hho. change (length (header_bytes h)) with 3%nat in Hb.
  unfold PACKET_DATA_SIZE in Hlen. unfold keys_offset, header_offset, msg_offset in *. lia.
Qed.

Lemma offsets_eq current_offset :
  do_get_packet_offsets p current_offset =
    (ok_or (at_most (checked_add 1 SIZE_OF_SIGNATURE) (size (meta p))) InvalidLen;;
     ensure (negb (num_required_signatures h <=? num_readonly_signed_accounts h)%nat) PayerNotWritable;;
     ensure (num_required_signatures h =? n)%nat MismatchSignatureLen;;
     ensure (negb (length keys <? n)%nat) InvalidPubkeyLen;;
     shift_offsets current_offset transaction_offsets).
Proof.
  unfold do_get_packet_offsets. destruct (ok_or (at_most _ _) _) as [v|e|]; [|done..]. cbn [mbind result_bind].
  destruct bytes_split as (ixs & tail & _ & Hn & Hk & _ & Hb). pose proof header_offset_length as Hho.
  destruct header_range as [H1 H2]. destruct offsets_fit as (Hm & Hh & Hf & Hs).
  rewrite (decode_len_app _ _ Hdata [] (Z.of_nat n) (drop (length (ShortU16_serialize (Z.of_nat n))) bytes) 0);
    [|by rewrite Hb, <-!app_assoc; cbn [app]; rewrite drop_app_length|done|lia].
  unfold SIZE_OF_SIGNATURE, SIZE_OF_PUBKEY, MESSAGE_HEADER_LENGTH.
  cbn [ok_or mbind result_bind]. rewrite checked_mul_ok by (unfold U64_MAX; lia).
  cbn [mbind option_bind]. rewrite (checked_add_ok (Z.of_nat n * 64)) by (unfold U64_MAX, msg_offset in *; lia). cbn [ok_or mbind result_bind].
  replace (Z.of_nat n * 64 + Z.of_nat (length (ShortU16_serialize (Z.of_nat n)))) with msg_offset by (unfold msg_offset; lia).
  rewrite read_header_offset. cbn [mbind result_bind].
  rewrite (checked_add_ok header_offset 1) by (unfold U64_MAX; lia). cbn [ok_or mbind result_bind].
  rewrite (checked_add_ok (header_offset + 1)) by (unfold U64_MAX; lia). rewrite at_most_ok by lia.
  cbn [ok_or mbind result_bind].
  pose proof Hb as Hb'. unfold header_bytes in Hb'. cbn [app] in Hb'. rewrite (data_at_app _ _ Hdata _ _ _ _ Hb' Hho).
  cbn [ok_or mbind result_bind]. rewrite (checked_add_ok header_offset 3) by (unfold U64_MAX; lia).
  cbn [ok_or mbind result_bind].
  rewrite cons_middle, app_assoc in Hb'. rewrite (data_at_app _ _ Hdata _ _ _ (header_offset + 1) Hb')
    by (rewrite length_app; cbn [length]; lia).
  cbn [ok_or mbind result_bind]. rewrite !u8_val_of, !Z.mod_small by lia.
  replace (Z.of_nat (num_required_signatures h) <=? Z.of_nat (num_readonly_signed_accounts h))
    with (num_required_signatures h <=? num_readonly_signed_accounts h)%nat
    by (destruct (Nat.leb_spec (num_required_signatures h) (num_readonly_signed_accounts h)); symmetry;
        [apply Z.leb_le|apply Z.leb_gt]; lia).
  destruct (ensure (negb _) PayerNotWritable) as [u|e|]; [|done..]. cbn [mbind result_bind].
  replace (Z.of_nat (num_required_signatures h) =? Z.of_nat n) with (num_required_signatures h =? n)%nat
    by (destruct (Nat.eqb_spec (num_required_signatures h) n); symmetry; [apply Z.eqb_eq|apply Z.eqb_neq]; lia).
  destruct (ensure _ MismatchSignatureLen) as [u'|e|]; [|done..]. cbn [mbind result_bind].
  rewrite app_assoc in Hb. rewrite (decode_len_app _ _ Hdata _ (Z.of_nat (length keys)) _ (header_offset + 3) Hb);
    [|rewrite length_app; cbn [length header_bytes]; lia|lia].
  cbn [ok_or mbind result_bind]. rewrite (checked_add_ok (header_offset + 3)) by (unfold U64_MAX, keys_offset in *; lia).
  fold keys_offset. cbn [ok_or mbind result_bind]. rewrite checked_mul_ok by (unfold U64_MAX; lia).
  cbn [mbind option_bind]. rewrite (checked_add_ok (Z.of_nat (length keys) * 32)) by (unfold U64_MAX; lia).
  rewrite at_most_ok by lia.
  cbn [ok_or mbind result_bind].
  replace (Z.of_nat (length keys) <? Z.of_nat n) with (length keys <? n)%nat
    by (destruct (Nat.ltb_spec (length keys) n); symmetry; [apply Z.ltb_lt|apply Z.ltb_ge]; lia).
  by destruct (ensure (negb _) InvalidPubkeyLen).
Qed.

(** ** Votes *)

(** The only instruction is one of the vote program, and there are at most two signatures. *)
Definition is_simple_vote : bool :=
  (n <=? 2)%nat &&
  match VersionedMessage.instructions (tx_message t) with
  | [ix] => match keys !! program_id_index ix with Some k => key_eqb k vote_program_id | None => false end
  | _ => false
  end.

Lemma instructions_typed : Forall typed (VersionedMessage.instructions (tx_message t)).
Proof.
  destruct t as [sigs [m|m]]; destruct Htyped as [_ Hm].
  - destruct Hm as [Hm _]. apply Hm.
  - apply Hm.
Qed.

Lemma key_split i k :
  keys !! i = Some k -> exists x z, key_bytes keys = x ++ to_bytes k ++ z /\ length x = (32 * i)%nat.
Proof.
  intros Hk. exists (key_bytes (take i keys)), (key_bytes (drop (S i) keys)). split.
  - unfold key_bytes. rewrite <-concat_cons, <-map_cons, <-concat_app, <-map_app. by rewrite take_drop_middle.
  - rewrite length_key_bytes, length_take. apply lookup_lt_Some in Hk. lia.
Qed.

Definition instructions_offset : Z := Z.of_nat (length keys) * 32 + keys_offset + 32.

(** The bytes before the instructions. *)
Lemma instructions_split : exists pre ixs tail,
  put_all (VersionedMessage.instructions (tx_message t)) = Some ixs /\
  Z.of_nat (length (VersionedMessage.instructions (tx_message t))) <= U16_MAX /\
  instructions_offset = Z.of_nat (length pre) /\
  bytes = pre ++ ShortU16_serialize (Z.of_nat (length (VersionedMessage.instructions (tx_message t)))) ++ ixs ++ tail.
Proof.
  destruct bytes_split as (ixs & tail & Hixs & Hn & Hk & Hil & Hb).
  exists ((ShortU16_serialize (Z.of_nat n) ++ all_signatures t ++ prefix_bytes (tx_message t)) ++ header_bytes h ++
    ShortU16_serialize (Z.of_nat (length keys)) ++ key_bytes keys ++
    to_bytes (VersionedMessage.recent_blockhash (tx_message t))), ixs, tail.
  split_and!; [done..| |by rewrite Hb, <-!app_assoc].
  unfold instructions_offset, keys_offset. rewrite header_offset_length, !length_app, length_key_bytes, length_to_bytes.
  cbn [length header_bytes]. lia.
Qed.

Lemma read_instruction_count :
  decode_len_at p instructions_offset =
    Some (Z.of_nat (length (VersionedMessage.instructions (tx_message t))),
          Z.of_nat (length (ShortU16_serialize (Z.of_nat (length (VersionedMessage.instructions (tx_message t))))))).
Proof.
  destruct instructions_split as (pre & ixs & tail & _ & Hl & Ho & Hb).
  rewrite (decode_len_app _ _ Hdata _ _ _ _ Hb Ho); [done|lia].
Qed.

Lemma read_program_index ix :
  VersionedMessage.instructions (tx_message t) = [ix] ->
  Packet.data_at p (instructions_offset + 1) = Some (u8_of (Z.of_nat (program_id_index ix))) /\
  instructions_offset + 2 <= Z.of_nat (length bytes) /\ (program_id_index ix < 256)%nat.
Proof.
  intros Ei. destruct instructions_split as (pre & ixs & tail & Hixs & _ & Ho & Hb). rewrite Ei in *.
  pose proof instructions_typed as Hty. rewrite Ei in Hty. apply Forall_cons_1 in Hty as [ [Hix _] _].
  cbn [put_all] in Hixs. destruct (put ix) as [e|] eqn:He; [|done]. cbn in Hixs. injection Hixs as <-.
  apply put_pair in He as (a & b & [= <-] & _ & ->). rewrite bincode_u8_spec in Hb. change (ShortU16_serialize (Z.of_nat (length [ix]))) with [x01] in Hb.
  rewrite app_assoc in Hb. cbn [app] in Hb. split_and!; [|rewrite Ho, Hb, !length_app; cbn [length]; lia|done].
  apply (data_at_app _ _ Hdata _ _ _ _ Hb). rewrite length_app, Ho. cbn [length]. lia.
Qed.

Lemma read_key i k :
  keys !! i = Some k -> Packet.data_range p (Z.of_nat i * 32 + keys_offset) (Z.of_nat i * 32 + keys_offset + 32) = Some (to_bytes k).
Proof.
  intros Hk. destruct bytes_split as (ixs & tail & _ & _ & _ & _ & Hb). destruct (key_split i k Hk) as (x & z & E & Hx).
  rewrite E in Hb. refine (data_range_app _ _ Hdata ((ShortU16_serialize (Z.of_nat n) ++ all_signatures t ++
    prefix_bytes (tx_message t)) ++ header_bytes h ++ ShortU16_serialize (Z.of_nat (length keys)) ++ x) (to_bytes k) _ _ _
    _ _ _).
  - by rewrite Hb, <-!app_assoc.
  - unfold keys_offset. rewrite header_offset_length, !length_app, Hx. cbn [length header_bytes]. lia.
  - by rewrite length_to_bytes.
Qed.

(** The error of the check does not matter: the flag is set or the packet is unchanged. *)
Lemma simple_vote_checked :
  (match check_for_simple_vote_transaction p transaction_offsets 0 with Ok p' => p' | _ => p end) =
    if is_simple_vote then Packet.set_flag p SIMPLE_VOTE_TX true else p.
Proof.
  unfold check_for_simple_vote_transaction, is_simple_vote. cbn [sig_len pubkey_start pubkey_len transaction_offsets].
  destruct offsets_fit as (Hm & Hh & Hf & Hs).
  destruct (Z.ltb_spec 2 (Z.of_nat n)), (Nat.leb_spec n 2); try lia; [done|]. cbn [negb ensure mbind result_bind andb].
  assert (checked_sub keys_offset 0 = Some keys_offset) as -> by (apply checked_sub_some; lia).
  cbn [ok_or mbind result_bind]. unfold SIZE_OF_PUBKEY. rewrite checked_mul_ok by (unfold U64_MAX; lia).
  cbn [mbind option_bind]. rewrite (checked_add_ok (Z.of_nat (length keys) * 32)) by (unfold U64_MAX; lia).
  cbn [mbind option_bind]. rewrite (checked_add_ok (_ + keys_offset) 32) by (unfold U64_MAX; lia).
  cbn [ok_or mbind result_bind]. fold instructions_offset.
  assert (instructions_offset + 1 <= Z.of_nat (length bytes)) as Hio by (unfold instructions_offset; lia).
  rewrite (checked_add_ok instructions_offset 1) by (unfold U64_MAX; lia). rewrite at_most_ok by lia.
  cbn [ok_or mbind result_bind]. rewrite read_instruction_count. cbn [ok_or mbind result_bind].
  destruct (VersionedMessage.instructions (tx_message t)) as [|ix [|ix' l]] eqn:Ei; [done| |].
  2:{ destruct (Z.eqb_spec (Z.of_nat (length (ix :: ix' :: l))) 1); [cbn in *; lia|done]. }
  destruct (read_program_index ix Ei) as (Hat & Hio2 & Hix).
  change (Z.of_nat (length [ix])) with 1 in *. cbn [Z.eqb Pos.eqb ensure mbind result_bind].
  change (Z.of_nat (length (ShortU16_serialize 1))) with 1.
  rewrite (checked_add_ok instructions_offset 1) by (unfold U64_MAX; lia). cbn [ok_or mbind result_bind].
  rewrite (checked_add_ok (instructions_offset + 1) 1) by (unfold U64_MAX; lia). rewrite at_most_ok by lia.
  cbn [ok_or mbind result_bind]. rewrite Hat. cbn [ok_or mbind result_bind]. rewrite u8_val_of, Z.mod_small by lia.
  destruct (keys !! program_id_index ix) as [k|] eqn:Hk.
  - pose proof (lookup_lt_Some _ _ _ Hk) as Hlt.
    destruct (Z.leb_spec (Z.of_nat (length keys)) (Z.of_nat (program_id_index ix))); [lia|].
    cbn [negb ensure mbind result_bind]. rewrite checked_mul_ok by (unfold U64_MAX; lia).
    cbn [mbind option_bind]. rewrite (checked_add_ok _ keys_offset) by (unfold U64_MAX; lia). cbn [ok_or mbind result_bind].
    rewrite (checked_add_ok _ 32) by (unfold U64_MAX; lia). cbn [ok_or mbind result_bind].
    rewrite (read_key _ k Hk). cbn [ok_or mbind result_bind].
    destruct (key_eqb k vote_program_id) eqn:E; [apply key_eqb_eq in E as ->; by rewrite bool_decide_true|].
    rewrite bool_decide_false; [done|]. intros Hb%to_bytes_inj. subst k. by rewrite key_eqb_refl in E.
  - apply lookup_ge_None in Hk. by destruct (Z.leb_spec (Z.of_nat (length keys)) (Z.of_nat (program_id_index ix))); [|lia].
Qed.

(** ** Signatures *)
Context `{Ed25519}.

(** The loop checks the signatures against the keys, one after the other. *)
Lemma verify_loop_eq msg off sigs : forall (ks : list Pubkey) x z c d,
  Packet.data_from p off = Some msg ->
  bytes = x ++ concat (map signature_bytes sigs) ++ z -> bytes = c ++ key_bytes ks ++ d ->
  Forall typed sigs -> (length sigs <= length ks)%nat ->
  verify_loop p off (length sigs) (Z.of_nat (length x)) (Z.of_nat (length c)) =
    forallb id (zip_with (fun s k => verify s (to_bytes k) msg) sigs ks).
Proof.
  induction sigs as [|s sigs IH]; intros ks x z c d Hmsg Hx Hc Hty Hle; [done|].
  destruct ks as [|k ks]; [cbn in Hle; lia|]. apply Forall_cons_1 in Hty as [Hs Hty].
  change (length (signature_bytes s) = 64%nat) in Hs. cbn [length map concat] in *.
  unfold key_bytes in Hc. cbn [map concat] in Hc. fold (key_bytes ks) in Hc.
  rewrite <-app_assoc in Hx, Hc. pose proof (length_to_bytes k) as Hk. unfold PACKET_DATA_SIZE in Hlen.
  assert (Z.of_nat (length x) + 64 <= 1232) by (apply (f_equal length) in Hx; rewrite !length_app, Hs in Hx; lia).
  assert (Z.of_nat (length c) + 32 <= 1232) by (apply (f_equal length) in Hc; rewrite !length_app, Hk in Hc; lia).
  cbn [verify_loop zip_with forallb]. unfold SIZE_OF_SIGNATURE, SIZE_OF_PUBKEY, saturating_add.
  rewrite checked_add_ok, Z.min_r by (unfold U64_MAX; lia).
  rewrite (data_range_app _ _ Hdata x (signature_bytes s) _ _ _ Hx) by (done || lia).
  rewrite (data_range_app _ _ Hdata c (to_bytes k) _ _ _ Hc) by (done || lia).
  rewrite Hmsg. destruct s as [sb]. cbn [signature_bytes] in *. f_equal.
  rewrite <-(IH ks (x ++ sb) z (c ++ to_bytes k) d Hmsg); [|by rewrite Hx, <-!app_assoc|by rewrite Hc, <-!app_assoc|done|lia].
  rewrite !length_app, Hs, Hk. f_equal; lia.
Qed.

Lemma signatures_typed : Forall typed (signatures t).
Proof. apply Htyped. Qed.

(** With the offsets of the transaction, the loop is the verification of its signatures. *)
Lemma verify_transaction :
  (n <= length keys)%nat -> exists msg, VersionedMessage.serialize (tx_message t) = Some msg /\
  verify_loop p msg_offset n (sig_start transaction_offsets) keys_offset = forallb id (verify_results t msg).
Proof.
  intros Hle. destruct (transaction_layout _ _ Hput) as (msg & Hm & Hn & Hb). exists msg. split; [done|].
  destruct bytes_split as (ixs & tail & _ & _ & _ & _ & Hb2).
  assert (keys_offset = Z.of_nat (length ((ShortU16_serialize (Z.of_nat n) ++ all_signatures t ++
    prefix_bytes (tx_message t)) ++ header_bytes h ++ ShortU16_serialize (Z.of_nat (length keys))))) as ->.
  { unfold keys_offset. rewrite header_offset_length, !length_app. cbn [length header_bytes]. lia. }
  cbn [sig_start transaction_offsets]. unfold verify_results. eapply verify_loop_eq.
  - apply (data_from_app _ _ Hdata (ShortU16_serialize (Z.of_nat n) ++ all_signatures t)); [by rewrite <-app_assoc|].
    unfold msg_offset. rewrite length_app, (length_all_signatures t Htyped). lia.
  - exact Hb.
  - rewrite Hb2 at 1. by rewrite <-!app_assoc.
  - apply signatures_typed.
  - done.
Qed.
End offsets.

(** ** Flags *)
Lemma discard_vote_flag p : Packet.discard (Packet.set_flag p SIMPLE_VOTE_TX true) = Packet.discard p.
Proof.
  unfold Packet.discard, Packet.set_flag, flags_contain. cbn [flags meta flags_set]. f_equal.
  apply Z.bits_inj'. intros i Hi. rewrite !Z.land_spec, Z.lor_spec. unfold SIMPLE_VOTE_TX, DISCARD.
  destruct (decide (i = 0)) as [->|]; [by rewrite orb_false_r|].
  assert (Z.testbit 1 i = false) as -> by (change 1 with (Z.ones 1); apply Z.ones_spec_high; lia).
  by rewrite !andb_false_r.
Qed.

Lemma data_vote_flag p : Packet.data (Packet.set_flag p SIMPLE_VOTE_TX true) = Packet.data p.
Proof. unfold Packet.data. by rewrite discard_vote_flag. Qed.

Lemma vote_flag_set p : Packet.is_simple_vote_tx (Packet.set_flag p SIMPLE_VOTE_TX true) = true.
Proof.
  unfold Packet.is_simple_vote_tx, Packet.set_flag, flags_contain. cbn [flags meta flags_set].
  rewrite Z.land_comm, Z.land_lor_distr_r, Z.land_diag, Z.lor_comm. apply Z.eqb_eq.
  apply Z.bits_inj'. intros i Hi. rewrite Z.lor_spec, Z.land_spec. by destruct (Z.testbit SIMPLE_VOTE_TX i).
Qed.

Lemma verify_loop_data `{Ed25519} p p' off k : forall a b,
  Packet.data p' = Packet.data p -> verify_loop p' off k a b = verify_loop p off k a b.
Proof.
  induction k as [|k IH]; intros a b Hd; [done|]. cbn [verify_loop]. unfold Packet.data_range, Packet.data_from.
  rewrite Hd. destruct (checked_add a _) as [e|]; [|done]. by rewrite IH.
Qed.
