(* ===== verification/SigverifySafety.v ===== *)
(** * What the verification of packets promises

    The signatures of a packet are verified from offsets in its bytes.  On packets that
    deserialize to a transaction, this agrees with the verification of the transaction; and
    compaction of batches loses no packet. *)

From Stdlib Require Import Strings.Byte.
From S2P Require Import Prelude Sdk Nonce Message MessageProcessor ShortVec WireFormat Sigverify SigverifyFacts Fixtures.

(** ** A packet and its transaction *)
Lemma deserialize_slice_ok {BC : Bincode} {BS : BincodeSpec BC} (p : Packet) (t : VersionedTransaction) :
  Packet.deserialize_slice p = Ok t ->
  exists bytes, Packet.data p = Some bytes /\ (length bytes <= PACKET_DATA_SIZE)%nat /\ typed t /\ put t = Some bytes.
Proof.
  unfold Packet.deserialize_slice. intros Hd. apply result_bind_ok in Hd as (bytes & Hb & Hd).
  apply ok_or_ok in Hb. destruct (Nat.leb_spec (length bytes) PACKET_DATA_SIZE); [|done].
  apply deserialize_exact_iff in Hd as [Ht Hp]. by exists bytes.
Qed.

(** The counts of a transaction agree, and its fee payer is writable. *)
Definition counts_ok (t : VersionedTransaction) : bool :=
  let h := VersionedMessage.header (tx_message t) in
  negb (num_required_signatures h <=? num_readonly_signed_accounts h)%nat
  && (num_required_signatures h =? length (signatures t))%nat
  && negb (length (VersionedMessage.static_account_keys (tx_message t)) <? length (signatures t))%nat.

Section packet.
Context {BC : Bincode} {BS : BincodeSpec BC} `{Ed25519}.
Variables (p : Packet) (bytes : list byte) (t : VersionedTransaction).
Hypothesis Hdata : Packet.data p = Some bytes.
Hypothesis Hlen : (length bytes <= PACKET_DATA_SIZE)%nat.
Hypothesis Htyped : typed t.
Hypothesis Hput : put t = Some bytes.

Lemma counts_offsets :
  counts_ok t = true -> do_get_packet_offsets p 0 = Ok (transaction_offsets t) /\
    0 < sig_len (transaction_offsets t) /\ msg_start (transaction_offsets t) < size (meta p).
Proof.
  unfold counts_ok. intros [ [Hro Hn]%andb_true_iff Hk]%andb_true_iff.
  rewrite (offsets_eq p bytes t Hdata Hlen Htyped Hput). rewrite Hro, Hn, Hk.
  apply negb_true_iff, Nat.leb_gt in Hro. apply Nat.eqb_eq in Hn. apply negb_true_iff, Nat.ltb_ge in Hk.
  destruct (offsets_fit p bytes t Hdata Hlen Htyped Hput) as (Hm & Hh & Hf & Hs).
  pose proof (length_short (Z.of_nat (length (signatures t))) ltac:(unfold U16_MAX; lia)) as Hls.
  unfold SIZE_OF_SIGNATURE. rewrite checked_add_ok, at_most_ok by (unfold U64_MAX; lia).
  cbn [ok_or ensure mbind result_bind]. unfold shift_offsets. cbn [sig_start msg_start pubkey_start sig_len pubkey_len transaction_offsets].
  rewrite !checked_add_ok by (unfold U64_MAX, msg_offset in *; lia). cbn [ok_or mbind result_bind].
  assert (forall z, z <= 1232 -> u32_try_from z = Ok z) as Hu.
  { intros z Hz. unfold u32_try_from, U32_MAX. destruct (Z.leb_spec z (2 ^ 32 - 1)); [done|lia]. }
  rewrite !Hu by (unfold msg_offset in *; lia). cbn [mbind result_bind]. rewrite !Z.add_0_l. split_and!; (done || lia).
Qed.

Lemma counts_bad o : counts_ok t = false -> do_get_packet_offsets p 0 <> Ok o.
Proof.
  unfold counts_ok. rewrite (offsets_eq p bytes t Hdata Hlen Htyped Hput). intros Hc.
  destruct (ok_or _ _) as [v|e|]; [|done..]. cbn [mbind result_bind].
  destruct (negb (_ <=? _)%nat); [|done]. destruct (_ =? _)%nat; [|done]. cbn [andb ensure mbind result_bind] in *.
  by rewrite Hc.
Qed.

(** The packet that verification leaves, and its verdict. *)
Lemma verify_packet_eq reject_non_vote :
  exists msg, VersionedMessage.serialize (tx_message t) = Some msg /\
  let p' := if counts_ok t && is_simple_vote t then Packet.set_flag p SIMPLE_VOTE_TX true else p in
  verify_packet p reject_non_vote =
    (p', counts_ok t && (negb reject_non_vote || Packet.is_simple_vote_tx p') && forallb id (verify_results t msg)).
Proof.
  destruct (transaction_layout _ _ Hput) as (msg & Hmsg & _ & _). exists msg. split; [done|].
  unfold verify_packet, get_packet_offsets. rewrite (proj2 (data_size _ _ Hdata)).
  destruct (counts_ok t) eqn:Hc.
  - destruct (counts_offsets Hc) as (-> & Hpos & Hsz).
    rewrite (simple_vote_checked p bytes t Hdata Hlen Htyped Hput). cbn [andb].
    set (p' := if is_simple_vote t then _ else p).
    assert (Packet.data p' = Packet.data p /\ size (meta p') = size (meta p)) as [Hd' Hs']
      by (unfold p'; destruct (is_simple_vote t); [split; [apply data_vote_flag|]|]; done).
    destruct (negb reject_non_vote || _); [|done]. rewrite Hs'.
    destruct (Z.eqb_spec (sig_len (transaction_offsets t)) 0); [lia|].
    destruct (Z.leb_spec (size (meta p)) (msg_start (transaction_offsets t))); [lia|]. f_equal.
    rewrite (verify_loop_data p) by done. cbn [sig_len msg_start pubkey_start transaction_offsets].
    rewrite Nat2Z.id. unfold counts_ok in Hc. apply andb_true_iff in Hc as [_ Hk%negb_true_iff%Nat.ltb_ge].
    destruct (verify_transaction p bytes t Hdata Hlen Htyped Hput Hk) as (msg' & Hmsg' & ->).
    assert (msg' = msg) as -> by congruence. done.
  - pose proof (fun o => counts_bad o Hc) as Hbad. by destruct (do_get_packet_offsets p 0); [by edestruct Hbad| |].
Qed.
End packet.

Lemma counts_sanitized t :
  counts_ok t = true <-> sanitize_signatures t = Ok tt /\
    (num_readonly_signed_accounts (VersionedMessage.header (tx_message t)) <
     num_required_signatures (VersionedMessage.header (tx_message t)))%nat.
Proof.
  unfold counts_ok, sanitize_signatures. rewrite !andb_true_iff, !negb_true_iff, Nat.eqb_eq, Nat.leb_gt, Nat.ltb_ge.
  set (a := num_required_signatures _). set (r := num_readonly_signed_accounts _).
  destruct (Nat.leb_spec a (length (signatures t))), (Nat.leb_spec (length (signatures t)) a),
    (Nat.ltb_spec (length (VersionedMessage.static_account_keys (tx_message t))) (length (signatures t)));
    cbn; intuition (try lia; try done).
Qed.

Lemma all_true l : forallb id l = true <-> Forall (eq true) l.
Proof.
  induction l as [|b l IH]; cbn [forallb]; [done|]. rewrite andb_true_iff, Forall_cons_iff, IH. unfold id. naive_solver.
Qed.

(** Reading the offsets sets at most the flag of votes. *)
Lemma offsets_same p r cur :
  (get_packet_offsets p cur r).1 = p \/ (get_packet_offsets p cur r).1 = Packet.set_flag p SIMPLE_VOTE_TX true.
Proof.
  unfold get_packet_offsets. destruct (do_get_packet_offsets p cur) as [o|e|]; [|by left..]. cbn [fst].
  destruct (check_for_simple_vote_transaction p o cur) as [q|e|] eqn:Hc; [|by left..].
  unfold check_for_simple_vote_transaction in Hc.
  repeat (apply result_bind_ok in Hc as (? & _ & Hc)). case_match. repeat (apply result_bind_ok in Hc as (? & _ & Hc)).
  injection Hc as <-. case_bool_decide; [by right|by left].
Qed.

(** So does verification. *)
Lemma verify_packet_same `{Ed25519} p r :
  (verify_packet p r).1 = p \/ (verify_packet p r).1 = Packet.set_flag p SIMPLE_VOTE_TX true.
Proof.
  pose proof (offsets_same p r 0) as Hg. unfold verify_packet. destruct (Packet.discard p); [by left|].
  destruct (get_packet_offsets p 0 r) as [q o]. destruct (sig_len o =? 0); [done|]. by destruct (_ <=? _).
Qed.

Lemma discard_set p : Packet.discard (Packet.set_discard p true) = true.
Proof.
  unfold Packet.discard, Packet.set_discard, Packet.set_flag, flags_contain. cbn [flags meta flags_set].
  rewrite Z.land_comm, Z.land_lor_distr_r, Z.land_diag, Z.lor_comm. apply Z.eqb_eq.
  apply Z.bits_inj'. intros i Hi. rewrite Z.lor_spec, Z.land_spec. by destruct (Z.testbit DISCARD i).
Qed.

(** A packet that is kept was verified, and reads the same as before. *)
Lemma kept_verified `{Ed25519} r q :
  Packet.discard (verify_or_discard r q) = false ->
  (verify_packet q r).2 = true /\ Packet.data (verify_or_discard r q) = Packet.data q.
Proof.
  unfold verify_or_discard. destruct (Packet.discard q) eqn:Hq; [congruence|].
  pose proof (verify_packet_same q r) as Hsame. destruct (verify_packet q r) as [q' [|]]; cbn [fst snd] in *.
  - intros _. split; [done|]. destruct Hsame as [->| ->]; [done|apply data_vote_flag].
  - by rewrite discard_set.
Qed.

Lemma zip_all_true {A B} (f : A -> B -> bool) l k i a b :
  forallb id (zip_with f l k) = true -> l !! i = Some a -> k !! i = Some b -> f a b = true.
Proof.
  intros Hall%all_true Ha Hb. rewrite Forall_lookup in Hall. symmetry. apply (Hall i).
  by rewrite lookup_zip_with, Ha, Hb.
Qed.

Section theorems.
Context {BC : Bincode} {BS : BincodeSpec BC} `{Ed25519}.

(** C18: On a packet that deserializes to a transaction, the verification that reads
    offsets out of the bytes accepts exactly the transactions whose counts of signatures
    pass the check of the deserialized transaction, whose fee payer is writable, whose
    signatures all verify and which are simple votes where only votes are taken. *)
Theorem packet_verification_agrees (p : Packet) (t : VersionedTransaction) (reject_non_vote : bool)
    (Hread : Packet.deserialize_slice p = Ok t) :
  (verify_packet p reject_non_vote).2 = true <->
  sanitize_signatures t = Ok tt /\
  (num_readonly_signed_accounts (VersionedMessage.header (tx_message t)) <
   num_required_signatures (VersionedMessage.header (tx_message t)))%nat /\
  (reject_non_vote = false \/ Packet.is_simple_vote_tx p = true \/ is_simple_vote t = true) /\
  exists results, verify_with_results (E := TransactionError) t = Ok results /\ Forall (eq true) results.
Proof.
  destruct (deserialize_slice_ok _ _ Hread) as (bytes & Hd & Hl & Ht & Hp).
  destruct (verify_packet_eq p bytes t Hd Hl Ht Hp reject_non_vote) as (msg & Hm & ->). cbn [snd].
  unfold verify_with_results. rewrite Hm. cbn [unwrap mbind result_bind].
  assert (forallb id (verify_results t msg) = true <->
    exists results, @Ok TransactionError _ (verify_results t msg) = Ok results /\ Forall (eq true) results) as <-.
  { rewrite all_true. split; [eauto|by intros (l & [= <-] & ?)]. }
  rewrite !andb_true_iff, orb_true_iff, negb_true_iff.
  destruct (counts_ok t) eqn:Hc.
  - apply counts_sanitized in Hc as [-> Hlt]. destruct (is_simple_vote t); cbn [andb]; rewrite ?vote_flag_set; naive_solver.
  - split; [intros [ [? _] _]; done|]. intros (Hs & Hlt & _). pose proof (proj2 (counts_sanitized t) (conj Hs Hlt)). congruence.
Qed.

(** C17: Every signer of a transaction in a packet that survives the verification of the
    batches on the processor has signed: the signature at its position is there, its key
    is there, and the signature verifies with this key on the serialized message,
    although verification never deserialized the packet. *)
Theorem surviving_packets_signed (batches : list (list Packet)) (reject_non_vote : bool) (b : list Packet)
    (p : Packet) (t : VersionedTransaction) (i : nat)
    (Hb : b ∈ ed25519_verify_cpu batches reject_non_vote) (Hp : p ∈ b) (Hkept : Packet.discard p = false)
    (Hread : Packet.deserialize_slice p = Ok t) (Hsigner : VersionedMessage.is_signer (tx_message t) i = true) :
  exists signature pubkey message, signatures t !! i = Some signature /\
    VersionedMessage.static_account_keys (tx_message t) !! i = Some pubkey /\
    VersionedMessage.serialize (tx_message t) = Some message /\
    verify signature (to_bytes pubkey) message = true.
Proof.
  unfold ed25519_verify_cpu in Hb. apply list_elem_of_fmap in Hb as (b0 & -> & _).
  apply list_elem_of_fmap in Hp as (q & -> & _). destruct (kept_verified _ _ Hkept) as [Hv Hd].
  destruct (deserialize_slice_ok _ _ Hread) as (bytes & Hdata & Hl & Ht & Hput). rewrite Hd in Hdata.
  destruct (verify_packet_eq q bytes t Hdata Hl Ht Hput reject_non_vote) as (msg & Hm & E). rewrite E in Hv. cbn [snd] in Hv.
  apply andb_true_iff in Hv as [ [Hc _]%andb_true_iff Hall]. unfold counts_ok in Hc.
  apply andb_true_iff in Hc as [ [_ Hn%Nat.eqb_eq]%andb_true_iff Hk%negb_true_iff%Nat.ltb_ge].
  unfold VersionedMessage.is_signer in Hsigner. apply Nat.ltb_lt in Hsigner.
  destruct (lookup_lt_is_Some_2 (signatures t) i) as [s Hs]; [lia|].
  destruct (lookup_lt_is_Some_2 (VersionedMessage.static_account_keys (tx_message t)) i) as [k Hki]; [lia|].
  exists s, k, msg. split_and!; try done. exact (zip_all_true _ _ _ _ _ _ Hall Hs Hki).
Qed.
End theorems.

(** ** An example *)

(** A signature that is its key followed by the start of the message. *)
Definition sx_ed25519 : Ed25519 :=
  {| verify_strict signature pubkey message := bool_decide (signature = pubkey ++ take 32 message) |}.
#[local] Existing Instance sx_ed25519.
#[local] Existing Instance plain_bincode.
#[local] Existing Instance plain_bincode_spec.

Definition sx_payer : Pubkey := pubkey_of_Z 701.
Definition sx_message : VersionedMessage :=
  VersionedLegacy (Legacy.mkMessage (mkHeader 1 0 1) [sx_payer; vote_program_id] (pubkey_of_Z 702)
    [mkCompiled 1 [0%nat] [x02; x00]]).
Definition sx_bytes : list byte := default [] (VersionedMessage.serialize sx_message).
Definition sx_tx : VersionedTransaction :=
  mkVersionedTransaction [mkSignature (to_bytes sx_payer ++ take 32 sx_bytes)] sx_message.
Definition sx_empty : Packet := mkPacket (replicate PACKET_DATA_SIZE x00) (mkMeta 0 0).
Definition sx_packet : Packet := default sx_empty (Packet.populate_packet sx_empty sx_tx).

(** The same transaction with another signature. *)
Definition sx_forged_tx : VersionedTransaction :=
  mkVersionedTransaction [mkSignature (replicate 64 x00)] sx_message.
Definition sx_forged : Packet := default sx_empty (Packet.populate_packet sx_empty sx_forged_tx).

Lemma packet_verification_agrees_witness :
  (verify_packet sx_packet true).2 = true /\ (verify_packet sx_forged false).2 <> true.
Proof.
  assert (Packet.deserialize_slice sx_packet = Ok sx_tx) as Hgood by (vm_compute; reflexivity).
  assert (Packet.deserialize_slice sx_forged = Ok sx_forged_tx) as Hforged by (vm_compute; reflexivity).
  split.
  - apply (packet_verification_agrees sx_packet sx_tx true Hgood). split_and!; [vm_compute; reflexivity|cbn; lia| |].
    + right. right. vm_compute. reflexivity.
    + exists [true]. split; [vm_compute; reflexivity|]. by repeat constructor.
  - intros Hv. apply (packet_verification_agrees sx_forged sx_forged_tx false Hforged) in Hv as (_ & _ & _ & l & Hl & Hall).
    assert (l = [false]) as -> by (vm_compute in Hl; by injection Hl as <-). by inversion Hall.
Defined.

Definition sx_kept : Packet := verify_or_discard false sx_packet.

Lemma surviving_packets_signed_witness :
  exists signature pubkey message, signatures sx_tx !! 0%nat = Some signature /\
    VersionedMessage.static_account_keys (tx_message sx_tx) !! 0%nat = Some pubkey /\
    VersionedMessage.serialize (tx_message sx_tx) = Some message /\
    verify signature (to_bytes pubkey) message = true.
Proof.
  apply (surviving_packets_signed [[sx_forged; sx_packet]] false [verify_or_discard false sx_forged; sx_kept] sx_kept sx_tx 0).
  - left.
  - right. left.
  - vm_compute. reflexivity.
  - vm_compute. reflexivity.
  - reflexivity.
Defined.
