(* ===== verification/BatchSafety.v ===== *)
(** * Batches of packets

    Compacting batches keeps the packets that are not discarded, in as few batches as their
    sizes allow; and a packet that was seen is discarded when it comes again. *)

From Stdlib Require Import Strings.Byte.
From S2P Require Import Prelude Sdk ShortVec WireFormat Sigverify SigverifySafety.

(** ** Compaction *)
Definition valid (p : Packet) : bool := negb (Packet.discard p).
Definition valid_packets (l : list (list Packet)) : list Packet := List.filter valid (concat l).
Definition one_valid (p : Packet) : list Packet := if valid p then [p] else [].

Lemma filter_cons_valid p l : List.filter valid (p :: l) = one_valid p ++ List.filter valid l.
Proof. unfold one_valid. cbn [List.filter]. by destruct (valid p). Qed.

Lemma filter_set l : forall j x y, l !! j = Some x ->
  List.filter valid (<[j := y]> l) ++ one_valid x ≡ₚ one_valid y ++ List.filter valid l.
Proof.
  induction l as [|z l IH]; intros [|j] x y Hx; [done..| |].
  - injection Hx as ->. cbn [insert list_insert]. rewrite !filter_cons_valid. rewrite <-app_assoc.
    by rewrite (Permutation_app_comm (List.filter valid l) (one_valid x)).
  - cbn [insert list_insert lookup] in *. rewrite !filter_cons_valid, <-app_assoc. rewrite IH by done.
    by rewrite Permutation_app_swap_app.
Qed.

Lemma valid_set l : forall i j x y, packet_at l i j = Some x ->
  valid_packets (set_packet l i j y) ++ one_valid x ≡ₚ one_valid y ++ valid_packets l.
Proof.
  unfold valid_packets, packet_at, set_packet. induction l as [|b l IH]; intros [|i] j x y Hx; [done..| |].
  - cbn in Hx |- *. rewrite !List.filter_app, <-app_assoc, (Permutation_app_comm _ (one_valid x)).
    rewrite app_assoc, filter_set by done. by rewrite <-app_assoc.
  - cbn [alter list_alter concat lookup list_lookup mbind option_bind] in *. rewrite !List.filter_app, <-app_assoc.
    rewrite IH by done. by rewrite Permutation_app_swap_app.
Qed.

Lemma packet_at_set l i j y i' j' :
  packet_at (set_packet l i j y) i' j' =
    if decide (i' = i /\ j' = j) then (fun _ => y) <$> packet_at l i j else packet_at l i' j'.
Proof.
  unfold packet_at, set_packet. destruct (decide (i' = i)) as [->|Hi].
  - rewrite list_lookup_alter_eq. destruct (l !! i) as [b|]; cbn; [|by destruct (decide _)].
    destruct (decide (j' = j)) as [->|Hj].
    + rewrite decide_True by done. rewrite list_lookup_insert. destruct (decide _) as [[_ Hlt]|Hn].
      * by destruct (lookup_lt_is_Some_2 b j Hlt) as [z ->].
      * destruct (b !! j) eqn:E; [|done]. destruct Hn. split; [done|by eapply lookup_lt_Some].
    + rewrite decide_False by naive_solver. by rewrite list_lookup_insert_ne.
  - rewrite decide_False by naive_solver. by rewrite list_lookup_alter_ne.
Qed.

Lemma lengths_set l i j y : map length (set_packet l i j y) = map length l.
Proof.
  unfold set_packet. revert i. induction l as [|b l IH]; intros [|i]; [done..| |]; cbn.
  - by rewrite length_insert.
  - f_equal. apply IH.
Qed.

Lemma next_discarded_spec fuel b : forall ix, (length b <= fuel + ix)%nat ->
  let r := next_discarded fuel b ix in
  (ix <= r)%nat /\ (forall j p, (ix <= j < r)%nat -> b !! j = Some p -> valid p = true) /\
  ((r < length b)%nat -> exists p, b !! r = Some p /\ Packet.discard p = true).
Proof.
  induction fuel as [|fuel IH]; intros ix Hf; cbn [next_discarded].
  - split_and!; [done|lia|lia].
  - destruct (b !! ix) as [p|] eqn:Hp.
    + destruct (Packet.discard p) eqn:Hd; [split_and!; [done|lia|eauto]|].
      destruct (IH (S ix) ltac:(lia)) as (Hle & Hv & Hr). split_and!; [lia| |done].
      intros j q Hj Hq. destruct (decide (j = ix)) as [->|]; [|apply (Hv j); [lia|done]].
      rewrite Hp in Hq. injection Hq as <-. unfold valid. by rewrite Hd.
    + apply lookup_ge_None in Hp. split_and!; [done|lia|lia].
Qed.

(** Positions in order. *)
Definition before (i j i' j' : nat) : Prop := (i < i')%nat \/ (i = i' /\ (j < j')%nat).

(** While the packet at [(bi, pj)] is handled: nothing is lost, everything before the next spot
    is valid, and no packet handled so far is valid in a later batch than that of the spot. *)
Record shrinking (l : list (list Packet)) (bi pj : nat) (st : Shrink) : Prop := {
  sh_shape : map length (batches st) = map length l;
  sh_valid : valid_packets (batches st) ≡ₚ valid_packets l;
  sh_spot : (valid_batch_ix st <= bi)%nat;
  sh_full i j p : before i j (valid_batch_ix st) (valid_packet_ix st) -> packet_at (batches st) i j = Some p -> valid p = true;
  sh_done i j p : before i j bi pj -> packet_at (batches st) i j = Some p -> valid p = true -> (i <= valid_batch_ix st)%nat
}.

(** The last batch is the one of the spot, and has a valid packet. *)
Definition last_ok (bi pj : nat) (st : Shrink) : Prop :=
  (last_valid_batch st = 0%nat /\
   forall i j p, before i j bi pj -> packet_at (batches st) i j = Some p -> valid p = false) \/
  (last_valid_batch st = S (valid_batch_ix st) /\
   exists j p, packet_at (batches st) (valid_batch_ix st) j = Some p /\ valid p = true).

Lemma packet_at_default l i j p : packet_at l i j = Some p -> default [] (l !! i) !! j = Some p.
Proof. unfold packet_at. by destruct (l !! i). Qed.

Lemma default_packet_at l i j p : default [] (l !! i) !! j = Some p -> packet_at l i j = Some p.
Proof. unfold packet_at. by destruct (l !! i). Qed.

(** A packet moves to an earlier spot. *)
Lemma move_packet l bi pj st vp p q :
  shrinking l bi pj st -> (valid_batch_ix st < bi)%nat ->
  packet_at (batches st) bi pj = Some p -> valid p = true ->
  packet_at (batches st) (valid_batch_ix st) vp = Some q -> Packet.discard q = true ->
  (forall j r, (valid_packet_ix st <= j < vp)%nat -> packet_at (batches st) (valid_batch_ix st) j = Some r -> valid r = true) ->
  let st' := mkShrink (set_packet (set_packet (batches st) (valid_batch_ix st) vp p) bi pj (Packet.set_discard p true))
               (valid_batch_ix st) vp (valid_batch_ix st + 1) in
  shrinking l bi (S pj) st' /\ last_ok bi (S pj) st'.
Proof.
  intros [Hsh Hv Hsp Hfull Hdone] Hlt Hp Hvp Hq Hd Hnew st'.
  assert (packet_at (set_packet (batches st) (valid_batch_ix st) vp p) bi pj = Some p) as Hp'
    by (rewrite packet_at_set, decide_False by lia; done).
  assert (valid (Packet.set_discard p true) = false) as Hgone by (unfold valid; by rewrite discard_set).
  assert (forall i j, packet_at (batches st') i j =
    if decide (i = bi /\ j = pj) then Some (Packet.set_discard p true)
    else if decide (i = valid_batch_ix st /\ j = vp) then Some p else packet_at (batches st) i j) as Hat.
  { intros i j. unfold st'. cbn [batches]. rewrite packet_at_set, Hp'. case_decide; [done|]. rewrite packet_at_set, Hq. done. }
  split; [split|]; unfold st'; cbn [batches valid_batch_ix valid_packet_ix last_valid_batch].
  - by rewrite !lengths_set.
  - pose proof (valid_set _ _ _ _ (Packet.set_discard p true) Hp') as H1.
    pose proof (valid_set _ _ _ _ p Hq) as H2. unfold one_valid, valid in *. rewrite Hd in H2. cbn [negb] in H2.
    rewrite Hgone in H1. rewrite Hvp in H1, H2. rewrite app_nil_r in H2. cbn [app] in H1, H2.
    rewrite H2 in H1. rewrite <-Hv. rewrite Permutation_app_comm in H1. by apply Permutation_cons_inv in H1.
  - done.
  - intros i j r Hb Hr. fold (batches st') in Hr. change (packet_at (batches st') i j = Some r) in Hr. rewrite Hat in Hr.
    destruct Hb as [Hb|[-> Hb]].
    + rewrite !decide_False in Hr by lia. apply (Hfull i j); [by left|done].
    + rewrite !decide_False in Hr by lia. destruct (Nat.lt_ge_cases j (valid_packet_ix st)).
      * apply (Hfull (valid_batch_ix st) j); [by right|done].
      * by apply (Hnew j).
  - intros i j r Hb Hr Hvr. change (packet_at (batches st') i j = Some r) in Hr. rewrite Hat in Hr.
    case_decide as H1; [injection Hr as <-; congruence|]. case_decide as H2; [lia|].
    apply (Hdone i j r); [|done..]. unfold before in *. lia.
  - right. split; [cbn; lia|]. exists vp, p. split; [|done]. change (packet_at (batches st') (valid_batch_ix st) vp = Some p).
    rewrite Hat, decide_False, decide_True by lia. done.
Qed.

Lemma find_spot_ok l bi pj p : forall fuel st,
  (bi - valid_batch_ix st < fuel)%nat -> shrinking l bi pj st ->
  packet_at (batches st) bi pj = Some p -> valid p = true -> last_valid_batch st = S bi ->
  shrinking l bi (S pj) (find_spot fuel st bi pj p) /\ last_ok bi (S pj) (find_spot fuel st bi pj p).
Proof.
  induction fuel as [|fuel IH]; intros st Hf Hst Hp Hv Hl; [lia|]. cbn [find_spot].
  pose proof Hst as [Hsh Hval Hsp Hfull Hdone].
  destruct (Nat.ltb_spec (valid_batch_ix st) bi) as [Hlt|Hge].
  - set (b := default [] (batches st !! valid_batch_ix st)).
    destruct (next_discarded_spec (length b) b (valid_packet_ix st) ltac:(lia)) as (Hle & Hnew & Hr).
    set (vp := next_discarded (length b) b (valid_packet_ix st)) in *.
    destruct (Nat.ltb_spec vp (length b)) as [Hvp|Hvp].
    + destruct (Hr Hvp) as (q & Hq & Hd). apply (move_packet l bi pj st vp p q); try done.
      * by apply default_packet_at.
      * intros j r Hj Hjr. apply (Hnew j); [done|]. by apply packet_at_default.
    + apply IH; cbn [valid_batch_ix batches last_valid_batch]; try done; [lia|]. split; cbn [valid_batch_ix valid_packet_ix batches]; try done.
      * lia.
      * intros i j r [Hb|[_ Hb]] Hr'; [|lia]. destruct (decide (i = valid_batch_ix st)) as [->|]; [|apply (Hfull i j); [left; lia|done]].
        apply packet_at_default in Hr'. fold b in Hr'. pose proof (lookup_lt_Some _ _ _ Hr').
        destruct (Nat.lt_ge_cases j (valid_packet_ix st)); [|apply (Hnew j); [lia|done]].
        apply (Hfull (valid_batch_ix st) j); [by right|]. by apply default_packet_at.
      * intros i j r Hb Hr' Hvr. specialize (Hdone i j r Hb Hr' Hvr). lia.
  - assert (valid_batch_ix st = bi) as Hvb by lia. split.
    + split; try done. intros i j r Hb Hr Hvr. unfold before in *. destruct (Nat.lt_ge_cases i bi); lia.
    + right. rewrite Hl, Hvb. split; [done|]. exists pj, p. done.
Qed.

Definition shrink_inv (l : list (list Packet)) (bi pj : nat) (st : Shrink) : Prop :=
  shrinking l bi pj st /\ last_ok bi pj st.

(** Moving on over positions that hold no valid packet. *)
Lemma shrink_inv_skip l bi pj bi' pj' st :
  shrink_inv l bi pj st -> (bi <= bi')%nat ->
  (forall i j p, before i j bi' pj' -> packet_at (batches st) i j = Some p -> before i j bi pj \/ valid p = false) ->
  shrink_inv l bi' pj' st.
Proof.
  intros [[Hsh Hv Hsp Hfull Hdone] Hl] Hle Hskip. split; [split; try done; [lia|]|].
  - intros i j p Hb Hp Hvp. destruct (Hskip i j p Hb Hp) as [Hb'|]; [by apply (Hdone i j p)|congruence].
  - destruct Hl as [[Hl Hnone]|Hl]; [left|by right]. split; [done|]. intros i j p Hb Hp.
    destruct (Hskip i j p Hb Hp) as [Hb'|]; [by apply (Hnone i j)|done].
Qed.

Lemma shrink_packet_inv l bi pj st : shrink_inv l bi pj st -> shrink_inv l bi (S pj) (shrink_packet st bi pj).
Proof.
  intros Hinv. unfold shrink_packet. destruct (packet_at (batches st) bi pj) as [p|] eqn:Hp.
  - destruct (Packet.discard p) eqn:Hd.
    + apply (shrink_inv_skip l bi pj); [done..|]. intros i j q Hb Hq. destruct (decide (i = bi /\ j = pj)) as [[-> ->]|].
      * right. unfold valid. rewrite Hp in Hq. injection Hq as <-. by rewrite Hd.
      * left. unfold before in *. lia.
    + destruct Hinv as [[Hsh Hv Hsp Hfull Hdone] _]. apply find_spot_ok; cbn [valid_batch_ix batches last_valid_batch]; try done.
      * lia.
      * unfold valid. by rewrite Hd.
      * lia.
  - apply (shrink_inv_skip l bi pj); [done..|]. intros i j q Hb Hq. left. unfold before in *.
    destruct (decide (i = bi /\ j = pj)) as [[-> ->]|]; [congruence|lia].
Qed.

Lemma same_lengths (l l' : list (list Packet)) i : map length l' = map length l -> batch_len l' i = batch_len l i.
Proof.
  unfold batch_len. revert l' i. induction l as [|b l IH]; intros [|b' l'] [|i] E; try done; cbn in *; injection E as E1 E2; [done|].
  by apply IH.
Qed.

Lemma shrink_batch_inv l bi st : shrink_inv l bi 0 st -> shrink_inv l (S bi) 0 (shrink_batch st bi).
Proof.
  intros Hinv. unfold shrink_batch.
  assert (forall n k st, shrink_inv l bi k st ->
    shrink_inv l bi (k + n) (foldl (fun st j => shrink_packet st bi j) st (seq k n))) as Hloop.
  { induction n as [|n IH]; intros k st1 H1; cbn [seq foldl]; [by rewrite Nat.add_0_r|].
    rewrite Nat.add_succ_r. apply (IH (S k)). by apply shrink_packet_inv. }
  specialize (Hloop (batch_len (batches st) bi) 0%nat st Hinv). cbn [Nat.add] in Hloop.
  set (st' := foldl _ _ _) in *.
  assert (batch_len (batches st') bi = batch_len (batches st) bi) as Hlen.
  { transitivity (batch_len l bi); [|symmetry]; apply same_lengths; [apply Hloop|apply Hinv]. }
  apply (shrink_inv_skip l bi (batch_len (batches st) bi)); [done|lia|]. intros i j p Hb Hp. left.
  destruct (decide (i = bi)) as [->|]; [|unfold before in *; lia]. right. split; [done|].
  rewrite <-Hlen. unfold batch_len. eapply lookup_lt_Some. by apply packet_at_default.
Qed.

Lemma shrink_final l : shrink_inv l (length l) 0 (foldl shrink_batch (mkShrink l 0 0 0) (seq 0 (length l))).
Proof.
  assert (forall n k st, shrink_inv l k 0 st -> shrink_inv l (k + n) 0 (foldl shrink_batch st (seq k n))) as Hloop.
  { induction n as [|n IH]; intros k st H1; cbn [seq foldl]; [by rewrite Nat.add_0_r|].
    rewrite Nat.add_succ_r. apply (IH (S k)). by apply shrink_batch_inv. }
  apply (Hloop _ 0%nat). split; [split; cbn [batches valid_batch_ix valid_packet_ix]; try done|].
  - intros i j p [Hb|[_ Hb]]; lia.
  - intros i j p [Hb|[_ Hb]]; lia.
  - left. split; [done|]. intros i j p [Hb|[_ Hb]]; lia.
Qed.

Lemma none_valid_batch b : (forall j p, b !! j = Some p -> valid p = false) -> List.filter valid b = [].
Proof.
  induction b as [|p b IH]; intros Hn; [done|]. cbn [List.filter]. rewrite (Hn 0%nat p eq_refl).
  apply IH. intros j. apply (Hn (S j)).
Qed.

Lemma none_valid l : (forall i j p, packet_at l i j = Some p -> valid p = false) -> valid_packets l = [].
Proof.
  unfold valid_packets. induction l as [|b l IH]; intros Hn; [done|]. cbn [concat]. rewrite List.filter_app.
  rewrite none_valid_batch, IH; [done| |].
  - intros i. apply (Hn (S i)).
  - intros j p Hp. by apply (Hn 0%nat j).
Qed.

(** Batches without valid packets can be dropped. *)
Lemma valid_take n l :
  (forall i j p, packet_at l i j = Some p -> valid p = true -> (i < n)%nat) -> valid_packets (take n l) = valid_packets l.
Proof.
  intros Hn. rewrite <-(take_drop n l) at 2. unfold valid_packets. rewrite concat_app, List.filter_app.
  fold (valid_packets (drop n l)). rewrite none_valid, app_nil_r; [done|]. intros i j p Hp.
  unfold packet_at in Hp. rewrite lookup_drop in Hp. destruct (valid p) eqn:Hv; [|done].
  specialize (Hn (n + i)%nat j p Hp Hv). lia.
Qed.

(** Compaction of batches loses and invents no packet: the packets that are not
    discarded are the same up to order, every batch keeps its size, all batches but the
    last consist of packets that are not discarded, and the last one has one. *)
Theorem shrink_keeps_valid (l : list (list Packet)) :
  valid_packets (shrink_batches l) ≡ₚ valid_packets l /\
  map length (shrink_batches l) = take (length (shrink_batches l)) (map length l) /\
  forall i b, shrink_batches l !! i = Some b ->
    ((S i < length (shrink_batches l))%nat -> Forall (fun p => valid p = true) b) /\
    (S i = length (shrink_batches l) -> Exists (fun p => valid p = true) b).
Proof.
  unfold shrink_batches. destruct (shrink_final l) as [[Hsh Hv Hsp Hfull Hdone] Hlast]. set (st := foldl _ _ _) in *.
  assert (length (batches st) = length l) as Hlen by (apply (f_equal length) in Hsh; by rewrite !length_map in Hsh).
  assert (forall i j p, packet_at (batches st) i j = Some p -> before i j (length l) 0) as Hin.
  { intros i j p Hp. left. unfold packet_at in Hp. destruct (batches st !! i) eqn:E; [|done].
    apply lookup_lt_Some in E. lia. }
  split_and!.
  - rewrite <-Hv. rewrite valid_take; [done|]. intros i j p Hp Hvp.
    destruct Hlast as [[-> Hnone]|[-> _]]; [rewrite (Hnone i j p) in Hvp; eauto; done|].
    specialize (Hdone i j p (Hin _ _ _ Hp) Hp Hvp). lia.
  - rewrite <-Hsh, firstn_map, length_take. f_equal.
    destruct (Nat.le_ge_cases (last_valid_batch st) (length (batches st))); [by rewrite Nat.min_l|].
    by rewrite Nat.min_r, !take_ge by lia.
  - intros i b Hb. apply lookup_take_Some in Hb as [Hb Hlt]. rewrite length_take.
    assert (forall j p, b !! j = Some p -> packet_at (batches st) i j = Some p) as Hpa
      by (intros j p Hj; unfold packet_at; by rewrite Hb).
    destruct Hlast as [[Hl _]|[Hl (j & p & Hp & Hvp)]]; [lia|]. split; intros Hi.
    + apply Forall_lookup. intros j' q Hq. apply (Hfull i j'); [left; lia|by apply Hpa].
    + apply lookup_lt_Some in Hb as Hbl. pose proof (Hin _ _ _ Hp) as Hin'.
      assert (i = valid_batch_ix st) as -> by (unfold before in Hin'; lia).
      apply Exists_exists. exists p. split; [|done]. apply list_elem_of_In, list_elem_of_lookup. exists j.
      unfold packet_at in Hp. by rewrite Hb in Hp.
Qed.

(** ** Deduplication *)

(** The bits of a hash are set at its position. *)
Definition seen (d : Deduper) (data : list byte) : Prop :=
  let h := seeded_hash d data in
  exists prev, dedup_filter d !! Z.to_nat (h mod Z.of_nat (length (dedup_filter d))) = Some prev /\ Z.land prev h = h.

Lemma land_lor_keeps prev new h : Z.land prev h = h -> Z.land (Z.lor prev new) h = h.
Proof.
  intros Hp. apply Z.bits_inj'. intros i Hi. apply (f_equal (fun z => Z.testbit z i)) in Hp.
  rewrite Z.land_spec in *. rewrite Z.lor_spec. destruct (Z.testbit prev i), (Z.testbit new i), (Z.testbit h i); done.
Qed.

(** While no position is saturated, what was seen stays seen. *)
Lemma dedup_packet_seen d p d' p' r :
  Deduper.dedup_packet d p = Ok (d', p', r) -> saturated d' = false ->
  saturated d = false /\ seeded_hash d' = seeded_hash d /\ (forall data, seen d data -> seen d' data) /\
  (forall data, Packet.data p = Some data -> seen d' data /\ (seen d data -> Packet.discard p' = true)).
Proof.
  unfold Deduper.dedup_packet. intros Hd Hs. destruct (Packet.discard p) eqn:Hdis.
  { injection Hd as <- <- <-. split_and!; try done. unfold Packet.data. by rewrite Hdis. }
  apply result_bind_ok in Hd as ([h pos] & Hh & Hd). unfold Deduper.compute_hash in Hh.
  apply result_bind_ok in Hh as ([] & Hne & [= <- <-]). apply result_bind_ok in Hd as (prev & Hprev & Hd).
  set (h := seeded_hash d _) in *. set (pos := Z.to_nat _) in *.
  destruct (dedup_filter d !! pos) as [prev'|] eqn:Hpos; [|done]. injection Hprev as ->.
  destruct (prev =? U64_MAX); [destruct (_ =? _); injection Hd as <- <- <-; done|].
  set (d1 := mkDeduper _ _ _) in *. assert (d' = d1) as -> by (by destruct (_ =? _); injection Hd as <- <- <-).
  pose proof (lookup_lt_Some _ _ _ Hpos) as Hlt.
  assert (length (dedup_filter d1) = length (dedup_filter d)) as Hlen by apply length_insert.
  split_and!; [done|done| |].
  - intros data (q & Hq & Hb). unfold seen. rewrite Hlen. cbn [dedup_filter seeded_hash d1].
    destruct (decide (Z.to_nat (seeded_hash d data mod Z.of_nat (length (dedup_filter d))) = pos)) as [E|].
    + rewrite E in *. rewrite list_lookup_insert_eq by done. assert (q = prev) as -> by congruence.
      eexists. split; [done|]. by apply land_lor_keeps.
    + rewrite list_lookup_insert_ne by done. eauto.
  - intros data Hdata. assert (seeded_hash d data = h) as Hdh by (unfold h; by rewrite Hdata). unfold seen. rewrite Hlen.
    cbn [dedup_filter seeded_hash d1]. rewrite Hdh. fold pos. rewrite list_lookup_insert_eq by done. split.
    + eexists. split; [done|]. rewrite Z.lor_comm. apply land_lor_keeps. apply Z.land_diag.
    + intros (q & Hq & Hb). assert (q = prev) as -> by congruence. rewrite Hb, Z.eqb_refl in Hd.
      injection Hd as <- _. apply discard_set.
Qed.

Lemma dedup_packets_seen : forall packets d n d' out m,
  Deduper.dedup_packets d packets n = Ok (d', out, m) -> saturated d' = false ->
  saturated d = false /\ (forall data, seen d data -> seen d' data) /\
  forall i p data, packets !! i = Some p -> Packet.data p = Some data ->
    seen d' data /\
    ((seen d data \/ exists j p0, (j < i)%nat /\ packets !! j = Some p0 /\ Packet.data p0 = Some data) ->
     exists p', out !! i = Some p' /\ Packet.discard p' = true).
Proof.
  induction packets as [|p packets IH]; intros d n d' out m Hd Hs.
  { injection Hd as <- <- <-. split_and!; [done..|]. by intros [|i]. }
  cbn [Deduper.dedup_packets] in Hd. apply result_bind_ok in Hd as ([[d1 p1] r] & H1 & Hd).
  apply result_bind_ok in Hd as ([[d2 l] k] & H2 & [= <- <- <-]).
  destruct (IH _ _ _ _ _ H2 Hs) as (Hs1 & Hmono & Hrest).
  destruct (dedup_packet_seen _ _ _ _ _ H1 Hs1) as (Hs0 & Hh & Hmono0 & Hp). split_and!; [done|eauto|].
  intros [|i] q data Hq Hdata.
  - injection Hq as <-. destruct (Hp data Hdata) as [Hseen Hdup]. split; [eauto|].
    intros [Hb|(j & p0 & Hj & _)]; [|lia]. exists p1. eauto.
  - destruct (Hrest i q data Hq Hdata) as [Hseen Hdup]. split; [done|]. intros Hb. apply Hdup.
    destruct Hb as [Hb|([|j] & p0 & Hj & Hp0 & Hd0)]; [left; eauto| |].
    + injection Hp0 as <-. left. by apply Hp.
    + right. exists j, p0. split_and!; [lia|done..].
Qed.

(** Of packets with the same bytes, all but the first are discarded, unless the filter filled up. *)
Theorem duplicates_discarded (d d' : Deduper) (packets out : list Packet) (n m : Z) (i j : nat) (p q : Packet)
    (Hrun : Deduper.dedup_packets d packets n = Ok (d', out, m)) (Hroom : saturated d' = false)
    (Hij : (i < j)%nat) (Hp : packets !! i = Some p) (Hq : packets !! j = Some q)
    (Hfits : is_Some (Packet.data p)) (Hsame : Packet.data q = Packet.data p) :
  exists q', out !! j = Some q' /\ Packet.discard q' = true.
Proof.
  destruct Hfits as [data Hdata]. destruct (dedup_packets_seen _ _ _ _ _ _ Hrun Hroom) as (_ & _ & Hall).
  rewrite Hdata in Hsame. destruct (Hall j q data Hq Hsame) as [_ Hdup]. apply Hdup. right. by exists i, p.
Qed.
