(* ===== verification/SigverifyGpu.v ===== *)
(** * Verification on a graphics processor

    The other path of [ed25519_verify] in [perf/src/sigverify.rs]: the offsets of all packets
    are collected, a foreign library checks the signatures in the memory of the packets, and
    the verdicts are copied back.  It does to the packets what [ed25519_verify_cpu] does.

    The library is a parameter; so is the size of a packet in memory, where the buffer comes
    first. *)

From Stdlib Require Import Strings.Byte.
From S2P Require Import Prelude Sdk ShortVec WireFormat Sigverify SigverifyFacts SigverifySafety Fixtures.

(** One entry of the vectors of signature, key and message offsets and of message sizes, which
    grow together. *)
Record SigTask : Type := mkSigTask {
  signature_offset : Z;
  pubkey_offset : Z;
  msg_start_offset : Z;
  msg_size : Z
}.

Definition saturating_add_u32 (a b : Z) : Z := Z.min (a + b) U32_MAX.

(** The entries of a packet with [n] signatures; [msg_end] is the end of its message. *)
Fixpoint push_offsets (n : nat) (sig_offset pubkey_offset msg_start msg_end : Z) : list SigTask :=
  match n with
  | O => []
  | S n =>
      mkSigTask sig_offset pubkey_offset msg_start (Z.max 0 (msg_end - msg_start))
      :: push_offsets n (saturating_add_u32 sig_offset SIZE_OF_SIGNATURE) (saturating_add_u32 pubkey_offset SIZE_OF_PUBKEY)
           msg_start msg_end
  end.

Section gpu.
Variable SIZE_OF_PACKET : Z.

(** The packets of a batch from an offset on: the packets, their entries and numbers of
    signatures, and the offset after them. *)
Fixpoint generate_batch (current_offset : Z) (batch : list Packet) (reject_non_vote : bool)
    : list Packet * list SigTask * list Z * Z :=
  match batch with
  | [] => ([], [], [], current_offset)
  | packet :: batch =>
      let '(packet, packet_offsets) := get_packet_offsets packet current_offset reject_non_vote in
      let msg_size := saturating_add current_offset (size (meta packet)) mod 2 ^ 32 in
      let entries := push_offsets (Z.to_nat (sig_len packet_offsets)) (sig_start packet_offsets)
                       (pubkey_start packet_offsets) (msg_start packet_offsets) msg_size in
      let '(packets, rest, lens, current_offset) :=
        generate_batch (saturating_add current_offset SIZE_OF_PACKET) batch reject_non_vote in
      (packet :: packets, entries ++ rest, sig_len packet_offsets :: lens, current_offset)
  end.

Fixpoint generate_offsets (current_offset : Z) (batches : list (list Packet)) (reject_non_vote : bool)
    : list (list Packet) * list SigTask * list (list Z) :=
  match batches with
  | [] => ([], [], [])
  | batch :: batches =>
      let '(batch, entries, lens, current_offset) := generate_batch current_offset batch reject_non_vote in
      let '(batches, rest, lens') := generate_offsets current_offset batches reject_non_vote in
      (batch :: batches, entries ++ rest, lens :: lens')
  end.

(** The verdict of a packet from those of its signatures, [out] from [num] on; an index out of
    range panics. *)
Definition packet_verdict (out : list Z) (num : nat) (sig_v : Z) : result unit (Z * nat) :=
  if sig_v =? 0 then Ok (0, num)
  else
    assert_ (num + Z.to_nat sig_v <=? length out)%nat;;
    Ok (if forallb (fun v => negb (v =? 0)) (take (Z.to_nat sig_v) (drop num out)) then 1 else 0,
        (num + Z.to_nat sig_v)%nat).

Fixpoint copy_batch_values (out : list Z) (num : nat) (sig_vs : list Z) : result unit (list Z * nat) :=
  match sig_vs with
  | [] => Ok ([], num)
  | sig_v :: sig_vs =>
      '(v, num) ← packet_verdict out num sig_v;
      '(vs, num) ← copy_batch_values out num sig_vs;
      Ok (v :: vs, num)
  end.

Fixpoint copy_return_values (sig_lens : list (list Z)) (out : list Z) (num : nat) : result unit (list (list Z)) :=
  match sig_lens with
  | [] => Ok []
  | sig_vs :: sig_lens =>
      '(vs, num) ← copy_batch_values out num sig_vs;
      rvs ← copy_return_values sig_lens out num;
      Ok (vs :: rvs)
  end.

(** [for (a, b) in l.iter_mut().zip(r)]: what has no counterpart in [r] stays. *)
Fixpoint zip_update {A B} (f : A -> B -> A) (l : list A) (r : list B) : list A :=
  match l, r with
  | a :: l, b :: r => f a b :: zip_update f l r
  | _, _ => l
  end.

Definition mark_disabled (batches : list (list Packet)) (r : list (list Z)) : list (list Packet) :=
  zip_update (zip_update (fun pkt f => if Packet.discard pkt then pkt else Packet.set_discard pkt (f =? 0))) batches r.

(** [ed25519_verify_many]: the memory of the packets and the entries to the verdicts. *)
Variable ed25519_verify_many : list byte -> list SigTask -> list Z.

(** The bytes of the metadata of a packet. *)
Variable meta_bytes : Packet -> list byte.
Definition packets_memory (batches : list (list Packet)) : list byte :=
  concat (map (fun p => buffer p ++ meta_bytes p) (concat batches)).

(** [has_api]: the library is there; a division by zero panics. *)
Definition ed25519_verify `{Ed25519} (has_api : bool) (batches : list (list Packet)) (reject_non_vote : bool)
    (valid_packet_count : Z) : result unit (list (list Packet)) :=
  if negb has_api then Ok (ed25519_verify_cpu batches reject_non_vote)
  else
    let total_packet_count := Z.of_nat (count_packets_in_batches batches) in
    if valid_packet_count <? 64 then Ok (ed25519_verify_cpu batches reject_non_vote)
    else
      assert_ (negb (total_packet_count =? 0));;
      if wrapping_mul 100 valid_packet_count / total_packet_count <? 90
      then Ok (ed25519_verify_cpu batches reject_non_vote)
      else
        let '(batches, entries, sig_lens) := generate_offsets 0 batches reject_non_vote in
        let out := ed25519_verify_many (packets_memory batches) entries in
        rvs ← copy_return_values sig_lens out 0;
        Ok (mark_disabled batches rvs).
End gpu.

(** ** Offsets of any packet *)

(** The offsets of a packet on its own stay within the packet. *)
Record offsets_inside (p : Packet) (o : PacketOffsets) : Prop := {
  oi_data : is_Some (Packet.data p);
  oi_sigs : 0 <= sig_start o /\ 0 < sig_len o /\ sig_start o + 64 * sig_len o = msg_start o;
  oi_msg : msg_start o < size (meta p);
  oi_keys : 0 <= pubkey_start o /\ pubkey_start o + 32 * pubkey_len o <= size (meta p) /\ sig_len o <= pubkey_len o
}.

Lemma decode_len_range p off v n : decode_len_at p off = Some (v, n) -> 0 <= v <= U16_MAX /\ 0 <= n.
Proof.
  unfold decode_len_at. destruct (Packet.data_from p off) as [l|]; [|done]. cbn [mbind option_bind].
  destruct (decode_shortu16_len l) as [[v' n']|e|] eqn:Hd; [|done..]. intros [= <- <-]. split; [|lia].
  unfold decode_shortu16_len in Hd. apply (decode_loop_iff 3) in Hd as (_ & w & rest & Hw & _ & -> & Hm & _); [|cbn; lia..].
  cbn in *. lia.
Qed.

Lemma msg_header_offset_range p a b : get_msg_header_offset p a = Ok b -> a < size (meta p) /\ a <= b.
Proof.
  unfold get_msg_header_offset. destruct (Z.ltb_spec a (size (meta p))); [|done]. cbn [ensure mbind result_bind].
  intros Hg. apply result_bind_ok in Hg as (m & _ & Hg). split; [done|].
  destruct (negb _); [|by injection Hg as ->]. destruct (_ =? 0); [|done].
  apply ok_or_ok, checked_add_some in Hg. lia.
Qed.

Lemma decode_len_data p off v n : decode_len_at p off = Some (v, n) -> is_Some (Packet.data p).
Proof. unfold decode_len_at, Packet.data_from. by destruct (Packet.data p). Qed.

(** Only the last steps depend on where the packet is. *)
Definition has_core (f : Z -> result PacketError PacketOffsets) (P : PacketOffsets -> Prop) : Prop :=
  exists r, (forall cur, f cur = (o ← r; shift_offsets cur o)) /\ (forall o, r = Ok o -> P o).

Lemma core_bind {A} (m : result PacketError A) (k : Z -> A -> result PacketError PacketOffsets) P :
  (forall a, m = Ok a -> has_core (fun cur => k cur a) P) -> has_core (fun cur => mbind (k cur) m) P.
Proof.
  intros Hk. destruct m as [a|e|]; [by apply Hk|exists (Err e)|exists Panic]; by split.
Qed.

Lemma offsets_core p : has_core (do_get_packet_offsets p) (offsets_inside p).
Proof.
  unfold do_get_packet_offsets. apply core_bind; intros _ _.
  apply core_bind; intros [sl ss] Hd%ok_or_ok. pose proof (decode_len_range _ _ _ _ Hd) as [Hsl Hss].
  apply decode_len_data in Hd.
  apply core_bind; intros mo Hmo%ok_or_ok. apply core_bind; intros ho [Hms Hho]%msg_header_offset_range.
  apply core_bind; intros ho1 Hho1%ok_or_ok%checked_add_some. apply core_bind; intros v2 _.
  apply core_bind; intros trusted Htr%ok_or_ok. apply core_bind; intros ko Hko%ok_or_ok%checked_add_some.
  apply core_bind; intros ro Hro%ok_or_ok. apply core_bind; intros u1 Hpay. apply core_bind; intros u2 Hmatch.
  apply core_bind; intros [pl ps] [Hpl Hps]%ok_or_ok%decode_len_range.
  apply core_bind; intros pks Hpks%ok_or_ok%checked_add_some. apply core_bind; intros v3 Hfit%ok_or_ok.
  apply core_bind; intros u3 Hle.
  exists (Ok (mkPacketOffsets sl ss mo pks pl)). split; [done|]. intros o [= <-].
  apply bind_Some in Hmo as (v & Hv & Hmo%checked_add_some). unfold checked_mul, SIZE_OF_SIGNATURE in Hv.
  destruct (_ <=? _); [injection Hv as <-|done].
  destruct (Z.leb_spec (u8_val trusted) (u8_val ro)); [done|]. destruct (Z.eqb_spec (u8_val trusted) sl); [|done].
  destruct (Z.ltb_spec pl sl); [done|]. unfold at_most in Hfit. apply bind_Some in Hfit as (w & Hw & Hfit).
  destruct (Z.leb_spec w (size (meta p))); [|done]. apply bind_Some in Hw as (x & Hx & Hw%checked_add_some).
  unfold checked_mul, SIZE_OF_PUBKEY in Hx. destruct (_ <=? U64_MAX); [injection Hx as <-|done].
  unfold MESSAGE_HEADER_LENGTH in *. pose proof (u8_val_range ro). pose proof (u8_val_range trusted).
  split; cbn [sig_start sig_len msg_start pubkey_start pubkey_len]; (done || lia).
Qed.

(** The offsets moved by the place of the packet. *)
Definition moved (cur : Z) (o : PacketOffsets) : PacketOffsets :=
  mkPacketOffsets (sig_len o) (cur + sig_start o) (cur + msg_start o) (cur + pubkey_start o) (pubkey_len o).

Section placed.
Variables (p : Packet) (cur : Z).
Hypothesis Hsize : size (meta p) <= 1232.
Hypothesis Hcur : 0 <= cur /\ cur + 1232 <= U32_MAX.

Lemma shift_moved o : offsets_inside p o -> shift_offsets cur o = Ok (moved cur o).
Proof.
  intros [_ (H1 & H2 & H3) H4 (H5 & H6 & H7)]. unfold shift_offsets, U32_MAX in *.
  rewrite !checked_add_ok by (unfold U64_MAX; lia). cbn [ok_or mbind result_bind].
  assert (forall z, z <= U32_MAX -> u32_try_from z = Ok z) as Hu.
  { intros z Hz. unfold u32_try_from. destruct (Z.leb_spec z U32_MAX); [done|lia]. }
  rewrite !Hu by (unfold U32_MAX; lia). done.
Qed.

Lemma vote_check_moved o : 0 <= pubkey_start o -> 
  check_for_simple_vote_transaction p (moved cur o) cur = check_for_simple_vote_transaction p o 0.
Proof.
  intros Ho. unfold check_for_simple_vote_transaction. cbn [sig_len pubkey_start pubkey_len moved].
  assert (checked_sub (cur + pubkey_start o) cur = Some (pubkey_start o)) as -> by (apply checked_sub_some; lia).
  by assert (checked_sub (pubkey_start o) 0 = Some (pubkey_start o)) as -> by (apply checked_sub_some; lia).
Qed.
End placed.

(** What is read of a packet, wherever it is. *)
Lemma offsets_placed p cur r :
  size (meta p) <= 1232 -> 0 <= cur /\ cur + 1232 <= U32_MAX ->
  (get_packet_offsets p cur r).1 = (get_packet_offsets p 0 r).1 /\
  (((get_packet_offsets p 0 r).2 = mkPacketOffsets 0 0 0 0 0 /\ (get_packet_offsets p cur r).2 = mkPacketOffsets 0 0 0 0 0) \/
   exists o, offsets_inside p o /\ (get_packet_offsets p 0 r).2 = o /\ (get_packet_offsets p cur r).2 = moved cur o).
Proof.
  intros Hs Hc. destruct (offsets_core p) as (core & Hcore & Hin). unfold get_packet_offsets. rewrite !Hcore.
  destruct core as [o|e|]; [|by split; [|left]..]. specialize (Hin o eq_refl). cbn [mbind result_bind].
  rewrite (shift_moved p cur) by done. rewrite (shift_moved p 0) by (done || (unfold U32_MAX in *; lia)).
  assert (moved 0 o = o) as -> by (by destruct o). cbn [mbind result_bind fst snd].
  rewrite (vote_check_moved p cur) by apply Hin. split; [done|].
  destruct (negb r || _); [right; by exists o|by left].
Qed.

(** ** Signatures in the memory of the packets *)
Section equivalence.
Context `{Ed25519}.

(** One entry: the signature of a key on a message. *)
Definition verify_task (memory : list byte) (t : SigTask) : bool :=
  match slice_range memory (signature_offset t) (signature_offset t + 64),
        slice_range memory (pubkey_offset t) (pubkey_offset t + 32),
        slice_range memory (msg_start_offset t) (msg_start_offset t + msg_size t) with
  | Some signature, Some pubkey, Some message => verify (mkSignature signature) pubkey message
  | _, _, _ => false
  end.

Lemma memory_slice p bytes pre post a b :
  Packet.data p = Some bytes -> 0 <= a <= b -> b <= Z.of_nat (length bytes) ->
  slice_range (pre ++ buffer p ++ post) (Z.of_nat (length pre) + a) (Z.of_nat (length pre) + b) = slice_range bytes a b.
Proof.
  intros Hd Hab Hb. destruct (data_size _ _ Hd) as [Hs Hnd]. unfold Packet.data in Hd. rewrite Hnd in Hd.
  unfold slice_range in Hd. destruct (_ && _) eqn:E; [|done]. apply andb_true_iff in E as [_ E%Z.leb_le].
  injection Hd as Hbytes. rewrite Z.sub_0_r in Hbytes. change (drop (Z.to_nat 0) (buffer p)) with (buffer p) in Hbytes.
  unfold slice_range. rewrite !length_app.
  destruct (Z.leb_spec (Z.of_nat (length pre) + a) (Z.of_nat (length pre) + b)); [|lia].
  destruct (Z.leb_spec (Z.of_nat (length pre) + b) (Z.of_nat (length pre + (length (buffer p) + length post)))); [|lia].
  destruct (Z.leb_spec a b); [|lia]. destruct (Z.leb_spec b (Z.of_nat (length bytes))); [|lia]. cbn [andb]. f_equal.
  rewrite Z2Nat.inj_add, Nat2Z.id, <-drop_drop, drop_app_length by lia.
  rewrite <-Hbytes, drop_app_le by lia. replace (_ + b - (_ + a)) with (b - a) by lia.
  rewrite take_app_le by (rewrite length_drop; lia).
  rewrite skipn_firstn_comm, take_take. f_equal. lia.
Qed.

(** The entries of a packet are its loop. *)
Lemma tasks_verify p bytes pre post ms n : forall sg pk,
  Packet.data p = Some bytes -> Z.of_nat (length pre) + 1232 <= U32_MAX -> Z.of_nat (length bytes) <= 1232 ->
  0 <= sg -> sg + 64 * Z.of_nat n <= Z.of_nat (length bytes) -> 0 <= pk -> pk + 32 * Z.of_nat n <= Z.of_nat (length bytes) ->
  0 <= ms <= Z.of_nat (length bytes) ->
  forallb (verify_task (pre ++ buffer p ++ post))
    (push_offsets n (Z.of_nat (length pre) + sg) (Z.of_nat (length pre) + pk) (Z.of_nat (length pre) + ms)
       (Z.of_nat (length pre) + Z.of_nat (length bytes))) = verify_loop p ms n sg pk.
Proof.
  induction n as [|n IH]; intros sg pk Hd Hpre Hlen Hsg Hsgn Hpk Hpkn Hms; [done|].
  cbn [push_offsets forallb verify_loop]. unfold U32_MAX in *.
  unfold SIZE_OF_SIGNATURE, SIZE_OF_PUBKEY, saturating_add_u32, saturating_add, U32_MAX.
  rewrite !(Z.min_l (_ + _) (2 ^ 32 - 1)) by lia. rewrite checked_add_ok, Z.min_r by (unfold U64_MAX; lia).
  rewrite <-!(Z.add_assoc (Z.of_nat (length pre))). rewrite IH by (done || lia).
  unfold verify_task. cbn [signature_offset pubkey_offset msg_start_offset msg_size].
  rewrite <-!(Z.add_assoc (Z.of_nat (length pre))).
  replace (ms + Z.max 0 (Z.of_nat (length pre) + Z.of_nat (length bytes) - (Z.of_nat (length pre) + ms)))
    with (Z.of_nat (length bytes)) by lia.
  rewrite !(memory_slice p bytes) by (done || lia). unfold Packet.data_range, Packet.data_from, slice_from. rewrite Hd.
  cbn [mbind option_bind].
  destruct (slice_range bytes sg (sg + 64)), (slice_range bytes pk (pk + 32)),
    (slice_range bytes ms (Z.of_nat (length bytes))); done.
Qed.

(** ** One packet *)
Lemma testbit_one i : 0 <= i -> Z.testbit 1 i = bool_decide (i = 0).
Proof.
  intros Hi. case_bool_decide; [by subst|]. change 1 with (Z.ones 1). apply Z.ones_spec_high. lia.
Qed.

Lemma set_discard_false p : Packet.discard p = false -> Packet.set_discard p false = p.
Proof.
  unfold Packet.discard, Packet.set_discard, Packet.set_flag, flags_contain. destruct p as [b [s f]].
  cbn [flags meta size buffer flags_set]. intros Hd. do 2 f_equal. apply Z.eqb_neq in Hd. unfold DISCARD in *.
  apply Z.bits_inj'. intros i Hi. rewrite Z.ldiff_spec, testbit_one by done.
  case_bool_decide; [subst i|by rewrite andb_true_r]. destruct (Z.testbit f 0) eqn:E; [|done]. destruct Hd.
  apply Z.bits_inj'. intros j Hj. rewrite Z.land_spec, testbit_one by done.
  case_bool_decide; [subst j; by rewrite E|by rewrite andb_false_r].
Qed.

Definition b2z (b : bool) : Z := if b then 1 else 0.

(** What [mark_disabled] makes of a packet. *)
Definition mark (pkt : Packet) (f : Z) : Packet := if Packet.discard pkt then pkt else Packet.set_discard pkt (f =? 0).

Lemma offsets_same_data p r cur :
  let q := (get_packet_offsets p cur r).1 in
  Packet.data q = Packet.data p /\ Packet.discard q = Packet.discard p /\ size (meta q) = size (meta p) /\ buffer q = buffer p.
Proof.
  intros q. unfold q. destruct (offsets_same p r cur) as [->| ->]; [done|]. by rewrite data_vote_flag, discard_vote_flag.
Qed.

Lemma offsets_discarded p r cur :
  Packet.discard p = true -> get_packet_offsets p cur r = (p, mkPacketOffsets 0 0 0 0 0).
Proof.
  intros Hd. destruct (offsets_core p) as (core & Hcore & Hin). unfold get_packet_offsets. rewrite Hcore.
  destruct core as [o|e|]; [|done..]. destruct (Hin o eq_refl) as [ [bytes Hb] _ _ _].
  unfold Packet.data in Hb. by rewrite Hd in Hb.
Qed.

(** The packet, its entries and its verdict are those of the verification on its own. *)
Lemma packet_equivalent p r pre post :
  size (meta p) <= 1232 -> Z.of_nat (length pre) + 1232 <= U32_MAX ->
  let '(q, o) := get_packet_offsets p (Z.of_nat (length pre)) r in
  let entries := push_offsets (Z.to_nat (sig_len o)) (sig_start o) (pubkey_start o) (msg_start o)
                   (saturating_add (Z.of_nat (length pre)) (size (meta q)) mod 2 ^ 32) in
  length entries = Z.to_nat (sig_len o) /\
  mark q (if sig_len o =? 0 then 0 else b2z (forallb (verify_task (pre ++ buffer p ++ post)) entries)) =
    verify_or_discard r p.
Proof.
  intros Hs Hpre. destruct (Packet.discard p) eqn:Hdis.
  { rewrite offsets_discarded by done. cbn. unfold mark, verify_or_discard. by rewrite Hdis. }
  destruct (offsets_placed p (Z.of_nat (length pre)) r Hs ltac:(lia)) as [Hq Hcases].
  destruct (offsets_same_data p r 0) as (Hd' & Hdis' & Hs' & _).
  unfold mark, verify_or_discard, verify_packet. rewrite Hdis.
  destruct (get_packet_offsets p (Z.of_nat (length pre)) r) as [q o]. destruct (get_packet_offsets p 0 r) as [q0 o0].
  cbn [fst snd] in *. subst q0. rewrite Hdis', Hdis, Hs'.
  assert (forall n a b c d, length (push_offsets n a b c d) = n) as Hlen by (induction n; intros; cbn; auto).
  split; [apply Hlen|]. destruct Hcases as [ [-> ->]|(o' & Hin & -> & ->)]; [done|]. cbn [sig_len sig_start pubkey_start msg_start moved].
  destruct Hin as [ [bytes Hb] (H1 & H2 & H3) H4 (H5 & H6 & H7)]. destruct (data_size _ _ Hb) as [Hsz _].
  destruct (Z.eqb_spec (sig_len o') 0); [lia|]. destruct (Z.leb_spec (size (meta p)) (msg_start o')); [lia|].
  unfold saturating_add. unfold U32_MAX in Hpre. rewrite Z.min_r, Z.mod_small, Hsz by (unfold U64_MAX; lia).
  rewrite (tasks_verify p bytes) by (done || unfold U32_MAX; lia). rewrite (verify_loop_data p q) by done.
  destruct (verify_loop p _ _ _ _); [|done]. apply set_discard_false. by rewrite Hdis'.
Qed.

(** ** All packets *)
Lemma verdict_ok (f : SigTask -> bool) entries sig_v out0 out1 :
  length entries = Z.to_nat sig_v -> 0 <= sig_v ->
  packet_verdict (out0 ++ map (fun t => b2z (f t)) entries ++ out1) (length out0) sig_v =
    Ok (if sig_v =? 0 then 0 else b2z (forallb f entries), (length out0 + length entries)%nat).
Proof.
  intros Hl Hpos. unfold packet_verdict. destruct (Z.eqb_spec sig_v 0) as [->|].
  { destruct entries; [|done]. by rewrite Nat.add_0_r. }
  rewrite !length_app, length_map, Hl. destruct (Nat.leb_spec (length out0 + Z.to_nat sig_v)
    (length out0 + (Z.to_nat sig_v + length out1))); [|lia]. cbn [assert_ mbind result_bind]. do 3 f_equal.
  rewrite drop_app_length, take_app_length' by (by rewrite length_map).
  assert (forallb (fun v => negb (v =? 0)) (map (fun t => b2z (f t)) entries) = forallb f entries) as ->; [|by destruct (forallb f entries)].
  clear. induction entries as [|t l IH]; [done|]. cbn [map forallb]. rewrite IH. by destruct (f t).
Qed.

Variables (SIZE_OF_PACKET : Z) (meta_bytes : Packet -> list byte).
Hypothesis Hpacket : 1232 <= SIZE_OF_PACKET.
Hypothesis Hmeta : forall p, Z.of_nat (length (meta_bytes p)) = SIZE_OF_PACKET - 1232.

Definition packet_fits (p : Packet) : Prop := length (buffer p) = PACKET_DATA_SIZE /\ size (meta p) <= 1232.

Definition batch_memory (b : list Packet) : list byte := concat (map (fun p => buffer p ++ meta_bytes p) b).

(** The entries have a number of signatures that is not negative. *)
Lemma sig_len_nonneg p cur r :
  size (meta p) <= 1232 -> 0 <= cur /\ cur + 1232 <= U32_MAX -> 0 <= sig_len (get_packet_offsets p cur r).2.
Proof.
  intros Hs Hc. destruct (offsets_placed p cur r Hs Hc) as [_ [ [_ ->]|(o & Hin & _ & ->)]]; [done|].
  destruct Hin as [_ (_ & H2 & _) _ _]. cbn. lia.
Qed.

Lemma batch_equivalent r : forall batch pre b' tasks lens cur',
  Forall packet_fits batch -> Z.of_nat (length pre) + SIZE_OF_PACKET * Z.of_nat (length batch) <= U32_MAX ->
  generate_batch SIZE_OF_PACKET (Z.of_nat (length pre)) batch r = (b', tasks, lens, cur') ->
  Z.of_nat (length (batch_memory b')) = SIZE_OF_PACKET * Z.of_nat (length batch) /\
  cur' = Z.of_nat (length (pre ++ batch_memory b')) /\
  forall post out0 out1, exists vs,
    copy_batch_values (out0 ++ map (fun t => b2z (verify_task (pre ++ batch_memory b' ++ post) t)) tasks ++ out1)
      (length out0) lens = Ok (vs, (length out0 + length tasks)%nat) /\
    zip_update mark b' vs = map (verify_or_discard r) batch.
Proof.
  induction batch as [|p batch IH]; intros pre b' tasks lens cur' Hfits Hroom Hg.
  { injection Hg as <- <- <- <-. split_and!; [cbn; lia|by rewrite app_nil_r|]. intros post out0 out1. exists [].
    by rewrite Nat.add_0_r. }
  apply Forall_cons_1 in Hfits as [ [Hbuf Hsize] Hfits]. cbn [length generate_batch] in *.
  assert (Z.of_nat (length pre) + 1232 <= U32_MAX) as Hroom1 by nia.
  pose proof (packet_equivalent p r pre) as Heq. pose proof (sig_len_nonneg p (Z.of_nat (length pre)) r Hsize ltac:(lia)) as Hnn.
  destruct (offsets_same_data p r (Z.of_nat (length pre))) as (_ & _ & _ & Hbq).
  destruct (get_packet_offsets p (Z.of_nat (length pre)) r) as [q o]. cbn [fst snd] in *.
  assert (length (buffer q ++ meta_bytes q) = Z.to_nat SIZE_OF_PACKET) as Hq.
  { rewrite length_app, Hbq, Hbuf. specialize (Hmeta q). unfold PACKET_DATA_SIZE. lia. }
  assert (saturating_add (Z.of_nat (length pre)) SIZE_OF_PACKET = Z.of_nat (length (pre ++ buffer q ++ meta_bytes q))) as Hcur.
  { rewrite (length_app pre), Hq. unfold saturating_add, U64_MAX, U32_MAX in *. nia. }
  rewrite Hcur in Hg. destruct (generate_batch _ _ batch r) as [[[b1 tasks1] lens1] cur1] eqn:Hg1.
  injection Hg as <- <- <- <-. specialize (IH (pre ++ buffer q ++ meta_bytes q) b1 tasks1 lens1 cur1 Hfits).
  destruct IH as (Hm1 & Hc1 & Hvs1); [rewrite length_app, Hq; lia|done|].
  change (batch_memory (q :: b1)) with ((buffer q ++ meta_bytes q) ++ batch_memory b1).
  split_and!.
  - rewrite length_app, Hq. lia.
  - rewrite Hc1. by rewrite <-app_assoc.
  - intros post out0 out1. set (f := verify_task _).
    set (entries := push_offsets _ _ _ _ _) in *.
    specialize (Heq (meta_bytes q ++ batch_memory b1 ++ post) Hsize Hroom1) as [Hle Hmark].
    rewrite map_app, <-app_assoc.
    destruct (Hvs1 post (out0 ++ map (fun t => b2z (f t)) entries) out1) as (vs & Hvs & Hz).
    exists ((if sig_len o =? 0 then 0 else b2z (forallb f entries)) :: vs).
    assert (pre ++ ((buffer q ++ meta_bytes q) ++ batch_memory b1) ++ post =
            (pre ++ buffer q ++ meta_bytes q) ++ batch_memory b1 ++ post) as Emem by (by rewrite <-!app_assoc).
    assert (f = verify_task (pre ++ buffer p ++ meta_bytes q ++ batch_memory b1 ++ post)) as Ef
      by (unfold f; f_equal; by rewrite <-Hbq, <-!app_assoc).
    cbn [copy_batch_values]. rewrite verdict_ok by done. cbn [mbind result_bind].
    rewrite <-Emem in Hvs. rewrite length_app, length_map, <-app_assoc in Hvs. fold f in Hvs. rewrite Hvs.
    cbn [mbind result_bind zip_update map]. rewrite Hz, Ef, Hmark. split; [|done].
    rewrite length_app. do 2 f_equal. lia.
Qed.

Lemma batches_equivalent r : forall batches pre bs' tasks lens,
  Forall (Forall packet_fits) batches ->
  Z.of_nat (length pre) + SIZE_OF_PACKET * Z.of_nat (count_packets_in_batches batches) <= U32_MAX ->
  generate_offsets SIZE_OF_PACKET (Z.of_nat (length pre)) batches r = (bs', tasks, lens) ->
  forall post out0 out1, exists rvs,
    copy_return_values lens (out0 ++ map (fun t => b2z (verify_task (pre ++ batch_memory (concat bs') ++ post) t)) tasks ++ out1)
      (length out0) = Ok rvs /\
    zip_update (zip_update mark) bs' rvs = map (map (verify_or_discard r)) batches.
Proof.
  induction batches as [|b batches IH]; intros pre bs' tasks lens Hfits Hroom Hg post out0 out1.
  { injection Hg as <- <- <-. by exists []. }
  apply Forall_cons_1 in Hfits as [Hb Hfits]. change (count_packets_in_batches (b :: batches)) with
    (length b + count_packets_in_batches batches)%nat in Hroom. rewrite Nat2Z.inj_add, Z.mul_add_distr_l in Hroom.
  assert (0 <= SIZE_OF_PACKET * Z.of_nat (count_packets_in_batches batches)) by nia. cbn [generate_offsets] in Hg.
  destruct (generate_batch _ _ b r) as [[[b1 t1] l1] c1] eqn:Hg1.
  destruct (batch_equivalent r b pre b1 t1 l1 c1 Hb ltac:(lia) Hg1) as (Hm & -> & Hvs).
  destruct (generate_offsets _ _ batches r) as [[bs2 t2] l2] eqn:Hg2. injection Hg as <- <- <-.
  specialize (IH (pre ++ batch_memory b1) bs2 t2 l2 Hfits ltac:(rewrite length_app; lia) Hg2).
  set (f := verify_task _).
  assert (pre ++ batch_memory (concat (b1 :: bs2)) ++ post = pre ++ batch_memory b1 ++ batch_memory (concat bs2) ++ post) as Emem.
  { unfold batch_memory. cbn [concat]. by rewrite map_app, concat_app, <-!app_assoc. }
  rewrite map_app, <-app_assoc.
  destruct (Hvs (batch_memory (concat bs2) ++ post) out0 (map (fun t => b2z (f t)) t2 ++ out1)) as (vs & Hv & Hz).
  rewrite <-Emem in Hv. fold f in Hv.
  destruct (IH post (out0 ++ map (fun t => b2z (f t)) t1) out1) as (rvs & Hr & Hzr).
  rewrite <-!app_assoc, <-Emem, length_app, length_map in Hr. fold f in Hr.
  exists (vs :: rvs). cbn [copy_return_values]. rewrite Hv. cbn [mbind result_bind]. rewrite Hr.
  cbn [mbind result_bind zip_update map]. by rewrite Hz, Hzr.
Qed.

(** C19: Verification of full-size batches through the accelerated library, which gets
    one table of offsets into the memory of all packets, marks exactly the packets that
    verification on the processor marks and never panics, if the library checks each
    entry on its own and the packets fit 32-bit offsets. *)
Theorem gpu_agrees (ed25519_verify_many : list byte -> list SigTask -> list Z) (has_api : bool)
    (batches : list (list Packet)) (reject_non_vote : bool) (valid_packet_count : Z)
    (Hmany : forall memory entries,
       ed25519_verify_many memory entries = map (fun t => b2z (verify_task memory t)) entries)
    (Hfits : Forall (Forall packet_fits) batches)
    (Hroom : SIZE_OF_PACKET * Z.of_nat (count_packets_in_batches batches) <= U32_MAX)
    (Hcount : valid_packet_count <= Z.of_nat (count_packets_in_batches batches)) :
  ed25519_verify SIZE_OF_PACKET ed25519_verify_many meta_bytes has_api batches reject_non_vote valid_packet_count =
    Ok (ed25519_verify_cpu batches reject_non_vote).
Proof.
  unfold ed25519_verify. destruct has_api; [|done]. cbn [negb].
  destruct (Z.ltb_spec valid_packet_count 64); [done|].
  destruct (Z.eqb_spec (Z.of_nat (count_packets_in_batches batches)) 0); [lia|]. cbn [negb assert_ mbind result_bind].
  destruct (_ <? 90); [done|]. destruct (generate_offsets _ 0 batches reject_non_vote) as [[bs' tasks] lens] eqn:Hg.
  destruct (batches_equivalent reject_non_vote batches [] bs' tasks lens Hfits Hroom Hg [] [] []) as (rvs & Hr & Hz).
  rewrite Hmany. cbn [app] in Hr. rewrite !app_nil_r in Hr. cbn [length] in Hr.
  unfold packets_memory. fold (batch_memory (concat bs')). rewrite Hr. cbn [mbind result_bind]. f_equal. exact Hz.
Qed.
End equivalence.

(** ** An example *)
#[local] Existing Instance sx_ed25519.

(** Sixty-four packets, one of them forged. *)
Definition gx_batches : list (list Packet) := [replicate 63 sx_packet; [sx_forged]].
Definition gx_many (memory : list byte) (entries : list SigTask) : list Z :=
  map (fun t => b2z (verify_task memory t)) entries.

Lemma gpu_agrees_witness :
  ed25519_verify 1280 gx_many (fun _ => replicate 48 x00) true gx_batches false 64 =
    Ok (ed25519_verify_cpu gx_batches false).
Proof.
  apply (gpu_agrees 1280 (fun _ => replicate 48 x00)).
  - lia.
  - intros p. reflexivity.
  - intros memory entries. reflexivity.
  - assert (packet_fits sx_packet /\ packet_fits sx_forged) as [Hp Hf] by (split; split; vm_compute; (reflexivity || discriminate)).
    constructor; [by apply Forall_replicate|]. by repeat constructor.
  - vm_compute. discriminate.
  - vm_compute. discriminate.
Defined.
