(* ===== verification/ConfigProgram.v ===== *)
(** * The config program

    [programs/config/src]: accounts that store a list of keys, some of them signers, in front of
    data; updates must be signed by the stored signers.  [config_processor.rs] is the processor,
    [config_instruction.rs] and [date_instruction.rs] the builders, [lib.rs] the stored list.

    The list has the encoding of [ShortVec]; the data behind it and its encoding are parameters. *)

From Stdlib Require Import Strings.Byte.
From S2P Require Import Prelude Sdk Rent Program SystemInstruction Transaction Serialization Nonce SystemProgram Runtime Message MessageProcessor Loader UpgradeableLoader ShortVec WireFormat Sigverify.

(** ** [lib.rs] *)
(** Each key with whether it is a signer. *)
Notation ConfigKeys := (list (Pubkey * bool)).

Section config.
Context {BC : Bincode}.

(** [bincode::serialized_size] *)
Definition ConfigKeys_serialized_size {E} (keys : ConfigKeys) : result E Z :=
  l ← unwrap (put keys); Ok (Z.of_nat (length l)).

(** [bincode::deserialize], which allows trailing bytes. *)
Definition deserialize_keys (bytes : list byte) : option ConfigKeys :=
  match next bytes with Ok (keys, _) => Some keys | _ => None end.

(** The reader stops at the size of a packet. *)
Definition limited_deserialize_keys (bytes : list byte) : option ConfigKeys :=
  match next bytes with
  | Ok (keys, rest) => if (length bytes - length rest <=? PACKET_DATA_SIZE)%nat then Some keys else None
  | _ => None
  end.

(** [ConfigState] with its encoding. *)
Class ConfigState (T : Type) : Type := {
  max_space : Z;
  config_default : T;
  bincode_config : T -> list byte
}.

(** [None] is the error of [bincode]; an offset past the end would panic. *)
Definition get_config_data (bytes : list byte) : result unit (list byte) :=
  keys ← ok_or (deserialize_keys bytes) tt;
  l ← ok_or (put keys) tt;
  unwrap (slice_from bytes (Z.of_nat (length l))).

Definition create_config_account {T} `{ConfigState T} {E} (keys : ConfigKeys) (config_data : T) (lamports : Z)
    : result E Account :=
  l ← unwrap (put keys);
  Ok (mkAccount lamports (l ++ bincode_config config_data) config_program_id false 0).

(** ** [config_instruction.rs] *)
Definition config_signers (keys : ConfigKeys) : list Pubkey := map fst (List.filter snd keys).

Section builders.
Context {T : Type} `{ConfigState T} `{SystemBincode}.

(** The pair of the list and the data, serialized and unwrapped. *)
Definition config_ix {E} (keys : ConfigKeys) (data : T) (account_metas : list AccountMeta) : result E Instruction :=
  l ← unwrap (put keys);
  Ok (mkInstruction config_program_id account_metas (l ++ bincode_config data)).

Definition initialize_config {E} (config_pubkey : Pubkey) : result E Instruction :=
  config_ix [] config_default [AccountMeta_new config_pubkey true].

(** The space wraps around in a release build. *)
Definition create_config {E} (from_account_pubkey config_account_pubkey : Pubkey) (lamports : Z) (keys : ConfigKeys)
    : result E (list Instruction) :=
  n ← ConfigKeys_serialized_size keys;
  let space := wrapping_add max_space n in
  i ← initialize_config config_account_pubkey;
  Ok [SystemInstruction.create_account from_account_pubkey config_account_pubkey lamports space config_program_id; i].

(** The key of the config account gets no meta of its own. *)
Definition store_metas (config_account_pubkey : Pubkey) (is_config_signer : bool) (keys : ConfigKeys) : list AccountMeta :=
  AccountMeta_new config_account_pubkey is_config_signer
  :: map (fun k => AccountMeta_new k true)
       (List.filter (fun k => negb (key_eqb k config_account_pubkey)) (config_signers keys)).

Definition store_config {E} (config_account_pubkey : Pubkey) (is_config_signer : bool) (keys : ConfigKeys) (data : T)
    : result E Instruction :=
  config_ix keys data (store_metas config_account_pubkey is_config_signer keys).
End builders.

(** ** [date_instruction.rs] *)
(** A date in seconds since the epoch, eight bytes. *)
Record DateConfig : Type := mkDateConfig { date_time : Z }.
#[global] Instance date_config : ConfigState DateConfig := {|
  max_space := Z.of_nat (length (bincode_i64 0));
  config_default := mkDateConfig 0;
  bincode_config d := bincode_i64 (date_time d)
|}.

Definition create_date_account `{SystemBincode} {E} (payer_pubkey date_pubkey : Pubkey) (lamports : Z)
    : result E (list Instruction) :=
  create_config (T := DateConfig) payer_pubkey date_pubkey lamports [].

(** [midnight]: the seconds at the beginning of the date. *)
Definition store_date {E} (date_pubkey : Pubkey) (midnight : Z) : result E Instruction :=
  store_config date_pubkey true [] (mkDateConfig midnight).

(** ** [config_processor.rs] *)

(** The new signers in order: [counter] is the instruction account a signer must be at. *)
Fixpoint check_signers (ic : InstructionContext) (config_account_key : Pubkey) (is_config_account_signer : bool)
    (current_data : ConfigKeys) (counter : nat) (signers : list Pubkey) : TxM nat :=
  match signers with
  | [] => mret counter
  | signer :: signers =>
      let counter := S counter in
      (if negb (key_eqb signer config_account_key) then
         signer_account ← reads (fun tc => map_err (fun _ => InstructionError.MissingRequiredSignature)
                                             (try_borrow_instruction_account ic counter tc));
         guard (BorrowedAccount.is_signer signer_account) InstructionError.MissingRequiredSignature;;
         k ← BorrowedAccount.get_key signer_account;
         guard (key_eqb k signer) InstructionError.MissingRequiredSignature;;
         guard ((length current_data =? 0)%nat || existsb (fun pubkey => key_eqb pubkey signer) (config_signers current_data))
           InstructionError.MissingRequiredSignature
       else guard is_config_account_signer InstructionError.MissingRequiredSignature);;
      check_signers ic config_account_key is_config_account_signer current_data counter signers
  end.

(** [dedupe]: the feature [dedupe_config_program_signers] is active. *)
Definition process_config (dedupe : bool) (ic : InstructionContext) : TxM unit :=
  let data := instruction_data ic in
  key_list ← reads (fun _ => ok_or (limited_deserialize_keys data) InstructionError.InvalidInstructionData);
  config_account_key ← reads (fun tc => i ← get_index_of_instruction_account_in_transaction ic 0; key_at tc i);
  config_account ← reads (try_borrow_instruction_account ic 0);
  let is_config_account_signer := BorrowedAccount.is_signer config_account in
  o ← BorrowedAccount.get_owner config_account;
  guard (key_eqb o config_program_id) InstructionError.InvalidAccountOwner;;
  config_data ← BorrowedAccount.get_data config_account;
  current_data ← reads (fun _ => ok_or (deserialize_keys config_data) InstructionError.InvalidAccountData);
  let current_signer_keys := config_signers current_data in
  guard (negb (length current_signer_keys =? 0)%nat || is_config_account_signer) InstructionError.MissingRequiredSignature;;
  counter ← check_signers ic config_account_key is_config_account_signer current_data 0 (config_signers key_list);
  guard (negb dedupe || bool_decide (NoDup key_list)) InstructionError.InvalidArgument;;
  guard (negb (counter <? length current_signer_keys)%nat) InstructionError.MissingRequiredSignature;;
  config_account ← reads (try_borrow_instruction_account ic 0);
  a ← BorrowedAccount.cell config_account;
  guard (negb (length (acc_data a) <? length data)%nat) InstructionError.InvalidInstructionData;;
  BorrowedAccount.set_cell config_account (set_acc_data a (write_prefix data (acc_data a))).

Definition process_config_instruction (dedupe : bool) (first_instruction_account : nat) : program :=
  commit (process_config dedupe) Return.
End config.
