(* ===== verification/ConfigSafety.v ===== *)
(** * Who may update a config account

    A successful update was signed by its new signers and, up to the substitution of one of them
    by the account itself, by the stored ones; it changes the front of the data of the account
    and nothing else, and what it stored is read back. *)

From Stdlib Require Import Strings.Byte.
From S2P Require Import Prelude Sdk Rent Program SystemInstruction Fixtures Transaction Serialization SerializationFacts ReadBack Nonce SystemProgram SystemSafety Runtime RuntimeSafety Message MessageProcessor Loader LoaderFacts CallContexts Ledger LedgerSafety LoaderLedger UpgradeableLoader UpgradeFacts UpgradeSafety LookupSafety ShortVec WireFormat Sigverify SigverifyFacts ConfigProgram.

(** ** Counting signers *)
Lemma all_but_one (l k : list Pubkey) (other : Pubkey) :
  NoDup l -> (forall x, x ∈ l -> x ∈ k) -> (length k <= S (length l))%nat ->
  exists missing, forall x, x ∈ k -> x = missing \/ x ∈ l.
Proof.
  intros Hl Hsub Hlen. destruct (decide (Exists (fun x => x ∉ l) k)) as [Hex|Hno].
  - apply Exists_exists in Hex as (m & Hm%list_elem_of_In & Hml). exists m. intros x Hx.
    assert (incl k (m :: l)) as Hincl.
    { apply (List.NoDup_length_incl (l := m :: l)); [|done|].
      - apply NoDup_ListNoDup. by constructor.
      - intros y [->|Hy%list_elem_of_In]; [by apply list_elem_of_In|]. apply list_elem_of_In. by apply Hsub. }
    destruct (Hincl x) as [->|Hx']; [by apply list_elem_of_In|by left|right; by apply list_elem_of_In].
  - exists other. intros x Hx. right. destruct (decide (x ∈ l)); [done|]. destruct Hno. apply Exists_exists.
    exists x. split; [by apply list_elem_of_In|done].
Qed.

Lemma same_set (l k : list Pubkey) :
  NoDup l -> (forall x, x ∈ l -> x ∈ k) -> (length k <= length l)%nat -> forall x, x ∈ k -> x ∈ l.
Proof.
  intros Hl Hsub Hlen x Hx. apply list_elem_of_In. apply (List.NoDup_length_incl (l := l) (l' := k)); [|done| |].
  - by apply NoDup_ListNoDup.
  - intros y Hy. apply list_elem_of_In, Hsub. by apply list_elem_of_In.
  - by apply list_elem_of_In.
Qed.

(** Different entries have different signers. *)
Lemma NoDup_signers keys : NoDup keys -> NoDup (config_signers keys).
Proof.
  unfold config_signers. induction keys as [|[k b] keys IH]; intros Hn; [constructor|].
  inversion_clear Hn as [|? ? Hx Hn']. cbn [List.filter snd]. destruct b; [|by apply IH]. cbn [map fst].
  constructor; [|by apply IH]. intros Hk. apply Hx. apply list_elem_of_In, in_map_iff in Hk as ([k' b'] & E & Hin).
  cbn in E. subst k'. apply filter_In in Hin as [Hin Hb]. cbn in Hb. subst b'. by apply list_elem_of_In.
Qed.

(** ** One update *)
Section updates.
Context {BC : Bincode}.

(** A new signer signed, at its place or as the config account, and was stored. *)
Definition new_signer (c : InstructionContext) (K : list Pubkey) (key : Pubkey) (s : bool) (cur : ConfigKeys) (k : Pubkey)
    : Prop :=
  (k = key /\ s = true) \/ (signed c K k /\ (cur = [] \/ k ∈ config_signers cur)).

Lemma existsb_elem k l : existsb (fun pubkey => key_eqb pubkey k) l = true -> k ∈ l.
Proof. intros (x & Hx & ->%key_eqb_eq)%existsb_exists. by apply list_elem_of_In. Qed.

Lemma check_signers_ok c key s cur l : forall n tc m tc',
  check_signers c key s cur n l tc = Ok (m, tc') ->
  tc' = tc /\ m = (n + length l)%nat /\ Forall (new_signer c (account_keys tc) key s cur) l.
Proof.
  induction l as [|k l IH]; intros n tc m tc' Hc; cbn [check_signers] in Hc.
  { inv_tx. split_and!; [done|cbn; lia|constructor]. }
  apply tx_bind_ok in Hc as ([] & tc1 & H1 & Hc).
  assert (tc1 = tc /\ new_signer c (account_keys tc) key s cur k) as [-> Hk].
  { destruct (key_eqb k key) eqn:Ek; cbn [negb] in H1.
    - apply key_eqb_eq in Ek. inv_tx. split; [done|by left].
    - inv_tx. split; [done|]. right. destruct (try_borrow_instruction_account c (S n) tc) as [b|e|] eqn:Hb; [|done..].
      match goal with H : map_err _ (Ok b) = Ok ?x |- _ => injection H as <- end.
      apply borrow_instruction_ok in Hb as (ia & a & Hia & Hi & Ha & _ & Hs). split.
      + exists (S n), ia. split_and!; [done|congruence|]. rewrite <-Hi.
        match goal with H : key_eqb _ k = true |- _ => apply key_eqb_eq in H; subst end.
        match goal with H : key_at _ _ = Ok _ |- _ => unfold key_at in H; by apply unwrap_ok in H end.
      + match goal with H : _ || _ = true |- _ => apply orb_true_iff in H as [H%Nat.eqb_eq|H] end.
        * left. by apply nil_length_inv.
        * right. by apply existsb_elem. }
  apply IH in Hc as (-> & -> & Hall). split_and!; [done|cbn; lia|by constructor].
Qed.

(** What a successful update was given and did. *)
Definition config_updated (dedupe : bool) (c : InstructionContext) (tc tc' : TransactionContext) (ia : InstructionAccount)
    (a : Account) (key : Pubkey) (cur new : ConfigKeys) : Prop :=
  instruction_accounts c !! 0%nat = Some ia /\ accounts tc !! index_in_transaction ia = Some a /\
  account_keys tc !! index_in_transaction ia = Some key /\ acc_owner a = config_program_id /\
  deserialize_keys (acc_data a) = Some cur /\ limited_deserialize_keys (instruction_data c) = Some new /\
  (length (instruction_data c) <= length (acc_data a))%nat /\
  accounts tc' = <[index_in_transaction ia := set_acc_data a (write_prefix (instruction_data c) (acc_data a))]> (accounts tc) /\
  (config_signers cur = [] -> ia_is_signer ia = true) /\
  Forall (new_signer c (account_keys tc) key (ia_is_signer ia) cur) (config_signers new) /\
  (length (config_signers cur) <= length (config_signers new))%nat /\ (dedupe = true -> NoDup new).

Lemma process_config_ok dedupe c tc u tc' :
  process_config dedupe c tc = Ok (u, tc') -> exists ia a key cur new, config_updated dedupe c tc tc' ia a key cur new.
Proof.
  unfold process_config. intros Hp. inv_tx.
  match goal with H : limited_deserialize_keys _ = Some ?n |- _ => rename n into new, H into Hnew end.
  match goal with H : deserialize_keys _ = Some ?n |- _ => rename n into cur, H into Hcur end.
  match goal with H : check_signers _ _ _ _ _ _ _ = _ |- _ => apply check_signers_ok in H as (-> & -> & Hall) end.
  match goal with H : try_borrow_instruction_account c 0 tc = Ok ?b, H' : try_borrow_instruction_account c 0 tc = Ok ?b' |- _ =>
    assert (b' = b) as -> by congruence; clear H'; apply borrow_instruction_ok in H as (ia & a & Hia & Hi & Ha & _ & Hs) end.
  repeat match goal with H : accounts tc !! ba_index_in_transaction _ = Some ?x |- _ =>
    rewrite Hi, Ha in H; injection H as <- end.
  match goal with H : _ ≫= _ = Ok ?k |- _ => rename k into key; unfold get_index_of_instruction_account_in_transaction in H;
    rewrite Hia in H; cbn in H; unfold key_at in H; apply unwrap_ok in H end.
  match goal with H : key_eqb _ config_program_id = true |- _ => apply key_eqb_eq in H end.
  match goal with H : BorrowedAccount.set_cell _ _ _ = _ |- _ => injection H as _ <- end. rewrite Hs in *.
  exists ia, a, key, cur, new. unfold config_updated. cbn [accounts with_accounts account_keys]. rewrite Hi.
  split_and!; try done.
  - match goal with H : negb (_ <? length (instruction_data c))%nat = true |- _ => apply negb_true_iff, Nat.ltb_ge in H end. done.
  - intros E. rewrite E in *. by match goal with H : negb (length [] =? 0)%nat || _ = true |- _ => cbn in H end.
  - match goal with H : negb (_ <? length (config_signers cur))%nat = true |- _ => apply negb_true_iff, Nat.ltb_ge in H end. done.
  - intros ->. match goal with H : negb true || _ = true |- _ => by apply bool_decide_eq_true in H end.
Qed.

(** Every stored signer signed; or one of them is missing, and the config account, which is none of
    them, signed in its place. *)
Definition stored_signers_agreed (c : InstructionContext) (K : list Pubkey) (key : Pubkey) (cur : ConfigKeys) : Prop :=
  (forall k, k ∈ config_signers cur -> signed c K k) \/
  (signed c K key /\ key ∉ config_signers cur /\
   exists missing, forall k, k ∈ config_signers cur -> k = missing \/ signed c K k).

Lemma updated_agreed c tc tc' ia a key cur new :
  config_updated true c tc tc' ia a key cur new -> cur <> [] -> NoDup (config_signers cur) ->
  stored_signers_agreed c (account_keys tc) key cur.
Proof.
  intros (Hia & _ & Hkey & _ & _ & _ & _ & _ & _ & Hall & Hlen & Hnd) Hne Hcur.
  specialize (Hnd eq_refl). apply NoDup_signers in Hnd. rewrite Forall_forall in Hall.
  assert (forall k, k ∈ config_signers new -> signed c (account_keys tc) k) as Hsigned.
  { intros k Hk%list_elem_of_In. destruct (Hall k Hk) as [ [-> Hs]|[Hs _] ]; [|done]. by exists 0%nat, ia. }
  assert (forall k, k ∈ config_signers new -> k = key \/ k ∈ config_signers cur) as Hin.
  { intros k Hk%list_elem_of_In. destruct (Hall k Hk) as [ [-> _]|[_ [?|?] ] ]; auto. done. }
  destruct (decide (key ∈ config_signers new /\ key ∉ config_signers cur)) as [ [Hk Hnk]|Hno].
  - right. split_and!; [by apply Hsigned|done|]. destruct (proj1 (elem_of_Permutation _ _) Hk) as [l Hp].
    rewrite Hp in Hnd, Hlen. inversion_clear Hnd as [|? ? Hkl Hl].
    destruct (all_but_one l (config_signers cur) key Hl) as [m Hm].
    + intros x Hx. destruct (Hin x) as [->|]; [rewrite Hp; by right|done|done].
    + cbn in Hlen. lia.
    + exists m. intros x Hx. destruct (Hm x Hx) as [|Hxl]; [by left|]. right. apply Hsigned. rewrite Hp. by right.
  - left. intros k Hk. apply Hsigned. apply (same_set (config_signers new) (config_signers cur)); try done.
    intros x Hx. destruct (Hin x Hx) as [->|]; [|done]. destruct (decide (key ∈ config_signers cur)); [done|naive_solver].
Qed.

Lemma updated_confined dedupe c tc tc' ia a key cur new :
  config_updated dedupe c tc tc' ia a key cur new -> confined c tc tc'.
Proof.
  intros (Hia & _ & _ & _ & _ & _ & _ & Hacc & _). unfold confined. rewrite Hacc. split; [apply length_insert|].
  intros j Hn. apply list_lookup_insert_ne. by eapply Hn.
Qed.

Section instruction.
Variable call : list byte -> list InstructionAccount -> list nat -> InvokeContext ->
  result InstructionError InvokeContext.

(** C21: A successful update writes the instruction data to the front of a config
    account of the program and changes nothing else; every new signer signed, and the
    account itself where none was stored. With the check for duplicates on, and if the
    stored signers are distinct (an account written before the check was active may
    repeat some), all stored signers signed, or all but one of them and the account,
    which is none of them, in its place. *)
Theorem config_update_authorized (dedupe : bool) (K : list Pubkey) (c : InstructionContext) (pid : Pubkey) (first : nat)
    (ic ic' : InvokeContext) (Hready : ready K c pid (transaction_context ic))
    (Hrun : exec call (process_config_instruction dedupe first) ic = Ok ic') :
  same_frame ic ic' /\
  exists ia a key cur new,
    instruction_accounts c !! 0%nat = Some ia /\
    accounts (transaction_context ic) !! index_in_transaction ia = Some a /\ K !! index_in_transaction ia = Some key /\
    acc_owner a = config_program_id /\
    deserialize_keys (acc_data a) = Some cur /\ limited_deserialize_keys (instruction_data c) = Some new /\
    (length (instruction_data c) <= length (acc_data a))%nat /\
    accounts (transaction_context ic') =
      <[index_in_transaction ia := set_acc_data a (write_prefix (instruction_data c) (acc_data a))]>
        (accounts (transaction_context ic)) /\
    Forall (signed c K) (config_signers new) /\
    (config_signers cur = [] -> signed c K key) /\
    (dedupe = true -> cur <> [] -> NoDup (config_signers cur) -> stored_signers_agreed c K key cur).
Proof.
  apply (commit_confined call K c pid) in Hrun as (u & tcr & ic1 & Hp & [= <-] & Hf & Hacc); [|done|].
  2:{ intros u tcr Hp. apply process_config_ok in Hp as (ia & a & key & cur & new & Hup). by eapply updated_confined. }
  apply process_config_ok in Hp as (ia & a & key & cur & new & Hup). pose proof (rd_keys _ _ _ _ Hready) as HK.
  split; [done|]. exists ia, a, key, cur, new. rewrite Hacc.
  pose proof Hup as (Hia & Ha & Hkey & Hown & Hcur & Hnew & Hlen & Hacc' & Hsig & Hall & Hle & Hnd). rewrite HK in *.
  split_and!; try done.
  - eapply Forall_impl; [|exact Hall]. intros k [ [-> Hs]|[Hs _] ]; [by exists 0%nat, ia|done].
  - intros E. exists 0%nat, ia. split_and!; [done|by apply Hsig|done].
  - intros -> Hne Hn. rewrite <-HK. by eapply updated_agreed.
Qed.
End instruction.

End updates.

(** ** Storing and reading *)
Lemma config_keys_typed (keys : ConfigKeys) : typed keys.
Proof. apply Forall_forall. intros [k b] _. by split. Qed.

(** What the builder of an update stores is read back: the list of keys, and behind it the data. *)
Theorem stored_config_read_back {BC : Bincode} {BS : BincodeSpec BC} {T} `{ConfigState T} (key : Pubkey) (s : bool) (keys : ConfigKeys) (d : T)
    (ix : Instruction) (old : list byte)
    (Hstore : store_config (E := InstructionError) key s keys d = Ok ix) (Hfits : (length (ix_data ix) <= length old)%nat) :
  let stored := write_prefix (ix_data ix) old in
  length stored = length old /\ deserialize_keys stored = Some keys /\
  get_config_data stored = Ok (bincode_config d ++ drop (length (ix_data ix)) old).
Proof.
  unfold store_config, config_ix in Hstore. destruct (put keys) as [l|] eqn:Hl; [|done]. injection Hstore as <-.
  cbn [ix_data] in *. cbn zeta. unfold write_prefix.
  assert (next ((l ++ bincode_config d) ++ drop (length (l ++ bincode_config d)) old) =
    Ok (keys, bincode_config d ++ drop (length (l ++ bincode_config d)) old)) as Hnext.
  { rewrite <-app_assoc. apply next_put; [apply config_keys_typed|done]. }
  unfold get_config_data, deserialize_keys. rewrite Hnext. split_and!; [|done|].
  - rewrite length_app, length_drop. lia.
  - cbn [ok_or mbind result_bind]. rewrite Hl. cbn [ok_or mbind result_bind]. unfold slice_from.
    set (rest := drop _ old). rewrite <-(app_assoc l). rewrite <-(app_nil_r (l ++ bincode_config d ++ rest)), <-(app_assoc l) at 1.
    rewrite (slice_app l (bincode_config d ++ rest) []); [done..|]. rewrite !length_app. lia.
Qed.

(** ** Examples *)
#[local] Existing Instance plain_bincode.
#[local] Existing Instance plain_bincode_spec.

Definition cx_config : Pubkey := pubkey_of_Z 801.
Definition cx_a : Pubkey := pubkey_of_Z 802.
Definition cx_b : Pubkey := pubkey_of_Z 803.

(** Two stored signers; an update that replaces the second by the config account. *)
Definition cx_stored : ConfigKeys := [(cx_a, true); (cx_b, true)].
Definition cx_new : ConfigKeys := [(cx_a, true); (cx_config, true)].
Definition cx_data (keys : ConfigKeys) (date : Z) : list byte :=
  default [] (put keys) ++ bincode_config (mkDateConfig date).
Definition cx_frame : InstructionContext :=
  mkInstructionContext 0 [2%nat] [mkInstructionAccount 0 0 0 true true; mkInstructionAccount 1 1 1 true false]
    (cx_data cx_new 7).
Definition cx_context (frame : InstructionContext) (stored : ConfigKeys) : TransactionContext :=
  mkTransactionContext [cx_config; cx_a; config_program_id]
    [mkAccount 5000 (cx_data stored 1) config_program_id false 0;
     mkAccount 9 [] system_program_id false 0; mkAccount 1 [] native_loader_id true 0]
    5 [0%nat] 1 [[frame]] (mkReturnData Pubkey_default []) 10000000 0.
Definition cx_start : InvokeContext :=
  InvokeContext_new (cx_context cx_frame cx_stored) Rent_default 5 (mkFeatures true true true) 0.
Definition cx_after : InvokeContext :=
  match exec lx_call (process_config_instruction true 1) cx_start with Ok ic => ic | _ => cx_start end.

Lemma cx_ready : ready (account_keys (cx_context cx_frame cx_stored)) cx_frame config_program_id (transaction_context cx_start).
Proof.
  split; [done|done| |apply distinct_set_up].
  - repeat constructor; vm_compute; discriminate.
  - apply (bool_decide_unpack _). vm_compute. exact I.
  - reflexivity.
  - vm_compute. reflexivity.
  - apply in_order_listed; [|cbn; lia]. intros i ia Hia.
    do 2 (destruct i as [|i]; [by injection Hia as <-|]). discriminate Hia.
  - cbn. lia.
  - split; vm_compute; discriminate.
Qed.

(** The second signer did not sign: the config account stands in for it. *)
Lemma config_update_authorized_witness :
  same_frame cx_start cx_after /\
  (acc_data <$> accounts (transaction_context cx_after) !! 0%nat) = Some (cx_data cx_new 7) /\
  ~ signed cx_frame (account_keys (cx_context cx_frame cx_stored)) cx_b.
Proof.
  assert (exec lx_call (process_config_instruction true 1) cx_start = Ok cx_after) as Hrun by (vm_compute; reflexivity).
  destruct (config_update_authorized lx_call true _ cx_frame config_program_id 1 cx_start cx_after cx_ready Hrun) as [Hf _].
  split_and!; [exact Hf|vm_compute; reflexivity|]. intros (i & ia & Hia & _ & Hk).
  do 2 (destruct i as [|i]; [injection Hia as <-; vm_compute in Hk; discriminate|]). discriminate.
Defined.

Lemma stored_config_read_back_witness :
  deserialize_keys (cx_data cx_new 7) = Some cx_new /\
  get_config_data (cx_data cx_new 7) = Ok (u64_le 7).
Proof.
  assert (store_config (E := InstructionError) cx_config true cx_new (mkDateConfig 7) =
    Ok (mkInstruction config_program_id (store_metas cx_config true cx_new) (cx_data cx_new 7))) as Hs by reflexivity.
  destruct (stored_config_read_back cx_config true cx_new (mkDateConfig 7) _ (cx_data cx_stored 1) Hs) as (_ & H1 & H2);
    [vm_compute; lia|].
  split; [exact H1|exact H2].
Defined.

(** The builder gives the config account no meta among the signers, but the processor counts it:
    the order of the keys decides whether the instruction it builds can succeed. *)
Definition cx_store_frame (keys : ConfigKeys) : InstructionContext :=
  mkInstructionContext 0 [2%nat] [mkInstructionAccount 0 0 0 true true; mkInstructionAccount 1 1 1 true false]
    (cx_data keys 7).

Lemma store_order_matters :
  store_metas cx_config true [(cx_config, true); (cx_a, true)] = store_metas cx_config true [(cx_a, true); (cx_config, true)] /\
  (fmap (fun _ => tt) (process_config true (cx_store_frame [(cx_a, true); (cx_config, true)])
     (cx_context (cx_store_frame [(cx_a, true); (cx_config, true)]) [(cx_a, true); (cx_config, true)])) = Ok tt) /\
  process_config true (cx_store_frame [(cx_config, true); (cx_a, true)])
    (cx_context (cx_store_frame [(cx_config, true); (cx_a, true)]) [(cx_config, true); (cx_a, true)]) =
    Err InstructionError.MissingRequiredSignature.
Proof. split_and!; vm_compute; reflexivity. Qed.
