(* ===== verification/TokenLedger.v ===== *)
(** * The ledger of the token program

    The supply of a mint that its tokens do not account for ([supply_gap]) is a ledger
    the token program keeps: the instance of [Ledger] for the token program, and the
    conservation of supply by whole messages. *)

From Stdlib Require Import Strings.Byte.
From S2P Require Import Prelude Sdk Rent Program SystemInstruction TokenState TokenInstruction TokenProcessor TokenFacts TokenSupply Transaction Serialization SerializationFacts ReadBack Runtime RuntimeSafety Message MessageProcessor Loader LoaderFacts CallContexts Ledger LedgerSafety.

(** ** Code without calls *)
Definition straight {A} (m : ProgM A) : Prop :=
  forall v, match m v with TCpi _ _ _ _ _ => False | _ => True end.

Lemma straight_bind {A B} (m : ProgM A) (f : A -> ProgM B) :
  straight m -> (forall a, straight (f a)) -> straight (m ≫= f).
Proof.
  intros Hm Hf v. specialize (Hm v). unfold mbind, ProgM_bind. destruct (m v); try done. apply Hf.
Qed.

Lemma straight_lift {A} (r : result ProgramError A) : straight (lift r).
Proof. intros v. unfold lift. by destruct r. Qed.

Lemma straight_ret {A} (a : A) : straight (mret a).
Proof. intros v. done. Qed.

Lemma straight_with_cell {A} i (f : Account -> A) : straight (with_cell i f).
Proof. intros v. unfold with_cell. by destruct (v !! key i). Qed.

Lemma straight_update_cell i f : straight (update_cell i f).
Proof. intros v. unfold update_cell. by destruct (v !! key i). Qed.

Create HintDb straight.
#[export] Hint Resolve straight_lift straight_ret straight_with_cell straight_update_cell : straight.

Ltac straight :=
  repeat first
  [ apply straight_bind; [|intros]
  | progress auto with straight
  | match goal with
    | |- straight (match ?x with _ => _ end) => destruct x
    | |- straight (if ?x then _ else _) => destruct x
    | |- straight (fun _ => _) => fail 1
    end ].

Section straight.
Context {SV : Sysvars}.

Lemma straight_rent i : straight (Rent_from_account_info i).
Proof. unfold Rent_from_account_info, data. straight. Qed.
Lemma straight_rent_get : straight Rent_get.
Proof. apply straight_lift. Qed.
#[local] Hint Resolve straight_rent straight_rent_get : straight.

#[local] Hint Unfold data owner lamports set_data set_lamports data_len require fail_with checked
  unpack_cell unpack_unchecked_cell pack_cell check_account_owner : straight_code.

Ltac straight_code := repeat (straight; progress autounfold with straight_code).

Lemma straight_validate_owner pid o i s : straight (validate_owner pid o i s).
Proof. unfold validate_owner. straight_code. Qed.
Lemma straight_take_rent b it : straight (take_rent b it).
Proof. unfold take_rent. straight_code. Qed.
Lemma straight_check_mint e k : straight (check_mint e k).
Proof. unfold check_mint. straight_code. Qed.
#[local] Hint Resolve straight_validate_owner straight_take_rent straight_check_mint : straight.
Lemma straight_authorize_spend pid t i s x b : straight (authorize_spend pid t i s x b).
Proof. unfold authorize_spend. straight_code. Qed.
Lemma straight_account_authority pid t ai s at_ na : straight (set_account_authority pid t ai s at_ na).
Proof. unfold set_account_authority. straight_code. Qed.
Lemma straight_mint_authority pid m ai s at_ na : straight (set_mint_authority pid m ai s at_ na).
Proof. unfold set_mint_authority. straight_code. Qed.
#[local] Hint Resolve straight_authorize_spend straight_account_authority straight_mint_authority : straight.

Lemma straight_process pid infos input : straight (process pid infos input).
Proof.
  unfold process. straight;
    unfold process_initialize_mint, process_initialize_mint2, _process_initialize_mint,
      process_initialize_account, process_initialize_account2, process_initialize_account3,
      _process_initialize_account, process_initialize_multisig, process_initialize_multisig2,
      _process_initialize_multisig, process_transfer, process_approve, process_revoke,
      process_set_authority, process_mint_to, process_burn, process_close_account,
      process_toggle_freeze_account, process_sync_native; straight_code.
Qed.

End straight.

(** ** Cells keep their size *)
Definition tame (v v' : view) : Prop := dom v' = dom v /\ cells_kept v v'.

Definition balances_ok (v : view) : Prop := forall k a, v !! k = Some a -> is_u64 (acc_lamports a).

Lemma tame_refl v : balances_ok v -> tame v v.
Proof. intros Hv. split; [done|]. intros k a Ha. exists a. split_and!; try done. by eapply Hv. Qed.

Lemma tame_insert v w k a a' :
  tame v w -> v !! k = Some a -> length (acc_data a') = length (acc_data a) ->
  is_u64 (acc_lamports a') -> tame v (<[k := a']> w).
Proof.
  intros [Hd Hk] Ha Hl Hu. split.
  - rewrite dom_insert_L, Hd. apply elem_of_dom_2 in Ha. set_solver.
  - intros j b Hb. rewrite lookup_insert. case_decide as E; [|by apply Hk].
    subst. exists a'. assert (b = a) as -> by congruence. done.
Qed.

Lemma account_pack_size (t : TokenAccount) d d' : pack t d = Ok d' -> length d' = length d.
Proof. intros [Hl ->]%pack_ok. cbn in *. unfold Account_pack_into_slice. norm_len. done. Qed.

Lemma mint_pack_size (m : Mint) d d' : pack m d = Ok d' -> length d' = length d.
Proof. intros [Hl ->]%pack_ok. cbn in *. unfold Mint_pack_into_slice. norm_len. done. Qed.

Section tame.
Context {SV : Sysvars}.

Lemma account_update_tame i t t' v v' : balances_ok v -> account_update i t t' v v' -> tame v v'.
Proof.
  intros Hv (a & d & Ha & _ & Hp & ->). eapply tame_insert; [by apply tame_refl|done|..]; cbn.
  - by eapply account_pack_size.
  - by eapply Hv.
Qed.

Lemma mint_update_tame i m m' v v' : balances_ok v -> mint_update i m m' v v' -> tame v v'.
Proof.
  intros Hv (a & d & Ha & _ & Hp & ->). eapply tame_insert; [by apply tame_refl|done|..]; cbn.
  - by eapply mint_pack_size.
  - by eapply Hv.
Qed.

Lemma transfer_tame pid accounts amount dec v u v' :
  process_transfer pid accounts amount dec v = TOk u v' -> is_u64 amount -> balances_ok v -> tame v v'.
Proof.
  intros H Ham Hv. apply process_transfer_ok in H as [H].
  destruct H as (si & di & ai & sg & mints & sc & dc & s & d & s' & _ & Hsc & _ & Hdc & _ & _ & _ & _ & _ & _ & _ & H).
  destruct H as [[_ ->]|(Hne & _ & ds & dd & ls & ld & Hps & Hpd & Hl & ->)]; [by apply tame_refl|].
  pose proof (Hv _ _ Hsc) as Hus. pose proof (Hv _ _ Hdc) as Hud.
  assert (is_u64 ls /\ is_u64 ld) as [Hls Hld].
  { unfold is_u64 in *. destruct (is_native s); [|by destruct Hl as [-> ->]]. lia. }
  eapply tame_insert; [eapply tame_insert; [by apply tame_refl|exact Hsc|..]|exact Hdc|..]; cbn; try done;
    by eapply account_pack_size.
Qed.

Lemma mint_to_tame pid accounts amount dec v u v' :
  process_mint_to pid accounts amount dec v = TOk u v' -> balances_ok v -> tame v v'.
Proof.
  intros H Hv. apply process_mint_to_ok in H as (mi & di & oi & sg & mc & m & dc & d & k & dd & md & H).
  destruct H as (_ & Hdc & _ & Hmc & _ & _ & _ & _ & _ & _ & _ & _ & _ & _ & Hpd & Hpm & _ & ->).
  eapply tame_insert; [eapply tame_insert; [by apply tame_refl|exact Hdc|..]|exact Hmc|..]; cbn;
    eauto using account_pack_size, mint_pack_size; by eapply Hv.
Qed.

Lemma burn_tame pid accounts amount dec v u v' :
  process_burn pid accounts amount dec v = TOk u v' -> balances_ok v -> tame v v'.
Proof.
  intros H Hv. apply process_burn_ok in H as (si & mi & ai & sg & mc & m & sc & s & s' & sd & md & H).
  destruct H as (_ & Hsc & _ & Hmc & _ & _ & _ & _ & _ & _ & _ & _ & _ & Hps & Hpm & _ & ->).
  eapply tame_insert; [eapply tame_insert; [by apply tame_refl|exact Hsc|..]|exact Hmc|..]; cbn;
    eauto using account_pack_size, mint_pack_size; by eapply Hv.
Qed.

Lemma close_tame pid accounts v u v' :
  process_close_account pid accounts v = TOk u v' -> balances_ok v -> tame v v'.
Proof.
  intros H Hv. apply process_close_account_ok in H
    as (si & di & ai & sg & sc & s & dc & _ & Hne & Hsc & Hs & Hdc & _ & _ & Hle & ->).
  pose proof (Hv _ _ Hsc) as Hus. pose proof (Hv _ _ Hdc) as Hud.
  eapply tame_insert; [eapply tame_insert; [by apply tame_refl|exact Hdc|..]|exact Hsc|..]; cbn; try done.
  - unfold is_u64 in *. lia.
  - apply unpack_ok in Hs as [Hs _]. by rewrite Hs.
Qed.
Lemma initialize_mint_tame accounts dec ma fa b v u v' :
  _process_initialize_mint accounts dec ma fa b v = TOk u v' -> balances_ok v -> tame v v'.
Proof.
  intros H Hv. apply process_initialize_mint_ok in H as (mi & rest & a & m & d & _ & Ha & _ & _ & Hp & ->).
  eapply tame_insert; [by apply tame_refl|exact Ha|by eapply mint_pack_size|exact (Hv _ _ Ha)].
Qed.

Lemma initialize_account_tame pid accounts oa b v u v' :
  _process_initialize_account pid accounts oa b v = TOk u v' -> balances_ok v -> tame v v'.
Proof.
  intros H Hv. apply process_initialize_account_ok in H
    as (ni & mi & rest & a & t & o & nat & am & d & _ & Ha & _ & _ & _ & _ & _ & Hp & ->).
  eapply tame_insert; [by apply tame_refl|exact Ha|by eapply account_pack_size|exact (Hv _ _ Ha)].
Qed.

Lemma initialize_multisig_tame accounts m b v u v' :
  _process_initialize_multisig accounts m b v = TOk u v' -> balances_ok v -> tame v v'.
Proof.
  intros H Hv. apply process_initialize_multisig_ok in H as (i & rest & a & ms & d & _ & Ha & Hms & _ & H).
  cbv zeta in H. destruct H as (Hn & _ & Hp & ->). apply unpack_unchecked_ok in Hms as [_ Hr].
  apply unpack_in_range in Hr. cbn in Hr. unfold multisig_in_range in Hr.
  eapply tame_insert; [by apply tame_refl|exact Ha| |exact (Hv _ _ Ha)]. cbn.
  apply pack_then_length in Hp as [-> ->]; [done|]. cbn. unfold multisig_in_range. cbn.
  rewrite length_app, length_fmap, length_drop, Hr. lia.
Qed.

Lemma approve_tame pid accounts amount dec v u v' :
  process_approve pid accounts amount dec v = TOk u v' -> balances_ok v -> tame v v'.
Proof.
  intros H Hv. apply process_approve_ok in H as (si & mints & di & oi & sg & t & _ & _ & _ & _ & H).
  by eapply account_update_tame.
Qed.

Lemma revoke_tame pid accounts v u v' :
  process_revoke pid accounts v = TOk u v' -> balances_ok v -> tame v v'.
Proof.
  intros H Hv. apply process_revoke_ok in H as (si & oi & sg & t & _ & _ & _ & H).
  by eapply account_update_tame.
Qed.

Lemma set_authority_tame pid accounts at_ na v u v' :
  process_set_authority pid accounts at_ na v = TOk u v' -> balances_ok v -> tame v v'.
Proof.
  intros H Hv. apply process_set_authority_ok in H
    as (i & ai & sg & _ & [(t & t' & _ & _ & H)|(m & m' & _ & H)]);
    [by eapply account_update_tame|by eapply mint_update_tame].
Qed.

Lemma toggle_freeze_tame pid accounts b v u v' :
  process_toggle_freeze_account pid accounts b v = TOk u v' -> balances_ok v -> tame v v'.
Proof.
  intros H Hv. apply process_toggle_freeze_ok in H
    as (si & mi & ai & sg & t & mc & m & k & _ & _ & _ & _ & _ & _ & _ & _ & H).
  by eapply account_update_tame.
Qed.

Lemma sync_native_tame pid accounts v u v' :
  process_sync_native pid accounts v = TOk u v' -> balances_ok v -> tame v v'.
Proof.
  intros H Hv. apply process_sync_native_ok in H as (i & rest & t & a & r & _ & _ & _ & _ & _ & _ & H).
  by eapply account_update_tame.
Qed.

Lemma process_tame pid accounts input v v' :
  balances_ok v -> process pid accounts input v = TOk tt v' -> tame v v'.
Proof.
  intros Hv H. unfold process in H. apply prog_bind_ok in H as (i & w & Hi & H). apply lift_ok in Hi as [Hi ->].
  apply token_unpack_in_range in Hi. destruct i; cbn in Hi;
    eauto using initialize_mint_tame, initialize_account_tame, initialize_multisig_tame, approve_tame,
      revoke_tame, set_authority_tame, mint_to_tame, burn_tame, close_tame, toggle_freeze_tame,
      sync_native_tame, transfer_tame.
Qed.

(** ** The instance *)

(** What a cell contributes to the gap of the mint [M]. *)
Definition gap_at (pid M : Pubkey) (k : Pubkey) (a : Account) : Z :=
  (if key_eqb k M then recorded pid a else 0) - circulating pid M a.

Lemma supply_gap_keyed pid M v : supply_gap pid M v = keyed_sum (gap_at pid M) v.
Proof.
  induction v as [|k a v Hk IH] using map_ind; [done|].
  rewrite keyed_sum_insert, <-IH by done. unfold supply_gap, recorded_supply, gap_at.
  rewrite store_sum_insert_new by done. destruct (key_eqb k M) eqn:E.
  - apply key_eqb_eq in E as <-. rewrite lookup_insert_eq, Hk. lia.
  - apply key_eqb_neq in E. rewrite lookup_insert_ne by done. lia.
Qed.

Lemma all_zero_eq d : all_zero d = true -> d = replicate (length d) x00.
Proof.
  induction d as [|b d IH]; [done|]. unfold all_zero. cbn [forallb length replicate].
  intros [Hb Hd]%andb_true_iff. apply u8_eqb_eq in Hb as <-.
  f_equal. auto.
Qed.

Lemma zero_cell pid M k a : all_zero (acc_data a) = true -> gap_at pid M k a = 0 /\ cell_wf a.
Proof.
  intros Hz%all_zero_eq.
  assert (forall t, unpack (T:=TokenAccount) (acc_data a) <> Ok t) as Ht.
  { intros t Ht. pose proof Ht as (Hl & _)%unpack_ok. rewrite Hz, Hl in Ht. by vm_compute in Ht. }
  assert (forall m, unpack (T:=Mint) (acc_data a) <> Ok m) as Hm.
  { intros m Hm. pose proof Hm as (Hl & _)%unpack_ok. rewrite Hz, Hl in Hm. by vm_compute in Hm. }
  split.
  - unfold gap_at, recorded, circulating. destruct (key_eqb _ pid); [|by case_match].
    destruct (unpack (T:=TokenAccount) _) as [t| |]; [by destruct (Ht t)|..];
      (destruct (unpack (T:=Mint) _) as [m| |]; [by destruct (Hm m)|..]); by case_match.
  - split; [intros t E; by destruct (Ht t)|]. intros m E _. pose proof E as (Hl & _)%unpack_unchecked_ok.
    rewrite Hz, Hl in E. vm_compute in E. by injection E as <-.
Qed.

#[export] Instance token_ledger pid M : M <> native_mint_id -> Ledger pid process (gap_at pid M) cell_wf.
Proof.
  intros HM. split.
  - intros k a b Ho Hd. unfold gap_at, recorded, circulating, cell_wf. by rewrite Ho, Hd.
  - intros k a Ho. unfold gap_at. destruct (foreign_cell pid M a Ho) as [-> ->]. by case_match.
  - intros k a. apply zero_cell.
  - intros infos data v _. apply straight_process.
  - intros infos data v v' Hv Hrun. eapply process_tame; [|exact Hrun].
    intros k a Ha. by apply Hv in Ha as [[? _] _].
  - intros infos data v v' Hv Hrun Hext.
    destruct (process_conserved pid infos data v v') as [Hwf Hgap].
    + intros k a Ha. by apply Hv in Ha as [[? _] _].
    + intros k a Ha Ho. by apply Hv in Ha as [_ ?]; auto.
    + intros k a a' Ha Ha' Ho. by eapply Hext.
    + done.
    + rewrite <-!supply_gap_keyed. split; [by apply Hgap|done].
Qed.

End tame.
