(* ===== verification/TokenRuntime.v ===== *)
(** * Token supply across whole messages

    The token program, run by the loader, called by other programs, in messages of the
    runtime: no message changes the difference between the supply a mint records and the
    tokens in circulation, whatever the other programs do. *)

From Stdlib Require Import Strings.Byte.
From S2P Require Import Prelude Sdk Rent Program SystemInstruction Fixtures TokenState TokenInstruction TokenProcessor TokenFacts TokenSupply Transaction Serialization SerializationFacts ReadBack Runtime RuntimeSafety Message MessageProcessor MessageFixtures Loader LoaderFacts CallContexts Ledger LedgerSafety TokenLedger LoaderLedger UpgradeableLoader UpgradeFacts.

(** The loaders, which are one program under three names. *)
Definition loader_ids : list Pubkey :=
  [bpf_loader_deprecated_id; bpf_loader_id; bpf_loader_upgradeable_id].

(** A built-in that does not complete when [pid] is the current program. *)
Definition never_as `{LoaderBincode} (pid : Pubkey) (p : nat -> program) : Prop :=
  forall first call ic ic' c,
    get_current_instruction_context (transaction_context ic) = Ok c ->
    get_last_program_key c (transaction_context ic) = Ok pid -> exec call (p first) ic <> Ok ic'.

Lemma straight_typed (code : contract) :
  (forall pid infos data, straight (code pid infos data)) -> contract_typed code.
Proof. intros Hs pid infos data v _. specialize (Hs pid infos data v). by destruct (code _ _ _ _); try constructor. Qed.

(** C1: Whatever the programs run by the loader and the other built-ins do, nested calls
    included, a message the runtime processes successfully keeps, for every mint of the
    token program other than the native one, the difference between the supply the mint
    records and the tokens in circulation over all accounts of the transaction, and
    keeps the accounts of the token program well formed. The programs are arbitrary code
    whose values have the types of the source, the instructions that deploy programs are
    the loader's own, and the other built-ins store typed accounts, call with at most
    255 accounts and never run as the token program, which is the code of the current
    loaders. Of the message it is assumed that its instructions list accounts of the
    message itself; that an account is listed again only if it is first listed before
    position 255; that no program of the second loader (BPFLoader2) which one
    instruction calls directly, and which is therefore loaded again, is listed by an
    instruction; that of the accounts loaded for a program only the last has its
    address; and that the instructions sysvar, if it is loaded, is read-only and not an
    account of the token program. *)
Theorem message_conserves_supply `{Crypto} `{Sysvars} `{LoaderBincode} `{UpgradeableBincode} `{SystemBincode}
    (features : Features) (disable_deprecated_loader : bool)
    (get_executor : Pubkey -> option contract) (from_elf : list byte -> result InstructionError contract)
    (execute_deprecated : contract -> program)
    (env : LoaderEnv) (verify_elf : list byte -> result InstructionError contract)
    (natives : list (Pubkey * (nat -> program)))
    (token M : Pubkey) (fuel : nat) (message : SanitizedMessage) (program_indices : list (list nat))
    (tc tc' : TransactionContext) (rent : Rent) (max_invoke_depth : nat) (len delta : Z)
    (HM : M <> native_mint_id)
    (Htoken : check_loader_id token = false)
    (Hget : get_executor token = Some process)
    (Hcached : forall pid code, get_executor pid = Some code -> contract_typed code)
    (Helf : forall bytes code, from_elf bytes = Ok code -> contract_typed code)
    (Hdeprecated : forall code, contract_typed code -> well_behaved (fun _ => execute_deprecated code))
    (Hcurrent : forall call ic ic', exec call (execute_deprecated process) ic <> Ok ic')
    (Hencoding : encodes_creation)
    (Hnatives : forall entry, entry ∈ natives -> well_behaved entry.2 /\ never_as token entry.2)
    (Hidle : idle token cell_wf tc)
    (Hadmissible : forall ci pis, (ci, pis) ∈ combine (SanitizedMessage.instructions message) program_indices ->
       admissible (account_keys tc) (accounts tc) ci pis)
    (Hsysvar : forall j, account_keys tc !! j = Some instructions_sysvar_id ->
       SanitizedMessage.is_writable (E:=TransactionError) message j <> Ok true)
    (Hrun : process_message
       (((fun id => (id, process_instruction_common features disable_deprecated_loader get_executor
            from_elf execute_deprecated (process_loader_upgradeable_instruction env verify_elf)
            (process_loader_instruction verify_elf))) <$> loader_ids) ++ natives)
       fuel message program_indices tc rent features max_invoke_depth len = Ok (delta, tc')) :
  idle token cell_wf tc' /\
  supply_gap token M (all_accounts tc') = supply_gap token M (all_accounts tc).
Proof.
  rewrite !supply_gap_keyed. pose proof (token_ledger token M HM).
  eapply (message_ledger token process _ cell_wf features); [| |exact Hsysvar|done|exact Hidle|exact Hadmissible|exact Hrun].
  - intros entry [(id & -> & _)%list_elem_of_fmap|Hn]%elem_of_app;
      [by apply loader_well_behaved; auto using upgradeable_well_behaved, plain_well_behaved|].
    by apply Hnatives.
  - intros entry [(id & -> & _)%list_elem_of_fmap|Hn]%elem_of_app; [by apply loader_runs|].
    intros first call ic ic' c Hc Hp _ He. by destruct (proj2 (Hnatives _ Hn) first call ic ic' c).
Qed.

(** ** A concrete message

    A program deployed with the loader is asked to pay fifty tokens from one of its
    accounts to another, and calls the token program to do so. *)
Definition tx_caller : Pubkey := toy_key 301.
Definition tx_native : Pubkey := toy_key 302.

Definition tx_caller_code : contract := fun _ infos _ =>
  ix ← lift (transfer spl_token_id ex_alice_tokens ex_bob_tokens ex_alice [] 50);
  invoke ix infos.

Definition tx_executors (pid : Pubkey) : option contract :=
  if key_eqb pid spl_token_id then Some process
  else if key_eqb pid tx_caller then Some tx_caller_code else None.

Definition tx_refuse (_ : nat) : program := Abort_with InstructionError.UnsupportedProgramId.

(** No program is deployed by the message: the instructions of the loader do not decode. *)
Definition tx_loader_bincode : UpgradeableBincode := {|
  bincode_serialize_loader _ := [];
  bincode_serialize_upgradeable _ := [];
  limited_deserialize_upgradeable _ := None;
  bincode_serialize_plain _ := [];
  limited_deserialize_plain _ := None
|}.
#[local] Existing Instance tx_loader_bincode.

Definition tx_no_elf (_ : list byte) : result InstructionError contract := Err InstructionError.InvalidAccountData.
Definition tx_env : LoaderEnv := mkLoaderEnv true (Some Rent_default) (Some 0).

Definition tx_loader : nat -> program :=
  process_instruction_common mx_features true tx_executors tx_no_elf
    (fun _ => tx_refuse 0) (process_loader_upgradeable_instruction tx_env tx_no_elf)
    (process_loader_instruction tx_no_elf).

Definition tx_program : Account := mkAccount 1 [] bpf_loader_id true 0.

Definition tx_cell (k : Pubkey) : Pubkey * Account := (k, default tx_program (ex_tokens !! k)).

Definition tx_tc : TransactionContext :=
  TransactionContext_new
    [tx_cell ex_alice; tx_cell ex_alice_tokens; tx_cell ex_bob_tokens; tx_cell ex_mint;
     (spl_token_id, tx_program); (tx_caller, mkAccount 0 [] system_program_id false 0);
     (bpf_loader_id, mkAccount 1 [] native_loader_id true 0); (tx_caller, tx_program)] 5 1 0.

Definition tx_message : SanitizedMessage :=
  LegacyMessage (Legacy.mkMessage (mkHeader 1 0 3)
    [ex_alice; ex_alice_tokens; ex_bob_tokens; ex_mint; spl_token_id; tx_caller] Pubkey_default
    [mkCompiled 5 [1; 2; 0; 4]%nat []]).

Definition tx_run : result TransactionError (Z * TransactionContext) :=
  process_message (((fun id => (id, tx_loader)) <$> loader_ids) ++ [(tx_native, tx_refuse)])
    6 tx_message [[6%nat; 7%nat]] tx_tc Rent_default mx_features 4 0.

(** The amounts of the two holders after the message. *)
Definition tx_amounts (tc : TransactionContext) : list (result ProgramError Z) :=
  (fun i => a ← match accounts tc !! i with Some a => Ok a | None => Panic end;
            t ← unpack (T:=TokenAccount) (acc_data a); Ok (ta_amount t)) <$> [1; 2]%nat.

Definition tx_after : TransactionContext := match tx_run with Ok (_, tc) => tc | _ => tx_tc end.

Lemma tx_run_ok : tx_run = Ok (0, tx_after).
Proof. vm_compute. reflexivity. Qed.

Lemma tx_caller_typed : contract_typed tx_caller_code.
Proof.
  intros pid infos data v Hv. unfold tx_caller_code, mbind, ProgM_bind, lift, invoke, invoke_signed.
  destruct (transfer _ _ _ _ _ _); [|apply typed_err|apply typed_panic].
  apply typed_cpi; [done|]. intros v' _. apply typed_ok.
Qed.

Lemma tx_token_code : tx_executors spl_token_id = Some process.
Proof. unfold tx_executors. by rewrite (proj2 (key_eqb_eq _ _) eq_refl). Qed.

Lemma tx_executors_typed pid code : tx_executors pid = Some code -> contract_typed code.
Proof.
  unfold tx_executors. destruct (key_eqb pid spl_token_id).
  { intros [= <-]. apply straight_typed. apply straight_process. }
  destruct (key_eqb pid tx_caller); [|done]. intros [= <-]. apply tx_caller_typed.
Qed.

Lemma tx_refuse_ok : well_behaved tx_refuse.
Proof. intros first K c pid tc _ _. constructor. Qed.

Lemma tx_encoding : encodes_creation.
Proof.
  intros lamports space owner. cbn [bincode_serialize_system ref_bincode].
  rewrite !length_app, !length_u64_le, length_to_bytes. by apply is_u64b_spec.
Qed.

Definition account_typedb (a : Account) : bool :=
  is_u64b (acc_lamports a) && is_u64b (acc_rent_epoch a)
  && (Z.of_nat (length (acc_data a)) <=? MAX_PERMITTED_DATA_LENGTH).

Lemma account_typedb_ok a : account_typedb a = true -> account_typed a.
Proof.
  unfold account_typedb. rewrite !andb_true_iff, Z.leb_le. intros [[Hl He] Hd].
  by split_and!; [apply is_u64b_spec..|].
Qed.

Lemma tx_no_sysvar j : account_keys tx_tc !! j <> Some instructions_sysvar_id.
Proof.
  intros Hj%list_elem_of_lookup_2. revert Hj. apply (bool_decide_unpack _). vm_compute. exact I.
Qed.

Lemma tx_idle : idle spl_token_id cell_wf tx_tc.
Proof.
  split.
  - done.
  - done.
  - intros j a Hj. by destruct (tx_no_sysvar j).
  - apply Forall_forall. intros a Ha. apply account_typedb_ok.
    assert (forallb account_typedb (accounts tx_tc) = true) as Hall by vm_true.
    rewrite forallb_forall in Hall. by apply Hall.
  - apply (ledger_wfb_ok spl_token_id (all_accounts tx_tc)). vm_true.
Qed.

(** The program is loaded after the message, whose other accounts occur once. *)
Lemma tx_sole j : j ∈ [1; 2; 0; 4]%nat -> sole_position (account_keys tx_tc) j.
Proof.
  rewrite !elem_of_cons, elem_of_nil. intros Hj.
  destruct_or! Hj; subst; try done; apply sole_checked, (bool_decide_unpack _); vm_compute; exact I.
Qed.

Lemma tx_admissible : admissible (account_keys tx_tc) (accounts tx_tc) (mkCompiled 5 [1; 2; 0; 4]%nat []) [6; 7]%nat.
Proof.
  split; cbn [ci_accounts ci_data length].
  - intros i j n [Hi _] _ _. apply lookup_lt_Some in Hi. cbn in Hi. lia.
  - by apply is_u64b_spec.
  - by apply is_u64b_spec.
  - intros j Hj. by apply sole_first, tx_sole.
  - intros j p a Hj Hne [k Hk] Hp. destruct Hne. eapply (tx_sole j Hj); [exact Hk|congruence].
  - cbn. intros i j [= <-] Hj Hk. rewrite !elem_of_cons, elem_of_nil in Hj.
    by destruct_or! Hj; subst.
Qed.

Lemma message_conserves_supply_witness :
  tx_amounts tx_tc = [Ok 700; Ok 300] /\ tx_amounts tx_after = [Ok 650; Ok 350] /\
  idle spl_token_id cell_wf tx_after /\
  supply_gap spl_token_id ex_mint (all_accounts tx_after) = supply_gap spl_token_id ex_mint (all_accounts tx_tc).
Proof.
  split; [vm_true|]. split; [vm_true|].
  apply (message_conserves_supply mx_features true tx_executors
    tx_no_elf (fun _ => tx_refuse 0) tx_env tx_no_elf
    [(tx_native, tx_refuse)] spl_token_id ex_mint 6 tx_message [[6%nat; 7%nat]] tx_tc tx_after
    Rent_default 4 0 0).
  - apply (bool_decide_unpack _). vm_compute. exact I.
  - vm_true.
  - exact tx_token_code.
  - exact tx_executors_typed.
  - intros bytes code Hc. discriminate Hc.
  - intros code _ first K c pid tc _ _. constructor.
  - intros call ic ic' He. discriminate He.
  - exact tx_encoding.
  - intros entry ->%list_elem_of_singleton. split; [exact tx_refuse_ok|].
    intros first call ic ic' c _ _ He. discriminate He.
  - exact tx_idle.
  - intros ci pis Hin%list_elem_of_singleton. injection Hin as -> ->. exact tx_admissible.
  - intros j Hj. by destruct (tx_no_sysvar j).
  - exact tx_run_ok.
Defined.
