(* ===== verification/VoteState.v ===== *)
(** * The state of a vote account

    [programs/vote/src/vote_state/mod.rs] (the tower of votes with its lockouts, the
    checks of a vote against the history of the bank, the credits and the authorized
    voters), [vote_state_versions.rs], [vote_state_0_23_5.rs], [authorized_voters.rs]
    and [vote_error.rs].

    A slot, an epoch and a credit are [u64]s, a confirmation count is a [u32], a
    timestamp is an [i64]; plain [+] wraps.  A [VecDeque] is a list whose head is its
    front.  The binary search of [contains_slot] is membership: the votes of an account
    are sorted ([VoteTower.tower_wf]). Log messages and metrics are dropped. *)

From Stdlib Require Import Strings.Byte.
From S2P Require Import Prelude Sdk Rent Nonce.

Definition MAX_LOCKOUT_HISTORY : nat := 31.
Definition INITIAL_LOCKOUT : Z := 2.
Definition MAX_EPOCH_CREDITS_HISTORY : nat := 64.
Definition MAX_ITEMS : nat := 32.

Inductive VoteError : Type :=
| VoteTooOld | SlotsMismatch | SlotHashMismatch | EmptySlots | TimestampTooOld
| TooSoonToReauthorize | LockoutConflict | NewVoteStateLockoutMismatch | SlotsNotOrdered
| ConfirmationsNotOrdered | ZeroConfirmations | ConfirmationTooLarge | RootRollBack
| ConfirmationRollBack | SlotSmallerThanRoot | TooManyVotes | VotesTooOldAllFiltered
| RootOnDifferentFork | ActiveVoteAccountClose.

(** [ToPrimitive::to_u64] and [.into()] *)
Definition VoteError_code (e : VoteError) : Z :=
  match e with
  | VoteTooOld => 0 | SlotsMismatch => 1 | SlotHashMismatch => 2 | EmptySlots => 3
  | TimestampTooOld => 4 | TooSoonToReauthorize => 5 | LockoutConflict => 6
  | NewVoteStateLockoutMismatch => 7 | SlotsNotOrdered => 8 | ConfirmationsNotOrdered => 9
  | ZeroConfirmations => 10 | ConfirmationTooLarge => 11 | RootRollBack => 12
  | ConfirmationRollBack => 13 | SlotSmallerThanRoot => 14 | TooManyVotes => 15
  | VotesTooOldAllFiltered => 16 | RootOnDifferentFork => 17 | ActiveVoteAccountClose => 18
  end.
Definition vote_error (e : VoteError) : InstructionError :=
  instruction_error_from_u64 (VoteError_code e).

(** ** Votes *)
Record Vote : Type := mkVote {
  slots : list Z;
  vote_hash : Hash;
  vote_timestamp : option Z
}.

Record Lockout : Type := mkLockout {
  slot : Z;
  confirmation_count : Z
}.

Module Lockout.

Definition new (slot : Z) : Lockout := mkLockout slot 1.

Definition lockout (l : Lockout) : Z := wrap64 (INITIAL_LOCKOUT ^ confirmation_count l).

Definition last_locked_out_slot (l : Lockout) : Z := wrapping_add (slot l) (lockout l).

Definition is_locked_out_at_slot (l : Lockout) (s : Z) : bool := s <=? last_locked_out_slot l.

End Lockout.

Record VoteStateUpdate : Type := mkVoteStateUpdate {
  lockouts : list Lockout;
  root : option Z;
  update_hash : Hash;
  update_timestamp : option Z
}.

Definition VoteStateUpdate_new (l : list Lockout) (r : option Z) (h : Hash) : VoteStateUpdate :=
  mkVoteStateUpdate l r h None.
Definition VoteStateUpdate_from (recent_slots : list (Z * Z)) : VoteStateUpdate :=
  mkVoteStateUpdate ((fun x => mkLockout x.1 x.2) <$> recent_slots) None Pubkey_default None.
Definition VoteStateUpdate_slots (u : VoteStateUpdate) : list Z := slot <$> lockouts u.

Record VoteInit : Type := mkVoteInit {
  init_node_pubkey : Pubkey;
  init_authorized_voter : Pubkey;
  init_authorized_withdrawer : Pubkey;
  init_commission : byte
}.

Inductive VoteAuthorize : Type := Voter | Withdrawer.

(** [VoteTransaction]: either kind of vote. *)
Inductive VoteTransaction : Type :=
| TxVote (v : Vote)
| TxVoteStateUpdate (u : VoteStateUpdate).

Module VoteTransaction.

Definition slots (t : VoteTransaction) : list Z :=
  match t with TxVote v => slots v | TxVoteStateUpdate u => VoteStateUpdate_slots u end.
Definition slot (t : VoteTransaction) (i : nat) : result VoteError Z :=
  match t with
  | TxVote v => unwrap (VoteState.slots v !! i)
  | TxVoteStateUpdate u => unwrap (VoteState.slot <$> lockouts u !! i)
  end.
Definition timestamp (t : VoteTransaction) : option Z :=
  match t with TxVote v => vote_timestamp v | TxVoteStateUpdate u => update_timestamp u end.
Definition set_timestamp (t : VoteTransaction) (ts : option Z) : VoteTransaction :=
  match t with
  | TxVote v => TxVote (mkVote (VoteState.slots v) (vote_hash v) ts)
  | TxVoteStateUpdate u =>
      TxVoteStateUpdate (mkVoteStateUpdate (lockouts u) (root u) (update_hash u) ts)
  end.
Definition len (t : VoteTransaction) : nat :=
  match t with TxVote v => length (VoteState.slots v) | TxVoteStateUpdate u => length (lockouts u) end.
Definition hash (t : VoteTransaction) : Hash :=
  match t with TxVote v => vote_hash v | TxVoteStateUpdate u => update_hash u end.
Definition last_voted_slot (t : VoteTransaction) : option Z :=
  match t with
  | TxVote v => list.last (VoteState.slots v)
  | TxVoteStateUpdate u => VoteState.slot <$> list.last (lockouts u)
  end.
Definition last_voted_slot_hash (t : VoteTransaction) : option (Z * Hash) :=
  s ← last_voted_slot t; Some (s, hash t).

End VoteTransaction.

Record BlockTimestamp : Type := mkBlockTimestamp {
  bt_slot : Z;
  bt_timestamp : Z
}.

(** ** [CircBuf] *)
Record CircBuf (I : Type) : Type := mkCircBuf {
  buf : list I;
  idx : nat;
  is_empty : bool
}.
Arguments mkCircBuf {I}.
Arguments buf {I}.
Arguments idx {I}.
Arguments is_empty {I}.

Module CircBuf.

Definition default {I} (x : I) : CircBuf I :=
  mkCircBuf (replicate MAX_ITEMS x) (MAX_ITEMS - 1) true.

(** [self.buf[self.idx] = item]: the index is below [MAX_ITEMS]. *)
Definition append {I} (b : CircBuf I) (item : I) : CircBuf I :=
  let i := ((idx b + 1) mod MAX_ITEMS)%nat in
  mkCircBuf (<[i := item]> (buf b)) i false.

Definition last {I} (b : CircBuf I) : option I :=
  if negb (is_empty b) then buf b !! idx b else None.

End CircBuf.

(** ** [AuthorizedVoters]: a [BTreeMap] from epochs to voters *)
Abbreviation AuthorizedVoters := (gmap Z Pubkey) (only parsing).

(** The entry with the largest key ([iter().next_back()]). *)
Definition later (a b : option (Z * Pubkey)) : option (Z * Pubkey) :=
  match a, b with
  | Some x, Some y => if x.1 <? y.1 then Some y else Some x
  | Some x, None => Some x
  | None, b => b
  end.
Definition next_back (m : AuthorizedVoters) : option (Z * Pubkey) :=
  map_fold (fun k p acc => later acc (Some (k, p))) None m.

Module AuthorizedVoters.

Definition new (epoch : Z) (pubkey : Pubkey) : AuthorizedVoters := {[ epoch := pubkey ]}.

(** [range(0..epoch)] *)
Definition range_below (m : AuthorizedVoters) (epoch : Z) : AuthorizedVoters :=
  filter (fun e => e.1 < epoch) m.

Definition get_or_calculate_authorized_voter_for_epoch (m : AuthorizedVoters) (epoch : Z)
    : option (Pubkey * bool) :=
  match m !! epoch with
  | Some pubkey => Some (pubkey, true)
  | None => '(_, pubkey) ← next_back (range_below m epoch); Some (pubkey, false)
  end.

Definition get_authorized_voter (m : AuthorizedVoters) (epoch : Z) : option Pubkey :=
  '(pubkey, _) ← get_or_calculate_authorized_voter_for_epoch m epoch; Some pubkey.

Definition get_and_cache_authorized_voter_for_epoch (m : AuthorizedVoters) (epoch : Z)
    : option (Pubkey * AuthorizedVoters) :=
  '(pubkey, existed) ← get_or_calculate_authorized_voter_for_epoch m epoch;
  Some (pubkey, if existed : bool then m else <[epoch := pubkey]> m).

(** The [assert!] is on the map that is left. *)
Definition purge_authorized_voters {E} (m : AuthorizedVoters) (current_epoch : Z)
    : result E AuthorizedVoters :=
  let m := filter (fun e : Z * Pubkey => ~ e.1 < current_epoch) m in
  assert_ (negb (bool_decide (m = ∅)));;
  Ok m.

Definition contains (m : AuthorizedVoters) (epoch : Z) : bool :=
  match m !! epoch with Some _ => true | None => false end.

End AuthorizedVoters.

(** ** [VoteState] *)
Record VoteState : Type := mkVoteState {
  node_pubkey : Pubkey;
  authorized_withdrawer : Pubkey;
  commission : byte;
  votes : list Lockout;
  root_slot : option Z;
  authorized_voters : AuthorizedVoters;
  prior_voters : CircBuf (Pubkey * Z * Z);
  epoch_credits : list (Z * Z * Z);
  last_timestamp : BlockTimestamp
}.

Definition set_node_pubkey (s : VoteState) (k : Pubkey) : VoteState :=
  mkVoteState k (authorized_withdrawer s) (commission s) (votes s) (root_slot s)
    (authorized_voters s) (prior_voters s) (epoch_credits s) (last_timestamp s).
Definition set_authorized_withdrawer (s : VoteState) (k : Pubkey) : VoteState :=
  mkVoteState (node_pubkey s) k (commission s) (votes s) (root_slot s)
    (authorized_voters s) (prior_voters s) (epoch_credits s) (last_timestamp s).
Definition set_commission (s : VoteState) (c : byte) : VoteState :=
  mkVoteState (node_pubkey s) (authorized_withdrawer s) c (votes s) (root_slot s)
    (authorized_voters s) (prior_voters s) (epoch_credits s) (last_timestamp s).
Definition set_votes (s : VoteState) (l : list Lockout) : VoteState :=
  mkVoteState (node_pubkey s) (authorized_withdrawer s) (commission s) l (root_slot s)
    (authorized_voters s) (prior_voters s) (epoch_credits s) (last_timestamp s).
Definition set_root_slot (s : VoteState) (r : option Z) : VoteState :=
  mkVoteState (node_pubkey s) (authorized_withdrawer s) (commission s) (votes s) r
    (authorized_voters s) (prior_voters s) (epoch_credits s) (last_timestamp s).
Definition set_authorized_voters (s : VoteState) (m : AuthorizedVoters) : VoteState :=
  mkVoteState (node_pubkey s) (authorized_withdrawer s) (commission s) (votes s) (root_slot s)
    m (prior_voters s) (epoch_credits s) (last_timestamp s).
Definition set_prior_voters (s : VoteState) (b : CircBuf (Pubkey * Z * Z)) : VoteState :=
  mkVoteState (node_pubkey s) (authorized_withdrawer s) (commission s) (votes s) (root_slot s)
    (authorized_voters s) b (epoch_credits s) (last_timestamp s).
Definition set_epoch_credits (s : VoteState) (l : list (Z * Z * Z)) : VoteState :=
  mkVoteState (node_pubkey s) (authorized_withdrawer s) (commission s) (votes s) (root_slot s)
    (authorized_voters s) (prior_voters s) l (last_timestamp s).
Definition set_last_timestamp (s : VoteState) (t : BlockTimestamp) : VoteState :=
  mkVoteState (node_pubkey s) (authorized_withdrawer s) (commission s) (votes s) (root_slot s)
    (authorized_voters s) (prior_voters s) (epoch_credits s) t.

(** The features the vote program looks at. *)
Record VoteFeatures : Type := mkVoteFeatures {
  filter_votes_outside_slot_hashes : bool;
  vote_state_update_credit_per_dequeue : bool;
  vote_withdraw_authority_may_change_authorized_voter : bool;
  allow_votes_to_directly_update_vote_state : bool;
  reject_non_rent_exempt_vote_withdraws : bool;
  reject_vote_account_close_unless_zero_credit_epoch : bool;
  vote_stake_checked_instructions : bool;
  vote_authorize_with_seed : bool
}.

(** [sysvar::clock::Clock], the fields the vote program reads. *)
Record Clock : Type := mkClock {
  epoch : Z;
  leader_schedule_epoch : Z
}.

Module VoteState.

Definition size_of : nat := 3731.

Definition default : VoteState :=
  mkVoteState Pubkey_default Pubkey_default x00 [] None ∅
    (CircBuf.default (Pubkey_default, 0, 0)) [] (mkBlockTimestamp 0 0).

Definition new (vote_init : VoteInit) (clock : Clock) : VoteState :=
  mkVoteState (init_node_pubkey vote_init) (init_authorized_withdrawer vote_init)
    (init_commission vote_init) [] None
    (AuthorizedVoters.new (epoch clock) (init_authorized_voter vote_init))
    (CircBuf.default (Pubkey_default, 0, 0)) [] (mkBlockTimestamp 0 0).

Definition get_authorized_voter (self : VoteState) (epoch : Z) : option Pubkey :=
  AuthorizedVoters.get_authorized_voter (authorized_voters self) epoch.

(** The products are [u128]s, the quotients are truncated to [u64]. *)
Definition commission_split (self : VoteState) (on : Z) : Z * Z * bool :=
  let split := Z.min (u8_val (commission self)) 100 in
  if split =? 0 then (0, on, false)
  else if split =? 100 then (on, 0, false)
  else (wrap64 (on * split / 100), wrap64 (on * (100 - split) / 100), true).

Definition contains_slot (self : VoteState) (candidate_slot : Z) : bool :=
  existsb (fun l => slot l =? candidate_slot) (votes self).

Definition last_lockout (self : VoteState) : option Lockout := list.last (votes self).

Definition last_voted_slot (self : VoteState) : option Z := slot <$> last_lockout self.

Definition nth_recent_vote (self : VoteState) (position : nat) : option Lockout :=
  if (position <? length (votes self))%nat then votes self !! (length (votes self) - 1 - position)%nat
  else None.

Definition tower (self : VoteState) : list Z := slot <$> votes self.

Definition current_epoch (self : VoteState) : Z :=
  match list.last (epoch_credits self) with Some (e, _, _) => e | None => 0 end.

Definition credits (self : VoteState) : Z :=
  match list.last (epoch_credits self) with Some (_, c, _) => c | None => 0 end.

(** *** Checking a vote state update *)

(** The [while] loop: [check_root] is the root still to be looked for, [i] the index into
    the proposed lockouts and [j] into the slot hashes; [filtered] collects the indexes of
    the votes to drop. *)
Fixpoint update_slots_loop (fuel : nat) (self : VoteState) (lockouts : list Lockout)
    (slot_hashes : list (Z * Hash)) (earliest_slot_hash_in_history : Z)
    (check_root : option Z) (i j : nat) (filtered : list nat)
    : result VoteError (nat * nat * list nat) :=
  if (i <? length lockouts)%nat && (0 <? j)%nat then
    match fuel with
    | O => Panic
    | S fuel =>
        let continue := update_slots_loop fuel self lockouts slot_hashes earliest_slot_hash_in_history in
        proposed_vote_slot ←
          match check_root with
          | Some root => Ok root
          | None => unwrap (slot <$> lockouts !! i)
          end;
        not_ordered ←
          match check_root with
          | None => if (0 <? i)%nat then
                      previous ← unwrap (slot <$> lockouts !! (i - 1)%nat);
                      Ok (proposed_vote_slot <=? previous)
                    else Ok false
          | Some _ => Ok false
          end;
        ensure (negb not_ordered) SlotsNotOrdered;;
        ancestor_slot ← unwrap (fst <$> slot_hashes !! (j - 1)%nat);
        match proposed_vote_slot ?= ancestor_slot with
        | Lt =>
            if (j =? length slot_hashes)%nat then
              assert_ (proposed_vote_slot <? earliest_slot_hash_in_history);;
              match check_root with
              | Some _ =>
                  r ← unwrap (root_slot self);
                  assert_ (r <? earliest_slot_hash_in_history);;
                  continue None i j filtered
              | None =>
                  continue None (S i) j
                    (if contains_slot self proposed_vote_slot then filtered else filtered ++ [i])
              end
            else
              match check_root with
              | Some _ => Err RootOnDifferentFork
              | None => Err SlotsMismatch
              end
        | Gt => continue check_root i (j - 1)%nat filtered
        | Eq =>
            match check_root with
            | Some _ => continue None i j filtered
            | None => continue None (S i) (j - 1)%nat filtered
            end
        end
    end
  else Ok (i, j, filtered).

(** [retain]: drop the votes whose indexes are in [filtered], which is sorted. *)
Fixpoint retain (l : list Lockout) (index : nat) (filtered : list nat) : list Lockout :=
  match l with
  | [] => []
  | x :: l =>
      match filtered with
      | [] => x :: retain l (S index) []
      | f :: rest =>
          if (index =? f)%nat then retain l (S index) rest else x :: retain l (S index) filtered
      end
  end.

(** The checked update: the proposed root and lockouts may have been replaced. *)
Definition check_update_vote_state_slots_are_valid (self : VoteState) (u : VoteStateUpdate)
    (slot_hashes : list (Z * Hash)) : result VoteError VoteStateUpdate :=
  last_vote_state_update_slot ← ok_or (slot <$> list.last (lockouts u)) EmptySlots;
  ensure (match last_voted_slot self with
          | Some last_vote_slot => negb (last_vote_state_update_slot <=? last_vote_slot)
          | None => true
          end) VoteTooOld;;
  earliest_slot_hash_in_history ← ok_or (fst <$> list.last slot_hashes) SlotsMismatch;
  ensure (negb (last_vote_state_update_slot <? earliest_slot_hash_in_history)) VoteTooOld;;
  let new_root :=
    match root u with
    | Some new_proposed_root =>
        if new_proposed_root <? earliest_slot_hash_in_history then root_slot self else root u
    | None => None
    end in
  '(i, j, filtered) ←
    update_slots_loop (S (S (length (lockouts u) + length slot_hashes))) self (lockouts u) slot_hashes
      earliest_slot_hash_in_history new_root 0 (length slot_hashes) [];
  ensure (i =? length (lockouts u))%nat SlotsMismatch;;
  '(s, h) ← unwrap (slot_hashes !! j);
  assert_ (last_vote_state_update_slot =? s);;
  ensure (key_eqb h (update_hash u)) SlotHashMismatch;;
  Ok (mkVoteStateUpdate (retain (lockouts u) 0 filtered) new_root (update_hash u) (update_timestamp u)).

(** *** Checking a vote *)
Fixpoint vote_slots_loop (fuel : nat) (self : VoteState) (vote_slots : list Z)
    (slot_hashes : list (Z * Hash)) (i j : nat) : result VoteError (nat * nat) :=
  if (i <? length vote_slots)%nat && (0 <? j)%nat then
    match fuel with
    | O => Panic
    | S fuel =>
        s ← unwrap (vote_slots !! i);
        if match last_voted_slot self with Some last => s <=? last | None => false end
        then vote_slots_loop fuel self vote_slots slot_hashes (S i) j
        else
          h ← unwrap (fst <$> slot_hashes !! (j - 1)%nat);
          if negb (s =? h) then vote_slots_loop fuel self vote_slots slot_hashes i (j - 1)%nat
          else vote_slots_loop fuel self vote_slots slot_hashes (S i) (j - 1)%nat
    end
  else Ok (i, j).

Definition check_slots_are_valid (self : VoteState) (vote_slots : list Z) (vote_hash : Hash)
    (slot_hashes : list (Z * Hash)) : result VoteError unit :=
  '(i, j) ← vote_slots_loop (S (length vote_slots + length slot_hashes)) self vote_slots slot_hashes
             0 (length slot_hashes);
  ensure (negb (j =? length slot_hashes)%nat) VoteTooOld;;
  ensure (i =? length vote_slots)%nat SlotsMismatch;;
  h ← unwrap (snd <$> slot_hashes !! j);
  ensure (key_eqb h vote_hash) SlotHashMismatch.

(** *** Credits *)
Definition increment_credits (self : VoteState) (epoch credits : Z) : VoteState :=
  let history :=
    match list.last (epoch_credits self) with
    | None => [(epoch, 0, 0)]
    | Some (last_epoch, c, prev_credits) =>
        if negb (epoch =? last_epoch) then
          let history :=
            if negb (c =? prev_credits) then epoch_credits self ++ [(epoch, c, c)]
            else removelast (epoch_credits self) ++ [(epoch, c, prev_credits)] in
          if (MAX_EPOCH_CREDITS_HISTORY <? length history)%nat then tl history else history
        else epoch_credits self
    end in
  set_epoch_credits self
    match list.last history with
    | Some (e, c, p) => removelast history ++ [(e, wrapping_add c credits, p)]
    | None => history
    end.

(** *** Voting on a slot *)

(** [while let Some(vote) = self.last_lockout()], from the back of the tower. *)
Fixpoint pop_expired (reversed : list Lockout) (next_vote_slot : Z) : list Lockout :=
  match reversed with
  | [] => []
  | v :: rest =>
      if negb (Lockout.is_locked_out_at_slot v next_vote_slot) then pop_expired rest next_vote_slot
      else reversed
  end.
Definition pop_expired_votes (self : VoteState) (next_vote_slot : Z) : VoteState :=
  set_votes self (rev (pop_expired (rev (votes self)) next_vote_slot)).

Definition double_lockout (stack_depth : nat) (i : nat) (v : Lockout) : Lockout :=
  if (Z.of_nat i + confirmation_count v <? Z.of_nat stack_depth)
  then mkLockout (slot v) ((confirmation_count v + 1) mod 2 ^ 32) else v.
Definition double_lockouts (self : VoteState) : VoteState :=
  set_votes self (imap (double_lockout (length (votes self))) (votes self)).

Definition process_next_vote_slot (self : VoteState) (next_vote_slot epoch : Z) : VoteState :=
  if match last_voted_slot self with Some last => next_vote_slot <=? last | None => false end then self
  else
    let vote := Lockout.new next_vote_slot in
    let self := pop_expired_votes self next_vote_slot in
    let self :=
      if (length (votes self) =? MAX_LOCKOUT_HISTORY)%nat then
        match votes self with
        | vote :: rest =>
            increment_credits (set_root_slot (set_votes self rest) (Some (slot vote))) epoch 1
        | [] => self
        end
      else self in
    double_lockouts (set_votes self (votes self ++ [vote])).

Definition process_vote (self : VoteState) (vote : Vote) (slot_hashes : list (Z * Hash)) (epoch : Z)
    (feature_set : option VoteFeatures) : result VoteError VoteState :=
  ensure (negb (bool_decide (slots vote = []))) EmptySlots;;
  let vote_slots :=
    match feature_set with
    | Some f =>
        if filter_votes_outside_slot_hashes f then
          let earliest_slot_in_history := match list.last slot_hashes with Some (s, _) => s | None => 0 end in
          List.filter (fun s => earliest_slot_in_history <=? s) (slots vote)
        else slots vote
    | None => slots vote
    end in
  ensure (negb (bool_decide (vote_slots = []))) VotesTooOldAllFiltered;;
  check_slots_are_valid self vote_slots (vote_hash vote) slot_hashes;;
  Ok (fold_left (fun self s => process_next_vote_slot self s epoch) vote_slots self).

Definition process_timestamp (self : VoteState) (s timestamp : Z) : result VoteError VoteState :=
  let last := last_timestamp self in
  ensure (negb (((s <? bt_slot last) || (timestamp <? bt_timestamp last))
                || ((s =? bt_slot last)
                    && negb ((s =? bt_slot last) && (timestamp =? bt_timestamp last))
                    && negb (bt_slot last =? 0)))) TimestampTooOld;;
  Ok (set_last_timestamp self (mkBlockTimestamp s timestamp)).

(** *** Replacing the tower *)

(** The first [for] loop: the new tower by itself. *)
Fixpoint check_new_votes (previous_vote : option Lockout) (new_root : option Z)
    (new_state : list Lockout) : result VoteError unit :=
  match new_state with
  | [] => Ok tt
  | vote :: rest =>
      ensure (negb (confirmation_count vote =? 0)) ZeroConfirmations;;
      ensure (negb (Z.of_nat MAX_LOCKOUT_HISTORY <? confirmation_count vote)) ConfirmationTooLarge;;
      ensure (match new_root with
              | Some new_root => negb ((slot vote <=? new_root) && negb (new_root =? 0))
              | None => true
              end) SlotSmallerThanRoot;;
      match previous_vote with
      | Some previous_vote =>
          ensure (negb (slot vote <=? slot previous_vote)) SlotsNotOrdered;;
          ensure (negb (confirmation_count previous_vote <=? confirmation_count vote))
            ConfirmationsNotOrdered;;
          ensure (negb (Lockout.last_locked_out_slot previous_vote <? slot vote))
            NewVoteStateLockoutMismatch
      | None => Ok tt
      end;;
      check_new_votes (Some vote) new_root rest
  end.

(** The second [for] loop: the votes above the new root, and the count of finalized slots,
    at most one more than the number of votes. *)
Fixpoint skip_rooted (new_root : option Z) (votes : list Lockout) (finalized_slot_count : Z)
    : list Lockout * Z :=
  match votes, new_root with
  | current_vote :: rest, Some r =>
      if slot current_vote <=? r then
        skip_rooted new_root rest
          (if negb (slot current_vote =? r) then finalized_slot_count + 1 else finalized_slot_count)
      else (votes, finalized_slot_count)
  | _, _ => (votes, finalized_slot_count)
  end.

(** The [while] loop over the current and the new tower. *)
Fixpoint compare_lockouts (current : list Lockout) : list Lockout -> result VoteError unit :=
  fix go (new_state : list Lockout) : result VoteError unit :=
    match current, new_state with
    | current_vote :: current', new_vote :: new_state' =>
        match slot current_vote ?= slot new_vote with
        | Lt =>
            ensure (negb (slot new_vote <=? Lockout.last_locked_out_slot current_vote)) LockoutConflict;;
            compare_lockouts current' new_state
        | Eq =>
            ensure (negb (confirmation_count new_vote <? confirmation_count current_vote))
              ConfirmationRollBack;;
            compare_lockouts current' new_state'
        | Gt => go new_state'
        end
    | _, _ => Ok tt
    end.

Definition process_new_vote_state (self : VoteState) (new_state : list Lockout) (new_root : option Z)
    (timestamp : option Z) (epoch : Z) (feature_set : option VoteFeatures)
    : result VoteError VoteState :=
  assert_ (negb (bool_decide (new_state = [])));;
  ensure (negb (MAX_LOCKOUT_HISTORY <? length new_state)%nat) TooManyVotes;;
  ensure (match new_root, root_slot self with
          | Some new_root, Some current_root => negb (new_root <? current_root)
          | None, Some _ => false
          | _, None => true
          end) RootRollBack;;
  check_new_votes None new_root new_state;;
  let '(current, finalized_slot_count) := skip_rooted new_root (votes self) 1 in
  compare_lockouts current new_state;;
  let self :=
    if negb (bool_decide (root_slot self = new_root)) then
      if match feature_set with Some f => vote_state_update_credit_per_dequeue f | None => false end
      then increment_credits self epoch finalized_slot_count
      else increment_credits self epoch 1
    else self in
  self ←
    match timestamp with
    | Some timestamp =>
        last_slot ← unwrap (slot <$> list.last new_state);
        process_timestamp self last_slot timestamp
    | None => Ok self
    end;
  Ok (set_votes (set_root_slot self new_root) new_state).

(** [process_vote_unchecked] ignores the error. *)
Definition process_vote_unchecked (self : VoteState) (vote : Vote) : result VoteError VoteState :=
  let slot_hashes := (fun x => (x, vote_hash vote)) <$> rev (slots vote) in
  match process_vote self vote slot_hashes (current_epoch self) None with
  | Err _ => Ok self
  | r => r
  end.

Definition process_slot_vote_unchecked (self : VoteState) (slot : Z) : result VoteError VoteState :=
  process_vote_unchecked self (mkVote [slot] Pubkey_default None).

(** Whether the bytes of an account hold an initialized vote state. *)
Definition DEFAULT_PRIOR_VOTERS_OFFSET : nat := 82.
Definition is_correct_size_and_initialized (data : list byte) : bool :=
  (length data =? size_of)%nat
  && negb (bool_decide (take DEFAULT_PRIOR_VOTERS_OFFSET (drop 4 data)
                        = replicate DEFAULT_PRIOR_VOTERS_OFFSET x00)).

(** *** Authorized voters *)
Definition get_and_update_authorized_voter (self : VoteState) (current_epoch : Z)
    : result InstructionError (Pubkey * VoteState) :=
  '(pubkey, m) ← ok_or (AuthorizedVoters.get_and_cache_authorized_voter_for_epoch
                          (authorized_voters self) current_epoch) InstructionError.InvalidAccountData;
  m ← AuthorizedVoters.purge_authorized_voters m current_epoch;
  Ok (pubkey, set_authorized_voters self m).

Definition set_new_authorized_voter (self : VoteState) (authorized_pubkey : Pubkey)
    (current_epoch target_epoch : Z) (verify : Pubkey -> result InstructionError unit)
    : result InstructionError VoteState :=
  '(epoch_authorized_voter, self) ← get_and_update_authorized_voter self current_epoch;
  verify epoch_authorized_voter;;
  ensure (negb (AuthorizedVoters.contains (authorized_voters self) target_epoch))
    (vote_error TooSoonToReauthorize);;
  '(latest_epoch, latest_authorized_pubkey) ←
    ok_or (next_back (authorized_voters self)) InstructionError.InvalidAccountData;
  self ←
    if negb (key_eqb latest_authorized_pubkey authorized_pubkey) then
      let epoch_of_last_authorized_switch :=
        match CircBuf.last (prior_voters self) with Some (_, _, e) => e | None => 0 end in
      assert_ (latest_epoch <? target_epoch);;
      Ok (set_prior_voters self
            (CircBuf.append (prior_voters self)
               (latest_authorized_pubkey, epoch_of_last_authorized_switch, target_epoch)))
    else Ok self;
  Ok (set_authorized_voters self (<[target_epoch := authorized_pubkey]> (authorized_voters self))).

End VoteState.

(** ** Versions of the state *)
Record VoteState0_23_5 : Type := mkVoteState0_23_5 {
  v0_node_pubkey : Pubkey;
  v0_authorized_voter : Pubkey;
  v0_authorized_voter_epoch : Z;
  v0_prior_voters : list (Pubkey * Z * Z * Z) * nat;
  v0_authorized_withdrawer : Pubkey;
  v0_commission : byte;
  v0_votes : list Lockout;
  v0_root_slot : option Z;
  v0_epoch_credits : list (Z * Z * Z);
  v0_last_timestamp : BlockTimestamp
}.

Inductive VoteStateVersions : Type :=
| V0_23_5 (s : VoteState0_23_5)
| VoteCurrent (s : VoteState).

Module VoteStateVersions.

Definition new_current (s : VoteState) : VoteStateVersions := VoteCurrent s.

Definition convert_to_current (v : VoteStateVersions) : VoteState :=
  match v with
  | V0_23_5 s =>
      mkVoteState (v0_node_pubkey s) (v0_authorized_withdrawer s) (v0_commission s) (v0_votes s)
        (v0_root_slot s)
        (AuthorizedVoters.new (v0_authorized_voter_epoch s) (v0_authorized_voter s))
        (CircBuf.default (Pubkey_default, 0, 0)) (v0_epoch_credits s) (v0_last_timestamp s)
  | VoteCurrent s => s
  end.

Definition is_uninitialized (v : VoteStateVersions) : bool :=
  match v with
  | V0_23_5 s => key_eqb (v0_authorized_voter s) Pubkey_default
  | VoteCurrent s => bool_decide (authorized_voters s = ∅)
  end.

End VoteStateVersions.
