(* ===== verification/VoteTower.v ===== *)
(** * The tower of votes

    Invariants of the lockouts of a vote account: the tower stays well formed under
    every vote, a vote leaves it only when its lockout has expired or when it becomes
    the root, and a tower proposed as a whole is accepted only under the same rules. *)

From Stdlib Require Import Strings.Byte.
From S2P Require Import Prelude Sdk Rent Nonce VoteState.

(** ** Well-formed towers *)

(** The last slot whose lockouts do not overflow. *)
Definition MAX_SLOT : Z := U64_MAX - 2 ^ 31.

Record vote_ok (l : Lockout) : Prop := {
  ok_slot : 0 <= slot l <= MAX_SLOT;
  ok_count : 1 <= confirmation_count l <= Z.of_nat MAX_LOCKOUT_HISTORY
}.

(** Consecutive votes: the later one is on a later slot, has fewer confirmations, and
    was cast while the earlier one was locked out. *)
Record chained (a b : Lockout) : Prop := {
  ch_slot : slot a < slot b;
  ch_count : confirmation_count b < confirmation_count a;
  ch_locked : slot b <= slot a + 2 ^ confirmation_count a
}.

Record tower_wf (l : list Lockout) : Prop := {
  tw_length : (length l <= MAX_LOCKOUT_HISTORY)%nat;
  tw_votes : Forall vote_ok l;
  tw_chain i a b : l !! i = Some a -> l !! S i = Some b -> chained a b
}.

Lemma last_locked_out_slot_eq l :
  vote_ok l -> Lockout.last_locked_out_slot l = slot l + 2 ^ confirmation_count l.
Proof.
  intros [[Hs Hs'] [Hc Hc']]. unfold Lockout.last_locked_out_slot, Lockout.lockout, wrapping_add.
  unfold MAX_LOCKOUT_HISTORY in Hc'. change INITIAL_LOCKOUT with 2.
  assert (0 < 2 ^ confirmation_count l <= 2 ^ 31) as Hp.
  { split; [apply Z.pow_pos_nonneg; lia|apply Z.pow_le_mono_r; lia]. }
  unfold MAX_SLOT, U64_MAX in *. rewrite !wrap64_small; [done|..]; unfold is_u64, U64_MAX;
    rewrite ?wrap64_small; unfold is_u64, U64_MAX; lia.
Qed.

Lemma locked_out_spec l s :
  vote_ok l -> Lockout.is_locked_out_at_slot l s = true <-> s <= slot l + 2 ^ confirmation_count l.
Proof. intros Hl. unfold Lockout.is_locked_out_at_slot. by rewrite Z.leb_le, last_locked_out_slot_eq. Qed.

Lemma tower_ordered l i j a b :
  tower_wf l -> (i < j)%nat -> l !! i = Some a -> l !! j = Some b ->
  slot a < slot b /\ confirmation_count b + Z.of_nat (j - i) <= confirmation_count a.
Proof.
  intros Hwf Hij Ha. revert b. induction Hij as [|j Hij IH]; intros b Hb.
  - destruct (tw_chain _ Hwf _ _ _ Ha Hb). lia.
  - destruct (lookup_lt_is_Some_2 l j) as [c Hc]; [apply lookup_lt_Some in Hb; lia|].
    destruct (IH _ Hc), (tw_chain _ Hwf _ _ _ Hc Hb). lia.
Qed.

(** A vote has at least as many confirmations as votes from it to the top. *)
Lemma tower_count l i a :
  tower_wf l -> l !! i = Some a -> Z.of_nat (length l) <= Z.of_nat i + confirmation_count a.
Proof.
  intros Hwf Ha. pose proof (lookup_lt_Some _ _ _ Ha) as Hi.
  destruct (lookup_lt_is_Some_2 l (length l - 1)) as [b Hb]; [lia|].
  pose proof (Forall_lookup_1 _ _ _ _ (tw_votes _ Hwf) Hb) as [_ Hc].
  destruct (decide (i = length l - 1)%nat) as [->|Hne].
  - rewrite Ha in Hb. injection Hb as <-. lia.
  - destruct (tower_ordered l i (length l - 1) a b Hwf) as [_ Hcc]; [lia|done..|]. lia.
Qed.

Lemma tower_nil : tower_wf [].
Proof. split; [cbn; lia|done|done]. Qed.

Lemma tower_prefix l k : tower_wf (l ++ k) -> tower_wf l.
Proof.
  intros [Hl Hv Hc]. rewrite length_app in Hl. apply Forall_app in Hv as [Hv _]. split; [lia|done|].
  intros i a b Ha Hb. by apply (Hc i); apply lookup_app_l_Some.
Qed.

Lemma tower_tail x l : tower_wf (x :: l) -> tower_wf l.
Proof.
  intros [Hl Hv Hc]. cbn in Hl. apply Forall_cons_1 in Hv as [_ Hv]. split; [lia|done|].
  intros i a b Ha Hb. by apply (Hc (S i)).
Qed.

(** ** Popping expired votes *)
Lemma pop_expired_spec reversed s :
  exists dropped, reversed = dropped ++ VoteState.pop_expired reversed s /\
    Forall (fun v => Lockout.is_locked_out_at_slot v s = false) dropped /\
    (forall v, head (VoteState.pop_expired reversed s) = Some v ->
       Lockout.is_locked_out_at_slot v s = true).
Proof.
  induction reversed as [|v l (dropped & Hl & Hd & Hh)]; cbn [VoteState.pop_expired].
  { exists []. done. }
  destruct (Lockout.is_locked_out_at_slot v s) eqn:E; cbn [negb].
  - exists []. split_and!; [done..|]. cbn. by intros ? [= <-].
  - exists (v :: dropped). split_and!; [cbn; by f_equal|by constructor|done].
Qed.

Lemma last_rev {A} (l : list A) : list.last (rev l) = head l.
Proof. destruct l as [|x l]; [done|]. cbn. apply last_snoc. Qed.

Lemma pop_expired_votes_spec self s :
  exists dropped, votes self = votes (VoteState.pop_expired_votes self s) ++ dropped /\
    Forall (fun v => Lockout.is_locked_out_at_slot v s = false) dropped /\
    (forall v, list.last (votes (VoteState.pop_expired_votes self s)) = Some v ->
       Lockout.is_locked_out_at_slot v s = true).
Proof.
  destruct (pop_expired_spec (rev (votes self)) s) as (dropped & Hl & Hd & Hh).
  exists (rev dropped). cbn [votes VoteState.pop_expired_votes set_votes]. split_and!.
  - rewrite <-rev_app_distr, <-Hl. by rewrite rev_involutive.
  - by apply Forall_rev.
  - intros v. rewrite last_rev. apply Hh.
Qed.

(** ** Adding a vote *)
Lemma tower_push l s :
  tower_wf l -> (length l < MAX_LOCKOUT_HISTORY)%nat -> 0 <= s <= MAX_SLOT ->
  (forall v, list.last l = Some v -> slot v < s <= slot v + 2 ^ confirmation_count v) ->
  tower_wf (imap (VoteState.double_lockout (S (length l))) (l ++ [Lockout.new s])).
Proof.
  intros Hwf Hlen Hs Hlast.
  assert (forall i v, (l ++ [Lockout.new s]) !! i = Some v -> 0 <= slot v <= MAX_SLOT /\
    1 <= confirmation_count v <= Z.of_nat MAX_LOCKOUT_HISTORY) as Hvotes.
  { intros i v [Hv|[_ Hv]]%lookup_app_Some; [by destruct (Forall_lookup_1 _ _ _ _ (tw_votes _ Hwf) Hv)|].
    apply list_lookup_singleton_Some in Hv as [_ <-]. cbn. unfold MAX_LOCKOUT_HISTORY. lia. }
  assert (forall i v, (l ++ [Lockout.new s]) !! i = Some v ->
    let v' := VoteState.double_lockout (S (length l)) i v in
    slot v' = slot v /\
    confirmation_count v' = if Z.of_nat i + confirmation_count v <? Z.of_nat (S (length l))
                            then confirmation_count v + 1 else confirmation_count v) as Hdouble.
  { intros i v Hv. unfold VoteState.double_lockout. destruct (Z.ltb_spec (Z.of_nat i + confirmation_count v)
      (Z.of_nat (S (length l)))); cbn; [|done]. split; [done|]. destruct (Hvotes _ _ Hv) as [_ Hc].
    unfold MAX_LOCKOUT_HISTORY in Hc. apply Z.mod_small. lia. }
  split.
  - rewrite length_imap, length_app. cbn. unfold MAX_LOCKOUT_HISTORY in *. lia.
  - apply Forall_lookup. intros i v' Hv'. apply list_lookup_imap_Some in Hv' as (v & Hv & ->).
    destruct (Hvotes _ _ Hv) as [Hsv Hcv], (Hdouble _ _ Hv) as [Es Ec]. split; [by rewrite Es|]. rewrite Ec.
    destruct (Z.ltb_spec (Z.of_nat i + confirmation_count v) (Z.of_nat (S (length l)))); [|done]. lia.
  - intros i a' b' Ha' Hb'. apply list_lookup_imap_Some in Ha' as (a & Ha & ->).
    apply list_lookup_imap_Some in Hb' as (b & Hb & ->).
    assert (slot a < slot b /\ slot b <= slot a + 2 ^ confirmation_count a /\
      (confirmation_count b < confirmation_count a \/
       (i = (length l - 1)%nat /\ confirmation_count b = 1 /\ (0 < length l)%nat))) as (Hss & Hll & Hcc).
    { apply lookup_app_Some in Hb as [Hb|[Hi Hb]].
      - assert (l !! i = Some a) as Ha1 by (rewrite lookup_app_l in Ha; [done|apply lookup_lt_Some in Hb; lia]).
        destruct (tw_chain _ Hwf _ _ _ Ha1 Hb). auto.
      - apply list_lookup_singleton_Some in Hb as [Hz <-].
        assert (l !! i = Some a) as Ha1 by (rewrite lookup_app_l in Ha; [done|lia]).
        apply lookup_lt_Some in Ha1 as Hlt. assert (i = length l - 1)%nat as Ei by lia.
        destruct (Hlast a) as [Hs1 Hs2]; [by rewrite last_lookup, <-Ha1, Ei, <-Nat.sub_1_r|].
        cbn. split_and!; [done..|]. right. split_and!; [done..|lia]. }
    pose proof (Hvotes _ _ Ha) as [_ Hca].
    destruct (Hdouble _ _ Ha) as [Ea Eca], (Hdouble _ _ Hb) as [Eb Ecb].
    assert (confirmation_count a <= confirmation_count (VoteState.double_lockout (S (length l)) i a)) as Hge
      by (rewrite Eca; destruct (_ <? _); lia).
    split; rewrite ?Ea, ?Eb; [done| |].
    + rewrite Eca, Ecb. destruct (Z.ltb_spec (Z.of_nat i + confirmation_count a) (Z.of_nat (S (length l)))),
        (Z.ltb_spec (Z.of_nat (S i) + confirmation_count b) (Z.of_nat (S (length l)))); lia.
    + etransitivity; [exact Hll|]. apply Z.add_le_mono_l, Z.pow_le_mono_r; lia.
Qed.

(** ** The rule of the tower

    What every accepted vote keeps: the root never goes back, and a vote of the old tower
    is still there with at least its confirmations, or is at or below the root, or its
    lockout expired before the last slot voted on. *)
Definition root_below (r : Z) (l : list Lockout) : Prop := r = 0 \/ Forall (fun v => r < slot v) l.

Record state_wf (s : VoteState) : Prop := {
  sw_tower : tower_wf (votes s);
  sw_root r : root_slot s = Some r -> 0 <= r /\ root_below r (votes s);
  sw_voted : root_slot s <> None -> votes s <> []
}.

Definition kept (v : Lockout) (s : VoteState) : Prop :=
  exists v', v' ∈ votes s /\ slot v' = slot v /\ confirmation_count v <= confirmation_count v'.
Definition rooted (v : Lockout) (s : VoteState) : Prop :=
  exists r, root_slot s = Some r /\ slot v <= r.
Definition expired (v : Lockout) (s : VoteState) : Prop :=
  exists l, VoteState.last_voted_slot s = Some l /\ slot v + 2 ^ confirmation_count v < l.

Record extends (s s' : VoteState) : Prop := {
  ex_wf : state_wf s';
  ex_root r : root_slot s = Some r -> exists r', root_slot s' = Some r' /\ r <= r';
  ex_last l : VoteState.last_voted_slot s = Some l ->
    exists l', VoteState.last_voted_slot s' = Some l' /\ l <= l';
  ex_votes v : v ∈ votes s -> kept v s' \/ rooted v s' \/ expired v s'
}.

Lemma extends_refl s : state_wf s -> extends s s.
Proof.
  intros Hwf. split; [done|eauto with lia..|]. intros v Hv. left. exists v. split_and!; [done..|lia].
Qed.

Lemma extends_trans s1 s2 s3 : extends s1 s2 -> extends s2 s3 -> extends s1 s3.
Proof.
  intros [Hw1 Hr1 Hl1 Hv1] [Hw2 Hr2 Hl2 Hv2]. split; [done|..].
  - intros r Hr. destruct (Hr1 _ Hr) as (r1 & Hr1' & ?), (Hr2 _ Hr1') as (r2 & ? & ?). exists r2. split; [done|lia].
  - intros l Hl. destruct (Hl1 _ Hl) as (l1 & Hl1' & ?), (Hl2 _ Hl1') as (l2 & ? & ?). exists l2. split; [done|lia].
  - intros v Hv. destruct (Hv1 _ Hv) as [(v1 & Hin & Hs & Hc)|[(r & Hr & Hs)|(l & Hl & Hx)]].
    + destruct (Hv2 _ Hin) as [(v2 & Hin2 & Hs2 & Hc2)|[(r & Hr & Hs2)|(l & Hl & Hx)]].
      * left. exists v2. split_and!; [done|congruence|lia].
      * right; left. exists r. split; [done|lia].
      * right; right. exists l. split; [done|]. eapply Z.le_lt_trans; [|exact Hx].
        rewrite Hs. apply Z.add_le_mono_l, Z.pow_le_mono_r; lia.
    + destruct (Hr2 _ Hr) as (r' & Hr' & ?). right; left. exists r'. split; [done|lia].
    + destruct (Hl2 _ Hl) as (l' & Hl' & ?). right; right. exists l'. split; [done|lia].
Qed.

(** ** One vote *)

Lemma increment_votes s e c : votes (VoteState.increment_credits s e c) = votes s.
Proof. done. Qed.
Lemma increment_root s e c : root_slot (VoteState.increment_credits s e c) = root_slot s.
Proof. done. Qed.

Lemma double_slot n i v : slot (VoteState.double_lockout n i v) = slot v.
Proof. unfold VoteState.double_lockout. by case_match. Qed.

Lemma double_count n i v :
  vote_ok v -> confirmation_count v <= confirmation_count (VoteState.double_lockout n i v).
Proof.
  intros [_ Hc]. unfold VoteState.double_lockout, MAX_LOCKOUT_HISTORY in *. case_match; [|lia].
  cbn. rewrite Z.mod_small; lia.
Qed.

Lemma pushed_votes l s v :
  Forall vote_ok l -> v ∈ l ->
  exists v', v' ∈ imap (VoteState.double_lockout (S (length l))) (l ++ [Lockout.new s]) /\
    slot v' = slot v /\ confirmation_count v <= confirmation_count v'.
Proof.
  intros Hl [i Hi]%list_elem_of_lookup.
  exists (VoteState.double_lockout (S (length l)) i v). split_and!.
  - apply list_elem_of_lookup. exists i. rewrite list_lookup_imap, lookup_app_l, Hi; [done|].
    by eapply lookup_lt_Some.
  - apply double_slot.
  - apply double_count. by eapply Forall_lookup_1.
Qed.

Lemma pushed_last l s n :
  slot <$> list.last (imap (VoteState.double_lockout n) (l ++ [Lockout.new s])) = Some s.
Proof. rewrite imap_app, last_app. cbn. f_equal. apply double_slot. Qed.

Lemma pushed_slots l s n v :
  v ∈ imap (VoteState.double_lockout n) (l ++ [Lockout.new s]) ->
  slot v = s \/ exists v0, v0 ∈ l /\ slot v0 = slot v.
Proof.
  intros [i Hi]%list_elem_of_lookup. apply list_lookup_imap_Some in Hi as (v0 & Hv0 & ->).
  rewrite double_slot. apply lookup_app_Some in Hv0 as [Hv0|[_ Hv0]].
  - right. exists v0. split; [by eapply list_elem_of_lookup_2|done].
  - apply list_lookup_singleton_Some in Hv0 as [_ <-]. by left.
Qed.

Lemma head_below v l :
  tower_wf (v :: l) -> Forall (fun w => slot v < slot w) l.
Proof.
  intros Hwf. apply Forall_lookup. intros i w Hw.
  by destruct (tower_ordered (v :: l) 0 (S i) v w Hwf) as [? _]; [lia|..].
Qed.

(** Pushing a vote on a tower with room for it. *)
Lemma push_extends l s self self' :
  tower_wf l -> (length l < MAX_LOCKOUT_HISTORY)%nat -> 0 <= s <= MAX_SLOT ->
  (forall v, list.last l = Some v -> slot v < s <= slot v + 2 ^ confirmation_count v) ->
  votes self' = imap (VoteState.double_lockout (S (length l))) (l ++ [Lockout.new s]) ->
  (forall r, root_slot self' = Some r -> 0 <= r /\ root_below r (l ++ [Lockout.new s])) ->
  (forall r, root_slot self = Some r -> exists r', root_slot self' = Some r' /\ r <= r') ->
  (forall x, VoteState.last_voted_slot self = Some x -> x < s) ->
  (forall v, v ∈ votes self -> v ∈ l \/ rooted v self' \/ slot v + 2 ^ confirmation_count v < s) ->
  extends self self' /\ VoteState.last_voted_slot self' = Some s.
Proof.
  intros Hl Hlen Hs Hlast Hv Hroot Hmono Hnew Hold.
  assert (VoteState.last_voted_slot self' = Some s) as Hls.
  { unfold VoteState.last_voted_slot, VoteState.last_lockout. rewrite Hv. apply pushed_last. }
  split; [|done]. split; [split|..].
  - rewrite Hv. by apply tower_push.
  - intros r Hr. destruct (Hroot _ Hr) as [Hr0 [->|Hb]]; (split; [done|]); [by left|right].
    rewrite Hv. apply Forall_lookup. intros i v' Hv'. apply list_lookup_imap_Some in Hv' as (v & Hvi & ->).
    rewrite double_slot. exact (Forall_lookup_1 _ _ _ _ Hb Hvi).
  - intros _ E. unfold VoteState.last_voted_slot, VoteState.last_lockout in Hls. by rewrite E in Hls.
  - done.
  - intros x Hx. exists s. split; [done|]. specialize (Hnew _ Hx). lia.
  - intros v Hin. destruct (Hold _ Hin) as [Hk|[Hk|Hk]]; [left|by right; left|right; right].
    + unfold kept. rewrite Hv. apply pushed_votes; [apply Hl|done].
    + by exists s.
Qed.

Lemma tower_below_last l v x :
  tower_wf l -> v ∈ l -> slot <$> list.last l = Some x -> slot v <= x.
Proof.
  intros Hwf [i Hi]%list_elem_of_lookup Hx. apply fmap_Some in Hx as (w & Hw & ->).
  rewrite last_lookup in Hw. pose proof (lookup_lt_Some _ _ _ Hi).
  destruct (decide (i = pred (length l))) as [->|Hne]; [replace w with v by congruence; lia|].
  destruct (tower_ordered l i (pred (length l)) v w Hwf); [lia|done..|lia].
Qed.

Lemma last_voted_some self : votes self <> [] -> is_Some (VoteState.last_voted_slot self).
Proof.
  intros Hne. unfold VoteState.last_voted_slot, VoteState.last_lockout. apply fmap_is_Some.
  destruct (list.last (votes self)) as [v|] eqn:E; [by eexists|]. by apply last_None in E.
Qed.

Lemma root_below_app r l s :
  root_below r l -> (forall v, v ∈ l -> slot v < s) -> (l = [] -> r = 0 \/ r < s) ->
  root_below r (l ++ [Lockout.new s]).
Proof.
  intros [->|Hl] Hs He; [by left|]. destruct l as [|w l].
  - destruct (He eq_refl) as [->|Hr]; [by left|]. right. apply Forall_singleton. done.
  - right. apply Forall_app. split; [done|]. apply Forall_singleton. cbn.
    apply Forall_cons_1 in Hl as [Hw _]. specialize (Hs w ltac:(by left)). lia.
Qed.

(** What is left of the tower when the expired votes are popped for a vote on [s]. *)
Record popped (self : VoteState) (s : Z) (l : list Lockout) : Prop := {
  po_wf : tower_wf l;
  po_last v : list.last l = Some v -> slot v < s <= slot v + 2 ^ confirmation_count v;
  po_old v : v ∈ votes self -> v ∈ l \/ slot v + 2 ^ confirmation_count v < s;
  po_below v : v ∈ l -> slot v < s;
  po_root r : root_slot self = Some r -> 0 <= r /\ root_below r l
}.

Lemma pop_expired_popped self s :
  state_wf self -> (forall x, VoteState.last_voted_slot self = Some x -> x < s) ->
  popped self s (votes (VoteState.pop_expired_votes self s)).
Proof.
  intros [Hwf Hroot _] Hnew. destruct (pop_expired_votes_spec self s) as (dropped & Hvotes & Hdrop & Hlocked).
  set (l := votes (VoteState.pop_expired_votes self s)) in *.
  assert (forall v, v ∈ votes self -> slot v < s) as Hlt.
  { intros v Hv. destruct (last_voted_some self) as [x Hx]; [by intros E; rewrite E in Hv; apply not_elem_of_nil in Hv|].
    specialize (Hnew _ Hx). pose proof (tower_below_last _ _ _ Hwf Hv Hx). lia. }
  assert (forall v, v ∈ l -> v ∈ votes self) as Hsub by (intros v; rewrite Hvotes, elem_of_app; auto).
  assert (forall v, v ∈ votes self -> vote_ok v) as Hok.
  { intros v Hv. eapply Forall_forall; [apply Hwf|by apply list_elem_of_In]. }
  split.
  - by eapply tower_prefix; rewrite <-Hvotes.
  - intros v Hv. assert (v ∈ l) as Hin by (rewrite last_lookup in Hv; by eapply list_elem_of_lookup_2).
    split; [by apply Hlt, Hsub|]. apply locked_out_spec; [by apply Hok, Hsub|by apply Hlocked].
  - intros v Hv. pose proof (Hok _ Hv) as Hv1. rewrite Hvotes in Hv. apply elem_of_app in Hv as [Hv|Hv]; [by left|right].
    assert (Lockout.is_locked_out_at_slot v s = false) as Hn
      by (eapply Forall_forall in Hdrop; [exact Hdrop|by apply list_elem_of_In]).
    destruct (Z.lt_ge_cases (slot v + 2 ^ confirmation_count v) s) as [?|Hge]; [done|].
    rewrite (proj2 (locked_out_spec v s Hv1)) in Hn; [done|lia].
  - intros v Hv. by apply Hlt, Hsub.
  - intros r Hr. destruct (Hroot _ Hr) as [Hr0 [->|Hb]]; (split; [done|]); [by left|right].
    rewrite Hvotes in Hb. by apply Forall_app in Hb as [? _].
Qed.

Lemma newer_vote self s :
  (forall x, VoteState.last_voted_slot self = Some x -> x < s) ->
  match VoteState.last_voted_slot self with Some last => s <=? last | None => false end = false.
Proof. intros Hnew. destruct (VoteState.last_voted_slot self) as [x|]; [|done]. apply Z.leb_gt. auto. Qed.

Lemma root_before_vote self s :
  state_wf self -> (forall x, VoteState.last_voted_slot self = Some x -> x < s) ->
  forall r, root_slot self = Some r -> r = 0 \/ r < s.
Proof.
  intros [Hwf Hroot Hne] Hnew r Hr. destruct (Hroot _ Hr) as [_ [->|Hb]]; [by left|right].
  assert (votes self <> []) as Hv by (apply Hne; congruence).
  destruct (last_voted_some self Hv) as [x Hx]. specialize (Hnew _ Hx).
  destruct (votes self) as [|v l] eqn:E; [done|]. apply Forall_cons_1 in Hb as [Hb _].
  pose proof (tower_below_last (votes self) v x). rewrite E in *.
  specialize (H Hwf ltac:(by left)). unfold VoteState.last_voted_slot, VoteState.last_lockout in Hx.
  rewrite E in Hx. specialize (H Hx). lia.
Qed.

Lemma next_vote_extends self s epoch :
  state_wf self -> 0 <= s <= MAX_SLOT ->
  (forall x, VoteState.last_voted_slot self = Some x -> x < s) ->
  let self' := VoteState.process_next_vote_slot self s epoch in
  extends self self' /\ VoteState.last_voted_slot self' = Some s.
Proof.
  intros Hwf Hs Hnew self'. subst self'. pose proof (root_before_vote _ _ Hwf Hnew) as Hrs. unfold VoteState.process_next_vote_slot.
  rewrite (newer_vote _ _ Hnew). pose proof (pop_expired_popped _ _ Hwf Hnew) as [Hl Hlast Hold Hls Hrl].
  set (l := votes (VoteState.pop_expired_votes self s)) in *.
  destruct (length l =? MAX_LOCKOUT_HISTORY)%nat eqn:Hfull.
  - apply Nat.eqb_eq in Hfull. destruct l as [|v l'] eqn:El; [done|].
    assert (0 <= slot v < s) as Hvs.
    { split; [|by apply Hls; left]. pose proof (tw_votes _ Hl) as Hok.
      apply Forall_cons_1 in Hok as [[? _] _]. lia. }
    eapply (push_extends l'); [by eapply tower_tail|cbn in Hfull; lia|done| | | | |done|].
    + intros w Hw. apply Hlast. destruct l' as [|w' l']; [done|]. by rewrite last_cons_cons.
    + cbn. by rewrite length_app, Nat.add_1_r.
    + cbn. intros r [= <-]. split; [lia|]. apply root_below_app; [|intros; apply Hls; by right|].
      * right. by apply head_below.
      * intros _. right. lia.
    + intros r Hr. cbn. exists (slot v). split; [done|]. destruct (Hrl _ Hr) as [Hr0 [->|Hb]]; [lia|].
      apply Forall_cons_1 in Hb as [? _]. lia.
    + intros w Hw. destruct (Hold _ Hw) as [[Ew|Hin]%elem_of_cons|?]; [right; left|by left|by right; right].
      exists (slot v). rewrite Ew. split; [done|lia].
  - apply Nat.eqb_neq in Hfull. pose proof (tw_length _ Hl).
    eapply (push_extends l); [done|lia|done|done| | | |done|].
    + cbn. fold l. by rewrite length_app, Nat.add_1_r.
    + cbn. intros r Hr. destruct (Hrl _ Hr) as [Hr0 Hb]. split; [done|]. apply root_below_app; auto.
    + cbn. intros r Hr. exists r. split; [done|lia].
    + intros v Hv. destruct (Hold _ Hv); auto.
Qed.

(** A vote on an old slot is ignored. *)
Lemma next_vote_ignored self s epoch x :
  VoteState.last_voted_slot self = Some x -> s <= x -> VoteState.process_next_vote_slot self s epoch = self.
Proof. intros Hx Hs. unfold VoteState.process_next_vote_slot. rewrite Hx. by rewrite (proj2 (Z.leb_le _ _) Hs). Qed.

(** Votes on several slots; the ignored ones may be anything. *)
Lemma next_votes_extend l self epoch :
  state_wf self ->
  (forall s, s ∈ l -> (forall x, VoteState.last_voted_slot self = Some x -> x < s) -> 0 <= s <= MAX_SLOT) ->
  extends self (fold_left (fun self s => VoteState.process_next_vote_slot self s epoch) l self).
Proof.
  revert self. induction l as [|s l IH]; intros self Hwf Hl; cbn; [by apply extends_refl|].
  assert ((exists x, VoteState.last_voted_slot self = Some x /\ s <= x) \/
          forall x, VoteState.last_voted_slot self = Some x -> x < s) as [(x & Hx & Hle)|Hnew].
  { destruct (VoteState.last_voted_slot self) as [x|]; [|by right].
    destruct (Z.lt_ge_cases x s); [right; by intros ? [= <-]|left; eauto with lia]. }
  - rewrite (next_vote_ignored _ _ _ _ Hx Hle). apply IH; [done|]. intros s' Hs'. apply Hl. by right.
  - destruct (next_vote_extends self s epoch Hwf (Hl s ltac:(by left) Hnew) Hnew) as [Hext _].
    eapply extends_trans; [exact Hext|]. apply IH; [apply Hext|]. intros s' Hs' Hafter.
    apply Hl; [by right|]. intros x Hx. destruct (ex_last _ _ Hext _ Hx) as (x' & Hx' & ?).
    specialize (Hafter _ Hx'). lia.
Qed.
