(* ===== verification/VoteRules.v ===== *)
(** * The rule of the tower, for every way to vote

    A vote account changes its tower by votes on slots and by whole towers it proposes.  The
    loops that match the slots of a vote, or of a proposed tower, with the slot hashes of the
    bank end, no assertion of theirs fails, and what they accept is on the fork of the bank.
    Both ways to vote are steps of one relation, and every sequence of steps keeps the rule of
    [VoteTower]: the tower stays well formed, the root never goes back and no vote leaves
    before its lockout has expired. *)

From Stdlib Require Import Strings.Byte.
From S2P Require Import Prelude Sdk Rent Nonce VoteState VoteTower.

(** ** Votes *)
Section vote.
Variables (self : VoteState) (L : list Z) (H : list (Z * Hash)).

(** The slots of the vote that are newer than the tower. *)
Definition is_new (s : Z) : bool :=
  negb match VoteState.last_voted_slot self with Some last => s <=? last | None => false end.

Definition new_slots (l : list Z) : list Z := List.filter is_new l.

Lemma new_slots_cons s l : new_slots (s :: l) = if is_new s then s :: new_slots l else new_slots l.
Proof. done. Qed.

(** The hashes below index [j], the oldest first. *)
Definition older (j : nat) : list Z := fst <$> rev (take j H).

Lemma older_S j x : H !! j = Some x -> older (S j) = x.1 :: older j.
Proof.
  intros Hx. unfold older. rewrite (take_S_r _ _ _ Hx), rev_app_distr. done.
Qed.

Lemma vote_loop_total fuel i j :
  (i <= length L)%nat -> (j <= length H)%nat -> (length L - i + j < fuel)%nat ->
  VoteState.vote_slots_loop fuel self L H i j <> Panic.
Proof.
  revert i j. induction fuel as [|fuel IH]; intros i j Hi Hj Hf; [lia|]. cbn [VoteState.vote_slots_loop].
  destruct ((i <? length L)%nat && (0 <? j)%nat) eqn:E; [|done].
  apply andb_true_iff in E as [E1%Nat.ltb_lt E2%Nat.ltb_lt].
  destruct (lookup_lt_is_Some_2 L i E1) as [s ->]. cbn [unwrap mbind result_bind].
  destruct (match VoteState.last_voted_slot self with Some last => s <=? last | None => false end); [apply IH; lia|].
  destruct (lookup_lt_is_Some_2 H (j - 1)) as [h ->]; [lia|]. cbn [unwrap mbind result_bind fmap option_fmap option_map].
  destruct (negb (s =? h.1)); apply IH; lia.
Qed.

Lemma vote_loop_spec fuel i j i' j' :
  (j <= length H)%nat -> VoteState.vote_slots_loop fuel self L H i j = Ok (i', j') -> i' = length L ->
  new_slots (drop i L) `sublist_of` older j /\
  ((new_slots (drop i L) = [] /\ j' = j) \/
   exists s h, list.last (new_slots (drop i L)) = Some s /\ H !! j' = Some (s, h)).
Proof.
  revert i j. induction fuel as [|fuel IH]; intros i j Hj Hr Hi'; cbn [VoteState.vote_slots_loop] in Hr.
  all: destruct ((i <? length L)%nat && (0 <? j)%nat) eqn:E;
    [|injection Hr as -> ->; rewrite drop_ge by lia; split; [apply sublist_nil_l|by left]].
  { done. }
  apply andb_true_iff in E as [E1%Nat.ltb_lt E2%Nat.ltb_lt].
  destruct (lookup_lt_is_Some_2 L i E1) as [s Hs]. rewrite Hs in Hr. cbn [unwrap mbind result_bind] in Hr.
  rewrite (drop_S _ _ _ Hs), new_slots_cons. unfold is_new.
  destruct (match VoteState.last_voted_slot self with Some last => s <=? last | None => false end) eqn:Hold;
    cbn [negb]; [by apply IH|].
  destruct (lookup_lt_is_Some_2 H (j - 1)) as [h Hh]; [lia|]. rewrite Hh in Hr.
  cbn [unwrap mbind result_bind fmap option_fmap option_map] in Hr.
  replace j with (S (j - 1)) by lia. rewrite (older_S _ _ Hh).
  destruct (Z.eqb_spec s h.1) as [->|Hne]; cbn [negb] in Hr.
  - destruct (IH (S i) (j - 1)%nat) as [Hsub Hlast]; [lia|done..|].
    split; [by apply sublist_skip|]. right. destruct Hlast as [[Hnil ->]|(s' & h' & Hl & Hj')].
    + rewrite Hnil. exists h.1, h.2. split; [done|]. rewrite Hh. by destruct h.
    + exists s', h'. split; [|done]. by destruct (new_slots (drop (S i) L)).
  - destruct (IH i (j - 1)%nat) as [Hsub Hlast]; [lia|done..|].
    rewrite (drop_S _ _ _ Hs), new_slots_cons in Hsub, Hlast. unfold is_new in Hsub, Hlast.
    rewrite Hold in Hsub, Hlast. cbn [negb] in Hsub, Hlast.
    split; [by apply sublist_cons|]. destruct Hlast as [[? _]|?]; [done|by right].
Qed.

End vote.

(** A vote that passes the check: its new slots are, in order, slots of the bank, there is
    at least one, and its hash is the hash of the last of them. *)
Lemma check_slots_spec self L vote_hash H :
  VoteState.check_slots_are_valid self L vote_hash H <> Panic /\
  (VoteState.check_slots_are_valid self L vote_hash H = Ok tt ->
   new_slots self L `sublist_of` older H (length H) /\
   exists s, list.last (new_slots self L) = Some s /\ (s, vote_hash) ∈ H).
Proof.
  unfold VoteState.check_slots_are_valid.
  destruct (VoteState.vote_slots_loop _ self L H 0 (length H)) as [[i j]|e|] eqn:E;
    [cbn [mbind result_bind]|done|by apply vote_loop_total in E; [|lia..]].
  destruct (j =? length H)%nat eqn:Ej; [done|]. cbn [negb ensure mbind result_bind].
  destruct (i =? length L)%nat eqn:Ei; [|done]. cbn [negb ensure mbind result_bind].
  apply Nat.eqb_eq in Ei. apply Nat.eqb_neq in Ej.
  destruct (vote_loop_spec self L H _ 0 (length H) i j ltac:(lia) E Ei) as [Hsub [[_ ?]|(s & h & Hs & Hj)]]; [done|].
  rewrite Hj. cbn. split; [by destruct (key_eqb h vote_hash)|].
  destruct (key_eqb h vote_hash) eqn:Eh; [|done]. intros _. apply key_eqb_eq in Eh as ->.
  rewrite drop_0 in Hsub, Hs. split; [done|]. exists s. split; [done|]. by eapply list_elem_of_lookup_2.
Qed.

(** ** Proposed towers *)
Section update.
Variables (self : VoteState) (L : list Lockout) (H : list (Z * Hash)) (e : Z).
Hypothesis He : fst <$> list.last H = Some e.

Lemma oldest_slot j x :
  H !! (j - 1)%nat = Some x -> j = length H -> x.1 = e.
Proof.
  intros Hx ->. rewrite last_lookup, <-Nat.sub_1_r in He. rewrite Hx in He. by injection He.
Qed.

Ltac update_step i j :=
  let E1 := fresh "E1" in let E2 := fresh "E2" in
  match goal with E : (_ && _)%bool = true |- _ =>
    apply andb_true_iff in E as [E1%Nat.ltb_lt E2%Nat.ltb_lt] end;
  let l := fresh "l" in let Hl := fresh "Hl" in
  destruct (lookup_lt_is_Some_2 L i E1) as [l Hl];
  let h := fresh "h" in let Hh := fresh "Hh" in
  destruct (lookup_lt_is_Some_2 H (j - 1)%nat) as [h Hh]; [lia|].

Lemma update_loop_total fuel (check_root : option Z) i j filtered :
  (i <= length L)%nat -> (j <= length H)%nat ->
  ((if check_root then 1 else 0) + (length L - i) + j < fuel)%nat ->
  (forall r, check_root = Some r -> r < e -> root_slot self = Some r) ->
  VoteState.update_slots_loop fuel self L H e check_root i j filtered <> Panic.
Proof.
  revert check_root i j filtered. induction fuel as [|fuel IH]; intros cr i j f Hi Hj Hf Hcr; [lia|].
  cbn [VoteState.update_slots_loop]. destruct ((i <? length L)%nat && (0 <? j)%nat) eqn:E; [|done].
  update_step i j. destruct cr as [r|].
  - cbn [mbind result_bind ensure negb]. rewrite Hh. cbn [unwrap mbind result_bind fmap option_fmap option_map].
    destruct (Z.compare_spec r h.1) as [Hc|Hc|Hc]; [apply IH; [lia..|done]| |apply IH; [lia..|done]].
    destruct (Nat.eqb_spec j (length H)) as [Ej|]; [|done]. rewrite (oldest_slot _ _ Hh Ej) in Hc.
    rewrite (proj2 (Z.ltb_lt _ _) Hc). cbn [assert_ mbind result_bind]. rewrite (Hcr r eq_refl Hc).
    cbn [unwrap mbind result_bind]. rewrite (proj2 (Z.ltb_lt _ _) Hc). cbn [assert_ mbind result_bind].
    apply IH; [lia..|done].
  - rewrite Hl. cbn [unwrap mbind result_bind fmap option_fmap option_map].
    assert (exists b, (if (0 <? i)%nat then previous ← unwrap (slot <$> L !! (i - 1)%nat); Ok (slot l <=? previous)
                       else Ok (E:=VoteError) false) = Ok b) as [b ->].
    { destruct (0 <? i)%nat; [|by eexists]. destruct (lookup_lt_is_Some_2 L (i - 1)%nat) as [p ->]; [lia|]. by eexists. }
    cbn [mbind result_bind]. destruct b; [done|]. cbn [negb ensure mbind result_bind]. rewrite Hh.
    cbn [unwrap mbind result_bind fmap option_fmap option_map].
    destruct (Z.compare_spec (slot l) h.1) as [Hc|Hc|Hc]; [apply IH; [lia..|done]| |apply IH; [lia..|done]].
    destruct (Nat.eqb_spec j (length H)) as [Ej|]; [|done]. rewrite (oldest_slot _ _ Hh Ej) in Hc.
    rewrite (proj2 (Z.ltb_lt _ _) Hc). cbn [assert_ mbind result_bind]. apply IH; [lia..|done].
Qed.

(** A slot the update may keep: it is in the history, or already in the tower. *)
Definition on_fork (l : Lockout) : Prop :=
  VoteState.contains_slot self (slot l) = true \/ exists h, (slot l, h) ∈ H.

Record checked (i : nat) (g : list nat) (j' : nat) : Prop := {
  ck_index : Forall (fun k => (i <= k)%nat) g;
  ck_fork : Forall on_fork (VoteState.retain (drop i L) i g);
  ck_sub : VoteState.retain (drop i L) i g `sublist_of` drop i L;
  ck_dropped l : l ∈ drop i L -> l ∈ VoteState.retain (drop i L) i g \/
    (slot l < e /\ VoteState.contains_slot self (slot l) = false);
  ck_last v : list.last (drop i L) = Some v -> e <= slot v ->
    list.last (VoteState.retain (drop i L) i g) = Some v /\ exists h, H !! j' = Some (slot v, h)
}.

Lemma retain_keep x l i g :
  Forall (fun k => (S i <= k)%nat) g -> VoteState.retain (x :: l) i g = x :: VoteState.retain l (S i) g.
Proof.
  intros Hg. destruct g as [|f g]; [done|]. cbn. apply Forall_cons_1 in Hg as [Hf _].
  by rewrite (proj2 (Nat.eqb_neq i f)) by lia.
Qed.

Lemma checked_nil j' : checked (length L) [] j'.
Proof. split; rewrite ?drop_ge by lia; try done. by intros l []%not_elem_of_nil. Qed.

(** A vote that stays. *)
Lemma checked_keep i l g j' :
  L !! i = Some l -> on_fork l -> checked (S i) g j' ->
  (S i = length L -> e <= slot l -> exists h, H !! j' = Some (slot l, h)) -> checked i g j'.
Proof.
  intros Hl Hon [Hi Hf Hs Hd Hlast] Hend. split; rewrite ?(drop_S _ _ _ Hl), ?(retain_keep _ _ _ _ Hi).
  - eapply Forall_impl; [|exact Hi]. cbn. lia.
  - by constructor.
  - by apply sublist_skip.
  - intros x [->|Hx]%elem_of_cons; [left; by left|]. destruct (Hd x Hx); [left; by right|by right].
  - intros v Hv Hev. destruct (drop (S i) L) as [|y rest] eqn:Ed.
    + cbn in Hv. injection Hv as <-. split; [done|]. apply Hend; [|done].
      apply lookup_lt_Some in Hl. assert (length (drop (S i) L) = 0%nat) as E by (by rewrite Ed).
      rewrite length_drop in E. lia.
    + rewrite last_cons_cons in Hv. destruct (Hlast v Hv Hev) as [Hr Hh]. split; [|done].
      by rewrite last_cons, Hr.
Qed.

(** A vote that is dropped. *)
Lemma checked_drop i l g j' :
  L !! i = Some l -> slot l < e -> VoteState.contains_slot self (slot l) = false -> checked (S i) g j' ->
  checked i (i :: g) j'.
Proof.
  intros Hl Hlt Hc [Hi Hf Hs Hd Hlast]. split; rewrite ?(drop_S _ _ _ Hl); cbn [VoteState.retain]; rewrite ?Nat.eqb_refl.
  - constructor; [done|]. eapply Forall_impl; [|exact Hi]. cbn. lia.
  - done.
  - by apply sublist_cons.
  - intros x [->|Hx]%elem_of_cons; [by right|]. by apply Hd.
  - intros v Hv Hev. destruct (drop (S i) L) as [|y rest]; [injection Hv as <-; lia|].
    rewrite last_cons_cons in Hv. by apply Hlast.
Qed.

(** The loop at the next vote, or past the last one. *)
Lemma next_index fuel i j f i' j' f' :
  (forall check_root i j filtered, (j <= length H)%nat -> (i < length L)%nat ->
    (forall r, check_root = Some r -> r < e -> root_slot self = Some r) ->
    VoteState.update_slots_loop fuel self L H e check_root i j filtered = Ok (i', j', f') ->
    (exists g, f' = filtered ++ g /\ checked i g j') /\
    (forall r, check_root = Some r -> root_slot self = Some r \/ exists h, (r, h) ∈ H)) ->
  (j <= length H)%nat -> (i <= length L)%nat ->
  VoteState.update_slots_loop fuel self L H e None i j f = Ok (i', j', f') ->
  exists g, f' = f ++ g /\ checked i g j' /\ (i = length L -> j' = j).
Proof.
  intros IH Hj Hi Hr. destruct (decide (i = length L)) as [->|Hne].
  - assert (f' = f /\ j' = j) as [-> ->].
    { destruct fuel; cbn [VoteState.update_slots_loop] in Hr; rewrite Nat.ltb_irrefl in Hr; by injection Hr. }
    exists []. split_and!; [by rewrite app_nil_r|apply checked_nil|done].
  - destruct (IH None i j f) as [(g & -> & Hg) _]; [done|lia|done..|]. exists g. split_and!; [done..|lia].
Qed.

Lemma update_loop_spec fuel check_root i j filtered i' j' filtered' :
  (j <= length H)%nat -> (i < length L)%nat ->
  (forall r, check_root = Some r -> r < e -> root_slot self = Some r) ->
  VoteState.update_slots_loop fuel self L H e check_root i j filtered = Ok (i', j', filtered') ->
  i' = length L ->
  (exists g, filtered' = filtered ++ g /\ checked i g j') /\
  (forall r, check_root = Some r -> root_slot self = Some r \/ exists h, (r, h) ∈ H).
Proof.
  intros Hj Hi Hcr Hr Hi'. revert check_root i j filtered Hj Hi Hcr Hr.
  induction fuel as [|fuel IH]; intros cr i j f Hj Hi Hcr Hr; cbn [VoteState.update_slots_loop] in Hr.
  all: destruct ((i <? length L)%nat && (0 <? j)%nat) eqn:E; [|injection Hr as -> _ _; lia].
  { done. }
  update_step i j. destruct cr as [r|].
  - cbn [mbind result_bind ensure negb] in Hr. rewrite Hh in Hr.
    cbn [unwrap mbind result_bind fmap option_fmap option_map] in Hr.
    destruct (Z.compare_spec r h.1) as [Hc|Hc|Hc].
    + destruct (IH None i j f) as [Hg _]; [done..|]. split; [done|]. intros ? [= <-]. right. exists h.2.
      rewrite Hc. apply (list_elem_of_lookup_2 _ (j - 1)%nat). rewrite Hh. by destruct h.
    + destruct (Nat.eqb_spec j (length H)) as [Ej|]; [|done]. rewrite (oldest_slot _ _ Hh Ej) in Hc.
      rewrite (proj2 (Z.ltb_lt _ _) Hc) in Hr. cbn [assert_ mbind result_bind] in Hr.
      rewrite (Hcr r eq_refl Hc) in Hr. cbn [unwrap mbind result_bind] in Hr.
      rewrite (proj2 (Z.ltb_lt _ _) Hc) in Hr. cbn [assert_ mbind result_bind] in Hr.
      destruct (IH None i j f) as [Hg _]; [done..|]. split; [done|]. intros ? [= <-]. left. by apply Hcr.
    + by apply (IH (Some r) i (j - 1)%nat f); [lia|..].
  - rewrite Hl in Hr. cbn [unwrap mbind result_bind fmap option_fmap option_map] in Hr.
    apply result_bind_ok in Hr as (b & _ & Hr). destruct b; [done|]. cbn [negb ensure mbind result_bind] in Hr.
    rewrite Hh in Hr. cbn [unwrap mbind result_bind fmap option_fmap option_map] in Hr.
    split; [|done]. destruct (Z.compare_spec (slot l) h.1) as [Hc|Hc|Hc].
    + assert (H !! (j - 1)%nat = Some (slot l, h.2)) as Hh' by (rewrite Hc, Hh; by destruct h).
      destruct (next_index fuel (S i) (j - 1)%nat f i' j' filtered' IH) as (g & -> & Hck & Hend); [lia..|done|].
      exists g. split; [done|]. eapply checked_keep; [done| |done|].
      * right. exists h.2. by eapply list_elem_of_lookup_2.
      * intros Hn _. rewrite (Hend Hn). by exists h.2.
    + destruct (Nat.eqb_spec j (length H)) as [Ej|]; [|done]. rewrite (oldest_slot _ _ Hh Ej) in Hc.
      rewrite (proj2 (Z.ltb_lt _ _) Hc) in Hr. cbn [assert_ mbind result_bind] in Hr.
      set (f1 := if VoteState.contains_slot self (slot l) then f else f ++ [i]) in Hr.
      destruct (next_index fuel (S i) j f1 i' j' filtered' IH) as (g & -> & Hck & Hend); [lia..|exact Hr|]. subst f1.
      destruct (VoteState.contains_slot self (slot l)) eqn:Hcont.
      * exists g. split; [done|]. eapply checked_keep; [done|by left|done|]. lia.
      * exists (i :: g). split; [by rewrite <-app_assoc|]. by eapply checked_drop.
    + by apply (IH None i (j - 1)%nat f); [lia|..].
Qed.

End update.

Section update_check.
Variables (self : VoteState) (u : VoteStateUpdate) (H : list (Z * Hash)).

(** The root the check uses. *)
Definition checked_root (e : Z) : option Z :=
  match root u with
  | Some r => if r <? e then root_slot self else root u
  | None => None
  end.

Lemma checked_root_old e r : checked_root e = Some r -> r < e -> root_slot self = Some r.
Proof.
  unfold checked_root. destruct (root u) as [r'|] eqn:Er; [|done].
  destruct (Z.ltb_spec r' e); [done|]. intros [= <-]. lia.
Qed.

Lemma last_index {A} (l : list A) (v : A) : list.last l = Some v -> (0 < length l)%nat.
Proof. destruct l; [done|cbn; lia]. Qed.

(** What the check has established when the loop is over. *)
Lemma update_loop_checked e v i j filtered :
  list.last (lockouts u) = Some v -> fst <$> list.last H = Some e -> e <= slot v ->
  VoteState.update_slots_loop (S (S (length (lockouts u) + length H))) self (lockouts u) H e
    (checked_root e) 0 (length H) [] = Ok (i, j, filtered) ->
  i = length (lockouts u) ->
  let K := VoteState.retain (lockouts u) 0 filtered in
  K `sublist_of` lockouts u /\
  (forall l, l ∈ lockouts u -> l ∈ K \/ (slot l < e /\ VoteState.contains_slot self (slot l) = false)) /\
  list.last K = Some v /\ Forall (on_fork self H) K /\
  (forall r, checked_root e = Some r -> root_slot self = Some r \/ exists h, (r, h) ∈ H) /\
  exists h, H !! j = Some (slot v, h).
Proof.
  intros Hv He Hev Hloop Hi K.
  destruct (update_loop_spec self (lockouts u) H e He _ _ 0 _ _ _ _ _ (Nat.le_refl _) (last_index _ _ Hv)
    (checked_root_old e) Hloop Hi) as [(g & -> & [_ Hf Hs Hd Hl]) Hr].
  rewrite drop_0 in Hf, Hs, Hd, Hl. destruct (Hl v Hv Hev) as [Hl' Hh]. by split_and!.
Qed.

Lemma update_loop_returns e :
  fst <$> list.last H = Some e ->
  VoteState.update_slots_loop (S (S (length (lockouts u) + length H))) self (lockouts u) H e
    (checked_root e) 0 (length H) [] <> Panic.
Proof.
  intros He. apply update_loop_total; [done|lia|done| |apply checked_root_old].
  destruct (checked_root e); lia.
Qed.

(** The check never panics: the assertions in its loop and after it hold. *)
Lemma check_update_total :
  VoteState.check_update_vote_state_slots_are_valid self u H <> Panic.
Proof.
  unfold VoteState.check_update_vote_state_slots_are_valid.
  destruct (list.last (lockouts u)) as [v|] eqn:Hv; [|done]. cbn [ok_or fmap option_fmap option_map mbind result_bind].
  match goal with |- context [ensure ?b VoteTooOld] => destruct b end; [cbn [ensure mbind result_bind]|done].
  destruct (list.last H) as [[e h0]|] eqn:Hlast; [|done]. cbn [ok_or fmap option_fmap option_map mbind result_bind fst].
  destruct (Z.ltb_spec (slot v) e) as [|Hev]; [done|]. cbn [negb ensure mbind result_bind].
  fold (checked_root e). assert (fst <$> list.last H = Some e) as He by (by rewrite Hlast).
  destruct (VoteState.update_slots_loop _ _ _ _ _ _ _ _ _) as [[[i j] f]|err|] eqn:Hloop;
    [cbn [mbind result_bind]|done|by apply update_loop_returns in Hloop].
  destruct (Nat.eqb_spec i (length (lockouts u))) as [Hi|]; [|done]. cbn [ensure mbind result_bind].
  destruct (update_loop_checked e v i j f Hv He Hev Hloop Hi) as (_ & _ & _ & _ & _ & h & Hh).
  rewrite Hh. cbn. rewrite Z.eqb_refl. cbn. by destruct (key_eqb h (update_hash u)).
Qed.

Record update_valid (u' : VoteStateUpdate) : Prop := {
  uv_votes : lockouts u' `sublist_of` lockouts u;
  uv_dropped l : l ∈ lockouts u -> l ∈ lockouts u' \/ exists oldest, list.last H = Some oldest /\
    slot l < oldest.1 /\ VoteState.contains_slot self (slot l) = false;
  uv_fork : Forall (on_fork self H) (lockouts u');
  uv_root r : root u' = Some r -> root_slot self = Some r \/ exists h, (r, h) ∈ H;
  uv_root_from r : root u' = Some r -> root u = Some r \/ root_slot self = Some r;
  uv_rest : update_hash u' = update_hash u /\ update_timestamp u' = update_timestamp u;
  uv_last : exists v, list.last (lockouts u') = Some v /\ list.last (lockouts u) = Some v /\
    (slot v, update_hash u) ∈ H /\
    forall x, VoteState.last_voted_slot self = Some x -> x < slot v
}.

Lemma check_update_spec u' :
  VoteState.check_update_vote_state_slots_are_valid self u H = Ok u' -> update_valid u'.
Proof.
  unfold VoteState.check_update_vote_state_slots_are_valid. intros Hr.
  apply result_bind_ok in Hr as (s & Hs & Hr). apply ok_or_ok, fmap_Some in Hs as (v & Hv & ->).
  apply result_bind_ok in Hr as ([] & Hnew & Hr). apply ensure_ok in Hnew.
  apply result_bind_ok in Hr as (e & He & Hr). apply ok_or_ok in He.
  apply result_bind_ok in Hr as ([] & Hev & Hr). apply ensure_ok, negb_true_iff, Z.ltb_ge in Hev.
  fold (checked_root e) in Hr. apply result_bind_ok in Hr as ([[i j] f] & Hloop & Hr).
  apply result_bind_ok in Hr as ([] & Hi & Hr). apply ensure_ok, Nat.eqb_eq in Hi.
  destruct (update_loop_checked e v i j f Hv He Hev Hloop Hi) as (Hsub & Hdrop & Hl & Hf & Hroot & h & Hh).
  rewrite Hh in Hr. cbn [unwrap mbind result_bind] in Hr. apply result_bind_ok in Hr as ([] & _ & Hr).
  apply result_bind_ok in Hr as ([] & Hk & [= <-]). apply ensure_ok, key_eqb_eq in Hk as ->.
  split; cbn; try done.
  { intros l Hl'. destruct (Hdrop l Hl') as [?|[Hlt Hc]]; [by left|]. right.
    apply fmap_Some in He as (oldest & Ho & ->). by exists oldest. }
  { intros r. unfold checked_root. destruct (root u) as [r'|]; [|done]. destruct (_ <? _); auto. }
  exists v. split_and!; [done..|by eapply list_elem_of_lookup_2|].
  intros x Hx. rewrite Hx in Hnew. apply negb_true_iff, Z.leb_gt in Hnew. done.
Qed.

End update_check.

(** ** Sublists *)
Lemma sublist_all {A} (P : A -> Prop) l k : l `sublist_of` k -> Forall P k -> Forall P l.
Proof. induction 1; intros Hk; [done|..]; apply Forall_cons_1 in Hk as [? ?]; auto. Qed.

Lemma sublist_in {A} (x : A) l k : l `sublist_of` k -> x ∈ l -> x ∈ k.
Proof.
  intros Hs Hx. pose proof (sublist_all (fun y => y ∈ k) l k Hs) as Hall.
  apply list_elem_of_In in Hx. eapply (proj1 (Forall_forall _ _) (Hall _)), Hx.
  Unshelve. apply Forall_forall. intros y Hy. by apply list_elem_of_In.
Qed.

(** ** The checks of a proposed tower *)

(** The values of a proposed tower are of their types, and its slots do not overflow. *)
Definition in_range (l : Lockout) : Prop := 0 <= slot l <= MAX_SLOT /\ 0 <= confirmation_count l.

Lemma check_new_votes_ok previous r l :
  Forall in_range l -> (forall p, previous = Some p -> vote_ok p) ->
  VoteState.check_new_votes previous r l = Ok tt ->
  Forall vote_ok l /\
  (forall i a b, (option_list previous ++ l) !! i = Some a -> (option_list previous ++ l) !! S i = Some b ->
     chained a b) /\
  (forall x, r = Some x -> root_below x l).
Proof.
  revert previous. induction l as [|v l IH]; intros previous Hl Hp Hc.
  { split_and!; [done| |right; done]. intros i a b Ha Hb. destruct previous; cbn in *; [by destruct i|done]. }
  apply Forall_cons_1 in Hl as [Hv Hl]. cbn [VoteState.check_new_votes] in Hc.
  apply result_bind_ok in Hc as ([] & H0 & Hc). apply ensure_ok, negb_true_iff, Z.eqb_neq in H0.
  apply result_bind_ok in Hc as ([] & H1 & Hc). apply ensure_ok, negb_true_iff, Z.ltb_ge in H1.
  apply result_bind_ok in Hc as ([] & Hr & Hc). apply ensure_ok in Hr.
  apply result_bind_ok in Hc as ([] & Hch & Hc).
  assert (vote_ok v) as Hok by (destruct Hv; split; [done|lia]).
  destruct (IH (Some v) Hl ltac:(by intros ? [= <-]) Hc) as (Hall & Hchain & Hroot). split_and!.
  - by constructor.
  - intros i a b Ha Hb. destruct previous as [p|]; [|exact (Hchain i a b Ha Hb)].
    destruct i as [|i]; [|exact (Hchain i a b Ha Hb)]. cbn in Ha, Hb. injection Ha as <-. injection Hb as <-.
    apply result_bind_ok in Hch as ([] & Hs & Hch). apply ensure_ok, negb_true_iff, Z.leb_gt in Hs.
    apply result_bind_ok in Hch as ([] & Hcc & Hlk). apply ensure_ok, negb_true_iff, Z.leb_gt in Hcc.
    apply ensure_ok, negb_true_iff, Z.ltb_ge in Hlk.
    rewrite last_locked_out_slot_eq in Hlk by (by apply Hp). by split.
  - intros x ->. destruct (Hroot x eq_refl) as [->|Hb]; [by left|].
    apply negb_true_iff, andb_false_iff in Hr as [Hr|Hr].
    + right. constructor; [by apply Z.leb_gt|done].
    + left. by apply negb_false_iff, Z.eqb_eq in Hr.
Qed.

Lemma skip_rooted_spec r votes n :
  exists skipped, votes = skipped ++ (VoteState.skip_rooted r votes n).1 /\
    forall v, v ∈ skipped -> exists x, r = Some x /\ slot v <= x.
Proof.
  revert n. induction votes as [|v l IH]; intros n; cbn [VoteState.skip_rooted].
  { exists []. split; [done|]. intros v Hv. by apply not_elem_of_nil in Hv. }
  destruct r as [x|]; [|exists []; split; [done|]; intros w Hw; by apply not_elem_of_nil in Hw].
  destruct (Z.leb_spec (slot v) x) as [Hle|].
  - destruct (IH (if negb (slot v =? x) then n + 1 else n)) as (sk & E & Hsk). exists (v :: sk).
    split; [cbn; by f_equal|]. intros w [->|Hw]%elem_of_cons; eauto.
  - exists []. split; [done|]. intros w Hw. by apply not_elem_of_nil in Hw.
Qed.

(** What a vote of the current tower has become in the new one. *)
Definition settled (new : list Lockout) (c : Lockout) : Prop :=
  (exists n, n ∈ new /\ slot n = slot c /\ confirmation_count c <= confirmation_count n) \/
  (exists n, n ∈ new /\ Lockout.last_locked_out_slot c < slot n) \/
  (forall n, n ∈ new -> slot n < slot c).

Lemma settled_cons n new c : slot n < slot c -> settled new c -> settled (n :: new) c.
Proof.
  intros Hn [(m & Hm & ?)|[(m & Hm & ?)|Hall]]; [left|right; left|right; right].
  - exists m. split; [by right|done].
  - exists m. split; [by right|done].
  - intros m [->|Hm]%elem_of_cons; auto.
Qed.

Definition increasing (l : list Lockout) : Prop :=
  forall i j a b, (i < j)%nat -> l !! i = Some a -> l !! j = Some b -> slot a < slot b.

Lemma increasing_cons x l : increasing (x :: l) -> increasing l /\ Forall (fun y => slot x < slot y) l.
Proof.
  intros H. split.
  - intros i j a b Hij Ha Hb. apply (H (S i) (S j)); [lia|done..].
  - apply Forall_lookup. intros i y Hy. apply (H 0%nat (S i)); [lia|done..].
Qed.

Lemma compare_lockouts_cons current_vote current new_vote new_state :
  VoteState.compare_lockouts (current_vote :: current) (new_vote :: new_state) =
  match slot current_vote ?= slot new_vote with
  | Lt =>
      ensure (negb (slot new_vote <=? Lockout.last_locked_out_slot current_vote)) LockoutConflict;;
      VoteState.compare_lockouts current (new_vote :: new_state)
  | Eq =>
      ensure (negb (confirmation_count new_vote <? confirmation_count current_vote)) ConfirmationRollBack;;
      VoteState.compare_lockouts current new_state
  | Gt => VoteState.compare_lockouts (current_vote :: current) new_state
  end.
Proof. done. Qed.

Lemma compare_lockouts_ok current new :
  increasing current -> VoteState.compare_lockouts current new = Ok tt -> Forall (settled new) current.
Proof.
  revert new. induction current as [|c current IHc]; intros new Hinc; [by constructor|].
  apply increasing_cons in Hinc as Hinc'. destruct Hinc' as [Hinc1 Hlt].
  induction new as [|n new IHn]; intros Hc.
  { apply Forall_forall. intros v _. right; right. intros m Hm. by apply not_elem_of_nil in Hm. }
  rewrite compare_lockouts_cons in Hc. destruct (Z.compare_spec (slot c) (slot n)) as [E|E|E].
  - apply result_bind_ok in Hc as ([] & Hcc & Hc). apply ensure_ok, negb_true_iff, Z.ltb_ge in Hcc.
    constructor; [left; exists n; split_and!; [by left|done..]|].
    apply Forall_forall. intros v Hv. apply settled_cons.
    + rewrite <-E. by eapply (proj1 (Forall_forall _ _) Hlt).
    + by eapply (proj1 (Forall_forall _ _) (IHc new Hinc1 Hc)).
  - apply result_bind_ok in Hc as ([] & Hlk & Hc). apply ensure_ok, negb_true_iff, Z.leb_gt in Hlk.
    constructor; [|by apply IHc]. right; left. exists n. split; [by left|done].
  - specialize (IHn Hc). apply Forall_cons_1 in IHn as [Hs1 Hs2]. constructor; [by apply settled_cons|].
    apply Forall_forall. intros v Hv. apply settled_cons; [|by eapply (proj1 (Forall_forall _ _) Hs2)].
    eapply (proj1 (Forall_forall _ _) Hlt) in Hv. lia.
Qed.

Lemma tower_increasing l : tower_wf l -> increasing l.
Proof. intros Hwf i j a b Hij Ha Hb. by destruct (tower_ordered l i j a b Hwf Hij Ha Hb). Qed.

Lemma increasing_app_r l k : increasing (l ++ k) -> increasing k.
Proof.
  intros H i j a b Hij Ha Hb. apply (H (length l + i)%nat (length l + j)%nat); [lia|..];
    (rewrite lookup_app_r by lia); by rewrite Nat.add_comm, Nat.add_sub.
Qed.

Lemma process_timestamp_keeps self s t self' :
  VoteState.process_timestamp self s t = Ok self' ->
  votes self' = votes self /\ root_slot self' = root_slot self.
Proof. intros H. apply result_bind_ok in H as ([] & _ & [= <-]). done. Qed.

(** The new tower by itself. *)
Lemma new_tower_wf new r :
  Forall in_range new -> (length new <= MAX_LOCKOUT_HISTORY)%nat ->
  VoteState.check_new_votes None r new = Ok tt ->
  tower_wf new /\ forall x, r = Some x -> root_below x new.
Proof.
  intros Hrange Hlen Hc. destruct (check_new_votes_ok None r new Hrange ltac:(done) Hc) as (Hok & Hch & Hr).
  by split; [split|].
Qed.

Lemma new_vote_state_extends self new r ts epoch f self' :
  state_wf self -> Forall in_range new -> (forall x, r = Some x -> 0 <= x) ->
  (forall x, VoteState.last_voted_slot self = Some x -> exists v, list.last new = Some v /\ x < slot v) ->
  VoteState.process_new_vote_state self new r ts epoch f = Ok self' ->
  extends self self' /\ votes self' = new /\ root_slot self' = r.
Proof.
  intros [Hwf Hroot Hvoted] Hrange Hr0 Hnew Hp. unfold VoteState.process_new_vote_state in Hp.
  apply result_bind_ok in Hp as ([] & Hne & Hp). apply assert_ok, negb_true_iff, bool_decide_eq_false in Hne.
  apply result_bind_ok in Hp as ([] & Hlen & Hp). apply ensure_ok, negb_true_iff, Nat.ltb_ge in Hlen.
  apply result_bind_ok in Hp as ([] & Hback & Hp). apply ensure_ok in Hback.
  apply result_bind_ok in Hp as ([] & Hcheck & Hp).
  destruct (new_tower_wf new r Hrange Hlen Hcheck) as [Htower Hbelow].
  destruct (skip_rooted_spec r (votes self) 1) as (sk & Hsk & Hskip).
  destruct (VoteState.skip_rooted r (votes self) 1) as [current count]. cbn in Hsk.
  apply result_bind_ok in Hp as ([] & Hcmp & Hp). apply result_bind_ok in Hp as (self1 & _ & [= <-]).
  assert (increasing current) as Hinc by (eapply increasing_app_r; rewrite <-Hsk; by apply tower_increasing).
  pose proof (compare_lockouts_ok current new Hinc Hcmp) as Hset.
  split; [|done]. split; [split|..]; cbn.
  - done.
  - auto.
  - done.
  - intros x Hx. rewrite Hx in Hback. destruct r as [y|]; [|done]. exists y. split; [done|].
    by apply negb_true_iff, Z.ltb_ge in Hback.
  - intros x Hx. destruct (Hnew _ Hx) as (v & Hv & ?). exists (slot v). split; [|lia].
    unfold VoteState.last_voted_slot, VoteState.last_lockout. cbn. by rewrite Hv.
  - intros v Hv. rewrite Hsk in Hv. apply elem_of_app in Hv as [Hv|Hv]; [right; left; by apply Hskip|].
    assert (v ∈ votes self) as Hin by (rewrite Hsk; apply elem_of_app; by right).
    assert (vote_ok v) as Hok by (eapply Forall_forall; [apply Hwf|by apply list_elem_of_In]).
    apply list_elem_of_In in Hv. eapply (proj1 (Forall_forall _ _) Hset) in Hv.
    destruct (last_voted_some self) as [x Hx]; [by intros E; rewrite E in Hin; apply not_elem_of_nil in Hin|].
    destruct (Hnew _ Hx) as (w & Hw & Hxw). pose proof (tower_below_last _ _ _ Hwf Hin Hx) as Hvx.
    destruct Hv as [Hk|[(n & Hn & Hlk)|Hall]]; [by left|right; right|].
    + exists (slot w). unfold VoteState.last_voted_slot, VoteState.last_lockout. cbn. rewrite Hw.
      split; [done|]. rewrite last_locked_out_slot_eq in Hlk by done.
      pose proof (tower_below_last new n (slot w) Htower Hn ltac:(by rewrite Hw)). lia.
    + assert (w ∈ new) as Hwn by (rewrite last_lookup in Hw; by eapply list_elem_of_lookup_2).
      specialize (Hall _ Hwn). lia.
Qed.

(** ** Steps of a vote account

    The slots of the bank are below the point where lockouts overflow; the counts of a
    proposed tower are [u32]s. *)
Definition hashes_ok (slot_hashes : list (Z * Hash)) : Prop :=
  Forall (fun x => 0 <= x.1 <= MAX_SLOT) slot_hashes.

Inductive voted (self : VoteState) : VoteState -> Prop :=
| voted_slots vote slot_hashes epoch features self' :
    hashes_ok slot_hashes ->
    VoteState.process_vote self vote slot_hashes epoch features = Ok self' -> voted self self'
| voted_tower u u' slot_hashes epoch features self' :
    hashes_ok slot_hashes -> Forall (fun l => 0 <= confirmation_count l) (lockouts u) ->
    VoteState.check_update_vote_state_slots_are_valid self u slot_hashes = Ok u' ->
    VoteState.process_new_vote_state self (lockouts u') (root u') (update_timestamp u') epoch features
    = Ok self' -> voted self self'
| voted_timestamp s t self' :
    VoteState.process_timestamp self s t = Ok self' -> voted self self'.

Lemma hashes_in slot_hashes s h : hashes_ok slot_hashes -> (s, h) ∈ slot_hashes -> 0 <= s <= MAX_SLOT.
Proof. intros Hok Hin. apply list_elem_of_In in Hin. exact (proj1 (Forall_forall _ _) Hok _ Hin). Qed.

Lemma new_slot_in_hashes self l H s :
  new_slots self l `sublist_of` older H (length H) -> s ∈ l ->
  (forall x, VoteState.last_voted_slot self = Some x -> x < s) -> exists h, (s, h) ∈ H.
Proof.
  intros Hsub Hs Hnew. assert (s ∈ new_slots self l) as Hin.
  { apply list_elem_of_In, filter_In. split; [by apply list_elem_of_In|]. unfold is_new.
    by rewrite (newer_vote _ _ Hnew). }
  assert (s ∈ older H (length H)) as Ho by (by eapply sublist_in).
  unfold older in Ho. rewrite firstn_all in Ho. apply list_elem_of_fmap in Ho as ([s' h] & -> & Hh).
  exists h. apply list_elem_of_In. apply list_elem_of_In in Hh. by apply in_rev.
Qed.

Lemma process_vote_extends self vote H epoch f self' :
  state_wf self -> hashes_ok H ->
  VoteState.process_vote self vote H epoch f = Ok self' -> extends self self'.
Proof.
  intros Hwf Hok Hp. unfold VoteState.process_vote in Hp.
  apply result_bind_ok in Hp as ([] & _ & Hp). apply result_bind_ok in Hp as ([] & _ & Hp).
  apply result_bind_ok in Hp as ([] & Hc & [= <-]). apply next_votes_extend; [done|].
  intros s Hs Hnew. destruct (proj2 (check_slots_spec _ _ _ _) Hc) as [Hsub _].
  destruct (new_slot_in_hashes _ _ _ _ Hsub Hs Hnew) as [h Hh]. by eapply hashes_in.
Qed.

Lemma extends_same self self' :
  state_wf self -> votes self' = votes self -> root_slot self' = root_slot self -> extends self self'.
Proof.
  intros Hwf Hv Hr. pose proof (extends_refl self Hwf) as [_ Hroot Hlast Hvotes].
  unfold VoteState.last_voted_slot, VoteState.last_lockout in *. split.
  - destruct Hwf. split; rewrite ?Hv, ?Hr; done.
  - by rewrite Hr.
  - unfold VoteState.last_voted_slot, VoteState.last_lockout. by rewrite Hv.
  - intros v Hin. left. exists v. rewrite Hv. split_and!; [done..|lia].
Qed.

Lemma contained_slot self s :
  VoteState.contains_slot self s = true -> exists v, v ∈ votes self /\ slot v = s.
Proof.
  intros (v & Hin & Hv)%existsb_exists. apply Z.eqb_eq in Hv as <-. exists v.
  split; [by apply list_elem_of_In|done].
Qed.

Lemma checked_in_range self u H u' :
  state_wf self -> hashes_ok H -> Forall (fun l => 0 <= confirmation_count l) (lockouts u) ->
  update_valid self u H u' -> Forall in_range (lockouts u').
Proof.
  intros Hwf Hok Hcounts Hu. apply Forall_forall. intros l Hl. split.
  - destruct (proj1 (Forall_forall _ _) (uv_fork _ _ _ _ Hu) _ Hl) as [(v & Hv & <-)%contained_slot|[h Hh]].
    + apply list_elem_of_In in Hv. by destruct (proj1 (Forall_forall _ _) (tw_votes _ (sw_tower _ Hwf)) _ Hv).
    + by eapply hashes_in.
  - pose proof (sublist_all _ _ _ (uv_votes _ _ _ _ Hu) Hcounts) as Hall.
    exact (proj1 (Forall_forall _ _) Hall _ Hl).
Qed.

Lemma voted_extends self self' : state_wf self -> voted self self' -> extends self self'.
Proof.
  intros Hwf [vote H epoch f ? Hok Hp|u u' H epoch f ? Hok Hcounts Hc Hp|s t ? Hp].
  - by eapply process_vote_extends.
  - pose proof (check_update_spec _ _ _ _ Hc) as Hu.
    eapply new_vote_state_extends; [done|by eapply checked_in_range| | |exact Hp].
    + intros r Hr. destruct (uv_root _ _ _ _ Hu _ Hr) as [Hs|[h Hh]].
      * by apply (sw_root _ Hwf) in Hs as [? _].
      * apply (hashes_in _ _ _ Hok) in Hh. lia.
    + intros x Hx. destruct (uv_last _ _ _ _ Hu) as (v & Hv & _ & _ & Hnew). exists v. auto.
  - apply result_bind_ok in Hp as ([] & _ & [= <-]). by apply extends_same.
Qed.

Lemma voted_rtc_extends self self' : state_wf self -> rtc voted self self' -> extends self self'.
Proof.
  intros Hwf Hsteps. induction Hsteps as [s|s1 s2 s3 Hstep _ IH]; [by apply extends_refl|].
  pose proof (voted_extends _ _ Hwf Hstep) as Hext.
  eapply extends_trans; [exact Hext|]. apply IH, Hext.
Qed.

(** C25: The checks of a vote never panic; when they accept a vote on slots, its new
    slots are slots of the bank in their order and the hash of the vote is the one of
    the last slot. When they accept a proposed tower, every vote left in it is in the
    current tower or in the bank, and every vote dropped from it is older than the
    oldest slot the bank remembers and not in the current tower (whose slots increase,
    so that the search in it finds exactly its votes); the root is the current one or in
    the bank, and the hash is that of the last vote, which is newer than the last vote
    of the account. *)
Theorem accepted_votes_on_fork (self : VoteState) (slot_hashes : list (Z * Hash)) :
  (forall vote_slots vote_hash,
     VoteState.check_slots_are_valid self vote_slots vote_hash slot_hashes <> Panic /\
     (VoteState.check_slots_are_valid self vote_slots vote_hash slot_hashes = Ok tt ->
      new_slots self vote_slots `sublist_of` older slot_hashes (length slot_hashes) /\
      exists s, list.last (new_slots self vote_slots) = Some s /\ (s, vote_hash) ∈ slot_hashes)) /\
  (forall u, VoteState.check_update_vote_state_slots_are_valid self u slot_hashes <> Panic /\
     forall u', VoteState.check_update_vote_state_slots_are_valid self u slot_hashes = Ok u' ->
     update_valid self u slot_hashes u').
Proof.
  split; [intros; apply check_slots_spec|]. intros u. split; [apply check_update_total|].
  intros u'. apply check_update_spec.
Qed.

(** ** A concrete account

    It votes on slots 1, 2 and 3, then proposes a tower that leaves slot 3 for slot 6. *)
Definition vx_hash : Hash := pubkey_of_Z 7.
Definition vx_start : VoteState :=
  VoteState.new (mkVoteInit (pubkey_of_Z 1) (pubkey_of_Z 2) (pubkey_of_Z 3) x05) (mkClock 0 0).
Definition vx_hashes (l : list Z) : list (Z * Hash) := (fun s => (s, vx_hash)) <$> l.
Definition vx_vote : Vote := mkVote [1; 2; 3] vx_hash None.
Definition vx_update : VoteStateUpdate :=
  mkVoteStateUpdate [mkLockout 1 4; mkLockout 2 3; mkLockout 6 1] None vx_hash None.

Definition vx_voted : VoteState :=
  match VoteState.process_vote vx_start vx_vote (vx_hashes [3; 2; 1]) 0 None with Ok s => s | _ => vx_start end.
Definition vx_updated : VoteState := set_votes vx_voted (lockouts vx_update).

Lemma vx_votes : rtc voted vx_start vx_updated.
Proof.
  eapply rtc_l; [|eapply rtc_l; [|apply rtc_refl]].
  - eapply (voted_slots _ vx_vote (vx_hashes [3; 2; 1]) 0 None vx_voted); [|vm_compute; reflexivity].
    repeat constructor; vm_compute; discriminate.
  - eapply (voted_tower vx_voted vx_update vx_update (vx_hashes [6; 2; 1]) 0 None vx_updated);
      [..|vm_compute; reflexivity|vm_compute; reflexivity]; repeat constructor; vm_compute; discriminate.
Qed.
