(* ===== verification/VoteAuthority.v ===== *)
(** * Authorized voters, credits and commission of a vote account

    The voter of an epoch is the last one set at or before it; a new voter takes over at
    the target epoch and not earlier, the assertions of the code hold, the history of
    credits stays bounded and credits only grow, and a commission never pays out more
    than it was given. *)

From Stdlib Require Import Strings.Byte.
From S2P Require Import Prelude Sdk Rent Nonce VoteState VoteTower.

(** ** The map of voters *)
Lemma next_back_spec (m : AuthorizedVoters) :
  match next_back m with
  | Some (k, p) => m !! k = Some p /\ forall k', is_Some (m !! k') -> k' <= k
  | None => m = ∅
  end.
Proof.
  unfold next_back. apply (map_fold_weak_ind (fun r m => match r with
    | Some (k, p) => m !! k = Some p /\ forall k', is_Some (m !! k') -> k' <= k
    | None => m = ∅ end)); [done|].
  intros k p m' [[k0 p0]|] Hk; cbn.
  - intros [Hp0 Hmax]. assert (k0 <> k) as Hne by congruence.
    destruct (Z.ltb_spec k0 k) as [Hlt|Hge].
    + split; [apply lookup_insert_eq|]. intros k'. rewrite lookup_insert. case_decide; [lia|].
      intros ?%Hmax. lia.
    + split; [by rewrite lookup_insert_ne|]. intros k'. rewrite lookup_insert. case_decide; [lia|]. auto.
  - intros ->. split; [apply lookup_insert_eq|]. intros k'. rewrite lookup_insert. case_decide; [lia|].
    rewrite lookup_empty. by intros [].
Qed.

(** The voter of an epoch. *)
Definition voter_at (m : AuthorizedVoters) (e : Z) (p : Pubkey) : Prop :=
  exists k, k <= e /\ m !! k = Some p /\ forall k', k < k' <= e -> m !! k' = None.

Lemma voter_at_unique m e p q : voter_at m e p -> voter_at m e q -> p = q.
Proof.
  intros (k & Hk & Hp & Hmax) (l & Hl & Hq & Hmax').
  destruct (Z.lt_total k l) as [?|[->|?]]; [by rewrite Hmax in Hq by lia|congruence|by rewrite Hmax' in Hp by lia].
Qed.

Lemma below_lookup (m : AuthorizedVoters) e k p :
  AuthorizedVoters.range_below m e !! k = Some p <-> m !! k = Some p /\ k < e.
Proof. unfold AuthorizedVoters.range_below. by rewrite map_lookup_filter_Some. Qed.

Lemma get_authorized_voter_spec m e p :
  AuthorizedVoters.get_authorized_voter m e = Some p <-> voter_at m e p.
Proof.
  unfold AuthorizedVoters.get_authorized_voter, AuthorizedVoters.get_or_calculate_authorized_voter_for_epoch.
  assert (forall q, m !! e = Some q -> voter_at m e q) as Hhere.
  { intros q Hq. exists e. split_and!; [lia|done|]. intros k' Hk'. lia. }
  destruct (m !! e) as [q|] eqn:He; cbn.
  { split; [intros [= <-]; auto|]. intros Hp. f_equal. eapply voter_at_unique; [by apply Hhere|done]. }
  pose proof (next_back_spec (AuthorizedVoters.range_below m e)) as Hnb.
  destruct (next_back _) as [[k q]|]; cbn.
  - destruct Hnb as [[Hq Hlt]%below_lookup Hmax].
    assert (voter_at m e q) as Hv.
    { exists k. split_and!; [lia|done|]. intros k' [Hk' Hk'']. destruct (decide (k' = e)) as [->|]; [done|].
      destruct (m !! k') as [p'|] eqn:Hp'; [|done].
      assert (k' <= k); [|lia]. apply Hmax. exists p'. apply below_lookup. split; [done|lia]. }
    split; [by intros [= <-]|]. intros Hp. f_equal. by eapply voter_at_unique.
  - split; [done|]. intros (k & Hk & Hp & _). destruct (decide (k = e)) as [->|]; [congruence|].
    assert (AuthorizedVoters.range_below m e !! k = Some p) as Hb by (apply below_lookup; split; [done|lia]).
    by rewrite Hnb, lookup_empty in Hb.
Qed.

(** ** Caching and purging *)

(** The map that is left for the epoch [e]: the voter of [e] is an entry, earlier ones are
    gone, later ones are as they were. *)
Record refreshed (m : AuthorizedVoters) (e : Z) (p : Pubkey) (m' : AuthorizedVoters) : Prop := {
  rf_here : m' !! e = Some p;
  rf_later k : e < k -> m' !! k = m !! k;
  rf_earlier k : k < e -> m' !! k = None
}.

Lemma get_and_update_spec self e :
  (forall p, voter_at (authorized_voters self) e p ->
     exists m', VoteState.get_and_update_authorized_voter self e = Ok (p, set_authorized_voters self m') /\
       refreshed (authorized_voters self) e p m') /\
  ((forall p, ~ voter_at (authorized_voters self) e p) ->
     VoteState.get_and_update_authorized_voter self e = Err InstructionError.InvalidAccountData).
Proof.
  set (m := authorized_voters self). unfold VoteState.get_and_update_authorized_voter. fold m.
  unfold AuthorizedVoters.get_and_cache_authorized_voter_for_epoch. split.
  - intros p Hp. pose proof (proj2 (get_authorized_voter_spec m e p) Hp) as Hget.
    unfold AuthorizedVoters.get_authorized_voter in Hget.
    destruct (AuthorizedVoters.get_or_calculate_authorized_voter_for_epoch m e) as [[q existed]|] eqn:E;
      [|done]. cbn in Hget. injection Hget as ->. cbn [mbind option_bind ok_or result_bind].
    set (m1 := if existed then m else <[e := p]> m).
    assert (m1 !! e = Some p /\ forall k, k <> e -> m1 !! k = m !! k) as [Hhere Hother].
    { unfold AuthorizedVoters.get_or_calculate_authorized_voter_for_epoch in E. subst m1.
      destruct (m !! e) as [q|] eqn:He; [by injection E as -> <-|].
      destruct (next_back _) as [[k q]|]; [|done]. injection E as _ <-.
      split; [apply lookup_insert_eq|]. intros k' Hk'. by rewrite lookup_insert_ne. }
    unfold AuthorizedVoters.purge_authorized_voters.
    set (m2 := filter _ m1). assert (m2 !! e = Some p) as He2
      by (apply map_lookup_filter_Some; split; [done|cbn; lia]).
    assert (m2 <> ∅) as Hne by (intros Hm; by rewrite Hm, lookup_empty in He2).
    rewrite (bool_decide_eq_false_2 _ Hne). cbn. exists m2. split; [done|]. split; [done|..].
    + intros k Hk. rewrite <-(Hother k) by lia. subst m2. rewrite map_lookup_filter.
      destruct (m1 !! k) as [x|]; [|done]. cbn. by rewrite option_guard_True by lia.
    + intros k Hk. apply map_lookup_filter_None. right. intros x _. cbn. lia.
  - intros Hno. unfold AuthorizedVoters.get_or_calculate_authorized_voter_for_epoch.
    destruct (AuthorizedVoters.get_authorized_voter m e) as [p|] eqn:Hget;
      [by apply get_authorized_voter_spec, Hno in Hget|].
    unfold AuthorizedVoters.get_authorized_voter, AuthorizedVoters.get_or_calculate_authorized_voter_for_epoch in Hget.
    destruct (m !! e); [done|]. by destruct (next_back _) as [[k q]|].
Qed.

(** ** A new voter *)
Lemma refreshed_voter m e p m' k q :
  voter_at m e p -> refreshed m e p m' -> e <= k -> voter_at m' k q <-> voter_at m k q.
Proof.
  intros Hp [Hh Hl He] Hk.
  assert (forall q, voter_at m k q -> voter_at m' k q) as Hto.
  { intros q' (j & Hj & Hq & Hmax). destruct (Z.lt_ge_cases e j) as [Hej|Hje].
    - exists j. rewrite Hl by lia. split_and!; [done..|]. intros k' Hk'. rewrite Hl by lia. auto.
    - assert (q' = p) as ->.
      { eapply voter_at_unique; [|exact Hp]. exists j. split_and!; [done..|]. intros k' Hk'. apply Hmax. lia. }
      exists e. split_and!; [done..|]. intros k' Hk'. rewrite Hl by lia. apply Hmax. lia. }
  split; [|apply Hto]. intros Hq.
  assert (exists q', voter_at m k q') as [q' Hq'].
  { destruct Hq as (j & Hj & Hqj & Hmax). destruct (Z.lt_ge_cases e j) as [Hej|Hje].
    - exists q, j. rewrite Hl in Hqj by lia. split_and!; [done..|]. intros k' Hk'. rewrite <-Hl by lia. auto.
    - destruct Hp as (j0 & Hj0 & Hpj & Hm0). exists p, j0. split_and!; [lia|done|]. intros k' Hk'.
      destruct (Z.lt_ge_cases e k'); [|apply Hm0; lia]. rewrite <-Hl by lia. apply Hmax. lia. }
  by rewrite (voter_at_unique m' k q q' Hq (Hto _ Hq')).
Qed.

Lemma insert_voter_before (m : AuthorizedVoters) target key k q :
  k < target -> voter_at (<[target := key]> m) k q <-> voter_at m k q.
Proof.
  intros Hk. unfold voter_at. apply exist_proper. intros j. split; intros (Hj & Hq & Hno); (split_and!; [done|..]).
  - rewrite lookup_insert_ne in Hq by lia. done.
  - intros k' Hk'. specialize (Hno k' Hk'). by rewrite lookup_insert_ne in Hno by lia.
  - by rewrite lookup_insert_ne by lia.
  - intros k' Hk'. rewrite lookup_insert_ne by lia. auto.
Qed.

Lemma insert_voter_after (m : AuthorizedVoters) target key k q :
  target <= k -> (forall j, target < j <= k -> m !! j = None) ->
  voter_at (<[target := key]> m) k q <-> q = key.
Proof.
  intros Hk Hno. assert (voter_at (<[target := key]> m) k key) as Hkey.
  { exists target. split_and!; [lia|apply lookup_insert_eq|]. intros k' Hk'. rewrite lookup_insert_ne by lia. auto. }
  split; [by intros ?%(voter_at_unique _ _ _ _ Hkey)|by intros ->].
Qed.

Lemma refreshed_below m e p m' target k q :
  refreshed m e p m' -> e < target -> (forall j, is_Some (m !! j) -> j <= target) -> m !! target = None ->
  m' !! k = Some q -> k < target.
Proof.
  intros Href He Hlast Ht Hk. destruct (Z.lt_ge_cases e k) as [Hlt|]; [|lia].
  rewrite (rf_later _ _ _ _ Href k Hlt) in Hk. assert (k <> target) by congruence.
  specialize (Hlast k ltac:(by eexists)). lia.
Qed.

(** The parts of the state that do not concern voters. *)
Definition same_but_voters (s s' : VoteState) : Prop :=
  node_pubkey s' = node_pubkey s /\ authorized_withdrawer s' = authorized_withdrawer s /\
  commission s' = commission s /\ votes s' = votes s /\ root_slot s' = root_slot s /\
  epoch_credits s' = epoch_credits s /\ last_timestamp s' = last_timestamp s.

(** The voters after a change at [target], seen from the epoch [current]. *)
Record handed_over (current target : Z) (key : Pubkey) (s s' : VoteState) : Prop := {
  ho_rest : same_but_voters s s';
  ho_before e q : current <= e < target ->
    voter_at (authorized_voters s') e q <-> voter_at (authorized_voters s) e q;
  ho_after e q : target <= e -> (forall k, target < k <= e -> authorized_voters s !! k = None) ->
    voter_at (authorized_voters s') e q <-> q = key
}.

Lemma set_new_voter_ok self key current target verify self' :
  current < target ->
  VoteState.set_new_authorized_voter self key current target verify = Ok self' ->
  (exists p, voter_at (authorized_voters self) current p /\ verify p = Ok tt) /\
  handed_over current target key self self'.
Proof.
  unfold VoteState.set_new_authorized_voter. intros Hlt Hs.
  destruct (get_and_update_spec self current) as [Hsome Hnone].
  destruct (AuthorizedVoters.get_authorized_voter (authorized_voters self) current) as [p|] eqn:Hp.
  2: { rewrite Hnone in Hs; [done|]. intros p Hv%get_authorized_voter_spec. congruence. }
  apply get_authorized_voter_spec in Hp. destruct (Hsome p Hp) as (m & E & Href). rewrite E in Hs.
  cbn [mbind result_bind] in Hs. apply result_bind_ok in Hs as ([] & Hv & Hs).
  apply result_bind_ok in Hs as ([] & _ & Hs). cbn [authorized_voters set_authorized_voters] in Hs.
  apply result_bind_ok in Hs as ([latest q] & _ & Hs).
  apply result_bind_ok in Hs as (self1 & Hs1 & [= <-]). split; [by exists p|].
  assert (authorized_voters self1 = m /\ same_but_voters self self1) as [Hm Hrest].
  { destruct (negb (key_eqb q key)); [|by injection Hs1 as <-].
    by apply result_bind_ok in Hs1 as ([] & _ & [= <-]). }
  split; [exact Hrest|..]; intros e q' He; cbn [authorized_voters set_authorized_voters]; rewrite Hm.
  - rewrite insert_voter_before by lia. eapply refreshed_voter; [exact Hp|done|lia].
  - intros Hno. apply insert_voter_after; [done|]. intros j Hj. rewrite (rf_later _ _ _ _ Href) by lia. auto.
Qed.

(** Setting a new voter succeeds only with the approval of the voter of the current
    epoch, whom it leaves in place up to the target epoch; from there on the new voter
    votes and nothing else of the account changes. It fails exactly when there is no
    current voter, the approval is refused or a voter was already set for the target
    epoch, and its assertions never fail. *)
Theorem new_voter_takes_over (self : VoteState) (key : Pubkey) (current target : Z)
    (verify : Pubkey -> result InstructionError unit)
    (Hcur : current < target)
    (Hlast : forall k, is_Some (authorized_voters self !! k) -> k <= target)
    (Hverify : forall p, verify p <> Panic) :
  match VoteState.set_new_authorized_voter self key current target verify with
  | Ok self' =>
      (exists p, voter_at (authorized_voters self) current p /\ verify p = Ok tt) /\
      handed_over current target key self self'
  | Err e =>
      ((forall p, ~ voter_at (authorized_voters self) current p) /\ e = InstructionError.InvalidAccountData) \/
      exists p, voter_at (authorized_voters self) current p /\
        (verify p = Err e \/
         verify p = Ok tt /\ is_Some (authorized_voters self !! target) /\ e = vote_error TooSoonToReauthorize)
  | Panic => False
  end.
Proof.
  destruct (VoteState.set_new_authorized_voter self key current target verify) as [self'|e|] eqn:Hs;
    [by apply set_new_voter_ok in Hs|..];
    unfold VoteState.set_new_authorized_voter in Hs; destruct (get_and_update_spec self current) as [Hsome Hnone];
    destruct (AuthorizedVoters.get_authorized_voter (authorized_voters self) current) as [p|] eqn:Hp.
  2,4: assert (forall p, ~ voter_at (authorized_voters self) current p) as Hno
         by (intros p Hv%get_authorized_voter_spec; congruence);
       rewrite (Hnone Hno) in Hs; try discriminate Hs; injection Hs as <-; by left.
  all: apply get_authorized_voter_spec in Hp; destruct (Hsome p Hp) as (m & E & Href); rewrite E in Hs;
    cbn [mbind result_bind] in Hs;
    destruct (verify p) as [[]|e'|] eqn:Hv;
      [|try discriminate Hs; injection Hs as <-; right; by eauto|by destruct (Hverify p)];
    cbn [mbind result_bind authorized_voters set_authorized_voters] in Hs;
    unfold AuthorizedVoters.contains in Hs; rewrite (rf_later _ _ _ _ Href _ Hcur) in Hs;
    destruct (authorized_voters self !! target) as [x|] eqn:Ht;
      [first [discriminate Hs|injection Hs as <-; right; exists p; split; [done|]; right; by split_and!]|];
    exfalso; cbn [negb ensure mbind result_bind] in Hs.
  all: pose proof (next_back_spec m) as Hnb; destruct (next_back m) as [[latest q]|];
      [|by pose proof (rf_here _ _ _ _ Href) as Hh; rewrite Hnb, lookup_empty in Hh];
    destruct Hnb as [Hq _]; cbn [ok_or mbind result_bind] in Hs;
    (assert (latest < target) as Hlt%Z.ltb_lt by (eapply refreshed_below; eauto));
    rewrite Hlt in Hs; by destruct (negb (key_eqb q key)).
Qed.

(** ** Credits *)
Definition history_ok (l : list (Z * Z * Z)) : Prop := (length l <= MAX_EPOCH_CREDITS_HISTORY)%nat.

(** The history has at most one entry per epoch and is never longer than its limit; the
    credits are those before, plus the ones earned. *)
Lemma increment_credits_spec self e n :
  history_ok (epoch_credits self) ->
  history_ok (epoch_credits (VoteState.increment_credits self e n)) /\
  VoteState.credits (VoteState.increment_credits self e n) = wrapping_add (VoteState.credits self) n /\
  exists p, list.last (epoch_credits (VoteState.increment_credits self e n))
            = Some (e, wrapping_add (VoteState.credits self) n, p).
Proof.
  intros Hlen. unfold VoteState.increment_credits, VoteState.credits, history_ok, MAX_EPOCH_CREDITS_HISTORY in *.
  set (history := match list.last (epoch_credits self) with None => _ | Some _ => _ end).
  assert ((length history <= 64)%nat /\ exists p,
    list.last history = Some (e, match list.last (epoch_credits self) with Some (_, c, _) => c | None => 0 end, p))
    as (Hl & p & Hlast).
  { subst history. destruct (list.last (epoch_credits self)) as [[[e0 c] p]|] eqn:E; [|split; [cbn; lia|by exists 0]].
    destruct (Z.eqb_spec e e0) as [->|Hne]; cbn [negb]; [rewrite E; by eauto|].
    apply last_Some in E as [l El]. rewrite El in *. rewrite length_app in Hlen. cbn in Hlen.
    rewrite removelast_last. set (h := if negb (c =? p) then _ else _).
    assert ((length h <= 65)%nat /\ exists l' q, h = l' ++ [(e, c, q)]) as (Hh & l' & q & Eh).
    { subst h. destruct (negb (c =? p)); rewrite ?length_app; cbn; (split; [lia|eauto]). }
    clearbody h. subst h. rewrite length_app in Hh. cbn [length] in Hh.
    destruct (Nat.ltb_spec 64 (length (l' ++ [(e, c, q)]))) as [Hlong|Hshort].
    - destruct l' as [|x l']; [cbn in Hlong; lia|]. cbn [app tl length] in *.
      rewrite length_app, last_snoc. cbn [length]. split; [lia|by eauto].
    - rewrite last_snoc. split; [lia|by eauto]. }
  cbn. rewrite Hlast. rewrite last_snoc. split_and!; [|done|by eauto].
  rewrite length_app. apply last_Some in Hlast as [l El]. rewrite El in *. rewrite removelast_last, length_app in *. done.
Qed.

(** A vote on a slot earns one credit when it roots a slot, and none otherwise. *)
Lemma next_vote_credits self s e :
  history_ok (epoch_credits self) ->
  let self' := VoteState.process_next_vote_slot self s e in
  history_ok (epoch_credits self') /\
  (VoteState.credits self' = VoteState.credits self /\ root_slot self' = root_slot self \/
   VoteState.credits self' = wrapping_add (VoteState.credits self) 1 /\
   exists v, head (votes (VoteState.pop_expired_votes self s)) = Some v /\ root_slot self' = Some (slot v)).
Proof.
  intros Hh self'. subst self'. unfold VoteState.process_next_vote_slot.
  destruct (match VoteState.last_voted_slot self with Some _ => _ | None => _ end); [by auto|].
  destruct (_ =? _)%nat; [|by auto]. destruct (votes (VoteState.pop_expired_votes self s)) as [|v rest] eqn:Ev; [by auto|].
  destruct (increment_credits_spec (set_root_slot (set_votes (VoteState.pop_expired_votes self s) rest) (Some (slot v)))
    e 1 Hh) as (Hh' & Hc & _).
  split; [exact Hh'|]. right. split; [exact Hc|by exists v].
Qed.

(** ** Commission *)

(** The split of a reward by the commission never overflows and never pays more
    than the reward: the two parts are its floors at the commission and at the rest, and
    lose at most one lamport; without a split everything goes to one side. *)
Theorem commission_split_bounds (self : VoteState) (on : Z) (Hon : is_u64 on) :
  let '(voter, staker, was_split) := VoteState.commission_split self on in
  is_u64 voter /\ is_u64 staker /\ on - 1 <= voter + staker <= on /\
  (was_split = false -> voter + staker = on) /\
  (was_split = true ->
     voter = on * u8_val (commission self) / 100 /\
     staker = on * (100 - u8_val (commission self)) / 100 /\ 0 < u8_val (commission self) < 100).
Proof.
  unfold VoteState.commission_split. pose proof (u8_val_range (commission self)) as Hc.
  set (c := u8_val (commission self)) in *. unfold is_u64, U64_MAX in *.
  destruct (Z.eqb_spec (Z.min c 100) 0); [split_and!; lia|].
  destruct (Z.eqb_spec (Z.min c 100) 100); [split_and!; lia|].
  assert (Z.min c 100 = c) as -> by lia.
  assert (0 <= on * c / 100 <= on /\ 0 <= on * (100 - c) / 100 <= on /\
    on - 1 <= on * c / 100 + on * (100 - c) / 100 <= on) as Hdiv.
  { assert (on * c + on * (100 - c) = on * 100) by ring. Z.to_euclidean_division_equations. nia. }
  rewrite !wrap64_small by (unfold is_u64, U64_MAX; lia). split_and!; try lia; done.
Qed.

(** ** Concrete accounts *)
Definition vx_voters : VoteState :=
  VoteState.new (mkVoteInit (pubkey_of_Z 1) (pubkey_of_Z 2) (pubkey_of_Z 3) x0a) (mkClock 4 4).

Lemma new_voter_takes_over_witness :
  exists self', VoteState.set_new_authorized_voter vx_voters (pubkey_of_Z 9) 5 7 (fun _ => Ok tt) = Ok self' /\
    voter_at (authorized_voters self') 6 (pubkey_of_Z 2) /\
    voter_at (authorized_voters self') 8 (pubkey_of_Z 9).
Proof.
  assert (Hmap : forall k, authorized_voters vx_voters !! k = if decide (k = 4) then Some (pubkey_of_Z 2) else None).
  { intros k. change (authorized_voters vx_voters) with ({[4 := pubkey_of_Z 2]} : AuthorizedVoters).
    case_decide as E; [rewrite E; apply lookup_singleton_eq|apply lookup_singleton_ne; congruence]. }
  pose proof (new_voter_takes_over vx_voters (pubkey_of_Z 9) 5 7 (fun _ => Ok tt) ltac:(lia)) as Hspec.
  destruct (VoteState.set_new_authorized_voter _ _ _ _ _) as [self'|e|] eqn:E; [|vm_compute in E; discriminate E..].
  destruct Hspec as [_ [_ Hbefore Hafter]].
  - intros k. rewrite Hmap. case_decide; [lia|]. intros [x Hx]. discriminate Hx.
  - intros p Hp. discriminate Hp.
  - exists self'. split; [reflexivity|]. split.
    + apply Hbefore; [lia|]. exists 4. split; [lia|]. split; [apply Hmap|].
      intros k' Hk'. rewrite Hmap. by case_decide; [lia|].
    + apply Hafter; [lia| |reflexivity]. intros k Hk. rewrite Hmap. case_decide; [lia|reflexivity].
Defined.

Lemma commission_split_bounds_witness :
  is_u64 1005 /\ VoteState.commission_split vx_voters 1005 = (100, 904, true) /\ 1005 - 1 <= 100 + 904 <= 1005.
Proof.
  assert (is_u64 1005) as Hon by (unfold is_u64, U64_MAX; lia).
  split; [exact Hon|]. split; [vm_compute; reflexivity|].
  exact (proj1 (proj2 (proj2 (commission_split_bounds vx_voters 1005 Hon)))).
Defined.
