(* ===== verification/VoteProgram.v ===== *)
(** * The vote program

    [programs/vote/src/vote_instruction.rs] (instructions and their builders),
    [vote_state/mod.rs] (the operations on a vote account) and [vote_processor.rs], over
    the context of a transaction.  The [bincode] encodings of the state and of the
    instructions are parameters; metrics and traces are dropped. *)

From Stdlib Require Import Strings.Byte.
From S2P Require Import Prelude Sdk Rent Program SystemInstruction Transaction Nonce SystemProgram Message VoteState.

(** ** Instructions *)
Record VoteAuthorizeWithSeedArgs : Type := mkAuthorizeWithSeed {
  ws_authorization_type : VoteAuthorize;
  ws_current_authority_derived_key_owner : Pubkey;
  ws_current_authority_derived_key_seed : list byte;
  ws_new_authority : Pubkey
}.

Record VoteAuthorizeCheckedWithSeedArgs : Type := mkAuthorizeCheckedWithSeed {
  cs_authorization_type : VoteAuthorize;
  cs_current_authority_derived_key_owner : Pubkey;
  cs_current_authority_derived_key_seed : list byte
}.

Inductive VoteInstruction : Type :=
| InitializeAccount (vote_init : VoteInit)
| Authorize (voter_pubkey : Pubkey) (vote_authorize : VoteAuthorize)
| VoteIx (vote : Vote)
| Withdraw (lamports : Z)
| UpdateValidatorIdentity
| UpdateCommission (commission : byte)
| VoteSwitch (vote : Vote) (proof_hash : Hash)
| AuthorizeChecked (vote_authorize : VoteAuthorize)
| UpdateVoteState (vote_state_update : VoteStateUpdate)
| UpdateVoteStateSwitch (vote_state_update : VoteStateUpdate) (proof_hash : Hash)
| AuthorizeWithSeed (args : VoteAuthorizeWithSeedArgs)
| AuthorizeCheckedWithSeed (args : VoteAuthorizeCheckedWithSeedArgs).

Class VoteBincode : Type := {
  bincode_serialize_vote : VoteStateVersions -> list byte;
  bincode_deserialize_vote : list byte -> option VoteStateVersions;
  bincode_serialize_vote_instruction : VoteInstruction -> list byte;
  limited_deserialize_vote : list byte -> option VoteInstruction
}.

(** ** Builders ([vote_instruction.rs]) *)
Section builders.
Context `{VoteBincode} `{SystemBincode}.

(** [Instruction::new_with_bincode(id(), &data, accounts)] *)
Definition vote_ix (data : VoteInstruction) (accounts : list AccountMeta) : Instruction :=
  mkInstruction vote_program_id accounts (bincode_serialize_vote_instruction data).

Definition ix_initialize_account (vote_pubkey : Pubkey) (vote_init : VoteInit) : Instruction :=
  vote_ix (InitializeAccount vote_init)
    [AccountMeta_new vote_pubkey false; AccountMeta_new_readonly rent_sysvar_id false;
     AccountMeta_new_readonly clock_sysvar_id false;
     AccountMeta_new_readonly (init_node_pubkey vote_init) true].

Definition ix_create_account (from_pubkey vote_pubkey : Pubkey) (vote_init : VoteInit) (lamports : Z)
    : list Instruction :=
  [SystemInstruction.create_account from_pubkey vote_pubkey lamports (Z.of_nat VoteState.size_of) vote_program_id;
   ix_initialize_account vote_pubkey vote_init].

Definition ix_create_account_with_seed (from_pubkey vote_pubkey base : Pubkey) (seed : list byte)
    (vote_init : VoteInit) (lamports : Z) : list Instruction :=
  [SystemInstruction.create_account_with_seed from_pubkey vote_pubkey base seed lamports
     (Z.of_nat VoteState.size_of) vote_program_id;
   ix_initialize_account vote_pubkey vote_init].

Definition ix_authorize (vote_pubkey authorized_pubkey new_authorized_pubkey : Pubkey)
    (vote_authorize : VoteAuthorize) : Instruction :=
  vote_ix (Authorize new_authorized_pubkey vote_authorize)
    [AccountMeta_new vote_pubkey false; AccountMeta_new_readonly clock_sysvar_id false;
     AccountMeta_new_readonly authorized_pubkey true].

Definition ix_authorize_checked (vote_pubkey authorized_pubkey new_authorized_pubkey : Pubkey)
    (vote_authorize : VoteAuthorize) : Instruction :=
  vote_ix (AuthorizeChecked vote_authorize)
    [AccountMeta_new vote_pubkey false; AccountMeta_new_readonly clock_sysvar_id false;
     AccountMeta_new_readonly authorized_pubkey true;
     AccountMeta_new_readonly new_authorized_pubkey true].

Definition ix_authorize_with_seed (vote_pubkey current_authority_base_key owner : Pubkey)
    (seed : list byte) (new_authority : Pubkey) (authorization_type : VoteAuthorize) : Instruction :=
  vote_ix (AuthorizeWithSeed (mkAuthorizeWithSeed authorization_type owner seed new_authority))
    [AccountMeta_new vote_pubkey false; AccountMeta_new_readonly clock_sysvar_id false;
     AccountMeta_new_readonly current_authority_base_key true].

Definition ix_authorize_checked_with_seed (vote_pubkey current_authority_base_key owner : Pubkey)
    (seed : list byte) (new_authority : Pubkey) (authorization_type : VoteAuthorize) : Instruction :=
  vote_ix (AuthorizeCheckedWithSeed (mkAuthorizeCheckedWithSeed authorization_type owner seed))
    [AccountMeta_new vote_pubkey false; AccountMeta_new_readonly clock_sysvar_id false;
     AccountMeta_new_readonly current_authority_base_key true;
     AccountMeta_new_readonly new_authority true].

Definition ix_update_validator_identity (vote_pubkey authorized_withdrawer_pubkey node_pubkey : Pubkey)
    : Instruction :=
  vote_ix UpdateValidatorIdentity
    [AccountMeta_new vote_pubkey false; AccountMeta_new_readonly node_pubkey true;
     AccountMeta_new_readonly authorized_withdrawer_pubkey true].

Definition ix_update_commission (vote_pubkey authorized_withdrawer_pubkey : Pubkey) (commission : byte)
    : Instruction :=
  vote_ix (UpdateCommission commission)
    [AccountMeta_new vote_pubkey false; AccountMeta_new_readonly authorized_withdrawer_pubkey true].

Definition vote_metas (vote_pubkey authorized_voter_pubkey : Pubkey) : list AccountMeta :=
  [AccountMeta_new vote_pubkey false; AccountMeta_new_readonly slot_hashes_sysvar_id false;
   AccountMeta_new_readonly clock_sysvar_id false;
   AccountMeta_new_readonly authorized_voter_pubkey true].

Definition ix_vote (vote_pubkey authorized_voter_pubkey : Pubkey) (vote : Vote) : Instruction :=
  vote_ix (VoteIx vote) (vote_metas vote_pubkey authorized_voter_pubkey).

Definition ix_vote_switch (vote_pubkey authorized_voter_pubkey : Pubkey) (vote : Vote)
    (proof_hash : Hash) : Instruction :=
  vote_ix (VoteSwitch vote proof_hash) (vote_metas vote_pubkey authorized_voter_pubkey).

Definition ix_update_vote_state (vote_pubkey authorized_voter_pubkey : Pubkey)
    (vote_state_update : VoteStateUpdate) : Instruction :=
  vote_ix (UpdateVoteState vote_state_update)
    [AccountMeta_new vote_pubkey false; AccountMeta_new_readonly authorized_voter_pubkey true].

Definition ix_update_vote_state_switch (vote_pubkey authorized_voter_pubkey : Pubkey)
    (vote_state_update : VoteStateUpdate) (proof_hash : Hash) : Instruction :=
  vote_ix (UpdateVoteStateSwitch vote_state_update proof_hash)
    [AccountMeta_new vote_pubkey false; AccountMeta_new_readonly authorized_voter_pubkey true].

Definition ix_withdraw (vote_pubkey authorized_withdrawer_pubkey : Pubkey) (lamports : Z)
    (to_pubkey : Pubkey) : Instruction :=
  vote_ix (Withdraw lamports)
    [AccountMeta_new vote_pubkey false; AccountMeta_new to_pubkey false;
     AccountMeta_new_readonly authorized_withdrawer_pubkey true].

End builders.

(** ** What the vote program reads of the [InvokeContext] *)
Record VoteEnv : Type := mkVoteEnv {
  features : VoteFeatures;
  cache_clock : option Clock;
  cache_slot_hashes : option (list (Z * Hash));
  vote_cache_rent : option Rent
}.

(** ** Operations on a vote account ([vote_state/mod.rs]) *)
Section operations.
Context `{VoteBincode}.

Definition get_vote_state (account : BorrowedAccount) : TxM VoteStateVersions :=
  d ← BorrowedAccount.get_data account;
  reads (fun _ => ok_or (bincode_deserialize_vote d) InstructionError.InvalidAccountData).

Definition set_vote_state (account : BorrowedAccount) (state : VoteStateVersions) : TxM unit :=
  a ← BorrowedAccount.cell account;
  let bytes := bincode_serialize_vote state in
  if (length (acc_data a) <? length bytes)%nat then throw InstructionError.AccountDataTooSmall
  else BorrowedAccount.set_cell account (set_acc_data a (write_prefix bytes (acc_data a))).

Definition verify_authorized_signer (authorized : Pubkey) (signers : gset Pubkey)
    : result InstructionError unit :=
  ensure (bool_decide (authorized ∈ signers)) InstructionError.MissingRequiredSignature.

Definition authorize (vote_account : BorrowedAccount) (authorized : Pubkey)
    (vote_authorize : VoteAuthorize) (signers : gset Pubkey) (clock : Clock)
    (feature_set : VoteFeatures) : TxM unit :=
  versions ← get_vote_state vote_account;
  let vote_state := VoteStateVersions.convert_to_current versions in
  vote_state ← reads (fun _ =>
    match vote_authorize with
    | Voter =>
        let authorized_withdrawer_signer :=
          vote_withdraw_authority_may_change_authorized_voter feature_set
          && is_ok (verify_authorized_signer (authorized_withdrawer vote_state) signers) in
        VoteState.set_new_authorized_voter vote_state authorized (epoch clock)
          (wrapping_add (leader_schedule_epoch clock) 1)
          (fun epoch_authorized_voter =>
             if authorized_withdrawer_signer then Ok tt
             else verify_authorized_signer epoch_authorized_voter signers)
    | Withdrawer =>
        verify_authorized_signer (authorized_withdrawer vote_state) signers;;
        Ok (set_authorized_withdrawer vote_state authorized)
    end);
  set_vote_state vote_account (VoteStateVersions.new_current vote_state).

Definition update_validator_identity (vote_account : BorrowedAccount) (node_pubkey : Pubkey)
    (signers : gset Pubkey) : TxM unit :=
  versions ← get_vote_state vote_account;
  let vote_state := VoteStateVersions.convert_to_current versions in
  reads (fun _ => verify_authorized_signer (authorized_withdrawer vote_state) signers);;
  reads (fun _ => verify_authorized_signer node_pubkey signers);;
  set_vote_state vote_account (VoteStateVersions.new_current (set_node_pubkey vote_state node_pubkey)).

Definition update_commission (vote_account : BorrowedAccount) (commission : byte)
    (signers : gset Pubkey) : TxM unit :=
  versions ← get_vote_state vote_account;
  let vote_state := VoteStateVersions.convert_to_current versions in
  reads (fun _ => verify_authorized_signer (authorized_withdrawer vote_state) signers);;
  set_vote_state vote_account (VoteStateVersions.new_current (set_commission vote_state commission)).

(** The close of an account is refused while it has credits of the last two epochs. *)
Definition reject_active_vote_account_close (clock : option Clock) (vote_state : VoteState) : bool :=
  match clock, list.last (epoch_credits vote_state) with
  | Some clock, Some (last_epoch_with_credits, _, _) =>
      Z.max 0 (epoch clock - last_epoch_with_credits) <? 2
  | _, _ => false
  end.

Definition withdraw (ic : InstructionContext) (vote_account_index : nat) (lamports : Z)
    (to_account_index : nat) (signers : gset Pubkey) (rent_sysvar : option Rent)
    (clock : option Clock) : TxM unit :=
  vote_account ← reads (try_borrow_instruction_account ic vote_account_index);
  versions ← get_vote_state vote_account;
  let vote_state := VoteStateVersions.convert_to_current versions in
  reads (fun _ => verify_authorized_signer (authorized_withdrawer vote_state) signers);;
  balance ← BorrowedAccount.get_lamports vote_account;
  remaining_balance ← reads (fun _ => ok_or (checked_sub balance lamports) InstructionError.InsufficientFunds);
  (if remaining_balance =? 0 then
     if reject_active_vote_account_close clock vote_state
     then throw (vote_error ActiveVoteAccountClose)
     else set_vote_state vote_account (VoteStateVersions.new_current VoteState.default)
   else
     match rent_sysvar with
     | Some rent_sysvar =>
         d ← BorrowedAccount.get_data vote_account;
         guard (negb (remaining_balance <? minimum_balance rent_sysvar (Z.of_nat (length d))))
           InstructionError.InsufficientFunds
     | None => mret tt
     end);;
  BorrowedAccount.checked_sub_lamports vote_account lamports;;
  to_account ← reads (try_borrow_instruction_account ic to_account_index);
  BorrowedAccount.checked_add_lamports to_account lamports.

Definition initialize_account (vote_account : BorrowedAccount) (vote_init : VoteInit)
    (signers : gset Pubkey) (clock : Clock) : TxM unit :=
  d ← BorrowedAccount.get_data vote_account;
  guard (length d =? VoteState.size_of)%nat InstructionError.InvalidAccountData;;
  versioned ← get_vote_state vote_account;
  guard (VoteStateVersions.is_uninitialized versioned) InstructionError.AccountAlreadyInitialized;;
  reads (fun _ => verify_authorized_signer (init_node_pubkey vote_init) signers);;
  set_vote_state vote_account (VoteStateVersions.new_current (VoteState.new vote_init clock)).

Definition verify_and_get_vote_state (vote_account : BorrowedAccount) (clock : Clock)
    (signers : gset Pubkey) : TxM VoteState :=
  versioned ← get_vote_state vote_account;
  guard (negb (VoteStateVersions.is_uninitialized versioned)) InstructionError.UninitializedAccount;;
  let vote_state := VoteStateVersions.convert_to_current versioned in
  '(authorized_voter, vote_state) ← reads (fun _ =>
    VoteState.get_and_update_authorized_voter vote_state (epoch clock));
  reads (fun _ => verify_authorized_signer authorized_voter signers);;
  mret vote_state.

(** [vote.slots.iter().max()] *)
Definition max_slot (l : list Z) : option Z :=
  foldr (fun s acc => Some (match acc with Some m => Z.max s m | None => s end)) None l.

Definition process_vote (vote_account : BorrowedAccount) (slot_hashes : list (Z * Hash))
    (clock : Clock) (vote : Vote) (signers : gset Pubkey) (feature_set : VoteFeatures) : TxM unit :=
  vote_state ← verify_and_get_vote_state vote_account clock signers;
  vote_state ← reads (fun _ => map_err vote_error
    (VoteState.process_vote vote_state vote slot_hashes (epoch clock) (Some feature_set)));
  vote_state ← reads (fun _ => map_err vote_error
    match vote_timestamp vote with
    | Some timestamp =>
        slot ← ok_or (max_slot (slots vote)) EmptySlots;
        VoteState.process_timestamp vote_state slot timestamp
    | None => Ok vote_state
    end);
  set_vote_state vote_account (VoteStateVersions.new_current vote_state).

Definition process_vote_state_update (vote_account : BorrowedAccount)
    (slot_hashes : list (Z * Hash)) (clock : Clock) (vote_state_update : VoteStateUpdate)
    (signers : gset Pubkey) (feature_set : VoteFeatures) : TxM unit :=
  vote_state ← verify_and_get_vote_state vote_account clock signers;
  vote_state_update ← reads (fun _ => map_err vote_error
    (VoteState.check_update_vote_state_slots_are_valid vote_state vote_state_update slot_hashes));
  vote_state ← reads (fun _ => map_err vote_error
    (VoteState.process_new_vote_state vote_state (lockouts vote_state_update) (root vote_state_update)
       (update_timestamp vote_state_update) (epoch clock) (Some feature_set)));
  set_vote_state vote_account (VoteStateVersions.new_current vote_state).

End operations.

(** ** The processor ([vote_processor.rs]) *)
Section processor.
Context `{VoteBincode} `{Crypto}.
Variable env : VoteEnv.

Definition get_clock : TxM Clock :=
  reads (fun _ => ok_or (cache_clock env) InstructionError.UnsupportedSysvar).
Definition get_slot_hashes : TxM (list (Z * Hash)) :=
  reads (fun _ => ok_or (cache_slot_hashes env) InstructionError.UnsupportedSysvar).
Definition get_vote_rent : TxM Rent :=
  reads (fun _ => ok_or (vote_cache_rent env) InstructionError.UnsupportedSysvar).

(** [get_sysvar_with_account_check] *)
Definition checked_clock (ic : InstructionContext) (i : nat) : TxM Clock :=
  check_sysvar_account clock_sysvar_id ic i;; get_clock.
Definition checked_slot_hashes (ic : InstructionContext) (i : nat) : TxM (list (Z * Hash)) :=
  check_sysvar_account slot_hashes_sysvar_id ic i;; get_slot_hashes.
Definition checked_rent (ic : InstructionContext) (i : nat) : TxM Rent :=
  check_sysvar_account rent_sysvar_id ic i;; get_vote_rent.

Definition process_authorize_with_seed_instruction (ic : InstructionContext)
    (vote_account : BorrowedAccount) (new_authority : Pubkey) (authorization_type : VoteAuthorize)
    (current_authority_derived_key_owner : Pubkey) (current_authority_derived_key_seed : list byte)
    : TxM unit :=
  guard (vote_authorize_with_seed (features env)) InstructionError.InvalidInstructionData;;
  clock ← checked_clock ic 1;
  signed ← reads (fun _ => is_instruction_account_signer ic 2);
  expected_authority_keys ←
    if signed : bool then
      base_pubkey ← key_of_instruction_account ic 2;
      k ← reads (fun _ => map_err instruction_error_of_pubkey_error
            (create_with_seed base_pubkey current_authority_derived_key_seed
               current_authority_derived_key_owner));
      mret ({[k]} : gset Pubkey)
    else mret ∅;
  authorize vote_account new_authority authorization_type expected_authority_keys clock (features env).

Definition process_vote_instruction (ic : InstructionContext) (me : BorrowedAccount)
    (signers : gset Pubkey) (instruction : VoteInstruction) : TxM unit :=
  let need n := reads (fun _ => check_number_of_instruction_accounts ic n) in
  match instruction with
  | InitializeAccount vote_init =>
      rent ← checked_rent ic 1;
      l ← BorrowedAccount.get_lamports me;
      d ← BorrowedAccount.get_data me;
      guard (is_exempt rent l (Z.of_nat (length d))) InstructionError.InsufficientFunds;;
      clock ← checked_clock ic 2;
      initialize_account me vote_init signers clock
  | Authorize voter_pubkey vote_authorize =>
      clock ← checked_clock ic 1;
      authorize me voter_pubkey vote_authorize signers clock (features env)
  | AuthorizeWithSeed args =>
      need 3%nat;;
      process_authorize_with_seed_instruction ic me (ws_new_authority args)
        (ws_authorization_type args) (ws_current_authority_derived_key_owner args)
        (ws_current_authority_derived_key_seed args)
  | AuthorizeCheckedWithSeed args =>
      need 4%nat;;
      new_authority ← key_of_instruction_account ic 3;
      signed ← reads (fun _ => is_instruction_account_signer ic 3);
      guard signed InstructionError.MissingRequiredSignature;;
      process_authorize_with_seed_instruction ic me new_authority (cs_authorization_type args)
        (cs_current_authority_derived_key_owner args) (cs_current_authority_derived_key_seed args)
  | UpdateValidatorIdentity =>
      need 2%nat;;
      node_pubkey ← key_of_instruction_account ic 1;
      update_validator_identity me node_pubkey signers
  | UpdateCommission commission => update_commission me commission signers
  | VoteIx vote | VoteSwitch vote _ =>
      slot_hashes ← checked_slot_hashes ic 1;
      clock ← checked_clock ic 2;
      process_vote me slot_hashes clock vote signers (features env)
  | UpdateVoteState vote_state_update | UpdateVoteStateSwitch vote_state_update _ =>
      if allow_votes_to_directly_update_vote_state (features env) then
        slot_hashes ← get_slot_hashes;
        clock ← get_clock;
        process_vote_state_update me slot_hashes clock vote_state_update signers (features env)
      else throw InstructionError.InvalidInstructionData
  | Withdraw lamports =>
      need 2%nat;;
      rent_sysvar ←
        if reject_non_rent_exempt_vote_withdraws (features env)
        then r ← get_vote_rent; mret (Some r) else mret None;
      clock_if_feature_active ←
        if reject_vote_account_close_unless_zero_credit_epoch (features env)
        then c ← get_clock; mret (Some c) else mret None;
      withdraw ic 0 lamports 1 signers rent_sysvar clock_if_feature_active
  | AuthorizeChecked vote_authorize =>
      if vote_stake_checked_instructions (features env) then
        need 4%nat;;
        voter_pubkey ← key_of_instruction_account ic 3;
        signed ← reads (fun _ => is_instruction_account_signer ic 3);
        guard signed InstructionError.MissingRequiredSignature;;
        clock ← checked_clock ic 1;
        authorize me voter_pubkey vote_authorize signers clock (features env)
      else throw InstructionError.InvalidInstructionData
  end.

Definition process_instruction : TxM unit :=
  ic ← reads get_current_instruction_context;
  me ← reads (try_borrow_instruction_account ic 0);
  o ← BorrowedAccount.get_owner me;
  guard (key_eqb o vote_program_id) InstructionError.InvalidAccountOwner;;
  signers ← reads (get_signers ic);
  instruction ← reads (fun _ => ok_or (limited_deserialize_vote (instruction_data ic))
                                 InstructionError.InvalidInstructionData);
  process_vote_instruction ic me signers instruction.

End processor.

(** ** Accounts of genesis tooling *)
Definition vote_account_with_authorized `{VoteBincode} (node_pubkey authorized_voter authorized_withdrawer : Pubkey)
    (commission : byte) (lamports : Z) : result VoteError Account :=
  let bytes := bincode_serialize_vote (VoteStateVersions.new_current
    (VoteState.new (mkVoteInit node_pubkey authorized_voter authorized_withdrawer commission)
       (mkClock 0 0))) in
  assert_ (length bytes <=? VoteState.size_of)%nat;;
  Ok (mkAccount lamports (write_prefix bytes (replicate VoteState.size_of x00)) vote_program_id false 0).

Definition vote_account_of `{VoteBincode} (vote_pubkey node_pubkey : Pubkey) (commission : byte) (lamports : Z)
    : result VoteError Account :=
  vote_account_with_authorized node_pubkey vote_pubkey vote_pubkey commission lamports.
