(* ===== verification/VoteSafety.v ===== *)
(** * What the vote program may do to an account

    A step relation on vote states says which changes the holder of which authority may
    make.  The processor refines it: a successful instruction is one step of the vote
    account, or a withdrawal its withdrawer signed, and changes no other account.  With
    the rule of [VoteTower] this gives the rule of the tower for accounts. *)

From Stdlib Require Import Strings.Byte.
From S2P Require Import Prelude Sdk Rent Program SystemInstruction Fixtures Transaction Nonce SystemProgram SystemSafety Message VoteState VoteTower VoteRules VoteAuthority VoteProgram.

(** ** The steps *)

(** The parts of the state that votes do not touch. *)
Definition same_authority (s s' : VoteState) : Prop :=
  node_pubkey s' = node_pubkey s /\ authorized_withdrawer s' = authorized_withdrawer s /\
  commission s' = commission s /\ authorized_voters s' = authorized_voters s /\
  prior_voters s' = prior_voters s.

(** The clock of the bank: the leader schedule is known at least for the current epoch. *)
Definition clock_ok (clock : Clock) : Prop :=
  epoch clock <= leader_schedule_epoch clock /\ is_u64 (leader_schedule_epoch clock + 1).

Section steps.
Context `{Crypto}.
Variables (features : VoteFeatures) (clock : option Clock) (signers : gset Pubkey).

(** The voter of the current epoch. *)
Definition current_voter (s : VoteState) (p : Pubkey) : Prop :=
  exists c, clock = Some c /\ voter_at (authorized_voters s) (epoch c) p.

Inductive vote_step (s : VoteState) : VoteState -> Prop :=
| step_voter c key p s' :
    clock = Some c -> current_voter s p ->
    signs signers p \/
    vote_withdraw_authority_may_change_authorized_voter features = true /\
      signs signers (authorized_withdrawer s) ->
    handed_over (epoch c) (leader_schedule_epoch c + 1) key s s' -> vote_step s s'
| step_withdrawer key :
    signs signers (authorized_withdrawer s) -> vote_step s (set_authorized_withdrawer s key)
| step_identity key :
    authorized_withdrawer s ∈ signers -> key ∈ signers -> vote_step s (set_node_pubkey s key)
| step_commission c :
    authorized_withdrawer s ∈ signers -> vote_step s (set_commission s c)
| step_vote c p m s' :
    clock = Some c -> current_voter s p -> p ∈ signers ->
    refreshed (authorized_voters s) (epoch c) p m ->
    rtc voted (set_authorized_voters s m) s' -> same_authority (set_authorized_voters s m) s' ->
    vote_step s s'.

(** No step breaks the rule of the tower. *)
Lemma step_extends s s' : state_wf s -> vote_step s s' -> extends s s'.
Proof.
  intros Hwf [c key p s1 _ _ _ Hover|key _|key _ _|c _|c p m s1 _ _ _ _ Hv _]; try by apply extends_same.
  - destruct (ho_rest _ _ _ _ _ Hover) as (_ & _ & _ & Hvotes & Hroot & _). by apply extends_same.
  - assert (extends s (set_authorized_voters s m)) as H0 by (by apply extends_same).
    eapply extends_trans; [exact H0|]. apply voted_rtc_extends; [apply H0|done].
Qed.

End steps.

(** ** Votes do not touch the authorities *)
Lemma same_authority_refl s : same_authority s s.
Proof. done. Qed.
Lemma same_authority_trans s1 s2 s3 : same_authority s1 s2 -> same_authority s2 s3 -> same_authority s1 s3.
Proof. intros (?&?&?&?&?) (?&?&?&?&?). split_and!; congruence. Qed.

Lemma process_next_vote_slot_keeps self s e : same_authority self (VoteState.process_next_vote_slot self s e).
Proof.
  unfold VoteState.process_next_vote_slot. destruct (match _ with Some _ => _ | None => _ end); [done|].
  destruct (_ =? _)%nat; [|done]. by destruct (votes _).
Qed.

Lemma voted_keeps self self' : voted self self' -> same_authority self self'.
Proof.
  intros [vote H e f ? _ Hp|u u' H e f ? _ _ _ Hp|s t ? Hp].
  - unfold VoteState.process_vote in Hp. apply result_bind_ok in Hp as ([] & _ & Hp).
    apply result_bind_ok in Hp as ([] & _ & Hp). apply result_bind_ok in Hp as ([] & _ & [= <-]).
    generalize self at 1 2. set (l := match f with Some _ => _ | None => _ end). intros s0.
    clear. revert s0. induction l as [|x l IH]; intros s0; [done|]. cbn.
    eapply same_authority_trans; [|apply IH]. apply process_next_vote_slot_keeps.
  - unfold VoteState.process_new_vote_state in Hp. repeat (apply result_bind_ok in Hp as ([] & _ & Hp)).
    destruct (VoteState.skip_rooted _ _ _). apply result_bind_ok in Hp as ([] & _ & Hp).
    apply result_bind_ok in Hp as (s1 & Hs1 & [= <-]).
    assert (same_authority self (if negb (bool_decide (root_slot self = root u')) then
      if match f with Some f => vote_state_update_credit_per_dequeue f | None => false end
      then VoteState.increment_credits self e z else VoteState.increment_credits self e 1 else self)) as H0
      by (destruct (negb _); [by destruct (match f with Some _ => _ | None => _ end)|done]).
    eapply same_authority_trans; [exact H0|]. destruct (update_timestamp u'); [|by injection Hs1 as <-].
    apply result_bind_ok in Hs1 as (x & _ & Hs1). by apply result_bind_ok in Hs1 as ([] & _ & [= <-]).
  - by apply result_bind_ok in Hp as ([] & _ & [= <-]).
Qed.

Lemma voted_rtc_keeps self self' : rtc voted self self' -> same_authority self self'.
Proof. induction 1; [done|]. eapply same_authority_trans; eauto using voted_keeps. Qed.

(** ** The handlers *)
Section handlers.
Context `{VoteBincode} `{Crypto}.

Lemma get_vote_state_ok b tc ver tc' :
  get_vote_state b tc = Ok (ver, tc') ->
  tc' = tc /\ exists a, accounts tc !! ba_index_in_transaction b = Some a /\
    bincode_deserialize_vote (acc_data a) = Some ver.
Proof. unfold get_vote_state. intros Hs. inv_tx. eauto. Qed.

(** The account of index [i] is overwritten with the state [s]. *)
Definition stored (i : nat) (s : VoteState) (tc tc' : TransactionContext) : Prop :=
  exists a, accounts tc !! i = Some a /\
    let bytes := bincode_serialize_vote (VoteStateVersions.new_current s) in
    (length bytes <= length (acc_data a))%nat /\
    writes tc (<[i := set_acc_data a (write_prefix bytes (acc_data a))]> (accounts tc)) tc'.

Lemma set_vote_state_ok b s tc u tc' :
  set_vote_state b (VoteStateVersions.new_current s) tc = Ok (u, tc') ->
  stored (ba_index_in_transaction b) s tc tc'.
Proof.
  unfold set_vote_state. intros Hs. inv_tx. destruct (Nat.ltb_spec (length (acc_data x))
    (length (bincode_serialize_vote (VoteStateVersions.new_current s)))); [done|].
  exists x. split; [done|]. split; [done|]. by eapply set_cell_ok.
Qed.

Lemma verify_signer_ok k (signers : gset Pubkey) u : verify_authorized_signer k signers = Ok u -> k ∈ signers.
Proof. unfold verify_authorized_signer. intros Hk%ensure_ok. by apply bool_decide_eq_true in Hk. Qed.

(** The state an account holds, as the current version. *)
Definition holds (tc : TransactionContext) (i : nat) (s : VoteState) : Prop :=
  exists a ver, accounts tc !! i = Some a /\ bincode_deserialize_vote (acc_data a) = Some ver /\
    VoteStateVersions.convert_to_current ver = s.

(** One step of the state of the account [i], stored. *)
Definition steps_to (features : VoteFeatures) (clock : option Clock) (signers : gset Pubkey) (i : nat)
    (tc tc' : TransactionContext) : Prop :=
  exists s s', holds tc i s /\ vote_step features clock signers s s' /\ stored i s' tc tc'.

Lemma authorize_ok b key kind keys clock f signers tc u tc' :
  clock_ok clock -> (forall k, k ∈ keys -> signs signers k) ->
  authorize b key kind keys clock f tc = Ok (u, tc') ->
  steps_to f (Some clock) signers (ba_index_in_transaction b) tc tc'.
Proof.
  intros [Hle Hclock] Hkeys Ha. unfold authorize in Ha. inv_tx.
  match goal with Hg : get_vote_state _ _ = _ |- _ => apply get_vote_state_ok in Hg as (-> & a & Hacc & Hd) end.
  apply set_vote_state_ok in Ha. eexists _, _. split; [by exists a, x|]. split; [|exact Ha].
  destruct kind.
  - assert (wrapping_add (leader_schedule_epoch clock) 1 = leader_schedule_epoch clock + 1) as E
      by (by apply wrap64_small). rewrite E in *.
    match goal with Hs : VoteState.set_new_authorized_voter _ _ _ _ _ = _ |- _ =>
      apply set_new_voter_ok in Hs as ((p & Hp & Hv) & Hover); [|lia] end.
    apply (step_voter _ _ _ _ clock key p); [done|by exists clock| |exact Hover].
    destruct (_ && is_ok _) eqn:Ew; [|left; by eapply Hkeys, verify_signer_ok]. right.
    apply andb_true_iff in Ew as [-> Ew]. split; [done|]. apply Hkeys.
    destruct (verify_authorized_signer _ keys) eqn:Es; [|done..]. by eapply verify_signer_ok.
  - match goal with Hs : mbind _ _ = Ok _ |- _ => apply result_bind_ok in Hs as ([] & Hs & [= <-]) end.
    apply step_withdrawer. by eapply Hkeys, verify_signer_ok.
Qed.

Lemma update_validator_identity_ok b key signers f clock tc u tc' :
  update_validator_identity b key signers tc = Ok (u, tc') ->
  steps_to f clock signers (ba_index_in_transaction b) tc tc'.
Proof.
  intros Ha. unfold update_validator_identity in Ha. inv_tx.
  match goal with Hg : get_vote_state _ _ = _ |- _ => apply get_vote_state_ok in Hg as (-> & a & Hacc & Hd) end.
  apply set_vote_state_ok in Ha. eexists _, _. split; [by exists a, x|]. split; [|exact Ha].
  apply step_identity; by eapply verify_signer_ok.
Qed.

Lemma update_commission_ok b c signers f clock tc u tc' :
  update_commission b c signers tc = Ok (u, tc') ->
  steps_to f clock signers (ba_index_in_transaction b) tc tc'.
Proof.
  intros Ha. unfold update_commission in Ha. inv_tx.
  match goal with Hg : get_vote_state _ _ = _ |- _ => apply get_vote_state_ok in Hg as (-> & a & Hacc & Hd) end.
  apply set_vote_state_ok in Ha. eexists _, _. split; [by exists a, x|]. split; [|exact Ha].
  apply step_commission; by eapply verify_signer_ok.
Qed.

Lemma verify_and_get_ok b clock signers tc s tc' :
  verify_and_get_vote_state b clock signers tc = Ok (s, tc') ->
  tc' = tc /\ exists s0 p m, holds tc (ba_index_in_transaction b) s0 /\
    voter_at (authorized_voters s0) (epoch clock) p /\ p ∈ signers /\
    refreshed (authorized_voters s0) (epoch clock) p m /\ s = set_authorized_voters s0 m.
Proof.
  unfold verify_and_get_vote_state. intros Hv. inv_tx.
  match goal with Hg : get_vote_state _ _ = _ |- _ => apply get_vote_state_ok in Hg as (-> & a & Hacc & Hd) end.
  match goal with x : _ * _ |- _ => destruct x as [p s1] end. inv_tx. split; [done|].
  set (s0 := VoteStateVersions.convert_to_current x) in *.
  destruct (get_and_update_spec s0 (epoch clock)) as [Hsome Hnone].
  destruct (AuthorizedVoters.get_authorized_voter (authorized_voters s0) (epoch clock)) as [q|] eqn:Hq.
  - apply get_authorized_voter_spec in Hq. destruct (Hsome q Hq) as (m & E & Href).
    match goal with Hg : _ = Ok (p, s1) |- _ => rewrite E in Hg; injection Hg as <- <- end.
    exists s0, q, m. split_and!; [by exists a, x|done|by eapply verify_signer_ok|done..].
  - assert (forall q, ~ voter_at (authorized_voters s0) (epoch clock) q) as Hno
      by (intros q Hv%get_authorized_voter_spec; congruence).
    by match goal with Hg : _ = Ok (p, s1) |- _ => rewrite (Hnone Hno) in Hg end.
Qed.

(** Votes of the current voter are one step. *)
Lemma votes_step b clock signers f tc s s' tc1 u tc' :
  verify_and_get_vote_state b clock signers tc = Ok (s, tc1) -> rtc voted s s' ->
  set_vote_state b (VoteStateVersions.new_current s') tc1 = Ok (u, tc') ->
  steps_to f (Some clock) signers (ba_index_in_transaction b) tc tc'.
Proof.
  intros (-> & s0 & p & m & Hh & Hp & Hs & Href & ->)%verify_and_get_ok Hv Hst%set_vote_state_ok.
  exists s0, s'. split; [done|]. split; [|done].
  apply (step_vote _ _ _ _ clock p m); eauto using voted_rtc_keeps. by exists clock.
Qed.

Lemma process_vote_ok b hashes clock vote signers f tc u tc' :
  hashes_ok hashes -> process_vote b hashes clock vote signers f tc = Ok (u, tc') ->
  steps_to f (Some clock) signers (ba_index_in_transaction b) tc tc'.
Proof.
  intros Hok Hp. unfold process_vote in Hp. inv_tx. eapply votes_step; [eassumption| |exact Hp].
  repeat match goal with Hm : map_err _ _ = Ok _ |- _ => apply map_err_ok in Hm end.
  eapply rtc_l; [by eapply voted_slots|]. destruct (vote_timestamp vote); [|by simplify_eq].
  match goal with Hm : mbind _ _ = Ok _ |- _ => apply result_bind_ok in Hm as (sl & _ & Hm) end.
  apply rtc_once. by eapply voted_timestamp.
Qed.

Lemma process_vote_state_update_ok b hashes clock vsu signers f tc u tc' :
  hashes_ok hashes -> Forall (fun l => 0 <= confirmation_count l) (lockouts vsu) ->
  process_vote_state_update b hashes clock vsu signers f tc = Ok (u, tc') ->
  steps_to f (Some clock) signers (ba_index_in_transaction b) tc tc'.
Proof.
  intros Hok Hcounts Hp. unfold process_vote_state_update in Hp. inv_tx. eapply votes_step; [eassumption| |exact Hp].
  repeat match goal with Hm : map_err _ _ = Ok _ |- _ => apply map_err_ok in Hm end.
  apply rtc_once. by eapply voted_tower.
Qed.

End handlers.

(** ** The effect of an instruction *)
Section effect.
Context `{VoteBincode} `{Crypto}.
Variables (env : VoteEnv) (signers : gset Pubkey).

(** A withdrawal may leave [remaining] lamports: all are taken only from an account without
    credits of the last two epochs, which is reset, and else the rest is rent exempt. *)
Definition may_leave (i : nat) (s : VoteState) (remaining : Z) (tc tc1 : TransactionContext) : Prop :=
  (remaining = 0 /\ stored i VoteState.default tc tc1 /\
   (reject_vote_account_close_unless_zero_credit_epoch (features env) = true ->
    exists c, cache_clock env = Some c /\
      forall e x y, list.last (epoch_credits s) = Some (e, x, y) -> e + 2 <= epoch c)) \/
  (remaining <> 0 /\ tc1 = tc /\
   (reject_non_rent_exempt_vote_withdraws (features env) = true ->
    exists r a, vote_cache_rent env = Some r /\ accounts tc !! i = Some a /\
      minimum_balance r (Z.of_nat (length (acc_data a))) <= remaining)).

Inductive effect (ic : InstructionContext) (i : nat) (tc tc' : TransactionContext) : Prop :=
| effect_step :
    steps_to (features env) (cache_clock env) signers i tc tc' -> effect ic i tc tc'
| effect_initialize a ver vote_init c r :
    accounts tc !! i = Some a -> length (acc_data a) = VoteState.size_of ->
    bincode_deserialize_vote (acc_data a) = Some ver -> VoteStateVersions.is_uninitialized ver = true ->
    vote_cache_rent env = Some r -> is_exempt r (acc_lamports a) (Z.of_nat (length (acc_data a))) = true ->
    cache_clock env = Some c -> init_node_pubkey vote_init ∈ signers ->
    stored i (VoteState.new vote_init c) tc tc' -> effect ic i tc tc'
| effect_withdraw s a x tc1 to l' :
    holds tc i s -> authorized_withdrawer s ∈ signers ->
    accounts tc !! i = Some a -> 0 <= x <= acc_lamports a ->
    may_leave i s (acc_lamports a - x) tc tc1 ->
    instruction_accounts ic !! 1%nat = Some to ->
    moves i (index_in_transaction to) x (accounts tc1) l' -> writes tc1 l' tc' -> effect ic i tc tc'.

Lemma stored_writes i s tc tc' :
  stored i s tc tc' -> writes tc (accounts tc') tc' /\
    sum_lamports (accounts tc') = sum_lamports (accounts tc) /\
    forall j, j <> i -> accounts tc' !! j = accounts tc !! j.
Proof.
  intros (a & Ha & _ & Hw). pose proof (writes_accounts _ _ _ Hw) as E. rewrite E. split_and!; [done|..].
  - by eapply sum_lamports_insert_eq.
  - intros j Hj. by rewrite list_lookup_insert_ne.
Qed.

Lemma effect_keeps ic i tc tc' :
  effect ic i tc tc' -> writes tc (accounts tc') tc' /\ sum_lamports (accounts tc') = sum_lamports (accounts tc).
Proof.
  intros [(s & s' & _ & _ & Hst)|a ver v c r _ _ _ _ _ _ _ _ Hst|s a x tc1 to l' _ _ _ _ Hl _ Hm Hw].
  1-2: by destruct (stored_writes _ _ _ _ Hst) as (? & ? & _).
  pose proof (writes_accounts _ _ _ Hw) as E. apply moves_sum in Hm. rewrite E.
  destruct Hl as [(_ & Hst & _)|(_ & -> & _)]; [|done].
  destruct (stored_writes _ _ _ _ Hst) as (Hw1 & Hs & _). split; [by eapply writes_trans|congruence].
Qed.

Lemma checked_clock_ok ic i tc c tc' : checked_clock env ic i tc = Ok (c, tc') -> tc' = tc /\ cache_clock env = Some c.
Proof. unfold checked_clock, get_clock. intros Hc. inv_tx. by apply check_sysvar_account_ok in H1 as ->. Qed.

Lemma initialize_effect b vote_init c tc u tc' ic r a :
  cache_clock env = Some c -> vote_cache_rent env = Some r ->
  accounts tc !! ba_index_in_transaction b = Some a ->
  is_exempt r (acc_lamports a) (Z.of_nat (length (acc_data a))) = true ->
  initialize_account b vote_init signers c tc = Ok (u, tc') ->
  effect ic (ba_index_in_transaction b) tc tc'.
Proof.
  intros Hc Hr Ha He Hi. unfold initialize_account in Hi. inv_tx. simplify_eq.
  match goal with Hg : get_vote_state _ _ = _ |- _ => apply get_vote_state_ok in Hg as (-> & a' & Ha' & Hd) end.
  simplify_eq. apply set_vote_state_ok in Hi. eapply effect_initialize; try eassumption.
  - by apply Nat.eqb_eq.
  - by eapply verify_signer_ok.
Qed.

(** The sysvars a withdrawal is checked with. *)
Definition withdraw_rent : option Rent :=
  if reject_non_rent_exempt_vote_withdraws (features env) then vote_cache_rent env else None.
Definition withdraw_clock : option Clock :=
  if reject_vote_account_close_unless_zero_credit_epoch (features env) then cache_clock env else None.

Lemma rest_ok b s a x tc u tc1 :
  (reject_non_rent_exempt_vote_withdraws (features env) = true -> is_Some (vote_cache_rent env)) ->
  (reject_vote_account_close_unless_zero_credit_epoch (features env) = true -> is_Some (cache_clock env)) ->
  accounts tc !! ba_index_in_transaction b = Some a ->
  (if x =? 0 then
     if reject_active_vote_account_close withdraw_clock s then throw (vote_error ActiveVoteAccountClose)
     else set_vote_state b (VoteStateVersions.new_current VoteState.default)
   else match withdraw_rent with
        | Some rent_sysvar =>
            d ← BorrowedAccount.get_data b;
            guard (negb (x <? minimum_balance rent_sysvar (Z.of_nat (length d)))) InstructionError.InsufficientFunds
        | None => mret tt
        end) tc = Ok (u, tc1) ->
  may_leave (ba_index_in_transaction b) s x tc tc1.
Proof.
  intros Hrent Hclock Ha Hr. unfold withdraw_rent, withdraw_clock in Hr. destruct (Z.eqb_spec x 0) as [->|Hx].
  - left. destruct (reject_active_vote_account_close _ _) eqn:Er; [done|]. split_and!; [done|by apply set_vote_state_ok in Hr|].
    intros Hf. destruct (Hclock Hf) as [c Hc]. exists c. split; [done|]. intros e y z Hl.
    rewrite Hf, Hc in Er. cbn in Er. rewrite Hl in Er. apply Z.ltb_ge in Er. lia.
  - right. split; [done|]. destruct (reject_non_rent_exempt_vote_withdraws _).
    + destruct (Hrent eq_refl) as [r Er]. rewrite Er in *. inv_tx. simplify_eq. split; [done|]. intros _.
      exists r, a. split_and!; [done..|]. by apply Z.ltb_ge, negb_true_iff.
    + inv_tx. done.
Qed.

Lemma withdrawal_ok ic x tc u tc' ia :
  instruction_accounts ic !! 0%nat = Some ia -> 0 <= x ->
  (reject_non_rent_exempt_vote_withdraws (features env) = true -> is_Some (vote_cache_rent env)) ->
  (reject_vote_account_close_unless_zero_credit_epoch (features env) = true -> is_Some (cache_clock env)) ->
  withdraw ic 0 x 1 signers withdraw_rent withdraw_clock tc = Ok (u, tc') ->
  effect ic (index_in_transaction ia) tc tc'.
Proof.
  intros Hia Hx Hrent Hclock Hw. unfold withdraw in Hw. inv_tx.
  match goal with Hb : try_borrow_instruction_account _ 0 _ = Ok _ |- _ =>
    apply borrow_instruction_ok in Hb as (ia' & a & Hia' & Hix & Ha & _) end. simplify_eq. rewrite Hix in *.
  match goal with Hg : get_vote_state _ _ = _ |- _ => apply get_vote_state_ok in Hg as (-> & a' & Ha' & Hd) end.
  rewrite Hix in *. simplify_eq.
  match goal with Hc : checked_sub _ _ = Some _ |- _ => apply checked_sub_some in Hc as [-> Hle] end.
  match goal with Hs : BorrowedAccount.checked_sub_lamports _ _ _ = _,
    Hb : try_borrow_instruction_account _ 1 _ = _ |- _ =>
    destruct (sub_add_moves _ _ _ _ _ _ _ _ _ _ Hs Hb Hw) as (to & l' & Hto & Hm & Hwr) end.
  rewrite Hix in Hm. eapply effect_withdraw; [by eexists _, _|by eapply verify_signer_ok|done|done| |done..].
  rewrite <-Hix in Ha |- *. by eapply rest_ok.
Qed.

(** Deriving a key from a signed base counts as its signature. *)
Lemma authorize_with_seed_ok ic b key kind owner seed tc u tc' :
  (forall c, cache_clock env = Some c -> clock_ok c) -> get_signers ic tc = Ok signers ->
  process_authorize_with_seed_instruction env ic b key kind owner seed tc = Ok (u, tc') ->
  steps_to (features env) (cache_clock env) signers (ba_index_in_transaction b) tc tc'.
Proof.
  intros Hok Hs Ha. unfold process_authorize_with_seed_instruction in Ha. inv_tx.
  match goal with Hc : checked_clock _ _ _ _ = Ok (?c, _) |- _ => apply checked_clock_ok in Hc as [-> Hc]; rewrite Hc end.
  match goal with sg : bool |- _ => destruct sg end; inv_tx.
  - match goal with Hk : key_of_instruction_account _ _ _ = _ |- _ =>
      apply key_of_instruction_account_ok in Hk as (-> & ia & Hia & Hkey) end.
    match goal with Hm : map_err _ _ = Ok _ |- _ => apply map_err_ok in Hm end.
    eapply authorize_ok; [by apply Hok| |exact Ha]. intros k ->%elem_of_singleton. right.
    match goal with Hg : is_instruction_account_signer _ _ = Ok true |- _ =>
      unfold is_instruction_account_signer in Hg; rewrite Hia in Hg; cbn in Hg; injection Hg as Hg;
      destruct (get_signers_ok _ _ _ Hs _ _ Hia Hg) as (k' & Hk' & Hin) end.
    rewrite Hkey in Hk'. injection Hk' as <-. eauto.
  - eapply authorize_ok; [by apply Hok| |exact Ha]. intros k Hk. by apply elem_of_empty in Hk.
Qed.

End effect.

(** ** The processor *)

(** Arguments are in the range of their types. *)
Definition vote_instruction_wf (i : VoteInstruction) : Prop :=
  match i with
  | Withdraw lamports => is_u64 lamports
  | UpdateVoteState u | UpdateVoteStateSwitch u _ => Forall (fun l => 0 <= confirmation_count l) (lockouts u)
  | _ => True
  end.

(** What the processor relies on of [limited_deserialize]. *)
Class VoteBincodeSpec (VB : VoteBincode) : Prop := {
  bincode_vote_range d i : limited_deserialize_vote d = Some i -> vote_instruction_wf i
}.

(** What it relies on of the sysvars of the bank. *)
Record bank_ok (env : VoteEnv) : Prop := {
  bo_clock c : cache_clock env = Some c -> clock_ok c;
  bo_hashes l : cache_slot_hashes env = Some l -> hashes_ok l
}.

Section processor.
Context `{VB : VoteBincode} `{Crypto} {VBS : VoteBincodeSpec VB}.
Variables (env : VoteEnv) (signers : gset Pubkey).
Hypothesis Hbank : bank_ok env.

Ltac sysvars := repeat match goal with
  | Hc : checked_clock _ _ _ _ = Ok (?c, _) |- _ => apply checked_clock_ok in Hc as [-> Hc]
  | Hc : check_sysvar_account _ _ _ _ = Ok _ |- _ => apply check_sysvar_account_ok in Hc as ->
  | Hk : key_of_instruction_account _ _ _ = Ok _ |- _ => apply key_of_instruction_account_ok in Hk as (-> & _)
  end.

Lemma signed_authorize b key kind c tc u tc' :
  cache_clock env = Some c -> authorize b key kind signers c (features env) tc = Ok (u, tc') ->
  steps_to (features env) (cache_clock env) signers (ba_index_in_transaction b) tc tc'.
Proof.
  intros Hc Ha. rewrite Hc. eapply authorize_ok; [by apply (bo_clock _ Hbank)| |exact Ha]. intros k Hk. by left.
Qed.

Lemma vote_effect ic b vote tc u tc' :
  (slot_hashes ← checked_slot_hashes env ic 1; clock ← checked_clock env ic 2;
   process_vote b slot_hashes clock vote signers (features env)) tc = Ok (u, tc') ->
  effect env signers ic (ba_index_in_transaction b) tc tc'.
Proof.
  intros Hp. unfold checked_slot_hashes, get_slot_hashes in Hp. inv_tx. sysvars. apply effect_step.
  match goal with Hc : cache_clock env = Some _ |- _ => rewrite Hc end.
  eapply process_vote_ok; [by eapply (bo_hashes _ Hbank)|exact Hp].
Qed.

Lemma update_effect ic b vsu tc u tc' :
  Forall (fun l => 0 <= confirmation_count l) (lockouts vsu) ->
  (if allow_votes_to_directly_update_vote_state (features env) then
     slot_hashes ← get_slot_hashes env; clock ← get_clock env;
     process_vote_state_update b slot_hashes clock vsu signers (features env)
   else throw InstructionError.InvalidInstructionData) tc = Ok (u, tc') ->
  effect env signers ic (ba_index_in_transaction b) tc tc'.
Proof.
  intros Hwf Hp. destruct (allow_votes_to_directly_update_vote_state _); [|done].
  unfold get_slot_hashes, get_clock in Hp. inv_tx. apply effect_step.
  match goal with Hc : cache_clock env = Some _ |- _ => rewrite Hc end.
  eapply process_vote_state_update_ok; [by eapply (bo_hashes _ Hbank)|exact Hwf|exact Hp].
Qed.

(** The sysvars of a withdrawal are read before it starts. *)
Lemma withdraw_effect ic ia x tc u tc' :
  instruction_accounts ic !! 0%nat = Some ia -> 0 <= x ->
  (rent_sysvar ← if reject_non_rent_exempt_vote_withdraws (features env)
                 then r ← get_vote_rent env; mret (Some r) else mret None;
   clock_if_feature_active ← if reject_vote_account_close_unless_zero_credit_epoch (features env)
                             then c ← get_clock env; mret (Some c) else mret None;
   withdraw ic 0 x 1 signers rent_sysvar clock_if_feature_active) tc = Ok (u, tc') ->
  effect env signers ic (index_in_transaction ia) tc tc'.
Proof.
  intros Hia Hx Hp. unfold get_vote_rent, get_clock in Hp. inv_tx.
  eapply (withdrawal_ok env signers ic x tc); [done..| | |]; unfold withdraw_rent, withdraw_clock;
    destruct (reject_non_rent_exempt_vote_withdraws _), (reject_vote_account_close_unless_zero_credit_epoch _);
    inv_tx; try done; try (by eexists);
    repeat match goal with E : _ env = Some _ |- _ => rewrite E; clear E end; exact Hp.
Qed.

Lemma process_vote_instruction_effect ic b ia i tc u tc' :
  get_signers ic tc = Ok signers -> instruction_accounts ic !! 0%nat = Some ia ->
  ba_index_in_transaction b = index_in_transaction ia -> vote_instruction_wf i ->
  process_vote_instruction env ic b signers i tc = Ok (u, tc') ->
  effect env signers ic (index_in_transaction ia) tc tc'.
Proof.
  intros Hs Hia Hix Hwf Hp. rewrite <-Hix. destruct i; cbn [process_vote_instruction] in Hp.
  - unfold checked_rent, get_vote_rent in Hp. inv_tx. sysvars. simplify_eq. by eapply initialize_effect.
  - inv_tx. sysvars. apply effect_step. by eapply signed_authorize.
  - by eapply vote_effect.
  - apply tx_bind_ok in Hp as ([] & tc1 & Hn & Hp). apply reads_ok in Hn as [_ ->]. rewrite Hix.
    eapply withdraw_effect; [done|apply Hwf|exact Hp].
  - inv_tx. sysvars. apply effect_step. by eapply update_validator_identity_ok.
  - apply effect_step. by eapply update_commission_ok.
  - by eapply vote_effect.
  - destruct (vote_stake_checked_instructions _); [|done]. inv_tx. sysvars.
    apply effect_step. by eapply signed_authorize.
  - by eapply update_effect.
  - by eapply update_effect.
  - inv_tx. apply effect_step. eapply authorize_with_seed_ok; [apply Hbank|done|exact Hp].
  - inv_tx. sysvars. apply effect_step. eapply authorize_with_seed_ok; [apply Hbank|done|exact Hp].
Qed.

End processor.

(** ** The theorems *)
Section claims.
Context `{VB : VoteBincode} `{Crypto} {VBS : VoteBincodeSpec VB}.


(** A change of a vote state by any instruction, in any bank, with any signatures. *)
Definition any_step (s s' : VoteState) : Prop :=
  exists features clock signers, vote_step features clock signers s s'.

(** C23: Whatever sequence of instructions changes a well-formed vote account (votes on
    slots, proposed towers, changes of the voter, the withdrawer, the identity and the
    commission), its tower stays well formed (slots increase, confirmations decrease,
    every vote is within the lockout of the one before), the root and the last vote
    never go back, and every earlier vote is still in the tower with at least its
    confirmations, is at or below the root, or its lockout expired before the last vote.
    *)
Theorem tower_rule (s s' : VoteState) (Hwf : state_wf s) (Hsteps : rtc any_step s s') : extends s s'.
Proof.
  induction Hsteps as [s|s1 s2 s3 (f & c & sg & Hstep) _ IH]; [by apply extends_refl|].
  pose proof (step_extends _ _ _ _ _ Hwf Hstep) as Hext. eapply extends_trans; [exact Hext|]. apply IH, Hext.
Qed.

End claims.

(** ** A concrete bank

    A reference encoding with one example state, up to its commission, and a few
    instructions. *)
Definition ref_vote_bincode : VoteBincode := {|
  bincode_serialize_vote v :=
    match v with VoteCurrent s => [x01; commission s] | V0_23_5 _ => [x00] end;
  bincode_deserialize_vote d :=
    match d with
    | x01 :: c :: _ => Some (VoteCurrent (set_commission vx_start c))
    | _ => None
    end;
  bincode_serialize_vote_instruction i :=
    match i with UpdateCommission c => [x05; c] | VoteIx _ => [x02] | UpdateVoteState _ => [x08] | _ => [] end;
  limited_deserialize_vote d :=
    match d with
    | [x05; c] => Some (UpdateCommission c)
    | [x02] => Some (VoteIx vx_vote)
    | [x08] => Some (UpdateVoteState vx_update)
    | _ => None
    end
|}.
#[local] Existing Instance ref_vote_bincode.

#[local] Instance ref_vote_bincode_spec : VoteBincodeSpec ref_vote_bincode.
Proof.
  split. intros [|b [|c [|c' d]]] i; cbn; try done; destruct b; try done; intros [= <-]; try done.
  repeat constructor; cbn; lia.
Qed.

Definition vx_env : VoteEnv :=
  mkVoteEnv (mkVoteFeatures true true true true true true true true) (Some (mkClock 0 0))
    (Some (vx_hashes [3; 2; 1])) (Some Rent_default).

(** The voter of the example votes on slots 1 to 3. *)
Definition vx_frame : InstructionContext :=
  mkInstructionContext 0 [4%nat]
    [mkInstructionAccount 0 0 0 false true; mkInstructionAccount 1 1 1 false false;
     mkInstructionAccount 2 2 2 false false; mkInstructionAccount 3 3 3 true false]
    (bincode_serialize_vote_instruction (VoteIx vx_vote)).
Definition vx_context : TransactionContext :=
  mkTransactionContext
    [pubkey_of_Z 20; slot_hashes_sysvar_id; clock_sysvar_id; pubkey_of_Z 2; vote_program_id]
    [mkAccount 1000 [x01; x05; x00] vote_program_id false 0; mkAccount 1 [] native_loader_id false 0;
     mkAccount 1 [] native_loader_id false 0; mkAccount 9 [] system_program_id false 0;
     mkAccount 1 [] native_loader_id true 0]
    5 [0%nat] 1 [[vx_frame]] (mkReturnData Pubkey_default []) 10000000 0.

Lemma vx_bank_ok : bank_ok vx_env.
Proof.
  split.
  - intros c [= <-]. split; [done|]. by apply is_u64b_spec.
  - intros l [= <-]. repeat constructor; vm_compute; discriminate.
Qed.

Lemma vx_runs : exists tc', process_instruction vx_env vx_context = Ok (tt, tc').
Proof.
  assert (match process_instruction vx_env vx_context with Ok _ => true | _ => false end = true) as E by vm_true.
  destruct (process_instruction vx_env vx_context) as [[[] tc']| |]; [eauto|done..].
Qed.


Lemma vx_voter : voter_at (authorized_voters vx_start) 0 (pubkey_of_Z 2).
Proof.
  exists 0. split; [lia|]. split; [apply lookup_singleton_eq|]. intros k' Hk'. lia.
Qed.

Lemma vx_refreshed : refreshed (authorized_voters vx_start) 0 (pubkey_of_Z 2) (authorized_voters vx_start).
Proof.
  split; [apply lookup_singleton_eq|done|]. intros k Hk. apply lookup_singleton_ne.
  intros E. rewrite <-E in Hk. discriminate Hk.
Qed.

(** The voter votes, twice in one step; then the withdrawer changes the commission. *)
Lemma tower_rule_witness :
  votes vx_voted = [mkLockout 1 3; mkLockout 2 2; mkLockout 3 1] /\
  extends vx_start (set_commission vx_updated x09).
Proof.
  split; [vm_compute; reflexivity|].
  apply (tower_rule vx_start (set_commission vx_updated x09)).
  - split; [exact tower_nil|intros r Hr; discriminate Hr|intros Hr; destruct Hr; reflexivity].
  - apply (rtc_l _ _ vx_updated); [|apply rtc_once].
    + exists (features vx_env), (Some (mkClock 0 0)), {[pubkey_of_Z 2]}.
      apply (step_vote _ _ _ _ (mkClock 0 0) (pubkey_of_Z 2) (authorized_voters vx_start)).
      * reflexivity.
      * exists (mkClock 0 0). exact (conj eq_refl vx_voter).
      * apply elem_of_singleton_2. reflexivity.
      * exact vx_refreshed.
      * exact vx_votes.
      * exact (voted_rtc_keeps _ _ vx_votes).
    + exists (features vx_env), None, {[authorized_withdrawer vx_updated]}. apply step_commission.
      apply elem_of_singleton_2. reflexivity.
Defined.
