(* ===== verification/Ebpf.v ===== *)
(** * eBPF instructions

    [solana_rbpf-0.2.31/src/ebpf.rs]: the layout of the address space, the operation codes,
    and the eight bytes of an instruction.  Programs are lists of bytes; indexing one out of
    range panics. *)

From Stdlib Require Import Strings.Byte.
From S2P Require Import Prelude.

(** ** Integers of the machine

    [x as u32] and the like: a value of any type, truncated and read in the new type. *)
Definition unsigned (w z : Z) : Z := z mod 2 ^ w.
Definition signed (w z : Z) : Z :=
  let u := z mod 2 ^ w in if u <? 2 ^ (w - 1) then u else u - 2 ^ w.

Notation as_u8 := (unsigned 8).
Notation as_u16 := (unsigned 16).
Notation as_u32 := (unsigned 32).
Notation as_u64 := (unsigned 64).
Notation as_i16 := (signed 16).
Notation as_i32 := (signed 32).
Notation as_i64 := (signed 64).

Lemma unsigned_range w z : 0 <= w -> 0 <= unsigned w z < 2 ^ w.
Proof. intros. apply Z.mod_pos_bound. by apply Z.pow_pos_nonneg. Qed.

Lemma unsigned_small w z : 0 <= z < 2 ^ w -> unsigned w z = z.
Proof. apply Z.mod_small. Qed.

Lemma pow_double w : 0 < w -> 2 ^ w = 2 * 2 ^ (w - 1).
Proof. intros. rewrite <-Z.pow_succ_r by lia. f_equal. lia. Qed.

Lemma signed_range w z : 0 < w -> - 2 ^ (w - 1) <= signed w z < 2 ^ (w - 1).
Proof.
  intros Hw. unfold signed. pose proof (unsigned_range w z ltac:(lia)) as Hu. unfold unsigned in Hu.
  pose proof (pow_double w Hw). destruct (Z.ltb_spec (z mod 2 ^ w) (2 ^ (w - 1))); lia.
Qed.

Lemma signed_small w z : 0 < w -> - 2 ^ (w - 1) <= z < 2 ^ (w - 1) -> signed w z = z.
Proof.
  intros Hw Hz. unfold signed. pose proof (pow_double w Hw).
  destruct (Z_lt_le_dec z 0).
  - replace (z mod 2 ^ w) with (z + 2 ^ w)
      by (rewrite <-(Z.mod_add z 1) by lia; rewrite Z.mul_1_l; symmetry; apply Z.mod_small; lia).
    destruct (Z.ltb_spec (z + 2 ^ w) (2 ^ (w - 1))); lia.
  - rewrite Z.mod_small by lia. destruct (Z.ltb_spec z (2 ^ (w - 1))); lia.
Qed.

Lemma signed_mod w z : signed w (z mod 2 ^ w) = signed w z.
Proof. unfold signed. by rewrite Zmod_mod. Qed.

(** ** The address space *)
Definition PROG_MAX_INSNS : Z := 65536.
Definition INSN_SIZE : Z := 8.
Definition FRAME_PTR_REG : Z := 10.
Definition STACK_PTR_REG : Z := 11.
Definition FIRST_SCRATCH_REG : Z := 6.
Definition SCRATCH_REGS : Z := 4.
Definition ELF_INSN_DUMP_OFFSET : Z := 29.
Definition VIRTUAL_ADDRESS_BITS : Z := 32.
Definition MM_PROGRAM_START : Z := 0x100000000.
Definition MM_STACK_START : Z := 0x200000000.
Definition MM_HEAP_START : Z := 0x300000000.
Definition MM_INPUT_START : Z := 0x400000000.

(** ** Operation codes *)
Definition BPF_LD : Z := 0x00.
Definition BPF_LDX : Z := 0x01.
Definition BPF_ST : Z := 0x02.
Definition BPF_STX : Z := 0x03.
Definition BPF_ALU : Z := 0x04.
Definition BPF_JMP : Z := 0x05.
Definition BPF_ALU64 : Z := 0x07.
Definition BPF_W : Z := 0x00.
Definition BPF_H : Z := 0x08.
Definition BPF_B : Z := 0x10.
Definition BPF_DW : Z := 0x18.
Definition BPF_IMM : Z := 0x00.
Definition BPF_ABS : Z := 0x20.
Definition BPF_IND : Z := 0x40.
Definition BPF_MEM : Z := 0x60.
Definition BPF_XADD : Z := 0xc0.
Definition BPF_K : Z := 0x00.
Definition BPF_X : Z := 0x08.
Definition BPF_ADD : Z := 0x00.
Definition BPF_SUB : Z := 0x10.
Definition BPF_MUL : Z := 0x20.
Definition BPF_DIV : Z := 0x30.
Definition BPF_OR : Z := 0x40.
Definition BPF_AND : Z := 0x50.
Definition BPF_LSH : Z := 0x60.
Definition BPF_RSH : Z := 0x70.
Definition BPF_NEG : Z := 0x80.
Definition BPF_MOD : Z := 0x90.
Definition BPF_XOR : Z := 0xa0.
Definition BPF_MOV : Z := 0xb0.
Definition BPF_ARSH : Z := 0xc0.
Definition BPF_END : Z := 0xd0.
Definition BPF_SDIV : Z := 0xe0.
Definition BPF_JA : Z := 0x00.
Definition BPF_JEQ : Z := 0x10.
Definition BPF_JGT : Z := 0x20.
Definition BPF_JGE : Z := 0x30.
Definition BPF_JSET : Z := 0x40.
Definition BPF_JNE : Z := 0x50.
Definition BPF_JSGT : Z := 0x60.
Definition BPF_JSGE : Z := 0x70.
Definition BPF_CALL : Z := 0x80.
Definition BPF_EXIT : Z := 0x90.
Definition BPF_JLT : Z := 0xa0.
Definition BPF_JLE : Z := 0xb0.
Definition BPF_JSLT : Z := 0xc0.
Definition BPF_JSLE : Z := 0xd0.

(** The operation codes by the names the crate gives them. *)
Inductive Opc : Type :=
| LD_ABS_B | LD_ABS_H | LD_ABS_W | LD_ABS_DW | LD_IND_B | LD_IND_H | LD_IND_W | LD_IND_DW
| LD_DW_IMM | LD_B_REG | LD_H_REG | LD_W_REG | LD_DW_REG | ST_B_IMM | ST_H_IMM | ST_W_IMM
| ST_DW_IMM | ST_B_REG | ST_H_REG | ST_W_REG | ST_DW_REG | ST_W_XADD | ST_DW_XADD | ADD32_IMM
| ADD32_REG | SUB32_IMM | SUB32_REG | MUL32_IMM | MUL32_REG | DIV32_IMM | DIV32_REG | OR32_IMM
| OR32_REG | AND32_IMM | AND32_REG | LSH32_IMM | LSH32_REG | RSH32_IMM | RSH32_REG | NEG32
| MOD32_IMM | MOD32_REG | XOR32_IMM | XOR32_REG | MOV32_IMM | MOV32_REG | ARSH32_IMM | ARSH32_REG
| SDIV32_IMM | SDIV32_REG | LE | BE | ADD64_IMM | ADD64_REG | SUB64_IMM | SUB64_REG
| MUL64_IMM | MUL64_REG | DIV64_IMM | DIV64_REG | OR64_IMM | OR64_REG | AND64_IMM | AND64_REG
| LSH64_IMM | LSH64_REG | RSH64_IMM | RSH64_REG | NEG64 | MOD64_IMM | MOD64_REG | XOR64_IMM
| XOR64_REG | MOV64_IMM | MOV64_REG | ARSH64_IMM | ARSH64_REG | SDIV64_IMM | SDIV64_REG | JA
| JEQ_IMM | JEQ_REG | JGT_IMM | JGT_REG | JGE_IMM | JGE_REG | JLT_IMM | JLT_REG
| JLE_IMM | JLE_REG | JSET_IMM | JSET_REG | JNE_IMM | JNE_REG | JSGT_IMM | JSGT_REG
| JSGE_IMM | JSGE_REG | JSLT_IMM | JSLT_REG | JSLE_IMM | JSLE_REG | CALL_IMM | CALL_REG
| EXIT.

#[local] Infix ".|" := Z.lor (at level 50, left associativity).

Definition opc_value (o : Opc) : Z :=
  match o with
  | LD_ABS_B => BPF_LD .| BPF_ABS .| BPF_B
  | LD_ABS_H => BPF_LD .| BPF_ABS .| BPF_H
  | LD_ABS_W => BPF_LD .| BPF_ABS .| BPF_W
  | LD_ABS_DW => BPF_LD .| BPF_ABS .| BPF_DW
  | LD_IND_B => BPF_LD .| BPF_IND .| BPF_B
  | LD_IND_H => BPF_LD .| BPF_IND .| BPF_H
  | LD_IND_W => BPF_LD .| BPF_IND .| BPF_W
  | LD_IND_DW => BPF_LD .| BPF_IND .| BPF_DW
  | LD_DW_IMM => BPF_LD .| BPF_IMM .| BPF_DW
  | LD_B_REG => BPF_LDX .| BPF_MEM .| BPF_B
  | LD_H_REG => BPF_LDX .| BPF_MEM .| BPF_H
  | LD_W_REG => BPF_LDX .| BPF_MEM .| BPF_W
  | LD_DW_REG => BPF_LDX .| BPF_MEM .| BPF_DW
  | ST_B_IMM => BPF_ST .| BPF_MEM .| BPF_B
  | ST_H_IMM => BPF_ST .| BPF_MEM .| BPF_H
  | ST_W_IMM => BPF_ST .| BPF_MEM .| BPF_W
  | ST_DW_IMM => BPF_ST .| BPF_MEM .| BPF_DW
  | ST_B_REG => BPF_STX .| BPF_MEM .| BPF_B
  | ST_H_REG => BPF_STX .| BPF_MEM .| BPF_H
  | ST_W_REG => BPF_STX .| BPF_MEM .| BPF_W
  | ST_DW_REG => BPF_STX .| BPF_MEM .| BPF_DW
  | ST_W_XADD => BPF_STX .| BPF_XADD .| BPF_W
  | ST_DW_XADD => BPF_STX .| BPF_XADD .| BPF_DW
  | ADD32_IMM => BPF_ALU .| BPF_K .| BPF_ADD
  | ADD32_REG => BPF_ALU .| BPF_X .| BPF_ADD
  | SUB32_IMM => BPF_ALU .| BPF_K .| BPF_SUB
  | SUB32_REG => BPF_ALU .| BPF_X .| BPF_SUB
  | MUL32_IMM => BPF_ALU .| BPF_K .| BPF_MUL
  | MUL32_REG => BPF_ALU .| BPF_X .| BPF_MUL
  | DIV32_IMM => BPF_ALU .| BPF_K .| BPF_DIV
  | DIV32_REG => BPF_ALU .| BPF_X .| BPF_DIV
  | OR32_IMM => BPF_ALU .| BPF_K .| BPF_OR
  | OR32_REG => BPF_ALU .| BPF_X .| BPF_OR
  | AND32_IMM => BPF_ALU .| BPF_K .| BPF_AND
  | AND32_REG => BPF_ALU .| BPF_X .| BPF_AND
  | LSH32_IMM => BPF_ALU .| BPF_K .| BPF_LSH
  | LSH32_REG => BPF_ALU .| BPF_X .| BPF_LSH
  | RSH32_IMM => BPF_ALU .| BPF_K .| BPF_RSH
  | RSH32_REG => BPF_ALU .| BPF_X .| BPF_RSH
  | NEG32 => BPF_ALU .| BPF_NEG
  | MOD32_IMM => BPF_ALU .| BPF_K .| BPF_MOD
  | MOD32_REG => BPF_ALU .| BPF_X .| BPF_MOD
  | XOR32_IMM => BPF_ALU .| BPF_K .| BPF_XOR
  | XOR32_REG => BPF_ALU .| BPF_X .| BPF_XOR
  | MOV32_IMM => BPF_ALU .| BPF_K .| BPF_MOV
  | MOV32_REG => BPF_ALU .| BPF_X .| BPF_MOV
  | ARSH32_IMM => BPF_ALU .| BPF_K .| BPF_ARSH
  | ARSH32_REG => BPF_ALU .| BPF_X .| BPF_ARSH
  | SDIV32_IMM => BPF_ALU .| BPF_K .| BPF_SDIV
  | SDIV32_REG => BPF_ALU .| BPF_X .| BPF_SDIV
  | LE => BPF_ALU .| BPF_K .| BPF_END
  | BE => BPF_ALU .| BPF_X .| BPF_END
  | ADD64_IMM => BPF_ALU64 .| BPF_K .| BPF_ADD
  | ADD64_REG => BPF_ALU64 .| BPF_X .| BPF_ADD
  | SUB64_IMM => BPF_ALU64 .| BPF_K .| BPF_SUB
  | SUB64_REG => BPF_ALU64 .| BPF_X .| BPF_SUB
  | MUL64_IMM => BPF_ALU64 .| BPF_K .| BPF_MUL
  | MUL64_REG => BPF_ALU64 .| BPF_X .| BPF_MUL
  | DIV64_IMM => BPF_ALU64 .| BPF_K .| BPF_DIV
  | DIV64_REG => BPF_ALU64 .| BPF_X .| BPF_DIV
  | OR64_IMM => BPF_ALU64 .| BPF_K .| BPF_OR
  | OR64_REG => BPF_ALU64 .| BPF_X .| BPF_OR
  | AND64_IMM => BPF_ALU64 .| BPF_K .| BPF_AND
  | AND64_REG => BPF_ALU64 .| BPF_X .| BPF_AND
  | LSH64_IMM => BPF_ALU64 .| BPF_K .| BPF_LSH
  | LSH64_REG => BPF_ALU64 .| BPF_X .| BPF_LSH
  | RSH64_IMM => BPF_ALU64 .| BPF_K .| BPF_RSH
  | RSH64_REG => BPF_ALU64 .| BPF_X .| BPF_RSH
  | NEG64 => BPF_ALU64 .| BPF_NEG
  | MOD64_IMM => BPF_ALU64 .| BPF_K .| BPF_MOD
  | MOD64_REG => BPF_ALU64 .| BPF_X .| BPF_MOD
  | XOR64_IMM => BPF_ALU64 .| BPF_K .| BPF_XOR
  | XOR64_REG => BPF_ALU64 .| BPF_X .| BPF_XOR
  | MOV64_IMM => BPF_ALU64 .| BPF_K .| BPF_MOV
  | MOV64_REG => BPF_ALU64 .| BPF_X .| BPF_MOV
  | ARSH64_IMM => BPF_ALU64 .| BPF_K .| BPF_ARSH
  | ARSH64_REG => BPF_ALU64 .| BPF_X .| BPF_ARSH
  | SDIV64_IMM => BPF_ALU64 .| BPF_K .| BPF_SDIV
  | SDIV64_REG => BPF_ALU64 .| BPF_X .| BPF_SDIV
  | JA => BPF_JMP .| BPF_JA
  | JEQ_IMM => BPF_JMP .| BPF_K .| BPF_JEQ
  | JEQ_REG => BPF_JMP .| BPF_X .| BPF_JEQ
  | JGT_IMM => BPF_JMP .| BPF_K .| BPF_JGT
  | JGT_REG => BPF_JMP .| BPF_X .| BPF_JGT
  | JGE_IMM => BPF_JMP .| BPF_K .| BPF_JGE
  | JGE_REG => BPF_JMP .| BPF_X .| BPF_JGE
  | JLT_IMM => BPF_JMP .| BPF_K .| BPF_JLT
  | JLT_REG => BPF_JMP .| BPF_X .| BPF_JLT
  | JLE_IMM => BPF_JMP .| BPF_K .| BPF_JLE
  | JLE_REG => BPF_JMP .| BPF_X .| BPF_JLE
  | JSET_IMM => BPF_JMP .| BPF_K .| BPF_JSET
  | JSET_REG => BPF_JMP .| BPF_X .| BPF_JSET
  | JNE_IMM => BPF_JMP .| BPF_K .| BPF_JNE
  | JNE_REG => BPF_JMP .| BPF_X .| BPF_JNE
  | JSGT_IMM => BPF_JMP .| BPF_K .| BPF_JSGT
  | JSGT_REG => BPF_JMP .| BPF_X .| BPF_JSGT
  | JSGE_IMM => BPF_JMP .| BPF_K .| BPF_JSGE
  | JSGE_REG => BPF_JMP .| BPF_X .| BPF_JSGE
  | JSLT_IMM => BPF_JMP .| BPF_K .| BPF_JSLT
  | JSLT_REG => BPF_JMP .| BPF_X .| BPF_JSLT
  | JSLE_IMM => BPF_JMP .| BPF_K .| BPF_JSLE
  | JSLE_REG => BPF_JMP .| BPF_X .| BPF_JSLE
  | CALL_IMM => BPF_JMP .| BPF_CALL
  | CALL_REG => BPF_JMP .| BPF_X .| BPF_CALL
  | EXIT => BPF_JMP .| BPF_EXIT
  end.

Definition all_opcs : list Opc :=
  [LD_ABS_B; LD_ABS_H; LD_ABS_W; LD_ABS_DW; LD_IND_B; LD_IND_H; LD_IND_W; LD_IND_DW;
   LD_DW_IMM; LD_B_REG; LD_H_REG; LD_W_REG; LD_DW_REG; ST_B_IMM; ST_H_IMM; ST_W_IMM;
   ST_DW_IMM; ST_B_REG; ST_H_REG; ST_W_REG; ST_DW_REG; ST_W_XADD; ST_DW_XADD; ADD32_IMM;
   ADD32_REG; SUB32_IMM; SUB32_REG; MUL32_IMM; MUL32_REG; DIV32_IMM; DIV32_REG; OR32_IMM;
   OR32_REG; AND32_IMM; AND32_REG; LSH32_IMM; LSH32_REG; RSH32_IMM; RSH32_REG; NEG32;
   MOD32_IMM; MOD32_REG; XOR32_IMM; XOR32_REG; MOV32_IMM; MOV32_REG; ARSH32_IMM; ARSH32_REG;
   SDIV32_IMM; SDIV32_REG; LE; BE; ADD64_IMM; ADD64_REG; SUB64_IMM; SUB64_REG;
   MUL64_IMM; MUL64_REG; DIV64_IMM; DIV64_REG; OR64_IMM; OR64_REG; AND64_IMM; AND64_REG;
   LSH64_IMM; LSH64_REG; RSH64_IMM; RSH64_REG; NEG64; MOD64_IMM; MOD64_REG; XOR64_IMM;
   XOR64_REG; MOV64_IMM; MOV64_REG; ARSH64_IMM; ARSH64_REG; SDIV64_IMM; SDIV64_REG; JA;
   JEQ_IMM; JEQ_REG; JGT_IMM; JGT_REG; JGE_IMM; JGE_REG; JLT_IMM; JLT_REG;
   JLE_IMM; JLE_REG; JSET_IMM; JSET_REG; JNE_IMM; JNE_REG; JSGT_IMM; JSGT_REG;
   JSGE_IMM; JSGE_REG; JSLT_IMM; JSLT_REG; JSLE_IMM; JSLE_REG; CALL_IMM; CALL_REG;
   EXIT].

(** The operation a byte is the code of. *)
Definition opc_of (z : Z) : option Opc := List.find (fun o => opc_value o =? z) all_opcs.

(** No two operations share a code, so the order of the arms of a [match] on codes does not
    matter. *)
Lemma opc_of_value o : opc_of (opc_value o) = Some o.
Proof. by destruct o. Qed.

#[global] Instance opc_value_inj : Inj (=) (=) opc_value.
Proof. intros a b E. apply (inj Some). by rewrite <-!opc_of_value, E. Qed.

#[global] Instance Opc_eq_dec : EqDecision Opc.
Proof.
  intros a b. destruct (decide (opc_value a = opc_value b)) as [E|N]; [left|right].
  - by apply (inj opc_value).
  - by intros ->.
Defined.

Lemma opc_of_some z o : opc_of z = Some o <-> z = opc_value o.
Proof.
  split; [|intros ->; apply opc_of_value]. intros [_ E]%List.find_some. by apply Z.eqb_eq in E.
Qed.

(** ** Instructions *)
Record Insn : Type := mkInsn {
  ptr : Z;
  opc : Z;
  dst : Z;
  src : Z;
  off : Z;
  imm : Z
}.

(** The ranges of the fields; registers have four bits. *)
Record insn_wf (i : Insn) : Prop := {
  iw_opc : 0 <= opc i < 256;
  iw_dst : 0 <= dst i < 16;
  iw_src : 0 <= src i < 16;
  iw_off : - 2 ^ 15 <= off i < 2 ^ 15;
  iw_imm : - 2 ^ 31 <= imm i < 2 ^ 31
}.

(** [Insn::to_array] *)
Definition to_array (i : Insn) : list byte :=
  [u8_of (opc i);
   u8_of (Z.lor (Z.shiftl (src i) 4) (dst i));
   u8_of (Z.land (off i) 0xff);
   u8_of (Z.shiftr (off i) 8);
   u8_of (Z.land (imm i) 0xff);
   u8_of (Z.shiftr (Z.land (imm i) 0xff00) 8);
   u8_of (Z.shiftr (Z.land (as_u32 (imm i)) 0xff0000) 16);
   u8_of (Z.shiftr (Z.land (as_u32 (imm i)) 0xff000000) 24)].

(** [&prog[i..]], then its first [n] bytes. *)
Definition slice_at (prog : list byte) (i n : Z) : option (list byte) :=
  if i + n <=? Z.of_nat (length prog) then Some (take (Z.to_nat n) (drop (Z.to_nat i) prog)) else None.
Definition read_at (prog : list byte) (i n : Z) : option Z := from_le_bytes <$> slice_at prog i n.

(** [None]: an index is out of range, which panics. *)
Definition get_insn_unchecked (prog : list byte) (pc : Z) : option Insn :=
  let at_ := wrapping_mul INSN_SIZE pc in
  opcode ← read_at prog at_ 1;
  registers ← read_at prog (wrapping_add at_ 1) 1;
  offset ← read_at prog (wrapping_add at_ 2) 2;
  immediate ← read_at prog (wrapping_add at_ 4) 4;
  Some (mkInsn pc opcode (Z.land registers 0x0f) (Z.shiftr (Z.land registers 0xf0) 4)
          (as_i16 offset) (as_i32 immediate)).

(** [get_insn] differs by a [debug_assert!] only. *)
Definition get_insn (prog : list byte) (pc : Z) : option Insn := get_insn_unchecked prog pc.

Definition augment_lddw_unchecked (prog : list byte) (insn : Insn) : option Insn :=
  more_significant_half ←
    read_at prog (wrapping_add (wrapping_mul (wrapping_add (ptr insn) 1) INSN_SIZE) 4) 4;
  Some (mkInsn (ptr insn) (opc insn) (dst insn) (src insn) (off insn)
    (as_i64 (Z.lor (Z.land (as_u64 (imm insn)) 0xffffffff)
                   (as_u64 (Z.shiftl (as_u64 (as_i32 more_significant_half)) 32))))).

(** ** The bytes of an instruction *)

Lemma u8_of_mod z : u8_of (z mod 256) = u8_of z.
Proof. apply u8_val_inj. by rewrite !u8_val_of, Zmod_mod. Qed.

Lemma u8_of_land z : u8_of (Z.land z 0xff) = u8_of z.
Proof. change 0xff with (Z.ones 8). rewrite Z.land_ones by lia. apply u8_of_mod. Qed.

(** [(z & (0xff << k)) >> k] *)
Lemma u8_of_field z k : 0 <= k -> u8_of (Z.shiftr (Z.land z (Z.shiftl 0xff k)) k) = u8_of (z / 2 ^ k).
Proof.
  intros. rewrite Z.shiftr_land, Z.shiftr_shiftl_l, Z.sub_diag, Z.shiftl_0_r by lia.
  by rewrite u8_of_land, Z.shiftr_div_pow2.
Qed.

Lemma u8_of_unsigned z k : 0 <= k <= 24 -> u8_of (as_u32 z / 2 ^ k) = u8_of (z / 2 ^ k).
Proof.
  intros Hk. apply u8_val_inj. rewrite !u8_val_of. unfold unsigned.
  rewrite <-!Z.shiftr_div_pow2 by lia. change 256 with (2 ^ 8). rewrite <-!Z.land_ones by lia.
  apply Z.bits_inj'. intros n Hn. rewrite !Z.land_spec, !Z.shiftr_spec, Z.land_spec by lia.
  rewrite (Z.testbit_ones_nonneg 32), (Z.testbit_ones_nonneg 8) by lia.
  destruct (Z.ltb_spec n 8), (Z.ltb_spec (n + k) 32); try lia; by rewrite ?andb_true_r, ?andb_false_r.
Qed.

(** Facts on two numbers of four bits, by evaluation. *)
Lemma nibbles_check (P : Z -> Z -> bool) a b :
  forallb (fun a => forallb (P a) (seqZ 0 16)) (seqZ 0 16) = true ->
  0 <= a < 16 -> 0 <= b < 16 -> P a b = true.
Proof.
  intros H Ha Hb. rewrite forallb_forall in H. specialize (H a).
  rewrite <-list_elem_of_In, elem_of_seqZ in H. specialize (H ltac:(lia)). rewrite forallb_forall in H.
  apply H. rewrite <-list_elem_of_In, elem_of_seqZ. lia.
Qed.

Lemma nibbles a b :
  0 <= a < 16 -> 0 <= b < 16 ->
  0 <= Z.lor (Z.shiftl a 4) b < 256 /\ Z.land (Z.lor (Z.shiftl a 4) b) 0x0f = b /\
  Z.shiftr (Z.land (Z.lor (Z.shiftl a 4) b) 0xf0) 4 = a.
Proof.
  intros Ha Hb. set (P a b := let r := Z.lor (Z.shiftl a 4) b in
    (0 <=? r) && (r <? 256) && (Z.land r 0x0f =? b) && (Z.shiftr (Z.land r 0xf0) 4 =? a)).
  pose proof (nibbles_check P a b ltac:(vm_compute; done) Ha Hb) as H. unfold P in H.
  rewrite !andb_true_iff, Z.leb_le, Z.ltb_lt, !Z.eqb_eq in H. tauto.
Qed.

Lemma to_array_bytes i :
  to_array i = u8_of (opc i) :: u8_of (Z.lor (Z.shiftl (src i) 4) (dst i)) ::
    to_le_bytes 2 (off i) ++ to_le_bytes 4 (imm i).
Proof.
  unfold to_array. cbn [to_le_bytes app]. rewrite !Z.div_div by lia.
  rewrite (u8_of_field _ 8), (u8_of_field _ 16), (u8_of_field _ 24) by lia.
  by rewrite !u8_of_land, !u8_of_unsigned, Z.shiftr_div_pow2 by lia.
Qed.

(** ** Reading an instruction *)

Lemma slice_at_some prog i n l :
  0 <= i -> 0 <= n -> slice_at prog i n = Some l ->
  i + n <= Z.of_nat (length prog) /\ length l = Z.to_nat n /\ l = take (Z.to_nat n) (drop (Z.to_nat i) prog).
Proof.
  intros Hi Hn. unfold slice_at. destruct (Z.leb_spec (i + n) (Z.of_nat (length prog))); [|done].
  intros [= <-]. rewrite length_take, length_drop. split_and!; [done|lia|done].
Qed.

Lemma slice_at_in prog i n :
  i + n <= Z.of_nat (length prog) -> slice_at prog i n = Some (take (Z.to_nat n) (drop (Z.to_nat i) prog)).
Proof. intros. unfold slice_at. by destruct (Z.leb_spec (i + n) (Z.of_nat (length prog))); [|lia]. Qed.

Lemma read_at_slice prog a l k n :
  0 <= a -> slice_at prog a INSN_SIZE = Some l -> 0 <= k -> 0 <= n -> k + n <= INSN_SIZE ->
  read_at prog (a + k) n = Some (from_le_bytes (take (Z.to_nat n) (drop (Z.to_nat k) l))).
Proof.
  intros Ha Hl Hk Hn Hkn. unfold INSN_SIZE in *. apply slice_at_some in Hl as (Hlen & _ & ->); [|lia..].
  unfold read_at. rewrite slice_at_in by lia. cbn [fmap option_fmap option_map]. do 2 f_equal.
  rewrite skipn_firstn_comm, drop_drop, firstn_firstn. f_equal; [lia|]. f_equal. lia.
Qed.

Lemma to_le_bytes_mod n z : to_le_bytes n (z mod 256 ^ Z.of_nat n) = to_le_bytes n z.
Proof.
  rewrite <-from_to_le_bytes. rewrite <-(length_to_le_bytes n z) at 1. apply to_from_le_bytes.
Qed.

Lemma signed_unsigned w z : 0 < w -> (signed w z) mod 2 ^ w = z mod 2 ^ w.
Proof.
  intros Hw. unfold signed. destruct (_ <? _); [by rewrite Zmod_mod|].
  replace (z mod 2 ^ w - 2 ^ w) with (z mod 2 ^ w + (-1) * 2 ^ w) by lia.
  by rewrite Z.mod_add, Zmod_mod by (pose proof (Z.pow_pos_nonneg 2 w); lia).
Qed.

(** The instruction in eight bytes. *)
Definition decoded (pc : Z) (l : list byte) : Insn :=
  let r := from_le_bytes (take 1 (drop 1 l)) in
  mkInsn pc (from_le_bytes (take 1 l)) (Z.land r 0x0f) (Z.shiftr (Z.land r 0xf0) 4)
    (as_i16 (from_le_bytes (take 2 (drop 2 l)))) (as_i32 (from_le_bytes (take 4 (drop 4 l)))).

Lemma get_insn_slice prog pc l :
  0 <= pc -> is_u64 (Z.of_nat (length prog)) ->
  slice_at prog (INSN_SIZE * pc) INSN_SIZE = Some l -> get_insn prog pc = Some (decoded pc l).
Proof.
  intros Hpc Hlen Hl. pose proof Hl as (Hin & _ & _)%slice_at_some; [|unfold INSN_SIZE; lia..].
  unfold INSN_SIZE, is_u64 in *. unfold get_insn, get_insn_unchecked, wrapping_mul, wrapping_add, INSN_SIZE.
  rewrite (wrap64_small (8 * pc)) by (unfold is_u64; lia). rewrite !wrap64_small by (unfold is_u64; lia).
  assert (forall k n, 0 <= k -> 0 <= n -> k + n <= 8 -> read_at prog (8 * pc + k) n =
    Some (from_le_bytes (take (Z.to_nat n) (drop (Z.to_nat k) l)))) as Hr
    by (intros; apply read_at_slice; unfold INSN_SIZE; [lia|done|lia..]).
  pose proof (Hr 0 1 ltac:(lia) ltac:(lia) ltac:(lia)) as H0. rewrite Z.add_0_r in H0.
  by rewrite H0, !Hr by lia.
Qed.

Lemma byte_nibbles b :
  0 <= Z.land (u8_val b) 0x0f < 16 /\ 0 <= Z.shiftr (Z.land (u8_val b) 0xf0) 4 < 16 /\
  u8_of (Z.lor (Z.shiftl (Z.shiftr (Z.land (u8_val b) 0xf0) 4) 4) (Z.land (u8_val b) 0x0f)) = b.
Proof. by destruct b. Qed.

Lemma to_le_bytes_signed n l :
  (0 < n)%nat -> length l = n -> to_le_bytes n (signed (8 * Z.of_nat n) (from_le_bytes l)) = l.
Proof.
  intros Hn <-. rewrite <-to_le_bytes_mod.
  replace (256 ^ Z.of_nat (length l)) with (2 ^ (8 * Z.of_nat (length l))) by (by rewrite Z.pow_mul_r by lia).
  rewrite signed_unsigned by lia. rewrite Z.pow_mul_r by lia. rewrite to_le_bytes_mod. apply to_from_le_bytes.
Qed.

Lemma decoded_array pc l : length l = Z.to_nat INSN_SIZE -> to_array (decoded pc l) = l /\ insn_wf (decoded pc l).
Proof.
  intros Hn. unfold INSN_SIZE in Hn.
  destruct l as [|b0 [|b1 [|b2 [|b3 [|b4 [|b5 [|b6 [|b7 [|]]]]]]]]]; try discriminate Hn. clear Hn.
  unfold decoded. cbn [take drop]. set (lo := from_le_bytes [b2; b3]). set (li := from_le_bytes [b4; b5; b6; b7]).
  assert (from_le_bytes [b0] = u8_val b0 /\ from_le_bytes [b1] = u8_val b1) as [-> ->]
    by (cbn [from_le_bytes]; lia).
  destruct (byte_nibbles b1) as (Hd & Hs & Hb). split.
  - rewrite to_array_bytes. cbn [opc src dst off imm]. rewrite Hb, u8_of_val.
    rewrite (to_le_bytes_signed 2 [b2; b3] ltac:(lia) eq_refl : to_le_bytes 2 (as_i16 lo) = _).
    by rewrite (to_le_bytes_signed 4 [b4; b5; b6; b7] ltac:(lia) eq_refl : to_le_bytes 4 (as_i32 li) = _).
  - split; cbn [opc src dst off imm]; [apply u8_val_range|done..| |].
    + apply (signed_range 16). lia.
    + apply (signed_range 32). lia.
Qed.

(** A program that reaches past an instruction has one there, and it is its bytes. *)
Lemma get_insn_in prog pc :
  0 <= pc -> (pc + 1) * INSN_SIZE <= Z.of_nat (length prog) -> is_u64 (Z.of_nat (length prog)) ->
  exists i, get_insn prog pc = Some i /\ insn_wf i /\ ptr i = pc /\
    slice_at prog (INSN_SIZE * pc) INSN_SIZE = Some (to_array i).
Proof.
  intros Hpc Hin Hlen. unfold INSN_SIZE in Hin.
  destruct (slice_at prog (INSN_SIZE * pc) INSN_SIZE) as [l|] eqn:Hl;
    [|rewrite slice_at_in in Hl; [done|unfold INSN_SIZE; lia]].
  pose proof Hl as (_ & Hn & _)%slice_at_some; [|unfold INSN_SIZE; lia..].
  destruct (decoded_array pc l Hn) as [Ha Hwf]. exists (decoded pc l). rewrite Ha.
  split_and!; [by apply get_insn_slice|done..].
Qed.

(** An instruction in a program is read back. *)
Lemma decoded_of_array pc i :
  insn_wf i -> decoded pc (to_array i) = mkInsn pc (opc i) (dst i) (src i) (off i) (imm i).
Proof.
  intros [Ho Hd Hs Hof Him]. rewrite to_array_bytes. unfold decoded. cbn [to_le_bytes app take drop].
  destruct (nibbles (src i) (dst i) Hs Hd) as (Hr & Hlo & Hhi).
  change [u8_of (off i); u8_of (off i / 256)] with (to_le_bytes 2 (off i)).
  change [u8_of (imm i); u8_of (imm i / 256); u8_of (imm i / 256 / 256); u8_of (imm i / 256 / 256 / 256)]
    with (to_le_bytes 4 (imm i)). rewrite !from_to_le_bytes.
  change (256 ^ Z.of_nat 2) with (2 ^ 16). change (256 ^ Z.of_nat 4) with (2 ^ 32).
  rewrite !signed_mod, !signed_small by (cbn in *; lia). cbn [from_le_bytes].
  rewrite !u8_val_of, Z.mul_0_r, !Z.add_0_r, !Z.mod_small by lia. by rewrite Hlo, Hhi.
Qed.
