(* ===== verification/EbpfMemory.v ===== *)
(** * The memory of the virtual machine

    [solana_rbpf-0.2.31/src]: the configuration ([vm.rs]), the errors ([error.rs]), the
    translation of addresses ([memory_region.rs]) and the call frames ([call_frames.rs]).

    The memory of the host is a map from addresses to bytes; dereferencing an address that
    is not in it is undefined behaviour and has no result. *)

From Stdlib Require Import Strings.Byte.
From S2P Require Import Prelude Ebpf.

(** ** Configuration *)
Record Config : Type := mkConfig {
  max_call_depth : Z;
  stack_frame_size : Z;
  enable_stack_frame_gaps : bool;
  instruction_meter_checkpoint_distance : Z;
  enable_instruction_meter : bool;
  enable_instruction_tracing : bool;
  enable_symbol_and_section_labels : bool;
  disable_unresolved_symbols_at_runtime : bool;
  reject_broken_elfs : bool;
  noop_instruction_rate : Z;
  sanitize_user_provided_values : bool;
  encrypt_environment_registers : bool;
  disable_deprecated_load_instructions : bool;
  syscall_bpf_function_hash_collision : bool;
  reject_callx_r10 : bool;
  dynamic_stack_frames : bool;
  enable_sdiv : bool;
  optimize_rodata : bool;
  static_syscalls : bool;
  enable_elf_vaddr : bool
}.

Definition stack_size (c : Config) : Z := wrapping_mul (stack_frame_size c) (max_call_depth c).

Definition Config_default : Config :=
  mkConfig 20 4096 true 10000 true false false true false 256 true true true true true true true true
    true true.

(** ** Errors *)
Inductive AccessType : Type := Load | Store.

#[global] Instance AccessType_eq_dec : EqDecision AccessType.
Proof. solve_decision. Defined.

Module ElfError.
Inductive t : Type :=
| FailedToParse (s : string)
| EntrypointOutOfBounds
| InvalidEntrypoint
| FailedToGetSection (s : string)
| UnresolvedSymbol (s : string) (insn offset : Z)
| SectionNotFound (s : string)
| RelativeJumpOutOfBounds (insn : Z)
| SymbolHashCollision (hash : Z)
| WrongEndianess
| WrongAbi
| WrongMachine
| WrongClass
| NotOneTextSection
| BssNotSupported
| WritableSectionNotSupported (s : string)
| AddressOutsideLoadableSection (addr : Z)
| InvalidVirtualAddress (addr : Z)
| UnknownRelocation (r : Z)
| FailedToReadRelocationInfo
| WrongType
| UnknownSymbol (i : Z)
| ValueOutOfBounds
| DynamicStackFramesDisabled.
End ElfError.
Notation ElfError := ElfError.t.

Module VerifierError.
Inductive t : Type :=
| ProgramLengthNotMultiple
| ProgramTooLarge (n : Z)
| NoProgram
| DivisionByZero (insn : Z)
| UnsupportedLEBEArgument (insn : Z)
| LDDWCannotBeLast
| IncompleteLDDW (insn : Z)
| InfiniteLoop (insn : Z)
| JumpOutOfCode (target insn : Z)
| JumpToMiddleOfLDDW (target insn : Z)
| InvalidSourceRegister (insn : Z)
| CannotWriteR10 (insn : Z)
| InvalidDestinationRegister (insn : Z)
| UnknownOpCode (opc insn : Z)
| ShiftWithOverflow (shift_by imm_bits insn : Z)
| InvalidRegister (insn : Z).
End VerifierError.
Notation VerifierError := VerifierError.t.

(** [EbpfError<E>]; the errors of a JIT compilation are left out. *)
Module EbpfError.
Inductive t (E : Type) : Type :=
| UserError (e : E)
| ElfError (e : ElfError)
| CallDepthExceeded (insn depth : Z)
| ExitRootCallFrame
| DivideByZero (insn : Z)
| DivideOverflow (insn : Z)
| ExecutionOverrun (insn : Z)
| CallOutsideTextSegment (insn addr : Z)
| ExceededMaxInstructions (insn count : Z)
| InvalidVirtualAddress (addr : Z)
| InvalidMemoryRegion (index : Z)
| AccessViolation (insn : Z) (a : AccessType) (addr len : Z) (region : string)
| StackAccessViolation (insn : Z) (a : AccessType) (addr len frame : Z)
| InvalidInstruction (insn : Z)
| UnsupportedInstruction (insn : Z)
| VerifierError (e : VerifierError).
Arguments UserError {E} e.
Arguments ElfError {E} e.
Arguments CallDepthExceeded {E} insn depth.
Arguments ExitRootCallFrame {E}.
Arguments DivideByZero {E} insn.
Arguments DivideOverflow {E} insn.
Arguments ExecutionOverrun {E} insn.
Arguments CallOutsideTextSegment {E} insn addr.
Arguments ExceededMaxInstructions {E} insn count.
Arguments InvalidVirtualAddress {E} addr.
Arguments InvalidMemoryRegion {E} index.
Arguments AccessViolation {E} insn a addr len region.
Arguments StackAccessViolation {E} insn a addr len frame.
Arguments InvalidInstruction {E} insn.
Arguments UnsupportedInstruction {E} insn.
Arguments VerifierError {E} e.
End EbpfError.
Notation EbpfError := EbpfError.t.

(** ** Shifts of machine integers *)
Definition checked_shr (a k : Z) : option Z := if k <? 64 then Some (Z.shiftr a k) else None.
(** [(a as i64).checked_shl(k)] *)
Definition checked_shl_i64 (a k : Z) : option Z := if k <? 64 then Some (as_i64 (Z.shiftl a k)) else None.
Definition leading_zeros (a : Z) : Z := if a =? 0 then 64 else 63 - Z.log2 a.
Definition saturating_sub_i64 (a b : Z) : Z := Z.max (- 2 ^ 63) (Z.min (2 ^ 63 - 1) (a - b)).
Definition saturating_add_i64 (a b : Z) : Z := Z.max (- 2 ^ 63) (Z.min (2 ^ 63 - 1) (a + b)).
(** [(a as i64).checked_div(b as i64)]; the quotient is rounded towards zero. *)
Definition checked_div_i64 (a b : Z) : option Z :=
  if (b =? 0) || ((a =? - 2 ^ 63) && (b =? -1)) then None else Some (Z.quot a b).

(** ** The memory of the host *)
Notation HostMemory := (gmap Z byte).

(** A slice of it, by its address and length. *)
Record HostSlice : Type := mkSlice { as_ptr : Z; slice_len : Z }.

Definition read_host (m : HostMemory) (a n : Z) : option (list byte) :=
  mapM (fun k => m !! (a + k)) (seqZ 0 n).
Fixpoint insert_bytes (a : Z) (l : list byte) (m : HostMemory) : HostMemory :=
  match l with
  | [] => m
  | b :: l => insert_bytes (a + 1) l (<[a := b]> m)
  end.
Definition write_host (m : HostMemory) (a : Z) (l : list byte) : option HostMemory :=
  if forallb (fun k => bool_decide (is_Some (m !! (a + k)))) (seqZ 0 (Z.of_nat (length l)))
  then Some (insert_bytes a l m) else None.

(** ** Regions *)
Record MemoryRegion : Type := mkMemoryRegion {
  host_addr : Z;
  vm_addr : Z;
  len : Z;
  vm_gap_shift : Z;
  is_writable : bool
}.

Module MemoryRegion.
Definition new (slice : HostSlice) (vm_addr vm_gap_size : Z) (is_writable : bool) : MemoryRegion :=
  let vm_gap_shift := 8 * 8 - 1 in
  let vm_gap_shift :=
    if vm_gap_size >? 0 then saturating_sub vm_gap_shift (as_u8 (leading_zeros vm_gap_size))
    else vm_gap_shift in
  mkMemoryRegion (as_ptr slice) vm_addr (slice_len slice) vm_gap_shift is_writable.

Definition new_readonly (slice : HostSlice) (vm_addr : Z) : MemoryRegion := new slice vm_addr 0 false.
Definition new_writable (slice : HostSlice) (vm_addr : Z) : MemoryRegion := new slice vm_addr 0 true.
Definition new_writable_gapped (slice : HostSlice) (vm_addr vm_gap_size : Z) : MemoryRegion :=
  new slice vm_addr vm_gap_size true.

Definition vm_to_host {E} (self : MemoryRegion) (addr n : Z) : result (EbpfError E) Z :=
  if addr <? vm_addr self then Err (EbpfError.InvalidVirtualAddress addr) else
  let begin_offset := saturating_sub addr (vm_addr self) in
  let is_in_gap := Z.land (default 0 (checked_shr begin_offset (vm_gap_shift self))) 1 =? 1 in
  let gap_mask := as_u64 (default 0 (checked_shl_i64 (-1) (vm_gap_shift self))) in
  let gapped_offset :=
    Z.lor (default 0 (checked_shr (Z.land begin_offset gap_mask) 1))
          (Z.land begin_offset (as_u64 (Z.lnot gap_mask))) in
  match checked_add gapped_offset n with
  | Some end_offset =>
      if (end_offset <=? len self) && negb is_in_gap
      then Ok (saturating_add (host_addr self) gapped_offset)
      else Err (EbpfError.InvalidVirtualAddress addr)
  | None => Err (EbpfError.InvalidVirtualAddress addr)
  end.
End MemoryRegion.

(** ** Mappings *)
Record MemoryMapping : Type := mkMemoryMapping {
  regions : list MemoryRegion;
  mapping_config : Config
}.

(** [regions.sort()]: stable, by virtual address. *)
Fixpoint insert_region (r : MemoryRegion) (l : list MemoryRegion) : list MemoryRegion :=
  match l with
  | [] => [r]
  | r' :: l' => if vm_addr r <=? vm_addr r' then r :: l else r' :: insert_region r l'
  end.
Definition sort_regions (l : list MemoryRegion) : list MemoryRegion := foldr insert_region [] l.

(** The first region that is not in the slot of its address. *)
Fixpoint misplaced_region (index : Z) (l : list MemoryRegion) : option Z :=
  match l with
  | [] => None
  | r :: l =>
      if default 0 (checked_shr (vm_addr r) VIRTUAL_ADDRESS_BITS) =? index
      then misplaced_region (index + 1) l else Some index
  end.

Module MemoryMapping.
Definition new {E} (regions : list MemoryRegion) (config : Config) : result (EbpfError E) MemoryMapping :=
  let regions := sort_regions regions in
  match misplaced_region 0 regions with
  | Some index => Err (EbpfError.InvalidMemoryRegion index)
  | None => Ok (mkMemoryMapping regions config)
  end.

Definition region_name (addr : Z) : string :=
  let base := Z.land addr (as_u64 (Z.lnot (saturating_sub MM_PROGRAM_START 1))) in
  if base =? MM_PROGRAM_START then "program"
  else if base =? MM_STACK_START then "stack"
  else if base =? MM_HEAP_START then "heap"
  else if base =? MM_INPUT_START then "input"
  else "unknown".

Definition generate_access_violation {E} (self : MemoryMapping) (access_type : AccessType) (addr n : Z)
    : EbpfError E :=
  let config := mapping_config self in
  let stack_frame :=
    default 0 (checked_div_i64 (saturating_sub_i64 (as_i64 addr) (as_i64 MM_STACK_START))
                 (as_i64 (stack_frame_size config))) in
  if negb (dynamic_stack_frames config) && (-1 <=? stack_frame)
     && (stack_frame <? saturating_add_i64 (as_i64 (max_call_depth config)) 1)
  then EbpfError.StackAccessViolation 0 access_type addr n stack_frame
  else EbpfError.AccessViolation 0 access_type addr n (region_name addr).

Definition map {E} (self : MemoryMapping) (access_type : AccessType) (addr n : Z) : result (EbpfError E) Z :=
  let index := default 0 (checked_shr addr VIRTUAL_ADDRESS_BITS) in
  let violation := Err (generate_access_violation self access_type addr n) in
  if (1 <=? index) && (index <? Z.of_nat (length (regions self))) then
    match regions self !! Z.to_nat index with
    | Some region =>
        if bool_decide (access_type = Load) || is_writable region then
          match MemoryRegion.vm_to_host (E:=E) region addr n with
          | Ok host => Ok host
          | _ => violation
          end
        else violation
    | None => Panic
    end
  else violation.

Definition replace_region {E} (self : MemoryMapping) (index : Z) (region : MemoryRegion)
    : result (EbpfError E) MemoryMapping :=
  if Z.of_nat (length (regions self)) <=? index then Err (EbpfError.InvalidMemoryRegion index) else
  let begin_index := default 0 (checked_shr (vm_addr region) VIRTUAL_ADDRESS_BITS) in
  let end_index :=
    default 0 (checked_shr (saturating_add (vm_addr region) (saturating_sub (len region) 1))
                 VIRTUAL_ADDRESS_BITS) in
  if negb (begin_index =? index) || negb (end_index =? index)
  then Err (EbpfError.InvalidMemoryRegion index)
  else Ok (mkMemoryMapping (<[Z.to_nat index := region]> (regions self)) (mapping_config self)).
End MemoryMapping.

(** ** Call frames *)
Record CallFrame : Type := mkCallFrame {
  frame_ptr : Z;
  saved_reg : list Z;
  return_ptr : Z
}.

Record CallFrames : Type := mkCallFrames {
  frames_config : Config;
  stack : HostSlice;
  stack_ptr : Z;
  frame_index : Z;
  frame_index_max : Z;
  frames : list CallFrame
}.

Module CallFrames.
(** [stack_host]: where the stack is allocated.  [None]: [frames[0]] is out of range. *)
Definition new (config : Config) (stack_host : Z) : option CallFrames :=
  let stack_len := stack_size config in
  let frames := replicate (Z.to_nat (max_call_depth config)) (mkCallFrame 0 [0; 0; 0; 0] 0) in
  frame ← frames !! 0%nat;
  let (fp, sp) :=
    if dynamic_stack_frames config then
      let fp := wrapping_add MM_STACK_START stack_len in (fp, fp)
    else (wrapping_add MM_STACK_START (stack_frame_size config), MM_STACK_START) in
  Some (mkCallFrames config (mkSlice stack_host stack_len) sp 0 0
          (<[0%nat := mkCallFrame fp (saved_reg frame) (return_ptr frame)]> frames)).

Definition get_memory_region (self : CallFrames) : MemoryRegion :=
  let config := frames_config self in
  MemoryRegion.new_writable_gapped (stack self) MM_STACK_START
    (if negb (dynamic_stack_frames config) && enable_stack_frame_gaps config
     then stack_frame_size config else 0).

Definition get_frame_ptr (self : CallFrames) : option Z :=
  frame_ptr <$> frames self !! Z.to_nat (frame_index self).

Definition push {E} (self : CallFrames) (regs : list Z) (ret : Z) : result (EbpfError E) (Z * CallFrames) :=
  let config := frames_config self in
  if Z.of_nat (length (frames self)) <=? wrapping_add (frame_index self) 1 then
    Err (EbpfError.CallDepthExceeded (wrapping_sub (wrapping_add ret ELF_INSN_DUMP_OFFSET) 1)
           (Z.of_nat (length (frames self))))
  else
  caller ← unwrap (frames self !! Z.to_nat (frame_index self));
  assert_ (length regs =? 4)%nat;;
  let saved := <[Z.to_nat (frame_index self) := mkCallFrame (frame_ptr caller) regs ret]> (frames self) in
  let index := wrapping_add (frame_index self) 1 in
  frame ← unwrap (saved !! Z.to_nat index);
  let (fp, sp) :=
    if dynamic_stack_frames config then (stack_ptr self, stack_ptr self)
    else
      let fp := wrapping_add (frame_ptr caller)
                  (wrapping_mul (stack_frame_size config) (if enable_stack_frame_gaps config then 2 else 1)) in
      (fp, wrapping_sub fp (stack_frame_size config)) in
  Ok (fp, mkCallFrames config (stack self) sp index (Z.max (frame_index_max self) index)
            (<[Z.to_nat index := mkCallFrame fp (saved_reg frame) (return_ptr frame)]> saved)).

Definition pop {E} (self : CallFrames) : result (EbpfError E) (list Z * Z * Z * CallFrames) :=
  if frame_index self =? 0 then Err EbpfError.ExitRootCallFrame else
  let index := wrapping_sub (frame_index self) 1 in
  frame ← unwrap (frames self !! Z.to_nat index);
  Ok (saved_reg frame, frame_ptr frame, return_ptr frame,
      mkCallFrames (frames_config self) (stack self) (stack_ptr self) index (frame_index_max self)
        (frames self)).

Definition resize_stack (self : CallFrames) (amount : Z) : CallFrames :=
  mkCallFrames (frames_config self) (stack self) (wrapping_add (stack_ptr self) (as_u64 amount))
    (frame_index self) (frame_index_max self) (frames self).
End CallFrames.
