(* ===== verification/EbpfVerifier.v ===== *)
(** * The verifier of eBPF programs

    [solana_rbpf-0.2.31/src/verifier.rs]: the checks on the text of a program before it may
    run, [RequisiteVerifier::verify] and its helpers.  The verifier never panics, and when it
    accepts a program every slot of the text is an instruction that passed its checks or the
    second half of a wide load. *)

From Stdlib Require Import Strings.Byte.
From S2P Require Import Prelude Ebpf EbpfMemory.

Definition adj_insn_ptr (insn_ptr : Z) : Z := wrapping_add insn_ptr ELF_INSN_DUMP_OFFSET.

Definition prog_len (prog : list byte) : Z := Z.of_nat (length prog).

Definition check_prog_len (prog : list byte) : result VerifierError unit :=
  ensure (prog_len prog mod INSN_SIZE =? 0) VerifierError.ProgramLengthNotMultiple;;
  ensure (negb (prog_len prog =? 0)) VerifierError.NoProgram.

Definition check_imm_nonzero (insn : Insn) (insn_ptr : Z) : result VerifierError unit :=
  ensure (negb (imm insn =? 0)) (VerifierError.DivisionByZero (adj_insn_ptr insn_ptr)).

Definition check_imm_endian (insn : Insn) (insn_ptr : Z) : result VerifierError unit :=
  ensure ((imm insn =? 16) || (imm insn =? 32) || (imm insn =? 64))
    (VerifierError.UnsupportedLEBEArgument (adj_insn_ptr insn_ptr)).

Definition check_load_dw (prog : list byte) (insn_ptr : Z) : result VerifierError unit :=
  ensure (negb (prog_len prog <=? wrapping_mul (wrapping_add insn_ptr 1) INSN_SIZE))
    VerifierError.LDDWCannotBeLast;;
  next_insn ← unwrap (get_insn prog (wrapping_add insn_ptr 1));
  ensure (opc next_insn =? 0) (VerifierError.IncompleteLDDW (adj_insn_ptr insn_ptr)).

Definition check_jmp_offset (prog : list byte) (insn_ptr : Z) : result VerifierError unit :=
  insn ← unwrap (get_insn prog insn_ptr);
  let dst_insn_ptr := as_i64 (insn_ptr + 1 + off insn) in
  let target := as_u64 dst_insn_ptr in
  ensure (negb ((dst_insn_ptr <? 0) || (prog_len prog <=? wrapping_mul target INSN_SIZE)))
    (VerifierError.JumpOutOfCode target (adj_insn_ptr insn_ptr));;
  dst_insn ← unwrap (get_insn prog target);
  ensure (negb (opc dst_insn =? 0)) (VerifierError.JumpToMiddleOfLDDW target (adj_insn_ptr insn_ptr)).

Definition check_registers (insn : Insn) (store : bool) (insn_ptr : Z) (enable_stack_ptr : bool)
    : result VerifierError unit :=
  ensure (negb (10 <? src insn)) (VerifierError.InvalidSourceRegister (adj_insn_ptr insn_ptr));;
  if (dst insn <=? 9) || ((dst insn =? 10) && store) then Ok tt
  else if (dst insn =? 11) && (enable_stack_ptr &&
            ((opc insn =? opc_value SUB64_IMM) || (opc insn =? opc_value ADD64_IMM))) then Ok tt
  else if dst insn =? 10 then Err (VerifierError.CannotWriteR10 (adj_insn_ptr insn_ptr))
  else Err (VerifierError.InvalidDestinationRegister (adj_insn_ptr insn_ptr)).

Definition check_imm_shift (insn : Insn) (insn_ptr imm_bits : Z) : result VerifierError unit :=
  let shift_by := as_u64 (imm insn) in
  ensure (negb ((imm insn <? 0) || (imm_bits <=? shift_by)))
    (VerifierError.ShiftWithOverflow shift_by imm_bits (adj_insn_ptr insn_ptr)).

Definition check_imm_register (insn : Insn) (insn_ptr : Z) (config : Config) : result VerifierError unit :=
  ensure (negb ((imm insn <? 0) || (10 <? imm insn) || ((imm insn =? 10) && reject_callx_r10 config)))
    (VerifierError.InvalidRegister (adj_insn_ptr insn_ptr)).

(** The [match] on the operation code: whether the instruction is a store, and where it is
    followed. *)
Definition check_opcode (prog : list byte) (config : Config) (insn : Insn) (insn_ptr : Z)
    : result VerifierError (bool * Z) :=
  let unknown := Err (VerifierError.UnknownOpCode (opc insn) (adj_insn_ptr insn_ptr)) in
  match opc_of (opc insn) with
  | Some (LD_ABS_B | LD_ABS_H | LD_ABS_W | LD_ABS_DW | LD_IND_B | LD_IND_H | LD_IND_W | LD_IND_DW) =>
      if disable_deprecated_load_instructions config then unknown else Ok (false, insn_ptr)
  | Some LD_DW_IMM => check_load_dw prog insn_ptr;; Ok (false, wrapping_add insn_ptr 1)
  | Some (LD_B_REG | LD_H_REG | LD_W_REG | LD_DW_REG) => Ok (false, insn_ptr)
  | Some (ST_B_IMM | ST_H_IMM | ST_W_IMM | ST_DW_IMM | ST_B_REG | ST_H_REG | ST_W_REG | ST_DW_REG) =>
      Ok (true, insn_ptr)
  | Some (ADD32_IMM | ADD32_REG | SUB32_IMM | SUB32_REG | MUL32_IMM | MUL32_REG | DIV32_REG
         | OR32_IMM | OR32_REG | AND32_IMM | AND32_REG | LSH32_REG | RSH32_REG | NEG32 | MOD32_REG
         | XOR32_IMM | XOR32_REG | MOV32_IMM | MOV32_REG | ARSH32_REG
         | ADD64_IMM | ADD64_REG | SUB64_IMM | SUB64_REG | MUL64_IMM | MUL64_REG | DIV64_REG
         | OR64_IMM | OR64_REG | AND64_IMM | AND64_REG | LSH64_REG | RSH64_REG | NEG64 | MOD64_REG
         | XOR64_IMM | XOR64_REG | MOV64_IMM | MOV64_REG | ARSH64_REG) => Ok (false, insn_ptr)
  | Some (DIV32_IMM | MOD32_IMM | DIV64_IMM | MOD64_IMM) =>
      check_imm_nonzero insn insn_ptr;; Ok (false, insn_ptr)
  | Some (SDIV32_IMM | SDIV64_IMM) =>
      if enable_sdiv config then check_imm_nonzero insn insn_ptr;; Ok (false, insn_ptr) else unknown
  | Some (SDIV32_REG | SDIV64_REG) => if enable_sdiv config then Ok (false, insn_ptr) else unknown
  | Some (LSH32_IMM | RSH32_IMM | ARSH32_IMM) => check_imm_shift insn insn_ptr 32;; Ok (false, insn_ptr)
  | Some (LSH64_IMM | RSH64_IMM | ARSH64_IMM) => check_imm_shift insn insn_ptr 64;; Ok (false, insn_ptr)
  | Some (LE | BE) => check_imm_endian insn insn_ptr;; Ok (false, insn_ptr)
  | Some (JA | JEQ_IMM | JEQ_REG | JGT_IMM | JGT_REG | JGE_IMM | JGE_REG | JLT_IMM | JLT_REG
         | JLE_IMM | JLE_REG | JSET_IMM | JSET_REG | JNE_IMM | JNE_REG | JSGT_IMM | JSGT_REG
         | JSGE_IMM | JSGE_REG | JSLT_IMM | JSLT_REG | JSLE_IMM | JSLE_REG) =>
      check_jmp_offset prog insn_ptr;; Ok (false, insn_ptr)
  | Some (CALL_IMM | EXIT) => Ok (false, insn_ptr)
  | Some CALL_REG => check_imm_register insn insn_ptr config;; Ok (false, insn_ptr)
  | Some (ST_W_XADD | ST_DW_XADD) | None => unknown
  end.

(** One round of the loop. *)
Definition check_insn (prog : list byte) (config : Config) (insn_ptr : Z) : result VerifierError Z :=
  insn ← unwrap (get_insn prog insn_ptr);
  '(store, insn_ptr) ← check_opcode prog config insn insn_ptr;
  check_registers insn store insn_ptr (dynamic_stack_frames config);;
  Ok (wrapping_add insn_ptr 1).

(** The loop; every round moves on, so the number of instructions bounds them. *)
Fixpoint verify_loop (fuel : nat) (prog : list byte) (config : Config) (insn_ptr : Z)
    : result VerifierError Z :=
  if wrapping_mul (wrapping_add insn_ptr 1) INSN_SIZE <=? prog_len prog then
    match fuel with
    | O => Panic
    | S fuel => insn_ptr ← check_insn prog config insn_ptr; verify_loop fuel prog config insn_ptr
    end
  else Ok insn_ptr.

Definition verify (prog : list byte) (config : Config) : result VerifierError unit :=
  check_prog_len prog;;
  insn_ptr ← verify_loop (length prog / 8) prog config 0;
  ensure (insn_ptr =? prog_len prog / INSN_SIZE)
    (VerifierError.JumpOutOfCode (adj_insn_ptr insn_ptr) (adj_insn_ptr insn_ptr)).

(** A text that fits in memory, in whole instructions. *)
Record text_wf (prog : list byte) : Prop := {
  tw_len : prog_len prog <= 2 ^ 63 - 1;
  tw_whole : prog_len prog mod INSN_SIZE = 0
}.

Definition insn_count (prog : list byte) : Z := prog_len prog / INSN_SIZE.

(** The instruction at [pc] passed the checks. *)
Definition checked (prog : list byte) (config : Config) (pc : Z) : Prop :=
  exists next, check_insn prog config pc = Ok next.

(** The slot at [pc] is no instruction. *)
Definition hole (prog : list byte) (pc : Z) : Prop :=
  exists insn, get_insn prog pc = Some insn /\ opc insn = 0.

Section facts.
Variables (prog : list byte) (config : Config).
Hypothesis Hwf : text_wf prog.

Lemma text_length : prog_len prog = INSN_SIZE * insn_count prog /\ 0 <= insn_count prog < 2 ^ 60.
Proof.
  destruct Hwf as [Hl Hm]. unfold insn_count, INSN_SIZE in *. pose proof (Nat2Z.is_nonneg (length prog)) as Hn.
  fold (prog_len prog) in Hn. pose proof (Z.div_mod (prog_len prog) 8 ltac:(lia)). lia.
Qed.

Lemma text_u64 : is_u64 (Z.of_nat (length prog)).
Proof. pose proof (tw_len _ Hwf). unfold prog_len, is_u64, U64_MAX in *. lia. Qed.

(** In range, the arithmetic on instruction pointers does not wrap. *)
Lemma slot_small pc : 0 <= pc < 2 ^ 61 -> wrapping_mul pc INSN_SIZE = pc * INSN_SIZE.
Proof. intros. apply wrap64_small. unfold is_u64, U64_MAX, INSN_SIZE. lia. Qed.
Lemma next_small pc : 0 <= pc < 2 ^ 61 -> wrapping_add pc 1 = pc + 1.
Proof. intros. apply wrap64_small. unfold is_u64, U64_MAX. lia. Qed.

Lemma insn_at pc :
  0 <= pc < insn_count prog -> exists insn, get_insn prog pc = Some insn /\ insn_wf insn /\ ptr insn = pc.
Proof.
  intros Hpc. destruct text_length as [Hl Hn]. unfold prog_len in Hl.
  destruct (get_insn_in prog pc) as (i & Hi & Hw & Hp & _); [lia|unfold INSN_SIZE in *; lia|apply text_u64|].
  eauto.
Qed.

Lemma check_load_dw_ok pc u :
  0 <= pc < insn_count prog -> check_load_dw prog pc = Ok u -> pc + 1 < insn_count prog /\ hole prog (pc + 1).
Proof.
  intros Hpc Hc. unfold check_load_dw in Hc. inv_ok. destruct text_length as [Hl Hn].
  rewrite next_small, slot_small in * by lia. rewrite negb_true_iff, Z.leb_gt in *. unfold INSN_SIZE in *.
  split; [lia|]. eexists. split; [done|]. by apply Z.eqb_eq.
Qed.

Lemma check_jmp_offset_ok pc insn u :
  0 <= pc < insn_count prog -> get_insn prog pc = Some insn -> insn_wf insn ->
  check_jmp_offset prog pc = Ok u -> 0 <= pc + 1 + off insn < insn_count prog.
Proof.
  intros Hpc Hi Hw Hc. unfold check_jmp_offset in Hc. rewrite Hi in Hc. cbn [unwrap mbind result_bind] in Hc.
  destruct text_length as [Hl Hn]. pose proof (iw_off _ Hw) as Ho.
  assert (as_i64 (pc + 1 + off insn) = pc + 1 + off insn) as E by (apply signed_small; [done|change (64 - 1) with 63; lia]).
  rewrite E in Hc. apply result_bind_ok in Hc as ([] & Hc & _).
  apply ensure_ok, negb_true_iff, orb_false_iff in Hc as [H0%Z.ltb_ge H1%Z.leb_gt].
  rewrite unsigned_small in H1 by lia. rewrite slot_small in H1 by lia. unfold INSN_SIZE in *. lia.
Qed.

Lemma check_jmp_offset_total pc : 0 <= pc < insn_count prog -> check_jmp_offset prog pc <> Panic.
Proof.
  intros Hpc. destruct (insn_at pc Hpc) as (insn & Hi & Hw & _). destruct text_length as [Hl Hn].
  pose proof (iw_off _ Hw) as Ho. unfold check_jmp_offset. rewrite Hi. cbn [unwrap mbind result_bind].
  assert (as_i64 (pc + 1 + off insn) = pc + 1 + off insn) as -> by (apply signed_small; [done|change (64 - 1) with 63; lia]).
  unfold ensure at 1. destruct (negb _) eqn:Eb; [|done].
  apply negb_true_iff, orb_false_iff in Eb as [H0%Z.ltb_ge H1%Z.leb_gt].
  rewrite unsigned_small in * by lia. rewrite slot_small in H1 by lia. cbn [mbind result_bind].
  destruct (insn_at (pc + 1 + off insn)) as (t & -> & _); [unfold INSN_SIZE in *; lia|].
  cbn [unwrap mbind result_bind]. unfold ensure. by destruct (negb _).
Qed.

Lemma check_load_dw_total pc : 0 <= pc < insn_count prog -> check_load_dw prog pc <> Panic.
Proof.
  intros Hpc. destruct text_length as [Hl Hn]. unfold check_load_dw, ensure at 1.
  destruct (negb _) eqn:Eb; [|done]. rewrite next_small, slot_small in * by lia.
  apply negb_true_iff, Z.leb_gt in Eb. cbn [mbind result_bind].
  destruct (insn_at (pc + 1)) as (t & -> & _); [unfold INSN_SIZE in *; lia|].
  cbn [unwrap mbind result_bind]. unfold ensure. by destruct (_ =? 0).
Qed.

(** Only a wide load moves on by two slots. *)
Lemma check_opcode_next insn pc store next :
  0 <= pc < insn_count prog -> check_opcode prog config insn pc = Ok (store, next) ->
  next = pc \/ next = pc + 1 /\ pc + 1 < insn_count prog /\ hole prog (pc + 1).
Proof.
  intros Hpc Hc. destruct text_length as [_ Hn]. unfold check_opcode in Hc.
  destruct (opc_of (opc insn)) as [[]|] eqn:Eo;
    try (repeat match type of Hc with context [if ?b then _ else _] => destruct b end; inv_ok; left; congruence).
  apply result_bind_ok in Hc as (u & Hd & [= _ <-]). right. rewrite next_small by lia.
  split; [done|]. by apply check_load_dw_ok in Hd.
Qed.

Lemma check_opcode_total insn pc : 0 <= pc < insn_count prog -> check_opcode prog config insn pc <> Panic.
Proof.
  intros Hpc. pose proof (check_load_dw_total pc Hpc) as Hd. pose proof (check_jmp_offset_total pc Hpc) as Hj.
  unfold check_opcode. destruct (opc_of (opc insn)) as [[]|]; try done;
    unfold check_imm_nonzero, check_imm_shift, check_imm_endian, check_imm_register, ensure;
    repeat match goal with |- context [if ?b then _ else _] => destruct b end; try done;
    try (by destruct (check_jmp_offset prog pc)); by destruct (check_load_dw prog pc).
Qed.

Lemma check_insn_next pc next :
  0 <= pc < insn_count prog -> check_insn prog config pc = Ok next ->
  next = pc + 1 \/ next = pc + 2 /\ pc + 1 < insn_count prog /\ hole prog (pc + 1).
Proof.
  intros Hpc Hc. destruct text_length as [_ Hn]. unfold check_insn in Hc.
  apply result_bind_ok in Hc as (insn & _ & Hc). apply result_bind_ok in Hc as ([store next'] & Ho & Hc).
  apply result_bind_ok in Hc as ([] & _ & [= <-]).
  destruct (check_opcode_next _ _ _ _ Hpc Ho) as [->|(-> & Hl & Hh)]; [left|right]; rewrite next_small by lia.
  - done.
  - split; [lia|done].
Qed.

Lemma check_insn_total pc : 0 <= pc < insn_count prog -> check_insn prog config pc <> Panic.
Proof.
  intros Hpc. unfold check_insn. destruct (insn_at pc Hpc) as (insn & -> & _).
  cbn [unwrap mbind result_bind]. pose proof (check_opcode_total insn pc Hpc) as Ho.
  destruct (check_opcode prog config insn pc) as [[store next]| |]; [|done..]. cbn [mbind result_bind].
  unfold check_registers, ensure. repeat match goal with |- context [if ?b then _ else _] => destruct b end; done.
Qed.

(** The loop covers the text. *)
Lemma verify_loop_covers fuel ip last :
  0 <= ip <= insn_count prog -> verify_loop fuel prog config ip = Ok last ->
  forall pc, ip <= pc < insn_count prog -> checked prog config pc \/ hole prog pc.
Proof.
  revert ip. induction fuel as [|fuel IH]; intros ip Hip Hv pc Hpc; destruct text_length as [Hl Hn];
    cbn [verify_loop] in Hv; rewrite next_small, slot_small in Hv by lia;
    destruct (Z.leb_spec ((ip + 1) * INSN_SIZE) (prog_len prog)) as [Hle|Hgt]; try (unfold INSN_SIZE in *; lia).
  - done.
  - apply result_bind_ok in Hv as (next & Hc & Hv).
    destruct (Z.eq_dec pc ip) as [->|Hne]; [left; by exists next|].
    destruct (check_insn_next ip next ltac:(lia) Hc) as [->|(-> & Hlt & Hh)].
    + apply (IH (ip + 1)); [lia|done|lia].
    + destruct (Z.eq_dec pc (ip + 1)) as [->|Hne']; [by right|]. apply (IH (ip + 2)); [lia|done|lia].
Qed.

Lemma verify_loop_total fuel ip :
  0 <= ip <= insn_count prog -> insn_count prog - ip <= Z.of_nat fuel ->
  verify_loop fuel prog config ip <> Panic.
Proof.
  revert ip. induction fuel as [|fuel IH]; intros ip Hip Hf; destruct text_length as [Hl Hn];
    cbn [verify_loop]; rewrite next_small, slot_small by lia;
    destruct (Z.leb_spec ((ip + 1) * INSN_SIZE) (prog_len prog)) as [Hle|Hgt]; try done;
    [unfold INSN_SIZE in *; lia|].
  assert (0 <= ip < insn_count prog) as Hlt by (unfold INSN_SIZE in *; lia).
  pose proof (check_insn_total ip Hlt) as Ht. destruct (check_insn prog config ip) as [next| |] eqn:Hc; [|done..].
  cbn [mbind result_bind]. destruct (check_insn_next ip next Hlt Hc) as [->|(-> & Hlt' & _)]; apply IH; lia.
Qed.
End facts.

(** Every slot of an accepted text is a checked instruction or a hole. *)
Lemma verify_covers prog config u :
  prog_len prog <= 2 ^ 63 - 1 -> verify prog config = Ok u ->
  text_wf prog /\ forall pc, 0 <= pc < insn_count prog -> checked prog config pc \/ hole prog pc.
Proof.
  intros Hlen Hv. unfold verify in Hv. apply result_bind_ok in Hv as ([] & Hp & Hv).
  apply result_bind_ok in Hv as (last & Hloop & _).
  assert (text_wf prog) as Hwf.
  { split; [done|]. unfold check_prog_len in Hp. apply result_bind_ok in Hp as ([] & Hp & _).
    by apply ensure_ok, Z.eqb_eq in Hp. }
  split; [done|]. destruct (text_length prog Hwf) as [_ Hn]. eapply verify_loop_covers; [done| |exact Hloop]. lia.
Qed.

(** The verifier returns on every text: no index is out of range, and its loop ends. *)
Lemma verify_total prog config : prog_len prog <= 2 ^ 63 - 1 -> verify prog config <> Panic.
Proof.
  intros Hlen. unfold verify. destruct (check_prog_len prog) as [[]| |] eqn:Hp; cbn [mbind result_bind]; [|done|].
  - assert (text_wf prog) as Hwf.
    { split; [done|]. unfold check_prog_len in Hp. apply result_bind_ok in Hp as ([] & Hp & _).
      by apply ensure_ok, Z.eqb_eq in Hp. }
    destruct (text_length prog Hwf) as [Hl Hn].
    pose proof (verify_loop_total prog config Hwf (length prog / 8) 0 ltac:(lia)) as Ht.
    destruct (verify_loop _ _ _ _) as [ip| |]; [|done|].
    + cbn. unfold ensure. by destruct (_ =? _).
    + exfalso. apply Ht; [|done]. rewrite Nat2Z.inj_div. unfold insn_count, prog_len, INSN_SIZE. lia.
  - exfalso. revert Hp. unfold check_prog_len, ensure. by repeat destruct (_ : bool).
Qed.
