(* ===== verification/EbpfInterpreter.v ===== *)
(** * The interpreter

    [solana_rbpf-0.2.31/src/interpreter.rs], what it uses of an executable ([elf.rs]), and
    the virtual machine around it ([vm.rs]).  An instruction is a computation over the state
    of the interpreter that may return an error; the state it reached is kept.  A panic is
    an index out of range, a division by zero or an access to memory the host does not have.

    A system call is a function of the five argument registers, the memory and the
    instruction meter.  The meter is the number of instructions left; [consume] subtracts
    from it, down to zero.  The machine is little-endian. *)

From Stdlib Require Import Strings.Byte.
From S2P Require Import Prelude Ebpf EbpfMemory EbpfVerifier.

Section interpreter.
Context {E : Type}.

(** ** Executables *)

(** [AlignedMemory], [Vec<u8>]: bytes and where they are. *)
Record HostBytes : Type := mkHostBytes { bytes_ptr : Z; bytes : list byte }.

Inductive Section_ : Type :=
| Owned (offset : Z) (data : HostBytes)
| Borrowed (offset start end_ : Z).

Record SectionInfo : Type := mkSectionInfo {
  section_name : string;
  vaddr : Z;
  offset_start : Z;
  offset_end : Z
}.

Definition SyscallFunction : Type :=
  list Z -> MemoryMapping -> HostMemory -> Z -> result (EbpfError E) Z * (MemoryMapping * HostMemory * Z).

Record Executable : Type := mkExecutable {
  config : Config;
  elf_bytes : HostBytes;
  ro_section : Section_;
  text_section_info : SectionInfo;
  bpf_functions : gmap Z (Z * string);
  syscall_registry : gmap Z SyscallFunction
}.

(** [hash_symbol_name] hashes with the crate [hash32]. *)
Variable hash_symbol_name : list byte -> Z.
(** The name of the symbol at an offset of an ELF file, read by the crate [goblin]. *)
Variable symbol_at : list byte -> Z -> ElfError + string.

Definition entrypoint_name : list byte := [x65; x6e; x74; x72; x79; x70; x6f; x69; x6e; x74].

Definition ro_bytes (self : Executable) : option (Z * HostBytes) :=
  match ro_section self with
  | Owned offset data => Some (offset, data)
  | Borrowed offset start end_ =>
      let b := elf_bytes self in
      l ← (if start <=? end_ then slice_at (bytes b) start (end_ - start) else None);
      Some (offset, mkHostBytes (bytes_ptr b + start) l)
  end.

Definition get_text_bytes (self : Executable) : option (Z * list byte) :=
  '(ro_offset, ro) ← ro_bytes self;
  let info := text_section_info self in
  let offset := saturating_sub (saturating_sub (vaddr info) MM_PROGRAM_START) ro_offset in
  text ← slice_at (bytes ro) offset (saturating_sub (offset_end info) (offset_start info));
  Some (vaddr info, text).

Definition get_ro_region (self : Executable) : option MemoryRegion :=
  '(offset, ro_data) ← ro_bytes self;
  Some (MemoryRegion.new_readonly (mkSlice (bytes_ptr ro_data) (Z.of_nat (length (bytes ro_data))))
          (saturating_add MM_PROGRAM_START offset)).

Definition lookup_bpf_function (self : Executable) (hash : Z) : option Z :=
  fst <$> bpf_functions self !! hash.

Definition get_entrypoint_instruction_offset (self : Executable) : result (EbpfError E) Z :=
  ok_or (lookup_bpf_function self (hash_symbol_name entrypoint_name))
    (EbpfError.ElfError ElfError.InvalidEntrypoint).

Definition report_unresolved_symbol (self : Executable) (insn_offset : Z) : EbpfError E :=
  let file_offset :=
    saturating_add (Z.min U64_MAX (insn_offset * INSN_SIZE)) (offset_start (text_section_info self)) in
  match symbol_at (bytes (elf_bytes self)) file_offset with
  | inr name =>
      EbpfError.ElfError (ElfError.UnresolvedSymbol name
        (default ELF_INSN_DUMP_OFFSET (checked_add (file_offset / INSN_SIZE) ELF_INSN_DUMP_OFFSET)) file_offset)
  | inl e => EbpfError.ElfError e
  end.

(** [Executable::new_from_text_bytes], the text copied to [host]. *)
Definition new_from_text_bytes (config : Config) (host : Z) (text_bytes : list byte)
    (syscall_registry : gmap Z SyscallFunction) (bpf_functions : gmap Z (Z * string)) : Executable :=
  let n := Z.of_nat (length text_bytes) in
  mkExecutable config (mkHostBytes host text_bytes) (Borrowed 0 0 n)
    (mkSectionInfo (if enable_symbol_and_section_labels config then ".text" else "") MM_PROGRAM_START 0 n)
    bpf_functions syscall_registry.

(** ** State *)
Record Interpreter : Type := mkInterpreter {
  memory_mapping : MemoryMapping;
  host : HostMemory;
  call_frames : CallFrames;
  tracer : list (list Z);
  instruction_meter : Z;
  initial_insn_count : Z;
  remaining_insn_count : Z;
  due_insn_count : Z;
  reg : list Z;
  pc : Z
}.

Definition with_memory (m : MemoryMapping) (h : HostMemory) (s : Interpreter) : Interpreter :=
  mkInterpreter m h (call_frames s) (tracer s) (instruction_meter s) (initial_insn_count s)
    (remaining_insn_count s) (due_insn_count s) (reg s) (pc s).
Definition with_frames (f : CallFrames) (s : Interpreter) : Interpreter :=
  mkInterpreter (memory_mapping s) (host s) f (tracer s) (instruction_meter s) (initial_insn_count s)
    (remaining_insn_count s) (due_insn_count s) (reg s) (pc s).
Definition with_trace (t : list (list Z)) (s : Interpreter) : Interpreter :=
  mkInterpreter (memory_mapping s) (host s) (call_frames s) t (instruction_meter s) (initial_insn_count s)
    (remaining_insn_count s) (due_insn_count s) (reg s) (pc s).
Definition with_meter (meter remaining due : Z) (s : Interpreter) : Interpreter :=
  mkInterpreter (memory_mapping s) (host s) (call_frames s) (tracer s) meter (initial_insn_count s)
    remaining due (reg s) (pc s).
Definition with_reg (r : list Z) (s : Interpreter) : Interpreter :=
  mkInterpreter (memory_mapping s) (host s) (call_frames s) (tracer s) (instruction_meter s)
    (initial_insn_count s) (remaining_insn_count s) (due_insn_count s) r (pc s).
Definition with_pc (p : Z) (s : Interpreter) : Interpreter :=
  mkInterpreter (memory_mapping s) (host s) (call_frames s) (tracer s) (instruction_meter s)
    (initial_insn_count s) (remaining_insn_count s) (due_insn_count s) (reg s) p.

Definition VmM (A : Type) : Type := Interpreter -> result (EbpfError E) A * Interpreter.

#[global] Instance VmM_ret : MRet VmM := fun A a s => (Ok a, s).
#[global] Instance VmM_bind : MBind VmM := fun A B f m s =>
  match m s with
  | (Ok a, s) => f a s
  | (Err e, s) => (Err e, s)
  | (Panic, s) => (Panic, s)
  end.

Definition vm_get {A} (f : Interpreter -> A) : VmM A := fun s => (Ok (f s), s).
Definition vm_modify (f : Interpreter -> Interpreter) : VmM unit := fun s => (Ok tt, f s).
Definition vm_lift {A} (r : result (EbpfError E) A) : VmM A := fun s => (r, s).
Definition vm_throw {A} (e : EbpfError E) : VmM A := vm_lift (Err e).

(** [reg[i]] *)
Definition get_reg (i : Z) : VmM Z :=
  r ← vm_get reg; vm_lift (unwrap (if i <? Z.of_nat (length r) then r !! Z.to_nat i else None)).
Definition set_reg (i v : Z) : VmM unit :=
  get_reg i;; vm_modify (fun s => with_reg (<[Z.to_nat i := v]> (reg s)) s).

(** ** Memory accesses *)

(** [translate_memory_access!] *)
Definition translate_memory_access (a : AccessType) (at_pc addr n : Z) : VmM Z :=
  m ← vm_get memory_mapping;
  match MemoryMapping.map (E:=E) m a addr n with
  | Ok host_addr => mret host_addr
  | Err (EbpfError.AccessViolation _ access_type addr n region) =>
      vm_throw (EbpfError.AccessViolation (wrapping_add at_pc ELF_INSN_DUMP_OFFSET) access_type addr n region)
  | Err (EbpfError.StackAccessViolation _ access_type addr n stack_frame) =>
      vm_throw (EbpfError.StackAccessViolation (wrapping_add at_pc ELF_INSN_DUMP_OFFSET) access_type addr n
                  stack_frame)
  | _ => vm_lift Panic
  end.

(** [*host_ptr], of [n] bytes *)
Definition load (n at_pc addr : Z) : VmM Z :=
  p ← translate_memory_access Load at_pc addr n;
  h ← vm_get host;
  l ← vm_lift (unwrap (read_host h p n));
  mret (from_le_bytes l).

Definition store (n at_pc addr v : Z) : VmM unit :=
  p ← translate_memory_access Store at_pc addr n;
  h ← vm_get host;
  h ← vm_lift (unwrap (write_host h p (to_le_bytes (Z.to_nat n) v)));
  vm_modify (fun s => with_memory (memory_mapping s) h s).

(** ** Arithmetic *)
Definition wrapping_shl (w a k : Z) : Z := unsigned w (Z.shiftl a (k mod w)).
Definition wrapping_shr (w a k : Z) : Z := Z.shiftr a (k mod w).
Definition swap_bytes (n : nat) (a : Z) : Z := from_le_bytes (rev (to_le_bytes n a)).

(** Division and remainder panic on zero, signed division also on overflow. *)
Definition div_u (a b : Z) : result (EbpfError E) Z := if b =? 0 then Panic else Ok (a / b).
Definition rem_u (a b : Z) : result (EbpfError E) Z := if b =? 0 then Panic else Ok (a mod b).
Definition div_s (w a b : Z) : result (EbpfError E) Z :=
  if (b =? 0) || ((a =? - 2 ^ (w - 1)) && (b =? -1)) then Panic else Ok (Z.quot a b).

Section insn.
Variables (exe : Executable) (program_vm_addr : Z) (program : list byte).
Variables (insn : Insn) (at_pc : Z).

(** Operations on [reg[dst]], with an immediate or [reg[src]]. *)
Definition imm_op (f : Z -> result (EbpfError E) Z) : VmM unit :=
  d ← get_reg (dst insn); v ← vm_lift (f d); set_reg (dst insn) v.
Definition reg_op (f : Z -> Z -> result (EbpfError E) Z) : VmM unit :=
  d ← get_reg (dst insn); s ← get_reg (src insn); v ← vm_lift (f d s); set_reg (dst insn) v.

Definition here : Z := wrapping_add at_pc ELF_INSN_DUMP_OFFSET.
Let i : Z := imm insn.

(** The BPF_ALU class. *)
Definition alu32 (o : Opc) : VmM unit :=
  match o with
  | ADD32_IMM => imm_op (fun d => Ok (as_u64 (as_i32 (as_i32 d + as_i32 i))))
  | ADD32_REG => reg_op (fun d s => Ok (as_u64 (as_i32 (as_i32 d + as_i32 s))))
  | SUB32_IMM => imm_op (fun d => Ok (as_u64 (as_i32 (as_i32 d - as_i32 i))))
  | SUB32_REG => reg_op (fun d s => Ok (as_u64 (as_i32 (as_i32 d - as_i32 s))))
  | MUL32_IMM => imm_op (fun d => Ok (as_u64 (as_i32 (as_i32 d * as_i32 i))))
  | MUL32_REG => reg_op (fun d s => Ok (as_u64 (as_i32 (as_i32 d * as_i32 s))))
  | DIV32_IMM => imm_op (fun d => div_u (as_u32 d) (as_u32 i))
  | DIV32_REG => reg_op (fun d s =>
      if as_u32 s =? 0 then Err (EbpfError.DivideByZero here) else div_u (as_u32 d) (as_u32 s))
  | SDIV32_IMM => imm_op (fun d =>
      if (as_i32 d =? - 2 ^ 31) && (i =? -1) then Err (EbpfError.DivideOverflow here)
      else as_u64 <$> div_s 32 (as_i32 d) (as_i32 i))
  | SDIV32_REG => reg_op (fun d s =>
      if as_i32 s =? 0 then Err (EbpfError.DivideByZero here)
      else if (as_i32 d =? - 2 ^ 31) && (as_i32 s =? -1) then Err (EbpfError.DivideOverflow here)
      else as_u64 <$> div_s 32 (as_i32 d) (as_i32 s))
  | OR32_IMM => imm_op (fun d => Ok (Z.lor (as_u32 d) (as_u32 i)))
  | OR32_REG => reg_op (fun d s => Ok (Z.lor (as_u32 d) (as_u32 s)))
  | AND32_IMM => imm_op (fun d => Ok (Z.land (as_u32 d) (as_u32 i)))
  | AND32_REG => reg_op (fun d s => Ok (Z.land (as_u32 d) (as_u32 s)))
  | LSH32_IMM => imm_op (fun d => Ok (wrapping_shl 32 (as_u32 d) (as_u32 i)))
  | LSH32_REG => reg_op (fun d s => Ok (wrapping_shl 32 (as_u32 d) (as_u32 s)))
  | RSH32_IMM => imm_op (fun d => Ok (wrapping_shr 32 (as_u32 d) (as_u32 i)))
  | RSH32_REG => reg_op (fun d s => Ok (wrapping_shr 32 (as_u32 d) (as_u32 s)))
  | NEG32 => imm_op (fun d => Ok (Z.land (as_u64 (as_i32 (- as_i32 d))) 0xffffffff))
  | MOD32_IMM => imm_op (fun d => rem_u (as_u32 d) (as_u32 i))
  | MOD32_REG => reg_op (fun d s =>
      if as_u32 s =? 0 then Err (EbpfError.DivideByZero here) else rem_u (as_u32 d) (as_u32 s))
  | XOR32_IMM => imm_op (fun d => Ok (Z.lxor (as_u32 d) (as_u32 i)))
  | XOR32_REG => reg_op (fun d s => Ok (Z.lxor (as_u32 d) (as_u32 s)))
  | MOV32_IMM => set_reg (dst insn) (as_u32 i)
  | MOV32_REG => s ← get_reg (src insn); set_reg (dst insn) (as_u32 s)
  | ARSH32_IMM => imm_op (fun d => Ok (Z.land (as_u64 (wrapping_shr 32 (as_i32 d) (as_u32 i))) 0xffffffff))
  | ARSH32_REG => reg_op (fun d s => Ok (Z.land (as_u64 (wrapping_shr 32 (as_i32 d) (as_u32 s))) 0xffffffff))
  | LE => imm_op (fun d =>
      if i =? 16 then Ok (as_u16 d) else if i =? 32 then Ok (as_u32 d) else if i =? 64 then Ok d
      else Err (EbpfError.InvalidInstruction here))
  | BE => imm_op (fun d =>
      if i =? 16 then Ok (swap_bytes 2 (as_u16 d)) else if i =? 32 then Ok (swap_bytes 4 (as_u32 d))
      else if i =? 64 then Ok (swap_bytes 8 d) else Err (EbpfError.InvalidInstruction here))
  | _ => mret tt
  end.

(** The BPF_ALU64 class. *)
Definition alu64 (o : Opc) : VmM unit :=
  match o with
  | ADD64_IMM => imm_op (fun d => Ok (wrapping_add d (as_u64 i)))
  | ADD64_REG => reg_op (fun d s => Ok (wrapping_add d s))
  | SUB64_IMM => imm_op (fun d => Ok (wrapping_sub d (as_u64 i)))
  | SUB64_REG => reg_op (fun d s => Ok (wrapping_sub d s))
  | MUL64_IMM => imm_op (fun d => Ok (wrapping_mul d (as_u64 i)))
  | MUL64_REG => reg_op (fun d s => Ok (wrapping_mul d s))
  | DIV64_IMM => imm_op (fun d => div_u d (as_u64 i))
  | DIV64_REG => reg_op (fun d s => if s =? 0 then Err (EbpfError.DivideByZero here) else div_u d s)
  | SDIV64_IMM => imm_op (fun d =>
      if (as_i64 d =? - 2 ^ 63) && (i =? -1) then Err (EbpfError.DivideOverflow here)
      else as_u64 <$> div_s 64 (as_i64 d) i)
  | SDIV64_REG => reg_op (fun d s =>
      if s =? 0 then Err (EbpfError.DivideByZero here)
      else if (as_i64 d =? - 2 ^ 63) && (as_i64 s =? -1) then Err (EbpfError.DivideOverflow here)
      else as_u64 <$> div_s 64 (as_i64 d) (as_i64 s))
  | OR64_IMM => imm_op (fun d => Ok (Z.lor d (as_u64 i)))
  | OR64_REG => reg_op (fun d s => Ok (Z.lor d s))
  | AND64_IMM => imm_op (fun d => Ok (Z.land d (as_u64 i)))
  | AND64_REG => reg_op (fun d s => Ok (Z.land d s))
  | LSH64_IMM => imm_op (fun d => Ok (wrapping_shl 64 d (as_u32 i)))
  | LSH64_REG => reg_op (fun d s => Ok (wrapping_shl 64 d (as_u32 s)))
  | RSH64_IMM => imm_op (fun d => Ok (wrapping_shr 64 d (as_u32 i)))
  | RSH64_REG => reg_op (fun d s => Ok (wrapping_shr 64 d (as_u32 s)))
  | NEG64 => imm_op (fun d => Ok (as_u64 (as_i64 (- as_i64 d))))
  | MOD64_IMM => imm_op (fun d => rem_u d (as_u64 i))
  | MOD64_REG => reg_op (fun d s => if s =? 0 then Err (EbpfError.DivideByZero here) else rem_u d s)
  | XOR64_IMM => imm_op (fun d => Ok (Z.lxor d (as_u64 i)))
  | XOR64_REG => reg_op (fun d s => Ok (Z.lxor d s))
  | MOV64_IMM => set_reg (dst insn) (as_u64 i)
  | MOV64_REG => s ← get_reg (src insn); set_reg (dst insn) s
  | ARSH64_IMM => imm_op (fun d => Ok (as_u64 (wrapping_shr 64 (as_i64 d) (as_u32 i))))
  | ARSH64_REG => reg_op (fun d s => Ok (as_u64 (wrapping_shr 64 (as_i64 d) (as_u32 s))))
  | _ => mret tt
  end.

(** The BPF_JMP class; [pc] is already past the instruction. *)
Definition jump : VmM unit := vm_modify (fun s => with_pc (wrap64 (pc s + off insn)) s).
Definition jump_imm (f : Z -> bool) : VmM unit := d ← get_reg (dst insn); if f d then jump else mret tt.
Definition jump_reg (f : Z -> Z -> bool) : VmM unit :=
  d ← get_reg (dst insn); s ← get_reg (src insn); if f d s then jump else mret tt.

Definition jmp (o : Opc) : VmM unit :=
  match o with
  | JA => jump
  | JEQ_IMM => jump_imm (fun d => d =? as_u64 i)
  | JEQ_REG => jump_reg (fun d s => d =? s)
  | JGT_IMM => jump_imm (fun d => d >? as_u64 i)
  | JGT_REG => jump_reg (fun d s => d >? s)
  | JGE_IMM => jump_imm (fun d => d >=? as_u64 i)
  | JGE_REG => jump_reg (fun d s => d >=? s)
  | JLT_IMM => jump_imm (fun d => d <? as_u64 i)
  | JLT_REG => jump_reg (fun d s => d <? s)
  | JLE_IMM => jump_imm (fun d => d <=? as_u64 i)
  | JLE_REG => jump_reg (fun d s => d <=? s)
  | JSET_IMM => jump_imm (fun d => negb (Z.land d (as_u64 i) =? 0))
  | JSET_REG => jump_reg (fun d s => negb (Z.land d s =? 0))
  | JNE_IMM => jump_imm (fun d => negb (d =? as_u64 i))
  | JNE_REG => jump_reg (fun d s => negb (d =? s))
  | JSGT_IMM => jump_imm (fun d => as_i64 d >? i)
  | JSGT_REG => jump_reg (fun d s => as_i64 d >? as_i64 s)
  | JSGE_IMM => jump_imm (fun d => as_i64 d >=? i)
  | JSGE_REG => jump_reg (fun d s => as_i64 d >=? as_i64 s)
  | JSLT_IMM => jump_imm (fun d => as_i64 d <? i)
  | JSLT_REG => jump_reg (fun d s => as_i64 d <? as_i64 s)
  | JSLE_IMM => jump_imm (fun d => as_i64 d <=? i)
  | JSLE_REG => jump_reg (fun d s => as_i64 d <=? as_i64 s)
  | _ => mret tt
  end.

(** ** Calls *)
Definition check_pc (current_pc target_pc : Z) : VmM Z :=
  let outside :=
    EbpfError.CallOutsideTextSegment (wrapping_add current_pc ELF_INSN_DUMP_OFFSET)
      (wrapping_add program_vm_addr (wrapping_mul target_pc INSN_SIZE)) in
  if U64_MAX <? target_pc * INSN_SIZE then vm_throw outside else
  let offset := target_pc * INSN_SIZE in
  let end_ := wrapping_add offset INSN_SIZE in
  if (offset <=? end_) && (end_ <=? prog_len program) then mret target_pc else vm_throw outside.

(** [reg[FIRST_SCRATCH_REG..FIRST_SCRATCH_REG + SCRATCH_REGS]] *)
Definition scratch_regs : VmM (list Z) :=
  r ← vm_get reg; vm_lift (unwrap (if (10 <=? length r)%nat then Some (take 4 (drop 6 r)) else None)).

Definition push_frame : VmM unit :=
  saved ← scratch_regs;
  f ← vm_get call_frames;
  ret ← vm_get pc;
  '(fp, f) ← vm_lift (CallFrames.push f saved ret);
  vm_modify (with_frames f);;
  set_reg FRAME_PTR_REG fp.

Definition call_reg : VmM unit :=
  target_address ← get_reg (as_u64 i);
  push_frame;;
  if target_address <? program_vm_addr
  then vm_throw (EbpfError.CallOutsideTextSegment here (target_address / INSN_SIZE * INSN_SIZE))
  else
    target ← check_pc at_pc ((target_address - program_vm_addr) / INSN_SIZE);
    vm_modify (with_pc target).

Definition syscall (function : SyscallFunction) : VmM unit :=
  let metered := enable_instruction_meter (config exe) in
  vm_modify (fun s =>
    with_meter (if metered then saturating_sub (instruction_meter s) (due_insn_count s) else instruction_meter s)
      (remaining_insn_count s) 0 s);;
  r1 ← get_reg 1; r2 ← get_reg 2; r3 ← get_reg 3; r4 ← get_reg 4; r5 ← get_reg 5;
  result ← (fun s =>
    let '(result, (m, h, meter)) :=
      function [r1; r2; r3; r4; r5] (memory_mapping s) (host s) (instruction_meter s) in
    (Ok result, with_meter meter (remaining_insn_count s) (due_insn_count s) (with_memory m h s)));
  v ← vm_lift result;
  set_reg 0 v;;
  vm_modify (fun s =>
    if metered then with_meter (instruction_meter s) (instruction_meter s) (due_insn_count s) s else s).

Definition call_imm : VmM unit :=
  let (syscalls, calls) :=
    if static_syscalls (config exe) then (src insn =? 0, negb (src insn =? 0)) else (true, true) in
  resolved ← (if syscalls then
      match syscall_registry exe !! as_u32 i with
      | Some function => syscall function;; mret true
      | None => mret false
      end
    else mret false);
  resolved ← (if calls then
      match lookup_bpf_function exe (as_u32 i) with
      | Some target_pc =>
          push_frame;;
          target ← check_pc at_pc target_pc;
          vm_modify (with_pc target);;
          mret true
      | None => mret resolved
      end
    else mret resolved);
  if (resolved : bool) then mret tt
  else if disable_unresolved_symbols_at_runtime (config exe)
  then vm_throw (EbpfError.UnsupportedInstruction here)
  else vm_throw (report_unresolved_symbol exe at_pc).

(** The value the program exits with, if it does. *)
Definition exit : VmM (option Z) :=
  f ← vm_get call_frames;
  match CallFrames.pop (E:=E) f with
  | Ok (saved, fp, ret, f) =>
      vm_modify (with_frames f);;
      r ← vm_get reg;
      vm_lift (assert_ ((10 <=? length r) && (length saved =? 4))%nat);;
      vm_modify (with_reg (take 6 r ++ saved ++ drop 10 r));;
      set_reg FRAME_PTR_REG fp;;
      target ← check_pc at_pc ret;
      vm_modify (with_pc target);;
      mret None
  | Err _ => r0 ← get_reg 0; mret (Some r0)
  | Panic => vm_lift Panic
  end.

(** ** Loads and stores *)
Definition load_abs (n : Z) : VmM unit :=
  v ← load n at_pc (wrapping_add MM_INPUT_START (as_u32 i)); set_reg 0 v.
Definition load_ind (n : Z) : VmM unit :=
  s ← get_reg (src insn);
  v ← load n at_pc (wrapping_add (wrapping_add MM_INPUT_START s) (as_u32 i)); set_reg 0 v.
Definition load_reg (n : Z) : VmM unit :=
  s ← get_reg (src insn);
  v ← load n at_pc (as_u64 (as_i64 (as_i64 s + off insn))); set_reg (dst insn) v.
Definition store_imm (n : Z) : VmM unit :=
  d ← get_reg (dst insn); store n at_pc (as_u64 (as_i64 (as_i64 d + off insn))) i.
Definition store_reg (n : Z) : VmM unit :=
  d ← get_reg (dst insn);
  s ← get_reg (src insn);
  store n at_pc (as_u64 (as_i64 (as_i64 d + off insn))) s.

Definition load_imm : VmM unit :=
  wide ← vm_lift (unwrap (augment_lddw_unchecked program insn));
  vm_modify (fun s => with_pc (wrapping_add (pc s) 1) s);;
  set_reg (dst insn) (as_u64 (imm wide)).

(** An operation on the stack pointer; no other than these two is expected. *)
Definition stack_pointer_op : VmM unit :=
  vm_modify (fun s =>
    if opc insn =? opc_value SUB64_IMM then with_frames (CallFrames.resize_stack (call_frames s) (- i)) s
    else if opc insn =? opc_value ADD64_IMM then with_frames (CallFrames.resize_stack (call_frames s) i) s
    else s).

(** The [match] on the operation code: the value the program exits with, if it does. *)
Definition execute_insn : VmM (option Z) :=
  let next (m : VmM unit) : VmM (option Z) := m;; mret None in
  if (dst insn =? STACK_PTR_REG) && dynamic_stack_frames (config exe) then next stack_pointer_op else
  match opc_of (opc insn) with
  | None => vm_throw (EbpfError.UnsupportedInstruction here)
  | Some o =>
  match o with
  | LD_ABS_B => next (load_abs 1)
  | LD_ABS_H => next (load_abs 2)
  | LD_ABS_W => next (load_abs 4)
  | LD_ABS_DW => next (load_abs 8)
  | LD_IND_B => next (load_ind 1)
  | LD_IND_H => next (load_ind 2)
  | LD_IND_W => next (load_ind 4)
  | LD_IND_DW => next (load_ind 8)
  | LD_DW_IMM => next load_imm
  | LD_B_REG => next (load_reg 1)
  | LD_H_REG => next (load_reg 2)
  | LD_W_REG => next (load_reg 4)
  | LD_DW_REG => next (load_reg 8)
  | ST_B_IMM => next (store_imm 1)
  | ST_H_IMM => next (store_imm 2)
  | ST_W_IMM => next (store_imm 4)
  | ST_DW_IMM => next (store_imm 8)
  | ST_B_REG => next (store_reg 1)
  | ST_H_REG => next (store_reg 2)
  | ST_W_REG => next (store_reg 4)
  | ST_DW_REG => next (store_reg 8)
  | ADD32_IMM | ADD32_REG | SUB32_IMM | SUB32_REG | MUL32_IMM | MUL32_REG | DIV32_IMM | DIV32_REG
  | SDIV32_IMM | SDIV32_REG | OR32_IMM | OR32_REG | AND32_IMM | AND32_REG | LSH32_IMM | LSH32_REG
  | RSH32_IMM | RSH32_REG | NEG32 | MOD32_IMM | MOD32_REG | XOR32_IMM | XOR32_REG | MOV32_IMM
  | MOV32_REG | ARSH32_IMM | ARSH32_REG | LE | BE =>
      next (alu32 o)
  | ADD64_IMM | ADD64_REG | SUB64_IMM | SUB64_REG | MUL64_IMM | MUL64_REG | DIV64_IMM | DIV64_REG
  | SDIV64_IMM | SDIV64_REG | OR64_IMM | OR64_REG | AND64_IMM | AND64_REG | LSH64_IMM | LSH64_REG
  | RSH64_IMM | RSH64_REG | NEG64 | MOD64_IMM | MOD64_REG | XOR64_IMM | XOR64_REG | MOV64_IMM
  | MOV64_REG | ARSH64_IMM | ARSH64_REG =>
      next (alu64 o)
  | JA | JEQ_IMM | JEQ_REG | JGT_IMM | JGT_REG | JGE_IMM | JGE_REG | JLT_IMM | JLT_REG | JLE_IMM
  | JLE_REG | JSET_IMM | JSET_REG | JNE_IMM | JNE_REG | JSGT_IMM | JSGT_REG | JSGE_IMM | JSGE_REG
  | JSLT_IMM | JSLT_REG | JSLE_IMM | JSLE_REG =>
      next (jmp o)
  | CALL_REG => next call_reg
  | CALL_IMM => next call_imm
  | EXIT => exit
  | ST_W_XADD | ST_DW_XADD => vm_throw (EbpfError.UnsupportedInstruction here)
  end
  end.
End insn.

(** ** Steps *)
Section machine.
Variables (exe : Executable) (program_vm_addr : Z) (program : list byte).

(** [LD_DW_IMM] takes two slots. *)
Definition instruction_width (insn : Insn) : Z :=
  if bool_decide (opc_of (opc insn) = Some LD_DW_IMM)
     && negb ((dst insn =? STACK_PTR_REG) && dynamic_stack_frames (config exe)) then 2 else 1.

Definition step : VmM (option Z) :=
  vm_modify (fun s => with_meter (instruction_meter s) (remaining_insn_count s)
                        (wrapping_add (due_insn_count s) 1) s);;
  at_pc ← vm_get pc;
  vm_modify (with_pc (wrapping_add at_pc 1));;
  if prog_len program <? wrapping_mul (wrapping_add at_pc 1) INSN_SIZE
  then vm_throw (EbpfError.ExecutionOverrun (wrapping_add at_pc ELF_INSN_DUMP_OFFSET))
  else
    insn ← vm_lift (unwrap (get_insn_unchecked program at_pc));
    vm_modify (fun s =>
      if enable_instruction_tracing (config exe) then with_trace (tracer s ++ [reg s ++ [at_pc]]) s else s);;
    exited ← execute_insn exe program_vm_addr program insn at_pc;
    match exited with
    | Some v => mret (Some v)
    | None =>
        s ← vm_get (fun s => s);
        if enable_instruction_meter (config exe) && (remaining_insn_count s <=? due_insn_count s)
        then vm_throw (EbpfError.ExceededMaxInstructions
               (wrapping_add (wrapping_add at_pc (instruction_width insn)) ELF_INSN_DUMP_OFFSET)
               (initial_insn_count s))
        else mret None
    end.

(** [while let Ok(None) = result { result = interpreter.step(); }]; [None] when the fuel is
    used up. *)
Fixpoint run (fuel : nat) (s : Interpreter) : option (result (EbpfError E) Z * Interpreter) :=
  match fuel with
  | O => None
  | S fuel =>
      match step s with
      | (Ok None, s) => run fuel s
      | (Ok (Some v), s) => Some (Ok v, s)
      | (Err e, s) => Some (Err e, s)
      | (Panic, s) => Some (Panic, s)
      end
  end.

Definition Interpreter_new (m : MemoryMapping) (h : HostMemory) (f : CallFrames) (t : list (list Z)) (meter : Z)
    : result (EbpfError E) Interpreter :=
  let initial := if enable_instruction_meter (config exe) then meter else 0 in
  fp ← unwrap (CallFrames.get_frame_ptr f);
  entry ← get_entrypoint_instruction_offset exe;
  Ok (mkInterpreter m h f t meter initial initial 0 [0; MM_INPUT_START; 0; 0; 0; 0; 0; 0; 0; 0; fp] entry).
End machine.

(** ** The virtual machine *)

(** [VerifiedExecutable::from_executable], of the requisite verifier *)
Definition from_executable (exe : Executable) : result (EbpfError E) Executable :=
  '(_, text) ← unwrap (get_text_bytes exe);
  map_err EbpfError.VerifierError (verify text (config exe));;
  Ok exe.

Record EbpfVm : Type := mkEbpfVm {
  verified_executable : Executable;
  vm_program : list byte;
  vm_program_addr : Z;
  vm_mapping : MemoryMapping;
  vm_host : HostMemory;
  vm_tracer : list (list Z);
  vm_frames : CallFrames;
  total_insn_count : Z
}.

(** [EbpfVm::new], the stack allocated at [stack_host]. *)
Definition EbpfVm_new (exe : Executable) (heap_region : HostSlice) (additional_regions : list MemoryRegion)
    (stack_host : Z) (h : HostMemory) : result (EbpfError E) EbpfVm :=
  frames ← unwrap (CallFrames.new (config exe) stack_host);
  ro ← unwrap (get_ro_region exe);
  '(addr, program) ← unwrap (get_text_bytes exe);
  mapping ← MemoryMapping.new
    ([MemoryRegion.new_readonly (mkSlice 1 0) 0; ro; CallFrames.get_memory_region frames;
      MemoryRegion.new_writable heap_region MM_HEAP_START] ++ additional_regions) (config exe);
  Ok (mkEbpfVm exe program addr mapping h [] frames 0).

(** [execute_program_interpreted]: the result, the machine and what is left of the meter. *)
Definition execute_program_interpreted (fuel : nat) (vm : EbpfVm) (meter : Z)
    : option (result (EbpfError E) Z * EbpfVm * Z) :=
  let exe := verified_executable vm in
  match Interpreter_new exe (vm_mapping vm) (vm_host vm) (vm_frames vm) (vm_tracer vm) meter with
  | Ok s =>
      '(result, s) ← run exe (vm_program_addr vm) (vm_program vm) fuel s;
      let metered := enable_instruction_meter (config exe) in
      let meter :=
        if metered then saturating_sub (instruction_meter s) (due_insn_count s) else instruction_meter s in
      Some (result,
            mkEbpfVm exe (vm_program vm) (vm_program_addr vm) (memory_mapping s) (host s) (tracer s)
              (call_frames s)
              (if metered then wrapping_sub (initial_insn_count s) meter else total_insn_count vm),
            meter)
  | Err e => Some (Err e, vm, meter)
  | Panic => Some (Panic, vm, meter)
  end.
End interpreter.
