(* ===== verification/EbpfElf.v ===== *)
(** * Functions of a program

    [solana_rbpf-0.2.31/src/elf.rs]: the registry of the functions of a program and the
    rewriting of relative calls in its text, and that the calls then reach their targets. *)

From stdpp Require Import pretty.
From Stdlib Require Import Strings.Byte.
From S2P Require Import Prelude Ebpf EbpfMemory EbpfVerifier EbpfInterpreter.

Section elf.
Context {E : Type}.
Variable hash_symbol_name : list byte -> Z.

Definition hash_bpf_function (pc : Z) (name : string) : Z :=
  if bool_decide (name = "entrypoint"%string) then hash_symbol_name entrypoint_name
  else hash_symbol_name (u64_le pc).

Definition register_bpf_function (config : Config) (functions : gmap Z (Z * string))
    (registry : gmap Z (SyscallFunction (E:=E))) (pc : Z) (name : string)
    : result ElfError (Z * gmap Z (Z * string)) :=
  let hash := hash_bpf_function pc name in
  if syscall_bpf_function_hash_collision config && bool_decide (is_Some (registry !! hash))
  then Err (ElfError.SymbolHashCollision hash) else
  match functions !! hash with
  | None =>
      Ok (hash, <[hash := (pc, if enable_symbol_and_section_labels config then name else ""%string)]> functions)
  | Some (pc', _) =>
      if negb (pc' =? pc) then Err (ElfError.SymbolHashCollision hash) else Ok (hash, functions)
  end.

(** [elf_bytes[offset..offset + INSN_SIZE].copy_from_slice(&insn.to_array())] *)
Definition write_insn (text : list byte) (i : Z) (insn : Insn) : result ElfError (list byte) :=
  let offset := Z.min U64_MAX (i * INSN_SIZE) in
  if saturating_add offset INSN_SIZE <=? Z.of_nat (length text)
  then Ok (take (Z.to_nat offset) text ++ to_array insn ++ drop (Z.to_nat offset + 8) text)
  else Err ElfError.ValueOutOfBounds.

(** The calls that [fixup_relative_calls] rewrites. *)
Definition is_relative_call (config : Config) (insn : Insn) : bool :=
  (opc insn =? opc_value CALL_IMM) && negb (imm insn =? -1) && negb (static_syscalls config && (src insn =? 0)).

(** One round of its loop. *)
Definition fixup_insn (config : Config) (registry : gmap Z (SyscallFunction (E:=E))) (instruction_count i : Z)
    (st : gmap Z (Z * string) * list byte) : result ElfError (gmap Z (Z * string) * list byte) :=
  let '(functions, text) := st in
  insn ← unwrap (get_insn text i);
  if is_relative_call config insn then
    let target_pc := saturating_add_i64 (saturating_add_i64 (as_i64 i) 1) (imm insn) in
    ensure (negb ((target_pc <? 0) || (as_i64 instruction_count <=? target_pc)))
      (ElfError.RelativeJumpOutOfBounds (saturating_add i ELF_INSN_DUMP_OFFSET));;
    let name :=
      if enable_symbol_and_section_labels config then ("function_" +:+ pretty target_pc)%string else ""%string in
    '(hash, functions) ← register_bpf_function config functions registry (as_u64 target_pc) name;
    text ← write_insn text i (mkInsn (ptr insn) (opc insn) (dst insn) (src insn) (off insn) hash);
    Ok (functions, text)
  else Ok (functions, text).

Fixpoint fixup_loop (n : nat) (config : Config) (registry : gmap Z (SyscallFunction (E:=E)))
    (instruction_count i : Z) (st : gmap Z (Z * string) * list byte)
    : result ElfError (gmap Z (Z * string) * list byte) :=
  match n with
  | O => Ok st
  | S n =>
      st ← fixup_insn config registry instruction_count i st;
      fixup_loop n config registry instruction_count (i + 1) st
  end.

Definition fixup_relative_calls (config : Config) (functions : gmap Z (Z * string))
    (registry : gmap Z (SyscallFunction (E:=E))) (text : list byte)
    : result ElfError (gmap Z (Z * string) * list byte) :=
  let instruction_count := Z.of_nat (length text) / INSN_SIZE in
  fixup_loop (Z.to_nat instruction_count) config registry instruction_count 0 (functions, text).

(** ** Facts *)

Lemma register_spec config functions registry pc name :
  match register_bpf_function config functions registry pc name with
  | Ok (hash, functions') =>
      hash = hash_bpf_function pc name /\ functions ⊆ functions' /\ fst <$> functions' !! hash = Some pc
  | Err e => e = ElfError.SymbolHashCollision (hash_bpf_function pc name)
  | Panic => False
  end.
Proof.
  unfold register_bpf_function. destruct (_ && _); [done|].
  destruct (functions !! _) as [[pc' name']|] eqn:Hl.
  - destruct (Z.eqb_spec pc' pc) as [->|]; [|done]. cbn. by rewrite Hl.
  - split_and!; [done|by apply insert_subseteq|]. by rewrite lookup_insert_eq.
Qed.

(** Only the low 32 bits of an immediate are written. *)
Lemma to_array_imm p o d s f z : to_array (mkInsn p o d s f (as_i32 z)) = to_array (mkInsn p o d s f z).
Proof.
  rewrite !to_array_bytes. cbn [opc src dst off imm].
  assert (to_le_bytes 4 (as_i32 z) = to_le_bytes 4 z) as ->; [|done].
  rewrite <-(to_le_bytes_mod 4 (as_i32 z)), <-(to_le_bytes_mod 4 z). f_equal. by apply (signed_unsigned 32).
Qed.

Lemma slice_at_ext (l l' : list byte) i n :
  length l' = length l ->
  (forall k : nat, (Z.to_nat i <= k < Z.to_nat i + Z.to_nat n)%nat -> l' !! k = l !! k) ->
  slice_at l' i n = slice_at l i n.
Proof.
  intros Hlen Heq. unfold slice_at. rewrite Hlen. destruct (_ <=? _); [|done]. f_equal. apply list_eq. intros k.
  destruct (decide (k < Z.to_nat n)%nat); [|by rewrite !lookup_take_ge by lia].
  rewrite !lookup_take_lt, !lookup_drop by lia. apply Heq. lia.
Qed.

Lemma write_insn_ok (text : list byte) i insn :
  text_wf text -> 0 <= i < insn_count text ->
  exists text', write_insn text i insn = Ok text' /\ length text' = length text /\
    slice_at text' (INSN_SIZE * i) INSN_SIZE = Some (to_array insn) /\
    forall j, 0 <= j < insn_count text -> j <> i ->
      slice_at text' (INSN_SIZE * j) INSN_SIZE = slice_at text (INSN_SIZE * j) INSN_SIZE.
Proof.
  intros Hwf Hi. destruct (text_length _ Hwf) as [Hl Hn]. unfold prog_len, INSN_SIZE in *. unfold write_insn, INSN_SIZE.
  rewrite (Z.min_r U64_MAX) by (unfold U64_MAX; lia). unfold saturating_add.
  destruct (Z.leb_spec (Z.min U64_MAX (i * 8 + 8)) (Z.of_nat (length text))); [|unfold U64_MAX in *; lia].
  eexists. split; [done|].
  assert (length (take (Z.to_nat (i * 8)) text) = Z.to_nat (i * 8)) as Ht by (rewrite length_take; lia).
  assert (length (to_array insn) = 8%nat) as Ha by done.
  assert (length (take (Z.to_nat (i * 8)) text ++ to_array insn ++ drop (Z.to_nat (i * 8) + 8) text) = length text) as Hlen
    by (rewrite !length_app, length_drop, Ht, Ha; lia).
  split_and!; [done| |].
  - rewrite slice_at_in by (rewrite Hlen; lia). f_equal. rewrite drop_app_length' by lia. by rewrite take_app_length'.
  - intros j Hj Hne. apply slice_at_ext; [done|]. intros k Hk. destruct (decide (j < i)).
    + rewrite lookup_app_l by lia. apply lookup_take_lt. lia.
    + rewrite !lookup_app_r by lia. rewrite lookup_drop, Ht, Ha. f_equal. lia.
Qed.

Lemma text_wf_length (text text' : list byte) : length text' = length text -> text_wf text -> text_wf text'.
Proof. intros Hl [H1 H2]. by split; unfold prog_len; rewrite Hl. Qed.

Lemma get_insn_ext (text text' : list byte) j :
  text_wf text -> length text' = length text -> 0 <= j < insn_count text ->
  slice_at text' (INSN_SIZE * j) INSN_SIZE = slice_at text (INSN_SIZE * j) INSN_SIZE ->
  get_insn text' j = get_insn text j.
Proof.
  intros Hwf Hlen Hj Hs. destruct (text_length _ Hwf) as [Hl Hn]. pose proof (text_u64 _ Hwf) as Hu.
  destruct (slice_at text (INSN_SIZE * j) INSN_SIZE) as [l|] eqn:E1;
    [|rewrite slice_at_in in E1; [done|unfold prog_len, INSN_SIZE in *; lia]].
  rewrite (get_insn_slice text j l), (get_insn_slice text' j l) by (rewrite ?Hlen; done || lia). done.
Qed.

(** [after] is what a pass over [insn] leaves: a relative call that the registry resolves to
    its target, and anything else as it was. *)
Definition call_fixed (config : Config) (n : Z) (functions : gmap Z (Z * string)) (insn : Insn)
    (after : option Insn) : Prop :=
  if is_relative_call config insn then
    let target := ptr insn + 1 + imm insn in
    0 <= target < n /\
    exists insn', after = Some insn' /\ ptr insn' = ptr insn /\ opc insn' = opc insn /\ dst insn' = dst insn /\
      src insn' = src insn /\ off insn' = off insn /\ fst <$> functions !! as_u32 (imm insn') = Some target
  else after = Some insn.

Lemma call_fixed_mono config n functions functions' insn after :
  functions ⊆ functions' -> call_fixed config n functions insn after -> call_fixed config n functions' insn after.
Proof.
  intros Hsub. unfold call_fixed. destruct (is_relative_call _ _); [|done].
  intros (Ht & insn' & Ha & H1 & H2 & H3 & H4 & H5 & Hf). split; [done|]. exists insn'. split_and!; try done.
  apply fmap_Some in Hf as ([p name] & Hf & Hp). by rewrite (lookup_weaken _ _ _ _ Hf Hsub), Hp.
Qed.

(** Why rewriting can fail. *)
Definition fixup_error (config : Config) (text : list byte) (e : ElfError) : Prop :=
  match e with
  | ElfError.RelativeJumpOutOfBounds p =>
      exists i insn, p = i + ELF_INSN_DUMP_OFFSET /\ get_insn text i = Some insn /\
        is_relative_call config insn = true /\ ~ 0 <= i + 1 + imm insn < insn_count text
  | ElfError.SymbolHashCollision _ => True
  | _ => False
  end.

Section pass.
Variables (config : Config) (functions : gmap Z (Z * string)) (registry : gmap Z (SyscallFunction (E:=E))).
Variable text : list byte.
Hypothesis Hhash : forall l, 0 <= hash_symbol_name l < 2 ^ 32.
Hypothesis Hwf : text_wf text.

Record progress (i : Z) (st : gmap Z (Z * string) * list byte) : Prop := {
  pg_length : length st.2 = length text;
  pg_functions : functions ⊆ st.1;
  pg_done j insn : 0 <= j < i -> get_insn text j = Some insn ->
    call_fixed config (insn_count text) st.1 insn (get_insn st.2 j);
  pg_rest j : i <= j < insn_count text -> get_insn st.2 j = get_insn text j
}.

Lemma hash_range pc name : 0 <= hash_bpf_function pc name < 2 ^ 32.
Proof. unfold hash_bpf_function. case_bool_decide; apply Hhash. Qed.

Lemma write_call st i insn hash :
  progress i st -> 0 <= i < insn_count text -> get_insn text i = Some insn -> insn_wf insn -> ptr insn = i ->
  0 <= hash < 2 ^ 32 ->
  exists text', write_insn st.2 i (mkInsn (ptr insn) (opc insn) (dst insn) (src insn) (off insn) hash) = Ok text' /\
    length text' = length text /\
    get_insn text' i = Some (mkInsn i (opc insn) (dst insn) (src insn) (off insn) (as_i32 hash)) /\
    forall j, 0 <= j < insn_count text -> j <> i -> get_insn text' j = get_insn st.2 j.
Proof.
  intros [Hlen _ _ _] Hi _ [Ho Hd Hs Hf _] Hp Hh.
  assert (insn_count st.2 = insn_count text) as Hc by (unfold insn_count, prog_len; by rewrite Hlen).
  pose proof (text_wf_length _ _ Hlen Hwf) as Hwf'.
  edestruct (write_insn_ok st.2 i) as (text' & Hw & Hl & Hn & Hr); [done|by rewrite Hc|].
  exists text'. split_and!; [exact Hw|lia| |].
  - rewrite <-to_array_imm in Hn. erewrite get_insn_slice; [|lia|rewrite Hl; by apply text_u64|done].
    rewrite decoded_of_array; [done|]. split; cbn; try done. apply (signed_range 32). done.
  - intros j Hj Hne. apply get_insn_ext; rewrite ?Hc; try done. apply Hr; [by rewrite Hc|done].
Qed.

(** The target of a call, computed with saturation. *)
Lemma target_exact i z :
  0 <= i < 2 ^ 60 -> - 2 ^ 31 <= z < 2 ^ 31 ->
  saturating_add_i64 (saturating_add_i64 (as_i64 i) 1) z = i + 1 + z.
Proof. intros. rewrite signed_small by (cbn; lia). unfold saturating_add_i64. lia. Qed.

Lemma fixup_insn_spec i st :
  progress i st -> 0 <= i < insn_count text ->
  match fixup_insn config registry (insn_count text) i st with
  | Ok st' => progress (i + 1) st'
  | Err e => fixup_error config text e
  | Panic => False
  end.
Proof.
  intros Hpg Hi. destruct (text_length _ Hwf) as [_ Hn]. destruct (insn_at _ Hwf i Hi) as (insn & Hg & Hw & Hp).
  pose proof (pg_rest _ _ Hpg i ltac:(lia)) as Hr. destruct st as [fns txt]. cbn [snd] in Hr.
  unfold fixup_insn. rewrite Hr, Hg. cbn [unwrap mbind result_bind].
  assert (forall j, 0 <= j < i + 1 -> j < i \/ j = i) as Hlast by lia.
  destruct (is_relative_call config insn) eqn:Hc.
  - pose proof (iw_imm _ Hw) as Him. rewrite target_exact, (signed_small 64 (insn_count text)) by (cbn; lia).
    set (target := i + 1 + imm insn). unfold ensure. destruct (negb _) eqn:Hb.
    2:{ apply negb_false_iff, orb_true_iff in Hb. rewrite Z.ltb_lt, Z.leb_le in Hb.
        exists i, insn. split_and!; [|done..|fold target; lia].
        unfold saturating_add, ELF_INSN_DUMP_OFFSET, U64_MAX. lia. }
    apply negb_true_iff, orb_false_iff in Hb as [Ht0%Z.ltb_ge Ht1%Z.leb_gt]. cbn [mbind result_bind].
    rewrite (unsigned_small 64 target) by lia.
    match goal with |- context [register_bpf_function _ _ _ _ ?name] => pose proof (register_spec config fns registry target name) as Hreg;
      pose proof (hash_range target name) as Hh end.
    destruct (register_bpf_function _ _ _ _ _) as [ [hash fns']|e|]; [|by subst e|done]. destruct Hreg as (Eh & Hsub & Hf).
    rewrite <-Eh in Hh. cbn [mbind result_bind].
    destruct (write_call _ _ _ hash Hpg Hi Hg Hw Hp Hh) as (txt' & Hwr & Hlen & Hat & Hother).
    cbn [snd] in Hwr, Hother. rewrite Hwr. cbn [mbind result_bind]. destruct Hpg as [P1 P2 P3 P4]. cbn [fst snd] in *.
    split; cbn [fst snd]; [done|by transitivity fns| |].
    + intros j insn0 Hj Hg0. destruct (Hlast j Hj) as [?| ->].
      * rewrite Hother by lia. eapply call_fixed_mono; [exact Hsub|]. apply P3; [lia|done].
      * assert (insn0 = insn) as -> by congruence. unfold call_fixed. rewrite Hc, Hp. fold target. split; [lia|].
        eexists. split; [exact Hat|]. cbn [ptr opc dst src off imm]. split_and!; try done.
        assert (as_u32 (as_i32 hash) = hash) as ->; [|done].
        unfold unsigned. rewrite (signed_unsigned 32) by done. by apply Z.mod_small.
    + intros j Hj. rewrite Hother by lia. apply P4. lia.
  - destruct Hpg as [P1 P2 P3 P4]. cbn [fst snd] in *. split; cbn [fst snd]; try done.
    + intros j insn0 Hj Hg0. destruct (Hlast j Hj) as [?| ->]; [apply P3; [lia|done]|].
      assert (insn0 = insn) as -> by congruence. unfold call_fixed. rewrite Hc. congruence.
    + intros j Hj. apply P4. lia.
Qed.

Lemma fixup_loop_spec n i st :
  progress i st -> 0 <= i -> i + Z.of_nat n = insn_count text ->
  match fixup_loop n config registry (insn_count text) i st with
  | Ok st' => progress (insn_count text) st'
  | Err e => fixup_error config text e
  | Panic => False
  end.
Proof.
  revert i st. induction n as [|n IH]; intros i st Hpg Hi Hn; cbn [fixup_loop].
  - by replace (insn_count text) with i by lia.
  - pose proof (fixup_insn_spec i st Hpg ltac:(lia)) as Hs.
    destruct (fixup_insn _ _ _ _ _) as [st'|e|]; cbn [mbind result_bind]; [|done..]. apply IH; [done|lia..].
Qed.
End pass.

(** Rewriting the relative calls of a text never panics. When it succeeds, every
    relative call has a target in the text, the registry resolves the rewritten call to
    that target, everything else of the text and the functions registered before are
    unchanged; it fails only on a call whose target is outside the text or on a
    collision of hashes. *)
Theorem relative_calls_resolve (config : Config) (functions : gmap Z (Z * string))
    (registry : gmap Z (SyscallFunction (E:=E))) (text : list byte)
    (Hhash : forall l, 0 <= hash_symbol_name l < 2 ^ 32)
    (Hwf : text_wf text) :
  match fixup_relative_calls config functions registry text with
  | Ok (functions', text') =>
      length text' = length text /\ functions ⊆ functions' /\
      forall i insn, 0 <= i < insn_count text -> get_insn text i = Some insn ->
        call_fixed config (insn_count text) functions' insn (get_insn text' i)
  | Err e => fixup_error config text e
  | Panic => False
  end.
Proof.
  destruct (text_length _ Hwf) as [_ Hn]. unfold fixup_relative_calls. fold (prog_len text). fold (insn_count text).
  assert (progress config functions text 0 (functions, text)) as H0 by (split; cbn; [done..|lia|done]).
  pose proof (fixup_loop_spec config functions registry text Hhash Hwf (Z.to_nat (insn_count text)) 0 _ H0
    ltac:(lia) ltac:(lia)) as Hl.
  destruct (fixup_loop _ _ _ _ _ _) as [ [fns' txt']|e|]; [|done..]. destruct Hl as [P1 P2 P3 _]. eauto.
Qed.
End elf.

(** ** A text *)

(** A call of the slot after a wide load, whose register nibble is that of the stack pointer. *)
Definition cx_text : list byte :=
  concat (to_array <$>
    [mkInsn 0 (opc_value CALL_IMM) 0 1 0 2; mkInsn 0 (opc_value EXIT) 0 0 0 0; mkInsn 0 (opc_value LD_DW_IMM) 0 0 0 5;
     mkInsn 0 0 11 0 0 0; mkInsn 0 (opc_value EXIT) 0 0 0 0]).
Definition cx_hash (l : list byte) : Z := from_le_bytes l mod 2 ^ 32.
Definition cx_functions : gmap Z (Z * string) := {[cx_hash entrypoint_name := (0, EmptyString)]}.

Lemma cx_fixed :
  match fixup_relative_calls (E:=unit) cx_hash Config_default cx_functions ∅ cx_text with
  | Ok _ => True
  | _ => False
  end.
Proof. vm_compute. exact I. Qed.

Lemma relative_calls_resolve_witness :
  match fixup_relative_calls (E:=unit) cx_hash Config_default cx_functions ∅ cx_text with
  | Ok (functions', text') =>
      exists insn', get_insn text' 0 = Some insn' /\ fst <$> functions' !! as_u32 (imm insn') = Some 3
  | _ => False
  end.
Proof.
  pose proof (relative_calls_resolve (E:=unit) cx_hash Config_default cx_functions ∅ cx_text
    ltac:(intros l; apply Z.mod_pos_bound; done) ltac:(split; [by apply Z.leb_le|done])) as Hs.
  pose proof cx_fixed as Hok. destruct (fixup_relative_calls _ _ _ _ _) as [ [fns' txt']|e|]; [|done..].
  destruct Hs as (_ & _ & Hs).
  destruct (Hs 0 (mkInsn 0 (opc_value CALL_IMM) 0 1 0 2)) as (_ & insn' & Hi & _ & _ & _ & _ & _ & Hf);
    [by vm_compute|done|]. eauto.
Defined.
