(* ===== verification/EbpfMemoryFacts.v ===== *)
(** * Address translation is memory safe

    Every address the mapping translates lies, with the bytes accessed, in the host memory of
    one of its regions, a writable one for stores. *)

From Stdlib Require Import Strings.Byte.
From S2P Require Import Prelude Ebpf EbpfMemory.

(** ** Bits of [u64] *)
Lemma u64_shiftr a : 0 <= a -> is_u64 a <-> Z.shiftr a 64 = 0.
Proof.
  intros Ha. rewrite Z.shiftr_div_pow2 by lia. unfold is_u64, U64_MAX. split.
  - intros. apply Z.div_small. lia.
  - intros E. apply Z.div_small_iff in E; lia.
Qed.

Lemma lor_u64 a b : is_u64 a -> is_u64 b -> is_u64 (Z.lor a b).
Proof.
  intros Ha Hb. assert (0 <= a /\ 0 <= b) as [] by (destruct Ha, Hb; done).
  apply u64_shiftr; [by apply Z.lor_nonneg|]. rewrite Z.shiftr_lor.
  by rewrite (proj1 (u64_shiftr a ltac:(done)) Ha), (proj1 (u64_shiftr b ltac:(done)) Hb).
Qed.
Lemma lxor_u64 a b : is_u64 a -> is_u64 b -> is_u64 (Z.lxor a b).
Proof.
  intros Ha Hb. assert (0 <= a /\ 0 <= b) as [] by (destruct Ha, Hb; done).
  apply u64_shiftr; [apply Z.lxor_nonneg; tauto|]. rewrite Z.shiftr_lxor.
  by rewrite (proj1 (u64_shiftr a ltac:(done)) Ha), (proj1 (u64_shiftr b ltac:(done)) Hb).
Qed.
Lemma land_u64 a b : is_u64 a -> 0 <= b -> is_u64 (Z.land a b).
Proof.
  intros Ha Hb. assert (0 <= a) by (by destruct Ha).
  apply u64_shiftr; [apply Z.land_nonneg; tauto|]. rewrite Z.shiftr_land.
  by rewrite (proj1 (u64_shiftr a ltac:(done)) Ha).
Qed.
Lemma shiftr_u64 a k : is_u64 a -> 0 <= k -> is_u64 (Z.shiftr a k).
Proof.
  intros [Ha Hm] Hk. assert (0 < 2 ^ k) by (by apply Z.pow_pos_nonneg). rewrite Z.shiftr_div_pow2 by done.
  split; [by apply Z.div_pos|]. assert (a / 2 ^ k <= a); [|lia]. apply Z.div_le_upper_bound; nia.
Qed.

Lemma unsigned_u64 w z : 0 <= w <= 64 -> is_u64 (unsigned w z).
Proof.
  intros Hw. pose proof (unsigned_range w z ltac:(lia)).
  assert (2 ^ w <= 2 ^ 64) by (apply Z.pow_le_mono_r; lia). unfold is_u64, U64_MAX. lia.
Qed.

(** ** Host memory *)
Lemma read_host_some m a n :
  0 <= n -> (forall k, 0 <= k < n -> is_Some (m !! (a + k))) ->
  exists l, read_host m a n = Some l /\ length l = Z.to_nat n.
Proof.
  intros Hn Hm. unfold read_host. destruct (mapM _ _) as [l|] eqn:E.
  - exists l. split; [done|]. apply mapM_Some, Forall2_length in E. by rewrite <-E, length_seqZ.
  - apply mapM_None, Exists_exists in E as (k & Hk & Hno).
    apply list_elem_of_In, elem_of_seqZ in Hk. destruct (Hm k) as [b Hb]; [lia|]. congruence.
Qed.

Lemma insert_bytes_lookup l a m j :
  insert_bytes a l m !! j =
    if decide (a <= j < a + Z.of_nat (length l)) then l !! Z.to_nat (j - a) else m !! j.
Proof.
  revert a m. induction l as [|b l IH]; intros a m; cbn [insert_bytes length].
  - case_decide; [lia|done].
  - rewrite IH. destruct (decide (j = a)) as [->|Hne].
    + rewrite decide_False, decide_True, Z.sub_diag by lia. exact (lookup_insert_eq (M:=gmap Z) m a b).
    + rewrite (lookup_insert_ne (M:=gmap Z)) by done. repeat case_decide; try lia; [|done].
      replace (Z.to_nat (j - a)) with (S (Z.to_nat (j - (a + 1)))) by lia. done.
Qed.

(** A write that is backed by memory changes just the bytes written. *)
Lemma write_host_some m a l :
  (forall k, 0 <= k < Z.of_nat (length l) -> is_Some (m !! (a + k))) ->
  exists m', write_host m a l = Some m' /\
    (forall j, is_Some (m !! j) -> is_Some (m' !! j)) /\
    forall j, ~ (a <= j < a + Z.of_nat (length l)) -> m' !! j = m !! j.
Proof.
  intros Hm. unfold write_host. destruct (forallb _ _) eqn:E.
  - eexists. split; [done|]. split; intros j Hj; rewrite insert_bytes_lookup; case_decide; try done.
    apply lookup_lt_is_Some_2. lia.
  - exfalso. apply not_true_iff_false in E. apply E, forallb_forall. intros k Hk.
    apply list_elem_of_In, elem_of_seqZ in Hk. apply bool_decide_eq_true_2, Hm. lia.
Qed.

(** ** Regions *)
Record region_ok (h : HostMemory) (r : MemoryRegion) : Prop := {
  ro_host : 0 <= host_addr r;
  ro_len : 0 <= len r;
  ro_end : host_addr r + len r <= U64_MAX;
  ro_vm : 0 <= vm_addr r;
  ro_backed k : 0 <= k < len r -> is_Some (h !! (host_addr r + k))
}.

(** The region with index zero is never mapped. *)
Definition mapping_ok (m : MemoryMapping) (h : HostMemory) : Prop :=
  forall i r, regions m !! i = Some r -> (1 <= i)%nat -> region_ok h r.

(** An address of host memory that stores may change. *)
Definition writable_at (m : MemoryMapping) (a : Z) : Prop :=
  exists i r, regions m !! i = Some r /\ (1 <= i)%nat /\ is_writable r = true /\
    host_addr r <= a < host_addr r + len r.

Lemma vm_to_host_ok {E} h r addr n p :
  region_ok h r -> is_u64 addr -> 0 <= n ->
  MemoryRegion.vm_to_host (E:=E) r addr n = Ok p ->
  exists o, 0 <= o /\ o + n <= len r /\ p = host_addr r + o.
Proof.
  intros [Hh Hl He Hv _] [Ha _] Hn. unfold MemoryRegion.vm_to_host.
  destruct (Z.ltb_spec addr (vm_addr r)); [done|].
  set (b := saturating_sub addr (vm_addr r)). set (mask := as_u64 _). set (o := Z.lor _ _).
  assert (0 <= b) by (unfold b, saturating_sub; lia).
  assert (0 <= mask) by (apply unsigned_range; lia).
  assert (0 <= o) as Ho.
  { apply Z.lor_nonneg. split.
    - cbn. apply Z.shiftr_nonneg, Z.land_nonneg. by left.
    - apply Z.land_nonneg. by left. }
  destruct (checked_add o n) as [e|] eqn:Ec; [|done]. apply checked_add_some in Ec as [-> _].
  destruct (_ && _) eqn:Eb; [|done]. apply andb_true_iff in Eb as [Hle%Z.leb_le _]. intros [= <-].
  exists o. split_and!; [done..|]. unfold saturating_add. lia.
Qed.

(** The errors of a translation. *)
Definition is_violation {E} (e : EbpfError E) : Prop :=
  match e with
  | EbpfError.AccessViolation _ _ _ _ _ | EbpfError.StackAccessViolation _ _ _ _ _ => True
  | _ => False
  end.

Lemma violation_is {E} m a addr n : is_violation (MemoryMapping.generate_access_violation (E:=E) m a addr n).
Proof. unfold MemoryMapping.generate_access_violation. by destruct (_ && _). Qed.

(** What a translated address points to. *)
Definition points_to (m : MemoryMapping) (a : AccessType) (p n : Z) : Prop :=
  exists i r, regions m !! i = Some r /\ (1 <= i)%nat /\ (a = Store -> is_writable r = true) /\
    host_addr r <= p /\ p + n <= host_addr r + len r.

Lemma map_spec {E} m h a addr n :
  mapping_ok m h -> is_u64 addr -> 0 <= n ->
  match MemoryMapping.map (E:=E) m a addr n with
  | Ok p => points_to m a p n
  | Err e => is_violation e
  | Panic => False
  end.
Proof.
  intros Hm Ha Hn. pose proof (violation_is (E:=E) m a addr n) as Hv. unfold MemoryMapping.map.
  destruct (_ && (_ <? _)) eqn:Ei; [|done]. apply andb_true_iff in Ei as [H1%Z.leb_le H2%Z.ltb_lt].
  set (i := default 0 _) in *.
  destruct (lookup_lt_is_Some_2 (regions m) (Z.to_nat i)) as [r Hr]; [lia|]. rewrite Hr.
  destruct (_ || _) eqn:Ew; [|done].
  destruct (MemoryRegion.vm_to_host r addr n) as [p| |] eqn:Et; [|done..].
  destruct (vm_to_host_ok h r addr n p (Hm _ _ Hr ltac:(lia)) Ha Hn Et) as (o & Ho & Hle & ->).
  exists (Z.to_nat i), r. split_and!; [done|lia| |lia..].
  intros ->. by apply orb_true_iff in Ew as [Ew|?]; [apply bool_decide_eq_true in Ew|].
Qed.

Lemma points_backed m h a p n k :
  mapping_ok m h -> points_to m a p n -> 0 <= k < n -> is_Some (h !! (p + k)).
Proof.
  intros Hm (i & r & Hr & Hi & _ & Hlo & Hhi) Hk. destruct (Hm _ _ Hr Hi) as [_ _ _ _ Hb].
  replace (p + k) with (host_addr r + (p + k - host_addr r)) by lia. apply Hb. lia.
Qed.

Lemma points_writable m p n j : points_to m Store p n -> p <= j < p + n -> writable_at m j.
Proof. intros (i & r & Hr & Hi & Hw & Hlo & Hhi) Hj. exists i, r. split_and!; auto; lia. Qed.

Lemma mapping_ok_mono m h h' :
  mapping_ok m h -> (forall j, is_Some (h !! j) -> is_Some (h' !! j)) -> mapping_ok m h'.
Proof. intros Hm Hh i r Hr Hi. destruct (Hm _ _ Hr Hi). split; auto. Qed.
