(* ===== verification/EbpfSafety.v ===== *)
(** * Verified programs are safe

    Running a text the verifier accepted never panics and never reads or writes memory
    outside the regions of the mapping; stores only change writable regions; metered programs
    end. *)

From Stdlib Require Import Strings.Byte.
From S2P Require Import Prelude Ebpf EbpfMemory EbpfVerifier EbpfInterpreter EbpfMemoryFacts.

(** ** States *)
Record frame_ok (f : CallFrame) : Prop := {
  fo_ptr : is_u64 (frame_ptr f);
  fo_saved : Forall is_u64 (saved_reg f);
  fo_four : length (saved_reg f) = 4%nat;
  fo_return : is_u64 (return_ptr f)
}.

Record frames_ok (f : CallFrames) : Prop := {
  fs_index : 0 <= frame_index f < Z.of_nat (length (frames f));
  fs_count : Z.of_nat (length (frames f)) <= U64_MAX;
  fs_stack : is_u64 (stack_ptr f);
  fs_frames : Forall frame_ok (frames f)
}.

Record state_ok (s : Interpreter) : Prop := {
  so_count : length (reg s) = 11%nat;
  so_regs : Forall is_u64 (reg s);
  so_frames : frames_ok (call_frames s);
  so_memory : mapping_ok (memory_mapping s) (host s);
  so_meter : is_u64 (instruction_meter s);
  so_due : 0 <= due_insn_count s
}.

(** Memory that is not writable stays as it is. *)
Record keeps (s s' : Interpreter) : Prop := {
  ks_mapping : memory_mapping s' = memory_mapping s;
  ks_backed j : is_Some (host s !! j) -> is_Some (host s' !! j);
  ks_bytes j : ~ writable_at (memory_mapping s) j -> host s' !! j = host s !! j
}.

Lemma keeps_refl s : keeps s s.
Proof. done. Qed.

Lemma keeps_trans s1 s2 s3 : keeps s1 s2 -> keeps s2 s3 -> keeps s1 s3.
Proof.
  intros [M1 B1 K1] [M2 B2 K2]. split; [congruence|auto|].
  intros j Hj. rewrite K2 by (by rewrite M1). by apply K1.
Qed.

Section safety.
Context {E : Type}.

(** What the machine relies on in a system call: it keeps to the mapping, gives nothing back
    to the meter, and fails with an error of its own or of a translation. *)
Definition syscall_ok (function : SyscallFunction (E:=E)) : Prop :=
  forall args m h meter r m' h' meter',
    mapping_ok m h -> Forall is_u64 args -> is_u64 meter ->
    function args m h meter = (r, (m', h', meter')) ->
    m' = m /\ (forall j, is_Some (h !! j) -> is_Some (h' !! j)) /\
    (forall j, ~ writable_at m j -> h' !! j = h !! j) /\ 0 <= meter' <= meter /\
    match r with
    | Ok v => is_u64 v
    | Err (EbpfError.UserError _) => True
    | Err e => is_violation e
    | Panic => False
    end.

Variables (symbol_at : list byte -> Z -> ElfError + string) (exe : Executable (E:=E)).
Variables (program_vm_addr : Z) (program : list byte).

(** The errors of a running program; an instruction is unsupported when it is a hole or a
    call that is not resolved. *)
Definition runtime_error (e : EbpfError E) : Prop :=
  match e with
  | EbpfError.InvalidInstruction _ | EbpfError.InvalidVirtualAddress _ | EbpfError.InvalidMemoryRegion _
  | EbpfError.ExitRootCallFrame | EbpfError.VerifierError _ => False
  | EbpfError.UnsupportedInstruction p =>
      exists pc insn, p = wrapping_add pc ELF_INSN_DUMP_OFFSET /\ get_insn program pc = Some insn /\
        (opc insn = 0 \/ opc insn = opc_value CALL_IMM)
  | _ => True
  end.

(** [m] run from [s] does not panic, and reaches a state related to [s] by [P]. *)
Definition safe {A} (m : VmM (E:=E) A) (s : Interpreter) (P : A -> Interpreter -> Prop) : Prop :=
  match m s with
  | (Ok a, s') => state_ok s' /\ keeps s s' /\ P a s'
  | (Err e, s') => keeps s s' /\ runtime_error e
  | (Panic, _) => False
  end.

Lemma safe_ret {A} (a : A) s (P : A -> Interpreter -> Prop) : state_ok s -> P a s -> safe (mret a) s P.
Proof. intros. unfold safe, mret, VmM_ret. eauto using keeps_refl. Qed.

Lemma safe_bind {A B} (m : VmM A) (f : A -> VmM B) s P Q :
  safe m s P -> (forall a s', state_ok s' -> P a s' -> safe (f a) s' Q) -> safe (m ≫= f) s Q.
Proof.
  unfold safe, mbind, VmM_bind. destruct (m s) as [[a|e|] s']; [|done..].
  intros (Hs' & Hk & Hp) Hf. specialize (Hf a s' Hs' Hp). destruct (f a s') as [[b|e|] s'']; [|..|done].
  - destruct Hf as (? & ? & ?). split_and!; try done. by eapply keeps_trans.
  - destruct Hf as (? & ?). split; [by eapply keeps_trans|done].
Qed.

Lemma safe_mono {A} (m : VmM A) s (P Q : A -> Interpreter -> Prop) :
  safe m s P -> (forall a s', P a s' -> Q a s') -> safe m s Q.
Proof. unfold safe. destruct (m s) as [[a|e|] s']; naive_solver. Qed.

Lemma safe_get {A} (f : Interpreter -> A) s : state_ok s -> safe (vm_get f) s (fun a s' => s' = s /\ a = f s).
Proof. intros. unfold safe, vm_get. eauto using keeps_refl. Qed.

Lemma safe_lift {A} (r : result (EbpfError E) A) s :
  state_ok s -> match r with Ok _ => True | Err e => runtime_error e | Panic => False end ->
  safe (vm_lift r) s (fun a s' => s' = s /\ r = Ok a).
Proof. intros Hs Hr. unfold safe, vm_lift. destruct r; eauto using keeps_refl. Qed.

Lemma safe_modify f s P : state_ok (f s) -> keeps s (f s) -> P tt (f s) -> safe (vm_modify f) s P.
Proof. done. Qed.

Lemma get_reg_safe i s :
  state_ok s -> 0 <= i <= 10 -> safe (get_reg i) s (fun v s' => s' = s /\ is_u64 v /\ reg s !! Z.to_nat i = Some v).
Proof.
  intros Hs Hi. pose proof (so_count _ Hs) as Hc. eapply safe_bind; [by apply safe_get|].
  intros r s' _ [-> ->]. rewrite Hc. destruct (Z.ltb_spec i (Z.of_nat 11)); [|lia].
  destruct (lookup_lt_is_Some_2 (reg s) (Z.to_nat i)) as [v Hv]; [lia|]. rewrite Hv.
  eapply safe_mono; [by apply safe_lift|]. intros v' s' [-> [= <-]]. split_and!; try done.
  eapply Forall_lookup_1; [apply (so_regs _ Hs)|done].
Qed.

Lemma set_reg_safe i v s :
  state_ok s -> 0 <= i <= 10 -> is_u64 v -> safe (set_reg i v) s (fun _ s' => pc s' = pc s).
Proof.
  intros Hs Hi Hv. eapply safe_bind; [by apply get_reg_safe|]. intros w s' _ (-> & _ & _).
  apply safe_modify; [|done..]. destruct Hs as [Hc Hr Hf Hm Ht Hdu].
  split; cbn [reg with_reg call_frames memory_mapping host]; [by rewrite length_insert|by apply Forall_insert|done..].
Qed.

(** ** Arithmetic *)
Definition value_ok (r : result (EbpfError E) Z) : Prop :=
  match r with Ok v => is_u64 v | Err e => runtime_error e | Panic => False end.

Lemma imm_op_safe insn f s :
  state_ok s -> 0 <= dst insn <= 10 -> (forall d, is_u64 d -> value_ok (f d)) ->
  safe (imm_op insn f) s (fun _ s' => pc s' = pc s).
Proof.
  intros Hs Hd Hf. eapply safe_bind; [by apply get_reg_safe|]. intros d s' _ (-> & Hu & _).
  specialize (Hf d Hu). eapply safe_bind; [apply safe_lift; [done|by destruct (f d)]|].
  intros v s' _ [-> Ev]. rewrite Ev in Hf. by apply set_reg_safe.
Qed.

Lemma reg_op_safe insn f s :
  state_ok s -> 0 <= dst insn <= 10 -> 0 <= src insn <= 10 ->
  (forall d v, is_u64 d -> is_u64 v -> value_ok (f d v)) ->
  safe (reg_op insn f) s (fun _ s' => pc s' = pc s).
Proof.
  intros Hs Hd Hr Hf. eapply safe_bind; [by apply get_reg_safe|]. intros d s' _ (-> & Hu & _).
  eapply safe_bind; [by apply get_reg_safe|]. intros w s' _ (-> & Hw & _).
  specialize (Hf d w Hu Hw). eapply safe_bind; [apply safe_lift; [done|by destruct (f d w)]|].
  intros v s' _ [-> Ev]. rewrite Ev in Hf. by apply set_reg_safe.
Qed.

Lemma div_u64 a b : is_u64 a -> 0 < b -> is_u64 (a / b).
Proof.
  intros [Ha Hm] Hb. split; [by apply Z.div_pos|]. assert (a / b <= a); [|lia].
  apply Z.div_le_upper_bound; nia.
Qed.
Lemma mod_u64 a b : is_u64 a -> 0 < b -> is_u64 (a mod b).
Proof.
  intros [Ha Hm] Hb. pose proof (Z.mod_pos_bound a b Hb). split; [lia|].
  pose proof (Z.mod_le a b Ha Hb). lia.
Qed.
Lemma swap_bytes_u64 n a : (n <= 8)%nat -> is_u64 (swap_bytes n a).
Proof.
  intros Hn. unfold swap_bytes. pose proof (from_le_bytes_range (rev (to_le_bytes n a))) as Hr.
  rewrite length_rev, length_to_le_bytes in Hr.
  assert (256 ^ Z.of_nat n <= 256 ^ 8) by (apply Z.pow_le_mono_r; lia). change (256 ^ 8) with (2 ^ 64) in *.
  unfold is_u64, U64_MAX. lia.
Qed.
Lemma shr_u64 w a k : is_u64 a -> 0 < w -> is_u64 (wrapping_shr w a k).
Proof. intros. apply shiftr_u64; [done|]. by apply Z.mod_pos_bound. Qed.

(** A nonzero immediate divides. *)
Lemma imm_unsigned w z : 32 <= w -> - 2 ^ 31 <= z < 2 ^ 31 -> z <> 0 -> unsigned w z <> 0.
Proof.
  intros Hw Hz Hne Ez. unfold unsigned in Ez. assert (2 ^ 32 <= 2 ^ w) by (apply Z.pow_le_mono_r; lia).
  apply Z.mod_divide in Ez as [k Ez]; [|lia]. assert (k = 0) as -> by nia. lia.
Qed.

Lemma signed_nonzero v : is_u64 v -> v <> 0 -> as_i64 v <> 0.
Proof.
  intros [Hv Hm] Hne Ez. apply Hne. pose proof (signed_unsigned 64 v ltac:(lia)) as Es. rewrite Ez in Es.
  rewrite (Z.mod_small v) in Es by (unfold U64_MAX in Hm; lia). by rewrite <-Es.
Qed.

(** What the verifier checked of the operands of an instruction. *)
Definition operands_ok (insn : Insn) (at_pc : Z) (o : Opc) : Prop :=
  match o with
  | DIV32_IMM | MOD32_IMM | DIV64_IMM | MOD64_IMM | SDIV32_IMM | SDIV64_IMM => imm insn <> 0
  | LE | BE => imm insn = 16 \/ imm insn = 32 \/ imm insn = 64
  | CALL_REG => 0 <= imm insn <= 10
  | LD_DW_IMM => at_pc + 1 < insn_count program
  | JA | JEQ_IMM | JEQ_REG | JGT_IMM | JGT_REG | JGE_IMM | JGE_REG | JLT_IMM | JLT_REG | JLE_IMM | JLE_REG
  | JSET_IMM | JSET_REG | JNE_IMM | JNE_REG | JSGT_IMM | JSGT_REG | JSGE_IMM | JSGE_REG | JSLT_IMM
  | JSLT_REG | JSLE_IMM | JSLE_REG => 0 <= at_pc + 1 + off insn < insn_count program
  | _ => True
  end.

Ltac solve_u64 :=
  repeat match goal with
  | |- is_u64 (unsigned _ _) => apply unsigned_u64; lia
  | |- is_u64 (wrapping_shl _ _ _) => apply unsigned_u64; lia
  | |- is_u64 (wrap64 _) => apply wrap64_range
  | |- is_u64 (wrapping_add _ _) => apply wrap64_range
  | |- is_u64 (wrapping_sub _ _) => apply wrap64_range
  | |- is_u64 (wrapping_mul _ _) => apply wrap64_range
  | |- is_u64 (Z.lor _ _) => apply lor_u64
  | |- is_u64 (Z.lxor _ _) => apply lxor_u64
  | |- is_u64 (Z.land _ _) => apply land_u64
  | |- is_u64 (wrapping_shr _ _ _) => apply shr_u64; [|lia]
  | |- is_u64 (swap_bytes _ _) => apply swap_bytes_u64; lia
  | |- is_u64 (_ / _) => apply div_u64
  | |- is_u64 (_ mod _) => apply mod_u64
  | |- 0 <= unsigned _ _ => apply unsigned_range; lia
  | H : is_u64 ?v |- 0 <= ?v => apply H
  | |- _ => assumption || lia
  end.

(** The divisions, by their guards. *)
Lemma div_u_ok a b : is_u64 a -> is_u64 b -> b <> 0 -> value_ok (div_u a b).
Proof. intros Ha [Hb _] Hne. unfold div_u. destruct (Z.eqb_spec b 0); [done|]. apply div_u64; [done|lia]. Qed.
Lemma rem_u_ok a b : is_u64 a -> is_u64 b -> b <> 0 -> value_ok (rem_u a b).
Proof. intros Ha [Hb _] Hne. unfold rem_u. destruct (Z.eqb_spec b 0); [done|]. apply mod_u64; [done|lia]. Qed.
Lemma div_s_ok w a b :
  b <> 0 -> (a =? - 2 ^ (w - 1)) && (b =? -1) = false -> value_ok (as_u64 <$> div_s w a b).
Proof.
  intros Hne Hov. unfold div_s. rewrite Hov. destruct (Z.eqb_spec b 0); [done|].
  apply unsigned_u64. lia.
Qed.

(** A result by the cases of its guards. *)
Ltac solve_value :=
  repeat match goal with
  | |- value_ok (if ?a =? ?b then _ else _) => destruct (Z.eqb_spec a b)
  | |- value_ok (if ?b then _ else _) => destruct b eqn:?
  | |- value_ok (div_u _ _) => apply div_u_ok
  | |- value_ok (rem_u _ _) => apply rem_u_ok
  | |- value_ok (_ <$> div_s _ _ _) => apply div_s_ok
  | |- value_ok (Ok _) => cbn [value_ok]
  | |- value_ok (Err _) => exact I
  | |- signed 64 _ <> 0 => by apply signed_nonzero
  | |- unsigned _ _ <> 0 => assumption || (apply imm_unsigned; lia)
  end; try done; try solve_u64; try (exfalso; lia).

Lemma mov_safe (f : Z -> Z) insn s :
  state_ok s -> 0 <= dst insn <= 10 -> 0 <= src insn <= 10 -> (forall v, is_u64 v -> is_u64 (f v)) ->
  safe (v ← get_reg (src insn); set_reg (dst insn) (f v)) s (fun _ s' => pc s' = pc s).
Proof.
  intros Hs Hd Hr Hf. eapply safe_bind; [by apply get_reg_safe|]. intros v s' _ (-> & Hv & _).
  apply set_reg_safe; auto.
Qed.

Lemma alu32_safe insn at_pc o s :
  state_ok s -> insn_wf insn -> 0 <= dst insn <= 10 -> 0 <= src insn <= 10 -> operands_ok insn at_pc o ->
  safe (alu32 insn at_pc o) s (fun _ s' => pc s' = pc s).
Proof.
  intros Hs Hw Hd Hr Ho. pose proof (iw_imm _ Hw) as Hi.
  assert (as_i32 (imm insn) = imm insn) as Ei by (apply signed_small; [done|change (32 - 1) with 31; lia]).
  destruct o; cbn [alu32 operands_ok] in *; rewrite ?Ei;
    lazymatch goal with
    | |- safe (imm_op _ _) _ _ => apply imm_op_safe; [done..|]; intros d Ud; solve_value
    | |- safe (reg_op _ _) _ _ => apply reg_op_safe; [done..|]; intros d v Ud Uv; solve_value
    | |- safe (set_reg _ _) _ _ => apply set_reg_safe; [done..|]; solve_u64
    | |- safe (_ ≫= _) _ _ => apply (mov_safe (unsigned 32)); [done..|]; intros; solve_u64
    | |- _ => by apply safe_ret
    end.
Qed.

Lemma alu64_safe insn at_pc o s :
  state_ok s -> insn_wf insn -> 0 <= dst insn <= 10 -> 0 <= src insn <= 10 -> operands_ok insn at_pc o ->
  safe (alu64 insn at_pc o) s (fun _ s' => pc s' = pc s).
Proof.
  intros Hs Hw Hd Hr Ho. pose proof (iw_imm _ Hw) as Hi.
  destruct o; cbn [alu64 operands_ok] in *;
    lazymatch goal with
    | |- safe (imm_op _ _) _ _ => apply imm_op_safe; [done..|]; intros d Ud; solve_value
    | |- safe (reg_op _ _) _ _ => apply reg_op_safe; [done..|]; intros d v Ud Uv; solve_value
    | |- safe (set_reg _ _) _ _ => apply set_reg_safe; [done..|]; solve_u64
    | |- safe (_ ≫= _) _ _ => by apply (mov_safe (fun v => v))
    | |- _ => by apply safe_ret
    end.
Qed.

(** ** Memory *)
Lemma translate_safe a at_pc addr n s :
  state_ok s -> is_u64 addr -> 0 <= n ->
  safe (translate_memory_access a at_pc addr n) s (fun p s' => s' = s /\ points_to (memory_mapping s) a p n).
Proof.
  intros Hs Ha Hn. eapply safe_bind; [by apply safe_get|]. intros m s' _ [-> ->].
  pose proof (map_spec (E:=E) (memory_mapping s) (host s) a addr n (so_memory _ Hs) Ha Hn) as Hm.
  destruct (MemoryMapping.map _ _ _ _) as [p|e|]; [by apply safe_ret| |done].
  by destruct e.
Qed.

Lemma load_safe n at_pc addr s :
  state_ok s -> is_u64 addr -> 0 <= n <= 8 -> safe (load n at_pc addr) s (fun v s' => s' = s /\ is_u64 v).
Proof.
  intros Hs Ha Hn. eapply safe_bind; [apply translate_safe; [done..|lia]|]. intros p s' _ [-> Hp].
  eapply safe_bind; [by apply safe_get|]. intros h s' _ [-> ->].
  destruct (read_host_some (host s) p n) as (l & Hl & Hlen); [lia| |].
  { intros k Hk. by eapply points_backed; [apply (so_memory _ Hs)|..]. }
  rewrite Hl. eapply safe_bind; [by apply safe_lift|]. intros l' s' _ [-> [= <-]]. apply safe_ret; [done|].
  split; [done|]. pose proof (from_le_bytes_range l) as Hr. rewrite Hlen in Hr.
  assert (256 ^ Z.of_nat (Z.to_nat n) <= 256 ^ 8) by (apply Z.pow_le_mono_r; lia).
  change (256 ^ 8) with (2 ^ 64) in *. unfold is_u64, U64_MAX. lia.
Qed.

Lemma store_safe n at_pc addr v s :
  state_ok s -> is_u64 addr -> 0 <= n -> safe (store n at_pc addr v) s (fun _ s' => pc s' = pc s).
Proof.
  intros Hs Ha Hn. eapply safe_bind; [by apply translate_safe|]. intros p s' _ [-> Hp].
  eapply safe_bind; [by apply safe_get|]. intros h s' _ [-> ->].
  assert (Z.of_nat (length (to_le_bytes (Z.to_nat n) v)) = n) as Hl by (rewrite length_to_le_bytes; lia).
  destruct (write_host_some (host s) p (to_le_bytes (Z.to_nat n) v)) as (h' & Hw & Hb & Hk).
  { rewrite Hl. intros k Hk. by eapply points_backed; [apply (so_memory _ Hs)|..]. }
  rewrite Hw. eapply safe_bind; [by apply safe_lift|]. intros h s' _ [-> [= <-]].
  apply safe_modify; [| |done].
  - destruct Hs. split; try done. by eapply mapping_ok_mono.
  - split; [done..|]. intros j Hj. apply Hk. rewrite Hl. intros Hin. apply Hj. by eapply points_writable.
Qed.

(** ** Jumps and calls *)
Definition landed (s : Interpreter) : Prop := 0 <= pc s < 2 ^ 60.

Hypothesis Htext : text_wf program.

Lemma count_small : 0 <= insn_count program < 2 ^ 60.
Proof. by apply text_length. Qed.

Lemma with_pc_ok p s : state_ok s -> state_ok (with_pc p s).
Proof. by intros []. Qed.
Lemma with_frames_ok f s : state_ok s -> frames_ok f -> state_ok (with_frames f s).
Proof. by intros []. Qed.

Lemma jump_safe insn at_pc s :
  state_ok s -> pc s = at_pc + 1 -> 0 <= at_pc + 1 + off insn < insn_count program ->
  safe (jump insn) s (fun _ s' => landed s').
Proof.
  intros Hs Hpc Ht. pose proof count_small. apply safe_modify; [by apply with_pc_ok|done|].
  unfold landed. cbn [pc with_pc]. rewrite Hpc, wrap64_small by (unfold is_u64, U64_MAX; lia). lia.
Qed.

Lemma jmp_safe insn at_pc o s :
  state_ok s -> 0 <= at_pc < insn_count program -> pc s = at_pc + 1 ->
  0 <= dst insn <= 10 -> 0 <= src insn <= 10 -> operands_ok insn at_pc o ->
  safe (jmp insn o) s (fun _ s' => landed s').
Proof.
  intros Hs Ha Hpc Hd Hr Ho.
  pose proof count_small. assert (landed s) as Hstay by (unfold landed; lia).
  destruct o; cbn [jmp operands_ok] in *; try (by apply safe_ret); try (by eapply jump_safe);
    (eapply safe_bind; [by apply get_reg_safe|]; intros d s' _ (-> & _ & _));
    try (eapply safe_bind; [by apply get_reg_safe|]; intros v s' _ (-> & _ & _));
    (match goal with |- safe (if ?b then _ else _) _ _ => destruct b end; [by eapply jump_safe|by apply safe_ret]).
Qed.

Lemma check_pc_safe at_pc t s :
  state_ok s -> 0 <= t ->
  safe (check_pc program_vm_addr program at_pc t) s (fun t' s' => s' = s /\ t' = t /\ 0 <= t < insn_count program).
Proof.
  intros Hs Ht. destruct (text_length _ Htext) as [Hl _]. unfold check_pc.
  destruct (Z.ltb_spec U64_MAX (t * INSN_SIZE)); [by split; [apply keeps_refl|]|].
  destruct ((_ <=? _) && _) eqn:Eb; [|by split; [apply keeps_refl|]].
  apply andb_true_iff in Eb as [H1%Z.leb_le H2%Z.leb_le]. apply safe_ret; [done|]. split_and!; try done.
  unfold wrapping_add, wrap64, INSN_SIZE, U64_MAX in *.
  destruct (Z_lt_le_dec (t * 8 + 8) (2 ^ 64)); [rewrite Z.mod_small in H2 by lia; lia|].
  replace (t * 8 + 8) with (t * 8 + 8 - 2 ^ 64 + 1 * 2 ^ 64) in H1 by lia.
  rewrite Z.mod_add, Z.mod_small in H1 by lia. lia.
Qed.

Lemma push_ok f regs ret :
  frames_ok f -> length regs = 4%nat -> Forall is_u64 regs -> is_u64 ret ->
  match CallFrames.push (E:=E) f regs ret with
  | Ok (fp, f') => frames_ok f' /\ is_u64 fp
  | Err e => runtime_error e
  | Panic => False
  end.
Proof.
  intros [Hi Hc Hs Hf] Hr Hu Hret. unfold CallFrames.push.
  assert (wrapping_add (frame_index f) 1 = frame_index f + 1) as -> by (apply wrap64_small; unfold is_u64; lia).
  destruct (Z.leb_spec (Z.of_nat (length (frames f))) (frame_index f + 1)); [done|].
  destruct (lookup_lt_is_Some_2 (frames f) (Z.to_nat (frame_index f))) as [caller Hcaller]; [lia|].
  rewrite Hcaller, Hr. cbn [unwrap mbind result_bind assert_ Nat.eqb].
  set (saved := <[Z.to_nat (frame_index f) := _]> (frames f)).
  assert (Forall frame_ok saved) as Hsaved.
  { apply Forall_insert; [done|]. destruct (Forall_lookup_1 _ _ _ _ Hf Hcaller). done. }
  assert (length saved = length (frames f)) as Hls by apply length_insert.
  destruct (lookup_lt_is_Some_2 saved (Z.to_nat (frame_index f + 1))) as [frame Hframe]; [lia|].
  rewrite Hframe. cbn [unwrap mbind result_bind].
  destruct (Forall_lookup_1 _ _ _ _ Hsaved Hframe) as [_ Hfs Hf4 Hfr].
  set (fp_sp := if dynamic_stack_frames (frames_config f) then _ else _).
  assert (is_u64 fp_sp.1 /\ is_u64 fp_sp.2) as [H1 H2]
    by (unfold fp_sp; destruct (dynamic_stack_frames _); split; try done; apply wrap64_range).
  destruct fp_sp as [fp sp]. cbn [fst snd] in *. split; [|done].
  split; cbn [frame_index frames stack_ptr]; [rewrite length_insert; lia|by rewrite length_insert, Hls|done|].
  by apply Forall_insert.
Qed.

Lemma push_frame_safe s :
  state_ok s -> is_u64 (pc s) -> safe push_frame s (fun _ s' => pc s' = pc s).
Proof.
  intros Hs Hpc. pose proof (so_count _ Hs) as Hc. unfold push_frame, scratch_regs.
  eapply (safe_bind _ _ _ (fun saved s' => s' = s /\ length saved = 4%nat /\ Forall is_u64 saved)).
  { eapply safe_bind; [by apply safe_get|]. intros r s' _ [-> ->]. rewrite Hc. cbn [Nat.leb].
    eapply safe_mono; [by apply safe_lift|]. intros saved s' [-> [= <-]]. split_and!; [done| |].
    - rewrite length_take, length_drop. lia.
    - apply Forall_take, Forall_drop, Hs. }
  intros saved s' _ (-> & H4 & Hu). eapply safe_bind; [by apply safe_get|]. intros f s' _ [-> ->].
  eapply safe_bind; [by apply safe_get|]. intros ret s' _ [-> ->].
  pose proof (push_ok (call_frames s) saved (pc s) (so_frames _ Hs) H4 Hu Hpc) as Hp.
  eapply safe_bind.
  { apply safe_lift; [done|]. by destruct (CallFrames.push _ _ _) as [[]| |]. }
  intros [fp f] s' _ [-> Ep]. rewrite Ep in Hp. destruct Hp as [Hf Hfp].
  eapply safe_bind; [by apply safe_modify with (P := fun _ s' => pc s' = pc s /\ state_ok s');
    [apply with_frames_ok|..|split; [|apply with_frames_ok]]|].
  intros [] s' Hs' [Hpc' _]. eapply safe_mono; [by apply set_reg_safe|]. intros _ s'' ->. done.
Qed.

(** A call lands on an instruction. *)
Lemma enter_safe at_pc t s :
  state_ok s -> 0 <= t ->
  safe (target ← check_pc program_vm_addr program at_pc t; vm_modify (with_pc target)) s (fun _ s' => landed s').
Proof.
  intros Hs Ht. eapply safe_bind; [by apply check_pc_safe|]. intros t' s' _ (-> & -> & Hlt).
  apply safe_modify; [by apply with_pc_ok|done|]. pose proof count_small. unfold landed. cbn [pc with_pc]. lia.
Qed.

Lemma call_reg_safe insn at_pc s :
  state_ok s -> is_u64 (pc s) -> 0 <= program_vm_addr -> 0 <= imm insn <= 10 ->
  safe (call_reg program_vm_addr program insn at_pc) s (fun _ s' => landed s').
Proof.
  intros Hs Hpc Ha Hi. unfold call_reg.
  eapply safe_bind; [apply get_reg_safe; [done|]; rewrite unsigned_small by (cbn; lia); lia|].
  intros target s' _ (-> & Ht & _). eapply safe_bind; [by apply push_frame_safe|]. intros [] s' Hs' _.
  destruct (Z.ltb_spec target program_vm_addr); [by split; [apply keeps_refl|]|].
  apply enter_safe; [done|]. apply Z.div_pos; [lia|done].
Qed.

Hypothesis Hsyscalls : forall k f, syscall_registry exe !! k = Some f -> syscall_ok f.
Hypothesis Hfunctions : forall k p name, bpf_functions exe !! k = Some (p, name) -> 0 <= p.
Hypothesis Haddr : 0 <= program_vm_addr.

Lemma with_meter_ok meter remaining due s : state_ok s -> is_u64 meter -> 0 <= due -> state_ok (with_meter meter remaining due s).
Proof. by intros []. Qed.

Lemma saturating_sub_u64 a b : is_u64 a -> 0 <= b -> is_u64 (saturating_sub a b).
Proof. unfold is_u64, saturating_sub. lia. Qed.

Lemma syscall_safe function s :
  state_ok s -> syscall_ok function ->
  safe (syscall exe function) s (fun _ s' => pc s' = pc s).
Proof.
  intros Hs Hf. unfold syscall. set (metered := enable_instruction_meter (config exe)).
  eapply (safe_bind _ _ _ (fun _ s' => pc s' = pc s)).
  { apply safe_modify; [|done..]. apply with_meter_ok; [done| |done].
    destruct metered; [apply saturating_sub_u64; apply Hs|apply Hs]. }
  intros [] s1 Hs1 Hpc1. do 5 (eapply safe_bind; [by apply get_reg_safe|]; intros ? ? _ (-> & ? & _)).
  eapply (safe_bind _ _ _ (fun r s' => pc s' = pc s /\ match r with
    | Ok v => is_u64 v | Err e => runtime_error e | Panic => False end)).
  { unfold safe. destruct (function _ _ _ _) as [r [[m' h'] meter']] eqn:Er.
    apply Hf in Er as (-> & Hb & Hk & Hm & Hr); [|apply Hs1|by repeat (apply List.Forall_cons; [assumption|])|apply Hs1].
    split_and!; [| |done|].
    - pose proof (so_meter _ Hs1). destruct Hs1. split; try done; [by eapply mapping_ok_mono|].
      cbn. unfold is_u64 in *. lia.
    - by split.
    - destruct r as [|e|]; [done| |done]. by destruct e. }
  intros r s2 Hs2 [Hpc2 Hr]. eapply safe_bind; [by apply safe_lift; [|destruct r]|].
  intros v s' _ [-> ->]. eapply safe_bind; [by apply set_reg_safe|]. intros [] s3 Hs3 Hpc3.
  apply safe_modify; destruct metered; try done; try congruence; [|cbn; congruence].
  apply with_meter_ok; [done|apply Hs3..].
Qed.

Lemma call_imm_safe insn at_pc s :
  state_ok s -> landed s -> get_insn program at_pc = Some insn ->
  opc insn = opc_value CALL_IMM ->
  safe (call_imm symbol_at exe program_vm_addr program insn at_pc) s (fun _ s' => landed s').
Proof.
  intros Hs Hl Hi Ho. pose proof count_small as Hn. unfold call_imm.
  destruct (if static_syscalls (config exe) then _ else _) as [syscalls calls].
  eapply (safe_bind _ _ _ (fun (r : bool) s' => landed s')).
  { destruct syscalls; [|by apply safe_ret].
    destruct (syscall_registry exe !! _) as [f|] eqn:Ef; [|by apply safe_ret].
    eapply safe_bind; [by apply syscall_safe; [..|eapply Hsyscalls]|]. intros [] s' Hs' Hpc.
    apply safe_ret; [done|]. unfold landed. by rewrite Hpc. }
  intros resolved s1 Hs1 Hl1.
  eapply (safe_bind _ _ _ (fun (r : bool) s' => landed s')).
  { destruct calls; [|by apply safe_ret]. unfold lookup_bpf_function.
    destruct (bpf_functions exe !! _) as [[t name]|] eqn:Ef; [|by apply safe_ret]. cbn [fmap option_fmap option_map fst].
    assert (is_u64 (pc s1)) by (unfold landed, is_u64, U64_MAX in *; lia).
    eapply safe_bind; [by apply push_frame_safe|]. intros [] s2 Hs2 _.
    eapply safe_bind; [apply check_pc_safe; [done|by eapply Hfunctions]|]. intros t' s' _ (-> & -> & Hlt).
    eapply safe_bind; [apply (safe_modify _ _ (fun _ s' => landed s')); [by apply with_pc_ok|done|]|].
    { unfold landed. cbn [pc with_pc]. lia. }
    intros [] s3 Hs3 Hl3. by apply safe_ret. }
  intros [] s2 Hs2 Hl2; [by apply safe_ret|].
  destruct (disable_unresolved_symbols_at_runtime _).
  - split; [apply keeps_refl|]. exists at_pc, insn. eauto.
  - split; [apply keeps_refl|]. unfold report_unresolved_symbol. by destruct (symbol_at _ _).
Qed.

Lemma pop_ok f :
  frames_ok f ->
  match CallFrames.pop (E:=E) f with
  | Ok (saved, fp, ret, f') =>
      Forall is_u64 saved /\ length saved = 4%nat /\ is_u64 fp /\ is_u64 ret /\ frames_ok f'
  | Err _ => True
  | Panic => False
  end.
Proof.
  intros [Hi Hc Hs Hf]. unfold CallFrames.pop. destruct (Z.eqb_spec (frame_index f) 0); [done|].
  assert (wrapping_sub (frame_index f) 1 = frame_index f - 1) as -> by (apply wrap64_small; unfold is_u64; lia).
  destruct (lookup_lt_is_Some_2 (frames f) (Z.to_nat (frame_index f - 1))) as [frame Hframe]; [lia|].
  rewrite Hframe. cbn [unwrap mbind result_bind]. destruct (Forall_lookup_1 _ _ _ _ Hf Hframe) as [H1 H2 H3 H4].
  split_and!; try done. split; cbn [frame_index frames stack_ptr]; [lia|done..].
Qed.

Lemma exit_safe at_pc s :
  state_ok s -> safe (exit program_vm_addr program at_pc) s (fun v s' => v = None -> landed s').
Proof.
  intros Hs. pose proof (so_count _ Hs) as Hc. pose proof count_small. unfold exit. eapply safe_bind; [by apply safe_get|].
  intros f s' _ [-> ->]. pose proof (pop_ok _ (so_frames _ Hs)) as Hp.
  destruct (CallFrames.pop (call_frames s)) as [[[[saved fp] ret] f]| |]; [|..|done].
  - destruct Hp as (Hsv & H4 & Hfp & Hret & Hf).
    eapply safe_bind; [apply (safe_modify _ _ (fun _ s' => reg s' = reg s)); [by apply with_frames_ok|done..]|].
    intros [] s1 Hs1 Hr1. eapply safe_bind; [by apply safe_get|]. intros r s' _ [-> ->]. rewrite Hr1, Hc, H4.
    cbn [Nat.leb Nat.eqb andb assert_]. eapply safe_bind; [by apply safe_lift|]. intros [] s' _ [-> _].
    eapply safe_bind; [apply (safe_modify _ _ (fun _ _ => True)); [|done..]|].
    { destruct Hs1 as [_ _ Hf1 Hm1 Ht1 Hd1]. split; cbn [reg with_reg call_frames memory_mapping host]; try done.
      - rewrite !length_app, length_take, length_drop. lia.
      - destruct Hs as [_ Hu _ _ _ _]. repeat apply Forall_app_2; [by apply Forall_take|done|by apply Forall_drop]. }
    intros [] s2 Hs2 _. eapply safe_bind; [by apply set_reg_safe|]. intros [] s3 Hs3 _.
    eapply safe_bind; [apply check_pc_safe; [done|by destruct Hret]|]. intros t' s' _ (-> & -> & Hlt).
    eapply safe_bind; [apply (safe_modify _ _ (fun _ s' => landed s')); [by apply with_pc_ok|done|]|].
    { unfold landed. cbn [pc with_pc]. lia. }
    intros [] s4 Hs4 Hl4. by apply safe_ret.
  - eapply safe_bind; [by apply get_reg_safe|]. intros v s' _ (-> & _ & _). by apply safe_ret.
Qed.

(** ** Checked instructions *)
Definition supported (o : Opc) : bool := match o with ST_W_XADD | ST_DW_XADD => false | _ => true end.

Lemma check_opcode_operands insn pc store next :
  0 <= pc < insn_count program -> get_insn program pc = Some insn -> insn_wf insn ->
  check_opcode program (config exe) insn pc = Ok (store, next) ->
  exists o, opc_of (opc insn) = Some o /\ supported o = true /\ operands_ok insn pc o.
Proof.
  intros Hpc Hi Hw Hc. unfold check_opcode in Hc.
  destruct (opc_of (opc insn)) as [o|]; [|done]. exists o. split; [done|].
  destruct o; try done; try (split; [done|]); cbn [operands_ok]; try done;
    repeat match type of Hc with (if ?b then _ else _) = _ => destruct b; [|done] end;
    apply result_bind_ok in Hc as ([] & Hc & _);
    try (by eapply check_jmp_offset_ok);
    try (unfold check_imm_nonzero in Hc; apply ensure_ok, negb_true_iff, Z.eqb_neq in Hc; done).
  - by apply check_load_dw_ok in Hc as [? _].
  - unfold check_imm_endian in Hc. apply ensure_ok in Hc. rewrite !orb_true_iff, !Z.eqb_eq in Hc. tauto.
  - unfold check_imm_endian in Hc. apply ensure_ok in Hc. rewrite !orb_true_iff, !Z.eqb_eq in Hc. tauto.
  - unfold check_imm_register in Hc. apply ensure_ok, negb_true_iff in Hc.
    rewrite !orb_false_iff, !Z.ltb_ge in Hc. lia.
Qed.

Lemma check_registers_ok insn store ip dyn u :
  insn_wf insn -> check_registers insn store ip dyn = Ok u ->
  0 <= src insn <= 10 /\ (0 <= dst insn <= 10 \/ dst insn = STACK_PTR_REG /\ dyn = true).
Proof.
  intros [_ Hd Hs _ _] Hc. unfold check_registers in Hc. apply result_bind_ok in Hc as ([] & Hr & Hc).
  apply ensure_ok, negb_true_iff, Z.ltb_ge in Hr. split; [lia|]. unfold STACK_PTR_REG.
  destruct (_ || _) eqn:E1.
  - left. rewrite orb_true_iff, andb_true_iff, Z.leb_le, Z.eqb_eq in E1. lia.
  - destruct ((_ =? 11) && _) eqn:E2; [|by destruct (_ =? 10)]. right.
    rewrite !andb_true_iff, Z.eqb_eq in E2. tauto.
Qed.

Lemma checked_facts at_pc :
  0 <= at_pc < insn_count program -> checked program (config exe) at_pc ->
  exists insn o, get_insn program at_pc = Some insn /\ insn_wf insn /\ ptr insn = at_pc /\
    opc_of (opc insn) = Some o /\ supported o = true /\ operands_ok insn at_pc o /\ 0 <= src insn <= 10 /\
    (0 <= dst insn <= 10 \/ dst insn = STACK_PTR_REG /\ dynamic_stack_frames (config exe) = true).
Proof.
  intros Hpc [next Hc]. unfold check_insn in Hc. destruct (insn_at program Htext at_pc Hpc) as (insn & Hi & Hw & Hp).
  rewrite Hi in Hc. cbn [unwrap mbind result_bind] in Hc.
  apply result_bind_ok in Hc as ([store ip] & Ho & Hc). apply result_bind_ok in Hc as ([] & Hr & _).
  destruct (check_opcode_operands _ _ _ _ Hpc Hi Hw Ho) as (o & Hop & Hsup & Hoper).
  destruct (check_registers_ok _ _ _ _ _ Hw Hr) as [Hsrc Hdst]. exists insn, o. split_and!; try done; lia.
Qed.

(** The address of an access. *)
Lemma address_u64 z : is_u64 (as_u64 z).
Proof. apply unsigned_u64. lia. Qed.

Lemma load_reg_safe n insn at_pc s :
  state_ok s -> 0 <= n <= 8 -> 0 <= dst insn <= 10 -> 0 <= src insn <= 10 ->
  safe (load_reg insn at_pc n) s (fun _ s' => pc s' = pc s).
Proof.
  intros Hs Hn Hd Hr. eapply safe_bind; [by apply get_reg_safe|]. intros v s' _ (-> & _ & _).
  eapply safe_bind; [by apply load_safe; [|apply address_u64|]|]. intros w s' _ [-> Hw]. by apply set_reg_safe.
Qed.
Lemma load_abs_safe n insn at_pc s :
  state_ok s -> 0 <= n <= 8 -> safe (load_abs insn at_pc n) s (fun _ s' => pc s' = pc s).
Proof.
  intros Hs Hn. eapply safe_bind; [by apply load_safe; [|apply wrap64_range|]|]. intros w s' _ [-> Hw].
  by apply set_reg_safe.
Qed.
Lemma load_ind_safe n insn at_pc s :
  state_ok s -> 0 <= n <= 8 -> 0 <= src insn <= 10 -> safe (load_ind insn at_pc n) s (fun _ s' => pc s' = pc s).
Proof.
  intros Hs Hn Hr. eapply safe_bind; [by apply get_reg_safe|]. intros v s' _ (-> & _ & _).
  eapply safe_bind; [by apply load_safe; [|apply wrap64_range|]|]. intros w s' _ [-> Hw]. by apply set_reg_safe.
Qed.
Lemma store_imm_safe n insn at_pc s :
  state_ok s -> 0 <= n -> 0 <= dst insn <= 10 -> safe (store_imm insn at_pc n) s (fun _ s' => pc s' = pc s).
Proof.
  intros Hs Hn Hd. eapply safe_bind; [by apply get_reg_safe|]. intros v s' _ (-> & _ & _).
  by apply store_safe; [|apply address_u64|].
Qed.
Lemma store_reg_safe n insn at_pc s :
  state_ok s -> 0 <= n -> 0 <= dst insn <= 10 -> 0 <= src insn <= 10 ->
  safe (store_reg insn at_pc n) s (fun _ s' => pc s' = pc s).
Proof.
  intros Hs Hn Hd Hr. eapply safe_bind; [by apply get_reg_safe|]. intros v s' _ (-> & _ & _).
  eapply safe_bind; [by apply get_reg_safe|]. intros w s' _ (-> & _ & _).
  by apply store_safe; [|apply address_u64|].
Qed.

Lemma load_imm_safe insn at_pc s :
  state_ok s -> 0 <= at_pc -> ptr insn = at_pc -> pc s = at_pc + 1 -> at_pc + 1 < insn_count program ->
  0 <= dst insn <= 10 -> safe (load_imm program insn) s (fun _ s' => landed s').
Proof.
  intros Hs Ha Hp Hpc Hlt Hd. pose proof count_small. destruct (text_length _ Htext) as [Hl _]. unfold prog_len in Hl.
  assert (exists w, augment_lddw_unchecked program insn = Some w) as [w Hw].
  { unfold augment_lddw_unchecked, read_at. rewrite Hp, next_small, slot_small by lia.
    unfold wrapping_add. rewrite (wrap64_small ((at_pc + 1) * INSN_SIZE + 4)) by (unfold is_u64, U64_MAX, INSN_SIZE; lia).
    rewrite slice_at_in by (unfold INSN_SIZE in *; lia). cbn. eauto. }
  unfold load_imm. rewrite Hw. eapply safe_bind; [by apply safe_lift|]. intros w' s' _ [-> [= <-]].
  eapply safe_bind; [apply (safe_modify _ _ (fun _ s' => landed s')); [by apply with_pc_ok|done|]|].
  { unfold landed. cbn [pc with_pc]. rewrite Hpc, next_small by lia. lia. }
  intros [] s' Hs' Hl'. eapply safe_mono; [by apply set_reg_safe; [..|apply address_u64]|].
  intros u s'' Hpc'. unfold landed. by rewrite Hpc'.
Qed.

Lemma stack_pointer_op_safe insn s : state_ok s -> safe (stack_pointer_op insn) s (fun _ s' => pc s' = pc s).
Proof.
  intros Hs. assert (forall a, frames_ok (CallFrames.resize_stack (call_frames s) a)) as Hf.
  { intros a. destruct (so_frames _ Hs). split; try done. apply wrap64_range. }
  apply safe_modify; repeat case_match; try done; by apply with_frames_ok.
Qed.

(** Steps that only move on to the next instruction. *)
Lemma next_safe (m : VmM unit) s :
  landed s -> safe m s (fun _ s' => pc s' = pc s) -> safe (m;; mret None) s (fun (v : option Z) s' => v = None -> landed s').
Proof.
  intros Hl Hm. eapply safe_bind; [exact Hm|]. intros [] s' Hs' Hpc. apply safe_ret; [done|].
  intros _. unfold landed. by rewrite Hpc.
Qed.
Lemma moved_safe (m : VmM unit) s :
  safe m s (fun _ s' => landed s') -> safe (m;; mret None) s (fun (v : option Z) s' => v = None -> landed s').
Proof. intros Hm. eapply safe_bind; [exact Hm|]. intros [] s' Hs' Hl. by apply safe_ret. Qed.

Lemma execute_insn_safe insn o at_pc s :
  state_ok s -> 0 <= at_pc < insn_count program -> pc s = at_pc + 1 ->
  get_insn program at_pc = Some insn -> insn_wf insn -> ptr insn = at_pc ->
  opc_of (opc insn) = Some o -> supported o = true -> operands_ok insn at_pc o -> 0 <= src insn <= 10 ->
  (0 <= dst insn <= 10 \/ dst insn = STACK_PTR_REG /\ dynamic_stack_frames (config exe) = true) ->
  safe (execute_insn symbol_at exe program_vm_addr program insn at_pc) s (fun v s' => v = None -> landed s').
Proof.
  intros Hs Ha Hpc Hi Hw Hp Ho Hsup Hoper Hsrc Hdst. pose proof count_small.
  assert (landed s) as Hl by (unfold landed; lia).
  assert (is_u64 (pc s)) as Hu by (unfold is_u64, U64_MAX; lia). unfold execute_insn.
  destruct ((_ =? _) && _) eqn:Ed; [by apply next_safe, stack_pointer_op_safe|].
  assert (0 <= dst insn <= 10) as Hd.
  { destruct Hdst as [?|[Hd Hy]]; [done|]. by rewrite Hd, Hy in Ed. }
  rewrite Ho. apply opc_of_some in Ho.
  destruct o; try discriminate Hsup; cbv zeta;
    lazymatch goal with
    | |- safe (load_abs _ _ _ ≫= _) _ _ => apply next_safe, load_abs_safe; [done..|lia]
    | |- safe (load_ind _ _ _ ≫= _) _ _ => apply next_safe, load_ind_safe; [done..|lia|done]
    | |- safe (load_reg _ _ _ ≫= _) _ _ => apply next_safe, load_reg_safe; [done..|lia|done|done]
    | |- safe (store_imm _ _ _ ≫= _) _ _ => apply next_safe, store_imm_safe; [done..|lia|done]
    | |- safe (store_reg _ _ _ ≫= _) _ _ => apply next_safe, store_reg_safe; [done..|lia|done|done]
    | |- safe (alu32 _ _ _ ≫= _) _ _ => by apply next_safe, alu32_safe
    | |- safe (alu64 _ _ _ ≫= _) _ _ => by apply next_safe, alu64_safe
    | |- safe (jmp _ _ ≫= _) _ _ => by apply moved_safe, (jmp_safe insn at_pc)
    | |- safe (load_imm _ _ ≫= _) _ _ => apply moved_safe, (load_imm_safe insn at_pc); [done|lia|done..]
    | |- safe (call_imm _ _ _ _ _ _ ≫= _) _ _ => by apply moved_safe, call_imm_safe
    | |- safe (call_reg _ _ _ _ ≫= _) _ _ => by apply moved_safe, call_reg_safe
    | |- safe (exit _ _ _) _ _ => by apply exit_safe
    end.
Qed.

(** ** Steps *)
Hypothesis Hverified : forall p, 0 <= p < insn_count program -> checked program (config exe) p \/ hole program p.

Lemma hole_safe insn at_pc s :
  state_ok s -> landed s -> get_insn program at_pc = Some insn -> opc insn = 0 ->
  safe (execute_insn symbol_at exe program_vm_addr program insn at_pc) s (fun v s' => v = None -> landed s').
Proof.
  intros Hs Hl Hi Ho. unfold execute_insn.
  destruct ((_ =? _) && _); [by apply next_safe, stack_pointer_op_safe|].
  rewrite Ho. change (opc_of 0) with (@None Opc). cbv iota. split; [apply keeps_refl|].
  exists at_pc, insn. eauto.
Qed.

Lemma step_safe s :
  state_ok s -> landed s ->
  safe (step symbol_at exe program_vm_addr program) s (fun v s' => v = None -> landed s').
Proof.
  intros Hs Hl. pose proof count_small as Hn. destruct (text_length _ Htext) as [Htl _]. unfold step.
  eapply safe_bind; [apply (safe_modify _ _ (fun _ s' => pc s' = pc s)); [|done..]|].
  { apply with_meter_ok; [done|apply Hs|apply wrap64_range]. }
  intros [] s1 Hs1 Hpc1. eapply safe_bind; [by apply safe_get|]. intros at_pc s' _ [-> ->]. rewrite Hpc1.
  unfold landed in Hl. rewrite next_small by lia.
  eapply safe_bind; [apply (safe_modify _ _ (fun _ s' => pc s' = pc s + 1)); [by apply with_pc_ok|done..]|].
  intros [] s2 Hs2 Hpc2. rewrite slot_small by lia.
  destruct (Z.ltb_spec (prog_len program) ((pc s + 1) * INSN_SIZE)); [by split; [apply keeps_refl|]|].
  assert (0 <= pc s < insn_count program) as Hin by (unfold INSN_SIZE in *; lia).
  destruct (insn_at program Htext (pc s) Hin) as (insn & Hi & Hw & Hp). unfold get_insn in Hi. rewrite Hi.
  eapply safe_bind; [by apply safe_lift|]. intros i s' _ [-> [= <-]].
  eapply safe_bind; [apply (safe_modify _ _ (fun _ s' => pc s' = pc s + 1)); 
    by destruct (enable_instruction_tracing _), Hs2|].
  intros [] s3 Hs3 Hpc3. eapply (safe_bind _ _ _ (fun v s' => v = None -> landed s')).
  { destruct (Hverified (pc s) Hin) as [Hc|(i & Hi' & Ho)].
    - destruct (checked_facts (pc s) Hin Hc) as (i & o & Hi' & _ & _ & Ho & Hsup & Hoper & Hsrc & Hdst).
      unfold get_insn in Hi'. rewrite Hi in Hi'. injection Hi' as <-. by eapply execute_insn_safe.
    - unfold get_insn in Hi'. rewrite Hi in Hi'. injection Hi' as <-.
      apply hole_safe; [done|unfold landed; lia|done..]. }
  intros [v|] s4 Hs4 Hl4; [by apply safe_ret|]. eapply safe_bind; [by apply safe_get|]. intros x s' _ [-> ->].
  destruct (_ && _); [by split; [apply keeps_refl|]|apply safe_ret; [done|by intros _; apply Hl4]].
Qed.

Lemma run_safe fuel s r s' :
  state_ok s -> landed s -> run symbol_at exe program_vm_addr program fuel s = Some (r, s') ->
  keeps s s' /\ match r with Ok _ => True | Err e => runtime_error e | Panic => False end.
Proof.
  revert s. induction fuel as [|fuel IH]; intros s Hs Hl Hr; [done|]. cbn [run] in Hr.
  pose proof (step_safe s Hs Hl) as Hst. unfold safe in Hst.
  destruct (step _ _ _ _ s) as [[[v|]|e|] s1].
  - destruct Hst as (_ & Hk & _). by injection Hr as <- <-.
  - destruct Hst as (Hs1 & Hk & Hl1). destruct (IH s1 Hs1 (Hl1 eq_refl) Hr) as [Hk' Hr'].
    split; [by eapply keeps_trans|done].
  - injection Hr as <- <-. done.
  - done.
Qed.
End safety.
