(* ===== verification/EbpfMeter.v ===== *)
(** * The instruction meter

    No instruction but a system call touches the meter, and a system call only spends it; so
    the number of instructions a metered program runs is bounded by what the meter holds,
    whether or not its text was verified. *)

From Stdlib Require Import Strings.Byte.
From S2P Require Import Prelude Ebpf EbpfMemory EbpfVerifier EbpfInterpreter.

Section meter.
Context {E : Type}.

(** What the meter and the counters of the interpreter read. *)
Definition meters (s : Interpreter) : Z * Z * Z :=
  (instruction_meter s, remaining_insn_count s, due_insn_count s).

Definition unmetered {A} (m : VmM (E:=E) A) : Prop := forall s, meters (m s).2 = meters s.

Lemma unmetered_ret {A} (a : A) : unmetered (mret a).
Proof. done. Qed.
Lemma unmetered_get {A} (f : Interpreter -> A) : unmetered (vm_get f).
Proof. done. Qed.
Lemma unmetered_lift {A} (r : result (EbpfError E) A) : unmetered (vm_lift r).
Proof. done. Qed.
Lemma unmetered_throw {A} (e : EbpfError E) : unmetered (vm_throw (A:=A) e).
Proof. done. Qed.
Lemma unmetered_modify f : (forall s, meters (f s) = meters s) -> unmetered (vm_modify f).
Proof. intros Hf s. apply Hf. Qed.
Lemma unmetered_bind {A B} (m : VmM A) (f : A -> VmM B) :
  unmetered m -> (forall a, unmetered (f a)) -> unmetered (m ≫= f).
Proof.
  intros Hm Hf s. unfold mbind, VmM_bind. pose proof (Hm s) as Hs. destruct (m s) as [[a|e|] s1]; [|done..].
  cbn [snd] in Hs. by rewrite Hf.
Qed.

(** Instructions are binds of these; conditionals and matches are split. *)
Ltac solve_unmetered :=
  repeat first
    [ apply unmetered_bind; [|intros]
    | apply unmetered_ret | apply unmetered_get | apply unmetered_lift | apply unmetered_throw
    | apply unmetered_modify; intros; by repeat case_match
    | match goal with
      | |- unmetered (if ?b then _ else _) => destruct b
      | |- unmetered (match ?x with _ => _ end) => destruct x
      end ].

Lemma get_reg_unmetered i : unmetered (get_reg i).
Proof. unfold get_reg. solve_unmetered. Qed.
Lemma set_reg_unmetered i v : unmetered (set_reg i v).
Proof. unfold set_reg, get_reg. solve_unmetered. Qed.
Lemma imm_op_unmetered insn f : unmetered (imm_op insn f).
Proof. unfold imm_op, set_reg, get_reg. solve_unmetered. Qed.
Lemma reg_op_unmetered insn f : unmetered (reg_op insn f).
Proof. unfold reg_op, set_reg, get_reg. solve_unmetered. Qed.
Lemma translate_unmetered a p addr n : unmetered (translate_memory_access a p addr n).
Proof. unfold translate_memory_access. solve_unmetered. Qed.
Lemma load_unmetered n p addr : unmetered (load n p addr).
Proof. unfold load, translate_memory_access. solve_unmetered. Qed.
Lemma store_unmetered n p addr v : unmetered (store n p addr v).
Proof. unfold store, translate_memory_access. solve_unmetered. Qed.

Lemma alu32_unmetered insn p o : unmetered (alu32 insn p o).
Proof.
  destruct o; first [apply unmetered_ret | apply imm_op_unmetered | apply reg_op_unmetered
    | apply set_reg_unmetered | apply unmetered_bind; [apply get_reg_unmetered|intros; apply set_reg_unmetered]].
Qed.
Lemma alu64_unmetered insn p o : unmetered (alu64 insn p o).
Proof.
  destruct o; first [apply unmetered_ret | apply imm_op_unmetered | apply reg_op_unmetered
    | apply set_reg_unmetered | apply unmetered_bind; [apply get_reg_unmetered|intros; apply set_reg_unmetered]].
Qed.
Lemma jmp_unmetered insn o : unmetered (jmp insn o).
Proof.
  destruct o; cbn [jmp]; unfold jump_imm, jump_reg, jump, get_reg; solve_unmetered.
Qed.
Lemma check_pc_unmetered a p q t : unmetered (check_pc a p q t).
Proof. unfold check_pc. solve_unmetered. Qed.
Lemma push_frame_unmetered : unmetered push_frame.
Proof. unfold push_frame, scratch_regs, set_reg, get_reg. solve_unmetered. Qed.
Lemma call_reg_unmetered a p insn q : unmetered (call_reg a p insn q).
Proof. unfold call_reg, push_frame, scratch_regs, check_pc, set_reg, get_reg. solve_unmetered. Qed.
Lemma exit_unmetered a p q : unmetered (exit a p q).
Proof. unfold exit, check_pc, set_reg, get_reg. solve_unmetered. Qed.

(** ** System calls *)
Lemma vm_bind_ok {A B} (m : VmM (E:=E) A) (f : A -> VmM B) s b s' :
  (m ≫= f) s = (Ok b, s') <-> exists a s1, m s = (Ok a, s1) /\ f a s1 = (Ok b, s').
Proof.
  unfold mbind, VmM_bind. destruct (m s) as [[a|e|] s1]; split.
  - eauto.
  - by intros (a' & s1' & [= <- <-] & ?).
  - done.
  - by intros (? & ? & ? & ?).
  - done.
  - by intros (? & ? & ? & ?).
Qed.

Lemma unmetered_ok {A} (m : VmM (E:=E) A) s r s' : unmetered m -> m s = (r, s') -> meters s' = meters s.
Proof. intros Hm Hr. specialize (Hm s). by rewrite Hr in Hm. Qed.

(** A system call gives nothing back to the meter. *)
Definition syscall_spends (function : SyscallFunction (E:=E)) : Prop :=
  forall args m h meter r m' h' meter', 0 <= meter -> function args m h meter = (r, (m', h', meter')) ->
    0 <= meter' <= meter.

Variables (symbol_at : list byte -> Z -> ElfError + string) (exe : Executable (E:=E)).
Variables (program_vm_addr : Z) (program : list byte).
Hypothesis Hmetered : enable_instruction_meter (config exe) = true.
Hypothesis Hsyscalls : forall k f, syscall_registry exe !! k = Some f -> syscall_spends f.

(** The effect of an instruction on the meter. *)
Definition spends (s s' : Interpreter) : Prop :=
  meters s' = meters s \/
  due_insn_count s' = 0 /\ remaining_insn_count s' = instruction_meter s' /\
  0 <= instruction_meter s' <= saturating_sub (instruction_meter s) (due_insn_count s).

Lemma spends_unmetered {A} (m : VmM (E:=E) A) s r s' : unmetered m -> m s = (r, s') -> spends s s'.
Proof. intros Hm Hr. left. by eapply unmetered_ok. Qed.

Lemma syscall_spent function s u s' :
  syscall_spends function -> syscall exe function s = (Ok u, s') -> spends s s'.
Proof.
  intros Hf Hs. right. unfold syscall in Hs. rewrite Hmetered in Hs.
  apply vm_bind_ok in Hs as ([] & s1 & [= <-] & Hs). revert Hs. set (s1 := with_meter _ _ _ s). intros Hs.
  do 5 (apply vm_bind_ok in Hs as (? & ? & ?%(unmetered_ok _ _ _ _ (get_reg_unmetered _)) & Hs)).
  apply vm_bind_ok in Hs as (r & s2 & Hc & Hs). destruct (function _ _ _ _) as [r' [[m h] meter]] eqn:Er.
  injection Hc as <- <-. apply vm_bind_ok in Hs as (v & s3 & [= _ <-] & Hs).
  apply vm_bind_ok in Hs as ([] & s4 & Hr & [= _ <-]). apply (unmetered_ok _ _ _ _ (set_reg_unmetered _ _)) in Hr.
  unfold meters in *. cbn in *. simplify_eq.
  apply Hf in Er; [|unfold saturating_sub in *; lia]. split_and!; [congruence|done|lia|].
  lia.
Qed.

Lemma spends_then {A} (m : VmM (E:=E) A) s s1 r s' : spends s s1 -> unmetered m -> m s1 = (r, s') -> spends s s'.
Proof.
  intros Hs Hm Hr. apply (unmetered_ok _ _ _ _ Hm) in Hr. unfold spends, meters in *.
  destruct Hs as [Hs|Hs]; [left; congruence|right]. injection Hr as -> -> ->. done.
Qed.

Lemma call_imm_spends insn at_pc s u s' :
  call_imm symbol_at exe program_vm_addr program insn at_pc s = (Ok u, s') -> spends s s'.
Proof.
  intros Hc. unfold call_imm in Hc. destruct (if static_syscalls (config exe) then _ else _) as [syscalls calls].
  apply vm_bind_ok in Hc as (b & s1 & H1 & Hc). assert (spends s s1) as Hs1.
  { destruct syscalls; [|by injection H1 as _ <-; left].
    destruct (syscall_registry exe !! _) as [f|] eqn:Ef; [|by injection H1 as _ <-; left].
    apply vm_bind_ok in H1 as ([] & s2 & H1 & [= _ <-]). eapply syscall_spent; [by eapply Hsyscalls|done]. }
  eapply (spends_then _ _ _ _ _ Hs1); [|exact Hc]. clear.
  apply unmetered_bind; [|intros; solve_unmetered].
  solve_unmetered; apply push_frame_unmetered || apply check_pc_unmetered.
Qed.

Lemma execute_insn_spends insn at_pc s v s' :
  execute_insn symbol_at exe program_vm_addr program insn at_pc s = (Ok v, s') -> spends s s'.
Proof.
  intros He. unfold execute_insn in He. destruct (_ && _).
  { eapply spends_unmetered; [|exact He]. unfold stack_pointer_op. solve_unmetered. }
  destruct (opc_of (opc insn)) as [o|]; [|done].
  destruct o; cbv zeta in He; try discriminate He;
    lazymatch type of He with
    | (call_imm _ _ _ _ _ _ ≫= _) _ = _ =>
        apply vm_bind_ok in He as ([] & s1 & He & [= _ <-]); by eapply call_imm_spends
    | _ => eapply spends_unmetered; [|exact He]
    end;
    lazymatch goal with
    | |- unmetered (exit _ _ _) => apply exit_unmetered
    | |- unmetered (_ ≫= _) => apply unmetered_bind; [|intros; apply unmetered_ret]
    end;
    lazymatch goal with
    | |- unmetered (alu32 _ _ _) => apply alu32_unmetered
    | |- unmetered (alu64 _ _ _) => apply alu64_unmetered
    | |- unmetered (jmp _ _) => apply jmp_unmetered
    | |- unmetered (call_reg _ _ _ _) => apply call_reg_unmetered
    | |- unmetered (load_imm _ _) => unfold load_imm; solve_unmetered; apply set_reg_unmetered
    | |- unmetered (load_abs _ _ _) => unfold load_abs; solve_unmetered; apply load_unmetered || apply set_reg_unmetered
    | |- unmetered (load_ind _ _ _) =>
        unfold load_ind; solve_unmetered; apply load_unmetered || apply set_reg_unmetered || apply get_reg_unmetered
    | |- unmetered (load_reg _ _ _) =>
        unfold load_reg; solve_unmetered; apply load_unmetered || apply set_reg_unmetered || apply get_reg_unmetered
    | |- unmetered (store_imm _ _ _) => unfold store_imm; solve_unmetered; apply store_unmetered || apply get_reg_unmetered
    | |- unmetered (store_reg _ _ _) => unfold store_reg; solve_unmetered; apply store_unmetered || apply get_reg_unmetered
    end.
Qed.

(** ** Steps *)

(** The interpreter agrees with the meter on what is left. *)
Record metered (s : Interpreter) : Prop := {
  mt_agree : remaining_insn_count s = instruction_meter s;
  mt_meter : is_u64 (instruction_meter s);
  mt_due : 0 <= due_insn_count s < U64_MAX
}.

Definition allowance (s : Interpreter) : Z := remaining_insn_count s - due_insn_count s.

Lemma step_spends s s' :
  metered s -> step symbol_at exe program_vm_addr program s = (Ok None, s') ->
  metered s' /\ 0 < allowance s' < allowance s.
Proof.
  intros [Ha Hm Hd] Hs. unfold step in Hs. apply vm_bind_ok in Hs as ([] & s1 & [= <-] & Hs).
  apply vm_bind_ok in Hs as (p & ? & [= <- <-] & Hs). apply vm_bind_ok in Hs as ([] & s1 & [= <-] & Hs).
  destruct (_ <? _); [done|]. apply vm_bind_ok in Hs as (insn & ? & [= _ <-] & Hs).
  apply vm_bind_ok in Hs as ([] & s2 & H2 & Hs). apply vm_bind_ok in Hs as (v & s3 & H3%execute_insn_spends & Hs).
  apply (unmetered_ok (vm_modify _)) in H2; [|apply unmetered_modify; intros; by destruct (enable_instruction_tracing _)].
  destruct v as [v|]; [done|]. apply vm_bind_ok in Hs as (? & ? & [= <- <-] & Hs).
  rewrite Hmetered in Hs. destruct (Z.leb_spec (remaining_insn_count s3) (due_insn_count s3)) as [|Hlt]; [done|].
  injection Hs as <-. unfold meters, spends in *. cbn in H2. injection H2 as E1 E2 E3.
  unfold wrapping_add in E3. rewrite wrap64_small in E3 by (unfold is_u64; lia). unfold allowance, is_u64 in *.
  destruct H3 as [H3|(H3 & H4 & H5)].
  - unfold meters in H3. injection H3 as F1 F2 F3. split; [split; unfold is_u64; lia|lia].
  - rewrite E1, E3 in H5. unfold saturating_sub in H5. split; [split; unfold is_u64, U64_MAX in *; lia|lia].
Qed.

(** The fuel that what is left on the meter gives is enough. *)
Lemma run_ends fuel s :
  metered s -> allowance s < Z.of_nat fuel -> (0 < fuel)%nat ->
  exists out, run symbol_at exe program_vm_addr program fuel s = Some out.
Proof.
  revert s. induction fuel as [|fuel IH]; intros s Hs Hl Hf; [lia|]. cbn [run].
  destruct (step _ _ _ _ s) as [[[v|]|e|] s'] eqn:Es; eauto.
  destruct (step_spends s s' Hs Es) as [Hs' Hleft]. apply IH; [done|lia..].
Qed.

Lemma run_more fuel fuel' s out :
  (fuel <= fuel')%nat -> run symbol_at exe program_vm_addr program fuel s = Some out ->
  run symbol_at exe program_vm_addr program fuel' s = Some out.
Proof.
  revert fuel' s. induction fuel as [|fuel IH]; intros fuel' s Hle Hr; [done|].
  destruct fuel' as [|fuel']; [lia|]. cbn [run] in *. destruct (step _ _ _ _ s) as [[[v|]|e|] s']; try done.
  apply IH; [lia|done].
Qed.
End meter.
