(* ===== verification/EbpfMachine.v ===== *)
(** * Running programs on the virtual machine

    The theorems on [EbpfVm]: verified programs are safe, metered programs end, the frames of
    the stack do not overlap, calls return to their caller, and instructions are read as they
    were written. *)

From Stdlib Require Import Strings.Byte.
From S2P Require Import Prelude Ebpf EbpfMemory EbpfVerifier EbpfInterpreter EbpfElf EbpfMemoryFacts EbpfSafety EbpfMeter.

(** ** A new machine *)
Section machine.
Context {E : Type}.
Variables (hash_symbol_name : list byte -> Z) (symbol_at : list byte -> Z -> ElfError + string).

(** An executable whose parts are in the range of their types. *)
Record executable_ok (exe : Executable (E:=E)) : Prop := {
  eo_depth : max_call_depth (config exe) <= U64_MAX;
  eo_functions k p name : bpf_functions exe !! k = Some (p, name) -> 0 <= p < 2 ^ 60;
  eo_vaddr : 0 <= vaddr (text_section_info exe)
}.

Lemma zero_u64 : is_u64 0.
Proof. by apply is_u64b_spec. Qed.

Lemma fresh_frame_ok fp : is_u64 fp -> frame_ok (mkCallFrame fp [0; 0; 0; 0] 0).
Proof.
  intros Hfp. pose proof zero_u64. split; cbn; try done.
  repeat (apply List.Forall_cons; [done|]). apply List.Forall_nil.
Qed.

Lemma new_frames_ok config stack_host f :
  max_call_depth config <= U64_MAX -> CallFrames.new config stack_host = Some f -> frames_ok f.
Proof.
  intros Hd Hn. unfold CallFrames.new in Hn.
  destruct (Z.to_nat (max_call_depth config)) as [|depth] eqn:En; [done|]. cbn in Hn.
  destruct (dynamic_stack_frames config); injection Hn as <-;
    (split; cbn [frame_index frames stack_ptr insert list_insert length];
      [lia|rewrite length_replicate; lia|try apply wrap64_range; by apply is_u64b_spec|]);
    (apply List.Forall_cons; [apply fresh_frame_ok, wrap64_range|apply Forall_replicate, fresh_frame_ok, zero_u64]).
Qed.

Lemma vm_new_ok (exe : Executable (E:=E)) heap additional stack_host h vm :
  EbpfVm_new exe heap additional stack_host h = Ok vm ->
  verified_executable vm = exe /\ vm_host vm = h /\ CallFrames.new (config exe) stack_host = Some (vm_frames vm) /\
  get_text_bytes exe = Some (vm_program_addr vm, vm_program vm) /\
  vm_program_addr vm = vaddr (text_section_info exe).
Proof.
  intros Hn. unfold EbpfVm_new in Hn. inv_ok. destruct x1 as [addr program]. inv_ok. subst vm. cbn.
  split_and!; try done. match goal with H : get_text_bytes _ = _ |- _ => revert H end.
  unfold get_text_bytes. destruct (ro_bytes exe) as [[o b]|]; [|done]. cbn.
  destruct (slice_at _ _ _); [|done]. cbn. congruence.
Qed.

Lemma start_ok (exe : Executable (E:=E)) (vm : EbpfVm (E:=E)) meter s :
  executable_ok exe -> frames_ok (vm_frames vm) -> mapping_ok (vm_mapping vm) (vm_host vm) -> is_u64 meter ->
  Interpreter_new hash_symbol_name exe (vm_mapping vm) (vm_host vm) (vm_frames vm) (vm_tracer vm) meter = Ok s ->
  state_ok s /\ landed s /\ memory_mapping s = vm_mapping vm /\ host s = vm_host vm.
Proof.
  intros Hexe Hf Hm Ht Hn. pose proof zero_u64 as Hz. unfold Interpreter_new in Hn.
  apply result_bind_ok in Hn as (fp & Hfp & Hn). apply unwrap_ok in Hfp.
  apply result_bind_ok in Hn as (entry & He & [= <-]). unfold get_entrypoint_instruction_offset in He.
  apply ok_or_ok, fmap_Some in He as ([e name] & He & ->). apply (eo_functions _ Hexe) in He.
  apply fmap_Some in Hfp as (frame & Hfr & ->).
  pose proof (Forall_lookup_1 _ _ _ _ (fs_frames _ Hf) Hfr) as [Hp _ _ _]. split_and!; try done.
  split; cbn [reg call_frames memory_mapping host instruction_meter due_insn_count]; try done.
  repeat (apply List.Forall_cons; [done || by apply is_u64b_spec|]). apply List.Forall_nil.
Qed.

(** C13: A program the verifier accepted, run by the interpreter on memory the host has
    and with system calls that respect it, never panics (no register, frame, instruction
    or host address out of range, no division by zero), fails only with an error of the
    machine that says why, keeps the mapping of its memory and changes no byte outside
    the writable regions. *)
Theorem verified_programs_safe (exe : Executable (E:=E)) (heap : HostSlice) (additional : list MemoryRegion)
    (stack_host : Z) (h : HostMemory) (vm vm' : EbpfVm) (fuel : nat) (meter meter' : Z)
    (r : result (EbpfError E) Z)
    (Hexe : executable_ok exe)
    (Hsyscalls : forall k f, syscall_registry exe !! k = Some f -> syscall_ok f)
    (Hverified : from_executable exe = Ok exe)
    (Hnew : EbpfVm_new exe heap additional stack_host h = Ok vm)
    (Htext : prog_len (vm_program vm) <= 2 ^ 63 - 1)
    (Hmemory : mapping_ok (vm_mapping vm) h)
    (Hmeter : is_u64 meter)
    (Hrun : execute_program_interpreted hash_symbol_name symbol_at fuel vm meter = Some (r, vm', meter')) :
  match r with
  | Ok _ => True
  | Err e => runtime_error (vm_program vm) e
  | Panic => False
  end /\
  vm_mapping vm' = vm_mapping vm /\
  forall j, ~ writable_at (vm_mapping vm) j -> vm_host vm' !! j = h !! j.
Proof.
  destruct (vm_new_ok _ _ _ _ _ _ Hnew) as (Hv & Hh & Hf & Ht & Ha).
  assert (frames_ok (vm_frames vm)) as Hfo by (eapply new_frames_ok; [apply Hexe|done]).
  assert (exists u, verify (vm_program vm) (config exe) = Ok u) as [u Hu].
  { unfold from_executable in Hverified. rewrite Ht in Hverified. cbn in Hverified.
    apply result_bind_ok in Hverified as (u & Hu & _). apply map_err_ok in Hu. eauto. }
  destruct (verify_covers _ _ _ Htext Hu) as [Hwf Hcov].
  unfold execute_program_interpreted in Hrun. rewrite Hv in Hrun. rewrite Hh in Hrun.
  destruct (Interpreter_new _ _ _ _ _ _ _) as [s|e|] eqn:Hs.
  - rewrite <-Hh in Hs, Hmemory |- *.
    destruct (start_ok _ _ _ _ Hexe Hfo Hmemory Hmeter Hs) as (Hso & Hl & Em & Eh).
    apply bind_Some in Hrun as ([r' s'] & Hrun & [= <- <- _]). rewrite Ha in Hrun.
    destruct (run_safe symbol_at exe _ _ Hwf Hsyscalls ltac:(intros k p name Hk; by apply (eo_functions _ Hexe) in Hk as [? _])
      (eo_vaddr _ Hexe) Hcov fuel s r' s' Hso Hl Hrun) as [[K1 K2 K3] Hr].
    split_and!; [done|cbn; congruence|]. intros j Hj. cbn. rewrite K3 by (by rewrite Em). by rewrite Eh.
  - injection Hrun as <- <- _. rewrite Hh. split_and!; try done.
    unfold Interpreter_new in Hs. destruct (CallFrames.get_frame_ptr _) as [fp|]; [|done]. cbn in Hs.
    unfold get_entrypoint_instruction_offset in Hs. destruct (lookup_bpf_function _ _); [done|]. by injection Hs as <-.
  - exfalso. unfold Interpreter_new, CallFrames.get_frame_ptr in Hs.
    destruct (lookup_lt_is_Some_2 (frames (vm_frames vm)) (Z.to_nat (frame_index (vm_frames vm)))) as [fr Hfr];
      [pose proof (fs_index _ Hfo); lia|]. rewrite Hfr in Hs. cbn in Hs.
    unfold get_entrypoint_instruction_offset in Hs. by destruct (lookup_bpf_function _ _).
Qed.

(** C14: With the instruction meter on and system calls that never refill it, every
    program ends, verified or not: a fuel above the meter gives one and the same result.
    *)
Theorem metered_programs_end (vm : EbpfVm (E:=E)) (meter : Z)
    (Hmetered : enable_instruction_meter (config (verified_executable vm)) = true)
    (Hsyscalls : forall k f, syscall_registry (verified_executable vm) !! k = Some f -> syscall_spends f)
    (Hmeter : is_u64 meter) :
  exists out, forall fuel, (Z.to_nat meter < fuel)%nat ->
    execute_program_interpreted hash_symbol_name symbol_at fuel vm meter = Some out.
Proof.
  unfold execute_program_interpreted. set (exe := verified_executable vm) in *.
  destruct (Interpreter_new _ _ _ _ _ _ _) as [s|e|] eqn:Hs; [|by eexists..].
  assert (metered s /\ allowance s = meter) as [Hm Ha].
  { unfold Interpreter_new in Hs. rewrite Hmetered in Hs. inv_ok. subst s.
    split; [split; cbn; [done..|unfold U64_MAX; lia]|unfold allowance; cbn; lia]. }
  destruct (run_ends symbol_at exe (vm_program_addr vm) (vm_program vm) Hmetered Hsyscalls
    (S (Z.to_nat meter)) s Hm) as [[r s'] Hr]; [destruct Hmeter; lia|lia|].
  eexists. intros fuel Hf. rewrite (run_more symbol_at exe _ _ (S (Z.to_nat meter)) fuel s (r, s')) by (done || lia).
  reflexivity.
Qed.
End machine.

(** ** Frames of the stack *)

Lemma low_bits b g : 0 <= g -> Z.land b (Z.lnot (Z.shiftl (-1) g)) = b mod 2 ^ g.
Proof.
  intros Hg. rewrite <-Z.land_ones by done. f_equal. rewrite Z.ones_equiv, Z.shiftl_mul_pow2 by done.
  unfold Z.lnot. lia.
Qed.

Lemma high_bits b g : 0 <= g -> Z.land b (Z.shiftl (-1) g) = b / 2 ^ g * 2 ^ g.
Proof.
  intros Hg. rewrite <-Z.shiftr_div_pow2, <-Z.shiftl_mul_pow2, <-Z.ldiff_ones_r by done.
  rewrite Z.ldiff_land. f_equal. rewrite Z.ones_equiv, Z.shiftl_mul_pow2 by done. unfold Z.lnot. lia.
Qed.

Lemma land_as_u64 b m : is_u64 b -> Z.land b (as_u64 m) = Z.land b m.
Proof.
  intros Hb. unfold unsigned. rewrite <-Z.land_ones, Z.land_assoc, (Z.land_comm b m), <-Z.land_assoc by done.
  by rewrite (Z.land_ones b 64), Z.mod_small by (unfold is_u64, U64_MAX in Hb; lia).
Qed.

Lemma land_lnot_u64 b m : is_u64 b -> Z.land b (as_u64 (Z.lnot (as_u64 m))) = Z.land b (Z.lnot m).
Proof.
  intros Hb. rewrite land_as_u64 by done. rewrite <-!Z.ldiff_land. unfold unsigned.
  rewrite <-Z.land_ones by done. apply Z.bits_inj'. intros n Hn.
  rewrite !Z.ldiff_spec, Z.land_spec, Z.testbit_ones_nonneg by lia.
  destruct (Z.ltb_spec n 64); [by rewrite andb_true_r|].
  rewrite (Z.bits_above_log2 b n); [done|apply Hb|].
  destruct (Z.eq_dec b 0) as [->|]; [cbn; lia|]. unfold is_u64, U64_MAX in Hb.
  assert (Z.log2 b < 64) by (apply Z.log2_lt_pow2; lia). lia.
Qed.

Lemma lor_blocks k x g : 0 <= g -> 0 <= k -> 0 <= x < 2 ^ g -> Z.lor (k * 2 ^ g) x = k * 2 ^ g + x.
Proof.
  intros Hg Hk Hx. assert (Z.land (k * 2 ^ g) x = 0) as Hl.
  { rewrite <-(Z.mod_small x (2 ^ g)), <-Z.land_ones by done. rewrite (Z.land_comm x), Z.land_assoc.
    rewrite Z.land_ones, Z.mod_mul by lia. apply Z.land_0_l. }
  by rewrite Z.add_nocarry_lxor, Z.lxor_lor.
Qed.

(** A stack whose frames, of [2 ^ g] bytes, are apart by gaps of the same size. *)
Record gapped (f : CallFrames) (g : Z) : Prop := {
  gp_static : dynamic_stack_frames (frames_config f) = false;
  gp_gaps : enable_stack_frame_gaps (frames_config f) = true;
  gp_bits : 0 <= g <= 32;
  gp_size : stack_frame_size (frames_config f) = 2 ^ g;
  gp_host : 0 <= as_ptr (stack f);
  gp_len : 0 <= slice_len (stack f);
  gp_end : as_ptr (stack f) + slice_len (stack f) <= U64_MAX
}.

Lemma gapped_region f g :
  gapped f g ->
  CallFrames.get_memory_region f =
    mkMemoryRegion (as_ptr (stack f)) MM_STACK_START (slice_len (stack f)) g true.
Proof.
  intros [Hs Hg Hb Hz _ _ _]. unfold CallFrames.get_memory_region. rewrite Hs, Hg. cbn [negb andb].
  unfold MemoryRegion.new_writable_gapped, MemoryRegion.new. rewrite Hz.
  assert (0 < 2 ^ g) by (apply Z.pow_pos_nonneg; lia). unfold Z.gtb. destruct (Z.compare_spec (2 ^ g) 0); try lia.
  f_equal. unfold leading_zeros. destruct (Z.eqb_spec (2 ^ g) 0); [lia|]. rewrite Z.log2_pow2 by lia.
  rewrite unsigned_small by (cbn; lia). unfold saturating_sub. lia.
Qed.

(** The slot [q] is a frame when it is even and a gap when it is odd; the frames are packed
    in the memory of the host. *)
Lemma stack_slot {E} f g q x n :
  gapped f g -> 0 <= q -> 0 <= x < 2 ^ g -> 0 <= n -> MM_STACK_START + q * 2 ^ g + x <= U64_MAX ->
  MemoryRegion.vm_to_host (E:=E) (CallFrames.get_memory_region f) (MM_STACK_START + q * 2 ^ g + x) n =
  if Z.even q && (q / 2 * 2 ^ g + x + n <=? slice_len (stack f))
  then Ok (as_ptr (stack f) + (q / 2 * 2 ^ g + x))
  else Err (EbpfError.InvalidVirtualAddress (MM_STACK_START + q * 2 ^ g + x)).
Proof.
  intros Hgp Hq Hx Hn Hu. rewrite (gapped_region _ _ Hgp). destruct Hgp as [_ _ Hg _ Hh Hl He].
  unfold MemoryRegion.vm_to_host. cbn [vm_addr vm_gap_shift len host_addr].
  assert (0 < 2 ^ g) as Hp by (apply Z.pow_pos_nonneg; lia). assert (0 <= q * 2 ^ g) by nia.
  destruct (Z.ltb_spec (MM_STACK_START + q * 2 ^ g + x) MM_STACK_START); [lia|].
  assert (saturating_sub (MM_STACK_START + q * 2 ^ g + x) MM_STACK_START = q * 2 ^ g + x) as ->
    by (unfold saturating_sub; lia).
  set (b := q * 2 ^ g + x). assert (is_u64 b) as Hb by (unfold is_u64, b; unfold MM_STACK_START in Hu; lia).
  assert (b / 2 ^ g = q) as Hd by (unfold b; rewrite Z.div_add_l, Z.div_small by lia; lia).
  assert (b mod 2 ^ g = x) as Hm by (unfold b; rewrite Z.add_comm, Z.mod_add, Z.mod_small by lia; done).
  unfold checked_shr, checked_shl_i64. destruct (Z.ltb_spec g 64); [|lia]. cbn [from_option id].
  assert (as_u64 (as_i64 (Z.shiftl (-1) g)) = as_u64 (Z.shiftl (-1) g)) as -> by (by apply signed_unsigned).
  rewrite land_as_u64, land_lnot_u64 by done. rewrite low_bits, high_bits, Hm, Hd by lia.
  rewrite (Z.shiftr_div_pow2 b), Hd by lia. assert (Z.land q 1 = q mod 2) as -> by exact (Z.land_ones q 1 ltac:(lia)).
  change (1 <? 64) with true. cbn [from_option id]. rewrite Zmod_even.
  destruct (Z.even q) eqn:Ev; cbn [andb].
  - apply Z.even_spec in Ev as [k ->]. assert (2 * k / 2 = k) as -> by (rewrite Z.mul_comm; apply Z.div_mul; lia).
    replace (2 * k * 2 ^ g) with (k * 2 ^ g * 2) by lia.
    rewrite Z.shiftr_div_pow2 by lia. change (2 ^ 1) with 2. rewrite Z.div_mul, lor_blocks by lia. cbn [Z.eqb negb].
    unfold checked_add. destruct (Z.leb_spec (k * 2 ^ g + x + n) U64_MAX); rewrite ?andb_true_r;
      destruct (Z.leb_spec (k * 2 ^ g + x + n) (slice_len (stack f))); try done; [|lia].
    unfold saturating_add. f_equal. lia.
  - destruct (checked_add _ _) as [e|]; [|done]. cbn [Z.eqb Pos.eqb negb]. by rewrite andb_false_r.
Qed.

(** The frames of a gapped stack are mapped one after the other, the gaps between them are not. *)
Theorem stack_translation (E : Type) (f : CallFrames) (g k x n : Z)
    (Hgapped : gapped f g) (Hk : 0 <= k) (Hx : 0 <= x < 2 ^ g) (Hn : 0 <= n)
    (Hin : k * 2 ^ g + x + n <= slice_len (stack f))
    (Hspace : MM_STACK_START + (2 * k + 1) * 2 ^ g + x <= U64_MAX) :
  MemoryRegion.vm_to_host (E:=E) (CallFrames.get_memory_region f) (MM_STACK_START + 2 * k * 2 ^ g + x) n =
    Ok (as_ptr (stack f) + (k * 2 ^ g + x)) /\
  MemoryRegion.vm_to_host (E:=E) (CallFrames.get_memory_region f) (MM_STACK_START + (2 * k + 1) * 2 ^ g + x) n =
    Err (EbpfError.InvalidVirtualAddress (MM_STACK_START + (2 * k + 1) * 2 ^ g + x)).
Proof.
  assert (0 < 2 ^ g) by (apply Z.pow_pos_nonneg; [lia|apply Hgapped]).
  rewrite !(stack_slot _ g) by (done || lia). rewrite Z.even_mul, Z.even_add, Z.even_mul. cbn [Z.even orb Bool.eqb andb].
  replace (2 * k / 2) with k by (rewrite Z.mul_comm, Z.div_mul; lia).
  by destruct (Z.leb_spec (k * 2 ^ g + x + n) (slice_len (stack f))); [|lia].
Qed.

(** In a stack with gaps, an access of several bytes that starts in the last byte
    of a frame is mapped to the end of that frame in the memory of the host, though each
    byte after the first has an address in the gap, where an access of its own is
    refused: the bytes are those of the next frame. *)
Theorem gap_crossing_access (E : Type) (f : CallFrames) (g k n : Z)
    (Hgapped : gapped f g) (Hk : 0 <= k) (Hn : 1 < n <= 2 ^ g)
    (Hin : (k + 2) * 2 ^ g <= slice_len (stack f))
    (Hspace : MM_STACK_START + (2 * k + 2) * 2 ^ g <= U64_MAX) :
  let last := MM_STACK_START + 2 * k * 2 ^ g + (2 ^ g - 1) in
  MemoryRegion.vm_to_host (E:=E) (CallFrames.get_memory_region f) last n =
    Ok (as_ptr (stack f) + (k * 2 ^ g + (2 ^ g - 1))) /\
  forall i, 1 <= i < n ->
    MemoryRegion.vm_to_host (E:=E) (CallFrames.get_memory_region f) (last + i) 1 =
      Err (EbpfError.InvalidVirtualAddress (last + i)).
Proof.
  intros last. unfold last. split.
  - rewrite (stack_slot _ g) by (done || lia). rewrite Z.even_mul. cbn [Z.even orb andb].
    replace (2 * k / 2) with k by (rewrite Z.mul_comm, Z.div_mul; lia).
    by destruct (Z.leb_spec (k * 2 ^ g + (2 ^ g - 1) + n) (slice_len (stack f))); [|lia].
  - intros i Hi. replace (_ + i) with (MM_STACK_START + (2 * k + 1) * 2 ^ g + (i - 1)) by lia.
    rewrite (stack_slot _ g) by (done || lia). by rewrite Z.even_add, Z.even_mul.
Qed.

(** ** Calls *)

(** The frames after a sequence of calls that returned, with any changes to the stack
    pointer. *)
Inductive calls (E : Type) : CallFrames -> CallFrames -> Prop :=
| calls_nil f : calls E f f
| calls_resize f amount f' : calls E (CallFrames.resize_stack f amount) f' -> calls E f f'
| calls_call f regs ret fp f1 f2 saved fp' ret' f3 f' :
    CallFrames.push (E:=E) f regs ret = Ok (fp, f1) -> calls E f1 f2 ->
    CallFrames.pop (E:=E) f2 = Ok (saved, fp', ret', f3) -> calls E f3 f' -> calls E f f'.

Definition indexed (f : CallFrames) : Prop :=
  0 <= frame_index f < Z.of_nat (length (frames f)) /\ Z.of_nat (length (frames f)) <= U64_MAX.

Lemma push_effect {E} f regs ret fp f1 :
  indexed f -> CallFrames.push (E:=E) f regs ret = Ok (fp, f1) ->
  exists caller, frames f !! Z.to_nat (frame_index f) = Some caller /\
    frames f1 !! Z.to_nat (frame_index f) = Some (mkCallFrame (frame_ptr caller) regs ret) /\
    frame_index f1 = frame_index f + 1 /\ indexed f1 /\
    forall i, (i < Z.to_nat (frame_index f))%nat -> frames f1 !! i = frames f !! i.
Proof.
  intros [Hi Hc] Hp. unfold CallFrames.push in Hp.
  assert (wrapping_add (frame_index f) 1 = frame_index f + 1) as E1 by (apply wrap64_small; unfold is_u64; lia).
  rewrite E1 in Hp. destruct (Z.leb_spec (Z.of_nat (length (frames f))) (frame_index f + 1)); [done|].
  inv_ok. destruct (if dynamic_stack_frames _ then _ else _) as [fp0 sp]. injection Hp as _ <-.
  exists x. cbn [frames frame_index]. split_and!; [done| |done| |].
  - rewrite list_lookup_insert_ne by lia. apply list_lookup_insert_eq. lia.
  - unfold indexed. cbn [frames frame_index]. rewrite !length_insert. lia.
  - intros i Hlt. rewrite !list_lookup_insert_ne by lia. done.
Qed.

Lemma pop_effect {E} f saved fp ret f' :
  indexed f -> CallFrames.pop (E:=E) f = Ok (saved, fp, ret, f') ->
  0 < frame_index f /\ frame_index f' = frame_index f - 1 /\ frames f' = frames f.
Proof.
  intros [Hi Hc] Hp. unfold CallFrames.pop in Hp. destruct (Z.eqb_spec (frame_index f) 0); [done|].
  assert (wrapping_sub (frame_index f) 1 = frame_index f - 1) as E1 by (apply wrap64_small; unfold is_u64; lia).
  rewrite E1 in Hp. apply result_bind_ok in Hp as (fr & _ & Hp). injection Hp as _ _ _ <-. split_and!; [lia|done..].
Qed.

Lemma calls_keep {E} f f' :
  calls E f f' -> indexed f ->
  indexed f' /\ frame_index f' = frame_index f /\
  forall i, (i < Z.to_nat (frame_index f))%nat -> frames f' !! i = frames f !! i.
Proof.
  induction 1 as [f|f a f' _ IH|f regs ret fp f1 f2 saved fp' ret' f3 f' Hp _ IH1 Hq _ IH2]; intros Hf.
  - done.
  - by apply IH.
  - destruct (push_effect _ _ _ _ _ Hf Hp) as (caller & _ & _ & Hi1 & Hf1 & Hk1).
    destruct (IH1 Hf1) as (Hf2 & Hi2 & Hk2). destruct (pop_effect _ _ _ _ _ Hf2 Hq) as (_ & Hi3 & Hk3).
    assert (indexed f3) as Hf3 by (destruct Hf2; destruct Hf; unfold indexed; rewrite Hk3; lia).
    destruct (IH2 Hf3) as (Hf' & Hi' & Hk'). split_and!; [done|lia|].
    intros i Hlt. rewrite Hk', Hk3, Hk2, Hk1 by lia. done.
Qed.

(** A call followed by any sequence of balanced calls and returns and of changes to
    the stack pointer returns: the frame it pops has the saved registers and the return
    address of the call and the frame pointer of the caller, and the frames of the
    callers below are unchanged. *)
Theorem calls_return (E : Type) (f f1 f2 : CallFrames) (regs : list Z) (ret fp : Z)
    (Hf : indexed f) (Hcall : CallFrames.push (E:=E) f regs ret = Ok (fp, f1)) (Hbody : calls E f1 f2) :
  exists caller f3, frames f !! Z.to_nat (frame_index f) = Some caller /\
    CallFrames.pop (E:=E) f2 = Ok (regs, frame_ptr caller, ret, f3) /\ frame_index f3 = frame_index f /\
    forall i, (i < Z.to_nat (frame_index f))%nat -> frames f3 !! i = frames f !! i.
Proof.
  destruct (push_effect _ _ _ _ _ Hf Hcall) as (caller & Hc & Hs & Hi & Hf1 & Hk).
  destruct (calls_keep _ _ Hbody Hf1) as ([Hi2 Hc2] & Hi' & Hk'). pose proof Hf as [Hi0 _].
  unfold CallFrames.pop. destruct (Z.eqb_spec (frame_index f2) 0); [lia|].
  assert (wrapping_sub (frame_index f2) 1 = frame_index f) as ->
    by (unfold wrapping_sub; rewrite wrap64_small by (unfold is_u64; lia); lia).
  rewrite Hk', Hs by lia. cbn [unwrap mbind result_bind saved_reg frame_ptr return_ptr].
  do 2 eexists. split_and!; [done..|]. cbn [frames]. intros i Hlt. rewrite Hk', Hk by lia. done.
Qed.

(** ** Assembling *)

(** Instructions are read as they were written. *)
Theorem insn_roundtrip (l : list Insn) (k : nat) (i : Insn)
    (Hwf : Forall insn_wf l) (Hlen : is_u64 (INSN_SIZE * Z.of_nat (length l))) (Hk : l !! k = Some i) :
  get_insn (concat (to_array <$> l)) (Z.of_nat k) =
    Some (mkInsn (Z.of_nat k) (opc i) (dst i) (src i) (off i) (imm i)).
Proof.
  assert (forall l, length (concat (to_array <$> l)) = (8 * length l)%nat) as Hl8.
  { clear. induction l as [|i l IH]; [done|]. rewrite fmap_cons. cbn [concat]. rewrite length_app, IH. cbn. lia. }
  rewrite <-(decoded_of_array (Z.of_nat k) i) by (by eapply Forall_lookup_1).
  apply get_insn_slice; [lia| |].
  { rewrite Hl8. unfold INSN_SIZE in Hlen. by replace (Z.of_nat (8 * length l)) with (8 * Z.of_nat (length l)) by lia. }
  pose proof (lookup_lt_Some _ _ _ Hk) as Hlt. unfold INSN_SIZE. rewrite slice_at_in by (rewrite Hl8; lia). f_equal.
  rewrite <-(take_drop_middle _ _ _ Hk), fmap_app, fmap_cons, concat_app. cbn [concat].
  rewrite drop_app_length' by (rewrite Hl8, length_take; lia).
  by rewrite take_app_length'.
Qed.

(** ** A program *)

(** It stores a word on its stack, reads it back and makes a system call. *)
Definition mx_config : Config :=
  mkConfig 2 64 true 10000 true false false true false 256 true true true true true false true true true true.
Definition mx_text : list byte :=
  concat (to_array <$>
    [mkInsn 0 (opc_value MOV64_IMM) 1 0 0 7; mkInsn 0 (opc_value ST_DW_REG) 10 1 (-8) 0;
     mkInsn 0 (opc_value LD_DW_REG) 1 10 (-8) 0; mkInsn 0 (opc_value CALL_IMM) 0 0 0 9;
     mkInsn 0 (opc_value EXIT) 0 0 0 0]).

Definition mx_symbol_at (_ : list byte) (_ : Z) : ElfError + string := inr EmptyString.

(** A system call that adds one to its first argument. *)
Definition mx_syscall : SyscallFunction (E:=unit) :=
  fun args m h meter => (Ok (wrapping_add (hd 0 args) 1), (m, h, saturating_sub meter 1)).

Definition mx_exe : Executable (E:=unit) :=
  new_from_text_bytes mx_config 1000 mx_text {[9 := mx_syscall]} {[cx_hash entrypoint_name := (0, EmptyString)]}.
Definition mx_host : HostMemory :=
  insert_bytes 1000 mx_text (insert_bytes 2000 (replicate 128 x00) (insert_bytes 3000 (replicate 8 x00) ∅)).
Definition mx_frames : CallFrames :=
  default (mkCallFrames mx_config (mkSlice 0 0) 0 0 0 []) (CallFrames.new mx_config 2000).
Definition mx_mapping : MemoryMapping :=
  mkMemoryMapping
    [MemoryRegion.new_readonly (mkSlice 1 0) 0; MemoryRegion.new_readonly (mkSlice 1000 40) MM_PROGRAM_START;
     CallFrames.get_memory_region mx_frames; MemoryRegion.new_writable (mkSlice 3000 8) MM_HEAP_START] mx_config.
Definition mx_vm : EbpfVm (E:=unit) :=
  mkEbpfVm mx_exe mx_text MM_PROGRAM_START mx_mapping mx_host [] mx_frames 0.
Definition mx_out : option (result (EbpfError unit) Z * EbpfVm * Z) :=
  execute_program_interpreted cx_hash mx_symbol_at 10 mx_vm 100.

Lemma mx_vm_new : EbpfVm_new mx_exe (mkSlice 3000 8) [] 2000 mx_host = Ok mx_vm.
Proof. reflexivity. Qed.

Lemma mx_verified : from_executable mx_exe = Ok mx_exe.
Proof.
  unfold from_executable. assert (get_text_bytes mx_exe = Some (MM_PROGRAM_START, mx_text)) as -> by reflexivity.
  assert (verify mx_text (config mx_exe) = Ok tt) as Hv by (vm_compute; reflexivity). cbn [unwrap mbind result_bind].
  by rewrite Hv.
Qed.

Lemma mx_result : fst ∘ fst <$> mx_out = Some (Ok 8) /\ snd <$> mx_out = Some 94.
Proof. vm_compute. auto. Qed.

(** [mapping_ok] on a concrete machine. *)
Definition region_okb (h : HostMemory) (r : MemoryRegion) : bool :=
  (0 <=? host_addr r) && (0 <=? len r) && (host_addr r + len r <=? U64_MAX) && (0 <=? vm_addr r) &&
  forallb (fun k => bool_decide (is_Some (h !! (host_addr r + Z.of_nat k)))) (seq 0 (Z.to_nat (len r))).

Lemma region_okb_ok h r : region_okb h r = true -> region_ok h r.
Proof.
  unfold region_okb. rewrite !andb_true_iff, !Z.leb_le. intros ((((H1 & H2) & H3) & H4) & H5). split; try done.
  intros k Hk. rewrite forallb_forall in H5. specialize (H5 (Z.to_nat k)). rewrite Z2Nat.id in H5 by lia.
  apply bool_decide_eq_true in H5; [done|]. apply in_seq. lia.
Qed.

Lemma mx_mapping_ok : mapping_ok mx_mapping mx_host.
Proof.
  intros i r Hr Hi. apply region_okb_ok.
  do 4 (destruct i as [|i]; [first [lia | injection Hr as <-; vm_compute; reflexivity]|]). done.
Qed.

Lemma mx_executable_ok : executable_ok mx_exe.
Proof.
  split; [by apply Z.leb_le|intros k p name Hk|by apply Z.leb_le].
  cbn [bpf_functions mx_exe new_from_text_bytes] in Hk. apply lookup_singleton_Some in Hk as [_ [= <- _]]. lia.
Qed.

Lemma mx_syscalls_ok k f : syscall_registry mx_exe !! k = Some f -> syscall_ok f /\ syscall_spends f.
Proof.
  cbn [syscall_registry mx_exe new_from_text_bytes]. intros [_ <-]%lookup_singleton_Some. unfold mx_syscall, syscall_ok, syscall_spends, is_u64, saturating_sub.
  split; intros * ; [intros Hm Ha Ht|intros Ht]; intros [= <- <- <- <-]; [|lia].
  split_and!; try done; try lia; apply wrap64_range.
Qed.

Lemma verified_programs_safe_witness :
  match mx_out with
  | Some (r, vm', _) =>
      r = Ok 8 /\ vm_mapping vm' = mx_mapping /\
      forall j, ~ writable_at mx_mapping j -> vm_host vm' !! j = mx_host !! j
  | None => False
  end.
Proof.
  pose proof mx_result as [Hr _]. destruct mx_out as [ [[r vm'] meter']|] eqn:Ho; [|done].
  injection Hr as ->. split; [done|].
  apply (verified_programs_safe cx_hash mx_symbol_at mx_exe (mkSlice 3000 8) [] 2000 mx_host mx_vm vm' 10 100 meter' (Ok 8)
    mx_executable_ok (fun k f H => proj1 (mx_syscalls_ok k f H)) mx_verified mx_vm_new
    ltac:(by apply Z.leb_le) mx_mapping_ok ltac:(by apply is_u64b_spec) Ho).
Defined.

Lemma metered_programs_end_witness :
  exists out, forall fuel, (100 < fuel)%nat ->
    execute_program_interpreted cx_hash mx_symbol_at fuel mx_vm 100 = Some out.
Proof.
  exact (metered_programs_end cx_hash mx_symbol_at mx_vm 100 eq_refl (fun k f H => proj2 (mx_syscalls_ok k f H))
    ltac:(by apply is_u64b_spec)).
Defined.

Lemma mx_gapped : gapped mx_frames 6.
Proof. split; vm_compute; try done; split; discriminate. Qed.

Lemma stack_translation_witness :
  MemoryRegion.vm_to_host (E:=unit) (CallFrames.get_memory_region mx_frames) (MM_STACK_START + 2 * 1 * 2 ^ 6 + 8) 8 =
    Ok 2072.
Proof.
  apply (stack_translation unit mx_frames 6 1 8 8 mx_gapped); try lia; vm_compute; try split; discriminate || done.
Defined.

Lemma gap_crossing_access_witness :
  MemoryRegion.vm_to_host (E:=unit) (CallFrames.get_memory_region mx_frames) (MM_STACK_START + 63) 8 = Ok 2063.
Proof.
  apply (gap_crossing_access unit mx_frames 6 0 8 mx_gapped); try lia; vm_compute; discriminate || done.
Defined.

Lemma calls_return_witness :
  match CallFrames.push (E:=unit) mx_frames [1; 2; 3; 4] 17 with
  | Ok (fp, f1) =>
      fp = MM_STACK_START + 3 * 64 /\
      exists f3, CallFrames.pop (E:=unit) f1 = Ok ([1; 2; 3; 4], MM_STACK_START + 64, 17, f3)
  | _ => False
  end.
Proof.
  assert (indexed mx_frames) as Hi by (split; vm_compute; try split; discriminate || done).
  destruct (CallFrames.push mx_frames [1; 2; 3; 4] 17) as [ [fp f1]|e|] eqn:Hpush; [|by vm_compute in Hpush..].
  destruct (calls_return unit mx_frames f1 f1 [1; 2; 3; 4] 17 fp Hi Hpush (calls_nil unit f1))
    as (caller & f3 & Hc & Hp & _).
  vm_compute in Hpush. injection Hpush as <- _. split; [done|]. exists f3. rewrite Hp. by injection Hc as <-.
Defined.

Lemma insn_roundtrip_witness : get_insn mx_text 1 = Some (mkInsn 1 (opc_value ST_DW_REG) 10 1 (-8) 0).
Proof.
  apply (insn_roundtrip
    [mkInsn 0 (opc_value MOV64_IMM) 1 0 0 7; mkInsn 0 (opc_value ST_DW_REG) 10 1 (-8) 0;
     mkInsn 0 (opc_value LD_DW_REG) 1 10 (-8) 0; mkInsn 0 (opc_value CALL_IMM) 0 0 0 9;
     mkInsn 0 (opc_value EXIT) 0 0 0 0] 1 (mkInsn 0 (opc_value ST_DW_REG) 10 1 (-8) 0)); [|by apply is_u64b_spec|done].
  repeat (apply List.Forall_cons; [split; vm_compute; split; discriminate || done|]). apply List.Forall_nil.
Defined.

(** ** Calls into the second slot of a wide load *)

(** The verifier accepts a call of the second slot of a wide load, which is no instruction,
    and the machine runs through it. *)
Lemma call_into_wide_load :
  match fixup_relative_calls (E:=unit) cx_hash Config_default cx_functions ∅ cx_text with
  | Ok (functions, text) =>
      let exe := new_from_text_bytes (E:=unit) Config_default 1000 text ∅ functions in
      verify text Config_default = Ok tt /\ opc <$> get_insn text 3 = Some 0 /\ opc_of 0 = None /\
      match EbpfVm_new exe (mkSlice 3000 0) [] 2000 ∅ with
      | Ok vm => fst ∘ fst <$> execute_program_interpreted cx_hash mx_symbol_at 10 vm 100 = Some (Ok 0)
      | _ => False
      end
  | _ => False
  end.
Proof. vm_compute. auto. Qed.
